(* ===== verification/_CoqProject ===== *)
-Q . S2P
Prelude.v
ItsUtils.v
ItsFlash.v
ItsMblock.v
ItsFs.v
ItsImage.v
ItsDevSpec.v
ItsMblockSpec.v
ItsLookupSpec.v
ItsCommit.v
ItsFinalize.v
ItsRebuild.v
ItsDeletePlan.v
ItsWrite.v
ItsFileWrite.v
ItsFileSpec.v
ItsFileOps.v
ItsMount.v
ItsBackends.v
ItsTable.v
ItsChunk.v
Its.v
ItsInit.v
ItsService.v
ItsReqMngr.v
ItsExample.v
ItsTheorems.v
ItsFsTheorems.v
PsBase.v
PsState.v
PsCrypto.v
PsTable.v
PsObject.v
PsService.v
PsBytes.v
PsInv.v
PsSaveSpec.v
PsStoreSpec.v
PsUpdateSpec.v
PsSystemSpec.v
PsOpsSpec.v
PsMountSpec.v
PsFormat.v
PsServiceSpec.v
PsDevice.v
PsTheorems.v
BiList.v
SpmBase.v
SpmPool.v
SpmSched.v
SpmState.v
SpmIpc.v
SpmClient.v
SpmService.v
SpmInit.v
SpmSvc.v
SpmInv.v
SpmInvMsg.v
SpmInvGet.v
SpmInvCall.v
SpmInvServe.v
SpmInvReply.v
SpmBoot.v
SpmExample.v
SpmTheorems.v
Mailbox.v
MailboxSys.v
MailboxSim.v
MailboxSpm.v
MailboxTheorems.v
AuditLog.v
AuditSpec.v
AuditTheorems.v
Crypto.v
CryptoKeys.v
CryptoOps.v
CryptoSpec.v
CryptoApi.v
CryptoTheorems.v
CryptoAgree.v
