(* ===== verification/Prelude.v ===== *)
(** * Trusted Firmware-M: a verification library

    This library verifies the parts of Trusted Firmware-M that hold its own
    logic: the Internal Trusted Storage partition (ITS), the Protected Storage
    partition (PS), the audit log, the crypto service, the Secure Partition
    Manager of the IPC model (SPM), and the mailbox between two cores.
    Paths below are relative to src/.

    ** How the parts interact

    Clients reach the partitions through the SPM: psa_connect and psa_call
    queue a message for the service, the scheduler runs its partition, and
    psa_get, psa_read, psa_write and psa_reply move the request.  ITS stores
    assets in a log-structured filesystem on flash.  PS stores encrypted
    objects as files of ITS, and keeps a table of them that is authenticated
    together with a non-volatile counter.  The models of the parts meet
    at interfaces: PS is verified over any ITS, counters and crypto that keep
    the class PsDevSpec; the filesystem over any flash device that keeps
    FlashSpec; the crypto service over any PSA Crypto library that keeps
    PsaCryptoLaws; the services over the message of the client.

    ** Files

    - Prelude.v: machine integers, status codes, the state-and-error monad [M]
      with [wp], list and byte lemmas.
    - ITS, secure_fw/partitions/internal_trusted_storage/:
      ItsUtils.v (its_utils.c), ItsFlash.v (flash/its_flash_{ram,nor,nand}.c
      and the contract FlashSpec), ItsMblock.v (flash_fs/its_flash_fs_mblock.c),
      ItsFs.v (its_flash_fs_dblock.c, its_flash_fs.c), Its.v
      (tfm_internal_trusted_storage.c), ItsReqMngr.v (tfm_its_req_mngr.c).
      ItsImage.v says what a flash image means; ItsDevSpec.v to ItsMount.v
      prove each operation against it, bottom up; ItsTable.v and ItsChunk.v
      lift the filesystem to a map of files;
      ItsInit.v and ItsService.v prove the service; ItsBackends.v the back
      ends.
    - PS, secure_fw/partitions/protected_storage/: PsBase.v (the interface to
      ITS, counters and crypto), PsState.v (structures and static variables),
      PsCrypto.v (crypto/ps_crypto_interface.c, nv_counters/ps_nv_counters.c),
      PsTable.v (ps_object_table.c), PsObject.v (ps_encrypted_object.c,
      ps_object_system.c, ps_utils.c), PsService.v (tfm_protected_storage.c,
      tfm_ps_req_mngr.c, platform/ext/common/template/tfm_platform_ps.c).
      PsInv.v holds the invariant; PsBytes.v to PsOpsSpec.v prove the
      operations; PsMountSpec.v and PsFormat.v the start;
      PsServiceSpec.v the service, its message loop and restarts;
      PsDevice.v two executable devices and a concrete partition.
    - SPM, secure_fw/spm/: BiList.v (include/lists.h), SpmPool.v
      (cmsis_psa/tfm_pools.c), SpmSched.v (tfm_thread.c, tfm_wait.c),
      SpmState.v and SpmIpc.v (spm_ipc.c), SpmClient.v
      (ffm/spm_psa_client_call.c), SpmService.v (ffm/psa_client_service_apis.c),
      SpmInit.v (tfm_spm_init), SpmSvc.v (tfm_core_svcalls_ipc.c, tfm_rpc.c).
      SpmInv.v holds the invariant, SpmInvMsg.v to SpmInvReply.v prove that
      every call keeps it, SpmBoot.v that the start establishes it, and what
      every call keeps without any discipline: the bounds of the output
      vectors and the messages of other partitions.
    - Mailbox, for two cores: Mailbox.v (the queues of both cores; the
      non-secure side, interface/src/multi_core/tfm_ns_mailbox.c; the secure
      side, secure_fw/spm/cmsis_psa/tfm_spe_mailbox.c, over the class TfmRpc of
      the calls it makes; the client API of the other core,
      tfm_multi_core_psa_ns_api.c).  MailboxSys.v interleaves the tasks, the
      interrupt handler and the secure core in the steps between their critical
      sections, states what a set of remote calls may do (rpc_step), and has
      the invariant of a slot; MailboxSim.v proves the simulation;
      MailboxSpm.v shows that the SPM is such a server and what it does to the
      mailbox; MailboxTheorems.v.
    - AuditLog.v (secure_fw/partitions/audit_logging/audit_core.c), AuditSpec.v
      (the ring as a queue of records), AuditTheorems.v.
    - Crypto, secure_fw/partitions/crypto/: Crypto.v (the library as a
      parameter, crypto_alloc.c, the scratch memory of crypto_init.c, the key
      handles of crypto_key.c), CryptoKeys.v (crypto_vendor_key.c,
      crypto_key.c, crypto_asymmetric.c), CryptoOps.v (crypto_hash.c,
      crypto_mac.c, crypto_cipher.c, crypto_aead.c, crypto_key_derivation.c,
      the message handler of crypto_init.c), CryptoApi.v (the client library,
      tfm_crypto_secure_api.c).  CryptoSpec.v holds the invariant, a program
      logic for what a request may touch, and the proof that every secure
      function and every message keeps to it; CryptoTheorems.v runs the hash
      functions and has the properties; CryptoAgree.v proves that the client
      library and the service agree.
    - The files *Example.v hold concrete systems, the files *Theorems.v the
      properties with their instances.

    ** How code is modelled

    A C function of the partitions is a function in the monad [M S A]: a
    result or a status code, and the new state.  The SPM uses a monad with
    three more outcomes: a panic, a system call that does not return to its
    caller yet, and a null pointer that was followed.  Fixed-width integers
    are [Z] with the wrap-around written out ([u8], [u16], [u32]); bytes are
    [list Z]; structures that are stored or authenticated as memory have an
    encoding to bytes, little endian, with their padding.  Copies into static
    buffers are checked: a copy that would leave its buffer sets a flag
    ([overrun]) that the invariant says is clear.  Static variables are the
    fields of one state record per part; lists of the SPM are nodes in a store
    with two pointers each, so that aliasing is modelled.

    Power failures are part of the device: an operation that fails may have
    been carried out in part, and every later one fails.  A restart is a run
    from the boot state on a device with the same content.

    ** What the theorems show

    - ITS: tfm_its_set, tfm_its_get, tfm_its_remove refine a map from (client,
      UID) to assets; a power failure inside tfm_its_set leaves the old or the
      new asset (or, for data longer than the buffer, a prefix of the new one
      made of whole chunks); clients are isolated; the filesystem recovers at
      the next start; formatting, encodings, the bounds of the configuration
      and the flash back ends are correct.  Assets may be empty; but a call
      that puts data in the place of an asset stored without any, or removes
      such an asset, is excluded ([replaceable], and the conditions on [f_max]
      of the filesystem theorems): the code damages another file there
      (its_flash_fs.c:498).
    - PS: the same for objects, through encryption, two table files and three
      counters; a start accepts only a table a current counter value vouches
      for; IVs do not repeat within a run; the message loop answers every
      request and touches no other client.  That a call is atomic over a
      restart is for a durable state, one whose table counter 1 vouches for:
      a power failure between the counter and the table, and a restart after
      it, lead to a state that is not, and the restart after that loses all
      objects, which is a theorem.
    - Audit: the ring buffer is a queue of records under every history of
      calls, the oldest records give way, and retrieving reads around its end.
    - Crypto: the tables of the service are in order, unused contexts and the
      scratch memory zero, after any requests; clients are isolated, handles
      and keys of others are out of reach; a hash computed in steps through
      the client library is the hash of all the data; every function of the
      client library makes requests whose shape the service accepts, but for
      the key agreement of the secure side, which the service always rejects:
      as a programming error, or for want of scratch memory.
    - SPM: these theorems are for builds with one core ([cf_single] in
      [spm_cfg_ok]), and where they say so for disciplined histories: no call
      or close on a handle whose connection was closed, no reply to a message
      that was not taken or was replied to already.  The SPM does not check
      these, and the model shows what then goes wrong (see the findings).
      With them, an invariant of the pool, the handle lists, the message
      queues, signals, events and threads holds in every reachable state from
      the start on; no system call follows a null pointer, and all loops end;
      psa_connect, psa_call, psa_get, psa_read, psa_write, psa_wait and
      psa_reply do what the specification asks for on every branch; the
      scheduler runs the runnable thread of the highest priority; non-secure
      calls on live handles do not panic the SPM, but for the static handle
      of an index without a service.  Without any discipline, no service call
      changes a message of another partition, and output vectors never hold
      more than their room.
    - Mailbox: when tasks take their slots one at a time, and always with one
      slot, every interleaving is a history of independent calls, each answered
      once with its own answer; two tasks that take slots at the same time can
      end up in the same slot, and get each other's answer.  The steps are the
      functions of the secure core; a call is answered at once, or the SPM
      queues a message whose reply, as long as the slot holds the call, goes
      to its slot; the arguments of the client API reach the SPM unchanged;
      psa_close of the null handle is not answered by the turn that handles
      it, and nothing in the SPM refers to it afterwards.

    ** Fuel and bounds

    Loops over a counter recurse on it.  The copy loop of the filesystem, the
    chunk loop of tfm_its_set and tfm_its_get and the walks over the lists of
    the SPM take fuel: the number of bytes, chunks or nodes left, which the
    theorems show to be enough, so that running out is never a result.

    ** Not modelled

    - The cryptography itself: the PSA Crypto library, the accelerators and
      the platform layer for vendor keys and the hardware unique key are
      parameters; an operation context is bytes that only the library reads.
      Bytes past the nonce of the packed arguments are not modelled.
    - Attestation, firmware update and platform partitions, the PSA proxy:
      wrappers over external libraries and platform code.
    - The variant of the non-secure mailbox with a mailbox thread, its
      statistics, and the platform's notification of the other core: here the
      interrupt handler may run at any time, woken or not.
    - PS without encryption or without rollback protection, and the entry
      points of the library model for PS; ITS is built with
      ITS_VALIDATE_METADATA_FROM_FLASH and an alignment of at most 4.
    - The SPM of the library model, isolation levels above 1 in the thread
      switch, log output, boot data, stacks and registers.
    - Counters fail only at their maximum or when the power goes; the
      confidentiality of the encryption is not stated, only that a tag belongs
      to one plain text and one counter value. *)

From Stdlib Require Import ZArith List Lia Bool.
From stdpp Require Import base tactics list.
Import ListNotations.
Local Open Scope Z_scope.

(** ** Machine integers

    The firmware targets 32-bit Arm cores: [uint8_t], [uint16_t], [uint32_t]
    and [size_t] are integers modulo 2^8, 2^16, 2^32 and 2^32. *)
Definition u8 (x : Z) : Z := x mod 2 ^ 8.
Definition u16 (x : Z) : Z := x mod 2 ^ 16.
Definition u32 (x : Z) : Z := x mod 2 ^ 32.
Definition UINT32_MAX : Z := 2 ^ 32 - 1.

(** ** PSA status codes (interface/include/psa/error.h) *)
Abbreviation psa_status_t := Z (only parsing).
Definition PSA_SUCCESS : psa_status_t := 0.
Definition PSA_ERROR_PROGRAMMER_ERROR : psa_status_t := -129.
Definition PSA_ERROR_CONNECTION_REFUSED : psa_status_t := -130.
Definition PSA_ERROR_CONNECTION_BUSY : psa_status_t := -131.
Definition PSA_ERROR_GENERIC_ERROR : psa_status_t := -132.
Definition PSA_ERROR_NOT_PERMITTED : psa_status_t := -133.
Definition PSA_ERROR_NOT_SUPPORTED : psa_status_t := -134.
Definition PSA_ERROR_INVALID_ARGUMENT : psa_status_t := -135.
Definition PSA_ERROR_INVALID_HANDLE : psa_status_t := -136.
Definition PSA_ERROR_BAD_STATE : psa_status_t := -137.
Definition PSA_ERROR_BUFFER_TOO_SMALL : psa_status_t := -138.
Definition PSA_ERROR_ALREADY_EXISTS : psa_status_t := -139.
Definition PSA_ERROR_DOES_NOT_EXIST : psa_status_t := -140.
Definition PSA_ERROR_INSUFFICIENT_MEMORY : psa_status_t := -141.
Definition PSA_ERROR_INSUFFICIENT_STORAGE : psa_status_t := -142.
Definition PSA_ERROR_INSUFFICIENT_DATA : psa_status_t := -143.
Definition PSA_ERROR_SERVICE_FAILURE : psa_status_t := -144.
Definition PSA_ERROR_COMMUNICATION_FAILURE : psa_status_t := -145.
Definition PSA_ERROR_STORAGE_FAILURE : psa_status_t := -146.
Definition PSA_ERROR_HARDWARE_FAILURE : psa_status_t := -147.
Definition PSA_ERROR_INVALID_SIGNATURE : psa_status_t := -149.
Definition PSA_ERROR_DATA_CORRUPT : psa_status_t := -152.

(** ** A state monad with error codes

    A C function that returns a [psa_status_t] and fills its out parameters
    on success is a computation [M S A]: it threads the state [S] and returns
    either [Ok] with the out parameters or [Err] with the status.  The state
    reached is kept on the error path too. *)
Inductive res (A : Type) : Type :=
| Ok (a : A)
| Err (e : psa_status_t).
Arguments Ok {A} a.
Arguments Err {A} e.

Definition M (S A : Type) : Type := S -> res A * S.

Section Monad.
Context {S : Type}.

Definition ret {A} (a : A) : M S A := fun s => (Ok a, s).
Definition fail {A} (e : psa_status_t) : M S A := fun s => (Err e, s).
Definition bind {A B} (m : M S A) (f : A -> M S B) : M S B :=
  fun s => match m s with
           | (Ok a, s') => f a s'
           | (Err e, s') => (Err e, s')
           end.
(** [if (err != PSA_SUCCESS) return f err;] *)
Definition on_err {A} (f : psa_status_t -> psa_status_t) (m : M S A) : M S A :=
  fun s => match m s with
           | (Err e, s') => (Err (f e), s')
           | r => r
           end.
(** The status of a call as a value, for code that branches on it. *)
Definition attempt {A} (m : M S A) : M S (res A) :=
  fun s => let '(r, s') := m s in (Ok r, s').
Definition reads {A} (f : S -> A) : M S A := fun s => (Ok (f s), s).
Definition modify (f : S -> S) : M S unit := fun s => (Ok tt, f s).
(** A call that only returns a status. *)
Definition status (f : S -> psa_status_t * S) : M S unit :=
  fun s => let '(e, s') := f s in
           if e =? PSA_SUCCESS then (Ok tt, s') else (Err e, s').

(** [for (i = lo; i < lo + n; i++)] over a body that either returns from
    the enclosing function ([inl]) or goes on with new locals ([inr]). *)
Fixpoint mfor {A R} (n : nat) (i : Z) (acc : A)
    (body : Z -> A -> M S (R + A)) : M S (R + A) :=
  match n with
  | O => ret (inr acc)
  | Datatypes.S n' =>
      bind (body i acc) (fun x =>
        match x with
        | inl r => ret (inl r)
        | inr acc' => mfor n' (i + 1) acc' body
        end)
  end.
End Monad.

Declare Scope m_scope.
Delimit Scope m_scope with m.
Notation "'let!' x ':=' m 'in' k" := (bind m (fun x => k))
  (at level 10, x pattern, m at level 100, k at level 200,
   format "'[v' 'let!'  x  ':='  m  'in' '/' k ']'") : m_scope.
Notation "'do!' m 'in' k" := (bind m (fun _ => k))
  (at level 10, m at level 100, k at level 200,
   format "'[v' 'do!'  m  'in' '/' k ']'") : m_scope.
Open Scope m_scope.

(** [m or_return e]: any failure of [m] becomes the status [e]. *)
Notation "m 'or_return' e" := (on_err (fun _ => e) m)
  (at level 99, only parsing) : m_scope.

(** ** Weakest preconditions

    [wp m s Q E]: from [s], [m] returns normally in a state that satisfies
    [Q], or with a status and a state that satisfy [E]. *)
Definition wp {S A} (m : M S A) (s : S) (Q : A -> S -> Prop)
    (E : psa_status_t -> S -> Prop) : Prop :=
  match m s with
  | (Ok a, s') => Q a s'
  | (Err e, s') => E e s'
  end.

Section WP.
Context {S : Type}.
Implicit Types s : S.

Lemma wp_mono {A} (m : M S A) s (Q Q' : A -> S -> Prop) (E E' : psa_status_t -> S -> Prop) :
  wp m s Q E -> (forall a s', Q a s' -> Q' a s') -> (forall e s', E e s' -> E' e s') ->
  wp m s Q' E'.
Proof. unfold wp. destruct (m s) as [[a|e] s']; auto. Qed.

Lemma wp_conj {A} (m : M S A) s (Q Q' : A -> S -> Prop) (F F' : psa_status_t -> S -> Prop) :
  wp m s Q F -> wp m s Q' F' -> wp m s (fun a s' => Q a s' /\ Q' a s') (fun e s' => F e s' /\ F' e s').
Proof. unfold wp. destruct (m s) as [[a|e] s']; auto. Qed.

Lemma wp_ret {A} (a : A) s (Q : A -> S -> Prop) E : Q a s -> wp (ret a) s Q E.
Proof. auto. Qed.

Lemma wp_fail {A} e s (Q : A -> S -> Prop) (E : psa_status_t -> S -> Prop) :
  E e s -> wp (fail e) s Q E.
Proof. auto. Qed.

Lemma wp_bind {A B} (m : M S A) (f : A -> M S B) s Q E :
  wp m s (fun a s' => wp (f a) s' Q E) E -> wp (bind m f) s Q E.
Proof. unfold wp, bind. destruct (m s) as [[a|e] s']; auto. Qed.

Lemma wp_bind_inv {A B} (m : M S A) (f : A -> M S B) s Q E :
  wp (bind m f) s Q E -> wp m s (fun a s' => wp (f a) s' Q E) E.
Proof. unfold wp, bind. destruct (m s) as [[a|e] s']; auto. Qed.

Lemma wp_on_err {A} g (m : M S A) s Q (E : psa_status_t -> S -> Prop) :
  wp m s Q (fun e s' => E (g e) s') -> wp (on_err g m) s Q E.
Proof. unfold wp, on_err. destruct (m s) as [[a|e] s']; auto. Qed.

Lemma wp_attempt {A} (m : M S A) s (Q : res A -> S -> Prop) E :
  wp m s (fun a s' => Q (Ok a) s') (fun e s' => Q (Err e) s') -> wp (attempt m) s Q E.
Proof. unfold wp, attempt. destruct (m s) as [[a|e] s']; auto. Qed.

Lemma wp_reads {A} (f : S -> A) s (Q : A -> S -> Prop) E : Q (f s) s -> wp (reads f) s Q E.
Proof. auto. Qed.

Lemma wp_modify (f : S -> S) s (Q : unit -> S -> Prop) E : Q tt (f s) -> wp (modify f) s Q E.
Proof. auto. Qed.

Lemma wp_ok {A} (m : M S A) s Q : wp m s Q (fun _ _ => False) ->
  exists a s', m s = (Ok a, s') /\ Q a s'.
Proof. unfold wp. destruct (m s) as [[a|e] s']; [eauto|done]. Qed.

Lemma wp_wand {A} (m : M S A) s r s' Q E :
  m s = (r, s') -> wp m s Q E ->
  match r with Ok a => Q a s' | Err e => E e s' end.
Proof. unfold wp. by intros ->. Qed.

(** A known outcome. *)
Lemma wp_run {A} (m : M S A) s Q E r : fst (m s) = r -> wp m s Q E ->
  match r with Ok a => Q a (snd (m s)) | Err e => E e (snd (m s)) end.
Proof. intros <-. unfold wp. by destruct (m s) as [[a|e] s']. Qed.

Lemma wp_ok_state {A} (m : M S A) s Q : wp m s Q (fun _ _ => False) -> exists a, Q a (snd (m s)).
Proof. unfold wp. destruct (m s) as [[a|e] s']; [eauto|done]. Qed.

(** The loop rule: [I k acc] holds before iteration [k]. *)
Lemma wp_mfor {A R} (I : Z -> A -> S -> Prop) (body : Z -> A -> M S (R + A)) n lo acc s Q E :
  I lo acc s ->
  (forall k acc s, lo <= k < lo + Z.of_nat n -> I k acc s ->
     wp (body k acc) s
       (fun x s' => match x with
                    | inl r => Q (inl r) s'
                    | inr acc' => I (k + 1) acc' s'
                    end) E) ->
  (forall acc s, I (lo + Z.of_nat n) acc s -> Q (inr acc) s) ->
  wp (mfor n lo acc body) s Q E.
Proof.
  revert lo acc s. induction n as [|n IH]; intros lo acc s HI Hb HQ; simpl.
  - apply wp_ret, HQ. by replace (lo + Z.of_nat 0) with lo by lia.
  - apply wp_bind. eapply wp_mono; [apply Hb; [lia|done]| |auto].
    intros [r|acc'] s'; [apply wp_ret|]. intros HI'. apply IH; auto.
    + intros k a s0 Hk. apply Hb. lia.
    + intros a s0 HI0. apply HQ.
      by replace (lo + Z.of_nat (Datatypes.S n)) with (lo + 1 + Z.of_nat n) by lia.
Qed.
End WP.

Ltac wp_step :=
  first [ apply wp_bind | apply wp_ret | apply wp_fail | apply wp_on_err
        | apply wp_attempt | apply wp_reads | apply wp_modify ].

(** ** Byte strings and memories

    A memory, or one block of a flash device, is a total map from addresses
    (offsets) to bytes; a buffer is a list of bytes. *)
Definition mem : Type := Z -> Z.

Definition mread (f : mem) (off size : Z) : list Z :=
  map (fun k => f (off + Z.of_nat k)) (seq 0 (Z.to_nat size)).

Definition byte_at (l : list Z) (k : Z) : Z := nth (Z.to_nat k) l 0.

(** [memcpy(f + off, data, size)]: bytes past the end of [data] read as 0. *)
Definition mwrite (f : mem) (off : Z) (data : list Z) (size : Z) : mem :=
  fun a => if (off <=? a) && (a <? off + size) then byte_at data (a - off) else f a.

(** [memset(f + off, v, size)]. *)
Definition mfill (f : mem) (off v size : Z) : mem :=
  fun a => if (off <=? a) && (a <? off + size) then v else f a.

Lemma length_mread f off size : 0 <= size -> Z.of_nat (length (mread f off size)) = size.
Proof. intros H. unfold mread. rewrite length_map, length_seq. lia. Qed.

Lemma mread_shift f g a b size :
  (forall k, 0 <= k < size -> f (a + k) = g (b + k)) -> mread f a size = mread g b size.
Proof.
  intros H. unfold mread. apply map_ext_in. intros k Hk. apply in_seq in Hk. apply H. lia.
Qed.

Lemma mread_ext f g off size :
  (forall i, off <= i < off + size -> f i = g i) -> mread f off size = mread g off size.
Proof. intros H. apply mread_shift. intros k Hk. apply H. lia. Qed.

Lemma byte_at_mread f off size k : 0 <= k < size -> byte_at (mread f off size) k = f (off + k).
Proof.
  intros H. unfold byte_at, mread.
  rewrite (nth_indep _ 0 (f (off + Z.of_nat 0))) by (rewrite length_map, length_seq; lia).
  rewrite (map_nth (fun k => f (off + Z.of_nat k))), seq_nth by lia. f_equal. lia.
Qed.

(** A buffer that agrees byte for byte with a region is what reading it gives. *)
Lemma mread_bytes f off l size :
  Z.of_nat (length l) = size -> (forall k, 0 <= k < size -> f (off + k) = byte_at l k) ->
  mread f off size = l.
Proof.
  intros Hl H. apply (List.nth_ext _ _ 0 0).
  - pose proof (length_mread f off size). lia.
  - intros n Hn. pose proof (length_mread f off size).
    pose proof (byte_at_mread f off size (Z.of_nat n)) as Hb. unfold byte_at in Hb.
    rewrite Nat2Z.id in Hb. rewrite Hb, H by lia. unfold byte_at. by rewrite Nat2Z.id.
Qed.

(** ** Little-endian encoding of integers *)
Fixpoint le_bytes (n : nat) (v : Z) : list Z :=
  match n with
  | O => []
  | S n' => v mod 256 :: le_bytes n' (v / 256)
  end.

Fixpoint le_val (l : list Z) : Z :=
  match l with
  | [] => 0
  | b :: l' => b + 256 * le_val l'
  end.

Lemma length_le_bytes n v : length (le_bytes n v) = n.
Proof. revert v. induction n; simpl; auto. Qed.

Lemma le_val_bytes n v : le_val (le_bytes n v) = v mod 256 ^ Z.of_nat n.
Proof.
  revert v. induction n as [|n IH]; intros v.
  - by rewrite Z.mod_1_r.
  - rewrite Nat2Z.inj_succ, Z.pow_succ_r by lia. cbn [le_bytes le_val]. rewrite IH.
    rewrite Z.rem_mul_r by lia. lia.
Qed.

Lemma le_val_bytes_u32 v : 0 <= v < 2 ^ 32 -> le_val (le_bytes 4 v) = v.
Proof. intros H. rewrite le_val_bytes. apply Z.mod_small. change (256 ^ Z.of_nat 4) with (2 ^ 32). lia. Qed.

Lemma le_bytes_byte n v : Forall (fun b => 0 <= b < 256) (le_bytes n v).
Proof.
  revert v. induction n as [|n IH]; intros v; constructor; auto.
  apply Z.mod_pos_bound. lia.
Qed.

Lemma le_val_range l :
  Forall (fun b => 0 <= b < 256) l -> 0 <= le_val l < 256 ^ Z.of_nat (length l).
Proof.
  induction 1 as [|b l Hb Hl IH]; [simpl; lia|].
  cbn [length le_val]. rewrite Nat2Z.inj_succ, Z.pow_succ_r by lia. lia.
Qed.

(** ** Arithmetic without wrap-around *)
Lemma u32_small x : 0 <= x < 2 ^ 32 -> u32 x = x.
Proof. apply Z.mod_small. Qed.
Lemma u16_small x : 0 <= x < 2 ^ 16 -> u16 x = x.
Proof. apply Z.mod_small. Qed.
Lemma u8_small x : 0 <= x < 2 ^ 8 -> u8 x = x.
Proof. apply Z.mod_small. Qed.
Lemma u32_range x : 0 <= u32 x < 2 ^ 32.
Proof. apply Z.mod_pos_bound. lia. Qed.
Lemma u8_range x : 0 <= u8 x < 2 ^ 8.
Proof. apply Z.mod_pos_bound. lia. Qed.
