(* ===== verification/ItsUtils.v ===== *)
(** * Internal Trusted Storage: utilities

    secure_fw/partitions/internal_trusted_storage/its_utils.{h,c}. *)

From Stdlib Require Import ZArith List Lia Bool.
From stdpp Require Import base tactics list.
From S2P Require Import Prelude.
Import ListNotations.
Local Open Scope Z_scope.

Definition ITS_FILE_ID_SIZE : Z := 12.
Definition ITS_DEFAULT_EMPTY_BUFF_VAL : Z := 0.

Definition ITS_UTILS_MIN (x y : Z) : Z := if x <? y then x else y.
Definition ITS_UTILS_MAX (x y : Z) : Z := if x >? y then x else y.

(** [~(a - 1)] is taken on 32 bits. *)
Definition ITS_UTILS_ALIGN (x a : Z) : Z :=
  Z.land (u32 (x + (a - 1))) (UINT32_MAX - (a - 1)).
Definition ITS_UTILS_IS_ALIGNED (x a : Z) : bool := Z.land x (a - 1) =? 0.

Definition its_utils_check_contained_in (superset_size subset_offset subset_size : Z) :
    psa_status_t :=
  if subset_offset >? superset_size then PSA_ERROR_INVALID_ARGUMENT
  else if subset_size >? u32 (superset_size - subset_offset) then PSA_ERROR_INVALID_ARGUMENT
  else PSA_SUCCESS.

(** The loop reads [ITS_FILE_ID_SIZE] bytes and stops at the first non-zero one. *)
Fixpoint its_utils_validate_fid_loop (fid_size : nat) (fid : list Z) : psa_status_t :=
  match fid_size, fid with
  | O, _ => PSA_ERROR_DOES_NOT_EXIST
  | S n, b :: fid' => if negb (b =? 0) then PSA_SUCCESS else its_utils_validate_fid_loop n fid'
  | S _, [] => PSA_ERROR_DOES_NOT_EXIST
  end.
Definition its_utils_validate_fid (fid : list Z) : psa_status_t :=
  its_utils_validate_fid_loop (Z.to_nat ITS_FILE_ID_SIZE) fid.

(** ** Lemmas *)
Create HintDb its.

Lemma check_contained_in_ok sup off size :
  0 <= sup < 2 ^ 32 -> 0 <= off < 2 ^ 32 -> 0 <= size < 2 ^ 32 ->
  its_utils_check_contained_in sup off size = PSA_SUCCESS <-> off + size <= sup.
Proof.
  intros Hs Ho Hz. unfold its_utils_check_contained_in.
  destruct (off >? sup) eqn:E1; [split; [done|lia]|].
  rewrite u32_small by lia.
  destruct (size >? sup - off) eqn:E2; split; try done; lia.
Qed.

Lemma check_contained_in_cases sup off size :
  its_utils_check_contained_in sup off size = PSA_SUCCESS \/
  its_utils_check_contained_in sup off size = PSA_ERROR_INVALID_ARGUMENT.
Proof. unfold its_utils_check_contained_in. repeat case_match; auto. Qed.

Lemma validate_fid_spec fid :
  length fid = 12%nat ->
  its_utils_validate_fid fid = PSA_SUCCESS <-> ~ Forall (fun b => b = 0) fid.
Proof.
  intros Hlen. unfold its_utils_validate_fid. change (Z.to_nat ITS_FILE_ID_SIZE) with 12%nat.
  rewrite <- Hlen. clear Hlen. induction fid as [|b fid IH]; simpl.
  - split; [done|]. intros H. destruct H. constructor.
  - destruct (Z.eqb_spec b 0) as [->|Hb]; simpl.
    + rewrite IH. split; intros H HF; apply H; [by inversion HF|by constructor].
    + split; [|done]. intros _ HF. by inversion HF.
Qed.

Lemma validate_fid_cases fid :
  its_utils_validate_fid fid = PSA_SUCCESS \/ its_utils_validate_fid fid = PSA_ERROR_DOES_NOT_EXIST.
Proof.
  unfold its_utils_validate_fid. generalize (Z.to_nat ITS_FILE_ID_SIZE) as n.
  induction fid as [|b fid IH]; intros [|n]; simpl; auto. case_match; auto.
Qed.

Lemma its_min_spec x y : ITS_UTILS_MIN x y = Z.min x y.
Proof. unfold ITS_UTILS_MIN. case_match; lia. Qed.
Lemma its_max_spec x y : ITS_UTILS_MAX x y = Z.max x y.
Proof. unfold ITS_UTILS_MAX. case_match; lia. Qed.

(** ** Alignment to a power of two *)
Lemma land_mask x k : 0 <= k <= 32 -> 0 <= x < 2 ^ 32 ->
  Z.land x (UINT32_MAX - (2 ^ k - 1)) = x - x mod 2 ^ k.
Proof.
  intros Hk Hx. replace (UINT32_MAX - (2 ^ k - 1)) with (Z.ldiff (Z.ones 32) (Z.ones k)).
  - replace (Z.land x (Z.ldiff (Z.ones 32) (Z.ones k))) with (Z.ldiff (Z.land x (Z.ones 32)) (Z.ones k)).
    2:{ apply Z.bits_inj'. intros n Hn. rewrite !Z.ldiff_spec, !Z.land_spec, Z.ldiff_spec.
        destruct (Z.testbit x n); [by destruct (Z.testbit (Z.ones 32) n)|done]. }
    rewrite Z.land_ones, Z.mod_small, Z.ldiff_ones_r, Z.shiftl_mul_pow2, Z.shiftr_div_pow2 by lia.
    pose proof (Z.div_mod x (2 ^ k)). lia.
  - rewrite <- Z.sub_nocarry_ldiff.
    + rewrite !Z.ones_equiv. unfold UINT32_MAX. lia.
    + apply Z.bits_inj'. intros n Hn. rewrite Z.ldiff_spec, Z.bits_0.
      destruct (Z.ltb_spec n k).
      * rewrite (Z.ones_spec_low 32) by lia. apply andb_false_r.
      * rewrite (Z.ones_spec_high k) by lia. done.
Qed.

Lemma its_align_pow2 x k : 0 <= k <= 32 -> 0 <= x -> x + 2 ^ k <= 2 ^ 32 ->
  ITS_UTILS_ALIGN x (2 ^ k) = (x + (2 ^ k - 1)) / 2 ^ k * 2 ^ k.
Proof.
  intros Hk Hx Hb. pose proof (Z.pow_pos_nonneg 2 k ltac:(lia) ltac:(lia)) as Hp.
  unfold ITS_UTILS_ALIGN. rewrite u32_small, land_mask by lia.
  pose proof (Z.div_mod (x + (2 ^ k - 1)) (2 ^ k)). lia.
Qed.

Lemma its_is_aligned_pow2 x k : 0 <= k -> 0 <= x ->
  ITS_UTILS_IS_ALIGNED x (2 ^ k) = true <-> x mod 2 ^ k = 0.
Proof.
  intros Hk Hx. unfold ITS_UTILS_IS_ALIGNED. replace (2 ^ k - 1) with (Z.ones k) by (rewrite Z.ones_equiv; lia).
  rewrite Z.land_ones by done. apply Z.eqb_eq.
Qed.
