(* ===== verification/ItsFlash.v ===== *)
(** * Internal Trusted Storage: the flash interface and its implementations

    secure_fw/partitions/internal_trusted_storage/flash/*: the RAM, NOR and
    NAND back ends of [its_flash_fs_ops_t], and the contract [FlashSpec] that
    the filesystem is verified against. *)

From Stdlib Require Import ZArith List Lia Bool.
From stdpp Require Import base tactics list.
From S2P Require Import Prelude ItsUtils.
Import ListNotations.
Local Open Scope Z_scope.

(** ** Configuration (its_flash_fs.h); [flash_dev] is the device state itself. *)
Record its_flash_fs_config_t := {
  flash_area_addr : Z;
  sector_size : Z;
  block_size : Z;
  num_blocks : Z;
  program_unit : Z;
  max_file_size : Z;
  max_num_files : Z;
  erase_val : Z
}.

Definition ITS_BLOCK_INVALID_ID : Z := 4294967295.

(** ** The operations table, over a device state [D] *)
Record its_flash_fs_ops_t (D : Type) := {
  ops_init : its_flash_fs_config_t -> M D unit;
  ops_read : its_flash_fs_config_t -> Z -> Z -> Z -> M D (list Z);
  ops_write : its_flash_fs_config_t -> Z -> list Z -> Z -> Z -> M D unit;
  ops_flush : its_flash_fs_config_t -> M D unit;
  ops_erase : its_flash_fs_config_t -> Z -> M D unit
}.
Arguments ops_init {D}. Arguments ops_read {D}. Arguments ops_write {D}.
Arguments ops_flush {D}. Arguments ops_erase {D}.

(** ** its_flash_ram.c: the device is an array of bytes *)
Module Ram.
Definition get_phys_address (cfg : its_flash_fs_config_t) (block_id offset : Z) : Z :=
  u32 (block_id * block_size cfg + offset).

Definition its_flash_ram_init (cfg : its_flash_fs_config_t) : M mem unit := ret tt.

Definition its_flash_ram_read (cfg : its_flash_fs_config_t) (block_id offset size : Z) :
    M mem (list Z) :=
  let idx := get_phys_address cfg block_id offset in
  reads (fun dev => mread dev idx size).

Definition its_flash_ram_write (cfg : its_flash_fs_config_t) (block_id : Z)
    (buff : list Z) (offset size : Z) : M mem unit :=
  let idx := get_phys_address cfg block_id offset in
  modify (fun dev => mwrite dev idx buff size).

Definition its_flash_ram_flush (cfg : its_flash_fs_config_t) : M mem unit := ret tt.

Definition its_flash_ram_erase (cfg : its_flash_fs_config_t) (block_id : Z) : M mem unit :=
  let idx := get_phys_address cfg block_id 0 in
  modify (fun dev => mfill dev idx (erase_val cfg) (block_size cfg)).

Definition its_flash_fs_ops_ram : its_flash_fs_ops_t mem := {|
  ops_init := its_flash_ram_init;
  ops_read := its_flash_ram_read;
  ops_write := its_flash_ram_write;
  ops_flush := its_flash_ram_flush;
  ops_erase := its_flash_ram_erase
|}.
End Ram.

(** ** The CMSIS flash driver the NOR and NAND back ends call

    The driver is a platform component behind the CMSIS interface: it is a
    parameter here, over its own state [W]. *)
Definition ARM_DRIVER_OK : Z := 0.

Record ARM_DRIVER_FLASH (W : Type) := {
  Initialize : W -> Z * W;
  ReadData : Z -> Z -> W -> Z * list Z * W;
  ProgramData : Z -> list Z -> Z -> W -> Z * W;
  EraseSector : Z -> W -> Z * W
}.
Arguments Initialize {W}. Arguments ReadData {W}.
Arguments ProgramData {W}. Arguments EraseSector {W}.

Section DriverCalls.
Context {W : Type} (drv : ARM_DRIVER_FLASH W).

(** [err = driver->F(...); if (err != ARM_DRIVER_OK) return STORAGE_FAILURE] *)
Definition drv_call (f : W -> Z * W) : M W unit := fun w =>
  let '(err, w') := f w in
  if negb (err =? ARM_DRIVER_OK) then (Err PSA_ERROR_STORAGE_FAILURE, w') else (Ok tt, w').

Definition drv_read (addr size : Z) : M W (list Z) := fun w =>
  let '(err, buff, w') := ReadData drv addr size w in
  if negb (err =? ARM_DRIVER_OK) then (Err PSA_ERROR_STORAGE_FAILURE, w') else (Ok buff, w').
End DriverCalls.

(** ** its_flash_nor.c: writes are committed at once *)
Module Nor.
Section Nor.
Context {W : Type} (drv : ARM_DRIVER_FLASH W).

Definition get_phys_address (cfg : its_flash_fs_config_t) (block_id offset : Z) : Z :=
  u32 (flash_area_addr cfg + block_id * block_size cfg + offset).

Definition its_flash_nor_init (cfg : its_flash_fs_config_t) : M W unit :=
  drv_call (Initialize drv).

Definition its_flash_nor_read (cfg : its_flash_fs_config_t) (block_id offset size : Z) :
    M W (list Z) :=
  let addr := get_phys_address cfg block_id offset in
  drv_read drv addr size.

Definition its_flash_nor_write (cfg : its_flash_fs_config_t) (block_id : Z)
    (buff : list Z) (offset size : Z) : M W unit :=
  let addr := get_phys_address cfg block_id offset in
  drv_call (ProgramData drv addr buff size).

Definition its_flash_nor_flush (cfg : its_flash_fs_config_t) : M W unit := ret tt.

(** [for (offset = 0; offset < block_size; offset += sector_size)]; the
    fuel is one iteration per byte of the block. *)
Fixpoint its_flash_nor_erase_loop (fuel : nat) (cfg : its_flash_fs_config_t)
    (block_id offset : Z) : M W unit :=
  match fuel with
  | O => ret tt
  | S fuel' =>
      if offset <? block_size cfg then
        let addr := get_phys_address cfg block_id offset in
        do! drv_call (EraseSector drv addr) in
        its_flash_nor_erase_loop fuel' cfg block_id (u32 (offset + sector_size cfg))
      else ret tt
  end.
Definition its_flash_nor_erase (cfg : its_flash_fs_config_t) (block_id : Z) : M W unit :=
  its_flash_nor_erase_loop (Z.to_nat (block_size cfg)) cfg block_id 0.

Definition its_flash_fs_ops_nor : its_flash_fs_ops_t W := {|
  ops_init := its_flash_nor_init;
  ops_read := its_flash_nor_read;
  ops_write := its_flash_nor_write;
  ops_flush := its_flash_nor_flush;
  ops_erase := its_flash_nor_erase
|}.
End Nor.
End Nor.

(** ** its_flash_nand.c: one block is buffered and programmed by [flush] *)
Module Nand.
Record its_flash_nand_dev_t (W : Type) := {
  driver : W;
  buf_block_id : Z;
  write_buf : mem;
  buf_size : Z
}.
Arguments driver {W}. Arguments buf_block_id {W}.
Arguments write_buf {W}. Arguments buf_size {W}.

Section Nand.
Context {W : Type} (drv : ARM_DRIVER_FLASH W).
Local Abbreviation dev_t := (its_flash_nand_dev_t W).

Definition set_driver (w : W) (d : dev_t) : dev_t :=
  {| driver := w; buf_block_id := buf_block_id d;
     write_buf := write_buf d; buf_size := buf_size d |}.

(** Run a driver call on the driver of the device. *)
Definition on_driver {A} (m : M W A) : M dev_t A := fun d =>
  let '(r, w) := m (driver d) in (r, set_driver w d).

Definition get_phys_address (cfg : its_flash_fs_config_t) (block_id offset : Z) : Z :=
  u32 (flash_area_addr cfg + block_id * block_size cfg + offset).

Definition its_flash_nand_init (cfg : its_flash_fs_config_t) : M dev_t unit :=
  let! flash_dev := reads id in
  if buf_size flash_dev <? block_size cfg then fail PSA_ERROR_PROGRAMMER_ERROR
  else on_driver (drv_call (Initialize drv)).

Definition its_flash_nand_read (cfg : its_flash_fs_config_t) (block_id offset size : Z) :
    M dev_t (list Z) :=
  let addr := get_phys_address cfg block_id offset in
  on_driver (drv_read drv addr size).

Definition its_flash_nand_write (cfg : its_flash_fs_config_t) (block_id : Z)
    (buff : list Z) (offset size : Z) : M dev_t unit :=
  let! flash_dev := reads id in
  if negb (buf_block_id flash_dev =? ITS_BLOCK_INVALID_ID) &&
     negb (buf_block_id flash_dev =? block_id)
  then fail PSA_ERROR_PROGRAMMER_ERROR
  else modify (fun d =>
         {| driver := driver d; buf_block_id := block_id;
            write_buf := mwrite (write_buf d) offset buff size;
            buf_size := buf_size d |}).

Definition its_flash_nand_flush (cfg : its_flash_fs_config_t) : M dev_t unit :=
  let! flash_dev := reads id in
  let addr := get_phys_address cfg (buf_block_id flash_dev) 0 in
  do! on_driver (drv_call (ProgramData drv addr
        (mread (write_buf flash_dev) 0 (block_size cfg)) (block_size cfg))) in
  modify (fun d =>
    {| driver := driver d; buf_block_id := ITS_BLOCK_INVALID_ID;
       write_buf := mfill (write_buf d) 0 0 (buf_size d);
       buf_size := buf_size d |}).

Fixpoint its_flash_nand_erase_loop (fuel : nat) (cfg : its_flash_fs_config_t)
    (block_id offset : Z) : M dev_t unit :=
  match fuel with
  | O => ret tt
  | S fuel' =>
      if offset <? block_size cfg then
        let addr := get_phys_address cfg block_id offset in
        do! on_driver (drv_call (EraseSector drv addr)) in
        its_flash_nand_erase_loop fuel' cfg block_id (u32 (offset + sector_size cfg))
      else ret tt
  end.
Definition its_flash_nand_erase (cfg : its_flash_fs_config_t) (block_id : Z) :
    M dev_t unit :=
  its_flash_nand_erase_loop (Z.to_nat (block_size cfg)) cfg block_id 0.

Definition its_flash_fs_ops_nand : its_flash_fs_ops_t dev_t := {|
  ops_init := its_flash_nand_init;
  ops_read := its_flash_nand_read;
  ops_write := its_flash_nand_write;
  ops_flush := its_flash_nand_flush;
  ops_erase := its_flash_nand_erase
|}.
End Nand.
End Nand.

(** ** The contract of a flash device

    A device shows its blocks as memories.  Every operation either succeeds
    with its documented effect, or fails having touched only its target
    region: a write programs a prefix of its data, an erase leaves each byte
    of its block either old or erased.  A power cut is a failure after which
    nothing runs.  [may_fail] says whether failures can happen at all; a
    write is only allowed on erased bytes. *)
Definition view : Type := Z -> mem.

Definition blk_write (V : view) (b off : Z) (data : list Z) (size : Z) : view :=
  fun b' i => if (b' =? b) && ((off <=? i) && (i <? off + size))
              then byte_at data (i - off) else V b' i.

Definition blk_erase (c : its_flash_fs_config_t) (V : view) (b : Z) : view :=
  fun b' i => if (b' =? b) && ((0 <=? i) && (i <? block_size c))
              then erase_val c else V b' i.

Definition same_view (V V' : view) : Prop := forall b i, V' b i = V b i.

Definition in_block (c : its_flash_fs_config_t) (b off size : Z) : Prop :=
  0 <= b < num_blocks c /\ 0 <= off /\ 0 <= size /\ off + size <= block_size c.

Definition erased (c : its_flash_fs_config_t) (V : view) (b off size : Z) : Prop :=
  forall i, off <= i < off + size -> V b i = erase_val c.

Class FlashSpec {D : Type} (c : its_flash_fs_config_t) (ops : its_flash_fs_ops_t D)
    (V : D -> view) (may_fail : Prop) : Prop := {
  flash_init : forall d,
    wp (ops_init ops c) d (fun _ d' => same_view (V d) (V d'))
      (fun e d' => may_fail /\ e <> PSA_SUCCESS /\ same_view (V d) (V d'));
  flash_read : forall d b off size, in_block c b off size ->
    wp (ops_read ops c b off size) d
      (fun data d' => data = mread (V d b) off size /\ same_view (V d) (V d'))
      (fun e d' => may_fail /\ e <> PSA_SUCCESS /\ same_view (V d) (V d'));
  flash_write : forall d b data off size, in_block c b off size ->
    size <= Z.of_nat (length data) -> erased c (V d) b off size ->
    wp (ops_write ops c b data off size) d
      (fun _ d' => same_view (blk_write (V d) b off data size) (V d'))
      (fun e d' => may_fail /\ e <> PSA_SUCCESS /\
         exists k, 0 <= k <= size /\ same_view (blk_write (V d) b off data k) (V d'));
  flash_flush : forall d,
    wp (ops_flush ops c) d (fun _ d' => same_view (V d) (V d'))
      (fun e d' => may_fail /\ e <> PSA_SUCCESS /\ same_view (V d) (V d'));
  flash_erase : forall d b, 0 <= b < num_blocks c ->
    wp (ops_erase ops c b) d
      (fun _ d' => same_view (blk_erase c (V d) b) (V d'))
      (fun e d' => may_fail /\ e <> PSA_SUCCESS /\
         forall b' i, V d' b' i = V d b' i \/
           (b' = b /\ 0 <= i < block_size c /\ V d' b' i = erase_val c))
}.
