(* ===== verification/ItsMblock.v ===== *)
(** * Internal Trusted Storage: the metadata blocks of the flash filesystem

    secure_fw/partitions/internal_trusted_storage/flash_fs/its_flash_fs_mblock.{h,c}:
    the on-flash structures and every operation of the metadata block layer.
    The structures are those of a build with [ITS_FLASH_MAX_ALIGNMENT <= 4]
    (no [roundup] member), with [ITS_VALIDATE_METADATA_FROM_FLASH] on, as
    config_default.cmake and the psoc64 platform set it. *)

From Stdlib Require Import ZArith List Lia Bool.
From stdpp Require Import base tactics list.
From S2P Require Import Prelude ItsUtils ItsFlash.
Import ListNotations.
Local Open Scope Z_scope.

Definition ITS_SUPPORTED_VERSION : Z := 1.
Definition ITS_METADATA_INVALID_INDEX : Z := 65535.
Definition ITS_LOGICAL_DBLOCK0 : Z := 0.
Definition ITS_MAX_BLOCK_DATA_COPY : Z := 256.
Definition ITS_METADATA_BLOCK0 : Z := 0.
Definition ITS_METADATA_BLOCK1 : Z := 1.
Definition ITS_OTHER_META_BLOCK (metablock : Z) : Z :=
  if metablock =? ITS_METADATA_BLOCK0 then ITS_METADATA_BLOCK1 else ITS_METADATA_BLOCK0.

(** ** On-flash structures *)
Record its_metadata_block_header_t := {
  scratch_dblock : Z;
  fs_version : Z;
  active_swap_count : Z;
  header_padding : Z  (* the two trailing padding bytes of the C struct *)
}.

Record its_block_meta_t := {
  phy_id : Z;
  data_start : Z;
  free_size : Z
}.

Record its_file_meta_t := {
  lblock : Z;
  data_idx : Z;
  cur_size : Z;
  max_size : Z;
  flags : Z;
  id : list Z
}.

Definition ITS_BLOCK_META_HEADER_SIZE : Z := 8.
Definition ITS_BLOCK_METADATA_SIZE : Z := 12.
Definition ITS_FILE_METADATA_SIZE : Z := 32.

(** The bytes of each struct on a little-endian core, and back. *)
Definition header_bytes (h : its_metadata_block_header_t) : list Z :=
  le_bytes 4 (scratch_dblock h) ++ le_bytes 1 (fs_version h) ++
  le_bytes 1 (active_swap_count h) ++ le_bytes 2 (header_padding h).
Definition bytes_field (l : list Z) (off size : nat) : Z := le_val (firstn size (skipn off l)).
Definition bytes_header (l : list Z) : its_metadata_block_header_t := {|
  scratch_dblock := bytes_field l 0 4;
  fs_version := bytes_field l 4 1;
  active_swap_count := bytes_field l 5 1;
  header_padding := bytes_field l 6 2 |}.

Definition block_meta_bytes (m : its_block_meta_t) : list Z :=
  le_bytes 4 (phy_id m) ++ le_bytes 4 (data_start m) ++ le_bytes 4 (free_size m).
Definition bytes_block_meta (l : list Z) : its_block_meta_t := {|
  phy_id := bytes_field l 0 4;
  data_start := bytes_field l 4 4;
  free_size := bytes_field l 8 4 |}.

Definition file_meta_bytes (m : its_file_meta_t) : list Z :=
  le_bytes 4 (lblock m) ++ le_bytes 4 (data_idx m) ++ le_bytes 4 (cur_size m) ++
  le_bytes 4 (max_size m) ++ le_bytes 4 (flags m) ++ id m.
Definition bytes_file_meta (l : list Z) : its_file_meta_t := {|
  lblock := bytes_field l 0 4;
  data_idx := bytes_field l 4 4;
  cur_size := bytes_field l 8 4;
  max_size := bytes_field l 12 4;
  flags := bytes_field l 16 4;
  id := firstn 12 (skipn 20 l) |}.

(** [(struct its_file_meta_t){0}], and the memset of the whole struct to
    [ITS_DEFAULT_EMPTY_BUFF_VAL]. *)
Definition empty_file_meta : its_file_meta_t := {|
  lblock := 0; data_idx := 0; cur_size := 0; max_size := 0; flags := 0;
  id := repeat 0 12 |}.

(** ** The filesystem context *)
Record its_flash_fs_ctx_t := {
  cfg : its_flash_fs_config_t;
  meta_block_header : its_metadata_block_header_t;
  active_metablock : Z;
  scratch_metablock : Z
}.

Definition set_meta_block_header (h : its_metadata_block_header_t) (x : its_flash_fs_ctx_t) :=
  {| cfg := cfg x; meta_block_header := h;
     active_metablock := active_metablock x; scratch_metablock := scratch_metablock x |}.
Definition set_metablocks (act scr : Z) (x : its_flash_fs_ctx_t) :=
  {| cfg := cfg x; meta_block_header := meta_block_header x;
     active_metablock := act; scratch_metablock := scr |}.
Definition set_scratch_dblock (v : Z) (h : its_metadata_block_header_t) :=
  {| scratch_dblock := v; fs_version := fs_version h;
     active_swap_count := active_swap_count h; header_padding := header_padding h |}.
Definition set_fs_version (v : Z) (h : its_metadata_block_header_t) :=
  {| scratch_dblock := scratch_dblock h; fs_version := v;
     active_swap_count := active_swap_count h; header_padding := header_padding h |}.
Definition set_active_swap_count (v : Z) (h : its_metadata_block_header_t) :=
  {| scratch_dblock := scratch_dblock h; fs_version := fs_version h;
     active_swap_count := v; header_padding := header_padding h |}.
Definition set_phy_id (v : Z) (m : its_block_meta_t) :=
  {| phy_id := v; data_start := data_start m; free_size := free_size m |}.
Definition set_free_size (v : Z) (m : its_block_meta_t) :=
  {| phy_id := phy_id m; data_start := data_start m; free_size := v |}.
Definition set_data_idx (v : Z) (m : its_file_meta_t) :=
  {| lblock := lblock m; data_idx := v; cur_size := cur_size m;
     max_size := max_size m; flags := flags m; id := id m |}.
Definition set_cur_size (v : Z) (m : its_file_meta_t) :=
  {| lblock := lblock m; data_idx := data_idx m; cur_size := v;
     max_size := max_size m; flags := flags m; id := id m |}.
Definition set_flags (v : Z) (m : its_file_meta_t) :=
  {| lblock := lblock m; data_idx := data_idx m; cur_size := cur_size m;
     max_size := max_size m; flags := v; id := id m |}.

(** ** Geometry *)
Definition its_init_scratch_dblock (c : its_flash_fs_config_t) : Z :=
  if num_blocks c =? 2 then 1 else 2.
Definition its_init_dblock_start (c : its_flash_fs_config_t) : Z :=
  if num_blocks c =? 2 then 0 else 3.
Definition its_num_dedicated_dblocks (c : its_flash_fs_config_t) : Z :=
  if num_blocks c =? 2 then 0 else u32 (num_blocks c - its_init_dblock_start c).
Definition its_num_active_dblocks (c : its_flash_fs_config_t) : Z :=
  u32 (its_num_dedicated_dblocks c + 1).
Definition its_mblock_block_meta_offset (lblock : Z) : Z :=
  u32 (ITS_BLOCK_META_HEADER_SIZE + lblock * ITS_BLOCK_METADATA_SIZE).
Definition its_mblock_file_meta_offset (c : its_flash_fs_config_t) (idx : Z) : Z :=
  u32 (ITS_BLOCK_META_HEADER_SIZE
       + its_num_active_dblocks c * ITS_BLOCK_METADATA_SIZE
       + idx * ITS_FILE_METADATA_SIZE).

(** ** Choice of the most recent metadata block *)
Definition its_mblock_latest_meta_block (c : its_flash_fs_config_t)
    (h_meta0 h_meta1 : its_metadata_block_header_t) : Z :=
  let meta0_swap_count := active_swap_count h_meta0 in
  let meta1_swap_count := active_swap_count h_meta1 in
  let rollover_val := if erase_val c =? 0 then 1 else 0 in
  if (meta1_swap_count =? rollover_val) && negb (meta0_swap_count =? rollover_val + 1)
  then ITS_METADATA_BLOCK1
  else if (meta0_swap_count =? rollover_val) && negb (meta1_swap_count =? rollover_val + 1)
  then ITS_METADATA_BLOCK0
  else if meta1_swap_count >? meta0_swap_count
  then ITS_METADATA_BLOCK1
  else ITS_METADATA_BLOCK0.

(** ** Validation of what is read from flash *)
Definition its_mblock_validate_file_meta (c : its_flash_fs_config_t)
    (file_meta : its_file_meta_t) : psa_status_t :=
  if lblock file_meta >=? its_num_active_dblocks c then PSA_ERROR_DATA_CORRUPT
  else if its_utils_validate_fid (id file_meta) =? PSA_SUCCESS then
    if max_size file_meta >? max_file_size c then PSA_ERROR_DATA_CORRUPT
    else if cur_size file_meta >? max_size file_meta then PSA_ERROR_DATA_CORRUPT
    else if (lblock file_meta =? ITS_LOGICAL_DBLOCK0) &&
            (data_idx file_meta <? its_mblock_file_meta_offset c (max_num_files c))
    then PSA_ERROR_DATA_CORRUPT
    else
      let err := its_utils_check_contained_in (block_size c) (data_idx file_meta)
                   (max_size file_meta) in
      if negb (err =? PSA_SUCCESS) then PSA_ERROR_DATA_CORRUPT else PSA_SUCCESS
  else PSA_SUCCESS.

Definition its_mblock_validate_block_meta (c : its_flash_fs_config_t)
    (block_meta : its_block_meta_t) : psa_status_t :=
  if phy_id block_meta >=? num_blocks c then PSA_ERROR_DATA_CORRUPT
  else
    let err := its_utils_check_contained_in (block_size c) (data_start block_meta)
                 (free_size block_meta) in
    if negb (err =? PSA_SUCCESS) then PSA_ERROR_DATA_CORRUPT
    else
      let valid_data_start_value :=
        if (phy_id block_meta =? ITS_METADATA_BLOCK0) || (phy_id block_meta =? ITS_METADATA_BLOCK1)
        then its_mblock_file_meta_offset c (max_num_files c) else 0 in
      if negb (data_start block_meta =? valid_data_start_value) then PSA_ERROR_DATA_CORRUPT
      else PSA_SUCCESS.

Definition its_mblock_validate_swap_count (c : its_flash_fs_config_t) (swap_count : Z) :
    psa_status_t :=
  if swap_count =? erase_val c then PSA_ERROR_GENERIC_ERROR else PSA_SUCCESS.

Definition its_mblock_validate_fs_version (fs_version : Z) : psa_status_t :=
  if negb (fs_version =? ITS_SUPPORTED_VERSION) then PSA_ERROR_GENERIC_ERROR else PSA_SUCCESS.

Definition its_mblock_validate_header_meta (c : its_flash_fs_config_t)
    (h_meta : its_metadata_block_header_t) : psa_status_t :=
  let err := its_mblock_validate_fs_version (fs_version h_meta) in
  if err =? PSA_SUCCESS then its_mblock_validate_swap_count c (active_swap_count h_meta)
  else err.

(** ** Operations *)
Section Ops.
Context {D : Type} (ops : its_flash_fs_ops_t D).
Local Abbreviation st := (its_flash_fs_ctx_t * D)%type.

Definition get_ctx : M st its_flash_fs_ctx_t := reads fst.
Definition set_ctx (f : its_flash_fs_ctx_t -> its_flash_fs_ctx_t) : M st unit :=
  modify (fun s => (f (fst s), snd s)).
(** A call through [fs_ctx->ops]. *)
Definition dev {A} (m : its_flash_fs_config_t -> M D A) : M st A := fun s =>
  let '(r, d) := m (cfg (fst s)) (snd s) in (r, (fst s, d)).
Definition dev_read (block_id offset size : Z) : M st (list Z) :=
  dev (fun c => ops_read ops c block_id offset size).
Definition dev_write (block_id : Z) (buf : list Z) (offset size : Z) : M st unit :=
  dev (fun c => ops_write ops c block_id buf offset size).
Definition dev_flush : M st unit := dev (ops_flush ops).
Definition dev_erase (block_id : Z) : M st unit := dev (fun c => ops_erase ops c block_id).
(** [return status;] for a status computed without touching the device. *)
Definition check (e : psa_status_t) : M st unit :=
  if e =? PSA_SUCCESS then ret tt else fail e.

Definition its_mblock_swap_metablocks : M st unit :=
  set_ctx (fun x => set_metablocks (scratch_metablock x) (active_metablock x) x).

Definition its_flash_fs_mblock_cur_data_scratch_id (lblock : Z) : M st Z :=
  let! fs_ctx := get_ctx in
  ret (if lblock =? ITS_LOGICAL_DBLOCK0 then scratch_metablock fs_ctx
       else scratch_dblock (meta_block_header fs_ctx)).

Definition its_flash_fs_mblock_set_data_scratch (phy_id lblock : Z) : M st unit :=
  if negb (lblock =? ITS_LOGICAL_DBLOCK0) then
    set_ctx (fun x => set_meta_block_header (set_scratch_dblock phy_id (meta_block_header x)) x)
  else ret tt.

(** The copy loop: [fuel] bounds the number of chunks. *)
Fixpoint its_flash_fs_block_to_block_move_loop (fuel : nat)
    (dst_block dst_offset src_block src_offset size : Z) : M st unit :=
  if size >? 0 then
    match fuel with
    | O => fail PSA_ERROR_GENERIC_ERROR
    | S fuel' =>
        let bytes_to_move := ITS_UTILS_MIN size ITS_MAX_BLOCK_DATA_COPY in
        let! dst_block_data_copy := dev_read src_block src_offset bytes_to_move in
        do! dev_write dst_block dst_block_data_copy dst_offset bytes_to_move in
        its_flash_fs_block_to_block_move_loop fuel' dst_block (u32 (dst_offset + bytes_to_move))
          src_block (u32 (src_offset + bytes_to_move)) (u32 (size - bytes_to_move))
    end
  else ret tt.
Definition its_flash_fs_block_to_block_move
    (dst_block dst_offset src_block src_offset size : Z) : M st unit :=
  its_flash_fs_block_to_block_move_loop (Z.to_nat size) dst_block dst_offset
    src_block src_offset size.

Definition its_flash_fs_mblock_read_file_meta (idx : Z) : M st its_file_meta_t :=
  let! fs_ctx := get_ctx in
  let offset := its_mblock_file_meta_offset (cfg fs_ctx) idx in
  let! data := dev_read (active_metablock fs_ctx) offset ITS_FILE_METADATA_SIZE in
  let file_meta := bytes_file_meta data in
  do! check (its_mblock_validate_file_meta (cfg fs_ctx) file_meta) in
  ret file_meta.

Definition its_flash_fs_mblock_read_block_metadata (lblock : Z) : M st its_block_meta_t :=
  let! fs_ctx := get_ctx in
  let pos := its_mblock_block_meta_offset lblock in
  let! data := dev_read (active_metablock fs_ctx) pos ITS_BLOCK_METADATA_SIZE in
  let block_meta := bytes_block_meta data in
  do! check (its_mblock_validate_block_meta (cfg fs_ctx) block_meta) in
  ret block_meta.

(** Index of a free entry; with [use_spare] false the first one is skipped. *)
Definition its_get_free_file_index (use_spare : bool) : M st Z :=
  let! fs_ctx := get_ctx in
  let! r := mfor (Z.to_nat (max_num_files (cfg fs_ctx))) 0 use_spare
    (fun i use_spare =>
       let! m := attempt (its_flash_fs_mblock_read_file_meta i) in
       match m with
       | Err _ => ret (inl ITS_METADATA_INVALID_INDEX)
       | Ok tmp_metadata =>
           if negb (its_utils_validate_fid (id tmp_metadata) =? PSA_SUCCESS) then
             if negb use_spare then ret (inr true) else ret (inl i)
           else ret (inr use_spare)
       end) in
  ret (match r with inl i => i | inr _ => ITS_METADATA_INVALID_INDEX end).

Definition its_mblock_erase_scratch_blocks : M st unit :=
  let! fs_ctx := get_ctx in
  do! dev_erase (scratch_metablock fs_ctx) in
  if num_blocks (cfg fs_ctx) >? 2 then
    let! scratch_datablock :=
      its_flash_fs_mblock_cur_data_scratch_id (ITS_LOGICAL_DBLOCK0 + 1) in
    dev_erase scratch_datablock
  else ret tt.

Definition its_mblock_update_scratch_block_meta (lblock : Z) (block_meta : its_block_meta_t) :
    M st unit :=
  let! fs_ctx := get_ctx in
  let pos := its_mblock_block_meta_offset lblock in
  dev_write (scratch_metablock fs_ctx) (block_meta_bytes block_meta) pos
    ITS_BLOCK_METADATA_SIZE.

Definition its_mblock_copy_remaining_block_meta (lblock : Z) : M st unit :=
  let! fs_ctx := get_ctx in
  let scratch_block := scratch_metablock fs_ctx in
  let meta_block := active_metablock fs_ctx in
  do! (if negb (lblock =? ITS_LOGICAL_DBLOCK0) then
         let! block_meta := its_flash_fs_mblock_read_block_metadata ITS_LOGICAL_DBLOCK0
           or_return PSA_ERROR_GENERIC_ERROR in
         let block_meta := set_phy_id scratch_block block_meta in
         do! its_mblock_update_scratch_block_meta ITS_LOGICAL_DBLOCK0 block_meta
           or_return PSA_ERROR_GENERIC_ERROR in
         if lblock >? 1 then
           let pos := its_mblock_block_meta_offset (ITS_LOGICAL_DBLOCK0 + 1) in
           let size := u32 (its_mblock_block_meta_offset lblock - pos) in
           its_flash_fs_block_to_block_move scratch_block pos meta_block pos size
         else ret tt
       else ret tt) in
  let pos := its_mblock_block_meta_offset (u32 (lblock + 1)) in
  let size := u32 (its_mblock_file_meta_offset (cfg fs_ctx) 0 - pos) in
  its_flash_fs_block_to_block_move scratch_block pos meta_block pos size.

Definition its_mblock_write_scratch_meta_header : M st unit :=
  do! set_ctx (fun x =>
    let h := meta_block_header x in
    set_meta_block_header (set_active_swap_count (u8 (active_swap_count h + 1)) h) x) in
  let! fs_ctx := get_ctx in
  let err := its_mblock_validate_swap_count (cfg fs_ctx)
               (active_swap_count (meta_block_header fs_ctx)) in
  do! (if negb (err =? PSA_SUCCESS) then
         set_ctx (fun x =>
           let h := meta_block_header x in
           set_meta_block_header (set_active_swap_count (u8 (active_swap_count h + 1)) h) x)
       else ret tt) in
  let! fs_ctx := get_ctx in
  dev_write (scratch_metablock fs_ctx) (header_bytes (meta_block_header fs_ctx)) 0
    ITS_BLOCK_META_HEADER_SIZE.

Definition its_mblock_read_meta_header : M st unit :=
  let! fs_ctx := get_ctx in
  let! data := dev_read (active_metablock fs_ctx) 0 ITS_BLOCK_META_HEADER_SIZE in
  let h := bytes_header data in
  do! set_ctx (set_meta_block_header h) in
  check (its_mblock_validate_header_meta (cfg fs_ctx) h).

(** The file and block metadata of a file placed in the first logical block
    with enough free space. *)
Definition its_mblock_reserve_file (fid : list Z) (size flags : Z) :
    M st (its_file_meta_t * its_block_meta_t) :=
  let! fs_ctx := get_ctx in
  let! r := mfor (Z.to_nat (its_num_active_dblocks (cfg fs_ctx))) 0 tt
    (fun i _ =>
       let! block_meta := its_flash_fs_mblock_read_block_metadata i
         or_return PSA_ERROR_GENERIC_ERROR in
       if free_size block_meta >=? size then
         ret (inl ({| lblock := i;
                      data_idx := u32 (block_size (cfg fs_ctx) - free_size block_meta);
                      cur_size := 0; max_size := size; flags := flags; id := fid |},
                   set_free_size (u32 (free_size block_meta - size)) block_meta))
       else ret (inr tt)) in
  match r with
  | inl m => ret m
  | inr _ => fail PSA_ERROR_INSUFFICIENT_STORAGE
  end.

Definition its_init_get_active_metablock : M st unit :=
  let! fs_ctx := get_ctx in
  let c := cfg fs_ctx in
  let! r0 := attempt (dev_read ITS_METADATA_BLOCK0 0 ITS_BLOCK_META_HEADER_SIZE) in
  let valid0 := match r0 with
                | Ok data => its_mblock_validate_header_meta c (bytes_header data) =? PSA_SUCCESS
                | Err _ => false
                end in
  let! r1 := attempt (dev_read ITS_METADATA_BLOCK1 0 ITS_BLOCK_META_HEADER_SIZE) in
  let valid1 := match r1 with
                | Ok data => its_mblock_validate_header_meta c (bytes_header data) =? PSA_SUCCESS
                | Err _ => false
                end in
  let header (r : res (list Z)) := bytes_header (match r with Ok data => data | Err _ => [] end) in
  let! cur_meta_block :=
    match valid0, valid1 with
    | true, true => ret (its_mblock_latest_meta_block c (header r0) (header r1))
    | true, false => ret ITS_METADATA_BLOCK0
    | false, true => ret ITS_METADATA_BLOCK1
    | false, false => fail PSA_ERROR_GENERIC_ERROR
    end in
  set_ctx (set_metablocks cur_meta_block (ITS_OTHER_META_BLOCK cur_meta_block)).

Definition its_flash_fs_mblock_cp_file_meta (idx_start idx_end : Z) : M st unit :=
  let! fs_ctx := get_ctx in
  let pos_start := its_mblock_file_meta_offset (cfg fs_ctx) idx_start in
  let pos_end := its_mblock_file_meta_offset (cfg fs_ctx) idx_end in
  its_flash_fs_block_to_block_move (scratch_metablock fs_ctx) pos_start
    (active_metablock fs_ctx) pos_start (u32 (pos_end - pos_start)).

(** Linear search of the file table, by ID or by flag. *)
Definition its_flash_fs_mblock_find (found : its_file_meta_t -> bool) : M st Z :=
  let! fs_ctx := get_ctx in
  let! r := mfor (Z.to_nat (max_num_files (cfg fs_ctx))) 0 tt
    (fun i _ =>
       let! tmp_metadata := its_flash_fs_mblock_read_file_meta i
         or_return PSA_ERROR_GENERIC_ERROR in
       if found tmp_metadata then ret (inl i) else ret (inr tt)) in
  match r with
  | inl idx => ret idx
  | inr _ => fail PSA_ERROR_DOES_NOT_EXIST
  end.

(** [!tfm_memcmp(a, b, ITS_FILE_ID_SIZE)] *)
Definition fid_eqb (a b : list Z) : bool := bool_decide (a = b).

Definition its_flash_fs_mblock_get_file_idx (fid : list Z) : M st Z :=
  its_flash_fs_mblock_find (fun m => fid_eqb (id m) fid).

Definition its_flash_fs_mblock_get_file_idx_flag (fl : Z) : M st Z :=
  its_flash_fs_mblock_find (fun m => negb (Z.land (flags m) fl =? 0)).

Definition its_flash_fs_mblock_init : M st unit :=
  do! dev (ops_init ops) in
  do! its_init_get_active_metablock or_return PSA_ERROR_GENERIC_ERROR in
  do! its_mblock_read_meta_header or_return PSA_ERROR_GENERIC_ERROR in
  its_mblock_erase_scratch_blocks.

Definition its_flash_fs_mblock_meta_update_finalize : M st unit :=
  do! its_mblock_write_scratch_meta_header in
  do! dev_flush in
  do! its_mblock_swap_metablocks in
  its_mblock_erase_scratch_blocks.

Definition its_flash_fs_mblock_migrate_lb0_data_to_scratch : M st unit :=
  let! fs_ctx := get_ctx in
  let! block_meta := its_flash_fs_mblock_read_block_metadata ITS_LOGICAL_DBLOCK0 in
  let data_size := u32 (u32 (block_size (cfg fs_ctx) - data_start block_meta)
                        - free_size block_meta) in
  its_flash_fs_block_to_block_move (scratch_metablock fs_ctx) (data_start block_meta)
    (active_metablock fs_ctx) (data_start block_meta) data_size.

(** The free index is looked up whatever the reservation returned. *)
Definition its_flash_fs_mblock_reserve_file (fid : list Z) (use_spare : bool) (size flags : Z) :
    M st (Z * its_file_meta_t * its_block_meta_t) :=
  let! r := attempt (its_mblock_reserve_file fid size flags) in
  let! idx := its_get_free_file_index use_spare in
  match r with
  | Err _ => fail PSA_ERROR_INSUFFICIENT_STORAGE
  | Ok (file_meta, block_meta) =>
      if idx =? ITS_METADATA_INVALID_INDEX then fail PSA_ERROR_INSUFFICIENT_STORAGE
      else ret (idx, file_meta, block_meta)
  end.

Definition its_flash_fs_mblock_update_scratch_block_meta (lblock : Z)
    (block_meta : its_block_meta_t) : M st unit :=
  let! fs_ctx := get_ctx in
  let block_meta := if lblock =? ITS_LOGICAL_DBLOCK0
                    then set_phy_id (scratch_metablock fs_ctx) block_meta else block_meta in
  do! its_mblock_update_scratch_block_meta lblock block_meta
    or_return PSA_ERROR_GENERIC_ERROR in
  its_mblock_copy_remaining_block_meta lblock.

Definition its_flash_fs_mblock_update_scratch_file_meta (idx : Z)
    (file_meta : its_file_meta_t) : M st unit :=
  let! fs_ctx := get_ctx in
  let pos := its_mblock_file_meta_offset (cfg fs_ctx) idx in
  dev_write (scratch_metablock fs_ctx) (file_meta_bytes file_meta) pos ITS_FILE_METADATA_SIZE.

Definition status_of {A} (r : res A) : psa_status_t :=
  match r with Ok _ => PSA_SUCCESS | Err e => e end.

Definition its_flash_fs_mblock_reset_metablock : M st unit :=
  let! a := attempt its_init_get_active_metablock in
  let! fs_ctx := get_ctx in
  let metablock_to_erase_first :=
    match a with Ok _ => scratch_metablock fs_ctx | Err _ => ITS_METADATA_BLOCK0 end in
  do! dev_erase metablock_to_erase_first in
  do! dev_erase (ITS_OTHER_META_BLOCK metablock_to_erase_first) in
  let c := cfg fs_ctx in
  do! set_ctx (fun x =>
    let h := meta_block_header x in
    let h := set_active_swap_count (if erase_val c =? 0 then 1 else 0) h in
    let h := set_scratch_dblock (its_init_scratch_dblock c) h in
    let h := set_fs_version ITS_SUPPORTED_VERSION h in
    set_metablocks ITS_METADATA_BLOCK0 ITS_METADATA_BLOCK1 (set_meta_block_header h x)) in
  let start := its_mblock_file_meta_offset c (max_num_files c) in
  do! its_mblock_update_scratch_block_meta ITS_LOGICAL_DBLOCK0
        {| phy_id := ITS_METADATA_BLOCK0; data_start := start;
           free_size := u32 (block_size c - start) |} in
  let n := Z.to_nat (its_num_dedicated_dblocks c) in
  let! r := mfor (R := unit) n 0 PSA_SUCCESS
    (fun i err =>
       let! e := attempt (dev_erase (u32 (i + its_init_dblock_start c))) in
       ret (inr (Z.lor err (status_of e)))) in
  let err := match r with inr err => err | inl _ => PSA_SUCCESS end in
  do! (if negb (err =? PSA_SUCCESS) then fail PSA_ERROR_STORAGE_FAILURE else ret tt) in
  do! mfor (R := unit) n 0 tt
    (fun i _ =>
       do! its_mblock_update_scratch_block_meta (u32 (i + 1))
             {| phy_id := u32 (i + its_init_dblock_start c); data_start := 0;
                free_size := block_size c |} or_return PSA_ERROR_GENERIC_ERROR in
       ret (inr tt)) in
  do! mfor (R := unit) (Z.to_nat (max_num_files c)) 0 tt
    (fun i _ =>
       do! its_flash_fs_mblock_update_scratch_file_meta i empty_file_meta
         or_return PSA_ERROR_GENERIC_ERROR in
       ret (inr tt)) in
  do! its_mblock_write_scratch_meta_header or_return PSA_ERROR_GENERIC_ERROR in
  do! dev_flush in
  its_mblock_swap_metablocks.
End Ops.
