(* ===== verification/ItsFs.v ===== *)
(** * Internal Trusted Storage: data blocks and the flash filesystem

    flash_fs/its_flash_fs_dblock.c and flash_fs/its_flash_fs.c under
    secure_fw/partitions/internal_trusted_storage: every operation, over any
    device operations table. *)

From Stdlib Require Import ZArith List Lia Bool.
From stdpp Require Import base tactics list.
From S2P Require Import Prelude ItsUtils ItsFlash ItsMblock.
Import ListNotations.
Local Open Scope Z_scope.

(** ** Flags (its_flash_fs.h, its_flash_fs.c) *)
Definition ITS_FLASH_FS_USER_FLAGS_MASK : Z := 2 ^ 16 - 1.
Definition ITS_FLASH_FS_WRITE_FLAGS_MASK : Z := 2 ^ 24 - 2 ^ 16.
Definition ITS_FLASH_FS_FLAG_CREATE : Z := 2 ^ 16.
Definition ITS_FLASH_FS_FLAG_TRUNCATE : Z := 2 ^ 17.
Definition ITS_FLASH_FS_INTERNAL_FLAGS_MASK : Z := UINT32_MAX - (2 ^ 24 - 1).
Definition ITS_FLASH_FS_FLAG_DELETE : Z := 2 ^ 24.

Definition has_flag (flags f : Z) : bool := negb (Z.land flags f =? 0).

Record its_file_info_t := {
  size_current : Z;
  size_max : Z;
  info_flags : Z
}.

(** ** Configuration checks *)
Definition its_flash_fs_num_active_dblocks (c : its_flash_fs_config_t) : Z :=
  if num_blocks c =? 2 then 1 else u32 (num_blocks c - 2).

Definition its_flash_fs_all_metadata_size (c : its_flash_fs_config_t) : Z :=
  u32 (ITS_BLOCK_META_HEADER_SIZE
       + its_flash_fs_num_active_dblocks c * ITS_BLOCK_METADATA_SIZE
       + max_num_files c * ITS_FILE_METADATA_SIZE).

Definition its_flash_fs_validate_config (c : its_flash_fs_config_t) : psa_status_t :=
  let ret0 := if (num_blocks c <? 2) || (num_blocks c =? 3)
              then PSA_ERROR_INVALID_ARGUMENT else PSA_SUCCESS in
  let ret1 := if num_blocks c =? 2 then
                if max_file_size c >? u32 (block_size c - its_flash_fs_all_metadata_size c)
                then PSA_ERROR_INVALID_ARGUMENT else ret0
              else ret0 in
  let ret2 := if max_file_size c >? block_size c then PSA_ERROR_INVALID_ARGUMENT else ret1 in
  if its_flash_fs_all_metadata_size c >? block_size c then PSA_ERROR_INVALID_ARGUMENT else ret2.

(** The zeroed context, with its configuration. [None] models a null pointer;
    the operations table is the parameter of the operations. *)
Definition its_flash_fs_init_ctx {Ops : Type} (fs_ctx : option its_flash_fs_ctx_t)
    (fs_cfg : option its_flash_fs_config_t) (fs_ops : option Ops) : res its_flash_fs_ctx_t :=
  match fs_ctx, fs_cfg, fs_ops with
  | Some _, Some c, Some _ =>
      let err := its_flash_fs_validate_config c in
      if negb (err =? PSA_SUCCESS) then Err err
      else Ok {| cfg := c;
                 meta_block_header := {| scratch_dblock := 0; fs_version := 0;
                                         active_swap_count := 0; header_padding := 0 |};
                 active_metablock := 0; scratch_metablock := 0 |}
  | _, _, _ => Err PSA_ERROR_INVALID_ARGUMENT
  end.

Section Ops.
Context {D : Type} (ops : its_flash_fs_ops_t D) (ITS_FLASH_MAX_ALIGNMENT : Z).
Local Abbreviation st := (its_flash_fs_ctx_t * D)%type.

(** ** its_flash_fs_dblock.c *)
Definition its_dblock_lo_to_phy (lblock : Z) : M st Z :=
  let! r := attempt (its_flash_fs_mblock_read_block_metadata ops lblock) in
  ret (match r with Ok block_meta => phy_id block_meta | Err _ => ITS_BLOCK_INVALID_ID end).

Definition its_flash_fs_dblock_compact_block
    (lblock free_size_ src_offset dst_offset size : Z) : M st unit :=
  let! block_meta := its_flash_fs_mblock_read_block_metadata ops lblock in
  let block_meta := set_free_size (u32 (free_size block_meta + free_size_)) block_meta in
  let! scratch_id := its_flash_fs_mblock_cur_data_scratch_id lblock in
  do! (if size >? 0 then
         its_flash_fs_block_to_block_move ops scratch_id dst_offset (phy_id block_meta)
           src_offset size or_return PSA_ERROR_GENERIC_ERROR
       else ret tt) in
  do! (if dst_offset >? data_start block_meta then
         its_flash_fs_block_to_block_move ops scratch_id (data_start block_meta)
           (phy_id block_meta) (data_start block_meta)
           (u32 (dst_offset - data_start block_meta)) or_return PSA_ERROR_GENERIC_ERROR
       else ret tt) in
  do! its_flash_fs_mblock_set_data_scratch (phy_id block_meta) lblock in
  let block_meta := set_phy_id scratch_id block_meta in
  let! r := attempt (its_flash_fs_mblock_update_scratch_block_meta ops lblock block_meta) in
  match r with
  | Err err =>
      do! its_flash_fs_mblock_set_data_scratch scratch_id lblock in
      fail err
  | Ok _ =>
      if negb (lblock =? ITS_LOGICAL_DBLOCK0) then dev_flush ops else ret tt
  end.

Definition its_flash_fs_dblock_read_file (file_meta : its_file_meta_t) (offset size : Z) :
    M st (list Z) :=
  let! phys_block := its_dblock_lo_to_phy (lblock file_meta) in
  if phys_block =? ITS_BLOCK_INVALID_ID then fail PSA_ERROR_GENERIC_ERROR
  else
    let pos := u32 (data_idx file_meta + offset) in
    dev_read ops phys_block pos size.

Definition its_flash_fs_dblock_write_file (block_meta : its_block_meta_t)
    (file_meta : its_file_meta_t) (offset size : Z) (data : list Z) : M st unit :=
  let! fs_ctx := get_ctx in
  let! scratch_id := its_flash_fs_mblock_cur_data_scratch_id (lblock file_meta) in
  let pos := u32 (data_idx file_meta + offset) in
  do! its_flash_fs_block_to_block_move ops scratch_id (data_start block_meta)
        (phy_id block_meta) (data_start block_meta) (u32 (pos - data_start block_meta)) in
  do! dev_write ops scratch_id data pos size in
  let pos := u32 (data_idx file_meta + max_size file_meta) in
  let num_bytes := u32 (u32 (block_size (cfg fs_ctx) - free_size block_meta) - pos) in
  do! its_flash_fs_block_to_block_move ops scratch_id pos (phy_id block_meta) pos num_bytes in
  if negb (lblock file_meta =? ITS_LOGICAL_DBLOCK0) then dev_flush ops else ret tt.

(** ** its_flash_fs.c *)
Definition its_flash_fs_file_write_aligned_data (block_meta : its_block_meta_t)
    (file_meta : its_file_meta_t) (offset size : Z) (data : list Z) : M st unit :=
  let! fs_ctx := get_ctx in
  let align := negb (ITS_FLASH_MAX_ALIGNMENT =? 1) in
  if align && negb (ITS_UTILS_IS_ALIGNED offset (program_unit (cfg fs_ctx)))
  then fail PSA_ERROR_INVALID_ARGUMENT
  else
    let size := if align then ITS_UTILS_ALIGN size (program_unit (cfg fs_ctx)) else size in
    if offset >? cur_size file_meta then fail PSA_ERROR_INVALID_ARGUMENT
    else if negb (its_utils_check_contained_in (max_size file_meta) offset size =? PSA_SUCCESS)
    then fail PSA_ERROR_INVALID_ARGUMENT
    else its_flash_fs_dblock_write_file block_meta file_meta offset size data.

(** One iteration of the table scan of a deletion: skip the deleted entry,
    shift the files stored after it, copy the entry to the scratch block. *)
Definition its_flash_fs_delete_scan (del_file_idx del_file_lblock del_file_data_idx
    del_file_max_size : Z) (idx : Z) (acc : Z * Z) : M st (unit + Z * Z) :=
  let '(src_offset, nbr_bytes_to_move) := acc in
  if idx =? del_file_idx then ret (inr (src_offset, nbr_bytes_to_move))
  else
    let! file_meta := its_flash_fs_mblock_read_file_meta ops idx in
    let moved := (lblock file_meta =? del_file_lblock) &&
                 (its_utils_validate_fid (id file_meta) =? PSA_SUCCESS) &&
                 (data_idx file_meta >? del_file_data_idx) in
    let src_offset' := if moved && (src_offset >? data_idx file_meta)
                       then data_idx file_meta else src_offset in
    let nbr_bytes_to_move' := if moved then u32 (nbr_bytes_to_move + max_size file_meta)
                              else nbr_bytes_to_move in
    let file_meta' := if moved
                      then set_data_idx (u32 (data_idx file_meta - del_file_max_size)) file_meta
                      else file_meta in
    do! its_flash_fs_mblock_update_scratch_file_meta ops idx file_meta' in
    ret (inr (src_offset', nbr_bytes_to_move')).

Definition its_flash_fs_delete_idx (del_file_idx : Z) : M st unit :=
  let! fs_ctx := get_ctx in
  let! file_meta := its_flash_fs_mblock_read_file_meta ops del_file_idx in
  if negb (its_utils_validate_fid (id file_meta) =? PSA_SUCCESS)
  then fail PSA_ERROR_DOES_NOT_EXIST
  else
    let del_file_lblock := lblock file_meta in
    let del_file_data_idx := data_idx file_meta in
    let del_file_max_size := max_size file_meta in
    do! its_flash_fs_mblock_update_scratch_file_meta ops del_file_idx empty_file_meta in
    let! r := mfor (Z.to_nat (max_num_files (cfg fs_ctx))) 0 (block_size (cfg fs_ctx), 0)
      (its_flash_fs_delete_scan del_file_idx del_file_lblock del_file_data_idx
         del_file_max_size) in
    match r with
    | inl _ => ret tt
    | inr (src_offset, nbr_bytes_to_move) =>
        do! its_flash_fs_dblock_compact_block del_file_lblock del_file_max_size src_offset
              del_file_data_idx nbr_bytes_to_move in
        do! (if negb (del_file_lblock =? ITS_LOGICAL_DBLOCK0) then
               its_flash_fs_mblock_migrate_lb0_data_to_scratch ops
                 or_return PSA_ERROR_GENERIC_ERROR
             else ret tt) in
        its_flash_fs_mblock_meta_update_finalize ops
    end.

Definition its_flash_fs_prepare : M st unit :=
  do! its_flash_fs_mblock_init ops in
  let! r := attempt (its_flash_fs_mblock_get_file_idx_flag ops ITS_FLASH_FS_FLAG_DELETE) in
  match r with
  | Ok idx => its_flash_fs_delete_idx idx
  | Err err => if negb (err =? PSA_ERROR_DOES_NOT_EXIST) then fail err else ret tt
  end.

Definition its_flash_fs_wipe_all : M st unit := its_flash_fs_mblock_reset_metablock ops.

Definition its_flash_fs_file_exist (fid : list Z) : M st unit :=
  do! its_flash_fs_mblock_get_file_idx ops fid or_return PSA_ERROR_DOES_NOT_EXIST in
  ret tt.

Definition its_flash_fs_file_get_info (fid : list Z) : M st its_file_info_t :=
  let! idx := its_flash_fs_mblock_get_file_idx ops fid or_return PSA_ERROR_DOES_NOT_EXIST in
  let! tmp_metadata := its_flash_fs_mblock_read_file_meta ops idx in
  if negb (fid_eqb fid (id tmp_metadata)) then fail PSA_ERROR_DOES_NOT_EXIST
  else ret {| size_max := max_size tmp_metadata; size_current := cur_size tmp_metadata;
              info_flags := Z.land (flags tmp_metadata) ITS_FLASH_FS_USER_FLAGS_MASK |}.

(** What the first part of a write decides: the index of an existing file
    ([old_idx]), the entry to write ([new_idx]) and its metadata when the
    existing file is reused. *)
Definition its_flash_fs_file_write_lookup (fid : list Z) (flags_ max_size_ : Z) :
    M st (Z * option (Z * its_file_meta_t)) :=
  let! r := attempt (its_flash_fs_mblock_get_file_idx ops fid) in
  match r with
  | Ok old_idx =>
      let! file_meta := its_flash_fs_mblock_read_file_meta ops old_idx
        or_return PSA_ERROR_DOES_NOT_EXIST in
      if has_flag flags_ ITS_FLASH_FS_FLAG_TRUNCATE then
        if max_size file_meta =? max_size_ then
          ret (old_idx, Some (old_idx, set_flags flags_ (set_cur_size 0 file_meta)))
        else
          do! its_flash_fs_mblock_update_scratch_file_meta ops old_idx
                (set_flags (Z.lor (flags file_meta) ITS_FLASH_FS_FLAG_DELETE) file_meta)
            or_return PSA_ERROR_GENERIC_ERROR in
          ret (old_idx, None)
      else ret (old_idx, Some (old_idx, file_meta))
  | Err err =>
      if err =? PSA_ERROR_DOES_NOT_EXIST then
        if negb (has_flag flags_ ITS_FLASH_FS_FLAG_CREATE) then fail PSA_ERROR_DOES_NOT_EXIST
        else ret (ITS_METADATA_INVALID_INDEX, None)
      else fail err
  end.

(** The entry, file metadata and block metadata of the file to write. *)
Definition its_flash_fs_file_write_place (fid : list Z) (flags_ max_size_ old_idx : Z)
    (reuse : option (Z * its_file_meta_t)) : M st (Z * its_file_meta_t * its_block_meta_t) :=
  let! fs_ctx := get_ctx in
  match reuse with
  | None =>
      if max_size_ >? max_file_size (cfg fs_ctx) then fail PSA_ERROR_INVALID_ARGUMENT
      else
        let use_spare := negb (old_idx =? ITS_METADATA_INVALID_INDEX) in
        its_flash_fs_mblock_reserve_file ops fid use_spare max_size_ flags_
  | Some (new_idx, file_meta) =>
      let! block_meta := its_flash_fs_mblock_read_block_metadata ops (lblock file_meta)
        or_return PSA_ERROR_GENERIC_ERROR in
      ret (new_idx, file_meta, block_meta)
  end.

(** The data part: write the content to the scratch data block and swap it in. *)
Definition its_flash_fs_file_write_data (block_meta : its_block_meta_t)
    (file_meta : its_file_meta_t) (offset data_size : Z) (data : list Z) :
    M st (its_file_meta_t * its_block_meta_t) :=
  if negb (data_size =? 0) then
    do! its_flash_fs_file_write_aligned_data block_meta file_meta offset data_size data
      or_return PSA_ERROR_GENERIC_ERROR in
    let file_meta := if u32 (offset + data_size) >? cur_size file_meta
                     then set_cur_size (u32 (offset + data_size)) file_meta else file_meta in
    let cur_phys_block := phy_id block_meta in
    let! scratch_id := its_flash_fs_mblock_cur_data_scratch_id (lblock file_meta) in
    let block_meta := set_phy_id scratch_id block_meta in
    do! its_flash_fs_mblock_set_data_scratch cur_phys_block (lblock file_meta) in
    ret (file_meta, block_meta)
  else ret (file_meta, block_meta).

(** The metadata part: write every entry of the scratch metadata block. *)
Definition its_flash_fs_file_write_meta (old_idx new_idx data_size : Z)
    (file_meta : its_file_meta_t) (block_meta : its_block_meta_t) : M st unit :=
  let! fs_ctx := get_ctx in
  do! its_flash_fs_mblock_update_scratch_block_meta ops (lblock file_meta) block_meta
    or_return PSA_ERROR_GENERIC_ERROR in
  do! its_flash_fs_mblock_update_scratch_file_meta ops new_idx file_meta
    or_return PSA_ERROR_GENERIC_ERROR in
  let idx := ITS_UTILS_MIN new_idx old_idx in
  do! its_flash_fs_mblock_cp_file_meta ops 0 idx or_return PSA_ERROR_GENERIC_ERROR in
  let two := negb (old_idx =? ITS_METADATA_INVALID_INDEX) && negb (old_idx =? new_idx) in
  do! (if two then
         its_flash_fs_mblock_cp_file_meta ops (u32 (idx + 1)) (ITS_UTILS_MAX new_idx old_idx)
           or_return PSA_ERROR_GENERIC_ERROR
       else ret tt) in
  let idx := if two then ITS_UTILS_MAX new_idx old_idx else idx in
  do! its_flash_fs_mblock_cp_file_meta ops (u32 (idx + 1)) (max_num_files (cfg fs_ctx))
    or_return PSA_ERROR_GENERIC_ERROR in
  do! (if negb (lblock file_meta =? ITS_LOGICAL_DBLOCK0) || (data_size =? 0) then
         its_flash_fs_mblock_migrate_lb0_data_to_scratch ops
           or_return PSA_ERROR_GENERIC_ERROR
       else ret tt) in
  its_flash_fs_mblock_meta_update_finalize ops.

Definition its_flash_fs_file_write (fid : list Z) (flags_ max_size_ data_size offset : Z)
    (data : list Z) : M st unit :=
  let! fs_ctx := get_ctx in
  if has_flag flags_ ITS_FLASH_FS_INTERNAL_FLAGS_MASK then fail PSA_ERROR_INVALID_ARGUMENT
  else
    let max_size_ := if negb (ITS_FLASH_MAX_ALIGNMENT =? 1)
                     then ITS_UTILS_ALIGN max_size_ (program_unit (cfg fs_ctx))
                     else max_size_ in
    let! (old_idx, reuse) := its_flash_fs_file_write_lookup fid flags_ max_size_ in
    let! (new_idx, file_meta, block_meta) :=
      its_flash_fs_file_write_place fid flags_ max_size_ old_idx reuse in
    let! (file_meta, block_meta) :=
      its_flash_fs_file_write_data block_meta file_meta offset data_size data in
    do! its_flash_fs_file_write_meta old_idx new_idx data_size file_meta block_meta in
    if negb (old_idx =? ITS_METADATA_INVALID_INDEX) && negb (old_idx =? new_idx)
    then its_flash_fs_delete_idx old_idx
    else ret tt.

Definition its_flash_fs_file_delete (fid : list Z) : M st unit :=
  let! del_file_idx := its_flash_fs_mblock_get_file_idx ops fid
    or_return PSA_ERROR_DOES_NOT_EXIST in
  its_flash_fs_delete_idx del_file_idx.

Definition its_flash_fs_file_read (fid : list Z) (size offset : Z) : M st (list Z) :=
  let! idx := its_flash_fs_mblock_get_file_idx ops fid or_return PSA_ERROR_DOES_NOT_EXIST in
  let! tmp_metadata := its_flash_fs_mblock_read_file_meta ops idx
    or_return PSA_ERROR_GENERIC_ERROR in
  if negb (fid_eqb fid (id tmp_metadata)) then fail PSA_ERROR_DOES_NOT_EXIST
  else
    let err := its_utils_check_contained_in (cur_size tmp_metadata) offset size in
    if negb (err =? PSA_SUCCESS) then fail err
    else
      its_flash_fs_dblock_read_file tmp_metadata offset size or_return PSA_ERROR_GENERIC_ERROR.
End Ops.
