(* ===== verification/ItsImage.v ===== *)
(** * Internal Trusted Storage: what a flash image means

    The representation of a filesystem on flash: geometry of a metadata
    block, decoding of its tables, the well-formedness of an image and the
    abstract file table it stores. *)

From Stdlib Require Import ZArith List Lia Bool.
From stdpp Require Import base tactics list.
From stdpp Require Import base tactics list sets.
From S2P Require Import Prelude ItsUtils ItsFlash ItsMblock ItsFs.
From S2P Require Import Prelude ItsUtils ItsFlash ItsMblock ItsFs .
Import ListNotations.
Local Open Scope Z_scope.

(** ** Geometry, without machine arithmetic *)
Definition nact (c : its_flash_fs_config_t) : Z :=
  if num_blocks c =? 2 then 1 else num_blocks c - 2.
Definition boff (l : Z) : Z := 8 + 12 * l.
Definition foff (c : its_flash_fs_config_t) (j : Z) : Z := 8 + 12 * nact c + 32 * j.
Definition mend (c : its_flash_fs_config_t) : Z := foff c (max_num_files c).

(** A configuration the filesystem accepts, on a device whose erased value is
    not 1 (flash erases to 0xFF, or 0x00 on some devices). *)
Record wf_cfg (c : its_flash_fs_config_t) : Prop := {
  wf_nb : 2 <= num_blocks c < 2 ^ 16;
  wf_nb3 : num_blocks c <> 3;
  wf_bs : block_size c < 2 ^ 16;
  wf_nf : 0 <= max_num_files c;
  wf_meta : mend c <= block_size c;
  wf_mfs : 0 <= max_file_size c <= block_size c;
  wf_ev : 0 <= erase_val c < 256;
  wf_ev1 : erase_val c <> 1
}.

(** ** Decoding *)
Definition hdr_at (m : mem) : its_metadata_block_header_t :=
  bytes_header (mread m 0 ITS_BLOCK_META_HEADER_SIZE).
Definition bm_at (m : mem) (l : Z) : its_block_meta_t :=
  bytes_block_meta (mread m (boff l) ITS_BLOCK_METADATA_SIZE).
Definition fm_at (c : its_flash_fs_config_t) (m : mem) (j : Z) : its_file_meta_t :=
  bytes_file_meta (mread m (foff c j) ITS_FILE_METADATA_SIZE).

Definition in_use (m : its_file_meta_t) : Prop := its_utils_validate_fid (id m) = PSA_SUCCESS.
#[global] Instance in_use_dec m : Decision (in_use m) := decide (_ = _).

(** The fields of a decoded struct are machine words. *)
Definition bm_words (m : its_block_meta_t) : Prop :=
  0 <= phy_id m < 2 ^ 32 /\ 0 <= data_start m < 2 ^ 32 /\ 0 <= free_size m < 2 ^ 32.
Definition fm_words (m : its_file_meta_t) : Prop :=
  0 <= lblock m < 2 ^ 32 /\ 0 <= data_idx m < 2 ^ 32 /\ 0 <= cur_size m < 2 ^ 32 /\
  0 <= max_size m < 2 ^ 32 /\ 0 <= flags m < 2 ^ 32 /\ length (id m) = 12%nat.
Definition hdr_fields (h : its_metadata_block_header_t) : Prop :=
  0 <= scratch_dblock h < 2 ^ 32 /\ 0 <= fs_version h < 2 ^ 8 /\
  0 <= active_swap_count h < 2 ^ 8.
Definition hdr_words (h : its_metadata_block_header_t) : Prop :=
  hdr_fields h /\ 0 <= header_padding h < 2 ^ 16.

(** ** Images

    [tiles f p js e]: the files of the entries [js], in this order, fill the
    region from [p] to [e] without gap or overlap. *)
Inductive tiles (f : Z -> its_file_meta_t) : Z -> list Z -> Z -> Prop :=
| tiles_nil p : tiles f p [] p
| tiles_cons p j js e :
    data_idx (f j) = p -> tiles f (p + max_size (f j)) js e -> tiles f p (j :: js) e.

Definition is_metablock (a : Z) : Prop := a = 0 \/ a = 1.

(** The part of an image that does not depend on the header: metadata block
    [a] of [V] describes a filesystem whose free data block is [sd].  Logical
    block 0 is mapped to [a] itself, except after a reset, which leaves it
    mapped to the other metadata block while it holds no data. *)
Record body (c : its_flash_fs_config_t) (V : view) (a sd : Z) : Prop := {
  body_bm : forall l, 0 <= l < nact c ->
    bm_words (bm_at (V a) l) /\
    its_mblock_validate_block_meta c (bm_at (V a) l) = PSA_SUCCESS;
  body_phy0 : phy_id (bm_at (V a) 0) = a \/
    is_metablock (phy_id (bm_at (V a) 0)) /\ free_size (bm_at (V a) 0) = block_size c - mend c;
  body_phy : forall l, 1 <= l < nact c -> 2 <= phy_id (bm_at (V a) l) /\
    phy_id (bm_at (V a) l) <> sd;
  body_inj : forall l l', 1 <= l < nact c -> 1 <= l' < nact c ->
    phy_id (bm_at (V a) l) = phy_id (bm_at (V a) l') -> l = l';
  body_sd : num_blocks c > 2 -> 2 <= sd < num_blocks c;
  body_fm : forall j, 0 <= j < max_num_files c ->
    fm_words (fm_at c (V a) j) /\
    its_mblock_validate_file_meta c (fm_at c (V a) j) = PSA_SUCCESS;
  body_free : forall j, 0 <= j < max_num_files c -> ~ in_use (fm_at c (V a) j) ->
    flags (fm_at c (V a) j) = 0;
  body_tiles : forall l, 0 <= l < nact c -> exists js,
    NoDup js /\
    (forall j, j ∈ js <-> 0 <= j < max_num_files c /\ in_use (fm_at c (V a) j) /\
                           lblock (fm_at c (V a) j) = l) /\
    tiles (fm_at c (V a)) (data_start (bm_at (V a) l)) js
      (block_size c - free_size (bm_at (V a) l))
}.

Record image (c : its_flash_fs_config_t) (V : view) (a : Z) : Prop := {
  image_meta : is_metablock a;
  image_words : hdr_fields (hdr_at (V a));
  image_hdr : its_mblock_validate_header_meta c (hdr_at (V a)) = PSA_SUCCESS;
  image_body : body c V a (scratch_dblock (hdr_at (V a)))
}.

(** ** The abstract file table *)
Record file := {
  f_id : list Z;
  f_flags : Z;
  f_max : Z;
  f_data : list Z
}.

Definition with_flags (fl : Z) (x : file) : file :=
  {| f_id := f_id x; f_flags := fl; f_max := f_max x; f_data := f_data x |}.

Definition file_at (c : its_flash_fs_config_t) (V : view) (a j : Z) : option file :=
  let m := fm_at c (V a) j in
  if decide (in_use m) then
    Some {| f_id := id m; f_flags := flags m; f_max := max_size m;
            f_data := mread (V (phy_id (bm_at (V a) (lblock m)))) (data_idx m) (cur_size m) |}
  else None.

Definition table : Type := Z -> option file.

(** [V] holds the files [T] under metadata block [a]. *)
Definition holds (c : its_flash_fs_config_t) (V : view) (a : Z) (T : table) : Prop :=
  image c V a /\ forall j, 0 <= j < max_num_files c -> file_at c V a j = T j.

(** ** Geometry lemmas *)
Section Geometry.
Context {c : its_flash_fs_config_t} (wf : wf_cfg c).

Lemma nact_bounds : 1 <= nact c <= num_blocks c - 1.
Proof. pose proof (wf_nb c wf). pose proof (wf_nb3 c wf). unfold nact. case_match; lia. Qed.

Lemma mend_bounds : 20 <= mend c < 2 ^ 16.
Proof.
  pose proof nact_bounds. pose proof (wf_meta c wf). pose proof (wf_bs c wf).
  pose proof (wf_nf c wf). unfold mend, foff in *. lia.
Qed.

Lemma num_active_eq : its_num_active_dblocks c = nact c.
Proof.
  pose proof (wf_nb c wf). pose proof (wf_nb3 c wf).
  unfold its_num_active_dblocks, its_num_dedicated_dblocks, its_init_dblock_start, nact.
  destruct (Z.eqb_spec (num_blocks c) 2) as [E|E]; [reflexivity|].
  rewrite !u32_small by (try rewrite u32_small; lia). lia.
Qed.

Lemma num_dedicated_eq : its_num_dedicated_dblocks c = nact c - 1.
Proof.
  pose proof (wf_nb c wf). pose proof (wf_nb3 c wf).
  unfold its_num_dedicated_dblocks, its_init_dblock_start, nact.
  destruct (Z.eqb_spec (num_blocks c) 2) as [E|E]; [reflexivity|].
  rewrite u32_small; lia.
Qed.

Lemma block_meta_offset_eq l : 0 <= l <= nact c -> its_mblock_block_meta_offset l = boff l.
Proof.
  intros Hl. pose proof nact_bounds. pose proof (wf_nb c wf).
  unfold its_mblock_block_meta_offset, boff, ITS_BLOCK_META_HEADER_SIZE, ITS_BLOCK_METADATA_SIZE.
  rewrite u32_small; lia.
Qed.

Lemma file_meta_offset_eq j : 0 <= j <= max_num_files c ->
  its_mblock_file_meta_offset c j = foff c j.
Proof.
  intros Hj. pose proof mend_bounds. pose proof nact_bounds.
  unfold its_mblock_file_meta_offset. rewrite num_active_eq.
  unfold mend, foff, ITS_BLOCK_META_HEADER_SIZE, ITS_BLOCK_METADATA_SIZE,
    ITS_FILE_METADATA_SIZE in *.
  rewrite u32_small; lia.
Qed.

Lemma mend_offset : its_mblock_file_meta_offset c (max_num_files c) = mend c.
Proof. apply file_meta_offset_eq. pose proof (wf_nf c wf). lia. Qed.
End Geometry.

(** ** Encoding lemmas *)
Lemma bytes_field_app l1 l2 off n :
  length l1 = off -> bytes_field (l1 ++ l2) off n = le_val (firstn n l2).
Proof.
  intros <-. unfold bytes_field. rewrite skipn_app, skipn_all, Nat.sub_diag. done.
Qed.

Lemma le_val_firstn_bytes n v l : 0 <= v < 256 ^ Z.of_nat n ->
  le_val (firstn n (le_bytes n v ++ l)) = v.
Proof.
  intros H. rewrite firstn_app, length_le_bytes, Nat.sub_diag. cbn [firstn].
  rewrite app_nil_r, firstn_all2 by (rewrite length_le_bytes; lia).
  rewrite le_val_bytes. by apply Z.mod_small.
Qed.

Lemma bytes_field_le l1 off n v l2 :
  length l1 = off -> 0 <= v < 256 ^ Z.of_nat n ->
  bytes_field (l1 ++ le_bytes n v ++ l2) off n = v.
Proof. intros H1 Hv. rewrite bytes_field_app by done. by apply le_val_firstn_bytes. Qed.

Lemma length_header_bytes h : length (header_bytes h) = 8%nat.
Proof. unfold header_bytes. by rewrite !length_app, !length_le_bytes. Qed.
Lemma length_block_meta_bytes m : length (block_meta_bytes m) = 12%nat.
Proof. unfold block_meta_bytes. by rewrite !length_app, !length_le_bytes. Qed.
Lemma length_file_meta_bytes m : length (id m) = 12%nat -> length (file_meta_bytes m) = 32%nat.
Proof. intros H. unfold file_meta_bytes. rewrite !length_app, !length_le_bytes, H. done. Qed.

Lemma bytes_header_bytes h : hdr_words h -> bytes_header (header_bytes h) = h.
Proof.
  intros [(H1 & H2 & H3) H4]. destruct h as [sd ver cnt pad]; simpl in *.
  unfold bytes_header, header_bytes; simpl scratch_dblock; simpl fs_version;
    simpl active_swap_count; simpl header_padding. f_equal.
  - apply (bytes_field_le []); [done|]. change (256 ^ Z.of_nat 4) with (2 ^ 32). lia.
  - apply bytes_field_le; [apply length_le_bytes|]. change (256 ^ Z.of_nat 1) with (2 ^ 8). lia.
  - rewrite app_assoc. apply bytes_field_le; [by rewrite length_app, !length_le_bytes|].
    change (256 ^ Z.of_nat 1) with (2 ^ 8). lia.
  - rewrite !app_assoc. rewrite <- (app_nil_r (le_bytes 2 pad)).
    apply bytes_field_le; [by rewrite !length_app, !length_le_bytes|].
    change (256 ^ Z.of_nat 2) with (2 ^ 16). lia.
Qed.

Lemma bytes_block_meta_bytes m : bm_words m -> bytes_block_meta (block_meta_bytes m) = m.
Proof.
  intros (H1 & H2 & H3). destruct m as [p ds fs]; simpl in *.
  unfold bytes_block_meta, block_meta_bytes; simpl phy_id; simpl data_start; simpl free_size.
  f_equal.
  - apply (bytes_field_le []); [done|]. change (256 ^ Z.of_nat 4) with (2 ^ 32). lia.
  - apply bytes_field_le; [apply length_le_bytes|]. change (256 ^ Z.of_nat 4) with (2 ^ 32). lia.
  - rewrite app_assoc, <- (app_nil_r (le_bytes 4 fs)).
    apply bytes_field_le; [by rewrite length_app, !length_le_bytes|].
    change (256 ^ Z.of_nat 4) with (2 ^ 32). lia.
Qed.

Lemma bytes_file_meta_bytes m : fm_words m -> bytes_file_meta (file_meta_bytes m) = m.
Proof.
  intros (H1 & H2 & H3 & H4 & H5 & H6). destruct m as [lb di cs ms fl fid]; simpl in *.
  assert (H32 : 256 ^ Z.of_nat 4 = 2 ^ 32) by done.
  unfold bytes_file_meta, file_meta_bytes; cbn [lblock data_idx cur_size max_size flags id].
  f_equal.
  - apply (bytes_field_le []); [done|]. lia.
  - apply bytes_field_le; [apply length_le_bytes|]. lia.
  - rewrite app_assoc. apply bytes_field_le; [by rewrite !length_app, !length_le_bytes|]. lia.
  - rewrite !app_assoc, <- (app_assoc _ (le_bytes 4 fl)), <- (app_assoc _ (le_bytes 4 ms)).
    apply bytes_field_le; [by rewrite !length_app, !length_le_bytes|]. lia.
  - rewrite !app_assoc, <- (app_assoc _ (le_bytes 4 fl)).
    apply bytes_field_le; [by rewrite !length_app, !length_le_bytes|]. lia.
  - rewrite !app_assoc. rewrite skipn_app, skipn_all2 by (by rewrite !length_app, !length_le_bytes).
    rewrite !length_app, !length_le_bytes, app_nil_l.
    change (20 - (4 + 4 + 4 + 4 + 4))%nat with O. rewrite skipn_O. apply firstn_all2. lia.
Qed.

Lemma empty_file_meta_words : fm_words empty_file_meta.
Proof. repeat split; simpl; lia. Qed.
Lemma empty_not_in_use : ~ in_use empty_file_meta.
Proof. done. Qed.

(** Logical block 0: its physical block, where it matters. *)
Lemma body_phy0_meta c V a sd : body c V a sd -> is_metablock a -> is_metablock (phy_id (bm_at (V a) 0)).
Proof. intros HB Ha. by destruct (body_phy0 c V a sd HB) as [->|[? _]]. Qed.

Lemma body_phy0_used c V a sd i : body c V a sd -> mend c <= i < block_size c - free_size (bm_at (V a) 0) ->
  phy_id (bm_at (V a) 0) = a.
Proof. intros HB Hi. destruct (body_phy0 c V a sd HB) as [->|[_ E]]; [done|lia]. Qed.

(** * Internal Trusted Storage: the layout of the files in a data block *)

Lemma tiles_app f p l1 l2 e :
  tiles f p (l1 ++ l2) e <-> exists q, tiles f p l1 q /\ tiles f q l2 e.
Proof.
  split.
  - revert p. induction l1 as [|j l1 IH]; intros p H; simpl in H.
    + exists p. split; [constructor|done].
    + inversion H as [|? ? ? ? Hd Ht]; subst. destruct (IH _ Ht) as (q & H1 & H2).
      exists q. split; [by constructor|done].
  - intros (q & H1 & H2). induction H1; [done|]. simpl. constructor; auto.
Qed.

Lemma tiles_ext f g p js e : (forall j, j ∈ js -> g j = f j) -> tiles f p js e -> tiles g p js e.
Proof.
  intros H Ht. induction Ht as [p|p j js e Hd Ht IH]; constructor.
  - rewrite H by set_solver. done.
  - rewrite H by set_solver. apply IH. set_solver.
Qed.

(** Sum of a quantity over a list of entries. *)
Fixpoint zsum (f : Z -> Z) (l : list Z) : Z :=
  match l with
  | [] => 0
  | j :: l' => f j + zsum f l'
  end.

Lemma zsum_app f l1 l2 : zsum f (l1 ++ l2) = zsum f l1 + zsum f l2.
Proof. induction l1; simpl; lia. Qed.

Lemma zsum_perm f l1 l2 : l1 ≡ₚ l2 -> zsum f l1 = zsum f l2.
Proof. induction 1; simpl; lia. Qed.

Lemma zsum_nonneg f l : (forall j, j ∈ l -> 0 <= f j) -> 0 <= zsum f l.
Proof.
  induction l as [|j l IH]; intros H; simpl; [lia|].
  pose proof (H j ltac:(set_solver)). pose proof (IH ltac:(set_solver)). lia.
Qed.

(** The entries [j < n] that satisfy a predicate, in table order. *)
Definition entries (P : Z -> Prop) `{!forall j, Decision (P j)} (n : Z) : list Z :=
  filter P (seqZ 0 n).

Lemma elem_of_entries P `{!forall j, Decision (P j)} n j :
  j ∈ entries P n <-> P j /\ 0 <= j < n.
Proof. unfold entries. by rewrite list_elem_of_filter, elem_of_seqZ, Z.add_0_l. Qed.

Lemma seqZ_snoc n : 0 <= n -> seqZ 0 (n + 1) = seqZ 0 n ++ [n].
Proof. intros H. rewrite seqZ_app by lia. reflexivity. Qed.

Lemma zsum_entries_step f P `{!forall j, Decision (P j)} n : 0 <= n ->
  zsum f (entries P (n + 1)) = zsum f (entries P n) + (if decide (P n) then f n else 0).
Proof.
  intros Hn. unfold entries. rewrite seqZ_snoc, filter_app, zsum_app by done.
  rewrite filter_cons, filter_nil. case_decide; simpl; lia.
Qed.

Lemma zsum_entries_mono f P `{!forall j, Decision (P j)} n m :
  0 <= n <= m -> (forall j, 0 <= j < m -> P j -> 0 <= f j) ->
  0 <= zsum f (entries P n) <= zsum f (entries P m).
Proof.
  intros Hn Hf. replace m with (n + (m - n)) by lia.
  unfold entries. rewrite (seqZ_app 0 n (m - n)), filter_app, zsum_app by lia.
  assert (0 <= zsum f (filter P (seqZ 0 n))).
  { apply zsum_nonneg. intros j. rewrite list_elem_of_filter, elem_of_seqZ.
    intros [HP Hj]. apply Hf; [lia|done]. }
  assert (0 <= zsum f (filter P (seqZ (0 + n) (m - n)))); [|lia].
  apply zsum_nonneg. intros j. rewrite list_elem_of_filter, elem_of_seqZ.
  intros [HP Hj]. apply Hf; [lia|done].
Qed.

(** A duplicate-free list of the entries that satisfy [P]. *)
Lemma entries_perm P `{!forall j, Decision (P j)} n js :
  NoDup js -> (forall j, j ∈ js <-> P j /\ 0 <= j < n) -> entries P n ≡ₚ js.
Proof.
  intros Hnd Hin. apply NoDup_Permutation; [|done|].
  - apply NoDup_filter, NoDup_seqZ.
  - intros j. by rewrite elem_of_entries, Hin.
Qed.

Section Tiles.
Context (f : Z -> its_file_meta_t).

Lemma tiles_sum p js e : tiles f p js e -> zsum (fun j => max_size (f j)) js = e - p.
Proof. induction 1; simpl; lia. Qed.

Lemma tiles_bounds p js e j :
  tiles f p js e -> (forall j, j ∈ js -> 0 <= max_size (f j)) -> j ∈ js ->
  p <= data_idx (f j) /\ data_idx (f j) + max_size (f j) <= e.
Proof.
  intros Ht. induction Ht as [p|p j' js e Hd Ht IH]; intros Hn Hj; [by apply not_elem_of_nil in Hj|].
  pose proof (Hn j' ltac:(set_solver)) as H1.
  assert (H2 : 0 <= zsum (fun j => max_size (f j)) js) by (apply zsum_nonneg; intros; apply Hn; set_solver).
  rewrite (tiles_sum _ _ _ Ht) in H2.
  apply elem_of_cons in Hj as [->|Hj]; [lia|].
  destruct (IH ltac:(set_solver) Hj). lia.
Qed.

(** Files of a tiling do not overlap. *)
Lemma tiles_disjoint p js e j k :
  tiles f p js e -> (forall j, j ∈ js -> 0 <= max_size (f j)) -> NoDup js ->
  j ∈ js -> k ∈ js -> j <> k ->
  data_idx (f j) + max_size (f j) <= data_idx (f k) \/
  data_idx (f k) + max_size (f k) <= data_idx (f j).
Proof.
  intros Ht. induction Ht as [p|p i js e Hd Ht IH]; intros Hn Hnd Hj Hk Hjk;
    [by apply not_elem_of_nil in Hj|].
  apply NoDup_cons in Hnd as [Hni Hnd].
  assert (Hb : forall l, l ∈ js -> p + max_size (f i) <= data_idx (f l)).
  { intros l Hl. refine (proj1 (tiles_bounds _ js e l Ht _ Hl)). set_solver. }
  apply elem_of_cons in Hj as [->|Hj]; apply elem_of_cons in Hk as [->|Hk]; [done| | |].
  - left. rewrite Hd. by apply Hb.
  - right. rewrite Hd. by apply Hb.
  - apply IH; auto. set_solver.
Qed.

Lemma tiles_shift g m p js e :
  tiles f p js e ->
  (forall j, j ∈ js -> data_idx (g j) = data_idx (f j) - m /\ max_size (g j) = max_size (f j)) ->
  tiles g (p - m) js (e - m).
Proof.
  intros Ht. induction Ht as [p|p j js e Hd Ht IH]; intros H; constructor.
  - destruct (H j ltac:(set_solver)). lia.
  - destruct (H j ltac:(set_solver)) as [_ ->].
    replace (p - m + max_size (f j)) with (p + max_size (f j) - m) by lia.
    apply IH. set_solver.
Qed.
End Tiles.
