(* ===== verification/ItsDevSpec.v ===== *)
(** * Internal Trusted Storage: specifications of the device-level steps

    Every lemma is stated over an arbitrary device that satisfies
    [FlashSpec]: on success the step has its exact effect on the view, and on
    failure only the target region may have changed. *)

From Stdlib Require Import ZArith List Lia Bool.
From stdpp Require Import base tactics list.
From S2P Require Import Prelude ItsUtils ItsFlash ItsMblock ItsFs ItsImage.
Import ListNotations.
Local Open Scope Z_scope.

(** Outside bytes [lo, hi) of block [b] nothing changed. *)
Definition only_in (b lo hi : Z) (U U' : view) : Prop :=
  forall b' i, ~ (b' = b /\ lo <= i < hi) -> U' b' i = U b' i.

Definition blk_copy (U : view) (dst doff src soff size : Z) : view :=
  fun b i => if (b =? dst) && ((doff <=? i) && (i <? doff + size))
             then U src (soff + (i - doff)) else U b i.

(** Case analysis on the tests of [blk_write], [blk_erase] and [blk_copy]. *)
Ltac blk_case :=
  repeat match goal with
  | |- context [if ?b then _ else _] => let E := fresh "Ecase" in destruct b eqn:E
  | H : context [if ?b then _ else _] |- _ => let E := fresh "Ecase" in destruct b eqn:E
  end;
  rewrite ?andb_true_iff, ?andb_false_iff, ?Z.eqb_eq, ?Z.eqb_neq, ?Z.leb_le, ?Z.leb_gt,
    ?Z.ltb_lt, ?Z.ltb_ge in *.

(** Apply a specification, settling the device and configuration arguments. *)
Tactic Notation "use" uconstr(L) :=
  eapply L;
  [ lazymatch goal with
    | H : FlashSpec _ ?o _ _ |- FlashSpec _ ?o _ _ => exact H
    | H : wf_cfg _ |- wf_cfg _ => exact H
    | |- _ => idtac
    end .. ].

Lemma only_in_write U b off data size : only_in b off (off + size) U (blk_write U b off data size).
Proof. intros b' i H. unfold blk_write. blk_case; [lia|done]. Qed.

Lemma only_in_copy U dst doff src soff size :
  only_in dst doff (doff + size) U (blk_copy U dst doff src soff size).
Proof. intros b' i H. unfold blk_copy. blk_case; [lia|done]. Qed.

Lemma only_in_mono b lo hi lo' hi' U U' :
  only_in b lo hi U U' -> lo' <= lo -> hi <= hi' -> only_in b lo' hi' U U'.
Proof. intros H Hl Hh b' i Hn. apply H. lia. Qed.

Lemma only_in_trans b lo hi U1 U2 U3 :
  only_in b lo hi U1 U2 -> only_in b lo hi U2 U3 -> only_in b lo hi U1 U3.
Proof. intros H1 H2 b' i Hn. rewrite H2, H1; auto. Qed.

Lemma only_in_refl b lo hi U : only_in b lo hi U U.
Proof. intros b' i _. done. Qed.

Lemma erased_only_in c U U' b lo hi b' off size :
  only_in b lo hi U U' -> (b' <> b \/ off + size <= lo \/ hi <= off) ->
  erased c U b' off size -> erased c U' b' off size.
Proof. intros H Hd He i Hi. rewrite H; [by apply He|lia]. Qed.

Lemma blk_write_in U b off data size i :
  off <= i < off + size -> blk_write U b off data size b i = byte_at data (i - off).
Proof. intros H. unfold blk_write. blk_case; [done|lia]. Qed.

Lemma blk_copy_in U dst doff src soff size i :
  doff <= i < doff + size -> blk_copy U dst doff src soff size dst i = U src (soff + (i - doff)).
Proof. intros H. unfold blk_copy. blk_case; [done|lia]. Qed.

Section DevSpec.
Context {D : Type} (ops : its_flash_fs_ops_t D) (c : its_flash_fs_config_t).
Context (Vw : D -> view) (mf : Prop) {FS : FlashSpec c ops Vw mf} (wf : wf_cfg c).
Local Abbreviation st := (its_flash_fs_ctx_t * D)%type.

(** The state has context [x] and a device that shows the view [U]. *)
Definition st_is (x : its_flash_fs_ctx_t) (U : view) (s : st) : Prop :=
  fst s = x /\ same_view U (Vw (snd s)).

(** What a failing step guarantees: a device failure was possible, the
    status is an error and the view is one that [R] allows. *)
Definition on_fail (x : its_flash_fs_ctx_t) (R : view -> Prop)
    (E : psa_status_t -> st -> Prop) : Prop :=
  forall e s' U', mf -> e <> PSA_SUCCESS -> st_is x U' s' -> R U' -> E e s'.

Lemma on_fail_mono x (R R' : view -> Prop) E :
  on_fail x R E -> (forall U, R' U -> R U) -> on_fail x R' E.
Proof. intros H HR e s' U' Hm He Hs Hr. apply (H e s' U'); auto. Qed.

Lemma on_fail_const x R E e0 : e0 <> PSA_SUCCESS ->
  on_fail x R E -> on_fail x R (fun _ s' => E e0 s').
Proof. intros He H e s' U' Hm _ Hs Hr. by apply (H e0 s' U'). Qed.

Lemma st_is_ext x U s V : st_is x U s -> same_view U V -> st_is x V s.
Proof. intros [Hx Hs] HV. split; [done|]. intros b i. rewrite Hs. symmetry. apply HV. Qed.

Lemma dev_read_spec x U s b off size Q E :
  st_is x U s -> cfg x = c -> in_block c b off size ->
  (forall s', st_is x U s' -> Q (mread (U b) off size) s') ->
  on_fail x (same_view U) E ->
  wp (dev_read ops b off size) s Q E.
Proof.
  intros [Hx HU] Hc Hin HQ HE. destruct s as [x0 d]. simpl in *. subst x0.
  pose proof (flash_read d b off size Hin) as H. unfold wp, dev_read, dev in *. simpl. rewrite Hc.
  destruct (ops_read ops c b off size d) as [[data|e] d'].
  - destruct H as [-> Hs]. replace (mread (Vw d b) off size) with (mread (U b) off size).
    2:{ symmetry. apply mread_ext. intros i _. apply HU. }
    apply HQ. split; [done|]. intros b' i. simpl. rewrite Hs. apply HU.
  - destruct H as (Hm & He & Hs). apply (HE e _ U); auto.
    + split; [done|]. intros b' i. simpl. rewrite Hs. apply HU.
    + intros b' i. done.
Qed.

Lemma dev_write_spec x U s b data off size Q E :
  st_is x U s -> cfg x = c -> in_block c b off size ->
  size <= Z.of_nat (length data) -> erased c U b off size ->
  (forall s', st_is x (blk_write U b off data size) s' -> Q tt s') ->
  on_fail x (fun U' => exists k, 0 <= k <= size /\ U' = blk_write U b off data k) E ->
  wp (dev_write ops b data off size) s Q E.
Proof.
  intros [Hx HU] Hc Hin Hl He HQ HE. destruct s as [x0 d]. simpl in *. subst x0.
  assert (He' : erased c (Vw d) b off size) by (intros i Hi; rewrite HU; auto).
  pose proof (flash_write d b data off size Hin Hl He') as H.
  assert (Hv : forall k d', same_view (blk_write (Vw d) b off data k) (Vw d') ->
               st_is x (blk_write U b off data k) (x, d')).
  { intros k d' Hs. split; [done|]. intros b' i. simpl. rewrite Hs. unfold blk_write.
    blk_case; [done|apply HU]. }
  unfold wp, dev_write, dev in *. simpl. rewrite Hc.
  destruct (ops_write ops c b data off size d) as [[[]|e] d'].
  - apply HQ. by apply Hv.
  - destruct H as (Hm & Hne & k & Hk & Hs).
    apply (HE e _ (blk_write U b off data k)); eauto.
Qed.

Lemma dev_flush_spec x U s Q E :
  st_is x U s -> cfg x = c -> (forall s', st_is x U s' -> Q tt s') ->
  on_fail x (same_view U) E -> wp (dev_flush ops) s Q E.
Proof.
  intros [Hx HU] Hc HQ HE. destruct s as [x0 d]. simpl in *. subst x0.
  pose proof (flash_flush d) as H. unfold wp, dev_flush, dev in *. simpl. rewrite Hc.
  destruct (ops_flush ops c d) as [[[]|e] d'].
  - apply HQ. split; [done|]. intros b' i. simpl. rewrite H. apply HU.
  - destruct H as (Hm & He & Hs). apply (HE e _ U); auto.
    + split; [done|]. intros b' i. simpl. rewrite Hs. apply HU.
    + intros b' i. done.
Qed.

Lemma dev_init_spec x U s Q E :
  st_is x U s -> cfg x = c -> (forall s', st_is x U s' -> Q tt s') ->
  on_fail x (same_view U) E -> wp (dev (ops_init ops)) s Q E.
Proof.
  intros [Hx HU] Hc HQ HE. destruct s as [x0 d]. simpl in *. subst x0.
  pose proof (flash_init d) as H. unfold wp, dev in *. simpl. rewrite Hc.
  destruct (ops_init ops c d) as [[[]|e] d'].
  - apply HQ. split; [done|]. intros b' i. simpl. rewrite H. apply HU.
  - destruct H as (Hm & He & Hs). apply (HE e _ U); auto.
    + split; [done|]. intros b' i. simpl. rewrite Hs. apply HU.
    + intros b' i. done.
Qed.

(** A half-done erase: each byte of the block is old or erased. *)
Definition part_erase (b : Z) (U U' : view) : Prop :=
  forall b' i, U' b' i = U b' i \/
    (b' = b /\ 0 <= i < block_size c /\ U' b' i = erase_val c).

Lemma dev_erase_spec x U s b Q E :
  st_is x U s -> cfg x = c -> 0 <= b < num_blocks c ->
  (forall s', st_is x (blk_erase c U b) s' -> Q tt s') ->
  on_fail x (part_erase b U) E ->
  wp (dev_erase ops b) s Q E.
Proof.
  intros [Hx HU] Hc Hb HQ HE. destruct s as [x0 d]. simpl in *. subst x0.
  pose proof (flash_erase d b Hb) as H. unfold wp, dev_erase, dev in *. simpl. rewrite Hc.
  destruct (ops_erase ops c b d) as [[[]|e] d'].
  - apply HQ. split; [done|]. intros b' i. simpl. rewrite H. unfold blk_erase.
    blk_case; [done|apply HU].
  - destruct H as (Hm & He & Hs). apply (HE e _ (Vw d')); auto.
    + split; [done|]. intros b' i. done.
    + intros b' i. destruct (Hs b' i) as [->|H]; [left; apply HU|right; done].
Qed.

Lemma get_ctx_spec x U s Q E : st_is x U s -> Q x s -> wp get_ctx s Q E.
Proof. intros [<- _] H. exact H. Qed.

Lemma set_ctx_spec x U s f Q E :
  st_is x U s -> (forall s', st_is (f x) U s' -> Q tt s') -> wp (set_ctx f) s Q E.
Proof. intros [<- H] HQ. apply HQ. by split. Qed.

Lemma check_spec e s Q E : e = PSA_SUCCESS -> Q tt s -> wp (S := st) (check e) s Q E.
Proof. intros -> HQ. exact HQ. Qed.

(** ** The copy loop is one copy *)
Lemma block_to_block_move_loop_spec x fuel U s dst doff src soff size Q E :
  st_is x U s -> cfg x = c -> dst <> src ->
  in_block c dst doff size -> in_block c src soff size -> erased c U dst doff size ->
  size <= Z.of_nat fuel ->
  (forall s' U', st_is x U' s' -> same_view (blk_copy U dst doff src soff size) U' -> Q tt s') ->
  on_fail x (only_in dst doff (doff + size) U) E ->
  wp (its_flash_fs_block_to_block_move_loop ops fuel dst doff src soff size) s Q E.
Proof.
  intros Hst Hc Hne. pose proof (wf_bs c wf) as HB. revert U s doff soff size Hst.
  induction fuel as [|fuel IH]; intros U s doff soff size Hst Hd Hs He Hf HQ HE;
    cbn [its_flash_fs_block_to_block_move_loop].
  { destruct (size >? 0) eqn:Hz; [lia|]. apply wp_ret. apply (HQ s U Hst).
    intros b i. unfold blk_copy. blk_case; [lia|done]. }
  destruct (size >? 0) eqn:Hz.
  2:{ apply wp_ret. apply (HQ s U Hst). intros b i. unfold blk_copy. blk_case; [lia|done]. }
  rewrite its_min_spec. set (n := Z.min size ITS_MAX_BLOCK_DATA_COPY).
  assert (Hn : 0 < n <= size) by (unfold n, ITS_MAX_BLOCK_DATA_COPY; lia).
  unfold in_block in Hd, Hs.
  apply wp_bind. eapply dev_read_spec; [exact Hst|done|unfold in_block; lia| |].
  2:{ eapply on_fail_mono; [exact HE|]. intros V HV b i _. apply HV. }
  intros s1 Hst1. apply wp_bind.
  eapply dev_write_spec; [exact Hst1|done|unfold in_block; lia| | | |].
  { rewrite length_mread by lia. lia. }
  { intros i Hi. apply He. lia. }
  2:{ eapply on_fail_mono; [exact HE|]. intros V (k & Hk & ->).
      eapply only_in_mono; [apply only_in_write|lia|lia]. }
  intros s2 Hst2. rewrite !u32_small by lia.
  eapply IH; [exact Hst2|unfold in_block; lia|unfold in_block; lia| |lia| |].
  - intros i Hi. unfold blk_write. blk_case; [lia|]. apply He. lia.
  - intros s3 U3 Hst3 Hc3. apply (HQ s3 U3 Hst3). intros b i. rewrite Hc3.
    unfold blk_copy, blk_write. blk_case; try lia; try done.
    + f_equal. lia.
    + rewrite byte_at_mread by lia. done.
  - eapply on_fail_mono; [exact HE|]. intros V HV b i Hi. rewrite HV by lia.
    unfold blk_write. blk_case; [lia|done].
Qed.

Lemma block_to_block_move_spec x U s dst doff src soff size Q E :
  st_is x U s -> cfg x = c -> dst <> src ->
  in_block c dst doff size -> in_block c src soff size -> erased c U dst doff size ->
  (forall s', st_is x (blk_copy U dst doff src soff size) s' -> Q tt s') ->
  on_fail x (only_in dst doff (doff + size) U) E ->
  wp (its_flash_fs_block_to_block_move ops dst doff src soff size) s Q E.
Proof.
  intros Hst Hc Hne Hd Hs He HQ HE. unfold its_flash_fs_block_to_block_move.
  eapply block_to_block_move_loop_spec; eauto.
  - unfold in_block in Hd. lia.
  - intros s' U' Hst' HU. apply HQ. eapply st_is_ext; [exact Hst'|]. intros b i. symmetry. apply HU.
Qed.

(** Nothing to copy: the blocks need not differ. *)
Lemma block_move0_spec x U s dst doff src soff size Q E :
  st_is x U s -> cfg x = c -> dst <> src \/ size = 0 ->
  in_block c dst doff size -> in_block c src soff size -> erased c U dst doff size ->
  (forall s', st_is x (blk_copy U dst doff src soff size) s' -> Q tt s') ->
  on_fail x (only_in dst doff (doff + size) U) E ->
  wp (its_flash_fs_block_to_block_move ops dst doff src soff size) s Q E.
Proof.
  intros Hst Hc Hne Hd Hs He HQ HE.
  destruct (Z.eq_dec size 0) as [->|Hz].
  - apply wp_ret, HQ. eapply st_is_ext; [exact Hst|]. intros b i. unfold blk_copy. blk_case; [lia|done].
  - eapply block_to_block_move_spec; eauto. destruct Hne; [done|lia].
Qed.
End DevSpec.
