(* ===== verification/ItsMblockSpec.v ===== *)
(** * Internal Trusted Storage: specifications of the metadata block layer *)

From Stdlib Require Import ZArith List Lia Bool.
From stdpp Require Import base tactics list.
From S2P Require Import Prelude ItsUtils ItsFlash ItsMblock ItsFs ItsImage ItsDevSpec.
Import ListNotations.
Local Open Scope Z_scope.

(** ** Decoding depends only on the bytes decoded *)
Lemma hdr_at_ext m m' : (forall i, 0 <= i < 8 -> m' i = m i) -> hdr_at m' = hdr_at m.
Proof.
  intros H. unfold hdr_at. f_equal. apply mread_ext.
  unfold ITS_BLOCK_META_HEADER_SIZE. intros i Hi. apply H. lia.
Qed.

Lemma bm_at_ext m m' l : (forall i, boff l <= i < boff l + 12 -> m' i = m i) ->
  bm_at m' l = bm_at m l.
Proof. intros H. unfold bm_at. f_equal. apply mread_ext. exact H. Qed.

Lemma fm_at_ext c m m' j : (forall i, foff c j <= i < foff c j + 32 -> m' i = m i) ->
  fm_at c m' j = fm_at c m j.
Proof. intros H. unfold fm_at. f_equal. apply mread_ext. exact H. Qed.

Lemma hdr_at_bytes m h : hdr_words h ->
  (forall i, 0 <= i < 8 -> m i = byte_at (header_bytes h) i) -> hdr_at m = h.
Proof.
  intros Hw H. unfold hdr_at. rewrite (mread_bytes m 0 (header_bytes h)).
  - by apply bytes_header_bytes.
  - by rewrite length_header_bytes.
  - intros k Hk. apply H. exact Hk.
Qed.

Lemma bm_at_bytes m l bm : bm_words bm ->
  (forall i, boff l <= i < boff l + 12 -> m i = byte_at (block_meta_bytes bm) (i - boff l)) ->
  bm_at m l = bm.
Proof.
  intros Hw H. unfold bm_at. rewrite (mread_bytes m (boff l) (block_meta_bytes bm)).
  - by apply bytes_block_meta_bytes.
  - by rewrite length_block_meta_bytes.
  - unfold ITS_BLOCK_METADATA_SIZE. intros k Hk. rewrite H by lia. f_equal. lia.
Qed.

Lemma fm_at_bytes c m j fm : fm_words fm ->
  (forall i, foff c j <= i < foff c j + 32 -> m i = byte_at (file_meta_bytes fm) (i - foff c j)) ->
  fm_at c m j = fm.
Proof.
  intros Hw H. unfold fm_at. rewrite (mread_bytes m (foff c j) (file_meta_bytes fm)).
  - by apply bytes_file_meta_bytes.
  - rewrite length_file_meta_bytes; [done|]. apply Hw.
  - unfold ITS_FILE_METADATA_SIZE. intros k Hk. rewrite H by lia. f_equal. lia.
Qed.

Lemma bm_words_phy v m : 0 <= v < 2 ^ 32 -> bm_words m -> bm_words (set_phy_id v m).
Proof. intros Hv (H1 & H2 & H3). repeat split; simpl; lia. Qed.

(** ** What validation means *)
Section Validate.
Context {c : its_flash_fs_config_t} (wf : wf_cfg c).

Lemma validate_block_meta_iff m : bm_words m ->
  its_mblock_validate_block_meta c m = PSA_SUCCESS <->
  phy_id m < num_blocks c /\ data_start m + free_size m <= block_size c /\
  data_start m = (if decide (is_metablock (phy_id m)) then mend c else 0).
Proof.
  intros (Hp & Hd & Hf). pose proof (wf_bs c wf). pose proof (mend_bounds wf).
  pose proof (wf_meta c wf).
  unfold its_mblock_validate_block_meta. rewrite (mend_offset wf).
  pose proof (check_contained_in_ok (block_size c) (data_start m) (free_size m)) as Hok.
  unfold ITS_METADATA_BLOCK0, ITS_METADATA_BLOCK1, is_metablock.
  destruct (phy_id m >=? num_blocks c) eqn:E1; [split; [done|lia]|].
  destruct (Z.eqb_spec (its_utils_check_contained_in (block_size c) (data_start m)
    (free_size m)) PSA_SUCCESS) as [E2|E2]; simpl.
  2:{ split; [done|]. intros (_ & HX & _). destruct E2. apply Hok; lia. }
  apply Hok in E2; try lia.
  destruct (decide (phy_id m = 0 \/ phy_id m = 1)) as [Hm|Hm].
  - replace ((phy_id m =? 0) || (phy_id m =? 1)) with true by lia.
    destruct (Z.eqb_spec (data_start m) (mend c)); simpl; split; try done; lia.
  - replace ((phy_id m =? 0) || (phy_id m =? 1)) with false by lia.
    destruct (Z.eqb_spec (data_start m) 0); simpl; split; try done; lia.
Qed.

Lemma validate_file_meta_iff m : fm_words m ->
  its_mblock_validate_file_meta c m = PSA_SUCCESS <->
  lblock m < nact c /\
  (in_use m -> max_size m <= max_file_size c /\ cur_size m <= max_size m /\
     (lblock m = 0 -> mend c <= data_idx m) /\ data_idx m + max_size m <= block_size c).
Proof.
  intros (Hl & Hd & Hc & Hm & Hf & Hi). pose proof (wf_bs c wf).
  pose proof (mend_bounds wf). pose proof (wf_meta c wf).
  unfold its_mblock_validate_file_meta. rewrite (num_active_eq wf), (mend_offset wf).
  pose proof (check_contained_in_ok (block_size c) (data_idx m) (max_size m)) as Hok.
  unfold ITS_LOGICAL_DBLOCK0, in_use.
  destruct (lblock m >=? nact c) eqn:E1; [split; [done|lia]|].
  destruct (Z.eqb_spec (its_utils_validate_fid (id m)) PSA_SUCCESS) as [E2|E2];
    [|split; [lia|done]].
  destruct (max_size m >? max_file_size c) eqn:E3; [split; [done|lia]|].
  destruct (cur_size m >? max_size m) eqn:E4; [split; [done|lia]|].
  destruct ((lblock m =? 0) && (data_idx m <? mend c)) eqn:E5.
  { split; [done|]. intros [_ HX]. specialize (HX E2). lia. }
  destruct (Z.eqb_spec (its_utils_check_contained_in (block_size c) (data_idx m)
    (max_size m)) PSA_SUCCESS) as [E6|E6]; simpl.
  - apply Hok in E6; [|lia..]. split; [|done]. intros _. split; [lia|]. intros _. lia.
  - split; [done|]. intros [_ HX]. specialize (HX E2). destruct E6. apply Hok; lia.
Qed.

Lemma metablock_lt a : is_metablock a -> 0 <= a < num_blocks c.
Proof. pose proof (wf_nb c wf). unfold is_metablock. lia. Qed.
End Validate.

#[export] Hint Resolve metablock_lt : its.

Section MblockSpec.
Context {D : Type} (ops : its_flash_fs_ops_t D) (c : its_flash_fs_config_t).
Context (Vw : D -> view) (mf : Prop) {FS : FlashSpec c ops Vw mf} (wf : wf_cfg c).
Local Abbreviation st := (its_flash_fs_ctx_t * D)%type.
Local Abbreviation st_is := (st_is Vw).
Local Abbreviation on_fail := (on_fail Vw mf).

(** The context of a filesystem mounted on metadata block [a]. *)
Definition mounted (x : its_flash_fs_ctx_t) (a sb : Z) : Prop :=
  cfg x = c /\ active_metablock x = a /\ scratch_metablock x = sb /\
  is_metablock a /\ is_metablock sb /\ a <> sb.

Lemma fm_in_block b j : 0 <= b < num_blocks c -> 0 <= j < max_num_files c ->
  in_block c b (foff c j) 32.
Proof.
  intros Hb Hj. pose proof (wf_meta c wf). pose proof (nact_bounds wf).
  unfold in_block, mend, foff in *. lia.
Qed.

Lemma bm_in_block b l : 0 <= b < num_blocks c -> 0 <= l < nact c ->
  in_block c b (boff l) 12.
Proof.
  intros Hb Hj. pose proof (wf_meta c wf). pose proof (nact_bounds wf).
  pose proof (wf_nf c wf). unfold in_block, mend, foff, boff in *. lia.
Qed.

Lemma read_file_meta_spec x a sb U s j Q E :
  st_is x U s -> mounted x a sb -> 0 <= j < max_num_files c ->
  its_mblock_validate_file_meta c (fm_at c (U a) j) = PSA_SUCCESS ->
  (forall s', st_is x U s' -> Q (fm_at c (U a) j) s') ->
  on_fail x (same_view U) E ->
  wp (its_flash_fs_mblock_read_file_meta ops j) s Q E.
Proof.
  intros Hst (Hc & Ha & _ & Hma & _) Hj Hv HQ HE.
  unfold its_flash_fs_mblock_read_file_meta.
  apply wp_bind. eapply get_ctx_spec; [exact Hst|]. rewrite Hc, Ha.
  rewrite (file_meta_offset_eq wf) by lia.
  apply wp_bind. eapply dev_read_spec; eauto using fm_in_block, metablock_lt.
  intros s1 Hst1. apply wp_bind. apply check_spec; [exact Hv|]. apply wp_ret. auto.
Qed.

Lemma read_block_metadata_spec x a sb U s l Q E :
  st_is x U s -> mounted x a sb -> 0 <= l < nact c ->
  its_mblock_validate_block_meta c (bm_at (U a) l) = PSA_SUCCESS ->
  (forall s', st_is x U s' -> Q (bm_at (U a) l) s') ->
  on_fail x (same_view U) E ->
  wp (its_flash_fs_mblock_read_block_metadata ops l) s Q E.
Proof.
  intros Hst (Hc & Ha & _ & Hma & _) Hl Hv HQ HE.
  unfold its_flash_fs_mblock_read_block_metadata.
  apply wp_bind. eapply get_ctx_spec; [exact Hst|]. rewrite Hc, Ha.
  rewrite (block_meta_offset_eq wf) by lia.
  apply wp_bind. eapply dev_read_spec; eauto using bm_in_block, metablock_lt.
  intros s1 Hst1. apply wp_bind. apply check_spec; [exact Hv|]. apply wp_ret. auto.
Qed.

Lemma update_scratch_file_meta_spec x a sb U s j m Q E :
  st_is x U s -> mounted x a sb -> 0 <= j < max_num_files c -> fm_words m ->
  erased c U sb (foff c j) 32 ->
  (forall s' U', st_is x U' s' -> only_in sb (foff c j) (foff c j + 32) U U' ->
     fm_at c (U' sb) j = m -> Q tt s') ->
  on_fail x (only_in sb (foff c j) (foff c j + 32) U) E ->
  wp (its_flash_fs_mblock_update_scratch_file_meta ops j m) s Q E.
Proof.
  intros Hst (Hc & _ & Hs & _ & Hms & _) Hj Hw He HQ HE.
  unfold its_flash_fs_mblock_update_scratch_file_meta.
  apply wp_bind. eapply get_ctx_spec; [exact Hst|]. rewrite Hc, Hs.
  rewrite (file_meta_offset_eq wf) by lia.
  eapply dev_write_spec; eauto using fm_in_block, metablock_lt.
  - rewrite length_file_meta_bytes by apply Hw. done.
  - intros s' Hst'. eapply HQ; [exact Hst'|apply only_in_write|].
    apply fm_at_bytes; [done|]. intros i Hi. by apply blk_write_in.
  - eapply on_fail_mono; [exact HE|]. intros V (k & Hk & ->).
    eapply only_in_mono; [apply only_in_write|lia|]. unfold ITS_FILE_METADATA_SIZE in Hk. lia.
Qed.

(** The private writer of one block metadata entry. *)
Lemma update_block_meta_spec x a sb U s l m Q E :
  st_is x U s -> mounted x a sb -> 0 <= l < nact c -> bm_words m ->
  erased c U sb (boff l) 12 ->
  (forall s' U', st_is x U' s' -> only_in sb (boff l) (boff l + 12) U U' ->
     bm_at (U' sb) l = m -> Q tt s') ->
  on_fail x (only_in sb (boff l) (boff l + 12) U) E ->
  wp (its_mblock_update_scratch_block_meta ops l m) s Q E.
Proof.
  intros Hst (Hc & _ & Hs & _ & Hms & _) Hj Hw He HQ HE.
  unfold its_mblock_update_scratch_block_meta.
  apply wp_bind. eapply get_ctx_spec; [exact Hst|]. rewrite Hs.
  rewrite (block_meta_offset_eq wf) by lia.
  eapply dev_write_spec; eauto using bm_in_block, metablock_lt.
  - rewrite length_block_meta_bytes. done.
  - intros s' Hst'. eapply HQ; [exact Hst'|apply only_in_write|].
    apply bm_at_bytes; [done|]. intros i Hi. by apply blk_write_in.
  - eapply on_fail_mono; [exact HE|]. intros V (k & Hk & ->).
    eapply only_in_mono; [apply only_in_write|lia|]. unfold ITS_BLOCK_METADATA_SIZE in Hk. lia.
Qed.

Lemma cp_file_meta_spec x a sb U s i j Q E :
  st_is x U s -> mounted x a sb -> 0 <= i <= j -> j <= max_num_files c ->
  erased c U sb (foff c i) (foff c j - foff c i) ->
  (forall s' U', st_is x U' s' -> only_in sb (foff c i) (foff c j) U U' ->
     (forall k, i <= k < j -> fm_at c (U' sb) k = fm_at c (U a) k) -> Q tt s') ->
  on_fail x (only_in sb (foff c i) (foff c j) U) E ->
  wp (its_flash_fs_mblock_cp_file_meta ops i j) s Q E.
Proof.
  intros Hst (Hc & Ha & Hs & Hma & Hms & Hne) Hi Hj He HQ HE.
  pose proof (mend_bounds wf) as Hme. pose proof (wf_meta c wf). pose proof (nact_bounds wf).
  assert (Hr : 0 <= foff c i /\ foff c i <= foff c j <= mend c) by (unfold foff, mend, foff in *; lia).
  unfold its_flash_fs_mblock_cp_file_meta.
  apply wp_bind. eapply get_ctx_spec; [exact Hst|]. rewrite Hc, Ha, Hs.
  rewrite !(file_meta_offset_eq wf) by lia. rewrite u32_small by lia.
  pose proof (metablock_lt wf a Hma). pose proof (metablock_lt wf sb Hms).
  eapply block_to_block_move_spec; eauto; try (unfold in_block; lia).
  - intros s' Hst'. eapply HQ; [exact Hst'| |].
    + eapply only_in_mono; [apply only_in_copy|lia|lia].
    + intros k Hk. apply fm_at_ext. intros o Ho. unfold blk_copy.
      blk_case; [f_equal; lia|]. unfold foff in *. lia.
  - eapply on_fail_mono; [exact HE|]. intros V HV.
    eapply only_in_mono; [exact HV|lia|lia].
Qed.
End MblockSpec.

(** * Internal Trusted Storage: block metadata updates, data migration and
    the lookups of the metadata block layer *)

Section MetaSpec.
Context {D : Type} (ops : its_flash_fs_ops_t D) (c : its_flash_fs_config_t).
Context (Vw : D -> view) (mf : Prop) {FS : FlashSpec c ops Vw mf} (wf : wf_cfg c).
Local Abbreviation st := (its_flash_fs_ctx_t * D)%type.
Local Abbreviation st_is := (st_is Vw).
Local Abbreviation on_fail := (on_fail Vw mf).
Local Abbreviation mounted := (mounted c).

Lemma cur_data_scratch_id_spec x U (s : st) l Q E :
  st_is x U s ->
  Q (if l =? 0 then scratch_metablock x else scratch_dblock (meta_block_header x)) s ->
  wp (its_flash_fs_mblock_cur_data_scratch_id l) s Q E.
Proof.
  intros Hst HQ. unfold its_flash_fs_mblock_cur_data_scratch_id.
  apply wp_bind. eapply get_ctx_spec; [exact Hst|]. exact HQ.
Qed.

(** The context after [set_data_scratch]. *)
Definition with_scratch (p l : Z) (x : its_flash_fs_ctx_t) : its_flash_fs_ctx_t :=
  if l =? 0 then x
  else set_meta_block_header (set_scratch_dblock p (meta_block_header x)) x.

Lemma set_data_scratch_spec x U (s : st) p l Q E :
  st_is x U s -> (forall s', st_is (with_scratch p l x) U s' -> Q tt s') ->
  wp (its_flash_fs_mblock_set_data_scratch p l) s Q E.
Proof.
  intros Hst HQ. unfold its_flash_fs_mblock_set_data_scratch, with_scratch, ITS_LOGICAL_DBLOCK0 in *.
  destruct (l =? 0); simpl.
  - apply wp_ret. auto.
  - eapply set_ctx_spec; eauto.
Qed.

Lemma mounted_with_scratch p l x a sb : mounted x a sb -> mounted (with_scratch p l x) a sb.
Proof. unfold with_scratch. by case_match. Qed.

(** The valid bounds of a decoded block 0. *)
Lemma bm0_valid V a sd : body c V a sd -> is_metablock a ->
  let m := bm_at (V a) 0 in
  data_start m = mend c /\ 0 <= free_size m /\ mend c + free_size m <= block_size c.
Proof.
  intros HB Ha m. pose proof (nact_bounds wf).
  destruct (body_bm c V a sd HB 0) as [Hw Hv]; [lia|].
  apply (validate_block_meta_iff wf) in Hv as (H1 & H2 & H3); [|done].
  rewrite decide_True in H3 by (by apply (body_phy0_meta c V a sd)).
  destruct Hw as (_ & _ & Hf). unfold m. lia.
Qed.

(** Data of logical block 0, copied to the scratch metadata block. *)
Lemma migrate_lb0_spec x a sb U s Q E :
  st_is x U s -> mounted x a sb ->
  bm_words (bm_at (U a) 0) ->
  its_mblock_validate_block_meta c (bm_at (U a) 0) = PSA_SUCCESS ->
  is_metablock (phy_id (bm_at (U a) 0)) ->
  erased c U sb (mend c) (block_size c - mend c) ->
  (forall s', st_is x (blk_copy U sb (mend c) a (mend c)
       (block_size c - free_size (bm_at (U a) 0) - mend c)) s' -> Q tt s') ->
  on_fail x (only_in sb (mend c) (block_size c) U) E ->
  wp (its_flash_fs_mblock_migrate_lb0_data_to_scratch ops) s Q E.
Proof.
  intros Hst Hm Hw Hv Hp He HQ HE. pose proof Hm as (Hc & Ha & Hs & Hma & Hms & Hne).
  pose proof Hv as Hv'. apply (validate_block_meta_iff wf) in Hv' as (H1 & H2 & H3); [|done].
  rewrite decide_True in H3 by done. pose proof (mend_bounds wf). pose proof (wf_bs c wf).
  destruct Hw as (_ & _ & Hf). pose proof (nact_bounds wf).
  unfold its_flash_fs_mblock_migrate_lb0_data_to_scratch.
  apply wp_bind. eapply get_ctx_spec; [exact Hst|].
  apply wp_bind. eapply read_block_metadata_spec; eauto; [unfold ITS_LOGICAL_DBLOCK0; lia| |].
  2:{ eapply on_fail_mono; [exact HE|]. intros V HV b i _. apply HV. }
  intros s1 Hst1. rewrite Hc, Ha, Hs. change ITS_LOGICAL_DBLOCK0 with 0. rewrite H3.
  rewrite !(u32_small (_ - _)) by (rewrite ?u32_small; lia).
  replace (block_size c - mend c - free_size (bm_at (U a) 0))
    with (block_size c - free_size (bm_at (U a) 0) - mend c) by lia.
  pose proof (metablock_lt wf a Hma). pose proof (metablock_lt wf sb Hms).
  eapply block_to_block_move_spec; eauto; try (unfold in_block; lia).
  - intros i Hi. apply He. lia.
  - eapply on_fail_mono; [exact HE|]. intros V HV. eapply only_in_mono; [exact HV|lia|lia].
Qed.

(** The block table of the scratch block after an update of entry [l]. *)
Definition updated_bm (U : view) (a sb l : Z) (m : its_block_meta_t) (l' : Z) :
    its_block_meta_t :=
  if l' =? l then (if l =? 0 then set_phy_id sb m else m)
  else if l' =? 0 then set_phy_id sb (bm_at (U a) 0)
  else bm_at (U a) l'.

(** Copying a range of entries of the block table. *)
Lemma copy_bm_spec x a sb U s i j Q E :
  st_is x U s -> mounted x a sb -> 0 <= i <= j -> j <= nact c ->
  erased c U sb (boff i) (boff j - boff i) ->
  (forall s' U', st_is x U' s' -> only_in sb (boff i) (boff j) U U' ->
     (forall k, i <= k < j -> bm_at (U' sb) k = bm_at (U a) k) -> Q tt s') ->
  on_fail x (only_in sb (boff i) (boff j) U) E ->
  wp (its_flash_fs_block_to_block_move ops sb (boff i) a (boff i) (boff j - boff i)) s Q E.
Proof.
  intros Hst (Hc & Ha & Hs & Hma & Hms & Hne) Hi Hj He HQ HE.
  pose proof (mend_bounds wf). pose proof (wf_meta c wf). pose proof (wf_nf c wf).
  assert (Hr : 0 <= boff i /\ boff i <= boff j <= mend c) by (unfold boff, mend, foff in *; lia).
  pose proof (metablock_lt wf a Hma). pose proof (metablock_lt wf sb Hms).
  eapply block_to_block_move_spec; eauto; try (unfold in_block; lia).
  - intros s' Hst'. eapply HQ; [exact Hst'| |].
    + eapply only_in_mono; [apply only_in_copy|lia|lia].
    + intros k Hk. apply bm_at_ext. intros o Ho. unfold blk_copy.
      blk_case; [f_equal; lia|]. unfold boff in *. lia.
  - eapply on_fail_mono; [exact HE|]. intros V HV. eapply only_in_mono; [exact HV|lia|lia].
Qed.

Lemma bm_at_only_in U U' b lo hi b' l :
  only_in b lo hi U U' -> (b' <> b \/ boff l + 12 <= lo \/ hi <= boff l) ->
  bm_at (U' b') l = bm_at (U b') l.
Proof. intros H Hd. apply bm_at_ext. intros i Hi. apply H. lia. Qed.

Lemma fm_at_only_in U U' b lo hi b' j :
  only_in b lo hi U U' -> (b' <> b \/ foff c j + 32 <= lo \/ hi <= foff c j) ->
  fm_at c (U' b') j = fm_at c (U b') j.
Proof. intros H Hd. apply fm_at_ext. intros i Hi. apply H. lia. Qed.

(** The part of the copy that precedes entry [l]: block 0 gets the physical
    ID of the scratch block, the entries in between are copied. *)
Lemma copy_before_spec x a sb U s l Q E :
  st_is x U s -> mounted x a sb -> 0 <= l < nact c ->
  bm_words (bm_at (U a) 0) ->
  its_mblock_validate_block_meta c (bm_at (U a) 0) = PSA_SUCCESS ->
  (l <> 0 -> erased c U sb 8 (boff l - 8)) ->
  (forall s' U', st_is x U' s' -> only_in sb 8 (boff l) U U' ->
     (forall l', 0 <= l' < l -> bm_at (U' sb) l' = updated_bm U a sb l (bm_at (U' sb) l) l') ->
     Q tt s') ->
  on_fail x (only_in sb 8 (boff l) U) E ->
  wp (if negb (l =? ITS_LOGICAL_DBLOCK0) then
        let! block_meta := its_flash_fs_mblock_read_block_metadata ops ITS_LOGICAL_DBLOCK0
          or_return PSA_ERROR_GENERIC_ERROR in
        let block_meta := set_phy_id sb block_meta in
        do! its_mblock_update_scratch_block_meta ops ITS_LOGICAL_DBLOCK0 block_meta
          or_return PSA_ERROR_GENERIC_ERROR in
        if l >? 1 then
          let pos := its_mblock_block_meta_offset (ITS_LOGICAL_DBLOCK0 + 1) in
          let size := u32 (its_mblock_block_meta_offset l - pos) in
          its_flash_fs_block_to_block_move ops sb pos a pos size
        else ret tt
      else ret tt) s Q E.
Proof.
  intros Hst Hm Hl Hw Hv He HQ HE. pose proof Hm as (Hc & Ha & Hs & Hma & Hms & Hne).
  pose proof (mend_bounds wf). pose proof (wf_meta c wf). pose proof (wf_nf c wf).
  pose proof (metablock_lt wf sb Hms). pose proof (wf_nb c wf). pose proof (wf_bs c wf).
  change ITS_LOGICAL_DBLOCK0 with 0.
  destruct (Z.eqb_spec l 0) as [->|Hl0]; simpl.
  { apply wp_ret. apply (HQ s U Hst); [apply only_in_refl|]. intros; lia. }
  specialize (He Hl0). unfold mend, foff in *.
  apply wp_bind, wp_on_err. eapply read_block_metadata_spec; eauto; [lia| |].
  2:{ eapply on_fail_mono; [apply on_fail_const; [done|exact HE]|].
      intros V HV b i _. apply HV. }
  intros s1 Hst1. apply wp_bind, wp_on_err.
  eapply update_block_meta_spec; eauto; [lia|apply bm_words_phy; [lia|done]| | |].
  { intros i Hi. apply He. unfold boff in *. lia. }
  2:{ eapply on_fail_mono; [apply on_fail_const; [done|exact HE]|].
      intros V HV. eapply only_in_mono; [exact HV|unfold boff; lia|unfold boff; lia]. }
  intros s2 U2 Hst2 Ho2 Hb2. destruct (l >? 1) eqn:E1.
  - rewrite !(block_meta_offset_eq wf) by lia. rewrite u32_small by (unfold boff; lia).
    change (0 + 1) with 1. eapply copy_bm_spec; [exact Hst2|exact Hm|lia|lia| | |].
    + eapply erased_only_in; [exact Ho2|unfold boff; lia|].
      intros i Hi. apply He. unfold boff in *. lia.
    + intros s3 U3 Hst3 Ho3 Hb3. apply (HQ s3 U3 Hst3).
      * eapply only_in_trans; eapply only_in_mono; eauto; unfold boff; lia.
      * intros l' Hl'. unfold updated_bm. replace (l' =? l) with false by lia.
        destruct (Z.eqb_spec l' 0) as [->|Hl'0].
        -- rewrite (bm_at_only_in _ _ _ _ _ sb 0 Ho3) by (unfold boff; lia). done.
        -- rewrite Hb3 by lia. apply (bm_at_only_in _ _ _ _ _ a l' Ho2). lia.
    + eapply on_fail_mono; [exact HE|]. intros V HV.
      eapply only_in_trans; eapply only_in_mono; eauto; unfold boff; lia.
  - assert (l = 1) as -> by lia. apply wp_ret. apply (HQ s2 U2 Hst2).
    + eapply only_in_mono; eauto; unfold boff; lia.
    + intros l' Hl'. assert (l' = 0) as -> by lia. unfold updated_bm. simpl. done.
Qed.

Lemma update_scratch_block_meta_spec x a sb U s l m Q E :
  st_is x U s -> mounted x a sb -> 0 <= l < nact c -> bm_words m ->
  bm_words (bm_at (U a) 0) ->
  its_mblock_validate_block_meta c (bm_at (U a) 0) = PSA_SUCCESS ->
  erased c U sb 8 (foff c 0 - 8) ->
  (forall s' U', st_is x U' s' -> only_in sb 8 (foff c 0) U U' ->
     (forall l', 0 <= l' < nact c -> bm_at (U' sb) l' = updated_bm U a sb l m l') -> Q tt s') ->
  on_fail x (only_in sb 8 (foff c 0) U) E ->
  wp (its_flash_fs_mblock_update_scratch_block_meta ops l m) s Q E.
Proof.
  intros Hst Hm Hl Hw Hw0 Hv He HQ HE. pose proof Hm as (Hc & Ha & Hs & Hma & Hms & Hne).
  pose proof (mend_bounds wf). pose proof (wf_meta c wf). pose proof (wf_nf c wf).
  pose proof (metablock_lt wf sb Hms). pose proof (wf_nb c wf). pose proof (nact_bounds wf).
  assert (Hf0 : foff c 0 = boff (nact c)) by (unfold foff, boff; lia).
  assert (Hb : forall k, 0 <= k <= nact c -> 8 <= boff k <= foff c 0) by (intros; unfold foff, boff; lia).
  pose proof (Hb l ltac:(lia)). pose proof (Hb (l + 1) ltac:(lia)).
  assert (Hl1 : boff (l + 1) = boff l + 12) by (unfold boff; lia).
  unfold its_flash_fs_mblock_update_scratch_block_meta.
  apply wp_bind. eapply get_ctx_spec; [exact Hst|]. rewrite Hs.
  change ITS_LOGICAL_DBLOCK0 with 0.
  set (m' := if l =? 0 then set_phy_id sb m else m).
  assert (Hw' : bm_words m') by (unfold m'; case_match; [apply bm_words_phy; [lia|]|]; done).
  apply wp_bind, wp_on_err. eapply update_block_meta_spec; eauto.
  { intros i Hi. apply He. lia. }
  2:{ eapply on_fail_mono; [apply on_fail_const; [done|exact HE]|].
      intros V HV. eapply only_in_mono; [exact HV|lia|lia]. }
  intros s1 U1 Hst1 Ho1 Hb1. unfold its_mblock_copy_remaining_block_meta.
  assert (Hb0 : bm_at (U1 a) 0 = bm_at (U a) 0) by (eapply bm_at_only_in; [exact Ho1|lia]).
  apply wp_bind. eapply get_ctx_spec; [exact Hst1|]. rewrite Hs, Ha, Hc.
  apply wp_bind. eapply copy_before_spec; eauto.
  { by rewrite Hb0. } { by rewrite Hb0. }
  { intros _. eapply erased_only_in; [exact Ho1|lia|]. intros i Hi. apply He. lia. }
  2:{ eapply on_fail_mono; [exact HE|]. intros V HV.
      eapply only_in_trans; eapply only_in_mono; eauto; lia. }
  intros s2 U2 Hst2 Ho2 Hb2.
  rewrite (u32_small (l + 1)) by lia.
  rewrite (block_meta_offset_eq wf), (file_meta_offset_eq wf) by lia.
  rewrite u32_small by (unfold foff, boff, mend in *; lia). rewrite Hf0.
  eapply copy_bm_spec; [exact Hst2|exact Hm|lia|lia| | |].
  { eapply erased_only_in; [exact Ho2|lia|]. eapply erased_only_in; [exact Ho1|lia|].
    intros i Hi. apply He. lia. }
  2:{ eapply on_fail_mono; [exact HE|]. intros V HV.
      eapply only_in_trans; [|eapply only_in_trans]; eapply only_in_mono; eauto; lia. }
  intros s3 U3 Hst3 Ho3 Hb3. apply (HQ s3 U3 Hst3).
  { eapply only_in_trans; [|eapply only_in_trans]; eapply only_in_mono; eauto; lia. }
  intros l' Hl'. destruct (Z.lt_trichotomy l' l) as [Hlt|[->|Hgt]].
  - rewrite (bm_at_only_in _ _ _ _ _ sb l' Ho3) by (unfold boff in *; lia).
    rewrite Hb2 by lia. unfold updated_bm. rewrite Hb0.
    replace (l' =? l) with false by lia. case_match; [done|].
    apply (bm_at_only_in _ _ _ _ _ a l' Ho1). lia.
  - rewrite (bm_at_only_in _ _ _ _ _ sb l Ho3) by lia.
    rewrite (bm_at_only_in _ _ _ _ _ sb l Ho2) by lia. rewrite Hb1.
    unfold updated_bm. rewrite Z.eqb_refl. done.
  - rewrite Hb3 by lia. unfold updated_bm. replace (l' =? l) with false by lia.
    replace (l' =? 0) with false by lia.
    rewrite (bm_at_only_in _ _ _ _ _ a l' Ho2) by lia.
    apply (bm_at_only_in _ _ _ _ _ a l' Ho1). lia.
Qed.
End MetaSpec.
