(* ===== verification/ItsLookupSpec.v ===== *)
(** * Internal Trusted Storage: the searches of the file and block tables *)

From Stdlib Require Import ZArith List Lia Bool.
From stdpp Require Import base tactics list.
From S2P Require Import Prelude ItsUtils ItsFlash ItsMblock ItsFs ItsImage ItsDevSpec.
From S2P Require Import ItsMblockSpec.
Import ListNotations.
Local Open Scope Z_scope.

(** ** The searches as pure functions *)

(** First index of [lo, lo + n) that satisfies [p]. *)
Fixpoint first_idx (p : Z -> bool) (n : nat) (lo : Z) : option Z :=
  match n with
  | O => None
  | S n' => if p lo then Some lo else first_idx p n' (lo + 1)
  end.

(** First free index, or the second one when the first must be kept spare. *)
Fixpoint free_idx (free : Z -> bool) (n : nat) (lo : Z) (use_spare : bool) : option Z :=
  match n with
  | O => None
  | S n' => if free lo then
              if use_spare then Some lo else free_idx free n' (lo + 1) true
            else free_idx free n' (lo + 1) use_spare
  end.

Lemma first_idx_some p n lo j : first_idx p n lo = Some j ->
  lo <= j < lo + Z.of_nat n /\ p j = true /\ forall k, lo <= k < j -> p k = false.
Proof.
  revert lo. induction n as [|n IH]; intros lo H; simpl in H; [done|].
  destruct (p lo) eqn:E.
  - injection H as <-. split; [lia|]. split; [done|]. intros; lia.
  - apply IH in H as (H1 & H2 & H3). split; [lia|]. split; [done|].
    intros k Hk. destruct (Z.eq_dec k lo) as [->|]; [done|]. apply H3. lia.
Qed.

Lemma first_idx_none p n lo : first_idx p n lo = None ->
  forall k, lo <= k < lo + Z.of_nat n -> p k = false.
Proof.
  revert lo. induction n as [|n IH]; intros lo H k Hk; simpl in H; [lia|].
  destruct (p lo) eqn:E; [done|].
  destruct (Z.eq_dec k lo) as [->|]; [done|]. apply (IH (lo + 1)); [done|lia].
Qed.

Lemma first_idx_intro p n lo j : lo <= j < lo + Z.of_nat n -> p j = true ->
  (forall k, lo <= k < j -> p k = false) -> first_idx p n lo = Some j.
Proof.
  revert lo. induction n as [|n IH]; intros lo Hj Hp Hk; simpl; [lia|].
  destruct (Z.eq_dec lo j) as [->|Hne]; [by rewrite Hp|].
  rewrite Hk by lia. apply IH; [lia|done|]. intros k Hk'. apply Hk. lia.
Qed.

Lemma first_idx_none_intro p n lo :
  (forall k, lo <= k < lo + Z.of_nat n -> p k = false) -> first_idx p n lo = None.
Proof.
  intros H. destruct (first_idx p n lo) as [j|] eqn:E; [|done].
  apply first_idx_some in E as (H1 & H2 & _). rewrite H in H2 by lia. done.
Qed.

Lemma first_idx_ext_in p q n lo : (forall k, lo <= k < lo + Z.of_nat n -> p k = q k) ->
  first_idx p n lo = first_idx q n lo.
Proof.
  revert lo. induction n as [|n IH]; intros lo H; simpl; [done|].
  rewrite (H lo), (IH (lo + 1)); [done| |lia]. intros k Hk. apply H. lia.
Qed.

Lemma first_idx_ext p q n lo : (forall k, p k = q k) -> first_idx p n lo = first_idx q n lo.
Proof. intros H. apply first_idx_ext_in. auto. Qed.

Lemma free_idx_ext p q n lo b : (forall k, p k = q k) -> free_idx p n lo b = free_idx q n lo b.
Proof.
  intros H. revert lo b. induction n as [|n IH]; intros lo b; simpl; [done|]. by rewrite H, !IH.
Qed.

Lemma free_idx_some free n lo b j : free_idx free n lo b = Some j ->
  lo <= j < lo + Z.of_nat n /\ free j = true /\
  (b = false -> exists k, lo <= k < j /\ free k = true).
Proof.
  revert lo b. induction n as [|n IH]; intros lo b H; simpl in H; [done|].
  destruct (free lo) eqn:E; [destruct b|].
  - injection H as <-. split; [lia|]. by split.
  - apply IH in H as (H1 & H2 & _). split; [lia|]. split; [done|].
    intros _. exists lo. split; [lia|done].
  - apply IH in H as (H1 & H2 & H3). split; [lia|]. split; [done|].
    intros Hb. destruct (H3 Hb) as (k & Hk & Hf). exists k. split; [lia|done].
Qed.

Lemma free_idx_none free n lo b : free_idx free n lo b = None ->
  (b = true -> forall k, lo <= k < lo + Z.of_nat n -> free k = false) /\
  (b = false -> forall k k', lo <= k < lo + Z.of_nat n -> lo <= k' < lo + Z.of_nat n ->
     free k = true -> free k' = true -> k = k').
Proof.
  revert lo b. induction n as [|n IH]; intros lo b H; simpl in H; [split; intros; lia|].
  destruct (free lo) eqn:E; [destruct b; [done|]|].
  - apply IH in H as [H _]. specialize (H eq_refl). split; [done|]. intros _ k k' Hk Hk' Hf Hf'.
    destruct (Z.eq_dec k lo) as [->|Hn]; destruct (Z.eq_dec k' lo) as [->|Hn']; try done.
    + rewrite H in Hf' by lia. done.
    + rewrite H in Hf by lia. done.
    + rewrite H in Hf by lia. done.
  - apply IH in H as [H1 H2]. split.
    + intros Hb k Hk. destruct (Z.eq_dec k lo) as [->|Hn]; [done|]. apply H1; [done|lia].
    + intros Hb k k' Hk Hk' Hf Hf'. apply H2; try done.
      * destruct (Z.eq_dec k lo) as [->|]; [congruence|lia].
      * destruct (Z.eq_dec k' lo) as [->|]; [congruence|lia].
Qed.

Section LookupSpec.
Context {D : Type} (ops : its_flash_fs_ops_t D) (c : its_flash_fs_config_t).
Context (Vw : D -> view) (mf : Prop) {FS : FlashSpec c ops Vw mf} (wf : wf_cfg c).
Local Abbreviation st := (its_flash_fs_ctx_t * D)%type.
Local Abbreviation st_is := (st_is Vw).
Local Abbreviation on_fail := (on_fail Vw mf).
Local Abbreviation mounted := (mounted c).

(** Every entry of the file table (block table) of [m] passes validation. *)
Definition fm_valid (m : mem) : Prop := forall j, 0 <= j < max_num_files c ->
  fm_words (fm_at c m j) /\ its_mblock_validate_file_meta c (fm_at c m j) = PSA_SUCCESS.
Definition bm_valid (m : mem) : Prop := forall l, 0 <= l < nact c ->
  bm_words (bm_at m l) /\ its_mblock_validate_block_meta c (bm_at m l) = PSA_SUCCESS.

Definition nfiles : nat := Z.to_nat (max_num_files c).

Lemma mblock_find_spec x a sb U s found Q (E : psa_status_t -> st -> Prop) :
  st_is x U s -> mounted x a sb -> fm_valid (U a) ->
  (forall s', st_is x U s' ->
     match first_idx (fun j => found (fm_at c (U a) j)) nfiles 0 with
     | Some j => Q j s'
     | None => E PSA_ERROR_DOES_NOT_EXIST s'
     end) ->
  (forall s', mf -> st_is x U s' -> E PSA_ERROR_GENERIC_ERROR s') ->
  wp (its_flash_fs_mblock_find ops found) s Q E.
Proof.
  intros Hst Hm Hv HQ HE. pose proof Hm as (Hc & _). pose proof (wf_nf c wf).
  unfold its_flash_fs_mblock_find.
  apply wp_bind. eapply get_ctx_spec; [exact Hst|]. rewrite Hc. fold nfiles.
  apply wp_bind.
  apply wp_mfor with (I := fun k _ s' => st_is x U s' /\
    forall i, 0 <= i < k -> found (fm_at c (U a) i) = false).
  - split; [done|]. intros; lia.
  - intros k [] s1 Hk [Hst1 Hall]. unfold nfiles in Hk.
    apply wp_bind, wp_on_err. eapply read_file_meta_spec; eauto; [lia|by apply Hv; lia| |].
    2:{ intros e s' U' Hmf _ Hs' HU'. apply HE; [done|]. eapply st_is_ext; [exact Hs'|].
        intros b i. symmetry. apply HU'. }
    intros s2 Hst2. destruct (found (fm_at c (U a) k)) eqn:Ef; apply wp_ret.
    + apply wp_ret. specialize (HQ s2 Hst2).
      rewrite (first_idx_intro _ nfiles 0 k) in HQ; [done|unfold nfiles; lia|done|done].
    + split; [done|]. intros i Hi. destruct (Z.eq_dec i k) as [->|]; [done|]. apply Hall. lia.
  - intros [] s1 [Hst1 Hall]. apply wp_fail. specialize (HQ s1 Hst1).
    rewrite first_idx_none_intro in HQ; [done|]. intros k Hk. apply Hall. lia.
Qed.

Definition is_free (m : its_file_meta_t) : bool :=
  negb (its_utils_validate_fid (id m) =? PSA_SUCCESS).

Lemma is_free_iff m : is_free m = true <-> ~ in_use m.
Proof. unfold is_free, in_use. rewrite negb_true_iff, Z.eqb_neq. done. Qed.

Lemma is_free_false m : is_free m = false <-> in_use m.
Proof. unfold is_free, in_use. rewrite negb_false_iff, Z.eqb_eq. done. Qed.

Lemma get_free_file_index_spec x a sb U s b Q E :
  st_is x U s -> mounted x a sb -> fm_valid (U a) ->
  (forall s', st_is x U s' ->
     Q (default ITS_METADATA_INVALID_INDEX
          (free_idx (fun j => is_free (fm_at c (U a) j)) nfiles 0 b)) s') ->
  (forall s', mf -> st_is x U s' -> Q ITS_METADATA_INVALID_INDEX s') ->
  wp (its_get_free_file_index ops b) s Q E.
Proof.
  intros Hst Hm Hv HQ HE. pose proof Hm as (Hc & _). pose proof (wf_nf c wf).
  unfold its_get_free_file_index.
  apply wp_bind. eapply get_ctx_spec; [exact Hst|]. rewrite Hc. fold nfiles.
  apply wp_bind. set (fr := fun j => is_free (fm_at c (U a) j)) in *.
  apply wp_mfor with (I := fun k b' s' => st_is x U s' /\
    free_idx fr (Z.to_nat (Z.of_nat nfiles - k)) k b' = free_idx fr nfiles 0 b).
  - split; [done|]. by replace (Z.to_nat (Z.of_nat nfiles - 0)) with nfiles by lia.
  - intros k b1 s1 Hk [Hst1 Hall].
    assert (Hn : Z.to_nat (Z.of_nat nfiles - k) = S (Z.to_nat (Z.of_nat nfiles - (k + 1)))) by lia.
    rewrite Hn in Hall. cbn [free_idx] in Hall. unfold nfiles in Hk.
    apply wp_bind, wp_attempt. eapply read_file_meta_spec; eauto; [lia|by apply Hv; lia| |].
    2:{ intros e s' U' Hmf _ Hs' HU'. apply wp_ret, wp_ret. apply HE; [done|].
        eapply st_is_ext; [exact Hs'|]. intros b' i. symmetry. apply HU'. }
    intros s2 Hst2. fold (is_free (fm_at c (U a) k)). change (is_free (fm_at c (U a) k)) with (fr k).
    destruct (fr k); [destruct b1; simpl|]; apply wp_ret.
    + apply wp_ret. specialize (HQ s2 Hst2). rewrite <- Hall in HQ. done.
    + done.
    + done.
  - intros b1 s1 [Hst1 Hall]. apply wp_ret. specialize (HQ s1 Hst1).
    rewrite <- Hall, Z.add_0_l, Z.sub_diag in HQ. done.
Qed.

(** ** Reservation *)
Definition reserved (fid : list Z) (size fl l : Z) (bm : its_block_meta_t) :
    its_file_meta_t * its_block_meta_t :=
  ({| lblock := l; data_idx := u32 (block_size c - free_size bm);
      cur_size := 0; max_size := size; flags := fl; id := fid |},
   set_free_size (u32 (free_size bm - size)) bm).

Definition fitting_block (m : mem) (size : Z) : option Z :=
  first_idx (fun l => free_size (bm_at m l) >=? size) (Z.to_nat (nact c)) 0.

Lemma mblock_reserve_spec x a sb U s fid size fl Q (E : psa_status_t -> st -> Prop) :
  st_is x U s -> mounted x a sb -> bm_valid (U a) ->
  (forall s', st_is x U s' ->
     match fitting_block (U a) size with
     | Some l => Q (reserved fid size fl l (bm_at (U a) l)) s'
     | None => E PSA_ERROR_INSUFFICIENT_STORAGE s'
     end) ->
  (forall s', mf -> st_is x U s' -> E PSA_ERROR_GENERIC_ERROR s') ->
  wp (its_mblock_reserve_file ops fid size fl) s Q E.
Proof.
  intros Hst Hm Hv HQ HE. pose proof Hm as (Hc & _). pose proof (nact_bounds wf).
  unfold its_mblock_reserve_file.
  apply wp_bind. eapply get_ctx_spec; [exact Hst|]. rewrite Hc, (num_active_eq wf).
  apply wp_bind.
  apply wp_mfor with (I := fun k _ s' => st_is x U s' /\
    forall i, 0 <= i < k -> (free_size (bm_at (U a) i) >=? size) = false).
  - split; [done|]. intros; lia.
  - intros k [] s1 Hk [Hst1 Hall].
    apply wp_bind, wp_on_err. eapply read_block_metadata_spec; eauto; [lia|by apply Hv; lia| |].
    2:{ intros e s' U' Hmf _ Hs' HU'. apply HE; [done|]. eapply st_is_ext; [exact Hs'|].
        intros b i. symmetry. apply HU'. }
    intros s2 Hst2. destruct (free_size (bm_at (U a) k) >=? size) eqn:Ef; apply wp_ret.
    + apply wp_ret. specialize (HQ s2 Hst2). unfold fitting_block in HQ.
      rewrite (first_idx_intro _ _ 0 k) in HQ; [|lia|done|done]. exact HQ.
    + split; [done|]. intros i Hi. destruct (Z.eq_dec i k) as [->|]; [done|]. apply Hall. lia.
  - intros [] s1 [Hst1 Hall]. apply wp_fail. specialize (HQ s1 Hst1). unfold fitting_block in HQ.
    rewrite first_idx_none_intro in HQ; [done|]. intros k Hk. apply Hall. lia.
Qed.

Lemma reserve_file_spec x a sb U s fid b size fl Q (E : psa_status_t -> st -> Prop) :
  st_is x U s -> mounted x a sb -> bm_valid (U a) -> fm_valid (U a) ->
  (forall s', st_is x U s' ->
     match fitting_block (U a) size,
           free_idx (fun j => is_free (fm_at c (U a) j)) nfiles 0 b with
     | Some l, Some j => Q (j, fst (reserved fid size fl l (bm_at (U a) l)),
                               snd (reserved fid size fl l (bm_at (U a) l))) s'
     | _, _ => E PSA_ERROR_INSUFFICIENT_STORAGE s'
     end) ->
  (forall s', mf -> st_is x U s' -> E PSA_ERROR_INSUFFICIENT_STORAGE s') ->
  max_num_files c < ITS_METADATA_INVALID_INDEX ->
  wp (its_flash_fs_mblock_reserve_file ops fid b size fl) s Q E.
Proof.
  intros Hst Hm Hbv Hfv HQ HE Hmax. unfold its_flash_fs_mblock_reserve_file.
  pose proof (wf_nf c wf).
  assert (Hfail : forall s1, mf -> st_is x U s1 -> wp
    (let! idx := its_get_free_file_index ops b in fail PSA_ERROR_INSUFFICIENT_STORAGE) s1 Q E).
  { intros s1 Hmf Hst1. apply wp_bind. eapply get_free_file_index_spec; eauto;
      intros; apply wp_fail; auto. }
  apply wp_bind, wp_attempt. eapply mblock_reserve_spec; eauto.
  intros s1 Hst1. destruct (fitting_block (U a) size) as [l|].
  - apply wp_bind. eapply get_free_file_index_spec; [exact Hst1|exact Hm|exact Hfv| |].
    + intros s2 Hst2. specialize (HQ s2 Hst2).
      destruct (free_idx _ nfiles 0 b) as [j|] eqn:Ej; simpl.
      * apply free_idx_some in Ej as (Hj & _). unfold nfiles in Hj.
        replace (j =? ITS_METADATA_INVALID_INDEX) with false by lia. apply wp_ret. exact HQ.
      * apply wp_fail. exact HQ.
    + intros s2 Hmf Hst2. simpl. apply wp_fail. auto.
  - apply wp_bind. eapply get_free_file_index_spec; eauto; intros s2; intros; apply wp_fail; auto.
Qed.
End LookupSpec.
