(* ===== verification/ItsCommit.v ===== *)
(** * Internal Trusted Storage: committing an update

    How the metadata header decides which of the two metadata blocks is the
    filesystem, and why writing it last makes an update atomic. *)

From Stdlib Require Import ZArith List Lia Bool.
From stdpp Require Import base tactics list sets.
From S2P Require Import Prelude ItsUtils ItsFlash ItsMblock ItsFs ItsImage ItsDevSpec.
From S2P Require Import ItsMblockSpec.
Import ListNotations.
Local Open Scope Z_scope.

(** The swap count that follows [k]: the erased value is skipped. *)
Definition next_count (c : its_flash_fs_config_t) (k : Z) : Z :=
  if u8 (k + 1) =? erase_val c then u8 (u8 (k + 1) + 1) else u8 (k + 1).

Definition hdr_ok (c : its_flash_fs_config_t) (h : its_metadata_block_header_t) : bool :=
  its_mblock_validate_header_meta c h =? PSA_SUCCESS.

(** The metadata block that mounting selects. *)
Definition select (c : its_flash_fs_config_t) (V : view) : option Z :=
  match hdr_ok c (hdr_at (V 0)), hdr_ok c (hdr_at (V 1)) with
  | true, true => Some (its_mblock_latest_meta_block c (hdr_at (V 0)) (hdr_at (V 1)))
  | true, false => Some 0
  | false, true => Some 1
  | false, false => None
  end.

Lemma hdr_ok_iff c h : hdr_ok c h = true <->
  fs_version h = 1 /\ active_swap_count h <> erase_val c.
Proof.
  unfold hdr_ok, its_mblock_validate_header_meta, its_mblock_validate_fs_version,
    its_mblock_validate_swap_count, ITS_SUPPORTED_VERSION.
  destruct (Z.eqb_spec (fs_version h) 1); simpl; [|split; [done|lia]].
  destruct (Z.eqb_spec (active_swap_count h) (erase_val c)); simpl; split; try done; lia.
Qed.

Lemma hdr_ok_validate c h : hdr_ok c h = true <-> its_mblock_validate_header_meta c h = PSA_SUCCESS.
Proof. unfold hdr_ok. apply Z.eqb_eq. Qed.

(** The header fields, byte by byte. *)
Lemma hdr_at_fields m :
  scratch_dblock (hdr_at m) = le_val [m 0; m 1; m 2; m 3] /\
  fs_version (hdr_at m) = m 4 /\ active_swap_count (hdr_at m) = m 5.
Proof.
  split; [reflexivity|]. unfold hdr_at, bytes_header, bytes_field, mread.
  cbn [Z.to_nat ITS_BLOCK_META_HEADER_SIZE Pos.to_nat Pos.iter_op Nat.add seq map skipn firstn le_val
    fs_version active_swap_count].
  split; apply Z.add_0_r.
Qed.

Lemma header_bytes_fields h : hdr_fields h ->
  le_val [byte_at (header_bytes h) 0; byte_at (header_bytes h) 1;
          byte_at (header_bytes h) 2; byte_at (header_bytes h) 3] = scratch_dblock h /\
  byte_at (header_bytes h) 4 = fs_version h /\ byte_at (header_bytes h) 5 = active_swap_count h.
Proof.
  intros (H1 & H2 & H3). split; [|split].
  - rewrite <- (le_val_bytes_u32 (scratch_dblock h)) by lia. reflexivity.
  - transitivity (fs_version h mod 256); [reflexivity|]. apply Z.mod_small. lia.
  - transitivity (active_swap_count h mod 256); [reflexivity|]. apply Z.mod_small. lia.
Qed.

(** Same header up to the padding bytes of the struct. *)
Definition hdr_eqv (h h' : its_metadata_block_header_t) : Prop :=
  scratch_dblock h = scratch_dblock h' /\ fs_version h = fs_version h' /\
  active_swap_count h = active_swap_count h'.

#[global] Instance hdr_eqv_equiv : Equivalence hdr_eqv.
Proof.
  split.
  - by intros h.
  - intros h h' (H1 & H2 & H3). by repeat split.
  - intros h h' h'' (H1 & H2 & H3) (H4 & H5 & H6). repeat split; congruence.
Qed.

Lemma hdr_at_prefix m m0 h k : hdr_fields h ->
  (forall i, 0 <= i < 8 -> m i = if i <? k then byte_at (header_bytes h) i else m0 i) -> 6 <= k ->
  hdr_eqv (hdr_at m) h.
Proof.
  intros Hf Hm Hk. destruct (hdr_at_fields m) as (E1 & E2 & E3).
  destruct (header_bytes_fields h Hf) as (F1 & F2 & F3).
  assert (H : forall i, 0 <= i < 6 -> m i = byte_at (header_bytes h) i).
  { intros i Hi. rewrite Hm by lia. by replace (i <? k) with true by lia. }
  repeat split; rewrite ?E1, ?E2, ?E3, ?H by lia; done.
Qed.

Section Commit.
Context (c : its_flash_fs_config_t) (wf : wf_cfg c).

Lemma next_count_range k : 0 <= next_count c k < 2 ^ 8.
Proof. unfold next_count. case_match; apply u8_range. Qed.

Lemma next_count_valid k : next_count c k <> erase_val c.
Proof.
  pose proof (wf_ev c wf). unfold next_count, u8.
  destruct (Z.eqb_spec ((k + 1) mod 2 ^ 8) (erase_val c)) as [E|E]; [|done].
  rewrite E. change (2 ^ 8) with 256 in *.
  destruct (Z.eq_dec (erase_val c) 255) as [->|H255]; [done|].
  rewrite Z.mod_small; lia.
Qed.

(** Whichever block holds it, the next swap count is the most recent. *)
Lemma latest_is_next h0 h1 :
  0 <= active_swap_count h0 < 2 ^ 8 -> 0 <= active_swap_count h1 < 2 ^ 8 ->
  hdr_ok c h0 = true -> hdr_ok c h1 = true ->
  (active_swap_count h1 = next_count c (active_swap_count h0) ->
     its_mblock_latest_meta_block c h0 h1 = 1) /\
  (active_swap_count h0 = next_count c (active_swap_count h1) ->
     its_mblock_latest_meta_block c h0 h1 = 0).
Proof.
  intros R0 R1 [_ V0]%hdr_ok_iff [_ V1]%hdr_ok_iff.
  pose proof (wf_ev c wf) as Hev. pose proof (wf_ev1 c wf) as Hev1.
  unfold its_mblock_latest_meta_block, next_count, u8, ITS_METADATA_BLOCK0, ITS_METADATA_BLOCK1.
  set (a := active_swap_count h0) in *. set (b := active_swap_count h1) in *.
  assert (Hmod : forall z, 0 <= z < 256 ->
    (z + 1) mod 2 ^ 8 = if z =? 255 then 0 else z + 1).
  { intros z Hz. destruct (Z.eqb_spec z 255) as [->|Hn]; [done|]. apply Z.mod_small. lia. }
  assert (Hmod2 : forall z, 0 <= z < 256 ->
    ((z + 1) mod 2 ^ 8 + 1) mod 2 ^ 8 = if z =? 255 then 1 else if z =? 254 then 0 else z + 2).
  { intros z Hz. rewrite (Hmod z Hz). destruct (Z.eqb_spec z 255) as [->|Hn]; [done|].
    rewrite Hmod by lia. destruct (Z.eqb_spec z 254) as [->|Hn']; [done|].
    destruct (Z.eqb_spec (z + 1) 255); lia. }
  rewrite !Hmod2, !Hmod by lia. clear Hmod Hmod2.
  destruct (Z.eqb_spec (erase_val c) 0) as [E0|E0]; split; intros Hx; blk_case;
    rewrite ?negb_true_iff, ?negb_false_iff, ?Z.eqb_eq, ?Z.eqb_neq in *; lia.
Qed.
Lemma next_hdr_ok h k : fs_version h = 1 -> active_swap_count h = next_count c k ->
  hdr_ok c h = true.
Proof. intros Hv Hk. apply hdr_ok_iff. split; [done|]. rewrite Hk. apply next_count_valid. Qed.

(** ** What mounting selects *)

(** Only block [a] has a valid header. *)
Lemma select_only V a sb : is_metablock a -> is_metablock sb -> a <> sb ->
  hdr_ok c (hdr_at (V a)) = true -> hdr_ok c (hdr_at (V sb)) = false -> select c V = Some a.
Proof.
  intros [-> | ->] [-> | ->] Hne Ha Hs; try done; unfold select; by rewrite Ha, Hs.
Qed.

(** [sb] carries the swap count that follows the one of [a]. *)
Lemma select_next V a sb : is_metablock a -> is_metablock sb -> a <> sb ->
  0 <= active_swap_count (hdr_at (V a)) < 2 ^ 8 ->
  0 <= active_swap_count (hdr_at (V sb)) < 2 ^ 8 -> hdr_ok c (hdr_at (V sb)) = true ->
  (hdr_ok c (hdr_at (V a)) = true ->
   active_swap_count (hdr_at (V sb)) = next_count c (active_swap_count (hdr_at (V a)))) ->
  select c V = Some sb.
Proof.
  intros Ha Hs Hne Fa Fs Ok Hn. unfold select.
  destruct (hdr_ok c (hdr_at (V a))) eqn:Ea.
  - specialize (Hn eq_refl).
    destruct Ha as [-> | ->], Hs as [-> | ->]; try done; rewrite Ea, Ok; f_equal.
    + by apply (proj1 (latest_is_next _ _ Fa Fs Ea Ok)).
    + by apply (proj2 (latest_is_next _ _ Fs Fa Ok Ea)).
  - destruct Ha as [-> | ->], Hs as [-> | ->]; try done; by rewrite Ea, Ok.
Qed.

(** ** A body reads its metadata block past the header, and its data blocks *)
Definition agree (V V' : view) (a : Z) : Prop :=
  (forall i, 8 <= i < block_size c -> V' a i = V a i) /\
  (forall l i, 1 <= l < nact c -> 0 <= i < block_size c ->
     V' (phy_id (bm_at (V a) l)) i = V (phy_id (bm_at (V a) l)) i).

Lemma agree_bm V V' a l : agree V V' a -> 0 <= l < nact c -> bm_at (V' a) l = bm_at (V a) l.
Proof.
  intros [H _] Hl. pose proof (wf_meta c wf). pose proof (wf_nf c wf).
  apply bm_at_ext. intros i Hi. apply H. unfold mend, foff, boff in *. lia.
Qed.

Lemma agree_fm V V' a j : agree V V' a -> 0 <= j < max_num_files c ->
  fm_at c (V' a) j = fm_at c (V a) j.
Proof.
  intros [H _] Hl. pose proof (wf_meta c wf). pose proof (nact_bounds wf).
  apply fm_at_ext. intros i Hi. apply H. unfold mend, foff in *. lia.
Qed.

Lemma body_agree V V' a sd : agree V V' a -> body c V a sd -> body c V' a sd.
Proof.
  intros HA HB. pose proof (nact_bounds wf). split.
  - intros l Hl. rewrite (agree_bm V V') by done. by apply (body_bm c V a sd HB).
  - rewrite (agree_bm V V') by (done || lia). apply (body_phy0 c V a sd HB).
  - intros l Hl. rewrite (agree_bm V V') by (done || lia). by apply (body_phy c V a sd HB).
  - intros l l' Hl Hl'. rewrite !(agree_bm V V') by (done || lia).
    by apply (body_inj c V a sd HB).
  - apply (body_sd c V a sd HB).
  - intros j Hj. rewrite (agree_fm V V') by done. by apply (body_fm c V a sd HB).
  - intros j Hj. rewrite (agree_fm V V') by done. by apply (body_free c V a sd HB).
  - intros l Hl. destruct (body_tiles c V a sd HB l Hl) as (js & Hnd & Hin & Ht).
    exists js. split; [done|]. split.
    + intros j. rewrite Hin. split; intros (Hj & H1 & H2); split; try done.
      * by rewrite (agree_fm V V').
      * by rewrite (agree_fm V V') in H1, H2.
    + rewrite (agree_bm V V') by done. eapply tiles_ext; [|exact Ht].
      intros j Hj. apply agree_fm; [done|]. by apply Hin.
Qed.

(** A file lies inside the block that holds it. *)
Lemma file_bounds V a sd j : body c V a sd -> 0 <= j < max_num_files c ->
  in_use (fm_at c (V a) j) ->
  let m := fm_at c (V a) j in
  0 <= lblock m < nact c /\ 0 <= data_idx m /\ 0 <= cur_size m <= max_size m /\
  data_idx m + max_size m <= block_size c /\ (lblock m = 0 -> mend c <= data_idx m).
Proof.
  intros HB Hj Hu m. destruct (body_fm c V a sd HB j Hj) as [Hw Hv].
  pose proof Hw as (H1 & H2 & H3 & H4 & _).
  apply (validate_file_meta_iff wf) in Hv as [Hl Hv]; [|done].
  specialize (Hv Hu). fold m in Hv, H1, H2, H3, H4, Hl. lia.
Qed.

(** The data of a file lies in the used part of its block. *)
Lemma file_in_used V a sd j : body c V a sd -> 0 <= j < max_num_files c -> in_use (fm_at c (V a) j) ->
  let m := fm_at c (V a) j in
  data_start (bm_at (V a) (lblock m)) <= data_idx m /\
  data_idx m + max_size m <= block_size c - free_size (bm_at (V a) (lblock m)).
Proof.
  intros HB Hj Hu m. destruct (file_bounds V a sd j HB Hj Hu) as (Hl & _).
  destruct (body_tiles c V a sd HB (lblock m) Hl) as (js & Hnd & Hin & Ht).
  eapply (tiles_bounds (fm_at c (V a)) _ js); [exact Ht| |by apply Hin].
  intros k Hk. apply Hin in Hk as [Hk _]. destruct (body_fm c V a sd HB k Hk) as [Hw _].
  unfold fm_words in Hw. lia.
Qed.

Lemma file_at_agree V V' a sd j : agree V V' a -> body c V a sd -> 0 <= j < max_num_files c ->
  file_at c V' a j = file_at c V a j.
Proof.
  intros HA HB Hj. unfold file_at. rewrite (agree_fm V V') by done.
  destruct (decide (in_use (fm_at c (V a) j))) as [Hu|]; [|done]. do 2 f_equal.
  pose proof (file_bounds V a sd j HB Hj Hu) as (Hl & Hd & Hc & Hm & H0).
  rewrite (agree_bm V V') by done. pose proof (mend_bounds wf).
  apply mread_ext. intros i Hi.
  destruct (Z.eq_dec (lblock (fm_at c (V a) j)) 0) as [E|E].
  - destruct (file_in_used V a sd j HB Hj Hu) as [_ G2]. rewrite E in G2 |- *.
    rewrite (body_phy0_used c V a sd i HB) by lia. apply HA. lia.
  - apply HA; lia.
Qed.

(** ** The states a crash can leave *)
Definition crash_ok (T0 T1 : table) (V : view) : Prop :=
  exists a, select c V = Some a /\ (holds c V a T0 \/ holds c V a T1).

Lemma image_ok V a : image c V a -> hdr_ok c (hdr_at (V a)) = true.
Proof. intros H. apply hdr_ok_validate. apply (image_hdr c V a H). Qed.

(** Untouched active block, no valid header in the other one. *)
Lemma crash_ok_old T0 T1 V0 V a sb :
  holds c V0 a T0 -> is_metablock sb -> a <> sb -> (forall i, 0 <= i < block_size c -> V a i = V0 a i) ->
  agree V0 V a -> hdr_ok c (hdr_at (V sb)) = false -> crash_ok T0 T1 V.
Proof.
  intros [HI HT] Hsb Hne Ha HA Hno.
  pose proof (mend_bounds wf). pose proof (wf_meta c wf).
  assert (Hh : hdr_at (V a) = hdr_at (V0 a)) by (apply hdr_at_ext; intros; apply Ha; lia).
  exists a. split.
  - apply (select_only V a sb); auto; [apply (image_meta c V0 a HI)|].
    rewrite Hh. by apply (image_ok V0 a).
  - left. split.
    + split; rewrite ?Hh; [apply (image_meta c V0 a HI)|apply (image_words c V0 a HI)
      |apply (image_hdr c V0 a HI)|]. eapply body_agree; [exact HA|apply (image_body c V0 a HI)].
    + intros j Hj. rewrite (file_at_agree V0 V a _ j HA (image_body c V0 a HI) Hj). auto.
Qed.
End Commit.
