(* ===== verification/ItsFinalize.v ===== *)
(** * Internal Trusted Storage: finalising an update is an atomic commit *)

From Stdlib Require Import ZArith List Lia Bool.
From stdpp Require Import base tactics list sets.
From S2P Require Import Prelude ItsUtils ItsFlash ItsMblock ItsFs ItsImage ItsDevSpec.
From S2P Require Import ItsMblockSpec ItsCommit.
Import ListNotations.
Local Open Scope Z_scope.

Section Finalize.
Context {D : Type} (ops : its_flash_fs_ops_t D) (c : its_flash_fs_config_t).
Context (Vw : D -> view) (mf : Prop) {FS : FlashSpec c ops Vw mf} (wf : wf_cfg c).
Local Abbreviation st := (its_flash_fs_ctx_t * D)%type.
Local Abbreviation st_is := (st_is Vw).
Local Abbreviation on_fail := (on_fail Vw mf).
Local Abbreviation mounted := (mounted c).

(** The scratch data block only exists with more than two blocks. *)
Definition scratch_data (sd b : Z) : Prop := num_blocks c > 2 /\ b = sd.

Definition erase2 (U : view) (sb sd : Z) : view :=
  if num_blocks c >? 2 then blk_erase c (blk_erase c U sb) sd else blk_erase c U sb.

Definition part_erase2 (sb sd : Z) (U U' : view) : Prop :=
  forall b i, U' b i = U b i \/
    ((b = sb \/ scratch_data sd b) /\ 0 <= i < block_size c /\ U' b i = erase_val c).

Lemma erase2_at U sb sd b i :
  erase2 U sb sd b i = U b i \/
  ((b = sb \/ scratch_data sd b) /\ 0 <= i < block_size c /\ erase2 U sb sd b i = erase_val c).
Proof.
  unfold erase2, scratch_data. destruct (num_blocks c >? 2) eqn:E; unfold blk_erase; blk_case;
    try (left; done); right; split; try done; lia.
Qed.

Lemma erase2_erased U sb sd b i :
  b = sb \/ scratch_data sd b -> 0 <= i < block_size c -> erase2 U sb sd b i = erase_val c.
Proof.
  unfold erase2, scratch_data. intros Hb Hi.
  destruct (num_blocks c >? 2) eqn:E; unfold blk_erase; blk_case; try done; lia.
Qed.

Lemma erase_scratch_blocks_spec x a sb U s Q E :
  st_is x U s -> mounted x a sb ->
  (num_blocks c > 2 -> 0 <= scratch_dblock (meta_block_header x) < num_blocks c) ->
  (forall s', st_is x (erase2 U sb (scratch_dblock (meta_block_header x))) s' -> Q tt s') ->
  on_fail x (part_erase2 sb (scratch_dblock (meta_block_header x)) U) E ->
  wp (its_mblock_erase_scratch_blocks ops) s Q E.
Proof.
  intros Hst Hm Hsd HQ HE. pose proof Hm as (Hc & Ha & Hs & Hma & Hms & Hne).
  pose proof (metablock_lt wf sb Hms). unfold its_mblock_erase_scratch_blocks.
  apply wp_bind. use get_ctx_spec; [exact Hst|]. rewrite Hs, Hc.
  apply wp_bind. use dev_erase_spec; [exact Hst|done|done| |].
  2:{ eapply on_fail_mono; [exact HE|]. intros V HV b i.
      destruct (HV b i) as [->|(H1 & H2 & H3)]; [by left|right; auto]. }
  intros s1 Hst1. unfold erase2 in HQ. destruct (num_blocks c >? 2) eqn:E2.
  - apply wp_bind. use cur_data_scratch_id_spec; [exact Hst1|].
    change (ITS_LOGICAL_DBLOCK0 + 1 =? 0) with false. cbv iota.
    use dev_erase_spec; [exact Hst1|done|apply Hsd; lia|exact HQ|].
    eapply on_fail_mono; [exact HE|]. intros V HV b i. unfold scratch_data.
    destruct (HV b i) as [->|(-> & H2 & H3)].
    + unfold blk_erase. blk_case; [right|by left]. split; [lia|]. split; [lia|done].
    + right. split; [right; split; [lia|done]|done].
  - apply wp_ret. apply HQ. exact Hst1.
Qed.

Definition next_header (h : its_metadata_block_header_t) : its_metadata_block_header_t :=
  set_active_swap_count (next_count c (active_swap_count h)) h.

Lemma write_scratch_meta_header_spec x a sb U s Q E :
  st_is x U s -> mounted x a sb -> erased c U sb 0 8 ->
  let h' := next_header (meta_block_header x) in
  let x' := set_meta_block_header h' x in
  (forall s', st_is x' (blk_write U sb 0 (header_bytes h') 8) s' -> Q tt s') ->
  on_fail x' (fun U' => exists k, 0 <= k <= 8 /\ U' = blk_write U sb 0 (header_bytes h') k) E ->
  wp (its_mblock_write_scratch_meta_header ops) s Q E.
Proof.
  intros Hst Hm He h' x' HQ HE. pose proof Hm as (Hc & Ha & Hs & Hma & Hms & Hne).
  pose proof (metablock_lt wf sb Hms). pose proof (mend_bounds wf). pose proof (wf_meta c wf).
  unfold its_mblock_write_scratch_meta_header.
  apply wp_bind. use set_ctx_spec; [exact Hst|]. intros s1 Hst1.
  apply wp_bind. use get_ctx_spec; [exact Hst1|].
  cbn [cfg meta_block_header set_meta_block_header active_swap_count set_active_swap_count].
  rewrite Hc.
  assert (Hgo : forall s2, st_is x' U s2 -> wp
    (let! fs_ctx := get_ctx in
     dev_write ops (scratch_metablock fs_ctx) (header_bytes (meta_block_header fs_ctx)) 0
       ITS_BLOCK_META_HEADER_SIZE) s2 Q E).
  { intros s2 Hst2. apply wp_bind. use get_ctx_spec; [exact Hst2|].
    unfold x' at 1 2. cbn [scratch_metablock set_meta_block_header meta_block_header]. rewrite Hs.
    use dev_write_spec; [exact Hst2|done| |by rewrite length_header_bytes|exact He|exact HQ|exact HE].
    unfold in_block, ITS_BLOCK_META_HEADER_SIZE. lia. }
  apply wp_bind. unfold its_mblock_validate_swap_count.
  set (k := u8 (active_swap_count (meta_block_header x) + 1)) in *.
  assert (Hx : x' = set_meta_block_header (set_active_swap_count
    (if k =? erase_val c then u8 (k + 1) else k) (meta_block_header x)) x) by done.
  destruct (k =? erase_val c); simpl.
  - use set_ctx_spec; [exact Hst1|]. intros s2 Hst2. apply Hgo. rewrite Hx. exact Hst2.
  - apply wp_ret, Hgo. rewrite Hx. exact Hst1.
Qed.

(** The context after a commit. *)
Definition swapped (x : its_flash_fs_ctx_t) : its_flash_fs_ctx_t :=
  set_metablocks (scratch_metablock x) (active_metablock x)
    (set_meta_block_header (next_header (meta_block_header x)) x).

Lemma finalize_spec x a sb U s Q (E : psa_status_t -> st -> Prop) :
  st_is x U s -> mounted x a sb -> erased c U sb 0 8 ->
  let h' := next_header (meta_block_header x) in
  let U1 := blk_write U sb 0 (header_bytes h') 8 in
  (num_blocks c > 2 -> 0 <= scratch_dblock (meta_block_header x) < num_blocks c) ->
  (forall s', st_is (swapped x) (erase2 U1 a (scratch_dblock (meta_block_header x))) s' -> Q tt s') ->
  (forall e s' U', mf -> e <> PSA_SUCCESS -> same_view U' (Vw (snd s')) ->
     (exists k, 0 <= k <= 8 /\ U' = blk_write U sb 0 (header_bytes h') k) \/
     part_erase2 a (scratch_dblock (meta_block_header x)) U1 U' -> E e s') ->
  wp (its_flash_fs_mblock_meta_update_finalize ops) s Q E.
Proof.
  intros Hst Hm He h' U1 Hsd HQ HE. pose proof Hm as (Hc & Ha & Hs & Hma & Hms & Hne).
  unfold its_flash_fs_mblock_meta_update_finalize.
  apply wp_bind. use write_scratch_meta_header_spec; [exact Hst|exact Hm|exact He| |].
  2:{ intros e s' U' Hmf Hne' [_ Hs'] HU'. apply (HE e s' U'); auto. }
  intros s1 Hst1. apply wp_bind. use dev_flush_spec; [exact Hst1|done| |].
  2:{ intros e s' U' Hmf Hne' [_ Hs'] HU'. apply (HE e s' U'); auto. right. intros b i.
      left. by rewrite HU'. }
  intros s2 Hst2. apply wp_bind. unfold its_mblock_swap_metablocks.
  use set_ctx_spec; [exact Hst2|]. intros s3 Hst3.
  eapply (erase_scratch_blocks_spec _ sb a); [exact Hst3| |exact Hsd|exact HQ|].
  - repeat split; simpl; done.
  - intros e s' U' Hmf Hne' [_ Hs'] HU'. apply (HE e s' U'); auto.
Qed.

(** ** The invariant of a mounted filesystem *)
Record fs_inv (x : its_flash_fs_ctx_t) (a sb : Z) (U : view) (T : table) : Prop := {
  inv_mounted : mounted x a sb;
  inv_holds : holds c U a T;
  inv_header : hdr_eqv (meta_block_header x) (hdr_at (U a));
  inv_meta_scratch : erased c U sb 0 (block_size c);
  inv_data_scratch : num_blocks c > 2 ->
    erased c U (scratch_dblock (hdr_at (U a))) 0 (block_size c)
}.

(** A work in progress: only scratch blocks differ from the mounted view
    [U0], and the header of the scratch metadata block is still erased. *)
Definition stage (sb sd : Z) (U0 U : view) : Prop :=
  (forall b i, b <> sb -> ~ scratch_data sd b -> U b i = U0 b i) /\
  (forall i, 0 <= i < 8 -> U sb i = erase_val c).

Lemma stage_only_in sb sd U0 U U' b lo hi :
  stage sb sd U0 U -> only_in b lo hi U U' ->
  (b = sb /\ 8 <= lo) \/ (scratch_data sd b /\ b <> sb) -> stage sb sd U0 U'.
Proof.
  intros [H1 H2] Ho Hb. split.
  - intros b' i Hne Hsd. rewrite Ho; [by apply H1|]. intros [-> _].
    destruct Hb as [[-> _]|[Hb _]]; done.
  - intros i Hi. rewrite Ho; [by apply H2|]. lia.
Qed.

Lemma stage_agree a sb sd U0 U : stage sb sd U0 U -> a <> sb -> is_metablock a -> is_metablock sb ->
  body c U0 a sd -> agree c U0 U a /\ forall i, U a i = U0 a i.
Proof.
  intros [HS _] Hne Ha Hsb HB.
  assert (Hnd : ~ scratch_data sd a).
  { intros [Hn ->]. pose proof (body_sd c U0 sd sd HB Hn). unfold is_metablock in Ha. lia. }
  split; [split|].
  - intros i _. by apply HS.
  - intros l i Hl _. pose proof (body_phy c U0 a sd HB l Hl) as [H1 H2]. apply HS.
    + unfold is_metablock in Hsb. lia.
    + intros [_ E]. congruence.
  - intros i. by apply HS.
Qed.

Lemma unheaded_not_ok m : m 5 = erase_val c -> hdr_ok c (hdr_at m) = false.
Proof.
  intros H. destruct (hdr_ok c (hdr_at m)) eqn:E; [|done].
  apply hdr_ok_iff in E as [_ E]. destruct (hdr_at_fields m) as (_ & _ & F). congruence.
Qed.

(** A failure before the commit leaves the old files. *)
Lemma stage_crash_ok a sb U0 U U' T0 T1 : holds c U0 a T0 -> is_metablock sb -> a <> sb ->
  stage sb (scratch_dblock (hdr_at (U0 a))) U0 U ->
  (forall b i, b <> sb -> U' b i = U b i) -> U' sb 5 = erase_val c ->
  crash_ok c T0 T1 U'.
Proof.
  intros [HI HT] Hsb Hne HS Hag H5.
  destruct (stage_agree a sb _ U0 U HS Hne (image_meta c U0 a HI) Hsb (image_body c U0 a HI))
    as [[HA1 HA2] Heq].
  apply (crash_ok_old c wf T0 T1 U0 U' a sb); auto.
  - by split.
  - intros i Hi. rewrite Hag by done. apply Heq.
  - split; [intros i Hi; rewrite Hag by done; auto|].
    intros l i Hl Hi. rewrite Hag; [by apply HA2|].
    pose proof (body_phy c U0 a _ (image_body c U0 a HI) l Hl). unfold is_metablock in Hsb. lia.
  - by apply unheaded_not_ok.
Qed.

(** Once the header is in place the scratch block holds the new files. *)
Lemma committed x sb U U' k T1 :
  let h := next_header (meta_block_header x) in
  is_metablock sb -> hdr_fields (meta_block_header x) -> fs_version (meta_block_header x) = 1 ->
  body c U sb (scratch_dblock (meta_block_header x)) ->
  (forall j, 0 <= j < max_num_files c -> file_at c U sb j = T1 j) -> 6 <= k ->
  (forall i, 0 <= i < block_size c ->
     U' sb i = blk_write U sb 0 (header_bytes h) k sb i \/ 8 <= i /\ U' sb i = U sb i) ->
  (forall l i, 1 <= l < nact c -> 0 <= i < block_size c ->
     U' (phy_id (bm_at (U sb) l)) i = U (phy_id (bm_at (U sb) l)) i) ->
  k <= 8 ->
  holds c U' sb T1 /\ hdr_eqv (hdr_at (U' sb)) h.
Proof.
  intros h Hsb Hf Hv HB HT Hk Hag Hdata Hk8.
  pose proof (mend_bounds wf). pose proof (wf_meta c wf).
  assert (Hh : hdr_fields h).
  { destruct Hf as (H1 & H2 & H3). split; [done|]. split; [done|]. apply next_count_range. }
  assert (Heq : hdr_eqv (hdr_at (U' sb)) h).
  { apply (hdr_at_prefix _ (U sb) h k); [done| |done]. intros i Hi.
    destruct (Hag i) as [->|[? _]]; [lia| |lia]. unfold blk_write. rewrite Z.eqb_refl, Z.sub_0_r.
    replace (0 <=? i) with true by lia. done. }
  assert (HA : agree c U U' sb).
  { split; [|done]. intros i Hi. destruct (Hag i) as [->|[_ ->]]; [lia| |done].
    unfold blk_write. blk_case; [lia|done]. }
  destruct Heq as (E1 & E2 & E3). split; [|by repeat split]. split.
  - split; [done| | |].
    + destruct Hh as (H1 & H2 & H3). repeat split; rewrite ?E1, ?E2, ?E3; tauto.
    + apply hdr_ok_validate, (next_hdr_ok c wf _ (active_swap_count (meta_block_header x)));
        by rewrite ?E2, ?E3.
    + rewrite E1. by apply (body_agree c wf U).
  - intros j Hj. rewrite (file_at_agree c wf U U' sb _ j HA HB Hj). auto.
Qed.

Lemma commit_spec x a sb U0 U T0 T1 s Q (E : psa_status_t -> st -> Prop) :
  holds c U0 a T0 -> mounted x a sb -> st_is x U s ->
  stage sb (scratch_dblock (hdr_at (U0 a))) U0 U ->
  hdr_fields (meta_block_header x) -> fs_version (meta_block_header x) = 1 ->
  active_swap_count (meta_block_header x) = active_swap_count (hdr_at (U0 a)) ->
  body c U sb (scratch_dblock (meta_block_header x)) ->
  (forall j, 0 <= j < max_num_files c -> file_at c U sb j = T1 j) ->
  (forall s' x' U', st_is x' U' s' -> fs_inv x' sb a U' T1 -> Q tt s') ->
  (forall e s' U', mf -> e <> PSA_SUCCESS -> same_view U' (Vw (snd s')) ->
     crash_ok c T0 T1 U' -> E e s') ->
  wp (its_flash_fs_mblock_meta_update_finalize ops) s Q E.
Proof.
  intros HH Hm Hst HS Hf Hv Hcnt HB HT HQ HE.
  pose proof Hm as (Hc & Ha & Hs & Hma & Hms & Hne).
  pose proof (mend_bounds wf). pose proof (wf_meta c wf).
  set (h := meta_block_header x) in *. set (sd := scratch_dblock h) in *.
  set (U1 := blk_write U sb 0 (header_bytes (next_header h)) 8).
  pose proof (body_sd c U sb sd HB) as Hsd.
  assert (HI : image c U0 a) by apply HH.
  destruct (stage_agree a sb _ U0 U HS Hne Hma Hms (image_body c U0 a HI)) as [_ Ha0].
  assert (Hsb : ~ (sb = a \/ scratch_data sd sb)).
  { intros [->|[Hn E1]]; [done|]. specialize (Hsd Hn). unfold is_metablock in Hms. lia. }
  assert (Hphy : forall l, 1 <= l < nact c -> phy_id (bm_at (U sb) l) <> sb /\
    ~ (phy_id (bm_at (U sb) l) = a \/ scratch_data sd (phy_id (bm_at (U sb) l)))).
  { intros l Hl. pose proof (body_phy c U sb sd HB l Hl) as [H1 H2].
    unfold is_metablock in Hma, Hms. unfold scratch_data. lia. }
  assert (Hpart : forall U', part_erase2 a sd U1 U' ->
    holds c U' sb T1 /\ hdr_eqv (hdr_at (U' sb)) (next_header h)).
  { intros U' HP. apply (committed x sb U U' 8 T1); auto; try lia.
    - intros i Hi. left. destruct (HP sb i) as [->|[Hx _]]; done.
    - intros l i Hl Hi. destruct (Hphy l Hl) as [H1 H2].
      destruct (HP (phy_id (bm_at (U sb) l)) i) as [->|[Hx _]]; [|done].
      unfold U1, blk_write. blk_case; [tauto|done]. }
  use finalize_spec; [exact Hst|exact Hm| |intros Hn; specialize (Hsd Hn); fold h sd; lia| |].
  - intros i Hi. apply HS. lia.
  - fold h sd U1. intros s' Hst'. apply (HQ s' _ _ Hst').
    destruct (Hpart (erase2 U1 a sd)) as [HH1 Heq]; [intros b i; apply erase2_at|].
    split; [repeat split; simpl; done|done|by symmetry| |].
    + intros i Hi. apply erase2_erased; [by left|lia].
    + intros Hn i Hi. apply erase2_erased; [|lia]. right. split; [lia|]. by destruct Heq.
  - fold h sd U1. intros e s' U' Hmf Hne' Hs' [(k & Hk & ->)|HP]; apply (HE e s' _ Hmf Hne' Hs').
    + destruct (Z.le_gt_cases 6 k) as [Hk6|Hk6].
      * destruct (committed x sb U (blk_write U sb 0 (header_bytes (next_header h)) k) k T1)
          as [HH1 Heq]; auto; try lia.
        { intros l i Hl Hi. destruct (Hphy l Hl) as [H1 H2]. unfold blk_write.
          blk_case; [tauto|done]. }
        exists sb. split; [|by right].
        destruct Heq as (E1 & E2 & E3).
        assert (Hha : hdr_at (blk_write U sb 0 (header_bytes (next_header h)) k a) = hdr_at (U0 a)).
        { apply hdr_at_ext. intros i Hi. unfold blk_write. blk_case; [lia|apply Ha0]. }
        apply (select_next c wf _ a sb Hma Hms Hne).
        -- rewrite Hha. apply (image_words c U0 a HI).
        -- rewrite E3. apply next_count_range.
        -- apply image_ok, HH1.
        -- intros _. rewrite E3, Hha, <- Hcnt. done.
      * apply (stage_crash_ok a sb U0 U); auto.
        -- intros b i Hb. unfold blk_write. blk_case; [lia|done].
        -- unfold blk_write. blk_case; [lia|]. apply HS. lia.
    + destruct (Hpart U' HP) as [HH1 Heq]. exists sb. split; [|by right].
      destruct Heq as (E1 & E2 & E3).
      assert (Hcnt5 : U' a 5 = active_swap_count (hdr_at (U0 a)) \/ U' a 5 = erase_val c).
      { destruct (HP a 5) as [->|(_ & _ & ->)]; [left|by right].
        destruct (hdr_at_fields (U0 a)) as (_ & _ & ->). unfold U1, blk_write.
        blk_case; [lia|apply Ha0]. }
      destruct (hdr_at_fields (U' a)) as (_ & _ & F).
      pose proof (image_words c U0 a HI) as (_ & _ & Hr). pose proof (wf_ev c wf).
      apply (select_next c wf _ a sb Hma Hms Hne).
      * rewrite F. destruct Hcnt5 as [->| ->]; [done|lia].
      * rewrite E3. apply next_count_range.
      * apply image_ok, HH1.
      * intros Hok. apply hdr_ok_iff in Hok as [_ Hok]. rewrite F in Hok |- *.
        destruct Hcnt5 as [H5|H5]; [|congruence]. rewrite H5, E3. simpl. by rewrite Hcnt.
Qed.
End Finalize.
