(* ===== verification/ItsRebuild.v ===== *)
(** * Internal Trusted Storage: rebuilding the tables in the scratch block

    Every update writes a complete new block table and file table in the
    scratch metadata block.  This file shows when the result is well formed,
    whatever the update was. *)

From Stdlib Require Import ZArith List Lia Bool.
From stdpp Require Import base tactics list sets.
From S2P Require Import Prelude ItsUtils ItsFlash ItsMblock ItsFs ItsImage ItsDevSpec.
From S2P Require Import ItsMblockSpec ItsCommit ItsFinalize.
From S2P Require Import ItsMblockSpec ItsCommit ItsFinalize .
Import ListNotations.
Local Open Scope Z_scope.

Section Rebuild.
Context (c : its_flash_fs_config_t) (wf : wf_cfg c).
Context (U0 : view) (a sb sd0 : Z).
Context (HB : body c U0 a sd0) (Ha : is_metablock a) (Hsb : is_metablock sb) (Hne : a <> sb).

Local Abbreviation b := (bm_at (U0 a)).

(** The physical block that receives the data of logical block [l]. *)
Definition data_scratch (l : Z) : Z := if l =? 0 then sb else sd0.

(** Where the data of the updated block [lb] ends up ([q]) and the free
    data block left ([sd1]): swapped with the scratch block, or in place. *)
Definition placed (lb q sd1 : Z) : Prop :=
  (q = data_scratch lb /\ sd1 = if lb =? 0 then sd0 else phy_id (b lb)) \/
  (q = (if lb =? 0 then sb else phy_id (b lb)) /\ sd1 = sd0).

Lemma phy_dedicated l : 1 <= l < nact c -> 2 <= phy_id (b l) < num_blocks c.
Proof using wf HB.
  intros Hl. split; [by apply (body_phy c U0 a sd0 HB)|].
  destruct (body_bm c U0 a sd0 HB l ltac:(lia)) as [Hw Hv].
  by apply (validate_block_meta_iff wf) in Hv as [? _].
Qed.

Lemma nb_dedicated l : 1 <= l < nact c -> num_blocks c > 2.
Proof using wf.
  unfold nact. destruct (Z.eqb_spec (num_blocks c) 2); [lia|].
  pose proof (wf_nb c wf). lia.
Qed.

Lemma data_start_eq l : 0 <= l < nact c -> data_start (b l) = if l =? 0 then mend c else 0.
Proof using wf HB Ha.
  intros Hl. destruct (body_bm c U0 a sd0 HB l Hl) as [Hw Hv].
  apply (validate_block_meta_iff wf) in Hv as (_ & _ & ->); [|done].
  destruct (Z.eqb_spec l 0) as [->|Hl0].
  - rewrite decide_True; [done|]. by apply (body_phy0_meta c U0 a sd0).
  - rewrite decide_False; [done|]. pose proof (phy_dedicated l ltac:(lia)).
    unfold is_metablock. lia.
Qed.

Context (U : view) (lb q sd1 fr : Z) (nf : Z -> its_file_meta_t).
Context (Hlb : 0 <= lb < nact c) (Hpl : placed lb q sd1).
Context (Hfr : 0 <= fr /\ data_start (b lb) + fr <= block_size c).

Definition new_bm : its_block_meta_t :=
  {| phy_id := q; data_start := data_start (b lb); free_size := fr |}.

Context (F_bm : forall l, 0 <= l < nact c -> bm_at (U sb) l = updated_bm U0 a sb lb new_bm l).
Context (F_fm : forall j, 0 <= j < max_num_files c -> fm_at c (U sb) j = nf j).
Context (Hnf : forall j, 0 <= j < max_num_files c ->
  fm_words (nf j) /\ its_mblock_validate_file_meta c (nf j) = PSA_SUCCESS).
Context (Hunused : forall j, 0 <= j < max_num_files c -> ~ in_use (nf j) -> flags (nf j) = 0).
Context (Htiles : forall l, 0 <= l < nact c -> exists js,
  NoDup js /\
  (forall j, j ∈ js <-> 0 <= j < max_num_files c /\ in_use (nf j) /\ lblock (nf j) = l) /\
  tiles nf (data_start (b l)) js
    (block_size c - (if l =? lb then fr else free_size (b l)))).

(** The entries of the new block table. *)
Lemma rebuilt_bm l : 0 <= l < nact c ->
  phy_id (bm_at (U sb) l) =
    (if l =? 0 then sb else if l =? lb then q else phy_id (b l)) /\
  data_start (bm_at (U sb) l) = data_start (b l) /\
  free_size (bm_at (U sb) l) = (if l =? lb then fr else free_size (b l)).
Proof using All.
  intros Hl. rewrite F_bm by done. unfold updated_bm, new_bm.
  destruct (Z.eqb_spec l lb) as [->|Hn].
  - destruct (Z.eqb_spec lb 0); simpl; auto.
  - destruct (Z.eqb_spec l 0) as [->|]; simpl; auto.
Qed.

Lemma placed_facts : (lb = 0 -> q = sb /\ sd1 = sd0) /\
  (1 <= lb -> 2 <= q < num_blocks c /\ 2 <= sd1 < num_blocks c /\ q <> sd1 /\
    (forall l, 1 <= l < nact c -> l <> lb -> phy_id (b l) <> q /\ phy_id (b l) <> sd1)).
Proof using All.
  unfold placed, data_scratch in Hpl. split.
  - intros E. rewrite E in Hpl. simpl in Hpl. tauto.
  - intros E. replace (lb =? 0) with false in Hpl by lia.
    pose proof (phy_dedicated lb ltac:(lia)) as Hp.
    pose proof (body_sd c U0 a sd0 HB (nb_dedicated lb ltac:(lia))).
    pose proof (body_phy c U0 a sd0 HB lb ltac:(lia)) as [_ Hx].
    assert (Hd : forall l, 1 <= l < nact c -> l <> lb -> phy_id (b l) <> phy_id (b lb) /\
      phy_id (b l) <> sd0).
    { intros l Hl Hn. split; [|by apply (body_phy c U0 a sd0 HB)].
      intros Heq. apply Hn. by apply (body_inj c U0 a sd0 HB); [|lia|]. }
    destruct Hpl as [[-> ->]|[-> ->]]; repeat split; try lia; try (by apply Hd); congruence.
Qed.

Lemma rebuilt_body : body c U sb sd1.
Proof using All.
  pose proof (nact_bounds wf). destruct placed_facts as [P0 P1]. pose proof (wf_nb c wf).
  pose proof (metablock_lt wf sb Hsb). pose proof (wf_bs c wf).
  split.
  - intros l Hl. destruct (rebuilt_bm l Hl) as (E1 & E2 & E3).
    destruct (body_bm c U0 a sd0 HB l Hl) as [Hw Hv].
    pose proof Hw as (W1 & W2 & W3). pose proof Hv as Hv'.
    apply (validate_block_meta_iff wf) in Hv' as (V1 & V2 & V3); [|done].
    assert (Hph : 0 <= phy_id (bm_at (U sb) l) < num_blocks c /\
      (is_metablock (phy_id (bm_at (U sb) l)) <-> l = 0)).
    { rewrite E1. destruct (Z.eqb_spec l 0) as [->|Hl0]; [tauto|].
      assert (2 <= (if l =? lb then q else phy_id (b l)) < num_blocks c).
      { destruct (Z.eqb_spec l lb) as [->|]; [|apply phy_dedicated; lia].
        destruct P1 as [? _]; lia. }
      unfold is_metablock. lia. }
    destruct Hph as [Hph Hmb].
    assert (Hfree : 0 <= free_size (bm_at (U sb) l) /\
      data_start (bm_at (U sb) l) + free_size (bm_at (U sb) l) <= block_size c).
    { rewrite E2, E3. destruct (Z.eqb_spec l lb) as [->|]; lia. }
    assert (Hds : data_start (bm_at (U sb) l) = if l =? 0 then mend c else 0)
      by (rewrite E2; by apply data_start_eq).
    assert (Hw' : bm_words (bm_at (U sb) l)) by (unfold bm_words; rewrite E2 in *; lia).
    split; [done|]. apply (validate_block_meta_iff wf); [done|].
    split; [lia|]. split; [lia|]. rewrite Hds.
    destruct (Z.eqb_spec l 0) as [->|Hl0]; [by rewrite decide_True by tauto|].
    by rewrite decide_False by tauto.
  - left. by destruct (rebuilt_bm 0 ltac:(lia)) as (-> & _).
  - intros l Hl. destruct (rebuilt_bm l ltac:(lia)) as (-> & _).
    replace (l =? 0) with false by lia. destruct (Z.eqb_spec l lb) as [->|Hn].
    + destruct P1 as (? & ? & ? & _); lia.
    + pose proof (phy_dedicated l Hl). split; [lia|].
      destruct (Z.eq_dec lb 0) as [E|E]; [destruct (P0 E) as [_ ->]; by apply (body_phy c U0 a sd0 HB)|].
      destruct P1 as (_ & _ & _ & P2); [lia|]. by apply P2.
  - intros l l' Hl Hl'. destruct (rebuilt_bm l ltac:(lia)) as (-> & _).
    destruct (rebuilt_bm l' ltac:(lia)) as (-> & _).
    replace (l =? 0) with false by lia. replace (l' =? 0) with false by lia.
    destruct (Z.eqb_spec l lb) as [->|Hn]; destruct (Z.eqb_spec l' lb) as [->|Hn']; try done.
    + destruct P1 as (_ & _ & _ & P2); [lia|]. destruct (P2 l' Hl' Hn'). congruence.
    + destruct P1 as (_ & _ & _ & P2); [lia|]. destruct (P2 l Hl Hn). congruence.
    + by apply (body_inj c U0 a sd0 HB).
  - intros Hn. destruct (Z.eq_dec lb 0) as [E|E]; [|destruct P1 as (_ & ? & _); lia].
    destruct (P0 E) as [_ ->]. by apply (body_sd c U0 a sd0 HB).
  - intros j Hj. rewrite F_fm by done. by apply Hnf.
  - intros j Hj. rewrite F_fm by done. by apply Hunused.
  - intros l Hl. destruct (Htiles l Hl) as (js & Hnd & Hin & Ht). exists js.
    split; [done|]. split.
    + intros j. rewrite Hin. split; intros (Hj & Hx); (split; [done|]).
      * by rewrite F_fm.
      * by rewrite F_fm in Hx.
    + destruct (rebuilt_bm l Hl) as (_ & -> & ->). eapply tiles_ext; [|exact Ht].
      intros j Hj. apply F_fm. apply Hin in Hj; tauto.
Qed.

(** Files outside the updated block keep their data. *)
Context (F_st : forall b' i, b' <> sb -> ~ scratch_data c sd0 b' -> U b' i = U0 b' i).
Context (F_mig : lb <> 0 -> forall i, mend c <= i < block_size c - free_size (b 0) ->
  U sb i = U0 a i).

Lemma other_block_data l i : 0 <= l < nact c -> l <> lb ->
  data_start (b l) <= i < block_size c - free_size (b l) ->
  U (phy_id (bm_at (U sb) l)) i = U0 (phy_id (b l)) i.
Proof using All.
  intros Hl Hn Hi. destruct (rebuilt_bm l Hl) as (-> & _).
  destruct (Z.eqb_spec l 0) as [->|Hl0].
  - rewrite data_start_eq in Hi by lia.
    rewrite (body_phy0_used c U0 a sd0 i HB) by exact Hi. apply F_mig; [lia|].
    exact Hi.
  - replace (l =? lb) with false by lia. pose proof (phy_dedicated l ltac:(lia)).
    apply F_st; [unfold is_metablock in Hsb; lia|]. intros [_ E].
    by destruct (body_phy c U0 a sd0 HB l ltac:(lia)).
Qed.

Lemma other_file_flags j fl : 0 <= j < max_num_files c -> lblock (fm_at c (U0 a) j) <> lb ->
  nf j = set_flags fl (fm_at c (U0 a) j) ->
  file_at c U sb j = with_flags fl <$> file_at c U0 a j.
Proof using All.
  intros Hj Hl Hnfj. unfold file_at. rewrite F_fm, Hnfj by done. unfold in_use.
  cbn [set_flags id lblock data_idx cur_size max_size flags]. fold (in_use (fm_at c (U0 a) j)).
  destruct (decide _) as [Hu|]; [|done].
  cbn [fmap option_fmap option_map]. unfold with_flags. cbn [f_id f_max f_data]. do 2 f_equal.
  destruct (file_bounds c wf U0 a sd0 j HB Hj Hu) as (Hlb' & _ & Hc & _).
  destruct (file_in_used c wf U0 a sd0 j HB Hj Hu) as [H1 H2]. apply mread_ext. intros i Hi.
  apply other_block_data; [done|done|lia].
Qed.

Lemma other_file_same j : 0 <= j < max_num_files c -> lblock (fm_at c (U0 a) j) <> lb ->
  nf j = fm_at c (U0 a) j -> file_at c U sb j = file_at c U0 a j.
Proof using All.
  intros Hj Hl Hnfj. unfold file_at. rewrite F_fm, Hnfj by done.
  destruct (decide (in_use (fm_at c (U0 a) j))) as [Hu|]; [|done]. do 2 f_equal.
  destruct (file_bounds c wf U0 a sd0 j HB Hj Hu) as (Hlb' & _ & Hc & _).
  destruct (file_in_used c wf U0 a sd0 j HB Hj Hu) as [H1 H2]. apply mread_ext. intros i Hi.
  apply other_block_data; [done|done|lia].
Qed.
End Rebuild.

(** * Internal Trusted Storage: a write, the image it must build

    One entry of the file table is replaced or added, and the data of its
    block is rewritten (to the free data block, or left in place when there is
    no data to write).  The tables form a well-formed image in which only that
    file changes. *)

Section WritePlan.
Context (c : its_flash_fs_config_t) (wf : wf_cfg c).
Context (U0 : view) (a sb sd0 : Z).
Context (HB : body c U0 a sd0) (Ha : is_metablock a) (Hsb : is_metablock sb) (Hne : a <> sb).
Context (n : Z) (F : its_file_meta_t) (fr : Z) (fl : Z -> Z).
Context (Hn : 0 <= n < max_num_files c).

Local Abbreviation f := (fm_at c (U0 a)).
Local Abbreviation b := (bm_at (U0 a)).
Local Abbreviation lb := (lblock F).
Local Abbreviation p := (data_idx F).
Local Abbreviation m := (max_size F).
Local Abbreviation ds := (data_start (b lb)).
Local Abbreviation e := (block_size c - free_size (b lb)).
Local Abbreviation ph := (phy_id (b lb)).

(** The file is written in place of an existing one, or after the others. *)
Definition wr_layout : Prop :=
  (in_use (f n) /\ lblock (f n) = lb /\ data_idx (f n) = p /\ max_size (f n) = m /\
   fr = free_size (b lb)) \/
  (~ in_use (f n) /\ p = e /\ fr = free_size (b lb) - m /\ 0 <= fr).

Record wr_file : Prop := {
  wr_words : fm_words F;
  wr_use : in_use F;
  wr_lb : 0 <= lb < nact c;
  wr_cur : cur_size F <= m;
  wr_max : m <= max_file_size c
}.
Context (HF : wr_file) (Hlay : wr_layout).
Context (Hfl : forall j, 0 <= j < max_num_files c -> 0 <= fl j < 2 ^ 32 /\
  (~ in_use (f j) -> fl j = 0)).

(** The new file table. *)
Definition wr_fm (j : Z) : its_file_meta_t :=
  if j =? n then F else set_flags (fl j) (f j).

Lemma wr_fm_other j : j <> n -> lblock (wr_fm j) = lblock (f j) /\
  max_size (wr_fm j) = max_size (f j) /\ cur_size (wr_fm j) = cur_size (f j) /\
  data_idx (wr_fm j) = data_idx (f j) /\ id (wr_fm j) = id (f j) /\ flags (wr_fm j) = fl j.
Proof using Type. intros Hj. unfold wr_fm. by replace (j =? n) with false by lia. Qed.

Lemma wr_fm_n : wr_fm n = F.
Proof using Type. unfold wr_fm. by rewrite Z.eqb_refl. Qed.

Lemma wr_in_use j : j <> n -> in_use (wr_fm j) <-> in_use (f j).
Proof using Type.
  intros Hj. destruct (wr_fm_other j Hj) as (_ & _ & _ & _ & E & _). unfold in_use. by rewrite E.
Qed.

Lemma wr_bounds : 0 <= m /\ 0 <= ds <= p /\ p + m <= block_size c - fr /\
  0 <= fr /\ fr <= free_size (b lb) /\ ds <= e <= block_size c.
Proof using All.
  pose proof (wr_words HF) as Hw. unfold fm_words in Hw. pose proof (wr_lb HF) as Hl.
  destruct (body_bm c U0 a sd0 HB lb Hl) as [Hbw Hbv].
  pose proof Hbw as Hbw'. unfold bm_words in Hbw'.
  apply (validate_block_meta_iff wf) in Hbv as (V1 & V2 & V3); [|done].
  destruct Hlay as [(Hu & E1 & E2 & E3 & E4)|(Hu & E1 & E2 & E3)]; [|lia].
  destruct (file_in_used c wf U0 a sd0 n HB Hn Hu) as [H1 H2].
  rewrite E1, E2, E3 in *. lia.
Qed.

Lemma wr_fm_ok j : 0 <= j < max_num_files c ->
  fm_words (wr_fm j) /\ its_mblock_validate_file_meta c (wr_fm j) = PSA_SUCCESS.
Proof using All.
  intros Hj. pose proof wr_bounds as HBd. destruct (Z.eq_dec j n) as [->|Hjn].
  - rewrite wr_fm_n. split; [apply (wr_words HF)|].
    pose proof (wr_lb HF) as Hl. pose proof (wr_cur HF). pose proof (wr_max HF).
    apply (validate_file_meta_iff wf); [apply (wr_words HF)|].
    split; [lia|]. intros _. split; [done|]. split; [done|]. split; [|lia].
    intros E0. rewrite (data_start_eq c wf U0 a sd0 HB Ha lb Hl), E0 in HBd. simpl in HBd. lia.
  - destruct (wr_fm_other j Hjn) as (E1 & E2 & E3 & E4 & E5 & E6).
    destruct (body_fm c U0 a sd0 HB j Hj) as [Hw Hv]. destruct (Hfl j Hj) as [Hfr _].
    assert (Hw' : fm_words (wr_fm j)).
    { unfold fm_words in *. rewrite E1, E2, E3, E4, E5, E6. tauto. }
    split; [done|]. apply (validate_file_meta_iff wf); [done|].
    apply (validate_file_meta_iff wf) in Hv; [|done]. rewrite E1, E2, E3, E4, wr_in_use; done.
Qed.

Lemma wr_free j : 0 <= j < max_num_files c -> ~ in_use (wr_fm j) -> flags (wr_fm j) = 0.
Proof using All.
  intros Hj. destruct (Z.eq_dec j n) as [->|Hjn].
  - rewrite wr_fm_n. intros Hu. by destruct (Hu (wr_use HF)).
  - destruct (wr_fm_other j Hjn) as (_ & _ & _ & _ & _ & ->). rewrite wr_in_use by done.
    by apply Hfl.
Qed.

Lemma wr_free_size : 0 <= fr /\ ds + fr <= block_size c.
Proof using All. pose proof wr_bounds. lia. Qed.

Lemma wr_tiles l : 0 <= l < nact c -> exists js,
  NoDup js /\
  (forall j, j ∈ js <-> 0 <= j < max_num_files c /\ in_use (wr_fm j) /\ lblock (wr_fm j) = l) /\
  tiles wr_fm (data_start (b l)) js
    (block_size c - (if l =? lb then fr else free_size (b l))).
Proof using All.
  intros Hl. destruct (body_tiles c U0 a sd0 HB l Hl) as (js & Hnd & Hin & Ht).
  assert (Hoth : forall j, j <> n -> (in_use (wr_fm j) /\ lblock (wr_fm j) = l <->
    in_use (f j) /\ lblock (f j) = l)).
  { intros j Hj. rewrite wr_in_use by done. by destruct (wr_fm_other j Hj) as (-> & _). }
  assert (Hsame : forall js', (forall j, j ∈ js' -> data_idx (wr_fm j) = data_idx (f j) /\
    max_size (wr_fm j) = max_size (f j)) -> forall q q', tiles f q js' q' -> tiles wr_fm q js' q').
  { intros js' Hj q q' Htl. induction Htl as [q|q j js' q' Hd Htl IH]; constructor.
    - rewrite (proj1 (Hj j ltac:(set_solver))). done.
    - rewrite (proj2 (Hj j ltac:(set_solver))). apply IH. set_solver. }
  assert (Hoj : forall j, j <> n -> data_idx (wr_fm j) = data_idx (f j) /\
    max_size (wr_fm j) = max_size (f j)).
  { intros j Hj. by destruct (wr_fm_other j Hj) as (_ & ? & _ & ? & _). }
  pose proof (wr_use HF) as HFu.
  destruct Hlay as [(Hu & E1 & E2 & E3 & ->)|(Hu & E1 & E2 & E3)].
  - exists js. split; [done|]. split.
    + intros j. rewrite Hin. destruct (Z.eq_dec j n) as [->|Hjn]; [|by rewrite Hoth].
      rewrite wr_fm_n. rewrite E1. tauto.
    + replace (if l =? lb then free_size (b lb) else free_size (b l)) with (free_size (b l)).
      2:{ destruct (Z.eqb_spec l lb) as [->|]; done. }
      apply Hsame; [|done]. intros j _. destruct (Z.eq_dec j n) as [->|Hjn]; [|by apply Hoj].
      by rewrite wr_fm_n.
  - assert (Hnjs : n ∉ js) by (intros Hx; apply Hin in Hx; tauto).
    assert (Hne' : forall j, j ∈ js -> j <> n) by (intros j Hj ->; done).
    destruct (Z.eqb_spec l lb) as [->|Hlb].
    + exists (js ++ [n]). split; [|split].
      * apply NoDup_app. split; [done|]. split; [set_solver|]. apply NoDup_singleton.
      * intros j. rewrite elem_of_app, list_elem_of_singleton, Hin.
        destruct (Z.eq_dec j n) as [->|Hjn]; [|rewrite Hoth by done; tauto].
        rewrite wr_fm_n. tauto.
      * apply tiles_app. exists e. split; [apply Hsame; [|done]; intros j Hj; apply Hoj; auto|].
        constructor; rewrite wr_fm_n; [done|]. rewrite E2.
        replace (block_size c - (free_size (b lb) - m)) with (e + m) by lia. constructor.
    + exists js. split; [done|]. split.
      * intros j. rewrite Hin. destruct (Z.eq_dec j n) as [->|Hjn]; [|by rewrite Hoth].
        rewrite wr_fm_n. split; [tauto|]. intros (_ & _ & ?). congruence.
      * apply Hsame; [|done]. intros j Hj. apply Hoj. auto.
Qed.

(** ** The view of the scratch blocks before the commit *)
Context (U : view) (q sd1 : Z) (Hpl : placed U0 a sb sd0 lb q sd1).
Context (F_bm : forall l, 0 <= l < nact c ->
  bm_at (U sb) l = updated_bm U0 a sb lb (new_bm U0 a lb q fr) l).
Context (F_fm : forall j, 0 <= j < max_num_files c -> fm_at c (U sb) j = wr_fm j).
Context (F_st : forall b' i, b' <> sb -> ~ scratch_data c sd0 b' -> U b' i = U0 b' i).
Context (F_data : forall i, ds <= i < e -> ~ (p <= i < p + m) -> U q i = U0 ph i).
Context (F_mig : lb <> 0 -> forall i, mend c <= i < block_size c - free_size (b 0) ->
  U sb i = U0 a i).

Lemma wr_body : body c U sb sd1.
Proof using All.
  eapply (rebuilt_body c wf U0 a sb sd0 HB Ha Hsb Hne U lb q sd1 fr wr_fm);
    eauto using wr_lb, wr_free_size, wr_fm_ok, wr_free, wr_tiles.
Qed.

(** The physical block that holds logical block [lb] afterwards. *)
Lemma wr_phy : phy_id (bm_at (U sb) lb) = q.
Proof using All.
  destruct (rebuilt_bm c wf U0 a sb sd0 HB Ha Hsb Hne U lb q sd1 fr wr_fm (wr_lb HF) Hpl
    wr_free_size F_bm F_fm wr_fm_ok wr_free wr_tiles lb (wr_lb HF)) as (-> & _).
  rewrite Z.eqb_refl. destruct (Z.eqb_spec lb 0) as [E|]; [|done].
  unfold placed, data_scratch in Hpl. rewrite E in Hpl. simpl in Hpl. symmetry; tauto.
Qed.

(** The file table afterwards. *)
Definition wr_table (T : table) (data : list Z) : table := fun j =>
  if j =? n then Some {| f_id := id F; f_flags := flags F; f_max := m; f_data := data |}
  else with_flags (fl j) <$> T j.

Lemma wr_file_n : file_at c U sb n =
  Some {| f_id := id F; f_flags := flags F; f_max := m; f_data := mread (U q) p (cur_size F) |}.
Proof using All.
  unfold file_at. rewrite F_fm, wr_fm_n by done. rewrite decide_True by apply (wr_use HF).
  by rewrite wr_phy.
Qed.

(** A file of the block other than the one written. *)
Lemma wr_disjoint j : 0 <= j < max_num_files c -> j <> n -> in_use (f j) -> lblock (f j) = lb ->
  ds <= data_idx (f j) /\ data_idx (f j) + max_size (f j) <= e /\
  (data_idx (f j) + max_size (f j) <= p \/ p + m <= data_idx (f j)).
Proof using All.
  intros Hj Hjn Hu Hl. destruct (file_in_used c wf U0 a sd0 j HB Hj Hu) as [H1 H2].
  rewrite Hl in H1, H2. split; [done|]. split; [done|].
  destruct Hlay as [(Hun & E1 & E2 & E3 & E4)|(Hun & E1 & _)]; [|left; lia].
  destruct (body_tiles c U0 a sd0 HB lb (wr_lb HF)) as (js & Hnd & Hin & Ht).
  rewrite <- E2, <- E3.
  refine (tiles_disjoint f _ js _ j n Ht _ Hnd _ _ Hjn); [|by apply Hin|by apply Hin].
  intros k Hk. apply Hin in Hk as [Hk _]. destruct (body_fm c U0 a sd0 HB k Hk) as [Hw _].
  unfold fm_words in Hw. lia.
Qed.

Lemma wr_files j : 0 <= j < max_num_files c -> j <> n ->
  file_at c U sb j = with_flags (fl j) <$> file_at c U0 a j.
Proof using All.
  intros Hj Hjn. assert (Hw : wr_fm j = set_flags (fl j) (f j)).
  { unfold wr_fm. by replace (j =? n) with false by lia. }
  destruct (Z.eq_dec (lblock (f j)) lb) as [Hlj|Hlj].
  - unfold file_at. rewrite F_fm by done.
    destruct (wr_fm_other j Hjn) as (E1 & E2 & E3 & E4 & E5 & E6).
    pose proof (wr_in_use j Hjn) as Hiff.
    destruct (decide (in_use (f j))) as [Huj|Huj].
    2:{ rewrite decide_False by tauto. done. }
    rewrite decide_True by tauto. rewrite E1, E2, E3, E4, E5, E6, Hlj, wr_phy.
    cbn [fmap option_fmap option_map]. unfold with_flags. cbn [f_id f_max f_data]. do 2 f_equal.
    destruct (wr_disjoint j Hj Hjn Huj Hlj) as (D1 & D2 & D3).
    destruct (file_bounds c wf U0 a sd0 j HB Hj Huj) as (_ & _ & Hc & _).
    apply mread_ext. intros i Hi. apply F_data; lia.
  - eapply (other_file_flags c wf U0 a sb sd0 HB Ha Hsb Hne U lb q sd1 fr wr_fm);
      eauto using wr_lb, wr_free_size, wr_fm_ok, wr_free, wr_tiles.
Qed.

Lemma wr_holds_table T data j : (forall j, 0 <= j < max_num_files c -> file_at c U0 a j = T j) ->
  mread (U q) p (cur_size F) = data -> 0 <= j < max_num_files c ->
  file_at c U sb j = wr_table T data j.
Proof using All.
  intros HT Hd Hj. unfold wr_table. destruct (Z.eqb_spec j n) as [->|Hjn].
  - rewrite wr_file_n. by rewrite Hd.
  - rewrite wr_files by done. by rewrite HT.
Qed.
End WritePlan.
