(* ===== verification/ItsDeletePlan.v ===== *)
(** * Internal Trusted Storage: deletion, the image it must build

    The tables and data of the scratch blocks after a deletion, and the proof
    that they form a well-formed image with the file gone and the others
    unchanged. *)

From Stdlib Require Import ZArith List Lia Bool.
From stdpp Require Import base tactics list sets.
From S2P Require Import Prelude ItsUtils ItsFlash ItsMblock ItsFs ItsImage ItsDevSpec.
From S2P Require Import ItsMblockSpec ItsCommit ItsFinalize ItsRebuild.
From S2P Require Import ItsMblockSpec ItsLookupSpec ItsCommit ItsFinalize ItsRebuild.
Import ListNotations.
Local Open Scope Z_scope.

(** No file with data starts where the file of entry [d] starts.  This holds
    of every [d] whose space is not empty, and of an empty file that is not
    followed by another one in its block. *)
Definition no_alias (c : its_flash_fs_config_t) (m : mem) (d : Z) : Prop :=
  forall j, 0 <= j < max_num_files c -> j <> d -> in_use (fm_at c m j) ->
    lblock (fm_at c m j) = lblock (fm_at c m d) -> 0 < max_size (fm_at c m j) ->
    data_idx (fm_at c m j) <> data_idx (fm_at c m d).

Section DeletePlan.
Context (c : its_flash_fs_config_t) (wf : wf_cfg c).
Context (U0 : view) (a sb sd0 : Z).
Context (HB : body c U0 a sd0) (Ha : is_metablock a) (Hsb : is_metablock sb) (Hne : a <> sb).
Context (d : Z) (Hd : 0 <= d < max_num_files c) (Hu : in_use (fm_at c (U0 a) d)).
Context (Hna : no_alias c (U0 a) d).

Local Abbreviation f := (fm_at c (U0 a)).
Local Abbreviation b := (bm_at (U0 a)).
Local Abbreviation lb := (lblock (f d)).
Local Abbreviation p := (data_idx (f d)).
Local Abbreviation m := (max_size (f d)).
Local Abbreviation ds := (data_start (b lb)).
Local Abbreviation e := (block_size c - free_size (b lb)).
Local Abbreviation ph := (phy_id (b lb)).

Definition del_moved (j : Z) : Prop :=
  lblock (f j) = lb /\ in_use (f j) /\ data_idx (f j) > p.
#[local] Instance del_moved_dec j : Decision (del_moved j).
Proof. unfold del_moved. apply _. Defined.

Definition del_fm (j : Z) : its_file_meta_t :=
  if j =? d then empty_file_meta
  else if decide (del_moved j) then set_data_idx (data_idx (f j) - m) (f j) else f j.

Local Abbreviation sc := (data_scratch sb sd0 lb).
(** The free data block after the update. *)
Definition del_sd : Z := if lb =? 0 then sd0 else ph.

Lemma del_lb : 0 <= lb < nact c.
Proof using wf HB Hd Hu. by destruct (file_bounds c wf U0 a sd0 d HB Hd Hu). Qed.

Lemma fm_nonneg j : 0 <= j < max_num_files c -> 0 <= max_size (f j) /\ 0 <= data_idx (f j).
Proof using HB. intros Hj. destruct (body_fm c U0 a sd0 HB j Hj) as [Hw _]. unfold fm_words in Hw. lia. Qed.

(** The layout of the block around the deleted file. *)
Lemma del_split : exists l1 l2,
  NoDup (l1 ++ d :: l2) /\
  (forall j, j ∈ l1 ++ d :: l2 <-> 0 <= j < max_num_files c /\ in_use (f j) /\ lblock (f j) = lb) /\
  tiles f ds l1 p /\ tiles f (p + m) l2 e.
Proof using wf HB Hd Hu.
  destruct (body_tiles c U0 a sd0 HB lb del_lb) as (js & Hnd & Hin & Ht).
  assert (d ∈ js) as Hdj by (apply Hin; done).
  apply list_elem_of_split in Hdj as (l1 & l2 & ->). exists l1, l2.
  split; [done|]. split; [done|].
  apply tiles_app in Ht as (q & H1 & H2). inversion H2; subst. done.
Qed.

(** The moved files are those laid out after the deleted one. *)
Lemma del_layout : exists l1 l2,
  NoDup (l1 ++ l2) /\
  (forall j, j ∈ l1 ++ l2 <-> 0 <= j < max_num_files c /\ j <> d /\ in_use (f j) /\ lblock (f j) = lb) /\
  tiles f ds l1 p /\ tiles f (p + m) l2 e /\
  (forall j, j ∈ l1 -> ~ del_moved j) /\
  ((0 < m /\ forall j, j ∈ l2 -> del_moved j) \/
   (m = 0 /\ e = p /\ forall j, j ∈ l2 -> ~ del_moved j /\ max_size (f j) = 0)).
Proof using All.
  destruct del_split as (l1 & l2 & Hnd & Hin & H1 & H2). exists l1, l2.
  assert (Hr : forall j, j ∈ l1 ++ d :: l2 -> 0 <= max_size (f j)).
  { intros j Hj. apply fm_nonneg. by apply Hin. }
  pose proof Hnd as Hnd'. rewrite NoDup_app, NoDup_cons in Hnd'.
  destruct Hnd' as (Hn1 & Hn12 & Hn2 & Hn3).
  split. { apply NoDup_app. split; [done|]. split; [|done]. set_solver. }
  split.
  { intros j. rewrite elem_of_app. split.
    - intros Hj. assert (j <> d) by (destruct Hj; set_solver).
      assert (j ∈ l1 ++ d :: l2) as Hj2%Hin by set_solver. tauto.
    - intros (Hj & Hjd & Hju & Hjl). assert (j ∈ l1 ++ d :: l2) by (apply Hin; tauto). set_solver. }
  split; [done|]. split; [done|]. split.
  { intros j Hj (_ & _ & Hgt).
    destruct (tiles_bounds f _ _ _ j H1) as [_ H]; [intros; apply Hr; set_solver|done|].
    pose proof (Hr j ltac:(set_solver)). lia. }
  destruct (Z.eq_dec m 0) as [Hm|Hm].
  - right. split; [done|]. rewrite Hm, Z.add_0_r in H2.
    assert (H0 : forall j, j ∈ l2 -> data_idx (f j) = p -> max_size (f j) = 0).
    { intros j Hj Hjp. assert (j ∈ l1 ++ d :: l2) as Hj2%Hin by set_solver.
      pose proof (Hr j ltac:(set_solver)). destruct (Z.eq_dec (max_size (f j)) 0); [done|].
      destruct (Hna j); try tauto; [set_solver|lia]. }
    clear - H2 H0. remember p as q eqn:Eq. revert Eq.
    induction H2 as [q|q j js e' Hdi Ht IH]; intros ->.
    { split; [done|]. intros j Hj. by apply not_elem_of_nil in Hj. }
    assert (Hmj : max_size (f j) = 0) by (apply H0; [set_solver|done]).
    rewrite Hmj, Z.add_0_r in *. destruct IH as [He Hj]; [set_solver|done|].
    split; [done|]. intros k [->|Hk]%elem_of_cons; [|by apply Hj].
    split; [|done]. intros (_ & _ & Hgt). lia.
  - left. pose proof (Hr d ltac:(set_solver)). split; [lia|]. intros j Hj.
    destruct (tiles_bounds f _ _ _ j H2) as [Hbd _]; [intros; apply Hr; set_solver|done|].
    assert (j ∈ l1 ++ d :: l2) as Hj2%Hin by set_solver. unfold del_moved. split; [tauto|].
    split; [tauto|]. lia.
Qed.
Lemma del_bounds : 0 <= m /\ 0 <= ds <= p /\ p + m <= e /\ e <= block_size c /\
  block_size c < 2 ^ 16.
Proof using All.
  destruct del_layout as (l1 & l2 & Hnd & Hin & H1 & H2 & _).
  pose proof (fm_nonneg d Hd). pose proof (wf_bs c wf).
  assert (Hr : forall j, j ∈ l1 ++ l2 -> 0 <= max_size (f j)).
  { intros j Hj. apply fm_nonneg. by apply Hin. }
  assert (0 <= p - ds).
  { rewrite <- (tiles_sum f _ _ _ H1). apply zsum_nonneg. intros j Hj. apply Hr. set_solver. }
  assert (0 <= e - (p + m)).
  { rewrite <- (tiles_sum f _ _ _ H2). apply zsum_nonneg. intros j Hj. apply Hr. set_solver. }
  destruct (body_bm c U0 a sd0 HB lb del_lb) as [Hw _]. unfold bm_words in Hw. lia.
Qed.

Lemma del_moved_l2 l1 l2 j :
  (forall j, j ∈ l1 ++ l2 <-> 0 <= j < max_num_files c /\ j <> d /\ in_use (f j) /\ lblock (f j) = lb) ->
  (forall j, j ∈ l1 -> ~ del_moved j) -> 0 <= j < max_num_files c -> del_moved j -> j ∈ l2.
Proof using All.
  intros Hin Hl1 Hj Hmv. assert (Hjd : j <> d) by (intros ->; destruct Hmv as (_ & _ & ?); lia).
  assert (Hjj : j ∈ l1 ++ l2) by (apply Hin; destruct Hmv as (? & ? & _); auto).
  apply elem_of_app in Hjj as [H|H]; [by destruct (Hl1 j H)|done].
Qed.

Lemma del_sum : zsum (fun j => max_size (f j)) (entries del_moved (max_num_files c)) = e - (p + m).
Proof using All.
  destruct del_layout as (l1 & l2 & Hnd & Hin & H1 & H2 & Hl1 & [[Hm Hl2]|(Hm & He & Hl2)]).
  - rewrite (zsum_perm _ _ l2); [apply (tiles_sum f), H2|].
    apply entries_perm; [by apply NoDup_app in Hnd as (_ & _ & ?)|]. intros j. split.
    + intros Hj. split; [by apply Hl2|]. apply (Hin j). set_solver.
    + intros [Hmv Hj]. by eapply del_moved_l2.
  - rewrite (zsum_perm _ _ []); [cbn [zsum]; lia|]. apply entries_perm; [constructor|].
    intros j. split; [by intros ?%not_elem_of_nil|]. intros [Hmv Hj].
    destruct (Hl2 j) as [Hn _]; [by eapply del_moved_l2|done].
Qed.

Lemma del_moved_ge j : 0 <= j < max_num_files c -> del_moved j -> p + m <= data_idx (f j).
Proof using All.
  intros Hj Hmv. destruct del_layout as (l1 & l2 & Hnd & Hin & H1 & H2 & Hl1 & _).
  refine (proj1 (tiles_bounds f _ l2 _ j H2 _ _)); [|by eapply del_moved_l2].
  intros k Hk. apply fm_nonneg. apply (Hin k). set_solver.
Qed.

Lemma del_src : 0 < e - (p + m) -> exists j, 0 <= j < max_num_files c /\ del_moved j /\
  data_idx (f j) = p + m.
Proof using All.
  intros Hpos.
  destruct del_layout as (l1 & l2 & Hnd & Hin & H1 & H2 & Hl1 & [[Hm Hl2]|(Hm & He & _)]); [|lia].
  destruct l2 as [|j l2].
  { rewrite <- (tiles_sum f _ _ _ H2) in Hpos. cbn [zsum] in Hpos. lia. }
  exists j. split; [apply (Hin j); set_solver|]. split; [apply Hl2; set_solver|].
  inversion H2. done.
Qed.

(** ** The new tables are well formed *)
Lemma del_fm_words j : 0 <= j < max_num_files c -> fm_words (del_fm j).
Proof using All.
  intros Hj. destruct (body_fm c U0 a sd0 HB j Hj) as [Hw _]. unfold del_fm.
  destruct (Z.eqb_spec j d); [apply empty_file_meta_words|].
  case_decide as Hmv; [|done]. pose proof (del_moved_ge j Hj Hmv). pose proof del_bounds.
  unfold fm_words in *. cbn [set_data_idx lblock data_idx cur_size max_size flags id]. lia.
Qed.

Lemma del_fm_in_use j : in_use (del_fm j) <-> j <> d /\ in_use (f j).
Proof using All.
  unfold del_fm. destruct (Z.eqb_spec j d) as [->|Hj].
  - split; [by intros ?%empty_not_in_use|by intros []].
  - case_decide; unfold in_use; simpl; tauto.
Qed.

Lemma del_fm_other j : j <> d -> lblock (del_fm j) = lblock (f j) /\
  max_size (del_fm j) = max_size (f j) /\ cur_size (del_fm j) = cur_size (f j) /\
  flags (del_fm j) = flags (f j) /\ id (del_fm j) = id (f j) /\
  data_idx (del_fm j) = if decide (del_moved j) then data_idx (f j) - m else data_idx (f j).
Proof using All.
  intros Hj. unfold del_fm. destruct (Z.eqb_spec j d); [done|]. by case_decide.
Qed.

Lemma del_fm_valid j : 0 <= j < max_num_files c ->
  its_mblock_validate_file_meta c (del_fm j) = PSA_SUCCESS.
Proof using All.
  intros Hj. apply (validate_file_meta_iff wf); [by apply del_fm_words|].
  pose proof (nact_bounds wf). destruct (Z.eq_dec j d) as [->|Hjd].
  { unfold del_fm. rewrite Z.eqb_refl. simpl. split; [lia|]. by intros ?%empty_not_in_use. }
  destruct (body_fm c U0 a sd0 HB j Hj) as [Hw Hv].
  apply (validate_file_meta_iff wf) in Hv as [Hl Hv]; [|done].
  destruct (del_fm_other j Hjd) as (E1 & E2 & E3 & E4 & E5 & E6).
  rewrite E1, E2, E3, E6. split; [done|]. intros Huj%del_fm_in_use. destruct Huj as [_ Huj].
  specialize (Hv Huj). case_decide as Hmv; [|done].
  pose proof (del_moved_ge j Hj Hmv). pose proof del_bounds. destruct Hmv as (Hml & _ & _).
  destruct (file_bounds c wf U0 a sd0 d HB Hd Hu) as (_ & _ & _ & _ & Hblk0). lia.
Qed.

Lemma del_tiles l : 0 <= l < nact c -> exists js,
  NoDup js /\
  (forall j, j ∈ js <-> 0 <= j < max_num_files c /\ in_use (del_fm j) /\ lblock (del_fm j) = l) /\
  tiles del_fm (data_start (b l)) js
    (if l =? lb then e - m else block_size c - free_size (b l)).
Proof using All.
  intros Hl. destruct (Z.eqb_spec l lb) as [->|Hne'].
  - destruct del_layout as (l1 & l2 & Hnd & Hin & H1 & H2 & Hl1 & Hl2). exists (l1 ++ l2).
    assert (Hnotd : forall j, j ∈ l1 ++ l2 -> j <> d) by (intros j Hj; apply Hin in Hj; tauto).
    split; [done|]. split.
    + intros j. rewrite Hin, del_fm_in_use.
      split; intros (Hj & Hx); (split; [done|]); destruct (Z.eq_dec j d) as [->|Hjd]; try tauto;
        destruct (del_fm_other j Hjd) as (E1 & _); rewrite ?E1 in *; tauto.
    + apply tiles_app. exists p. split.
      * eapply tiles_ext; [|exact H1]. intros j Hj. unfold del_fm.
        destruct (Z.eqb_spec j d) as [->|]; [destruct (Hnotd d); set_solver|].
        by rewrite decide_False by auto.
      * replace p with (p + m - m) at 1 by lia.
        eapply (tiles_shift f); [exact H2|]. intros j Hj.
        destruct (del_fm_other j (Hnotd j ltac:(set_solver))) as (_ & E2 & _ & _ & _ & E6).
        split; [|done]. rewrite E6.
        destruct Hl2 as [[_ Hl2]|(Hm & _ & Hl2)]; [by rewrite decide_True by auto|].
        rewrite decide_False by (by apply Hl2). lia.
  - destruct (body_tiles c U0 a sd0 HB l Hl) as (js & Hnd & Hin & Ht). exists js.
    assert (Hother : forall j, lblock (f j) = l -> del_fm j = f j).
    { intros j Hj. unfold del_fm. destruct (Z.eqb_spec j d) as [->|]; [done|].
      rewrite decide_False; [done|]. intros (Hx & _). congruence. }
    split; [done|]. split.
    + intros j. rewrite Hin. split.
      * intros (Hj & Hx & Hy). by rewrite (Hother j Hy).
      * intros (Hj & Hx & Hy). apply del_fm_in_use in Hx as [Hjd Hx].
        destruct (del_fm_other j Hjd) as (E1 & _). rewrite E1 in Hy. done.
    + eapply tiles_ext; [|exact Ht]. intros j Hj. apply Hother. apply Hin in Hj. tauto.
Qed.
(** ** The view of the scratch blocks after the copies *)
Context (U : view).
Context (F_bm : forall l, 0 <= l < nact c ->
  bm_at (U sb) l = updated_bm U0 a sb lb (new_bm U0 a lb sc (free_size (b lb) + m)) l).
Context (F_fm : forall j, 0 <= j < max_num_files c -> fm_at c (U sb) j = del_fm j).
Context (F_st : forall b' i, b' <> sb -> ~ scratch_data c sd0 b' -> U b' i = U0 b' i).
Context (F_lo : forall i, ds <= i < p -> U sc i = U0 ph i).
Context (F_hi : forall i, p <= i < e - m -> U sc i = U0 ph (i + m)).
Context (F_mig : lb <> 0 -> forall i, mend c <= i < block_size c - free_size (b 0) ->
  U sb i = U0 a i).

Lemma del_placed : placed U0 a sb sd0 lb sc del_sd.
Proof using Type. left. done. Qed.

Lemma del_free : 0 <= free_size (b lb) + m /\ ds + (free_size (b lb) + m) <= block_size c.
Proof using All.
  pose proof del_bounds. destruct (body_bm c U0 a sd0 HB lb del_lb) as [Hw _].
  unfold bm_words in Hw. lia.
Qed.

Lemma del_tiles' l : 0 <= l < nact c -> exists js,
  NoDup js /\
  (forall j, j ∈ js <-> 0 <= j < max_num_files c /\ in_use (del_fm j) /\ lblock (del_fm j) = l) /\
  tiles del_fm (data_start (b l)) js
    (block_size c - (if l =? lb then free_size (b lb) + m else free_size (b l))).
Proof using All.
  intros Hl. destruct (del_tiles l Hl) as (js & H1 & H2 & H3). exists js.
  split; [done|]. split; [done|]. destruct (Z.eqb_spec l lb) as [->|]; [|done].
  by replace (block_size c - (free_size (b lb) + m)) with (e - m) by lia.
Qed.

Lemma del_fm_ok j : 0 <= j < max_num_files c ->
  fm_words (del_fm j) /\ its_mblock_validate_file_meta c (del_fm j) = PSA_SUCCESS.
Proof using All. intros Hj. split; [by apply del_fm_words|by apply del_fm_valid]. Qed.

Lemma del_fm_free j : 0 <= j < max_num_files c -> ~ in_use (del_fm j) -> flags (del_fm j) = 0.
Proof using All.
  intros Hj Hnu. destruct (Z.eq_dec j d) as [->|Hjd]; [unfold del_fm; by rewrite Z.eqb_refl|].
  destruct (del_fm_other j Hjd) as (_ & _ & _ & -> & _). apply (body_free c U0 a sd0 HB); [done|].
  intros Hx. apply Hnu. by apply del_fm_in_use.
Qed.

Lemma del_body : body c U sb del_sd.
Proof using All.
  eapply (rebuilt_body c wf U0 a sb sd0 HB Ha Hsb Hne U lb sc del_sd _ del_fm);
    eauto using del_lb, del_placed, del_free, del_fm_ok, del_fm_free, del_tiles'.
Qed.

(** The data of a surviving file of the updated block. *)
Lemma del_data j i : 0 <= j < max_num_files c -> j <> d -> in_use (f j) -> lblock (f j) = lb ->
  0 <= i < cur_size (f j) ->
  U sc (data_idx (del_fm j) + i) = U0 ph (data_idx (f j) + i).
Proof using All.
  intros Hj Hjd Huj Hlj Hi.
  destruct del_layout as (l1 & l2 & Hnd & Hin & H1 & H2 & Hl1 & Hl2).
  assert (Hr : forall k, k ∈ l1 ++ l2 -> 0 <= max_size (f k)).
  { intros k Hk. apply fm_nonneg. by apply Hin. }
  destruct (file_bounds c wf U0 a sd0 j HB Hj Huj) as (_ & _ & Hc & _).
  destruct (del_fm_other j Hjd) as (_ & _ & _ & _ & _ & ->).
  assert (Hjj : j ∈ l1 ++ l2) by (apply Hin; auto). apply elem_of_app in Hjj as [Hj1|Hj2].
  - rewrite decide_False by auto.
    destruct (tiles_bounds f _ _ _ j H1) as [Hb1 Hb2]; [set_solver|done|]. apply F_lo. lia.
  - destruct (tiles_bounds f _ _ _ j H2) as [Hb1 Hb2]; [set_solver|done|].
    destruct Hl2 as [[Hm Hmv]|(Hm & _ & Hmv)]; [|destruct (Hmv j Hj2); lia].
    rewrite decide_True by auto. rewrite F_hi by lia. f_equal. lia.
Qed.

Lemma del_files j : 0 <= j < max_num_files c ->
  file_at c U sb j = if j =? d then None else file_at c U0 a j.
Proof using All.
  intros Hj. destruct (Z.eqb_spec j d) as [->|Hjd].
  { unfold file_at. rewrite F_fm by done. rewrite decide_False; [done|].
    intros [? _]%del_fm_in_use. done. }
  destruct (Z.eq_dec (lblock (f j)) lb) as [Hlj|Hlj].
  - unfold file_at. rewrite F_fm by done.
    destruct (del_fm_other j Hjd) as (E1 & E2 & E3 & E4 & E5 & E6).
    pose proof (del_fm_in_use j) as Hiff.
    destruct (decide (in_use (f j))) as [Huj|Huj].
    2:{ rewrite decide_False; [done|]. tauto. }
    rewrite decide_True by tauto. rewrite E1, E2, E3, E4, E5. do 2 f_equal.
    destruct (rebuilt_bm c wf U0 a sb sd0 HB Ha Hsb Hne U lb sc del_sd (free_size (b lb) + m)
      del_fm del_lb del_placed del_free F_bm F_fm del_fm_ok del_fm_free del_tiles' lb del_lb) as (E & _).
    rewrite Hlj, E. apply mread_shift. intros i Hi.
    rewrite <- (del_data j i Hj Hjd Huj Hlj Hi). f_equal.
    unfold data_scratch. destruct (Z.eqb_spec lb 0) as [E0|]; [done|].
    by rewrite Z.eqb_refl.
  - eapply (other_file_same c wf U0 a sb sd0 HB Ha Hsb Hne U lb sc del_sd _ del_fm);
      eauto using del_lb, del_placed, del_free, del_fm_ok, del_fm_free, del_tiles'.
    unfold del_fm. destruct (Z.eqb_spec j d); [done|]. rewrite decide_False; [done|].
    intros (? & _). done.
Qed.
End DeletePlan.

(** * Internal Trusted Storage: deletion by index is correct and atomic *)

Section Delete.
Context {D : Type} (ops : its_flash_fs_ops_t D) (c : its_flash_fs_config_t).
Context (Vw : D -> view) (mf : Prop) {FS : FlashSpec c ops Vw mf} (wf : wf_cfg c).
Local Abbreviation st := (its_flash_fs_ctx_t * D)%type.
Local Abbreviation st_is := (st_is Vw).
Local Abbreviation on_fail := (on_fail Vw mf).
Local Abbreviation mounted := (mounted c).

(** [on_fail] for steps that may leave any context behind. *)
Definition fail_any (R : view -> Prop) (E : psa_status_t -> st -> Prop) : Prop :=
  forall e s' U', mf -> e <> PSA_SUCCESS -> same_view U' (Vw (snd s')) -> R U' -> E e s'.

Lemma fail_any_mono (R R' : view -> Prop) E :
  fail_any R E -> (forall U, R' U -> R U) -> fail_any R' E.
Proof. intros H HR e s' U' Hm He Hs Hr. apply (H e s' U'); auto. Qed.

Lemma fail_any_on_fail x (R R' : view -> Prop) E :
  fail_any R E -> (forall U, R' U -> R U) -> on_fail x R' E.
Proof. intros H HR e s' U' Hm He [_ Hs] Hr. apply (H e s' U'); auto. Qed.

Lemma fail_any_const R E e0 : e0 <> PSA_SUCCESS ->
  fail_any R E -> fail_any R (fun _ s' => E e0 s').
Proof. intros He H e s' U' Hm _ Hs Hr. by apply (H e0 s' U'). Qed.

(** Nothing changed outside two regions. *)
Definition only_in2 (b1 lo1 hi1 b2 lo2 hi2 : Z) (U U' : view) : Prop :=
  forall b i, ~ (b = b1 /\ lo1 <= i < hi1) -> ~ (b = b2 /\ lo2 <= i < hi2) -> U' b i = U b i.

Lemma with_scratch_id l x : with_scratch (scratch_dblock (meta_block_header x)) l x = x.
Proof. unfold with_scratch. destruct (l =? 0); destruct x as [? [] ? ?]; done. Qed.

Lemma with_scratch_twice p q l x : with_scratch p l (with_scratch q l x) = with_scratch p l x.
Proof. unfold with_scratch. by destruct (l =? 0). Qed.

Lemma with_scratch_back p l x : with_scratch
  (if l =? 0 then scratch_metablock x else scratch_dblock (meta_block_header x)) l
  (with_scratch p l x) = x.
Proof.
  unfold with_scratch. destruct (l =? 0); [done|]. destruct x as [? [] ? ?]; done.
Qed.

(** ** Compaction: two copies, then the block table *)
Lemma compact_block_spec x a sb U s l sz src dst n Q (E : psa_status_t -> st -> Prop) :
  let bm := bm_at (U a) l in
  let sc := if l =? 0 then scratch_metablock x else scratch_dblock (meta_block_header x) in
  let ph := phy_id bm in
  st_is x U s -> mounted x a sb -> 0 <= l < nact c -> bm_valid c (U a) ->
  sc <> ph \/ dst + n <= data_start bm -> 0 <= sc < num_blocks c -> 0 <= sz ->
  data_start bm + (free_size bm + sz) <= block_size c ->
  data_start bm <= dst -> 0 <= n -> dst + n <= block_size c ->
  (0 < n -> 0 <= src /\ src + n <= block_size c) ->
  erased c U sc (data_start bm) (dst + n - data_start bm) ->
  erased c U sb 8 (foff c 0 - 8) -> (l = 0 -> foff c 0 <= data_start bm) ->
  (l <> 0 -> sc <> sb) -> a <> sc ->
  (forall s' U', st_is (with_scratch ph l x) U' s' ->
     only_in2 sc (data_start bm) (dst + n) sb 8 (foff c 0) U U' ->
     (forall i, data_start bm <= i < dst -> U' sc i = U ph i) ->
     (forall i, dst <= i < dst + n -> U' sc i = U ph (src + (i - dst))) ->
     (forall l', 0 <= l' < nact c -> bm_at (U' sb) l' =
        updated_bm U a sb l (set_phy_id sc (set_free_size (free_size bm + sz) bm)) l') ->
     Q tt s') ->
  fail_any (only_in2 sc (data_start bm) (dst + n) sb 8 (foff c 0) U) E ->
  wp (its_flash_fs_dblock_compact_block ops l sz src dst n) s Q E.
Proof.
  intros bm sc ph Hst Hm Hl Hv Hscph Hsc Hsz Hfree Hds Hn Hdst Hsrc He He8 Hl0 Hscsb Hasc HQ HE.
  pose proof Hm as (Hc & Ha & Hs & Hma & Hms & Hne).
  destruct (Hv l Hl) as [Hw Hval]. pose proof Hw as (W1 & W2 & W3). fold bm in W1, W2, W3, Hval.
  pose proof Hval as Hval'. apply (validate_block_meta_iff wf) in Hval' as (V1 & V2 & V3); [|done].
  pose proof (wf_bs c wf). fold ph in W1, V1.
  unfold its_flash_fs_dblock_compact_block.
  apply wp_bind. use read_block_metadata_spec; [exact Hst|exact Hm|done|done| |].
  2:{ eapply fail_any_on_fail; [exact HE|]. intros V HV b i _ _. apply HV. }
  intros s1 Hst1. fold bm.
  apply wp_bind. use cur_data_scratch_id_spec; [exact Hst1|]. fold sc.
  rewrite (u32_small (free_size bm + sz)) by lia.
  cbn [phy_id data_start set_free_size]. fold ph.
  (* the files behind the hole *)
  apply wp_bind. apply wp_mono with
    (Q := fun _ s' => exists U1, st_is x U1 s' /\ only_in sc dst (dst + n) U U1 /\
       (forall i, dst <= i < dst + n -> U1 sc i = U ph (src + (i - dst)))) (E := E).
  { destruct (n >? 0) eqn:En.
    - apply wp_on_err. use block_to_block_move_spec; [exact Hst1|done|destruct Hscph; [done|lia]| | | | |].
      + unfold in_block. lia.
      + unfold in_block. lia.
      + intros i Hi. apply He. lia.
      + intros s2 Hst2. eexists. split; [exact Hst2|].
        split; [apply only_in_copy|]. intros i Hi. by rewrite blk_copy_in.
      + apply on_fail_const; [done|]. eapply fail_any_on_fail; [exact HE|].
        intros V HV b i G1 G2. apply HV. intros [-> Hi]. apply G1. split; [done|lia].
    - apply wp_ret. exists U. split; [exact Hst1|]. split; [apply only_in_refl|]. intros; lia. }
  2: done.
  intros [] s2 (U1 & Hst2 & Ho1 & Hd1).
  (* the files before the hole *)
  apply wp_bind. apply wp_mono with
    (Q := fun _ s' => exists U2, st_is x U2 s' /\ only_in sc (data_start bm) (dst + n) U U2 /\
       (forall i, data_start bm <= i < dst -> U2 sc i = U ph i) /\
       (forall i, dst <= i < dst + n -> U2 sc i = U ph (src + (i - dst)))) (E := E).
  { destruct (dst >? data_start bm) eqn:En.
    - rewrite u32_small by lia.
      apply wp_on_err. use block_to_block_move_spec; [exact Hst2|done|destruct Hscph; [done|lia]| | | | |].
      + unfold in_block. lia.
      + unfold in_block. lia.
      + eapply erased_only_in; [exact Ho1|lia|]. intros i Hi. apply He. lia.
      + intros s3 Hst3. eexists. split; [exact Hst3|]. split; [|split].
        * eapply only_in_trans; [eapply only_in_mono; [exact Ho1|lia|lia]|].
          eapply only_in_mono; [apply only_in_copy|lia|lia].
        * intros i Hi. rewrite blk_copy_in by lia. destruct Hscph; [|lia]. rewrite Ho1 by (intros []; congruence).
          f_equal. lia.
        * intros i Hi. transitivity (U1 sc i); [apply only_in_copy; lia|by apply Hd1].
      + apply on_fail_const; [done|]. eapply fail_any_on_fail; [exact HE|].
        intros V HV b i G1 G2. rewrite HV; [apply Ho1|]; intros [-> Hi]; apply G1; (split; [done|lia]).
    - apply wp_ret. exists U1. split; [exact Hst2|].
      split; [eapply only_in_mono; [exact Ho1|lia|lia]|]. split; [intros; lia|done]. }
  2: done.
  intros [] s3 (U2 & Hst3 & Ho2 & Hd2 & Hd3).
  apply wp_bind. use set_data_scratch_spec; [exact Hst3|]. intros s4 Hst4.
  assert (Ha2 : forall i, U2 a i = U a i) by (intros i; apply Ho2; intros []; done).
  assert (Hbm0 : forall k, bm_at (U2 a) k = bm_at (U a) k) by (intros k; apply bm_at_ext; auto).
  pose proof (nact_bounds wf). destruct (Hv 0) as [Hw0 Hv0]; [lia|].
  pose proof (mend_bounds wf). pose proof (wf_meta c wf). pose proof (wf_nf c wf).
  assert (Hf0 : 8 <= foff c 0 <= mend c) by (unfold mend, foff in *; lia).
  assert (Hb2 : forall U3, only_in sb 8 (foff c 0) U2 U3 ->
    only_in2 sc (data_start bm) (dst + n) sb 8 (foff c 0) U U3).
  { intros U3 HU b i G1 G2. rewrite HU by done. apply Ho2. done. }
  apply wp_bind, wp_attempt.
  use update_scratch_block_meta_spec;
    [exact Hst4|by apply mounted_with_scratch|done| |by rewrite Hbm0|by rewrite Hbm0| | |].
  { pose proof (wf_nb c wf). apply bm_words_phy; [lia|]. unfold bm_words.
    cbn [phy_id data_start free_size set_free_size]. fold ph. lia. }
  { eapply erased_only_in; [exact Ho2| |exact He8].
    destruct (Z.eq_dec l 0) as [->|Hln]; [specialize (Hl0 eq_refl); lia|].
    specialize (Hscsb Hln). lia. }
  - intros s5 U5 Hst5 Ho5 Hbm5.
    assert (Hfin : forall s6, st_is (with_scratch ph l x) U5 s6 -> Q tt s6).
    { intros s6 Hst6. eapply (HQ s6 U5 Hst6); auto.
      - intros i Hi. rewrite Ho5; [by apply Hd2|].
        intros [Esc Hi5]. destruct (Z.eq_dec l 0) as [->|Hln]; [|by apply Hscsb].
        specialize (Hl0 eq_refl). lia.
      - intros i Hi. rewrite Ho5; [by apply Hd3|].
        intros [Esc Hi5]. destruct (Z.eq_dec l 0) as [->|Hln]; [|by apply Hscsb].
        specialize (Hl0 eq_refl). lia.
      - intros l' Hl'. rewrite Hbm5 by done. unfold updated_bm. by rewrite !Hbm0. }
    destruct (Z.eqb_spec l ITS_LOGICAL_DBLOCK0) as [->|Hln]; simpl.
    + apply wp_ret. by apply Hfin.
    + use dev_flush_spec; [exact Hst5|exact (proj1 (mounted_with_scratch c ph l x a sb Hm))| |].
      * intros s6 Hst6. by apply Hfin.
      * eapply fail_any_on_fail; [exact HE|]. intros V HV b i G1 G2.
        rewrite HV. by apply (Hb2 U5).
  - intros e s5 U5 Hmf He0 Hst5 Ho5. apply wp_bind.
    use set_data_scratch_spec; [exact Hst5|]. intros s6 [_ Hs6]. apply wp_fail.
    by apply (HE e s6 U5); auto.
Qed.

(** ** Failures while only scratch blocks have changed *)
Lemma stage_fail a sb U0 T0 T1 E : holds c U0 a T0 -> is_metablock sb -> a <> sb ->
  fail_any (crash_ok c T0 T1) E -> fail_any (stage c sb (scratch_dblock (hdr_at (U0 a))) U0) E.
Proof.
  intros HH Hsb Hne HE. eapply fail_any_mono; [exact HE|]. intros V HV.
  eapply (stage_crash_ok c wf a sb U0 V V); eauto. apply HV. lia.
Qed.

Lemma only_in2_stage sb sd U0 U b1 lo1 hi1 U' lo2 hi2 :
  stage c sb sd U0 U -> (b1 = sb /\ 8 <= lo1) \/ (scratch_data c sd b1 /\ b1 <> sb) -> 8 <= lo2 ->
  only_in2 b1 lo1 hi1 sb lo2 hi2 U U' -> stage c sb sd U0 U'.
Proof.
  intros [H1 H2] Hb Hlo Ho. split.
  - intros b i Hn Hsd. rewrite Ho; [by apply H1| |by intros []].
    intros [-> _]. destruct Hb as [[? _]|[? _]]; done.
  - intros i Hi. rewrite Ho; [by apply H2| |lia].
    intros [Eb Hi']. destruct Hb as [[_ ?]|[_ ?]]; [lia|done].
Qed.
End Delete.

Section DeleteIdx.
Context {D : Type} (ops : its_flash_fs_ops_t D) (c : its_flash_fs_config_t).
Context (Vw : D -> view) (mf : Prop) {FS : FlashSpec c ops Vw mf} (wf : wf_cfg c).
Local Abbreviation st := (its_flash_fs_ctx_t * D)%type.
Local Abbreviation st_is := (st_is Vw).
Local Abbreviation on_fail := (on_fail Vw mf).
Local Abbreviation mounted := (mounted c).
Local Abbreviation fail_any := (fail_any Vw mf).

Context (x : its_flash_fs_ctx_t) (a sb sd0 : Z) (U0 : view).
Context (Hm : mounted x a sb) (HB : body c U0 a sd0).
Context (Hma : is_metablock a) (Hms : is_metablock sb) (Hne : a <> sb).
Context (d : Z) (Hd : 0 <= d < max_num_files c) (Hu : in_use (fm_at c (U0 a) d)).
Context (Hna : no_alias c (U0 a) d).
Local Abbreviation f := (fm_at c (U0 a)).
Local Abbreviation b := (bm_at (U0 a)).
Local Abbreviation lb := (lblock (f d)).
Local Abbreviation p := (data_idx (f d)).
Local Abbreviation m := (max_size (f d)).
Local Abbreviation mv := (del_moved c U0 a d).
#[local] Existing Instance del_moved_dec.
Local Abbreviation plan L := (L c wf U0 a sb sd0 HB Hma Hms Hne d Hd Hu Hna) (only parsing).

(** ** The table scan *)
Record scan_inv (k : Z) (acc : Z * Z) (U : view) : Prop := {
  scan_only : only_in sb (foff c 0) (mend c) U0 U;
  scan_done : forall j, 0 <= j < max_num_files c -> j < k \/ j = d ->
    fm_at c (U sb) j = del_fm c U0 a d j;
  scan_todo : forall j, k <= j < max_num_files c -> j <> d -> erased c U sb (foff c j) 32;
  scan_src : fst acc = block_size c \/
    exists j, 0 <= j < k /\ mv j /\ fst acc = data_idx (f j);
  scan_min : forall j, 0 <= j < k -> mv j -> fst acc <= data_idx (f j);
  scan_nbr : snd acc = zsum (fun j => max_size (f j)) (entries mv k)
}.

Lemma delete_scan_spec k acc U s Q (E : psa_status_t -> st -> Prop) :
  0 <= k < max_num_files c -> st_is x U s -> scan_inv k acc U ->
  (forall acc' s' U', st_is x U' s' -> scan_inv (k + 1) acc' U' -> Q (inr acc') s') ->
  on_fail x (only_in sb (foff c 0) (mend c) U0) E ->
  wp (its_flash_fs_delete_scan ops d lb p m k acc) s Q E.
Proof using All.
  intros Hk Hst [S1 S2 S3 S4 S5 S6] HQ HE. destruct acc as [src nbr]. cbn [fst snd] in *.
  pose proof Hm as (Hc & Ha & Hs & _).
  assert (Hfa : forall j, fm_at c (U a) j = f j).
  { intros j. apply fm_at_ext. intros i _. apply S1. intros []. done. }
  unfold its_flash_fs_delete_scan. destruct (Z.eqb_spec k d) as [->|Hkd].
  { apply wp_ret. apply (HQ _ s U Hst). split; cbn [fst snd]; auto.
    - intros j Hj Hjk. apply S2; [done|]. lia.
    - intros j Hj Hjd. apply S3; [lia|done].
    - destruct S4 as [?|(j & ? & ?)]; [by left|right]. exists j. split; [lia|done].
    - intros j Hj Hmv. apply S5; [|done]. destruct Hmv as (_ & _ & ?). assert (j <> d) by (intros ->; lia). lia.
    - rewrite S6. rewrite zsum_entries_step by lia. rewrite decide_False; [lia|].
      intros (_ & _ & ?). lia. }
  destruct (body_fm c U0 a sd0 HB k Hk) as [Hw Hv].
  apply wp_bind. use read_file_meta_spec; [exact Hst|exact Hm|done|by rewrite Hfa| |].
  2:{ eapply on_fail_mono; [exact HE|]. intros V HV b' i Hi. rewrite HV. by apply S1. }
  intros s1 Hst1. rewrite Hfa.
  assert (Hmv : ((lblock (f k) =? lb) && (its_utils_validate_fid (id (f k)) =? PSA_SUCCESS) &&
    (data_idx (f k) >? p)) = bool_decide (mv k)).
  { destruct (bool_decide_reflect (mv k)) as [Hmv|Hmv]; unfold del_moved, in_use in Hmv; lia. }
  rewrite Hmv. rewrite (bool_decide_decide (mv k)). clear Hmv.
  assert (Hfm : (if (if decide (mv k) then true else false)
    then set_data_idx (u32 (data_idx (f k) - m)) (f k) else f k) = del_fm c U0 a d k).
  { unfold del_fm. replace (k =? d) with false by lia. case_decide as Hmk; [|done].
    pose proof (plan del_moved_ge k Hk Hmk).
    pose proof (plan del_bounds).
    unfold fm_words in Hw. rewrite u32_small by lia. done. }
  rewrite Hfm. clear Hfm.
  apply wp_bind. use update_scratch_file_meta_spec;
    [exact Hst1|exact Hm|done|by apply (plan del_fm_words)|apply S3; [lia|done]| |].
  2:{ eapply on_fail_mono; [exact HE|]. intros V HV. eapply only_in_trans; [exact S1|].
      eapply only_in_mono; [exact HV|unfold foff; lia|unfold mend, foff; lia]. }
  intros s2 U2 Hst2 Ho2 Hf2. apply wp_ret. apply (HQ _ s2 U2 Hst2). split; cbn [fst snd].
  - eapply only_in_trans; [exact S1|].
    eapply only_in_mono; [exact Ho2|unfold foff; lia|unfold mend, foff; lia].
  - intros j Hj Hjk. destruct (Z.eq_dec j k) as [->|Hjne]; [done|].
    rewrite (fm_at_only_in c U U2 _ _ _ sb j Ho2) by (unfold foff; lia). apply S2; [done|lia].
  - intros j Hj Hjd. eapply erased_only_in; [exact Ho2|unfold foff; lia|]. apply S3; [lia|done].
  - case_decide as Hmk; cbn [andb].
    + destruct (src >? data_idx (f k)) eqn:Es.
      * right. exists k. split; [lia|]. split; [exact Hmk|reflexivity].
      * destruct S4 as [?|(j & ? & ?)]; [by left|right]. exists j. split; [lia|done].
    + destruct S4 as [?|(j & ? & ?)]; [by left|right]. exists j. split; [lia|done].
  - intros j Hj Hmj. case_decide as Hmk; cbn [andb].
    + destruct (Z.eq_dec j k) as [->|Hjne].
      * destruct (src >? data_idx (f k)) eqn:Es; lia.
      * specialize (S5 j ltac:(lia) Hmj). destruct (src >? data_idx (f k)) eqn:Es; lia.
    + destruct (Z.eq_dec j k) as [->|Hjne]; [done|]. apply S5; [lia|done].
  - rewrite zsum_entries_step by lia. rewrite <- S6. case_decide as Hmk; [|lia].
    apply u32_small. pose proof (plan del_sum) as Hsum.
    assert (Hnn : forall j, 0 <= j < max_num_files c -> 0 <= max_size (f j)).
    { intros j Hj. by apply (fm_nonneg c U0 a sd0 HB). }
    pose proof (zsum_entries_mono (fun j => max_size (f j)) mv (k + 1) (max_num_files c)) as Hmono.
    rewrite zsum_entries_step in Hmono by lia. rewrite decide_True in Hmono by done.
    pose proof (plan del_bounds).
    assert (0 <= nbr).
    { rewrite S6. apply zsum_nonneg. intros j [_ Hj]%elem_of_entries. apply Hnn. lia. }
    specialize (Hmono ltac:(lia) ltac:(auto)). cbv beta in Hmono. rewrite <- S6 in Hmono.
    specialize (Hnn k Hk). lia.
Qed.

(** ** The data and the block table *)
Context (Hsd : scratch_dblock (meta_block_header x) = sd0).
Context (He0 : erased c U0 sb 0 (block_size c)).
Context (He1 : num_blocks c > 2 -> erased c U0 sd0 0 (block_size c)).
Local Abbreviation sc := (data_scratch sb sd0 lb).
Local Abbreviation ph := (phy_id (b lb)).
Local Abbreviation ds := (data_start (b lb)).
Local Abbreviation e := (block_size c - free_size (b lb)).

Lemma sc_facts : (sc <> ph \/ e <= ds) /\ 0 <= sc < num_blocks c /\ erased c U0 sc 0 (block_size c) /\
  (lb = 0 -> ds = mend c /\ sc = sb) /\ (lb <> 0 -> sc <> sb /\ ds = 0 /\ scratch_data c sd0 sc) /\
  a <> sc.
Proof using All.
  pose proof (del_lb c wf U0 a sd0 HB d Hd Hu) as Hlb. pose proof (metablock_lt wf sb Hms).
  pose proof (data_start_eq c wf U0 a sd0 HB Hma lb Hlb) as Hds.
  unfold data_scratch. unfold is_metablock in Hma, Hms.
  destruct (Z.eqb_spec lb 0) as [E|E].
  - rewrite E in *. split; [|repeat split; try done; try lia].
    destruct (body_phy0 c U0 a sd0 HB) as [->|[_ ->]]; [left; congruence|right]. lia.
  - pose proof (nb_dedicated c wf lb ltac:(lia)) as Hnb.
    pose proof (body_sd c U0 a sd0 HB Hnb). pose proof (body_phy c U0 a sd0 HB lb ltac:(lia)).
    split; [left; intros ?; by apply H1|]. split; [lia|]. split; [by apply He1|].
    split; [done|]. split; [|lia]. intros _. split; [lia|]. split; [done|]. done.
Qed.

(** What the scratch blocks hold before the commit. *)
Record del_built (U : view) : Prop := {
  built_bm : forall l, 0 <= l < nact c -> bm_at (U sb) l =
    updated_bm U0 a sb lb (new_bm U0 a lb sc (free_size (b lb) + m)) l;
  built_fm : forall j, 0 <= j < max_num_files c -> fm_at c (U sb) j = del_fm c U0 a d j;
  built_stage : stage c sb sd0 U0 U;
  built_lo : forall i, ds <= i < p -> U sc i = U0 ph i;
  built_hi : forall i, p <= i < e - m -> U sc i = U0 ph (i + m);
  built_mig : lb <> 0 -> forall i, mend c <= i < block_size c - free_size (b 0) ->
    U sb i = U0 a i
}.

Lemma bm_valid_active : bm_valid c (U0 a).
Proof using HB. intros l Hl. by apply (body_bm c U0 a sd0 HB). Qed.

Lemma scan_end acc U : scan_inv (max_num_files c) acc U ->
  snd acc = e - (p + m) /\ (0 < snd acc -> fst acc = p + m).
Proof using All.
  intros [S1 S2 S3 S4 S5 S6]. rewrite S6, (plan del_sum). split; [done|]. intros Hpos.
  destruct (plan del_src Hpos) as (j & Hj & Hmv & Hdj). specialize (S5 j Hj Hmv).
  pose proof (plan del_bounds).
  destruct S4 as [E|(k & Hk & Hmk & E)]; [lia|].
  pose proof (plan del_moved_ge k Hk Hmk). lia.
Qed.

Lemma delete_copies_spec acc U s Q (E : psa_status_t -> st -> Prop) :
  st_is x U s -> scan_inv (max_num_files c) acc U ->
  (forall s' U', st_is (with_scratch ph lb x) U' s' -> del_built U' -> Q tt s') ->
  fail_any (stage c sb sd0 U0) E ->
  wp (do! its_flash_fs_dblock_compact_block ops lb m (fst acc) p (snd acc) in
      if negb (lb =? ITS_LOGICAL_DBLOCK0) then
        its_flash_fs_mblock_migrate_lb0_data_to_scratch ops or_return PSA_ERROR_GENERIC_ERROR
      else ret tt) s Q E.
Proof using All.
  intros Hst HS HQ HE. pose proof HS as [S1 S2 _ _ _ _].
  destruct (scan_end acc U HS) as [Hn Hsrc].
  destruct sc_facts as (F1 & F2 & F3 & F4 & F5 & F6).
  pose proof (plan del_bounds) as HBd. pose proof (del_lb c wf U0 a sd0 HB d Hd Hu) as Hlb.
  pose proof (mend_bounds wf) as Hmend. pose proof (wf_meta c wf) as Hmeta.
  pose proof (wf_nf c wf) as Hnf.
  assert (Hf0 : 8 <= foff c 0 <= mend c) by (pose proof (nact_bounds wf); unfold mend, foff in *; lia).
  assert (Hfs : stage c sb sd0 U0 U).
  { eapply stage_only_in; [split| |]; [done|intros i Hi; apply He0; lia|exact S1|left; lia]. }
  assert (Ha : forall i, U a i = U0 a i) by (intros i; apply S1; by intros []).
  assert (Hb : forall l, bm_at (U a) l = b l) by (intros l; by apply bm_at_ext).
  assert (Hph' : forall i, ds <= i < e -> U ph i = U0 ph i).
  { intros i Hi. destruct (Z.eq_dec lb 0) as [E0|E0].
    - destruct (F4 E0) as [Hds0 _]. rewrite E0 in Hi, Hds0 |- *.
      rewrite (body_phy0_used c U0 a sd0 i HB) by lia. apply Ha.
    - apply S1. intros [E1 _]. pose proof (phy_dedicated c wf U0 a sd0 HB lb ltac:(lia)).
      unfold is_metablock in Hms. lia. }
  assert (Hsc : sc = if lb =? 0 then scratch_metablock x else scratch_dblock (meta_block_header x)).
  { unfold data_scratch. rewrite Hsd. by destruct Hm as (_ & _ & -> & _). }
  pose proof Hsc as Hsc'.
  apply wp_bind. use (compact_block_spec ops c Vw mf);
    [exact Hst|exact Hm|done|..]; rewrite <- ?Hsc, ?Hb; try done; try lia.
  { intros l Hl. rewrite Hb. by apply bm_valid_active. }
  { eapply erased_only_in; [exact S1| |intros i Hi; apply F3; lia].
    destruct (Z.eq_dec lb 0) as [E0|E0]; [destruct (F4 E0); lia|destruct (F5 E0); by left]. }
  { eapply erased_only_in; [exact S1|right; lia|intros i Hi; apply He0; lia]. }
  2:{ eapply fail_any_mono; [exact HE|]. intros V HV.
      eapply only_in2_stage; [exact Hfs| | |exact HV]; [|lia].
      destruct (Z.eq_dec lb 0) as [E0|E0]; [left; destruct (F4 E0); lia|right].
      destruct (F5 E0) as (? & ? & ?). done. }
  intros s1 U1 Hst1 Ho1 Hlo1 Hhi1 Hbm1.
  assert (Hbuild : forall s2 U2, st_is (with_scratch ph lb x) U2 s2 ->
    (forall b' i, ~ (lb <> 0 /\ b' = sb /\ mend c <= i < block_size c) -> U2 b' i = U1 b' i) ->
    (lb <> 0 -> forall i, mend c <= i < block_size c - free_size (b 0) -> U2 sb i = U0 a i) ->
    Q tt s2).
  { intros s2 U2 Hst2 Ho2 Hmig. apply (HQ s2 U2 Hst2). split; [| | | | |done].
    - intros l Hl. rewrite (bm_at_ext (U1 sb) (U2 sb)).
      + rewrite Hbm1 by done. unfold updated_bm. by rewrite !Hb.
      + intros i Hi. apply Ho2. unfold boff, foff in *. lia.
    - intros j Hj. rewrite <- (S2 j Hj) by lia. apply fm_at_ext. intros i Hi.
      assert (Hi' : foff c 0 <= i < mend c) by (unfold mend, foff in *; lia).
      rewrite Ho2 by lia. apply Ho1; [|lia]. intros [Esb Hi2].
      destruct (Z.eq_dec lb 0) as [E0|E0]; [destruct (F4 E0); lia|destruct (F5 E0) as [? _]; congruence].
    - assert (Hfs1 : stage c sb sd0 U0 U1).
      { eapply only_in2_stage; [exact Hfs| | |exact Ho1]; [|lia].
        destruct (Z.eq_dec lb 0) as [E0|E0]; [left; destruct (F4 E0); lia|right].
        destruct (F5 E0) as (? & ? & ?). done. }
      eapply (stage_only_in c sb sd0 U0 U1 U2 sb (mend c) (block_size c)); [done| |left; lia].
      intros b' i Hx. apply Ho2. tauto.
    - intros i Hi. rewrite Ho2; [|intros (E0 & Esb & _); by destruct (F5 E0)].
      rewrite Hlo1 by lia. apply Hph'. lia.
    - intros i Hi. rewrite Ho2; [|intros (E0 & Esb & _); by destruct (F5 E0)].
      rewrite Hhi1 by lia. rewrite Hsrc by lia. rewrite Hph' by lia. f_equal. lia. }
  change ITS_LOGICAL_DBLOCK0 with 0. destruct (Z.eqb_spec lb 0) as [E0|E0]; simpl.
  { apply wp_ret. apply (Hbuild s1 U1 Hst1); [done|]. intros; done. }
  destruct (F5 E0) as (G1 & G2 & G3).
  assert (Ha1 : forall i, U1 a i = U0 a i).
  { intros i. rewrite Ho1; [apply Ha|intros []; done|intros []; done]. }
  pose proof (nact_bounds wf).
  destruct (bm_valid_active 0) as [Hw0 Hv0]; [lia|].
  assert (Hb1 : bm_at (U1 a) 0 = b 0) by (apply bm_at_ext; intros; apply Ha1).
  apply wp_on_err. use migrate_lb0_spec;
    [exact Hst1|by apply mounted_with_scratch|by rewrite Hb1|by rewrite Hb1| | | |].
  { rewrite Hb1. by apply (body_phy0_meta c U0 a sd0). }
  { intros i Hi. rewrite Ho1; [|by intros []|lia]. rewrite S1 by lia. apply He0. lia. }
  2:{ eapply fail_any_on_fail; [apply fail_any_const; [done|exact HE]|]. intros V HV.
      eapply stage_only_in; [|exact HV|left; lia].
      eapply only_in2_stage; [exact Hfs| | |exact Ho1]; [by right|lia]. }
  intros s2 Hst2. rewrite Hb1 in Hst2. apply (Hbuild s2 _ Hst2).
  - intros b' i Hx. apply only_in_copy. intros [-> Hi]. apply Hx.
    destruct (bm0_valid c wf U0 a sd0 HB Hma) as (K1 & K2 & K3). split; [done|]. split; [done|]. lia.
  - intros _ i Hi. rewrite blk_copy_in by lia. rewrite Ha1. f_equal. lia.
Qed.

(** ** The whole deletion, up to the commit *)
Lemma delete_build_spec s Q (E : psa_status_t -> st -> Prop) :
  st_is x U0 s ->
  (forall s' U', st_is (with_scratch ph lb x) U' s' -> del_built U' ->
     wp (its_flash_fs_mblock_meta_update_finalize ops) s' Q E) ->
  fail_any (stage c sb sd0 U0) E ->
  wp (its_flash_fs_delete_idx ops d) s Q E.
Proof using All.
  intros Hst HQ HE. pose proof Hm as (Hc & Ha & Hs & _). pose proof (wf_meta c wf).
  assert (Hf : forall j, 0 <= j < max_num_files c -> 8 <= foff c 0 /\ foff c 0 <= foff c j /\
    foff c j + 32 <= mend c).
  { intros j Hj. pose proof (nact_bounds wf). unfold mend, foff. lia. }
  assert (Hst0 : stage c sb sd0 U0 U0) by (split; [done|intros i Hi; apply He0; pose proof (Hf d Hd); lia]).
  destruct (body_fm c U0 a sd0 HB d Hd) as [Hw Hv].
  unfold its_flash_fs_delete_idx. apply wp_bind. use get_ctx_spec; [exact Hst|]. rewrite Hc.
  apply wp_bind. use read_file_meta_spec; [exact Hst|exact Hm|done|done| |].
  2:{ eapply fail_any_on_fail; [exact HE|]. intros V HV.
      eapply (stage_only_in c sb sd0 U0 U0 V sb 8 8); [done| |left; lia]. intros b' i _. apply HV. }
  intros s1 Hst1. unfold in_use in Hu. rewrite Hu. change (PSA_SUCCESS =? PSA_SUCCESS) with true.
  cbn [negb].
  apply wp_bind. use update_scratch_file_meta_spec;
    [exact Hst1|exact Hm|done|apply empty_file_meta_words| | |].
  { intros i Hi. apply He0. specialize (Hf d Hd). lia. }
  2:{ eapply fail_any_on_fail; [exact HE|]. intros V HV.
      eapply stage_only_in; [exact Hst0|exact HV|left]. specialize (Hf d Hd). lia. }
  intros s2 U2 Hst2 Ho2 Hf2.
  apply wp_bind. apply wp_mfor with (I := fun k acc s' => exists U, st_is x U s' /\ scan_inv k acc U).
  - exists U2. split; [done|]. specialize (Hf d Hd) as Hfd. split; cbn [fst snd].
    + eapply only_in_mono; [exact Ho2|lia|lia].
    + intros j Hj [?| ->]; [lia|]. rewrite Hf2. unfold del_fm. by rewrite Z.eqb_refl.
    + intros j Hj Hjd. eapply erased_only_in; [exact Ho2|unfold foff; lia|].
      intros i Hi. apply He0. specialize (Hf j ltac:(lia)). lia.
    + by left.
    + intros; lia.
    + done.
  - intros k acc s3 Hk (U & Hst3 & HS).
    eapply wp_mono; [eapply (delete_scan_spec k acc U) with
      (Q := fun r s' => exists acc', r = inr acc' /\ exists U', st_is x U' s' /\ scan_inv (k + 1) acc' U')
      (E := E); [lia|exact Hst3|exact HS| |]| |done].
    + intros acc' s' U' Hst' HS'. eauto 6.
    + eapply fail_any_on_fail; [exact HE|]. intros V HV.
      eapply stage_only_in; [exact Hst0|exact HV|left]. specialize (Hf d Hd). lia.
    + intros r s' (acc' & -> & HU'). exact HU'.
  - intros acc s3 (U & Hst3 & HS). destruct acc as [src nbr].
    rewrite Z.add_0_l, Z2Nat.id in HS by apply (wf_nf c wf).
    pose proof (delete_copies_spec (src, nbr) U s3
      (fun _ s' => wp (its_flash_fs_mblock_meta_update_finalize ops) s' Q E) E Hst3 HS) as Hgo.
    cbn [fst snd] in Hgo. specialize (Hgo HQ HE).
    apply wp_bind. apply wp_bind_inv in Hgo. eapply wp_mono; [exact Hgo| |done].
    intros [] s4 Hs4. apply wp_bind. exact Hs4.
Qed.
End DeleteIdx.

Section DeleteSpec.
Context {D : Type} (ops : its_flash_fs_ops_t D) (c : its_flash_fs_config_t).
Context (Vw : D -> view) (mf : Prop) {FS : FlashSpec c ops Vw mf} (wf : wf_cfg c).
Local Abbreviation st := (its_flash_fs_ctx_t * D)%type.

(** The table without file [d]. *)
Definition table_delete (d : Z) (T : table) : table := fun j => if j =? d then None else T j.

(** Deletion of entry [d]: on success the filesystem is mounted on the
    other metadata block and holds every other file unchanged; on failure
    the device failed and what it holds is the old or the new table. *)
Lemma delete_idx_spec x a sb U T d s Q (E : psa_status_t -> st -> Prop) :
  st_is Vw x U s -> fs_inv c x a sb U T ->
  0 <= d < max_num_files c -> in_use (fm_at c (U a) d) -> no_alias c (U a) d ->
  (forall s' x' U', st_is Vw x' U' s' -> fs_inv c x' sb a U' (table_delete d T) -> Q tt s') ->
  fail_any Vw mf (crash_ok c T (table_delete d T)) E ->
  wp (its_flash_fs_delete_idx ops d) s Q E.
Proof.
  intros Hst [Hm HH Hh He0 He1] Hd Hu Hna HQ HE.
  pose proof Hm as (Hc & Ha & Hs & Hma & Hms & Hne). pose proof HH as [HI HT].
  pose proof (image_body c U a HI) as HB. destruct Hh as (Hh1 & Hh2 & Hh3).
  pose proof (image_words c U a HI) as Hwords. pose proof (image_hdr c U a HI) as Hok.
  apply hdr_ok_validate, hdr_ok_iff in Hok as [Hver Hcnt].
  set (sd0 := scratch_dblock (hdr_at (U a))) in *.
  eapply (delete_build_spec ops c Vw mf wf x a sb sd0 U); eauto.
  - intros s' U' Hst' [B1 B2 B3 B4 B5 B6].
    pose proof (del_lb c wf U a sd0 HB d Hd Hu) as Hlb.
    set (lb := lblock (fm_at c (U a) d)) in *.
    assert (HB' : body c U' sb (del_sd c U a sd0 d)).
    { eapply (del_body c wf U a sb sd0 HB Hma Hms Hne d Hd Hu Hna U'); eauto. apply B3. }
    assert (Hx : meta_block_header (with_scratch (phy_id (bm_at (U a) lb)) lb x) =
      set_scratch_dblock (del_sd c U a sd0 d) (meta_block_header x)).
    { unfold with_scratch, del_sd. fold lb. destruct (lb =? 0); [|done].
      rewrite <- Hh1. by destruct (meta_block_header x). }
    eapply (commit_spec ops c Vw mf wf _ a sb U U' T (table_delete d T));
      [exact HH|by apply mounted_with_scratch|exact Hst'|exact B3|..].
    + rewrite Hx. destruct Hwords as (W1 & W2 & W3).
      split; [|split]; cbn [set_scratch_dblock scratch_dblock fs_version active_swap_count];
        [|by rewrite Hh2|by rewrite Hh3].
      unfold del_sd. fold lb. destruct (Z.eqb_spec lb 0); [done|].
      pose proof (phy_dedicated c wf U a sd0 HB lb ltac:(lia)). pose proof (wf_nb c wf). lia.
    + rewrite Hx. cbn [set_scratch_dblock fs_version]. by rewrite Hh2.
    + rewrite Hx. cbn [set_scratch_dblock active_swap_count]. done.
    + rewrite Hx. exact HB'.
    + intros j Hj. unfold table_delete. rewrite <- HT by done.
      eapply (del_files c wf U a sb sd0 HB Hma Hms Hne d Hd Hu Hna U'); eauto. apply B3.
    + intros s2 x2 U2 Hst2 Hinv. by apply (HQ s2 x2 U2).
    + exact HE.
  - apply (stage_fail c Vw mf wf a sb U T (table_delete d T)); auto.
Qed.
End DeleteSpec.
