(* ===== verification/ItsWrite.v ===== *)
(** * Internal Trusted Storage: the steps of a file write

    Specifications of the lookup and reservation, of the data part and of the
    metadata part of its_flash_fs_file_write. *)

From Stdlib Require Import ZArith List Lia Bool.
From stdpp Require Import base tactics list sets.
From S2P Require Import Prelude ItsUtils ItsFlash ItsMblock ItsFs ItsImage ItsDevSpec.
From S2P Require Import ItsMblockSpec ItsLookupSpec ItsCommit ItsFinalize ItsRebuild.
From S2P Require Import ItsDeletePlan ItsRebuild.
From S2P Require Import ItsDeletePlan.
Import ListNotations.
Local Open Scope Z_scope.

(** ** What a write decides before it touches the data *)
Section Plan.
Context (c : its_flash_fs_config_t).

Definition lookup_idx (m : mem) (fid : list Z) : option Z :=
  first_idx (fun j => fid_eqb (id (fm_at c m j)) fid) (nfiles c) 0.

(** The entry, metadata and block of a new file. *)
Definition plan_new (m : mem) (fid : list Z) (use_spare : bool) (fl ms : Z) :
    res (Z * its_file_meta_t * its_block_meta_t) :=
  if ms >? max_file_size c then Err PSA_ERROR_INVALID_ARGUMENT
  else match fitting_block c m ms,
             free_idx (fun j => is_free (fm_at c m j)) (nfiles c) 0 use_spare with
       | Some l, Some j => Ok (j, fst (reserved c fid ms fl l (bm_at m l)),
                                  snd (reserved c fid ms fl l (bm_at m l)))
       | _, _ => Err PSA_ERROR_INSUFFICIENT_STORAGE
       end.

(** Does the write replace the file it found by a new one? *)
Definition replaces (m : mem) (fl ms o : Z) : bool :=
  has_flag fl ITS_FLASH_FS_FLAG_TRUNCATE && negb (max_size (fm_at c m o) =? ms).

Definition write_plan (m : mem) (fid : list Z) (fl ms : Z) :
    res (Z * its_file_meta_t * its_block_meta_t) :=
  match lookup_idx m fid with
  | Some o =>
      if replaces m fl ms o then plan_new m fid true fl ms
      else
        let fm := fm_at c m o in
        Ok (o, if has_flag fl ITS_FLASH_FS_FLAG_TRUNCATE
               then set_flags fl (set_cur_size 0 fm) else fm,
            bm_at m (lblock fm))
  | None =>
      if negb (has_flag fl ITS_FLASH_FS_FLAG_CREATE) then Err PSA_ERROR_DOES_NOT_EXIST
      else plan_new m fid false fl ms
  end.

(** The index the code calls [old_idx]. *)
Definition plan_old (m : mem) (fid : list Z) : Z :=
  default ITS_METADATA_INVALID_INDEX (lookup_idx m fid).

(** The flags of the other entries: a replaced file is marked for deletion. *)
Definition plan_flags (m : mem) (fid : list Z) (fl ms j : Z) : Z :=
  let old := flags (fm_at c m j) in
  match lookup_idx m fid with
  | Some o => if (j =? o) && replaces m fl ms o then Z.lor old ITS_FLASH_FS_FLAG_DELETE else old
  | None => old
  end.

Lemma lookup_idx_some m fid o : lookup_idx m fid = Some o ->
  0 <= o < max_num_files c /\ id (fm_at c m o) = fid.
Proof.
  unfold lookup_idx, nfiles. intros H. apply first_idx_some in H as (H1 & H2 & _).
  split; [lia|]. unfold fid_eqb in H2. by apply bool_decide_eq_true in H2.
Qed.

Lemma plan_new_ext m m' fid b fl ms : (forall i, m' i = m i) ->
  plan_new m' fid b fl ms = plan_new m fid b fl ms.
Proof.
  intros H. unfold plan_new, fitting_block.
  assert (Hb : forall l, bm_at m' l = bm_at m l) by (intros l; by apply bm_at_ext).
  assert (Hf : forall j, fm_at c m' j = fm_at c m j) by (intros j; by apply fm_at_ext).
  rewrite (first_idx_ext _ (fun l => free_size (bm_at m l) >=? ms)) by (intros; by rewrite Hb).
  rewrite (free_idx_ext _ (fun j => is_free (fm_at c m j))) by (intros; by rewrite Hf).
  destruct (_ >? _); [done|]. destruct (first_idx _ _ _); [|done]. by rewrite Hb.
Qed.

Lemma lookup_idx_none m fid j : lookup_idx m fid = None -> 0 <= j < max_num_files c ->
  id (fm_at c m j) <> fid.
Proof.
  unfold lookup_idx, nfiles. intros H Hj. pose proof (first_idx_none _ _ _ H j ltac:(lia)) as Hf.
  unfold fid_eqb in Hf. by apply bool_decide_eq_false in Hf.
Qed.
End Plan.

Section WriteSteps.
Context {D : Type} (ops : its_flash_fs_ops_t D) (c : its_flash_fs_config_t).
Context (Vw : D -> view) (mf : Prop) {FS : FlashSpec c ops Vw mf} (wf : wf_cfg c).
Context (ITS_FLASH_MAX_ALIGNMENT : Z).
Local Abbreviation st := (its_flash_fs_ctx_t * D)%type.
Local Abbreviation st_is := (st_is Vw).
Local Abbreviation on_fail := (on_fail Vw mf).
Local Abbreviation mounted := (mounted c).
Local Abbreviation fail_any := (fail_any Vw mf).

(** ** The data part *)

(** The size written to flash. *)
Definition aligned_size (size : Z) : Z :=
  if ITS_FLASH_MAX_ALIGNMENT =? 1 then size else ITS_UTILS_ALIGN size (program_unit c).

(** The checks of its_flash_fs_file_write_aligned_data. *)
Definition write_args_ok (F : its_file_meta_t) (offset size : Z) : bool :=
  ((ITS_FLASH_MAX_ALIGNMENT =? 1) || ITS_UTILS_IS_ALIGNED offset (program_unit c)) &&
  (offset <=? cur_size F) &&
  (its_utils_check_contained_in (max_size F) offset (aligned_size size) =? PSA_SUCCESS).

(** The content of the scratch block [sc] after the data has been written. *)
Record data_written (U : view) (sc ph ds e p m off asize : Z) (data : list Z) (U' : view) : Prop := {
  written_only : only_in sc ds e U U';
  written_before : forall i, ds <= i < p + off -> U' sc i = U ph i;
  written_data : forall i, p + off <= i < p + off + asize -> U' sc i = byte_at data (i - (p + off));
  written_gap : forall i, p + off + asize <= i < p + m -> U' sc i = U sc i;
  written_after : forall i, p + m <= i < e -> U' sc i = U ph i
}.

Lemma dblock_write_file_spec x a sb U s bm F off asize data Q (E : psa_status_t -> st -> Prop) :
  let sc := if lblock F =? 0 then scratch_metablock x else scratch_dblock (meta_block_header x) in
  let e := block_size c - free_size bm in
  st_is x U s -> mounted x a sb ->
  sc <> phy_id bm \/ (data_idx F + off <= data_start bm /\ e <= data_idx F + max_size F) ->
  0 <= sc < num_blocks c ->
  0 <= phy_id bm < num_blocks c ->
  0 <= data_start bm <= data_idx F -> 0 <= off -> 0 <= asize -> off + asize <= max_size F ->
  data_idx F + max_size F <= e -> 0 <= free_size bm -> asize <= Z.of_nat (length data) ->
  erased c U sc (data_start bm) (e - data_start bm) ->
  (forall s' U', st_is x U' s' ->
     data_written U sc (phy_id bm) (data_start bm) e (data_idx F) (max_size F) off asize data U' ->
     Q tt s') ->
  fail_any (only_in sc (data_start bm) e U) E ->
  wp (its_flash_fs_dblock_write_file ops bm F off asize data) s Q E.
Proof.
  intros sc e Hst Hm Hne Hsc Hph Hds Hoff Has Hom Hpm Hfr Hlen He HQ HE.
  pose proof Hm as (Hc & _). pose proof (wf_bs c wf).
  unfold its_flash_fs_dblock_write_file.
  apply wp_bind. use get_ctx_spec; [exact Hst|]. rewrite Hc.
  apply wp_bind. use cur_data_scratch_id_spec; [exact Hst|]. fold sc.
  rewrite (u32_small (data_idx F + off)), (u32_small (data_idx F + max_size F)),
    (u32_small (block_size c - free_size bm)) by lia. fold e.
  rewrite (u32_small (data_idx F + off - data_start bm)), (u32_small (e - _)) by lia.
  apply wp_bind. use block_move0_spec; [exact Hst|done|lia|unfold in_block; lia
    |unfold in_block; lia|intros i Hi; apply He; lia| |].
  2:{ eapply fail_any_on_fail; [exact HE|]. intros V HV. eapply only_in_mono; [exact HV|lia|lia]. }
  intros s1 Hst1. set (U1 := blk_copy _ _ _ _ _ _) in Hst1.
  assert (Ho1 : only_in sc (data_start bm) (data_idx F + off) U U1).
  { eapply only_in_mono; [apply only_in_copy|lia|lia]. }
  apply wp_bind. use dev_write_spec; [exact Hst1|done|unfold in_block; lia|lia| | |].
  { eapply erased_only_in; [exact Ho1|lia|]. intros i Hi. apply He. lia. }
  2:{ eapply fail_any_on_fail; [exact HE|]. intros V (k & Hk & ->).
      eapply only_in_trans; [eapply only_in_mono; [exact Ho1|lia|lia]|].
      eapply only_in_mono; [apply only_in_write|lia|lia]. }
  intros s2 Hst2. set (U2 := blk_write _ _ _ _ _) in Hst2.
  assert (Ho2 : only_in sc (data_idx F + off) (data_idx F + off + asize) U1 U2) by apply only_in_write.
  apply wp_bind. use block_move0_spec; [exact Hst2|done|lia|unfold in_block; lia
    |unfold in_block; lia| | |].
  { eapply erased_only_in; [exact Ho2|lia|]. eapply erased_only_in; [exact Ho1|lia|].
    intros i Hi. apply He. lia. }
  2:{ eapply fail_any_on_fail; [exact HE|]. intros V HV.
      eapply only_in_trans; [eapply only_in_mono; [exact Ho1|lia|lia]|].
      eapply only_in_trans; eapply only_in_mono; eauto; lia. }
  intros s3 Hst3. set (U3 := blk_copy _ _ _ _ _ _) in Hst3.
  assert (Ho3 : only_in sc (data_idx F + max_size F) e U2 U3).
  { eapply only_in_mono; [apply only_in_copy|lia|lia]. }
  assert (Hw : data_written U sc (phy_id bm) (data_start bm) e (data_idx F) (max_size F) off asize data U3).
  { split.
    - eapply only_in_trans; [eapply only_in_mono; [exact Ho1|lia|lia]|].
      eapply only_in_trans; eapply only_in_mono; eauto; lia.
    - intros i Hi. rewrite Ho3, Ho2 by lia. unfold U1. rewrite blk_copy_in by lia. f_equal. lia.
    - intros i Hi. rewrite Ho3 by lia. unfold U2. by rewrite blk_write_in by lia.
    - intros i Hi. rewrite Ho3, Ho2, Ho1 by lia. done.
    - intros i Hi. unfold U3. rewrite blk_copy_in by lia. rewrite Ho2, Ho1 by lia. f_equal. lia. }
  destruct (negb (lblock F =? ITS_LOGICAL_DBLOCK0)).
  - use dev_flush_spec; [exact Hst3|done| |].
    + intros s4 Hst4. by apply (HQ s4 U3).
    + eapply fail_any_on_fail; [exact HE|]. intros V HV b i Hi. rewrite HV.
      by apply (written_only _ _ _ _ _ _ _ _ _ _ _ Hw).
  - apply wp_ret. by apply (HQ s3 U3).
Qed.

(** With arguments that pass the checks the aligned write is the data write. *)
Lemma write_aligned_data_spec x U s bm F off size data Q (E : psa_status_t -> st -> Prop) :
  st_is x U s -> cfg x = c ->
  (write_args_ok F off size = true ->
     wp (its_flash_fs_dblock_write_file ops bm F off (aligned_size size) data) s Q E) ->
  (write_args_ok F off size = false -> E PSA_ERROR_INVALID_ARGUMENT s) ->
  wp (its_flash_fs_file_write_aligned_data ops ITS_FLASH_MAX_ALIGNMENT bm F off size data) s Q E.
Proof.
  intros Hst Hc Hok Hbad. unfold its_flash_fs_file_write_aligned_data.
  apply wp_bind. use get_ctx_spec; [exact Hst|]. rewrite Hc.
  unfold write_args_ok, aligned_size in *.
  destruct (ITS_FLASH_MAX_ALIGNMENT =? 1); cbn [negb andb orb] in *;
    [|destruct (ITS_UTILS_IS_ALIGNED off (program_unit c)); cbn [negb andb] in *;
      [|apply wp_fail; by apply Hbad]].
  all: destruct (off >? cur_size F) eqn:E1;
    [replace (off <=? cur_size F) with false in * by lia; apply wp_fail; by apply Hbad|].
  all: replace (off <=? cur_size F) with true in * by lia; cbn [andb] in *.
  all: destruct (_ =? PSA_SUCCESS); cbn [negb]; [by apply Hok|apply wp_fail; by apply Hbad].
Qed.

(** ** Lookup and reservation *)
Context (x : its_flash_fs_ctx_t) (a sb sd0 : Z) (U0 : view).
Context (Hm : mounted x a sb) (HB : body c U0 a sd0).
Context (He0 : erased c U0 sb 0 (block_size c)).
Context (Hmax : max_num_files c < ITS_METADATA_INVALID_INDEX).
Context (fid : list Z) (fl ms : Z).
Local Abbreviation f := (fm_at c (U0 a)).

(** The view once a file to be replaced has been marked. *)
Definition marked (V : view) : Prop :=
  match lookup_idx c (U0 a) fid with
  | Some o => if replaces c (U0 a) fl ms o
              then only_in sb (foff c o) (foff c o + 32) U0 V /\
                   fm_at c (V sb) o =
                     set_flags (Z.lor (flags (f o)) ITS_FLASH_FS_FLAG_DELETE) (f o)
              else same_view U0 V
  | None => same_view U0 V
  end.

Lemma flag_range v : 0 <= v < 2 ^ 32 -> 0 <= Z.lor v ITS_FLASH_FS_FLAG_DELETE < 2 ^ 32.
Proof.
  intros Hv. split; [apply Z.lor_nonneg; unfold ITS_FLASH_FS_FLAG_DELETE; lia|].
  destruct (Z.eq_dec v 0) as [->|Hv0]; [done|].
  assert (0 < Z.lor v ITS_FLASH_FS_FLAG_DELETE).
  { assert (0 <= Z.lor v ITS_FLASH_FS_FLAG_DELETE)
      by (apply Z.lor_nonneg; unfold ITS_FLASH_FS_FLAG_DELETE; lia).
    destruct (Z.eq_dec (Z.lor v ITS_FLASH_FS_FLAG_DELETE) 0) as [E|]; [|lia].
    apply Z.lor_eq_0_iff in E. lia. }
  apply Z.log2_lt_pow2; [done|]. unfold ITS_FLASH_FS_FLAG_DELETE. rewrite Z.log2_lor by lia.
  assert (Z.log2 v < 32) by (apply Z.log2_lt_pow2; lia).
  change (Z.log2 (2 ^ 24)) with 24. lia.
Qed.

Lemma set_flags_words v m : 0 <= v < 2 ^ 32 -> fm_words m -> fm_words (set_flags v m).
Proof. intros Hv (H1 & H2 & H3 & H4 & _ & H6). repeat split; cbn; try lia. Qed.

Lemma body_fm_valid : fm_valid c (U0 a).
Proof using HB. intros j Hj. by apply (body_fm c U0 a sd0 HB). Qed.

Lemma write_lookup_spec s Q (E : psa_status_t -> st -> Prop) :
  st_is x U0 s ->
  match lookup_idx c (U0 a) fid with
  | Some o => forall s' V, st_is x V s' -> marked V ->
      Q (o, if replaces c (U0 a) fl ms o then None
            else Some (o, if has_flag fl ITS_FLASH_FS_FLAG_TRUNCATE
                          then set_flags fl (set_cur_size 0 (f o)) else f o)) s'
  | None => forall s' V, st_is x V s' -> marked V ->
      if has_flag fl ITS_FLASH_FS_FLAG_CREATE
      then Q (ITS_METADATA_INVALID_INDEX, None) s' else E PSA_ERROR_DOES_NOT_EXIST s'
  end ->
  fail_any (stage c sb sd0 U0) E ->
  wp (its_flash_fs_file_write_lookup ops fid fl ms) s Q E.
Proof using All.
  intros Hst HQ HE. pose proof Hm as (Hc & Ha & Hs & Hma & Hms & Hne).
  pose proof (mend_bounds wf). pose proof (wf_meta c wf). pose proof (nact_bounds wf).
  assert (Hst0 : stage c sb sd0 U0 U0) by (split; [done|intros i Hi; apply He0; lia]).
  assert (Hfs : forall V, same_view U0 V -> stage c sb sd0 U0 V).
  { intros V HV. eapply (stage_only_in c sb sd0 U0 U0 V sb 8 8); [done| |left; lia].
    intros b' i _. apply HV. }
  unfold its_flash_fs_file_write_lookup.
  apply wp_bind, wp_attempt. use mblock_find_spec; [exact Hst|exact Hm|apply body_fm_valid| |].
  2:{ intros s1 Hmf [_ Hs1]. change (PSA_ERROR_GENERIC_ERROR =? PSA_ERROR_DOES_NOT_EXIST) with false.
      apply wp_fail. by apply (HE _ _ U0). }
  intros s1 Hst1. fold (lookup_idx c (U0 a) fid).
  destruct (lookup_idx c (U0 a) fid) as [o|] eqn:Eo.
  - pose proof (lookup_idx_some c _ _ _ Eo) as [Ho Hid].
    destruct (body_fm c U0 a sd0 HB o Ho) as [Hw Hv].
    apply wp_bind, wp_on_err. use read_file_meta_spec; [exact Hst1|exact Hm|done|done| |].
    2:{ eapply fail_any_on_fail; [apply fail_any_const; [done|exact HE]|apply Hfs]. }
    intros s2 Hst2. unfold marked in HQ. rewrite Eo in HQ. unfold replaces in HQ.
    destruct (has_flag fl ITS_FLASH_FS_FLAG_TRUNCATE); cbn [andb] in HQ |- *.
    2:{ apply wp_ret. by apply (HQ s2 U0). }
    destruct (max_size (f o) =? ms); cbn [negb] in HQ |- *.
    { apply wp_ret. by apply (HQ s2 U0). }
    assert (Hfo : 8 <= foff c o /\ foff c o + 32 <= block_size c) by (unfold mend, foff in *; lia).
    apply wp_bind, wp_on_err. use update_scratch_file_meta_spec; [exact Hst2|exact Hm|done| | | |].
    { apply set_flags_words; [apply flag_range; unfold fm_words in Hw; tauto|done]. }
    { intros i Hi. apply He0. lia. }
    2:{ eapply fail_any_on_fail; [apply fail_any_const; [done|exact HE]|]. intros V HV.
        eapply stage_only_in; [exact Hst0|exact HV|left; lia]. }
    intros s3 V Hst3 Ho3 Hf3. apply wp_ret. by apply (HQ s3 V).
  - change (PSA_ERROR_DOES_NOT_EXIST =? PSA_ERROR_DOES_NOT_EXIST) with true. cbv iota.
    unfold marked in HQ. rewrite Eo in HQ. specialize (HQ s1 U0 Hst1 ltac:(done)).
    destruct (has_flag fl ITS_FLASH_FS_FLAG_CREATE); cbn [negb]; [by apply wp_ret|by apply wp_fail].
Qed.

Lemma marked_active V : a <> sb -> marked V -> forall i, V a i = U0 a i.
Proof using Type.
  intros Hne HV i. unfold marked in HV. destruct (lookup_idx c (U0 a) fid) as [o|]; [|apply HV].
  destruct (replaces c (U0 a) fl ms o); [|apply HV].
  destruct HV as [HV _]. apply HV. intros [? _]. done.
Qed.

Lemma write_place_spec s V old reuse Q (E : psa_status_t -> st -> Prop) :
  st_is x V s -> marked V ->
  match reuse with
  | None => forall s', st_is x V s' ->
      match plan_new c (U0 a) fid (negb (old =? ITS_METADATA_INVALID_INDEX)) fl ms with
      | Ok r => Q r s'
      | Err e => E e s'
      end
  | Some (o, fm) => 0 <= lblock fm < nact c /\
      forall s', st_is x V s' -> Q (o, fm, bm_at (U0 a) (lblock fm)) s'
  end ->
  (forall e s', mf -> e <> PSA_SUCCESS -> st_is x V s' -> E e s') ->
  wp (its_flash_fs_file_write_place ops fid fl ms old reuse) s Q E.
Proof using All.
  intros Hst HV HQ HE. pose proof Hm as (Hc & Ha & Hs & Hma & Hms & Hne).
  pose proof (marked_active V Hne HV) as HVa.
  assert (Hbm : forall l, bm_at (V a) l = bm_at (U0 a) l) by (intros l; by apply bm_at_ext).
  assert (Hfm : forall j, fm_at c (V a) j = f j) by (intros j; by apply fm_at_ext).
  assert (Hbv : bm_valid c (V a)).
  { intros l Hl. rewrite Hbm. by apply (body_bm c U0 a sd0 HB). }
  assert (Hfv : fm_valid c (V a)).
  { intros j Hj. rewrite Hfm. by apply (body_fm c U0 a sd0 HB). }
  unfold its_flash_fs_file_write_place.
  apply wp_bind. use get_ctx_spec; [exact Hst|]. rewrite Hc.
  destruct reuse as [[o fm]|].
  - destruct HQ as [Hl HQ]. apply wp_bind, wp_on_err.
    use read_block_metadata_spec; [exact Hst|exact Hm|done|by apply Hbv| |].
    + intros s1 Hst1. apply wp_ret. rewrite Hbm. by apply HQ.
    + intros e s' U' Hmf Hne0 Hs' HU'. apply HE; [done|done|].
      eapply st_is_ext; [exact Hs'|]. intros b i. symmetry. apply HU'.
  - rewrite <- (plan_new_ext c (U0 a) (V a) fid _ fl ms HVa) in HQ. unfold plan_new in HQ.
    destruct (ms >? max_file_size c); [apply wp_fail; by apply HQ|].
    use reserve_file_spec; [exact Hst|exact Hm|exact Hbv|exact Hfv| | |exact Hmax].
    + intros s' Hs'. specialize (HQ s' Hs'). destruct (fitting_block _ _ _); [|done].
      destruct (free_idx _ _ _ _); done.
    + intros s' Hmf Hs'. by apply HE.
Qed.
End WriteSteps.

(** * Internal Trusted Storage: the metadata part of a file write *)

Section WriteTable.
Context {D : Type} (ops : its_flash_fs_ops_t D) (c : its_flash_fs_config_t).
Context (Vw : D -> view) (mf : Prop) {FS : FlashSpec c ops Vw mf} (wf : wf_cfg c).
Local Abbreviation st := (its_flash_fs_ctx_t * D)%type.
Local Abbreviation st_is := (st_is Vw).
Local Abbreviation on_fail := (on_fail Vw mf).
Local Abbreviation mounted := (mounted c).
Local Abbreviation fail_any := (fail_any Vw mf).

Context (x : its_flash_fs_ctx_t) (a sb : Z) (V : view) (nf : Z -> its_file_meta_t).
Context (Hm : mounted x a sb).

(** The entries [S] of the scratch file table are written, the others erased. *)
Record table_progress (S : Z -> Prop) (V' : view) : Prop := {
  tp_only : only_in sb (foff c 0) (mend c) V V';
  tp_done : forall j, 0 <= j < max_num_files c -> S j -> fm_at c (V' sb) j = nf j;
  tp_todo : forall j, 0 <= j < max_num_files c -> ~ S j -> erased c V' sb (foff c j) 32
}.

Lemma table_progress_ext S S' V' : (forall j, 0 <= j < max_num_files c -> S j <-> S' j) ->
  table_progress S V' -> table_progress S' V'.
Proof using Type.
  intros H [H1 H2 H3]. split; [done| |]; intros j Hj Hs.
  - apply H2; [done|]. by apply H.
  - apply H3; [done|]. by rewrite H.
Qed.

Lemma table_progress_mono S V1 V2 j : 0 <= j < max_num_files c ->
  table_progress S V1 -> ~ S j -> only_in sb (foff c j) (foff c j + 32) V1 V2 ->
  fm_at c (V2 sb) j = nf j -> table_progress (fun k => S k \/ k = j) V2.
Proof using wf.
  intros Hj [H1 H2 H3] HS Ho Hf. pose proof (nact_bounds wf). split.
  - eapply only_in_trans; [exact H1|]. eapply only_in_mono; [exact Ho|unfold foff; lia|].
    unfold mend, foff. lia.
  - intros k Hk [Hs| ->]; [|done].
    destruct (Z.eq_dec k j) as [->|Hne]; [done|].
    rewrite (fm_at_only_in c V1 V2 _ _ _ sb k Ho) by (unfold foff; lia). by apply H2.
  - intros k Hk Hs. eapply erased_only_in; [exact Ho| |apply H3; [done|tauto]].
    destruct (Z.eq_dec k j) as [->|]; [tauto|]. unfold foff. lia.
Qed.

(** Copying a range of the table. *)
Lemma cp_progress_spec S V1 s i j Q (E : psa_status_t -> st -> Prop) :
  st_is x V1 s -> table_progress S V1 -> 0 <= i <= j -> j <= max_num_files c ->
  (forall k, i <= k < j -> ~ S k /\ nf k = fm_at c (V a) k) ->
  (forall s' V2, st_is x V2 s' -> table_progress (fun k => S k \/ i <= k < j) V2 -> Q tt s') ->
  fail_any (only_in sb (foff c 0) (mend c) V) E ->
  wp (its_flash_fs_mblock_cp_file_meta ops i j) s Q E.
Proof using All.
  intros Hst [H1 H2 H3] Hi Hj Hk HQ HE. pose proof Hm as (Hc & Ha & Hs & Hma & Hms & Hne).
  pose proof (nact_bounds wf).
  assert (Hin : forall V2, only_in sb (foff c i) (foff c j) V1 V2 -> only_in sb (foff c 0) (mend c) V V2).
  { intros V2 Ho. eapply only_in_trans; [exact H1|].
    eapply only_in_mono; [exact Ho|unfold foff; lia|unfold mend, foff; lia]. }
  use cp_file_meta_spec; [exact Hst|exact Hm|done|done| | |].
  - intros o Ho. set (k := (o - foff c 0) / 32).
    assert (Hko : foff c k <= o < foff c k + 32).
    { unfold k, foff. pose proof (Z.div_mod (o - (8 + 12 * nact c + 32 * 0)) 32).
      pose proof (Z.mod_pos_bound (o - (8 + 12 * nact c + 32 * 0)) 32). lia. }
    assert (i <= k < j) by (unfold foff in *; lia).
    apply (H3 k); [lia|by apply Hk|lia].
  - intros s' V2 Hst2 Ho Hf. apply (HQ s' V2 Hst2). split; [by apply Hin| |].
    + intros k Hkr [Hs'|Hkij].
      * destruct (decide (i <= k < j)) as [Hd|Hd]; [by destruct (Hk k Hd)|].
        rewrite (fm_at_only_in c V1 V2 _ _ _ sb k Ho) by (unfold foff; lia). by apply H2.
      * rewrite Hf by done. destruct (Hk k Hkij) as [_ ->]. apply fm_at_ext.
        intros o Ho'. apply H1. intros []. done.
    + intros k Hkr Hns. eapply erased_only_in; [exact Ho|unfold foff; lia|]. apply H3; [done|tauto].
  - eapply fail_any_on_fail; [exact HE|]. intros U' HU'. by apply Hin.
Qed.

End WriteTable.

(** ** Every table entry of a write *)
Section WriteMeta.
Context {D : Type} (ops : its_flash_fs_ops_t D) (c : its_flash_fs_config_t).
Context (Vw : D -> view) (mf : Prop) {FS : FlashSpec c ops Vw mf} (wf : wf_cfg c).
Local Abbreviation st := (its_flash_fs_ctx_t * D)%type.
Local Abbreviation st_is := (st_is Vw).
Local Abbreviation on_fail := (on_fail Vw mf).
Local Abbreviation mounted := (mounted c).
Local Abbreviation fail_any := (fail_any Vw mf).
Local Abbreviation table_progress := (table_progress c).

Context (x : its_flash_fs_ctx_t) (a sb : Z) (V : view) (nf : Z -> its_file_meta_t).
Context (Hm : mounted x a sb).
Context (n old : Z) (bm : its_block_meta_t) (lb : Z).
Context (Hn : 0 <= n < max_num_files c) (Hmax : max_num_files c < ITS_METADATA_INVALID_INDEX).
Context (Hold : old = ITS_METADATA_INVALID_INDEX \/ 0 <= old < max_num_files c).
Definition two : Prop := old <> ITS_METADATA_INVALID_INDEX /\ old <> n.
Context (Hlb : 0 <= lb < nact c) (Hbmw : bm_words bm).
Context (Hbv : bm_valid c (V a)) (Hphy0 : is_metablock (phy_id (bm_at (V a) 0))).
Context (Hwn : fm_words (nf n)).
Context (Hnf : forall j, 0 <= j < max_num_files c -> j <> n -> ~ (two /\ j = old) ->
  nf j = fm_at c (V a) j).
Context (He8 : erased c V sb 8 (foff c 0 - 8)).
Context (HS0 : table_progress sb V nf (fun j => two /\ j = old) V).
Context (F : its_file_meta_t) (HF : nf n = F) (HFl : lblock F = lb) (data_size : Z).
Definition migrates : Prop := lb <> 0 \/ data_size = 0.
Context (Hem : migrates -> erased c V sb (mend c) (block_size c - mend c)).

(** The scratch metadata block before the commit. *)
Record meta_written (V' : view) : Prop := {
  mw_only : only_in sb 8 (block_size c) V V';
  mw_data : ~ migrates -> only_in sb 8 (mend c) V V';
  mw_bm : forall l, 0 <= l < nact c -> bm_at (V' sb) l = updated_bm V a sb lb bm l;
  mw_fm : forall j, 0 <= j < max_num_files c -> fm_at c (V' sb) j = nf j;
  mw_mig : migrates -> forall i, mend c <= i < block_size c ->
    V' sb i = if i <? block_size c - free_size (bm_at (V a) 0) then V a i else erase_val c
}.

Lemma write_tables_spec s (Q : unit -> st -> Prop) E (K : M st unit) :
  st_is x V s ->
  (forall s' V', st_is x V' s' -> only_in sb 8 (mend c) V V' ->
     (forall l, 0 <= l < nact c -> bm_at (V' sb) l = updated_bm V a sb lb bm l) ->
     (forall j, 0 <= j < max_num_files c -> fm_at c (V' sb) j = nf j) -> wp K s' Q E) ->
  fail_any (only_in sb 8 (mend c) V) E ->
  wp (do! its_flash_fs_mblock_update_scratch_block_meta ops lb bm
        or_return PSA_ERROR_GENERIC_ERROR in
      do! its_flash_fs_mblock_update_scratch_file_meta ops n F
        or_return PSA_ERROR_GENERIC_ERROR in
      let idx := ITS_UTILS_MIN n old in
      do! its_flash_fs_mblock_cp_file_meta ops 0 idx or_return PSA_ERROR_GENERIC_ERROR in
      let tw := negb (old =? ITS_METADATA_INVALID_INDEX) && negb (old =? n) in
      do! (if tw then
             its_flash_fs_mblock_cp_file_meta ops (u32 (idx + 1)) (ITS_UTILS_MAX n old)
               or_return PSA_ERROR_GENERIC_ERROR
           else ret tt) in
      let idx := if tw then ITS_UTILS_MAX n old else idx in
      do! its_flash_fs_mblock_cp_file_meta ops (u32 (idx + 1)) (max_num_files c)
        or_return PSA_ERROR_GENERIC_ERROR in
      K) s Q E.
Proof using All.
  intros Hst HQ HE. pose proof Hm as (Hc & Ha & Hs & Hma & Hms & Hne).
  pose proof (nact_bounds wf). pose proof (mend_bounds wf). pose proof (wf_meta c wf).
  assert (HEc : fail_any (only_in sb 8 (mend c) V) (fun _ s' => E PSA_ERROR_GENERIC_ERROR s'))
    by (by apply fail_any_const).
  destruct (Hbv 0) as [Hw0 Hv0]; [lia|].
  assert (Hf0 : 8 <= foff c 0 <= mend c) by (unfold mend, foff in *; lia).
  apply wp_bind, wp_on_err.
  use update_scratch_block_meta_spec; [exact Hst|exact Hm|done|done|done|done|done| |].
  2:{ eapply fail_any_on_fail; [exact HEc|]. intros U' HU'. eapply only_in_mono; [exact HU'|lia|lia]. }
  intros s1 V1 Hst1 Ho1 Hb1.
  assert (Ho18 : only_in sb 8 (mend c) V V1) by (eapply only_in_mono; [exact Ho1|lia|lia]).
  assert (Hfm1 : forall j, fm_at c (V1 a) j = fm_at c (V a) j).
  { intros j. apply fm_at_ext. intros i _. apply Ho1. by intros []. }
  assert (HS1 : table_progress sb V1 nf (fun j => two /\ j = old) V1).
  { destruct HS0 as [T1 T2 T3]. split.
    - apply only_in_refl.
    - intros j Hj Hs'. rewrite (fm_at_only_in c V V1 _ _ _ sb j Ho1) by (unfold foff; lia). by apply T2.
    - intros j Hj Hs'. eapply erased_only_in; [exact Ho1|unfold foff; lia|]. by apply T3. }
  assert (HE1 : fail_any (only_in sb (foff c 0) (mend c) V1) (fun _ s' => E PSA_ERROR_GENERIC_ERROR s')).
  { eapply fail_any_mono; [exact HEc|]. intros U' HU'. eapply only_in_trans; [exact Ho18|].
    eapply only_in_mono; [exact HU'|lia|lia]. }
  apply wp_bind, wp_on_err.
  use update_scratch_file_meta_spec; [exact Hst1|exact Hm|done|by rewrite <- HF| | |].
  { apply (tp_todo _ _ _ _ _ _ HS1); [done|]. unfold two. intros [[] ?]; done. }
  2:{ eapply fail_any_on_fail; [exact HE1|]. intros U' HU'.
      eapply only_in_mono; [exact HU'|unfold foff; lia|unfold mend, foff; lia]. }
  intros s2 V2 Hst2 Ho2 Hf2.
  assert (HS2 : table_progress sb V1 nf (fun j => (two /\ j = old) \/ j = n) V2).
  { eapply table_progress_mono; [done|done|exact HS1|unfold two; intros [[] ?]; done|exact Ho2|congruence]. }
  clear HS1. cbv zeta. rewrite its_min_spec, its_max_spec.
  assert (Hinv : n < ITS_METADATA_INVALID_INDEX) by lia.
  assert (Hmax2 : max_num_files c < 65535) by exact Hmax.
  assert (Hcp : forall k, 0 <= k < max_num_files c -> k <> n -> ~ (two /\ k = old) ->
    nf k = fm_at c (V1 a) k) by (intros k Hk1 Hk2 Hk3; rewrite Hfm1; by apply Hnf).
  apply wp_bind, wp_on_err.
  eapply cp_progress_spec; [exact FS|exact wf|exact Hm|exact Hst2|exact HS2|lia|lia| | |exact HE1].
  { intros k Hk. split; [unfold two; lia|]. apply Hcp; unfold two; lia. }
  intros s3 V3 Hst3 HS3.
  (* the rest of the table, from the entry after the last one written *)
  assert (Hrest : forall s' V' k, st_is x V' s' -> n < k <= max_num_files c ->
    table_progress sb V1 nf (fun j => j < k) V' -> (two -> old < k) ->
    wp (do! its_flash_fs_mblock_cp_file_meta ops k (max_num_files c)
          or_return PSA_ERROR_GENERIC_ERROR in K) s' Q E).
  { intros s' V' k Hst' Hk HS' Hk2. apply wp_bind, wp_on_err.
    eapply cp_progress_spec; [exact FS|exact wf|exact Hm|exact Hst'|exact HS'|lia|lia| | |exact HE1].
    { intros j Hj. split; [lia|]. apply Hcp; [lia|lia|]. intros [Ht ->]. specialize (Hk2 Ht). lia. }
    intros s5 V5 Hst5 [T1 T2 T3]. apply (HQ s5 V5 Hst5).
    - eapply only_in_trans; [exact Ho18|]. eapply only_in_mono; [exact T1|lia|lia].
    - intros l Hl. rewrite (bm_at_only_in V1 V5 _ _ _ sb l T1); [by apply Hb1|].
      right; left. unfold boff, foff. lia.
    - intros j Hj. apply T2; [done|lia]. }
  destruct (negb (old =? ITS_METADATA_INVALID_INDEX) && negb (old =? n)) eqn:Etw.
  - assert (Htw : two) by (unfold two; lia). destruct Hold as [?|Hold']; [unfold two in Htw; lia|].
    apply wp_bind. rewrite !(u32_small (_ + 1)) by lia. apply wp_on_err.
    eapply cp_progress_spec; [exact FS|exact wf|exact Hm|exact Hst3|exact HS3|lia|lia| | |exact HE1].
    { intros k Hk. split; [lia|]. apply Hcp; lia. }
    intros s4 V4 Hst4 HS4. apply (Hrest s4 V4); [done|lia| |lia].
    eapply table_progress_ext; [|exact HS4]. intros j Hj. cbv beta. unfold two in *. lia.
  - assert (Htw : ~ two) by (unfold two; lia). apply wp_bind, wp_ret.
    rewrite (u32_small (_ + 1)) by lia.
    assert (Hmin : Z.min n old = n) by (unfold two in Htw; lia). rewrite Hmin in *.
    apply (Hrest s3 V3); [done|lia| |done].
    eapply table_progress_ext; [|exact HS3]. intros j Hj. cbv beta. unfold two in *. lia.
Qed.

Lemma write_meta_spec s (Q : unit -> st -> Prop) E :
  st_is x V s ->
  (forall s' V', st_is x V' s' -> meta_written V' ->
     wp (its_flash_fs_mblock_meta_update_finalize ops) s' Q E) ->
  fail_any (only_in sb 8 (block_size c) V) E ->
  wp (its_flash_fs_file_write_meta ops old n data_size F bm) s Q E.
Proof using All.
  intros Hst HQ HE. pose proof Hm as (Hc & Ha & Hs & Hma & Hms & Hne).
  pose proof (nact_bounds wf). pose proof (mend_bounds wf). pose proof (wf_meta c wf).
  unfold its_flash_fs_file_write_meta. apply wp_bind. use get_ctx_spec; [exact Hst|].
  rewrite Hc, HFl. apply write_tables_spec; [exact Hst| |].
  2:{ eapply fail_any_mono; [exact HE|]. intros U' HU'. eapply only_in_mono; [exact HU'|lia|lia]. }
  intros s1 V1 Hst1 Ho1 Hb1 Hf1. change ITS_LOGICAL_DBLOCK0 with 0.
  assert (Hmig : negb (lb =? 0) || (data_size =? 0) = true <-> migrates) by (unfold migrates; lia).
  destruct (negb (lb =? 0) || (data_size =? 0)).
  2:{ apply wp_bind, wp_ret, (HQ s1 V1 Hst1). assert (Hn' : ~ migrates) by (by rewrite <- Hmig).
      split; auto; [|done]. eapply only_in_mono; [exact Ho1|lia|lia]. }
  assert (Hy : migrates) by tauto. specialize (Hem Hy).
  assert (Ha1 : forall i, V1 a i = V a i) by (intros i; apply Ho1; by intros []).
  assert (Hb0 : bm_at (V1 a) 0 = bm_at (V a) 0) by (apply bm_at_ext; intros; apply Ha1).
  destruct (Hbv 0) as [Hw0 Hv0]; [lia|]. pose proof Hv0 as Hv0'.
  apply (validate_block_meta_iff wf) in Hv0' as (K1 & K2 & K3); [|done].
  rewrite decide_True in K3 by done. unfold bm_words in Hw0.
  apply wp_bind, wp_on_err. use migrate_lb0_spec;
    [exact Hst1|exact Hm|by rewrite Hb0|by rewrite Hb0|by rewrite Hb0| | |].
  { eapply erased_only_in; [exact Ho1|lia|exact Hem]. }
  2:{ eapply fail_any_on_fail; [apply fail_any_const; [done|exact HE]|]. intros U' HU'.
      eapply only_in_trans; eapply only_in_mono; eauto; lia. }
  intros s2 Hst2. rewrite Hb0 in Hst2. set (V2 := blk_copy _ _ _ _ _ _) in Hst2.
  assert (Ho2 : only_in sb (mend c) (block_size c) V1 V2).
  { eapply only_in_mono; [apply only_in_copy|lia|lia]. }
  apply (HQ s2 V2 Hst2). split.
  - eapply only_in_trans; eapply only_in_mono; eauto; lia.
  - done.
  - intros l Hl. rewrite (bm_at_only_in V1 V2 _ _ _ sb l Ho2); [by apply Hb1|].
    unfold boff, mend, foff. pose proof (wf_nf c wf). lia.
  - intros j Hj. rewrite (fm_at_only_in c V1 V2 _ _ _ sb j Ho2); [by apply Hf1|].
    unfold mend, foff. lia.
  - intros _ i Hi. destruct (Z.ltb_spec i (block_size c - free_size (bm_at (V a) 0))).
    + unfold V2. rewrite blk_copy_in by lia. rewrite Ha1. f_equal. lia.
    + transitivity (V1 sb i); [apply only_in_copy; lia|]. rewrite Ho1 by lia. apply Hem. lia.
Qed.
End WriteMeta.
