(* ===== verification/ItsFileWrite.v ===== *)
(** * Internal Trusted Storage: writing a file is correct and atomic *)

From Stdlib Require Import ZArith List Lia Bool.
From stdpp Require Import base tactics list sets.
From S2P Require Import Prelude ItsUtils ItsFlash ItsMblock ItsFs ItsImage ItsDevSpec.
From S2P Require Import ItsMblockSpec ItsLookupSpec ItsCommit ItsFinalize ItsRebuild.
From S2P Require Import ItsDeletePlan ItsRebuild ItsWrite.
Import ListNotations.
Local Open Scope Z_scope.

(** A file that takes up space is not aliased. *)
Lemma no_alias_pos c V a sd d : wf_cfg c -> body c V a sd -> 0 <= d < max_num_files c ->
  in_use (fm_at c (V a) d) -> 0 < max_size (fm_at c (V a) d) -> no_alias c (V a) d.
Proof.
  intros wf HB Hd Hu Hpos j Hj Hjd Huj Hl Hposj Heq.
  destruct (file_bounds c wf V a sd d HB Hd Hu) as (Hlb & _).
  destruct (body_tiles c V a sd HB _ Hlb) as (js & Hnd & Hin & Ht).
  destruct (tiles_disjoint (fm_at c (V a)) _ js _ j d Ht) as [?|?]; try lia; auto.
  - intros k Hk. apply Hin in Hk as [Hk _]. destruct (body_fm c V a sd HB k Hk) as [Hw _].
    unfold fm_words in Hw. lia.
  - by apply Hin.
  - by apply Hin.
Qed.

(** ** What a plan says *)
Section PlanFacts.
Context (c : its_flash_fs_config_t) (wf : wf_cfg c).
Context (U0 : view) (a sd0 : Z) (HB : body c U0 a sd0) (Ha : is_metablock a).
Context (Hmax : max_num_files c < ITS_METADATA_INVALID_INDEX).
Context (fid : list Z) (fl ms : Z) (Hlen : length fid = 12%nat).
Context (Hfid : its_utils_validate_fid fid = PSA_SUCCESS).
Context (Hfl : 0 <= fl < 2 ^ 32) (Hms : 0 <= ms).
Local Abbreviation f := (fm_at c (U0 a)).
Local Abbreviation b := (bm_at (U0 a)).
Local Abbreviation old := (plan_old c (U0 a) fid).
Local Abbreviation lookup := (lookup_idx c (U0 a) fid).

Lemma lookup_in_use o : lookup = Some o -> 0 <= o < max_num_files c /\ in_use (f o).
Proof using Hfid. intros H. apply lookup_idx_some in H as [H1 H2]. split; [done|]. unfold in_use. by rewrite H2. Qed.

Record plan_ok (n : Z) (F0 : its_file_meta_t) (bm0 : its_block_meta_t) : Prop := {
  po_n : 0 <= n < max_num_files c;
  po_file : wr_file c F0;
  po_layout : wr_layout c U0 a n F0 (free_size bm0);
  po_block : bm0 = set_free_size (free_size bm0) (b (lblock F0));
  po_id : id F0 = fid;
  po_two : two n old <-> exists o, lookup = Some o /\ replaces c (U0 a) fl ms o = true;
  po_new : lookup = Some n \/ ~ in_use (f n);
  po_meta : match lookup with
            | Some o => if has_flag fl ITS_FLASH_FS_FLAG_TRUNCATE
                        then flags F0 = fl /\ max_size F0 = ms /\ cur_size F0 = 0
                        else n = o /\ F0 = f o
            | None => flags F0 = fl /\ max_size F0 = ms /\ cur_size F0 = 0
            end
}.

Lemma plan_new_ok spare n F0 bm0 : plan_new c (U0 a) fid spare fl ms = Ok (n, F0, bm0) ->
  0 <= n < max_num_files c /\ ~ in_use (f n) /\ wr_file c F0 /\
  wr_layout c U0 a n F0 (free_size bm0) /\ bm0 = set_free_size (free_size bm0) (b (lblock F0)) /\
  id F0 = fid /\ flags F0 = fl /\ max_size F0 = ms /\ cur_size F0 = 0.
Proof using All.
  unfold plan_new. destruct (ms >? max_file_size c) eqn:Ems; [done|].
  destruct (fitting_block c (U0 a) ms) as [l|] eqn:El; [|done].
  destruct (free_idx _ _ _ _) as [j|] eqn:Ej; [|done].
  destruct (reserved c fid ms fl l (b l)) as [F1 bm1] eqn:Er. cbn [fst snd]. intros [= <- <- <-].
  apply first_idx_some in El as (Hl & Hlf & _). apply free_idx_some in Ej as (Hj & Hjf & _).
  unfold nfiles in Hj. pose proof (nact_bounds wf). apply is_free_iff in Hjf. cbv beta in Hlf.
  destruct (body_bm c U0 a sd0 HB l ltac:(lia)) as [Hw Hv].
  pose proof Hw as (W1 & W2 & W3). apply (validate_block_meta_iff wf) in Hv as (V1 & V2 & _); [|done].
  pose proof (wf_bs c wf). pose proof (wf_mfs c wf). unfold reserved in Er.
  rewrite (u32_small (block_size c - _)), (u32_small (free_size _ - ms)) in Er by lia.
  assert (EF : F1 = fst (F1, bm1)) by done. assert (Eb : bm1 = snd (F1, bm1)) by done.
  rewrite <- Er in EF, Eb. cbn [fst snd] in EF, Eb. subst F1 bm1. clear Er.
  cbn [id flags max_size cur_size lblock data_idx free_size set_free_size].
  split; [lia|]. split; [done|]. split.
  { split; cbn [lblock cur_size max_size]; [|by unfold in_use; cbn [id]|lia|lia|lia].
    unfold fm_words. cbn [id flags max_size cur_size lblock data_idx]. pose proof (wf_nb c wf). lia. }
  split; [|by destruct (b l)].
  right. cbn [lblock data_idx max_size]. split; [done|]. split; [done|]. split; [done|]. lia.
Qed.

Lemma write_plan_ok n F0 bm0 : write_plan c (U0 a) fid fl ms = Ok (n, F0, bm0) ->
  plan_ok n F0 bm0.
Proof using All.
  unfold write_plan. destruct lookup as [o|] eqn:Eo.
  - destruct (lookup_in_use o Eo) as [Ho Hu].
    destruct (replaces c (U0 a) fl ms o) eqn:Er.
    + intros H. pose proof H as (H1 & H2 & H3 & H4 & H5 & H6 & H7 & H8 & H9)%plan_new_ok.
      split; auto.
      * split; [by eauto|]. intros _. unfold two, plan_old. rewrite Eo. simpl.
        split; [lia|]. intros ->. done.
      * rewrite Eo. unfold replaces in Er. by destruct (has_flag fl _).
    + intros [= <- <- <-]. destruct (body_fm c U0 a sd0 HB o Ho) as [Hw Hv].
      apply (validate_file_meta_iff wf) in Hv as [Hl Hv]; [|done]. specialize (Hv Hu).
      pose proof Hw as (W1 & W2 & W3 & W4 & W5 & W6).
      unfold replaces in Er.
      assert (Hlay : wr_layout c U0 a o (f o) (free_size (b (lblock (f o))))).
      { left. repeat split; done. }
      destruct (has_flag fl ITS_FLASH_FS_FLAG_TRUNCATE) eqn:Et.
      * cbn [andb] in Er. apply negb_false_iff, Z.eqb_eq in Er.
        split; cbn [lblock id set_flags set_cur_size]; auto.
        -- split; cbn [lblock id set_flags set_cur_size cur_size max_size]; auto; try lia.
           unfold fm_words. cbn [lblock id set_flags set_cur_size cur_size max_size data_idx flags]. lia.
        -- apply (lookup_idx_some c _ _ _ Eo).
        -- unfold two, plan_old. rewrite Eo. simpl. split; [lia|].
           intros (o' & [= <-] & Hr). unfold replaces in Hr. rewrite Et, Er, Z.eqb_refl in Hr. done.
        -- rewrite Eo. rewrite Et. done.
      * split; auto.
        -- split; auto; lia.
        -- apply (lookup_idx_some c _ _ _ Eo).
        -- unfold two, plan_old. rewrite Eo. simpl. split; [lia|].
           intros (o' & [= <-] & Hr). unfold replaces in Hr. by rewrite Et in Hr.
        -- rewrite Eo. by rewrite Et.
  - destruct (negb _); [done|].
    intros H. pose proof H as (H1 & H2 & H3 & H4 & H5 & H6 & H7 & H8 & H9)%plan_new_ok.
    split; auto.
    + unfold two, plan_old. rewrite Eo. simpl. split; [lia|]. by intros (o & ? & _).
    + by rewrite Eo.
Qed.

(** A new file starts empty. *)
Lemma plan_new_empty n F0 bm0 : plan_ok n F0 bm0 -> ~ in_use (f n) -> cur_size F0 = 0.
Proof using Hfid.
  intros PO Hun. pose proof (po_meta _ _ _ PO) as Hmeta.
  destruct (po_new _ _ _ PO) as [Hnew|_]; [by destruct (lookup_in_use n Hnew)|].
  destruct lookup as [o|] eqn:Eo; [|by destruct Hmeta as (_ & _ & ?)].
  destruct (has_flag fl _); [by destruct Hmeta as (_ & _ & ?)|].
  destruct Hmeta as [-> _]. by destruct (lookup_in_use o Eo).
Qed.
End PlanFacts.

Section WriteData.
Context {D : Type} (ops : its_flash_fs_ops_t D) (c : its_flash_fs_config_t).
Context (Vw : D -> view) (mf : Prop) {FS : FlashSpec c ops Vw mf} (wf : wf_cfg c).
Context (ITS_FLASH_MAX_ALIGNMENT : Z).
Local Abbreviation st := (its_flash_fs_ctx_t * D)%type.
Local Abbreviation st_is := (st_is Vw).
Local Abbreviation fail_any := (fail_any Vw mf).
Local Abbreviation args_ok := (write_args_ok c ITS_FLASH_MAX_ALIGNMENT).

Context (x : its_flash_fs_ctx_t) (a sb sd0 : Z) (U0 : view).
Context (Hm : mounted c x a sb) (HB : body c U0 a sd0).
Context (Hma : is_metablock a) (Hms : is_metablock sb) (Hne : a <> sb).
Context (Hsd : scratch_dblock (meta_block_header x) = sd0).
Context (He0 : erased c U0 sb 0 (block_size c)).
Context (He1 : num_blocks c > 2 -> erased c U0 sd0 0 (block_size c)).
Local Abbreviation f := (fm_at c (U0 a)).
Local Abbreviation b := (bm_at (U0 a)).

Context (n : Z) (F0 : its_file_meta_t) (bm0 : its_block_meta_t).
Context (Hn : 0 <= n < max_num_files c) (HF0 : wr_file c F0).
Context (Hlay : wr_layout c U0 a n F0 (free_size bm0)).
Context (Hbm0 : bm0 = set_free_size (free_size bm0) (b (lblock F0))).
Local Abbreviation lb := (lblock F0).
Local Abbreviation p := (data_idx F0).
Local Abbreviation ds := (data_start (b lb)).
Local Abbreviation e := (block_size c - free_size (b lb)).
Local Abbreviation ph := (phy_id (b lb)).
Local Abbreviation sc := (data_scratch sb sd0 lb).

Context (Hcur0 : ~ in_use (f n) -> cur_size F0 = 0).
Context (off dsize : Z) (data : list Z).
Context (Hoff : 0 <= off < 2 ^ 32) (Hds : 0 <= dsize < 2 ^ 32).
Local Abbreviation asize := (aligned_size c ITS_FLASH_MAX_ALIGNMENT dsize).
(** The aligned size does not wrap, and the caller's buffer holds it. *)
Context (Has : dsize <= asize < 2 ^ 32) (Hlen : asize <= Z.of_nat (length data)).

(** The file metadata after the data part. *)
Definition new_meta : its_file_meta_t :=
  if dsize =? 0 then F0
  else if off + dsize >? cur_size F0 then set_cur_size (off + dsize) F0 else F0.

(** The bytes of the file afterwards. *)
Definition new_byte (k : Z) : Z :=
  if dsize =? 0 then U0 ph (p + k)
  else if k <? off then U0 ph (p + k)
  else if k <? off + asize then byte_at data (k - off) else erase_val c.

(** The physical block of the data and the free data block afterwards. *)
Definition new_phy : Z := if dsize =? 0 then (if lb =? 0 then sb else ph) else sc.
Definition new_sd : Z := if dsize =? 0 then sd0 else if lb =? 0 then sd0 else ph.
Definition new_block : its_block_meta_t :=
  if dsize =? 0 then bm0 else set_phy_id sc bm0.

Record data_ready (V V' : view) : Prop := {
  dr_only : forall b' i, ~ (dsize <> 0 /\ b' = sc /\ ds <= i < block_size c) -> V' b' i = V b' i;
  dr_same : lb <> 0 \/ dsize <> 0 -> forall i, ds <= i < e ->
    ~ (p <= i < p + max_size F0) -> V' new_phy i = U0 ph i;
  dr_data : lb <> 0 \/ dsize <> 0 -> forall k, 0 <= k < cur_size new_meta ->
    V' new_phy (p + k) = new_byte k
}.

Lemma write_sc_facts : (sc <> ph \/ lb = 0 /\ e <= ds) /\ 0 <= sc < num_blocks c /\ 0 <= ph < num_blocks c /\
  erased c U0 sc 0 (block_size c) /\
  (lb = 0 -> ds = mend c /\ sc = sb /\ (ph = a \/ e <= ds)) /\ (lb <> 0 -> sc <> sb /\ ds = 0 /\ scratch_data c sd0 sc) /\
  a <> sc /\ (lb <> 0 -> ph <> sb).
Proof using wf HB Hma Hms Hne He0 He1 HF0.
  clear -wf HB Hma Hms Hne He0 He1 HF0.
  pose proof (wr_lb c F0 HF0) as Hlb.
  pose proof (data_start_eq c wf U0 a sd0 HB Hma lb Hlb) as Hdse.
  pose proof (metablock_lt wf sb Hms). pose proof (metablock_lt wf a Hma).
  unfold data_scratch. unfold is_metablock in Hma, Hms.
  destruct (Z.eqb_spec lb 0) as [E|E].
  - rewrite E in *.
    assert (Hp0 : phy_id (b 0) = a \/ block_size c - free_size (b 0) <= data_start (b 0)).
    { destruct (body_phy0 c U0 a sd0 HB) as [->|[_ ->]]; [by left|right; lia]. }
    assert (0 <= phy_id (b 0) < num_blocks c).
    { pose proof (body_phy0_meta c U0 a sd0 HB Hma) as Hpm. unfold is_metablock in Hpm. lia. }
    split; [destruct Hp0 as [->|?]; [left; congruence|by right]|].
    split; [lia|]. split; [lia|]. split; [exact He0|]. split; [intros _; by repeat split|].
    split; [by intros []|]. split; [congruence|by intros []].
  - pose proof (nb_dedicated c wf lb ltac:(lia)) as Hnb.
    pose proof (phy_dedicated c wf U0 a sd0 HB lb ltac:(lia)).
    pose proof (body_sd c U0 a sd0 HB Hnb). pose proof (body_phy c U0 a sd0 HB lb ltac:(lia)) as [G1 G2].
    split; [left; congruence|]. split; [lia|]. split; [lia|]. split; [by apply He1|].
    split; [done|]. split; [|lia]. intros _. split; [lia|]. split; [done|]. done.
Qed.

Lemma new_placed : placed U0 a sb sd0 lb new_phy new_sd.
Proof using Type. unfold placed, new_phy, new_sd. destruct (dsize =? 0); [by right|by left]. Qed.

Lemma new_updated l : updated_bm U0 a sb lb new_block l =
  updated_bm U0 a sb lb (new_bm U0 a lb new_phy (free_size bm0)) l.
Proof using Hbm0.
  unfold updated_bm, new_block, new_bm, new_phy, data_scratch. rewrite Hbm0.
  destruct (l =? lb); [|done].
  destruct (dsize =? 0); destruct (lb =? 0); reflexivity.
Qed.

Lemma write_data_spec V s Q (E : psa_status_t -> st -> Prop) :
  st_is x V s -> only_in sb 8 (mend c) U0 V ->
  (dsize = 0 \/ args_ok F0 off dsize = true -> forall s' V', st_is (with_scratch new_sd lb x) V' s' ->
     data_ready V V' -> Q (new_meta, new_block) s') ->
  (dsize <> 0 -> args_ok F0 off dsize = false -> forall s', st_is x V s' -> E PSA_ERROR_GENERIC_ERROR s') ->
  fail_any (only_in sc ds (block_size c) V) E ->
  wp (its_flash_fs_file_write_data ops ITS_FLASH_MAX_ALIGNMENT bm0 F0 off dsize data) s Q E.
Proof using All.
  intros Hst HV HQ Hbad HE. pose proof Hm as (Hc & Ha & Hs & _).
  destruct write_sc_facts as (F1 & F2 & F3 & F4 & F5 & F6 & F7 & F8).
  assert (Hfl : forall j, 0 <= j < max_num_files c -> 0 <= flags (f j) < 2 ^ 32 /\
    (~ in_use (f j) -> flags (f j) = 0)).
  { intros j Hj. destruct (body_fm c U0 a sd0 HB j Hj) as [Hw _]. unfold fm_words in Hw.
    split; [tauto|]. by apply (body_free c U0 a sd0 HB). }
  pose proof (wr_bounds c wf U0 a sb sd0 HB Hma Hms Hne n F0 (free_size bm0) _ Hn HF0 Hlay Hfl) as HBd.
  assert (HVph : forall i, lb <> 0 \/ ds <= i < e -> V ph i = U0 ph i).
  { intros i Hi. destruct (Z.eq_dec lb 0) as [E0|E0].
    - destruct (F5 E0) as (_ & _ & [->|?]); [|lia]. apply HV. by intros [].
    - apply HV. intros [? _]. by apply (F8 E0). }
  pose proof (wr_cur c F0 HF0) as Hcur. pose proof (wr_words c F0 HF0) as Hw.
  pose proof (wf_bs c wf) as Hbs.
  unfold its_flash_fs_file_write_data. destruct (Z.eqb_spec dsize 0) as [Hz|Hz]; cbn [negb].
  { assert (E1 : new_meta = F0) by (unfold new_meta; by rewrite Hz).
    assert (E2 : new_block = bm0) by (unfold new_block; by rewrite Hz).
    apply wp_ret. rewrite E1, E2 in HQ. apply (HQ ltac:(by left) s V).
    - unfold new_sd. rewrite Hz. simpl. rewrite <- Hsd, with_scratch_id. exact Hst.
    - split.
      + done.
      + unfold new_phy. rewrite Hz. simpl. intros [Hl|?]; [|done].
        replace (lb =? 0) with false by lia. intros i Hi _. apply HVph. by left.
      + unfold new_phy, new_byte. rewrite Hz. simpl. intros [Hl|?]; [|done].
        replace (lb =? 0) with false by lia. intros k Hk. rewrite E1 in Hk. apply HVph.
        by left. }
  assert (Hscx : sc = if lb =? 0 then scratch_metablock x else scratch_dblock (meta_block_header x)).
  { unfold data_scratch. by rewrite Hsd, Hs. }
  assert (Hp0 : phy_id bm0 = ph /\ data_start bm0 = ds) by (rewrite Hbm0; by split).
  destruct Hp0 as [Hp0 Hd0].
  apply wp_bind, wp_on_err. use write_aligned_data_spec; [exact Hst|exact Hc| |].
  2:{ intros Hba. by apply Hbad. }
  intros Hok. pose proof Hok as Hok'. unfold write_args_ok in Hok'.
  apply andb_true_iff in Hok' as [Hok1 Hok2]. apply andb_true_iff in Hok1 as [_ Hok1].
  apply Z.eqb_eq in Hok2. unfold fm_words in Hw. apply check_contained_in_ok in Hok2; [|lia..].
  assert (Hdisj : sc <> ph \/ p + off <= ds /\ block_size c - free_size bm0 <= p + max_size F0).
  { destruct F1 as [?|[_ He]]; [by left|right].
    destruct Hlay as [(_ & L1 & L2 & L3 & L4)|(Hun & L1 & L2 & L3)]; [lia|].
    specialize (Hcur0 Hun). lia. }
  use dblock_write_file_spec;
    [exact Hst|exact Hm|rewrite <- Hscx, Hp0, Hd0; done|rewrite <- Hscx; done|by rewrite Hp0|..];
    rewrite <- ?Hscx, ?Hp0, ?Hd0; try lia.
  { assert (Hln : only_in sb 8 (mend c) U0 V) by done.
    eapply erased_only_in; [exact HV| |intros i Hi; apply F4; lia].
    destruct (Z.eq_dec lb 0) as [E0|E0]; [right; right; destruct (F5 E0); lia|left; by apply F6]. }
  2:{ eapply fail_any_mono; [apply fail_any_const; [done|exact HE]|]. intros U' HU'.
      eapply only_in_mono; [exact HU'|lia|lia]. }
  intros s1 V1 Hst1 [D1 D2 D3 D4 D5].
  rewrite (u32_small (off + dsize)) by lia.
  assert (Hlb' : lblock (if off + dsize >? cur_size F0 then set_cur_size (off + dsize) F0 else F0) = lb)
    by (by destruct (off + dsize >? cur_size F0)).
  rewrite Hlb'. apply wp_bind. use cur_data_scratch_id_spec; [exact Hst1|]. rewrite <- Hscx.
  apply wp_bind. use set_data_scratch_spec; [exact Hst1|]. intros s2 Hst2. apply wp_ret.
  assert (HQ' := HQ ltac:(by right)). clear HQ. unfold new_meta, new_block, new_sd in HQ'.
  replace (dsize =? 0) with false in HQ' by lia.
  apply (HQ' s2 V1).
  - unfold with_scratch in *. destruct (lb =? 0); exact Hst2.
  - assert (Hcm : cur_size new_meta <= max_size F0).
    { unfold new_meta. replace (dsize =? 0) with false by lia.
      destruct (off + dsize >? cur_size F0); cbn [set_cur_size cur_size]; lia. }
    assert (Hnp : new_phy = sc) by (unfold new_phy; by replace (dsize =? 0) with false by lia).
    split; rewrite ?Hnp.
    + intros b' i Hx. apply D1. intros [-> Hi]. apply Hx. split; [done|]. split; [done|lia].
    + intros _ i Hi Hni. destruct (Z.lt_ge_cases i p).
      * rewrite D2 by lia. apply HVph. lia.
      * rewrite D5 by lia. apply HVph. lia.
    + unfold new_byte. replace (dsize =? 0) with false by lia. intros _ k Hk.
      destruct (Z.ltb_spec k off).
      { rewrite D2 by lia. apply HVph. right.
        destruct Hlay as [(_ & L1 & L2 & L3 & L4)|(Hun & L1 & L2 & L3)]; [lia|].
        specialize (Hcur0 Hun). lia. }
      destruct (Z.ltb_spec k (off + asize)).
      * rewrite D3 by lia. f_equal. lia.
      * rewrite D4 by lia. rewrite HV; [apply F4; lia|].
        intros [Esb Hi]. destruct (Z.eq_dec lb 0) as [E0|E0]; [destruct (F5 E0); lia|].
        by destruct (F6 E0).
Qed.
End WriteData.
