(* ===== verification/ItsFileSpec.v ===== *)
(** * Internal Trusted Storage: the contract of its_flash_fs_file_write

    What a write does to the abstract file table, and the proof that the
    detailed operation implements it atomically. *)

From Stdlib Require Import ZArith List Lia Bool.
From stdpp Require Import base tactics list sets.
From S2P Require Import Prelude ItsUtils ItsFlash ItsMblock ItsFs ItsImage ItsDevSpec.
From S2P Require Import ItsMblockSpec ItsLookupSpec ItsCommit ItsFinalize ItsRebuild.
From S2P Require Import ItsDeletePlan ItsRebuild ItsWrite ItsFileWrite.
Import ListNotations.
Local Open Scope Z_scope.

(** ** Writes on the abstract table *)
Section TableWrite.
Context (c : its_flash_fs_config_t) (ITS_FLASH_MAX_ALIGNMENT : Z).

Definition has_id (fid : list Z) (g : option file) : bool :=
  match g with Some g => fid_eqb (f_id g) fid | None => false end.

Definition table_lookup (T : table) (fid : list Z) : option Z :=
  first_idx (fun j => has_id fid (T j)) (nfiles c) 0.

(** The file before its data is written: the existing one, or an empty one. *)
Definition base_file (old : option file) (fid : list Z) (fl ms : Z) : file :=
  let empty := {| f_id := fid; f_flags := fl; f_max := ms; f_data := [] |} in
  match old with
  | Some g => if has_flag fl ITS_FLASH_FS_FLAG_TRUNCATE then empty else g
  | None => empty
  end.

(** [size] bytes of [data] are written at [off], then bytes of the aligned
    size; what follows in the file becomes erased flash. *)
Definition written_file (g : file) (off size : Z) (data : list Z) : file :=
  let cur := Z.of_nat (length (f_data g)) in
  {| f_id := f_id g; f_flags := f_flags g; f_max := f_max g;
     f_data :=
       if size =? 0 then f_data g
       else mread (fun k => if k <? off then byte_at (f_data g) k
                            else if k <? off + aligned_size c ITS_FLASH_MAX_ALIGNMENT size
                            then byte_at data (k - off) else erase_val c)
                  0 (Z.max cur (off + size)) |}.

Definition replaced (T : table) (fid : list Z) (fl ms o : Z) : bool :=
  bool_decide (table_lookup T fid = Some o) && has_flag fl ITS_FLASH_FS_FLAG_TRUNCATE &&
  match T o with Some g => negb (f_max g =? ms) | None => false end.

(** Entry [n] is where a write stores the file: the existing entry when it is
    reused, a free one otherwise. *)
Definition slot_for (T : table) (fid : list Z) (fl ms n : Z) : Prop :=
  0 <= n < max_num_files c /\
  match table_lookup T fid with
  | Some o => if replaced T fid fl ms o then T n = None else n = o
  | None => T n = None
  end.

(** The file a write stores. *)
Definition new_file (T : table) (fid : list Z) (fl ms off size : Z) (data : list Z) : file :=
  let old := match table_lookup T fid with Some o => T o | None => None end in
  written_file (base_file old fid fl ms) off size data.

(** The table between the two commits of a write that replaces a file. *)
Definition table_marked (T : table) (fid : list Z) (fl ms n : Z) (g : file) : table := fun j =>
  if j =? n then Some g
  else if replaced T fid fl ms j
  then (fun h => with_flags (Z.lor (f_flags h) ITS_FLASH_FS_FLAG_DELETE) h) <$> T j
  else T j.

(** The table after the write. *)
Definition table_written (T : table) (fid : list Z) (fl ms n : Z) (g : file) : table := fun j =>
  if j =? n then Some g else if replaced T fid fl ms j then None else T j.
End TableWrite.

Section FileSpec.
Context {D : Type} (ops : its_flash_fs_ops_t D) (c : its_flash_fs_config_t).
Context (Vw : D -> view) (mf : Prop) {FS : FlashSpec c ops Vw mf} (wf : wf_cfg c).
Context (ITS_FLASH_MAX_ALIGNMENT : Z).
Local Abbreviation st := (its_flash_fs_ctx_t * D)%type.
Local Abbreviation st_is := (st_is Vw).
Local Abbreviation fail_any := (fail_any Vw mf).
Local Abbreviation args_ok := (write_args_ok c ITS_FLASH_MAX_ALIGNMENT).
Local Abbreviation asize_of := (aligned_size c ITS_FLASH_MAX_ALIGNMENT).

Context (x : its_flash_fs_ctx_t) (a sb : Z) (U0 : view) (T : table).
Context (Hinv : fs_inv c x a sb U0 T).
Context (Hmax : max_num_files c < ITS_METADATA_INVALID_INDEX).
Context (fid : list Z) (fl ms : Z) (Hlen : length fid = 12%nat).
Context (Hfid : its_utils_validate_fid fid = PSA_SUCCESS).
Context (Hfl : 0 <= fl < 2 ^ 32) (Hms : 0 <= ms).
Local Abbreviation f := (fm_at c (U0 a)).
Local Abbreviation b := (bm_at (U0 a)).
Local Abbreviation sd0 := (scratch_dblock (hdr_at (U0 a))).
Local Abbreviation old := (plan_old c (U0 a) fid).

Lemma table_entry j : 0 <= j < max_num_files c -> T j =
  if decide (in_use (f j)) then
    Some {| f_id := id (f j); f_flags := flags (f j); f_max := max_size (f j);
            f_data := mread (U0 (phy_id (b (lblock (f j))))) (data_idx (f j)) (cur_size (f j)) |}
  else None.
Proof using Hinv. intros Hj. destruct Hinv as [_ [_ HT] _ _ _]. by rewrite <- HT. Qed.

(** The table search is the search of the code. *)
Lemma lookup_table : table_lookup c T fid = lookup_idx c (U0 a) fid.
Proof using Hinv Hfid Hlen wf.
  unfold table_lookup, lookup_idx.
  apply first_idx_ext_in. intros j Hj. unfold nfiles in Hj. pose proof (wf_nf c wf). unfold has_id.
  rewrite table_entry by lia. case_decide as Hu; [done|]. unfold fid_eqb.
  symmetry. apply bool_decide_eq_false. intros E. apply Hu. unfold in_use. by rewrite E.
Qed.

Lemma replaced_table o : 0 <= o < max_num_files c ->
  replaced c T fid fl ms o = true <->
  lookup_idx c (U0 a) fid = Some o /\ replaces c (U0 a) fl ms o = true.
Proof using Hinv Hfid Hlen wf.
  intros Ho. unfold replaced. rewrite lookup_table, !andb_true_iff, bool_decide_eq_true.
  unfold replaces. rewrite andb_true_iff. split.
  - intros ((H1 & H2) & H3). split; [done|]. split; [done|].
    rewrite table_entry in H3 by done. case_decide; done.
  - intros (H1 & H2 & H3). split; [done|].
    destruct (lookup_idx_some c _ _ _ H1) as [_ Hi]. rewrite table_entry by done.
    rewrite decide_True; [done|]. unfold in_use. by rewrite Hi.
Qed.

(** ** The facts of the mounted filesystem *)
Lemma inv_facts : mounted c x a sb /\ body c U0 a sd0 /\ is_metablock a /\ is_metablock sb /\
  a <> sb /\ scratch_dblock (meta_block_header x) = sd0 /\ erased c U0 sb 0 (block_size c) /\
  (num_blocks c > 2 -> erased c U0 sd0 0 (block_size c)) /\ holds c U0 a T.
Proof using Hinv.
  destruct Hinv as [Hm HH Hh He0 He1]. pose proof Hm as (_ & _ & _ & Hma & Hms' & Hne).
  destruct HH as [HI HT]. destruct Hh as (Hh1 & _ & _).
  exact (conj Hm (conj (image_body c U0 a HI) (conj Hma (conj Hms' (conj Hne (conj Hh1
    (conj He0 (conj He1 (conj HI HT))))))))).
Qed.

Context (n : Z) (F0 : its_file_meta_t) (bm0 : its_block_meta_t).
Context (PO : plan_ok c U0 a fid fl ms n F0 bm0).
Context (off dsize : Z) (data : list Z).
Context (Hoff : 0 <= off < 2 ^ 32) (Hds : 0 <= dsize < 2 ^ 32).
Context (Has : dsize <= asize_of dsize < 2 ^ 32) (Hdata : asize_of dsize <= Z.of_nat (length data)).
Local Abbreviation F := (new_meta F0 off dsize).
Local Abbreviation nfl := (plan_flags c (U0 a) fid fl ms).
Local Abbreviation nf := (wr_fm c U0 a n F nfl).
Local Abbreviation lb := (lblock F0).
Local Abbreviation p := (data_idx F0).
Local Abbreviation ph := (phy_id (b lb)).

Lemma new_meta_fields : lblock F = lb /\ data_idx F = p /\ max_size F = max_size F0 /\
  id F = id F0 /\ flags F = flags F0 /\
  cur_size F = if dsize =? 0 then cur_size F0 else Z.max (cur_size F0) (off + dsize).
Proof using Type.
  clear. unfold new_meta. destruct (dsize =? 0); [done|].
  destruct (off + dsize >? cur_size F0) eqn:E; cbn [set_cur_size lblock data_idx max_size id flags cur_size];
    repeat split; lia.
Qed.

Lemma new_meta_file : dsize = 0 \/ args_ok F0 off dsize = true -> wr_file c F.
Proof using All.
  intros Hok. destruct (po_file _ _ _ _ _ _ _ _ _ PO) as [H1 H2 H3 H4 H5].
  destruct new_meta_fields as (E1 & E2 & E3 & E4 & E5 & E6). unfold fm_words in H1.
  assert (Hc : 0 <= cur_size F <= max_size F0).
  { rewrite E6. destruct (Z.eqb_spec dsize 0); [lia|]. destruct Hok as [?|Hok]; [done|].
    unfold write_args_ok in Hok. apply andb_true_iff in Hok as [_ Hok]. apply Z.eqb_eq in Hok.
    apply check_contained_in_ok in Hok; lia. }
  split; rewrite ?E1, ?E3; try done; try lia.
  - unfold fm_words. rewrite E1, E2, E3, E4, E5. lia.
  - unfold in_use. by rewrite E4.
Qed.

Lemma new_meta_layout : wr_layout c U0 a n F (free_size bm0).
Proof using All.
  pose proof (po_layout _ _ _ _ _ _ _ _ _ PO) as H. unfold wr_layout in *.
  destruct new_meta_fields as (-> & -> & -> & _). exact H.
Qed.

Lemma plan_flags_ok j : 0 <= j < max_num_files c ->
  0 <= nfl j < 2 ^ 32 /\ (~ in_use (f j) -> nfl j = 0).
Proof using All.
  intros Hj. destruct inv_facts as (_ & HB & _). destruct (body_fm c U0 a sd0 HB j Hj) as [Hw _].
  unfold fm_words in Hw. pose proof (body_free c U0 a sd0 HB j Hj) as Hfree. unfold plan_flags.
  destruct (lookup_idx c (U0 a) fid) as [o|] eqn:Eo; [|tauto].
  destruct ((j =? o) && replaces c (U0 a) fl ms o) eqn:Er; [|tauto].
  split; [apply flag_range; tauto|]. intros Hn. destruct Hn.
  replace j with o by lia. unfold in_use. by destruct (lookup_idx_some c _ _ _ Eo) as [_ ->].
Qed.

Lemma plan_flags_same j : j <> n -> ~ (two n old /\ j = old) -> nf j = f j.
Proof using All.
  intros Hj Hnt. unfold wr_fm. replace (j =? n) with false by lia.
  replace (nfl j) with (flags (f j)); [by destruct (f j)|].
  unfold plan_flags. destruct (lookup_idx c (U0 a) fid) as [o|] eqn:Eo; [|done].
  destruct ((j =? o) && replaces c (U0 a) fl ms o) eqn:Er; [|done].
  apply andb_true_iff in Er as [Ej%Z.eqb_eq Er]. destruct Hnt. split.
  - apply (po_two _ _ _ _ _ _ _ _ _ PO). exists o. by rewrite Eo.
  - unfold plan_old. by rewrite Eo.
Qed.

(** The plan puts the file where the abstract table allows it. *)
Lemma plan_slot : slot_for c T fid fl ms n.
Proof using Hinv Hmax Hlen Hfid PO wf.
  clear Hdata Has Hds Hoff.
  pose proof (po_n _ _ _ _ _ _ _ _ _ PO) as Hn. split; [done|].
  assert (HT : ~ in_use (f n) -> T n = None).
  { intros Hu. rewrite table_entry by done. by rewrite decide_False. }
  pose proof (po_two _ _ _ _ _ _ _ _ _ PO) as Htwo. unfold two, plan_old in Htwo.
  pose proof (po_new _ _ _ _ _ _ _ _ _ PO) as Hnew.
  rewrite lookup_table. destruct (lookup_idx c (U0 a) fid) as [o|] eqn:Eo.
  2:{ apply HT. by destruct Hnew. }
  destruct (lookup_in_use c U0 a fid Hfid o Eo) as [Ho _].
  destruct (replaced c T fid fl ms o) eqn:Er.
  - apply replaced_table in Er as [_ Er]; [|done]. apply HT. destruct Hnew as [[= ->]|Hu]; [|done].
    destruct (proj2 Htwo ltac:(eauto)) as [_ []]. done.
  - destruct (Z.eq_dec o n) as [->|Hon]; [done|]. exfalso.
    assert (o <> ITS_METADATA_INVALID_INDEX) by lia.
    destruct (proj1 Htwo ltac:(done)) as (o' & [= <-] & Hr).
    enough (replaced c T fid fl ms o = true) by congruence. by apply replaced_table.
Qed.

(** ** The scratch blocks before the commit *)
Local Abbreviation q := (new_phy a sb sd0 U0 F0 dsize).
Local Abbreviation sd1 := (new_sd a sd0 U0 F0 dsize).
Local Abbreviation sc := (data_scratch sb sd0 lb).
Local Abbreviation ds := (data_start (b lb)).
Local Abbreviation nbyte := (new_byte c ITS_FLASH_MAX_ALIGNMENT a U0 F0 off dsize data).
Local Abbreviation nblock := (new_block sb sd0 F0 bm0 dsize).
Local Abbreviation ready := (data_ready c ITS_FLASH_MAX_ALIGNMENT a sb sd0 U0 F0 off dsize data).

Record write_built (W : view) : Prop := {
  wb_bm : forall l, 0 <= l < nact c ->
    bm_at (W sb) l = updated_bm U0 a sb lb (new_bm U0 a lb q (free_size bm0)) l;
  wb_fm : forall j, 0 <= j < max_num_files c -> fm_at c (W sb) j = nf j;
  wb_stage : stage c sb sd0 U0 W;
  wb_data : forall i, ds <= i < block_size c - free_size (b lb) ->
    ~ (p <= i < p + max_size F0) -> W q i = U0 ph i;
  wb_mig : lb <> 0 -> forall i, mend c <= i < block_size c - free_size (b 0) -> W sb i = U0 a i;
  wb_content : mread (W q) p (cur_size F) = mread nbyte 0 (cur_size F)
}.

Lemma marked_facts V : marked c a sb U0 fid fl ms V ->
  only_in sb 8 (mend c) U0 V /\ erased c V sb 8 (foff c 0 - 8) /\
  table_progress c sb V nf (fun j => two n old /\ j = old) V /\
  erased c V sb (mend c) (block_size c - mend c) /\ stage c sb sd0 U0 V.
Proof using All.
  intros HV. destruct inv_facts as (Hm & HB & Hma & Hms' & Hne & Hsd & He0 & He1 & HH).
  pose proof (nact_bounds wf). pose proof (wf_meta c wf). pose proof (mend_bounds wf).
  pose proof (wf_nf c wf). unfold marked in HV. pose proof (po_two _ _ _ _ _ _ _ _ _ PO) as Htwo.
  assert (Hst0 : stage c sb sd0 U0 U0) by (split; [done|intros i Hi; apply He0; lia]).
  assert (Hcase : (~ two n old /\ same_view U0 V) \/ (two n old /\ 0 <= old < max_num_files c /\
    only_in sb (foff c old) (foff c old + 32) U0 V /\ fm_at c (V sb) old = nf old)).
  { destruct (lookup_idx c (U0 a) fid) as [o|] eqn:Eo.
    2:{ left. split; [|exact HV]. intros Ht. by apply Htwo in Ht as (? & ? & _). }
    destruct (replaces c (U0 a) fl ms o) eqn:Er.
    - right. assert (Ht : two n old) by (apply Htwo; eauto). destruct HV as [HV1 HV2].
      assert (Hoo : old = o) by (unfold plan_old; by rewrite Eo). rewrite Hoo in *.
      destruct (lookup_idx_some c _ _ _ Eo) as [Ho _]. repeat split; try done; try lia; try apply Ht.
      rewrite HV2. unfold wr_fm, plan_flags. destruct Ht as [_ Ht].
      replace (o =? n) with false by lia. by rewrite Eo, Er, Z.eqb_refl.
    - left. split; [|exact HV]. intros Ht. apply Htwo in Ht as (o' & [= <-] & ?). congruence. }
  destruct Hcase as [[Hnt HS]|(Ht & Ho & HS & Hf)].
  - assert (Ho : only_in sb 8 8 U0 V) by (intros b' i _; apply HS).
    assert (He : forall o z, 0 <= o -> o + z <= block_size c -> erased c V sb o z).
    { intros o z Hoz Hz i Hi. rewrite HS. apply He0. lia. }
    split; [eapply only_in_mono; [exact Ho|lia|lia]|].
    split; [apply He; unfold mend, foff in *; lia|].
    split; [|split; [apply He; lia|eapply stage_only_in; [exact Hst0|exact Ho|left; lia]]].
    split; [apply only_in_refl|tauto|]. intros j Hj _. apply He; unfold mend, foff in *; lia.
  - assert (Hr : 8 <= foff c 0 /\ foff c 0 <= foff c old /\ foff c old + 32 <= mend c)
      by (unfold mend, foff in *; lia).
    assert (He : forall o z, 0 <= o -> o + z <= block_size c ->
      o + z <= foff c old \/ foff c old + 32 <= o -> erased c V sb o z).
    { intros o z Hoz Hz Hd. eapply erased_only_in; [exact HS|lia|]. intros i Hi. apply He0. lia. }
    split; [eapply only_in_mono; [exact HS|lia|lia]|]. split; [apply He; lia|].
    split; [|split; [apply He; lia|eapply stage_only_in; [exact Hst0|exact HS|left; lia]]].
    split; [apply only_in_refl|by intros j Hj [_ ->]|].
    intros j Hj Hnj. apply He; unfold mend, foff in *; [lia|lia|].
    destruct (Z.eq_dec j old); [tauto|lia].
Qed.

Lemma sc_place : (lb = 0 -> ds = mend c /\ sc = sb /\ (ph = a \/ block_size c - free_size (b lb) <= ds)) /\
  (lb <> 0 -> sc <> sb /\ ds = 0 /\ scratch_data c sd0 sc) /\ a <> sc /\ (lb <> 0 -> ph <> sb) /\
  (lb = 0 -> q = sb) /\ (lb <> 0 -> q <> sb).
Proof using All.
  destruct inv_facts as (Hm & HB & Hma & Hms' & Hne & Hsd & He0 & He1 & HH).
  destruct (write_sc_facts c wf a sb sd0 U0 HB Hma Hms' Hne He0 He1 F0
    (po_file _ _ _ _ _ _ _ _ _ PO)) as (_ & _ & _ & _ & F5 & F6 & F7 & F8).
  split; [done|]. split; [done|]. split; [done|]. split; [done|]. unfold new_phy, data_scratch.
  split; intros E0.
  - rewrite E0. by destruct (dsize =? 0).
  - destruct (F6 E0) as (G1 & _). unfold data_scratch in G1. replace (lb =? 0) with false in * by lia.
    destruct (dsize =? 0); [by apply F8|done].
Qed.

(** What the data part leaves of the active block and of the tables. *)
Lemma ready_facts V V' : marked c a sb U0 fid fl ms V -> ready V V' ->
  (forall i, V' a i = U0 a i) /\ only_in sc ds (block_size c) V V' /\
  (forall i, i < mend c -> V' sb i = V sb i) /\
  (migrates lb dsize -> forall i, V' sb i = V sb i) /\ stage c sb sd0 U0 V'.
Proof using All.
  intros HV [R1 _ _]. destruct sc_place as (P1 & P2 & P3 & P4 & P5 & P6).
  destruct (marked_facts V HV) as (M1 & _ & _ & _ & M5).
  destruct inv_facts as (Hm & HB & Hma & Hms' & Hne & Hsd & He0 & He1 & HH).
  pose proof (mend_bounds wf).
  assert (Ho : only_in sc ds (block_size c) V V') by (intros b' i Hx; apply R1; tauto).
  split; [intros i; rewrite Ho by (by intros []); apply M1; by intros []|].
  split; [done|]. split; [|split].
  - intros i Hi. apply Ho. intros [Esb Hi']. destruct (Z.eq_dec lb 0) as [E0|E0];
      [destruct (P1 E0); lia|]. by destruct (P2 E0).
  - intros Hmig i. apply R1. intros (Hd & Esb & Hi'). destruct Hmig as [E0|?]; [|done].
    by destruct (P2 E0).
  - eapply stage_only_in; [exact M5|exact Ho|]. destruct (Z.eq_dec lb 0) as [E0|E0].
    + left. destruct (P1 E0) as (? & ? & _). lia.
    + right. by destruct (P2 E0) as (? & ? & ?).
Qed.

Lemma written_built V V' W : marked c a sb U0 fid fl ms V -> ready V V' ->
  meta_written c a sb V' nf nblock lb dsize W ->
  (dsize = 0 \/ args_ok F0 off dsize = true) -> write_built W.
Proof using All.
  intros HV HR [W1 W2 W3 W4 W5] Hok. pose proof HR as [R1 R2 R3].
  destruct (ready_facts V V' HV HR) as (A1 & A2 & A3 & A4 & A5).
  destruct sc_place as (P1 & P2 & P3 & P4 & P5 & P6).
  destruct inv_facts as (Hm & HB & Hma & Hms' & Hne & Hsd & He0 & He1 & HH).
  pose proof (mend_bounds wf). pose proof (wf_meta c wf).
  pose proof (wr_bounds c wf U0 a sb sd0 HB Hma Hms' Hne n F (free_size bm0) nfl
    (po_n _ _ _ _ _ _ _ _ _ PO) (new_meta_file Hok) new_meta_layout plan_flags_ok) as HBd.
  destruct new_meta_fields as (E1 & E2 & E3 & _). rewrite E1, E2, E3 in HBd.
  pose proof (wr_cur c F (new_meta_file Hok)) as Hcur. rewrite E3 in Hcur.
  assert (Hb : forall l, bm_at (V' a) l = b l) by (intros l; apply bm_at_ext; intros; apply A1).
  (* the bytes of the written block in the final view *)
  assert (Hq : forall i, ds <= i < block_size c - free_size (bm0) ->
    W q i = if decide (lb = 0 /\ dsize = 0)
            then (if i <? block_size c - free_size (b 0) then U0 a i else erase_val c) else V' q i).
  { intros i Hi. case_decide as Hd.
    - destruct Hd as [E0 Hz]. rewrite (P5 E0). destruct (P1 E0) as (Hds0 & _).
      rewrite W5; [|by right|lia]. by rewrite Hb, A1.
    - destruct (Z.eq_dec lb 0) as [E0|E0].
      + rewrite (P5 E0). apply W2; [unfold migrates; lia|]. destruct (P1 E0). lia.
      + apply W1. intros [? _]. by apply (P6 E0). }
  assert (Hor : forall A : Prop, ~ (lb = 0 /\ dsize = 0) -> (lb <> 0 \/ dsize <> 0 -> A) -> A).
  { intros A Hn HA. apply HA. lia. }
  split.
  - intros l Hl. rewrite W3 by done.
    rewrite <- (new_updated a sb sd0 U0 F0 bm0 (po_block _ _ _ _ _ _ _ _ _ PO) dsize l).
    unfold updated_bm. by rewrite !Hb.
  - exact W4.
  - eapply stage_only_in; [exact A5|exact W1|left; lia].
  - intros i Hi Hni. rewrite Hq by lia. case_decide as Hd; [|apply (Hor _ Hd); intros Hx; by apply R2].
    destruct Hd as [E0 Hz]. rewrite E0 in Hi |- *. replace (i <? _) with true by lia.
    destruct (P1 E0) as (Hds0 & _ & _). rewrite E0 in Hds0.
    by rewrite (body_phy0_used c U0 a sd0 i HB) by lia.
  - intros E0 i Hi. destruct (bm0_valid c wf U0 a sd0 HB Hma) as (_ & Hf0 & _).
    rewrite W5; [|by left|lia]. rewrite Hb, A1. by replace (i <? _) with true by lia.
  - apply mread_shift. intros k Hk. rewrite Hq by lia. case_decide as Hd.
    2:{ apply (Hor _ Hd). intros Hx. by apply R3. }
    destruct Hd as [E0 Hz]. unfold new_byte. rewrite Hz, Z.eqb_refl.
    destruct new_meta_fields as (_ & _ & _ & _ & _ & E6). replace (dsize =? 0) with true in E6 by lia.
    assert (Hin : p + k < block_size c - free_size (b 0)).
    { destruct new_meta_layout as [(Hun & L1 & L2 & L3 & L4)|(Hun & L1 & L2 & L3)].
      - rewrite E1 in L4. rewrite E0 in L4, HBd. lia.
      - pose proof (plan_new_empty c U0 a fid fl ms Hfid n F0 bm0 PO Hun). lia. }
    replace (p + k <? block_size c - free_size (b 0)) with true by lia.
    destruct (P1 E0) as (Hds0 & _ & _). rewrite E0 in Hds0 |- *.
    rewrite (body_phy0_used c U0 a sd0 (p + k) HB); [done|]. rewrite E0 in HBd. lia.
Qed.

(** ** The abstract effect *)
Lemma base_file_eq :
  base_file (match table_lookup c T fid with Some o => T o | None => None end) fid fl ms =
  {| f_id := fid; f_flags := flags F0; f_max := max_size F0;
     f_data := mread (U0 ph) p (cur_size F0) |}.
Proof using Hinv Hlen Hfid PO wf.
  rewrite lookup_table. pose proof (po_meta _ _ _ _ _ _ _ _ _ PO) as H. unfold base_file.
  destruct (lookup_idx c (U0 a) fid) as [o|] eqn:Eo.
  - destruct (lookup_in_use c U0 a fid Hfid o Eo) as [Ho Hu]. rewrite table_entry by done.
    rewrite decide_True by done. destruct (lookup_idx_some c _ _ _ Eo) as [_ Hi].
    destruct (has_flag fl _).
    + by destruct H as (-> & -> & ->).
    + destruct H as [_ ->]. by rewrite Hi.
  - by destruct H as (-> & -> & ->).
Qed.

Lemma new_file_eq : dsize = 0 \/ args_ok F0 off dsize = true ->
  new_file c ITS_FLASH_MAX_ALIGNMENT T fid fl ms off dsize data =
  {| f_id := id F; f_flags := flags F; f_max := max_size F; f_data := mread nbyte 0 (cur_size F) |}.
Proof using All.
  intros Hok. destruct new_meta_fields as (E1 & E2 & E3 & E4 & E5 & E6).
  pose proof (wr_words c F0 (po_file _ _ _ _ _ _ _ _ _ PO)) as Hw. unfold fm_words in Hw.
  unfold new_file. rewrite base_file_eq. unfold written_file. cbn [f_id f_flags f_max f_data].
  rewrite E3, E4, E5, E6, (po_id _ _ _ _ _ _ _ _ _ PO), length_mread by lia. f_equal.
  destruct (Z.eqb_spec dsize 0) as [Hz|Hz].
  - apply mread_shift. intros k Hk. unfold new_byte. by rewrite Hz.
  - apply mread_ext. intros k Hk. unfold new_byte. replace (dsize =? 0) with false by lia.
    destruct (Z.ltb_spec k off); [|done]. apply byte_at_mread.
    destruct Hok as [?|Hok]; [done|]. unfold write_args_ok in Hok.
    apply andb_true_iff in Hok as [Hok _]. apply andb_true_iff in Hok as [_ Hok]. lia.
Qed.

Lemma marked_table g j : 0 <= j < max_num_files c ->
  g = {| f_id := id F; f_flags := flags F; f_max := max_size F; f_data := mread nbyte 0 (cur_size F) |} ->
  wr_table n F nfl T (mread nbyte 0 (cur_size F)) j = table_marked c T fid fl ms n g j.
Proof using All.
  intros Hj ->. unfold wr_table, table_marked. destruct (Z.eqb_spec j n) as [->|Hjn]; [done|].
  rewrite (table_entry j Hj). destruct (replaced c T fid fl ms j) eqn:Er.
  - apply replaced_table in Er as [Eo Er]; [|done]. unfold plan_flags. rewrite Eo, Er, Z.eqb_refl.
    by case_decide.
  - assert (Hfl' : nfl j = flags (f j)).
    { unfold plan_flags. destruct (lookup_idx c (U0 a) fid) as [o|] eqn:Eo; [|done].
      destruct ((j =? o) && replaces c (U0 a) fl ms o) eqn:Ex; [|done].
      apply andb_true_iff in Ex as [->%Z.eqb_eq Ex].
      assert (replaced c T fid fl ms o = true) by (by apply replaced_table). congruence. }
    rewrite Hfl'. by case_decide.
Qed.

Local Abbreviation g := (new_file c ITS_FLASH_MAX_ALIGNMENT T fid fl ms off dsize data).
Local Abbreviation T1 := (table_marked c T fid fl ms n g).

Lemma write_finalize_spec W s (Q : unit -> st -> Prop) E :
  dsize = 0 \/ args_ok F0 off dsize = true -> write_built W ->
  st_is (with_scratch sd1 lb x) W s ->
  (forall s' x' U', st_is x' U' s' -> fs_inv c x' sb a U' T1 -> Q tt s') ->
  fail_any (crash_ok c T T1) E ->
  wp (its_flash_fs_mblock_meta_update_finalize ops) s Q E.
Proof using All.
  intros Hok [W1 W2 W3 W4 W5 W6] Hst HQ HE.
  destruct inv_facts as (Hm & HB & Hma & Hms' & Hne & Hsd & He0 & He1 & HH).
  pose proof HH as [HI HT]. destruct Hinv as [_ _ (Hh1 & Hh2 & Hh3) _ _].
  pose proof (image_words c U0 a HI) as (X1 & X2 & X3). pose proof (image_hdr c U0 a HI) as Hok'.
  apply hdr_ok_validate, hdr_ok_iff in Hok' as [Hver Hcnt].
  pose proof (po_file _ _ _ _ _ _ _ _ _ PO) as HF0. pose proof (wr_lb c F0 HF0) as Hlb.
  destruct new_meta_fields as (E1 & E2 & E3 & _).
  assert (Hx : meta_block_header (with_scratch sd1 lb x) = set_scratch_dblock sd1 (meta_block_header x)).
  { unfold with_scratch, new_sd. destruct (Z.eqb_spec lb 0) as [E0|]; [|done].
    replace (if dsize =? 0 then sd0 else sd0) with sd0 by (by destruct (dsize =? 0)).
    rewrite <- Hsd. by destruct (meta_block_header x). }
  pose proof (new_placed a sb sd0 U0 F0 dsize) as Hpl.
  assert (HB' : body c W sb sd1).
  { apply (wr_body c wf U0 a sb sd0 HB Hma Hms' Hne n F (free_size bm0) nfl
      (po_n _ _ _ _ _ _ _ _ _ PO) (new_meta_file Hok) new_meta_layout plan_flags_ok W q sd1);
      rewrite ?E1, ?E2, ?E3; try done. apply W3. }
  eapply (commit_spec ops c Vw mf wf _ a sb U0 W T T1);
    [exact HH|by apply mounted_with_scratch|exact Hst|exact W3|..]; rewrite ?Hx;
    cbn [set_scratch_dblock scratch_dblock fs_version active_swap_count]; rewrite ?Hh2, ?Hh3; auto.
  - split; cbn [set_scratch_dblock scratch_dblock fs_version active_swap_count];
      [|rewrite Hh2, Hh3; done].
    unfold new_sd. destruct (dsize =? 0); [done|]. destruct (Z.eqb_spec lb 0); [done|].
    pose proof (phy_dedicated c wf U0 a sd0 HB lb ltac:(lia)). pose proof (wf_nb c wf). lia.
  - intros j Hj. rewrite <- (marked_table g j Hj) by (by apply new_file_eq).
    apply (wr_holds_table c wf U0 a sb sd0 HB Hma Hms' Hne n F (free_size bm0) nfl
      (po_n _ _ _ _ _ _ _ _ _ PO) (new_meta_file Hok) new_meta_layout plan_flags_ok W q sd1);
      rewrite ?E1, ?E2, ?E3; try done. apply W3.
Qed.

Lemma new_block_words : dsize = 0 \/ args_ok F0 off dsize = true -> bm_words nblock.
Proof using All.
  intros Hok. destruct inv_facts as (Hm & HB & Hma & Hms' & Hne & Hsd & He0 & He1 & HH).
  pose proof (wr_bounds c wf U0 a sb sd0 HB Hma Hms' Hne n F (free_size bm0) nfl
    (po_n _ _ _ _ _ _ _ _ _ PO) (new_meta_file Hok) new_meta_layout plan_flags_ok) as HBd.
  destruct new_meta_fields as (E1 & E2 & E3 & _). rewrite E1, E2, E3 in HBd.
  destruct (write_sc_facts c wf a sb sd0 U0 HB Hma Hms' Hne He0 He1 F0
    (po_file _ _ _ _ _ _ _ _ _ PO)) as (_ & F2 & F3 & _).
  destruct (body_bm c U0 a sd0 HB lb (wr_lb c F0 (po_file _ _ _ _ _ _ _ _ _ PO))) as [Hw _].
  pose proof (wf_nb c wf). unfold bm_words in Hw.
  assert (Hb0 : bm_words bm0).
  { rewrite (po_block _ _ _ _ _ _ _ _ _ PO). unfold bm_words.
    cbn [phy_id data_start free_size set_free_size]. lia. }
  unfold new_block. destruct (dsize =? 0); [done|]. apply bm_words_phy; [lia|done].
Qed.

Lemma write_commit_spec V s (Q : unit -> st -> Prop) E :
  marked c a sb U0 fid fl ms V -> st_is x V s ->
  (forall s' x' U', st_is x' U' s' -> fs_inv c x' sb a U' T1 -> Q tt s') ->
  (dsize <> 0 -> args_ok F0 off dsize = false -> forall s', st_is x V s' ->
     E PSA_ERROR_GENERIC_ERROR s') ->
  fail_any (crash_ok c T T1) E ->
  wp (let! (fm, bm) := its_flash_fs_file_write_data ops ITS_FLASH_MAX_ALIGNMENT bm0 F0 off dsize data in
      its_flash_fs_file_write_meta ops old n dsize fm bm) s Q E.
Proof using All.
  intros HV Hst HQ Hbad HE.
  destruct inv_facts as (Hm & HB & Hma & Hms' & Hne & Hsd & He0 & He1 & HH).
  destruct (marked_facts V HV) as (M1 & M2 & M3 & M4 & M5).
  destruct sc_place as (P1 & P2 & P3 & P4 & P5 & P6). pose proof (mend_bounds wf).
  pose proof (stage_fail c Vw mf wf a sb U0 T T1 E HH Hms' Hne HE) as HES.
  apply wp_bind. eapply (write_data_spec ops c Vw mf wf ITS_FLASH_MAX_ALIGNMENT x a sb sd0 U0
    Hm HB Hma Hms' Hne Hsd He0 He1 n F0 bm0 (po_n _ _ _ _ _ _ _ _ _ PO)
    (po_file _ _ _ _ _ _ _ _ _ PO) (po_layout _ _ _ _ _ _ _ _ _ PO)
    (po_block _ _ _ _ _ _ _ _ _ PO) (plan_new_empty c U0 a fid fl ms Hfid n F0 bm0 PO)
    off dsize data Hoff Hds Has Hdata V);
    [exact Hst|exact M1| |exact Hbad|].
  2:{ eapply fail_any_mono; [exact HES|]. intros U' HU'. eapply stage_only_in; [exact M5|exact HU'|].
      destruct (Z.eq_dec lb 0) as [E0|E0].
      - left. destruct (P1 E0) as (? & ? & _). lia.
      - right. by destruct (P2 E0) as (? & ? & ?). }
  intros Hok s1 V' Hst1 HR. destruct (ready_facts V V' HV HR) as (A1 & A2 & A3 & A4 & A5).
  assert (Hb : forall l, bm_at (V' a) l = b l) by (intros l; apply bm_at_ext; intros; apply A1).
  assert (Hf : forall j, fm_at c (V' a) j = f j) by (intros j; apply fm_at_ext; intros; apply A1).
  pose proof (po_file _ _ _ _ _ _ _ _ _ PO) as HF0. pose proof (wr_lb c F0 HF0) as Hlb.
  destruct new_meta_fields as (E1 & E2 & E3 & E4 & E5 & E6).
  assert (Hnfn : nf n = F) by apply wr_fm_n.
  assert (Hsbe : forall o z, o + z <= mend c -> erased c V sb o z -> erased c V' sb o z).
  { intros o z Hoz He i Hi. rewrite A3 by lia. by apply He. }
  eapply (write_meta_spec ops c Vw mf wf _ a sb V' nf);
    [by apply mounted_with_scratch|apply (po_n _ _ _ _ _ _ _ _ _ PO)|exact Hmax|..].
  - unfold plan_old. destruct (lookup_idx c (U0 a) fid) as [o|] eqn:Eo; [right|by left].
    apply (lookup_in_use c U0 a fid Hfid o Eo).
  - exact Hlb.
  - by apply new_block_words.
  - intros l Hl. rewrite Hb. by apply (body_bm c U0 a sd0 HB).
  - rewrite Hb. by apply (body_phy0_meta c U0 a sd0).
  - rewrite Hnfn. apply (new_meta_file Hok).
  - intros j Hj Hjn Hnt. rewrite Hf. by apply plan_flags_same.
  - apply Hsbe; [unfold mend, foff; pose proof (wf_nf c wf); lia|exact M2].
  - destruct M3 as [_ T2 T3]. split; [apply only_in_refl| |].
    + intros j Hj Hs. rewrite <- (T2 j Hj Hs). apply fm_at_ext. intros i Hi. apply A3.
      unfold mend, foff in *. lia.
    + intros j Hj Hs. apply Hsbe; [unfold mend, foff; lia|by apply T3].
  - exact Hnfn.
  - exact E1.
  - intros Hmig i Hi. rewrite A4 by done. by apply M4.
  - exact Hst1.
  - intros s2 W Hst2 HW. apply (write_finalize_spec W); auto. by apply (written_built V V').
  - eapply fail_any_mono; [exact HES|]. intros U' HU'. eapply stage_only_in; [exact A5|exact HU'|left; lia].
Qed.
End FileSpec.
