(* ===== verification/ItsFileOps.v ===== *)
(** * Internal Trusted Storage: the file operations implement the abstract
    table, atomically *)

From Stdlib Require Import ZArith List Lia Bool.
From stdpp Require Import base tactics list sets.
From S2P Require Import Prelude ItsUtils ItsFlash ItsMblock ItsFs ItsImage ItsDevSpec.
From S2P Require Import ItsMblockSpec ItsLookupSpec ItsCommit ItsFinalize ItsRebuild.
From S2P Require Import ItsDeletePlan ItsRebuild ItsWrite ItsFileWrite.
From S2P Require Import ItsFileSpec.
From S2P Require Import ItsFileSpec.
Import ListNotations.
Local Open Scope Z_scope.

(** The device holds, for mounting, one of the tables of [P]. *)
Definition holds_one_of (c : its_flash_fs_config_t) (P : table -> Prop) (V : view) : Prop :=
  exists a T, select c V = Some a /\ P T /\ holds c V a T.

Lemma holds_one_of_mono c (P P' : table -> Prop) V :
  (forall T, P T -> P' T) -> holds_one_of c P V -> holds_one_of c P' V.
Proof. intros H (a & T & H1 & H2 & H3). exists a, T. auto. Qed.

Lemma crash_ok_one_of c T0 T1 V : crash_ok c T0 T1 V <-> holds_one_of c (fun T => T = T0 \/ T = T1) V.
Proof.
  split.
  - intros (a & Hs & [H|H]); [exists a, T0|exists a, T1]; auto.
  - intros (a & T & Hs & [->| ->] & H); exists a; auto.
Qed.

Section FileOps.
Context {D : Type} (ops : its_flash_fs_ops_t D) (c : its_flash_fs_config_t).
Context (Vw : D -> view) (mf : Prop) {FS : FlashSpec c ops Vw mf} (wf : wf_cfg c).
Context (ITS_FLASH_MAX_ALIGNMENT : Z).
Local Abbreviation st := (its_flash_fs_ctx_t * D)%type.
Local Abbreviation st_is := (st_is Vw).
Local Abbreviation fail_any := (fail_any Vw mf).
Local Abbreviation asize_of := (aligned_size c ITS_FLASH_MAX_ALIGNMENT).

(** A table matters only on the indices of the file table. *)
Lemma fs_inv_ext x a sb U T T' : (forall j, 0 <= j < max_num_files c -> T j = T' j) ->
  fs_inv c x a sb U T -> fs_inv c x a sb U T'.
Proof.
  intros H [H1 [H2 H3] H4 H5 H6]. split; auto. split; [done|]. intros j Hj. by rewrite H3, H.
Qed.

Lemma holds_ext V a T T' : (forall j, 0 <= j < max_num_files c -> T j = T' j) ->
  holds c V a T -> holds c V a T'.
Proof. intros H [H2 H3]. split; [done|]. intros j Hj. by rewrite H3, H. Qed.

Lemma fs_inv_entry x a sb U T j g : fs_inv c x a sb U T -> 0 <= j < max_num_files c -> T j = Some g ->
  in_use (fm_at c (U a) j) /\ max_size (fm_at c (U a) j) = f_max g.
Proof.
  intros HI Hj HT. rewrite (table_entry c x a sb U T HI j Hj) in HT.
  case_decide; [|done]. split; [done|]. by injection HT as <-.
Qed.

Lemma aligned_size_nonneg s : 0 <= s -> 0 <= asize_of s.
Proof.
  intros H. unfold aligned_size, ITS_UTILS_ALIGN. destruct (_ =? 1); [done|].
  apply Z.land_nonneg. left. apply u32_range.
Qed.

(** ** Write *)

(** Why a write is refused without any device failure. *)
Definition write_refused (m : mem) (fid : list Z) (fl ms dsize off : Z) (e : psa_status_t) : Prop :=
  (has_flag fl ITS_FLASH_FS_INTERNAL_FLAGS_MASK = true /\ e = PSA_ERROR_INVALID_ARGUMENT) \/
  write_plan c m fid fl ms = Err e \/
  (exists n F0 bm0, write_plan c m fid fl ms = Ok (n, F0, bm0) /\ dsize <> 0 /\
     write_args_ok c ITS_FLASH_MAX_ALIGNMENT F0 off dsize = false /\ e = PSA_ERROR_GENERIC_ERROR).

(** The tables a write goes through. *)
Definition write_states (T : table) (fid : list Z) (fl ms : Z) (g : file) (T' : table) : Prop :=
  T' = T \/ exists n, slot_for c T fid fl ms n /\
    (T' = table_marked c T fid fl ms n g \/ T' = table_written c T fid fl ms n g).

Section Write.
Context (x : its_flash_fs_ctx_t) (a sb : Z) (U : view) (T : table).
Context (Hinv : fs_inv c x a sb U T) (Hmax : max_num_files c < ITS_METADATA_INVALID_INDEX).
Context (fid : list Z) (fl ms0 : Z) (Hlen : length fid = 12%nat).
Context (Hfid : its_utils_validate_fid fid = PSA_SUCCESS).
Context (Hfl : 0 <= fl < 2 ^ 32) (Hms : 0 <= ms0).
Context (off dsize : Z) (data : list Z) (Hoff : 0 <= off < 2 ^ 32) (Hds : 0 <= dsize < 2 ^ 32).
Context (Has : dsize <= asize_of dsize < 2 ^ 32) (Hdata : asize_of dsize <= Z.of_nat (length data)).
Local Abbreviation ms := (asize_of ms0).
Context (Hpos : forall o g, replaced c T fid fl ms o = true -> T o = Some g -> 0 < f_max g).
Local Abbreviation g := (new_file c ITS_FLASH_MAX_ALIGNMENT T fid fl ms off dsize data).

(** Where the plan stores the file. *)
Local Lemma slot n F0 bm0 : plan_ok c U a fid fl ms n F0 bm0 -> slot_for c T fid fl ms n.
Proof using All.
  intros PO. exact (plan_slot c wf x a sb U T Hinv Hmax fid fl ms Hlen Hfid n F0 bm0 PO).
Qed.

(** The second phase: deleting the replaced file. *)
Lemma write_delete_spec n F0 bm0 x' U' s (Q : unit -> st -> Prop) (E : psa_status_t -> st -> Prop) :
  plan_ok c U a fid fl ms n F0 bm0 -> st_is x' U' s ->
  fs_inv c x' sb a U' (table_marked c T fid fl ms n g) ->
  (forall s' x' a' sb' U', st_is x' U' s' ->
     fs_inv c x' a' sb' U' (table_written c T fid fl ms n g) -> Q tt s') ->
  fail_any (holds_one_of c (write_states T fid fl ms g)) E ->
  wp (if negb (plan_old c (U a) fid =? ITS_METADATA_INVALID_INDEX) &&
         negb (plan_old c (U a) fid =? n)
      then its_flash_fs_delete_idx ops (plan_old c (U a) fid) else ret tt) s Q E.
Proof using All.
  intros PO Hst Hinv' HQ HE. pose proof (po_two _ _ _ _ _ _ _ _ _ PO) as Htwo.
  pose proof (replaced_table c wf x a sb U T Hinv fid fl ms Hlen Hfid) as Hrep.
  assert (Hiff : two n (plan_old c (U a) fid) <->
    negb (plan_old c (U a) fid =? ITS_METADATA_INVALID_INDEX) &&
    negb (plan_old c (U a) fid =? n) = true) by (unfold two; lia).
  destruct (negb _ && negb _).
  - pose proof (proj2 Hiff eq_refl) as Ht. pose proof Ht as [_ Hne]. apply Htwo in Ht as (o & Eo & Er).
    assert (Hoo : plan_old c (U a) fid = o) by (unfold plan_old; by rewrite Eo). rewrite Hoo in *.
    destruct (lookup_in_use c U a fid Hfid o Eo) as [Ho Hu].
    assert (Hro : replaced c T fid fl ms o = true) by (by apply Hrep).
    pose proof (table_entry c x a sb U T Hinv o Ho) as HTo. rewrite decide_True in HTo by done.
    destruct (T o) as [h|] eqn:ETo; [|done]. clear HTo.
    assert (HT1 : table_marked c T fid fl ms n g o =
      Some (with_flags (Z.lor (f_flags h) ITS_FLASH_FS_FLAG_DELETE) h)).
    { unfold table_marked. replace (o =? n) with false by lia. by rewrite Hro, ETo. }
    destruct (fs_inv_entry _ _ _ _ _ _ _ Hinv' Ho HT1) as [Hu' Hm'].
    pose proof (image_body c U' sb (proj1 (inv_holds _ _ _ _ _ _ Hinv'))) as HB'.
    assert (Hdel : forall j, 0 <= j < max_num_files c ->
      table_delete o (table_marked c T fid fl ms n g) j = table_written c T fid fl ms n g j).
    { intros j Hj. unfold table_delete, table_marked, table_written.
      destruct (Z.eqb_spec j o) as [->|Hjo].
      - replace (o =? n) with false by lia. by rewrite Hro.
      - destruct (j =? n); [done|]. destruct (replaced c T fid fl ms j) eqn:Erj; [|done].
        apply Hrep in Erj as [Ej _]; [|done]. congruence. }
    eapply (delete_idx_spec ops c Vw mf wf x' sb a U' _ o); [exact Hst|exact Hinv'|done|done| | |].
    + eapply no_alias_pos; [done|exact HB'|done|done|]. rewrite Hm'. cbn [with_flags f_max].
      by apply (Hpos o).
    + intros s2 x2 U2 Hst2 Hinv2. apply (HQ s2 x2 a sb U2 Hst2).
      exact (fs_inv_ext _ _ _ _ _ _ Hdel Hinv2).
    + eapply fail_any_mono; [exact HE|]. intros V (a' & Hs & [HV|HV]).
      * exists a', (table_marked c T fid fl ms n g). split; [done|]. split; [|done]. right. eauto using slot.
      * exists a', (table_written c T fid fl ms n g). split; [done|]. split; [right; eauto using slot|].
        by eapply holds_ext.
  - apply wp_ret. apply (HQ s x' sb a U' Hst). eapply fs_inv_ext; [|exact Hinv'].
    intros j Hj. unfold table_marked, table_written. destruct (j =? n); [done|].
    destruct (replaced c T fid fl ms j) eqn:Erj; [|done]. apply Hrep in Erj as [Ej Er]; [|done].
    assert (two n (plan_old c (U a) fid)) as Ht%Hiff by (apply Htwo; eauto). done.
Qed.

(** Phase one: data, tables and commit, then phase two. *)
Lemma write_phases_spec n F0 bm0 V s (Q : unit -> st -> Prop) (E : psa_status_t -> st -> Prop) :
  plan_ok c U a fid fl ms n F0 bm0 -> marked c a sb U fid fl ms V -> st_is x V s ->
  (forall s' x' a' sb' U', st_is x' U' s' ->
     fs_inv c x' a' sb' U' (table_written c T fid fl ms n g) -> Q tt s') ->
  (dsize <> 0 -> write_args_ok c ITS_FLASH_MAX_ALIGNMENT F0 off dsize = false ->
     forall s', st_is x V s' -> E PSA_ERROR_GENERIC_ERROR s') ->
  fail_any (holds_one_of c (write_states T fid fl ms g)) E ->
  wp (let! (fm, bm) := its_flash_fs_file_write_data ops ITS_FLASH_MAX_ALIGNMENT bm0 F0 off dsize data in
      do! its_flash_fs_file_write_meta ops (plan_old c (U a) fid) n dsize fm bm in
      if negb (plan_old c (U a) fid =? ITS_METADATA_INVALID_INDEX) &&
         negb (plan_old c (U a) fid =? n)
      then its_flash_fs_delete_idx ops (plan_old c (U a) fid) else ret tt) s Q E.
Proof using All.
  intros PO HV Hst HQ Hbad HE.
  pose proof (aligned_size_nonneg ms0 Hms) as Hms'.
  assert (Hgo : wp (do! (let! (fm, bm) := its_flash_fs_file_write_data ops ITS_FLASH_MAX_ALIGNMENT
      bm0 F0 off dsize data in
      its_flash_fs_file_write_meta ops (plan_old c (U a) fid) n dsize fm bm) in
      if negb (plan_old c (U a) fid =? ITS_METADATA_INVALID_INDEX) &&
         negb (plan_old c (U a) fid =? n)
      then its_flash_fs_delete_idx ops (plan_old c (U a) fid) else ret tt) s Q E).
  { apply wp_bind. eapply (write_commit_spec ops c Vw mf wf ITS_FLASH_MAX_ALIGNMENT x a sb U T
      Hinv Hmax fid fl ms Hlen Hfid Hfl Hms' n F0 bm0 PO off dsize data Hoff Hds Has Hdata);
      [exact HV|exact Hst| |exact Hbad|].
    - intros s' x' U' Hst' Hinv'. eapply write_delete_spec; eauto.
    - eapply fail_any_mono; [exact HE|]. intros V' HV'. apply crash_ok_one_of in HV'.
      eapply holds_one_of_mono; [|exact HV']. intros T' [->| ->]; [by left|right; eauto using slot]. }
  revert Hgo. unfold wp, bind. destruct (its_flash_fs_file_write_data _ _ _ _ _ _ _ s) as [[[fm bm]|e] s1];
    [|done]. by destruct (its_flash_fs_file_write_meta _ _ _ _ _ _ s1) as [[[]|e] s2].
Qed.

Lemma stage_states V : stage c sb (scratch_dblock (hdr_at (U a))) U V ->
  holds_one_of c (write_states T fid fl ms g) V.
Proof using All.
  intros HS. destruct (inv_facts c x a sb U T Hinv) as (_ & _ & _ & Hms' & Hne & _ & _ & _ & HH).
  assert (HV : crash_ok c T T V).
  { eapply (stage_crash_ok c wf a sb U V V); eauto. apply HS. lia. }
  apply crash_ok_one_of in HV. eapply holds_one_of_mono; [|exact HV]. intros T' [->| ->]; by left.
Qed.

Lemma file_write_spec s (Q : unit -> st -> Prop) (E : psa_status_t -> st -> Prop) :
  st_is x U s ->
  (forall n s' x' a' sb' U', slot_for c T fid fl ms n ->
     st_is x' U' s' -> fs_inv c x' a' sb' U' (table_written c T fid fl ms n g) -> Q tt s') ->
  (forall e s' V, e <> PSA_SUCCESS -> mf \/ write_refused (U a) fid fl ms dsize off e ->
     same_view V (Vw (snd s')) -> holds_one_of c (write_states T fid fl ms g) V -> E e s') ->
  wp (its_flash_fs_file_write ops ITS_FLASH_MAX_ALIGNMENT fid fl ms0 dsize off data) s Q E.
Proof using All.
  intros Hst HQ HE. destruct (inv_facts c x a sb U T Hinv) as
    (Hm & HB & Hma & Hms' & Hne & Hsd & He0 & He1 & HH).
  pose proof (aligned_size_nonneg ms0 Hms) as Hmsn. pose proof (mend_bounds wf).
  pose proof (wf_meta c wf). pose proof Hm as (Hc & _).
  assert (Hst0 : stage c sb (scratch_dblock (hdr_at (U a))) U U)
    by (split; [done|intros i Hi; apply He0; lia]).
  assert (HEf : fail_any (holds_one_of c (write_states T fid fl ms g)) E).
  { intros e s' V Hmf He Hs HV. eapply HE; eauto. }
  assert (HES : fail_any (stage c sb (scratch_dblock (hdr_at (U a))) U) E).
  { eapply fail_any_mono; [exact HEf|apply stage_states]. }
  assert (Hmst : forall V, marked c a sb U fid fl ms V ->
    stage c sb (scratch_dblock (hdr_at (U a))) U V).
  { intros V HV. unfold marked in HV. destruct (lookup_idx c (U a) fid) as [o|] eqn:Eo.
    2:{ eapply (stage_only_in c sb _ U U V sb 8 8); [done| |left; lia]. intros b' i _. apply HV. }
    destruct (replaces c (U a) fl ms o).
    2:{ eapply (stage_only_in c sb _ U U V sb 8 8); [done| |left; lia]. intros b' i _. apply HV. }
    destruct (lookup_idx_some c _ _ _ Eo) as [Ho _]. pose proof (nact_bounds wf).
    eapply stage_only_in; [exact Hst0|apply HV|left]. unfold foff. lia. }
  assert (Hrefuse : forall V e s', marked c a sb U fid fl ms V -> st_is x V s' -> e <> PSA_SUCCESS ->
    write_refused (U a) fid fl ms dsize off e -> E e s').
  { intros V e s' HV [_ Hs'] He Hr. eapply HE; eauto. by apply stage_states, Hmst. }
  unfold its_flash_fs_file_write. apply wp_bind. use get_ctx_spec; [exact Hst|].
  destruct (has_flag fl ITS_FLASH_FS_INTERNAL_FLAGS_MASK) eqn:Ei.
  { apply wp_fail. destruct Hst as [_ Hst]. apply (HE _ _ U); [done| |exact Hst|by apply stage_states].
    right. left. done. }
  rewrite Hc. cbv zeta.
  replace (if negb (ITS_FLASH_MAX_ALIGNMENT =? 1) then ITS_UTILS_ALIGN ms0 (program_unit c) else ms0)
    with ms by (unfold aligned_size; by destruct (_ =? 1)).
  assert (Hrest : forall V s1 reuse, marked c a sb U fid fl ms V -> st_is x V s1 ->
    match reuse with
    | Some (o, fm) => 0 <= lblock fm < nact c /\
        write_plan c (U a) fid fl ms = Ok (o, fm, bm_at (U a) (lblock fm))
    | None => write_plan c (U a) fid fl ms =
        plan_new c (U a) fid (negb (plan_old c (U a) fid =? ITS_METADATA_INVALID_INDEX)) fl ms
    end ->
    wp (let! (new_idx, file_meta, block_meta) :=
          its_flash_fs_file_write_place ops fid fl ms (plan_old c (U a) fid) reuse in
        let! (fm, bm) := its_flash_fs_file_write_data ops ITS_FLASH_MAX_ALIGNMENT block_meta
          file_meta off dsize data in
        do! its_flash_fs_file_write_meta ops (plan_old c (U a) fid) new_idx dsize fm bm in
        if negb (plan_old c (U a) fid =? ITS_METADATA_INVALID_INDEX) &&
           negb (plan_old c (U a) fid =? new_idx)
        then its_flash_fs_delete_idx ops (plan_old c (U a) fid) else ret tt) s1 Q E).
  { intros V s1 reuse HV Hst1 Hplan.
    assert (Hphase : forall n F0 bm0 s2, st_is x V s2 ->
      write_plan c (U a) fid fl ms = Ok (n, F0, bm0) ->
      wp (let! (fm, bm) := its_flash_fs_file_write_data ops ITS_FLASH_MAX_ALIGNMENT bm0
          F0 off dsize data in
        do! its_flash_fs_file_write_meta ops (plan_old c (U a) fid) n dsize fm bm in
        if negb (plan_old c (U a) fid =? ITS_METADATA_INVALID_INDEX) &&
           negb (plan_old c (U a) fid =? n)
        then its_flash_fs_delete_idx ops (plan_old c (U a) fid) else ret tt) s2 Q E).
    { intros n F0 bm0 s2 Hst2 HP.
      pose proof (write_plan_ok c wf U a _ HB Hma Hmax fid fl ms Hlen Hfid Hfl Hmsn n F0 bm0 HP) as PO.
      eapply (write_phases_spec n F0 bm0 V); [exact PO|exact HV|exact Hst2| | |exact HEf].
      - intros s' x' a' sb' U' Hst' Hinv'. apply (HQ n s' x' a' sb' U'); auto.
        exact (plan_slot c wf x a sb U T Hinv Hmax fid fl ms Hlen Hfid n F0 bm0 PO).
      - intros Hd Hb s' Hst'. apply (Hrefuse V); auto. right. right. eauto 8. }
    apply wp_bind. eapply (write_place_spec ops c Vw mf wf ITS_FLASH_MAX_ALIGNMENT x a sb _ U Hm HB He0 Hmax fid fl ms);
      [exact Hst1|exact HV| |].
    - destruct reuse as [[o fm]|].
      + destruct Hplan as [Hl Hp]. split; [done|]. intros s2 Hst2. by apply Hphase.
      + intros s2 Hst2. rewrite <- Hplan. destruct (write_plan c (U a) fid fl ms) as [[[n F0] bm0]|e] eqn:Ep.
        * by apply Hphase.
        * apply (Hrefuse V); auto; [|right; by left].
          intros ->. unfold plan_new in Hplan.
          assert (PSA_ERROR_INVALID_ARGUMENT <> PSA_SUCCESS) by done.
          assert (PSA_ERROR_INSUFFICIENT_STORAGE <> PSA_SUCCESS) by done.
          repeat case_match; congruence.
    - intros e s2 Hmf He Hst2. destruct Hst2 as [_ Hst2]. apply (HES e s2 V); auto. }
  apply wp_bind. eapply (write_lookup_spec ops c Vw mf wf ITS_FLASH_MAX_ALIGNMENT x a sb _ U Hm HB He0 Hmax fid fl ms);
    [exact Hst| |exact HES].
  destruct (lookup_idx c (U a) fid) as [o|] eqn:Eo.
  - intros s1 V Hst1 HV.
    assert (Hpo : plan_old c (U a) fid = o) by (unfold plan_old; by rewrite Eo).
    rewrite Hpo in Hrest. destruct (lookup_in_use c U a fid Hfid o Eo) as [Ho Hu].
    destruct (file_bounds c wf U a _ o HB Ho Hu) as (Hlb & _).
    apply (Hrest V s1); [done|done|]. unfold write_plan. rewrite Eo.
    destruct (replaces c (U a) fl ms o).
    + by replace (o =? ITS_METADATA_INVALID_INDEX) with false by lia.
    + destruct (has_flag fl ITS_FLASH_FS_FLAG_TRUNCATE); by split.
  - intros s1 V Hst1 HV.
    assert (Hpo : plan_old c (U a) fid = ITS_METADATA_INVALID_INDEX)
      by (unfold plan_old; by rewrite Eo).
    destruct (has_flag fl ITS_FLASH_FS_FLAG_CREATE) eqn:Ec.
    + rewrite Hpo in Hrest. apply (Hrest V s1); [done|done|]. unfold write_plan. by rewrite Eo, Ec.
    + apply (Hrefuse V); auto. right. left. unfold write_plan. by rewrite Eo, Ec.
Qed.
End Write.
End FileOps.

(** * Internal Trusted Storage: reading, querying and deleting by file ID *)

(** A read of a part of a buffer. *)
Lemma mread_sub f base off size len :
  0 <= off -> 0 <= size -> off + size <= len ->
  mread f (base + off) size = firstn (Z.to_nat size) (skipn (Z.to_nat off) (mread f base len)).
Proof.
  intros Ho Hs Hl. pose proof (length_mread f base len ltac:(lia)) as Hlm. apply mread_bytes.
  - rewrite length_firstn, length_skipn. lia.
  - intros k Hk. rewrite <- Z.add_assoc, <- (byte_at_mread f base len (off + k)) by lia.
    unfold byte_at. rewrite !nth_lookup, lookup_take_lt, lookup_drop by lia. do 2 f_equal. lia.
Qed.

Section FileAccess.
Context {D : Type} (ops : its_flash_fs_ops_t D) (c : its_flash_fs_config_t).
Context (Vw : D -> view) (mf : Prop) {FS : FlashSpec c ops Vw mf} (wf : wf_cfg c).
Local Abbreviation st := (its_flash_fs_ctx_t * D)%type.
Local Abbreviation st_is := (st_is Vw).
Local Abbreviation on_fail := (on_fail Vw mf).
Local Abbreviation fail_any := (fail_any Vw mf).

Context (x : its_flash_fs_ctx_t) (a sb : Z) (U : view) (T : table).
Context (Hinv : fs_inv c x a sb U T).
Context (fid : list Z) (Hlen : length fid = 12%nat) (Hfid : its_utils_validate_fid fid = PSA_SUCCESS).

(** A state that has not changed, after a status that is not a success. *)
Definition unchanged_fail (E : psa_status_t -> st -> Prop) : Prop :=
  forall e s', mf -> e <> PSA_SUCCESS -> st_is x U s' -> E e s'.

Lemma unchanged_on_fail E e : unchanged_fail E -> e <> PSA_SUCCESS ->
  on_fail x (same_view U) (fun _ s' => E e s').
Proof using Type.
  intros HE He e' s' U' Hmf _ Hs HU. apply HE; [done|done|]. eapply st_is_ext; [exact Hs|].
  intros b i. symmetry. apply HU.
Qed.

Lemma unchanged_on_fail' E : unchanged_fail E -> on_fail x (same_view U) E.
Proof using Type.
  intros HE e' s' U' Hmf He Hs HU. apply HE; [done|done|]. eapply st_is_ext; [exact Hs|].
  intros b i. symmetry. apply HU.
Qed.

(** The lookup by file ID. *)
Lemma get_file_idx_spec s (Q : Z -> st -> Prop) (E : psa_status_t -> st -> Prop) :
  st_is x U s ->
  (forall j g, table_lookup c T fid = Some j -> T j = Some g -> 0 <= j < max_num_files c ->
     in_use (fm_at c (U a) j) -> f_id g = fid -> forall s', st_is x U s' -> Q j s') ->
  (table_lookup c T fid = None -> forall s', st_is x U s' -> E PSA_ERROR_DOES_NOT_EXIST s') ->
  unchanged_fail E ->
  wp (its_flash_fs_mblock_get_file_idx ops fid) s Q E.
Proof using All.
  intros Hst HQ HN HE. destruct (inv_facts c x a sb U T Hinv) as (Hm & HB & _).
  rewrite (lookup_table c wf x a sb U T Hinv fid Hlen Hfid) in HQ, HN.
  use mblock_find_spec; [exact Hst|exact Hm| | |].
  - intros j Hj. by apply (body_fm c U a _ HB).
  - intros s' Hst'. fold (lookup_idx c (U a) fid).
    destruct (lookup_idx c (U a) fid) as [j|] eqn:Ej; [|by apply HN].
    destruct (lookup_in_use c U a fid Hfid j Ej) as [Hj Hu].
    pose proof (table_entry c x a sb U T Hinv j Hj) as HT. rewrite decide_True in HT by done.
    eapply HQ; eauto. cbn [f_id]. by destruct (lookup_idx_some c _ _ _ Ej).
  - intros s' Hmf Hst'. by apply HE.
Qed.

Lemma entry_facts j g : 0 <= j < max_num_files c -> in_use (fm_at c (U a) j) -> T j = Some g ->
  let m := fm_at c (U a) j in
  f_id g = id m /\ f_flags g = flags m /\ f_max g = max_size m /\
  Z.of_nat (length (f_data g)) = cur_size m /\
  f_data g = mread (U (phy_id (bm_at (U a) (lblock m)))) (data_idx m) (cur_size m) /\
  fm_words m /\ its_mblock_validate_file_meta c m = PSA_SUCCESS.
Proof using All.
  intros Hj Hu HT m. destruct (inv_facts c x a sb U T Hinv) as (_ & HB & _).
  destruct (body_fm c U a _ HB j Hj) as [Hw Hv].
  rewrite (table_entry c x a sb U T Hinv j Hj), decide_True in HT by done. injection HT as <-.
  cbn [f_id f_flags f_max f_data]. repeat (split; [done|]). split; [|by repeat split; apply Hw || exact Hv].
  apply length_mread. unfold fm_words in Hw. fold m in Hw. lia.
Qed.

(** ** its_flash_fs_file_exist *)
Lemma file_exist_spec s (Q : unit -> st -> Prop) (E : psa_status_t -> st -> Prop) :
  st_is x U s ->
  (forall j g, table_lookup c T fid = Some j -> T j = Some g -> forall s', st_is x U s' -> Q tt s') ->
  (table_lookup c T fid = None -> forall s', st_is x U s' -> E PSA_ERROR_DOES_NOT_EXIST s') ->
  unchanged_fail E ->
  wp (its_flash_fs_file_exist ops fid) s Q E.
Proof using All.
  intros Hst HQ HN HE. unfold its_flash_fs_file_exist. apply wp_bind, wp_on_err.
  apply get_file_idx_spec; [exact Hst| |done|].
  - intros j g H1 H2 _ _ _ s' Hst'. apply wp_ret. eauto.
  - intros e s' Hmf He Hst'. by apply HE.
Qed.

(** ** its_flash_fs_file_get_info *)
Lemma file_get_info_spec s (Q : its_file_info_t -> st -> Prop) (E : psa_status_t -> st -> Prop) :
  st_is x U s ->
  (forall j g, table_lookup c T fid = Some j -> T j = Some g -> forall s', st_is x U s' ->
     Q {| size_current := Z.of_nat (length (f_data g)); size_max := f_max g;
          info_flags := Z.land (f_flags g) ITS_FLASH_FS_USER_FLAGS_MASK |} s') ->
  (table_lookup c T fid = None -> forall s', st_is x U s' -> E PSA_ERROR_DOES_NOT_EXIST s') ->
  unchanged_fail E ->
  wp (its_flash_fs_file_get_info ops fid) s Q E.
Proof using All.
  intros Hst HQ HN HE. destruct (inv_facts c x a sb U T Hinv) as (Hm & _).
  unfold its_flash_fs_file_get_info. apply wp_bind, wp_on_err.
  apply get_file_idx_spec; [exact Hst| |done|intros e s' Hmf He Hst'; by apply HE].
  intros j g H1 H2 Hj Hu Hid s1 Hst1.
  destruct (entry_facts j g Hj Hu H2) as (E1 & E2 & E3 & E4 & _ & Hw & Hv).
  apply wp_bind. use read_file_meta_spec; [exact Hst1|exact Hm|done|done| |by apply unchanged_on_fail'].
  intros s2 Hst2. unfold fid_eqb. rewrite bool_decide_true by congruence. cbn [negb].
  apply wp_ret. rewrite <- E2, <- E3, <- E4. by apply (HQ j g).
Qed.

(** ** its_flash_fs_file_read *)
Lemma file_read_spec size off s (Q : list Z -> st -> Prop) (E : psa_status_t -> st -> Prop) :
  0 <= size < 2 ^ 32 -> 0 <= off < 2 ^ 32 -> st_is x U s ->
  (forall j g, table_lookup c T fid = Some j -> T j = Some g ->
     off + size <= Z.of_nat (length (f_data g)) -> forall s', st_is x U s' ->
     Q (firstn (Z.to_nat size) (skipn (Z.to_nat off) (f_data g))) s') ->
  (forall j g, table_lookup c T fid = Some j -> T j = Some g ->
     Z.of_nat (length (f_data g)) < off + size -> forall s', st_is x U s' ->
     E PSA_ERROR_INVALID_ARGUMENT s') ->
  (table_lookup c T fid = None -> forall s', st_is x U s' -> E PSA_ERROR_DOES_NOT_EXIST s') ->
  unchanged_fail E ->
  wp (its_flash_fs_file_read ops fid size off) s Q E.
Proof using All.
  intros Hsz Hoff Hst HQ HI HN HE. destruct (inv_facts c x a sb U T Hinv) as (Hm & HB & _).
  pose proof Hm as (Hc & _). pose proof (wf_bs c wf). pose proof (wf_nb c wf).
  unfold its_flash_fs_file_read. apply wp_bind, wp_on_err.
  apply get_file_idx_spec; [exact Hst| |done|intros e s' Hmf He Hst'; by apply HE].
  intros j g H1 H2 Hj Hu Hid s1 Hst1.
  destruct (entry_facts j g Hj Hu H2) as (E1 & E2 & E3 & E4 & E5 & Hw & Hv).
  destruct (file_bounds c wf U a _ j HB Hj Hu) as (Hlb & Hdi & Hcm & Hmb & _).
  apply wp_bind, wp_on_err.
  use read_file_meta_spec; [exact Hst1|exact Hm|done|done| |by apply unchanged_on_fail].
  intros s2 Hst2. unfold fid_eqb. rewrite bool_decide_true by congruence. cbn [negb].
  unfold fm_words in Hw.
  pose proof (check_contained_in_ok (cur_size (fm_at c (U a) j)) off size ltac:(lia) Hoff Hsz) as Hok.
  destruct (check_contained_in_cases (cur_size (fm_at c (U a) j)) off size) as [Ec|Ec]; rewrite Ec in Hok |- *.
  2:{ apply wp_fail. apply (HI j g); auto. destruct (Z.lt_ge_cases (Z.of_nat (length (f_data g))) (off + size)); [done|].
      exfalso. assert (PSA_ERROR_INVALID_ARGUMENT = PSA_SUCCESS) by (apply Hok; lia). done. }
  assert (Hin : off + size <= cur_size (fm_at c (U a) j)) by (by apply Hok). clear Hok.
  change (negb (PSA_SUCCESS =? PSA_SUCCESS)) with false. cbv iota.
  apply wp_on_err. unfold its_flash_fs_dblock_read_file, its_dblock_lo_to_phy.
  destruct (body_bm c U a _ HB _ Hlb) as [Hbw Hbv]. pose proof Hbv as Hbv'.
  apply (validate_block_meta_iff wf) in Hbv' as (Hphy & _); [|done]. unfold bm_words in Hbw.
  apply wp_bind, wp_bind, wp_attempt.
  use read_block_metadata_spec; [exact Hst2|exact Hm|done|done| |].
  2:{ intros e s' U' Hmf He Hs HU. apply wp_ret.
      change (ITS_BLOCK_INVALID_ID =? ITS_BLOCK_INVALID_ID) with true. apply wp_fail, HE; [done|done|].
      eapply st_is_ext; [exact Hs|]. intros b i. symmetry. apply HU. }
  intros s3 Hst3. apply wp_ret.
  assert (Hinvid : (phy_id (bm_at (U a) (lblock (fm_at c (U a) j))) =? ITS_BLOCK_INVALID_ID) = false).
  { apply Z.eqb_neq. unfold ITS_BLOCK_INVALID_ID. lia. }
  rewrite Hinvid, u32_small by lia.
  use dev_read_spec; [exact Hst3|exact Hc|unfold in_block; lia| |by apply unchanged_on_fail].
  intros s4 Hst4. rewrite (mread_sub _ _ off size (cur_size (fm_at c (U a) j))) by lia.
  rewrite <- E5. apply (HQ j g); auto. lia.
Qed.

(** ** its_flash_fs_file_delete *)
Lemma file_delete_spec s (Q : unit -> st -> Prop) (E : psa_status_t -> st -> Prop) :
  st_is x U s ->
  (forall d g, table_lookup c T fid = Some d -> T d = Some g -> 0 < f_max g) ->
  (forall d s' x' U', table_lookup c T fid = Some d -> st_is x' U' s' ->
     fs_inv c x' sb a U' (table_delete d T) -> Q tt s') ->
  (table_lookup c T fid = None -> forall s', st_is x U s' -> E PSA_ERROR_DOES_NOT_EXIST s') ->
  fail_any (holds_one_of c (fun T' => T' = T \/
    exists d, table_lookup c T fid = Some d /\ T' = table_delete d T)) E ->
  wp (its_flash_fs_file_delete ops fid) s Q E.
Proof using All.
  intros Hst Hpos HQ HN HE. destruct (inv_facts c x a sb U T Hinv) as (Hm & HB & Hma & Hms & Hne & Hr).
  assert (Hold : forall s' e, mf -> e <> PSA_SUCCESS -> st_is x U s' -> E e s').
  { intros s' e Hmf He [_ Hs]. apply (HE e s' U); auto.
    apply (holds_one_of_mono c (fun T' => T' = T \/ T' = T)); [tauto|]. apply crash_ok_one_of.
    apply (stage_crash_ok c wf a sb U U U T T); auto; [apply Hr| |].
    - split; [done|]. intros i Hi. destruct Hr as (_ & He0 & _). apply He0.
      pose proof (mend_bounds wf). pose proof (wf_meta c wf). lia.
    - destruct Hr as (_ & He0 & _). apply He0. pose proof (mend_bounds wf). pose proof (wf_meta c wf). lia. }
  unfold its_flash_fs_file_delete. apply wp_bind, wp_on_err.
  apply get_file_idx_spec; [exact Hst| |done|intros e s' Hmf He Hst'; by apply Hold].
  intros d g H1 H2 Hd Hu Hid s1 Hst1.
  destruct (entry_facts d g Hd Hu H2) as (_ & _ & E3 & _).
  eapply (delete_idx_spec ops c Vw mf wf x a sb U T d); [exact Hst1|exact Hinv|done|done| | |].
  - eapply no_alias_pos; eauto. rewrite <- E3. eauto.
  - intros s' x' U' Hst' Hinv'. by apply (HQ d s' x' U').
  - eapply fail_any_mono; [exact HE|]. intros V HV%crash_ok_one_of.
    eapply holds_one_of_mono; [|exact HV]. intros T' [->| ->]; [by left|right; eauto].
Qed.
End FileAccess.
