(* ===== verification/ItsMount.v ===== *)
(** * Internal Trusted Storage: mounting recovers from an interrupted update *)

From Stdlib Require Import ZArith List Lia Bool.
From stdpp Require Import base tactics list sets.
From S2P Require Import Prelude ItsUtils ItsFlash ItsMblock ItsFs ItsImage ItsDevSpec.
From S2P Require Import ItsMblockSpec ItsLookupSpec ItsCommit ItsFinalize ItsRebuild.
From S2P Require Import ItsDeletePlan ItsRebuild ItsWrite ItsFileWrite.
From S2P Require Import ItsFileSpec ItsFileOps.
From S2P Require Import ItsMblockSpec ItsLookupSpec ItsCommit ItsFinalize.
Import ListNotations.
Local Open Scope Z_scope.

(** ** The deletion that mounting completes *)
Definition is_flagged (g : option file) : bool :=
  match g with Some g => has_flag (f_flags g) ITS_FLASH_FS_FLAG_DELETE | None => false end.

Definition first_flagged (c : its_flash_fs_config_t) (T : table) : option Z :=
  first_idx (fun j => is_flagged (T j)) (nfiles c) 0.

Definition recovered (c : its_flash_fs_config_t) (T : table) : table :=
  match first_flagged c T with
  | Some d => table_delete d T
  | None => T
  end.

(** No file is half deleted. *)
Definition clean (c : its_flash_fs_config_t) (T : table) : Prop :=
  forall j, 0 <= j < max_num_files c -> is_flagged (T j) = false.

Lemma recovered_clean c T : clean c T -> recovered c T = T.
Proof.
  intros H. unfold recovered, first_flagged. rewrite first_idx_none_intro; [done|].
  unfold nfiles. intros k Hk. apply H. lia.
Qed.

Section Mount.
Context {D : Type} (ops : its_flash_fs_ops_t D) (c : its_flash_fs_config_t).
Context (Vw : D -> view) {FS : FlashSpec c ops Vw False} (wf : wf_cfg c).
Local Abbreviation st := (its_flash_fs_ctx_t * D)%type.
Local Abbreviation st_is := (st_is Vw).

Lemma no_fail x R E : on_fail Vw False x R E.
Proof. intros e s' U' []. Qed.
Lemma no_fail_any R E : fail_any Vw False R E.
Proof. intros e s' U' []. Qed.

Lemma select_block V a : select c V = Some a -> is_metablock a /\ hdr_ok c (hdr_at (V a)) = true.
Proof.
  unfold select, is_metablock, its_mblock_latest_meta_block.
  destruct (hdr_ok c (hdr_at (V 0))) eqn:E0; destruct (hdr_ok c (hdr_at (V 1))) eqn:E1; try done.
  - intros [= <-]. repeat case_match; auto.
  - intros [= <-]. auto.
  - intros [= <-]. auto.
Qed.

Definition other_block (a : Z) : Z := ITS_OTHER_META_BLOCK a.

Lemma other_block_facts a : is_metablock a -> is_metablock (other_block a) /\ a <> other_block a.
Proof.
  unfold is_metablock, other_block, ITS_OTHER_META_BLOCK, ITS_METADATA_BLOCK0, ITS_METADATA_BLOCK1.
  intros [->| ->]; simpl; lia.
Qed.

(** Choosing the active metadata block. *)
Lemma get_active_spec x V s a (Q : unit -> st -> Prop) (E : psa_status_t -> st -> Prop) :
  st_is x V s -> cfg x = c -> select c V = Some a ->
  (forall s', st_is (set_metablocks a (other_block a) x) V s' -> Q tt s') ->
  wp (its_init_get_active_metablock ops) s Q E.
Proof.
  intros Hst Hc Hsel HQ. pose proof (wf_nb c wf). pose proof (mend_bounds wf). pose proof (wf_meta c wf).
  unfold its_init_get_active_metablock. apply wp_bind. use get_ctx_spec; [exact Hst|]. rewrite Hc.
  apply wp_bind, wp_attempt. use (dev_read_spec ops c Vw False); [exact Hst|exact Hc| | |apply no_fail].
  { unfold in_block, ITS_METADATA_BLOCK0, ITS_BLOCK_META_HEADER_SIZE. lia. }
  intros s1 Hst1. apply wp_bind, wp_attempt.
  use (dev_read_spec ops c Vw False); [exact Hst1|exact Hc| | |apply no_fail].
  { unfold in_block, ITS_METADATA_BLOCK1, ITS_BLOCK_META_HEADER_SIZE. lia. }
  intros s2 Hst2. fold (hdr_at (V ITS_METADATA_BLOCK0)) (hdr_at (V ITS_METADATA_BLOCK1)).
  fold (hdr_ok c (hdr_at (V ITS_METADATA_BLOCK0))) (hdr_ok c (hdr_at (V ITS_METADATA_BLOCK1))).
  unfold select in Hsel. change ITS_METADATA_BLOCK0 with 0. change ITS_METADATA_BLOCK1 with 1.
  apply wp_bind.
  destruct (hdr_ok c (hdr_at (V 0))), (hdr_ok c (hdr_at (V 1))); try done; injection Hsel as <-;
    apply wp_ret; (use set_ctx_spec; [exact Hst2|exact HQ]).
Qed.

Lemma read_header_spec x V s a (Q : unit -> st -> Prop) (E : psa_status_t -> st -> Prop) :
  st_is x V s -> cfg x = c -> active_metablock x = a -> is_metablock a ->
  hdr_ok c (hdr_at (V a)) = true ->
  (forall s', st_is (set_meta_block_header (hdr_at (V a)) x) V s' -> Q tt s') ->
  wp (its_mblock_read_meta_header ops) s Q E.
Proof.
  intros Hst Hc Ha Hma Hok HQ. pose proof (metablock_lt wf a Hma). pose proof (mend_bounds wf).
  pose proof (wf_meta c wf).
  unfold its_mblock_read_meta_header. apply wp_bind. use get_ctx_spec; [exact Hst|]. rewrite Ha, Hc.
  apply wp_bind. use (dev_read_spec ops c Vw False); [exact Hst|exact Hc| | |apply no_fail].
  { unfold in_block, ITS_BLOCK_META_HEADER_SIZE. lia. }
  intros s1 Hst1. fold (hdr_at (V a)). apply wp_bind. use set_ctx_spec; [exact Hst1|].
  intros s2 Hst2. apply check_spec; [by apply hdr_ok_validate|]. by apply HQ.
Qed.

(** Erasing the scratch blocks of a mounted image leaves it as it is. *)
Lemma erase2_holds V a T : holds c V a T ->
  let V' := erase2 c V (other_block a) (scratch_dblock (hdr_at (V a))) in
  holds c V' a T /\ (forall i, V' a i = V a i).
Proof.
  intros [HI HT] V'. destruct (other_block_facts a (image_meta c V a HI)) as [Hmo Hne].
  pose proof (image_body c V a HI) as HB. pose proof (image_meta c V a HI) as Hma.
  assert (Hsame : forall b i, b <> other_block a -> ~ scratch_data c (scratch_dblock (hdr_at (V a))) b ->
    V' b i = V b i).
  { intros b i H1 H2. destruct (erase2_at c V (other_block a) (scratch_dblock (hdr_at (V a))) b i)
      as [H|[[?|?] _]]; done. }
  assert (Ha : forall i, V' a i = V a i).
  { intros i. apply Hsame; [done|]. intros [Hn Hs]. pose proof (body_sd c V a _ HB Hn).
    unfold is_metablock in Hma. lia. }
  assert (HA : agree c V V' a).
  { split; [intros; apply Ha|]. intros l i Hl Hi. pose proof (body_phy c V a _ HB l Hl) as [H1 H2].
    apply Hsame; [unfold is_metablock in Hmo; lia|]. intros [_ E]. congruence. }
  assert (Hh : hdr_at (V' a) = hdr_at (V a)) by (apply hdr_at_ext; intros; apply Ha).
  split; [|done]. split.
  - split; rewrite ?Hh; [done|apply (image_words c V a HI)|apply (image_hdr c V a HI)|].
    by eapply body_agree.
  - intros j Hj. rewrite (file_at_agree c wf V V' a _ j HA HB Hj). auto.
Qed.

(** ** its_flash_fs_mblock_init *)
Lemma mblock_init_spec x V s a T (Q : unit -> st -> Prop) (E : psa_status_t -> st -> Prop) :
  st_is x V s -> cfg x = c -> select c V = Some a -> holds c V a T ->
  (forall s' x' U', st_is x' U' s' -> fs_inv c x' a (other_block a) U' T -> Q tt s') ->
  wp (its_flash_fs_mblock_init ops) s Q E.
Proof.
  intros Hst Hc Hsel HH HQ. destruct (select_block V a Hsel) as [Hma Hok].
  destruct (other_block_facts a Hma) as [Hmo Hne]. destruct (erase2_holds V a T HH) as [HH' Ha'].
  pose proof HH as [HI HT]. pose proof (image_body c V a HI) as HB.
  unfold its_flash_fs_mblock_init.
  apply wp_bind. use (dev_init_spec ops c Vw False); [exact Hst|exact Hc| |apply no_fail].
  intros s1 Hst1. apply wp_bind, wp_on_err. eapply get_active_spec; [exact Hst1|exact Hc|exact Hsel|].
  intros s2 Hst2. apply wp_bind, wp_on_err. eapply read_header_spec; [exact Hst2|done|done|done|done|].
  intros s3 Hst3. set (x' := set_meta_block_header _ _) in Hst3.
  assert (Hm : mounted c x' a (other_block a)) by (repeat split; done).
  assert (Hx : meta_block_header x' = hdr_at (V a)) by done.
  use (erase_scratch_blocks_spec ops c Vw False); [exact Hst3|exact Hm| | |apply no_fail].
  { rewrite Hx. intros Hn. pose proof (body_sd c V a _ HB Hn). lia. }
  intros s4 Hst4. rewrite Hx in Hst4. apply (HQ s4 x' _ Hst4).
  assert (Hh : hdr_at (erase2 c V (other_block a) (scratch_dblock (hdr_at (V a))) a) = hdr_at (V a))
    by (apply hdr_at_ext; intros; apply Ha').
  split; [exact Hm|exact HH'| | |].
  - by rewrite Hh, Hx.
  - intros i Hi. apply erase2_erased; [by left|lia].
  - intros Hn i Hi. rewrite Hh. apply erase2_erased; [|lia]. by right.
Qed.

(** ** its_flash_fs_prepare *)
Lemma flagged_idx x a sb U T : fs_inv c x a sb U T ->
  first_idx (fun j => negb (Z.land (flags (fm_at c (U a) j)) ITS_FLASH_FS_FLAG_DELETE =? 0))
    (nfiles c) 0 = first_flagged c T.
Proof.
  intros Hinv. unfold first_flagged. destruct (inv_facts c x a sb U T Hinv) as (_ & HB & _).
  apply first_idx_ext_in. intros j Hj. unfold nfiles in Hj. pose proof (wf_nf c wf).
  rewrite (table_entry c x a sb U T Hinv) by lia. case_decide as Hu; [done|].
  by rewrite (body_free c U a _ HB) by (done || lia).
Qed.

Lemma prepare_spec x V s a T (Q : unit -> st -> Prop) (E : psa_status_t -> st -> Prop) :
  st_is x V s -> cfg x = c -> select c V = Some a -> holds c V a T ->
  (forall d g, first_flagged c T = Some d -> T d = Some g -> 0 < f_max g) ->
  (forall s' x' a' sb' U', st_is x' U' s' -> fs_inv c x' a' sb' U' (recovered c T) -> Q tt s') ->
  wp (its_flash_fs_prepare ops) s Q E.
Proof.
  intros Hst Hc Hsel HH Hpos HQ. unfold its_flash_fs_prepare.
  apply wp_bind. eapply mblock_init_spec; [exact Hst|exact Hc|exact Hsel|exact HH|].
  intros s1 x1 U1 Hst1 Hinv. pose proof Hinv as [Hm _ _ _ _].
  destruct (inv_facts c x1 a _ U1 T Hinv) as (_ & HB & _).
  apply wp_bind, wp_attempt.
  use (mblock_find_spec ops c Vw False); [exact Hst1|exact Hm| | |intros s2 []].
  - intros j Hj. by apply (body_fm c U1 a _ HB).
  - intros s2 Hst2. rewrite (flagged_idx x1 a _ U1 T Hinv). unfold recovered in HQ.
    destruct (first_flagged c T) as [d|] eqn:Ed.
    + pose proof Ed as Ed'. apply first_idx_some in Ed' as (Hd & Hf & _). unfold nfiles in Hd.
      destruct (T d) as [g|] eqn:ETd; [|done]. assert (Hd' : 0 <= d < max_num_files c) by lia.
      destruct (fs_inv_entry c x1 a _ U1 T d g Hinv Hd' ETd) as [Hu Hmx].
      eapply (delete_idx_spec ops c Vw False wf x1 a _ U1 T d);
        [exact Hst2|exact Hinv|done|done| | |apply no_fail_any].
      * eapply no_alias_pos; eauto. rewrite Hmx. eauto.
      * intros s3 x3 U3 Hst3 Hinv3. eauto.
    + change (PSA_ERROR_DOES_NOT_EXIST =? PSA_ERROR_DOES_NOT_EXIST) with true. apply wp_ret. eauto.
Qed.
End Mount.

(** * Internal Trusted Storage: a reset creates the empty filesystem *)

(** The table of an empty filesystem. *)
Definition table_empty : table := fun _ => None.

Section Reset.
Context {D : Type} (ops : its_flash_fs_ops_t D) (c : its_flash_fs_config_t).
Context (Vw : D -> view) {FS : FlashSpec c ops Vw False} (wf : wf_cfg c).
Local Abbreviation st := (its_flash_fs_ctx_t * D)%type.
Local Abbreviation st_is := (st_is Vw).

(** The entries of a fresh block table. *)
Definition fresh_bm (l : Z) : its_block_meta_t :=
  if l =? 0 then {| phy_id := 0; data_start := mend c; free_size := block_size c - mend c |}
  else {| phy_id := l + 2; data_start := 0; free_size := block_size c |}.

Lemma fresh_bm_words l : 0 <= l < nact c -> bm_words (fresh_bm l).
Proof.
  intros Hl. pose proof (nact_bounds wf). pose proof (wf_nb c wf). pose proof (wf_bs c wf).
  pose proof (mend_bounds wf). pose proof (wf_meta c wf).
  unfold fresh_bm, bm_words. destruct (l =? 0); cbn [phy_id data_start free_size]; lia.
Qed.

Lemma dedicated_nb l : 1 <= l < nact c -> l + 2 < num_blocks c.
Proof. unfold nact. destruct (Z.eqb_spec (num_blocks c) 2); lia. Qed.

Lemma fresh_bm_valid l : 0 <= l < nact c -> its_mblock_validate_block_meta c (fresh_bm l) = PSA_SUCCESS.
Proof.
  intros Hl. pose proof (fresh_bm_words l Hl) as Hw. apply (validate_block_meta_iff wf); [done|].
  pose proof (wf_nb c wf). pose proof (mend_bounds wf). pose proof (wf_meta c wf).
  unfold fresh_bm, is_metablock. destruct (Z.eqb_spec l 0); cbn [phy_id data_start free_size].
  - rewrite decide_True by lia. lia.
  - pose proof (dedicated_nb l ltac:(lia)). rewrite decide_False by lia. lia.
Qed.

(** A block with fresh tables is the image of the empty table. *)
Lemma fresh_body V : (forall l, 0 <= l < nact c -> bm_at (V 1) l = fresh_bm l) ->
  (forall j, 0 <= j < max_num_files c -> fm_at c (V 1) j = empty_file_meta) ->
  body c V 1 (its_init_scratch_dblock c).
Proof.
  intros Hb Hf. pose proof (nact_bounds wf). pose proof (wf_nb c wf). pose proof (wf_nb3 c wf).
  split.
  - intros l Hl. rewrite Hb by done. split; [by apply fresh_bm_words|by apply fresh_bm_valid].
  - rewrite Hb by lia. right. unfold is_metablock, fresh_bm. cbn. lia.
  - intros l Hl. rewrite Hb by lia. unfold fresh_bm. replace (l =? 0) with false by lia.
    cbn [phy_id]. split; [lia|]. pose proof (dedicated_nb l Hl). unfold its_init_scratch_dblock.
    destruct (num_blocks c =? 2); lia.
  - intros l l' Hl Hl'. rewrite !Hb by lia. unfold fresh_bm.
    replace (l =? 0) with false by lia. replace (l' =? 0) with false by lia. cbn [phy_id]. lia.
  - intros Hn. unfold its_init_scratch_dblock. destruct (Z.eqb_spec (num_blocks c) 2); lia.
  - intros j Hj. rewrite Hf by done. split; [apply empty_file_meta_words|].
    apply (validate_file_meta_iff wf); [apply empty_file_meta_words|]. split; [cbn; lia|].
    by intros ?%empty_not_in_use.
  - intros j Hj _. by rewrite Hf.
  - intros l Hl. exists []. split; [constructor|]. split.
    + intros j. split; [by intros ?%not_elem_of_nil|]. intros (Hj & Hu & _).
      rewrite Hf in Hu by done. by apply empty_not_in_use in Hu.
    + rewrite Hb by done. unfold fresh_bm. destruct (l =? 0); cbn [data_start free_size].
      * replace (block_size c - (block_size c - mend c)) with (mend c) by lia. constructor.
      * rewrite Z.sub_diag. constructor.
Qed.

(** No metadata block has a valid header. *)
Lemma get_active_none_spec x V s (Q : unit -> st -> Prop) (E : psa_status_t -> st -> Prop) :
  st_is x V s -> cfg x = c -> select c V = None ->
  (forall s', st_is x V s' -> E PSA_ERROR_GENERIC_ERROR s') ->
  wp (its_init_get_active_metablock ops) s Q E.
Proof.
  intros Hst Hc Hsel HE. pose proof (wf_nb c wf). pose proof (mend_bounds wf). pose proof (wf_meta c wf).
  unfold its_init_get_active_metablock. apply wp_bind. use get_ctx_spec; [exact Hst|]. rewrite Hc.
  apply wp_bind, wp_attempt. use (dev_read_spec ops c Vw False); [exact Hst|exact Hc| | |apply no_fail].
  { unfold in_block, ITS_METADATA_BLOCK0, ITS_BLOCK_META_HEADER_SIZE. lia. }
  intros s1 Hst1. apply wp_bind, wp_attempt.
  use (dev_read_spec ops c Vw False); [exact Hst1|exact Hc| | |apply no_fail].
  { unfold in_block, ITS_METADATA_BLOCK1, ITS_BLOCK_META_HEADER_SIZE. lia. }
  intros s2 Hst2. fold (hdr_at (V ITS_METADATA_BLOCK0)) (hdr_at (V ITS_METADATA_BLOCK1)).
  fold (hdr_ok c (hdr_at (V ITS_METADATA_BLOCK0))) (hdr_ok c (hdr_at (V ITS_METADATA_BLOCK1))).
  unfold select in Hsel. change ITS_METADATA_BLOCK0 with 0. change ITS_METADATA_BLOCK1 with 1.
  apply wp_bind. destruct (hdr_ok c (hdr_at (V 0))), (hdr_ok c (hdr_at (V 1))); try done.
  by apply wp_fail, HE.
Qed.

(** Mounting such a device fails and changes nothing. *)
Lemma prepare_none_spec x V s (Q : unit -> st -> Prop) (E : psa_status_t -> st -> Prop) :
  st_is x V s -> cfg x = c -> select c V = None ->
  (forall s', st_is x V s' -> E PSA_ERROR_GENERIC_ERROR s') ->
  wp (its_flash_fs_prepare ops) s Q E.
Proof.
  intros Hst Hc Hsel HE. unfold its_flash_fs_prepare, its_flash_fs_mblock_init. apply wp_bind, wp_bind.
  use (dev_init_spec ops c Vw False); [exact Hst|exact Hc| |apply no_fail].
  intros s1 Hst1. apply wp_bind, wp_on_err. by eapply get_active_none_spec.
Qed.

(** Whether or not a valid header is found. *)
Lemma get_active_any_spec x V s (Q : res unit -> st -> Prop) (E : psa_status_t -> st -> Prop) :
  st_is x V s -> cfg x = c ->
  (forall r s' x', st_is x' V s' -> cfg x' = c -> meta_block_header x' = meta_block_header x ->
     (r = Ok tt -> is_metablock (scratch_metablock x')) -> Q r s') ->
  wp (attempt (its_init_get_active_metablock ops)) s Q E.
Proof.
  intros Hst Hc HQ. apply wp_attempt. destruct (select c V) as [a|] eqn:Hsel.
  - destruct (select_block c V a Hsel) as [Hma _].
    eapply (get_active_spec ops c Vw wf x V); [exact Hst|exact Hc|exact Hsel|].
    intros s' Hst'. apply (HQ (Ok tt) s' _ Hst'); [done|done|]. intros _. by apply other_block_facts.
  - eapply get_active_none_spec; [exact Hst|exact Hc|exact Hsel|].
    intros s' Hst'. by apply (HQ (Err PSA_ERROR_GENERIC_ERROR) s' x Hst').
Qed.

(** ** The two loops over the dedicated blocks and the one over the files *)
Local Abbreviation nd := (Z.to_nat (its_num_dedicated_dblocks c)).

Lemma nd_eq : Z.of_nat nd = nact c - 1.
Proof. pose proof (nact_bounds wf). rewrite (num_dedicated_eq wf). lia. Qed.

Lemma dblock_id l : 0 <= l < nact c - 1 -> u32 (l + its_init_dblock_start c) = l + 3.
Proof.
  intros Hl. pose proof (dedicated_nb (l + 1) ltac:(lia)). pose proof (wf_nb c wf).
  unfold its_init_dblock_start, nact in *. destruct (Z.eqb_spec (num_blocks c) 2); [lia|].
  apply u32_small. lia.
Qed.

(** Erasing the dedicated blocks: the scratch metadata block is untouched. *)
Lemma erase_dedicated_spec x V s (Q : unit + psa_status_t -> st -> Prop) (E : psa_status_t -> st -> Prop) :
  st_is x V s -> cfg x = c ->
  (forall s' V', st_is x V' s' -> (forall b i, b < 3 -> V' b i = V b i) ->
     (forall l i, 1 <= l < nact c -> 0 <= i < block_size c -> V' (l + 2) i = erase_val c) ->
     Q (inr PSA_SUCCESS) s') ->
  wp (mfor (R := unit) nd 0 PSA_SUCCESS
       (fun i err => let! e := attempt (dev_erase ops (u32 (i + its_init_dblock_start c))) in
                     ret (inr (Z.lor err (status_of e))))) s Q E.
Proof.
  intros Hst Hc HQ. pose proof nd_eq as Hnd.
  apply wp_mfor with (I := fun k acc s' => acc = PSA_SUCCESS /\ exists V', st_is x V' s' /\
    (forall b i, b < 3 -> V' b i = V b i) /\
    (forall l i, 1 <= l < k + 1 -> 0 <= i < block_size c -> V' (l + 2) i = erase_val c)).
  - split; [done|]. exists V. split; [done|]. split; [done|]. intros; lia.
  - intros k acc s1 Hk (-> & V1 & Hst1 & Hlow & He). rewrite dblock_id by lia.
    pose proof (dedicated_nb (k + 1) ltac:(lia)). apply wp_bind, wp_attempt.
    use (dev_erase_spec ops c Vw False); [exact Hst1|exact Hc|lia| |apply no_fail].
    intros s2 Hst2. apply wp_ret. split; [done|]. eexists. split; [exact Hst2|]. split.
    + intros b i Hb. unfold blk_erase. blk_case; [lia|]. by apply Hlow.
    + intros l i Hl Hi. unfold blk_erase. blk_case; [done|]. apply He; lia.
  - intros acc s1 (-> & V1 & Hst1 & Hlow & He). apply (HQ s1 V1 Hst1); [done|].
    intros l i Hl Hi. apply He; lia.
Qed.

(** Writing the entries of the block table after the first one. *)
Lemma fill_blocks_spec x sb V s (Q : unit + unit -> st -> Prop) (E : psa_status_t -> st -> Prop) :
  st_is x V s -> mounted c x 0 sb -> erased c V sb (boff 1) (foff c 0 - boff 1) ->
  (forall s' V', st_is x V' s' -> only_in sb (boff 1) (foff c 0) V V' ->
     (forall l, 1 <= l < nact c -> bm_at (V' sb) l = fresh_bm l) -> Q (inr tt) s') ->
  wp (mfor (R := unit) nd 0 tt
       (fun i _ =>
          do! its_mblock_update_scratch_block_meta ops (u32 (i + 1))
                {| phy_id := u32 (i + its_init_dblock_start c); data_start := 0;
                   free_size := block_size c |} or_return PSA_ERROR_GENERIC_ERROR in
          ret (inr tt))) s Q E.
Proof.
  intros Hst Hm He HQ. pose proof nd_eq as Hnd. pose proof (nact_bounds wf). pose proof (wf_nb c wf).
  assert (Hr : forall l, 1 <= l < nact c -> boff 1 <= boff l /\ boff l + 12 <= foff c 0)
    by (intros; unfold boff, foff; lia).
  apply wp_mfor with (I := fun k _ s' => exists V', st_is x V' s' /\
    only_in sb (boff 1) (foff c 0) V V' /\ erased c V' sb (boff (k + 1)) (foff c 0 - boff (k + 1)) /\
    (forall l, 1 <= l < k + 1 -> bm_at (V' sb) l = fresh_bm l)).
  - exists V. split; [done|]. split; [apply only_in_refl|]. split; [exact He|]. intros; lia.
  - intros k [] s1 Hk (V1 & Hst1 & Ho1 & He1 & Hb1). rewrite dblock_id, u32_small by lia.
    assert (Hfb : {| phy_id := k + 3; data_start := 0; free_size := block_size c |} = fresh_bm (k + 1)).
    { unfold fresh_bm. replace (k + 1 =? 0) with false by lia. f_equal. lia. }
    rewrite Hfb. apply wp_bind, wp_on_err. specialize (Hr (k + 1) ltac:(lia)).
    use (update_block_meta_spec ops c Vw False); [exact Hst1|exact Hm|lia|apply fresh_bm_words; lia
      |intros i Hi; apply He1; lia| |apply no_fail].
    intros s2 V2 Hst2 Ho2 Hb2. apply wp_ret. exists V2. split; [done|]. split; [|split].
    + eapply only_in_trans; [exact Ho1|]. eapply only_in_mono; [exact Ho2|lia|lia].
    + eapply erased_only_in; [exact Ho2|unfold boff; lia|]. intros i Hi. apply He1. unfold boff in *. lia.
    + intros l Hl. destruct (Z.eq_dec l (k + 1)) as [->|]; [done|].
      rewrite (bm_at_only_in V1 V2 _ _ _ sb l Ho2) by (unfold boff; lia). apply Hb1. lia.
  - intros [] s1 (V1 & Hst1 & Ho1 & He1 & Hb1). apply (HQ s1 V1 Hst1); [done|].
    intros l Hl. apply Hb1. lia.
Qed.

Lemma fill_files_spec x sb V s (Q : unit + unit -> st -> Prop) (E : psa_status_t -> st -> Prop) :
  st_is x V s -> mounted c x 0 sb -> erased c V sb (foff c 0) (mend c - foff c 0) ->
  (forall s' V', st_is x V' s' -> only_in sb (foff c 0) (mend c) V V' ->
     (forall j, 0 <= j < max_num_files c -> fm_at c (V' sb) j = empty_file_meta) -> Q (inr tt) s') ->
  wp (mfor (R := unit) (Z.to_nat (max_num_files c)) 0 tt
       (fun i _ =>
          do! its_flash_fs_mblock_update_scratch_file_meta ops i empty_file_meta
            or_return PSA_ERROR_GENERIC_ERROR in
          ret (inr tt))) s Q E.
Proof.
  intros Hst Hm He HQ. pose proof (wf_nf c wf).
  apply wp_mfor with (I := fun k _ s' => exists V', st_is x V' s' /\
    only_in sb (foff c 0) (mend c) V V' /\ erased c V' sb (foff c k) (mend c - foff c k) /\
    (forall j, 0 <= j < k -> fm_at c (V' sb) j = empty_file_meta)).
  - exists V. split; [done|]. split; [apply only_in_refl|]. split; [exact He|]. intros; lia.
  - intros k [] s1 Hk (V1 & Hst1 & Ho1 & He1 & Hb1). apply wp_bind, wp_on_err.
    assert (Hr : foff c 0 <= foff c k /\ foff c k + 32 <= mend c) by (unfold mend, foff; lia).
    use (update_scratch_file_meta_spec ops c Vw False); [exact Hst1|exact Hm|lia|apply empty_file_meta_words
      |intros i Hi; apply He1; lia| |apply no_fail].
    intros s2 V2 Hst2 Ho2 Hb2. apply wp_ret. exists V2. split; [done|]. split; [|split].
    + eapply only_in_trans; [exact Ho1|]. eapply only_in_mono; [exact Ho2|lia|lia].
    + eapply erased_only_in; [exact Ho2|unfold foff; lia|]. intros i Hi. apply He1. unfold foff in *. lia.
    + intros j Hj. destruct (Z.eq_dec j k) as [->|]; [done|].
      rewrite (fm_at_only_in c V1 V2 _ _ _ sb j Ho2) by (unfold foff; lia). apply Hb1. lia.
  - intros [] s1 (V1 & Hst1 & Ho1 & He1 & Hb1). apply (HQ s1 V1 Hst1); [done|].
    intros j Hj. apply Hb1. lia.
Qed.

(** The header a reset writes, before the swap count is advanced. *)
Definition fresh_header (h : its_metadata_block_header_t) : its_metadata_block_header_t :=
  set_fs_version ITS_SUPPORTED_VERSION
    (set_scratch_dblock (its_init_scratch_dblock c)
       (set_active_swap_count (if erase_val c =? 0 then 1 else 0) h)).

Lemma fresh_header_fields h : hdr_fields (next_header c (fresh_header h)) /\
  fs_version (next_header c (fresh_header h)) = 1 /\
  scratch_dblock (next_header c (fresh_header h)) = its_init_scratch_dblock c.
Proof.
  assert (E : scratch_dblock (next_header c (fresh_header h)) = its_init_scratch_dblock c /\
    fs_version (next_header c (fresh_header h)) = 1 /\
    active_swap_count (next_header c (fresh_header h)) =
      next_count c (active_swap_count (fresh_header h))) by done.
  destruct E as (E1 & E2 & E3). split; [|done]. unfold hdr_fields. rewrite E1, E2, E3.
  unfold its_init_scratch_dblock. split; [destruct (_ =? 2); lia|]. split; [lia|].
  apply next_count_range.
Qed.

(** The image a reset leaves: everything in metadata block 1. *)
Lemma fresh_holds V h : (forall l, 0 <= l < nact c -> bm_at (V 1) l = fresh_bm l) ->
  (forall j, 0 <= j < max_num_files c -> fm_at c (V 1) j = empty_file_meta) ->
  (forall i, 0 <= i < 8 -> V 0 i = erase_val c) ->
  let V' := blk_write V 1 0 (header_bytes (next_header c (fresh_header h))) 8 in
  select c V' = Some 1 /\ holds c V' 1 table_empty.
Proof.
  intros Hb Hf H0 V'. destruct (fresh_header_fields h) as (Hh & Hv & Hs).
  pose proof (mend_bounds wf). pose proof (wf_meta c wf). pose proof (wf_nf c wf).
  assert (Heq : hdr_eqv (hdr_at (V' 1)) (next_header c (fresh_header h))).
  { apply (hdr_at_prefix _ (V 1) _ 8); [done| |lia]. intros i Hi. unfold V', blk_write.
    blk_case; try lia. f_equal. lia. }
  assert (Hge : forall b i, 8 <= i \/ b <> 1 -> V' b i = V b i).
  { intros b i Hi. unfold V', blk_write. blk_case; [lia|done]. }
  destruct Heq as (E1 & E2 & E3).
  assert (Hok : hdr_ok c (hdr_at (V' 1)) = true).
  { eapply (next_hdr_ok c wf _ (active_swap_count (fresh_header h))); [by rewrite E2|by rewrite E3]. }
  split.
  - apply (select_only c V' 1 0 ltac:(by right) ltac:(by left) ltac:(done) Hok).
    apply unheaded_not_ok. rewrite Hge by (right; lia). apply H0. lia.
  - assert (HB : body c V' 1 (its_init_scratch_dblock c)).
    { apply fresh_body.
      - intros l Hl. rewrite <- Hb by done. apply bm_at_ext. intros i Hi. apply Hge. unfold boff in Hi. lia.
      - intros j Hj. rewrite <- (Hf j) by done. apply fm_at_ext. intros i Hi. apply Hge.
        pose proof (nact_bounds wf). unfold foff in Hi. lia. }
    split.
    + split; [by right| |by apply hdr_ok_validate|by rewrite E1, Hs].
      destruct Hh as (X1 & X2 & X3). unfold hdr_fields. by rewrite E1, E2, E3.
    + intros j Hj. unfold file_at. rewrite decide_False; [done|].
      rewrite (fm_at_ext c (V 1)); [rewrite Hf by done; apply empty_not_in_use|].
      intros i Hi. apply Hge. pose proof (nact_bounds wf). unfold foff in Hi. lia.
Qed.

(** ** its_flash_fs_wipe_all *)
Lemma wipe_all_spec x V s (Q : unit -> st -> Prop) (E : psa_status_t -> st -> Prop) :
  st_is x V s -> cfg x = c ->
  (forall s' x' V', st_is x' V' s' -> cfg x' = c -> select c V' = Some 1 ->
     holds c V' 1 table_empty ->
     (forall l i, 1 <= l < nact c -> 0 <= i < block_size c -> V' (l + 2) i = erase_val c) ->
     Q tt s') ->
  wp (its_flash_fs_wipe_all ops) s Q E.
Proof.
  intros Hst Hc HQ. pose proof (mend_bounds wf). pose proof (wf_meta c wf). pose proof (wf_nf c wf).
  pose proof (wf_nb c wf). pose proof (nact_bounds wf). pose proof (wf_bs c wf).
  unfold its_flash_fs_wipe_all, its_flash_fs_mblock_reset_metablock.
  apply wp_bind. eapply get_active_any_spec; [exact Hst|exact Hc|].
  intros r s1 x1 Hst1 Hc1 Hh1 Hr. apply wp_bind. use get_ctx_spec; [exact Hst1|].
  set (m := match r with Ok _ => scratch_metablock x1 | Err _ => ITS_METADATA_BLOCK0 end).
  assert (Hm : is_metablock m) by (unfold m; destruct r as [[]|]; [by apply Hr|by left]).
  destruct (other_block_facts m Hm) as [Hmo Hne]. unfold other_block in Hmo, Hne.
  pose proof (metablock_lt wf _ Hm). pose proof (metablock_lt wf _ Hmo).
  apply wp_bind. use (dev_erase_spec ops c Vw False); [exact Hst1|exact Hc1|done| |apply no_fail].
  intros s2 Hst2. apply wp_bind.
  use (dev_erase_spec ops c Vw False); [exact Hst2|exact Hc1|done| |apply no_fail].
  intros s3 Hst3. set (V3 := blk_erase c (blk_erase c V m) _) in Hst3.
  assert (He3 : forall b i, is_metablock b -> 0 <= i < block_size c -> V3 b i = erase_val c).
  { intros b i Hb Hi. unfold V3, blk_erase. unfold is_metablock in *. blk_case; try done; lia. }
  rewrite Hc1. cbv zeta. apply wp_bind. use set_ctx_spec; [exact Hst3|]. intros s4 Hst4.
  set (x4 := set_metablocks _ _ _) in Hst4.
  assert (Hx4 : mounted c x4 0 1 /\ meta_block_header x4 = fresh_header (meta_block_header x1)).
  { split; [|done]. repeat split; [exact Hc1|by left|by right|done]. }
  destruct Hx4 as [Hm4 Hh4]. clearbody x4. rewrite (mend_offset wf), u32_small by lia.
  apply wp_bind. change (ITS_METADATA_BLOCK0) with 0. change ITS_LOGICAL_DBLOCK0 with 0.
  change {| phy_id := 0; data_start := mend c; free_size := block_size c - mend c |} with (fresh_bm 0).
  use (update_block_meta_spec ops c Vw False);
    [exact Hst4|exact Hm4|lia|apply fresh_bm_words; lia| | |apply no_fail].
  { intros i Hi. apply He3; [by right|unfold boff, mend, foff in *; lia]. }
  intros s5 V5 Hst5 Ho5 Hb5. destruct Hm4 as (Hc4 & Hm4'). assert (Hm4 : mounted c x4 0 1) by done.
  apply wp_bind. eapply erase_dedicated_spec; [exact Hst5|exact Hc4|].
  intros s6 V6 Hst6 Hlow6 He6. change (negb (PSA_SUCCESS =? PSA_SUCCESS)) with false. cbv iota.
  apply wp_bind, wp_ret.
  assert (He1 : forall o z, boff 1 <= o -> o + z <= block_size c -> erased c V6 1 o z).
  { intros o z Ho Hz i Hi. rewrite Hlow6 by lia. rewrite Ho5 by (unfold boff in *; lia).
    apply He3; [by right|unfold boff in *; lia]. }
  apply wp_bind. eapply (fill_blocks_spec x4 1 V6); [exact Hst6|exact Hm4|apply He1; unfold mend, foff in *; lia|].
  intros s7 V7 Hst7 Ho7 Hb7.
  apply wp_bind. eapply (fill_files_spec x4 1 V7); [exact Hst7|exact Hm4| |].
  { eapply erased_only_in; [exact Ho7|lia|apply He1; unfold mend, foff, boff in *; lia]. }
  intros s8 V8 Hst8 Ho8 Hf8.
  apply wp_bind, wp_on_err.
  use (write_scratch_meta_header_spec ops c Vw False); [exact Hst8|exact Hm4| | |apply no_fail].
  { intros i Hi. rewrite Ho8, Ho7, Hlow6 by (unfold boff, foff in *; lia).
    rewrite Ho5 by (unfold boff in *; lia). apply He3; [by right|lia]. }
  intros s9 Hst9. apply wp_bind.
  use (dev_flush_spec ops c Vw False); [exact Hst9|exact Hc4| |apply no_fail].
  intros s10 Hst10. use set_ctx_spec; [exact Hst10|]. intros s11 Hst11. rewrite Hh4 in Hst11.
  destruct (fresh_holds V8 (meta_block_header x1)) as [Hsel HH].
  - intros l Hl. rewrite (bm_at_only_in V7 V8 _ _ _ 1 l Ho8) by (unfold boff, foff; lia).
    destruct (Z.eq_dec l 0) as [->|Hl0]; [|apply Hb7; lia].
    rewrite (bm_at_only_in V6 V7 _ _ _ 1 0 Ho7) by (unfold boff, foff; lia).
    rewrite <- Hb5. apply bm_at_ext. intros i Hi. apply Hlow6. lia.
  - exact Hf8.
  - intros i Hi. rewrite Ho8, Ho7, Hlow6, Ho5 by lia. apply He3; [by left|lia].
  - eapply (HQ s11 _ _ Hst11); [exact Hc4|exact Hsel|exact HH|].
    intros l i Hl Hi. pose proof (dedicated_nb l Hl).
    transitivity (V8 (l + 2) i); [unfold blk_write; blk_case; [lia|done]|].
    rewrite Ho8, Ho7 by lia. by apply He6.
Qed.
End Reset.
