(* ===== verification/ItsBackends.v ===== *)
(** * Internal Trusted Storage: the RAM and NOR back ends meet the flash
    contract *)

From Stdlib Require Import ZArith List Lia Bool.
From stdpp Require Import base tactics list.
From S2P Require Import Prelude ItsUtils ItsFlash ItsMblock ItsFs ItsImage ItsDevSpec.
Import ListNotations.
Local Open Scope Z_scope.

(** Block [b] of a linear memory whose storage area starts at [base]. *)
Definition area_view (c : its_flash_fs_config_t) (base : Z) (m : mem) : view := fun b i =>
  if ((0 <=? b) && (b <? num_blocks c)) && ((0 <=? i) && (i <? block_size c))
  then m (base + b * block_size c + i) else 0.

Section Area.
Context (c : its_flash_fs_config_t) (wf : wf_cfg c) (base : Z).
Context (Hbase : 0 <= base) (Hend : base + num_blocks c * block_size c <= 2 ^ 32).
Local Abbreviation B := (block_size c).

Lemma block_size_pos : 0 < B.
Proof using wf. pose proof (mend_bounds wf). pose proof (wf_meta c wf). lia. Qed.

Lemma area_addr b off : 0 <= b < num_blocks c -> 0 <= off <= B ->
  0 <= base + b * B + off <= 2 ^ 32 /\ (off < B -> base + b * B + off < 2 ^ 32).
Proof using All. intros Hb Ho. pose proof block_size_pos. nia. Qed.

(** The linear address determines the block and the offset. *)
Lemma area_inj b i b' off : 0 <= i < B -> 0 <= off < B ->
  base + b * B + i = base + b' * B + off -> b = b' /\ i = off.
Proof using All. intros Hi Ho He. assert (b = b') as ->; [|lia].
  destruct (Z.lt_trichotomy b b') as [?|[?|?]]; [nia|done|nia].
Qed.

Lemma area_in m b i : 0 <= b < num_blocks c -> 0 <= i < B ->
  area_view c base m b i = m (base + b * B + i).
Proof using Type. intros Hb Hi. unfold area_view. by replace (_ && _) with true by lia. Qed.

Lemma area_ext m m' : (forall k, m' k = m k) -> same_view (area_view c base m) (area_view c base m').
Proof using Type. intros H b i. unfold area_view. destruct (_ && _); [apply H|done]. Qed.

(** A write to [k] bytes from the address of ([b], [off]). *)
Lemma area_write m b off data k : in_block c b off k ->
  same_view (blk_write (area_view c base m) b off data k)
    (area_view c base (mwrite m (base + b * B + off) data k)).
Proof using All.
  intros (Hb & Ho & Hk & Hok) b' i. unfold blk_write, area_view, mwrite.
  destruct (((0 <=? b') && (b' <? num_blocks c)) && ((0 <=? i) && (i <? B))) eqn:E.
  - destruct ((b' =? b) && ((off <=? i) && (i <? off + k))) eqn:E1.
    + replace b' with b by lia. replace (_ && _) with true by lia. f_equal. lia.
    + replace (_ && _) with false; [done|]. symmetry. apply not_true_iff_false. intros E2.
      assert (Hin : base + b * B + off <= base + b' * B + i < base + b * B + off + k) by lia.
      destruct (area_inj b' i b (base + b' * B + i - (base + b * B))) as [-> _]; lia.
  - by replace (_ && _) with false by lia.
Qed.

Lemma area_fill m b : 0 <= b < num_blocks c ->
  same_view (blk_erase c (area_view c base m) b)
    (area_view c base (mfill m (base + b * B) (erase_val c) B)).
Proof using All.
  intros Hb b' i. unfold blk_erase, area_view, mfill.
  destruct (((0 <=? b') && (b' <? num_blocks c)) && ((0 <=? i) && (i <? B))) eqn:E.
  - destruct ((b' =? b) && ((0 <=? i) && (i <? B))) eqn:E1.
    + replace b' with b by lia. by replace (_ && _) with true by lia.
    + replace (_ && _) with false; [done|]. symmetry. apply not_true_iff_false. intros E2.
      destruct (area_inj b' i b (base + b' * B + i - (base + b * B))) as [-> _]; lia.
  - by replace (_ && _) with false by lia.
Qed.

Lemma area_read m b off size : in_block c b off size ->
  mread m (base + b * B + off) size = mread (area_view c base m b) off size.
Proof using Type.
  intros (Hb & Ho & Hk & Hok). apply mread_shift. intros k Hk'. rewrite area_in by lia. f_equal. lia.
Qed.
End Area.

(** ** RAM *)
Section RamSpec.
Context (c : its_flash_fs_config_t) (wf : wf_cfg c).

Lemma ram_range : 0 + num_blocks c * block_size c <= 2 ^ 32.
Proof using wf.
  pose proof (wf_nb c wf). pose proof (wf_bs c wf). pose proof (block_size_pos c wf). nia.
Qed.

#[export] Instance ram_spec : FlashSpec c Ram.its_flash_fs_ops_ram (area_view c 0) False.
Proof using wf.
  pose proof ram_range as Hend. pose proof (block_size_pos c wf) as HB.
  assert (Haddr : forall b off, 0 <= b < num_blocks c -> 0 <= off < block_size c ->
    Ram.get_phys_address c b off = 0 + b * block_size c + off).
  { intros b off Hb Ho. unfold Ram.get_phys_address. apply u32_small.
    destruct (area_addr c wf 0 ltac:(lia) Hend b off Hb ltac:(lia)) as [? H]. specialize (H ltac:(lia)). lia. }
  split.
  - intros d. apply wp_ret. by intros b i.
  - intros d b off size Hin. apply wp_reads. split; [|by intros ? ?].
    pose proof Hin as (Hb & Ho & Hk & Hok). destruct (Z.eq_dec size 0) as [->|Hz]; [done|].
    rewrite Haddr by lia. by apply area_read.
  - intros d b data off size Hin Hl He. apply wp_modify.
    pose proof Hin as (Hb & Ho & Hk & Hok). destruct (Z.eq_dec size 0) as [->|Hz].
    + intros b' i. unfold blk_write, area_view, mwrite. repeat case_match; try done; lia.
    + rewrite Haddr by lia. by apply area_write.
  - intros d. apply wp_ret. by intros b i.
  - intros d b Hb. apply wp_modify. rewrite Haddr by lia.
    replace (0 + b * block_size c + 0) with (0 + b * block_size c) by lia. by apply area_fill.
Qed.
End RamSpec.

(** ** NOR over a CMSIS driver

    What the back end relies on: reads return the memory, programming erased
    bytes stores the data, and erasing a sector erases exactly its bytes.  A
    failed call has programmed a prefix of the data, or erased some of the
    bytes of the sector. *)
Class DriverSpec {W : Type} (c : its_flash_fs_config_t) (drv : ARM_DRIVER_FLASH W)
    (Wm : W -> mem) (may_fail : Prop) : Prop := {
  driver_init : forall w, let '(err, w') := Initialize drv w in
    (forall k, Wm w' k = Wm w k) /\ (err <> ARM_DRIVER_OK -> may_fail);
  driver_read : forall w addr size, let '(err, buff, w') := ReadData drv addr size w in
    (forall k, Wm w' k = Wm w k) /\ (err = ARM_DRIVER_OK -> buff = mread (Wm w) addr size) /\
    (err <> ARM_DRIVER_OK -> may_fail);
  driver_program : forall w addr data size, 0 <= size <= Z.of_nat (length data) ->
    (forall k, addr <= k < addr + size -> Wm w k = erase_val c) ->
    let '(err, w') := ProgramData drv addr data size w in
    (err = ARM_DRIVER_OK -> forall k, Wm w' k = mwrite (Wm w) addr data size k) /\
    (err <> ARM_DRIVER_OK -> may_fail /\ exists n, 0 <= n <= size /\
       forall k, Wm w' k = mwrite (Wm w) addr data n k);
  driver_erase : forall w addr, addr mod sector_size c = 0 ->
    let '(err, w') := EraseSector drv addr w in
    (err = ARM_DRIVER_OK -> forall k, Wm w' k = mfill (Wm w) addr (erase_val c) (sector_size c) k) /\
    (err <> ARM_DRIVER_OK -> may_fail /\ forall k, Wm w' k = Wm w k \/
       (addr <= k < addr + sector_size c /\ Wm w' k = erase_val c))
}.

Section NorSpec.
Context {W : Type} (drv : ARM_DRIVER_FLASH W) (c : its_flash_fs_config_t).
Context (Wm : W -> mem) (mf : Prop) {DS : DriverSpec c drv Wm mf} (wf : wf_cfg c).
Local Abbreviation B := (block_size c).
Local Abbreviation base := (flash_area_addr c).
Local Abbreviation ss := (sector_size c).
Context (Hbase : 0 <= base) (Hend : base + num_blocks c * B <= 2 ^ 32).
(** Blocks are made of whole, aligned sectors. *)
Context (Hss : 0 < ss) (Hdiv : B mod ss = 0) (Hal : base mod ss = 0).

Lemma nor_addr b off : 0 <= b < num_blocks c -> 0 <= off < B ->
  Nor.get_phys_address c b off = base + b * B + off.
Proof using All.
  intros Hb Ho. unfold Nor.get_phys_address. apply u32_small.
  destruct (area_addr c wf base Hbase Hend b off Hb ltac:(lia)) as [? H]. specialize (H ltac:(lia)). lia.
Qed.

Lemma sector_aligned b off : off mod ss = 0 -> (base + b * B + off) mod ss = 0.
Proof using Hss Hdiv Hal.
  intros Ho. apply Z.mod_divide in Ho, Hdiv, Hal; [|lia..]. apply Z.mod_divide; [lia|].
  apply Z.divide_add_r; [|done]. apply Z.divide_add_r; [done|]. by apply Z.divide_mul_r.
Qed.

(** The bytes of block [b] from [off] on have been erased, the others kept. *)
Definition erased_from (b off : Z) (m m' : mem) : Prop :=
  forall k, m' k = mfill m (base + b * B + off) (erase_val c) (B - off) k.

Definition part_erased (b off : Z) (m m' : mem) : Prop :=
  forall k, m' k = m k \/ (base + b * B + off <= k < base + b * B + B /\ m' k = erase_val c).

(** Termination and effect of the sector loop. *)
Lemma nor_erase_loop_spec fuel b off w (Q : unit -> W -> Prop) (E : psa_status_t -> W -> Prop) :
  0 <= b < num_blocks c -> 0 <= off <= B -> off mod ss = 0 -> B - off <= Z.of_nat fuel ->
  (forall w', erased_from b off (Wm w) (Wm w') -> Q tt w') ->
  (forall w', mf -> part_erased b off (Wm w) (Wm w') -> E PSA_ERROR_STORAGE_FAILURE w') ->
  wp (Nor.its_flash_nor_erase_loop drv fuel c b off) w Q E.
Proof using All.
  intros Hb. revert off w. pose proof (wf_bs c wf).
  induction fuel as [|fuel IH]; intros off w Ho Hm Hf HQ HE; cbn [Nor.its_flash_nor_erase_loop].
  { apply wp_ret, HQ. intros k. unfold mfill. replace (_ && _) with false by lia. done. }
  destruct (Z.ltb_spec off B).
  2:{ apply wp_ret, HQ. intros k. unfold mfill. replace (_ && _) with false by lia. done. }
  assert (Hstep : off + ss <= B).
  { apply Z.mod_divide in Hm; [|lia]. pose proof Hdiv as Hd. apply Z.mod_divide in Hd; [|lia].
    destruct Hm as [q Hq], Hd as [r Hr]. assert (q < r) by nia. nia. }
  rewrite nor_addr by lia. apply wp_bind. unfold wp, drv_call.
  pose proof (driver_erase w (base + b * B + off) (sector_aligned b off Hm)) as Hd.
  destruct (EraseSector drv (base + b * B + off) w) as [err w1]. destruct Hd as [Hok Hko].
  destruct (Z.eqb_spec err ARM_DRIVER_OK) as [Ee|Ee]; cbn [negb].
  - specialize (Hok Ee). rewrite u32_small by lia. apply IH; [lia| |lia| |].
    + rewrite <- Z.add_mod_idemp_r, Z.mod_same, Z.add_0_r by lia. done.
    + intros w' Hw'. apply HQ. intros k. rewrite Hw'. unfold mfill. rewrite Hok. unfold mfill.
      repeat case_match; try done; lia.
    + intros w' Hmf Hw'. apply HE; [done|]. intros k. destruct (Hw' k) as [->|[Hk ->]].
      * rewrite Hok. unfold mfill. case_match; [right; split; [lia|done]|by left].
      * right. split; [lia|done].
  - destruct (Hko Ee) as [Hmf Hk]. apply HE; [done|]. intros k.
    destruct (Hk k) as [->|[Hk1 ->]]; [by left|right; split; [lia|done]].
Qed.

#[export] Instance nor_spec : FlashSpec c (Nor.its_flash_fs_ops_nor drv)
  (fun w => area_view c base (Wm w)) mf.
Proof using All.
  pose proof (block_size_pos c wf) as HB.
  assert (Hsame : forall w w', (forall k, Wm w' k = Wm w k) ->
    same_view (area_view c base (Wm w)) (area_view c base (Wm w'))).
  { intros w w' H. apply area_ext. intros k. by rewrite H. }
  split.
  - intros w. unfold wp. cbn. unfold Nor.its_flash_nor_init, drv_call.
    pose proof (driver_init w) as H. destruct (Initialize drv w) as [err w']. destruct H as [H1 H2].
    destruct (Z.eqb_spec err ARM_DRIVER_OK); cbn [negb]; auto.
  - intros w b off size Hin. unfold wp. cbn. unfold Nor.its_flash_nor_read, drv_read.
    pose proof Hin as (Hb & Ho & Hk & Hok).
    set (addr := Nor.get_phys_address c b off).
    pose proof (driver_read w addr size) as H. destruct (ReadData drv addr size w) as [[err buff] w'].
    destruct H as (H1 & H2 & H3).
    destruct (Z.eqb_spec err ARM_DRIVER_OK) as [E|E]; cbn [negb]; [|by auto].
    split; [|by apply Hsame]. rewrite (H2 E). destruct (Z.eq_dec size 0) as [->|Hz]; [done|].
    unfold addr. rewrite nor_addr by lia. by apply area_read.
  - intros w b data off size Hin Hl He. unfold wp. cbn. unfold Nor.its_flash_nor_write, drv_call.
    pose proof Hin as (Hb & Ho & Hk & Hok).
    assert (Hw : forall n m', 0 <= n <= size -> (forall k, m' k = mwrite (Wm w)
      (Nor.get_phys_address c b off) data n k) ->
      same_view (blk_write (area_view c base (Wm w)) b off data n) (area_view c base m')).
    { intros n m' Hn Hm'. destruct (Z.eq_dec n 0) as [->|Hz].
      - intros b' i. unfold blk_write, area_view. rewrite Hm'. unfold mwrite.
        repeat case_match; try done; lia.
      - rewrite nor_addr in Hm' by lia. intros b' i.
        rewrite <- (area_write c wf base Hbase Hend (Wm w) b off data n ltac:(unfold in_block; lia) b' i).
        unfold area_view. by rewrite Hm'. }
    pose proof (driver_program w (Nor.get_phys_address c b off) data size ltac:(lia)) as H.
    specialize (H ltac:(intros k Hk'; destruct (Z.eq_dec size 0) as [->|Hz]; [lia|];
      rewrite nor_addr in Hk' by lia; specialize (He (k - (base + b * B)) ltac:(lia));
      rewrite area_in in He by lia; rewrite <- He; f_equal; lia)).
    destruct (ProgramData _ _ _ _ _) as [err w']. destruct H as [H1 H2].
    destruct (Z.eqb_spec err ARM_DRIVER_OK) as [E|E]; cbn [negb].
    + apply Hw; [lia|]. by apply H1.
    + destruct (H2 E) as [Hmf (n & Hn & Hm')]. split; [done|]. split; [done|]. exists n. split; [done|].
      by apply Hw.
  - intros w. apply wp_ret. by apply Hsame.
  - intros w b Hb. cbn. unfold Nor.its_flash_nor_erase. apply nor_erase_loop_spec; [done|lia| |lia| |].
    + by rewrite Z.mod_0_l by lia.
    + intros w' Hw' b' i. rewrite <- (area_fill c wf base Hbase Hend (Wm w) b Hb b' i).
      unfold area_view. rewrite Hw'. unfold mfill. by rewrite Z.add_0_r, Z.sub_0_r.
    + intros w' Hmf Hw'. split; [done|]. split; [done|]. intros b' i. unfold area_view.
      destruct (((0 <=? b') && (b' <? num_blocks c)) && ((0 <=? i) && (i <? B))) eqn:E; [|by left].
      destruct (Hw' (base + b' * B + i)) as [->|[Hk ->]]; [by left|right].
      destruct (area_inj c wf base Hbase Hend b' i b (base + b' * B + i - (base + b * B)))
        as [-> _]; try lia.
Qed.
End NorSpec.
