(* ===== verification/ItsTable.v ===== *)
(** * Internal Trusted Storage: the file table as a map

    The filesystem of the service only ever holds tables in which a file ID
    occurs once and no file is half deleted; files may be empty.  On these
    tables, writes and deletions are updates of the map from file IDs to
    files, also after the recovery that mounting does. *)

From Stdlib Require Import ZArith List Lia Bool.
From stdpp Require Import base tactics list sets.
From S2P Require Import Prelude ItsUtils ItsFlash ItsMblock ItsFs ItsImage ItsLookupSpec.
From S2P Require Import ItsDeletePlan ItsFileSpec ItsFileOps ItsMount.
Import ListNotations.
Local Open Scope Z_scope.

Section Table.
Context (c : its_flash_fs_config_t).
Implicit Types T : table.

Definition table_get T (fid : list Z) : option file :=
  match table_lookup c T fid with Some j => T j | None => None end.

(** Equality on the indices of the file table. *)
Definition table_eqv T T' : Prop := forall j, 0 <= j < max_num_files c -> T j = T' j.

Record good_table T : Prop := {
  gt_unique : forall i j g h, 0 <= i < max_num_files c -> 0 <= j < max_num_files c ->
    T i = Some g -> T j = Some h -> f_id g = f_id h -> i = j;
  gt_clean : clean c T
}.

Lemma range_nat k : 0 <= k < 0 + Z.of_nat (nfiles c) <-> 0 <= k < max_num_files c.
Proof. unfold nfiles. lia. Qed.

Lemma table_lookup_some T fid j : table_lookup c T fid = Some j ->
  0 <= j < max_num_files c /\ exists g, T j = Some g /\ f_id g = fid.
Proof.
  intros (H1 & H2 & _)%first_idx_some. split; [by apply range_nat|].
  destruct (T j) as [g|]; [|done]. exists g. split; [done|].
  by apply bool_decide_eq_true in H2.
Qed.

Lemma table_lookup_none T fid : table_lookup c T fid = None ->
  forall j g, 0 <= j < max_num_files c -> T j = Some g -> f_id g <> fid.
Proof.
  intros H j g Hj HT E. unfold table_lookup in H.
  pose proof (first_idx_none _ _ _ H j ltac:(by apply range_nat)) as Hn. cbv beta in Hn.
  rewrite HT in Hn. apply bool_decide_eq_false in Hn. done.
Qed.

Lemma table_lookup_get T fid j : table_lookup c T fid = Some j -> table_get T fid = T j.
Proof. intros H. unfold table_get. by rewrite H. Qed.

Lemma table_get_none T fid : table_lookup c T fid = None <-> table_get T fid = None.
Proof.
  unfold table_get. destruct (table_lookup c T fid) as [j|] eqn:E; [|done].
  apply table_lookup_some in E as (_ & g & -> & _). done.
Qed.

Lemma table_lookup_ext T T' fid : table_eqv T T' -> table_lookup c T fid = table_lookup c T' fid.
Proof. intros H. apply first_idx_ext_in. intros j Hj%range_nat. by rewrite H. Qed.

Lemma table_get_ext T T' fid : table_eqv T T' -> table_get T fid = table_get T' fid.
Proof.
  intros H. unfold table_get. rewrite <- (table_lookup_ext T T' fid H).
  destruct (table_lookup c T fid) as [j|] eqn:E; [|done]. apply H, (table_lookup_some T fid j E).
Qed.

Lemma good_table_ext T T' : table_eqv T T' -> good_table T -> good_table T'.
Proof.
  intros H [H1 H2]. split.
  - intros i j g h Hi Hj. rewrite <- !H by done. by apply H1.
  - intros j Hj. rewrite <- H by done. by apply H2.
Qed.

Lemma table_get_iff T fid g : good_table T ->
  table_get T fid = Some g <-> exists j, 0 <= j < max_num_files c /\ T j = Some g /\ f_id g = fid.
Proof.
  intros HG. split.
  - unfold table_get. destruct (table_lookup c T fid) as [j|] eqn:E; [|done].
    apply table_lookup_some in E as (Hj & h & Hh & Hi). intros Hg. exists j. split; [done|]. split; [done|].
    congruence.
  - intros (j & Hj & HT & Hi). unfold table_get. destruct (table_lookup c T fid) as [k|] eqn:E.
    + apply table_lookup_some in E as (Hk & h & Hh & Hih).
      replace k with j; [done|]. by apply (gt_unique T HG j k g h); [| | | |congruence].
    + by destruct (table_lookup_none T fid E j g Hj HT).
Qed.

Lemma table_get_id T fid g : table_get T fid = Some g -> f_id g = fid.
Proof.
  unfold table_get. destruct (table_lookup c T fid) as [j|] eqn:E; [|done].
  apply table_lookup_some in E as (_ & h & Hh & Hi). congruence.
Qed.

Lemma table_get_eq T T' fid : good_table T -> good_table T' ->
  (forall g, (exists j, 0 <= j < max_num_files c /\ T j = Some g /\ f_id g = fid) <->
     exists j, 0 <= j < max_num_files c /\ T' j = Some g /\ f_id g = fid) ->
  table_get T fid = table_get T' fid.
Proof.
  intros HG HG' H. apply option_eq. intros g. rewrite !table_get_iff by done. apply H.
Qed.

(** ** Deletion *)
Lemma good_delete T d : good_table T -> good_table (table_delete d T).
Proof.
  intros [H1 H2]. unfold table_delete. split.
  - intros i j g h Hi Hj. destruct (i =? d), (j =? d); try done. by apply H1.
  - intros j Hj. destruct (j =? d); [done|by apply H2].
Qed.

Lemma get_delete T d fid fid' : good_table T -> table_lookup c T fid = Some d ->
  table_get (table_delete d T) fid' = if decide (fid' = fid) then None else table_get T fid'.
Proof.
  intros HG Hd. pose proof (table_lookup_some T fid d Hd) as (Hdr & g & Hg & Hi).
  destruct (decide (fid' = fid)) as [->|Hne].
  - destruct (table_get (table_delete d T) fid) as [h|] eqn:E; [|done].
    apply table_get_iff in E as (j & Hj & HT & Hih); [|by apply good_delete].
    unfold table_delete in HT. destruct (Z.eqb_spec j d); [done|].
    destruct n. by apply (gt_unique T HG j d h g); [| | | |congruence].
  - apply table_get_eq; [by apply good_delete|done|]. intros h. split.
    + intros (j & Hj & HT & Hih). exists j. unfold table_delete in HT. by destruct (j =? d).
    + intros (j & Hj & HT & Hih). exists j. unfold table_delete.
      destruct (Z.eqb_spec j d); [congruence|done].
Qed.

(** ** Writing *)
Section Write.
Context (T : table) (HG : good_table T) (fid : list Z) (fl ms n : Z) (g : file).
Context (Hslot : slot_for c T fid fl ms n) (Hid : f_id g = fid).
Local Abbreviation W := (table_written c T fid fl ms n g).

Lemma replaced_lookup j : replaced c T fid fl ms j = true -> table_lookup c T fid = Some j.
Proof using Type. unfold replaced. rewrite !andb_true_iff, bool_decide_eq_true. tauto. Qed.

(** No other entry of the new table has the ID. *)
Lemma written_other j h : 0 <= j < max_num_files c -> j <> n -> W j = Some h ->
  T j = Some h /\ f_id h <> fid.
Proof using HG Hslot.
  intros Hj Hjn. unfold table_written. replace (j =? n) with false by lia.
  destruct (replaced c T fid fl ms j) eqn:Er; [done|]. intros HT. split; [done|]. intros Eh.
  destruct Hslot as [_ Hs]. destruct (table_lookup c T fid) as [o|] eqn:Eo.
  - apply table_lookup_some in Eo as (Ho & h' & Hh' & Hi').
    assert (o = j) as -> by (by apply (gt_unique T HG o j h' h); [| | | |congruence]).
    rewrite Er in Hs. by destruct Hjn.
  - by destruct (table_lookup_none T fid Eo j h Hj HT).
Qed.

Lemma written_n : W n = Some g.
Proof using Type. unfold table_written. by rewrite Z.eqb_refl. Qed.

Lemma good_written : is_flagged (Some g) = false -> good_table W.
Proof using HG Hslot Hid.
  intros Hf. split.
  - intros i j h h' Hi Hj Hwi Hwj He.
    destruct (Z.eq_dec i n) as [->|Hin], (Z.eq_dec j n) as [->|Hjn]; [done|..].
    + rewrite written_n in Hwi. injection Hwi as <-.
      by destruct (written_other j h' Hj Hjn Hwj) as [_ []]; congruence.
    + rewrite written_n in Hwj. injection Hwj as <-.
      by destruct (written_other i h Hi Hin Hwi) as [_ []]; congruence.
    + apply (gt_unique T HG i j h h' Hi Hj); [|by apply written_other|done]. by apply written_other.
  - intros j Hj. destruct (Z.eq_dec j n) as [->|Hjn]; [by rewrite written_n|].
    destruct (W j) as [h|] eqn:E; [|done]. apply written_other in E as [E _]; [|done..].
    rewrite <- E. by apply (gt_clean T HG).
Qed.

Lemma get_written fid' : is_flagged (Some g) = false ->
  table_get W fid' = if decide (fid' = fid) then Some g else table_get T fid'.
Proof using HG Hslot Hid.
  intros Hf. pose proof (good_written Hf) as HW. destruct Hslot as [Hn Hs].
  destruct (decide (fid' = fid)) as [->|Hne].
  - apply table_get_iff; [done|]. exists n. split; [done|]. by rewrite written_n.
  - apply table_get_eq; [done..|]. intros h. split.
    + intros (j & Hj & HT & Hih). destruct (Z.eq_dec j n) as [->|Hjn].
      { rewrite written_n in HT. congruence. }
      exists j. by destruct (written_other j h Hj Hjn HT).
    + intros (j & Hj & HT & Hih). exists j. split; [done|]. split; [|done]. unfold table_written.
      destruct (Z.eqb_spec j n) as [->|Hjn].
      * destruct (table_lookup c T fid) as [o|] eqn:Eo; [|congruence].
        pose proof (table_lookup_some T fid o Eo) as (_ & h' & Hh' & Hi').
        destruct (replaced c T fid fl ms o); [congruence|]. subst o. congruence.
      * destruct (replaced c T fid fl ms j) eqn:Er; [|done].
        apply replaced_lookup, table_lookup_some in Er as (_ & h' & Hh' & Hi'). congruence.
Qed.

(** ** Recovery after a power cut between the two commits of a write *)
Lemma marked_flagged d : 0 <= d < max_num_files c -> is_flagged (Some g) = false ->
  is_flagged (table_marked c T fid fl ms n g d) = true <->
  d <> n /\ replaced c T fid fl ms d = true.
Proof using HG Hslot Hid.
  intros Hd Hf. pose proof (gt_clean T HG d Hd) as Hc.
  unfold table_marked. destruct (Z.eqb_spec d n) as [->|Hdn]; [rewrite Hf; naive_solver|].
  destruct (replaced c T fid fl ms d) eqn:Er.
  - pose proof (replaced_lookup d Er) as (_ & h & -> & _)%table_lookup_some. cbn.
    split; [done|]. intros _. unfold has_flag. apply negb_true_iff, Z.eqb_neq. intros E.
    rewrite Z.land_lor_distr_l in E. apply Z.lor_eq_0_iff in E as [_ E]. done.
  - rewrite Hc. naive_solver.
Qed.

Lemma recovered_marked : is_flagged (Some g) = false ->
  table_eqv (recovered c (table_marked c T fid fl ms n g)) W.
Proof using HG Hslot Hid.
  intros Hf j Hj. unfold recovered. destruct (first_flagged _ _) as [d|] eqn:Ed.
  - apply first_idx_some in Ed as (Hd%range_nat & Hdf & _).
    apply marked_flagged in Hdf as [Hdn Hr]; [|done..]. unfold table_delete, table_marked, table_written.
    destruct (Z.eqb_spec j d) as [->|Hjd].
    + by rewrite Hr, (proj2 (Z.eqb_neq d n)).
    + destruct (j =? n); [done|]. destruct (replaced c T fid fl ms j) eqn:Er; [|done].
      apply replaced_lookup in Er, Hr. congruence.
  - pose proof (first_idx_none _ _ _ Ed j ltac:(by apply range_nat)) as Hn. cbv beta in Hn.
    unfold table_marked, table_written. destruct (Z.eqb_spec j n); [done|].
    destruct (replaced c T fid fl ms j) eqn:Er; [|done].
    enough (is_flagged (table_marked c T fid fl ms n g j) = true) by congruence.
    by apply marked_flagged.
Qed.

(** Whatever an interrupted write leaves, mounting it gives the table
    before the write or the table after it. *)
Lemma write_states_recovered T' : is_flagged (Some g) = false ->
  (forall o h, replaced c T fid fl ms o = true -> T o = Some h -> 0 < f_max h) ->
  (T' = T \/ T' = table_marked c T fid fl ms n g \/ T' = W) ->
  (forall d h, first_flagged c T' = Some d -> T' d = Some h -> 0 < f_max h) /\
  (table_eqv (recovered c T') T \/ table_eqv (recovered c T') W).
Proof using HG Hslot Hid.
  intros Hf Hp. pose proof (good_written Hf) as HW.
  assert (Hclean : forall T0, clean c T0 -> forall d h, first_flagged c T0 = Some d -> T0 d = Some h -> 0 < f_max h).
  { intros T0 HC d h (Hd%range_nat & Hfd & _)%first_idx_some. by rewrite HC in Hfd. }
  intros [->|[->| ->]].
  - split; [by apply Hclean, (gt_clean T HG)|left]. by rewrite (recovered_clean c T (gt_clean T HG)).
  - split; [|right; by apply recovered_marked].
    intros d h (Hd%range_nat & Hfd & _)%first_idx_some. apply marked_flagged in Hfd as [Hdn Hr]; [|done..].
    unfold table_marked. rewrite (proj2 (Z.eqb_neq d n)), Hr by done.
    destruct (T d) as [h'|] eqn:E; [|done]. intros [= <-]. by apply (Hp d h').
  - split; [by apply Hclean, (gt_clean _ HW)|right]. by rewrite (recovered_clean c _ (gt_clean _ HW)).
Qed.
End Write.
End Table.
