(* ===== verification/ItsChunk.v ===== *)
(** * Internal Trusted Storage: one write of the service

    The service stores an asset in chunks of at most [sizeof(asset_data)]
    bytes.  This file states what the filesystem promises the service: a
    mounted filesystem is a map from file IDs to files, a write extends one
    file, and a device failure leaves the map before or after the write. *)

From Stdlib Require Import ZArith List Lia Bool.
From stdpp Require Import base tactics list sets.
From S2P Require Import Prelude ItsUtils ItsFlash ItsMblock ItsFs ItsImage ItsDevSpec.
From S2P Require Import ItsMblockSpec ItsLookupSpec ItsCommit ItsFinalize ItsRebuild.
From S2P Require Import ItsDeletePlan ItsRebuild ItsWrite ItsFileWrite.
From S2P Require Import ItsFileSpec ItsFileOps ItsMount ItsTable.
From S2P Require Import ItsCommit ItsFinalize ItsDeletePlan ItsFileSpec ItsFileOps.
From S2P Require Import ItsMount ItsTable.
Import ListNotations.
Local Open Scope Z_scope.

(** ** Sizes rounded to the program unit *)
Record align_ok (c : its_flash_fs_config_t) (MAXAL buf : Z) : Prop := {
  al_buf : 0 < buf < 2 ^ 16;
  al_unit : MAXAL = 1 \/ exists k, 0 <= k <= 15 /\ program_unit c = 2 ^ k /\ buf mod 2 ^ k = 0
}.

Section Align.
Context (c : its_flash_fs_config_t) (MAXAL buf : Z) (HA : align_ok c MAXAL buf).
Local Abbreviation asize := (aligned_size c MAXAL).

Lemma align_unit : exists k, 0 <= k <= 15 /\ 0 < 2 ^ k <= 2 ^ 15 /\ (exists q, buf = q * 2 ^ k) /\
  (forall s, 0 <= s < 2 ^ 31 -> exists q, asize s = q * 2 ^ k /\ s <= asize s < s + 2 ^ k) /\
  (forall off, 0 <= off -> off mod 2 ^ k = 0 ->
     (MAXAL =? 1) || ITS_UTILS_IS_ALIGNED off (program_unit c) = true).
Proof using HA.
  unfold aligned_size. destruct (Z.eqb_spec MAXAL 1) as [E|E].
  - exists 0. split; [lia|]. split; [lia|]. split; [exists buf; lia|]. split; [|done].
    intros s Hs. exists s. simpl. lia.
  - destruct (al_unit _ _ _ HA) as [?|(k & Hk & Hu & Hb)]; [done|].
    assert (Hp : 0 < 2 ^ k <= 2 ^ 15) by (split; [lia|apply Z.pow_le_mono_r; lia]).
    exists k. split; [done|]. split; [done|].
    split; [exists (buf / 2 ^ k); pose proof (Z.div_mod buf (2 ^ k)); lia|]. rewrite Hu. split.
    + intros s Hs. rewrite its_align_pow2 by lia. eexists. split; [done|].
      pose proof (Z.div_mod (s + (2 ^ k - 1)) (2 ^ k)). pose proof (Z.mod_pos_bound (s + (2 ^ k - 1)) (2 ^ k)). lia.
    + intros off Ho Hm. simpl. apply its_is_aligned_pow2; lia.
Qed.

Lemma asize_bounds s : 0 <= s < 2 ^ 31 -> s <= asize s < 2 ^ 32.
Proof using HA. intros Hs. destruct align_unit as (k & Hk & Hp & _ & H & _). destruct (H s Hs) as (q & Hq). lia. Qed.

Lemma asize_0 : asize 0 = 0.
Proof using HA.
  destruct align_unit as (k & Hk & Hp & _ & H & _). destruct (H 0 ltac:(lia)) as (q & Hq & Hb).
  rewrite Hq in *. assert (q < 1) by nia. assert (-1 < q) by nia. by replace q with 0 by lia.
Qed.

Lemma asize_le_buf s : 0 <= s <= buf -> asize s <= buf.
Proof using HA.
  intros Hs. pose proof (al_buf _ _ _ HA). destruct align_unit as (k & Hk & Hp & (r & Hr) & H' & _).
  destruct (H' s ltac:(lia)) as (q & Hq & Hb). assert (q - 1 < r) by nia. nia.
Qed.

(** A chunk that starts at a multiple of the buffer size ends, rounded up,
    within the rounded size of the whole. *)
Lemma asize_chunk i w total : 0 <= i -> 0 <= w -> i * buf + w <= total < 2 ^ 31 ->
  i * buf + asize w <= asize total.
Proof using HA.
  intros Hi Hw Ht. pose proof (al_buf _ _ _ HA). destruct align_unit as (k & Hk & Hp & (r & Hr) & H' & _).
  destruct (H' w ltac:(nia)) as (q & Hq & Hb). destruct (H' total ltac:(nia)) as (q' & Hq' & Hb').
  rewrite Hq, Hq', Hr in *. assert ((i * r + q - 1) * 2 ^ k < q' * 2 ^ k) by nia.
  assert (i * r + q - 1 < q') by nia. nia.
Qed.

Lemma aligned_chunk i : 0 <= i ->
  (MAXAL =? 1) || ITS_UTILS_IS_ALIGNED (i * buf) (program_unit c) = true.
Proof using HA.
  intros Hi. pose proof (al_buf _ _ _ HA). destruct align_unit as (k & Hk & Hp & (r & Hr) & _ & H').
  apply H'; [nia|]. rewrite Hr, Z.mul_assoc. apply Z.mod_mul. lia.
Qed.
End Align.

(** ** A mounted filesystem and what survives a restart *)
Section Promise.
Context {D : Type} (c : its_flash_fs_config_t) (Vw : D -> view).
Local Abbreviation fs := (its_flash_fs_ctx_t * D)%type.

Definition fs_mounted (f : fs) (T : table) : Prop :=
  good_table c T /\ exists x a sb U, st_is Vw x U f /\ fs_inv c x a sb U T.

(** After a restart, mounting the device gives the table [T]. *)
Definition survives (f : fs) (T : table) : Prop :=
  good_table c T /\ exists V a T0, same_view V (Vw (snd f)) /\ select c V = Some a /\
    holds c V a T0 /\ table_eqv c (recovered c T0) T /\
    forall d g, first_flagged c T0 = Some d -> T0 d = Some g -> 0 < f_max g.

(** [T'] is [T] with file [fid] replaced by [g]. *)
Definition updated (T : table) (fid : list Z) (g : option file) (T' : table) : Prop :=
  forall fid', table_get c T' fid' = if decide (fid' = fid) then g else table_get c T fid'.

(** Storing [n] bytes as file [fid] moves no empty file. *)
Definition replaceable (T : table) (fid : list Z) (n : Z) : Prop :=
  forall h, table_get c T fid = Some h -> f_max h = 0 -> n = 0.

Definition same_files (T T' : table) : Prop := forall fid, table_get c T' fid = table_get c T fid.

(** A device that holds a good table keeps it over a restart. *)
Lemma survives_good f V a T : good_table c T -> same_view V (Vw (snd f)) ->
  select c V = Some a -> holds c V a T -> survives f T.
Proof.
  intros HG HV Hs Hh. split; [done|]. exists V, a, T.
  rewrite (recovered_clean c T (gt_clean c T HG)). repeat (split; [done|]).
  intros d g (Hd%range_nat & Hf & _)%first_idx_some. by rewrite (gt_clean c T HG d Hd) in Hf.
Qed.
End Promise.

Section Chunk.
Context {D : Type} (ops : its_flash_fs_ops_t D) (c : its_flash_fs_config_t).
Context (Vw : D -> view) (mf : Prop) {FS : FlashSpec c ops Vw mf} (wf : wf_cfg c).
Context (ITS_FLASH_MAX_ALIGNMENT buf : Z) (HA : align_ok c ITS_FLASH_MAX_ALIGNMENT buf).
Context (Hmax : max_num_files c < ITS_METADATA_INVALID_INDEX).
Local Abbreviation fs := (its_flash_fs_ctx_t * D)%type.
Local Abbreviation asize := (aligned_size c ITS_FLASH_MAX_ALIGNMENT).
Local Abbreviation mounted := (fs_mounted c Vw).
Local Abbreviation survives := (survives c Vw).

(** ** Why the filesystem refuses a write *)
Definition needs_place (T : table) (fid : list Z) (fl ms : Z) : Prop :=
  forall o, table_lookup c T fid = Some o -> replaced c T fid fl ms o = true.

Definition refusal (T : table) (fid : list Z) (fl ms : Z) (e : psa_status_t) : Prop :=
  (table_lookup c T fid = None /\ has_flag fl ITS_FLASH_FS_FLAG_CREATE = false /\
     e = PSA_ERROR_DOES_NOT_EXIST) \/
  (needs_place T fid fl ms /\ max_file_size c < ms /\ e = PSA_ERROR_INVALID_ARGUMENT) \/
  (needs_place T fid fl ms /\ ms <= max_file_size c /\ e = PSA_ERROR_INSUFFICIENT_STORAGE).

(** The chunk fits the file it is written to. *)
Definition chunk_fits (g : file) (off w : Z) : Prop :=
  (ITS_FLASH_MAX_ALIGNMENT =? 1) || ITS_UTILS_IS_ALIGNED off (program_unit c) = true /\
  off <= Z.of_nat (length (f_data g)) /\ off + asize w <= f_max g < 2 ^ 32.

Section Refusal.
Context (x : its_flash_fs_ctx_t) (a sb : Z) (U : view) (T : table) (Hinv : fs_inv c x a sb U T).
Context (fid : list Z) (fl ms : Z) (Hlen : length fid = 12%nat).
Context (Hfid : its_utils_validate_fid fid = PSA_SUCCESS).
Context (Hfl : 0 <= fl < 2 ^ 32) (Hms : 0 <= ms).

Lemma plan_refusal e : write_plan c (U a) fid fl ms = Err e -> refusal T fid fl ms e.
Proof using wf Hinv Hlen Hfid Hfl Hms.
  unfold write_plan, refusal, needs_place.
  pose proof (lookup_table c wf x a sb U T Hinv fid Hlen Hfid) as HL. rewrite <- HL.
  assert (Hnew : forall spare, plan_new c (U a) fid spare fl ms = Err e ->
    (max_file_size c < ms /\ e = PSA_ERROR_INVALID_ARGUMENT) \/
    (ms <= max_file_size c /\ e = PSA_ERROR_INSUFFICIENT_STORAGE)).
  { intros spare. unfold plan_new. destruct (Z.gtb_spec ms (max_file_size c)).
    - intros [= <-]. left. split; [lia|done].
    - repeat case_match; intros [= <-]; right; split; lia || done. }
  destruct (table_lookup c T fid) as [o|] eqn:Eo.
  - destruct (replaces c (U a) fl ms o) eqn:Er; [|done]. intros H%Hnew.
    assert (Hr : forall o', Some o = Some o' -> replaced c T fid fl ms o' = true).
    { intros o' [= <-]. pose proof (table_lookup_some c T fid o Eo) as [Ho _].
      apply (replaced_table c wf x a sb U T Hinv fid fl ms Hlen Hfid o Ho). by rewrite <- HL. }
    right. tauto.
  - destruct (has_flag fl ITS_FLASH_FS_FLAG_CREATE); cbn [negb].
    + intros H%Hnew. right. by destruct H as [?|?]; [left|right].
    + intros [= <-]. by left.
Qed.

(** With a chunk that fits, these are the only reasons. *)
Lemma refused_cases off w e : 0 <= off < 2 ^ 32 -> 0 <= asize w < 2 ^ 32 ->
  has_flag fl ITS_FLASH_FS_INTERNAL_FLAGS_MASK = false ->
  chunk_fits (base_file (table_get c T fid) fid fl ms) off w ->
  write_refused c ITS_FLASH_MAX_ALIGNMENT (U a) fid fl ms w off e -> refusal T fid fl ms e.
Proof using All.
  intros Ho Hw Hni (F1 & F2 & F3) [[Hi _]|[Hp|(n & F0 & bm0 & Hp & Hw0 & Hbad & _)]]; [congruence| |].
  - by apply plan_refusal.
  - exfalso. destruct (inv_facts c x a sb U T Hinv) as (_ & HB & Hma & _).
    pose proof (write_plan_ok c wf U a _ HB Hma Hmax fid fl ms Hlen Hfid Hfl Hms n F0 bm0 Hp) as PO.
    pose proof (base_file_eq c wf x a sb U T Hinv fid fl ms Hlen Hfid n F0 bm0 PO) as E.
    fold (table_get c T fid) in E. rewrite E in F2, F3. cbn [f_data f_max] in F2, F3.
    pose proof (wr_words c F0 (po_file _ _ _ _ _ _ _ _ _ PO)) as Hw'. unfold fm_words in Hw'.
    rewrite length_mread in F2 by lia. unfold write_args_ok in Hbad.
    replace (its_utils_check_contained_in _ _ _) with PSA_SUCCESS in Hbad
      by (symmetry; apply check_contained_in_ok; lia).
    rewrite F1 in Hbad. replace (off <=? cur_size F0) with true in Hbad by lia. done.
Qed.
End Refusal.

Lemma not_delete_flag fl : has_flag fl ITS_FLASH_FS_INTERNAL_FLAGS_MASK = false ->
  has_flag fl ITS_FLASH_FS_FLAG_DELETE = false.
Proof using Type.
  unfold has_flag. rewrite !negb_false_iff, !Z.eqb_eq. intros H.
  change ITS_FLASH_FS_FLAG_DELETE with
    (Z.land ITS_FLASH_FS_INTERNAL_FLAGS_MASK ITS_FLASH_FS_FLAG_DELETE).
  by rewrite Z.land_assoc, H.
Qed.

(** ** A write that extends a file *)
Section ChunkWrite.
Context (T : table) (fid : list Z) (fl ms0 : Z) (Hlen : length fid = 12%nat).
Context (Hfid : its_utils_validate_fid fid = PSA_SUCCESS) (Hfl : 0 <= fl < 2 ^ 32).
Context (Hni : has_flag fl ITS_FLASH_FS_INTERNAL_FLAGS_MASK = false) (Hms : 0 <= ms0 < 2 ^ 31).
Context (off w : Z) (b : list Z) (Hoff : 0 <= off < 2 ^ 32) (Hw : 0 <= w <= buf).
Context (Hb : Z.of_nat (length b) = buf).
Local Abbreviation ms := (asize ms0).
Local Abbreviation base := (base_file (table_get c T fid) fid fl ms).
Context (Hfit : chunk_fits base off w) (Hend : off = Z.of_nat (length (f_data base))).
(** An empty file is not replaced by one with data. *)
Context (Hempty : has_flag fl ITS_FLASH_FS_FLAG_TRUNCATE = true -> replaceable c T fid ms0).

Definition extended (g : file) (l : list Z) : file :=
  {| f_id := f_id g; f_flags := f_flags g; f_max := f_max g; f_data := f_data g ++ l |}.
Local Abbreviation g := (extended base (firstn (Z.to_nat w) b)).

Lemma new_file_chunk : new_file c ITS_FLASH_MAX_ALIGNMENT T fid fl ms off w b = g.
Proof using All.
  unfold new_file. fold (table_get c T fid). unfold written_file, extended. f_equal.
  pose proof (asize_bounds c _ buf HA w) as Hab. pose proof (al_buf _ _ _ HA).
  assert (Hlw : length (firstn (Z.to_nat w) b) = Z.to_nat w) by (rewrite length_firstn; lia).
  destruct (Z.eqb_spec w 0) as [->|Hw0].
  { simpl. by rewrite app_nil_r. }
  rewrite Z.max_r by lia. apply mread_bytes; [rewrite length_app; lia|].
  intros k Hk. change (0 + k) with k. cbv beta. unfold byte_at. destruct (Z.ltb_spec k off).
  - by rewrite app_nth1 by lia.
  - replace (k <? off + aligned_size c ITS_FLASH_MAX_ALIGNMENT w) with true by lia.
    rewrite app_nth2 by lia. rewrite !nth_lookup, lookup_take_lt by lia. do 2 f_equal. lia.
Qed.

Lemma base_id : f_id base = fid.
Proof using Type.
  clear Hfit Hend Hempty. unfold base_file. destruct (table_get c T fid) as [h|] eqn:E; [|done].
  destruct (has_flag fl ITS_FLASH_FS_FLAG_TRUNCATE); [done|]. exact (table_get_id c T fid h E).
Qed.

Lemma g_facts : good_table c T -> f_id g = fid /\ is_flagged (Some g) = false.
Proof using All.
  intros HG. split; [apply base_id|]. pose proof (not_delete_flag fl Hni) as Hd.
  unfold extended, is_flagged, base_file. cbn [f_flags f_max].
  destruct (table_get c T fid) as [h|] eqn:E; [|done].
  destruct (has_flag fl ITS_FLASH_FS_FLAG_TRUNCATE); [done|].
  apply (table_get_iff c T fid h HG) in E as (j & Hj & HT & _).
  pose proof (gt_clean c T HG j Hj) as Hc. by rewrite HT in Hc.
Qed.

(** The file that is replaced takes up space. *)
Lemma replaced_space x a sb U o h : fs_inv c x a sb U T -> replaced c T fid fl ms o = true ->
  T o = Some h -> 0 < f_max h.
Proof using All.
  intros Hinv Hr Ho. unfold replaced in Hr. rewrite Ho, !andb_true_iff, bool_decide_eq_true, negb_true_iff, Z.eqb_neq in Hr.
  destruct Hr as [[Hl Ht] Hne]. pose proof (table_lookup_some c T fid o Hl) as [Hor _].
  destruct (fs_inv_entry c x a sb U T o h Hinv Hor Ho) as [Hu _].
  destruct (entry_facts ops c Vw mf wf x a sb U T Hinv fid Hlen Hfid o h Hor Hu Ho) as (_ & _ & E & _ & _ & Hfw & _).
  unfold fm_words in Hfw. destruct (Z.eq_dec (f_max h) 0) as [E0|]; [|lia].
  assert (Hz : ms0 = 0) by (apply (Hempty Ht h); [by rewrite (table_lookup_get c T fid o Hl)|done]).
  destruct Hne. by rewrite Hz, (asize_0 c _ buf HA).
Qed.

Lemma chunk_write_spec f (Q : unit -> fs -> Prop) (E : psa_status_t -> fs -> Prop) :
  mounted f T ->
  (forall f' T', mounted f' T' -> updated c T fid (Some g) T' -> Q tt f') ->
  (forall e f' T', e <> PSA_SUCCESS -> mf \/ refusal T fid fl ms e -> survives f' T' ->
     same_files c T T' \/ updated c T fid (Some g) T' -> E e f') ->
  wp (its_flash_fs_file_write ops ITS_FLASH_MAX_ALIGNMENT fid fl ms0 w off b) f Q E.
Proof using All.
  intros [HG (x & a & sb & U & Hst & Hinv)] HQ HE. destruct (g_facts HG) as (Gi & Gf).
  pose proof (fun o h => replaced_space x a sb U o h Hinv) as Hsp.
  pose proof (al_buf _ _ _ HA). pose proof (asize_bounds c _ buf HA w ltac:(lia)) as Haw.
  pose proof (asize_bounds c _ buf HA ms0 ltac:(lia)) as Ham.
  pose proof (asize_le_buf c _ buf HA w ltac:(lia)) as Hwb.
  eapply (file_write_spec ops c Vw mf wf ITS_FLASH_MAX_ALIGNMENT x a sb U T Hinv Hmax fid fl ms0
    Hlen Hfid Hfl ltac:(lia) off w b Hoff ltac:(lia) ltac:(lia) ltac:(lia)); [|exact Hst|..].
  - exact Hsp.
  - rewrite new_file_chunk. intros n f' x' a' sb' U' Hslot Hst' Hinv'.
    apply (HQ f' (table_written c T fid fl ms n g)).
    + split; [exact (good_written c T HG fid fl ms n g Hslot Gi Gf)|].
      exists x', a', sb', U'. auto.
    + intros fid'. exact (get_written c T HG fid fl ms n g Hslot Gi fid' Gf).
  - rewrite new_file_chunk. intros e f' V He Hr HV (a' & T0 & Hsel & HT0 & Hh).
    assert (Hr' : mf \/ refusal T fid fl ms e).
    { destruct Hr as [?|Hr]; [by left|right].
      eapply (refused_cases x a sb U T Hinv fid fl ms Hlen Hfid Hfl ltac:(lia) off w); eauto. lia. }
    destruct HT0 as [->|(n & Hs & Hcase)].
    + apply (HE e f' T He Hr'); [by eapply survives_good|by left].
    + destruct (write_states_recovered c T HG fid fl ms n g Hs Gi T0 Gf Hsp (or_intror Hcase))
        as [Hfp [Hq|Hq]].
      * apply (HE e f' T He Hr'); [|by left]. split; [done|]. exists V, a', T0. auto.
      * apply (HE e f' (table_written c T fid fl ms n g) He Hr').
        -- split; [exact (good_written c T HG fid fl ms n g Hs Gi Gf)|]. eauto 10.
        -- right. intros fid'. exact (get_written c T HG fid fl ms n g Hs Gi fid' Gf).
Qed.
End ChunkWrite.
End Chunk.

(** * Internal Trusted Storage: what the filesystem promises the service

    Queries, reads, deletions and mounting over the map of files of a mounted
    filesystem (writes are in ItsChunk.v). *)

Section Promise.
Context {D : Type} (ops : its_flash_fs_ops_t D) (c : its_flash_fs_config_t).
Context (Vw : D -> view) (mf : Prop) {FS : FlashSpec c ops Vw mf} (wf : wf_cfg c).
Local Abbreviation fs := (its_flash_fs_ctx_t * D)%type.
Local Abbreviation mounted := (fs_mounted c Vw).
Local Abbreviation survives := (survives c Vw).
Context (T : table) (fid : list Z) (Hlen : length fid = 12%nat).
Context (Hfid : its_utils_validate_fid fid = PSA_SUCCESS).

(** A mounted filesystem survives a restart as it is. *)
Lemma mounted_survives f : mounted f T -> survives f T.
Proof using wf.
  clear Hlen Hfid. intros [HG (x & a & sb & U & [_ HU] & Hinv)]. destruct (inv_facts c x a sb U T Hinv) as
    (_ & _ & Hma & Hms & Hne & _ & He0 & _ & HH).
  pose proof (mend_bounds wf). pose proof (wf_meta c wf).
  destruct (stage_crash_ok c wf a sb U U U T T HH Hms Hne) as (a' & Hs & Hh).
  - split; [done|]. intros i Hi. apply He0. lia.
  - done.
  - apply He0. lia.
  - apply (survives_good c Vw f U a' T HG HU Hs). tauto.
Qed.

Definition file_info (g : file) : its_file_info_t :=
  {| size_current := Z.of_nat (length (f_data g)); size_max := f_max g;
     info_flags := Z.land (f_flags g) ITS_FLASH_FS_USER_FLAGS_MASK |}.

(** A status that is not a success, with nothing changed: a device failure,
    or the reason [R]. *)
Definition refused_unchanged (R : psa_status_t -> Prop) (E : psa_status_t -> fs -> Prop) : Prop :=
  forall e f', e <> PSA_SUCCESS -> mf \/ R e -> mounted f' T -> E e f'.

Lemma st_is_mounted f' x a sb U : good_table c T -> fs_inv c x a sb U T ->
  st_is Vw x U f' -> mounted f' T.
Proof using Type. intros. split; [done|]. eauto 8. Qed.

(** File contents are shorter than 2^32 bytes. *)
Lemma mounted_size f g : mounted f T -> table_get c T fid = Some g ->
  Z.of_nat (length (f_data g)) < 2 ^ 32.
Proof using All.
  intros [HG (x & a & sb & U & Hst & Hinv)] Hg. apply (table_get_iff c T fid g HG) in Hg as (j & Hj & HT & _).
  destruct (fs_inv_entry c x a sb U T j g Hinv Hj HT) as [Hu _].
  destruct (entry_facts ops c Vw mf wf x a sb U T Hinv fid Hlen Hfid j g Hj Hu HT)
    as (_ & _ & _ & E & _ & Hw & _). unfold fm_words in Hw. lia.
Qed.

Lemma info_promise f (Q : its_file_info_t -> fs -> Prop) (E : psa_status_t -> fs -> Prop) :
  mounted f T ->
  (forall g f', table_get c T fid = Some g -> mounted f' T -> Q (file_info g) f') ->
  refused_unchanged (fun e => table_get c T fid = None /\ e = PSA_ERROR_DOES_NOT_EXIST) E ->
  wp (its_flash_fs_file_get_info ops fid) f Q E.
Proof using All.
  intros [HG (x & a & sb & U & Hst & Hinv)] HQ HE.
  eapply (file_get_info_spec ops c Vw mf wf x a sb U T Hinv fid Hlen Hfid); [exact Hst|..].
  - intros j g Hj Hg f' Hst'. apply (HQ g); [|by eapply st_is_mounted].
    by rewrite (table_lookup_get c T fid j Hj).
  - intros Hn f' Hst'. apply HE; [done| |by eapply st_is_mounted]. right. split; [|done].
    by apply table_get_none.
  - intros e f' Hmf He Hst'. apply HE; [done|by left|by eapply st_is_mounted].
Qed.

Lemma read_promise size off f (Q : list Z -> fs -> Prop) (E : psa_status_t -> fs -> Prop) g :
  0 <= size < 2 ^ 32 -> 0 <= off < 2 ^ 32 -> mounted f T ->
  table_get c T fid = Some g -> off + size <= Z.of_nat (length (f_data g)) ->
  (forall f', mounted f' T ->
     Q (firstn (Z.to_nat size) (skipn (Z.to_nat off) (f_data g))) f') ->
  refused_unchanged (fun _ => False) E ->
  wp (its_flash_fs_file_read ops fid size off) f Q E.
Proof using All.
  intros Hsz Ho [HG (x & a & sb & U & Hst & Hinv)] Hg Hin HQ HE.
  eapply (file_read_spec ops c Vw mf wf x a sb U T Hinv fid Hlen Hfid size off); [done|done|exact Hst|..].
  - intros j h Hj Hh _ f' Hst'. rewrite (table_lookup_get c T fid j Hj) in Hg.
    replace h with g by congruence. apply HQ. by eapply st_is_mounted.
  - intros j h Hj Hh Hlt. rewrite (table_lookup_get c T fid j Hj) in Hg.
    replace h with g in Hlt by congruence. lia.
  - intros Hn%table_get_none. congruence.
  - intros e f' Hmf He Hst'. apply HE; [done|by left|by eapply st_is_mounted].
Qed.

Lemma delete_promise f (Q : unit -> fs -> Prop) (E : psa_status_t -> fs -> Prop) :
  mounted f T -> (forall h, table_get c T fid = Some h -> 0 < f_max h) ->
  (forall f' T', mounted f' T' -> updated c T fid None T' -> Q tt f') ->
  refused_unchanged (fun e => table_get c T fid = None /\ e = PSA_ERROR_DOES_NOT_EXIST) E ->
  (forall e f' T', mf -> e <> PSA_SUCCESS -> survives f' T' ->
     same_files c T T' \/ updated c T fid None T' -> E e f') ->
  wp (its_flash_fs_file_delete ops fid) f Q E.
Proof using All.
  intros [HG (x & a & sb & U & Hst & Hinv)] Hsp HQ HN HE.
  assert (Hupd : forall d, table_lookup c T fid = Some d -> updated c T fid None (table_delete d T)).
  { intros d Hd fid'. by apply get_delete. }
  eapply (file_delete_spec ops c Vw mf wf x a sb U T Hinv fid Hlen Hfid); [exact Hst|..].
  - intros d g Hd Hg. apply Hsp. by rewrite (table_lookup_get c T fid d Hd).
  - intros d f' x' U' Hd Hst' Hinv'. apply (HQ f' (table_delete d T)); [|by apply Hupd].
    split; [by apply good_delete|]. eauto 8.
  - intros Hn f' Hst'. apply HN; [done| |by eapply st_is_mounted]. right. split; [|done].
    by apply table_get_none.
  - intros e f' V Hmf He HV (a' & T0 & Hsel & HT0 & Hh).
    destruct HT0 as [->|(d & Hd & ->)].
    + apply (HE e f' T); [done|done|by eapply survives_good|by left].
    + apply (HE e f' (table_delete d T)); [done|done| |by auto].
      eapply survives_good; [by apply good_delete|done..].
Qed.
End Promise.

(** ** Mounting, on a device that does not fail *)
Section MountPromise.
Context {D : Type} (ops : its_flash_fs_ops_t D) (c : its_flash_fs_config_t).
Context (Vw : D -> view) {FS : FlashSpec c ops Vw False} (wf : wf_cfg c).
Local Abbreviation fs := (its_flash_fs_ctx_t * D)%type.

(** A restart: the device [snd f] with a fresh context. *)
Lemma prepare_promise f x T (Q : unit -> fs -> Prop) (E : psa_status_t -> fs -> Prop) :
  survives c Vw f T -> cfg x = c ->
  (forall f' T', fs_mounted c Vw f' T' -> same_files c T T' -> Q tt f') ->
  wp (its_flash_fs_prepare ops) (x, snd f) Q E.
Proof using All.
  intros [HG (V & a & T0 & HV & Hsel & Hh & Heq & Hpos)] Hx HQ.
  eapply (prepare_spec ops c Vw wf x V (x, snd f) a T0); [split; [done|exact HV]|done|done|done|done|].
  intros f' x' a' sb' U' Hst' Hinv'. apply (HQ f' (recovered c T0)).
  - split; [|by eauto 8]. eapply good_table_ext; [|exact HG]. intros j Hj. symmetry. by apply Heq.
  - intros fid. by apply table_get_ext.
Qed.

Lemma good_empty : good_table c table_empty.
Proof using Type. split; done. Qed.

(** Wiping a device and mounting it gives an empty filesystem, whatever the
    device held. *)
Lemma wipe_prepare_promise f (Q : unit -> fs -> Prop) (E : psa_status_t -> fs -> Prop) :
  cfg (fst f) = c ->
  (forall f' T', fs_mounted c Vw f' T' -> (forall fid, table_get c T' fid = None) -> Q tt f') ->
  wp (do! its_flash_fs_wipe_all ops in its_flash_fs_prepare ops) f Q E.
Proof using All.
  intros Hx HQ. apply wp_bind.
  eapply (wipe_all_spec ops c Vw wf (fst f) (Vw (snd f)) f); [by split|done|].
  intros [x' d'] x'' V' [Hfx HV] Hc Hsel Hh _. simpl in Hfx. subst x''.
  apply (prepare_promise (x', d') x' table_empty); [|done|].
  - by eapply survives_good; [apply good_empty| | |].
  - intros f' T' Hm Hs. apply (HQ f' T' Hm). intros fid. rewrite Hs.
    unfold table_get. by destruct (table_lookup c table_empty fid).
Qed.
End MountPromise.
