(* ===== verification/Its.v ===== *)
(** * Internal Trusted Storage: the service

    secure_fw/partitions/internal_trusted_storage/tfm_internal_trusted_storage.c,
    over an interface [ReqMngr] to the request manager that carries asset
    data between the caller and the service. *)

From Stdlib Require Import ZArith List Lia Bool.
From stdpp Require Import base tactics list.
From S2P Require Import Prelude ItsUtils ItsFlash ItsMblock ItsFs.
Import ListNotations.
Local Open Scope Z_scope.

(** ** psa/storage_common.h *)
Definition TFM_ITS_INVALID_UID : Z := 0.
Definition PSA_STORAGE_FLAG_WRITE_ONCE : Z := 1.
Definition PSA_STORAGE_FLAG_NO_CONFIDENTIALITY : Z := 2.
Definition PSA_STORAGE_FLAG_NO_REPLAY_PROTECTION : Z := 4.

Record psa_storage_info_t := {
  capacity : Z;
  size : Z;
  storage_flags : Z
}.

(** ** The platform: build options, HAL and flash drivers

    [fs_info] is [None] when the HAL fails.  The values under
    [CY_POLICY_CONCEPT] come from the HAL, the others from the build. *)
Record fs_info_t := {
  info_area_addr : Z;
  info_area_size : Z;
  sectors_per_block : Z
}.

Record fs_platform := {
  driver_program_unit : Z;
  driver_sector_size : Z;
  driver_erased_value : Z;
  hal_fs_info : option fs_info_t;
  HAL_PROGRAM_UNIT : Z;
  FLASH_ALIGNMENT : Z;
  CREATE_FLASH_LAYOUT : bool;
  hal_max_asset_size : Z;
  hal_max_num_assets : Z;
  MAX_ASSET_SIZE : Z;
  NUM_ASSETS : Z
}.

Record its_platform := {
  its_hal : fs_platform;
  ps_hal : fs_platform;
  CY_POLICY_CONCEPT : bool;
  TFM_PARTITION_PROTECTED_STORAGE : bool;
  TFM_PARTITION_TEST_PS : bool;
  TFM_SP_PS : Z;
  TFM_SP_PS_TEST : Z;
  PS_OBJECT_HEADER_SIZE : Z;
  sizeof_asset_data : Z
}.

(** ** The request manager as the service sees it

    [its_req_mngr_read n] yields the bytes stored at the start of the buffer;
    [its_req_mngr_write buf n] hands the first [n] bytes of [buf] over. *)
Record ReqMngr (IO : Type) := {
  its_req_mngr_read : Z -> IO -> list Z * IO;
  its_req_mngr_write : list Z -> Z -> IO -> IO
}.
Arguments its_req_mngr_read {IO}. Arguments its_req_mngr_write {IO}.

(** ** The state of the service: the two filesystems, the static buffer, the
    caller's [*p_data_length] and the request manager *)
Record its_state (D IO : Type) := {
  fs_ctx_its : its_flash_fs_ctx_t * D;
  fs_ctx_ps : its_flash_fs_ctx_t * D;
  asset_data : list Z;
  p_data_length : Z;
  req_mngr : IO
}.
Arguments fs_ctx_its {D IO}. Arguments fs_ctx_ps {D IO}. Arguments asset_data {D IO}.
Arguments p_data_length {D IO}. Arguments req_mngr {D IO}.

Definition tfm_its_get_fid (client_id uid : Z) : list Z := le_bytes 4 client_id ++ le_bytes 8 uid.

(** The configuration of one filesystem; the fields are 16 bits wide, and the
    erase value 8. *)
Definition fs_cfg_of (h : fs_platform) (max_file_size_ max_num_files_ : Z) :
    res its_flash_fs_config_t :=
  if negb (driver_program_unit h =? HAL_PROGRAM_UNIT h) then Err PSA_ERROR_PROGRAMMER_ERROR
  else match hal_fs_info h with
  | None => Err PSA_ERROR_PROGRAMMER_ERROR
  | Some fs_info =>
      let block_size_ := u16 (u16 (driver_sector_size h) * sectors_per_block fs_info) in
      Ok {| flash_area_addr := info_area_addr fs_info;
            sector_size := u16 (driver_sector_size h);
            block_size := block_size_;
            num_blocks := u16 (info_area_size fs_info / block_size_);
            program_unit := u16 (FLASH_ALIGNMENT h);
            max_file_size := u16 max_file_size_;
            max_num_files := u16 max_num_files_;
            erase_val := u8 (driver_erased_value h) |}
  end.

(** The configurations of the ITS and, when it is built, of the PS filesystem. *)
Definition init_fs_cfg (p : its_platform) :
    res (its_flash_fs_config_t * option its_flash_fs_config_t) :=
  let i := its_hal p in
  let s := ps_hal p in
  let its_size := if CY_POLICY_CONCEPT p then hal_max_asset_size i else MAX_ASSET_SIZE i in
  let its_num := u32 ((if CY_POLICY_CONCEPT p then hal_max_num_assets i else NUM_ASSETS i) + 1) in
  match fs_cfg_of i (ITS_UTILS_ALIGN its_size (FLASH_ALIGNMENT i)) its_num with
  | Err e => Err e
  | Ok fs_cfg_its =>
      if TFM_PARTITION_PROTECTED_STORAGE p then
        let ps_size := if CY_POLICY_CONCEPT p
                       then u32 (hal_max_asset_size s + PS_OBJECT_HEADER_SIZE p)
                       else MAX_ASSET_SIZE s in
        let ps_num := if CY_POLICY_CONCEPT p then u32 (hal_max_num_assets s + 3)
                      else NUM_ASSETS s in
        match fs_cfg_of s (ITS_UTILS_ALIGN ps_size (FLASH_ALIGNMENT s)) ps_num with
        | Err e => Err e
        | Ok fs_cfg_ps => Ok (fs_cfg_its, Some fs_cfg_ps)
        end
      else Ok (fs_cfg_its, None)
  end.

Section Its.
Context {D IO : Type} (p : its_platform) (ITS_FLASH_OPS PS_FLASH_OPS : its_flash_fs_ops_t D).
Context (ITS_FLASH_MAX_ALIGNMENT : Z) (rm : ReqMngr IO).
Local Abbreviation fs := (its_flash_fs_ctx_t * D)%type.
Local Abbreviation st := (its_state D IO).

(** ** get_fs_ctx: the filesystem that serves a client *)
Definition is_ps_client (client_id : Z) : bool :=
  TFM_PARTITION_PROTECTED_STORAGE p && (client_id =? TFM_SP_PS p).
Definition get_fs_ctx (client_id : Z) (s : st) : fs :=
  if is_ps_client client_id then fs_ctx_ps s else fs_ctx_its s.
Definition get_fs_ops (client_id : Z) : its_flash_fs_ops_t D :=
  if is_ps_client client_id then PS_FLASH_OPS else ITS_FLASH_OPS.

Definition set_fs_its (f : fs) (s : st) : st :=
  {| fs_ctx_its := f; fs_ctx_ps := fs_ctx_ps s; asset_data := asset_data s;
     p_data_length := p_data_length s; req_mngr := req_mngr s |}.
Definition set_fs_ps (f : fs) (s : st) : st :=
  {| fs_ctx_its := fs_ctx_its s; fs_ctx_ps := f; asset_data := asset_data s;
     p_data_length := p_data_length s; req_mngr := req_mngr s |}.
Definition set_fs_ctx (client_id : Z) (f : fs) (s : st) : st :=
  if is_ps_client client_id then set_fs_ps f s else set_fs_its f s.
Definition set_data_length (n : Z) (s : st) : st :=
  {| fs_ctx_its := fs_ctx_its s; fs_ctx_ps := fs_ctx_ps s; asset_data := asset_data s;
     p_data_length := n; req_mngr := req_mngr s |}.
Definition set_asset_data (l : list Z) (s : st) : st :=
  {| fs_ctx_its := fs_ctx_its s; fs_ctx_ps := fs_ctx_ps s; asset_data := l;
     p_data_length := p_data_length s; req_mngr := req_mngr s |}.
Definition set_req_mngr (io : IO) (s : st) : st :=
  {| fs_ctx_its := fs_ctx_its s; fs_ctx_ps := fs_ctx_ps s; asset_data := asset_data s;
     p_data_length := p_data_length s; req_mngr := io |}.

(** A filesystem call on the context of the client. *)
Definition on_fs {A} (client_id : Z) (m : M fs A) : M st A := fun s =>
  let '(r, f) := m (get_fs_ctx client_id s) in (r, set_fs_ctx client_id f s).

(** [memcpy] to the start of the static buffer. *)
Definition store_asset_data (l : list Z) (s : st) : st :=
  set_asset_data (l ++ skipn (length l) (asset_data s)) s.

Definition read_asset_data (n : Z) : M st unit := fun s =>
  let '(l, io) := its_req_mngr_read rm n (req_mngr s) in
  (Ok tt, store_asset_data l (set_req_mngr io s)).
Definition write_asset_data (n : Z) : M st unit := fun s =>
  (Ok tt, set_req_mngr (its_req_mngr_write rm (asset_data s) n (req_mngr s)) s).

(** ** tfm_its_init *)
Definition mount_fs (client_fs : M fs unit -> M st unit) (ops : its_flash_fs_ops_t D)
    (create_layout : bool) (fs_cfg : its_flash_fs_config_t) : M st unit :=
  do! client_fs (fun f =>
    match its_flash_fs_init_ctx (Some (fst f)) (Some fs_cfg) (Some ops) with
    | Ok x => (Ok tt, (x, snd f))
    | Err e => (Err e, f)
    end) in
  let! r := attempt (client_fs (its_flash_fs_prepare ops)) in
  match r with
  | Ok _ => ret tt
  | Err e =>
      if create_layout then
        do! client_fs (its_flash_fs_wipe_all ops) in
        client_fs (its_flash_fs_prepare ops)
      else fail e
  end.

Definition on_its (m : M fs unit) : M st unit := fun s =>
  let '(r, f) := m (fs_ctx_its s) in (r, set_fs_its f s).
Definition on_ps (m : M fs unit) : M st unit := fun s =>
  let '(r, f) := m (fs_ctx_ps s) in (r, set_fs_ps f s).

Definition tfm_its_init : M st unit :=
  match init_fs_cfg p with
  | Err e => fail e
  | Ok (fs_cfg_its, fs_cfg_ps) =>
      do! mount_fs on_its ITS_FLASH_OPS (CREATE_FLASH_LAYOUT (its_hal p)) fs_cfg_its in
      match fs_cfg_ps with
      | None => ret tt
      | Some fs_cfg_ps =>
          mount_fs on_ps PS_FLASH_OPS (CREATE_FLASH_LAYOUT (ps_hal p)) fs_cfg_ps
      end
  end.

(** ** tfm_its_set

    The [do ... while (data_length > 0)] loop; an iteration that leaves data
    consumes [sizeof(asset_data)] bytes, so [data_length] bounds the number
    of further iterations. *)
Fixpoint tfm_its_set_loop (fuel : nat) (client_id : Z) (fid : list Z)
    (flags_ data_length offset : Z) : M st unit :=
  let write_size := ITS_UTILS_MIN data_length (sizeof_asset_data p) in
  do! read_asset_data write_size in
  let! buf := reads asset_data in
  do! on_fs client_id (its_flash_fs_file_write (get_fs_ops client_id) ITS_FLASH_MAX_ALIGNMENT
        fid flags_ data_length write_size offset buf) in
  let flags_ := Z.land flags_
    (UINT32_MAX - Z.lor ITS_FLASH_FS_FLAG_CREATE ITS_FLASH_FS_FLAG_TRUNCATE) in
  let offset := u32 (offset + write_size) in
  let data_length := u32 (data_length - write_size) in
  if data_length >? 0 then
    match fuel with
    | O => ret tt
    | S fuel' => tfm_its_set_loop fuel' client_id fid flags_ data_length offset
    end
  else ret tt.

Definition tfm_its_set (client_id uid data_length create_flags : Z) : M st unit :=
  if uid =? TFM_ITS_INVALID_UID then fail PSA_ERROR_INVALID_ARGUMENT
  else if has_flag create_flags (UINT32_MAX -
      Z.lor PSA_STORAGE_FLAG_WRITE_ONCE (Z.lor PSA_STORAGE_FLAG_NO_CONFIDENTIALITY
        PSA_STORAGE_FLAG_NO_REPLAY_PROTECTION))
  then fail PSA_ERROR_NOT_SUPPORTED
  else
    let g_fid := tfm_its_get_fid client_id uid in
    let! r := attempt (on_fs client_id
      (its_flash_fs_file_get_info (get_fs_ops client_id) g_fid)) in
    do! match r with
        | Ok g_file_info =>
            if has_flag (info_flags g_file_info) PSA_STORAGE_FLAG_WRITE_ONCE
            then fail PSA_ERROR_NOT_PERMITTED else ret tt
        | Err status =>
            if negb (status =? PSA_ERROR_DOES_NOT_EXIST) then fail status else ret tt
        end in
    let flags_ := Z.lor create_flags
      (Z.lor ITS_FLASH_FS_FLAG_CREATE ITS_FLASH_FS_FLAG_TRUNCATE) in
    tfm_its_set_loop (Z.to_nat data_length) client_id g_fid flags_ data_length 0.

(** ** tfm_its_get *)
Definition ps_test_client (client_id : Z) : Z :=
  if TFM_PARTITION_TEST_PS p && (client_id =? TFM_SP_PS_TEST p) then TFM_SP_PS p else client_id.

Fixpoint tfm_its_get_loop (fuel : nat) (client_id : Z) (fid : list Z)
    (data_offset data_size : Z) : M st unit :=
  let read_size := ITS_UTILS_MIN data_size (sizeof_asset_data p) in
  let! r := attempt (on_fs client_id
    (its_flash_fs_file_read (get_fs_ops client_id) fid read_size data_offset)) in
  match r with
  | Err status => do! modify (set_data_length 0) in fail status
  | Ok l =>
      do! modify (store_asset_data l) in
      do! write_asset_data read_size in
      let data_offset := u32 (data_offset + read_size) in
      let data_size := u32 (data_size - read_size) in
      if data_size >? 0 then
        match fuel with
        | O => ret tt
        | S fuel' => tfm_its_get_loop fuel' client_id fid data_offset data_size
        end
      else ret tt
  end.

Definition tfm_its_get (client_id uid data_offset data_size : Z) : M st unit :=
  let client_id := ps_test_client client_id in
  if uid =? TFM_ITS_INVALID_UID then fail PSA_ERROR_INVALID_ARGUMENT
  else
    let g_fid := tfm_its_get_fid client_id uid in
    let! g_file_info := on_fs client_id
      (its_flash_fs_file_get_info (get_fs_ops client_id) g_fid) in
    if data_offset >? size_current g_file_info then fail PSA_ERROR_INVALID_ARGUMENT
    else
      let data_size := ITS_UTILS_MIN data_size (u32 (size_current g_file_info - data_offset)) in
      do! modify (set_data_length data_size) in
      tfm_its_get_loop (Z.to_nat data_size) client_id g_fid data_offset data_size.

(** ** tfm_its_get_info *)
Definition tfm_its_get_info (client_id uid : Z) : M st psa_storage_info_t :=
  if uid =? TFM_ITS_INVALID_UID then fail PSA_ERROR_INVALID_ARGUMENT
  else
    let g_fid := tfm_its_get_fid client_id uid in
    let! g_file_info := on_fs client_id
      (its_flash_fs_file_get_info (get_fs_ops client_id) g_fid) in
    ret {| capacity := size_current g_file_info; size := size_current g_file_info;
           storage_flags := info_flags g_file_info |}.

(** ** tfm_its_remove *)
Definition tfm_its_remove (client_id uid : Z) : M st unit :=
  let client_id := ps_test_client client_id in
  if uid =? TFM_ITS_INVALID_UID then fail PSA_ERROR_INVALID_ARGUMENT
  else
    let g_fid := tfm_its_get_fid client_id uid in
    let! g_file_info := on_fs client_id
      (its_flash_fs_file_get_info (get_fs_ops client_id) g_fid) in
    if has_flag (info_flags g_file_info) PSA_STORAGE_FLAG_WRITE_ONCE
    then fail PSA_ERROR_NOT_PERMITTED
    else on_fs client_id (its_flash_fs_file_delete (get_fs_ops client_id) g_fid).
End Its.
