(* ===== verification/ItsInit.v ===== *)
(** * Internal Trusted Storage: initialisation

    tfm_its_init configures and mounts the ITS filesystem, then the one of
    Protected Storage; an unformatted device is wiped when the build asks for
    it. *)

From Stdlib Require Import ZArith List Lia Bool.
From stdpp Require Import base tactics list sets.
From S2P Require Import Prelude ItsUtils ItsFlash ItsMblock ItsFs ItsImage ItsDevSpec ItsCommit.
From S2P Require Import ItsFinalize ItsDeletePlan ItsFileSpec ItsMount ItsTable ItsChunk Its.
Import ListNotations.
Local Open Scope Z_scope.

(** ** An accepted configuration is well formed

    The fields have 16 bits, so none of the sizes the check computes wraps,
    whatever the configuration. *)
Record cfg_words (c : its_flash_fs_config_t) : Prop := {
  cw_bs : 0 <= block_size c < 2 ^ 16;
  cw_nb : 0 <= num_blocks c < 2 ^ 16;
  cw_mfs : 0 <= max_file_size c < 2 ^ 16;
  cw_nf : 0 <= max_num_files c < 2 ^ 16;
  cw_ev : 0 <= erase_val c < 256
}.

Lemma metadata_size_eq c : cfg_words c -> 2 <= num_blocks c -> num_blocks c <> 3 ->
  its_flash_fs_all_metadata_size c = mend c.
Proof.
  intros [H1 H2 H3 H4 H5] Hnb Hn3.
  unfold its_flash_fs_all_metadata_size, its_flash_fs_num_active_dblocks, mend, foff, nact,
    ITS_BLOCK_META_HEADER_SIZE, ITS_BLOCK_METADATA_SIZE, ITS_FILE_METADATA_SIZE.
  destruct (Z.eqb_spec (num_blocks c) 2); rewrite ?u32_small; try lia; rewrite u32_small; lia.
Qed.

Lemma validate_config_cases c : cfg_words c -> its_flash_fs_validate_config c = PSA_SUCCESS ->
  2 <= num_blocks c /\ num_blocks c <> 3 /\ mend c <= block_size c /\ max_file_size c <= block_size c.
Proof.
  intros Hw H. unfold its_flash_fs_validate_config in H.
  destruct ((num_blocks c <? 2) || (num_blocks c =? 3)) eqn:Enb.
  { by repeat case_match. }
  apply orb_false_iff in Enb as [?%Z.ltb_ge ?%Z.eqb_neq].
  rewrite metadata_size_eq in H by done.
  destruct (Z.gtb_spec (mend c) (block_size c)) as [?|Hm]; [done|].
  destruct (Z.gtb_spec (max_file_size c) (block_size c)) as [?|Hf]; [done|]. lia.
Qed.

Lemma validate_config_wf c : cfg_words c -> erase_val c <> 1 ->
  its_flash_fs_validate_config c = PSA_SUCCESS -> wf_cfg c.
Proof.
  intros Hw Hev H. destruct (validate_config_cases c Hw H) as (H1 & H2 & H3 & H4).
  destruct Hw. split; lia || done.
Qed.

(** The offsets of the file table do not wrap. *)
Lemma file_meta_offset_words c j : cfg_words c -> 2 <= num_blocks c -> num_blocks c <> 3 ->
  0 <= j < max_num_files c -> its_mblock_file_meta_offset c j = foff c j.
Proof.
  intros [H1 H2 H3 H4 H5] Hnb Hn3 Hj.
  unfold its_mblock_file_meta_offset, its_num_active_dblocks, its_num_dedicated_dblocks,
    its_init_dblock_start, foff, nact, ITS_BLOCK_META_HEADER_SIZE, ITS_BLOCK_METADATA_SIZE,
    ITS_FILE_METADATA_SIZE.
  destruct (Z.eqb_spec (num_blocks c) 2) as [E|E]; [rewrite (u32_small (0 + 1)), u32_small; lia|].
  rewrite (u32_small (num_blocks c - 3)), (u32_small (num_blocks c - 3 + 1)), u32_small; lia.
Qed.

(** With two blocks, the files share a block with the metadata. *)
Lemma validate_config_shared c : cfg_words c -> num_blocks c = 2 ->
  its_flash_fs_validate_config c = PSA_SUCCESS -> mend c + max_file_size c <= block_size c.
Proof.
  intros Hw Hnb H. pose proof (metadata_size_eq c Hw ltac:(lia) ltac:(lia)) as Em.
  unfold its_flash_fs_validate_config in H. rewrite Em, Hnb in H. simpl in H. destruct Hw.
  destruct (Z.gtb_spec (mend c) (block_size c)) as [?|Hm]; [done|].
  destruct (Z.gtb_spec (max_file_size c) (block_size c)); [done|].
  rewrite u32_small in H by (unfold mend, foff, nact in *; rewrite Hnb in *; simpl in *; lia).
  destruct (Z.gtb_spec (max_file_size c) (block_size c - mend c)); [done|lia].
Qed.

Section Init.
Context {D IO : Type} (p : its_platform) (ITS_FLASH_OPS PS_FLASH_OPS : its_flash_fs_ops_t D).
Local Abbreviation fs := (its_flash_fs_ctx_t * D)%type.
Local Abbreviation st := (its_state D IO).

(** What mounting a device will find: a table it holds, or nothing when the
    device is unformatted and may be formatted. *)
Definition boots (c : its_flash_fs_config_t) (Vw : D -> view) (create : bool) (d : D) (T : table) : Prop :=
  (exists x, survives c Vw (x, d) T) \/
  (select c (Vw d) = None /\ create = true /\ T = table_empty).

(** The filesystem a step acts on, as a lens on the state of the service. *)
Record fs_lens (run : M fs unit -> M st unit) (get : st -> fs) (put : fs -> st -> st) : Prop := {
  lens_run : forall m s, run m s = let '(r, f) := m (get s) in (r, put f s);
  lens_get : forall f s, get (put f s) = f;
  lens_put : forall f f' s, put f (put f' s) = put f s
}.

Lemma its_lens : fs_lens on_its fs_ctx_its set_fs_its.
Proof using Type. by split. Qed.
Lemma ps_lens : fs_lens on_ps fs_ctx_ps set_fs_ps.
Proof using Type. by split. Qed.

Section MountFs.
Context (run : M fs unit -> M st unit) (get : st -> fs) (put : fs -> st -> st).
Context (L : fs_lens run get put) (ops : its_flash_fs_ops_t D) (c : its_flash_fs_config_t).
Context (Vw : D -> view) {FS : FlashSpec c ops Vw False} (wf : wf_cfg c).
Context (Hvalid : its_flash_fs_validate_config c = PSA_SUCCESS).

Lemma wp_lens m s (Q : unit -> st -> Prop) (E : psa_status_t -> st -> Prop) :
  wp m (get s) (fun u f => Q u (put f s)) (fun e f => E e (put f s)) -> wp (run m) s Q E.
Proof using L. unfold wp. rewrite (lens_run _ _ _ L). by destruct (m (get s)) as [[[]|e] f]. Qed.

Lemma mount_fs_spec create T s (Q : unit -> st -> Prop) (E : psa_status_t -> st -> Prop) :
  boots c Vw create (snd (get s)) T ->
  (forall f T', fs_mounted c Vw f T' -> same_files c T T' -> Q tt (put f s)) ->
  wp (mount_fs run ops create c) s Q E.
Proof using All.
  intros Hb HQ. unfold mount_fs. apply wp_bind, wp_lens. unfold wp at 1, its_flash_fs_init_ctx.
  rewrite Hvalid. cbv beta iota zeta. rewrite Z.eqb_refl. cbn [negb]. set (x0 := Build_its_flash_fs_ctx_t _ _ _ _).
  apply wp_bind, wp_attempt, wp_lens. rewrite (lens_get _ _ _ L).
  destruct Hb as [(x & Hs)|(Hsel & -> & ->)].
  - apply (prepare_promise ops c Vw wf (x, snd (get s)) x0 T); [exact Hs|done|].
    intros f T' Hm Hsame. rewrite (lens_put _ _ _ L). apply wp_ret. by apply (HQ f T').
  - eapply (prepare_none_spec ops c Vw wf x0 (Vw (snd (get s)))); [by split|done|done|].
    intros f1 [Hx1 HV1]. rewrite (lens_put _ _ _ L).
    assert (Hgo : wp (do! its_flash_fs_wipe_all ops in its_flash_fs_prepare ops) f1
      (fun _ f => Q tt (put f s)) (fun e f => E e (put f s))).
    { apply (wipe_prepare_promise ops c Vw wf); [by rewrite Hx1|]. intros f T' Hm He.
      apply (HQ f T' Hm). intros fid. rewrite He. unfold table_get.
      by destruct (table_lookup c table_empty fid). }
    apply wp_bind, wp_lens. rewrite (lens_get _ _ _ L). apply wp_bind_inv in Hgo.
    eapply wp_mono; [exact Hgo| |].
    + intros [] f2 H2. apply wp_lens. rewrite (lens_get _ _ _ L).
      eapply wp_mono; [exact H2|intros [] f3|intros e f3]; by rewrite !(lens_put _ _ _ L).
    + intros e f2 H2. by rewrite (lens_put _ _ _ L).
Qed.
End MountFs.

(** ** tfm_its_init

    Both filesystems boot, whatever each of them finds on its device. *)
Section Both.
Context (ci cp : its_flash_fs_config_t) (Vi Vp : D -> view).
Context {FI : FlashSpec ci ITS_FLASH_OPS Vi False} {FP : FlashSpec cp PS_FLASH_OPS Vp False}.
Context (wfi : wf_cfg ci) (wfp : wf_cfg cp).
Context (Hcfg : init_fs_cfg p = Ok (ci, Some cp)).
Context (Hvi : its_flash_fs_validate_config ci = PSA_SUCCESS).
Context (Hvp : its_flash_fs_validate_config cp = PSA_SUCCESS).

Lemma tfm_its_init_spec s Ti Tp (Q : unit -> st -> Prop) (E : psa_status_t -> st -> Prop) :
  boots ci Vi (CREATE_FLASH_LAYOUT (its_hal p)) (snd (fs_ctx_its s)) Ti ->
  boots cp Vp (CREATE_FLASH_LAYOUT (ps_hal p)) (snd (fs_ctx_ps s)) Tp ->
  (forall s' Ti' Tp', fs_mounted ci Vi (fs_ctx_its s') Ti' -> same_files ci Ti Ti' ->
     fs_mounted cp Vp (fs_ctx_ps s') Tp' -> same_files cp Tp Tp' -> Q tt s') ->
  wp (tfm_its_init p ITS_FLASH_OPS PS_FLASH_OPS) s Q E.
Proof using All.
  intros Hi Hp HQ. unfold tfm_its_init. rewrite Hcfg. apply wp_bind.
  eapply (mount_fs_spec on_its fs_ctx_its set_fs_its its_lens ITS_FLASH_OPS ci Vi wfi Hvi); [exact Hi|].
  intros fi Ti' Hmi Hsi.
  eapply (mount_fs_spec on_ps fs_ctx_ps set_fs_ps ps_lens PS_FLASH_OPS cp Vp wfp Hvp); [exact Hp|].
  intros fp Tp' Hmp Hsp. by apply (HQ _ Ti' Tp').
Qed.
End Both.

(** A driver whose program unit is not the one the build assumes. *)
Lemma tfm_its_init_program_unit (s : st) : driver_program_unit (its_hal p) <> HAL_PROGRAM_UNIT (its_hal p) ->
  tfm_its_init p ITS_FLASH_OPS PS_FLASH_OPS s = (Err PSA_ERROR_PROGRAMMER_ERROR, s).
Proof.
  intros H. unfold tfm_its_init, init_fs_cfg, fs_cfg_of.
  by replace (driver_program_unit (its_hal p) =? HAL_PROGRAM_UNIT (its_hal p)) with false by lia.
Qed.
End Init.
