(* ===== verification/ItsService.v ===== *)
(** * Internal Trusted Storage: the service refines a map

    For each client, tfm_its_set, tfm_its_get, tfm_its_get_info and
    tfm_its_remove act on the map from file IDs to files of the filesystem
    that serves the client, and leave the other filesystem alone. *)

From Stdlib Require Import ZArith List Lia Bool.
From stdpp Require Import base tactics list sets.
From S2P Require Import Prelude ItsUtils ItsFlash ItsMblock ItsFs ItsImage ItsDevSpec.
From S2P Require Import ItsFileSpec ItsWrite ItsTable ItsChunk Its.
Import ListNotations.
Local Open Scope Z_scope.

(** ** What the service relies on of the request manager

    [source io l]: the caller supplies the bytes [l] next.  [wrote l io io']:
    between [io] and [io'] exactly the bytes [l] were handed to the caller.
    [room io n]: the caller takes [n] more bytes. *)
Class ReqSpec {IO : Type} (rm : ReqMngr IO) := {
  source : IO -> list Z -> Prop;
  room : IO -> Z -> Prop;
  wrote : list Z -> IO -> IO -> Prop;
  req_read : forall io l n, source io l -> 0 <= n <= Z.of_nat (length l) ->
    let '(b, io') := its_req_mngr_read rm n io in
    b = firstn (Z.to_nat n) l /\ source io' (skipn (Z.to_nat n) l);
  req_write : forall io b n r, 0 <= n <= Z.of_nat (length b) -> n <= r -> room io r ->
    wrote (firstn (Z.to_nat n) b) io (its_req_mngr_write rm b n io) /\
    room (its_req_mngr_write rm b n io) (r - n);
  wrote_nil : forall io, wrote [] io io;
  wrote_app : forall l l' io io' io'', wrote l io io' -> wrote l' io' io'' -> wrote (l ++ l') io io''
}.

(** ** File IDs *)
Lemma length_fid cl uid : length (tfm_its_get_fid cl uid) = 12%nat.
Proof. unfold tfm_its_get_fid. by rewrite length_app, !length_le_bytes. Qed.

Lemma fid_valid cl uid : 0 < uid < 2 ^ 64 ->
  its_utils_validate_fid (tfm_its_get_fid cl uid) = PSA_SUCCESS.
Proof.
  intros Hu. apply validate_fid_spec; [apply length_fid|]. intros H.
  unfold tfm_its_get_fid in H. apply Forall_app in H as [_ H].
  assert (Hz : le_val (le_bytes 8 uid) = 0).
  { induction H as [|b l -> _ IH]; [done|]. simpl. lia. }
  rewrite le_val_bytes in Hz. change (256 ^ Z.of_nat 8) with (2 ^ 64) in Hz.
  rewrite Z.mod_small in Hz; lia.
Qed.

(** Different clients, or different UIDs, never share a file. *)
Lemma fid_inj cl uid cl' uid' : - 2 ^ 31 <= cl < 2 ^ 31 -> - 2 ^ 31 <= cl' < 2 ^ 31 ->
  0 <= uid < 2 ^ 64 -> 0 <= uid' < 2 ^ 64 ->
  tfm_its_get_fid cl uid = tfm_its_get_fid cl' uid' -> cl = cl' /\ uid = uid'.
Proof.
  intros Hc Hc' Hu Hu' H. unfold tfm_its_get_fid in H.
  apply app_inj_1 in H as [H1 H2]; [|by rewrite !length_le_bytes].
  apply (f_equal le_val) in H1, H2. rewrite !le_val_bytes in H1, H2.
  change (256 ^ Z.of_nat 8) with (2 ^ 64) in H2. change (256 ^ Z.of_nat 4) with (2 ^ 32) in H1.
  rewrite !Z.mod_small in H2 by lia. split; [|done].
  assert (Hm : (cl - cl') mod 2 ^ 32 = 0) by (rewrite Zminus_mod, H1, Z.sub_diag; done).
  apply Z.mod_divide in Hm as [q Hq]; lia.
Qed.

(** ** Flags *)
Lemma write_once_user fl :
  has_flag (Z.land fl ITS_FLASH_FS_USER_FLAGS_MASK) PSA_STORAGE_FLAG_WRITE_ONCE =
  has_flag fl PSA_STORAGE_FLAG_WRITE_ONCE.
Proof. unfold has_flag. by rewrite <- Z.land_assoc. Qed.

(** The flags [tfm_its_set] does not support. *)
Definition unsupported_flags (fl : Z) : bool :=
  has_flag fl (UINT32_MAX -
    Z.lor PSA_STORAGE_FLAG_WRITE_ONCE (Z.lor PSA_STORAGE_FLAG_NO_CONFIDENTIALITY
      PSA_STORAGE_FLAG_NO_REPLAY_PROTECTION)).

Section Service.
Context {D IO : Type} (p : its_platform) (ITS_FLASH_OPS PS_FLASH_OPS : its_flash_fs_ops_t D).
Context (ITS_FLASH_MAX_ALIGNMENT : Z) (rm : ReqMngr IO) {RS : ReqSpec rm}.
Local Abbreviation st := (its_state D IO).

(** The client, and the configuration and device of its filesystem. *)
Context (cl : Z) (c : its_flash_fs_config_t) (Vw : D -> view) (mf : Prop).
Context {FS : FlashSpec c (get_fs_ops p ITS_FLASH_OPS PS_FLASH_OPS cl) Vw mf} (wf : wf_cfg c).
Context (Hmax : max_num_files c < ITS_METADATA_INVALID_INDEX).
Local Abbreviation buf := (sizeof_asset_data p).
Context (HA : align_ok c ITS_FLASH_MAX_ALIGNMENT buf).
Local Abbreviation asize := (aligned_size c ITS_FLASH_MAX_ALIGNMENT).
Local Abbreviation fs_of := (get_fs_ctx p cl).

(** The filesystem that does not serve the client. *)
Definition other_fs (s : st) : its_flash_fs_ctx_t * D :=
  if is_ps_client p cl then fs_ctx_its s else fs_ctx_ps s.

(** The filesystem of the client holds [T], the static buffer has its size,
    and the other filesystem is [o]. *)
Record serving (s : st) (T : table) (o : its_flash_fs_ctx_t * D) : Prop := {
  sv_mounted : fs_mounted c Vw (fs_of s) T;
  sv_buffer : Z.of_nat (length (asset_data s)) = buf;
  sv_other : other_fs s = o
}.

Lemma fs_of_set f (s : st) : fs_of (set_fs_ctx p cl f s) = f.
Proof using Type. unfold get_fs_ctx, set_fs_ctx. by destruct (is_ps_client p cl). Qed.
Lemma other_set f (s : st) : other_fs (set_fs_ctx p cl f s) = other_fs s.
Proof using Type. unfold other_fs, set_fs_ctx. by destruct (is_ps_client p cl). Qed.
Lemma set_fs_parts f (s : st) : asset_data (set_fs_ctx p cl f s) = asset_data s /\
  p_data_length (set_fs_ctx p cl f s) = p_data_length s /\
  req_mngr (set_fs_ctx p cl f s) = req_mngr s.
Proof using Type. unfold set_fs_ctx. by destruct (is_ps_client p cl). Qed.

Lemma wp_on_fs {A} (m : M (its_flash_fs_ctx_t * D) A) s (Q : A -> st -> Prop) E :
  wp m (fs_of s) (fun a f => Q a (set_fs_ctx p cl f s)) (fun e f => E e (set_fs_ctx p cl f s)) ->
  wp (on_fs p cl m) s Q E.
Proof using Type. unfold wp, on_fs. by destruct (m (fs_of s)) as [[a|e] f]. Qed.

Lemma serving_set s T T' o f : serving s T o -> fs_mounted c Vw f T' ->
  serving (set_fs_ctx p cl f s) T' o.
Proof using Type.
  intros [H1 H2 H3] Hf. split; [by rewrite fs_of_set|..].
  - by rewrite (proj1 (set_fs_parts f s)).
  - by rewrite other_set.
Qed.

(** The contents of a failed update: what a restart will find. *)
Record interrupted (s : st) (T : table) (o : its_flash_fs_ctx_t * D) : Prop := {
  int_survives : survives c Vw (fs_of s) T;
  int_other : other_fs s = o
}.

(** ** Reading the file information *)
Section Info.
Context (uid : Z) (Huid : 0 < uid < 2 ^ 64) (T : table) (o : its_flash_fs_ctx_t * D).
Local Abbreviation fid := (tfm_its_get_fid cl uid).

Definition same_io (s s' : st) : Prop :=
  p_data_length s' = p_data_length s /\ req_mngr s' = req_mngr s.

Lemma info_spec s (Q : its_file_info_t -> st -> Prop) (E : psa_status_t -> st -> Prop) :
  serving s T o ->
  (forall g s', table_get c T fid = Some g -> serving s' T o -> same_io s s' ->
     Q (file_info g) s') ->
  (forall e s', e <> PSA_SUCCESS ->
     mf \/ (table_get c T fid = None /\ e = PSA_ERROR_DOES_NOT_EXIST) -> serving s' T o ->
     same_io s s' -> E e s') ->
  wp (on_fs p cl (its_flash_fs_file_get_info (get_fs_ops p ITS_FLASH_OPS PS_FLASH_OPS cl) fid)) s Q E.
Proof using All.
  intros HS HQ HE. apply wp_on_fs.
  eapply (info_promise _ c Vw mf wf T fid (length_fid cl uid) (fid_valid cl uid Huid));
    [apply (sv_mounted _ _ _ HS)|..].
  - intros g f Hg Hf. apply HQ; [done|by eapply serving_set|apply set_fs_parts].
  - intros e f He Hr Hf. apply HE; [done|done|by eapply serving_set|apply set_fs_parts].
Qed.
End Info.

(** ** tfm_its_get_info *)
Lemma tfm_its_get_info_spec uid T o s (Q : psa_storage_info_t -> st -> Prop)
    (E : psa_status_t -> st -> Prop) :
  0 <= uid < 2 ^ 64 -> serving s T o ->
  (forall g s', uid <> 0 -> table_get c T (tfm_its_get_fid cl uid) = Some g -> serving s' T o ->
     Q {| capacity := Z.of_nat (length (f_data g)); size := Z.of_nat (length (f_data g));
          storage_flags := Z.land (f_flags g) ITS_FLASH_FS_USER_FLAGS_MASK |} s') ->
  (forall e s', e <> PSA_SUCCESS ->
     mf \/ (uid = 0 /\ e = PSA_ERROR_INVALID_ARGUMENT) \/
     (table_get c T (tfm_its_get_fid cl uid) = None /\ e = PSA_ERROR_DOES_NOT_EXIST) ->
     serving s' T o -> E e s') ->
  wp (tfm_its_get_info p ITS_FLASH_OPS PS_FLASH_OPS cl uid) s Q E.
Proof using All.
  intros Hu HS HQ HE. unfold tfm_its_get_info, TFM_ITS_INVALID_UID.
  destruct (Z.eqb_spec uid 0) as [->|Hu0]; [apply wp_fail, HE; auto; done|].
  apply wp_bind. eapply (info_spec uid ltac:(lia) T o); [exact HS|..].
  - intros g s' Hg Hs' _. apply wp_ret. by apply (HQ g).
  - intros e s' He Hr Hs' _. apply HE; tauto.
Qed.

(** ** tfm_its_remove *)
Lemma tfm_its_remove_spec uid T o s (Q : unit -> st -> Prop) (E : psa_status_t -> st -> Prop) :
  0 <= uid < 2 ^ 64 -> ps_test_client p cl = cl -> serving s T o ->
  let fid := tfm_its_get_fid cl uid in
  (forall h, table_get c T fid = Some h -> 0 < f_max h) ->
  (forall g s' T', uid <> 0 -> table_get c T fid = Some g ->
     has_flag (f_flags g) PSA_STORAGE_FLAG_WRITE_ONCE = false ->
     serving s' T' o -> updated c T fid None T' -> Q tt s') ->
  (forall e s', e <> PSA_SUCCESS ->
     mf \/ (uid = 0 /\ e = PSA_ERROR_INVALID_ARGUMENT) \/
     (table_get c T fid = None /\ e = PSA_ERROR_DOES_NOT_EXIST) \/
     (exists g, table_get c T fid = Some g /\
        has_flag (f_flags g) PSA_STORAGE_FLAG_WRITE_ONCE = true /\ e = PSA_ERROR_NOT_PERMITTED) ->
     serving s' T o -> E e s') ->
  (forall e s' T', mf -> e <> PSA_SUCCESS -> interrupted s' T' o ->
     same_files c T T' \/ updated c T fid None T' -> E e s') ->
  wp (tfm_its_remove p ITS_FLASH_OPS PS_FLASH_OPS cl uid) s Q E.
Proof using All.
  intros Hu Htest HS fid Hsp HQ HN HE. unfold tfm_its_remove, TFM_ITS_INVALID_UID. rewrite Htest.
  destruct (Z.eqb_spec uid 0) as [->|Hu0]; [apply wp_fail, HN; auto; done|].
  assert (Hupos : 0 < uid < 2 ^ 64) by lia.
  apply wp_bind. eapply (info_spec uid Hupos T o); [exact HS|..].
  2:{ intros e s' He Hr Hs' _. apply HN; tauto. }
  intros g s' Hg Hs' _. cbn [info_flags file_info]. rewrite write_once_user.
  destruct (has_flag (f_flags g) PSA_STORAGE_FLAG_WRITE_ONCE) eqn:Ew.
  { apply wp_fail, HN; [done| |done]. right. right. right. eauto. }
  apply wp_on_fs.
  eapply (delete_promise _ c Vw mf wf T fid (length_fid cl uid) (fid_valid cl uid Hupos));
    [apply (sv_mounted _ _ _ Hs')|exact Hsp|..].
  - intros f T' Hf Hupd. apply (HQ g _ T'); auto. by eapply serving_set.
  - intros e f He Hr Hf. apply HN; [done|tauto|by eapply serving_set].
  - intros e f T' Hmf He Hf Hc. apply (HE e _ T'); auto. split; [by rewrite fs_of_set|].
    rewrite other_set. apply (sv_other _ _ _ Hs').
Qed.

(** ** tfm_its_set *)
Section Set_.
Context (uid : Z) (Huid : 0 < uid < 2 ^ 64).
Local Abbreviation fid := (tfm_its_get_fid cl uid).

(** One transfer from the caller to the static buffer. *)
Lemma read_asset_spec n l s T o (Q : unit -> st -> Prop) (E : psa_status_t -> st -> Prop) :
  serving s T o -> source (req_mngr s) l -> 0 <= n <= Z.of_nat (length l) -> n <= buf ->
  (forall s', serving s' T o -> source (req_mngr s') (skipn (Z.to_nat n) l) ->
     firstn (Z.to_nat n) (asset_data s') = firstn (Z.to_nat n) l -> Q tt s') ->
  wp (read_asset_data rm n) s Q E.
Proof using All.
  intros [H1 H2 H3] Hl Hn Hnb HQ. unfold wp, read_asset_data.
  pose proof (req_read (req_mngr s) l n Hl Hn) as Hr.
  destruct (its_req_mngr_read rm n (req_mngr s)) as [b io'] eqn:Er. destruct Hr as [-> Hs].
  assert (Hlen : length (firstn (Z.to_nat n) l) = Z.to_nat n) by (rewrite length_firstn; lia).
  apply HQ; [|exact Hs|].
  - split; [exact H1| |exact H3]. cbn. rewrite length_app, length_skipn, Hlen. lia.
  - cbn. rewrite firstn_app, firstn_firstn, Nat.min_id, Hlen, Nat.sub_diag. simpl. by rewrite app_nil_r.
Qed.

Lemma extended_app g l l' : extended (extended g l) l' = extended g (l ++ l').
Proof using Type. unfold extended. cbn. by rewrite app_assoc. Qed.

(** The flags of the chunks after the first one. *)
Definition append_flags (fl : Z) : Z :=
  Z.land fl (UINT32_MAX - Z.lor ITS_FLASH_FS_FLAG_CREATE ITS_FLASH_FS_FLAG_TRUNCATE).

Lemma append_no_truncate fl : has_flag (append_flags fl) ITS_FLASH_FS_FLAG_TRUNCATE = false.
Proof using Type.
  unfold has_flag, append_flags. rewrite <- Z.land_assoc. change (Z.land (_ - _) _) with 0.
  by rewrite Z.land_0_r.
Qed.
Lemma append_internal fl : has_flag fl ITS_FLASH_FS_INTERNAL_FLAGS_MASK = false ->
  has_flag (append_flags fl) ITS_FLASH_FS_INTERNAL_FLAGS_MASK = false.
Proof using Type.
  unfold has_flag, append_flags. rewrite <- Z.land_assoc.
  by change (Z.land (_ - _) _) with ITS_FLASH_FS_INTERNAL_FLAGS_MASK.
Qed.
Lemma append_range fl : 0 <= append_flags fl < 2 ^ 32.
Proof using Type.
  replace (append_flags fl) with (append_flags fl mod 2 ^ 32); [by apply Z.mod_pos_bound|].
  rewrite <- Z.land_ones by done. unfold append_flags. by rewrite <- Z.land_assoc.
Qed.

(** How far an interrupted sequence of chunks may have got. *)
Definition chunk_boundary (k n : Z) : Prop := 0 <= k <= n /\ (k = n \/ 0 < k /\ exists i, k = i * buf).

(** One iteration, up to the update of the locals. *)
Lemma chunk_step {B} (k : M st B) i total fl l T o s (Q : B -> st -> Prop)
    (E : psa_status_t -> st -> Prop) :
  let n := Z.of_nat (length l) in
  let base := base_file (table_get c T fid) fid fl (asize n) in
  let w := ITS_UTILS_MIN n buf in
  serving s T o -> source (req_mngr s) l -> 0 <= fl < 2 ^ 32 ->
  has_flag fl ITS_FLASH_FS_INTERNAL_FLAGS_MASK = false ->
  0 <= i -> i * buf = Z.of_nat (length (f_data base)) -> f_max base = asize total ->
  i * buf + n = total -> total < 2 ^ 31 ->
  (has_flag fl ITS_FLASH_FS_FLAG_TRUNCATE = true -> replaceable c T fid n) ->
  (forall s' T', serving s' T' o -> source (req_mngr s') (skipn (Z.to_nat w) l) ->
     updated c T fid (Some (extended base (firstn (Z.to_nat w) l))) T' -> wp k s' Q E) ->
  (forall e s' T', e <> PSA_SUCCESS -> mf \/ refusal c T fid fl (asize n) e ->
     interrupted s' T' o ->
     same_files c T T' \/ updated c T fid (Some (extended base (firstn (Z.to_nat w) l))) T' ->
     E e s') ->
  wp (do! read_asset_data rm w in
      let! b := reads asset_data in
      do! on_fs p cl (its_flash_fs_file_write (get_fs_ops p ITS_FLASH_OPS PS_FLASH_OPS cl)
            ITS_FLASH_MAX_ALIGNMENT fid fl n w (i * buf) b) in k) s Q E.
Proof using All.
  intros n base w HS Hl Hfl Hni Hi Hoff Hfm Htot Htl Hrep HQ HE. pose proof (al_buf _ _ _ HA).
  pose proof (its_min_spec n buf) as Hw. fold w in Hw.
  apply wp_bind. eapply (read_asset_spec w l s T o); [exact HS|exact Hl|lia|lia|].
  intros s1 HS1 Hsrc Hb. apply wp_bind, wp_reads, wp_bind, wp_on_fs.
  assert (Hfit : chunk_fits c ITS_FLASH_MAX_ALIGNMENT base (i * buf) w).
  { split; [by eapply aligned_chunk|]. split; [lia|].
    pose proof (asize_chunk c _ buf HA i w total Hi). pose proof (asize_bounds c _ buf HA total). lia. }
  eapply (chunk_write_spec _ c Vw mf wf ITS_FLASH_MAX_ALIGNMENT buf HA Hmax T fid fl n
    (length_fid cl uid) (fid_valid cl uid Huid) Hfl Hni ltac:(lia) (i * buf) w (asset_data s1)
    ltac:(lia) ltac:(lia) (sv_buffer _ _ _ HS1) Hfit Hoff Hrep); [apply (sv_mounted _ _ _ HS1)|..];
    rewrite Hb.
  - intros f T' Hf Hu. apply (HQ _ T'); [by eapply serving_set| |done].
    by rewrite (proj2 (proj2 (set_fs_parts f s1))).
  - intros e f T' He Hr Hf Hc. apply (HE e _ T'); auto. split; [by rewrite fs_of_set|].
    rewrite other_set. apply (sv_other _ _ _ HS1).
Qed.

(** After a chunk, the next one extends the file just written. *)
Lemma next_base T T' g fl ms : updated c T fid (Some g) T' ->
  base_file (table_get c T' fid) fid (append_flags fl) ms = g.
Proof using Huid.
  intros Hu. rewrite Hu, decide_True by done. unfold base_file. by rewrite append_no_truncate.
Qed.

Lemma no_refusal T T' g fl ms e : updated c T fid (Some g) T' ->
  ~ refusal c T' fid (append_flags fl) ms e.
Proof using Huid.
  intros Hu Hr. specialize (Hu fid). rewrite decide_True in Hu by done.
  assert (Hne : table_lookup c T' fid <> None).
  { intros Hn%table_get_none. congruence. }
  destruct (table_lookup c T' fid) as [j|] eqn:Ej; [|done].
  assert (Hnp : ~ needs_place c T' fid (append_flags fl) ms).
  { intros Hp. specialize (Hp j Ej). unfold replaced in Hp.
    by rewrite append_no_truncate, andb_false_r in Hp. }
  unfold refusal in Hr. rewrite Ej in Hr. naive_solver.
Qed.

Lemma updated_again T T' T'' g g' : updated c T fid (Some g) T' -> updated c T' fid g' T'' ->
  updated c T fid g' T''.
Proof using Huid. intros H1 H2 fid'. rewrite H2, H1. by destruct (decide _). Qed.

(** The loop: with [fuel] iterations left after this one it consumes all
    the data, so the fuel given by [tfm_its_set] is never exhausted. *)
Lemma set_loop_spec fuel i total fl l T o s (Q : unit -> st -> Prop) (E : psa_status_t -> st -> Prop) :
  let n := Z.of_nat (length l) in
  let base := base_file (table_get c T fid) fid fl (asize n) in
  serving s T o -> source (req_mngr s) l -> 0 <= fl < 2 ^ 32 ->
  has_flag fl ITS_FLASH_FS_INTERNAL_FLAGS_MASK = false ->
  0 <= i -> i * buf = Z.of_nat (length (f_data base)) -> f_max base = asize total ->
  i * buf + n = total -> total < 2 ^ 31 -> 0 <= n <= Z.of_nat fuel + 1 ->
  (has_flag fl ITS_FLASH_FS_FLAG_TRUNCATE = true -> replaceable c T fid n) ->
  (forall s' T', serving s' T' o -> updated c T fid (Some (extended base l)) T' -> Q tt s') ->
  (forall e s' T', e <> PSA_SUCCESS -> mf \/ refusal c T fid fl (asize n) e ->
     interrupted s' T' o ->
     same_files c T T' \/
     (exists k, chunk_boundary (i * buf + k) total /\ 0 <= k /\
        updated c T fid (Some (extended base (firstn (Z.to_nat k) l))) T') -> E e s') ->
  wp (tfm_its_set_loop p ITS_FLASH_OPS PS_FLASH_OPS ITS_FLASH_MAX_ALIGNMENT rm fuel cl fid fl n
        (i * buf)) s Q E.
Proof using All.
  revert i fl l T s Q E. induction fuel as [|fuel IH]; intros i fl l T s Q E n base HS Hl Hfl Hni Hi Hoff
    Hfm Htot Htl Hfuel Hrep HQ HE; cbn [tfm_its_set_loop]; cbv zeta; pose proof (al_buf _ _ _ HA) as Hbuf;
    pose proof (its_min_spec n buf) as Hw; set (w := ITS_UTILS_MIN n buf) in *;
    (eapply (chunk_step _ i total fl l T o s); [exact HS|exact Hl|done|done|done|exact Hoff|done|done|done|exact Hrep|..];
      fold n; fold base; fold w;
     [|intros e s' T' He Hr Hint [Hc|Hc]; apply (HE e s' T' He Hr Hint); [by left|right; exists w];
       split; [unfold chunk_boundary|split; [lia|exact Hc]];
       split; [nia|]; destruct (Z.le_gt_cases n buf); [left; lia|right; split; [nia|exists (i + 1); lia]]]).
  all: intros s1 T1 HS1 Hsrc1 Hu1; rewrite !u32_small by nia.
  all: destruct (Z.gtb_spec (n - w) 0) as [Hmore|Hend].
  2,4: apply wp_ret, (HQ s1 T1 HS1); rewrite firstn_all2 in Hu1 by lia; exact Hu1.
  - lia.
  - assert (Hwb : w = buf) by lia. set (l1 := skipn (Z.to_nat w) l) in *.
    assert (Hl1 : Z.of_nat (length l1) = n - w) by (unfold l1; rewrite length_skipn; lia).
    pose proof (next_base T T1 _ fl (asize (Z.of_nat (length l1))) Hu1) as Hnb.
    assert (Hbl : Z.of_nat (length (firstn (Z.to_nat w) l)) = w) by (rewrite length_firstn; lia).
    replace (n - w) with (Z.of_nat (length l1)) by done.
    replace (i * buf + w) with ((i + 1) * buf) by lia. fold (append_flags fl).
    eapply (IH (i + 1) (append_flags fl) l1 T1 s1);
      [exact HS1|exact Hsrc1|apply append_range|by apply append_internal|lia| | |lia|lia|lia|by rewrite append_no_truncate|..];
      rewrite Hnb; cbn [extended f_max f_data]; [rewrite length_app; lia|done|..];
      unfold extended; cbn [f_id f_flags f_max f_data]; rewrite <- ?app_assoc.
    + intros s2 T2 HS2 Hu2. apply (HQ s2 T2 HS2). eapply updated_again; [exact Hu1|].
      unfold l1 in Hu2. by rewrite firstn_skipn in Hu2.
    + intros e s2 T2 He Hr Hint Hc. apply (HE e s2 T2 He); [|exact Hint|].
      { destruct Hr as [?|Hr]; [by left|]. by destruct (no_refusal _ _ _ _ _ _ Hu1 Hr). }
      right. destruct Hc as [Hc|(k & Hk & Hk0 & Hc)].
      * exists w. split; [split; [nia|right; split; [nia|exists (i + 1); lia]]|]. split; [lia|].
        intros fid'. rewrite Hc. apply Hu1.
      * exists (w + k). rewrite Z.add_assoc, Hwb. replace (i * buf + buf + k) with ((i + 1) * buf + k) by lia.
        split; [done|]. split; [lia|]. eapply updated_again; [exact Hu1|].
        replace (firstn (Z.to_nat (buf + k)) l) with
          (firstn (Z.to_nat w) l ++ firstn (Z.to_nat k) l1); [by rewrite <- app_assoc in Hc|].
        unfold l1. rewrite Hwb, Z2Nat.inj_add by lia. by rewrite take_take_drop.
Qed.

(** The flags of the first chunk. *)
Definition create_truncate (fl : Z) : Z :=
  Z.lor fl (Z.lor ITS_FLASH_FS_FLAG_CREATE ITS_FLASH_FS_FLAG_TRUNCATE).

Lemma create_truncate_facts fl : 0 <= fl < 2 ^ 32 -> unsupported_flags fl = false ->
  has_flag (create_truncate fl) ITS_FLASH_FS_INTERNAL_FLAGS_MASK = false /\
  has_flag (create_truncate fl) ITS_FLASH_FS_FLAG_TRUNCATE = true /\
  has_flag (create_truncate fl) ITS_FLASH_FS_FLAG_CREATE = true /\
  0 <= create_truncate fl < 2 ^ 32.
Proof using Type.
  intros Hr Hu. unfold unsupported_flags, has_flag in Hu. apply negb_false_iff, Z.eqb_eq in Hu.
  set (m := UINT32_MAX - _) in Hu.
  assert (H7 : fl = Z.land fl 7).
  { assert (Hf : fl = Z.land fl UINT32_MAX).
    { change UINT32_MAX with (Z.ones 32). rewrite Z.land_ones, Z.mod_small by lia. done. }
    rewrite Hf at 1. change UINT32_MAX with (Z.lor m 7). by rewrite Z.land_lor_distr_r, Hu. }
  assert (Hc : fl = 0 \/ fl = 1 \/ fl = 2 \/ fl = 3 \/ fl = 4 \/ fl = 5 \/ fl = 6 \/ fl = 7).
  { change 7 with (Z.ones 3) in H7. rewrite Z.land_ones in H7 by lia.
    pose proof (Z.mod_pos_bound fl (2 ^ 3)). lia. }
  clear - Hc. by destruct_or! Hc; subst fl.
Qed.

Lemma base_created T fl ms : 0 <= fl < 2 ^ 32 -> unsupported_flags fl = false ->
  base_file (table_get c T fid) fid (create_truncate fl) ms =
  {| f_id := fid; f_flags := create_truncate fl; f_max := ms; f_data := [] |}.
Proof using Type.
  intros Hr Hu. destruct (create_truncate_facts fl Hr Hu) as (_ & Ht & _).
  unfold base_file. rewrite Ht. by destruct (table_get c T fid).
Qed.

(** The asset [tfm_its_set] stores, or its first [k] bytes. *)
Definition asset (fl : Z) (l : list Z) (k : Z) : file :=
  {| f_id := fid; f_flags := create_truncate fl; f_max := asize (Z.of_nat (length l));
     f_data := firstn (Z.to_nat k) l |}.

Lemma set_write_spec fl l T o s (Q : unit -> st -> Prop) (E : psa_status_t -> st -> Prop) :
  let n := Z.of_nat (length l) in
  serving s T o -> source (req_mngr s) l -> 0 <= fl < 2 ^ 32 -> unsupported_flags fl = false ->
  n < 2 ^ 31 -> replaceable c T fid n ->
  (forall s' T', serving s' T' o -> updated c T fid (Some (asset fl l n)) T' -> Q tt s') ->
  (forall e s' T', e <> PSA_SUCCESS ->
     mf \/ refusal c T fid (create_truncate fl) (asize n) e -> interrupted s' T' o ->
     same_files c T T' \/
     (exists k, chunk_boundary k n /\ updated c T fid (Some (asset fl l k)) T') -> E e s') ->
  wp (tfm_its_set_loop p ITS_FLASH_OPS PS_FLASH_OPS ITS_FLASH_MAX_ALIGNMENT rm (Z.to_nat n) cl fid
        (create_truncate fl) n 0) s Q E.
Proof using All.
  intros n HS Hl Hfl Hu Hn Hrep HQ HE. destruct (create_truncate_facts fl Hfl Hu) as (Hni & _ & _ & Hr).
  pose proof (base_created T fl (asize n) Hfl Hu) as Hb.
  change 0 with (0 * buf).
  eapply (set_loop_spec (Z.to_nat n) 0 n (create_truncate fl) l T o s);
    [exact HS|exact Hl|done|done|lia|fold n; by rewrite Hb|fold n; by rewrite Hb|lia|lia|lia|done|..];
    fold n; rewrite Hb.
  - intros s' T' HS' Hup. apply (HQ s' T' HS'). unfold asset. rewrite firstn_all2 by lia. exact Hup.
  - intros e s' T' He Hr' Hint Hc. apply (HE e s' T' He Hr' Hint).
    destruct Hc as [Hc|(k & Hk & _ & Hc)]; [by left|right]. by exists k.
Qed.

(** Why the service itself refuses to store an asset. *)
Definition write_once (T : table) : Prop :=
  exists g, table_get c T fid = Some g /\ has_flag (f_flags g) PSA_STORAGE_FLAG_WRITE_ONCE = true.
End Set_.

(** The requests [tfm_its_set] refuses before it writes anything. *)
Definition set_denied (uid fl : Z) (T : table) (e : psa_status_t) : Prop :=
  (uid = 0 /\ e = PSA_ERROR_INVALID_ARGUMENT) \/
  (uid <> 0 /\ unsupported_flags fl = true /\ e = PSA_ERROR_NOT_SUPPORTED) \/
  (uid <> 0 /\ unsupported_flags fl = false /\ write_once uid T /\ e = PSA_ERROR_NOT_PERMITTED).

Lemma tfm_its_set_spec uid fl l T o s (Q : unit -> st -> Prop) (E : psa_status_t -> st -> Prop) :
  let n := Z.of_nat (length l) in
  let fid := tfm_its_get_fid cl uid in
  serving s T o -> source (req_mngr s) l -> 0 <= uid < 2 ^ 64 -> 0 <= fl < 2 ^ 32 -> n < 2 ^ 31 ->
  replaceable c T fid n ->
  (forall s' T', (mf \/ forall e, ~ set_denied uid fl T e) -> serving s' T' o ->
     updated c T fid (Some (asset uid fl l n)) T' -> Q tt s') ->
  (forall e s', e <> PSA_SUCCESS -> mf \/ set_denied uid fl T e -> serving s' T o -> E e s') ->
  (forall e s' T', e <> PSA_SUCCESS ->
     mf \/ refusal c T fid (create_truncate fl) (asize n) e -> interrupted s' T' o ->
     same_files c T T' \/
     (exists k, chunk_boundary k n /\ updated c T fid (Some (asset uid fl l k)) T') -> E e s') ->
  wp (tfm_its_set p ITS_FLASH_OPS PS_FLASH_OPS ITS_FLASH_MAX_ALIGNMENT rm cl uid n fl) s Q E.
Proof using All.
  intros n fid HS Hl Hu Hfl Hn Hrep HQ HD HE. unfold tfm_its_set, TFM_ITS_INVALID_UID.
  destruct (Z.eqb_spec uid 0) as [->|Hu0].
  { apply wp_fail, HD; [done| |done]. right. by left. }
  fold (unsupported_flags fl). destruct (unsupported_flags fl) eqn:Euf.
  { apply wp_fail, HD; [done| |done]. right. right. by left. }
  assert (Hupos : 0 < uid < 2 ^ 64) by lia.
  assert (Hgo : forall s', serving s' T o -> source (req_mngr s') l -> mf \/ ~ write_once uid T ->
    wp (tfm_its_set_loop p ITS_FLASH_OPS PS_FLASH_OPS ITS_FLASH_MAX_ALIGNMENT rm (Z.to_nat n) cl fid
          (create_truncate fl) n 0) s' Q E).
  { intros s' HS' Hl' Hwo. eapply (set_write_spec uid Hupos fl l T o s'); eauto.
    intros s2 T2 HS2 Hup. apply (HQ s2 T2); auto. destruct Hwo as [?|Hwo]; [by left|right].
    intros e [[? _]|[(_ & ? & _)|(_ & _ & ? & _)]]; congruence || done. }
  apply wp_bind, wp_attempt. eapply (info_spec uid Hupos T o); [exact HS|..].
  - intros g s' Hg HS' [_ Hio]. apply wp_bind. cbn [info_flags file_info]. rewrite write_once_user.
    destruct (has_flag (f_flags g) PSA_STORAGE_FLAG_WRITE_ONCE) eqn:Ew.
    + apply wp_fail, HD; [done| |done]. right. right. right. repeat (split; [done|]). split; [|done].
      by exists g.
    + apply wp_ret, Hgo; [done|by rewrite Hio|right]. intros (h & Hh & Hw). congruence.
  - intros e s' He Hr HS' [_ Hio]. apply wp_bind.
    destruct (Z.eqb_spec e PSA_ERROR_DOES_NOT_EXIST) as [->|Hne]; cbn [negb].
    + apply wp_ret, Hgo; [done|by rewrite Hio|]. destruct Hr as [?|[Hr _]]; [by left|right].
      intros (h & Hh & _). unfold fid in *. congruence.
    + apply wp_fail, HD; [done| |done]. left. destruct Hr as [?|[_ ?]]; [done|congruence].
Qed.

(** The effect of [tfm_its_set] in every outcome. *)
Definition set_outcome (uid fl : Z) (l : list Z) (T : table) (o : its_flash_fs_ctx_t * D)
    (r : res unit) (s' : st) : Prop :=
  let n := Z.of_nat (length l) in
  let fid := tfm_its_get_fid cl uid in
  exists T', match r with
  | Ok _ => serving s' T' o /\ updated c T fid (Some (asset uid fl l n)) T'
  | Err _ => (serving s' T' o \/ interrupted s' T' o) /\
      (same_files c T T' \/
       exists k, chunk_boundary k n /\ updated c T fid (Some (asset uid fl l k)) T')
  end.

Lemma set_effect uid fl l T o s :
  let n := Z.of_nat (length l) in
  serving s T o -> source (req_mngr s) l -> 0 <= uid < 2 ^ 64 -> 0 <= fl < 2 ^ 32 -> n < 2 ^ 31 ->
  replaceable c T (tfm_its_get_fid cl uid) n ->
  let '(r, s') := tfm_its_set p ITS_FLASH_OPS PS_FLASH_OPS ITS_FLASH_MAX_ALIGNMENT rm cl uid n fl s in
  set_outcome uid fl l T o r s'.
Proof using All.
  intros n HS Hl Hu Hfl Hn Hrep.
  assert (H : wp (tfm_its_set p ITS_FLASH_OPS PS_FLASH_OPS ITS_FLASH_MAX_ALIGNMENT rm cl uid n fl) s
    (fun u s' => set_outcome uid fl l T o (Ok u) s') (fun e s' => set_outcome uid fl l T o (Err e) s')).
  { eapply tfm_its_set_spec; [exact HS|exact Hl|done|done|done|exact Hrep|..].
    - intros s' T' _ HS' Hup. by exists T'.
    - intros e s' _ _ HS'. exists T. split; by left.
    - intros e s' T' _ _ Hi Hc. exists T'. auto. }
  unfold wp in H. by destruct (tfm_its_set _ _ _ _ _ _ _ _ _ s) as [[u|e] s'].
Qed.

(** What a restart finds after [tfm_its_set]. *)
Lemma set_outcome_other uid fl l T o r s' : set_outcome uid fl l T o r s' -> other_fs s' = o.
Proof using Type.
  intros (T' & H). destruct r as [u|e].
  - apply (sv_other _ _ _ (proj1 H)).
  - destruct H as [[H|H] _]; [apply (sv_other _ _ _ H)|apply (int_other _ _ _ H)].
Qed.

Lemma set_outcome_survives uid fl l T o r s' : set_outcome uid fl l T o r s' ->
  exists T', survives c Vw (fs_of s') T' /\
    match r with
    | Ok _ => updated c T (tfm_its_get_fid cl uid) (Some (asset uid fl l (Z.of_nat (length l)))) T'
    | Err _ => same_files c T T' \/
        exists k, chunk_boundary k (Z.of_nat (length l)) /\
          updated c T (tfm_its_get_fid cl uid) (Some (asset uid fl l k)) T'
    end.
Proof using wf.
  assert (Hlive : forall T1, serving s' T1 o -> survives c Vw (fs_of s') T1).
  { intros T1 HS1. apply (mounted_survives c Vw wf), (sv_mounted _ _ _ HS1). }
  intros (T' & H). exists T'. destruct r as [u|e].
  - split; [apply Hlive|]; apply H.
  - destruct H as [HS Hc]. split; [|exact Hc]. destruct HS as [HS|HS]; [by apply Hlive|].
    apply (int_survives _ _ _ HS).
Qed.

(** ** tfm_its_get *)
Section Get_.
Context (uid : Z) (Huid : 0 < uid < 2 ^ 64) (T : table) (o : its_flash_fs_ctx_t * D) (g : file).
Local Abbreviation fid := (tfm_its_get_fid cl uid).
Context (Hg : table_get c T fid = Some g).

(** The part of the file a read of [n] bytes at [off] returns. *)
Definition part (off n : Z) : list Z := firstn (Z.to_nat n) (skipn (Z.to_nat off) (f_data g)).

Lemma part_app off n m : 0 <= off -> 0 <= n -> 0 <= m -> part off n ++ part (off + n) m = part off (n + m).
Proof using Type.
  intros Ho Hn Hm. unfold part. rewrite Z2Nat.inj_add by lia. rewrite <- drop_drop.
  rewrite take_take_drop, Z2Nat.inj_add by lia. done.
Qed.

Lemma length_part off n : 0 <= off -> 0 <= n -> off + n <= Z.of_nat (length (f_data g)) ->
  Z.of_nat (length (part off n)) = n.
Proof using Type. intros. unfold part. rewrite length_firstn, length_skipn. lia. Qed.

(** One iteration: [w] bytes of the file reach the caller. *)
Lemma get_step {B} (k : M st B) off w r s (Q : B -> st -> Prop) (E : psa_status_t -> st -> Prop) :
  serving s T o -> 0 <= off -> 0 <= w <= buf -> w <= r ->
  off + w <= Z.of_nat (length (f_data g)) -> room (req_mngr s) r ->
  (forall s', serving s' T o -> wrote (part off w) (req_mngr s) (req_mngr s') ->
     room (req_mngr s') (r - w) -> p_data_length s' = p_data_length s -> wp k s' Q E) ->
  (forall e s', e <> PSA_SUCCESS -> mf -> serving s' T o -> p_data_length s' = 0 -> E e s') ->
  wp (let! r := attempt (on_fs p cl
        (its_flash_fs_file_read (get_fs_ops p ITS_FLASH_OPS PS_FLASH_OPS cl) fid w off)) in
      match r with
      | Err status => do! modify (set_data_length 0) in fail status
      | Ok l => do! modify (store_asset_data l) in do! write_asset_data rm w in k
      end) s Q E.
Proof using All.
  intros HS Ho Hw Hr Hin Hroom HQ HE. pose proof (al_buf _ _ _ HA).
  pose proof (mounted_size _ c Vw mf wf T fid (length_fid cl uid) (fid_valid cl uid Huid) _ g
    (sv_mounted _ _ _ HS) Hg) as Hsz.
  apply wp_bind, wp_attempt, wp_on_fs.
  eapply (read_promise _ c Vw mf wf T fid (length_fid cl uid) (fid_valid cl uid Huid) w off _ _ _ g);
    [lia|lia|apply (sv_mounted _ _ _ HS)|exact Hg|exact Hin|..].
  - intros f Hf. fold (part off w). pose proof (length_part off w Ho ltac:(lia) Hin) as Hlp.
    apply wp_bind, wp_modify, wp_bind. destruct (set_fs_parts f s) as (P1 & P2 & P3).
    set (s1 := store_asset_data _ _). unfold wp at 1, write_asset_data.
    assert (Hlen : Z.of_nat (length (asset_data s1)) = buf).
    { unfold s1. cbn. rewrite length_app, length_skipn, P1. pose proof (sv_buffer _ _ _ HS). lia. }
    destruct (req_write (req_mngr s1) (asset_data s1) w r ltac:(lia) Hr) as [Hwr Hrm].
    { unfold s1. cbn. by rewrite P3. }
    apply HQ.
    + split; [|exact Hlen|].
      * replace (fs_of _) with f; [done|]. symmetry. apply fs_of_set.
      * rewrite <- (sv_other _ _ _ HS). unfold other_fs, s1. cbn. unfold set_fs_ctx.
        by destruct (is_ps_client p cl).
    + cbn. replace (firstn (Z.to_nat w) (asset_data s1)) with (part off w) in Hwr.
      * unfold s1 in Hwr |- *. cbn in Hwr |- *. by rewrite P3 in Hwr |- *.
      * unfold s1. cbn. rewrite firstn_app. replace (Z.to_nat w) with (length (part off w)) by lia.
        rewrite firstn_all, Nat.sub_diag, firstn_O, app_nil_r. done.
    + exact Hrm.
    + exact P2.
  - intros e f He [Hmf|[]] Hf. apply wp_bind, wp_modify, wp_fail. apply HE; [done|done| |done].
    destruct (serving_set s T T o f HS Hf) as [X1 X2 X3]. split; [exact X1|exact X2|exact X3].
Qed.

Lemma get_loop_spec fuel off n r s (Q : unit -> st -> Prop) (E : psa_status_t -> st -> Prop) :
  serving s T o -> 0 <= off -> 0 <= n <= Z.of_nat fuel + 1 -> n <= r ->
  off + n <= Z.of_nat (length (f_data g)) -> room (req_mngr s) r ->
  (forall s', serving s' T o -> wrote (part off n) (req_mngr s) (req_mngr s') ->
     p_data_length s' = p_data_length s -> Q tt s') ->
  (forall e s', e <> PSA_SUCCESS -> mf -> serving s' T o -> p_data_length s' = 0 -> E e s') ->
  wp (tfm_its_get_loop p ITS_FLASH_OPS PS_FLASH_OPS rm fuel cl fid off n) s Q E.
Proof using All.
  pose proof (al_buf _ _ _ HA) as Hbuf.
  revert off n r s Q. induction fuel as [|fuel IH]; intros off n r s Q HS Ho Hn Hr Hin Hroom HQ HE;
    cbn [tfm_its_get_loop]; cbv zeta; pose proof (its_min_spec n buf) as Hw;
    set (w := ITS_UTILS_MIN n buf) in *;
    pose proof (mounted_size _ c Vw mf wf T fid (length_fid cl uid) (fid_valid cl uid Huid) _ g
      (sv_mounted _ _ _ HS) Hg) as Hsz;
    (eapply (get_step _ off w r s); [exact HS|lia|lia|lia|lia|exact Hroom| |exact HE]);
    intros s1 HS1 Hw1 Hr1 Hp1; rewrite !u32_small by lia;
    (destruct (Z.gtb_spec (n - w) 0) as [Hmore|Hend];
     [|apply wp_ret, (HQ s1 HS1); [by replace n with w by lia|done]]).
  - lia.
  - eapply (IH (off + w) (n - w) (r - w) s1); [exact HS1|lia|lia|lia|lia|exact Hr1| |exact HE].
    intros s2 HS2 Hw2 Hp2. apply (HQ s2 HS2); [|congruence].
    replace (part off n) with (part off w ++ part (off + w) (n - w)); [by eapply wrote_app|].
    rewrite part_app by lia. f_equal. lia.
Qed.
End Get_.

(** Why [tfm_its_get] refuses. *)
Definition get_denied (uid off : Z) (T : table) (e : psa_status_t) : Prop :=
  (uid = 0 /\ e = PSA_ERROR_INVALID_ARGUMENT) \/
  (table_get c T (tfm_its_get_fid cl uid) = None /\ e = PSA_ERROR_DOES_NOT_EXIST) \/
  (exists g, table_get c T (tfm_its_get_fid cl uid) = Some g /\
     Z.of_nat (length (f_data g)) < off /\ e = PSA_ERROR_INVALID_ARGUMENT).

Lemma tfm_its_get_spec uid off n T o s (Q : unit -> st -> Prop) (E : psa_status_t -> st -> Prop) :
  serving s T o -> ps_test_client p cl = cl -> 0 <= uid < 2 ^ 64 -> 0 <= off < 2 ^ 32 ->
  0 <= n < 2 ^ 32 -> room (req_mngr s) n ->
  (forall g s', uid <> 0 -> table_get c T (tfm_its_get_fid cl uid) = Some g ->
     off <= Z.of_nat (length (f_data g)) -> serving s' T o ->
     let m := Z.min n (Z.of_nat (length (f_data g)) - off) in
     p_data_length s' = m -> wrote (part g off m) (req_mngr s) (req_mngr s') -> Q tt s') ->
  (forall e s', e <> PSA_SUCCESS -> mf \/ get_denied uid off T e -> serving s' T o -> E e s') ->
  wp (tfm_its_get p ITS_FLASH_OPS PS_FLASH_OPS rm cl uid off n) s Q E.
Proof using All.
  intros HS Htest Hu Ho Hn Hroom HQ HE. unfold tfm_its_get, TFM_ITS_INVALID_UID. rewrite Htest.
  destruct (Z.eqb_spec uid 0) as [->|Hu0].
  { apply wp_fail, HE; [done| |done]. right. by left. }
  assert (Hupos : 0 < uid < 2 ^ 64) by lia.
  apply wp_bind. eapply (info_spec uid Hupos T o); [exact HS|..].
  2:{ intros e s' He Hr HS' _. apply HE; [done| |done]. destruct Hr as [?|Hr]; [by left|right].
      right. by left. }
  intros g s' Hg HS' [_ Hio]. cbn [size_current file_info].
  pose proof (mounted_size _ c Vw mf wf T _ (length_fid cl uid) (fid_valid cl uid Hupos) _ g
    (sv_mounted _ _ _ HS) Hg) as Hsz.
  destruct (Z.gtb_spec off (Z.of_nat (length (f_data g)))) as [Hoff|Hoff].
  { apply wp_fail, HE; [done| |done]. right. right. right. eauto. }
  rewrite its_min_spec, u32_small by lia. set (m := Z.min n _). apply wp_bind, wp_modify.
  eapply (get_loop_spec uid Hupos T o g Hg (Z.to_nat m) off m n); [|lia|lia|lia|lia|..].
  - destruct HS' as [X1 X2 X3]. split; [exact X1|exact X2|exact X3].
  - cbn. by rewrite Hio.
  - intros s2 HS2 Hw2 Hp2. apply (HQ g s2 Hu0 Hg Hoff HS2); [exact Hp2|].
    cbn in Hw2. by rewrite Hio in Hw2.
  - intros e s2 He Hmf HS2 _. apply HE; [done|by left|done].
Qed.
End Service.
