(* ===== verification/ItsReqMngr.v ===== *)
(** * Internal Trusted Storage: the request manager of the library model

    tfm_its_req_mngr.c built without TFM_PSA_API: the [*_req] entry points
    check the vectors of a secure function call and run the service, which
    moves asset data through the pointer [p_data] into the caller's memory. *)

From Stdlib Require Import ZArith List Lia Bool.
From stdpp Require Import base tactics list sets.
From S2P Require Import Prelude ItsUtils ItsFlash ItsMblock ItsFs ItsImage ItsDevSpec.
From S2P Require Import ItsWrite ItsFileOps ItsTable ItsChunk Its ItsService.
Import ListNotations.
Local Open Scope Z_scope.

(** ** The caller's memory and the pointer into it *)
Record lib_io := { caller : mem; p_data : Z }.

Definition lib_read (num_bytes : Z) (io : lib_io) : list Z * lib_io :=
  (mread (caller io) (p_data io) num_bytes,
   {| caller := caller io; p_data := u32 (p_data io + num_bytes) |}).

Definition lib_write (buf : list Z) (num_bytes : Z) (io : lib_io) : lib_io :=
  {| caller := mwrite (caller io) (p_data io) buf num_bytes;
     p_data := u32 (p_data io + num_bytes) |}.

Definition lib_req_mngr : ReqMngr lib_io :=
  {| its_req_mngr_read := lib_read; its_req_mngr_write := lib_write |}.

(** ** psa_invec and psa_outvec: base address and length *)
Record psa_vec := { base : Z; len : Z }.

Record lib_state (D : Type) := {
  its_is_init : bool;
  service : its_state D lib_io
}.
Arguments its_is_init {D}. Arguments service {D}.

Section Lib.
Context {D : Type} (p : its_platform) (ITS_FLASH_OPS PS_FLASH_OPS : its_flash_fs_ops_t D).
Context (ITS_FLASH_MAX_ALIGNMENT : Z).
(** tfm_core_get_caller_client_id, a function of the SPM: the client that
    made the call, or a failure. *)
Context (tfm_core_get_caller_client_id : option Z).
Local Abbreviation st := (lib_state D).
Local Abbreviation sst := (its_state D lib_io).

Definition on_service {A} (m : M sst A) : M st A := fun s =>
  let '(r, s') := m (service s) in (r, {| its_is_init := its_is_init s; service := s' |}).

Definition caller_mem (s : st) : mem := caller (req_mngr (service s)).

(** [*(T * )base] for an integer of [n] bytes *)
Definition load (n : nat) (a : Z) (s : st) : Z := le_val (mread (caller_mem s) a (Z.of_nat n)).

Definition set_p_data (a : Z) (s : sst) : sst :=
  set_req_mngr {| caller := caller (req_mngr s); p_data := a |} s.
Definition set_caller (m : mem) (s : sst) : sst :=
  set_req_mngr {| caller := m; p_data := p_data (req_mngr s) |} s.

Definition vec (v : list psa_vec) (i : nat) : psa_vec := nth i v {| base := 0; len := 0 |}.
Definition count (v : list psa_vec) : Z := Z.of_nat (length v).

(** The checks all entry points start with. *)
Definition check_request (ok_count ok_size : bool) : M st unit :=
  let! init := reads its_is_init in
  if negb init then fail PSA_ERROR_GENERIC_ERROR
  else if negb ok_count then fail PSA_ERROR_PROGRAMMER_ERROR
  else if negb ok_size then fail PSA_ERROR_PROGRAMMER_ERROR
  else ret tt.

Definition get_client_id : M st Z :=
  match tfm_core_get_caller_client_id with
  | Some client_id => ret client_id
  | None => fail PSA_ERROR_PROGRAMMER_ERROR
  end.

Definition tfm_its_set_req (in_vec out_vec : list psa_vec) : M st unit :=
  do! check_request ((count in_vec =? 3) && (count out_vec =? 0))
        ((len (vec in_vec 0) =? 8) && (len (vec in_vec 2) =? 4)) in
  let! uid := reads (load 8 (base (vec in_vec 0))) in
  do! on_service (modify (set_p_data (base (vec in_vec 1)))) in
  let data_length := len (vec in_vec 1) in
  let! create_flags := reads (load 4 (base (vec in_vec 2))) in
  let! client_id := get_client_id in
  on_service (tfm_its_set p ITS_FLASH_OPS PS_FLASH_OPS ITS_FLASH_MAX_ALIGNMENT lib_req_mngr
    client_id uid data_length create_flags).

(** [out_vec[0].len] is the service's [*p_data_length]. *)
Definition tfm_its_get_req (in_vec out_vec : list psa_vec) : M st unit :=
  do! check_request ((count in_vec =? 2) && (count out_vec =? 1))
        ((len (vec in_vec 0) =? 8) && (len (vec in_vec 1) =? 4)) in
  let! uid := reads (load 8 (base (vec in_vec 0))) in
  let! data_offset := reads (load 4 (base (vec in_vec 1))) in
  do! on_service (modify (set_p_data (base (vec out_vec 0)))) in
  let data_size := len (vec out_vec 0) in
  do! on_service (modify (set_data_length (len (vec out_vec 0)))) in
  let! client_id := get_client_id in
  on_service (tfm_its_get p ITS_FLASH_OPS PS_FLASH_OPS lib_req_mngr
    client_id uid data_offset data_size).

(** struct psa_storage_info_t: capacity, size, flags. *)
Definition storage_info_bytes (i : psa_storage_info_t) : list Z :=
  le_bytes 4 (capacity i) ++ le_bytes 4 (size i) ++ le_bytes 4 (storage_flags i).

Definition tfm_its_get_info_req (in_vec out_vec : list psa_vec) : M st unit :=
  do! check_request ((count in_vec =? 1) && (count out_vec =? 1))
        ((len (vec in_vec 0) =? 8) && (len (vec out_vec 0) =? 12)) in
  let! uid := reads (load 8 (base (vec in_vec 0))) in
  let! client_id := get_client_id in
  let! info := on_service (tfm_its_get_info p ITS_FLASH_OPS PS_FLASH_OPS client_id uid) in
  on_service (modify (fun s => set_caller
    (mwrite (caller (req_mngr s)) (base (vec out_vec 0)) (storage_info_bytes info) 12) s)).

Definition tfm_its_remove_req (in_vec out_vec : list psa_vec) : M st unit :=
  do! check_request ((count in_vec =? 1) && (count out_vec =? 0)) (len (vec in_vec 0) =? 8) in
  let! uid := reads (load 8 (base (vec in_vec 0))) in
  let! client_id := get_client_id in
  on_service (tfm_its_remove p ITS_FLASH_OPS PS_FLASH_OPS client_id uid).

Definition tfm_its_req_mngr_init : M st unit := fun s =>
  match on_service (tfm_its_init p ITS_FLASH_OPS PS_FLASH_OPS) s with
  | (Err _, s') => (Err PSA_ERROR_GENERIC_ERROR, s')
  | (Ok _, s') => (Ok tt, {| its_is_init := true; service := service s' |})
  end.
End Lib.

(** ** The request manager keeps its promise to the service *)
#[export] Program Instance lib_req_spec : ReqSpec lib_req_mngr := {
  source io l := 0 <= p_data io /\ p_data io + Z.of_nat (length l) < 2 ^ 32 /\
    mread (caller io) (p_data io) (Z.of_nat (length l)) = l;
  room io n := 0 <= p_data io /\ p_data io + n < 2 ^ 32;
  wrote l io io' := p_data io' = p_data io + Z.of_nat (length l) /\
    forall a, caller io' a = mwrite (caller io) (p_data io) l (Z.of_nat (length l)) a
}.
Next Obligation.
  intros [m a] l n (H1 & H2 & H3) Hn. cbn in *.
  pose proof (mread_sub m a 0 n (Z.of_nat (length l)) ltac:(lia) ltac:(lia) ltac:(lia)) as E.
  pose proof (mread_sub m a n (Z.of_nat (length l) - n) (Z.of_nat (length l)) ltac:(lia) ltac:(lia) ltac:(lia)) as E'.
  rewrite H3 in E, E'. change (Z.to_nat 0) with O in E. rewrite Z.add_0_r, skipn_O in E.
  split; [exact E|]. rewrite u32_small, length_skipn by lia. split; [lia|]. split; [lia|].
  replace (Z.of_nat (length l - Z.to_nat n)) with (Z.of_nat (length l) - n) by lia.
  rewrite E'. apply firstn_all2. rewrite length_skipn. lia.
Qed.
Next Obligation.
  intros [m a] b n r Hn Hr [H1 H2]. cbn in *. rewrite u32_small by lia.
  rewrite length_firstn, Nat.min_l, Z2Nat.id by lia. split; [|lia]. split; [done|].
  intros k. unfold mwrite. case_match; [|done]. unfold byte_at.
  rewrite !nth_lookup, lookup_take_lt by lia. done.
Qed.
Next Obligation.
  intros [m a]. split; [simpl; lia|]. intros k. simpl p_data. simpl caller. unfold mwrite.
  change (Z.of_nat (length [])) with 0. case_match; [lia|done].
Qed.
Next Obligation.
  intros l l' [m a] [m' a'] [m'' a''] [-> H1] [-> H2]. cbn in *. rewrite length_app.
  split; [lia|]. intros k. rewrite H2. unfold mwrite. rewrite H1. unfold mwrite, byte_at.
  rewrite Nat2Z.inj_add. pose proof (Nat2Z.is_nonneg (length l)). pose proof (Nat2Z.is_nonneg (length l')).
  destruct (Z.leb_spec a k), (Z.leb_spec (a + Z.of_nat (length l)) k),
    (Z.ltb_spec k (a + Z.of_nat (length l))),
    (Z.ltb_spec k (a + (Z.of_nat (length l) + Z.of_nat (length l')))),
    (Z.ltb_spec k (a + Z.of_nat (length l) + Z.of_nat (length l'))); cbn [andb]; try done; try lia.
  - rewrite app_nth2 by lia. f_equal. lia.
  - by rewrite app_nth1 by lia.
Qed.
