(* ===== verification/ItsExample.v ===== *)
(** * Internal Trusted Storage: concrete devices

    A small configuration, the RAM device and a RAM device that loses power
    after a given number of operations; the instances the theorems are
    applied to. *)

From Stdlib Require Import ZArith List Lia Bool.
From stdpp Require Import base tactics list sets.
From S2P Require Import Prelude ItsUtils ItsFlash ItsMblock ItsFs ItsImage ItsDevSpec.
From S2P Require Import ItsWrite ItsBackends ItsTable ItsChunk Its ItsService ItsReqMngr.
Import ListNotations.
Local Open Scope Z_scope.

(** Two metadata blocks, one scratch block and two blocks of dedicated data. *)
Definition cfg5 : its_flash_fs_config_t :=
  {| flash_area_addr := 0; sector_size := 64; block_size := 512; num_blocks := 5;
     program_unit := 4; max_file_size := 128; max_num_files := 5; erase_val := 255 |}.

Lemma cfg5_wf : wf_cfg cfg5.
Proof. by split; vm_compute. Qed.

Lemma cfg5_align : align_ok cfg5 4 64.
Proof. split; [lia|right]. by exists 2. Qed.

Lemma cfg5_max : max_num_files cfg5 < ITS_METADATA_INVALID_INDEX.
Proof. done. Qed.

(** ** A device that loses power

    [countdown = Some n]: the operation after the next [n] ones fails; a write
    then programs half of its data, an erase nothing.  Reads do not count. *)
Record dev := { cells : mem; countdown : option nat }.

Definition tick (full half : mem -> mem) : M dev unit := fun d =>
  match countdown d with
  | Some O => (Err PSA_ERROR_STORAGE_FAILURE, {| cells := half (cells d); countdown := Some O |})
  | Some (S n) => (Ok tt, {| cells := full (cells d); countdown := Some n |})
  | None => (Ok tt, {| cells := full (cells d); countdown := None |})
  end.

Definition addr (c : its_flash_fs_config_t) (block_id offset : Z) : Z := block_id * block_size c + offset.

Definition ops_with (step : (mem -> mem) -> (mem -> mem) -> M dev unit) : its_flash_fs_ops_t dev := {|
  ops_init := fun _ => ret tt;
  ops_read := fun c b off size => reads (fun d => mread (cells d) (addr c b off) size);
  ops_write := fun c b data off size =>
    step (fun m => mwrite m (addr c b off) data size) (fun m => mwrite m (addr c b off) data (size / 2));
  ops_flush := fun _ => ret tt;
  ops_erase := fun c b => step (fun m => mfill m (addr c b 0) (erase_val c) (block_size c)) (fun m => m)
|}.

(** The device under test, and the same device once power is back. *)
Definition failing_ops : its_flash_fs_ops_t dev := ops_with tick.
Definition steady_ops : its_flash_fs_ops_t dev := ops_with (fun full _ =>
  modify (fun d => {| cells := full (cells d); countdown := countdown d |})).

Definition dev_view (c : its_flash_fs_config_t) (d : dev) : view := area_view c 0 (cells d).

Section Spec.
Context (c : its_flash_fs_config_t) (wf : wf_cfg c).

Lemma tick_spec full half d (Q : unit -> dev -> Prop) (E : psa_status_t -> dev -> Prop) :
  (forall n, Q tt {| cells := full (cells d); countdown := n |}) ->
  (forall n, E PSA_ERROR_STORAGE_FAILURE {| cells := half (cells d); countdown := n |}) ->
  wp (tick full half) d Q E.
Proof using Type. intros HQ HE. unfold wp, tick. destruct (countdown d) as [[|n]|]; auto. Qed.

Lemma view_read d b off size : in_block c b off size ->
  mread (cells d) (addr c b off) size = mread (dev_view c d b) off size.
Proof using Type. intros H. exact (area_read c 0 (cells d) b off size H). Qed.

Lemma view_write d b off data k n : in_block c b off k ->
  same_view (blk_write (dev_view c d) b off data k)
    (dev_view c {| cells := mwrite (cells d) (addr c b off) data k; countdown := n |}).
Proof using wf. intros H. exact (area_write c wf 0 ltac:(lia) (ram_range c wf) (cells d) b off data k H). Qed.

Lemma view_erase d b n : 0 <= b < num_blocks c ->
  same_view (blk_erase c (dev_view c d) b)
    (dev_view c {| cells := mfill (cells d) (addr c b 0) (erase_val c) (block_size c); countdown := n |}).
Proof using wf.
  intros H. unfold addr. rewrite Z.add_0_r.
  exact (area_fill c wf 0 ltac:(lia) (ram_range c wf) (cells d) b H).
Qed.

#[export] Instance failing_spec : FlashSpec c failing_ops (dev_view c) True.
Proof using wf.
  split.
  - intros d. apply wp_ret. by intros ? ?.
  - intros d b off size Hin. apply wp_reads. split; [by apply view_read|by intros ? ?].
  - intros d b data off size Hin Hl He. apply tick_spec; intros n; [by apply view_write|].
    split; [done|]. split; [done|]. destruct Hin as (H1 & H2 & H3 & H4).
    pose proof (Z.div_pos size 2 ltac:(lia) ltac:(lia)).
    pose proof (Z.div_le_upper_bound size 2 size ltac:(lia) ltac:(lia)).
    exists (size / 2). split; [lia|]. apply view_write. unfold in_block. lia.
  - intros d. apply wp_ret. by intros ? ?.
  - intros d b Hb. apply tick_spec; intros n; [by apply view_erase|].
    split; [done|]. split; [done|]. intros b' i. by left.
Qed.

#[export] Instance steady_spec : FlashSpec c steady_ops (dev_view c) False.
Proof using wf.
  split.
  - intros d. apply wp_ret. by intros ? ?.
  - intros d b off size Hin. apply wp_reads. split; [by apply view_read|by intros ? ?].
  - intros d b data off size Hin Hl He. apply wp_modify. by apply view_write.
  - intros d. apply wp_ret. by intros ? ?.
  - intros d b Hb. apply wp_modify. by apply view_erase.
Qed.
End Spec.

(** ** A service whose ITS filesystem has just been created *)
Definition blank_ctx : its_flash_fs_ctx_t :=
  {| cfg := cfg5;
     meta_block_header := {| scratch_dblock := 0; fs_version := 0; active_swap_count := 0;
                             header_padding := 0 |};
     active_metablock := 0; scratch_metablock := 0 |}.

Definition hal5 : fs_platform :=
  {| driver_program_unit := 4; driver_sector_size := 64; driver_erased_value := 255;
     hal_fs_info := Some {| info_area_addr := 0; info_area_size := 2560; sectors_per_block := 8 |};
     HAL_PROGRAM_UNIT := 4; FLASH_ALIGNMENT := 4; CREATE_FLASH_LAYOUT := true;
     hal_max_asset_size := 128; hal_max_num_assets := 4; MAX_ASSET_SIZE := 128; NUM_ASSETS := 4 |}.

Definition platform5 : its_platform :=
  {| its_hal := hal5; ps_hal := hal5; CY_POLICY_CONCEPT := false;
     TFM_PARTITION_PROTECTED_STORAGE := true; TFM_PARTITION_TEST_PS := false;
     TFM_SP_PS := 257; TFM_SP_PS_TEST := 0; PS_OBJECT_HEADER_SIZE := 0; sizeof_asset_data := 64 |}.

(** The client supplies [l] at address 1000 and has room there. *)
Definition io_of (l : list Z) : lib_io := {| caller := fun a => byte_at l (a - 1000); p_data := 1000 |}.

Definition service_of (f : its_flash_fs_ctx_t * dev) (l : list Z) : its_state dev lib_io :=
  {| fs_ctx_its := f; fs_ctx_ps := (blank_ctx, {| cells := fun _ => 0; countdown := None |});
     asset_data := repeat 0 64; p_data_length := 0; req_mngr := io_of l |}.

Lemma source_io l : Z.of_nat (length l) < 2 ^ 31 -> source (rm := lib_req_mngr) (io_of l) l.
Proof.
  intros H. cbn. split; [lia|]. split; [lia|]. apply mread_bytes; [done|].
  intros k Hk. f_equal. lia.
Qed.

(** Wiping and mounting a device of arbitrary content gives the filesystem to
    start from; when its power will fail is not part of what it holds. *)
Definition format_and_mount : M (its_flash_fs_ctx_t * dev) unit :=
  do! its_flash_fs_wipe_all steady_ops in its_flash_fs_prepare steady_ops.

Definition formatted : its_flash_fs_ctx_t * dev :=
  snd (format_and_mount (blank_ctx, {| cells := fun _ => 7; countdown := None |})).

Definition start (n : option nat) : its_flash_fs_ctx_t * dev :=
  (fst formatted, {| cells := cells (snd formatted); countdown := n |}).

Lemma start_mounted n : exists T, fs_mounted cfg5 (dev_view cfg5) (start n) T /\
  forall fid, table_get cfg5 T fid = None.
Proof.
  set (f0 := (blank_ctx, {| cells := fun _ => 7; countdown := None |})).
  pose proof (wipe_prepare_promise steady_ops cfg5 (dev_view cfg5) (FS := steady_spec cfg5 cfg5_wf)
    cfg5_wf f0 (fun _ f' => exists T', fs_mounted cfg5 (dev_view cfg5) f' T' /\
      forall fid, table_get cfg5 T' fid = None) (fun _ _ => False) eq_refl
    (fun f' T' H1 H2 => ex_intro _ T' (conj H1 H2))) as H.
  unfold wp in H. fold format_and_mount in H. unfold start, formatted. fold f0.
  destruct (format_and_mount f0) as [[u|e] f]; [|done].
  destruct H as (T & [HG (x & a & sb & U & Hst & Hinv)] & He). exists T.
  split; [|done]. split; [done|]. exists x, a, sb, U. split; [exact Hst|exact Hinv].
Qed.

(** A service that has just started, asked to store [l]. *)
Definition started (n : option nat) (l : list Z) : its_state dev lib_io := service_of (start n) l.

Lemma started_serving n l : exists T o, serving platform5 1 cfg5 (dev_view cfg5) (started n l) T o /\
  forall fid, table_get cfg5 T fid = None.
Proof.
  destruct (start_mounted n) as (T & Hm & He). exists T, (fs_ctx_ps (started n l)). split; [|done].
  by split.
Qed.

(** With no files there is none to replace. *)
Lemma fresh_replaceable T fid n : (forall f, table_get cfg5 T f = None) -> replaceable cfg5 T fid n.
Proof. intros H h Hh. by rewrite H in Hh. Qed.

(** ** The running example

    Client 1 stores [1; 2; 3] under UID 5. *)
Abbreviation demo_set n :=
  (tfm_its_set platform5 failing_ops failing_ops 4 lib_req_mngr 1 5 3 0 (started n [1; 2; 3])).
Abbreviation demo_file k := (asset 4 1 cfg5 5 0 [1; 2; 3] k).

Lemma demo_set_ok : fst (demo_set None) = Ok tt.
Proof. vm_compute. reflexivity. Qed.
Lemma demo_set_cut : fst (demo_set (Some 7%nat)) = Err PSA_ERROR_STORAGE_FAILURE.
Proof. vm_compute. reflexivity. Qed.

(** The state after the asset has been stored. *)
Lemma demo_stored : exists T o, serving platform5 1 cfg5 (dev_view cfg5) (snd (demo_set None)) T o /\
  table_get cfg5 T (tfm_its_get_fid 1 5) = Some (demo_file 3).
Proof.
  destruct (started_serving None [1; 2; 3]) as (T & o & HS & He).
  pose proof (set_effect platform5 failing_ops failing_ops 4 lib_req_mngr 1 cfg5 (dev_view cfg5) True
    (FS := failing_spec cfg5 cfg5_wf) cfg5_wf cfg5_max cfg5_align 5 0 [1; 2; 3] T o _ HS
    (source_io [1; 2; 3] ltac:(done)) ltac:(lia) ltac:(lia) ltac:(done) (fresh_replaceable T _ _ He)) as H.
  change (Z.of_nat (length [1; 2; 3])) with 3 in H. fold (demo_set None) in H.
  assert (Hr : fst (demo_set None) = Ok tt) by (vm_compute; reflexivity).
  destruct (demo_set None) as [r s']. cbn [fst snd] in *. subst r. destruct H as (T' & H1 & H2).
  exists T', o. split; [exact H1|]. by rewrite H2.
Qed.

Lemma demo_room : room (rm := lib_req_mngr) (req_mngr (snd (demo_set None))) 10.
Proof.
  assert (E : p_data (req_mngr (snd (demo_set None))) = 1003) by (vm_compute; reflexivity).
  change (0 <= p_data (req_mngr (snd (demo_set None))) /\
    p_data (req_mngr (snd (demo_set None))) + 10 < 2 ^ 32).
  rewrite E. lia.
Qed.
