(* ===== verification/ItsTheorems.v ===== *)
(** * Internal Trusted Storage: the properties

    What the service and its filesystem guarantee, each property with a
    concrete instance. *)

From Stdlib Require Import ZArith List Lia Bool.
From stdpp Require Import base tactics list sets.
From S2P Require Import Prelude ItsUtils ItsFlash ItsMblock ItsFs ItsImage ItsDevSpec ItsCommit.
From S2P Require Import ItsFinalize ItsDeletePlan ItsWrite ItsFileSpec ItsFileOps ItsMount.
From S2P Require Import ItsMount ItsBackends ItsTable ItsChunk Its ItsInit ItsService.
From S2P Require Import ItsReqMngr ItsExample.
Import ListNotations.
Local Open Scope Z_scope.

(** ** The service *)
Section Service.
Context {D IO : Type} (p : its_platform) (iops pops : its_flash_fs_ops_t D) (AL : Z).
Context (rm : ReqMngr IO) {RS : ReqSpec rm} (cl : Z) (c : its_flash_fs_config_t).
Context (Vw : D -> view) (mf : Prop) {FS : FlashSpec c (get_fs_ops p iops pops cl) Vw mf}.
Context (wf : wf_cfg c) (Hmax : max_num_files c < ITS_METADATA_INVALID_INDEX).
Context (HA : align_ok c AL (sizeof_asset_data p)).
Local Abbreviation serving := (serving p cl c Vw).
Local Abbreviation interrupted := (interrupted p cl c Vw).
Local Abbreviation fid := (tfm_its_get_fid cl).

(** C1: tfm_its_set updates the map of files of the client's filesystem: on
    success exactly the file of (client, uid) is replaced by the asset; a
    request the interface forbids changes nothing and gets the documented
    status; any other failure is a device failure or lack of space, and then
    a restart finds the old files, or a whole number of chunks of the new
    asset.  The other filesystem is never touched.  For assets shorter than
    2^31 bytes, empty ones too, but for one case: an asset stored without any
    data is not replaced by one with data, where the code damages another
    file (see the findings, its_flash_fs.c:498). *)
Theorem set_refines_map uid fl l T o s :
  let n := Z.of_nat (length l) in
  serving s T o -> source (req_mngr s) l ->
  0 <= uid < 2 ^ 64 -> 0 <= fl < 2 ^ 32 -> n < 2 ^ 31 -> replaceable c T (fid uid) n ->
  wp (tfm_its_set p iops pops AL rm cl uid n fl) s
    (fun _ s' => (mf \/ forall e, ~ set_denied cl c uid fl T e) /\
       exists T', serving s' T' o /\ updated c T (fid uid) (Some (asset AL cl c uid fl l n)) T')
    (fun e s' => e <> PSA_SUCCESS /\
       (((mf \/ set_denied cl c uid fl T e) /\ serving s' T o) \/
        ((mf \/ refusal c T (fid uid) (create_truncate fl) (aligned_size c AL n) e) /\
         exists T', interrupted s' T' o /\
           (same_files c T T' \/ exists k, chunk_boundary p k n /\
              updated c T (fid uid) (Some (asset AL cl c uid fl l k)) T')))).
Proof using All.
  intros n HS Hl Hu Hfl Hn Hrep.
  eapply (tfm_its_set_spec p iops pops AL rm cl c Vw mf wf Hmax HA uid fl l T o s); eauto.
  intros e s' T' He Hr Hi Hc. split; [done|]. right. eauto.
Qed.

(** C2: an asset that fits the transfer buffer, and does not put data in the
    place of an asset stored without any, is stored atomically: whatever
    happens during tfm_its_set (a power cut at any flash operation
    included), mounting the device afterwards gives either the files before
    the call or the files after it, and the files after it when the call
    succeeded. *)
Theorem set_atomic_over_restart (ops' : its_flash_fs_ops_t D) {FS' : FlashSpec c ops' Vw False} uid fl l T o s x :
  let n := Z.of_nat (length l) in
  serving s T o -> source (req_mngr s) l ->
  0 <= uid < 2 ^ 64 -> 0 <= fl < 2 ^ 32 -> n <= sizeof_asset_data p ->
  replaceable c T (fid uid) n -> cfg x = c ->
  let '(r, s') := tfm_its_set p iops pops AL rm cl uid n fl s in
  wp (its_flash_fs_prepare ops') (x, snd (get_fs_ctx p cl s'))
    (fun _ f => exists T', fs_mounted c Vw f T' /\
       (updated c T (fid uid) (Some (asset AL cl c uid fl l n)) T' \/
        (r <> Ok tt /\ same_files c T T')))
    (fun _ _ => False).
Proof using All.
  intros n HS Hl Hu Hfl Hn Hrep Hx. pose proof (al_buf _ _ _ HA) as Hbuf.
  assert (Hn' : n < 2 ^ 31) by lia.
  pose proof (set_effect p iops pops AL rm cl c Vw mf wf Hmax HA uid fl l T o s HS Hl Hu Hfl Hn' Hrep) as H.
  fold n in H. destruct (tfm_its_set p iops pops AL rm cl uid n fl s) as [r s'].
  apply (set_outcome_survives p AL cl c Vw wf) in H as (T' & Hs & Hc).
  apply (prepare_promise ops' c Vw wf _ x T'); [exact Hs|done|].
  intros f T2 Hm H2. exists T2. split; [done|].
  assert (Ht : forall g, updated c T (fid uid) g T' -> updated c T (fid uid) g T2).
  { intros g Hg f'. by rewrite H2. }
  destruct r as [[]|e]; [left; by apply Ht|].
  destruct Hc as [Hc|(k & (Hk & Hkn) & Hc)]; [right; split; [done|]; intros f'; by rewrite H2|left].
  apply Ht. replace n with k; [done|]. destruct Hkn as [?|(Hk0 & i & Hi)]; [done|]. fold n in Hk.
  clearbody n. assert (0 < i) by nia. assert (i < 2) by nia. assert (i = 1) as -> by lia. lia.
Qed.

(** C3: tfm_its_get hands exactly the requested part of the asset to the
    caller and reports its length; errors are those of the interface (or a
    device failure), and nothing is changed. *)
Theorem get_reads_map uid off n T o s :
  serving s T o -> ps_test_client p cl = cl -> 0 <= uid < 2 ^ 64 -> 0 <= off < 2 ^ 32 ->
  0 <= n < 2 ^ 32 -> room (req_mngr s) n ->
  wp (tfm_its_get p iops pops rm cl uid off n) s
    (fun _ s' => serving s' T o /\ exists g, table_get c T (fid uid) = Some g /\
       off <= Z.of_nat (length (f_data g)) /\
       p_data_length s' = Z.min n (Z.of_nat (length (f_data g)) - off) /\
       wrote (firstn (Z.to_nat (p_data_length s')) (skipn (Z.to_nat off) (f_data g)))
         (req_mngr s) (req_mngr s'))
    (fun e s' => e <> PSA_SUCCESS /\ (mf \/ get_denied cl c uid off T e) /\ serving s' T o).
Proof using All.
  intros HS Ht Hu Ho Hn Hr.
  eapply (tfm_its_get_spec p iops pops AL rm cl c Vw mf wf Hmax HA uid off n T o s); auto.
  intros g s' Hu0 Hg Hoff HS' m Hm Hw. split; [done|]. exists g. rewrite Hm. auto.
Qed.

(** tfm_its_get_info reports the size and the user flags of the asset. *)
Theorem get_info_reads_map uid T o (s : its_state D IO) :
  serving s T o -> 0 <= uid < 2 ^ 64 ->
  wp (tfm_its_get_info p iops pops cl uid) s
    (fun i s' => serving s' T o /\ exists g, table_get c T (fid uid) = Some g /\
       i = {| capacity := Z.of_nat (length (f_data g)); size := Z.of_nat (length (f_data g));
              storage_flags := Z.land (f_flags g) ITS_FLASH_FS_USER_FLAGS_MASK |})
    (fun e s' => e <> PSA_SUCCESS /\ serving s' T o /\
       (mf \/ (uid = 0 /\ e = PSA_ERROR_INVALID_ARGUMENT) \/
        (table_get c T (fid uid) = None /\ e = PSA_ERROR_DOES_NOT_EXIST))).
Proof using All.
  intros HS Hu.
  eapply (tfm_its_get_info_spec p iops pops AL rm cl c Vw mf wf Hmax HA uid T o s); auto.
  intros g s' _ Hg HS'. eauto.
Qed.

(** Tfm_its_remove deletes exactly the asset, never a write-once one;
    after a device failure a restart finds the files before or after. *)
Theorem remove_refines_map uid T o (s : its_state D IO) :
  serving s T o -> ps_test_client p cl = cl -> 0 <= uid < 2 ^ 64 ->
  (forall h, table_get c T (fid uid) = Some h -> 0 < f_max h) ->
  wp (tfm_its_remove p iops pops cl uid) s
    (fun _ s' => exists g T', table_get c T (fid uid) = Some g /\
       has_flag (f_flags g) PSA_STORAGE_FLAG_WRITE_ONCE = false /\
       serving s' T' o /\ updated c T (fid uid) None T')
    (fun e s' => e <> PSA_SUCCESS /\
       ((serving s' T o /\
         (mf \/ (uid = 0 /\ e = PSA_ERROR_INVALID_ARGUMENT) \/
          (table_get c T (fid uid) = None /\ e = PSA_ERROR_DOES_NOT_EXIST) \/
          (exists g, table_get c T (fid uid) = Some g /\
             has_flag (f_flags g) PSA_STORAGE_FLAG_WRITE_ONCE = true /\
             e = PSA_ERROR_NOT_PERMITTED))) \/
        (mf /\ exists T', interrupted s' T' o /\
           (same_files c T T' \/ updated c T (fid uid) None T')))).
Proof using All.
  intros HS Ht Hu Hsp.
  eapply (tfm_its_remove_spec p iops pops AL rm cl c Vw mf wf Hmax HA uid T o s); auto.
  - intros g s' T' _ Hg Hw HS' Hup. eauto 8.
  - intros e s' T' Hmf He Hi Hc. split; [done|]. right. eauto 8.
Qed.

(** C4: what tfm_its_set stored, tfm_its_get returns, byte for byte: for assets
    shorter than 2^31 bytes, empty ones too, that do not put data in the place
    of an asset stored without any. *)
Theorem set_get_roundtrip uid fl l T o s s1 :
  let n := Z.of_nat (length l) in
  ~ mf -> serving s T o -> source (req_mngr s) l -> ps_test_client p cl = cl ->
  0 <= uid < 2 ^ 64 -> 0 <= fl < 2 ^ 32 -> n < 2 ^ 31 -> replaceable c T (fid uid) n ->
  tfm_its_set p iops pops AL rm cl uid n fl s = (Ok tt, s1) -> room (req_mngr s1) n ->
  exists s2, tfm_its_get p iops pops rm cl uid 0 n s1 = (Ok tt, s2) /\
    p_data_length s2 = n /\ wrote l (req_mngr s1) (req_mngr s2).
Proof using All.
  intros n Hmf HS Hl Ht Hu Hfl Hn Hrep Hset Hroom.
  pose proof (wp_wand _ _ _ _
    (fun _ s' => uid <> 0 /\ exists T', serving s' T' o /\
       updated c T (fid uid) (Some (asset AL cl c uid fl l n)) T') (fun _ _ => True) Hset) as H1.
  destruct H1 as (Hu0 & T1 & HS1 & Hup).
  { eapply (tfm_its_set_spec p iops pops AL rm cl c Vw mf wf Hmax HA uid fl l T o s); auto.
    intros s' T' [?|Hd] HS' Hup; [done|]. split; [|eauto]. intros ->.
    apply (Hd PSA_ERROR_INVALID_ARGUMENT). by left. }
  assert (Hg : table_get c T1 (fid uid) = Some (asset AL cl c uid fl l n)).
  { rewrite Hup. by rewrite decide_True. }
  assert (Hfd : f_data (asset AL cl c uid fl l n) = l).
  { cbn. apply firstn_all2. unfold n. lia. }
  pose proof (tfm_its_get_spec p iops pops AL rm cl c Vw mf wf Hmax HA uid 0 n T1 o s1
    (fun _ s' => p_data_length s' = n /\ wrote l (req_mngr s1) (req_mngr s'))
    (fun _ _ => False) HS1 Ht Hu ltac:(lia) ltac:(lia) Hroom) as H2.
  apply wp_ok in H2 as ([] & s2 & H2 & H3); [by eauto| |].
  - intros g s' _ Hg' _ _ m Hm Hw. rewrite Hg in Hg'. injection Hg' as <-.
    unfold part, m in Hm, Hw. rewrite Hfd in Hm, Hw. fold n in Hm, Hw.
    rewrite Z.sub_0_r, Z.min_id in Hm, Hw. split; [done|].
    rewrite skipn_O, firstn_all2 in Hw by (unfold n; lia). done.
  - intros e s' _ [?|Hd] _; [done|]. destruct Hd as [[? _]|[[Hd _]|(g & Hg' & Hlt & _)]]; [done|congruence|].
    lia.
Qed.

(** C5: a client cannot reach the assets of another one.  Whatever
    tfm_its_set does for client [cl], now or after a restart, every asset
    of another client or UID is unchanged, and so is the other filesystem.
    For assets shorter than 2^31 bytes, but for a call that puts data in the
    place of an asset stored without any (see the findings,
    its_flash_fs.c:498). *)
Theorem clients_isolated uid fl l T o s :
  let n := Z.of_nat (length l) in
  - 2 ^ 31 <= cl < 2 ^ 31 ->
  serving s T o -> source (req_mngr s) l ->
  0 <= uid < 2 ^ 64 -> 0 <= fl < 2 ^ 32 -> n < 2 ^ 31 -> replaceable c T (fid uid) n ->
  let '(r, s') := tfm_its_set p iops pops AL rm cl uid n fl s in
  other_fs p cl s' = o /\ exists T', (serving s' T' o \/ interrupted s' T' o) /\
    forall cl' uid', - 2 ^ 31 <= cl' < 2 ^ 31 -> 0 <= uid' < 2 ^ 64 -> (cl', uid') <> (cl, uid) ->
      table_get c T' (tfm_its_get_fid cl' uid') = table_get c T (tfm_its_get_fid cl' uid').
Proof using All.
  intros n Hcl HS Hl Hu Hfl Hn Hrep.
  assert (Hoth : forall g T' cl' uid', updated c T (fid uid) g T' -> - 2 ^ 31 <= cl' < 2 ^ 31 ->
    0 <= uid' < 2 ^ 64 -> (cl', uid') <> (cl, uid) ->
    table_get c T' (tfm_its_get_fid cl' uid') = table_get c T (tfm_its_get_fid cl' uid')).
  { intros g T' cl' uid' Hup Hc' Hu' Hne. rewrite Hup, decide_False; [done|]. intros E.
    apply fid_inj in E as [-> ->]; done. }
  pose proof (set_effect p iops pops AL rm cl c Vw mf wf Hmax HA uid fl l T o s HS Hl Hu Hfl Hn Hrep) as H.
  fold n in H. destruct (tfm_its_set p iops pops AL rm cl uid n fl s) as [r s'].
  split; [by eapply set_outcome_other|]. destruct H as (T' & H). exists T'. destruct r as [u|e].
  - destruct H as [HS' Hc]. split; [by left|eauto].
  - destruct H as [HS' [Hc|(k & _ & Hc)]]; (split; [exact HS'|]); [intros; apply Hc|eauto].
Qed.
End Service.

(** *** Instances: client 1 stores [1; 2; 3] under UID 5, on a device that
    keeps its power or loses it after some flash operations *)
Lemma set_refines_map_witness : exists T T' o,
  serving platform5 1 cfg5 (dev_view cfg5) (started None [1; 2; 3]) T o /\
  serving platform5 1 cfg5 (dev_view cfg5) (snd (demo_set None)) T' o /\
  updated cfg5 T (tfm_its_get_fid 1 5) (Some (demo_file 3)) T'.
Proof.
  destruct (started_serving None [1; 2; 3]) as (T & o & HS & He).
  pose proof (wp_run _ _ _ _ _ demo_set_ok (set_refines_map platform5 failing_ops failing_ops 4
    lib_req_mngr 1 cfg5 (dev_view cfg5) True (FS := failing_spec cfg5 cfg5_wf) cfg5_wf cfg5_max
    cfg5_align 5 0 [1; 2; 3] T o _ HS (source_io [1; 2; 3] ltac:(done)) ltac:(lia) ltac:(lia)
    ltac:(done) (fresh_replaceable T _ _ He))) as (_ & T' & H1 & H2).
  by exists T, T', o.
Defined.

Lemma set_atomic_over_restart_witness : exists T T' o f,
  serving platform5 1 cfg5 (dev_view cfg5) (started (Some 7%nat) [1; 2; 3]) T o /\
  fst (demo_set (Some 7%nat)) = Err PSA_ERROR_STORAGE_FAILURE /\
  its_flash_fs_prepare steady_ops (blank_ctx, snd (fs_ctx_its (snd (demo_set (Some 7%nat))))) = (Ok tt, f) /\
  fs_mounted cfg5 (dev_view cfg5) f T' /\
  (updated cfg5 T (tfm_its_get_fid 1 5) (Some (demo_file 3)) T' \/ same_files cfg5 T T').
Proof.
  destruct (started_serving (Some 7%nat) [1; 2; 3]) as (T & o & HS & He).
  pose proof (set_atomic_over_restart platform5 failing_ops failing_ops 4 lib_req_mngr 1 cfg5 (dev_view cfg5)
    True (FS := failing_spec cfg5 cfg5_wf) cfg5_wf cfg5_max cfg5_align steady_ops
    (FS' := steady_spec cfg5 cfg5_wf) 5 0 [1; 2; 3] T o _ blank_ctx HS
    (source_io [1; 2; 3] ltac:(done)) ltac:(lia) ltac:(lia) ltac:(done) (fresh_replaceable T _ _ He) eq_refl) as H.
  change (Z.of_nat (length [1; 2; 3])) with 3 in H. fold (demo_set (Some 7%nat)) in H.
  destruct (demo_set (Some 7%nat)) as [r s'] eqn:E.
  assert (Hr : r = Err PSA_ERROR_STORAGE_FAILURE).
  { change r with (fst (r, s')). rewrite <- E. vm_compute. reflexivity. }
  apply wp_ok in H as ([] & f & Hf & T' & Hm & Hc). exists T, T', o, f.
  split; [done|]. split; [done|]. split; [done|]. split; [done|]. destruct Hc as [Hc|[_ Hc]]; auto.
Defined.

Lemma get_reads_map_witness : exists T o,
  serving platform5 1 cfg5 (dev_view cfg5) (snd (demo_set None)) T o /\
  wp (tfm_its_get platform5 failing_ops failing_ops lib_req_mngr 1 5 1 10) (snd (demo_set None))
    (fun _ s' => p_data_length s' = 2 /\
       wrote [2; 3] (req_mngr (snd (demo_set None))) (req_mngr s'))
    (fun _ _ => True).
Proof.
  destruct demo_stored as (T & o & HS & Hg). exists T, o. split; [done|].
  pose proof (get_reads_map platform5 failing_ops failing_ops 4 lib_req_mngr 1 cfg5 (dev_view cfg5) True
    (FS := failing_spec cfg5 cfg5_wf) cfg5_wf cfg5_max cfg5_align 5 1 10 T o _ HS eq_refl
    ltac:(lia) ltac:(lia) ltac:(lia) demo_room) as H.
  eapply wp_mono; [exact H| |done]. intros [] s' (_ & g & Hg' & _ & Hl & Hw).
  rewrite Hg in Hg'. injection Hg' as <-. change (f_data (demo_file 3)) with [1; 2; 3] in Hl, Hw.
  rewrite Hl in Hw |- *. by split.
Defined.

Lemma get_info_reads_map_witness : exists T o,
  serving platform5 1 cfg5 (dev_view cfg5) (snd (demo_set None)) T o /\
  wp (tfm_its_get_info platform5 failing_ops failing_ops 1 5) (snd (demo_set None))
    (fun i s' => i = {| capacity := 3; size := 3; storage_flags := 0 |}) (fun _ _ => True).
Proof.
  destruct demo_stored as (T & o & HS & Hg). exists T, o. split; [done|].
  pose proof (get_info_reads_map platform5 failing_ops failing_ops 4 lib_req_mngr 1 cfg5 (dev_view cfg5) True
    (FS := failing_spec cfg5 cfg5_wf) cfg5_wf cfg5_max cfg5_align 5 T o _ HS ltac:(lia)) as H.
  eapply wp_mono; [exact H| |done]. intros i s' (_ & g & Hg' & ->).
  rewrite Hg in Hg'. injection Hg' as <-. done.
Defined.

Lemma remove_refines_map_witness : exists T o,
  serving platform5 1 cfg5 (dev_view cfg5) (snd (demo_set None)) T o /\
  wp (tfm_its_remove platform5 failing_ops failing_ops 1 5) (snd (demo_set None))
    (fun _ s' => exists T', serving platform5 1 cfg5 (dev_view cfg5) s' T' o /\
       table_get cfg5 T' (tfm_its_get_fid 1 5) = None) (fun e _ => e <> PSA_SUCCESS).
Proof.
  destruct demo_stored as (T & o & HS & Hg). exists T, o. split; [done|].
  pose proof (remove_refines_map platform5 failing_ops failing_ops 4 lib_req_mngr 1 cfg5 (dev_view cfg5) True
    (FS := failing_spec cfg5 cfg5_wf) cfg5_wf cfg5_max cfg5_align 5 T o _ HS eq_refl ltac:(lia)
    ltac:(intros h Hh; rewrite Hg in Hh; by injection Hh as <-)) as H.
  eapply wp_mono; [exact H| |by intros e s' [He _]]. intros [] s' (g & T' & _ & _ & HS' & Hu).
  exists T'. split; [done|]. by rewrite Hu.
Defined.

Local Abbreviation steady_set :=
  (tfm_its_set platform5 steady_ops steady_ops 4 lib_req_mngr 1 5 3 0 (started None [1; 2; 3])).

Lemma steady_set_ok : steady_set = (Ok tt, snd steady_set).
Proof.
  assert (E : fst steady_set = Ok tt) by (vm_compute; reflexivity).
  by rewrite (surjective_pairing steady_set), E at 1.
Qed.

Lemma steady_room : room (rm := lib_req_mngr) (req_mngr (snd steady_set)) 3.
Proof.
  assert (E : p_data (req_mngr (snd steady_set)) = 1003) by (vm_compute; reflexivity).
  change (0 <= p_data (req_mngr (snd steady_set)) /\ p_data (req_mngr (snd steady_set)) + 3 < 2 ^ 32).
  rewrite E. lia.
Qed.

Lemma set_get_roundtrip_witness : exists s1 s2,
  steady_set = (Ok tt, s1) /\
  tfm_its_get platform5 steady_ops steady_ops lib_req_mngr 1 5 0 3 s1 = (Ok tt, s2) /\
  p_data_length s2 = 3 /\ wrote (rm := lib_req_mngr) [1; 2; 3] (req_mngr s1) (req_mngr s2).
Proof.
  destruct (started_serving None [1; 2; 3]) as (T & o & HS & He).
  destruct (set_get_roundtrip platform5 steady_ops steady_ops 4 lib_req_mngr 1 cfg5 (dev_view cfg5) False
    (FS := steady_spec cfg5 cfg5_wf) cfg5_wf cfg5_max cfg5_align 5 0 [1; 2; 3] T o
    (started None [1; 2; 3]) (snd steady_set) (fun f => f) HS (source_io [1; 2; 3] ltac:(done)) eq_refl
    ltac:(lia) ltac:(lia) ltac:(done) (fresh_replaceable T _ _ He) steady_set_ok steady_room) as (s2 & H2 & H3 & H4).
  exists (snd steady_set), s2. split; [exact steady_set_ok|]. split; [exact H2|]. split; [exact H3|exact H4].
Defined.

Lemma clients_isolated_witness : exists T o,
  serving platform5 1 cfg5 (dev_view cfg5) (started (Some 7%nat) [1; 2; 3]) T o /\
  exists T', table_get cfg5 T' (tfm_its_get_fid 2 5) = table_get cfg5 T (tfm_its_get_fid 2 5) /\
    (serving platform5 1 cfg5 (dev_view cfg5) (snd (demo_set (Some 7%nat))) T' o \/
     interrupted platform5 1 cfg5 (dev_view cfg5) (snd (demo_set (Some 7%nat))) T' o).
Proof.
  destruct (started_serving (Some 7%nat) [1; 2; 3]) as (T & o & HS & He). exists T, o. split; [done|].
  pose proof (clients_isolated platform5 failing_ops failing_ops 4 lib_req_mngr 1 cfg5 (dev_view cfg5) True
    (FS := failing_spec cfg5 cfg5_wf) cfg5_wf cfg5_max cfg5_align 5 0 [1; 2; 3] T o _ ltac:(lia) HS
    (source_io [1; 2; 3] ltac:(done)) ltac:(lia) ltac:(lia) ltac:(done) (fresh_replaceable T _ _ He)) as H.
  change (Z.of_nat (length [1; 2; 3])) with 3 in H. fold (demo_set (Some 7%nat)) in H.
  destruct (demo_set (Some 7%nat)) as [r s']. destruct H as (_ & T' & HS' & H).
  exists T'. split; [apply H; [lia|lia|done]|exact HS'].
Defined.
