(* ===== verification/ItsFsTheorems.v ===== *)
(** * Internal Trusted Storage: properties of the filesystem and its devices

    The filesystem operations over any flash device, the metadata encoding,
    the configuration check and the flash back ends; and the behaviours that
    differ from what the code means to do, on concrete devices. *)

From Stdlib Require Import ZArith List Lia Bool.
From stdpp Require Import base tactics list sets.
From S2P Require Import Prelude ItsUtils ItsFlash ItsMblock ItsFs ItsImage ItsDevSpec ItsCommit.
From S2P Require Import ItsFinalize ItsDeletePlan ItsWrite ItsFileSpec ItsFileOps ItsMount.
From S2P Require Import ItsMount ItsBackends ItsTable ItsChunk Its ItsInit ItsService.
From S2P Require Import ItsReqMngr ItsExample.
Import ListNotations.
Local Open Scope Z_scope.

(** ** The filesystem operations *)
Section Fs.
Context {D : Type} (ops : its_flash_fs_ops_t D) (c : its_flash_fs_config_t).
Context (Vw : D -> view) (mf : Prop) {FS : FlashSpec c ops Vw mf} (wf : wf_cfg c).
Context (x : its_flash_fs_ctx_t) (a sb : Z) (U : view) (T : table) (Hinv : fs_inv c x a sb U T).
Context (fid : list Z) (Hlen : length fid = 12%nat) (Hfid : its_utils_validate_fid fid = PSA_SUCCESS).
Local Abbreviation st := (its_flash_fs_ctx_t * D)%type.

(** C6: its_flash_fs_file_write, for any flags, offset and size, when the file
    it replaces, if there is one, has not the maximum size 0: on success
    the filesystem is mounted and its table has the written file in the slot
    the operation chose and no longer the file it replaces; on failure the
    device held throughout, for the next mount, the old table or one of the
    two tables the write goes through, and without device failures the
    write was refused for a documented reason. *)
Theorem file_write_correct AL fl ms off dsize data (s : st) :
  let m := aligned_size c AL ms in
  let g := new_file c AL T fid fl m off dsize data in
  max_num_files c < ITS_METADATA_INVALID_INDEX -> st_is Vw x U s ->
  0 <= fl < 2 ^ 32 -> 0 <= ms -> 0 <= off < 2 ^ 32 -> 0 <= dsize < 2 ^ 32 ->
  dsize <= aligned_size c AL dsize < 2 ^ 32 -> aligned_size c AL dsize <= Z.of_nat (length data) ->
  (forall o h, replaced c T fid fl m o = true -> T o = Some h -> 0 < f_max h) ->
  wp (its_flash_fs_file_write ops AL fid fl ms dsize off data) s
    (fun _ s' => exists n x' a' sb' U', slot_for c T fid fl m n /\ st_is Vw x' U' s' /\
       fs_inv c x' a' sb' U' (table_written c T fid fl m n g))
    (fun e s' => e <> PSA_SUCCESS /\ (mf \/ write_refused c AL (U a) fid fl m dsize off e) /\
       exists V, same_view V (Vw (snd s')) /\ holds_one_of c (write_states c T fid fl m g) V).
Proof using All.
  intros m g Hmax Hst Hfl Hms Ho Hd Has Hda Hpos.
  eapply (file_write_spec ops c Vw mf wf AL x a sb U T Hinv Hmax fid fl ms Hlen Hfid Hfl Hms off dsize
    data Ho Hd Has Hda Hpos); [exact Hst| |].
  - intros n s' x' a' sb' U' Hn Hst' Hi. exists n, x', a', sb', U'. auto.
  - intros e s' V He Hr HV H. split; [done|]. split; [done|]. by exists V.
Qed.

(** its_flash_fs_file_read returns exactly the requested bytes of the
    file and changes nothing; a request past its end is refused. *)
Theorem file_read_correct size off (s : st) :
  st_is Vw x U s -> 0 <= size < 2 ^ 32 -> 0 <= off < 2 ^ 32 ->
  wp (its_flash_fs_file_read ops fid size off) s
    (fun l s' => st_is Vw x U s' /\ exists j g, table_lookup c T fid = Some j /\ T j = Some g /\
       off + size <= Z.of_nat (length (f_data g)) /\
       l = firstn (Z.to_nat size) (skipn (Z.to_nat off) (f_data g)))
    (fun e s' => e <> PSA_SUCCESS /\ st_is Vw x U s' /\
       (mf \/ (table_lookup c T fid = None /\ e = PSA_ERROR_DOES_NOT_EXIST) \/
        (exists j g, table_lookup c T fid = Some j /\ T j = Some g /\
           Z.of_nat (length (f_data g)) < off + size /\ e = PSA_ERROR_INVALID_ARGUMENT))).
Proof using All.
  intros Hst Hs Ho.
  eapply (file_read_spec ops c Vw mf wf x a sb U T Hinv fid Hlen Hfid size off); [done|done|exact Hst|..].
  - intros j g Hj Hg Hle s' Hst'. split; [done|]. exists j, g. auto.
  - intros j g Hj Hg Hlt s' Hst'. split; [done|]. split; [done|]. right. right. exists j, g. auto.
  - intros Hn s' Hst'. split; [done|]. split; [done|]. right. by left.
  - intros e s' Hmf He Hst'. split; [done|]. split; [done|]. by left.
Qed.

(** C7: its_flash_fs_file_delete removes the file, unless its maximum size is 0
    (see the findings), and leaves every other file, and its data, as it was; at any device failure the device holds
    the old or the new table. *)
Theorem file_delete_correct (s : st) :
  st_is Vw x U s ->
  (forall d g, table_lookup c T fid = Some d -> T d = Some g -> 0 < f_max g) ->
  wp (its_flash_fs_file_delete ops fid) s
    (fun _ s' => exists d x' U', table_lookup c T fid = Some d /\ st_is Vw x' U' s' /\
       fs_inv c x' sb a U' (table_delete d T))
    (fun e s' => e <> PSA_SUCCESS /\
       ((table_lookup c T fid = None /\ e = PSA_ERROR_DOES_NOT_EXIST /\ st_is Vw x U s') \/
        (mf /\ exists V, same_view V (Vw (snd s')) /\
           holds_one_of c (fun T' => T' = T \/
             exists d, table_lookup c T fid = Some d /\ T' = table_delete d T) V))).
Proof using All.
  intros Hst Hpos.
  eapply (file_delete_spec ops c Vw mf wf x a sb U T Hinv fid Hlen Hfid); [exact Hst|exact Hpos|..].
  - intros d s' x' U' Hd Hst' Hi. exists d, x', U'. auto.
  - intros Hn s' Hst'. split; [done|]. left. auto.
  - intros e s' V Hmf He HV H. split; [done|]. right. split; [done|]. by exists V.
Qed.
End Fs.

Section Mounting.
Context {D : Type} (ops : its_flash_fs_ops_t D) (c : its_flash_fs_config_t).
Context (Vw : D -> view) {FS : FlashSpec c ops Vw False} (wf : wf_cfg c).

(** C8: its_flash_fs_prepare mounts any device that holds a table, unless the
    file an interrupted write was replacing has the maximum size 0 (see the
    findings), erases the scratch blocks, and completes the replacement the
    write left half done. *)
Theorem prepare_recovers x V a T (s : its_flash_fs_ctx_t * D) :
  st_is Vw x V s -> cfg x = c -> select c V = Some a -> holds c V a T ->
  (forall d g, first_flagged c T = Some d -> T d = Some g -> 0 < f_max g) ->
  wp (its_flash_fs_prepare ops) s
    (fun _ s' => exists x' a' sb' U', st_is Vw x' U' s' /\ fs_inv c x' a' sb' U' (recovered c T))
    (fun _ _ => False).
Proof using All.
  intros Hst Hx Hs Hh Hpos. eapply (prepare_spec ops c Vw wf x V s a T); eauto.
  intros s' x' a' sb' U' Hst' Hi. exists x', a', sb', U'. auto.
Qed.

(** its_flash_fs_wipe_all makes a valid empty filesystem out of any
    device content. *)
Theorem wipe_all_formats x V (s : its_flash_fs_ctx_t * D) :
  st_is Vw x V s -> cfg x = c ->
  wp (its_flash_fs_wipe_all ops) s
    (fun _ s' => exists x' V', st_is Vw x' V' s' /\ cfg x' = c /\ select c V' = Some 1 /\
       holds c V' 1 table_empty) (fun _ _ => False).
Proof using All.
  intros Hst Hx. eapply (wipe_all_spec ops c Vw wf x V s); [exact Hst|exact Hx|].
  intros s' x' V' Hst' Hx' Hs' Hh _. exists x', V'. auto.
Qed.
End Mounting.

(** tfm_its_init mounts both filesystems with the files they hold; an
    unformatted device is formatted when the build asks for it. *)
Theorem init_mounts {D IO : Type} (p : its_platform) (iops pops : its_flash_fs_ops_t D)
    (ci cp : its_flash_fs_config_t) (Vi Vp : D -> view) {FI : FlashSpec ci iops Vi False}
    {FP : FlashSpec cp pops Vp False} (s : its_state D IO) Ti Tp :
  cfg_words ci -> erase_val ci <> 1 -> cfg_words cp -> erase_val cp <> 1 ->
  init_fs_cfg p = Ok (ci, Some cp) ->
  its_flash_fs_validate_config ci = PSA_SUCCESS -> its_flash_fs_validate_config cp = PSA_SUCCESS ->
  boots ci Vi (CREATE_FLASH_LAYOUT (its_hal p)) (snd (fs_ctx_its s)) Ti ->
  boots cp Vp (CREATE_FLASH_LAYOUT (ps_hal p)) (snd (fs_ctx_ps s)) Tp ->
  wp (tfm_its_init p iops pops) s
    (fun _ s' => exists Ti' Tp', fs_mounted ci Vi (fs_ctx_its s') Ti' /\ same_files ci Ti Ti' /\
       fs_mounted cp Vp (fs_ctx_ps s') Tp' /\ same_files cp Tp Tp')
    (fun _ _ => False).
Proof.
  intros Wi Ei Wp Ep Hcfg Hvi Hvp Hi Hp.
  eapply (tfm_its_init_spec p iops pops ci cp Vi Vp (validate_config_wf ci Wi Ei Hvi)
    (validate_config_wf cp Wp Ep Hvp) Hcfg Hvi Hvp s Ti Tp); auto.
  intros s' Ti' Tp' H1 H2 H3 H4. exists Ti', Tp'. auto.
Qed.

(** ** Metadata *)

(** Decoding inverts encoding for the three on-flash structures. *)
Theorem metadata_roundtrip h b m : hdr_words h -> bm_words b -> fm_words m ->
  bytes_header (header_bytes h) = h /\ bytes_block_meta (block_meta_bytes b) = b /\
  bytes_file_meta (file_meta_bytes m) = m.
Proof.
  intros Hh Hb Hm. split; [by apply bytes_header_bytes|].
  split; [by apply bytes_block_meta_bytes|by apply bytes_file_meta_bytes].
Qed.

(** a configuration with 16-bit fields that its_flash_fs_validate_config
    accepts has room for all its metadata in a block (and, with two blocks,
    for a file of maximal size next to it), computed without wrap-around: its
    table entries lie inside the metadata block at the offsets of the code. *)
Theorem validate_config_bounds c : cfg_words c -> its_flash_fs_validate_config c = PSA_SUCCESS ->
  2 <= num_blocks c /\ num_blocks c <> 3 /\ mend c <= block_size c /\ max_file_size c <= block_size c /\
  (num_blocks c = 2 -> mend c + max_file_size c <= block_size c) /\
  (forall j, 0 <= j < max_num_files c ->
     its_mblock_file_meta_offset c j = foff c j /\ 0 <= foff c j /\
     foff c j + ITS_FILE_METADATA_SIZE <= block_size c).
Proof.
  intros Hw Hv.
  assert (Hnb : 2 <= num_blocks c /\ num_blocks c <> 3 /\ mend c <= block_size c /\
    max_file_size c <= block_size c).
  { destruct (validate_config_cases c Hw Hv) as (H1 & H2 & H3 & H4). auto. }
  destruct Hnb as (H1 & H2 & H3 & H4). split; [done|]. split; [done|]. split; [done|]. split; [done|].
  split; [intros H; by apply validate_config_shared|].
  intros j Hj. destruct Hw. rewrite (file_meta_offset_words c); [|done..].
  unfold mend, foff, nact, ITS_FILE_METADATA_SIZE in *. split; [done|]. destruct (num_blocks c =? 2); lia.
Qed.

(** after an update the metadata block that was written last is the one
    its_mblock_latest_meta_block picks, for every swap count, also when the
    count wraps around or skips the erase value. *)
Theorem swap_count_order c h0 h1 : wf_cfg c ->
  0 <= active_swap_count h0 < 2 ^ 8 -> 0 <= active_swap_count h1 < 2 ^ 8 ->
  hdr_ok c h0 = true -> hdr_ok c h1 = true ->
  (active_swap_count h1 = next_count c (active_swap_count h0) ->
     its_mblock_latest_meta_block c h0 h1 = ITS_METADATA_BLOCK1) /\
  (active_swap_count h0 = next_count c (active_swap_count h1) ->
     its_mblock_latest_meta_block c h0 h1 = ITS_METADATA_BLOCK0).
Proof. intros wf. by apply latest_is_next. Qed.

(** ** Devices *)

(** Its_flash_fs_block_to_block_move, which copies through a small buffer,
    terminates and copies the whole region in one piece. *)
Theorem block_move_is_copy {D : Type} (ops : its_flash_fs_ops_t D) c (Vw : D -> view) (mf : Prop)
    {FS : FlashSpec c ops Vw mf} (wf : wf_cfg c) x U (s : its_flash_fs_ctx_t * D) dst doff src soff size :
  st_is Vw x U s -> cfg x = c -> dst <> src ->
  in_block c dst doff size -> in_block c src soff size -> erased c U dst doff size ->
  wp (its_flash_fs_block_to_block_move ops dst doff src soff size) s
    (fun _ s' => st_is Vw x (blk_copy U dst doff src soff size) s')
    (fun e s' => mf /\ e <> PSA_SUCCESS /\ exists U', st_is Vw x U' s' /\
       only_in dst doff (doff + size) U U').
Proof.
  intros Hst Hc Hne Hd Hs He.
  eapply (block_to_block_move_spec ops c Vw mf wf); [exact Hst|exact Hc|exact Hne|exact Hd|exact Hs|exact He| |].
  - by intros s'.
  - intros e s' U' Hmf He' Hst' HU. eauto.
Qed.

(** C9: the NOR back end over a CMSIS driver, and the RAM back end, meet the
    flash contract the filesystem is verified against; erasing a block erases
    each of its sectors and the loop terminates. *)
Theorem nor_and_ram_meet_contract {W : Type} (drv : ARM_DRIVER_FLASH W) c (Wm : W -> mem) (mf : Prop) :
  DriverSpec c drv Wm mf -> wf_cfg c -> 0 <= flash_area_addr c ->
  flash_area_addr c + num_blocks c * block_size c <= 2 ^ 32 -> 0 < sector_size c ->
  block_size c mod sector_size c = 0 -> flash_area_addr c mod sector_size c = 0 ->
  FlashSpec c (Nor.its_flash_fs_ops_nor drv) (fun w => area_view c (flash_area_addr c) (Wm w)) mf /\
  FlashSpec c Ram.its_flash_fs_ops_ram (area_view c 0) False.
Proof. intros. split; [by apply nor_spec|by apply ram_spec]. Qed.

(** ** Instances *)
Definition demo_id : list Z := tfm_its_get_fid 1 5.

Lemma demo_id_facts : length demo_id = 12%nat /\ its_utils_validate_fid demo_id = PSA_SUCCESS.
Proof. done. Qed.

Lemma start_inv n : exists T x a sb U, st_is (dev_view cfg5) x U (start n) /\ fs_inv cfg5 x a sb U T /\
  (forall fid, table_lookup cfg5 T fid = None).
Proof.
  destruct (start_mounted n) as (T & [_ (x & a & sb & U & Hst & Hi)] & He).
  exists T, x, a, sb, U. split; [done|]. split; [done|]. intros fid. by apply table_get_none.
Qed.

Local Abbreviation demo_write :=
  (its_flash_fs_file_write failing_ops 4 demo_id ITS_FLASH_FS_FLAG_CREATE 8 3 0 [1; 2; 3; 0]).

Lemma demo_write_cut : fst (demo_write (start (Some 6%nat))) = Err PSA_ERROR_STORAGE_FAILURE.
Proof. vm_compute. reflexivity. Qed.

Lemma file_write_correct_witness : exists T x a sb U,
  st_is (dev_view cfg5) x U (start (Some 6%nat)) /\ fs_inv cfg5 x a sb U T /\
  exists V a' T', same_view V (dev_view cfg5 (snd (snd (demo_write (start (Some 6%nat)))))) /\
    select cfg5 V = Some a' /\ holds cfg5 V a' T'.
Proof.
  destruct (start_inv (Some 6%nat)) as (T & x & a & sb & U & Hst & Hi & Hn).
  exists T, x, a, sb, U. split; [done|]. split; [done|].
  assert (Hpos : forall o h, replaced cfg5 T demo_id ITS_FLASH_FS_FLAG_CREATE (aligned_size cfg5 4 8) o = true ->
    T o = Some h -> 0 < f_max h).
  { intros o h Hrep. unfold replaced in Hrep. by rewrite Hn in Hrep. }
  destruct (wp_run _ _ _ _ _ demo_write_cut (file_write_correct failing_ops cfg5 (dev_view cfg5) True
    (FS := failing_spec cfg5 cfg5_wf) cfg5_wf x a sb U T Hi demo_id (proj1 demo_id_facts)
    (proj2 demo_id_facts) 4 ITS_FLASH_FS_FLAG_CREATE 8 0 3 [1; 2; 3; 0] (start (Some 6%nat)) cfg5_max Hst
    ltac:(done) ltac:(lia) ltac:(lia) ltac:(lia) ltac:(done) ltac:(done) Hpos))
    as (_ & _ & V & HV & a' & T' & H1 & _ & H2).
  exists V, a', T'. auto.
Defined.

(** The filesystem after client 1 has stored its asset. *)
Definition stored_fs : its_flash_fs_ctx_t * dev := fs_ctx_its (snd (demo_set None)).

Lemma client_1_ctx (s : its_state dev lib_io) : get_fs_ctx platform5 1 s = fs_ctx_its s.
Proof. reflexivity. Qed.

Lemma stored_inv : exists T x a sb U j, st_is (dev_view cfg5) x U stored_fs /\
  fs_inv cfg5 x a sb U T /\ table_lookup cfg5 T demo_id = Some j /\ T j = Some (demo_file 3) /\
  good_table cfg5 T.
Proof.
  unfold stored_fs.
  destruct demo_stored as (T & o & [[HG (x & a & sb & U & Hst & Hi)] _] & Hg).
  rewrite client_1_ctx in Hst.
  assert (Hl : exists j, table_lookup cfg5 T demo_id = Some j).
  { destruct (table_lookup cfg5 T demo_id) as [j|] eqn:E; [by exists j|].
    apply table_get_none in E. unfold demo_id in E. congruence. }
  destruct Hl as [j Hj]. exists T, x, a, sb, U, j. split; [exact Hst|]. split; [exact Hi|].
  split; [exact Hj|]. split; [|exact HG]. rewrite <- (table_lookup_get cfg5 T demo_id j Hj). exact Hg.
Qed.

#[local] Opaque stored_fs formatted.

Lemma file_read_correct_witness : exists T x a sb U,
  st_is (dev_view cfg5) x U stored_fs /\ fs_inv cfg5 x a sb U T /\
  fst (its_flash_fs_file_read steady_ops demo_id 2 1 stored_fs) = Ok [2; 3].
Proof.
  destruct stored_inv as (T & x & a & sb & U & j & Hst & Hi & Hj & Hg & _).
  exists T, x, a, sb, U. split; [exact Hst|]. split; [exact Hi|].
  pose proof (file_read_correct steady_ops cfg5 (dev_view cfg5) False (FS := steady_spec cfg5 cfg5_wf)
    cfg5_wf x a sb U T Hi demo_id (proj1 demo_id_facts) (proj2 demo_id_facts) 2 1 _ Hst
    ltac:(lia) ltac:(lia)) as H.
  unfold wp in H. destruct (its_flash_fs_file_read _ _ _ _ _) as [[l|e] s'].
  - destruct H as (_ & j' & g & Hj' & Hg' & _ & ->). rewrite Hj in Hj'. injection Hj' as <-.
    rewrite Hg in Hg'. by injection Hg' as <-.
  - destruct H as (_ & _ & [[]|[[Hn _]|(j' & g & Hj' & Hg' & Hlt & _)]]); [congruence|].
    rewrite Hj in Hj'. injection Hj' as <-. rewrite Hg in Hg'. injection Hg' as <-.
    change (f_data (demo_file 3)) with [1; 2; 3] in Hlt. simpl in Hlt. lia.
Defined.

Lemma file_delete_correct_witness : exists T x a sb U x' U' d,
  st_is (dev_view cfg5) x U stored_fs /\ fs_inv cfg5 x a sb U T /\
  table_lookup cfg5 T demo_id = Some d /\
  st_is (dev_view cfg5) x' U'
    (snd (its_flash_fs_file_delete steady_ops demo_id stored_fs)) /\
  fs_inv cfg5 x' sb a U' (table_delete d T).
Proof.
  destruct stored_inv as (T & x & a & sb & U & j & Hst & Hi & Hj & Hg & HG).
  pose proof (file_delete_correct steady_ops cfg5 (dev_view cfg5) False (FS := steady_spec cfg5 cfg5_wf)
    cfg5_wf x a sb U T Hi demo_id (proj1 demo_id_facts) (proj2 demo_id_facts) _ Hst
    ltac:(intros d g Hd; rewrite Hj in Hd; injection Hd as <-; rewrite Hg; by intros [= <-])) as H.
  unfold wp in H. destruct (its_flash_fs_file_delete _ _ _) as [[u|e] s'].
  - destruct H as (d & x' & U' & Hd & H1 & H2). exists T, x, a, sb, U, x', U', d.
    split; [exact Hst|]. split; [exact Hi|]. split; [exact Hd|]. split; [exact H1|exact H2].
  - destruct H as (_ & [(Hn & _)|[[] _]]). congruence.
Defined.

Lemma start_holds : cfg (fst (start None)) = cfg5 /\ exists T V a,
  st_is (dev_view cfg5) (fst (start None)) V (start None) /\ select cfg5 V = Some a /\
  holds cfg5 V a T /\ (forall d g, first_flagged cfg5 T = Some d -> T d = Some g -> 0 < f_max g).
Proof.
  split; [vm_compute; reflexivity|]. destruct (start_mounted None) as (T & Hm & _).
  destruct (mounted_survives cfg5 (dev_view cfg5) cfg5_wf T _ Hm) as (HG & V & a & T0 & HV & Hs & Hh & _ & Hp).
  exists T0, V, a. split; [split; [reflexivity|exact HV]|]. split; [exact Hs|]. split; [exact Hh|exact Hp].
Qed.

Lemma prepare_recovers_witness : exists T V a, holds cfg5 V a T /\
  exists x' a' sb' U', st_is (dev_view cfg5) x' U' (snd (its_flash_fs_prepare steady_ops (start None))) /\
    fs_inv cfg5 x' a' sb' U' (recovered cfg5 T).
Proof.
  destruct start_holds as (Hc & T & V & a & Hst & Hs & Hh & Hp). exists T, V, a. split; [exact Hh|].
  pose proof (prepare_recovers steady_ops cfg5 (dev_view cfg5) (FS := steady_spec cfg5 cfg5_wf) cfg5_wf
    (fst (start None)) V a T (start None) Hst Hc Hs Hh Hp) as H.
  destruct (wp_ok_state _ _ _ H) as [_ Hok]. exact Hok.
Defined.

Lemma wipe_all_formats_witness : exists x' V',
  st_is (dev_view cfg5) x' V' (snd (its_flash_fs_wipe_all steady_ops
    (blank_ctx, {| cells := fun _ => 7; countdown := None |}))) /\ holds cfg5 V' 1 table_empty.
Proof.
  pose proof (wipe_all_formats steady_ops cfg5 (dev_view cfg5) (FS := steady_spec cfg5 cfg5_wf) cfg5_wf
    blank_ctx _ (blank_ctx, {| cells := fun _ => 7; countdown := None |})
    (conj eq_refl (fun _ _ => eq_refl)) eq_refl) as H.
  destruct (wp_ok_state _ _ _ H) as (u & x' & V' & H1 & _ & _ & H2).
  exists x', V'. split; [exact H1|exact H2].
Defined.

Lemma swap_count_order_witness :
  let h k := {| scratch_dblock := 1; fs_version := 1; active_swap_count := k; header_padding := 0 |} in
  its_mblock_latest_meta_block cfg5 (h 254) (h 0) = ITS_METADATA_BLOCK1.
Proof.
  intros h. destruct (swap_count_order cfg5 (h 254) (h 0) cfg5_wf) as [H _]; [done..|]. by apply H.
Defined.

Lemma metadata_roundtrip_witness : exists h b m, hdr_words h /\ bm_words b /\ fm_words m /\
  bytes_header (header_bytes h) = h /\ bytes_block_meta (block_meta_bytes b) = b /\
  bytes_file_meta (file_meta_bytes m) = m.
Proof.
  set (h := {| scratch_dblock := 7; fs_version := 1; active_swap_count := 254; header_padding := 0 |}).
  set (b := {| phy_id := 3; data_start := 68; free_size := 444 |}).
  set (m := {| lblock := 0; data_idx := 68; cur_size := 3; max_size := 64; flags := 1;
               id := demo_id |}).
  assert (Hh : hdr_words h) by by split. assert (Hb : bm_words b) by by split.
  assert (Hm : fm_words m) by by repeat split.
  exists h, b, m. split; [done|]. split; [done|]. split; [done|]. by apply metadata_roundtrip.
Defined.

Lemma validate_config_bounds_witness : cfg_words cfg5 /\
  foff cfg5 4 + ITS_FILE_METADATA_SIZE <= block_size cfg5.
Proof.
  assert (Hw : cfg_words cfg5) by by split. split; [done|].
  by apply (proj2 (proj2 (proj2 (proj2 (proj2 (validate_config_bounds cfg5 Hw eq_refl)))))).
Defined.

(** Two unformatted devices. *)
Definition cfg_ps : its_flash_fs_config_t :=
  {| flash_area_addr := 0; sector_size := 64; block_size := 512; num_blocks := 5;
     program_unit := 4; max_file_size := 128; max_num_files := 4; erase_val := 255 |}.

Lemma cfg_ps_wf : wf_cfg cfg_ps.
Proof. by split; vm_compute. Qed.

Definition unformatted : its_flash_fs_ctx_t * dev := (blank_ctx, {| cells := fun _ => 7; countdown := None |}).

Lemma unformatted_boots c : c = cfg5 \/ c = cfg_ps -> boots c (dev_view c) true (snd unformatted) table_empty.
Proof. intros [->| ->]; right; (split; [vm_compute; reflexivity|done]). Qed.

Local Abbreviation boot_state :=
  ({| fs_ctx_its := unformatted; fs_ctx_ps := unformatted; asset_data := repeat 0 64;
      p_data_length := 0; req_mngr := tt |} : its_state dev unit).

Lemma init_mounts_witness : exists Ti Tp,
  fs_mounted cfg5 (dev_view cfg5) (fs_ctx_its (snd (tfm_its_init platform5 steady_ops steady_ops boot_state))) Ti /\
  fs_mounted cfg_ps (dev_view cfg_ps)
    (fs_ctx_ps (snd (tfm_its_init platform5 steady_ops steady_ops boot_state))) Tp.
Proof.
  pose proof (init_mounts platform5 steady_ops steady_ops cfg5 cfg_ps (dev_view cfg5) (dev_view cfg_ps)
    (FI := steady_spec cfg5 cfg5_wf) (FP := steady_spec cfg_ps cfg_ps_wf) boot_state table_empty table_empty
    ltac:(by split) ltac:(by intros H) ltac:(by split) ltac:(by intros H) eq_refl eq_refl eq_refl
    (unformatted_boots cfg5 (or_introl eq_refl)) (unformatted_boots cfg_ps (or_intror eq_refl))) as H.
  destruct (wp_ok_state _ _ _ H) as (_ & Ti & Tp & Hi & _ & Hp & _).
  exists Ti, Tp. split; [exact Hi|exact Hp].
Defined.

(** Twenty bytes copied into an erased block, through a buffer of sixteen. *)
Definition two_blocks : its_flash_fs_ctx_t * dev :=
  (blank_ctx, {| cells := fun k => if k <? 512 then 255 else k mod 251; countdown := None |}).

Lemma block_move_is_copy_witness :
  st_is (dev_view cfg5) (fst two_blocks)
    (blk_copy (dev_view cfg5 (snd two_blocks)) 0 100 1 3 20)
    (snd (its_flash_fs_block_to_block_move steady_ops 0 100 1 3 20 two_blocks)).
Proof.
  assert (He : erased cfg5 (dev_view cfg5 (snd two_blocks)) 0 100 20).
  { intros i Hi. change (num_blocks cfg5) with 5 in *. unfold dev_view.
    rewrite area_in by (change (num_blocks cfg5) with 5; change (block_size cfg5) with 512; lia).
    unfold two_blocks. cbn [snd cells]. change (flash_area_addr cfg5) with 0. rewrite Z.mul_0_l.
    destruct (Z.ltb_spec (0 + 0 + i) 512); [done|lia]. }
  pose proof (block_move_is_copy steady_ops cfg5 (dev_view cfg5) False (FS := steady_spec cfg5 cfg5_wf)
    cfg5_wf (fst two_blocks) (dev_view cfg5 (snd two_blocks)) two_blocks 0 100 1 3 20
    (conj eq_refl (fun _ _ => eq_refl)) eq_refl ltac:(lia) ltac:(unfold in_block; cbn; lia)
    ltac:(unfold in_block; cbn; lia) He) as H.
  destruct (wp_ok_state _ _ _ (wp_mono _ _ _ _ _ (fun _ _ => False) H (fun _ _ Hs => Hs)
    (fun _ _ Hf => proj1 Hf))) as [_ Hok]. exact Hok.
Defined.

(** A driver whose memory is the state. *)
Definition mem_driver : ARM_DRIVER_FLASH mem := {|
  Initialize := fun w => (ARM_DRIVER_OK, w);
  ReadData := fun addr size w => (ARM_DRIVER_OK, mread w addr size, w);
  ProgramData := fun addr data size w => (ARM_DRIVER_OK, mwrite w addr data size);
  EraseSector := fun addr w => (ARM_DRIVER_OK, mfill w addr 255 64)
|}.

Lemma mem_driver_spec : DriverSpec cfg5 mem_driver (fun w => w) False.
Proof. split; cbn; intros; repeat split; done. Qed.

Lemma nor_and_ram_meet_contract_witness :
  FlashSpec cfg5 (Nor.its_flash_fs_ops_nor mem_driver) (area_view cfg5 0) False.
Proof.
  destruct (nor_and_ram_meet_contract mem_driver cfg5 (fun w => w) False mem_driver_spec cfg5_wf)
    as [H _]; [by vm_compute..|]. exact H.
Defined.
