(* ===== verification/PsBase.v ===== *)
(** * Protected Storage: the services it runs on

    secure_fw/partitions/protected_storage calls four services: the ITS
    partition (psa_its_set, psa_its_get, psa_its_remove), the non-volatile
    counters of the platform, the crypto partition and, for the asset data,
    the message of the client.  The first three are an interface [PsDev] over
    a type of devices; [PsDevSpec] states what they promise, including what a
    power failure leaves behind. *)

From Stdlib Require Import ZArith List Lia Bool.
From stdpp Require Import base tactics gmap list.
From S2P Require Import Prelude Its.
Import ListNotations.
Local Open Scope Z_scope.

(** ** What survives a power failure: files and counters *)
Record nv_counters := { nv1 : Z; nv2 : Z; nv3 : Z }.

(** tfm_plat_nv_counters.h *)
Definition TFM_PS_NV_COUNTER_1 : Z := 0.
Definition TFM_PS_NV_COUNTER_2 : Z := 1.
Definition TFM_PS_NV_COUNTER_3 : Z := 2.

Definition nv_get (i : Z) (n : nv_counters) : Z :=
  if i =? TFM_PS_NV_COUNTER_1 then nv1 n
  else if i =? TFM_PS_NV_COUNTER_2 then nv2 n else nv3 n.
Definition nv_inc (i : Z) (n : nv_counters) : nv_counters :=
  if i =? TFM_PS_NV_COUNTER_1 then {| nv1 := nv1 n + 1; nv2 := nv2 n; nv3 := nv3 n |}
  else if i =? TFM_PS_NV_COUNTER_2 then {| nv1 := nv1 n; nv2 := nv2 n + 1; nv3 := nv3 n |}
  else {| nv1 := nv1 n; nv2 := nv2 n; nv3 := nv3 n + 1 |}.

Record pstore := { p_files : gmap Z (list Z); p_nv : nv_counters }.

Definition put_file (fid : Z) (l : list Z) (p : pstore) : pstore :=
  {| p_files := <[fid := l]> (p_files p); p_nv := p_nv p |}.
Definition drop_file (fid : Z) (p : pstore) : pstore :=
  {| p_files := delete fid (p_files p); p_nv := p_nv p |}.
Definition bump (i : Z) (p : pstore) : pstore :=
  {| p_files := p_files p; p_nv := nv_inc i (p_nv p) |}.

(** A list of bytes. *)
Definition bytes (l : list Z) : Prop := Forall (fun b => 0 <= b < 256) l.

(** ** The operations *)
Class PsDev (dev : Type) := {
  psa_its_set : Z -> list Z -> Z -> M dev unit;
  psa_its_get : Z -> Z -> Z -> M dev (list Z);
  psa_its_remove : Z -> M dev unit;
  tfm_platform_nv_counter_read : Z -> M dev Z;
  tfm_platform_nv_counter_increment : Z -> M dev unit;
  psa_key_derivation_setup : Z -> M dev Z;
  psa_key_derivation_input_bytes : Z -> list Z -> M dev unit;
  psa_key_derivation_output_key : Z -> M dev Z;
  psa_key_derivation_abort : Z -> M dev unit;
  psa_destroy_key : Z -> M dev unit;
  psa_aead_encrypt : Z -> list Z -> list Z -> list Z -> Z -> M dev (list Z);
  psa_aead_decrypt : Z -> list Z -> list Z -> list Z -> Z -> M dev (list Z)
}.

(** ** What the services promise

    A device is viewed through the files and counters a restart finds, whether
    it still has power, and the keys that hold the storage key.  [aead iv aad
    plaintext] is the cipher text followed by the tag under the storage key,
    which is derived from the unique key of the hardware.  [its_buf] is the
    size of the transfer buffer of ITS: a longer file may be cut short by a
    power failure. *)
Record dev_view (dev : Type) := {
  persist : dev -> pstore;
  up : dev -> Prop;
  holds_key : dev -> Z -> Prop;
  aead : list Z -> list Z -> list Z -> list Z;
  its_buf : Z
}.
Arguments persist {dev}. Arguments up {dev}. Arguments holds_key {dev}.
Arguments aead {dev}. Arguments its_buf {dev}.

Definition PS_KEY_LEN_BYTES : Z := 16.
Definition PS_TAG_LEN_BYTES : Z := 16.
Definition PS_IV_LEN_BYTES : Z := 12.

(** Facts about what devices do, used by the proofs of all layers. *)
Create HintDb ps.

Section Promise.
Context {dev : Type} (V : dev_view dev).

(** Nothing that lasts has changed, and power does not come back. *)
Definition same (d d' : dev) : Prop :=
  persist V d' = persist V d /\ (up V d' -> up V d).
(** The same, and the keys are still there. *)
Definition quiet (d d' : dev) : Prop :=
  same d d' /\ forall k, holds_key V d k -> holds_key V d' k.
(** The call failed: nothing changed, or the power went in the middle and
    the change [p'] may have been made. *)
Definition failed (mf : Prop) (d d' : dev) (P : pstore -> Prop) : Prop :=
  same d d' \/ (mf /\ up V d /\ ~ up V d' /\ P (persist V d')).
(** The call was carried out. *)
Definition became (d d' : dev) (p' : pstore) : Prop :=
  up V d /\ up V d' /\ persist V d' = p'.

(** [mf]: the services may fail. *)
Class PsDevSpec (E : PsDev dev) (mf : Prop) := {
  its_set_spec fid l fl d :
    wp (psa_its_set fid l fl) d
      (fun _ d' => became d d' (put_file fid l (persist V d)))
      (fun e d' => e <> PSA_SUCCESS /\
         failed mf d d' (fun p' => exists k, 0 <= k <= Z.of_nat (length l) /\
           (Z.of_nat (length l) <= its_buf V -> k = Z.of_nat (length l)) /\
           p' = put_file fid (firstn (Z.to_nat k) l) (persist V d)));
  its_get_spec fid off n d :
    wp (psa_its_get fid off n) d
      (fun l d' => quiet d d' /\ exists f, p_files (persist V d) !! fid = Some f /\
         0 <= off <= Z.of_nat (length f) /\ l = firstn (Z.to_nat n) (skipn (Z.to_nat off) f))
      (fun e d' => e <> PSA_SUCCESS /\ quiet d d' /\
         (mf \/ p_files (persist V d) !! fid = None \/
          exists f, p_files (persist V d) !! fid = Some f /\ ~ 0 <= off <= Z.of_nat (length f)));
  its_remove_spec fid d :
    wp (psa_its_remove fid) d
      (fun _ d' => became d d' (drop_file fid (persist V d)))
      (fun e d' => e <> PSA_SUCCESS /\
         (mf \/ (p_files (persist V d) !! fid = None /\ e = PSA_ERROR_DOES_NOT_EXIST)) /\
         failed mf d d' (fun p' => p' = drop_file fid (persist V d)));
  nv_read_spec i d : (i = 0 \/ i = 1 \/ i = 2) ->
    wp (tfm_platform_nv_counter_read i) d
      (fun v d' => quiet d d' /\ up V d /\ up V d' /\ v = nv_get i (p_nv (persist V d)))
      (fun _ d' => mf /\ quiet d d' /\ ~ up V d');
  nv_inc_spec i d : (i = 0 \/ i = 1 \/ i = 2) ->
    wp (tfm_platform_nv_counter_increment i) d
      (fun _ d' => became d d' (bump i (persist V d)) /\ nv_get i (p_nv (persist V d)) < UINT32_MAX)
      (fun _ d' => (mf /\ ~ up V d' /\ failed mf d d' (fun p' =>
                     nv_get i (p_nv (persist V d)) < UINT32_MAX /\ p' = bump i (persist V d))) \/
                   (same d d' /\ UINT32_MAX <= nv_get i (p_nv (persist V d))));
  kd_setup_spec alg d :
    wp (psa_key_derivation_setup alg) d (fun _ d' => quiet d d')
      (fun e d' => e <> PSA_SUCCESS /\ mf /\ quiet d d');
  kd_input_spec op l d :
    wp (psa_key_derivation_input_bytes op l) d (fun _ d' => quiet d d')
      (fun e d' => e <> PSA_SUCCESS /\ mf /\ quiet d d');
  kd_output_spec op d :
    wp (psa_key_derivation_output_key op) d (fun k d' => quiet d d' /\ holds_key V d' k)
      (fun e d' => e <> PSA_SUCCESS /\ mf /\ quiet d d');
  kd_abort_spec op d :
    wp (psa_key_derivation_abort op) d (fun _ d' => quiet d d')
      (fun e d' => e <> PSA_SUCCESS /\ mf /\ quiet d d');
  destroy_spec k d : holds_key V d k ->
    wp (psa_destroy_key k) d (fun _ d' => same d d')
      (fun e d' => e <> PSA_SUCCESS /\ mf /\ same d d');
  encrypt_spec k iv aad pt out_size d : holds_key V d k ->
    wp (psa_aead_encrypt k iv aad pt out_size) d
      (fun c d' => quiet d d' /\ c = aead V iv aad pt /\ Z.of_nat (length c) <= out_size)
      (fun e d' => e <> PSA_SUCCESS /\
         (mf \/ out_size < Z.of_nat (length (aead V iv aad pt))) /\ quiet d d');
  decrypt_spec k iv aad c out_size d : holds_key V d k ->
    wp (psa_aead_decrypt k iv aad c out_size) d
      (fun pt d' => quiet d d' /\ bytes pt /\ c = aead V iv aad pt /\
         Z.of_nat (length pt) <= out_size)
      (fun e d' => e <> PSA_SUCCESS /\ quiet d d' /\
         (mf \/ forall pt, bytes pt -> c = aead V iv aad pt -> out_size < Z.of_nat (length pt)));
  aead_length iv aad pt :
    Z.of_nat (length (aead V iv aad pt)) = Z.of_nat (length pt) + PS_TAG_LEN_BYTES;
  aead_bytes iv aad pt : bytes (aead V iv aad pt);
  aead_inj iv aad pt pt' : bytes pt -> bytes pt' -> aead V iv aad pt = aead V iv aad pt' -> pt = pt';
  (** the tag of a table depends on the counter that ends the associated data *)
  aead_counter iv aad v v' : 0 <= v < 2 ^ 32 -> 0 <= v' < 2 ^ 32 ->
    aead V iv (aad ++ le_bytes 4 v) [] = aead V iv (aad ++ le_bytes 4 v') [] -> v = v'
}.

(** ** The relations compose *)
Lemma same_refl d : same d d.
Proof. by split. Qed.
Lemma same_trans d1 d2 d3 : same d1 d2 -> same d2 d3 -> same d1 d3.
Proof. intros [H1 H2] [H3 H4]. split; [congruence|auto]. Qed.
Lemma quiet_refl d : quiet d d.
Proof. split; [apply same_refl|auto]. Qed.
Lemma quiet_trans d1 d2 d3 : quiet d1 d2 -> quiet d2 d3 -> quiet d1 d3.
Proof. intros [H1 H2] [H3 H4]. split; [by eapply same_trans|auto]. Qed.
Lemma quiet_same d d' : quiet d d' -> same d d'.
Proof. by intros []. Qed.
Lemma same_down d d' : same d d' -> ~ up V d -> ~ up V d'.
Proof. intros [_ H] ?. auto. Qed.
End Promise.

#[export] Hint Resolve same_refl quiet_refl quiet_same same_down : ps.
