(* ===== verification/PsState.v ===== *)
(** * Protected Storage: data

    The structures of ps_object_defs.h, ps_object_table.c and
    ps_crypto_interface.h as records, with the bytes they are in memory, and
    the static variables of the partition, for builds with PS_ENCRYPTION and
    PS_ROLLBACK_PROTECTION (the default). *)

From Stdlib Require Import ZArith List Lia Bool.
From stdpp Require Import base tactics gmap list.
From S2P Require Import Prelude Its PsBase.
Import ListNotations.
Local Open Scope Z_scope.

(** ** Build options *)
Record ps_config := {
  PS_MAX_OBJECT_DATA_SIZE : Z;
  PS_CREATE_FLASH_LAYOUT : bool;
  TFM_ENABLE_PS_OEM_UID : bool;
  PS_CRYPTO_ALG : Z
}.

Definition PS_INVALID_FID : Z := 0.
Definition TFM_PS_INVALID_UID : Z := 0.
Definition PS_OBJECT_SYSTEM_VERSION : Z := 1.
Definition PS_UTILS_MIN (x y : Z) : Z := if x <? y then x else y.

(** ** Buffers

    [memcpy(buf + off, l, length l)] inside the buffer, [memset] to 0, and a
    32-bit signed field. *)
Definition overlay (off : Z) (l buf : list Z) : list Z :=
  firstn (Z.to_nat off) buf ++ l ++ skipn (Z.to_nat off + length l) buf.
Definition zeros (n : Z) : list Z := repeat 0 (Z.to_nat n).
Definition take_at (off n : nat) (l : list Z) : list Z := firstn n (skipn off l).
Definition i32 (x : Z) : Z := (x + 2 ^ 31) mod 2 ^ 32 - 2 ^ 31.

(** ** The object table

    The members [*_pad] are the padding the compiler puts in: the table is
    authenticated and stored as raw memory. *)
Record ps_crypto_t := { tag : list Z; iv : list Z }.

Record ps_obj_table_entry_t := {
  entry_tag : list Z;
  entry_uid : Z;
  entry_client_id : Z;
  entry_pad : list Z
}.

Record ps_obj_table_t := {
  hdr_crypto : ps_crypto_t;
  hdr_version : Z;
  hdr_pad : list Z;
  obj_db : list ps_obj_table_entry_t
}.

Definition crypto_bytes (c : ps_crypto_t) : list Z := tag c ++ iv c.
Definition bytes_crypto (l : list Z) : ps_crypto_t :=
  {| tag := take_at 0 16 l; iv := take_at 16 12 l |}.

Definition entry_bytes (e : ps_obj_table_entry_t) : list Z :=
  entry_tag e ++ le_bytes 8 (entry_uid e) ++ le_bytes 4 (entry_client_id e) ++ entry_pad e.
Definition bytes_entry (l : list Z) : ps_obj_table_entry_t :=
  {| entry_tag := take_at 0 16 l; entry_uid := le_val (take_at 16 8 l);
     entry_client_id := i32 (le_val (take_at 24 4 l)); entry_pad := take_at 28 4 l |}.

Definition sizeof_ps_crypto_t : Z := 28.
Definition PS_OBJ_TABLE_HDR_SIZE : Z := 29.
Definition PS_OBJECTS_TABLE_ENTRY_SIZE : Z := 32.

(** What the tag of the table covers: the table after the crypto metadata. *)
Definition table_auth_data (t : ps_obj_table_t) : list Z :=
  le_bytes 1 (hdr_version t) ++ hdr_pad t ++ concat (map entry_bytes (obj_db t)).
Definition table_bytes (t : ps_obj_table_t) : list Z :=
  crypto_bytes (hdr_crypto t) ++ table_auth_data t.

Fixpoint bytes_entries (n : nat) (l : list Z) : list ps_obj_table_entry_t :=
  match n with
  | O => []
  | S n' => bytes_entry (firstn 32 l) :: bytes_entries n' (skipn 32 l)
  end.
Definition bytes_table (n : nat) (l : list Z) : ps_obj_table_t :=
  {| hdr_crypto := bytes_crypto (take_at 0 28 l); hdr_version := le_val (take_at 28 1 l);
     hdr_pad := take_at 29 3 l; obj_db := bytes_entries n (skipn 32 l) |}.

Section Sizes.
Context (c : ps_config).
Definition PS_OBJ_TABLE_ENTRIES : Z :=
  (PS_MAX_OBJECT_DATA_SIZE c - PS_OBJ_TABLE_HDR_SIZE) / PS_OBJECTS_TABLE_ENTRY_SIZE.
Definition PS_OBJ_TABLE_SIZE : Z := 32 + PS_OBJECTS_TABLE_ENTRY_SIZE * PS_OBJ_TABLE_ENTRIES.
End Sizes.

(** File ids of the two tables and of the objects. *)
Definition PS_OBJ_TABLE_IDX_0 : Z := 0.
Definition PS_OBJ_TABLE_IDX_1 : Z := 1.
Definition PS_TABLE_FS_ID (idx : Z) : Z := idx + 1.
Definition PS_OBJECT_FS_ID (idx : Z) : Z := u32 ((idx + 1) + PS_TABLE_FS_ID PS_OBJ_TABLE_IDX_1).
Definition PS_OBJECT_FS_ID_TO_IDX (fid : Z) : Z :=
  u32 ((fid - 1) - PS_TABLE_FS_ID PS_OBJ_TABLE_IDX_1).

(** ** Objects *)
Record ps_object_info_t := {
  current_size : Z;
  max_size_ : Z;
  create_flags : Z
}.

Record ps_object_t := {
  header_crypto : ps_crypto_t;
  header_info : ps_object_info_t;
  data : list Z
}.

Definition sizeof_ps_object_info_t : Z := 12.
Definition PS_OBJECT_HEADER_SIZE : Z := 40.

(** The object from [header.info] on, as memory. *)
Definition info_bytes (i : ps_object_info_t) : list Z :=
  le_bytes 4 (current_size i) ++ le_bytes 4 (max_size_ i) ++ le_bytes 4 (create_flags i).
Definition bytes_info (l : list Z) : ps_object_info_t :=
  {| current_size := le_val (take_at 0 4 l); max_size_ := le_val (take_at 4 4 l);
     create_flags := le_val (take_at 8 4 l) |}.
Definition object_payload (o : ps_object_t) : list Z := info_bytes (header_info o) ++ data o.
Definition set_payload (l : list Z) (o : ps_object_t) : ps_object_t :=
  {| header_crypto := header_crypto o; header_info := bytes_info (firstn 12 l);
     data := skipn 12 l |}.
Definition set_header_crypto (x : ps_crypto_t) (o : ps_object_t) : ps_object_t :=
  {| header_crypto := x; header_info := header_info o; data := data o |}.
Definition set_header_info (i : ps_object_info_t) (o : ps_object_t) : ps_object_t :=
  {| header_crypto := header_crypto o; header_info := i; data := data o |}.
Definition set_object_data (l : list Z) (o : ps_object_t) : ps_object_t :=
  {| header_crypto := header_crypto o; header_info := header_info o; data := l |}.
Definition set_tag (l : list Z) (x : ps_crypto_t) : ps_crypto_t := {| tag := l; iv := iv x |}.
Definition set_iv (l : list Z) (x : ps_crypto_t) : ps_crypto_t := {| tag := tag x; iv := l |}.

Section Empty.
Context (c : ps_config).
Definition zero_crypto : ps_crypto_t := {| tag := zeros 16; iv := zeros 12 |}.
Definition zero_entry : ps_obj_table_entry_t :=
  {| entry_tag := zeros 16; entry_uid := 0; entry_client_id := 0; entry_pad := zeros 4 |}.
Definition zero_table : ps_obj_table_t :=
  {| hdr_crypto := zero_crypto; hdr_version := 0; hdr_pad := zeros 3;
     obj_db := repeat zero_entry (Z.to_nat (PS_OBJ_TABLE_ENTRIES c)) |}.
Definition zero_object : ps_object_t :=
  {| header_crypto := zero_crypto;
     header_info := {| current_size := 0; max_size_ := 0; create_flags := 0 |};
     data := zeros (PS_MAX_OBJECT_DATA_SIZE c) |}.

(** ps_encrypted_object.c *)
Definition PS_ENCRYPT_SIZE (plaintext_size : Z) : Z :=
  u32 (plaintext_size + PS_OBJECT_HEADER_SIZE - sizeof_ps_crypto_t).
Definition PS_MAX_ENCRYPTED_OBJ_SIZE : Z := PS_ENCRYPT_SIZE (PS_MAX_OBJECT_DATA_SIZE c).
Definition PS_TAG_IV_LEN_MAX : Z :=
  if PS_TAG_LEN_BYTES >? PS_IV_LEN_BYTES then PS_TAG_LEN_BYTES else PS_IV_LEN_BYTES.
Definition PS_CRYPTO_BUF_LEN : Z := PS_MAX_ENCRYPTED_OBJ_SIZE + PS_TAG_IV_LEN_MAX.
End Empty.

(** ** The message of the client: the input vectors and their sizes, the room
    in the output vectors, and what was written to them *)
Record ps_msg := {
  msg_type : Z;
  msg_client_id : Z;
  msg_in : list (list Z);
  msg_in_size : list Z;
  msg_out_size : list Z;
  msg_out : list (list Z)
}.

(** ** The static variables of the partition

    [ps_obj_table_ctx] is [obj_table], [active_table], [scratch_table];
    [g_obj_tbl_info] is [info_fid] and a pointer to the tag of [g_ps_object].
    [overrun] records that a copy left its buffer. *)
Record ps_state (dev : Type) := {
  obj_table : ps_obj_table_t;
  active_table : Z;
  scratch_table : Z;
  g_ps_object : ps_object_t;
  info_fid : Z;
  ps_crypto_buf : list Z;
  ps_key : Z;
  ps_crypto_iv_buf : list Z;
  overrun : bool;
  the_msg : ps_msg;
  the_dev : dev
}.
Arguments obj_table {dev}. Arguments active_table {dev}. Arguments scratch_table {dev}.
Arguments g_ps_object {dev}. Arguments info_fid {dev}. Arguments ps_crypto_buf {dev}.
Arguments ps_key {dev}. Arguments ps_crypto_iv_buf {dev}. Arguments overrun {dev}.
Arguments the_msg {dev}. Arguments the_dev {dev}.

Section Updates.
Context {dev : Type}.
Local Abbreviation st := (ps_state dev).
Implicit Types s : st.

Definition set_table (t : ps_obj_table_t) s : st :=
  {| obj_table := t; active_table := active_table s; scratch_table := scratch_table s;
     g_ps_object := g_ps_object s; info_fid := info_fid s; ps_crypto_buf := ps_crypto_buf s;
     ps_key := ps_key s; ps_crypto_iv_buf := ps_crypto_iv_buf s; overrun := overrun s;
     the_msg := the_msg s; the_dev := the_dev s |}.
Definition set_tables (a b : Z) s : st :=
  {| obj_table := obj_table s; active_table := a; scratch_table := b;
     g_ps_object := g_ps_object s; info_fid := info_fid s; ps_crypto_buf := ps_crypto_buf s;
     ps_key := ps_key s; ps_crypto_iv_buf := ps_crypto_iv_buf s; overrun := overrun s;
     the_msg := the_msg s; the_dev := the_dev s |}.
Definition set_object (o : ps_object_t) s : st :=
  {| obj_table := obj_table s; active_table := active_table s; scratch_table := scratch_table s;
     g_ps_object := o; info_fid := info_fid s; ps_crypto_buf := ps_crypto_buf s;
     ps_key := ps_key s; ps_crypto_iv_buf := ps_crypto_iv_buf s; overrun := overrun s;
     the_msg := the_msg s; the_dev := the_dev s |}.
Definition set_fid (f : Z) s : st :=
  {| obj_table := obj_table s; active_table := active_table s; scratch_table := scratch_table s;
     g_ps_object := g_ps_object s; info_fid := f; ps_crypto_buf := ps_crypto_buf s;
     ps_key := ps_key s; ps_crypto_iv_buf := ps_crypto_iv_buf s; overrun := overrun s;
     the_msg := the_msg s; the_dev := the_dev s |}.
Definition set_buf (l : list Z) s : st :=
  {| obj_table := obj_table s; active_table := active_table s; scratch_table := scratch_table s;
     g_ps_object := g_ps_object s; info_fid := info_fid s; ps_crypto_buf := l;
     ps_key := ps_key s; ps_crypto_iv_buf := ps_crypto_iv_buf s; overrun := overrun s;
     the_msg := the_msg s; the_dev := the_dev s |}.
Definition set_key (k : Z) s : st :=
  {| obj_table := obj_table s; active_table := active_table s; scratch_table := scratch_table s;
     g_ps_object := g_ps_object s; info_fid := info_fid s; ps_crypto_buf := ps_crypto_buf s;
     ps_key := k; ps_crypto_iv_buf := ps_crypto_iv_buf s; overrun := overrun s;
     the_msg := the_msg s; the_dev := the_dev s |}.
Definition set_iv_buf (l : list Z) s : st :=
  {| obj_table := obj_table s; active_table := active_table s; scratch_table := scratch_table s;
     g_ps_object := g_ps_object s; info_fid := info_fid s; ps_crypto_buf := ps_crypto_buf s;
     ps_key := ps_key s; ps_crypto_iv_buf := l; overrun := overrun s;
     the_msg := the_msg s; the_dev := the_dev s |}.
Definition set_overrun (b : bool) s : st :=
  {| obj_table := obj_table s; active_table := active_table s; scratch_table := scratch_table s;
     g_ps_object := g_ps_object s; info_fid := info_fid s; ps_crypto_buf := ps_crypto_buf s;
     ps_key := ps_key s; ps_crypto_iv_buf := ps_crypto_iv_buf s; overrun := b;
     the_msg := the_msg s; the_dev := the_dev s |}.
Definition set_msg (m : ps_msg) s : st :=
  {| obj_table := obj_table s; active_table := active_table s; scratch_table := scratch_table s;
     g_ps_object := g_ps_object s; info_fid := info_fid s; ps_crypto_buf := ps_crypto_buf s;
     ps_key := ps_key s; ps_crypto_iv_buf := ps_crypto_iv_buf s; overrun := overrun s;
     the_msg := m; the_dev := the_dev s |}.
Definition set_dev (d : dev) s : st :=
  {| obj_table := obj_table s; active_table := active_table s; scratch_table := scratch_table s;
     g_ps_object := g_ps_object s; info_fid := info_fid s; ps_crypto_buf := ps_crypto_buf s;
     ps_key := ps_key s; ps_crypto_iv_buf := ps_crypto_iv_buf s; overrun := overrun s;
     the_msg := the_msg s; the_dev := d |}.

(** A call of another service. *)
Definition on_dev {A} (m : M dev A) : M st A := fun s =>
  let '(r, d) := m (the_dev s) in (r, set_dev d s).

(** [memcpy] of [n] bytes must stay inside a buffer of [room] bytes. *)
Definition check_copy (n room : Z) : M st unit :=
  modify (fun s => if n <=? room then s else set_overrun true s).

Lemma wp_on_dev {A} (m : M dev A) s (Q : A -> st -> Prop) (E : psa_status_t -> st -> Prop) :
  wp m (the_dev s) (fun a d => Q a (set_dev d s)) (fun e d => E e (set_dev d s)) ->
  wp (on_dev m) s Q E.
Proof. unfold wp, on_dev. by destruct (m (the_dev s)) as [[a|e] d]. Qed.

Lemma wp_check_copy n room s (Q : unit -> st -> Prop) E :
  n <= room -> Q tt s -> wp (check_copy n room) s Q E.
Proof. intros H HQ. unfold check_copy, modify, wp. by rewrite (proj2 (Z.leb_le _ _) H). Qed.
End Updates.

(** The partition right after the reset of the core. *)
Definition ps_boot {dev} (c : ps_config) (m : ps_msg) (d : dev) : ps_state dev :=
  {| obj_table := zero_table c; active_table := 0; scratch_table := 0;
     g_ps_object := zero_object c; info_fid := 0; ps_crypto_buf := zeros (PS_CRYPTO_BUF_LEN c);
     ps_key := 0; ps_crypto_iv_buf := zeros 12; overrun := false; the_msg := m; the_dev := d |}.
