(* ===== verification/PsCrypto.v ===== *)
(** * Protected Storage: crypto and counters

    crypto/ps_crypto_interface.c and nv_counters/ps_nv_counters.c.  A
    function that fills the tag or the IV of a crypto structure returns it;
    the caller stores it. *)

From Stdlib Require Import ZArith List Lia Bool.
From stdpp Require Import base tactics gmap list.
From S2P Require Import Prelude Its PsBase PsState.
Import ListNotations.
Local Open Scope Z_scope.

Definition TFM_CRYPTO_ALG_HUK_DERIVATION : Z := 2952793856. (* 0xB0000F00 *)
(** "storage_key" and the terminating zero *)
Definition ps_key_label : list Z := [115; 116; 111; 114; 97; 103; 101; 95; 107; 101; 121; 0].

Section Crypto.
Context {dev : Type} {E : PsDev dev}.
Local Abbreviation st := (ps_state dev).

(** ** Non-volatile counters *)
Definition ps_read_nv_counter (counter_id : Z) : M st Z :=
  on_dev (tfm_platform_nv_counter_read counter_id) or_return PSA_ERROR_GENERIC_ERROR.
Definition ps_increment_nv_counter (counter_id : Z) : M st unit :=
  on_dev (tfm_platform_nv_counter_increment counter_id) or_return PSA_ERROR_GENERIC_ERROR.

(** ** The storage key *)
Definition err_release_op {A} (op : Z) : M st A :=
  do! attempt (on_dev (psa_key_derivation_abort op)) in
  fail PSA_ERROR_GENERIC_ERROR.

Definition ps_crypto_setkey : M st unit :=
  let! op := on_dev (psa_key_derivation_setup TFM_CRYPTO_ALG_HUK_DERIVATION) in
  let! r := attempt (on_dev (psa_key_derivation_input_bytes op ps_key_label)) in
  match r with
  | Err _ => err_release_op op
  | Ok _ =>
      let! r := attempt (on_dev (psa_key_derivation_output_key op)) in
      match r with
      | Err _ => err_release_op op
      | Ok key =>
          do! modify (set_key key) in
          let! r := attempt (on_dev (psa_key_derivation_abort op)) in
          match r with
          | Err _ =>
              do! attempt (on_dev (psa_destroy_key key)) in
              err_release_op op
          | Ok _ => ret tt
          end
      end
  end.

Definition ps_crypto_destroykey : M st unit :=
  let! key := reads ps_key in
  on_dev (psa_destroy_key key) or_return PSA_ERROR_GENERIC_ERROR.

(** ** The IV: a 96-bit counter in a static buffer *)
Definition ps_crypto_set_iv (crypto : ps_crypto_t) : M st unit :=
  modify (set_iv_buf (iv crypto)).

Definition ps_crypto_get_iv : M st (list Z) :=
  let! buf := reads ps_crypto_iv_buf in
  let iv_l := le_val (take_at 0 8 buf) in
  let iv_h := le_val (take_at 8 4 buf) in
  let iv_l := (iv_l + 1) mod 2 ^ 64 in
  let store iv_h :=
    let buf := le_bytes 8 iv_l ++ le_bytes 4 iv_h in
    do! modify (set_iv_buf buf) in ret buf in
  if iv_l =? 0 then
    let iv_h := u32 (iv_h + 1) in
    if iv_h =? 0 then fail PSA_ERROR_GENERIC_ERROR else store iv_h
  else store iv_h.

(** ** Authenticated encryption *)
Definition ps_crypto_encrypt_and_tag (crypto : ps_crypto_t) (add in_ : list Z) (out_size : Z) :
    M st (list Z * list Z) :=
  let! key := reads ps_key in
  let! out := on_dev (psa_aead_encrypt key (iv crypto) add in_ out_size)
                or_return PSA_ERROR_GENERIC_ERROR in
  let out_len := Z.of_nat (length out) - PS_TAG_LEN_BYTES in
  ret (firstn (Z.to_nat out_len) out, skipn (Z.to_nat out_len) out).

Definition ps_crypto_auth_and_decrypt (crypto : ps_crypto_t) (add in_ : list Z) (out_size : Z) :
    M st (list Z) :=
  let! key := reads ps_key in
  on_dev (psa_aead_decrypt key (iv crypto) add (in_ ++ tag crypto) out_size)
    or_return PSA_ERROR_INVALID_SIGNATURE.

Definition ps_crypto_generate_auth_tag (crypto : ps_crypto_t) (add : list Z) : M st (list Z) :=
  let! key := reads ps_key in
  let! out := on_dev (psa_aead_encrypt key (iv crypto) add [] PS_TAG_LEN_BYTES)
                or_return PSA_ERROR_GENERIC_ERROR in
  if negb (Z.of_nat (length out) =? PS_TAG_LEN_BYTES) then fail PSA_ERROR_GENERIC_ERROR
  else ret out.

Definition ps_crypto_authenticate (crypto : ps_crypto_t) (add : list Z) : M st unit :=
  let! key := reads ps_key in
  let! out := on_dev (psa_aead_decrypt key (iv crypto) add (tag crypto) 0)
                or_return PSA_ERROR_INVALID_SIGNATURE in
  if negb (Z.of_nat (length out) =? 0) then fail PSA_ERROR_INVALID_SIGNATURE else ret tt.
End Crypto.
