(* ===== verification/PsTable.v ===== *)
(** * Protected Storage: the object table

    ps_object_table.c, built with PS_ENCRYPTION and PS_ROLLBACK_PROTECTION.
    The table in use is in [obj_table]; it is stored in one of two files in
    turn, authenticated together with the value of counter 1. *)

From Stdlib Require Import ZArith List Lia Bool.
From stdpp Require Import base tactics gmap list.
From S2P Require Import Prelude Its PsBase PsState PsCrypto.
Import ListNotations.
Local Open Scope Z_scope.

Inductive ps_obj_table_state :=
| PS_OBJ_TABLE_VALID
| PS_OBJ_TABLE_INVALID
| PS_OBJ_TABLE_NVC_1_VALID
| PS_OBJ_TABLE_NVC_3_VALID.

#[export] Instance ps_obj_table_state_eq_dec : EqDecision ps_obj_table_state.
Proof. solve_decision. Defined.

Definition PS_INVALID_NVC_VALUE : Z := 0.

(** [struct ps_obj_table_init_ctx_t]; the tables themselves are [obj_table]
    and, for table 1, the start of [g_ps_object.data]. *)
Record ps_obj_table_init_ctx_t := {
  table_state : ps_obj_table_state * ps_obj_table_state;
  nvc_1 : Z;
  nvc_3 : Z
}.

Section Table.
Context {dev : Type} {E : PsDev dev} (c : ps_config).
Local Abbreviation st := (ps_state dev).
Local Abbreviation entries := (Z.to_nat (PS_OBJ_TABLE_ENTRIES c)).

Definition p_table (idx : Z) (s : st) : ps_obj_table_t :=
  if idx =? PS_OBJ_TABLE_IDX_0 then obj_table s
  else bytes_table entries (firstn (Z.to_nat (PS_OBJ_TABLE_SIZE c)) (data (g_ps_object s))).

Definition get_table_state (idx : Z) (x : ps_obj_table_init_ctx_t) : ps_obj_table_state :=
  if idx =? PS_OBJ_TABLE_IDX_0 then fst (table_state x) else snd (table_state x).
Definition set_table_state (idx : Z) (v : ps_obj_table_state) (x : ps_obj_table_init_ctx_t) :
    ps_obj_table_init_ctx_t :=
  {| table_state := if idx =? PS_OBJ_TABLE_IDX_0 then (v, snd (table_state x))
                    else (fst (table_state x), v);
     nvc_1 := nvc_1 x; nvc_3 := nvc_3 x |}.
Definition set_nvcs (a b : Z) (x : ps_obj_table_init_ctx_t) : ps_obj_table_init_ctx_t :=
  {| table_state := table_state x; nvc_1 := a; nvc_3 := b |}.

(** ** Reading and writing the files *)
Definition load_table (idx : Z) (l : list Z) (s : st) : st :=
  if idx =? PS_OBJ_TABLE_IDX_0
  then set_table (bytes_table entries (overlay 0 l (table_bytes (obj_table s)))) s
  else set_object (set_object_data (overlay 0 l (data (g_ps_object s))) (g_ps_object s)) s.

Definition read_table_file (idx : Z) (init_ctx : ps_obj_table_init_ctx_t) :
    M st ps_obj_table_init_ctx_t :=
  let! r := attempt (on_dev (psa_its_get (PS_TABLE_FS_ID idx) 0 (PS_OBJ_TABLE_SIZE c))) in
  match r with
  | Ok l => do! modify (load_table idx l) in ret init_ctx
  | Err _ => ret (set_table_state idx PS_OBJ_TABLE_INVALID init_ctx)
  end.

Definition ps_object_table_fs_read_table (init_ctx : ps_obj_table_init_ctx_t) :
    M st ps_obj_table_init_ctx_t :=
  let! init_ctx := read_table_file PS_OBJ_TABLE_IDX_0 init_ctx in
  read_table_file PS_OBJ_TABLE_IDX_1 init_ctx.

Definition ps_object_table_fs_write_table : M st unit :=
  let! s := reads (fun s => s) in
  do! on_dev (psa_its_set (PS_TABLE_FS_ID (scratch_table s)) (table_bytes (obj_table s)) 0) in
  modify (set_tables (scratch_table s) (active_table s)).

(** ** Counters *)
Fixpoint align_loop (n : nat) (counter_id : Z) : M st unit :=
  match n with
  | O => ret tt
  | S n' => do! ps_increment_nv_counter counter_id in align_loop n' counter_id
  end.

Definition align_nv_counter (counter_id nvc_1 : Z) : M st unit :=
  let! nvc_x_val := ps_read_nv_counter counter_id or_return PSA_ERROR_GENERIC_ERROR in
  align_loop (Z.to_nat (nvc_1 - nvc_x_val)) counter_id.

Definition ps_object_table_align_nv_counters (nvc_1 : Z) : M st unit :=
  do! align_nv_counter TFM_PS_NV_COUNTER_2 nvc_1 in
  align_nv_counter TFM_PS_NV_COUNTER_3 nvc_1.

(** ** Authentication

    [struct ps_crypto_assoc_data_t]: the table data, then the counter. *)
Definition assoc_data (t : ps_obj_table_t) (nvc : Z) : list Z :=
  table_auth_data t ++ le_bytes 4 nvc.

Definition set_hdr_crypto (x : ps_crypto_t) (t : ps_obj_table_t) : ps_obj_table_t :=
  {| hdr_crypto := x; hdr_version := hdr_version t; hdr_pad := hdr_pad t; obj_db := obj_db t |}.
Definition set_obj_db (l : list ps_obj_table_entry_t) (t : ps_obj_table_t) : ps_obj_table_t :=
  {| hdr_crypto := hdr_crypto t; hdr_version := hdr_version t; hdr_pad := hdr_pad t; obj_db := l |}.
Definition upd_hdr_crypto (f : ps_crypto_t -> ps_crypto_t) (s : st) : st :=
  set_table (set_hdr_crypto (f (hdr_crypto (obj_table s))) (obj_table s)) s.

Definition ps_object_table_nvc_generate_auth_tag (nvc_1 : Z) : M st unit :=
  let! new_iv := ps_crypto_get_iv in
  do! modify (upd_hdr_crypto (set_iv new_iv)) in
  let! t := reads obj_table in
  let! new_tag := ps_crypto_generate_auth_tag (hdr_crypto t) (assoc_data t nvc_1) in
  modify (upd_hdr_crypto (set_tag new_tag)).

Definition ps_object_table_authenticate (table_idx : Z) (init_ctx : ps_obj_table_init_ctx_t) :
    M st ps_obj_table_init_ctx_t :=
  let! t := reads (p_table table_idx) in
  let! r := attempt (ps_crypto_authenticate (hdr_crypto t) (assoc_data t (nvc_1 init_ctx))) in
  match r with
  | Ok _ => ret (set_table_state table_idx PS_OBJ_TABLE_NVC_1_VALID init_ctx)
  | Err _ =>
      if nvc_3 init_ctx =? PS_INVALID_NVC_VALUE
      then ret (set_table_state table_idx PS_OBJ_TABLE_INVALID init_ctx)
      else
        let! r := attempt (ps_crypto_authenticate (hdr_crypto t) (assoc_data t (nvc_3 init_ctx))) in
        match r with
        | Err _ => ret (set_table_state table_idx PS_OBJ_TABLE_INVALID init_ctx)
        | Ok _ => ret (set_table_state table_idx PS_OBJ_TABLE_NVC_3_VALID init_ctx)
        end
  end.

Definition authenticate_if_valid (idx : Z) (init_ctx : ps_obj_table_init_ctx_t) :
    M st ps_obj_table_init_ctx_t :=
  if bool_decide (get_table_state idx init_ctx = PS_OBJ_TABLE_INVALID) then ret init_ctx
  else ps_object_table_authenticate idx init_ctx.

Definition ps_object_table_nvc_authenticate (init_ctx : ps_obj_table_init_ctx_t) :
    M st ps_obj_table_init_ctx_t :=
  let! v1 := ps_read_nv_counter TFM_PS_NV_COUNTER_1 in
  let! v2 := ps_read_nv_counter TFM_PS_NV_COUNTER_2 in
  let! v3 := ps_read_nv_counter TFM_PS_NV_COUNTER_3 in
  let v3 := if negb (v3 =? v2) then PS_INVALID_NVC_VALUE else v3 in
  let! init_ctx := authenticate_if_valid PS_OBJ_TABLE_IDX_0 (set_nvcs v1 v3 init_ctx) in
  authenticate_if_valid PS_OBJ_TABLE_IDX_1 init_ctx.

(** ** Saving the table *)
Definition ps_object_table_save_table : M st unit :=
  do! ps_increment_nv_counter TFM_PS_NV_COUNTER_1 in
  let! nvc_1 := ps_read_nv_counter TFM_PS_NV_COUNTER_1 in
  do! ps_crypto_setkey in
  let! r := attempt (ps_object_table_nvc_generate_auth_tag nvc_1) in
  match r with
  | Err err => do! attempt ps_crypto_destroykey in fail err
  | Ok _ =>
      do! ps_crypto_destroykey in
      do! ps_object_table_fs_write_table in
      ps_object_table_align_nv_counters nvc_1
  end.

(** ** Choosing the active table *)
Definition validate_version_of (idx : Z) (init_ctx : ps_obj_table_init_ctx_t) :
    M st ps_obj_table_init_ctx_t :=
  let! t := reads (p_table idx) in
  if negb (PS_OBJECT_SYSTEM_VERSION =? hdr_version t)
  then ret (set_table_state idx PS_OBJ_TABLE_INVALID init_ctx)
  else ret init_ctx.

Definition ps_object_table_validate_version (init_ctx : ps_obj_table_init_ctx_t) :
    M st ps_obj_table_init_ctx_t :=
  let! init_ctx := validate_version_of PS_OBJ_TABLE_IDX_0 init_ctx in
  validate_version_of PS_OBJ_TABLE_IDX_1 init_ctx.

(** The index of the active table, [None] when both are invalid. *)
Definition choose_table (s0 s1 : ps_obj_table_state) : option Z :=
  match s0, s1 with
  | PS_OBJ_TABLE_INVALID, PS_OBJ_TABLE_INVALID => None
  | PS_OBJ_TABLE_INVALID, _ => Some PS_OBJ_TABLE_IDX_1
  | _, PS_OBJ_TABLE_INVALID => Some PS_OBJ_TABLE_IDX_0
  | _, PS_OBJ_TABLE_NVC_1_VALID => Some PS_OBJ_TABLE_IDX_1
  | _, _ => Some PS_OBJ_TABLE_IDX_0
  end.

Definition ps_set_active_object_table (init_ctx : ps_obj_table_init_ctx_t) : M st unit :=
  match choose_table (fst (table_state init_ctx)) (snd (table_state init_ctx)) with
  | None => fail PSA_ERROR_GENERIC_ERROR
  | Some idx =>
      if idx =? PS_OBJ_TABLE_IDX_1 then
        do! modify (set_tables PS_OBJ_TABLE_IDX_1 PS_OBJ_TABLE_IDX_0) in
        let! t := reads (p_table PS_OBJ_TABLE_IDX_1) in
        modify (set_table t)
      else modify (set_tables PS_OBJ_TABLE_IDX_0 PS_OBJ_TABLE_IDX_1)
  end.

(** ** Entries *)
Fixpoint find_entry (uid client_id : Z) (l : list ps_obj_table_entry_t) (i : Z) : option Z :=
  match l with
  | [] => None
  | e :: l' =>
      if (entry_uid e =? uid) && (entry_client_id e =? client_id) then Some i
      else find_entry uid client_id l' (i + 1)
  end.

Definition ps_get_object_entry_idx (uid client_id : Z) : M st Z :=
  let! t := reads obj_table in
  match find_entry uid client_id (obj_db t) 0 with
  | Some idx => ret idx
  | None => fail PSA_ERROR_DOES_NOT_EXIST
  end.

(** The loop of ps_table_free_idx: what is left of [idx_num], [last_free]. *)
Fixpoint free_idx_loop (l : list ps_obj_table_entry_t) (i idx_num last_free : Z) : Z * Z :=
  match l with
  | [] => (idx_num, last_free)
  | e :: l' =>
      if idx_num >? 0 then
        if entry_uid e =? TFM_PS_INVALID_UID then free_idx_loop l' (i + 1) (idx_num - 1) i
        else free_idx_loop l' (i + 1) idx_num last_free
      else (idx_num, last_free)
  end.

Definition ps_table_free_idx (idx_num : Z) : M st Z :=
  let! t := reads obj_table in
  if idx_num =? 0 then fail PSA_ERROR_INVALID_ARGUMENT
  else
    let '(missing, last_free) := free_idx_loop (obj_db t) 0 idx_num 0 in
    if negb (missing =? 0) then fail PSA_ERROR_INSUFFICIENT_STORAGE else ret last_free.

Definition entry_at (idx : Z) (t : ps_obj_table_t) : ps_obj_table_entry_t :=
  nth (Z.to_nat idx) (obj_db t) zero_entry.
Definition put_entry (idx : Z) (e : ps_obj_table_entry_t) (s : st) : st :=
  set_table (set_obj_db (<[Z.to_nat idx := e]> (obj_db (obj_table s))) (obj_table s)) s.

Definition ps_table_delete_entry (idx : Z) : M st unit := modify (put_entry idx zero_entry).

(** ** The operations of the object table *)
Definition ps_object_table_create : M st unit :=
  do! modify (set_table (zero_table c)) in
  do! modify (set_tables PS_OBJ_TABLE_IDX_1 PS_OBJ_TABLE_IDX_0) in
  do! modify (fun s => set_table {| hdr_crypto := hdr_crypto (obj_table s);
    hdr_version := PS_OBJECT_SYSTEM_VERSION; hdr_pad := hdr_pad (obj_table s);
    obj_db := obj_db (obj_table s) |} s) in
  ps_object_table_save_table.

(** [psa_its_remove] of a file that need not exist. *)
Definition remove_if_any (fid : Z) : M st unit :=
  let! r := attempt (on_dev (psa_its_remove fid)) in
  match r with
  | Ok _ => ret tt
  | Err err => if err =? PSA_ERROR_DOES_NOT_EXIST then ret tt else fail err
  end.

Definition ps_object_table_init : M st unit :=
  let init_ctx := {| table_state := (PS_OBJ_TABLE_VALID, PS_OBJ_TABLE_VALID);
                     nvc_1 := 0; nvc_3 := 0 |} in
  let! init_ctx := ps_object_table_fs_read_table init_ctx in
  do! ps_crypto_setkey in
  let! r := attempt (ps_object_table_nvc_authenticate init_ctx) in
  match r with
  | Err err => do! attempt ps_crypto_destroykey in fail err
  | Ok init_ctx =>
      do! ps_crypto_destroykey in
      let! init_ctx := ps_object_table_validate_version init_ctx in
      do! ps_set_active_object_table init_ctx in
      let! scratch := reads scratch_table in
      do! remove_if_any (PS_TABLE_FS_ID scratch) in
      do! ps_object_table_align_nv_counters (nvc_1 init_ctx) in
      let! t := reads obj_table in
      ps_crypto_set_iv (hdr_crypto t)
  end.

Definition ps_object_table_obj_exist (uid client_id : Z) : M st unit :=
  do! ps_get_object_entry_idx uid client_id in ret tt.

Definition ps_object_table_get_free_fid (fid_num : Z) : M st Z :=
  let! idx := ps_table_free_idx fid_num in
  let fid := PS_OBJECT_FS_ID idx in
  do! remove_if_any fid in
  ret fid.

(** The new information is the file id and the tag of [g_ps_object]. *)
Definition ps_object_table_set_obj_tbl_info (uid client_id fid : Z) : M st unit :=
  let! r := attempt (ps_get_object_entry_idx uid client_id) in
  let! t := reads obj_table in
  let backup := match r with
                | Ok backup_idx => Some (backup_idx, entry_at backup_idx t)
                | Err _ => None
                end in
  do! match backup with
      | Some (backup_idx, _) => ps_table_delete_entry backup_idx
      | None => ret tt
      end in
  let idx := PS_OBJECT_FS_ID_TO_IDX fid in
  if idx >=? PS_OBJ_TABLE_ENTRIES c then fail PSA_ERROR_INVALID_ARGUMENT
  else
    do! modify (fun s => put_entry idx
          {| entry_tag := tag (header_crypto (g_ps_object s)); entry_uid := uid;
             entry_client_id := client_id;
             entry_pad := entry_pad (entry_at idx (obj_table s)) |} s) in
    let! r := attempt ps_object_table_save_table in
    match r with
    | Ok _ => ret tt
    | Err err =>
        do! match backup with
            | Some (backup_idx, backup_entry) =>
                if negb (entry_uid backup_entry =? TFM_PS_INVALID_UID)
                then modify (put_entry backup_idx backup_entry) else ret tt
            | None => ret tt
            end in
        do! ps_table_delete_entry idx in
        fail err
    end.

(** Fills in [g_obj_tbl_info], whose tag is that of [g_ps_object]. *)
Definition ps_object_table_get_obj_tbl_info (uid client_id : Z) : M st unit :=
  let! idx := ps_get_object_entry_idx uid client_id in
  do! modify (set_fid (PS_OBJECT_FS_ID idx)) in
  let! t := reads obj_table in
  modify (fun s => set_object (set_header_crypto
    (set_tag (entry_tag (entry_at idx t)) (header_crypto (g_ps_object s))) (g_ps_object s)) s).

Definition ps_object_table_delete_object (uid client_id : Z) : M st unit :=
  let! backup_idx := ps_get_object_entry_idx uid client_id in
  let! t := reads obj_table in
  let backup_entry := entry_at backup_idx t in
  do! ps_table_delete_entry backup_idx in
  let! r := attempt ps_object_table_save_table in
  match r with
  | Ok _ => ret tt
  | Err err => do! modify (put_entry backup_idx backup_entry) in fail err
  end.

Definition ps_object_table_delete_old_table : M st unit :=
  let! scratch := reads scratch_table in
  on_dev (psa_its_remove (PS_TABLE_FS_ID scratch)).
End Table.
