(* ===== verification/PsObject.v ===== *)
(** * Protected Storage: objects

    ps_encrypted_object.c and ps_object_system.c, built with PS_ENCRYPTION,
    and the asset data functions of tfm_ps_req_mngr.c of the IPC model. *)

From Stdlib Require Import ZArith List Lia Bool.
From stdpp Require Import base tactics gmap list.
From S2P Require Import Prelude ItsFs Its PsBase PsState PsCrypto PsTable.
Import ListNotations.
Local Open Scope Z_scope.

Section Object.
Context {dev : Type} {E : PsDev dev} (c : ps_config).
Local Abbreviation st := (ps_state dev).

(** ** The message of the client *)
Definition invec (i : nat) (m : ps_msg) : list Z := nth i (msg_in m) [].
Definition set_msg_in (l : list (list Z)) (m : ps_msg) : ps_msg :=
  {| msg_type := msg_type m; msg_client_id := msg_client_id m; msg_in := l;
     msg_in_size := msg_in_size m; msg_out_size := msg_out_size m; msg_out := msg_out m |}.
Definition set_msg_out (l : list (list Z)) (m : ps_msg) : ps_msg :=
  {| msg_type := msg_type m; msg_client_id := msg_client_id m; msg_in := msg_in m;
     msg_in_size := msg_in_size m; msg_out_size := msg_out_size m; msg_out := l |}.

(** [psa_read] yields the next bytes of an input vector, at most [n];
    [psa_write] appends to an output vector. *)
Definition psa_read (i : nat) (n : Z) : M st (list Z) :=
  let! m := reads the_msg in
  let l := firstn (Z.to_nat n) (invec i m) in
  do! modify (set_msg (set_msg_in (<[i := skipn (Z.to_nat n) (invec i m)]> (msg_in m)) m)) in
  ret l.
Definition psa_write (i : nat) (l : list Z) : M st unit :=
  let! m := reads the_msg in
  modify (set_msg (set_msg_out (<[i := nth i (msg_out m) [] ++ l]> (msg_out m)) m)).

(** [ps_req_mngr_read_asset_data(g_ps_object.data + off, size)] *)
Definition ps_req_mngr_read_asset_data (off size : Z) : M st unit :=
  let! l := psa_read 1 size in
  do! check_copy (off + Z.of_nat (length l)) (PS_MAX_OBJECT_DATA_SIZE c) in
  do! modify (fun s => set_object (set_object_data
        (overlay off l (data (g_ps_object s))) (g_ps_object s)) s) in
  if negb (Z.of_nat (length l) =? size) then fail PSA_ERROR_PROGRAMMER_ERROR else ret tt.

(** [ps_req_mngr_write_asset_data(g_ps_object.data + off, size)] *)
Definition ps_req_mngr_write_asset_data (off size : Z) : M st unit :=
  do! check_copy (off + size) (PS_MAX_OBJECT_DATA_SIZE c) in
  let! o := reads g_ps_object in
  psa_write 0 (firstn (Z.to_nat size) (skipn (Z.to_nat off) (data o))).

(** ** ps_encrypted_object.c *)
Definition payload_room : Z := sizeof_ps_object_info_t + PS_MAX_OBJECT_DATA_SIZE c.

(** [memcpy(&obj->header.info, l, n)] from the start of a buffer of which [l]
    is the content. *)
Definition copy_to_payload (l : list Z) (n : Z) : M st unit :=
  do! check_copy n (Z.of_nat (length l)) in
  do! check_copy n payload_room in
  modify (fun s => set_object
    (set_payload (overlay 0 (firstn (Z.to_nat n) l) (object_payload (g_ps_object s))) (g_ps_object s)) s).

(** [memcpy(ps_crypto_buf + off, l, length l)] *)
Definition copy_to_buf (off : Z) (l : list Z) : M st unit :=
  do! check_copy (off + Z.of_nat (length l)) (PS_CRYPTO_BUF_LEN c) in
  modify (fun s => set_buf (overlay off l (ps_crypto_buf s)) s).

Definition fid_bytes (fid : Z) : list Z := le_bytes 4 fid.

Definition ps_object_auth_decrypt (fid cur_size : Z) : M st unit :=
  do! ps_crypto_setkey in
  if cur_size >? PS_CRYPTO_BUF_LEN c then fail PSA_ERROR_INVALID_ARGUMENT
  else
    let! o := reads g_ps_object in
    do! copy_to_buf 0 (firstn (Z.to_nat cur_size) (object_payload o)) in
    do! copy_to_buf cur_size (tag (header_crypto o)) in
    let! buf := reads ps_crypto_buf in
    let! r := attempt (ps_crypto_auth_and_decrypt (header_crypto o) (fid_bytes fid)
      (firstn (Z.to_nat cur_size) buf) payload_room) in
    match r with
    | Err _ => do! attempt ps_crypto_destroykey in fail PSA_ERROR_GENERIC_ERROR
    | Ok out =>
        do! copy_to_payload out (Z.of_nat (length out)) in
        if negb (Z.of_nat (length out) =? cur_size)
        then do! attempt ps_crypto_destroykey in fail PSA_ERROR_GENERIC_ERROR
        else ps_crypto_destroykey
    end.

Definition ps_object_auth_encrypt (fid cur_size : Z) : M st unit :=
  do! ps_crypto_setkey in
  let! new_iv := ps_crypto_get_iv in
  do! modify (fun s => set_object (set_header_crypto
        (set_iv new_iv (header_crypto (g_ps_object s))) (g_ps_object s)) s) in
  let! o := reads g_ps_object in
  let! r := attempt (ps_crypto_encrypt_and_tag (header_crypto o) (fid_bytes fid)
    (firstn (Z.to_nat cur_size) (object_payload o)) (PS_CRYPTO_BUF_LEN c)) in
  match r with
  | Err _ => do! attempt ps_crypto_destroykey in fail PSA_ERROR_GENERIC_ERROR
  | Ok (out, new_tag) =>
      do! copy_to_buf 0 out in
      do! modify (fun s => set_object (set_header_crypto
            (set_tag new_tag (header_crypto (g_ps_object s))) (g_ps_object s)) s) in
      if negb (Z.of_nat (length out) =? cur_size)
      then do! attempt ps_crypto_destroykey in fail PSA_ERROR_GENERIC_ERROR
      else
        let! buf := reads ps_crypto_buf in
        do! copy_to_payload buf cur_size in
        ps_crypto_destroykey
  end.

Definition ps_encrypted_object_read (fid : Z) : M st unit :=
  if PS_CRYPTO_BUF_LEN c <? PS_MAX_ENCRYPTED_OBJ_SIZE c + PS_IV_LEN_BYTES
  then fail PSA_ERROR_GENERIC_ERROR
  else
    let! l := on_dev (psa_its_get fid 0 (PS_MAX_ENCRYPTED_OBJ_SIZE c + PS_IV_LEN_BYTES)) in
    do! modify (fun s => set_buf (overlay 0 l (ps_crypto_buf s)) s) in
    let data_length := Z.of_nat (length l) in
    let decrypt_size := u32 (data_length - PS_IV_LEN_BYTES) in
    let! buf := reads ps_crypto_buf in
    do! copy_to_payload buf decrypt_size in
    do! modify (fun s => set_object (set_header_crypto
          (set_iv (take_at (Z.to_nat decrypt_size) 12 buf) (header_crypto (g_ps_object s)))
          (g_ps_object s)) s) in
    ps_object_auth_decrypt fid decrypt_size.

Definition ps_encrypted_object_write (fid : Z) : M st unit :=
  let! o := reads g_ps_object in
  let wrt_size := PS_ENCRYPT_SIZE (current_size (header_info o)) in
  do! ps_object_auth_encrypt fid wrt_size in
  let! o := reads g_ps_object in
  do! copy_to_buf wrt_size (iv (header_crypto o)) in
  let wrt_size := u32 (wrt_size + PS_IV_LEN_BYTES) in
  let! buf := reads ps_crypto_buf in
  on_dev (psa_its_set fid (firstn (Z.to_nat wrt_size) buf) 0).

(** ** ps_object_system.c *)
Definition ps_init_empty_object (create_flags_ size_ : Z) : M st unit :=
  do! modify (set_object (zero_object c)) in
  modify (fun s => set_object (set_header_info
    {| current_size := current_size (header_info (g_ps_object s)); max_size_ := size_;
       create_flags := create_flags_ |} (g_ps_object s)) s).

Definition ps_remove_old_data (old_fid : Z) : M st unit :=
  do! ps_object_table_delete_old_table in
  on_dev (psa_its_remove old_fid).

Definition ps_system_prepare : M st unit := ps_object_table_init c.

(** The label clear_data_and_return. *)
Definition clearing {A} (m : M st A) : M st A := fun s =>
  let '(r, s') := m s in (r, set_object (zero_object c) s').

Definition upd_info (f : ps_object_info_t -> ps_object_info_t) : M st unit :=
  modify (fun s => set_object (set_header_info (f (header_info (g_ps_object s))) (g_ps_object s)) s).
Definition set_current_size (n : Z) (i : ps_object_info_t) : ps_object_info_t :=
  {| current_size := n; max_size_ := max_size_ i; create_flags := create_flags i |}.

Definition ps_object_read (uid client_id offset size_ : Z) : M st Z :=
  do! ps_object_table_get_obj_tbl_info uid client_id in
  clearing
    (let! fid := reads info_fid in
     do! ps_encrypted_object_read fid in
     let! o := reads g_ps_object in
     if offset >? current_size (header_info o) then fail PSA_ERROR_INVALID_ARGUMENT
     else
       let size_ := PS_UTILS_MIN size_ (u32 (current_size (header_info o) - offset)) in
       do! ps_req_mngr_write_asset_data offset size_ in
       ret size_).

(** Stores [g_ps_object] in a new file, and then the table; the end of
    ps_object_create and ps_object_write. *)
Definition store_object (uid client_id fid_am_reserved : Z) : M st unit :=
  let! fid := ps_object_table_get_free_fid fid_am_reserved in
  do! modify (set_fid fid) in
  do! ps_encrypted_object_write fid in
  let! r := attempt (ps_object_table_set_obj_tbl_info c uid client_id fid) in
  match r with
  | Err err => do! attempt (on_dev (psa_its_remove fid)) in fail err
  | Ok _ => ret tt
  end.

(** The object that is there, or an empty one, with the new flags and size:
    the part of ps_object_create before the data is read.  Yields the old file
    id and the number of file ids to ask for. *)
Definition lookup_or_empty (uid client_id create_flags_ size_ : Z) : M st (Z * Z) :=
  let! r := attempt (ps_object_table_get_obj_tbl_info uid client_id) in
  match r with
  | Ok _ =>
      let! fid := reads info_fid in
      do! ps_encrypted_object_read fid in
      let! o := reads g_ps_object in
      if has_flag (create_flags (header_info o)) PSA_STORAGE_FLAG_WRITE_ONCE
      then fail PSA_ERROR_NOT_PERMITTED
      else
        do! upd_info (fun i => {| current_size := current_size i; max_size_ := size_;
                                  create_flags := create_flags_ |}) in
        ret (fid, 1)
  | Err err =>
      if err =? PSA_ERROR_DOES_NOT_EXIST then
        do! ps_init_empty_object create_flags_ size_ in
        ret (PS_INVALID_FID, 2)
      else fail err
  end.

Definition ps_object_create (uid client_id create_flags_ size_ : Z) : M st unit :=
  if size_ >? PS_MAX_OBJECT_DATA_SIZE c then fail PSA_ERROR_INVALID_ARGUMENT
  else
    clearing
      (let! (old_fid, fid_am_reserved) := lookup_or_empty uid client_id create_flags_ size_ in
       do! ps_req_mngr_read_asset_data 0 size_ in
       do! upd_info (set_current_size size_) in
       do! store_object uid client_id fid_am_reserved in
       if old_fid =? PS_INVALID_FID then ps_object_table_delete_old_table
       else ps_remove_old_data old_fid).

(** ps_utils.c *)
Definition ps_utils_check_contained_in (superset_size subset_offset subset_size : Z) :
    M st unit :=
  if subset_offset >? superset_size then fail PSA_ERROR_INVALID_ARGUMENT
  else if subset_size >? u32 (superset_size - subset_offset)
  then fail PSA_ERROR_INVALID_ARGUMENT
  else ret tt.

Definition ps_object_write (uid client_id offset size_ : Z) : M st unit :=
  do! ps_object_table_get_obj_tbl_info uid client_id in
  clearing
    (let! old_fid := reads info_fid in
     do! ps_encrypted_object_read old_fid in
     let! o := reads g_ps_object in
     if has_flag (create_flags (header_info o)) PSA_STORAGE_FLAG_WRITE_ONCE
     then fail PSA_ERROR_NOT_PERMITTED
     else if offset >? current_size (header_info o) then fail PSA_ERROR_INVALID_ARGUMENT
     else
       do! ps_utils_check_contained_in (max_size_ (header_info o)) offset size_ in
       do! ps_req_mngr_read_asset_data offset size_ in
       do! (if u32 (offset + size_) >? current_size (header_info o)
            then upd_info (set_current_size (u32 (offset + size_))) else ret tt) in
       do! store_object uid client_id 1 in
       ps_remove_old_data old_fid).

Definition ps_object_get_info (uid client_id : Z) : M st (Z * Z) :=
  do! ps_object_table_get_obj_tbl_info uid client_id in
  clearing
    (let! fid := reads info_fid in
     do! ps_encrypted_object_read fid in
     let! o := reads g_ps_object in
     ret (current_size (header_info o), create_flags (header_info o))).

Definition ps_object_delete (uid client_id : Z) : M st unit :=
  do! ps_object_table_get_obj_tbl_info uid client_id in
  clearing
    (let! fid := reads info_fid in
     do! ps_encrypted_object_read fid in
     let! o := reads g_ps_object in
     if has_flag (create_flags (header_info o)) PSA_STORAGE_FLAG_WRITE_ONCE
     then fail PSA_ERROR_NOT_PERMITTED
     else
       do! ps_object_table_delete_object uid client_id in
       let! fid := reads info_fid in
       ps_remove_old_data fid).

Definition ps_system_wipe_all : M st unit := ps_object_table_create c.
End Object.
