(* ===== verification/PsService.v ===== *)
(** * Protected Storage: the service and its request manager

    tfm_protected_storage.c, with the platform functions of
    platform/ext/common/template/tfm_platform_ps.c for the UIDs of the OEM,
    and the IPC model part of tfm_ps_req_mngr.c. *)

From Stdlib Require Import ZArith List Lia Bool.
From stdpp Require Import base tactics gmap list.
From S2P Require Import Prelude ItsFs Its PsBase PsState PsCrypto PsTable PsObject.
Import ListNotations.
Local Open Scope Z_scope.

(** ** tfm_ps_defs.h *)
Definition TFM_PS_OEM_UID_MIN : Z := 256.
Definition TFM_PS_OEM_UID_NUM : Z := 256.
Definition TFM_PS_OEM_UID_MAX : Z := TFM_PS_OEM_UID_MIN + TFM_PS_OEM_UID_NUM - 1.
Definition is_tfm_ps_oem_uid (c : ps_config) (uid : Z) : bool :=
  if TFM_ENABLE_PS_OEM_UID c then (uid >=? TFM_PS_OEM_UID_MIN) && (uid <=? TFM_PS_OEM_UID_MAX)
  else false.

(** ** psa/client.h and psa/service.h *)
Definition PSA_IPC_CONNECT : Z := -1.
Definition PSA_IPC_DISCONNECT : Z := -2.
Definition PSA_IPC_CALL : Z := 0.

(** What becomes of a signal: the message is answered, there was none, or the
    partition panics. *)
Inductive outcome :=
| Replied (status : psa_status_t)
| NoMessage
| Panicked.

(** The signals, of the generated manifest header. *)
Record ps_signals := {
  TFM_PS_SET_SIGNAL : Z;
  TFM_PS_GET_SIGNAL : Z;
  TFM_PS_GET_INFO_SIGNAL : Z;
  TFM_PS_REMOVE_SIGNAL : Z;
  TFM_PS_GET_SUPPORT_SIGNAL : Z
}.

Section Service.
Context {dev : Type} {E : PsDev dev} (c : ps_config).
Local Abbreviation st := (ps_state dev).

(** ** Platform functions for OEM UIDs *)
Definition tfm_platform_ps_set (client_id uid data_length create_flags_ : Z) : M st unit :=
  fail PSA_ERROR_NOT_SUPPORTED.
Definition tfm_platform_ps_get (client_id uid data_offset data_length : Z) : M st Z :=
  fail PSA_ERROR_NOT_SUPPORTED.
Definition tfm_platform_ps_get_info (client_id uid : Z) : M st (Z * Z) :=
  fail PSA_ERROR_NOT_SUPPORTED.
Definition tfm_platform_ps_remove (client_id uid : Z) : M st unit :=
  fail PSA_ERROR_NOT_SUPPORTED.

(** ** tfm_protected_storage.c *)
Definition tfm_ps_init : M st unit :=
  let! r := attempt (ps_system_prepare c) in
  match r with
  | Ok _ => ret tt
  | Err err =>
      if PS_CREATE_FLASH_LAYOUT c then
        do! ps_system_wipe_all c in
        ps_system_prepare c
      else fail err
  end.

Definition tfm_ps_set (client_id uid data_length create_flags_ : Z) : M st unit :=
  if uid =? TFM_PS_INVALID_UID then fail PSA_ERROR_INVALID_ARGUMENT
  else if has_flag create_flags_ (UINT32_MAX -
      Z.lor PSA_STORAGE_FLAG_WRITE_ONCE (Z.lor PSA_STORAGE_FLAG_NO_CONFIDENTIALITY
        PSA_STORAGE_FLAG_NO_REPLAY_PROTECTION))
  then fail PSA_ERROR_NOT_SUPPORTED
  else if is_tfm_ps_oem_uid c uid
  then tfm_platform_ps_set client_id uid data_length create_flags_
  else ps_object_create c uid client_id create_flags_ data_length.

Definition tfm_ps_get (client_id uid data_offset data_size : Z) : M st Z :=
  if uid =? TFM_PS_INVALID_UID then fail PSA_ERROR_INVALID_ARGUMENT
  else if is_tfm_ps_oem_uid c uid
  then tfm_platform_ps_get client_id uid data_offset data_size
  else ps_object_read c uid client_id data_offset data_size.

Definition tfm_ps_get_info (client_id uid : Z) : M st (Z * Z) :=
  if uid =? TFM_PS_INVALID_UID then fail PSA_ERROR_INVALID_ARGUMENT
  else if is_tfm_ps_oem_uid c uid then tfm_platform_ps_get_info client_id uid
  else ps_object_get_info c uid client_id.

Definition tfm_ps_remove (client_id uid : Z) : M st unit :=
  if uid =? TFM_PS_INVALID_UID then fail PSA_ERROR_INVALID_ARGUMENT
  else if is_tfm_ps_oem_uid c uid then tfm_platform_ps_remove client_id uid
  else on_err (fun err => if err =? PSA_ERROR_INVALID_SIGNATURE
                          then PSA_ERROR_GENERIC_ERROR else err)
         (ps_object_delete c uid client_id).

Definition tfm_ps_get_support : Z := 0.

(** ** tfm_ps_req_mngr.c *)
Definition in_size (i : nat) : M st Z := reads (fun s => nth i (msg_in_size (the_msg s)) 0).
Definition out_size (i : nat) : M st Z := reads (fun s => nth i (msg_out_size (the_msg s)) 0).

(** Reads an argument of [n] bytes that the vector must hold in full. *)
Definition read_arg (i : nat) (n : Z) : M st Z :=
  let! l := psa_read i n in
  if negb (Z.of_nat (length l) =? n) then fail PSA_ERROR_PROGRAMMER_ERROR else ret (le_val l).

Definition sizeof_psa_storage_uid_t : Z := 8.
Definition sizeof_uint32_t : Z := 4.
(** [struct psa_storage_info_t]: capacity, size, flags. *)
Definition sizeof_psa_storage_info_t : Z := 12.

Definition tfm_ps_set_ipc : M st unit :=
  let! n0 := in_size 0 in
  let! n1 := in_size 1 in
  let! n2 := in_size 2 in
  if negb (n0 =? sizeof_psa_storage_uid_t) || negb (n2 =? sizeof_uint32_t)
  then fail PSA_ERROR_PROGRAMMER_ERROR
  else
    let! uid := read_arg 0 n0 in
    let! flags_ := read_arg 2 n2 in
    let! m := reads the_msg in
    tfm_ps_set (msg_client_id m) uid n1 flags_.

Definition tfm_ps_get_ipc : M st unit :=
  let! n0 := in_size 0 in
  let! n1 := in_size 1 in
  if negb (n0 =? sizeof_psa_storage_uid_t) || negb (n1 =? sizeof_uint32_t)
  then fail PSA_ERROR_PROGRAMMER_ERROR
  else
    let! uid := read_arg 0 n0 in
    let! data_offset := read_arg 1 n1 in
    let! m := reads the_msg in
    let! room := out_size 0 in
    do! tfm_ps_get (msg_client_id m) uid data_offset room in ret tt.

(** [info] is a local variable of which nothing sets the member capacity:
    [stack_capacity] is what was on the stack. *)
Definition tfm_ps_get_info_ipc (stack_capacity : Z) : M st unit :=
  let! n0 := in_size 0 in
  let! room := out_size 0 in
  if negb (n0 =? sizeof_psa_storage_uid_t) || negb (room =? sizeof_psa_storage_info_t)
  then fail PSA_ERROR_PROGRAMMER_ERROR
  else
    let! uid := read_arg 0 n0 in
    let! m := reads the_msg in
    let! (size_, flags_) := tfm_ps_get_info (msg_client_id m) uid in
    psa_write 0 (le_bytes 4 stack_capacity ++ le_bytes 4 size_ ++ le_bytes 4 flags_).

Definition tfm_ps_remove_ipc : M st unit :=
  let! n0 := in_size 0 in
  if negb (n0 =? sizeof_psa_storage_uid_t) then fail PSA_ERROR_PROGRAMMER_ERROR
  else
    let! uid := read_arg 0 n0 in
    let! m := reads the_msg in
    tfm_ps_remove (msg_client_id m) uid.

Definition tfm_ps_get_support_ipc : M st unit :=
  let! n := out_size 0 in
  if negb (n =? sizeof_uint32_t) then fail PSA_ERROR_PROGRAMMER_ERROR
  else psa_write 0 (le_bytes 4 tfm_ps_get_support).

Definition status_of {A} (r : res A) : psa_status_t :=
  match r with Ok _ => PSA_SUCCESS | Err e => e end.

(** [got] is what psa_get yields for the signal. *)
Definition ps_signal_handle (got : option ps_msg) (pfn : M st unit) (s : st) : outcome * st :=
  match got with
  | None => (NoMessage, s)
  | Some m =>
      let s := set_msg m s in
      if msg_type m =? PSA_IPC_CONNECT then (Replied PSA_SUCCESS, s)
      else if msg_type m =? PSA_IPC_CALL then
        let '(r, s) := pfn s in (Replied (status_of r), s)
      else if msg_type m =? PSA_IPC_DISCONNECT then (Replied PSA_SUCCESS, s)
      else (Panicked, s)
  end.

(** One round of the loop of tfm_ps_req_mngr_init: psa_wait returned
    [signals]. *)
Definition ps_serve (sig : ps_signals) (stack_capacity signals : Z) (got : option ps_msg)
    (s : st) : outcome * st :=
  if has_flag signals (TFM_PS_SET_SIGNAL sig) then ps_signal_handle got tfm_ps_set_ipc s
  else if has_flag signals (TFM_PS_GET_SIGNAL sig) then ps_signal_handle got tfm_ps_get_ipc s
  else if has_flag signals (TFM_PS_GET_INFO_SIGNAL sig)
  then ps_signal_handle got (tfm_ps_get_info_ipc stack_capacity) s
  else if has_flag signals (TFM_PS_REMOVE_SIGNAL sig)
  then ps_signal_handle got tfm_ps_remove_ipc s
  else if has_flag signals (TFM_PS_GET_SUPPORT_SIGNAL sig)
  then ps_signal_handle got tfm_ps_get_support_ipc s
  else (Panicked, s).
End Service.
