(* ===== verification/PsBytes.v ===== *)
(** * Protected Storage: tables and objects as bytes

    Decoding inverts encoding for the structures that are stored as raw
    memory, and the buffer operations have the lengths they should. *)

From Stdlib Require Import ZArith List Lia Bool.
From stdpp Require Import base tactics gmap list.
From S2P Require Import Prelude Its PsBase PsState.
From S2P Require Import Prelude Its PsBase PsState PsCrypto .
Import ListNotations.
Local Open Scope Z_scope.

(** ** Slices and overlays *)
Lemma take_at_0 n (l1 l2 : list Z) : length l1 = n -> take_at 0 n (l1 ++ l2) = l1.
Proof. intros <-. unfold take_at. by rewrite skipn_O, firstn_app, Nat.sub_diag, firstn_all, app_nil_r. Qed.

Lemma take_at_skip k n (l1 l2 : list Z) :
  length l1 = k -> take_at k n (l1 ++ l2) = take_at 0 n l2.
Proof. intros <-. unfold take_at. by rewrite skipn_app, skipn_all, Nat.sub_diag. Qed.

Lemma take_at_app k n (l1 l2 l3 : list Z) :
  length l1 = k -> length l2 = n -> take_at k n (l1 ++ l2 ++ l3) = l2.
Proof. intros H1 H2. rewrite take_at_skip by done. by apply take_at_0. Qed.

Lemma take_at_app_end k n (l1 l2 : list Z) :
  length l1 = k -> length l2 = n -> take_at k n (l1 ++ l2) = l2.
Proof. intros H1 H2. rewrite <- (app_nil_r l2) at 1. by apply take_at_app. Qed.

Lemma length_zeros n : length (zeros n) = Z.to_nat n.
Proof. apply repeat_length. Qed.

Lemma length_overlay off l buf :
  0 <= off -> off + Z.of_nat (length l) <= Z.of_nat (length buf) ->
  length (overlay off l buf) = length buf.
Proof. intros H1 H2. unfold overlay. rewrite !length_app, length_firstn, length_skipn. lia. Qed.

Lemma overlay_0 l buf : overlay 0 l buf = l ++ skipn (length l) buf.
Proof. done. Qed.

Lemma overlay_all l buf : length l = length buf -> overlay 0 l buf = l.
Proof. intros H. rewrite overlay_0, H, skipn_all. apply app_nil_r. Qed.

Lemma overlay_after l1 l2 buf :
  overlay (Z.of_nat (length l1)) l2 (l1 ++ buf) = l1 ++ l2 ++ skipn (length l2) buf.
Proof.
  unfold overlay. rewrite Nat2Z.id, firstn_app, firstn_all, Nat.sub_diag, firstn_O, app_nil_r.
  rewrite skipn_app. replace (skipn (length l1 + length l2) l1) with (@nil Z) by
    (symmetry; apply skipn_all2; lia).
  by replace (length l1 + length l2 - length l1)%nat with (length l2) by lia.
Qed.

Lemma firstn_app_exact (l1 l2 : list Z) n : length l1 = n -> firstn n (l1 ++ l2) = l1.
Proof. intros <-. by rewrite firstn_app, Nat.sub_diag, firstn_all, app_nil_r. Qed.
Lemma skipn_app_exact (l1 l2 : list Z) n : length l1 = n -> skipn n (l1 ++ l2) = l2.
Proof. intros <-. by rewrite skipn_app, Nat.sub_diag, skipn_all. Qed.

Lemma i32_le c : - 2 ^ 31 <= c < 2 ^ 31 -> i32 (le_val (le_bytes 4 c)) = c.
Proof.
  intros H. rewrite le_val_bytes. change (256 ^ Z.of_nat 4) with (2 ^ 32). unfold i32.
  rewrite Zplus_mod_idemp_l, Z.mod_small by lia. lia.
Qed.

(** ** Bytes *)
Lemma le_bytes_val l : bytes l -> le_bytes (length l) (le_val l) = l.
Proof.
  induction 1 as [|b l Hb Hl IH]; [done|]. cbn [length le_bytes le_val].
  replace (b + 256 * le_val l) with (le_val l * 256 + b) by lia.
  rewrite Z.div_add_l, Z.div_small, Z.add_0_r, IH by lia. f_equal.
  rewrite Z.add_comm, Z_mod_plus_full. by apply Z.mod_small.
Qed.
Lemma bytes_app l1 l2 : bytes (l1 ++ l2) <-> bytes l1 /\ bytes l2.
Proof. apply Forall_app. Qed.
Lemma bytes_firstn n l : bytes l -> bytes (firstn n l).
Proof. apply Forall_take. Qed.
Lemma bytes_skipn n l : bytes l -> bytes (skipn n l).
Proof. apply Forall_drop. Qed.
Lemma bytes_take_at k n l : bytes l -> bytes (take_at k n l).
Proof. intros H. by apply bytes_firstn, bytes_skipn. Qed.
Lemma bytes_le n v : bytes (le_bytes n v).
Proof. apply le_bytes_byte. Qed.
Lemma bytes_zeros n : bytes (zeros n).
Proof. apply List.Forall_forall. intros x Hx. apply repeat_spec in Hx. lia. Qed.
#[export] Hint Resolve bytes_firstn bytes_skipn bytes_take_at bytes_le bytes_zeros : ps.

(** ** Well-formed structures *)
Record wf_crypto (x : ps_crypto_t) : Prop := {
  wf_tag : length (tag x) = 16%nat;
  wf_iv : length (iv x) = 12%nat
}.

Record wf_entry (e : ps_obj_table_entry_t) : Prop := {
  wf_entry_tag : length (entry_tag e) = 16%nat;
  wf_entry_uid : 0 <= entry_uid e < 2 ^ 64;
  wf_entry_client : - 2 ^ 31 <= entry_client_id e < 2 ^ 31;
  wf_entry_pad : length (entry_pad e) = 4%nat
}.

Record wf_table (n : Z) (t : ps_obj_table_t) : Prop := {
  wf_hdr : wf_crypto (hdr_crypto t);
  wf_hdr_iv : bytes (iv (hdr_crypto t));
  wf_version : hdr_version t = PS_OBJECT_SYSTEM_VERSION;
  wf_hdr_pad : length (hdr_pad t) = 3%nat;
  wf_entries : Forall wf_entry (obj_db t);
  wf_db : length (obj_db t) = Z.to_nat n
}.

Record wf_info (i : ps_object_info_t) : Prop := {
  wf_cur : 0 <= current_size i < 2 ^ 32;
  wf_max : 0 <= max_size_ i < 2 ^ 32;
  wf_flags : 0 <= create_flags i < 2 ^ 32
}.

#[export] Hint Resolve wf_hdr wf_version wf_hdr_pad wf_entries wf_db wf_tag wf_iv : ps.

Lemma length_entry_bytes e : wf_entry e -> length (entry_bytes e) = 32%nat.
Proof. intros [? ? ? ?]. unfold entry_bytes. rewrite !length_app, !length_le_bytes. lia. Qed.

Lemma bytes_entry_bytes e : wf_entry e -> bytes_entry (entry_bytes e) = e.
Proof.
  intros [H1 H2 H3 H4]. destruct e as [t u c p]. unfold bytes_entry, entry_bytes.
  cbn [entry_tag entry_uid entry_client_id entry_pad] in *.
  f_equal.
  - by apply take_at_0.
  - rewrite (take_at_app 16 8 t) by (rewrite ?length_le_bytes; done). rewrite le_val_bytes.
    by apply Z.mod_small.
  - rewrite app_assoc, (take_at_app 24 4) by (rewrite ?length_app, ?length_le_bytes, ?H1; done).
    by apply i32_le.
  - rewrite !app_assoc. apply take_at_app_end; [|done].
    by rewrite !length_app, !length_le_bytes, H1.
Qed.

Lemma bytes_entries_bytes l :
  Forall wf_entry l -> bytes_entries (length l) (concat (map entry_bytes l)) = l.
Proof.
  induction 1 as [|e l He Hl IH]; [done|]. cbn [length map concat bytes_entries].
  rewrite firstn_app_exact, skipn_app_exact by by apply length_entry_bytes.
  by rewrite IH, bytes_entry_bytes.
Qed.

Lemma length_entries l : Forall wf_entry l -> length (concat (map entry_bytes l)) = (32 * length l)%nat.
Proof.
  induction 1 as [|e l He Hl IH]; [done|]. cbn [map concat length].
  rewrite length_app, length_entry_bytes, IH by done. lia.
Qed.

Lemma length_crypto_bytes x : wf_crypto x -> length (crypto_bytes x) = 28%nat.
Proof. intros [H1 H2]. unfold crypto_bytes. by rewrite length_app, H1, H2. Qed.

Lemma bytes_crypto_bytes x : wf_crypto x -> bytes_crypto (crypto_bytes x) = x.
Proof.
  intros [H1 H2]. destruct x as [t i]. cbn in *. unfold bytes_crypto, crypto_bytes. cbn.
  by rewrite take_at_0, take_at_app_end.
Qed.

Lemma length_table_bytes n t : 0 <= n -> wf_table n t ->
  Z.of_nat (length (table_bytes t)) = 32 + 32 * n.
Proof.
  intros Hn [H1 _ H2 H3 H4 H5]. unfold table_bytes, table_auth_data.
  rewrite !length_app, length_crypto_bytes, length_entries, length_le_bytes by done. lia.
Qed.

(** The table read from the file it was written to. *)
Lemma bytes_table_bytes n t rest : wf_table n t ->
  bytes_table (Z.to_nat n) (table_bytes t ++ rest) = t.
Proof.
  intros [H1 _ H2 H3 H4 H5]. destruct t as [x v p db].
  cbn [hdr_crypto hdr_version hdr_pad obj_db] in *. unfold table_bytes, table_auth_data.
  cbn [hdr_crypto hdr_version hdr_pad obj_db]. pose proof (length_crypto_bytes x H1) as Hx.
  unfold bytes_table. rewrite <- !app_assoc. f_equal.
  - rewrite take_at_0 by done. by apply bytes_crypto_bytes.
  - rewrite (take_at_app 28 1) by (rewrite ?length_le_bytes; done). subst v. done.
  - rewrite app_assoc, (take_at_app 29 3) by (rewrite ?length_app, ?length_le_bytes, ?Hx; done). done.
  - rewrite !app_assoc, <- app_assoc. rewrite skipn_app_exact
      by (by rewrite !length_app, ?length_le_bytes, Hx, H3).
    rewrite <- H5. clear -H4. induction H4 as [|e l He Hl IH]; [done|].
    cbn [length map concat bytes_entries]. rewrite <- app_assoc.
    rewrite firstn_app_exact, skipn_app_exact by by apply length_entry_bytes.
    by rewrite IH, bytes_entry_bytes.
Qed.

Lemma length_info_bytes i : length (info_bytes i) = 12%nat.
Proof. unfold info_bytes. by rewrite !length_app, !length_le_bytes. Qed.

Lemma bytes_info_bytes i : wf_info i -> bytes_info (info_bytes i) = i.
Proof.
  intros [H1 H2 H3]. destruct i as [a b f]. unfold bytes_info, info_bytes.
  cbn [current_size max_size_ create_flags] in *.
  f_equal.
  - rewrite take_at_0 by apply length_le_bytes. by apply le_val_bytes_u32.
  - rewrite (take_at_app 4 4) by apply length_le_bytes. by apply le_val_bytes_u32.
  - rewrite app_assoc, take_at_app_end by (rewrite ?length_app, !length_le_bytes; done).
    by apply le_val_bytes_u32.
Qed.

Lemma info_bytes_of l : bytes l -> length l = 12%nat -> info_bytes (bytes_info l) = l.
Proof.
  intros Hb Hl. unfold info_bytes, bytes_info. cbn [current_size max_size_ create_flags].
  assert (H : forall k, (k <= 8)%nat -> le_bytes 4 (le_val (take_at k 4 l)) = take_at k 4 l).
  { intros k Hk. rewrite <- (le_bytes_val (take_at k 4 l)) at 2 by auto with ps.
    unfold take_at. rewrite length_firstn, length_skipn.
    by replace (Nat.min 4 (length l - k)) with 4%nat by lia. }
  rewrite !H by lia. do 12 (destruct l as [|? l]; [done|]). by destruct l.
Qed.

(** Raw memory written over the object is read back. *)
Lemma payload_set l o : bytes (firstn 12 l) -> (12 <= length l)%nat -> object_payload (set_payload l o) = l.
Proof.
  intros Hb Hl. unfold object_payload, set_payload. cbn [header_info data].
  rewrite info_bytes_of by (try done; rewrite length_firstn; lia). apply firstn_skipn.
Qed.

Lemma set_payload_info i l o : wf_info i ->
  set_payload (info_bytes i ++ l) o =
  {| header_crypto := header_crypto o; header_info := i; data := l |}.
Proof.
  intros H. unfold set_payload.
  rewrite firstn_app_exact, skipn_app_exact by apply length_info_bytes. by rewrite bytes_info_bytes.
Qed.

Lemma length_object_payload o : length (object_payload o) = (12 + length (data o))%nat.
Proof. unfold object_payload. by rewrite length_app, length_info_bytes. Qed.

Lemma object_payload_set l o : (12 <= length l)%nat ->
  length (data (set_payload l o)) = (length l - 12)%nat.
Proof. intros H. cbn. by rewrite length_skipn. Qed.

(** ** The empty structures *)
Lemma wf_zero_crypto : wf_crypto zero_crypto.
Proof. split; apply length_zeros. Qed.
Lemma wf_zero_entry : wf_entry zero_entry.
Proof. split; cbn; try apply length_zeros; lia. Qed.
#[export] Hint Resolve wf_zero_crypto wf_zero_entry : ps.

(** * Protected Storage: what the crypto functions do

    The storage key, the IV and the authenticated encryption, over any
    services that keep [PsDevSpec]. *)

(** Runs a call of another service by its specification. *)
Tactic Notation "call" uconstr(lem) :=
  repeat first [apply wp_bind | apply wp_attempt | apply wp_on_err];
  apply wp_on_dev; eapply wp_mono; [eapply lem; eauto | |]; cbn beta.

Section CryptoSpec.
Context {dev : Type} (V : dev_view dev) (mf : Prop) {E : PsDev dev} {SP : PsDevSpec V E mf}.
Local Abbreviation st := (ps_state dev).
Implicit Types s : st.

(** Only the device and the key variable changed, and nothing that lasts. *)
Definition cstep s s' : Prop :=
  exists d k, same V (the_dev s) d /\ s' = set_key k (set_dev d s).
Definition has_key s : Prop := holds_key V (the_dev s) (ps_key s).

Lemma cstep_dev s d : same V (the_dev s) d -> cstep s (set_dev d s).
Proof. intros H. by exists d, (ps_key s). Qed.
Lemma cstep_refl s : cstep s s.
Proof. exists (the_dev s), (ps_key s). split; [apply same_refl|]. by destruct s. Qed.
Lemma cstep_trans s1 s2 s3 : cstep s1 s2 -> cstep s2 s3 -> cstep s1 s3.
Proof.
  intros (d & k & H & ->) (d' & k' & H' & ->). exists d', k'. split; [|done].
  by eapply same_trans.
Qed.
Lemma cstep_key s k : cstep s (set_key k s).
Proof. exists (the_dev s), k. split; [apply same_refl|]. by destruct s. Qed.
Lemma cstep_persist s s' : cstep s s' -> persist V (the_dev s') = persist V (the_dev s).
Proof. by intros (d & k & [H _] & ->). Qed.
Lemma cstep_up s s' : cstep s s' -> up V (the_dev s') -> up V (the_dev s).
Proof. intros (d & k & [_ H] & ->). exact H. Qed.

(** Chains the steps of single calls. *)
Ltac by_cstep :=
  lazymatch goal with
  | |- cstep ?a (set_dev _ ?x) =>
      apply (cstep_trans a x);
      [by_cstep | apply cstep_dev; first [assumption | apply quiet_same; assumption]]
  | |- cstep ?a (set_key _ ?x) => apply (cstep_trans a x); [by_cstep | apply cstep_key]
  | |- cstep _ _ => first [assumption | apply cstep_refl]
  end.

(** ** The key *)
Lemma err_release_op_spec {A} op s s0 (Q : A -> st -> Prop) :
  cstep s0 s -> mf ->
  wp (err_release_op op) s Q (fun e s' => e <> PSA_SUCCESS /\ mf /\ cstep s0 s').
Proof.
  intros Hs Hmf. unfold err_release_op.
  call kd_abort_spec; [intros _ d Hd|intros e d (_ & _ & Hd)]; apply wp_fail;
    (split; [done|]; split; [done|]; eapply cstep_trans; [exact Hs|by_cstep]).
Qed.

Lemma setkey_spec s :
  wp ps_crypto_setkey s (fun _ s' => cstep s s' /\ has_key s')
    (fun e s' => e <> PSA_SUCCESS /\ mf /\ cstep s s').
Proof.
  unfold ps_crypto_setkey. call kd_setup_spec.
  2:{ intros e d (He & Hmf & Hd). split; [done|]. split; [done|by_cstep]. }
  intros op d1 H1. call kd_input_spec.
  2:{ intros e d2 (He & Hmf & H2). apply err_release_op_spec; [by_cstep|done]. }
  intros _ d2 H2. call kd_output_spec.
  2:{ intros e d3 (He & Hmf & H3). apply err_release_op_spec; [by_cstep|done]. }
  intros k d3 [H3 Hk]. apply wp_bind, wp_modify. call kd_abort_spec.
  - intros _ d4 H4. apply wp_ret. split; [by_cstep|by apply (proj2 H4)].
  - intros e d4 (He & Hmf & H4). pose proof (proj2 H4 k Hk). call destroy_spec.
    + intros _ d5 H5. apply err_release_op_spec; [by_cstep|done].
    + intros e' d5 (_ & _ & H5). apply err_release_op_spec; [by_cstep|done].
Qed.

Lemma destroykey_spec s : has_key s ->
  wp ps_crypto_destroykey s (fun _ s' => cstep s s')
    (fun e s' => e <> PSA_SUCCESS /\ mf /\ cstep s s').
Proof.
  intros Hk. unfold ps_crypto_destroykey. apply wp_bind, wp_reads. call destroy_spec.
  - intros _ d Hd. by_cstep.
  - intros e d (_ & Hmf & Hd). split; [done|]. split; [done|]. by_cstep.
Qed.

Lemma attempt_destroykey s s0 (Q : res unit -> st -> Prop) (P : psa_status_t -> st -> Prop) : has_key s ->
  cstep s0 s -> (forall r s', cstep s0 s' -> Q r s') -> wp (attempt ps_crypto_destroykey) s Q P.
Proof.
  intros Hk Hs HQ. apply wp_attempt. eapply wp_mono; [by apply destroykey_spec| |].
  - intros u s' H. apply HQ. by eapply cstep_trans.
  - intros e s' (_ & _ & H). apply HQ. by eapply cstep_trans.
Qed.

(** ** The IV *)
Definition iv_value (buf : list Z) : Z := le_val (take_at 0 8 buf) + 2 ^ 64 * le_val (take_at 8 4 buf).

Lemma iv_value_bytes l h : 0 <= l < 2 ^ 64 -> 0 <= h < 2 ^ 32 ->
  iv_value (le_bytes 8 l ++ le_bytes 4 h) = l + 2 ^ 64 * h.
Proof.
  intros Hl Hh. unfold iv_value. rewrite take_at_0, take_at_app_end by apply length_le_bytes.
  rewrite !le_val_bytes. change (256 ^ Z.of_nat 8) with (2 ^ 64).
  change (256 ^ Z.of_nat 4) with (2 ^ 32). by rewrite !Z.mod_small.
Qed.

Definition iv_ok (buf : list Z) : Prop :=
  length buf = 12%nat /\ Forall (fun b => 0 <= b < 256) buf.

Lemma iv_parts buf : iv_ok buf ->
  0 <= le_val (take_at 0 8 buf) < 2 ^ 64 /\ 0 <= le_val (take_at 8 4 buf) < 2 ^ 32.
Proof.
  intros [Hl Hb].
  assert (H : forall k n, (k + n <= 12)%nat -> 0 <= le_val (take_at k n buf) < 256 ^ Z.of_nat n).
  { intros k n Hk. pose proof (le_val_range (take_at k n buf) (Forall_take _ _ _ (Forall_drop _ _ _ Hb))) as H.
    unfold take_at in H at 3. rewrite length_firstn, length_skipn in H.
    by replace (Nat.min n (length buf - k)) with n in H by lia. }
  split; [exact (H 0%nat 8%nat ltac:(lia))|exact (H 8%nat 4%nat ltac:(lia))].
Qed.

(** The next value of the counter, or a failure when it would wrap around. *)
Lemma get_iv_spec s : iv_ok (ps_crypto_iv_buf s) ->
  wp ps_crypto_get_iv s
    (fun l s' => s' = set_iv_buf l s /\ iv_ok l /\ iv_value l = iv_value (ps_crypto_iv_buf s) + 1)
    (fun e s' => e = PSA_ERROR_GENERIC_ERROR /\ s' = s /\
       iv_value (ps_crypto_iv_buf s) = 2 ^ 96 - 1).
Proof.
  intros H. destruct (iv_parts _ H) as [Hl Hh]. unfold ps_crypto_get_iv. apply wp_bind, wp_reads.
  set (l := le_val (take_at 0 8 (ps_crypto_iv_buf s))) in *.
  set (h := le_val (take_at 8 4 (ps_crypto_iv_buf s))) in *.
  assert (Hv : iv_value (ps_crypto_iv_buf s) = l + 2 ^ 64 * h) by done. rewrite Hv.
  assert (Hst : forall x y, 0 <= x < 2 ^ 64 -> 0 <= y < 2 ^ 32 ->
    iv_ok (le_bytes 8 x ++ le_bytes 4 y) /\ iv_value (le_bytes 8 x ++ le_bytes 4 y) = x + 2 ^ 64 * y).
  { intros x y Hx Hy. split; [|by apply iv_value_bytes]. split.
    - by rewrite length_app, !length_le_bytes.
    - apply Forall_app. split; apply le_bytes_byte. }
  destruct (Z.eqb_spec ((l + 1) mod 2 ^ 64) 0) as [E0|E0].
  - assert (l = 2 ^ 64 - 1) as El.
    { destruct (Z_lt_le_dec (l + 1) (2 ^ 64)); [rewrite Z.mod_small in E0 by lia; lia|lia]. }
    destruct (Z.eqb_spec (u32 (h + 1)) 0) as [E1|E1].
    + apply wp_fail. split; [done|]. split; [done|].
      assert (h = 2 ^ 32 - 1) by (unfold u32 in E1; destruct (Z_lt_le_dec (h + 1) (2 ^ 32));
        [rewrite Z.mod_small in E1 by lia; lia|lia]). lia.
    + apply wp_bind, wp_modify, wp_ret. split; [done|].
      assert (h + 1 < 2 ^ 32).
      { destruct (Z_lt_le_dec (h + 1) (2 ^ 32)); [done|]. unfold u32 in E1.
        replace (h + 1) with (2 ^ 32) in E1 by lia. done. }
      rewrite (u32_small (h + 1)), E0 by lia. destruct (Hst 0 (h + 1)) as [H1 H2]; [lia|lia|].
      split; [done|]. lia.
  - apply wp_bind, wp_modify, wp_ret. split; [done|].
    assert (l + 1 < 2 ^ 64).
    { destruct (Z_lt_le_dec (l + 1) (2 ^ 64)); [done|].
      replace (l + 1) with (2 ^ 64) in E0 by lia. done. }
    rewrite Z.mod_small by lia. destruct (Hst (l + 1) h) as [H1 H2]; [lia|lia|]. split; [done|]. lia.
Qed.

(** ** Authenticated encryption *)
Lemma encrypt_and_tag_spec x add pt room s : has_key s ->
  wp (ps_crypto_encrypt_and_tag x add pt room) s
    (fun r s' => cstep s s' /\ has_key s' /\ length (fst r) = length pt /\
       length (snd r) = 16%nat /\ aead V (iv x) add pt = fst r ++ snd r)
    (fun e s' => e <> PSA_SUCCESS /\ cstep s s' /\ has_key s' /\
       (mf \/ room < Z.of_nat (length pt) + PS_TAG_LEN_BYTES)).
Proof.
  intros Hk. unfold ps_crypto_encrypt_and_tag. apply wp_bind, wp_reads.
  call encrypt_spec.
  - intros out d (Hd & -> & Hr). apply wp_ret. cbn [fst snd].
    pose proof (aead_length V (E:=E) (mf:=mf) (iv x) add pt) as Hlen.
    unfold PS_TAG_LEN_BYTES in *.
    split; [by_cstep|]. split; [by apply (proj2 Hd)|].
    rewrite length_firstn, length_skipn, firstn_skipn. split; [lia|]. split; [lia|done].
  - intros e d (_ & Hf & Hd). split; [done|]. split; [by_cstep|].
    split; [by apply (proj2 Hd)|]. by rewrite (aead_length V (E:=E) (mf:=mf)) in Hf.
Qed.

Lemma auth_and_decrypt_spec x add ct room s : has_key s ->
  wp (ps_crypto_auth_and_decrypt x add ct room) s
    (fun pt s' => cstep s s' /\ has_key s' /\ bytes pt /\ ct ++ tag x = aead V (iv x) add pt /\
       Z.of_nat (length pt) <= room)
    (fun e s' => e <> PSA_SUCCESS /\ cstep s s' /\ has_key s' /\
       (mf \/ forall pt, bytes pt -> ct ++ tag x = aead V (iv x) add pt -> room < Z.of_nat (length pt))).
Proof.
  intros Hk. unfold ps_crypto_auth_and_decrypt. apply wp_bind, wp_reads.
  call decrypt_spec.
  - intros pt d (Hd & Hb & Hc & Hr). split; [by_cstep|].
    split; [by apply (proj2 Hd)|]. done.
  - intros e d (_ & Hd & Hf). split; [done|]. split; [by_cstep|].
    split; [by apply (proj2 Hd)|done].
Qed.

Lemma generate_auth_tag_spec x add s : has_key s ->
  wp (ps_crypto_generate_auth_tag x add) s
    (fun t s' => cstep s s' /\ has_key s' /\ length t = 16%nat /\ aead V (iv x) add [] = t)
    (fun e s' => e <> PSA_SUCCESS /\ mf /\ cstep s s' /\ has_key s').
Proof.
  intros Hk. unfold ps_crypto_generate_auth_tag. apply wp_bind, wp_reads.
  pose proof (aead_length V (E:=E) (mf:=mf) (iv x) add []) as Hlen. unfold PS_TAG_LEN_BYTES in *.
  cbn [length] in Hlen. call encrypt_spec.
  - intros out d (Hd & -> & Hr). unfold PS_TAG_LEN_BYTES.
    destruct (Z.eqb_spec (Z.of_nat (length (aead V (iv x) add []))) 16) as [Hl|Hl]; [|lia].
    apply wp_ret. split; [by_cstep|]. split; [by apply (proj2 Hd)|].
    split; [lia|done].
  - intros e d (_ & [Hf|Hf] & Hd); [|lia]. split; [done|]. split; [done|].
    split; [by_cstep|by apply (proj2 Hd)].
Qed.

Lemma authenticate_spec x add s : has_key s ->
  wp (ps_crypto_authenticate x add) s
    (fun _ s' => cstep s s' /\ has_key s' /\ tag x = aead V (iv x) add [])
    (fun e s' => e <> PSA_SUCCESS /\ cstep s s' /\ has_key s' /\
       (mf \/ tag x <> aead V (iv x) add [])).
Proof.
  intros Hk. unfold ps_crypto_authenticate. apply wp_bind, wp_reads.
  call decrypt_spec.
  - intros pt d (Hd & _ & Hc & Hr).
    assert (pt = []) as -> by (destruct pt; [done|cbn in Hr; lia]). apply wp_ret.
    split; [by_cstep|]. split; [by apply (proj2 Hd)|done].
  - intros e d (_ & Hd & Hf). split; [done|]. split; [by_cstep|].
    split; [by apply (proj2 Hd)|]. destruct Hf as [Hf|Hf]; [by left|right]. intros Ht.
    specialize (Hf [] ltac:(constructor) Ht). cbn in Hf. lia.
Qed.

(** ** Counters *)
Lemma read_nv_spec i s : (i = 0 \/ i = 1 \/ i = 2) ->
  wp (ps_read_nv_counter i) s
    (fun v s' => exists d, s' = set_dev d s /\ quiet V (the_dev s) d /\ up V (the_dev s) /\
       up V d /\ v = nv_get i (p_nv (persist V (the_dev s))))
    (fun e s' => e = PSA_ERROR_GENERIC_ERROR /\ mf /\ exists d, s' = set_dev d s /\
       quiet V (the_dev s) d /\ ~ up V d).
Proof.
  intros Hi. unfold ps_read_nv_counter. call nv_read_spec.
  - intros v d (H1 & H2 & H3 & H4). eauto 8.
  - intros e d (H1 & H2 & H3). eauto 8.
Qed.

Lemma inc_nv_spec i s : (i = 0 \/ i = 1 \/ i = 2) ->
  wp (ps_increment_nv_counter i) s
    (fun _ s' => exists d, s' = set_dev d s /\
       became V (the_dev s) d (bump i (persist V (the_dev s))) /\
       nv_get i (p_nv (persist V (the_dev s))) < UINT32_MAX)
    (fun e s' => e = PSA_ERROR_GENERIC_ERROR /\ exists d, s' = set_dev d s /\
       ((mf /\ ~ up V d /\ (persist V d = persist V (the_dev s) \/
           (nv_get i (p_nv (persist V (the_dev s))) < UINT32_MAX /\
            persist V d = bump i (persist V (the_dev s))))) \/
        (same V (the_dev s) d /\ UINT32_MAX <= nv_get i (p_nv (persist V (the_dev s)))))).
Proof.
  intros Hi. unfold ps_increment_nv_counter. call nv_inc_spec.
  - intros _ d (H1 & H2). eauto 8.
  - intros e d [(H1 & H2 & H3)|[H1 H2]]; split; try done; exists d; (split; [done|]).
    + left. split; [done|]. split; [done|]. destruct H3 as [[H3 _]|(_ & _ & _ & H3)]; auto.
    + by right.
Qed.
End CryptoSpec.
