(* ===== verification/PsInv.v ===== *)
(** * Protected Storage: the invariant

    What the object table and the files mean together: a map from (UID,
    client) to objects.  [serving] is the invariant of the running partition,
    [recoverable] what a restart needs to find the map again. *)

From Stdlib Require Import ZArith List Lia Bool.
From stdpp Require Import base tactics gmap list.
From S2P Require Import Prelude Its PsBase PsState PsCrypto PsTable PsBytes.
Import ListNotations.
Local Open Scope Z_scope.

(** The build passes the static checks: the table fits the buffer of an
    object, and sizes are far from 32-bit limits. *)
Record cfg_ok (c : ps_config) : Prop := {
  ok_entries : 1 <= PS_OBJ_TABLE_ENTRIES c;
  ok_table : PS_OBJ_TABLE_SIZE c <= PS_MAX_OBJECT_DATA_SIZE c;
  ok_max : PS_MAX_OBJECT_DATA_SIZE c < 2 ^ 31
}.

Definition key_of (e : ps_obj_table_entry_t) : Z * Z := (entry_uid e, entry_client_id e).
Definition used (e : ps_obj_table_entry_t) : Prop := entry_uid e <> TFM_PS_INVALID_UID.

(** An object: its information and its content. *)
Definition object : Type := ps_object_info_t * list Z.
Abbreviation omap := (gmap (Z * Z) object).

Section Inv.
Context {dev : Type} (V : dev_view dev) (c : ps_config).
Local Abbreviation N := (PS_OBJ_TABLE_ENTRIES c).
Local Abbreviation st := (ps_state dev).

(** ** Tables *)

(** The tag of the table is that of its content and counter value [v]. *)
Definition sealed (t : ps_obj_table_t) (v : Z) : Prop :=
  aead V (iv (hdr_crypto t)) (assoc_data t v) [] = tag (hdr_crypto t).

(** ** Objects *)
Record object_ok (o : object) : Prop := {
  ok_info : wf_info (fst o);
  ok_bytes : bytes (snd o);
  ok_size : current_size (fst o) = Z.of_nat (length (snd o));
  ok_fits : Z.of_nat (length (snd o)) <= PS_MAX_OBJECT_DATA_SIZE c;
  ok_room : Z.of_nat (length (snd o)) <= max_size_ (fst o) <= PS_MAX_OBJECT_DATA_SIZE c
}.

(** File [fid] holds object [o] encrypted; [t] is its tag. *)
Definition file_holds (f : list Z) (fid : Z) (t : list Z) (o : object) : Prop :=
  exists ct i, f = ct ++ i /\ length i = 12%nat /\ length t = 16%nat /\
    aead V i (le_bytes 4 fid) (info_bytes (fst o) ++ snd o) = ct ++ t.

Definition stored (F : gmap Z (list Z)) (i : nat) (e : ps_obj_table_entry_t) (o : object) : Prop :=
  object_ok o /\ exists f, F !! (Z.of_nat i + 3) = Some f /\
    file_holds f (Z.of_nat i + 3) (entry_tag e) o.

(** The same entries are used, with the same content. *)
Definition same_used (l l' : list ps_obj_table_entry_t) : Prop :=
  forall i e, used e -> l !! i = Some e <-> l' !! i = Some e.

(** The entries and the files represent the map. *)
Record repr (db : list ps_obj_table_entry_t) (F : gmap Z (list Z)) (m : omap) : Prop := {
  repr_entry i e : db !! i = Some e -> used e ->
    exists o, m !! key_of e = Some o /\ stored F i e o;
  repr_key k o : m !! k = Some o -> exists i e, db !! i = Some e /\ used e /\ key_of e = k;
  repr_uniq i j e e' : db !! i = Some e -> db !! j = Some e' -> used e -> key_of e = key_of e' -> i = j
}.

(** ** What lasts

    Table file [a] holds a table sealed with [v] that represents [m]; the
    other table file, if any, is older. *)
Record on_flash (p : pstore) (a v : Z) (t : ps_obj_table_t) (m : omap) : Prop := {
  fl_idx : a = 0 \/ a = 1;
  fl_file : p_files p !! (a + 1) = Some (table_bytes t);
  fl_wf : wf_table N t;
  fl_sealed : sealed t v;
  fl_repr : repr (obj_db t) (p_files p) m;
  fl_v : 1 <= v <= nv1 (p_nv p);
  fl_nv : nv1 (p_nv p) < 2 ^ 32;
  fl_other x : p_files p !! (2 - a) = Some x ->
    exists t' w, x = table_bytes t' /\ wf_table N t' /\ sealed t' w /\ 0 <= w < v
}.

Definition recoverable (p : pstore) (m : omap) : Prop :=
  exists a v t, on_flash p a v t m /\
    0 <= nv2 (p_nv p) <= nv1 (p_nv p) /\ 0 <= nv3 (p_nv p) <= nv1 (p_nv p) /\
    (v = nv1 (p_nv p) \/ (v = nv3 (p_nv p) /\ v = nv2 (p_nv p))).

(** ** The running partition

    With [durable], the counters still vouch for the table on flash. *)
Record ram_ok (s : st) : Prop := {
  ram_table : wf_table N (obj_table s);
  ram_crypto : wf_crypto (header_crypto (g_ps_object s));
  ram_data : Z.of_nat (length (data (g_ps_object s))) = PS_MAX_OBJECT_DATA_SIZE c;
  ram_buf : Z.of_nat (length (ps_crypto_buf s)) = PS_CRYPTO_BUF_LEN c;
  ram_iv : iv_ok (ps_crypto_iv_buf s);
  ram_copies : overrun s = false
}.

Record serving (durable : Prop) (s : st) (m : omap) : Prop := {
  sv_ram : ram_ok s;
  sv_scratch : scratch_table s = 1 - active_table s;
  sv_flash : exists v t, on_flash (persist V (the_dev s)) (active_table s) v t m /\
    v <= nv3 (p_nv (persist V (the_dev s))) /\
    (durable -> v = nv3 (p_nv (persist V (the_dev s)))) /\
    same_used (obj_db t) (obj_db (obj_table s));
  sv_nv2 : nv2 (p_nv (persist V (the_dev s))) = nv3 (p_nv (persist V (the_dev s)));
  sv_nv3 : nv3 (p_nv (persist V (the_dev s))) <= nv1 (p_nv (persist V (the_dev s)))
}.

Lemma serving_recoverable s m : serving True s m -> recoverable (persist V (the_dev s)) m.
Proof.
  intros [_ _ (v & t & Hfl & Hv & Hd & _) H2 H3]. specialize (Hd I).
  exists (active_table s), v, t. split; [done|]. pose proof (fl_v _ _ _ _ _ Hfl). lia.
Qed.

(** ** Representation *)
Lemma same_used_refl l : same_used l l.
Proof. done. Qed.
Lemma same_used_trans l1 l2 l3 : same_used l1 l2 -> same_used l2 l3 -> same_used l1 l3.
Proof. intros H1 H2 i e He. by rewrite (H1 i e He), (H2 i e He). Qed.
Lemma same_used_sym l1 l2 : same_used l1 l2 -> same_used l2 l1.
Proof. intros H i e He. by rewrite (H i e He). Qed.

Lemma used_key e e' : key_of e = key_of e' -> used e -> used e'.
Proof. unfold used, key_of. intros [= -> _]. done. Qed.

Lemma repr_same_used db db' F m : same_used db db' -> repr db F m -> repr db' F m.
Proof.
  intros Hs [H1 H2 H3]. split.
  - intros i e Hi Hu. apply (H1 i); [by apply Hs|done].
  - intros k o Hk. destruct (H2 k o Hk) as (i & e & Hi & Hu & He). exists i, e. split; [by apply Hs|done].
  - intros i j e e' Hi Hj Hu He. pose proof (used_key _ _ He Hu).
    apply (H3 i j e e'); [by apply Hs|by apply Hs|done|done].
Qed.

(** Files of no used entry do not matter. *)
Lemma repr_files db F F' m :
  (forall i e, db !! i = Some e -> used e -> F' !! (Z.of_nat i + 3) = F !! (Z.of_nat i + 3)) ->
  repr db F m -> repr db F' m.
Proof.
  intros HF [H1 H2 H3]. split; [|exact H2|exact H3].
  intros i e Hi Hu. destruct (H1 i e Hi Hu) as (o & Ho & Hs & f & Hf & Hh). exists o.
  split; [done|]. split; [done|]. exists f. by rewrite (HF i e).
Qed.

(** The entry of a key. *)
Lemma repr_lookup db F m k : repr db F m ->
  match m !! k with
  | Some o => exists i e, db !! i = Some e /\ used e /\ key_of e = k /\ stored F i e o
  | None => forall i e, db !! i = Some e -> used e -> key_of e <> k
  end.
Proof.
  intros [H1 H2 H3]. destruct (m !! k) as [o|] eqn:Hk.
  - destruct (H2 k o Hk) as (i & e & Hi & Hu & He). exists i, e. do 3 (split; [done|]).
    destruct (H1 i e Hi Hu) as (o' & Ho & Hs). rewrite He, Hk in Ho. by injection Ho as <-.
  - intros i e Hi Hu He. destruct (H1 i e Hi Hu) as (o & Ho & _). congruence.
Qed.

(** A key moves to a free entry. *)
Lemma repr_insert db F m i e o : repr db F m -> (i < length db)%nat ->
  used e -> stored F i e o -> (forall j e', db !! j = Some e' -> used e' -> key_of e' <> key_of e) ->
  (forall e', db !! i = Some e' -> ~ used e') ->
  repr (<[i := e]> db) F (<[key_of e := o]> m).
Proof.
  intros [H1 H2 H3] Hi Hu Hs Hfresh Hfree. split.
  - intros j e'. rewrite list_lookup_insert. case_decide as Hd.
    + destruct Hd as [<- _]. intros [= <-] _. exists o. by rewrite lookup_insert_eq.
    + intros Hj Hu'. destruct (H1 j e' Hj Hu') as (o' & Ho & Hs'). exists o'. split; [|done].
      rewrite lookup_insert_ne; [done|]. intros E. by apply (Hfresh j e').
  - intros k o'. rewrite lookup_insert. case_decide as Hk.
    + intros [= <-]. exists i, e. rewrite list_lookup_insert_eq by done. auto.
    + intros Ho. destruct (H2 k o' Ho) as (j & e' & Hj & Hu' & He). exists j, e'.
      rewrite list_lookup_insert_ne; [auto|]. intros <-. by apply (Hfree e').
  - intros j j' e1 e2. rewrite !list_lookup_insert.
    case_decide as Hd; case_decide as Hd'; try (destruct Hd as [<- _]); try (destruct Hd' as [<- _]).
    + done.
    + intros [= <-] Hj' _ He. exfalso. apply (Hfresh j' e2 Hj'); [by apply (used_key _ _ He)|done].
    + intros Hj [= <-] Hu1 He. exfalso. by apply (Hfresh j e1).
    + intros Hj Hj' Hu1 He. by apply (H3 j j' e1 e2).
Qed.

Lemma zero_unused : ~ used zero_entry.
Proof. by intros []. Qed.

Lemma repr_delete db F m i e : repr db F m -> db !! i = Some e -> used e ->
  repr (<[i := zero_entry]> db) F (delete (key_of e) m).
Proof.
  intros [H1 H2 H3] Hi Hu. pose proof (lookup_lt_Some _ _ _ Hi) as Hlt. split.
  - intros j e'. rewrite list_lookup_insert. case_decide as Hd.
    + intros [= <-] Hz. by apply zero_unused in Hz.
    + intros Hj Hu'. destruct (H1 j e' Hj Hu') as (o' & Ho & Hs'). exists o'. split; [|done].
      rewrite lookup_delete_ne; [done|]. intros E. destruct Hd. split; [|done].
      by apply (H3 i j e e').
  - intros k o'. rewrite lookup_delete. case_decide as Hk; [done|].
    intros Ho. destruct (H2 k o' Ho) as (j & e' & Hj & Hu' & He). exists j, e'.
    rewrite list_lookup_insert_ne; [auto|]. intros <-. congruence.
  - intros j j' e1 e2. rewrite !list_lookup_insert. case_decide as Hd.
    + intros [= <-] _ Hz. by apply zero_unused in Hz.
    + case_decide as Hd'.
      * intros _ [= <-] Hu1 He. apply (used_key _ _ He) in Hu1. by apply zero_unused in Hu1.
      * intros Hj Hj' Hu1 He. by apply (H3 j j' e1 e2).
Qed.

(** ** Searching the entries *)
Lemma find_entry_spec uid cid l i :
  match find_entry uid cid l i with
  | Some k => exists n e, k = i + Z.of_nat n /\ l !! n = Some e /\ key_of e = (uid, cid)
  | None => forall n e, l !! n = Some e -> key_of e <> (uid, cid)
  end.
Proof.
  revert i. induction l as [|e l IH]; intros i; cbn [find_entry]; [by intros n e|].
  destruct (Z.eqb_spec (entry_uid e) uid) as [Hu|Hu]; [destruct (Z.eqb_spec (entry_client_id e) cid) as [Hc|Hc]|];
    cbn [andb].
  - exists 0%nat, e. split; [lia|]. split; [done|]. unfold key_of. by rewrite Hu, Hc.
  - specialize (IH (i + 1)). destruct (find_entry uid cid l (i + 1)) as [k|].
    + destruct IH as (n & e' & -> & Hn & He). exists (S n), e'. split; [lia|done].
    + intros [|n] e' Hn; [|by apply (IH n)]. injection Hn as <-. unfold key_of. congruence.
  - specialize (IH (i + 1)). destruct (find_entry uid cid l (i + 1)) as [k|].
    + destruct IH as (n & e' & -> & Hn & He). exists (S n), e'. split; [lia|done].
    + intros [|n] e' Hn; [|by apply (IH n)]. injection Hn as <-. unfold key_of. congruence.
Qed.

(** Enough free entries: the loop ends on the [k]-th of them. *)
Lemma free_idx_loop_spec l i k last : 0 <= k ->
  match free_idx_loop l i k last with
  | (rest, r) => 0 <= rest <= k /\
      (rest = k \/ exists n e, r = i + Z.of_nat n /\ l !! n = Some e /\ ~ used e) /\
      (rest = k -> r = last)
  end.
Proof.
  revert i k last. induction l as [|e l IH]; intros i k last Hk; cbn [free_idx_loop];
    [split; [lia|auto]|].
  destruct (Z.gtb_spec k 0) as [Hk0|Hk0]; [|split; [lia|auto]].
  destruct (Z.eqb_spec (entry_uid e) TFM_PS_INVALID_UID) as [He|He].
  - specialize (IH (i + 1) (k - 1) i ltac:(lia)).
    destruct (free_idx_loop l (i + 1) (k - 1) i) as [rest r]. destruct IH as (H1 & H2 & H3).
    split; [lia|]. split; [|lia]. right. destruct H2 as [H2|(n & e' & -> & Hn & He')].
    + exists 0%nat, e. rewrite (H3 H2). split; [lia|]. split; [done|]. by intros Hu.
    + exists (S n), e'. split; [lia|done].
  - specialize (IH (i + 1) k last Hk).
    destruct (free_idx_loop l (i + 1) k last) as [rest r]. destruct IH as (H1 & H2 & H3).
    split; [done|]. split; [|done]. destruct H2 as [H2|(n & e' & -> & Hn & He')]; [by left|right].
    exists (S n), e'. split; [lia|done].
Qed.
End Inv.
