(* ===== verification/PsSaveSpec.v ===== *)
(** * Protected Storage: saving the table

    ps_object_table_save_table seals the table with the next counter value,
    writes it to the scratch file and brings the other two counters up. *)

From Stdlib Require Import ZArith List Lia Bool.
From stdpp Require Import base tactics gmap list.
From S2P Require Import Prelude Its PsBase PsState PsCrypto PsTable PsBytes PsInv.
From S2P Require Import Prelude ItsFs Its PsBase PsState PsCrypto PsTable PsObject PsBytes.
From S2P Require Import PsBytes PsInv.
Import ListNotations.
Local Open Scope Z_scope.

Section Save.
Context {dev : Type} (V : dev_view dev) (mf : Prop) {E : PsDev dev} {SP : PsDevSpec V E mf}.
Context (c : ps_config) (Hc : cfg_ok c).
Local Abbreviation N := (PS_OBJ_TABLE_ENTRIES c).
Local Abbreviation st := (ps_state dev).
Implicit Types s : st.

(** ** Bringing the counters up *)
Definition nv_set (i v : Z) (n : nv_counters) : nv_counters :=
  if i =? TFM_PS_NV_COUNTER_1 then {| nv1 := v; nv2 := nv2 n; nv3 := nv3 n |}
  else if i =? TFM_PS_NV_COUNTER_2 then {| nv1 := nv1 n; nv2 := v; nv3 := nv3 n |}
  else {| nv1 := nv1 n; nv2 := nv2 n; nv3 := v |}.

Lemma nv_inc_set i n : nv_inc i n = nv_set i (nv_get i n + 1) n.
Proof. unfold nv_inc, nv_set, nv_get. by repeat case_match. Qed.
Lemma nv_set_set i v w n : nv_set i v (nv_set i w n) = nv_set i v n.
Proof. unfold nv_set. by repeat case_match. Qed.
Lemma nv_get_set i v n : nv_get i (nv_set i v n) = v.
Proof. unfold nv_get, nv_set. by repeat case_match. Qed.
Lemma nv_set_get i n : nv_set i (nv_get i n) n = n.
Proof. destruct n. unfold nv_set, nv_get. by repeat case_match. Qed.

Definition with_nv (p : pstore) (n : nv_counters) : pstore := {| p_files := p_files p; p_nv := n |}.

(** The power went while counter [i] was on its way to [v]. *)
Definition cut_counter (i v : Z) (p p' : pstore) : Prop :=
  exists w, nv_get i (p_nv p) <= w <= v /\ p' = with_nv p (nv_set i w (p_nv p)).

Lemma align_loop_spec i n s : (i = 0 \/ i = 1 \/ i = 2) ->
  let p := persist V (the_dev s) in
  let v := nv_get i (p_nv p) + Z.of_nat n in
  v <= UINT32_MAX -> up V (the_dev s) ->
  wp (align_loop n i) s
    (fun _ s' => exists d, s' = set_dev d s /\ up V d /\ persist V d = with_nv p (nv_set i v (p_nv p)))
    (fun e s' => e = PSA_ERROR_GENERIC_ERROR /\ mf /\ exists d, s' = set_dev d s /\ ~ up V d /\
       cut_counter i v p (persist V d)).
Proof.
  intros Hi p v Hv Hup. subst p v. revert s Hv Hup.
  induction n as [|n IH]; intros s Hv Hup; cbn [align_loop].
  - apply wp_ret. exists (the_dev s). rewrite Z.add_0_r, nv_set_get. split; [by destruct s|].
    split; [done|]. by destruct (persist V (the_dev s)).
  - apply wp_bind. eapply wp_mono; [by apply inc_nv_spec| |].
    + intros _ s1 (d & -> & (_ & Hd & Hp) & Hlt). cbn beta.
      assert (Hg : nv_get i (p_nv (persist V d)) = nv_get i (p_nv (persist V (the_dev s))) + 1).
      { rewrite Hp. cbn. by rewrite nv_inc_set, nv_get_set. }
      eapply wp_mono; [apply IH; cbn; [lia|done]| |].
      * intros _ s2 (d2 & -> & Hd2 & Hp2). exists d2. split; [done|]. split; [done|]. rewrite Hp2. cbn.
        rewrite Hg, Hp. cbn. rewrite nv_inc_set, nv_set_set. unfold with_nv. cbn. do 2 f_equal. lia.
      * intros e s2 (He & Hmf & d2 & -> & Hd2 & w & Hw & Hp2). cbn in Hw, Hp2. split; [done|].
        split; [done|]. exists d2. split; [done|]. split; [done|]. exists w. split; [lia|].
        rewrite Hp2, Hp. cbn. by rewrite nv_inc_set, nv_set_set.
    + intros e s1 (He & d & -> & [(Hmf & Hd & Hp)|[_ Hmax]]); [|lia].
      split; [done|]. split; [done|]. exists d. split; [done|]. split; [done|].
      destruct Hp as [Hp|[_ Hp]].
      * exists (nv_get i (p_nv (persist V (the_dev s)))). split; [lia|]. rewrite Hp, nv_set_get.
        by destruct (persist V (the_dev s)).
      * exists (nv_get i (p_nv (persist V (the_dev s))) + 1). split; [lia|]. rewrite Hp.
        by rewrite <- nv_inc_set.
Qed.

Lemma align_counter_spec i v s : (i = 0 \/ i = 1 \/ i = 2) ->
  let p := persist V (the_dev s) in
  nv_get i (p_nv p) <= v <= UINT32_MAX ->
  wp (align_nv_counter i v) s
    (fun _ s' => exists d, s' = set_dev d s /\ up V d /\ persist V d = with_nv p (nv_set i v (p_nv p)))
    (fun e s' => e = PSA_ERROR_GENERIC_ERROR /\ mf /\ exists d, s' = set_dev d s /\ ~ up V d /\
       cut_counter i v p (persist V d)).
Proof.
  intros Hi p Hv. unfold align_nv_counter. apply wp_bind, wp_on_err.
  eapply wp_mono; [by apply read_nv_spec| |].
  - intros x s1 (d & -> & Hq & Hup & Hup' & ->). cbn beta. pose proof (proj1 (proj1 Hq)) as Hp.
    fold p in Hp. fold p. eapply wp_mono; [apply align_loop_spec; [done| |done]; cbn; rewrite Hp; lia| |].
    + intros _ s2 (d2 & -> & Hd2 & Hp2). exists d2. split; [done|]. split; [done|]. rewrite Hp2. cbn.
      rewrite Hp. f_equal. f_equal. lia.
    + intros e s2 (He & Hmf & d2 & -> & Hd2 & w & Hw & Hp2). cbn in Hw, Hp2. rewrite Hp in Hw, Hp2.
      split; [done|]. split; [done|]. exists d2. split; [done|]. split; [done|].
      exists w. split; [fold p in Hw; lia|done].
  - intros e s1 (He & Hmf & d & -> & Hq & Hd). split; [done|]. split; [done|]. exists d.
    split; [done|]. split; [done|]. exists (nv_get i (p_nv p)). split; [lia|].
    rewrite nv_set_get, (proj1 (proj1 Hq)). fold p. by destruct p.
Qed.

(** Counters 2 and 3 lag behind [v] but do not pass it. *)
Definition counters_within (v : Z) (n n' : nv_counters) : Prop :=
  nv1 n' = nv1 n /\ nv2 n <= nv2 n' <= v /\ nv3 n <= nv3 n' <= v.

Lemma align_spec v s :
  let p := persist V (the_dev s) in
  nv2 (p_nv p) <= v -> nv3 (p_nv p) <= v -> v <= UINT32_MAX ->
  wp (ps_object_table_align_nv_counters v) s
    (fun _ s' => exists d, s' = set_dev d s /\ up V d /\
       persist V d = with_nv p {| nv1 := nv1 (p_nv p); nv2 := v; nv3 := v |})
    (fun e s' => e <> PSA_SUCCESS /\ mf /\ exists d, s' = set_dev d s /\ ~ up V d /\
       p_files (persist V d) = p_files p /\ counters_within v (p_nv p) (p_nv (persist V d))).
Proof.
  intros p H2 H3 Hv. unfold ps_object_table_align_nv_counters. apply wp_bind.
  eapply wp_mono; [apply align_counter_spec; [auto|]; fold p; unfold nv_get; cbn; lia| |].
  - intros _ s1 (d & -> & Hd & Hp). cbn beta. fold p in Hp.
    eapply wp_mono; [apply align_counter_spec; [auto|]; cbn; rewrite Hp; unfold nv_get; cbn; lia| |].
    + intros _ s2 (d2 & -> & Hd2 & Hp2). exists d2. split; [done|]. split; [done|].
      rewrite Hp2. cbn. rewrite Hp. done.
    + intros e s2 (-> & Hmf & d2 & -> & Hd2 & w & Hw & Hp2). cbn in Hw, Hp2. rewrite Hp in Hw, Hp2.
      unfold nv_get in Hw. cbn in Hw. split; [done|]. split; [done|]. exists d2.
      rewrite Hp2. split; [done|]. split; [done|]. split; [done|].
      unfold counters_within. cbn. lia.
  - intros e s1 (-> & Hmf & d & -> & Hd & w & Hw & Hp). fold p in Hw, Hp. unfold nv_get in Hw. cbn in Hw.
    split; [done|]. split; [done|]. exists d. rewrite Hp. split; [done|]. split; [done|].
    split; [done|]. unfold counters_within. cbn. lia.
Qed.

(** ** The frame of a save *)

(** [t'] is [t] with other crypto metadata. *)
Definition resealed (t t' : ps_obj_table_t) : Prop := t' = set_hdr_crypto (hdr_crypto t') t.

Record tframe s s' : Prop := {
  tf_table : resealed (obj_table s) (obj_table s');
  tf_crypto : wf_crypto (hdr_crypto (obj_table s)) /\ bytes (iv (hdr_crypto (obj_table s))) ->
    wf_crypto (hdr_crypto (obj_table s')) /\ bytes (iv (hdr_crypto (obj_table s')));
  tf_object : g_ps_object s' = g_ps_object s;
  tf_fid : info_fid s' = info_fid s;
  tf_buf : ps_crypto_buf s' = ps_crypto_buf s;
  tf_copies : overrun s' = overrun s;
  tf_msg : the_msg s' = the_msg s;
  tf_iv : iv_ok (ps_crypto_iv_buf s) -> iv_ok (ps_crypto_iv_buf s')
}.

Lemma resealed_refl t : resealed t t.
Proof. unfold resealed. by destruct t. Qed.
Lemma resealed_trans t1 t2 t3 : resealed t1 t2 -> resealed t2 t3 -> resealed t1 t3.
Proof. unfold resealed. intros H1 H2. rewrite H1 in H2. rewrite H2 at 1. done. Qed.
Lemma resealed_db t t' : resealed t t' -> obj_db t' = obj_db t.
Proof. unfold resealed. by intros ->. Qed.
Lemma resealed_wf t t' n : resealed t t' ->
  wf_crypto (hdr_crypto t') /\ bytes (iv (hdr_crypto t')) -> wf_table n t -> wf_table n t'.
Proof. unfold resealed. intros -> [Hx Hy] []. by split. Qed.

Lemma tframe_refl s : tframe s s.
Proof. split; auto using resealed_refl. Qed.
Lemma tframe_trans s1 s2 s3 : tframe s1 s2 -> tframe s2 s3 -> tframe s1 s3.
Proof.
  intros [H1 H2 H3 H4 H5 H6 H7 H8] [G1 G2 G3 G4 G5 G6 G7 G8].
  split; try congruence; auto. by eapply resealed_trans.
Qed.
Lemma tframe_cstep s s' : cstep V s s' -> tframe s s'.
Proof. intros (d & k & _ & ->). split; cbn; auto using resealed_refl. Qed.
Lemma tframe_dev s d : tframe s (set_dev d s).
Proof. split; cbn; auto using resealed_refl. Qed.
Lemma tframe_tables s a b : tframe s (set_tables a b s).
Proof. split; cbn; auto using resealed_refl. Qed.
Lemma tframe_wf s s' : tframe s s' -> wf_table N (obj_table s) -> wf_table N (obj_table s').
Proof. intros H Hw. eapply resealed_wf; [apply H|apply H; split; apply Hw|done]. Qed.

(** ** The authentication tag of the table *)
Lemma generate_spec v s : has_key V s -> iv_ok (ps_crypto_iv_buf s) ->
  wp (ps_object_table_nvc_generate_auth_tag v) s
    (fun _ s' => tframe s s' /\ has_key V s' /\ same V (the_dev s) (the_dev s') /\
       active_table s' = active_table s /\ scratch_table s' = scratch_table s /\
       (wf_crypto (hdr_crypto (obj_table s')) /\ bytes (iv (hdr_crypto (obj_table s')))) /\
       sealed V (obj_table s') v)
    (fun e s' => e <> PSA_SUCCESS /\ tframe s s' /\ has_key V s' /\ same V (the_dev s) (the_dev s') /\
       active_table s' = active_table s /\ scratch_table s' = scratch_table s).
Proof.
  intros Hk Hiv. unfold ps_object_table_nvc_generate_auth_tag. apply wp_bind.
  eapply wp_mono; [by apply get_iv_spec| |].
  2:{ intros e s' (-> & -> & _). split; [done|]. split; [apply tframe_refl|]. auto with ps. }
  intros l s1 (-> & Hl & _). cbn beta. apply wp_bind, wp_modify, wp_bind, wp_reads, wp_bind.
  set (s1 := upd_hdr_crypto (set_iv l) (set_iv_buf l s)).
  assert (H1 : tframe s s1).
  { split; cbn; try done.
    intros [[Ht Hi] _]. split; [split; [done|]|]; apply Hl. }
  eapply wp_mono; [by apply generate_auth_tag_spec| |].
  - intros t s2 (Hs2 & Hk2 & Ht & Ha). cbn beta. apply wp_modify.
    pose proof (tframe_cstep _ _ Hs2) as H2. destruct Hs2 as (d & k & Hsame & ->).
    assert (H3 : tframe s (upd_hdr_crypto (set_tag t) (set_key k (set_dev d s1)))).
    { eapply tframe_trans; [exact H1|]. split; cbn; try done.
      intros [[_ Hi] Hb]. by split. }
    split; [exact H3|]. split; [exact Hk2|]. split; [exact Hsame|]. split; [done|]. split; [done|].
    split; [|exact Ha]. split; [split; [done|]|]; apply Hl.
  - intros e s2 (He & _ & Hs2 & Hk2). split; [done|].
    split; [eapply tframe_trans; [exact H1|by apply tframe_cstep]|]. split; [done|].
    destruct Hs2 as (d & k & Hsame & ->). auto.
Qed.

(** ** The save itself *)
Record saved s s' : Prop := {
  sd_frame : tframe s s';
  sd_active : active_table s' = scratch_table s;
  sd_scratch : scratch_table s' = active_table s;
  sd_sealed : sealed V (obj_table s') (nv1 (p_nv (persist V (the_dev s))) + 1);
  sd_wf : wf_table N (obj_table s');
  sd_nv : nv1 (p_nv (persist V (the_dev s))) + 1 < 2 ^ 32;
  sd_up : up V (the_dev s');
  sd_files : p_files (persist V (the_dev s')) =
    <[scratch_table s + 1 := table_bytes (obj_table s')]> (p_files (persist V (the_dev s)));
  sd_counters : let v := nv1 (p_nv (persist V (the_dev s))) + 1 in
    p_nv (persist V (the_dev s')) = {| nv1 := v; nv2 := v; nv3 := v |}
}.

(** Counter 1 may have moved, nothing else. *)
Definition nv_same_or_next (n n' : nv_counters) : Prop :=
  n' = n \/ (nv1 n + 1 < 2 ^ 32 /\ n' = {| nv1 := nv1 n + 1; nv2 := nv2 n; nv3 := nv3 n |}).

Definition unsaved s s' : Prop :=
  tframe s s' /\
  ((active_table s' = active_table s /\ scratch_table s' = scratch_table s /\
    p_files (persist V (the_dev s')) = p_files (persist V (the_dev s)) /\
    nv_same_or_next (p_nv (persist V (the_dev s))) (p_nv (persist V (the_dev s'))) /\
    (up V (the_dev s') -> up V (the_dev s))) \/
   (mf /\ ~ up V (the_dev s') /\ exists t, resealed (obj_table s) t /\ wf_table N t /\
     sealed V t (nv1 (p_nv (persist V (the_dev s))) + 1) /\
     nv1 (p_nv (persist V (the_dev s))) + 1 < 2 ^ 32 /\
     p_files (persist V (the_dev s')) =
       <[scratch_table s + 1 := table_bytes t]> (p_files (persist V (the_dev s))) /\
     counters_within (nv1 (p_nv (persist V (the_dev s))) + 1)
       {| nv1 := nv1 (p_nv (persist V (the_dev s))) + 1; nv2 := nv2 (p_nv (persist V (the_dev s)));
          nv3 := nv3 (p_nv (persist V (the_dev s))) |} (p_nv (persist V (the_dev s'))))).

(** The state after counter 1 moved, before the file is written. *)
Definition counted s s' : Prop :=
  tframe s s' /\ active_table s' = active_table s /\ scratch_table s' = scratch_table s /\
  nv1 (p_nv (persist V (the_dev s))) + 1 < 2 ^ 32 /\ (up V (the_dev s') -> up V (the_dev s)) /\
  persist V (the_dev s') = bump 0 (persist V (the_dev s)).

Lemma counted_unsaved s s' : counted s s' -> unsaved s s'.
Proof.
  intros (H1 & H2 & H3 & H4 & H5 & H6). split; [done|]. left. rewrite H6. cbn.
  do 3 (split; [done|]). split; [|done]. right. split; [done|]. done.
Qed.

Lemma counted_same s s1 s2 : counted s s1 -> tframe s1 s2 -> same V (the_dev s1) (the_dev s2) ->
  active_table s2 = active_table s1 -> scratch_table s2 = scratch_table s1 -> counted s s2.
Proof.
  intros (H1 & H2 & H3 & H4 & H5 & H6) Hf [Hp Hu] Ha Hb.
  split; [by eapply tframe_trans|]. split; [congruence|]. split; [congruence|]. split; [done|].
  split; [auto|]. congruence.
Qed.

Lemma counted_cstep s s1 s2 : counted s s1 -> cstep V s1 s2 -> counted s s2.
Proof.
  intros H Hs. pose proof (tframe_cstep _ _ Hs). destruct Hs as (d & k & Hd & ->).
  by eapply counted_same.
Qed.

(** Writing the sealed table, and the counters after it. *)
Lemma write_and_align_spec s s1 v :
  let n := p_nv (persist V (the_dev s)) in
  v = nv1 n + 1 -> PS_OBJ_TABLE_SIZE c <= its_buf V ->
  nv2 n <= nv1 n -> nv3 n <= nv1 n ->
  counted s s1 -> wf_table N (obj_table s1) -> sealed V (obj_table s1) v ->
  wp (do! ps_object_table_fs_write_table in ps_object_table_align_nv_counters v) s1
    (fun _ s' => saved s s') (fun e s' => e <> PSA_SUCCESS /\ unsaved s s').
Proof.
  intros n Hv Hbuf Hn2 Hn3 Hcount Hwf Hseal.
  pose proof Hcount as (Hf & Ha & Hb & Hlt & Hup & Hp). fold n in Hlt.
  pose proof (ok_entries _ Hc) as HN.
  pose proof (length_table_bytes N (obj_table s1) ltac:(lia) Hwf) as Hlen.
  apply wp_bind. unfold ps_object_table_fs_write_table. apply wp_bind, wp_reads. call its_set_spec.
  - intros _ d (Hu1 & Hu2 & Hd). apply wp_modify. cbn beta.
    eapply wp_mono; [apply align_spec; cbn; rewrite ?Hd, ?Hp; cbn; fold n; unfold UINT32_MAX; lia| |].
    + intros _ s2 (d2 & -> & Hd2 & Hp2). cbn in Hp2. rewrite Hd, Hp in Hp2. cbn in Hp2. fold n in Hp2.
      split; cbn; auto.
      * eapply tframe_trans; [exact Hf|]. eapply tframe_trans; [apply tframe_dev|].
        eapply tframe_trans; [apply tframe_tables|apply tframe_dev].
      * fold n. by rewrite <- Hv.
      * rewrite Hp2. unfold PS_TABLE_FS_ID. by rewrite Hb.
      * rewrite Hp2, Hv. done.
    + intros e s2 (He & Hmf & d2 & -> & Hd2 & Hp2 & Hcw). cbn in Hp2, Hcw.
      rewrite Hd, Hp in Hp2, Hcw. cbn in Hp2, Hcw. split; [done|]. split.
      { eapply tframe_trans; [exact Hf|]. eapply tframe_trans; [apply tframe_dev|].
        eapply tframe_trans; [apply tframe_tables|apply tframe_dev]. }
      right. split; [done|]. split; [done|]. exists (obj_table s1). split; [apply Hf|]. split; [done|].
      fold n. rewrite <- Hv. split; [done|]. split; [lia|].
      split; [|clear -Hcw Hv; unfold n in Hv; rewrite Hv in *; exact Hcw].
      cbn. rewrite Hp2. unfold PS_TABLE_FS_ID. by rewrite Hb.
  - intros e d (He & Hd). cbn beta. split; [done|]. destruct Hd as [Hd|(Hmf & Hu1 & Hu2 & k & Hk & Hkl & Hd)].
    + apply counted_unsaved. eapply counted_same; [exact Hcount|apply tframe_dev|done|done|done].
    + split; [eapply tframe_trans; [exact Hf|apply tframe_dev]|]. right. split; [done|]. split; [done|].
      exists (obj_table s1). split; [apply Hf|]. split; [done|]. fold n. rewrite <- Hv.
      split; [done|]. split; [lia|]. cbn. rewrite Hd, Hp. cbn.
      rewrite Hkl, Nat2Z.id, firstn_all by (unfold PS_OBJ_TABLE_SIZE, PS_OBJECTS_TABLE_ENTRY_SIZE in Hbuf; lia).
      split; [unfold PS_TABLE_FS_ID; by rewrite Hb|]. unfold counters_within. cbn. fold n. lia.
Qed.

Lemma save_spec s :
  let n := p_nv (persist V (the_dev s)) in
  PS_OBJ_TABLE_SIZE c <= its_buf V -> wf_table N (obj_table s) -> iv_ok (ps_crypto_iv_buf s) ->
  nv2 n <= nv1 n -> nv3 n <= nv1 n ->
  wp ps_object_table_save_table s
    (fun _ s' => saved s s') (fun e s' => e <> PSA_SUCCESS /\ unsaved s s').
Proof.
  intros n Hbuf Hwf Hiv Hn2 Hn3. unfold ps_object_table_save_table. apply wp_bind.
  eapply wp_mono; [apply inc_nv_spec; eauto| |].
  2:{ intros e s1 (-> & d & -> & Hd). split; [done|]. split; [apply tframe_dev|]. cbn.
      left. do 2 (split; [done|]).
      destruct Hd as [(_ & Hnu & [Hp|[Hlt Hp]])|[[Hp Hu] _]]; rewrite Hp; (split; [done|]).
      - split; [by left|by intros ?].
      - split; [|by intros ?]. right. split; [|done]. unfold nv_get, UINT32_MAX in Hlt. cbn in Hlt. lia.
      - split; [by left|done]. }
  intros _ s1 (d & -> & (Hu1 & Hu2 & Hp) & Hlt). cbn beta. fold n in Hlt.
  unfold nv_get, UINT32_MAX in Hlt. cbn in Hlt.
  assert (Hcount : counted s (set_dev d s)).
  { split; [apply tframe_dev|]. cbn. fold n. auto 8 with lia. }
  apply wp_bind. eapply wp_mono; [apply read_nv_spec; eauto| |].
  2:{ intros e s2 (-> & _ & d2 & -> & Hq & _). split; [done|]. apply counted_unsaved.
      eapply counted_same; [exact Hcount|apply tframe_dev|by apply quiet_same|done|done]. }
  intros v s2 (d2 & -> & Hq & Hu3 & Hu4 & ->). cbn beta. cbn [the_dev set_dev].
  assert (Hv : nv_get TFM_PS_NV_COUNTER_1 (p_nv (persist V d)) = nv1 n + 1) by (rewrite Hp; done).
  rewrite Hv. clear Hv.
  assert (Hcount2 : counted s (set_dev d2 (set_dev d s))).
  { eapply counted_same; [exact Hcount|apply tframe_dev|by apply quiet_same|done|done]. }
  clear Hcount. set (s2 := set_dev d2 (set_dev d s)) in *.
  assert (Hw2 : wf_table N (obj_table s2) /\ iv_ok (ps_crypto_iv_buf s2)) by done.
  destruct Hw2 as [Hwf2 Hiv2]. clearbody s2. apply wp_bind.
  eapply wp_mono; [by apply setkey_spec| |].
  2:{ intros e s3 (He & _ & Hs3). split; [done|]. apply counted_unsaved. by eapply counted_cstep. }
  intros _ s3 [Hs3 Hk3]. cbn beta. pose proof (counted_cstep _ _ _ Hcount2 Hs3) as Hcount3.
  pose proof (tframe_cstep _ _ Hs3) as Hf3. apply wp_bind, wp_attempt.
  eapply wp_mono; [apply generate_spec; [done|by apply Hf3]| |].
  2:{ intros e s4 (He & Hf4 & Hk4 & Hs4 & Ha4 & Hb4). apply wp_bind.
      apply (attempt_destroykey V mf s4 s4); [done|apply cstep_refl|]. intros r s5 Hs5. apply wp_fail.
      split; [done|]. apply counted_unsaved. eapply counted_cstep; [|exact Hs5].
      by eapply counted_same. }
  intros _ s4 (Hf4 & Hk4 & Hs4 & Ha4 & Hb4 & Hx4 & Hseal4). cbn beta.
  assert (Hcount4 : counted s s4) by by eapply counted_same.
  apply wp_bind. eapply wp_mono; [by apply destroykey_spec| |].
  2:{ intros e s5 (He & _ & Hs5). split; [done|]. apply counted_unsaved. by eapply counted_cstep. }
  intros u5 s5 Hs5. cbn beta. pose proof (tframe_cstep _ _ Hs5) as Hf5.
  assert (Ht5 : obj_table s5 = obj_table s4) by (destruct Hs5 as (? & ? & _ & ->); done).
  eapply write_and_align_spec; eauto.
  - by eapply counted_cstep.
  - rewrite Ht5. eapply resealed_wf; [apply Hf4|done|]. by apply (tframe_wf s2 s3).
  - by rewrite Ht5.
Qed.
End Save.

(** * Protected Storage: encrypted objects

    Reading a file gives back the object it holds, and writing the object
    gives a file that holds it; no copy leaves its buffer. *)

Section ObjectSpec.
Context {dev : Type} (V : dev_view dev) (mf : Prop) {E : PsDev dev} {SP : PsDevSpec V E mf}.
Context (c : ps_config) (Hc : cfg_ok c).
Local Abbreviation MAX := (PS_MAX_OBJECT_DATA_SIZE c).
Local Abbreviation st := (ps_state dev).
Implicit Types s : st.

(** Everything but the current object, the buffers and the device stays. *)
Record oframe s s' : Prop := {
  of_table : obj_table s' = obj_table s;
  of_active : active_table s' = active_table s;
  of_scratch : scratch_table s' = scratch_table s;
  of_fid : info_fid s' = info_fid s;
  of_msg : the_msg s' = the_msg s;
  of_ram : ram_ok c s -> ram_ok c s'
}.

Lemma oframe_refl s : oframe s s.
Proof. by split. Qed.
Lemma oframe_trans s1 s2 s3 : oframe s1 s2 -> oframe s2 s3 -> oframe s1 s3.
Proof. intros [] []. split; try congruence; auto. Qed.
Lemma oframe_cstep s s' : cstep V s s' -> oframe s s'.
Proof. intros (d & k & _ & ->). split; try done. intros []. by split. Qed.
Lemma oframe_object s o : wf_crypto (header_crypto o) ->
  length (data o) = length (data (g_ps_object s)) -> oframe s (set_object o s).
Proof. intros H1 H2. split; try done. intros []. split; try done. cbn. by rewrite H2. Qed.
Lemma oframe_dev s d : oframe s (set_dev d s).
Proof. split; try done. intros []. by split. Qed.
Lemma oframe_buf s l : length l = length (ps_crypto_buf s) -> oframe s (set_buf l s).
Proof. intros H. split; try done. intros []. split; try done. cbn. by rewrite H. Qed.
Lemma oframe_iv s l : iv_ok l -> oframe s (set_iv_buf l s).
Proof. intros H. split; try done. intros []. by split. Qed.

(** ** Sizes *)
Lemma encrypt_size n : 0 <= n <= MAX -> PS_ENCRYPT_SIZE n = n + 12.
Proof.
  intros H. pose proof (ok_max _ Hc). unfold PS_ENCRYPT_SIZE, PS_OBJECT_HEADER_SIZE, sizeof_ps_crypto_t.
  rewrite u32_small; lia.
Qed.
Lemma max_pos : 61 <= MAX.
Proof.
  pose proof (ok_entries _ Hc) as H. unfold PS_OBJ_TABLE_ENTRIES, PS_OBJECTS_TABLE_ENTRY_SIZE, PS_OBJ_TABLE_HDR_SIZE in H.
  destruct (Z_lt_le_dec MAX 61) as [Hl|]; [|done].
  assert ((MAX - 29) / 32 < 1) by (apply Z.div_lt_upper_bound; lia). lia.
Qed.
Lemma max_encrypted : PS_MAX_ENCRYPTED_OBJ_SIZE c = MAX + 12.
Proof. pose proof max_pos. unfold PS_MAX_ENCRYPTED_OBJ_SIZE. apply encrypt_size. lia. Qed.
Lemma buf_len : PS_CRYPTO_BUF_LEN c = MAX + 28.
Proof. unfold PS_CRYPTO_BUF_LEN. rewrite max_encrypted. change PS_TAG_IV_LEN_MAX with 16. lia. Qed.

(** ** Copies *)
Lemma copy_to_payload_spec l n s (Q : unit -> st -> Prop) P :
  ram_ok c s -> 12 <= n <= Z.of_nat (length l) -> n <= payload_room c ->
  (oframe s (set_object (set_payload (overlay 0 (firstn (Z.to_nat n) l)
     (object_payload (g_ps_object s))) (g_ps_object s)) s) ->
   Q tt (set_object (set_payload (overlay 0 (firstn (Z.to_nat n) l)
     (object_payload (g_ps_object s))) (g_ps_object s)) s)) ->
  wp (copy_to_payload c l n) s Q P.
Proof.
  intros Hr Hn Hroom HQ. unfold copy_to_payload. apply wp_bind, wp_check_copy; [lia|].
  apply wp_bind, wp_check_copy; [done|]. apply wp_modify. apply HQ.
  apply oframe_object; [apply Hr|]. unfold set_payload. cbn [data].
  pose proof (ram_data _ _ Hr). unfold payload_room, sizeof_ps_object_info_t in Hroom.
  rewrite length_skipn, length_overlay, length_object_payload; [lia|lia|].
  rewrite length_object_payload, length_firstn. lia.
Qed.

Lemma copy_to_buf_spec off l s (Q : unit -> st -> Prop) P :
  ram_ok c s -> 0 <= off -> off + Z.of_nat (length l) <= PS_CRYPTO_BUF_LEN c ->
  (oframe s (set_buf (overlay off l (ps_crypto_buf s)) s) ->
   Q tt (set_buf (overlay off l (ps_crypto_buf s)) s)) ->
  wp (copy_to_buf c off l) s Q P.
Proof.
  intros Hr Hoff Hroom HQ. unfold copy_to_buf. apply wp_bind, wp_check_copy; [done|].
  apply wp_modify, HQ, oframe_buf. apply length_overlay; [done|]. by rewrite (ram_buf _ _ Hr).
Qed.

(** The key is destroyed, and an error returned. *)
Lemma destroy_and_fail {A} e s (Q : A -> st -> Prop) (P : psa_status_t -> st -> Prop) :
  has_key V s -> (forall s', cstep V s s' -> P e s') ->
  wp (do! attempt ps_crypto_destroykey in fail e) s Q P.
Proof.
  intros Hk HP. apply wp_bind. apply (attempt_destroykey V mf s s); [done|apply cstep_refl|].
  intros r s' Hs. apply wp_fail. by apply HP.
Qed.

(** ** Reading *)
Lemma bytes_info_of i : bytes (info_bytes i).
Proof. unfold info_bytes. rewrite !bytes_app. auto with ps. Qed.
Lemma bytes_plain (o : object) : bytes (snd o) -> bytes (info_bytes (fst o) ++ snd o).
Proof. intros H. apply bytes_app. split; [apply bytes_info_of|done]. Qed.

Definition unchanged s s' : Prop := oframe s s' /\ same V (the_dev s) (the_dev s').

Lemma unchanged_refl s : unchanged s s.
Proof. split; [apply oframe_refl|apply same_refl]. Qed.
Lemma unchanged_trans s1 s2 s3 : unchanged s1 s2 -> unchanged s2 s3 -> unchanged s1 s3.
Proof. intros [H1 H2] [H3 H4]. split; [by eapply oframe_trans|by eapply same_trans]. Qed.
Lemma unchanged_cstep s s' : cstep V s s' -> unchanged s s'.
Proof. intros H. split; [by apply oframe_cstep|]. by destruct H as (d & k & Hd & ->). Qed.

(** The current object holds cipher text [ct] and tag [t]; the file with them
    holds [o]. *)
Lemma auth_decrypt_spec fid ct o s :
  ram_ok c s -> object_ok c o ->
  firstn (length ct) (object_payload (g_ps_object s)) = ct ->
  aead V (iv (header_crypto (g_ps_object s))) (le_bytes 4 fid) (info_bytes (fst o) ++ snd o) =
    ct ++ tag (header_crypto (g_ps_object s)) ->
  length ct = (12 + length (snd o))%nat ->
  wp (ps_object_auth_decrypt c fid (Z.of_nat (length ct))) s
    (fun _ s' => unchanged s s' /\ exists rest,
       g_ps_object s' = {| header_crypto := header_crypto (g_ps_object s); header_info := fst o;
                           data := snd o ++ rest |})
    (fun e s' => e <> PSA_SUCCESS /\ mf /\ unchanged s s').
Proof.
  intros Hr Ho Hct Ha Hlen. pose proof (ok_fits _ _ Ho) as Hfit. pose proof buf_len as Hbl.
  unfold ps_object_auth_decrypt. apply wp_bind. eapply wp_mono; [by apply setkey_spec| |].
  2:{ intros e s1 (He & Hmf & Hs). split; [done|]. split; [done|by apply unchanged_cstep]. }
  intros _ s1 [Hs1 Hk1]. cbn beta. pose proof (unchanged_cstep _ _ Hs1) as H1.
  assert (Hr1 : ram_ok c s1) by by apply H1.
  assert (Hg1 : g_ps_object s1 = g_ps_object s) by (destruct Hs1 as (? & ? & _ & ->); done).
  destruct (Z.gtb_spec (Z.of_nat (length ct)) (PS_CRYPTO_BUF_LEN c)) as [Hgt|_]; [lia|].
  apply wp_bind, wp_reads. rewrite Hg1, Nat2Z.id, Hct. apply wp_bind, copy_to_buf_spec; [done|lia|lia|].
  intros Hf2. set (s2 := set_buf _ s1) in *. assert (Hr2 : ram_ok c s2) by by apply Hf2.
  pose proof (wf_tag _ (ram_crypto _ _ Hr)) as Htag.
  apply wp_bind, copy_to_buf_spec; [done|lia|lia|]. intros Hf3. set (s3 := set_buf _ s2) in *.
  assert (Hr3 : ram_ok c s3) by by apply Hf3. apply wp_bind, wp_reads, wp_bind, wp_attempt.
  assert (Hbuf : firstn (length ct) (ps_crypto_buf s3) = ct).
  { cbn. rewrite overlay_0, overlay_after. by apply firstn_app_exact. }
  rewrite Hbuf.
  assert (H3 : unchanged s s3).
  { eapply unchanged_trans; [exact H1|]. split; [by eapply oframe_trans|apply same_refl]. }
  eapply wp_mono; [apply (auth_and_decrypt_spec V mf); exact Hk1| |]; cbn beta.
  - intros pt s4 (Hs4 & Hk4 & Hb & Hp & Hroom).
    assert (Hpt : pt = info_bytes (fst o) ++ snd o).
    { eapply (aead_inj V (E:=E) (mf:=mf)); [done|apply bytes_plain, Ho|by rewrite <- Hp, <- Ha]. }
    pose proof (unchanged_trans _ _ _ H3 (unchanged_cstep _ _ Hs4)) as H4.
    assert (Hr4 : ram_ok c s4) by by apply H4.
    assert (Hl : length pt = length ct).
    { rewrite Hpt, length_app, length_info_bytes. lia. }
    apply wp_bind, copy_to_payload_spec; [done|lia|exact Hroom|]. intros Hf5.
    set (s5 := set_object _ s4) in *.
    assert (Hg5 : exists rest, g_ps_object s5 = {| header_crypto := header_crypto (g_ps_object s);
      header_info := fst o; data := snd o ++ rest |}).
    { assert (Hg4 : g_ps_object s4 = g_ps_object s1) by (destruct Hs4 as (? & ? & _ & ->); done).
      eexists. unfold s5. cbn [g_ps_object set_object]. rewrite Nat2Z.id, firstn_all, overlay_0, Hpt.
      rewrite <- app_assoc, set_payload_info by apply Ho. by rewrite Hg4, Hg1. }
    assert (H5 : unchanged s s5).
    { eapply unchanged_trans; [exact H4|]. split; [done|apply same_refl]. }
    assert (Hk5 : has_key V s5) by done. clearbody s5.
    destruct (Z.eqb_spec (Z.of_nat (length pt)) (Z.of_nat (length ct))) as [_|]; [|lia].
    eapply wp_mono; [by apply destroykey_spec| |]; cbn beta.
    + intros _ s6 Hs6. split; [eapply unchanged_trans; [exact H5|by apply unchanged_cstep]|].
      destruct Hs6 as (d & k & _ & ->). exact Hg5.
    + intros e s6 (He & Hmf & Hs6). split; [done|]. split; [done|].
      eapply unchanged_trans; [exact H5|by apply unchanged_cstep].
  - intros e s4 (He & Hs4 & Hk4 & Hf). apply destroy_and_fail; [done|].
    intros s5 Hs5. split; [done|]. split.
    + destruct Hf as [Hf|Hf]; [done|]. exfalso.
      specialize (Hf _ (bytes_plain o (ok_bytes _ _ Ho))). rewrite <- Ha in Hf.
      unfold payload_room, sizeof_ps_object_info_t in Hf.
      rewrite length_app, length_info_bytes in Hf. specialize (Hf eq_refl). lia.
    + eapply unchanged_trans; [exact H3|]. eapply unchanged_trans; by apply unchanged_cstep.
Qed.

Lemma file_ct f fid t o : object_ok c o -> file_holds V f fid t o ->
  exists ct i, f = ct ++ i /\ length i = 12%nat /\ length t = 16%nat /\
    aead V i (le_bytes 4 fid) (info_bytes (fst o) ++ snd o) = ct ++ t /\
    length ct = (12 + length (snd o))%nat /\ bytes ct.
Proof.
  intros Ho (ct & i & Hf & Hi & Ht & Ha). exists ct, i. do 4 (split; [done|]).
  pose proof (aead_length V (E:=E) (mf:=mf) i (le_bytes 4 fid) (info_bytes (fst o) ++ snd o)) as Hl.
  pose proof (aead_bytes V (E:=E) (mf:=mf) i (le_bytes 4 fid) (info_bytes (fst o) ++ snd o)) as Hb.
  rewrite Ha in Hl, Hb. rewrite !length_app, length_info_bytes in Hl. unfold PS_TAG_LEN_BYTES in Hl.
  apply bytes_app in Hb as [Hb _]. split; [lia|done].
Qed.

Lemma encrypted_read_spec fid f o s :
  ram_ok c s -> object_ok c o -> p_files (persist V (the_dev s)) !! fid = Some f ->
  file_holds V f fid (tag (header_crypto (g_ps_object s))) o ->
  wp (ps_encrypted_object_read c fid) s
    (fun _ s' => unchanged s s' /\ exists rest i,
       g_ps_object s' = {| header_crypto := set_iv i (header_crypto (g_ps_object s));
                           header_info := fst o; data := snd o ++ rest |})
    (fun e s' => e <> PSA_SUCCESS /\ mf /\ unchanged s s').
Proof.
  intros Hr Ho Hf Hh. apply file_ct in Hh as (ct & i & -> & Hi & Ht & Ha & Hlen & Hb); [|done].
  pose proof (ok_fits _ _ Ho) as Hfit. pose proof buf_len as Hbl. pose proof (ok_max _ Hc) as Hmax.
  unfold ps_encrypted_object_read. rewrite max_encrypted, Hbl. unfold PS_IV_LEN_BYTES.
  destruct (Z.ltb_spec (MAX + 28) (MAX + 12 + 12)) as [|_]; [lia|].
  apply wp_bind. call its_get_spec.
  2:{ intros e d (He & Hq & [Hmf|[Hn|(f & Hf' & Hlt)]]); [|congruence|lia].
      split; [done|]. split; [done|]. split; [apply oframe_dev|by apply quiet_same]. }
  intros l d (Hq & f & Hf' & _ & ->). rewrite Hf in Hf'. injection Hf' as <-.
  rewrite skipn_O, firstn_all2 by (rewrite length_app; lia). apply wp_bind, wp_modify.
  set (l := ct ++ i). assert (Hl : Z.of_nat (length l) = Z.of_nat (length ct) + 12)
    by (unfold l; rewrite length_app; lia).
  assert (H1 : unchanged s (set_buf (overlay 0 l (ps_crypto_buf (set_dev d s))) (set_dev d s))).
  { split; [|by apply quiet_same]. eapply oframe_trans; [apply oframe_dev|]. apply oframe_buf.
    apply length_overlay; [lia|]. cbn. rewrite (ram_buf _ _ Hr). lia. }
  assert (Hr1 : ram_ok c (set_buf (overlay 0 l (ps_crypto_buf (set_dev d s))) (set_dev d s))) by by apply H1.
  set (s1 := set_buf _ _) in *.
  assert (Hg1 : g_ps_object s1 = g_ps_object s) by done.
  assert (Hb1 : ps_crypto_buf s1 = ct ++ i ++ skipn (length l) (ps_crypto_buf s)).
  { cbn. rewrite overlay_0. unfold l at 1. by rewrite <- app_assoc. }
  clearbody s1. cbn zeta. rewrite Hl. rewrite u32_small by lia.
  replace (Z.of_nat (length ct) + 12 - 12) with (Z.of_nat (length ct)) by lia.
  apply wp_bind, wp_reads, wp_bind, copy_to_payload_spec; [done| | |].
  { rewrite (ram_buf _ _ Hr1). lia. }
  { unfold payload_room, sizeof_ps_object_info_t. lia. }
  intros Hf2. set (s2 := set_object _ s1) in *. assert (Hr2 : ram_ok c s2) by by apply Hf2.
  apply wp_bind, wp_modify. rewrite Nat2Z.id, Hb1, take_at_app by done.
  set (s3 := set_object _ s2).
  assert (Hf3 : oframe s2 s3).
  { apply oframe_object; [|done]. split; [apply (ram_crypto _ _ Hr2)|done]. }
  assert (H3 : unchanged s s3).
  { eapply unchanged_trans; [exact H1|]. split; [by eapply oframe_trans|apply same_refl]. }
  assert (Hr3 : ram_ok c s3) by by apply H3.
  assert (Hc3 : header_crypto (g_ps_object s3) = set_iv i (header_crypto (g_ps_object s))).
  { cbn. by rewrite Hg1. }
  assert (Hp3 : firstn (length ct) (object_payload (g_ps_object s3)) = ct).
  { change (object_payload (g_ps_object s3)) with (object_payload (g_ps_object s2)).
    cbn [s2 g_ps_object set_object]. rewrite Nat2Z.id, Hb1, firstn_app_exact, overlay_0 by done.
    rewrite payload_set.
    - by apply firstn_app_exact.
    - rewrite firstn_app. apply bytes_app. split; [by apply bytes_firstn|].
      replace (12 - length ct)%nat with 0%nat by lia. constructor.
    - rewrite length_app. lia. }
  clearbody s3. eapply wp_mono; [apply (auth_decrypt_spec fid ct o); [done|done|done| |done]| |]; cbn beta.
  - by rewrite Hc3.
  - intros _ s4 (H4 & rest & Hg4). split; [by eapply unchanged_trans|]. exists rest, i.
    by rewrite Hg4, Hc3.
  - intros e s4 (He & Hmf & H4). split; [done|]. split; [done|by eapply unchanged_trans].
Qed.

(** ** Writing *)

(** The current object is [o]. *)
Definition current s (o : object) : Prop :=
  header_info (g_ps_object s) = fst o /\ firstn (length (snd o)) (data (g_ps_object s)) = snd o.

Lemma current_payload s o : current s o ->
  firstn (12 + length (snd o)) (object_payload (g_ps_object s)) = info_bytes (fst o) ++ snd o.
Proof.
  intros [Hi Hd]. unfold object_payload. rewrite firstn_app, length_info_bytes.
  replace (12 + length (snd o) - 12)%nat with (length (snd o)) by lia.
  rewrite Hd, Hi. f_equal. apply firstn_all2. rewrite length_info_bytes. lia.
Qed.

(** The buffer starts with the cipher text of [o], and the current object has
    its tag and IV. *)
Definition encrypted s fid (o : object) ct : Prop :=
  firstn (length ct) (ps_crypto_buf s) = ct /\ length ct = (12 + length (snd o))%nat /\
  wf_crypto (header_crypto (g_ps_object s)) /\
  aead V (iv (header_crypto (g_ps_object s))) (le_bytes 4 fid) (info_bytes (fst o) ++ snd o) =
    ct ++ tag (header_crypto (g_ps_object s)).

Lemma encrypted_cstep s s' fid o ct : cstep V s s' -> encrypted s fid o ct -> encrypted s' fid o ct.
Proof. by intros (d & k & _ & ->). Qed.

Lemma auth_encrypt_spec fid o s :
  ram_ok c s -> object_ok c o -> current s o ->
  wp (ps_object_auth_encrypt c fid (12 + Z.of_nat (length (snd o)))) s
    (fun _ s' => unchanged s s' /\ exists ct, encrypted s' fid o ct)
    (fun e s' => e <> PSA_SUCCESS /\ unchanged s s').
Proof.
  intros Hr Ho Hcur. pose proof (ok_fits _ _ Ho) as Hfit. pose proof buf_len as Hbl.
  unfold ps_object_auth_encrypt. apply wp_bind. eapply wp_mono; [by apply setkey_spec| |].
  2:{ intros e s1 (He & Hmf & Hs). split; [done|by apply unchanged_cstep]. }
  intros _ s1 [Hs1 Hk1]. cbn beta. pose proof (unchanged_cstep _ _ Hs1) as H1.
  assert (Hr1 : ram_ok c s1) by by apply H1.
  assert (Hg1 : g_ps_object s1 = g_ps_object s) by (destruct Hs1 as (? & ? & _ & ->); done).
  apply wp_bind. eapply wp_mono; [apply get_iv_spec, Hr1| |].
  2:{ intros e s2 (-> & -> & _). split; done. }
  intros i s2 (-> & Hi & _). cbn beta. apply wp_bind, wp_modify.
  set (s2 := set_object _ (set_iv_buf i s1)).
  assert (H2 : unchanged s s2).
  { eapply unchanged_trans; [exact H1|]. split; [|apply same_refl].
    eapply oframe_trans; [by apply (oframe_iv s1 i)|]. apply oframe_object; [|done].
    split; [apply (ram_crypto _ _ Hr1)|apply Hi]. }
  assert (Hr2 : ram_ok c s2) by by apply H2.
  assert (Hcur2 : current s2 o) by (unfold current, s2; cbn; by rewrite Hg1).
  assert (Hk2 : has_key V s2) by done.
  assert (Hi2 : iv (header_crypto (g_ps_object s2)) = i) by done. clearbody s2.
  apply wp_bind, wp_reads.
  replace (Z.to_nat (12 + Z.of_nat (length (snd o)))) with (12 + length (snd o))%nat by lia.
  rewrite current_payload by done. apply wp_bind, wp_attempt.
  eapply wp_mono; [by apply (encrypt_and_tag_spec V mf)| |]; cbn beta.
  2:{ intros e s3 (He & Hs3 & Hk3 & _). apply destroy_and_fail; [done|].
      intros s4 Hs4. split; [done|]. eapply unchanged_trans; [exact H2|].
      eapply unchanged_trans; by apply unchanged_cstep. }
  intros [out t] s3 (Hs3 & Hk3 & Hlo & Hlt & Ha). cbn [fst snd] in *.
  pose proof (unchanged_trans _ _ _ H2 (unchanged_cstep _ _ Hs3)) as H3.
  assert (Hr3 : ram_ok c s3) by by apply H3.
  assert (Hg3 : g_ps_object s3 = g_ps_object s2) by (destruct Hs3 as (? & ? & _ & ->); done).
  rewrite length_app, length_info_bytes in Hlo.
  apply wp_bind, copy_to_buf_spec; [done|lia|lia|]. intros Hf4. set (s4 := set_buf _ s3) in *.
  apply wp_bind, wp_modify. set (s5 := set_object _ s4).
  assert (H5 : unchanged s s5).
  { eapply unchanged_trans; [exact H3|]. split; [|apply same_refl].
    eapply oframe_trans; [exact Hf4|]. apply oframe_object; [|done].
    split; [done|]. apply (ram_crypto _ _ Hr3). }
  assert (Hr5 : ram_ok c s5) by by apply H5.
  assert (Hb5 : firstn (length out) (ps_crypto_buf s5) = out).
  { cbn. rewrite overlay_0. by apply firstn_app_exact. }
  assert (Hc5 : header_crypto (g_ps_object s5) = {| tag := t; iv := i |}).
  { cbn. unfold set_tag. by rewrite Hg3, Hi2. }
  assert (Hk5 : has_key V s5) by done. clearbody s5. clear s4 Hf4.
  destruct (Z.eqb_spec (Z.of_nat (length out)) (12 + Z.of_nat (length (snd o)))) as [Hlen|]; [|lia].
  cbn [negb]. apply wp_bind, wp_reads, wp_bind, copy_to_payload_spec; [done| | |].
  { rewrite (ram_buf _ _ Hr5). lia. }
  { unfold payload_room, sizeof_ps_object_info_t. lia. }
  intros Hf6. set (s6 := set_object _ s5) in *.
  assert (H6 : unchanged s s6).
  { eapply unchanged_trans; [exact H5|]. split; [done|apply same_refl]. }
  assert (Henc : encrypted s6 fid o out).
  { split; [done|]. split; [lia|]. cbn. rewrite Hc5. cbn. split; [split; [done|apply Hi]|].
    by rewrite <- Ha, Hi2. }
  assert (Hk6 : has_key V s6) by done. clearbody s6.
  eapply wp_mono; [by apply destroykey_spec| |]; cbn beta.
  - intros _ s7 Hs7. split; [eapply unchanged_trans; [exact H6|by apply unchanged_cstep]|].
    exists out. by eapply encrypted_cstep.
  - intros e s7 (He & _ & Hs7). split; [done|].
    eapply unchanged_trans; [exact H6|by apply unchanged_cstep].
Qed.

Lemma encrypted_write_spec fid o s :
  ram_ok c s -> object_ok c o -> current s o ->
  wp (ps_encrypted_object_write c fid) s
    (fun _ s' => oframe s s' /\ exists f,
       became V (the_dev s) (the_dev s') (put_file fid f (persist V (the_dev s))) /\
       file_holds V f fid (tag (header_crypto (g_ps_object s'))) o)
    (fun e s' => e <> PSA_SUCCESS /\ oframe s s' /\
       failed V mf (the_dev s) (the_dev s') (fun p' => exists f, p' = put_file fid f (persist V (the_dev s)))).
Proof.
  intros Hr Ho Hcur. pose proof (ok_fits _ _ Ho) as Hfit. pose proof buf_len as Hbl.
  pose proof (ok_max _ Hc) as Hmax. unfold ps_encrypted_object_write. apply wp_bind, wp_reads.
  rewrite (proj1 Hcur), (ok_size _ _ Ho), encrypt_size by lia.
  replace (Z.of_nat (length (snd o)) + 12) with (12 + Z.of_nat (length (snd o))) by lia.
  apply wp_bind. eapply wp_mono; [by apply auth_encrypt_spec| |]; cbn beta.
  2:{ intros e s1 (He & Hf1 & Hd1). split; [done|]. split; [done|by left]. }
  intros _ s1 (H1 & ct & Hb & Hlen & Hx & Ha). assert (Hr1 : ram_ok c s1) by by apply H1.
  apply wp_bind, wp_reads, wp_bind, copy_to_buf_spec; [done|lia|rewrite (wf_iv _ Hx); lia|].
  intros Hf2. set (s2 := set_buf _ s1) in *. apply wp_bind, wp_reads. cbn zeta.
  unfold PS_IV_LEN_BYTES. rewrite u32_small by lia.
  set (i := iv (header_crypto (g_ps_object s1))) in *.
  assert (Hbuf : firstn (Z.to_nat (12 + Z.of_nat (length (snd o)) + 12)) (ps_crypto_buf s2) = ct ++ i).
  { pose proof (wf_iv _ Hx) as Hi. fold i in Hi. cbn. fold i. unfold overlay.
    replace (Z.to_nat (12 + Z.of_nat (length (snd o)))) with (length ct) by lia. rewrite Hb.
    rewrite app_assoc. apply firstn_app_exact. rewrite length_app. lia. }
  rewrite Hbuf.
  assert (Hf : oframe s s2) by (eapply oframe_trans; [apply H1|exact Hf2]).
  assert (Hd2 : same V (the_dev s) (the_dev s2)) by apply H1.
  call its_set_spec.
  - intros _ d (Hu1 & Hu2 & Hp). split; [eapply oframe_trans; [exact Hf|apply oframe_dev]|].
    exists (ct ++ i). split; [|exists ct, i; by repeat split; [apply Hx|apply Hx|]].
    split; [by apply Hd2|]. split; [done|]. cbn. rewrite Hp. by rewrite (proj1 Hd2).
  - intros e d (He & Hd). split; [done|]. split; [eapply oframe_trans; [exact Hf|apply oframe_dev]|].
    destruct Hd as [Hd|(Hmf & Hu1 & Hu2 & k & _ & _ & Hp)].
    + left. by eapply same_trans.
    + right. split; [done|]. split; [by apply Hd2|]. split; [done|]. eexists. cbn. rewrite Hp, (proj1 Hd2). done.
Qed.
End ObjectSpec.
