(* ===== verification/PsStoreSpec.v ===== *)
(** * Protected Storage: storing an object

    Finding entries, choosing a new file and switching the table over to it:
    the map changes in one step, at the write of the table. *)

From Stdlib Require Import ZArith List Lia Bool.
From stdpp Require Import base tactics gmap list.
From S2P Require Import Prelude ItsFs Its PsBase PsState PsCrypto PsTable PsObject PsBytes.
From S2P Require Import PsBytes PsInv PsSaveSpec.
Import ListNotations.
Local Open Scope Z_scope.

Section Store.
Context {dev : Type} (V : dev_view dev) (mf : Prop) {E : PsDev dev} {SP : PsDevSpec V E mf}.
Context (c : ps_config) (Hc : cfg_ok c) (Hbuf : PS_OBJ_TABLE_SIZE c <= its_buf V).
Local Abbreviation N := (PS_OBJ_TABLE_ENTRIES c).
Local Abbreviation st := (ps_state dev).
Local Abbreviation disk s := (persist V (the_dev s)).
Implicit Types s : st.

(** ** The invariant under small changes *)

(** Files that the tables and the used entries of [db] name are the same. *)
Definition agree (db : list ps_obj_table_entry_t) (p p' : pstore) : Prop :=
  p_nv p' = p_nv p /\
  (forall fid, fid = 1 \/ fid = 2 -> p_files p' !! fid = p_files p !! fid) /\
  (forall i e, db !! i = Some e -> used e ->
     p_files p' !! (Z.of_nat i + 3) = p_files p !! (Z.of_nat i + 3)).

Lemma agree_refl db p : agree db p p.
Proof. done. Qed.

Lemma on_flash_agree p p' a v t m :
  agree (obj_db t) p p' -> on_flash V c p a v t m -> on_flash V c p' a v t m.
Proof.
  intros (Hn & Ht & Hu) [H1 H2 H3 H4 H5 H6 H7 H8].
  split; rewrite ?Hn; try done.
  - rewrite Ht; [done|lia].
  - by eapply repr_files.
  - intros x. rewrite Ht by lia. apply H8.
Qed.

Lemma agree_same_used db db' p p' : same_used db db' -> agree db p p' -> agree db' p p'.
Proof.
  intros Hs (Hn & Ht & Hu). split; [done|]. split; [done|]. intros i e Hi Huse.
  apply (Hu i e); [by apply Hs|done].
Qed.

(** Nothing the invariant speaks of has changed. *)
Lemma serving_ext du s s' m : serving V c du s m ->
  same_used (obj_db (obj_table s)) (obj_db (obj_table s')) ->
  active_table s' = active_table s -> scratch_table s' = scratch_table s ->
  ram_ok c s' -> agree (obj_db (obj_table s)) (disk s) (disk s') -> serving V c du s' m.
Proof.
  intros [H1 H2 (v & t & Hfl & Hv & Hd & Hs) H4 H5] Ht Ha Hb Hr Hg.
  pose proof Hg as (Hn & _ & _). split; rewrite ?Hn; try done; [congruence|].
  exists v, t. rewrite Ha. split; [|split; [done|split; [done|by eapply same_used_trans]]].
  eapply on_flash_agree; [|done]. eapply agree_same_used; [by apply same_used_sym|done].
Qed.

Lemma serving_unchanged du s s' m : unchanged V c s s' -> serving V c du s m -> serving V c du s' m.
Proof.
  intros [Hf [Hp _]] H. eapply serving_ext; [exact H|by rewrite (of_table _ _ _ Hf)|apply Hf|apply Hf| |].
  - apply Hf, H.
  - rewrite Hp. apply agree_refl.
Qed.

Lemma serving_repr du s m : serving V c du s m ->
  repr V c (obj_db (obj_table s)) (p_files (disk s)) m.
Proof.
  intros [_ _ (v & t & Hfl & _ & _ & Hs) _ _]. eapply repr_same_used; [exact Hs|apply Hfl].
Qed.

Lemma serving_len du s m : serving V c du s m -> Z.of_nat (length (obj_db (obj_table s))) = N.
Proof.
  intros H. pose proof (ok_entries _ Hc). rewrite (wf_db _ _ (ram_table _ _ (sv_ram _ _ _ _ _ H))). lia.
Qed.

Lemma entries_small : N < 2 ^ 26.
Proof.
  pose proof (ok_max _ Hc). unfold PS_OBJ_TABLE_ENTRIES, PS_OBJECTS_TABLE_ENTRY_SIZE, PS_OBJ_TABLE_HDR_SIZE.
  apply Z.div_lt_upper_bound; lia.
Qed.

Lemma object_fid i : (i < Z.to_nat N)%nat -> PS_OBJECT_FS_ID (Z.of_nat i) = Z.of_nat i + 3.
Proof.
  intros H. pose proof entries_small. unfold PS_OBJECT_FS_ID, PS_TABLE_FS_ID, PS_OBJ_TABLE_IDX_1.
  rewrite u32_small by lia. lia.
Qed.
Lemma object_idx i : (i < Z.to_nat N)%nat -> PS_OBJECT_FS_ID_TO_IDX (Z.of_nat i + 3) = Z.of_nat i.
Proof.
  intros H. pose proof entries_small. unfold PS_OBJECT_FS_ID_TO_IDX, PS_TABLE_FS_ID, PS_OBJ_TABLE_IDX_1.
  rewrite u32_small by lia. lia.
Qed.

(** ** Looking an object up *)
Lemma entry_idx_spec du s m uid cid : serving V c du s m -> uid <> TFM_PS_INVALID_UID ->
  wp (ps_get_object_entry_idx uid cid) s
    (fun k s' => s' = s /\ exists i e o, k = Z.of_nat i /\ (i < Z.to_nat N)%nat /\
       obj_db (obj_table s) !! i = Some e /\ used e /\ key_of e = (uid, cid) /\
       m !! (uid, cid) = Some o /\ stored V c (p_files (disk s)) i e o)
    (fun e s' => s' = s /\ e = PSA_ERROR_DOES_NOT_EXIST /\ m !! (uid, cid) = None /\
       forall i e', obj_db (obj_table s) !! i = Some e' -> key_of e' <> (uid, cid)).
Proof.
  intros H Huid. pose proof (serving_repr _ _ _ H) as Hr. pose proof (serving_len _ _ _ H) as HN.
  unfold ps_get_object_entry_idx. apply wp_bind, wp_reads.
  pose proof (find_entry_spec uid cid (obj_db (obj_table s)) 0) as Hf.
  destruct (find_entry uid cid (obj_db (obj_table s)) 0) as [k|].
  - destruct Hf as (i & e & -> & Hi & Hk). apply wp_ret. split; [done|].
    assert (Hu : used e) by (unfold used; unfold key_of in Hk; congruence).
    destruct (repr_entry _ _ _ _ _ Hr i e Hi Hu) as (o & Ho & Hs). rewrite Hk in Ho.
    exists i, e, o. pose proof (lookup_lt_Some _ _ _ Hi). split; [lia|]. split; [lia|done].
  - apply wp_fail. split; [done|]. split; [done|]. split; [|exact Hf].
    destruct (m !! (uid, cid)) as [o|] eqn:Ho; [|done]. exfalso.
    destruct (repr_key _ _ _ _ _ Hr _ _ Ho) as (i & e & Hi & _ & Hk). by apply (Hf i e).
Qed.

Lemma entry_at_lookup i e t : obj_db t !! i = Some e -> entry_at (Z.of_nat i) t = e.
Proof. intros H. unfold entry_at. rewrite Nat2Z.id. by apply nth_lookup_Some. Qed.

(** The object information: the file that holds the object, and its tag. *)
Definition located s (i : nat) (o : object) : Prop :=
  info_fid s = Z.of_nat i + 3 /\ object_ok c o /\ exists f,
    p_files (disk s) !! (Z.of_nat i + 3) = Some f /\
    file_holds V f (Z.of_nat i + 3) (tag (header_crypto (g_ps_object s))) o.

Lemma tbl_info_spec du s m uid cid : serving V c du s m -> uid <> TFM_PS_INVALID_UID ->
  wp (ps_object_table_get_obj_tbl_info uid cid) s
    (fun _ s' => serving V c du s' m /\ the_msg s' = the_msg s /\ the_dev s' = the_dev s /\
       exists i e o, (i < Z.to_nat N)%nat /\ obj_db (obj_table s') !! i = Some e /\ used e /\
         key_of e = (uid, cid) /\ m !! (uid, cid) = Some o /\ located s' i o)
    (fun e s' => s' = s /\ e = PSA_ERROR_DOES_NOT_EXIST /\ m !! (uid, cid) = None).
Proof.
  intros H Huid. unfold ps_object_table_get_obj_tbl_info. apply wp_bind.
  eapply wp_mono; [by eapply entry_idx_spec| |]; cbn beta.
  2:{ intros e s' (-> & -> & Hm & _). done. }
  intros k s' (-> & i & e & o & -> & Hi & He & Hu & Hk & Ho & Hs).
  apply wp_bind, wp_modify, wp_bind, wp_reads, wp_modify. cbn [obj_table set_fid].
  rewrite (entry_at_lookup i e _ He). pose proof (sv_ram _ _ _ _ _ H) as Hr.
  set (s1 := set_fid _ s). set (s2 := set_object _ s1).
  pose proof (wf_entries _ _ (ram_table _ _ Hr)) as Hwe. rewrite Forall_lookup in Hwe.
  split; [|split; [done|split; [done|]]].
  - eapply serving_ext; [exact H|apply same_used_refl|done|done| |apply agree_refl].
    assert (Hf : oframe c s1 s2).
    { apply oframe_object; [|done]. split; [apply (Hwe i e He)|apply (ram_crypto _ _ Hr)]. }
    apply Hf. by destruct Hr.
  - exists i, e, o. do 5 (split; [done|]). split; [by apply object_fid|]. split; [apply Hs|].
    destruct Hs as (_ & f & Hf & Hh). exists f. done.
Qed.

(** ** Choosing a new file *)
Definition maybe_dropped (fid : Z) s s' : Prop :=
  exists d, s' = set_dev d s /\ (up V d -> up V (the_dev s)) /\
    (persist V d = disk s \/ persist V d = drop_file fid (disk s)).

Lemma failed_dropped fid s d : failed V mf (the_dev s) d (fun p' => p' = drop_file fid (disk s)) ->
  maybe_dropped fid s (set_dev d s).
Proof. intros [[Hp Hu]|(_ & Hu1 & Hu2 & Hp)]; exists d; auto. Qed.
Lemma became_dropped fid s d : became V (the_dev s) d (drop_file fid (disk s)) ->
  maybe_dropped fid s (set_dev d s).
Proof. intros (Hu1 & Hu2 & Hp). exists d; auto. Qed.

Lemma its_remove_wp fid s :
  wp (on_dev (psa_its_remove fid)) s (fun _ s' => maybe_dropped fid s s')
    (fun e s' => e <> PSA_SUCCESS /\
       (mf \/ (p_files (disk s) !! fid = None /\ e = PSA_ERROR_DOES_NOT_EXIST)) /\
       maybe_dropped fid s s').
Proof.
  call its_remove_spec.
  - intros _ d Hd. by apply became_dropped.
  - intros e d (He & Hr & Hd). split; [done|]. split; [done|]. by apply failed_dropped.
Qed.

Lemma remove_if_any_spec fid s :
  wp (remove_if_any fid) s (fun _ s' => maybe_dropped fid s s')
    (fun e s' => e <> PSA_SUCCESS /\ mf /\ maybe_dropped fid s s').
Proof.
  unfold remove_if_any. apply wp_bind, wp_attempt. eapply wp_mono; [apply its_remove_wp| |]; cbn beta.
  - intros _ s' H. by apply wp_ret.
  - intros e s' (He & Hr & Hd). destruct (Z.eqb_spec e PSA_ERROR_DOES_NOT_EXIST) as [->|Hne].
    + by apply wp_ret.
    + apply wp_fail. split; [done|]. split; [by destruct Hr as [|[_ ?]]|done].
Qed.

(** A file no used entry names may come and go. *)
Lemma agree_drop db i p : (forall e, db !! i = Some e -> ~ used e) ->
  agree db p (drop_file (Z.of_nat i + 3) p).
Proof.
  intros Hi. split; [done|]. cbn. split.
  - intros fid Hf. apply lookup_delete_ne. lia.
  - intros j e Hj Hu. apply lookup_delete_ne. intros Eq. assert (j = i) as -> by lia. by apply (Hi e).
Qed.
Lemma agree_put db i f p : (forall e, db !! i = Some e -> ~ used e) ->
  agree db p (put_file (Z.of_nat i + 3) f p).
Proof.
  intros Hi. split; [done|]. cbn. split.
  - intros fid Hf. apply lookup_insert_ne. lia.
  - intros j e Hj Hu. apply lookup_insert_ne. intros Eq. assert (j = i) as -> by lia. by apply (Hi e).
Qed.

Lemma serving_dropped du s s' m i : serving V c du s m -> maybe_dropped (Z.of_nat i + 3) s s' ->
  (forall e, obj_db (obj_table s) !! i = Some e -> ~ used e) -> serving V c du s' m.
Proof.
  intros H (d & -> & _ & Hd) Hi. eapply serving_ext; [exact H|apply same_used_refl|done|done| |].
  - pose proof (sv_ram _ _ _ _ _ H). by apply (oframe_dev c s d).
  - cbn. destruct Hd as [->| ->]; [apply agree_refl|by apply agree_drop].
Qed.

Lemma free_fid_spec du s m k : serving V c du s m -> k = 1 \/ k = 2 ->
  wp (ps_object_table_get_free_fid k) s
    (fun fid s' => serving V c du s' m /\ (exists d, s' = set_dev d s) /\
       exists i, fid = Z.of_nat i + 3 /\ (i < Z.to_nat N)%nat /\
         forall e, obj_db (obj_table s') !! i = Some e -> ~ used e)
    (fun e s' => e <> PSA_SUCCESS /\ (mf \/ e = PSA_ERROR_INSUFFICIENT_STORAGE) /\
       serving V c du s' m /\ exists d, s' = set_dev d s).
Proof.
  intros H Hk. pose proof (serving_len _ _ _ H) as HN. unfold ps_object_table_get_free_fid, ps_table_free_idx.
  apply wp_bind, wp_bind, wp_reads. destruct (Z.eqb_spec k 0) as [|_]; [lia|].
  pose proof (free_idx_loop_spec (obj_db (obj_table s)) 0 k 0 ltac:(lia)) as Hf.
  destruct (free_idx_loop (obj_db (obj_table s)) 0 k 0) as [rest r].
  destruct Hf as (Hrest & Hr & _). destruct (Z.eqb_spec rest 0) as [->|Hne]; cbn [negb].
  2:{ apply wp_fail. split; [done|]. split; [by right|]. split; [done|]. exists (the_dev s). by destruct s. }
  apply wp_ret. destruct Hr as [Hr|(i & e & -> & Hi & Hu)]; [lia|]. rewrite Z.add_0_l.
  pose proof (lookup_lt_Some _ _ _ Hi) as Hlt. rewrite object_fid by lia.
  assert (Hfree : forall e', obj_db (obj_table s) !! i = Some e' -> ~ used e').
  { intros e' He'. rewrite Hi in He'. by injection He' as <-. }
  apply wp_bind. eapply wp_mono; [apply remove_if_any_spec| |]; cbn beta.
  - intros _ s' Hd. pose proof (serving_dropped du s s' m i H Hd Hfree). apply wp_ret.
    destruct Hd as (d & -> & _). split; [done|]. split; [eauto|]. exists i. split; [done|]. split; [lia|done].
  - intros e' s' (He & Hmf & Hd). pose proof (serving_dropped du s s' m i H Hd Hfree).
    destruct Hd as (d & -> & _). split; [done|]. split; [by left|]. split; [done|]. eauto.
Qed.
(** ** Switching the table over *)

(** [s] has the table [db] that represents [m'] where [s0] has one for [m]. *)
Definition table_for s0 s (db : list ps_obj_table_entry_t) : Prop :=
  obj_table s = set_obj_db db (obj_table s0) /\ active_table s = active_table s0 /\
  scratch_table s = scratch_table s0 /\ the_dev s = the_dev s0.

Lemma serving_bounds du s m : serving V c du s m ->
  nv2 (p_nv (disk s)) <= nv1 (p_nv (disk s)) /\ nv3 (p_nv (disk s)) <= nv1 (p_nv (disk s)) /\
  0 <= nv2 (p_nv (disk s)) /\ 1 <= nv3 (p_nv (disk s)).
Proof.
  intros [_ _ (v & t & Hfl & Hv & _) H2 H3]. pose proof (fl_v _ _ _ _ _ _ _ Hfl). lia.
Qed.

(** The new table on flash, in the file that was the scratch one. *)
Lemma on_flash_next du s0 t m m' p' :
  serving V c du s0 m -> wf_table N t -> sealed V t (nv1 (p_nv (disk s0)) + 1) ->
  nv1 (p_nv (disk s0)) + 1 < 2 ^ 32 -> repr V c (obj_db t) (p_files (disk s0)) m' ->
  p_files p' = <[scratch_table s0 + 1 := table_bytes t]> (p_files (disk s0)) ->
  nv1 (p_nv p') = nv1 (p_nv (disk s0)) + 1 ->
  on_flash V c p' (scratch_table s0) (nv1 (p_nv (disk s0)) + 1) t m'.
Proof.
  intros [Hram Hs (v & t0 & Hfl & Hv & _ & _) H2 H3] Hwf Hseal Hlt Hrep HF Hnv.
  pose proof (fl_idx _ _ _ _ _ _ _ Hfl) as Ha. pose proof (fl_v _ _ _ _ _ _ _ Hfl) as Hv1.
  split; rewrite ?Hnv; try done; try lia.
  - rewrite HF. apply lookup_insert_eq.
  - rewrite HF. eapply repr_files; [|exact Hrep]. intros i e _ _. apply lookup_insert_ne. lia.
  - intros x. rewrite HF, lookup_insert_ne by lia. replace (2 - scratch_table s0) with (active_table s0 + 1) by lia.
    rewrite (fl_file _ _ _ _ _ _ _ Hfl). intros [= <-]. exists t0, v. split; [done|].
    split; [apply Hfl|]. split; [apply Hfl|]. lia.
Qed.

(** A saved table serves the new map. *)
Lemma saved_serving du s0 s s' db m m' :
  serving V c du s0 m -> ram_ok c s -> table_for s0 s db ->
  repr V c db (p_files (disk s0)) m' -> saved V c s s' -> serving V c True s' m'.
Proof.
  intros Hsv Hr (Ht & Ha & Hb & Hd) Hrep [Hf H1 H2 H3 H4 H5 H6 H7 H8]. rewrite Hd in *.
  assert (Hdb : obj_db (obj_table s') = db) by by rewrite (resealed_db _ _ (tf_table _ _ Hf)), Ht.
  pose proof (sv_scratch _ _ _ _ _ Hsv) as Hsc. split.
  - destruct Hr as [G1 G2 G3 G4 G5 G6]. destruct Hf as [F1 F2 F3 F4 F5 F6 F7 F8].
    split; [done|..]; rewrite ?F3, ?F5, ?F6; auto.
  - rewrite H1, H2, Ha, Hb, Hsc. lia.
  - exists (nv1 (p_nv (disk s0)) + 1), (obj_table s'). rewrite H1, Hb, H8. cbn.
    split; [|split; [lia|split; [done|apply same_used_refl]]].
    eapply on_flash_next; try done; [by rewrite Hdb|by rewrite H7, Hb|by rewrite H8].
  - by rewrite H8.
  - rewrite H8. cbn. lia.
Qed.

(** A power failure in the save, with the new table on flash. *)
Lemma cut_recoverable du s0 s s' db m m' t :
  serving V c du s0 m -> table_for s0 s db -> repr V c db (p_files (disk s0)) m' ->
  resealed (obj_table s) t -> wf_table N t -> sealed V t (nv1 (p_nv (disk s)) + 1) ->
  nv1 (p_nv (disk s)) + 1 < 2 ^ 32 ->
  p_files (disk s') = <[scratch_table s + 1 := table_bytes t]> (p_files (disk s)) ->
  counters_within (nv1 (p_nv (disk s)) + 1)
    {| nv1 := nv1 (p_nv (disk s)) + 1; nv2 := nv2 (p_nv (disk s)); nv3 := nv3 (p_nv (disk s)) |}
    (p_nv (disk s')) ->
  recoverable V c (disk s') m'.
Proof.
  intros Hsv (Ht & Ha & Hb & Hd) Hrep Hres Hwf Hseal Hlt HF (Hn1 & Hn2 & Hn3). cbn in Hn1, Hn2, Hn3.
  rewrite Hd in *. pose proof (serving_bounds _ _ _ Hsv) as (B1 & B2 & B3 & B4).
  exists (scratch_table s0), (nv1 (p_nv (disk s0)) + 1), t. split; [|lia].
  eapply on_flash_next; try done; [|by rewrite HF, Hb].
  by rewrite (resealed_db _ _ Hres), Ht.
Qed.

(** A save that came to nothing, after the table in memory was put back. *)
Lemma unsaved_serving du s0 s s' s'' db m :
  serving V c du s0 m -> ram_ok c s -> table_for s0 s db -> tframe s s' ->
  active_table s' = active_table s -> scratch_table s' = scratch_table s ->
  p_files (disk s') = p_files (disk s) -> nv_same_or_next (p_nv (disk s)) (p_nv (disk s')) ->
  (exists db', s'' = set_table (set_obj_db db' (obj_table s')) s' /\ Forall wf_entry db' /\
     length db' = length (obj_db (obj_table s0)) /\ same_used (obj_db (obj_table s0)) db') ->
  serving V c du s'' m.
Proof.
  intros Hsv Hr (Ht & Ha & Hb & Hd) Hf Ha' Hb' HF Hnv (db' & -> & Hw & Hl & Hsame). rewrite Hd in *.
  pose proof (ram_table _ _ (sv_ram _ _ _ _ _ Hsv)) as Hwt0.
  destruct Hsv as [Hr0 Hs (v & t & Hfl & Hv & Hdu & Hsu) H2 H3].
  assert (Hnv' : nv2 (p_nv (disk s')) = nv2 (p_nv (disk s0)) /\ nv3 (p_nv (disk s')) = nv3 (p_nv (disk s0)) /\
    nv1 (p_nv (disk s0)) <= nv1 (p_nv (disk s')) < 2 ^ 32).
  { pose proof (fl_nv _ _ _ _ _ _ _ Hfl). destruct Hnv as [->|[Hlt ->]]; cbn; lia. }
  destruct Hnv' as (N2 & N3 & N1). split; cbn [active_table scratch_table the_dev set_table].
  - destruct Hr as [G1 G2 G3 G4 G5 G6]. destruct Hf as [F1 F2 F3 F4 F5 F6 F7 F8].
    split; cbn; rewrite ?F3, ?F5, ?F6; auto.
    pose proof (F2 (conj (wf_hdr _ _ G1) (wf_hdr_iv _ _ G1))) as [X1 X2]. rewrite F1 in *.
    split; cbn; try done; [apply G1|apply G1|]. rewrite Hl. apply Hwt0.
  - rewrite Hb', Ha'. congruence.
  - exists v, t. rewrite Ha', Ha, N3. cbn. split; [|split; [done|split; [done|by eapply same_used_trans]]].
    destruct Hfl as [L1 L2 L3 L4 L5 L6 L7 L8]. split; rewrite ?HF; try done; lia.
  - by rewrite N2, N3.
  - lia.
Qed.
End Store.
