(* ===== verification/PsUpdateSpec.v ===== *)
(** * Protected Storage: changing the object table

    ps_object_table_set_obj_tbl_info and ps_object_table_delete_object change
    the map or leave it, whatever fails on the way. *)

From Stdlib Require Import ZArith List Lia Bool.
From stdpp Require Import base tactics gmap list.
From S2P Require Import Prelude ItsFs Its PsBase PsState PsCrypto PsTable PsObject PsBytes.
From S2P Require Import PsBytes PsInv PsSaveSpec PsStoreSpec.
Import ListNotations.
Local Open Scope Z_scope.

Section Update.
Context {dev : Type} (V : dev_view dev) (mf : Prop) {E : PsDev dev} {SP : PsDevSpec V E mf}.
Context (c : ps_config) (Hc : cfg_ok c) (Hbuf : PS_OBJ_TABLE_SIZE c <= its_buf V).
Local Abbreviation N := (PS_OBJ_TABLE_ENTRIES c).
Local Abbreviation st := (ps_state dev).
Local Abbreviation disk s := (persist V (the_dev s)).
Local Abbreviation db_of s := (obj_db (obj_table s)).
Implicit Types s : st.

(** An operation that should turn [m] into [m'] failed. *)
Definition not_done (du : Prop) s' (m m' : omap) : Prop :=
  serving V c du s' m \/ (mf /\ serving V c True s' m') \/
  (mf /\ ~ up V (the_dev s') /\ recoverable V c (disk s') m').

(** Entry [i] is free. *)
Definition free_at s (i : nat) : Prop := forall e, db_of s !! i = Some e -> ~ used e.

(** What a change of the table leaves alone. *)
Record uframe s s' : Prop := {
  uf_object : g_ps_object s' = g_ps_object s;
  uf_fid : info_fid s' = info_fid s;
  uf_msg : the_msg s' = the_msg s
}.
Lemma uframe_refl s : uframe s s.
Proof. done. Qed.
Lemma uframe_tframe t s s' : tframe (set_table t s) s' -> uframe s s'.
Proof. intros []. by split. Qed.

(** The table went to the other file. *)
Definition switched s0 s' : Prop :=
  scratch_table s' = active_table s0 /\
  exists x, p_files (disk s') = <[scratch_table s0 + 1 := x]> (p_files (disk s0)).

Lemma switched_scratch du s0 s' m : serving V c du s0 m -> switched s0 s' ->
  is_Some (p_files (disk s') !! (scratch_table s' + 1)).
Proof.
  intros [_ Hs (v & t & Hfl & _) _ _] [Ha (x & HF)]. pose proof (fl_idx _ _ _ _ _ _ _ Hfl).
  rewrite HF, Ha, lookup_insert_ne by lia. rewrite (fl_file _ _ _ _ _ _ _ Hfl). eauto.
Qed.

Lemma switched_object du s0 s' m i e : serving V c du s0 m -> switched s0 s' ->
  db_of s0 !! i = Some e -> used e -> is_Some (p_files (disk s') !! (Z.of_nat i + 3)).
Proof.
  intros H [Ha (x & HF)] Hi Hu. destruct (repr_entry _ _ _ _ _ (serving_repr _ _ _ _ _ H) i e Hi Hu)
    as (o & _ & _ & f & Hf & _).
  destruct H as [_ Hs (v & t & Hfl & _) _ _]. pose proof (fl_idx _ _ _ _ _ _ _ Hfl).
  rewrite HF, lookup_insert_ne by lia. eauto.
Qed.

(** ** Changing one entry and saving the table *)
Lemma save_switch du s0 s db m m' :
  serving V c du s0 m -> ram_ok c s -> table_for s0 s db ->
  repr V c db (p_files (disk s0)) m' ->
  wp ps_object_table_save_table s
    (fun _ s' => serving V c True s' m' /\ tframe s s' /\ switched s0 s')
    (fun e s' => e <> PSA_SUCCESS /\ tframe s s' /\
       ((mf /\ ~ up V (the_dev s') /\ recoverable V c (disk s') m') \/
        forall db', Forall wf_entry db' -> length db' = length (db_of s0) ->
          same_used (db_of s0) db' ->
          serving V c du (set_table (set_obj_db db' (obj_table s')) s') m)).
Proof.
  intros Hsv Hr Ht Hrep. pose proof (serving_bounds _ _ _ _ _ Hsv) as (B1 & B2 & _).
  pose proof Ht as (_ & _ & _ & Hd).
  eapply wp_mono; [apply (save_spec V mf c Hc s Hbuf); [apply Hr|apply Hr|by rewrite Hd..]| |]; cbn beta.
  - intros _ s' H. split; [by eapply saved_serving|]. split; [apply H|].
    destruct Ht as (_ & Ha & Hb & _). split; [by rewrite (sd_scratch _ _ _ _ H), Ha|].
    exists (table_bytes (obj_table s')). by rewrite (sd_files _ _ _ _ H), Hb, Hd.
  - intros e s' (He & Hf & [(Ha & Hb & HF & Hn & _)|(Hmf & Hu & t & X1 & X2 & X3 & X4 & X5 & X6)]).
    + split; [done|]. split; [done|]. right. intros db' H1 H2 H3.
      eapply unsaved_serving; eauto.
    + split; [done|]. split; [done|]. left. split; [done|]. split; [done|].
      eapply cut_recoverable; eauto.
Qed.

Lemma wf_insert i e db : Forall wf_entry db -> wf_entry e -> Forall wf_entry (<[i := e]> db).
Proof. apply Forall_insert. Qed.

Lemma insert_unused db i : (forall e, db !! i = Some e -> ~ used e) -> same_used db (<[i := zero_entry]> db).
Proof.
  intros H j e Hu. rewrite list_lookup_insert. case_decide as Hd; [|done]. destruct Hd as [<- _].
  split; [intros Hj; by destruct (H e Hj)|]. intros [= <-]. by apply zero_unused in Hu.
Qed.

(** Putting a changed entry back. *)
Lemma insert_back db i e : db !! i = Some e -> forall x, same_used db (<[i := e]> (<[i := x]> db)).
Proof.
  intros Hi x j e' Hu. rewrite list_insert_insert_eq, list_insert_id by done. done.
Qed.

Lemma free_at_zeroed s t db i : (i < length db)%nat ->
  free_at (set_table (set_obj_db (<[i := zero_entry]> db) t) s) i.
Proof.
  intros H e. change (obj_db _) with (<[i := zero_entry]> db). rewrite list_lookup_insert_eq by done.
  intros [= <-]. apply zero_unused.
Qed.

Lemma with_db_ram s db : ram_ok c s -> Forall wf_entry db -> length db = length (db_of s) ->
  ram_ok c (set_table (set_obj_db db (obj_table s)) s).
Proof.
  intros [H1 H2 H3 H4 H5 H6] Hw Hl. split; try done. destruct H1 as [G1 G2 G3 G4 G5 G6].
  split; try done. cbn. by rewrite Hl.
Qed.

Lemma db_wf du s m : serving V c du s m -> Forall wf_entry (db_of s).
Proof. intros H. apply (ram_table _ _ (sv_ram _ _ _ _ _ H)). Qed.

(** ** Deleting an object from the table *)
Lemma delete_object_spec du s m uid cid : serving V c du s m -> uid <> TFM_PS_INVALID_UID ->
  wp (ps_object_table_delete_object uid cid) s
    (fun _ s' => serving V c True s' (delete (uid, cid) m) /\ uframe s s' /\ switched s s' /\
       forall i e, db_of s !! i = Some e -> used e -> key_of e = (uid, cid) -> free_at s' i)
    (fun e s' => e <> PSA_SUCCESS /\ uframe s s' /\
       (serving V c du s' m \/
        (mf /\ ~ up V (the_dev s') /\ recoverable V c (disk s') (delete (uid, cid) m)))).
Proof.
  intros H Huid. pose proof (serving_repr _ _ _ _ _ H) as Hrep. pose proof (db_wf _ _ _ H) as Hw.
  unfold ps_object_table_delete_object. apply wp_bind.
  eapply wp_mono; [by apply (entry_idx_spec V c Hc du s m)| |]; cbn beta.
  2:{ intros e s' (-> & -> & _). split; [done|]. split; [apply uframe_refl|by left]. }
  intros k s' (-> & i & e & o & -> & Hi & He & Hu & Hk & Ho & Hs).
  apply wp_bind, wp_reads. rewrite (entry_at_lookup i e _ He).
  apply wp_bind, wp_modify. unfold put_entry. rewrite Nat2Z.id.
  set (db := <[i := zero_entry]> (db_of s)). set (s1 := set_table (set_obj_db db (obj_table s)) s).
  assert (Hwd : Forall wf_entry db) by (apply wf_insert; [done|auto with ps]).
  assert (Hld : length db = length (db_of s)) by apply length_insert.
  assert (Hr1 : ram_ok c s1) by (apply with_db_ram; [apply H|done|done]).
  assert (Hrep1 : repr V c db (p_files (disk s)) (delete (uid, cid) m)).
  { rewrite <- Hk. by apply repr_delete. }
  apply wp_bind, wp_attempt.
  eapply wp_mono; [apply (save_switch du s s1 db m (delete (uid, cid) m)); try done| |]; cbn beta.
  - intros _ s2 (Hsv2 & Hf2 & Hsw). apply wp_ret. split; [done|]. split; [by eapply uframe_tframe|].
    split; [done|].
    intros j e' Hj Hu' Hk'. unfold free_at.
    rewrite (resealed_db _ _ (tf_table _ _ Hf2)). cbn.
    assert (j = i) as -> by (eapply (repr_uniq _ _ _ _ _ Hrep j i e' e); try done; congruence).
    unfold db. rewrite list_lookup_insert_eq by by apply lookup_lt_Some in He. intros e2 [= <-].
    apply zero_unused.
  - intros err s2 (Herr & Hf2 & Hc2). apply wp_bind, wp_modify, wp_fail. split; [done|].
    split; [by destruct Hf2 as [F1 F2 F3 F4 F5 F6 F7 F8]; split|].
    pose proof (resealed_db _ _ (tf_table _ _ Hf2)) as Hdb. cbn in Hdb.
    destruct Hc2 as [Hc2|Hc2]; [by right|left]. rewrite Hdb. apply Hc2.
    + apply wf_insert; [done|]. rewrite Forall_lookup in Hw. by apply (Hw i).
    + by rewrite length_insert.
    + by apply insert_back.
Qed.

(** ** Naming the new file of an object *)
Definition located_free s (i : nat) (o : object) : Prop :=
  (i < Z.to_nat N)%nat /\ free_at s i /\ object_ok c o /\ exists f,
    p_files (disk s) !! (Z.of_nat i + 3) = Some f /\
    file_holds V f (Z.of_nat i + 3) (tag (header_crypto (g_ps_object s))) o.

(** The table with the key moved to entry [i]: it represents the new map. *)
Lemma moved_repr du s m uid cid i e o (backup : option (nat * ps_obj_table_entry_t)) :
  serving V c du s m -> located_free s i o -> used e -> key_of e = (uid, cid) ->
  entry_tag e = tag (header_crypto (g_ps_object s)) ->
  match backup with
  | Some (b, eb) => db_of s !! b = Some eb /\ used eb /\ key_of eb = (uid, cid)
  | None => m !! (uid, cid) = None /\ forall j e', db_of s !! j = Some e' -> key_of e' <> (uid, cid)
  end ->
  let db1 := match backup with Some (b, _) => <[b := zero_entry]> (db_of s) | None => db_of s end in
  repr V c (<[i := e]> db1) (p_files (disk s)) (<[(uid, cid) := o]> m) /\
  (forall e', db1 !! i = Some e' -> ~ used e').
Proof.
  intros H (Hi & Hfree & Hok & f & Hf & Hh) Hu Hk Ht Hb db1.
  pose proof (serving_repr _ _ _ _ _ H) as Hrep. pose proof (serving_len _ _ Hc _ _ _ H) as HN.
  assert (Hst : stored V c (p_files (disk s)) i e o) by (split; [done|]; exists f; by rewrite Ht).
  destruct backup as [[b eb]|].
  - destruct Hb as (Hb & Hub & Hkb).
    assert (Hne : b <> i) by (intros ->; by apply (Hfree eb)).
    assert (Hfree1 : forall e', db1 !! i = Some e' -> ~ used e').
    { intros e'. unfold db1. rewrite list_lookup_insert_ne by done. apply Hfree. }
    split; [|done]. rewrite <- (insert_delete_eq m), <- Hk. apply repr_insert; try done.
    + rewrite Hk, <- Hkb. by apply repr_delete.
    + unfold db1. rewrite length_insert. lia.
    + rewrite Hk. intros j e'. unfold db1. rewrite list_lookup_insert. case_decide as Hd.
      * intros [= <-] Hz. by apply zero_unused in Hz.
      * intros Hj Hu' Hk'. destruct Hd. pose proof (lookup_lt_Some _ _ _ Hb). split; [|done].
        eapply (repr_uniq _ _ _ _ _ Hrep b j eb e'); try done. congruence.
  - destruct Hb as [Hm Hb]. split; [|exact Hfree]. rewrite <- Hk. apply repr_insert; try done.
    + unfold db1. lia.
    + rewrite Hk. intros j e' Hj _. by apply (Hb j).
Qed.
Lemma moved_wf s i e (backup : option (nat * ps_obj_table_entry_t)) :
  Forall wf_entry (db_of s) -> wf_entry e ->
  let db1 := match backup with Some (b, _) => <[b := zero_entry]> (db_of s) | None => db_of s end in
  Forall wf_entry (<[i := e]> db1) /\ length (<[i := e]> db1) = length (db_of s).
Proof.
  intros Hw He db1. rewrite length_insert. unfold db1. destruct backup as [[b eb]|].
  - rewrite length_insert. split; [|done]. apply wf_insert; [|done]. apply wf_insert; auto with ps.
  - split; [by apply wf_insert|done].
Qed.

(** The entries are put back after a failure. *)
Lemma restored s i e (backup : option (nat * ps_obj_table_entry_t)) : free_at s i ->
  match backup with
  | Some (b, eb) => db_of s !! b = Some eb /\ used eb
  | None => True
  end ->
  let db1 := match backup with Some (b, _) => <[b := zero_entry]> (db_of s) | None => db_of s end in
  same_used (db_of s)
    (<[i := zero_entry]> match backup with
                         | Some (b, eb) => <[b := eb]> (<[i := e]> db1)
                         | None => <[i := e]> db1
                         end).
Proof.
  intros Hfree Hb db1. unfold db1. destruct backup as [[b eb]|].
  - destruct Hb as [Hb Hub]. assert (Hne : b <> i) by (intros ->; by apply (Hfree eb)).
    rewrite (list_insert_insert_ne _ b i) by done. rewrite !list_insert_insert_eq, (list_insert_id _ b eb) by done.
    by apply insert_unused.
  - rewrite list_insert_insert_eq. by apply insert_unused.
Qed.

(** The end of ps_object_table_set_obj_tbl_info, after the entry of the old
    file, if any, was deleted. *)
Lemma set_tail_spec du s m uid cid i o (backup : option (nat * ps_obj_table_entry_t)) :
  serving V c du s m -> located_free s i o -> uid <> TFM_PS_INVALID_UID ->
  0 <= uid < 2 ^ 64 -> - 2 ^ 31 <= cid < 2 ^ 31 ->
  match backup with
  | Some (b, eb) => db_of s !! b = Some eb /\ used eb /\ key_of eb = (uid, cid)
  | None => m !! (uid, cid) = None /\ forall j e', db_of s !! j = Some e' -> key_of e' <> (uid, cid)
  end ->
  let db1 := match backup with Some (b, _) => <[b := zero_entry]> (db_of s) | None => db_of s end in
  let e := {| entry_tag := tag (header_crypto (g_ps_object s)); entry_uid := uid;
              entry_client_id := cid; entry_pad := entry_pad (nth i db1 zero_entry) |} in
  let s1 := set_table (set_obj_db (<[i := e]> db1) (obj_table s)) s in
  wp ps_object_table_save_table s1
    (fun _ s' => serving V c True s' (<[(uid, cid) := o]> m) /\ uframe s s' /\ switched s s' /\
       db_of s' = <[i := e]> db1)
    (fun err s' => err <> PSA_SUCCESS /\ uframe s s' /\ db_of s' = <[i := e]> db1 /\
       Forall wf_entry (<[i := e]> db1) /\
       ((mf /\ ~ up V (the_dev s') /\ recoverable V c (disk s') (<[(uid, cid) := o]> m)) \/
        forall db', Forall wf_entry db' -> length db' = length (db_of s) -> same_used (db_of s) db' ->
          serving V c du (set_table (set_obj_db db' (obj_table s')) s') m)).
Proof.
  intros H Hloc Huid Hu64 Hc32 Hb db1 e s1. pose proof (db_wf _ _ _ H) as Hw.
  pose proof (sv_ram _ _ _ _ _ H) as Hr.
  assert (Hwe : wf_entry e).
  { split; cbn; try done; [apply (ram_crypto _ _ Hr)|].
    assert (Hw1 : Forall wf_entry db1) by (unfold db1; destruct backup as [[b eb]|]; [apply wf_insert; auto with ps|done]).
    destruct (nth_in_or_default i db1 zero_entry) as [Hin| ->]; [|apply length_zeros].
    rewrite Forall_forall in Hw1. apply Hw1. by apply list_elem_of_In. }
  pose proof (moved_wf s i e backup Hw Hwe) as [Hw2 Hl2]. fold db1 in Hw2, Hl2.
  pose proof (moved_repr du s m uid cid i e o backup H Hloc Huid eq_refl eq_refl Hb) as [Hrep _].
  fold db1 in Hrep.
  eapply wp_mono; [apply (save_switch du s s1 (<[i := e]> db1) m); [done| |done|exact Hrep]| |]; cbn beta.
  - by apply with_db_ram.
  - intros _ s2 (H2 & Hf & Hsw). split; [done|]. split; [by eapply uframe_tframe|].
    split; [done|]. by rewrite (resealed_db _ _ (tf_table _ _ Hf)).
  - intros err s2 (He & Hf & H2). split; [done|]. split; [by eapply uframe_tframe|].
    split; [by rewrite (resealed_db _ _ (tf_table _ _ Hf))|]. by split.
Qed.

Lemma set_tbl_info_spec du s m uid cid i o :
  serving V c du s m -> located_free s i o -> uid <> TFM_PS_INVALID_UID ->
  0 <= uid < 2 ^ 64 -> - 2 ^ 31 <= cid < 2 ^ 31 ->
  wp (ps_object_table_set_obj_tbl_info c uid cid (Z.of_nat i + 3)) s
    (fun _ s' => serving V c True s' (<[(uid, cid) := o]> m) /\ uframe s s' /\ switched s s' /\
       forall j e, db_of s !! j = Some e -> used e -> key_of e = (uid, cid) -> free_at s' j)
    (fun err s' => err <> PSA_SUCCESS /\ uframe s s' /\ free_at s' i /\
       (serving V c du s' m \/
        (mf /\ ~ up V (the_dev s') /\ recoverable V c (disk s') (<[(uid, cid) := o]> m)))).
Proof.
  intros H Hloc Huid Hu64 Hc32. pose proof Hloc as (Hi & Hfree & _).
  pose proof (serving_len _ _ Hc _ _ _ H) as HN. pose proof (db_wf _ _ _ H) as Hw.
  pose proof (serving_repr _ _ _ _ _ H) as Hrep.
  unfold ps_object_table_set_obj_tbl_info. apply wp_bind, wp_attempt.
  eapply wp_mono; [by apply (entry_idx_spec V c Hc du s m)| |]; cbn beta.
  - intros k s' (-> & b & eb & o' & -> & Hbl & Hb & Hub & Hkb & _ & _).
    assert (Hne : b <> i) by (intros ->; by apply (Hfree eb)).
    pose proof (set_tail_spec du s m uid cid i o (Some (b, eb)) H Hloc Huid Hu64 Hc32
      (conj Hb (conj Hub Hkb))) as Hsave. cbn zeta iota in Hsave.
    apply wp_bind, wp_reads. rewrite (entry_at_lookup b eb _ Hb). apply wp_bind, wp_modify.
    rewrite (object_idx c Hc) by done. rewrite Z.geb_leb.
    destruct (Z.leb_spec (PS_OBJ_TABLE_ENTRIES c) (Z.of_nat i)) as [|_]; [lia|].
    apply wp_bind, wp_modify. unfold put_entry, entry_at. rewrite !Nat2Z.id.
    apply wp_bind, wp_attempt. eapply wp_mono; [exact Hsave| |]; cbn beta.
    + intros _ s2 (H2 & Hf & Hsw & Hdb). apply wp_ret. do 3 (split; [done|]).
      intros j e Hj Huj Hkj. assert (j = b) as ->
        by (eapply (repr_uniq _ _ _ _ _ Hrep j b e eb); try done; congruence).
      unfold free_at. rewrite Hdb, list_lookup_insert_ne, list_lookup_insert_eq by (try done; lia).
      intros e2 [= <-]. apply zero_unused.
    + intros err s2 (He & Hf & Hdb & Hwf & H2). apply wp_bind.
      destruct (Z.eqb_spec (entry_uid eb) TFM_PS_INVALID_UID) as [|_]; [done|]. cbn [negb].
      apply wp_modify, wp_bind, wp_modify, wp_fail.
      unfold put_entry. cbn [obj_table set_table set_obj_db obj_db]. rewrite ?Nat2Z.id, Hdb.
      split; [done|]. split; [by destruct Hf; split|]. split.
      { apply free_at_zeroed. rewrite !length_insert. lia. }
      destruct H2 as [H2|H2]; [by right|left]. apply (H2 (<[i := zero_entry]> (<[b := eb]> _))).
      * rewrite Forall_lookup in Hw. apply wf_insert; [|auto with ps].
        apply wf_insert; [exact Hwf|by apply (Hw b)].
      * by rewrite !length_insert.
      * by apply (restored s i _ (Some (b, eb))).
  - intros e0 s' (-> & -> & Hm & Hno).
    pose proof (set_tail_spec du s m uid cid i o None H Hloc Huid Hu64 Hc32 (conj Hm Hno)) as Hsave.
    cbn zeta iota in Hsave. apply wp_bind, wp_reads, wp_bind, wp_ret.
    rewrite (object_idx c Hc) by done. rewrite Z.geb_leb.
    destruct (Z.leb_spec (PS_OBJ_TABLE_ENTRIES c) (Z.of_nat i)) as [|_]; [lia|].
    apply wp_bind, wp_modify. unfold put_entry, entry_at. rewrite !Nat2Z.id.
    apply wp_bind, wp_attempt. eapply wp_mono; [exact Hsave| |]; cbn beta.
    + intros _ s2 (H2 & Hf & Hsw & Hdb). apply wp_ret. do 3 (split; [done|]).
      intros j e Hj _ Hkj. by destruct (Hno j e Hj).
    + intros err s2 (He & Hf & Hdb & Hwf & H2). apply wp_bind, wp_ret, wp_bind, wp_modify, wp_fail.
      unfold put_entry. cbn [obj_table set_table set_obj_db obj_db]. rewrite ?Nat2Z.id, Hdb.
      split; [done|]. split; [by destruct Hf; split|]. split.
      { apply free_at_zeroed. rewrite !length_insert. lia. }
      destruct H2 as [H2|H2]; [by right|left]. apply (H2 (<[i := zero_entry]> _)).
      * apply wf_insert; [exact Hwf|auto with ps].
      * by rewrite !length_insert.
      * by apply (restored s i _ None).
Qed.
End Update.
