(* ===== verification/PsSystemSpec.v ===== *)
(** * Protected Storage: the object system

    What ps_object_create, ps_object_read, ps_object_write,
    ps_object_get_info and ps_object_delete do to the map of objects. *)

From Stdlib Require Import ZArith List Lia Bool.
From stdpp Require Import base tactics gmap list.
From S2P Require Import Prelude ItsFs Its PsBase PsState PsCrypto PsTable PsObject PsBytes.
From S2P Require Import PsBytes PsInv PsSaveSpec PsStoreSpec PsUpdateSpec.
Import ListNotations.
Local Open Scope Z_scope.

Section System.
Context {dev : Type} (V : dev_view dev) (mf : Prop) {E : PsDev dev} {SP : PsDevSpec V E mf}.
Context (c : ps_config) (Hc : cfg_ok c) (Hbuf : PS_OBJ_TABLE_SIZE c <= its_buf V).
Local Abbreviation N := (PS_OBJ_TABLE_ENTRIES c).
Local Abbreviation MAX := (PS_MAX_OBJECT_DATA_SIZE c).
Local Abbreviation st := (ps_state dev).
Local Abbreviation disk s := (persist V (the_dev s)).
Local Abbreviation db_of s := (obj_db (obj_table s)).
Implicit Types s : st.

(** ** Clearing the current object *)
Lemma wp_clearing {A} (m : M st A) s (Q : A -> st -> Prop) P :
  wp m s (fun a s' => Q a (set_object (zero_object c) s')) (fun e s' => P e (set_object (zero_object c) s')) ->
  wp (clearing c m) s Q P.
Proof. unfold wp, clearing. by destruct (m s) as [[a|e] s']. Qed.

Lemma zero_frame s : ram_ok c s -> oframe c s (set_object (zero_object c) s).
Proof.
  intros Hr. apply oframe_object; [apply wf_zero_crypto|]. cbn. rewrite length_zeros.
  pose proof (ram_data _ _ Hr). lia.
Qed.

Lemma serving_object du s m o : serving V c du s m -> wf_crypto (header_crypto o) ->
  length (data o) = length (data (g_ps_object s)) -> serving V c du (set_object o s) m.
Proof.
  intros H Hx Hl. eapply serving_ext; [exact H|apply same_used_refl|done|done| |apply agree_refl].
  by apply (oframe_object c s o), H.
Qed.

Lemma serving_zero du s m : serving V c du s m -> serving V c du (set_object (zero_object c) s) m.
Proof.
  intros H. pose proof (sv_ram _ _ _ _ _ H) as Hr. apply serving_object; [done|apply wf_zero_crypto|].
  cbn. rewrite length_zeros. pose proof (ram_data _ _ Hr). lia.
Qed.

Lemma serving_fid du s m f : serving V c du s m -> serving V c du (set_fid f s) m.
Proof.
  intros H. eapply serving_ext; [exact H|apply same_used_refl|done|done| |apply agree_refl].
  by destruct (sv_ram _ _ _ _ _ H).
Qed.

Lemma serving_msg du s m x : serving V c du s m -> serving V c du (set_msg x s) m.
Proof.
  intros H. eapply serving_ext; [exact H|apply same_used_refl|done|done| |apply agree_refl].
  by destruct (sv_ram _ _ _ _ _ H).
Qed.

(** ** Removing files *)
Lemma its_remove_down fid s : ~ up V (the_dev s) ->
  wp (on_dev (psa_its_remove fid)) s (fun _ _ => False)
    (fun _ s' => exists d, s' = set_dev d s /\ ~ up V d /\ persist V d = disk s).
Proof.
  intros Hu. apply wp_on_dev.
  eapply wp_mono; [apply (its_remove_spec V (mf:=mf))| |]; cbn beta.
  - by intros _ d (? & _).
  - intros e d (_ & _ & [[Hp Hd]|(_ & ? & _)]); [|done]. exists d. by split; [|split; [auto|]].
Qed.

Lemma serving_drop_scratch du s m d : serving V c du s m ->
  persist V d = disk s \/ persist V d = drop_file (scratch_table s + 1) (disk s) ->
  serving V c du (set_dev d s) m.
Proof.
  intros H Hd. pose proof (sv_ram _ _ _ _ _ H) as Hr.
  destruct H as [_ Hs (v & t & Hfl & Hv & Hdu & Hsu) H2 H3].
  pose proof (fl_idx _ _ _ _ _ _ _ Hfl) as Ha.
  assert (Hn : p_nv (persist V d) = p_nv (disk s)) by (by destruct Hd as [->| ->]).
  split; cbn; rewrite ?Hn; try done; [by apply (oframe_dev c s d)|].
  exists v, t. split; [|done]. destruct Hd as [->| ->]; [done|].
  destruct Hfl as [L1 L2 L3 L4 L5 L6 L7 L8]. split; try done; cbn.
  - rewrite lookup_delete_ne by lia. done.
  - eapply repr_files; [|exact L5]. intros i e _ _. apply lookup_delete_ne. lia.
  - intros x. rewrite lookup_delete. case_decide; [done|]. apply L8.
Qed.

Lemma delete_old_table_spec du s m : serving V c du s m ->
  is_Some (p_files (disk s) !! (scratch_table s + 1)) ->
  wp ps_object_table_delete_old_table s
    (fun _ s' => serving V c du s' m /\ exists d, s' = set_dev d s /\
       persist V d = drop_file (scratch_table s + 1) (disk s))
    (fun e s' => e <> PSA_SUCCESS /\ mf /\ serving V c du s' m /\ exists d, s' = set_dev d s).
Proof.
  intros H [x Hx]. unfold ps_object_table_delete_old_table. apply wp_bind, wp_reads.
  call its_remove_spec.
  - intros _ d (_ & _ & Hp). split; [|eauto]. apply serving_drop_scratch; [done|by right].
  - intros e d (He & Hr & Hd). split; [done|]. split.
    { destruct Hr as [|[Hn _]]; [done|]. unfold PS_TABLE_FS_ID in Hn. congruence. }
    split; [|eauto]. apply serving_drop_scratch; [done|].
    destruct Hd as [[Hp _]|(_ & _ & _ & Hp)]; auto.
Qed.

(** The old table, then the file of the object that was replaced. *)
Lemma remove_old_data_spec du s m j : serving V c du s m ->
  is_Some (p_files (disk s) !! (scratch_table s + 1)) -> free_at s j ->
  is_Some (p_files (disk s) !! (Z.of_nat j + 3)) ->
  wp (ps_remove_old_data (Z.of_nat j + 3)) s
    (fun _ s' => serving V c du s' m /\ the_msg s' = the_msg s)
    (fun e s' => e <> PSA_SUCCESS /\ mf /\ serving V c du s' m /\ the_msg s' = the_msg s).
Proof.
  intros H Hx Hj [f Hf]. unfold ps_remove_old_data. apply wp_bind.
  eapply wp_mono; [by apply delete_old_table_spec| |]; cbn beta.
  2:{ intros e s1 (He & Hmf & Hs & d & ->). done. }
  intros _ s1 (H1 & d & -> & Hp).
  assert (Hsc : scratch_table s < 2).
  { destruct H as [_ Hs (v & t & Hfl & _) _ _]. pose proof (fl_idx _ _ _ _ _ _ _ Hfl). lia. }
  eapply wp_mono; [apply (its_remove_wp V mf)| |]; cbn beta.
  - intros _ s2 Hd. split; [by eapply serving_dropped|]. by destruct Hd as (? & -> & _).
  - intros e s2 (He & Hr & Hd). split; [done|]. split.
    { destruct Hr as [|[Hn _]]; [done|]. cbn in Hn. rewrite Hp in Hn. cbn in Hn.
      rewrite lookup_delete_ne in Hn by lia. congruence. }
    split; [by eapply serving_dropped|]. by destruct Hd as (? & -> & _).
Qed.

(** ** Storing the current object *)
Record store_done s s' (key : Z * Z) : Prop := {
  st_msg : the_msg s' = the_msg s;
  st_table : is_Some (p_files (disk s') !! (scratch_table s' + 1));
  st_old j e : db_of s !! j = Some e -> used e -> key_of e = key ->
    free_at s' j /\ is_Some (p_files (disk s') !! (Z.of_nat j + 3))
}.

Lemma put_serving du s s' m i f : serving V c du s m -> oframe c s s' -> free_at s i ->
  disk s' = put_file (Z.of_nat i + 3) f (disk s) -> serving V c du s' m.
Proof.
  intros H Hf Hi Hp. eapply serving_ext; [exact H|by rewrite (of_table _ _ _ Hf)|apply Hf|apply Hf| |].
  - apply Hf, H.
  - rewrite Hp. by apply agree_put.
Qed.

Lemma store_object_spec du s m uid cid k o :
  serving V c du s m -> current s o -> object_ok c o -> k = 1 \/ k = 2 ->
  uid <> TFM_PS_INVALID_UID -> 0 <= uid < 2 ^ 64 -> - 2 ^ 31 <= cid < 2 ^ 31 ->
  wp (store_object c uid cid k) s
    (fun _ s' => serving V c True s' (<[(uid, cid) := o]> m) /\ store_done s s' (uid, cid))
    (fun e s' => e <> PSA_SUCCESS /\ the_msg s' = the_msg s /\
       (serving V c du s' m \/
        (mf /\ ~ up V (the_dev s') /\ recoverable V c (disk s') (<[(uid, cid) := o]> m)))).
Proof.
  intros H Hcur Hok Hk Huid Hu64 Hc32. unfold store_object. apply wp_bind.
  eapply wp_mono; [by apply (free_fid_spec V mf c Hc du s m)| |]; cbn beta.
  2:{ intros e s1 (He & _ & H1 & d & ->). split; [done|]. split; [done|by left]. }
  intros fid s1 (H1 & (d1 & ->) & i & -> & Hi & Hfree). apply wp_bind, wp_modify.
  pose proof (serving_fid _ _ _ (Z.of_nat i + 3) H1) as H2. set (s2 := set_fid _ _) in *.
  assert (Hcur2 : current s2 o) by done. assert (Hfree2 : free_at s2 i) by done.
  assert (Ht2 : db_of s2 = db_of s /\ the_msg s2 = the_msg s) by done.
  destruct Ht2 as [Hdb2 Hm2]. clearbody s2. clear H1 Hfree d1.
  apply wp_bind. eapply wp_mono; [apply (encrypted_write_spec V mf c Hc _ o); [apply H2|done|done]| |]; cbn beta.
  2:{ intros e s3 (He & Hf3 & Hd3). split; [done|]. split; [by rewrite (of_msg _ _ _ Hf3)|]. left.
      destruct Hd3 as [Hd3|(_ & _ & _ & f & Hd3)]; [|by eapply put_serving].
      by apply (serving_unchanged V c du s2). }
  intros _ s3 (Hf3 & f & (_ & _ & Hp3) & Hh3).
  pose proof (put_serving _ _ _ _ _ _ H2 Hf3 Hfree2 Hp3) as H3.
  assert (Hdb3 : db_of s3 = db_of s) by by rewrite (of_table _ _ _ Hf3).
  assert (Hloc : located_free V c s3 i o).
  { split; [done|]. split; [unfold free_at; by rewrite (of_table _ _ _ Hf3)|]. split; [done|].
    exists f. split; [|done]. rewrite Hp3. apply lookup_insert_eq. }
  apply wp_bind, wp_attempt.
  eapply wp_mono; [by apply (set_tbl_info_spec V mf c Hc Hbuf du s3 m uid cid i o)| |]; cbn beta.
  - intros _ s4 (H4 & Hf4 & Hsw & Hold). apply wp_ret. split; [done|]. split.
    + by rewrite (uf_msg _ _ Hf4), (of_msg _ _ _ Hf3).
    + by apply (switched_scratch V c du s3 s4 m).
    + intros j e Hj Hu Hkj. rewrite <- Hdb3 in Hj. split; [by apply (Hold j e)|].
      by apply (switched_object V c du s3 s4 m j e).
  - intros e s4 (He & Hf4 & Hfree4 & H4). apply wp_bind, wp_attempt.
    assert (Hm4 : the_msg s4 = the_msg s) by by rewrite (uf_msg _ _ Hf4), (of_msg _ _ _ Hf3).
    destruct H4 as [H4|(Hmf & Hu & H4)].
    + eapply wp_mono; [apply (its_remove_wp V mf)| |]; cbn beta.
      * intros _ s5 Hd. apply wp_fail. split; [done|].
        split; [by destruct Hd as (? & -> & _)|left]. by eapply serving_dropped.
      * intros e' s5 (_ & _ & Hd). apply wp_fail. split; [done|].
        split; [by destruct Hd as (? & -> & _)|left]. by eapply serving_dropped.
    + eapply wp_mono; [by apply its_remove_down| |]; cbn beta; [done|].
      intros e' s5 (d & -> & Hd & Hp). apply wp_fail. split; [done|]. split; [done|]. right.
      split; [done|]. split; [done|]. cbn. by rewrite Hp.
Qed.
(** ** The data of the client *)
Definition asset n s : list Z := firstn (Z.to_nat n) (invec 1 (the_msg s)).

Lemma ps_read_asset_spec off n s (Q : unit -> st -> Prop) P :
  ram_ok c s -> 0 <= off -> off + n <= MAX -> 0 <= n ->
  (forall m', let s' := set_object (set_object_data (overlay off (asset n s) (data (g_ps_object s)))
                (g_ps_object s)) (set_msg m' s) in
     length (data (g_ps_object s')) = length (data (g_ps_object s)) ->
     if Z.of_nat (length (asset n s)) =? n then Q tt s' else P PSA_ERROR_PROGRAMMER_ERROR s') ->
  wp (ps_req_mngr_read_asset_data c off n) s Q P.
Proof.
  intros Hr Hoff Hmax Hn HQ. unfold ps_req_mngr_read_asset_data, psa_read.
  apply wp_bind, wp_bind, wp_reads, wp_bind, wp_modify, wp_ret. fold (asset n s).
  assert (Hl : Z.of_nat (length (asset n s)) <= n) by (unfold asset; rewrite length_firstn; lia).
  apply wp_bind, wp_check_copy; [lia|]. apply wp_bind, wp_modify.
  specialize (HQ (set_msg_in (<[1%nat := skipn (Z.to_nat n) (invec 1 (the_msg s))]> (msg_in (the_msg s))) (the_msg s))).
  cbn zeta in HQ. cbn [g_ps_object set_msg] in *.
  assert (Hlen : length (data (set_object_data (overlay off (asset n s) (data (g_ps_object s)))
    (g_ps_object s))) = length (data (g_ps_object s))).
  { cbn. apply length_overlay; [done|]. pose proof (ram_data _ _ Hr). lia. }
  specialize (HQ Hlen). destruct (Z.eqb_spec (Z.of_nat (length (asset n s))) n); cbn [negb];
    [by apply wp_ret|by apply wp_fail].
Qed.

(** The current object after the data was read into it. *)
Lemma loaded_ok du s m' mm n : serving V c du s mm -> 
  length (data (set_object_data (overlay 0 (asset n s) (data (g_ps_object s))) (g_ps_object s))) =
    length (data (g_ps_object s)) ->
  serving V c du (set_object (set_object_data (overlay 0 (asset n s) (data (g_ps_object s)))
    (g_ps_object s)) (set_msg m' s)) mm.
Proof.
  intros H Hl. apply (serving_object _ (set_msg m' s)); [by apply serving_msg|apply H|exact Hl].
Qed.

(** ** Creating an object *)
Definition write_once (o : object) : bool :=
  has_flag (create_flags (fst o)) PSA_STORAGE_FLAG_WRITE_ONCE.

(** The file and table entry of the object that is to be replaced. *)
Definition old_entry s (m : omap) key (old_fid k : Z) : Prop :=
  (old_fid = PS_INVALID_FID /\ k = 2 /\ m !! key = None) \/
  (exists j e o, old_fid = Z.of_nat j + 3 /\ k = 1 /\ db_of s !! j = Some e /\ used e /\
     key_of e = key /\ m !! key = Some o /\ write_once o = false).

(** Reads the object of a key; the callers of ps_encrypted_object_read. *)
Lemma read_located du s m i o : serving V c du s m -> located V c s i o ->
  wp (ps_encrypted_object_read c (info_fid s)) s
    (fun _ s' => serving V c du s' m /\ unchanged V c s s' /\ header_info (g_ps_object s') = fst o /\
       exists rest, data (g_ps_object s') = snd o ++ rest)
    (fun e s' => e <> PSA_SUCCESS /\ mf /\ serving V c du s' m /\ the_msg s' = the_msg s).
Proof.
  intros H (Hfid & Hok & f & Hf & Hh). rewrite Hfid.
  eapply wp_mono; [apply (encrypted_read_spec V mf c Hc _ f o); [apply H|done|done|done]| |]; cbn beta.
  - intros _ s' (H1 & rest & i0 & Hg). split; [by eapply serving_unchanged|]. rewrite Hg. cbn. eauto.
  - intros e s' (He & Hmf & H1). split; [done|]. split; [done|].
    split; [by eapply serving_unchanged|]. apply H1.
Qed.

Lemma serving_info du s m i : serving V c du s m ->
  serving V c du (set_object (set_header_info i (g_ps_object s)) s) m.
Proof. intros H. by apply serving_object; [|apply H|]. Qed.

Lemma lookup_or_empty_spec du s m uid cid fl n :
  serving V c du s m -> uid <> TFM_PS_INVALID_UID ->
  wp (lookup_or_empty c uid cid fl n) s
    (fun r s' => serving V c du s' m /\ the_msg s' = the_msg s /\
       max_size_ (header_info (g_ps_object s')) = n /\
       create_flags (header_info (g_ps_object s')) = fl /\
       old_entry s' m (uid, cid) (fst r) (snd r))
    (fun e s' => e <> PSA_SUCCESS /\ serving V c du s' m /\ the_msg s' = the_msg s /\
       (mf \/ (e = PSA_ERROR_NOT_PERMITTED /\ exists o, m !! (uid, cid) = Some o /\ write_once o = true))).
Proof.
  intros H Huid. unfold lookup_or_empty. apply wp_bind, wp_attempt.
  eapply wp_mono; [by apply (tbl_info_spec V c Hc du s m)| |]; cbn beta.
  - intros _ s1 (H1 & Hm1 & _ & i & e & o & Hi & He & Hu & Hk & Ho & Hloc).
    apply wp_bind, wp_reads, wp_bind.
    eapply wp_mono; [by apply (read_located du s1 m i o)| |]; cbn beta.
    2:{ intros e2 s2 (He2 & Hmf & H2 & Hm2). split; [done|]. split; [done|].
        split; [congruence|by left]. }
    intros _ s2 (H2 & Hun & Hinfo & _). apply wp_bind, wp_reads. rewrite Hinfo.
    fold (write_once o). pose proof (proj1 Hun) as Hf2.
    destruct (write_once o) eqn:Hw.
    + apply wp_fail. split; [done|]. split; [done|]. split; [by rewrite (of_msg _ _ _ Hf2)|]. right. eauto.
    + apply wp_bind, wp_modify, wp_ret. split; [by apply serving_info|].
      split; [cbn; by rewrite (of_msg _ _ _ Hf2)|]. split; [done|]. split; [done|]. right.
      exists i, e, o. cbn. rewrite (proj1 Hloc), (of_table _ _ _ Hf2). done.
  - intros e s1 (-> & -> & Hm). cbn.
    split; [by apply (serving_info du (set_object (zero_object c) s) m), serving_zero|]. split; [done|]. split; [done|]. split; [done|].
    by left.
Qed.
End System.
