(* ===== verification/PsOpsSpec.v ===== *)
(** * Protected Storage: the operations on objects

    Each operation of ps_object_system.c as a step of the map of objects. *)

From Stdlib Require Import ZArith List Lia Bool.
From stdpp Require Import base tactics gmap list.
From S2P Require Import Prelude ItsFs Its PsBase PsState PsCrypto PsTable PsObject PsBytes.
From S2P Require Import PsBytes PsInv PsSaveSpec PsStoreSpec PsUpdateSpec PsSystemSpec.
Import ListNotations.
Local Open Scope Z_scope.

Section Ops.
Context {dev : Type} (V : dev_view dev) (mf : Prop) {E : PsDev dev} {SP : PsDevSpec V E mf}.
Context (c : ps_config) (Hc : cfg_ok c) (Hbuf : PS_OBJ_TABLE_SIZE c <= its_buf V).
Local Abbreviation MAX := (PS_MAX_OBJECT_DATA_SIZE c).
Local Abbreviation st := (ps_state dev).
Local Abbreviation disk s := (persist V (the_dev s)).
Local Abbreviation db_of s := (obj_db (obj_table s)).
Implicit Types s : st.

Lemma not_done_zero du s m m' : not_done V mf c du s m m' ->
  not_done V mf c du (set_object (zero_object c) s) m m'.
Proof.
  intros [H|[[Hmf H]|H]]; [left|right; left; split; [done|]|by right; right];
    by apply serving_zero.
Qed.

(** ** Create *)
Definition new_object (n fl : Z) (l : list Z) : object :=
  ({| current_size := n; max_size_ := n; create_flags := fl |}, l).

(** Requests the interface refuses, with their status. *)
Definition create_denied (m : omap) key n (l : list Z) (e : psa_status_t) : Prop :=
  (MAX < n /\ e = PSA_ERROR_INVALID_ARGUMENT) \/
  (exists o, m !! key = Some o /\ write_once o = true /\ e = PSA_ERROR_NOT_PERMITTED) \/
  (Z.of_nat (length l) < n /\ e = PSA_ERROR_PROGRAMMER_ERROR).
Definition create_allowed (m : omap) key n (l : list Z) : Prop :=
  n <= MAX /\ (forall o, m !! key = Some o -> write_once o = false) /\ Z.of_nat (length l) = n.

(** What is left to do once the new object is in the table. *)
Lemma cleanup_spec s s1 m key old_fid k :
  serving V c True s1 m -> store_done V s s1 key ->
  (old_fid = PS_INVALID_FID \/ exists j e, old_fid = Z.of_nat j + 3 /\ db_of s !! j = Some e /\
     used e /\ key_of e = key) ->
  k = (if old_fid =? PS_INVALID_FID then ps_object_table_delete_old_table
       else ps_remove_old_data old_fid) ->
  wp k s1 (fun _ s' => serving V c True s' m)
    (fun e s' => e <> PSA_SUCCESS /\ mf /\ serving V c True s' m).
Proof.
  intros H Hd Hold ->. destruct Hold as [->|(j & e & -> & Hj & Hu & Hk)].
  - cbn. eapply wp_mono; [apply (delete_old_table_spec V mf c True s1 m H), Hd| |]; cbn beta.
    + by intros _ s' [? _].
    + intros e s' (He & Hmf & H' & _). done.
  - destruct (Z.eqb_spec (Z.of_nat j + 3) PS_INVALID_FID) as [Hz|_]; [unfold PS_INVALID_FID in Hz; lia|].
    destruct (st_old _ _ _ _ Hd j e Hj Hu Hk) as [Hf Hp].
    eapply wp_mono; [apply (remove_old_data_spec V mf c True s1 m j H); [apply Hd|done|done]| |]; cbn beta.
    + by intros _ s' [? _].
    + intros e' s' (He & Hmf & H' & _). done.
Qed.

Lemma object_create_spec du s m uid cid fl n :
  let key := (uid, cid) in let l := asset n s in let m' := <[key := new_object n fl l]> m in
  serving V c du s m -> uid <> TFM_PS_INVALID_UID -> 0 <= uid < 2 ^ 64 -> - 2 ^ 31 <= cid < 2 ^ 31 ->
  0 <= fl < 2 ^ 32 -> 0 <= n < 2 ^ 32 -> bytes (invec 1 (the_msg s)) ->
  wp (ps_object_create c uid cid fl n) s
    (fun _ s' => serving V c True s' m' /\ create_allowed m key n l)
    (fun e s' => e <> PSA_SUCCESS /\
       ((create_denied m key n l e /\ serving V c du s' m) \/
        ((mf \/ create_allowed m key n l) /\ not_done V mf c du s' m m'))).
Proof.
  intros key l m' H Huid Hu64 Hc32 Hfl Hn Hb. unfold ps_object_create.
  rewrite Z.gtb_ltb. destruct (Z.ltb_spec MAX n) as [Hbig|Hfit].
  { apply wp_fail. split; [done|]. left. split; [by left|done]. }
  apply wp_clearing, wp_bind.
  eapply wp_mono; [by apply (lookup_or_empty_spec V mf c Hc du s m)| |]; cbn beta.
  2:{ intros e s1 (He & H1 & _ & Hr). split; [done|]. destruct Hr as [Hmf|(-> & Hw)].
      - right. split; [by left|]. apply not_done_zero. by left.
      - left. split; [|by apply serving_zero]. right. left. destruct Hw as (o & ? & ?). eauto. }
  intros [old_fid k] s1 (H1 & Hm1 & Hmax1 & Hfl1 & Hold). cbn [fst snd] in Hold.
  assert (Hasset : asset n s1 = l) by (unfold asset; by rewrite Hm1).
  assert (Hwo : forall o, m !! key = Some o -> write_once o = false).
  { intros o Ho. destruct Hold as [(_ & _ & Hn0)|(j & e & o' & _ & _ & _ & _ & _ & Ho' & Hw)]; unfold key in Ho; congruence. }
  apply wp_bind, ps_read_asset_spec; [apply H1|lia|lia|lia|]. intros mm s2 Hlen2.
  pose proof (loaded_ok V c du s1 mm m n H1 Hlen2) as H2. fold s2 in H2. rewrite Hasset in *.
  assert (Hl : Z.of_nat (length l) <= n) by (unfold l, asset; rewrite length_firstn; lia).
  destruct (Z.eqb_spec (Z.of_nat (length l)) n) as [Hfull|Hshort].
  2:{ split; [done|]. left. split; [right; right; split; [lia|done]|by apply serving_zero]. }
  assert (Hallow : create_allowed m key n l) by done.
  apply wp_bind, wp_modify.
  set (s3 := set_object _ s2).
  assert (H3 : serving V c du s3 m) by by apply serving_info.
  assert (Hcur : current s3 (new_object n fl l)).
  { split; [unfold s3, s2, set_current_size; cbn; by rewrite Hmax1, Hfl1|].
    unfold s3, s2. cbn. rewrite Hasset, overlay_0.
    by apply firstn_app_exact. }
  assert (Hok : object_ok c (new_object n fl l)).
  { split; cbn; [by split|by apply bytes_firstn|done|lia|lia]. }
  assert (Hdb3 : db_of s3 = db_of s1) by done.
  assert (Hold3 : old_fid = PS_INVALID_FID \/ exists j e, old_fid = Z.of_nat j + 3 /\
    db_of s3 !! j = Some e /\ used e /\ key_of e = key).
  { destruct Hold as [(-> & _)|(j & e & o' & -> & _ & Hj & Hu & Hk & _)]; [by left|right].
    exists j, e. by rewrite Hdb3. }
  assert (Hk : k = 1 \/ k = 2).
  { destruct Hold as [(_ & -> & _)|(j & e & o' & _ & -> & _)]; auto. }
  clearbody s3. clear s2 H2 Hlen2 Hdb3.
  apply wp_bind. eapply wp_mono; [by apply (store_object_spec V mf c Hc Hbuf du s3 m uid cid k)| |]; cbn beta.
  - intros _ s4 (H4 & Hd4). eapply wp_mono; [by eapply (cleanup_spec s3 s4 _ key old_fid)| |]; cbn beta.
    + intros _ s5 H5. split; [by apply serving_zero|done].
    + intros e s5 (He & Hmf & H5). split; [done|]. right. split; [by left|].
      apply not_done_zero. right; left. done.
  - intros e s4 (He & _ & H4). split; [done|]. right. split; [by right|]. apply not_done_zero.
    destruct H4 as [H4|H4]; [by left|by right; right].
Qed.
(** ** Read *)
Definition part (off n : Z) (l : list Z) : list Z := firstn (Z.to_nat n) (skipn (Z.to_nat off) l).

Definition read_denied (m : omap) key off (e : psa_status_t) : Prop :=
  (m !! key = None /\ e = PSA_ERROR_DOES_NOT_EXIST) \/
  (exists o, m !! key = Some o /\ Z.of_nat (length (snd o)) < off /\ e = PSA_ERROR_INVALID_ARGUMENT).

Lemma object_read_spec du s m uid cid off n :
  let key := (uid, cid) in
  serving V c du s m -> uid <> TFM_PS_INVALID_UID -> 0 <= off < 2 ^ 32 -> 0 <= n < 2 ^ 32 ->
  wp (ps_object_read c uid cid off n) s
    (fun k s' => serving V c du s' m /\ exists o, m !! key = Some o /\
       off <= Z.of_nat (length (snd o)) /\ k = Z.min n (Z.of_nat (length (snd o)) - off) /\
       the_msg s' = set_msg_out (<[0%nat := nth 0 (msg_out (the_msg s)) [] ++ part off k (snd o)]>
                                   (msg_out (the_msg s))) (the_msg s))
    (fun e s' => e <> PSA_SUCCESS /\ serving V c du s' m /\ the_msg s' = the_msg s /\
       (mf \/ read_denied m key off e)).
Proof.
  intros key H Huid Hoff Hn. unfold ps_object_read. apply wp_bind.
  eapply wp_mono; [by apply (tbl_info_spec V c Hc du s m)| |]; cbn beta.
  2:{ intros e s1 (-> & -> & Hm). split; [done|]. split; [done|]. split; [done|]. right. by left. }
  intros _ s1 (H1 & Hm1 & _ & i & e & o & Hi & He & Hu & Hk & Ho & Hloc).
  pose proof (proj1 (proj2 Hloc)) as Hok. pose proof (ok_size _ _ Hok) as Hsz. pose proof (ok_fits _ _ Hok) as Hfit.
  pose proof (ok_max _ Hc) as Hmax.
  apply wp_clearing, wp_bind, wp_reads, wp_bind.
  eapply wp_mono; [by apply (read_located V mf c Hc du s1 m i o)| |]; cbn beta.
  2:{ intros e2 s2 (He2 & Hmf & H2 & Hm2). split; [done|]. split; [by apply serving_zero|].
      split; [cbn; congruence|by left]. }
  intros _ s2 (H2 & Hun & Hinfo & rest & Hdata). pose proof (of_msg _ _ _ (proj1 Hun)) as Hm2.
  rewrite Hm1 in Hm2. apply wp_bind, wp_reads. rewrite Hinfo, Hsz, Z.gtb_ltb.
  destruct (Z.ltb_spec (Z.of_nat (length (snd o))) off) as [Hbig|Hin].
  { apply wp_fail. split; [done|]. split; [by apply serving_zero|]. split; [done|]. right. right. eauto. }
  rewrite u32_small by lia.
  assert (Hmin : PS_UTILS_MIN n (Z.of_nat (length (snd o)) - off) =
    Z.min n (Z.of_nat (length (snd o)) - off)).
  { unfold PS_UTILS_MIN. destruct (Z.ltb_spec n (Z.of_nat (length (snd o)) - off)); lia. }
  rewrite Hmin. set (k := Z.min _ _). apply wp_bind. unfold ps_req_mngr_write_asset_data, psa_write.
  apply wp_bind, wp_check_copy; [lia|]. apply wp_bind, wp_reads, wp_bind, wp_reads, wp_modify, wp_ret.
  split; [apply serving_zero; by apply serving_msg|]. exists o. split; [done|]. split; [done|].
  split; [done|]. cbn [the_msg set_object set_msg]. rewrite Hm2, Hdata. unfold part.
  rewrite skipn_app, firstn_app.
  replace (Z.to_nat k - length (skipn (Z.to_nat off) (snd o)))%nat with 0%nat
    by (rewrite length_skipn; lia).
  by rewrite firstn_O, app_nil_r.
Qed.

(** ** Information *)
Lemma object_get_info_spec du s m uid cid :
  let key := (uid, cid) in
  serving V c du s m -> uid <> TFM_PS_INVALID_UID ->
  wp (ps_object_get_info c uid cid) s
    (fun r s' => serving V c du s' m /\ the_msg s' = the_msg s /\ exists o, m !! key = Some o /\
       r = (Z.of_nat (length (snd o)), create_flags (fst o)))
    (fun e s' => e <> PSA_SUCCESS /\ serving V c du s' m /\ the_msg s' = the_msg s /\
       (mf \/ (m !! key = None /\ e = PSA_ERROR_DOES_NOT_EXIST))).
Proof.
  intros key H Huid. unfold ps_object_get_info. apply wp_bind.
  eapply wp_mono; [by apply (tbl_info_spec V c Hc du s m)| |]; cbn beta.
  2:{ intros e s1 (-> & -> & Hm). split; [done|]. split; [done|]. split; [done|]. by right. }
  intros _ s1 (H1 & Hm1 & _ & i & e & o & Hi & He & Hu & Hk & Ho & Hloc).
  pose proof (ok_size _ _ (proj1 (proj2 Hloc))) as Hsz.
  apply wp_clearing, wp_bind, wp_reads, wp_bind.
  eapply wp_mono; [by apply (read_located V mf c Hc du s1 m i o)| |]; cbn beta.
  2:{ intros e2 s2 (He2 & Hmf & H2 & Hm2). split; [done|]. split; [by apply serving_zero|].
      split; [cbn; congruence|by left]. }
  intros _ s2 (H2 & Hun & Hinfo & _). pose proof (of_msg _ _ _ (proj1 Hun)) as Hm2.
  apply wp_bind, wp_reads, wp_ret. rewrite Hinfo, Hsz.
  split; [by apply serving_zero|]. split; [cbn; congruence|]. eauto.
Qed.

(** ** Delete *)
Definition delete_denied (m : omap) key (e : psa_status_t) : Prop :=
  (m !! key = None /\ e = PSA_ERROR_DOES_NOT_EXIST) \/
  (exists o, m !! key = Some o /\ write_once o = true /\ e = PSA_ERROR_NOT_PERMITTED).
Definition delete_allowed (m : omap) key : Prop := exists o, m !! key = Some o /\ write_once o = false.

Lemma object_delete_spec du s m uid cid :
  let key := (uid, cid) in let m' := delete key m in
  serving V c du s m -> uid <> TFM_PS_INVALID_UID ->
  wp (ps_object_delete c uid cid) s
    (fun _ s' => serving V c True s' m' /\ delete_allowed m key)
    (fun e s' => e <> PSA_SUCCESS /\
       ((delete_denied m key e /\ serving V c du s' m) \/
        ((mf \/ delete_allowed m key) /\ not_done V mf c du s' m m'))).
Proof.
  intros key m' H Huid. unfold ps_object_delete. apply wp_bind.
  eapply wp_mono; [by apply (tbl_info_spec V c Hc du s m)| |]; cbn beta.
  2:{ intros e s1 (-> & -> & Hm). split; [done|]. left. split; [by left|done]. }
  intros _ s1 (H1 & _ & _ & i & e & o & Hi & He & Hu & Hk & Ho & Hloc).
  apply wp_clearing, wp_bind, wp_reads, wp_bind.
  eapply wp_mono; [by apply (read_located V mf c Hc du s1 m i o)| |]; cbn beta.
  2:{ intros e2 s2 (He2 & Hmf & H2 & _). split; [done|]. right. split; [by left|].
      apply not_done_zero. by left. }
  intros _ s2 (H2 & Hun & Hinfo & _). apply wp_bind, wp_reads. rewrite Hinfo. fold (write_once o).
  destruct (write_once o) eqn:Hw.
  { apply wp_fail. split; [done|]. left. split; [|by apply serving_zero]. right. eauto. }
  assert (Hallow : delete_allowed m key) by (exists o; done).
  assert (He2 : db_of s2 !! i = Some e) by by rewrite (of_table _ _ _ (proj1 Hun)).
  assert (Hfid2 : info_fid s2 = Z.of_nat i + 3).
  { rewrite (of_fid _ _ _ (proj1 Hun)). apply Hloc. }
  apply wp_bind. eapply wp_mono; [by apply (delete_object_spec V mf c Hc Hbuf du s2 m uid cid)| |]; cbn beta.
  2:{ intros e3 s3 (He3 & _ & H3). split; [done|]. right. split; [by right|]. apply not_done_zero.
      destruct H3 as [H3|H3]; [by left|by right; right]. }
  intros _ s3 (H3 & Hf3 & Hsw & Hfree). apply wp_bind, wp_reads. rewrite (uf_fid _ _ Hf3), Hfid2.
  eapply wp_mono; [apply (remove_old_data_spec V mf c True s3 _ i H3)| |]; cbn beta.
  - by apply (switched_scratch V c du s2 s3 m).
  - by apply (Hfree i e).
  - by apply (switched_object V c du s2 s3 m i e).
  - intros _ s4 [H4 _]. split; [by apply serving_zero|done].
  - intros e4 s4 (He4 & Hmf & H4 & _). split; [done|]. right. split; [by left|].
    apply not_done_zero. right; left. done.
Qed.
(** ** Write *)
Definition written (off n : Z) (l : list Z) (o : object) : object :=
  ({| current_size := Z.max (current_size (fst o)) (off + n); max_size_ := max_size_ (fst o);
      create_flags := create_flags (fst o) |}, overlay off l (snd o)).

Definition write_denied (m : omap) key off n (l : list Z) (e : psa_status_t) : Prop :=
  (m !! key = None /\ e = PSA_ERROR_DOES_NOT_EXIST) \/
  (exists o, m !! key = Some o /\
     ((write_once o = true /\ e = PSA_ERROR_NOT_PERMITTED) \/
      (Z.of_nat (length (snd o)) < off /\ e = PSA_ERROR_INVALID_ARGUMENT) \/
      (max_size_ (fst o) < off + n /\ e = PSA_ERROR_INVALID_ARGUMENT) \/
      (Z.of_nat (length l) < n /\ e = PSA_ERROR_PROGRAMMER_ERROR))).
Definition write_allowed (m : omap) key off n (l : list Z) (o : object) : Prop :=
  m !! key = Some o /\ write_once o = false /\ off <= Z.of_nat (length (snd o)) /\
  off + n <= max_size_ (fst o) /\ Z.of_nat (length l) = n.

Lemma written_ok off n l o : object_ok c o -> bytes l -> Z.of_nat (length l) = n -> 0 <= off ->
  off <= Z.of_nat (length (snd o)) -> off + n <= max_size_ (fst o) -> object_ok c (written off n l o).
Proof.
  intros [[H1 H2 H3] Hb Hs Hf Hr] Hl Hn Ho Hoff Hmax. pose proof (ok_max _ Hc).
  assert (Hlen : Z.of_nat (length (overlay off l (snd o))) = Z.max (current_size (fst o)) (off + n)).
  { unfold overlay. rewrite !length_app, length_firstn, length_skipn. lia. }
  split; cbn [fst snd written max_size_ create_flags current_size]; try lia.
  - split; cbn; lia.
  - unfold overlay. rewrite !bytes_app. auto with ps.
Qed.

Lemma overlay_prefix off l (a b : list Z) : 0 <= off <= Z.of_nat (length a) ->
  firstn (length (overlay off l a)) (overlay off l (a ++ b)) = overlay off l a.
Proof.
  intros H. set (k := Z.to_nat off).
  assert (Hk : (k <= length a)%nat) by lia.
  assert (Hlen : length (overlay off l a) = Nat.max (length a) (k + length l)).
  { unfold overlay. rewrite !length_app, length_firstn, length_skipn. fold k. lia. }
  assert (Hext : overlay off l (a ++ b) = overlay off l a ++ skipn (k + length l - length a) b).
  { unfold overlay. fold k. rewrite firstn_app, skipn_app.
    replace (k - length a)%nat with 0%nat by lia. rewrite firstn_O, app_nil_r. by rewrite !app_assoc. }
  rewrite Hext. by apply firstn_app_exact.
Qed.

Lemma object_write_spec du s m uid cid off n :
  let key := (uid, cid) in let l := asset n s in
  serving V c du s m -> uid <> TFM_PS_INVALID_UID -> 0 <= uid < 2 ^ 64 -> - 2 ^ 31 <= cid < 2 ^ 31 ->
  0 <= off < 2 ^ 32 -> 0 <= n < 2 ^ 32 -> bytes (invec 1 (the_msg s)) ->
  wp (ps_object_write c uid cid off n) s
    (fun _ s' => exists o, write_allowed m key off n l o /\
       serving V c True s' (<[key := written off n l o]> m))
    (fun e s' => e <> PSA_SUCCESS /\
       ((write_denied m key off n l e /\ serving V c du s' m) \/ (mf /\ serving V c du s' m) \/
        exists o, write_allowed m key off n l o /\
          not_done V mf c du s' m (<[key := written off n l o]> m))).
Proof.
  intros key l H Huid Hu64 Hc32 Hoff Hn Hb. pose proof (ok_max _ Hc) as Hmax. unfold ps_object_write.
  apply wp_bind. eapply wp_mono; [by apply (tbl_info_spec V c Hc du s m)| |]; cbn beta.
  2:{ intros e s1 (-> & -> & Hm). split; [done|]. left. split; [by left|done]. }
  intros _ s1 (H1 & Hm1 & _ & i & e & o & Hi & He & Hu & Hk & Ho & Hloc).
  pose proof (proj1 (proj2 Hloc)) as Hok. pose proof (ok_size _ _ Hok) as Hsz.
  pose proof (ok_fits _ _ Hok) as Hfit. pose proof (ok_room _ _ Hok) as Hroom.
  apply wp_clearing, wp_bind, wp_reads, wp_bind.
  eapply wp_mono; [by apply (read_located V mf c Hc du s1 m i o)| |]; cbn beta.
  2:{ intros e2 s2 (He2 & Hmf & H2 & _). split; [done|]. right. left. split; [done|by apply serving_zero]. }
  intros _ s2 (H2 & Hun & Hinfo & rest & Hdata). pose proof (of_msg _ _ _ (proj1 Hun)) as Hm2.
  rewrite Hm1 in Hm2. apply wp_bind, wp_reads. rewrite Hinfo. fold (write_once o).
  assert (Hden : forall err s', serving V c du s' m ->
    ((write_once o = true /\ err = PSA_ERROR_NOT_PERMITTED) \/
     (Z.of_nat (length (snd o)) < off /\ err = PSA_ERROR_INVALID_ARGUMENT) \/
     (max_size_ (fst o) < off + n /\ err = PSA_ERROR_INVALID_ARGUMENT) \/
     (Z.of_nat (length l) < n /\ err = PSA_ERROR_PROGRAMMER_ERROR)) ->
    (write_denied m key off n l err /\ serving V c du (set_object (zero_object c) s') m) \/
    (mf /\ serving V c du (set_object (zero_object c) s') m) \/
    (exists o, write_allowed m key off n l o /\
       not_done V mf c du (set_object (zero_object c) s') m (<[key := written off n l o]> m))).
  { intros err s' Hs' Hd. left. split; [|by apply serving_zero]. right. eauto. }
  destruct (write_once o) eqn:Hw; [apply wp_fail; split; [done|]; apply Hden; auto|].
  rewrite Hsz, Z.gtb_ltb. destruct (Z.ltb_spec (Z.of_nat (length (snd o))) off) as [Hbig|Hin];
    [apply wp_fail; split; [done|]; apply Hden; auto|].
  apply wp_bind. unfold ps_utils_check_contained_in. rewrite Z.gtb_ltb.
  destruct (Z.ltb_spec (max_size_ (fst o)) off) as [Hbad|_]; [lia|].
  rewrite u32_small, Z.gtb_ltb by lia.
  destruct (Z.ltb_spec (max_size_ (fst o) - off) n) as [Hlong|Hshort].
  { apply wp_fail. split; [done|]. apply Hden; [done|]. right; right; left. split; [lia|done]. }
  apply wp_ret. cbn beta.
  assert (Hasset : asset n s2 = l) by (unfold asset; by rewrite Hm2).
  apply wp_bind, ps_read_asset_spec; [apply H2|lia|lia|lia|]. intros mm s3 Hlen3. rewrite Hasset in *.
  assert (H3 : serving V c du s3 m).
  { apply (serving_object V c _ (set_msg mm s2)); [by apply serving_msg|apply H2|exact Hlen3]. }
  assert (Hi3 : header_info (g_ps_object s3) = fst o) by exact Hinfo.
  assert (Hd3 : data (g_ps_object s3) = overlay off l (snd o ++ rest)) by (unfold s3; cbn; by rewrite Hdata, Hasset).
  assert (Hdb3 : db_of s3 = db_of s1) by (unfold s3; cbn; by rewrite (of_table _ _ _ (proj1 Hun))).
  clearbody s3. assert (Hll : Z.of_nat (length l) <= n) by (unfold l, asset; rewrite length_firstn; lia).
  destruct (Z.eqb_spec (Z.of_nat (length l)) n) as [Hfull|Hpart].
  2:{ split; [done|]. apply Hden; [done|]. right; right; right. split; [lia|done]. }
  assert (Hallow : write_allowed m key off n l o) by (do 4 (split; [done || lia|]); done).
  pose proof (written_ok off n l o Hok ltac:(by apply bytes_firstn) Hfull ltac:(lia) Hin ltac:(lia)) as Hok'.
  apply wp_bind.
  assert (Hgrow : wp (if u32 (off + n) >? Z.of_nat (length (snd o))
                      then upd_info (set_current_size (u32 (off + n))) else ret tt) s3
    (fun _ s' => serving V c du s' m /\ current s' (written off n l o) /\ db_of s' = db_of s3) (fun _ _ => False)).
  { assert (Hcur : forall s' : st, header_info (g_ps_object s') = fst (written off n l o) ->
      data (g_ps_object s') = data (g_ps_object s3) -> current s' (written off n l o)).
    { intros s' Hi' Hd'. split; [done|]. rewrite Hd', Hd3. apply overlay_prefix. lia. }
    rewrite u32_small, Z.gtb_ltb by lia.
    destruct (Z.ltb_spec (Z.of_nat (length (snd o))) (off + n)) as [Hg|Hg].
    - apply wp_modify. split; [by apply serving_info|]. split; [|done]. apply Hcur; [|done]. cbn.
      rewrite Hi3. unfold set_current_size. f_equal. lia.
    - apply wp_ret. split; [done|]. split; [|done]. apply Hcur; [|done]. rewrite Hi3.
      unfold written. cbn [fst]. rewrite Z.max_l by lia. by destruct (fst o). }
  eapply wp_mono; [exact Hgrow| |done]. intros _ s4 (H4 & Hcur4 & Hdb4). cbn beta. clear Hgrow.
  apply wp_bind. eapply wp_mono; [by apply (store_object_spec V mf c Hc Hbuf du s4 m uid cid 1); auto| |]; cbn beta.
  2:{ intros err s5 (Herr & _ & H5). split; [done|]. right; right. exists o. split; [done|].
      apply not_done_zero. destruct H5 as [H5|H5]; [by left|by right; right]. }
  intros _ s5 (H5 & Hd5). rewrite (proj1 Hloc).
  destruct (st_old _ _ _ _ Hd5 i e) as [Hfree Hpres]; [by rewrite Hdb4, Hdb3|done|done|].
  eapply wp_mono; [apply (remove_old_data_spec V mf c True s5 _ i H5); [apply Hd5|done|done]| |]; cbn beta.
  - intros _ s6 [H6 _]. exists o. split; [done|by apply serving_zero].
  - intros err s6 (Herr & Hmf & H6 & _). split; [done|]. right; right. exists o. split; [done|].
    apply not_done_zero. right; left. done.
Qed.
End Ops.
