(* ===== verification/PsMountSpec.v ===== *)
(** * Protected Storage: starting up

    ps_object_table_init on a device that holds a table: it reads both table
    files, authenticates them with the counters and takes the newer one. *)

From Stdlib Require Import ZArith List Lia Bool.
From stdpp Require Import base tactics gmap list.
From S2P Require Import Prelude ItsFs Its PsBase PsState PsCrypto PsTable PsObject PsBytes.
From S2P Require Import PsBytes PsInv PsSaveSpec PsStoreSpec.
From S2P Require Import PsBytes PsInv PsSaveSpec.
Import ListNotations.
Local Open Scope Z_scope.

Section Mount.
Context {dev : Type} (V : dev_view dev) (mf : Prop) {E : PsDev dev} {SP : PsDevSpec V E mf}.
Context (c : ps_config) (Hc : cfg_ok c) (Hmf : ~ mf).
Local Abbreviation N := (PS_OBJ_TABLE_ENTRIES c).
Local Abbreviation MAX := (PS_MAX_OBJECT_DATA_SIZE c).
Local Abbreviation st := (ps_state dev).
Local Abbreviation disk s := (persist V (the_dev s)).
Implicit Types s : st.

Lemma sealed_inj t v w : sealed V t v -> sealed V t w -> 0 <= v < 2 ^ 32 -> 0 <= w < 2 ^ 32 -> v = w.
Proof.
  unfold sealed, assoc_data. intros Hv Hw H1 H2.
  eapply (aead_counter V (E:=E) (mf:=mf)); [done|done|]. by rewrite Hv, Hw.
Qed.

(** ** Reading the two files *)

(** Enough of the memory is in shape to read tables into it. *)
Record shaped s : Prop := {
  sh_table : Z.of_nat (length (table_bytes (obj_table s))) = PS_OBJ_TABLE_SIZE c;
  sh_crypto : wf_crypto (header_crypto (g_ps_object s));
  sh_data : Z.of_nat (length (data (g_ps_object s))) = MAX;
  sh_buf : Z.of_nat (length (ps_crypto_buf s)) = PS_CRYPTO_BUF_LEN c;
  sh_copies : overrun s = false
}.

Lemma shaped_cstep s s' : cstep V s s' -> shaped s -> shaped s'.
Proof. intros (d & k & _ & ->) []. by split. Qed.
Lemma p_table_cstep s s' i : cstep V s s' -> p_table c i s' = p_table c i s.
Proof. by intros (d & k & _ & ->). Qed.

(** The table in file [idx + 1], if any. *)
Definition file_table (p : pstore) (idx : Z) (ot : option ps_obj_table_t) : Prop :=
  p_files p !! (idx + 1) = option_map table_bytes ot /\
  match ot with Some t => wf_table N t | None => True end.

Definition fresh_state (ot : option ps_obj_table_t) : ps_obj_table_state :=
  match ot with Some _ => PS_OBJ_TABLE_VALID | None => PS_OBJ_TABLE_INVALID end.

(** The table was read into the memory for table [idx]. *)
Definition in_memory s (idx : Z) (ot : option ps_obj_table_t) : Prop :=
  match ot with Some t => p_table c idx s = t | None => True end.

Lemma table_size t : wf_table N t -> Z.of_nat (length (table_bytes t)) = PS_OBJ_TABLE_SIZE c.
Proof.
  intros H. pose proof (ok_entries _ Hc). by rewrite (length_table_bytes N t) by (done || lia).
Qed.

Lemma read_table_spec idx ot x s : idx = 0 \/ idx = 1 -> shaped s -> file_table (disk s) idx ot ->
  get_table_state idx x = PS_OBJ_TABLE_VALID ->
  wp (read_table_file c idx x) s
    (fun x' s' => shaped s' /\ same V (the_dev s) (the_dev s') /\ in_memory s' idx ot /\
       get_table_state idx x' = fresh_state ot /\
       get_table_state (1 - idx) x' = get_table_state (1 - idx) x /\
       p_table c (1 - idx) s' = p_table c (1 - idx) s /\ the_msg s' = the_msg s)
    (fun _ _ => False).
Proof.
  intros Hidx Hsh [Hfile Hwf] Hst. unfold read_table_file. apply wp_bind, wp_attempt.
  pose proof (ok_table _ Hc) as Hfit. pose proof (ok_entries _ Hc) as HN.
  assert (Hsz : PS_OBJ_TABLE_SIZE c = 32 + 32 * N) by done.
  apply wp_on_dev. eapply wp_mono; [apply (its_get_spec V (mf:=mf))| |]; cbn beta.
  - intros l d (Hq & f & Hf & _ & ->). apply wp_bind, wp_modify, wp_ret.
    unfold PS_TABLE_FS_ID in Hf. rewrite Hfile in Hf. destruct ot as [t|]; [|done]. injection Hf as <-.
    pose proof (table_size t Hwf) as Hlen. rewrite skipn_O, firstn_all2 by lia.
    destruct Hidx as [->| ->].
    + cbn [load_table Z.eqb PS_OBJ_TABLE_IDX_0]. cbn [obj_table set_dev].
      rewrite overlay_all by (pose proof (sh_table _ Hsh); lia).
      rewrite <- (app_nil_r (table_bytes t)), bytes_table_bytes by done.
      destruct Hsh as [G1 G2 G3 G4 G5]. split; [by split|]. split; [by apply quiet_same|]. done.
    + unfold load_table. cbn [Z.eqb PS_OBJ_TABLE_IDX_0].
      set (s' := set_object _ _).
      assert (Hl : length (overlay 0 (table_bytes t) (data (g_ps_object (set_dev d s)))) =
        length (data (g_ps_object s))).
      { apply length_overlay; [lia|]. cbn. pose proof (sh_data _ Hsh). lia. }
      destruct Hsh as [G1 G2 G3 G4 G5]. split.
      { split; try done. change (data (g_ps_object s')) with
          (overlay 0 (table_bytes t) (data (g_ps_object (set_dev d s)))). by rewrite Hl. }
      split; [by apply quiet_same|]. split; [|done]. unfold in_memory, p_table.
      cbn [Z.eqb PS_OBJ_TABLE_IDX_0]. cbn [s' g_ps_object set_object data set_object_data].
      rewrite overlay_0, firstn_app_exact by lia.
      rewrite <- (app_nil_r (table_bytes t)). by apply bytes_table_bytes.
  - intros e d (_ & Hq & [Hm|[Hn|(f & Hf & Hlt)]]); [done| |lia]. apply wp_ret.
    unfold PS_TABLE_FS_ID in Hn. rewrite Hfile in Hn. destruct ot as [t|]; [done|].
    destruct Hsh as [G1 G2 G3 G4 G5]. split; [by split|]. split; [by apply quiet_same|].
    by destruct Hidx as [->| ->].
Qed.

(** ** Authenticating them *)
Definition judged (n1 n3 : Z) (ot : option ps_obj_table_t) (x : ps_obj_table_state) : Prop :=
  match ot with
  | None => x = PS_OBJ_TABLE_INVALID
  | Some t =>
      (x = PS_OBJ_TABLE_NVC_1_VALID /\ sealed V t n1) \/
      (x = PS_OBJ_TABLE_NVC_3_VALID /\ ~ sealed V t n1 /\ n3 <> 0 /\ sealed V t n3) \/
      (x = PS_OBJ_TABLE_INVALID /\ ~ sealed V t n1 /\ (n3 = 0 \/ ~ sealed V t n3))
  end.

Lemma authenticate_if_spec idx ot x s : has_key V s -> idx = 0 \/ idx = 1 -> in_memory s idx ot ->
  get_table_state idx x = fresh_state ot ->
  wp (authenticate_if_valid c idx x) s
    (fun x' s' => cstep V s s' /\ has_key V s' /\ nvc_1 x' = nvc_1 x /\ nvc_3 x' = nvc_3 x /\
       judged (nvc_1 x) (nvc_3 x) ot (get_table_state idx x') /\
       get_table_state (1 - idx) x' = get_table_state (1 - idx) x)
    (fun _ _ => False).
Proof.
  intros Hk Hidx Hmem Hst. unfold authenticate_if_valid. rewrite Hst. destruct ot as [t|]; cbn [fresh_state].
  2:{ rewrite bool_decide_true by done. apply wp_ret. split; [apply cstep_refl|]. by rewrite Hst. }
  rewrite bool_decide_false by done. unfold ps_object_table_authenticate. apply wp_bind, wp_reads.
  cbn in Hmem. rewrite Hmem.
  assert (Hset : forall v, get_table_state idx (set_table_state idx v x) = v /\
    get_table_state (1 - idx) (set_table_state idx v x) = get_table_state (1 - idx) x).
  { intros v. by destruct Hidx as [->| ->]. }
  apply wp_bind, wp_attempt. eapply wp_mono; [by apply (authenticate_spec V mf)| |]; cbn beta.
  { intros _ s1 (Hs1 & Hk1 & Ha). apply wp_ret. destruct (Hset PS_OBJ_TABLE_NVC_1_VALID) as [-> ->].
    do 4 (split; [done|]). split; [|done]. left. by split. }
  intros e s1 (_ & Hs1 & Hk1 & [?|Ha1]); [done|].
  assert (Hn1 : ~ sealed V t (nvc_1 x)) by (intros Hs; by apply Ha1).
  destruct (Z.eqb_spec (nvc_3 x) PS_INVALID_NVC_VALUE) as [Hz|Hz].
  { apply wp_ret. destruct (Hset PS_OBJ_TABLE_INVALID) as [-> ->]. do 4 (split; [done|]).
    split; [|done]. right; right. auto. }
  apply wp_bind, wp_attempt. eapply wp_mono; [by apply (authenticate_spec V mf)| |]; cbn beta.
  - intros _ s2 (Hs2 & Hk2 & Ha). apply wp_ret. destruct (Hset PS_OBJ_TABLE_NVC_3_VALID) as [-> ->].
    split; [by eapply cstep_trans|]. do 3 (split; [done|]). split; [|done]. right; left. by repeat split.
  - intros e2 s2 (_ & Hs2 & Hk2 & [?|Ha2]); [done|]. apply wp_ret.
    destruct (Hset PS_OBJ_TABLE_INVALID) as [-> ->].
    split; [by eapply cstep_trans|]. do 3 (split; [done|]). split; [|done]. right; right.
    split; [done|]. split; [done|]. right. intros Hs. by apply Ha2.
Qed.

(** ** The choice *)
Definition nvc3_of (n : nv_counters) : Z := if nv3 n =? nv2 n then nv3 n else 0.

(** The other table, if any, is sealed with an older counter. *)
Definition older (other : option ps_obj_table_t) (v : Z) : Prop :=
  match other with Some t => exists w, sealed V t w /\ 0 <= w < v | None => True end.

Lemma other_table p a v t m : on_flash V c p a v t m ->
  exists other, file_table p (1 - a) other /\ older other v.
Proof.
  intros Hfl. destruct (p_files p !! (2 - a)) as [x|] eqn:Hx.
  - destruct (fl_other _ _ _ _ _ _ _ Hfl _ Hx) as (t' & w & -> & Hwf & Hs & Hw).
    exists (Some t'). split; [|by exists w]. split; [|done]. by replace (1 - a + 1) with (2 - a) by lia.
  - exists None. split; [|done]. split; [|done]. by replace (1 - a + 1) with (2 - a) by lia.
Qed.

Lemma judged_older n1 n3 other v x : judged n1 n3 other x -> older other v ->
  0 < v <= n1 -> n1 < 2 ^ 32 -> 0 <= n3 <= n1 -> x <> PS_OBJ_TABLE_NVC_1_VALID /\ (n3 = v \/ n3 = 0 -> x = PS_OBJ_TABLE_INVALID).
Proof.
  intros Hj Ho Hv Hn1 Hn3. destruct other as [t|]; [|by rewrite Hj].
  destruct Ho as (w & Hs & Hw).
  destruct Hj as [[-> H]|[(-> & _ & Hz & H)|(-> & _)]]; [| |done].
  - pose proof (sealed_inj t n1 w H Hs). lia.
  - pose proof (sealed_inj t n3 w H Hs). split; [done|lia].
Qed.

(** The table sealed with counter value [v] is taken: the current value, or
    the value of the other two counters when they agree. *)
Lemma choose_active n1 n3 a v t other (s0 s1 : ps_obj_table_state) :
  a = 0 \/ a = 1 -> sealed V t v -> older other v -> 0 < v <= n1 -> n1 < 2 ^ 32 -> 0 <= n3 <= n1 ->
  v = n1 \/ v = n3 ->
  judged n1 n3 (Some t) (if a =? 0 then s0 else s1) ->
  judged n1 n3 other (if a =? 0 then s1 else s0) ->
  choose_table s0 s1 = Some a.
Proof.
  intros Ha Hs Ho Hv Hn1 Hn3 Hor Hj Hj'.
  destruct (judged_older _ _ _ _ _ Hj' Ho Hv Hn1 Hn3) as [H1 H2].
  assert (Hx : (if a =? 0 then s0 else s1) = PS_OBJ_TABLE_NVC_1_VALID \/
    ((if a =? 0 then s0 else s1) = PS_OBJ_TABLE_NVC_3_VALID /\
     (if a =? 0 then s1 else s0) = PS_OBJ_TABLE_INVALID)).
  { destruct Hj as [[? _]|[(? & Hn & _)|(_ & Hn & Hz)]]; [by left|right|].
    - split; [done|]. apply H2. destruct Hor as [->|]; [by destruct Hn|auto].
    - destruct Hor as [->| ->]; [by destruct Hn|]. destruct Hz as [?|[]]; [lia|done]. }
  destruct Ha as [->| ->]; cbn in *; destruct Hx as [->|[-> ->]];
    try done; first [by destruct s0|by destruct s1].
Qed.

Lemma validate_spec idx ot x s n1 n3 : idx = 0 \/ idx = 1 -> in_memory s idx ot ->
  match ot with Some t => wf_table N t | None => True end ->
  judged n1 n3 ot (get_table_state idx x) ->
  wp (validate_version_of c idx x) s
    (fun x' s' => s' = s /\ nvc_1 x' = nvc_1 x /\
       forall i, i = 0 \/ i = 1 -> get_table_state i x' = get_table_state i x) (fun _ _ => False).
Proof.
  intros Hidx Hmem Hwf Hj. unfold validate_version_of. apply wp_bind, wp_reads.
  destruct ot as [t|].
  - cbn in Hmem. rewrite Hmem, (wf_version _ _ Hwf). apply wp_ret. auto.
  - cbn in Hj. case_match; apply wp_ret; [|by auto]. split; [done|]. split; [done|].
    intros i Hi. destruct Hidx as [->| ->], Hi as [->| ->]; cbn in *; by rewrite ?Hj.
Qed.

Lemma counter_spec i s : (i = 0 \/ i = 1 \/ i = 2) ->
  wp (ps_read_nv_counter i) s
    (fun v s' => cstep V s s' /\ (has_key V s -> has_key V s') /\ v = nv_get i (p_nv (disk s))) (fun _ _ => False).
Proof.
  intros Hi. eapply wp_mono; [by apply read_nv_spec| |].
  - intros v s' (d & -> & Hq & _ & _ & ->). split; [by apply cstep_dev, quiet_same|].
    split; [|done]. intros Hk. by apply Hq.
  - by intros e s' (_ & ? & _).
Qed.

Lemma nvc_authenticate_spec o0 o1 x s : has_key V s -> in_memory s 0 o0 -> in_memory s 1 o1 ->
  get_table_state 0 x = fresh_state o0 -> get_table_state 1 x = fresh_state o1 ->
  let n := p_nv (disk s) in
  wp (ps_object_table_nvc_authenticate c x) s
    (fun x' s' => cstep V s s' /\ has_key V s' /\ nvc_1 x' = nv1 n /\
       judged (nv1 n) (nvc3_of n) o0 (get_table_state 0 x') /\
       judged (nv1 n) (nvc3_of n) o1 (get_table_state 1 x'))
    (fun _ _ => False).
Proof.
  intros Hk H0 H1 Hs0 Hs1 n. unfold ps_object_table_nvc_authenticate.
  apply wp_bind. eapply wp_mono; [apply counter_spec; auto| |done].
  intros v1 s1 (Hc1 & Hk1 & ->). cbn beta. pose proof (cstep_persist V _ _ Hc1) as Hp1.
  apply wp_bind. eapply wp_mono; [apply counter_spec; auto| |done].
  intros v2 s2 (Hc2 & Hk2 & ->). cbn beta. pose proof (cstep_persist V _ _ Hc2) as Hp2.
  apply wp_bind. eapply wp_mono; [apply counter_spec; auto| |done].
  intros v3 s3 (Hc3 & Hk3 & ->). cbn beta.
  rewrite Hp2, Hp1. fold n. cbv zeta.
  change (nv_get TFM_PS_NV_COUNTER_1 n) with (nv1 n). change (nv_get TFM_PS_NV_COUNTER_2 n) with (nv2 n).
  change (nv_get TFM_PS_NV_COUNTER_3 n) with (nv3 n).
  replace (if negb (nv3 n =? nv2 n) then PS_INVALID_NVC_VALUE else nv3 n) with (nvc3_of n)
    by (unfold nvc3_of; by destruct (nv3 n =? nv2 n)).
  pose proof (cstep_trans V _ _ _ (cstep_trans V _ _ _ Hc1 Hc2) Hc3) as Hc4.
  assert (Hm : forall i ot, in_memory s i ot -> in_memory s3 i ot).
  { intros i [t|]; [|done]. unfold in_memory. by rewrite (p_table_cstep s s3). }
  apply wp_bind. eapply wp_mono; [apply (authenticate_if_spec 0 o0); auto| |done].
  intros x1 s4 (Hc5 & Hk5 & Hn1 & Hn3 & Hj0 & Hj1). cbn beta.
  assert (Hm1 : in_memory s4 1 o1).
  { destruct o1 as [t|]; [|done]. unfold in_memory. rewrite (p_table_cstep s3 s4) by done. by apply (Hm 1 (Some t)). }
  eapply wp_mono; [apply (authenticate_if_spec 1 o1); [done|by right|done|by rewrite <- Hs1; exact Hj1]| |done].
  intros x2 s5 (Hc6 & Hk6 & Hn1' & Hn3' & Hj0' & Hj1'). cbn beta. cbn in Hn1, Hn3. rewrite Hn1, Hn3 in *.
  split; [by eapply cstep_trans; [eapply cstep_trans|]|]. split; [done|]. split; [done|].
  cbn in Hj1'. change (1 - 1) with 0 in Hj1'. unfold get_table_state at 1 in Hj1'. split; [|done].
  change (get_table_state 0 x2 = get_table_state 0 x1) in Hj1'. by rewrite Hj1'.
Qed.

(** ** The whole start *)
Lemma remove_stale_spec fid s :
  wp (remove_if_any fid) s
    (fun _ s' => exists d, s' = set_dev d s /\ p_files (persist V d) = delete fid (p_files (disk s)) /\
       p_nv (persist V d) = p_nv (disk s))
    (fun _ _ => False).
Proof.
  unfold remove_if_any. call its_remove_spec.
  - intros _ d (_ & _ & Hp). apply wp_ret. exists d. by rewrite Hp.
  - intros e d (_ & [?|[Hn ->]] & Hf); [done|]. apply wp_ret. exists d.
    destruct Hf as [[Hp _]|[? _]]; [|done]. rewrite Hp. cbn. by rewrite delete_id.
Qed.

Lemma set_active_spec a x s : choose_table (get_table_state 0 x) (get_table_state 1 x) = Some a ->
  a = 0 \/ a = 1 ->
  wp (ps_set_active_object_table c x) s
    (fun _ s' => s' = set_table (p_table c a s) (set_tables a (1 - a) s)) (fun _ _ => False).
Proof.
  intros H Ha. unfold ps_set_active_object_table. unfold get_table_state in H. cbn in H. rewrite H.
  destruct Ha as [->| ->]; cbn.
  - by destruct s.
  - done.
Qed.

(** The choice only depends on the two states. *)
Lemma choose_mount p a v t m o0 o1 x :
  on_flash V c p a v t m -> 0 <= nv3 (p_nv p) <= nv1 (p_nv p) ->
  (v = nv1 (p_nv p) \/ (v = nv3 (p_nv p) /\ v = nv2 (p_nv p))) ->
  (if a =? 0 then o0 else o1) = Some t -> older (if a =? 0 then o1 else o0) v ->
  judged (nv1 (p_nv p)) (nvc3_of (p_nv p)) o0 (get_table_state 0 x) ->
  judged (nv1 (p_nv p)) (nvc3_of (p_nv p)) o1 (get_table_state 1 x) ->
  choose_table (get_table_state 0 x) (get_table_state 1 x) = Some a.
Proof.
  intros Hfl Hn3 Hv Ht Ho Hj0 Hj1.
  pose proof (fl_v _ _ _ _ _ _ _ Hfl). pose proof (fl_nv _ _ _ _ _ _ _ Hfl).
  eapply (choose_active (nv1 (p_nv p)) (nvc3_of (p_nv p)) a v t (if a =? 0 then o1 else o0)); try done;
    try (by apply Hfl); try lia; unfold nvc3_of.
  - destruct (nv3 (p_nv p) =? nv2 (p_nv p)); lia.
  - destruct Hv as [->|[H1 H2]]; [by left|right]. rewrite (proj2 (Z.eqb_eq (nv3 _) _)); lia.
  - rewrite <- Ht. fold (nvc3_of (p_nv p)). by destruct (a =? 0).
  - fold (nvc3_of (p_nv p)). by destruct (a =? 0).
Qed.

Lemma on_flash_alone p q a v t m n : on_flash V c p a v t m ->
  p_files q = delete (2 - a) (p_files p) -> p_nv q = n -> nv1 n = nv1 (p_nv p) ->
  on_flash V c q a v t m.
Proof.
  intros [H1 H2 H3 H4 H5 H6 H7 H8] Hf <- Hn. split; try done; rewrite ?Hf, ?Hn; try done.
  - rewrite lookup_delete_ne; [done|]. destruct H1; lia.
  - eapply repr_files; [|exact H5]. intros i e _ _. apply lookup_delete_ne. destruct H1; lia.
  - intros x. by rewrite lookup_delete_eq.
Qed.

(** Both files are read into memory. *)
Lemma read_tables_spec o0 o1 s x : shaped s ->
  file_table (disk s) 0 o0 -> file_table (disk s) 1 o1 ->
  table_state x = (PS_OBJ_TABLE_VALID, PS_OBJ_TABLE_VALID) ->
  wp (ps_object_table_fs_read_table c x) s
    (fun x' s' => shaped s' /\ same V (the_dev s) (the_dev s') /\ in_memory s' 0 o0 /\ in_memory s' 1 o1 /\
       get_table_state 0 x' = fresh_state o0 /\ get_table_state 1 x' = fresh_state o1 /\ the_msg s' = the_msg s)
    (fun _ _ => False).
Proof.
  intros Hsh H0 H1 Hx. unfold ps_object_table_fs_read_table. apply wp_bind.
  eapply wp_mono; [apply (read_table_spec 0 o0); auto; unfold get_table_state; by rewrite Hx| |done].
  intros x1 s1 (Hsh1 & Hd1 & Hm0 & Hs0 & Hs1 & _ & Hmsg1). cbn beta.
  eapply wp_mono; [apply (read_table_spec 1 o1); auto| |done].
  - by rewrite (proj1 Hd1).
  - change (1 - 0) with 1 in Hs1. rewrite Hs1. unfold get_table_state. by rewrite Hx.
  - intros x2 s2 (Hsh2 & Hd2 & Hm1 & Hs1' & Hs0' & Hp & Hmsg2). split; [done|].
    split; [by eapply same_trans|]. change (1 - 1) with 0 in *.
    split; [destruct o0; [by unfold in_memory; rewrite Hp|done]|]. split; [done|].
    split; [by rewrite Hs0'|]. split; [done|]. congruence.
Qed.
(** What the part of the start after the choice needs: the table is in
    memory, its file on flash, and the counters are read. *)
Definition elected (p : pstore) (a v : Z) (t : ps_obj_table_t) (m : omap) s : Prop :=
  shaped s /\ disk s = p /\ on_flash V c p a v t m /\ p_table c a s = t /\
  0 <= nv2 (p_nv p) <= nv1 (p_nv p) /\ 0 <= nv3 (p_nv p) <= nv1 (p_nv p).

Lemma finish_mount_spec p a v t m s x : elected p a v t m s -> nvc_1 x = nv1 (p_nv p) ->
  choose_table (get_table_state 0 x) (get_table_state 1 x) = Some a ->
  wp (do! ps_set_active_object_table c x in
      let! scratch := reads scratch_table in
      do! remove_if_any (PS_TABLE_FS_ID scratch) in
      do! ps_object_table_align_nv_counters (nvc_1 x) in
      let! t := reads obj_table in
      ps_crypto_set_iv (hdr_crypto t)) s
    (fun _ s' => serving V c (v = nv1 (p_nv p)) s' m /\ ps_crypto_iv_buf s' = iv (hdr_crypto t) /\
       obj_table s' = t /\ the_msg s' = the_msg s /\
       p_nv (disk s') = {| nv1 := nv1 (p_nv p); nv2 := nv1 (p_nv p); nv3 := nv1 (p_nv p) |} /\
       on_flash V c (disk s') a v t m)
    (fun _ _ => False).
Proof.
  intros (Hsh & Hp & Hfl & Ht & Hn2 & Hn3) Hx Hch. rewrite Hx.
  pose proof (fl_idx _ _ _ _ _ _ _ Hfl) as Ha. pose proof (fl_v _ _ _ _ _ _ _ Hfl) as Hv.
  pose proof (fl_nv _ _ _ _ _ _ _ Hfl) as Hn1. pose proof (fl_wf _ _ _ _ _ _ _ Hfl) as Hwf.
  apply wp_bind. eapply wp_mono; [by apply set_active_spec| |done]. intros _ s1 ->. cbn beta. rewrite Ht.
  apply wp_bind, wp_reads, wp_bind. eapply wp_mono; [apply remove_stale_spec| |done].
  intros _ s2 (d & -> & Hdf & Hdn). cbn beta. cbn in Hdf, Hdn. rewrite Hp in Hdf, Hdn.
  apply wp_bind. eapply wp_mono; [apply (align_spec V mf); [cbn; rewrite Hdn; lia..|unfold UINT32_MAX; lia]| |by intros ? ? (_ & ? & _)].
  intros _ s3 (d3 & -> & _ & Hd3). cbn beta. cbn in Hd3.
  apply wp_bind, wp_reads. unfold ps_crypto_set_iv. apply wp_modify. cbn.
  assert (Hfl' : on_flash V c (persist V d3) a v t m).
  { eapply on_flash_alone; [exact Hfl| |reflexivity|rewrite Hd3; cbn; by rewrite Hdn].
    rewrite Hd3. cbn. rewrite Hdf. f_equal. unfold PS_TABLE_FS_ID. lia. }
  split; [|by rewrite Hd3 at 1; cbn; rewrite Hdn].
  destruct Hsh as [G1 G2 G3 G4 G5]. split; cbn; rewrite ?Hd3; cbn; [by split; cbn; try done; split;
    [apply (wf_iv _ (wf_hdr _ _ Hwf))|apply (wf_hdr_iv _ _ Hwf)]|done| |done|rewrite Hdn; lia].
  exists v, t. rewrite Hd3 in Hfl'. split; [exact Hfl'|]. split; [lia|done].
Qed.

(** Up to the choice: both tables are in memory and judged. *)
Lemma judge_tables o0 o1 s (Q : unit -> st -> Prop) (P : psa_status_t -> st -> Prop) : shaped s ->
  file_table (disk s) 0 o0 -> file_table (disk s) 1 o1 ->
  let n := p_nv (disk s) in
  (forall x s', shaped s' -> disk s' = disk s -> in_memory s' 0 o0 -> in_memory s' 1 o1 -> the_msg s' = the_msg s ->
     nvc_1 x = nv1 n -> judged (nv1 n) (nvc3_of n) o0 (get_table_state 0 x) ->
     judged (nv1 n) (nvc3_of n) o1 (get_table_state 1 x) ->
     wp (do! ps_set_active_object_table c x in
         let! scratch := reads scratch_table in
         do! remove_if_any (PS_TABLE_FS_ID scratch) in
         do! ps_object_table_align_nv_counters (nvc_1 x) in
         let! t := reads obj_table in
         ps_crypto_set_iv (hdr_crypto t)) s' Q P) ->
  wp (ps_object_table_init c) s Q P.
Proof.
  intros Hsh H0 H1 n HQ. unfold ps_object_table_init. apply wp_bind.
  eapply wp_mono; [by apply (read_tables_spec o0 o1)| |done].
  intros x1 s1 (Hsh1 & [Hp1 _] & Hm0 & Hm1 & Hx0 & Hx1 & Hmsg1). cbn beta.
  apply wp_bind. eapply wp_mono; [by apply (setkey_spec V mf)| |by intros ? ? (_ & ? & _)].
  intros _ s2 [Hs2 Hk2]. cbn beta. apply wp_bind, wp_attempt.
  assert (Hm : forall s s' i o, cstep V s s' -> in_memory s i o -> in_memory s' i o).
  { intros ? ? i [?|] Hs; [|done]. unfold in_memory. by rewrite (p_table_cstep _ _ _ Hs). }
  eapply wp_mono; [by apply (nvc_authenticate_spec o0 o1); eauto| |done].
  intros x3 s3 (Hs3 & Hk3 & Hx3 & Hj0 & Hj1). cbn beta.
  rewrite (cstep_persist V _ _ Hs2), Hp1 in Hx3, Hj0, Hj1. fold n in Hx3, Hj0, Hj1.
  apply wp_bind. eapply wp_mono; [by apply (destroykey_spec V mf)| |by intros ? ? (_ & ? & _)].
  intros u4 s4 Hs4. cbn beta.
  pose proof (cstep_trans V _ _ _ (cstep_trans V _ _ _ Hs2 Hs3) Hs4) as Hs14.
  unfold ps_object_table_validate_version. apply wp_bind, wp_bind.
  eapply wp_mono; [apply (validate_spec 0 o0 x3 s4 (nv1 n) (nvc3_of n)); [by left|by eapply Hm|by apply H0|exact Hj0]| |done].
  intros x5 s5 (-> & Hn5 & Hst5). cbn beta.
  eapply wp_mono; [apply (validate_spec 1 o1 x5 s4 (nv1 n) (nvc3_of n));
    [by right|by eapply Hm|by apply H1|rewrite Hst5 by auto; exact Hj1]| |done].
  intros x6 s6 (-> & Hn6 & Hst6). cbn beta.
  assert (Hst : forall i, i = 0 \/ i = 1 -> get_table_state i x6 = get_table_state i x3)
    by (intros i Hi; by rewrite Hst6, Hst5).
  pose proof (cstep_persist V _ _ Hs14) as Hp4. rewrite Hp1 in Hp4.
  apply HQ; rewrite ?Hst by auto; try done; [by eapply shaped_cstep|by eapply Hm|by eapply Hm| |congruence].
  rewrite <- Hmsg1. by destruct Hs14 as (? & ? & _ & ->).
Qed.

(** The tables of a flash by their index. *)
Lemma tables_of a t other p : a = 0 \/ a = 1 -> file_table p a (Some t) -> file_table p (1 - a) other ->
  exists o0 o1, file_table p 0 o0 /\ file_table p 1 o1 /\
    (if a =? 0 then o0 else o1) = Some t /\ (if a =? 0 then o1 else o0) = other.
Proof. intros [->| ->] H1 H2; [exists (Some t), other|exists other, (Some t)]; done. Qed.

(** The partition finds the map of the newest table: the one the counters
    vouch for. *)
Lemma mount_spec a v t m s : shaped s -> on_flash V c (disk s) a v t m ->
  let n := p_nv (disk s) in
  0 <= nv2 n <= nv1 n -> 0 <= nv3 n <= nv1 n -> (v = nv1 n \/ (v = nv3 n /\ v = nv2 n)) ->
  wp (ps_object_table_init c) s
    (fun _ s' => serving V c (v = nv1 n) s' m /\ ps_crypto_iv_buf s' = iv (hdr_crypto t) /\
       obj_table s' = t /\ the_msg s' = the_msg s /\
       p_nv (disk s') = {| nv1 := nv1 n; nv2 := nv1 n; nv3 := nv1 n |} /\
       on_flash V c (disk s') a v t m)
    (fun _ _ => False).
Proof.
  intros Hsh Hfl n Hn2 Hn3 Hv. destruct (other_table _ _ _ _ _ Hfl) as (other & Hother & Hold).
  pose proof (fl_idx _ _ _ _ _ _ _ Hfl) as Ha.
  assert (Hact : file_table (disk s) a (Some t)) by (split; apply Hfl).
  destruct (tables_of a t other (disk s) Ha Hact Hother) as (o0 & o1 & H0 & H1 & Ht & Ho).
  apply (judge_tables o0 o1); [done..|]. fold n. intros x s' Hsh' Hp Hm0 Hm1 Hmsg Hx Hj0 Hj1. rewrite <- Hmsg.
  apply (finish_mount_spec (disk s) a v t m s' x); [|done|].
  - split; [done|]. split; [done|]. split; [done|]. split; [|done]. destruct Ha as [->| ->]; cbn in Ht; by subst.
  - eapply (choose_mount (disk s) a v t m o0 o1); try done. by rewrite Ho.
Qed.

(** A table no counter vouches for is not taken, nor is the older one. *)
Lemma orphan_spec a v t m s : shaped s -> on_flash V c (disk s) a v t m ->
  let n := p_nv (disk s) in v < nv1 n -> nv2 n = nv1 n -> nv3 n = nv1 n ->
  wp (ps_object_table_init c) s (fun _ _ => False) (fun e _ => e = PSA_ERROR_GENERIC_ERROR).
Proof.
  intros Hsh Hfl n Hv Hn2 Hn3. destruct (other_table _ _ _ _ _ Hfl) as (other & Hother & Hold).
  pose proof (fl_idx _ _ _ _ _ _ _ Hfl) as Ha. pose proof (fl_v _ _ _ _ _ _ _ Hfl) as Hv1.
  pose proof (fl_nv _ _ _ _ _ _ _ Hfl) as Hnv. fold n in Hv1, Hnv.
  assert (Hact : file_table (disk s) a (Some t)) by (split; apply Hfl).
  destruct (tables_of a t other (disk s) Ha Hact Hother) as (o0 & o1 & H0 & H1 & Ht & Ho).
  apply (judge_tables o0 o1); [done..|]. fold n. intros x s' _ _ _ _ _ _ Hj0 Hj1.
  assert (E3 : nvc3_of n = nv1 n) by (unfold nvc3_of; rewrite Hn2, Hn3, Z.eqb_refl; done). rewrite E3 in Hj0, Hj1.
  assert (Hno : forall ot y, older ot (nv1 n) -> judged (nv1 n) (nv1 n) ot y -> y = PS_OBJ_TABLE_INVALID).
  { intros [t'|] y Hw Hj; [|exact Hj]. destruct Hw as (w & Hs & Hw).
    assert (Hns : ~ sealed V t' (nv1 n)) by (intros Hs'; pose proof (sealed_inj t' w (nv1 n) Hs Hs'); lia).
    by destruct Hj as [[_ Hj]|[(_ & Hj & _ & Hj')|(-> & _)]]. }
  assert (Hot : older (Some t) (nv1 n)) by (exists v; split; [apply Hfl|lia]).
  assert (Hoo : older other (nv1 n)).
  { destruct other as [t'|]; [|done]. destruct Hold as (w & Hs & Hw). exists w. split; [done|lia]. }
  assert (H01 : older o0 (nv1 n) /\ older o1 (nv1 n)) by (destruct Ha as [->| ->]; cbn in Ht, Ho; by subst).
  apply (Hno _ _ (proj1 H01)) in Hj0. apply (Hno _ _ (proj2 H01)) in Hj1.
  apply wp_bind. unfold ps_set_active_object_table. unfold get_table_state in Hj0, Hj1. cbn in Hj0, Hj1.
  rewrite Hj0, Hj1. by apply wp_fail.
Qed.
End Mount.

(** * Protected Storage: which tables a start accepts

    Whatever the two table files hold and whichever services fail, a start of
    the partition that succeeds has a table in memory whose tag covers its
    content together with a current counter value: an older copy of a table,
    put back on the flash, is not taken. *)

Section Accept.
Context {dev : Type} (V : dev_view dev) (mf : Prop) {E : PsDev dev} {SP : PsDevSpec V E mf}.
Context (c : ps_config).
Local Abbreviation st := (ps_state dev).
Local Abbreviation disk s := (persist V (the_dev s)).
Implicit Types s : st.

(** The state [x] of table [t] in the context of the start: a table that is
    still in the running was authenticated with one of the counter values. *)
Definition vouched (n1 n3 : Z) (t : ps_obj_table_t) (x : ps_obj_table_state) : Prop :=
  match x with
  | PS_OBJ_TABLE_VALID => False
  | PS_OBJ_TABLE_INVALID => True
  | PS_OBJ_TABLE_NVC_1_VALID => sealed V t n1
  | PS_OBJ_TABLE_NVC_3_VALID => n3 <> 0 /\ sealed V t n3
  end.

Lemma authenticate_vouches idx x s : has_key V s -> idx = 0 \/ idx = 1 ->
  wp (authenticate_if_valid c idx x) s
    (fun x' s' => cstep V s s' /\ has_key V s' /\ nvc_1 x' = nvc_1 x /\ nvc_3 x' = nvc_3 x /\
       vouched (nvc_1 x) (nvc_3 x) (p_table c idx s) (get_table_state idx x') /\
       get_table_state (1 - idx) x' = get_table_state (1 - idx) x)
    (fun _ _ => True).
Proof.
  intros Hk Hidx. unfold authenticate_if_valid. case_bool_decide as Hi.
  { apply wp_ret. rewrite Hi. split; [apply cstep_refl|done]. }
  assert (Hset : forall v, get_table_state idx (set_table_state idx v x) = v /\
    get_table_state (1 - idx) (set_table_state idx v x) = get_table_state (1 - idx) x).
  { intros v. by destruct Hidx as [->| ->]. }
  unfold ps_object_table_authenticate. apply wp_bind, wp_reads, wp_bind, wp_attempt.
  eapply wp_mono; [by apply (authenticate_spec V mf)| |]; cbn beta.
  { intros _ s1 (Hs1 & Hk1 & Ha). apply wp_ret. by destruct (Hset PS_OBJ_TABLE_NVC_1_VALID) as [-> ->]. }
  intros e s1 (_ & Hs1 & Hk1 & _).
  destruct (Z.eqb_spec (nvc_3 x) PS_INVALID_NVC_VALUE) as [Hz|Hz].
  { apply wp_ret. by destruct (Hset PS_OBJ_TABLE_INVALID) as [-> ->]. }
  apply wp_bind, wp_attempt. eapply wp_mono; [by apply (authenticate_spec V mf)| |]; cbn beta.
  - intros _ s2 (Hs2 & Hk2 & Ha). apply wp_ret. destruct (Hset PS_OBJ_TABLE_NVC_3_VALID) as [-> ->].
    split; [by eapply cstep_trans|]. by repeat split.
  - intros e2 s2 (_ & Hs2 & Hk2 & _). apply wp_ret. destruct (Hset PS_OBJ_TABLE_INVALID) as [-> ->].
    split; [by eapply cstep_trans|]. by repeat split.
Qed.

Lemma p_table_same s s' i : cstep V s s' -> p_table c i s' = p_table c i s.
Proof. by intros (d & k & _ & ->). Qed.

Lemma counter_read i s : (i = 0 \/ i = 1 \/ i = 2) ->
  wp (ps_read_nv_counter i) s
    (fun v s' => cstep V s s' /\ (has_key V s -> has_key V s') /\ v = nv_get i (p_nv (disk s)))
    (fun _ _ => True).
Proof.
  intros Hi. eapply wp_mono; [by apply read_nv_spec| |done].
  intros v s' (d & -> & Hq & _ & _ & ->). split; [by apply cstep_dev, quiet_same|].
  split; [|done]. intros Hk. by apply Hq.
Qed.

(** Counter 3 vouches only while it agrees with counter 2. *)
Definition nvc3_value (n : nv_counters) : Z := if negb (nv3 n =? nv2 n) then 0 else nv3 n.

Lemma nvc_authenticate_vouches x s : has_key V s ->
  let n := p_nv (disk s) in
  wp (ps_object_table_nvc_authenticate c x) s
    (fun x' s' => cstep V s s' /\ has_key V s' /\
       vouched (nv1 n) (nvc3_value n) (p_table c 0 s) (get_table_state 0 x') /\
       vouched (nv1 n) (nvc3_value n) (p_table c 1 s) (get_table_state 1 x'))
    (fun _ _ => True).
Proof.
  intros Hk n. unfold ps_object_table_nvc_authenticate.
  apply wp_bind. eapply wp_mono; [apply counter_read; auto| |done].
  intros v1 s1 (Hc1 & Hk1 & ->). cbn beta. pose proof (cstep_persist V _ _ Hc1) as Hp1.
  apply wp_bind. eapply wp_mono; [apply counter_read; auto| |done].
  intros v2 s2 (Hc2 & Hk2 & ->). cbn beta. pose proof (cstep_persist V _ _ Hc2) as Hp2.
  apply wp_bind. eapply wp_mono; [apply counter_read; auto| |done].
  intros v3 s3 (Hc3 & Hk3 & ->). cbn beta zeta. rewrite Hp2, Hp1. fold n.
  change (nv_get TFM_PS_NV_COUNTER_1 n) with (nv1 n). change (nv_get TFM_PS_NV_COUNTER_2 n) with (nv2 n).
  change (nv_get TFM_PS_NV_COUNTER_3 n) with (nv3 n). fold (nvc3_value n).
  pose proof (cstep_trans V _ _ _ (cstep_trans V _ _ _ Hc1 Hc2) Hc3) as Hc4.
  apply wp_bind. eapply wp_mono; [apply (authenticate_vouches 0); auto| |done].
  intros x1 s4 (Hc5 & Hk5 & Hn1 & Hn3 & Hj0 & Hj1). cbn beta.
  eapply wp_mono; [apply (authenticate_vouches 1); auto| |done].
  intros x2 s5 (Hc6 & Hk6 & _ & _ & Hj1' & Hj0'). cbn beta. rewrite Hn1, Hn3 in Hj1'.
  rewrite (p_table_same s3 s4), (p_table_same s s3) in Hj1' by done.
  rewrite (p_table_same s s3) in Hj0 by done. change (1 - 1) with 0 in Hj0'. rewrite Hj0'.
  split; [by eapply cstep_trans; [eapply cstep_trans|]|]. done.
Qed.

(** Reading the files changes nothing that lasts. *)
Lemma read_file_same idx x s :
  wp (read_table_file c idx x) s (fun _ s' => same V (the_dev s) (the_dev s')) (fun _ _ => True).
Proof.
  unfold read_table_file. call its_get_spec.
  - intros l d (Hq & _). apply wp_bind, wp_modify, wp_ret. apply quiet_same in Hq.
    unfold load_table. by case_match.
  - intros e d (_ & Hq & _). apply wp_ret. by apply quiet_same in Hq.
Qed.

Lemma validate_vouches idx x s n1 n3 t0 t1 : idx = 0 \/ idx = 1 ->
  vouched n1 n3 t0 (get_table_state 0 x) -> vouched n1 n3 t1 (get_table_state 1 x) ->
  wp (validate_version_of c idx x) s
    (fun x' s' => s' = s /\ vouched n1 n3 t0 (get_table_state 0 x') /\ vouched n1 n3 t1 (get_table_state 1 x'))
    (fun _ _ => True).
Proof.
  intros Hidx H0 H1. unfold validate_version_of. apply wp_bind, wp_reads.
  destruct (negb _); apply wp_ret; [|done]. by destruct Hidx as [->| ->].
Qed.

(** The counters accept a table sealed with the value of counter 1, or with
    that of counters 2 and 3 when these agree. *)
Definition current (n : nv_counters) (v : Z) : Prop :=
  v = nv1 n \/ (v = nv3 n /\ v = nv2 n /\ v <> 0).

Lemma set_active_vouched n x s :
  vouched (nv1 n) (nvc3_value n) (p_table c 0 s) (get_table_state 0 x) ->
  vouched (nv1 n) (nvc3_value n) (p_table c 1 s) (get_table_state 1 x) ->
  wp (ps_set_active_object_table c x) s
    (fun _ s' => exists v, current n v /\ sealed V (obj_table s') v) (fun _ _ => True).
Proof.
  assert (Hcur : forall t y, vouched (nv1 n) (nvc3_value n) t y -> y <> PS_OBJ_TABLE_INVALID ->
    exists v, current n v /\ sealed V t v).
  { intros t [] Hy Hne; try done.
    - exists (nv1 n). split; [by left|done].
    - destruct Hy as [Hz Hs]. exists (nvc3_value n). split; [right|done]. unfold nvc3_value in *.
      destruct (Z.eqb_spec (nv3 n) (nv2 n)); [|done]. cbn in *. by rewrite <- e. }
  intros H0 H1. unfold ps_set_active_object_table. unfold get_table_state in H0, H1. cbn in H0, H1.
  destruct (choose_table _ _) as [a|] eqn:Hch; [|by apply wp_fail].
  assert (Ha : (a = 1 /\ snd (table_state x) <> PS_OBJ_TABLE_INVALID) \/
    (a = 0 /\ fst (table_state x) <> PS_OBJ_TABLE_INVALID)).
  { clear -Hch. destruct (table_state x) as [[] []]; cbn in *; simplify_eq; auto. }
  destruct Ha as [[-> Ha]|[-> Ha]].
  - apply wp_bind, wp_modify, wp_bind, wp_reads, wp_modify. by apply (Hcur (p_table c 1 s) _ H1).
  - apply wp_modify. by apply (Hcur (p_table c 0 s) _ H0).
Qed.

(** ** The start *)

(** Code that only talks to the services keeps the table in memory. *)
Definition keeps {A} (m : M st A) : Prop := forall s,
  wp m s (fun _ s' => obj_table s' = obj_table s) (fun _ s' => obj_table s' = obj_table s).

Lemma keeps_dev {A} (m : M dev A) : keeps (on_dev m).
Proof. intros s. unfold wp, on_dev. by destruct (m (the_dev s)) as [[]]. Qed.
Lemma keeps_ret {A} (a : A) : keeps (ret a).
Proof. by intros s. Qed.
Lemma keeps_fail {A} e : keeps (A:=A) (fail e).
Proof. by intros s. Qed.
Lemma keeps_bind {A B} (m : M st A) (f : A -> M st B) : keeps m -> (forall a, keeps (f a)) -> keeps (bind m f).
Proof.
  intros Hm Hf s. apply wp_bind. eapply wp_mono; [apply Hm| |done].
  intros a s' Hs. cbn beta. rewrite <- Hs. apply Hf.
Qed.
Lemma keeps_attempt {A} (m : M st A) : keeps m -> keeps (attempt m).
Proof. intros Hm s. apply wp_attempt. eapply wp_mono; [apply Hm| |]; done. Qed.
Lemma keeps_on_err {A} g (m : M st A) : keeps m -> keeps (on_err g m).
Proof. intros Hm s. apply wp_on_err. eapply wp_mono; [apply Hm| |]; done. Qed.
#[local] Hint Resolve keeps_dev keeps_ret keeps_fail keeps_attempt keeps_on_err : ps.

Lemma keeps_remove fid : keeps (remove_if_any fid).
Proof. apply keeps_bind; [auto with ps|]. intros [u|e]; [auto with ps|]. case_match; auto with ps. Qed.
Lemma keeps_align v : keeps (ps_object_table_align_nv_counters v).
Proof.
  assert (Hl : forall n i, keeps (align_loop n i)).
  { induction n as [|n IH]; intros i; cbn [align_loop]; [auto with ps|].
    apply keeps_bind; [|by intros _]. unfold ps_increment_nv_counter. auto with ps. }
  unfold ps_object_table_align_nv_counters, align_nv_counter, ps_read_nv_counter.
  apply keeps_bind; [|intros _]; (apply keeps_bind; [|done]); auto with ps.
Qed.

Lemma wp_any {A} (m : M st A) s : wp m s (fun _ _ => True) (fun _ _ => True).
Proof. unfold wp. by destruct (m s) as [[]]. Qed.

Lemma init_accepts s :
  let n := p_nv (disk s) in
  wp (ps_object_table_init c) s
    (fun _ s' => exists v, current n v /\ sealed V (obj_table s') v) (fun _ _ => True).
Proof.
  intros n. unfold ps_object_table_init, ps_object_table_fs_read_table. apply wp_bind, wp_bind.
  eapply wp_mono; [apply read_file_same| |done]. intros x1 s1 [Hp1 _]. cbn beta.
  eapply wp_mono; [apply read_file_same| |done]. intros x2 s2 [Hp2 _]. cbn beta.
  apply wp_bind. eapply wp_mono; [by apply (setkey_spec V mf)| |done]. intros _ s3 [Hs3 Hk3]. cbn beta.
  apply wp_bind, wp_attempt. eapply wp_mono; [by apply nvc_authenticate_vouches| |].
  2:{ intros e s4 _. apply wp_bind, wp_attempt.
      eapply wp_mono; [apply wp_any|intros ? ? _; by apply wp_fail|intros ? ? _; by apply wp_fail]. }
  intros x4 s4 (Hs4 & Hk4 & H0 & H1). cbn beta. rewrite (cstep_persist V _ _ Hs3), Hp2, Hp1 in H0, H1. fold n in H0, H1.
  rewrite <- (p_table_same s3 s4) in H0, H1 by done.
  apply wp_bind. eapply wp_mono; [by apply (destroykey_spec V mf)| |done]. intros u s5 Hs5. cbn beta.
  rewrite <- (p_table_same s4 s5) in H0, H1 by done.
  unfold ps_object_table_validate_version. apply wp_bind, wp_bind.
  eapply wp_mono; [apply (validate_vouches 0); eauto| |done]. intros x6 s6 (-> & H0' & H1'). cbn beta.
  eapply wp_mono; [apply (validate_vouches 1); eauto| |done]. intros x7 s7 (-> & H0'' & H1''). cbn beta.
  apply wp_bind. eapply wp_mono; [by eapply set_active_vouched| |done]. intros u8 s8 Hv. cbn beta.
  apply wp_bind, wp_reads, wp_bind.
  eapply wp_mono; [apply keeps_remove| |done]. intros u9 s9 Ht9. cbn beta.
  apply wp_bind. eapply wp_mono; [apply keeps_align| |done]. intros u10 s10 Ht10. cbn beta.
  apply wp_bind, wp_reads. unfold ps_crypto_set_iv. apply wp_modify. cbn. by rewrite Ht10, Ht9.
Qed.
End Accept.
