(* ===== verification/PsFormat.v ===== *)
(** * Protected Storage: the first start

    On a device without tables tfm_ps_init writes an empty one, when the build
    asks for it, and then starts from that. *)

From Stdlib Require Import ZArith List Lia Bool.
From stdpp Require Import base tactics gmap list.
From S2P Require Import Prelude ItsFs Its PsBase PsState PsCrypto PsTable PsObject PsService PsBytes.
From S2P Require Import PsBytes PsInv PsSaveSpec PsMountSpec.
Import ListNotations.
Local Open Scope Z_scope.

Section Format.
Context {dev : Type} (V : dev_view dev) (mf : Prop) {E : PsDev dev} {SP : PsDevSpec V E mf}.
Context (c : ps_config) (Hc : cfg_ok c) (Hmf : ~ mf) (Hbuf : PS_OBJ_TABLE_SIZE c <= its_buf V).
Local Abbreviation N := (PS_OBJ_TABLE_ENTRIES c).
Local Abbreviation st := (ps_state dev).
Local Abbreviation disk s := (persist V (the_dev s)).
Implicit Types s : st.

(** ** Nothing to read *)
Lemma read_blank idx x s : p_files (disk s) !! (idx + 1) = None ->
  wp (read_table_file c idx x) s
    (fun x' s' => cstep V s s' /\ x' = set_table_state idx PS_OBJ_TABLE_INVALID x) (fun _ _ => False).
Proof.
  intros Hn. unfold read_table_file. call its_get_spec.
  - intros l d (_ & f & Hf & _). unfold PS_TABLE_FS_ID in Hf. congruence.
  - intros e d (_ & Hq & _). apply wp_ret. split; [|done]. by apply cstep_dev, quiet_same.
Qed.

Definition no_table (x : ps_obj_table_init_ctx_t) : Prop :=
  table_state x = (PS_OBJ_TABLE_INVALID, PS_OBJ_TABLE_INVALID).

Lemma validate_blank idx x s : no_table x -> idx = 0 \/ idx = 1 ->
  wp (validate_version_of c idx x) s (fun x' s' => s' = s /\ no_table x') (fun _ _ => False).
Proof.
  intros Hx Hidx. unfold validate_version_of, no_table in *. apply wp_bind, wp_reads.
  destruct (negb _); apply wp_ret; [|done]. split; [done|].
  destruct Hidx as [->| ->]; cbn; by rewrite Hx.
Qed.

Lemma nvc_authenticate_blank x s : no_table x -> has_key V s ->
  wp (ps_object_table_nvc_authenticate c x) s
    (fun x' s' => cstep V s s' /\ has_key V s' /\ no_table x') (fun _ _ => False).
Proof.
  intros Hx Hk. unfold ps_object_table_nvc_authenticate.
  apply wp_bind. eapply wp_mono; [apply (counter_spec V mf Hmf); auto| |done].
  intros v1 s1 (Hc1 & Hk1 & _). cbn beta.
  apply wp_bind. eapply wp_mono; [apply (counter_spec V mf Hmf); auto| |done].
  intros v2 s2 (Hc2 & Hk2 & _). cbn beta.
  apply wp_bind. eapply wp_mono; [apply (counter_spec V mf Hmf); auto| |done].
  intros v3 s3 (Hc3 & Hk3 & _). cbn beta zeta.
  unfold authenticate_if_valid, get_table_state. unfold no_table in *. cbn. rewrite Hx. cbn.
  apply wp_bind, wp_ret. cbn. rewrite Hx. cbn. apply wp_ret. cbn. split; [|split; [auto|done]].
  eapply cstep_trans; [|exact Hc3]. by eapply cstep_trans.
Qed.

Lemma prepare_blank s : p_files (disk s) !! 1 = None -> p_files (disk s) !! 2 = None ->
  wp (ps_object_table_init c) s (fun _ _ => False) (fun e s' => cstep V s s').
Proof.
  intros H1 H2. unfold ps_object_table_init, ps_object_table_fs_read_table. apply wp_bind, wp_bind.
  eapply wp_mono; [by apply read_blank| |done]. intros x1 s1 [Hs1 ->]. cbn beta.
  eapply wp_mono; [apply read_blank; by rewrite (cstep_persist V _ _ Hs1)| |done].
  intros x2 s2 [Hs2 ->]. cbn beta. set (x := set_table_state _ _ _). assert (Hx : no_table x) by done.
  clearbody x. apply wp_bind. eapply wp_mono; [by apply (setkey_spec V mf)| |by intros ? ? (_ & ? & _)].
  intros _ s3 [Hs3 Hk3]. cbn beta. apply wp_bind, wp_attempt.
  eapply wp_mono; [by apply nvc_authenticate_blank| |done]. intros x4 s4 (Hs4 & Hk4 & Hx4). cbn beta.
  apply wp_bind. eapply wp_mono; [by apply (destroykey_spec V mf)| |by intros ? ? (_ & ? & _)].
  intros u s5 Hs5. cbn beta. unfold ps_object_table_validate_version. apply wp_bind, wp_bind.
  eapply wp_mono; [apply validate_blank; auto| |done]. intros x5 s6 [-> Hx5]. cbn beta.
  eapply wp_mono; [apply validate_blank; auto| |done]. intros x6 s7 [-> Hx6]. cbn beta.
  apply wp_bind. unfold ps_set_active_object_table. rewrite Hx6. cbn.
  pose proof (cstep_trans V _ _ _ Hs1 (cstep_trans V _ _ _ Hs2 Hs3)) as H13.
  exact (cstep_trans V _ _ _ H13 (cstep_trans V _ _ _ Hs4 Hs5)).
Qed.

(** ** A save cannot fail when ITS, the counters and the IV have room *)
Definition its_has_room : Prop := forall fid l fl d,
  wp (psa_its_set fid l fl) d (fun _ _ => True) (fun _ _ => False).

Lemma save_succeeds s :
  let n := p_nv (disk s) in
  its_has_room -> iv_ok (ps_crypto_iv_buf s) -> iv_value (ps_crypto_iv_buf s) < 2 ^ 96 - 1 ->
  nv1 n + 1 < 2 ^ 32 -> nv2 n <= nv1 n -> nv3 n <= nv1 n ->
  wp ps_object_table_save_table s (fun _ _ => True) (fun _ _ => False).
Proof.
  intros n Hits Hiv Hroom Hn1 Hn2 Hn3. unfold ps_object_table_save_table. apply wp_bind.
  eapply wp_mono; [apply (inc_nv_spec V mf); auto| |].
  2:{ intros e s1 (_ & d & _ & [(? & _)|[_ H]]); [done|]. unfold nv_get, UINT32_MAX in H. cbn in H. fold n in H. lia. }
  intros _ s1 (d & -> & (_ & _ & Hp) & _). cbn beta. set (s1 := set_dev d s).
  assert (Hp1 : disk s1 = bump 0 (disk s)) by done.
  assert (Hb1 : ps_crypto_iv_buf s1 = ps_crypto_iv_buf s) by done. clearbody s1.
  apply wp_bind. eapply wp_mono; [apply (counter_spec V mf Hmf); auto| |done].
  intros v s2 (Hs2 & _ & ->). cbn beta. rewrite Hp1.
  change (nv_get TFM_PS_NV_COUNTER_1 (p_nv (bump 0 (disk s)))) with (nv1 n + 1).
  apply wp_bind. eapply wp_mono; [by apply (setkey_spec V mf)| |by intros ? ? (_ & ? & _)].
  intros _ s3 [Hs3 Hk3]. cbn beta. pose proof (cstep_trans V _ _ _ Hs2 Hs3) as Hs13.
  assert (Hb3 : ps_crypto_iv_buf s3 = ps_crypto_iv_buf s) by (destruct Hs13 as (? & ? & _ & ->); done).
  pose proof (cstep_persist V _ _ Hs13) as Hp3. rewrite Hp1 in Hp3.
  apply wp_bind, wp_attempt. unfold ps_object_table_nvc_generate_auth_tag. apply wp_bind.
  eapply wp_mono; [apply get_iv_spec; by rewrite Hb3| |].
  2:{ intros e s4 (_ & _ & Hf). rewrite Hb3 in Hf. lia. }
  intros l s4 (-> & _). cbn beta. apply wp_bind, wp_modify, wp_bind, wp_reads, wp_bind.
  eapply wp_mono; [by apply (generate_auth_tag_spec V mf)| |by intros ? ? (_ & ? & _)].
  intros t s5 (Hs5 & Hk5 & _). cbn beta. apply wp_modify, wp_bind.
  eapply wp_mono; [by apply (destroykey_spec V mf)| |by intros ? ? (_ & ? & _)].
  intros u s6 Hs6. cbn beta. unfold ps_object_table_fs_write_table. apply wp_bind, wp_bind, wp_reads.
  apply cstep_persist in Hs6, Hs5. cbn in Hs6, Hs5. rewrite Hp3 in Hs5. rewrite Hs5 in Hs6.
  apply wp_bind, wp_on_dev. eapply wp_mono; [apply wp_conj; [apply (its_set_spec V (mf:=mf))|apply Hits]| |by intros ? ? [_ ?]].
  intros _ d7 [(_ & _ & Hd7) _]. apply wp_modify.
  eapply wp_mono; [apply (align_spec V mf); cbn; rewrite ?Hd7, ?Hs6; cbn; fold n; unfold UINT32_MAX; lia
                  |done|by intros ? ? (_ & ? & _)].
Qed.

(** ** Formatting *)
Lemma wf_created : wf_table N {| hdr_crypto := zero_crypto; hdr_version := PS_OBJECT_SYSTEM_VERSION;
  hdr_pad := zeros 3; obj_db := repeat zero_entry (Z.to_nat N) |}.
Proof.
  split; cbn; try done.
  - apply bytes_zeros.
  - apply Forall_forall. intros e He. apply list_elem_of_In, repeat_spec in He. subst e. apply wf_zero_entry.
  - by rewrite repeat_length.
Qed.

Lemma repr_empty n F : repr V c (repeat zero_entry n) F ∅.
Proof.
  assert (H : forall i e, repeat zero_entry n !! i = Some e -> ~ used e).
  { intros i e Hi. apply list_elem_of_lookup_2, list_elem_of_In, repeat_spec in Hi. subst e.
    apply zero_unused. }
  split.
  - intros i e Hi Hu. by destruct (H i e Hi).
  - intros k o. by rewrite lookup_empty.
  - intros i j e e' Hi _ Hu. by destruct (H i e Hi).
Qed.

(** A device without tables gets an empty one, in the first file. *)
Lemma format_spec s :
  let n := p_nv (disk s) in
  its_has_room -> shaped c s -> p_files (disk s) !! 2 = None ->
  iv_ok (ps_crypto_iv_buf s) -> iv_value (ps_crypto_iv_buf s) < 2 ^ 96 - 1 ->
  0 <= nv1 n -> nv1 n + 1 < 2 ^ 32 -> nv2 n <= nv1 n -> nv3 n <= nv1 n ->
  wp (ps_system_wipe_all c) s
    (fun _ s' => shaped c s' /\ (exists t, on_flash V c (disk s') 0 (nv1 n + 1) t ∅) /\
       p_nv (disk s') = {| nv1 := nv1 n + 1; nv2 := nv1 n + 1; nv3 := nv1 n + 1 |})
    (fun _ _ => False).
Proof.
  intros n Hits [G1 G2 G3 G4 G5] Hblank Hiv Hroom Hn0 Hn1 Hn2 Hn3.
  unfold ps_system_wipe_all, ps_object_table_create.
  apply wp_bind, wp_modify, wp_bind, wp_modify, wp_bind, wp_modify.
  set (s1 := set_table _ _).
  assert (Hwf : wf_table N (obj_table s1)) by exact wf_created.
  eapply wp_mono; [apply wp_conj; [apply (save_spec V mf c Hc s1)|apply (save_succeeds s1)]| |by intros ? ? [_ ?]];
    try done. cbn beta. intros _ s2 [Hsv _]. pose proof (sd_frame _ _ _ _ Hsv) as Hf.
  pose proof (sd_files _ _ _ _ Hsv) as Hfiles. pose proof (sd_counters _ _ _ _ Hsv) as Hcnt.
  pose proof (sd_wf _ _ _ _ Hsv) as Hwf2. cbn in Hfiles, Hcnt. fold n in Hcnt.
  pose proof (ok_entries _ Hc) as HN.
  split; [|split; [|exact Hcnt]].
  - split.
    + by apply table_size.
    + by rewrite (tf_object _ _ Hf).
    + by rewrite (tf_object _ _ Hf).
    + by rewrite (tf_buf _ _ Hf).
    + by rewrite (tf_copies _ _ Hf).
  - exists (obj_table s2). split; try done.
    + by left.
    + rewrite Hfiles. apply lookup_insert_eq.
    + apply (sd_sealed _ _ _ _ Hsv).
    + rewrite (resealed_db _ _ (tf_table _ _ Hf)). apply repr_empty.
    + rewrite Hcnt. cbn. lia.
    + by rewrite Hcnt.
    + intros x. rewrite Hfiles, lookup_insert_ne by done. change (2 - 0) with 2. by rewrite Hblank.
Qed.

(** ** The first start *)
Lemma first_start_spec s :
  let n := p_nv (disk s) in
  PS_CREATE_FLASH_LAYOUT c = true -> its_has_room -> shaped c s ->
  p_files (disk s) !! 1 = None -> p_files (disk s) !! 2 = None ->
  iv_ok (ps_crypto_iv_buf s) -> iv_value (ps_crypto_iv_buf s) < 2 ^ 96 - 1 ->
  0 <= nv1 n -> nv1 n + 1 < 2 ^ 32 -> nv2 n <= nv1 n -> nv3 n <= nv1 n ->
  wp (tfm_ps_init c) s (fun _ s' => serving V c True s' ∅) (fun _ _ => False).
Proof.
  intros n Hcreate Hits Hsh H1 H2 Hiv Hroom Hn0 Hn1 Hn2 Hn3. unfold tfm_ps_init, ps_system_prepare.
  apply wp_bind, wp_attempt. eapply wp_mono; [by apply prepare_blank|done|].
  intros e s1 Hs1. cbn beta. rewrite Hcreate. pose proof (cstep_persist V _ _ Hs1) as Hp1.
  assert (Hb1 : ps_crypto_iv_buf s1 = ps_crypto_iv_buf s) by (destruct Hs1 as (? & ? & _ & ->); done).
  apply wp_bind. eapply wp_mono; [apply (format_spec s1)| |done]; rewrite ?Hp1, ?Hb1; try done.
  { exact (shaped_cstep V c _ _ Hs1 Hsh). }
  intros _ s2 (Hsh2 & (t & Hfl) & Hcnt). cbn beta. fold n in Hcnt.
  eapply wp_mono; [apply (mount_spec V mf c Hc Hmf 0 _ t ∅ s2 Hsh2 Hfl)| |done];
    rewrite ?Hcnt; cbn; fold n; try lia.
  intros _ s3 (Hsv & _). cbn beta in *.
  destruct Hsv as [A1 A2 (v & t' & A3 & A4 & A5 & A6) A7 A8]. split; try done. exists v, t'. auto.
Qed.
End Format.
