(* ===== verification/PsServiceSpec.v ===== *)
(** * Protected Storage: the service

    The functions of tfm_protected_storage.c as steps of the map, and what a
    request does as a whole. *)

From Stdlib Require Import ZArith List Lia Bool.
From stdpp Require Import base tactics gmap list.
From S2P Require Import Prelude ItsFs Its PsBase PsState PsCrypto PsTable PsObject PsService PsBytes.
From S2P Require Import PsBytes PsInv PsSaveSpec PsStoreSpec PsUpdateSpec PsSystemSpec PsOpsSpec.
From S2P Require Import PsMountSpec.
From S2P Require Import PsBytes PsInv PsSaveSpec PsStoreSpec PsUpdateSpec PsMountSpec.
Import ListNotations.
Local Open Scope Z_scope.

(** A client, a UID, flags and sizes as the request manager gets them. *)
Record args_ok (cid uid : Z) : Prop := {
  arg_uid : 0 <= uid < 2 ^ 64;
  arg_client : - 2 ^ 31 <= cid < 2 ^ 31
}.

Definition supported_flags : Z :=
  Z.lor PSA_STORAGE_FLAG_WRITE_ONCE (Z.lor PSA_STORAGE_FLAG_NO_CONFIDENTIALITY
    PSA_STORAGE_FLAG_NO_REPLAY_PROTECTION).

Section Spec.
Context {dev : Type} (V : dev_view dev) (mf : Prop) {E : PsDev dev} {SP : PsDevSpec V E mf}.
Context (c : ps_config) (Hc : cfg_ok c) (Hbuf : PS_OBJ_TABLE_SIZE c <= its_buf V).
Local Abbreviation st := (ps_state dev).
Local Abbreviation disk s := (persist V (the_dev s)).
Implicit Types s : st.

(** ** Refused requests, with their status *)
Definition uid_refused (uid : Z) (e : psa_status_t) : Prop :=
  (uid = TFM_PS_INVALID_UID /\ e = PSA_ERROR_INVALID_ARGUMENT) \/
  (uid <> TFM_PS_INVALID_UID /\ is_tfm_ps_oem_uid c uid = true /\ e = PSA_ERROR_NOT_SUPPORTED).
Definition uid_served (uid : Z) : Prop :=
  uid <> TFM_PS_INVALID_UID /\ is_tfm_ps_oem_uid c uid = false.

Definition set_refused (m : omap) (cid uid n fl : Z) (l : list Z) (e : psa_status_t) : Prop :=
  uid_refused uid e \/
  (uid <> TFM_PS_INVALID_UID /\ has_flag fl (UINT32_MAX - supported_flags) = true /\
     e = PSA_ERROR_NOT_SUPPORTED) \/
  (uid_served uid /\ create_denied c m (uid, cid) n l e).
Definition set_allowed (m : omap) (cid uid n fl : Z) (l : list Z) : Prop :=
  uid_served uid /\ has_flag fl (UINT32_MAX - supported_flags) = false /\
  create_allowed c m (uid, cid) n l.

Lemma ps_set_spec du s m cid uid n fl :
  let l := asset n s in let m' := <[(uid, cid) := new_object n fl l]> m in
  serving V c du s m -> args_ok cid uid -> 0 <= fl < 2 ^ 32 -> 0 <= n < 2 ^ 32 ->
  bytes (invec 1 (the_msg s)) ->
  wp (tfm_ps_set c cid uid n fl) s
    (fun _ s' => set_allowed m cid uid n fl l /\ serving V c True s' m')
    (fun e s' => e <> PSA_SUCCESS /\
       ((set_refused m cid uid n fl l e /\ serving V c du s' m) \/
        ((mf \/ set_allowed m cid uid n fl l) /\ not_done V mf c du s' m m'))).
Proof.
  intros l m' H [Hu Hcl] Hfl Hn Hb. unfold tfm_ps_set. fold supported_flags.
  destruct (Z.eqb_spec uid TFM_PS_INVALID_UID) as [Hz|Hz].
  { apply wp_fail. split; [done|]. left. split; [|done]. by left; left. }
  destruct (has_flag _ _) eqn:Hf.
  { apply wp_fail. split; [done|]. left. split; [|done]. by right; left. }
  destruct (is_tfm_ps_oem_uid c uid) eqn:Ho.
  { apply wp_fail. split; [done|]. left. split; [|done]. by left; right. }
  eapply wp_mono; [by apply (object_create_spec V mf c Hc Hbuf du s m)| |]; cbn beta.
  - intros _ s' [Hs Ha]. split; [|done]. by repeat split; try apply Ha.
  - intros e s' (He & [[Hd Hs]|[Ha Hs]]); (split; [done|]).
    + left. split; [|done]. right; right. by repeat split.
    + right. split; [|done]. destruct Ha as [?|Ha]; [by left|right]. by repeat split; try apply Ha.
Qed.

Definition get_refused (m : omap) (cid uid off : Z) (e : psa_status_t) : Prop :=
  uid_refused uid e \/ (uid_served uid /\ read_denied m (uid, cid) off e).

Lemma ps_get_spec du s m cid uid off n :
  serving V c du s m -> 0 <= off < 2 ^ 32 -> 0 <= n < 2 ^ 32 ->
  wp (tfm_ps_get c cid uid off n) s
    (fun k s' => serving V c du s' m /\ uid_served uid /\ exists o, m !! (uid, cid) = Some o /\
       off <= Z.of_nat (length (snd o)) /\ k = Z.min n (Z.of_nat (length (snd o)) - off) /\
       the_msg s' = set_msg_out (<[0%nat := nth 0 (msg_out (the_msg s)) [] ++ part off k (snd o)]>
                                   (msg_out (the_msg s))) (the_msg s))
    (fun e s' => e <> PSA_SUCCESS /\ serving V c du s' m /\ the_msg s' = the_msg s /\
       (mf \/ get_refused m cid uid off e)).
Proof.
  intros H Hoff Hn. unfold tfm_ps_get.
  destruct (Z.eqb_spec uid TFM_PS_INVALID_UID) as [Hz|Hz].
  { apply wp_fail. do 3 (split; [done|]). right. by left; left. }
  destruct (is_tfm_ps_oem_uid c uid) eqn:Ho.
  { apply wp_fail. do 3 (split; [done|]). right. by left; right. }
  eapply wp_mono; [by apply (object_read_spec V mf c Hc du s m)| |]; cbn beta.
  - intros k s' [Hs He]. split; [done|]. by split.
  - intros e s' (He & Hs & Hm & Hd). do 3 (split; [done|]). destruct Hd as [?|Hd]; [by left|right].
    by right.
Qed.

Definition info_refused (m : omap) (cid uid : Z) (e : psa_status_t) : Prop :=
  uid_refused uid e \/ (uid_served uid /\ m !! (uid, cid) = None /\ e = PSA_ERROR_DOES_NOT_EXIST).

Lemma ps_info_spec du s m cid uid : serving V c du s m ->
  wp (tfm_ps_get_info c cid uid) s
    (fun r s' => serving V c du s' m /\ the_msg s' = the_msg s /\ uid_served uid /\
       exists o, m !! (uid, cid) = Some o /\ r = (Z.of_nat (length (snd o)), create_flags (fst o)))
    (fun e s' => e <> PSA_SUCCESS /\ serving V c du s' m /\ the_msg s' = the_msg s /\
       (mf \/ info_refused m cid uid e)).
Proof.
  intros H. unfold tfm_ps_get_info.
  destruct (Z.eqb_spec uid TFM_PS_INVALID_UID) as [Hz|Hz].
  { apply wp_fail. do 3 (split; [done|]). right. by left; left. }
  destruct (is_tfm_ps_oem_uid c uid) eqn:Ho.
  { apply wp_fail. do 3 (split; [done|]). right. by left; right. }
  eapply wp_mono; [by apply (object_get_info_spec V mf c Hc du s m)| |]; cbn beta.
  - intros r s' (Hs & Hm & He). do 2 (split; [done|]). by split.
  - intros e s' (He & Hs & Hm & Hd). do 3 (split; [done|]). destruct Hd as [?|Hd]; [by left|right].
    by right.
Qed.

Definition remove_refused (m : omap) (cid uid : Z) (e : psa_status_t) : Prop :=
  uid_refused uid e \/ (uid_served uid /\ delete_denied m (uid, cid) e).
Definition remove_allowed (m : omap) (cid uid : Z) : Prop :=
  uid_served uid /\ delete_allowed m (uid, cid).

Lemma ps_remove_spec du s m cid uid :
  let m' := delete (uid, cid) m in serving V c du s m ->
  wp (tfm_ps_remove c cid uid) s
    (fun _ s' => remove_allowed m cid uid /\ serving V c True s' m')
    (fun e s' => e <> PSA_SUCCESS /\
       ((remove_refused m cid uid e /\ serving V c du s' m) \/
        ((mf \/ remove_allowed m cid uid) /\ not_done V mf c du s' m m'))).
Proof.
  intros m' H. unfold tfm_ps_remove.
  destruct (Z.eqb_spec uid TFM_PS_INVALID_UID) as [Hz|Hz].
  { apply wp_fail. split; [done|]. left. split; [|done]. by left; left. }
  destruct (is_tfm_ps_oem_uid c uid) eqn:Ho.
  { apply wp_fail. split; [done|]. left. split; [|done]. by left; right. }
  apply wp_on_err. eapply wp_mono; [by apply (object_delete_spec V mf c Hc Hbuf du s m)| |]; cbn beta.
  - intros _ s' [Hs Ha]. split; [by repeat split|done].
  - intros e s' (He & Hd). split; [by case_match|]. destruct Hd as [[Hd Hs]|[Ha Hs]].
    + left. split; [|done]. right. split; [by repeat split|].
      destruct Hd as [[? ->]|(o & ? & ? & ->)]; [by left|right; by exists o].
    + right. split; [|done]. destruct Ha as [?|Ha]; [by left|right]. by repeat split.
Qed.

Lemma serving_weaken (P Q : Prop) s m : (Q -> P) -> serving V c P s m -> serving V c Q s m.
Proof.
  intros HPQ [H1 H2 (v & t & H3 & H4 & H5 & H6) H7 H8]. split; try done. exists v, t. auto 8.
Qed.

(** ** What is left after a request, whatever became of it

    A table that is vouched for ([du]) stays so, or a restart finds one. *)
Section Handled.
Context (du : Prop).

Definition left_with (s' : st) (m' : omap) : Prop :=
  serving V c du s' m' \/ (mf /\ ~ up V (the_dev s') /\ recoverable V c (disk s') m').

(** [m'] is [m] but for the objects of client [cid]. *)
Definition others_kept (cid : Z) (m m' : omap) : Prop := forall k, snd k <> cid -> m' !! k = m !! k.

Definition handled (cid : Z) (m : omap) (s' : st) : Prop :=
  exists m', others_kept cid m m' /\ left_with s' m'.

Lemma handled_same cid m s' : serving V c du s' m -> handled cid m s'.
Proof. intros H. exists m. split; [done|]. by left. Qed.
Lemma handled_changed cid m m' s' : others_kept cid m m' -> serving V c True s' m' -> handled cid m s'.
Proof. intros Ho H. exists m'. split; [done|]. left. by apply (serving_weaken True). Qed.
Lemma handled_not_done cid m m' s' : others_kept cid m m' -> not_done V mf c du s' m m' -> handled cid m s'.
Proof.
  intros Ho [H|[[_ H]|(H1 & H2 & H3)]].
  - by eapply handled_same.
  - by eapply handled_changed.
  - exists m'. split; [done|]. by right.
Qed.
Lemma others_insert cid uid o m : others_kept cid m (<[(uid, cid) := o]> m).
Proof. intros [u k] Hk. apply lookup_insert_ne. cbn in Hk. congruence. Qed.
Lemma others_delete cid uid m : others_kept cid m (delete (uid, cid) m).
Proof. intros [u k] Hk. apply lookup_delete_ne. cbn in Hk. congruence. Qed.

(** ** The request manager *)

(** The sizes of a message are those of its vectors. *)
Record msg_ok (x : ps_msg) : Prop := {
  mo_client : - 2 ^ 31 <= msg_client_id x < 2 ^ 31;
  mo_size i : nth i (msg_in_size x) 0 = Z.of_nat (length (invec i x));
  mo_fits i : Z.of_nat (length (invec i x)) < 2 ^ 32;
  mo_bytes i : bytes (invec i x);
  mo_out i : 0 <= nth i (msg_out_size x) 0 < 2 ^ 32
}.

Definition settles (cid : Z) (m : omap) (k : M st unit) s : Prop :=
  wp k s (fun _ s' => handled cid m s') (fun _ s' => handled cid m s').

Lemma nth_insert_ne (i j : nat) (x : list Z) l : j <> i -> nth j (<[i := x]> l) [] = nth j l [].
Proof.
  intros H. rewrite !nth_lookup. destruct (decide (j < length l)%nat).
  - by rewrite list_lookup_insert_ne.
  - rewrite !lookup_ge_None_2; [done|lia|rewrite length_insert; lia].
Qed.

Lemma read_arg_spec i n s (Q : Z -> st -> Prop) P :
  bytes (invec i (the_msg s)) ->
  (forall x, (forall j, j <> i -> invec j x = invec j (the_msg s)) ->
     msg_client_id x = msg_client_id (the_msg s) -> msg_out_size x = msg_out_size (the_msg s) ->
     let l := firstn (Z.to_nat n) (invec i (the_msg s)) in
     0 <= le_val l < 256 ^ n -> Q (le_val l) (set_msg x s)) ->
  (forall x, P PSA_ERROR_PROGRAMMER_ERROR (set_msg x s)) ->
  wp (read_arg i n) s Q P.
Proof.
  intros Hm HQ HP. unfold read_arg, psa_read.
  apply wp_bind, wp_bind, wp_reads, wp_bind, wp_modify, wp_ret.
  set (x := set_msg_in _ _). set (l := firstn _ _).
  destruct (Z.eqb_spec (Z.of_nat (length l)) n) as [Hl|Hl]; cbn [negb].
  - apply wp_ret, HQ; try done.
    + intros j Hj. unfold x, invec. cbn. by apply nth_insert_ne.
    + replace (256 ^ n) with (256 ^ Z.of_nat (length l)) by by rewrite Hl.
      by apply le_val_range, bytes_firstn.
  - apply wp_fail, HP.
Qed.

Lemma settles_set_ipc s m : serving V c du s m -> msg_ok (the_msg s) ->
  settles (msg_client_id (the_msg s)) m (tfm_ps_set_ipc c) s.
Proof.
  intros H Hm. unfold settles, tfm_ps_set_ipc, in_size.
  apply wp_bind, wp_reads, wp_bind, wp_reads, wp_bind, wp_reads. rewrite !(mo_size _ Hm).
  destruct (negb _ || negb _) eqn:Hsz; [apply wp_fail; by eapply handled_same|].
  apply orb_false_iff in Hsz as [H0 H2]. apply negb_false_iff, Z.eqb_eq in H0, H2. rewrite H0, H2.
  apply wp_bind, read_arg_spec; [apply Hm| |intros x; by eapply handled_same, serving_msg].
  intros x Hx Hcl _ l Hl. apply wp_bind, read_arg_spec; [cbn; rewrite Hx by done; apply Hm| |].
  2:{ intros y. by eapply handled_same, serving_msg, serving_msg. }
  intros y Hy Hcy _ l2 Hl2. cbn [the_msg set_msg] in Hy, Hcy. apply wp_bind, wp_reads. cbn [the_msg set_msg].
  assert (H' : serving V c du (set_msg y (set_msg x s)) m) by by do 2 apply serving_msg.
  assert (Hv1 : invec 1 y = invec 1 (the_msg s)) by (rewrite Hy by done; by apply Hx).
  pose proof (mo_fits _ Hm 1%nat).
  eapply wp_mono; [apply (ps_set_spec du _ m); [exact H'| |exact Hl2|lia|cbn; rewrite Hv1; apply Hm]| |]; cbn beta.
  - rewrite Hcy, Hcl. split; [exact Hl|apply Hm].
  - intros _ s' [_ Hs]. eapply handled_changed; [|exact Hs]. rewrite Hcy, Hcl. apply others_insert.
  - intros e s' (_ & [[_ Hs]|[_ Hs]]); [by eapply handled_same|].
    eapply handled_not_done; [|exact Hs]. rewrite Hcy, Hcl. apply others_insert.
Qed.

Lemma settles_remove_ipc s m : serving V c du s m -> msg_ok (the_msg s) ->
  settles (msg_client_id (the_msg s)) m (tfm_ps_remove_ipc c) s.
Proof.
  intros H Hm. unfold settles, tfm_ps_remove_ipc, in_size. apply wp_bind, wp_reads.
  destruct (negb _); [apply wp_fail; by eapply handled_same|].
  apply wp_bind, read_arg_spec; [apply Hm| |intros x; by eapply handled_same, serving_msg].
  intros x _ Hcl _ l _. apply wp_bind, wp_reads. cbn [the_msg set_msg].
  eapply wp_mono; [apply (ps_remove_spec du (set_msg x s) m); by apply serving_msg| |]; cbn beta.
  - intros _ s' [_ Hs]. eapply handled_changed; [|exact Hs]. rewrite Hcl. apply others_delete.
  - intros e s' (_ & [[_ Hs]|[_ Hs]]); [by eapply handled_same|].
    eapply handled_not_done; [|exact Hs]. rewrite Hcl. apply others_delete.
Qed.

Lemma settles_get_ipc s m : serving V c du s m -> msg_ok (the_msg s) ->
  settles (msg_client_id (the_msg s)) m (tfm_ps_get_ipc c) s.
Proof.
  intros H Hm. unfold settles, tfm_ps_get_ipc, in_size, out_size. apply wp_bind, wp_reads, wp_bind, wp_reads.
  rewrite !(mo_size _ Hm).
  destruct (negb _ || negb _) eqn:Hsz; [apply wp_fail; by eapply handled_same|].
  apply orb_false_iff in Hsz as [H0 H1]. apply negb_false_iff, Z.eqb_eq in H0, H1. rewrite H0, H1.
  apply wp_bind, read_arg_spec; [apply Hm| |intros x; by eapply handled_same, serving_msg].
  intros x Hx Hcl Hox l Hl. apply wp_bind, read_arg_spec; [cbn; rewrite Hx by done; apply Hm| |].
  2:{ intros y. by eapply handled_same, serving_msg, serving_msg. }
  intros y Hy Hcy Hoy l2 Hl2. cbn [the_msg set_msg] in Hy, Hcy, Hoy. apply wp_bind, wp_reads, wp_bind, wp_reads. cbn [the_msg set_msg].
  assert (H' : serving V c du (set_msg y (set_msg x s)) m) by by do 2 apply serving_msg.
  apply wp_bind. eapply wp_mono; [apply (ps_get_spec du _ m); [exact H'|exact Hl2|]| |]; cbn beta.
  - rewrite Hoy, Hox. apply (mo_out _ Hm).
  - intros k s' [Hs _]. by eapply handled_same.
  - intros e s' (_ & Hs & _). by eapply handled_same.
Qed.

Lemma settles_get_info_ipc sc s m : serving V c du s m -> msg_ok (the_msg s) ->
  settles (msg_client_id (the_msg s)) m (tfm_ps_get_info_ipc c sc) s.
Proof.
  intros H Hm. unfold settles, tfm_ps_get_info_ipc, in_size, out_size. apply wp_bind, wp_reads, wp_bind, wp_reads.
  destruct (negb _ || negb _); [apply wp_fail; by eapply handled_same|].
  apply wp_bind, read_arg_spec; [apply Hm| |intros x; by eapply handled_same, serving_msg].
  intros x _ _ _ l _. apply wp_bind, wp_reads, wp_bind. cbn [the_msg set_msg].
  eapply wp_mono; [apply (ps_info_spec du (set_msg x s) m); by apply serving_msg| |]; cbn beta.
  - intros [a b] s' [Hs _]. unfold psa_write. apply wp_bind, wp_reads, wp_modify.
    by eapply handled_same, serving_msg.
  - intros e s' (_ & Hs & _). by eapply handled_same.
Qed.

Lemma settles_get_support_ipc cid s m : serving V c du s m ->
  settles cid m tfm_ps_get_support_ipc s.
Proof.
  intros H. unfold settles, tfm_ps_get_support_ipc, out_size. apply wp_bind, wp_reads.
  destruct (negb _); [apply wp_fail; by eapply handled_same|].
  unfold psa_write. apply wp_bind, wp_reads, wp_modify. by eapply handled_same, serving_msg.
Qed.

(** The handler of a signal answers every message of a client. *)
Lemma signal_handle_spec x k s m : serving V c du s m -> msg_ok x ->
  settles (msg_client_id x) m k (set_msg x s) ->
  (msg_type x = PSA_IPC_CONNECT \/ msg_type x = PSA_IPC_CALL \/ msg_type x = PSA_IPC_DISCONNECT) ->
  exists r s', ps_signal_handle (Some x) k s = (Replied r, s') /\ handled (msg_client_id x) m s'.
Proof.
  intros H Hm Hk Ht. unfold ps_signal_handle.
  assert (Hs : handled (msg_client_id x) m (set_msg x s)) by by eapply handled_same, serving_msg.
  destruct (Z.eqb_spec (msg_type x) PSA_IPC_CONNECT); [eauto|].
  destruct (Z.eqb_spec (msg_type x) PSA_IPC_CALL).
  - unfold settles, wp in Hk. destruct (k (set_msg x s)) as [[u|err] s']; eauto.
  - destruct (Z.eqb_spec (msg_type x) PSA_IPC_DISCONNECT); [eauto|]. by destruct Ht as [|[]].
Qed.

Lemma serve_spec sig sc signals x s m : serving V c du s m -> msg_ok x ->
  (msg_type x = PSA_IPC_CONNECT \/ msg_type x = PSA_IPC_CALL \/ msg_type x = PSA_IPC_DISCONNECT) ->
  (exists f, In f [TFM_PS_SET_SIGNAL sig; TFM_PS_GET_SIGNAL sig; TFM_PS_GET_INFO_SIGNAL sig;
     TFM_PS_REMOVE_SIGNAL sig; TFM_PS_GET_SUPPORT_SIGNAL sig] /\ has_flag signals f = true) ->
  exists r s', ps_serve c sig sc signals (Some x) s = (Replied r, s') /\ handled (msg_client_id x) m s'.
Proof.
  intros H Hm Ht (f & Hin & Hf). unfold ps_serve.
  assert (H' : serving V c du (set_msg x s) m) by by apply serving_msg.
  destruct (has_flag signals (TFM_PS_SET_SIGNAL sig)) eqn:F1.
  { by apply signal_handle_spec; [| |apply (settles_set_ipc (set_msg x s))|]. }
  destruct (has_flag signals (TFM_PS_GET_SIGNAL sig)) eqn:F2.
  { by apply signal_handle_spec; [| |apply (settles_get_ipc (set_msg x s))|]. }
  destruct (has_flag signals (TFM_PS_GET_INFO_SIGNAL sig)) eqn:F3.
  { by apply signal_handle_spec; [| |apply (settles_get_info_ipc sc (set_msg x s))|]. }
  destruct (has_flag signals (TFM_PS_REMOVE_SIGNAL sig)) eqn:F4.
  { by apply signal_handle_spec; [| |apply (settles_remove_ipc (set_msg x s))|]. }
  destruct (has_flag signals (TFM_PS_GET_SUPPORT_SIGNAL sig)) eqn:F5.
  { by apply signal_handle_spec; [| |apply settles_get_support_ipc|]. }
  cbn in Hin. exfalso. intuition (subst; congruence).
Qed.
End Handled.
End Spec.

(** * Protected Storage: restarts

    What one device left on the flash, another finds when the power is back:
    both are views of the same files, counters and storage key. *)

(** The partition with its variables, on another device. *)
Definition with_dev {dev dev'} (d : dev') (s : ps_state dev) : ps_state dev' :=
  {| obj_table := obj_table s; active_table := active_table s; scratch_table := scratch_table s;
     g_ps_object := g_ps_object s; info_fid := info_fid s; ps_crypto_buf := ps_crypto_buf s;
     ps_key := ps_key s; ps_crypto_iv_buf := ps_crypto_iv_buf s; overrun := overrun s;
     the_msg := the_msg s; the_dev := d |}.

Section Swap.
Context {dev dev' : Type} (V : dev_view dev) (V' : dev_view dev') (Haead : aead V' = aead V).
Context (c : ps_config).

Lemma stored_swap F i e o : stored V c F i e o -> stored V' c F i e o.
Proof. unfold stored, file_holds. by rewrite Haead. Qed.
Lemma repr_swap db F m : repr V c db F m -> repr V' c db F m.
Proof.
  intros [H1 H2 H3]. split; try done. intros i e Hi Hu. destruct (H1 i e Hi Hu) as (o & Ho & Hs).
  exists o. split; [done|by apply stored_swap].
Qed.
Lemma sealed_swap t v : sealed V t v -> sealed V' t v.
Proof. unfold sealed. by rewrite Haead. Qed.
Lemma on_flash_swap p a v t m : on_flash V c p a v t m -> on_flash V' c p a v t m.
Proof.
  intros [H1 H2 H3 H4 H5 H6 H7 H8]. split; try done; [by apply sealed_swap|by apply repr_swap|].
  intros x Hx. destruct (H8 x Hx) as (t' & w & ? & ? & Hs & ?). exists t', w.
  do 2 (split; [done|]). split; [by apply sealed_swap|done].
Qed.
Lemma recoverable_swap p m : recoverable V c p m -> recoverable V' c p m.
Proof. intros (a & v & t & H & H'). exists a, v, t. split; [by apply on_flash_swap|done]. Qed.
Lemma serving_swap P (s : ps_state dev) m d : persist V' d = persist V (the_dev s) ->
  serving V c P s m -> serving V' c P (with_dev d s) m.
Proof.
  intros Hp [[A1 A2 A3 A4 A5 A6] B (v & t & C & D) F G]. split; cbn; rewrite ?Hp; try done.
  exists v, t. split; [by apply on_flash_swap|done].
Qed.
End Swap.

Section Restart.
Context {dev : Type} (V : dev_view dev) (mf : Prop) {E : PsDev dev} {SP : PsDevSpec V E mf}.
Context (c : ps_config) (Hc : cfg_ok c) (Hmf : ~ mf).
Local Abbreviation st := (ps_state dev).
Local Abbreviation disk s := (persist V (the_dev s)).
Implicit Types s : st.

Lemma shaped_boot x (d : dev) : shaped c (ps_boot c x d).
Proof.
  pose proof (ok_entries _ Hc) as HN. pose proof (ok_max _ Hc) as HM. pose proof (ok_table _ Hc) as HT.
  assert (Hsz : PS_OBJ_TABLE_SIZE c = 32 + 32 * PS_OBJ_TABLE_ENTRIES c) by done.
  assert (Hz : forall n, length (concat (map entry_bytes (repeat zero_entry n))) = (32 * n)%nat).
  { intros n. rewrite length_entries; [by rewrite repeat_length|].
    apply Forall_forall. intros e He. apply list_elem_of_In, repeat_spec in He. subst e. apply wf_zero_entry. }
  split; cbn [ps_boot obj_table g_ps_object ps_crypto_buf overrun zero_object header_crypto data]; try done.
  - unfold zero_table, table_bytes, table_auth_data. cbn [hdr_crypto hdr_version hdr_pad obj_db].
    rewrite !length_app, Hz, length_zeros, length_le_bytes, length_crypto_bytes by apply wf_zero_crypto. lia.
  - rewrite length_zeros. lia.
  - rewrite length_zeros. unfold PS_CRYPTO_BUF_LEN, PS_MAX_ENCRYPTED_OBJ_SIZE, PS_ENCRYPT_SIZE, u32.
    pose proof (Z.mod_pos_bound (PS_MAX_OBJECT_DATA_SIZE c + PS_OBJECT_HEADER_SIZE - sizeof_ps_crypto_t) (2 ^ 32) eq_refl).
    change (PS_TAG_IV_LEN_MAX) with 16. lia.
Qed.

Lemma iv_boot x (d : dev) : iv_ok (ps_crypto_iv_buf (ps_boot c x d)) /\ iv_value (ps_crypto_iv_buf (ps_boot c x d)) = 0.
Proof. split; [split; [done|apply bytes_zeros]|done]. Qed.

(** A start on a device with a table finds its map. *)
Lemma ps_start_spec a v t m s : shaped c s -> on_flash V c (disk s) a v t m ->
  let n := p_nv (disk s) in
  0 <= nv2 n <= nv1 n -> 0 <= nv3 n <= nv1 n -> (v = nv1 n \/ (v = nv3 n /\ v = nv2 n)) ->
  wp (tfm_ps_init c) s
    (fun _ s' => serving V c (v = nv1 n) s' m /\ ps_crypto_iv_buf s' = iv (hdr_crypto t) /\
       obj_table s' = t /\ the_msg s' = the_msg s /\
       p_nv (disk s') = {| nv1 := nv1 n; nv2 := nv1 n; nv3 := nv1 n |} /\
       on_flash V c (disk s') a v t m)
    (fun _ _ => False).
Proof.
  intros Hsh Hfl n H2 H3 Hv. unfold tfm_ps_init, ps_system_prepare. apply wp_bind, wp_attempt.
  eapply wp_mono; [by apply (mount_spec V mf c Hc Hmf a v t m)| |done].
  intros u s' H. by apply wp_ret.
Qed.

(** The map that was on the flash is there after a restart. *)
Definition restart_finds (p : pstore) (m : omap) : Prop := forall x d, persist V d = p ->
  wp (tfm_ps_init c) (ps_boot c x d) (fun _ s' => serving V c False s' m) (fun _ _ => False).

Lemma recoverable_restarts p m : recoverable V c p m -> restart_finds p m.
Proof.
  intros (a & v & t & Hfl & H2 & H3 & Hv) x d Hp.
  eapply wp_mono; [apply (ps_start_spec a v t m (ps_boot c x d) (shaped_boot x d))| |done]; cbn; rewrite ?Hp; try done.
  intros _ s' [H _]. eapply serving_weaken; [|exact H]. done.
Qed.
End Restart.

(** ** IVs *)
Section Ivs.
Context {dev : Type}.
Local Abbreviation st := (ps_state dev).

(** The IVs of [n] calls of ps_crypto_get_iv. *)
Fixpoint get_ivs (n : nat) : M st (list (list Z)) :=
  match n with
  | O => ret []
  | S n' => let! l := ps_crypto_get_iv in let! r := get_ivs n' in ret (l :: r)
  end.

Lemma get_ivs_spec n (s : st) : iv_ok (ps_crypto_iv_buf s) ->
  let v := iv_value (ps_crypto_iv_buf s) in
  wp (get_ivs n) s
    (fun ls s' => length ls = n /\ forall i l, ls !! i = Some l -> iv_ok l /\ iv_value l = v + Z.of_nat i + 1)
    (fun e _ => e = PSA_ERROR_GENERIC_ERROR /\ 2 ^ 96 <= v + Z.of_nat n).
Proof.
  revert s. induction n as [|n IH]; intros s Hok v; cbn [get_ivs].
  - apply wp_ret. split; [done|]. by intros i l.
  - apply wp_bind. eapply wp_mono; [by apply get_iv_spec| |].
    2:{ intros e s' (-> & _ & Hv). split; [done|]. fold v in Hv. lia. }
    intros l s1 (-> & Hl & Hv). cbn beta. fold v in Hv. apply wp_bind.
    eapply wp_mono; [by apply (IH (set_iv_buf l s))| |]; cbn beta zeta; change (ps_crypto_iv_buf (set_iv_buf l s)) with l.
    + intros ls s2 [Hlen Hls]. apply wp_ret. split; [cbn; lia|]. intros [|i] l'.
      * intros [= <-]. split; [done|]. lia.
      * intros Hi. destruct (Hls i l' Hi) as [H1 H2]. split; [done|]. lia.
    + intros e s2 [-> H]. split; [done|]. lia.
Qed.
End Ivs.
