(* ===== verification/PsDevice.v ===== *)
(** * Protected Storage: devices to run it on

    Two executable implementations of the services: [bench], which never
    fails, and [brownout], on which the power fails after a number of changes
    of what lasts.  Both meet the contract [PsDevSpec].  Their authenticated
    encryption is a toy: the plain text followed by a check sum. *)

From Stdlib Require Import ZArith List Lia Bool.
From stdpp Require Import base tactics gmap list.
From S2P Require Import Prelude ItsFs Its PsBase PsState PsCrypto PsBytes.
From S2P Require Import Prelude ItsFs Its PsBase PsState PsCrypto PsTable PsObject PsService PsBytes.
From S2P Require Import PsInv PsMountSpec PsFormat PsServiceSpec.
Import ListNotations.
Local Open Scope Z_scope.

(** ** The toy cipher *)
Definition to_bytes (l : list Z) : list Z := map (fun b => b mod 256) l.
Definition checksum (l : list Z) : Z := fold_left (fun a b => (a * 31 + b) mod 2 ^ 96) l 7.
Definition last4 (l : list Z) : list Z := skipn (length l - 4) (zeros 4 ++ l).
Definition toy_tag (iv aad pt : list Z) : list Z :=
  take_at 0 4 (to_bytes (skipn (length aad) (zeros 4 ++ aad))) ++
  le_bytes 12 (checksum (iv ++ aad ++ pt)).
Definition toy_aead (iv aad pt : list Z) : list Z := to_bytes pt ++ toy_tag iv aad pt.

(** The plain text of [c], when its tag is right and it fits. *)
Definition toy_open (iv aad c : list Z) (room : Z) : option (list Z) :=
  let pt := firstn (length c - 16) c in
  if bool_decide (Forall (fun b => 0 <= b < 256) pt) && bool_decide (c = toy_aead iv aad pt) &&
     (Z.of_nat (length pt) <=? room) then Some pt else None.

Lemma to_bytes_id l : bytes l -> to_bytes l = l.
Proof. unfold to_bytes. induction 1 as [|b l Hb _ IH]; [done|]. cbn. by rewrite Z.mod_small, IH. Qed.
Lemma bytes_to_bytes l : bytes (to_bytes l).
Proof. unfold bytes, to_bytes. rewrite Forall_map. apply Forall_true. intros b. apply Z.mod_pos_bound. lia. Qed.
Lemma length_toy_tag iv aad pt : length (toy_tag iv aad pt) = 16%nat.
Proof.
  unfold toy_tag, take_at, to_bytes. rewrite length_app, length_le_bytes, length_firstn, length_skipn, length_map, length_skipn, length_app.
  cbn [length zeros]. rewrite length_zeros. lia.
Qed.

Lemma toy_length iv aad pt : Z.of_nat (length (toy_aead iv aad pt)) = Z.of_nat (length pt) + PS_TAG_LEN_BYTES.
Proof. unfold toy_aead, PS_TAG_LEN_BYTES. rewrite length_app, length_toy_tag. unfold to_bytes. rewrite length_map. lia. Qed.
Lemma toy_bytes iv aad pt : bytes (toy_aead iv aad pt).
Proof.
  unfold toy_aead, toy_tag. rewrite !bytes_app. split; [apply bytes_to_bytes|].
  split; [apply bytes_take_at, bytes_to_bytes|apply bytes_le].
Qed.
Lemma toy_inj iv aad pt pt' : bytes pt -> bytes pt' -> toy_aead iv aad pt = toy_aead iv aad pt' -> pt = pt'.
Proof.
  intros H H' E. unfold toy_aead in E. rewrite !to_bytes_id in E by done.
  apply (f_equal (fun l => firstn (length l - 16) l)) in E.
  rewrite !length_app, !length_toy_tag, !Nat.add_sub in E. by rewrite !take_app_length in E.
Qed.
Lemma toy_counter iv aad v v' : 0 <= v < 2 ^ 32 -> 0 <= v' < 2 ^ 32 ->
  toy_aead iv (aad ++ le_bytes 4 v) [] = toy_aead iv (aad ++ le_bytes 4 v') [] -> v = v'.
Proof.
  intros Hv Hv' E. unfold toy_aead, toy_tag in E. cbn [to_bytes map app] in E.
  assert (Hl : forall w, skipn (length (aad ++ le_bytes 4 w)) (zeros 4 ++ aad ++ le_bytes 4 w) = le_bytes 4 w).
  { intros w. rewrite app_assoc. apply skipn_app_exact. rewrite !length_app, length_le_bytes, length_zeros. lia. }
  rewrite !Hl, !to_bytes_id in E by apply bytes_le.
  assert (Ht : forall w, take_at 0 4 (le_bytes 4 w) = le_bytes 4 w) by done.
  rewrite !Ht in E. apply (f_equal (fun l => le_val (firstn 4 l))) in E.
  rewrite !firstn_app_exact, !le_val_bytes in E by apply length_le_bytes.
  change (256 ^ Z.of_nat 4) with (2 ^ 32) in E. by rewrite !Z.mod_small in E.
Qed.

Lemma toy_open_some iv aad c room pt : toy_open iv aad c room = Some pt ->
  bytes pt /\ c = toy_aead iv aad pt /\ Z.of_nat (length pt) <= room.
Proof.
  unfold toy_open. set (x := firstn _ c). destruct (_ && _) eqn:E; [|done]. intros [= <-].
  apply andb_true_iff in E as [E H3]. apply andb_true_iff in E as [H1 H2].
  apply bool_decide_eq_true in H1, H2. split; [done|]. split; [done|lia].
Qed.
Lemma toy_open_none iv aad c room pt : toy_open iv aad c room = None ->
  bytes pt -> c = toy_aead iv aad pt -> room < Z.of_nat (length pt).
Proof.
  unfold toy_open. intros E Hb Hc.
  assert (Hx : firstn (length c - 16) c = pt).
  { rewrite Hc. unfold toy_aead. rewrite to_bytes_id, length_app, length_toy_tag, Nat.add_sub by done.
    apply take_app_length. }
  rewrite Hx in E. rewrite !bool_decide_true in E by done. cbn in E.
  destruct (Z.leb_spec (Z.of_nat (length pt)) room); [done|lia].
Qed.

(** ** What lasts *)
Definition store_get (fid off n : Z) (p : pstore) : res (list Z) :=
  match p_files p !! fid with
  | None => Err PSA_ERROR_DOES_NOT_EXIST
  | Some f => if (0 <=? off) && (off <=? Z.of_nat (length f))
              then Ok (firstn (Z.to_nat n) (skipn (Z.to_nat off) f))
              else Err PSA_ERROR_INVALID_ARGUMENT
  end.
Definition the_key : Z := 1.
Definition factory : pstore := {| p_files := ∅; p_nv := {| nv1 := 0; nv2 := 0; nv3 := 0 |} |}.

(** Calls that do not touch what lasts. *)
Section Toy.
Context {D : Type}.
Definition toy_encrypt (k : Z) (iv aad pt : list Z) (room : Z) : M D (list Z) :=
  if negb (k =? the_key) then fail PSA_ERROR_INVALID_HANDLE
  else if Z.of_nat (length (toy_aead iv aad pt)) <=? room then ret (toy_aead iv aad pt)
  else fail PSA_ERROR_BUFFER_TOO_SMALL.
Definition toy_decrypt (k : Z) (iv aad c : list Z) (room : Z) : M D (list Z) :=
  if negb (k =? the_key) then fail PSA_ERROR_INVALID_HANDLE
  else match toy_open iv aad c room with
       | Some pt => ret pt
       | None => fail PSA_ERROR_INVALID_SIGNATURE
       end.
End Toy.

(** ** The bench: nothing fails *)
#[export] Instance bench : PsDev pstore := {|
  psa_its_set fid l _ := modify (put_file fid l);
  psa_its_get fid off n := fun p => (store_get fid off n p, p);
  psa_its_remove fid := fun p =>
    match p_files p !! fid with
    | None => (Err PSA_ERROR_DOES_NOT_EXIST, p)
    | Some _ => (Ok tt, drop_file fid p)
    end;
  tfm_platform_nv_counter_read i := reads (fun p => nv_get i (p_nv p));
  tfm_platform_nv_counter_increment i := fun p =>
    if nv_get i (p_nv p) <? UINT32_MAX then (Ok tt, bump i p) else (Err PSA_ERROR_GENERIC_ERROR, p);
  psa_key_derivation_setup _ := ret 0;
  psa_key_derivation_input_bytes _ _ := ret tt;
  psa_key_derivation_output_key _ := ret the_key;
  psa_key_derivation_abort _ := ret tt;
  psa_destroy_key _ := ret tt;
  psa_aead_encrypt := toy_encrypt;
  psa_aead_decrypt := toy_decrypt
|}.

Definition bench_view : dev_view pstore := {|
  persist p := p; up _ := True; holds_key _ k := k = the_key; aead := toy_aead; its_buf := 4096
|}.

(** The parts of the contract that do not depend on failures. *)
Lemma toy_encrypt_spec {D} (V : dev_view D) mf k iv aad pt room d : aead V = toy_aead -> k = the_key ->
  wp (toy_encrypt k iv aad pt room) d
    (fun c d' => quiet V d d' /\ c = aead V iv aad pt /\ Z.of_nat (length c) <= room)
    (fun e d' => e <> PSA_SUCCESS /\
       (mf \/ room < Z.of_nat (length (aead V iv aad pt))) /\ quiet V d d').
Proof.
  intros HV ->. unfold toy_encrypt. rewrite Z.eqb_refl, HV. cbn [negb].
  destruct (Z.leb_spec (Z.of_nat (length (toy_aead iv aad pt))) room).
  - apply wp_ret. auto with ps.
  - apply wp_fail. split; [done|]. auto with ps.
Qed.
Lemma toy_decrypt_spec {D} (V : dev_view D) (mf : Prop) k iv aad c room d : aead V = toy_aead -> k = the_key ->
  wp (toy_decrypt k iv aad c room) d
    (fun pt d' => quiet V d d' /\ bytes pt /\ c = aead V iv aad pt /\ Z.of_nat (length pt) <= room)
    (fun e d' => e <> PSA_SUCCESS /\ quiet V d d' /\
       (mf \/ forall pt, bytes pt -> c = aead V iv aad pt -> room < Z.of_nat (length pt))).
Proof.
  intros HV ->. unfold toy_decrypt. rewrite Z.eqb_refl, HV. cbn [negb].
  destruct (toy_open iv aad c room) as [pt|] eqn:E.
  - apply wp_ret. destruct (toy_open_some _ _ _ _ _ E) as (H1 & H2 & H3). auto with ps.
  - apply wp_fail. split; [done|]. split; [auto with ps|]. right. intros pt. by apply toy_open_none.
Qed.
Lemma store_get_spec {D} (V : dev_view D) (mf : Prop) fid off n (d d' : D) : quiet V d d' ->
  match store_get fid off n (persist V d) with
  | Ok l => quiet V d d' /\ exists f, p_files (persist V d) !! fid = Some f /\
       0 <= off <= Z.of_nat (length f) /\ l = firstn (Z.to_nat n) (skipn (Z.to_nat off) f)
  | Err e => e <> PSA_SUCCESS /\ quiet V d d' /\
       (mf \/ p_files (persist V d) !! fid = None \/
        exists f, p_files (persist V d) !! fid = Some f /\ ~ 0 <= off <= Z.of_nat (length f))
  end.
Proof.
  intros Hq. unfold store_get. destruct (p_files (persist V d) !! fid) as [f|]; [|by auto].
  destruct (Z.leb_spec 0 off), (Z.leb_spec off (Z.of_nat (length f))); cbn [andb]; [eauto 8|..];
    (split; [done|]; split; [done|]; right; right; exists f; split; [done|lia]).
Qed.

#[export] Instance bench_spec : PsDevSpec bench_view bench False.
Proof.
  split.
  - intros fid l fl d. cbn. by repeat split.
  - intros fid off n d. pose proof (store_get_spec bench_view False fid off n d d (quiet_refl _ _)) as H.
    unfold wp. cbn in *. by destruct (store_get fid off n d).
  - intros fid d. unfold wp. cbn. destruct (p_files d !! fid) eqn:E; cbn; [by repeat split|].
    split; [done|]. split; [by right|]. left. apply same_refl.
  - intros i d _. cbn. split; [apply quiet_refl|done].
  - intros i d _. unfold wp. cbn. destruct (Z.ltb_spec (nv_get i (p_nv d)) UINT32_MAX); cbn; [by repeat split|].
    right. split; [apply same_refl|done].
  - intros alg d. apply quiet_refl.
  - intros op l d. apply quiet_refl.
  - intros op d. split; [apply quiet_refl|done].
  - intros op d. apply quiet_refl.
  - intros k d _. apply same_refl.
  - intros k iv aad pt n d Hk. by apply toy_encrypt_spec.
  - intros k iv aad ct n d Hk. by apply toy_decrypt_spec.
  - intros. apply toy_length.
  - intros. apply toy_bytes.
  - intros iv aad pt pt'. apply toy_inj.
  - intros iv aad v v'. apply toy_counter.
Qed.

(** ** The brownout: power for [d_left] more changes

    The change under way when the power goes is made when [d_torn]. *)
Record supply := { d_store : pstore; d_left : nat; d_torn : bool; d_on : bool }.

Definition change (p' : pstore) : M supply unit := fun d =>
  if negb (d_on d) then (Err PSA_ERROR_GENERIC_ERROR, d)
  else match d_left d with
       | S n => (Ok tt, {| d_store := p'; d_left := n; d_torn := d_torn d; d_on := true |})
       | O => (Err PSA_ERROR_GENERIC_ERROR,
               {| d_store := if d_torn d then p' else d_store d; d_left := 0; d_torn := d_torn d;
                  d_on := false |})
       end.

#[export] Instance brownout : PsDev supply := {|
  psa_its_set fid l _ := fun d => change (put_file fid l (d_store d)) d;
  psa_its_get fid off n := fun d => (store_get fid off n (d_store d), d);
  psa_its_remove fid := fun d =>
    match p_files (d_store d) !! fid with
    | None => (Err PSA_ERROR_DOES_NOT_EXIST, d)
    | Some _ => change (drop_file fid (d_store d)) d
    end;
  tfm_platform_nv_counter_read i := fun d =>
    if d_on d then (Ok (nv_get i (p_nv (d_store d))), d) else (Err PSA_ERROR_GENERIC_ERROR, d);
  tfm_platform_nv_counter_increment i := fun d =>
    if nv_get i (p_nv (d_store d)) <? UINT32_MAX then change (bump i (d_store d)) d
    else (Err PSA_ERROR_GENERIC_ERROR, d);
  psa_key_derivation_setup _ := ret 0;
  psa_key_derivation_input_bytes _ _ := ret tt;
  psa_key_derivation_output_key _ := ret the_key;
  psa_key_derivation_abort _ := ret tt;
  psa_destroy_key _ := ret tt;
  psa_aead_encrypt := toy_encrypt;
  psa_aead_decrypt := toy_decrypt
|}.

Definition brownout_view : dev_view supply := {|
  persist := d_store; up d := d_on d = true; holds_key _ k := k = the_key; aead := toy_aead;
  its_buf := 4096
|}.

(** A change is made, or it fails and nothing but the power is lost, or it is
    made while the power goes. *)
Lemma change_spec p' d :
  wp (change p') d (fun _ d' => became brownout_view d d' p')
    (fun e d' => e <> PSA_SUCCESS /\ ~ d_on d' = true /\
       failed brownout_view True d d' (fun q => q = p')).
Proof.
  unfold change, wp. destruct (d_on d) eqn:Hon; cbn [negb].
  - destruct (d_left d) as [|n]; [|by repeat split]. split; [done|]. split; [done|].
    destruct (d_torn d); [right|left]; by repeat split.
  - split; [done|]. split; [by rewrite Hon|]. left. apply same_refl.
Qed.

#[export] Instance brownout_spec : PsDevSpec brownout_view brownout True.
Proof.
  split.
  - intros fid l fl d. eapply wp_mono; [apply (change_spec (put_file fid l (d_store d)))|done|].
    intros e d' (He & _ & [H|(Hm & H1 & H2 & H3)]); (split; [done|]); [by left|right]. do 3 (split; [done|]).
    exists (Z.of_nat (length l)). split; [lia|]. split; [done|]. rewrite Nat2Z.id, firstn_all. exact H3.
  - intros fid off n d. pose proof (store_get_spec brownout_view True fid off n d d (quiet_refl _ _)) as H.
    unfold wp. cbn in *. by destruct (store_get fid off n (d_store d)).
  - intros fid d. unfold wp at 1. cbn. destruct (p_files (d_store d) !! fid) eqn:E.
    + eapply wp_mono; [apply (change_spec (drop_file fid (d_store d)))|done|].
      intros e d' (He & _ & H). auto.
    + split; [done|]. split; [by right|]. left. apply same_refl.
  - intros i d _. unfold wp. cbn. destruct (d_on d) eqn:E; cbn; rewrite E; auto with ps.
  - intros i d _. unfold wp at 1. cbn. destruct (Z.ltb_spec (nv_get i (p_nv (d_store d))) UINT32_MAX).
    + eapply wp_mono; [apply (change_spec (bump i (d_store d)))|done|].
      intros e d' (_ & Hoff & Hf). left. split; [done|]. split; [done|].
      destruct Hf as [Hf|(? & ? & ? & Hf)]; [by left|right]. by repeat split.
    + right. split; [apply same_refl|done].
  - intros alg d. apply quiet_refl.
  - intros op l d. apply quiet_refl.
  - intros op d. split; [apply quiet_refl|done].
  - intros op d. apply quiet_refl.
  - intros k d _. apply same_refl.
  - intros k iv aad pt n d Hk. by apply toy_encrypt_spec.
  - intros k iv aad ct n d Hk. by apply toy_decrypt_spec.
  - intros. apply toy_length.
  - intros. apply toy_bytes.
  - intros iv aad pt pt'. apply toy_inj.
  - intros iv aad v v'. apply toy_counter.
Qed.

(** Power comes back. *)
Definition repower (d : supply) : pstore := d_store d.

(** * Protected Storage: a concrete partition

    Three objects of at most 128 bytes, on the devices of PsDevice: the inputs
    the theorems are applied to. *)

Definition demo_config : ps_config :=
  {| PS_MAX_OBJECT_DATA_SIZE := 128; PS_CREATE_FLASH_LAYOUT := true; TFM_ENABLE_PS_OEM_UID := false;
     PS_CRYPTO_ALG := 100729088 |}.

Definition demo_client : Z := -7.
Definition demo_data : list Z := [104; 101; 108; 108; 111].

(** A psa_ps_set of UID 5 with [demo_data], and a psa_ps_get of it. *)
Definition set_msg_5 : ps_msg :=
  {| msg_type := PSA_IPC_CALL; msg_client_id := demo_client;
     msg_in := [le_bytes 8 5; demo_data; le_bytes 4 0]; msg_in_size := [8; 5; 4];
     msg_out_size := []; msg_out := [] |}.
Definition get_msg_5 : ps_msg :=
  {| msg_type := PSA_IPC_CALL; msg_client_id := demo_client;
     msg_in := [le_bytes 8 5; le_bytes 4 1]; msg_in_size := [8; 4];
     msg_out_size := [3]; msg_out := [[]] |}.

Definition demo_signals : ps_signals :=
  {| TFM_PS_SET_SIGNAL := 16; TFM_PS_GET_SIGNAL := 32; TFM_PS_GET_INFO_SIGNAL := 64;
     TFM_PS_REMOVE_SIGNAL := 128; TFM_PS_GET_SUPPORT_SIGNAL := 256 |}.

(** The first start. *)
Definition demo_boot : ps_state pstore := ps_boot demo_config set_msg_5 factory.
Definition demo_state : ps_state pstore := snd (tfm_ps_init demo_config demo_boot).
(** After the psa_ps_set. *)
Definition demo_stored : ps_state pstore :=
  snd (tfm_ps_set demo_config demo_client 5 5 0 demo_state).

(** A device with the files of [s], whose power lasts for [n] changes. *)
Definition on_battery (n : nat) (torn : bool) (s : ps_state pstore) : ps_state supply :=
  with_dev {| d_store := the_dev s; d_left := n; d_torn := torn; d_on := true |} s.

Lemma demo_ok : cfg_ok demo_config.
Proof. by split. Qed.
Lemma demo_fits : PS_OBJ_TABLE_SIZE demo_config <= its_buf bench_view.
Proof. done. Qed.
Lemma bench_room : its_has_room (E:=bench).
Proof. done. Qed.

Lemma demo_serving : serving bench_view demo_config True demo_state ∅.
Proof.
  pose proof (first_start_spec bench_view False demo_config demo_ok (fun f => f) demo_fits demo_boot eq_refl
    bench_room (shaped_boot demo_config demo_ok _ _) eq_refl eq_refl (proj1 (iv_boot demo_config _ _))) as H.
  assert (Hok : fst (tfm_ps_init demo_config demo_boot) = Ok tt) by (vm_compute; reflexivity).
  unfold wp in H. unfold demo_state. destruct (tfm_ps_init demo_config demo_boot) as [r s'].
  cbn in Hok. subst r. apply H; done.
Qed.

Lemma demo_battery n torn : serving brownout_view demo_config True (on_battery n torn demo_state) ∅.
Proof. by apply (serving_swap bench_view brownout_view), demo_serving. Qed.
