(* ===== verification/PsTheorems.v ===== *)
(** * Protected Storage: the properties

    The service as a map of objects that survives restarts, what a start
    accepts, the IVs, the isolation of clients; and a restart that loses the
    objects. *)

From Stdlib Require Import ZArith List Lia Bool.
From stdpp Require Import base tactics gmap list.
From S2P Require Import Prelude ItsFs Its PsBase PsState PsCrypto PsTable PsObject PsService PsBytes.
From S2P Require Import PsBytes PsInv PsSaveSpec PsStoreSpec PsUpdateSpec PsSystemSpec PsOpsSpec.
From S2P Require Import PsMountSpec PsFormat PsServiceSpec PsDevice.
Import ListNotations.
Local Open Scope Z_scope.

(** The concrete requests meet the hypotheses. *)
Lemma demo_args : args_ok demo_client 5.
Proof. by split. Qed.
Lemma demo_bytes : bytes (invec 1 (the_msg demo_state)).
Proof. unfold bytes. refine (bool_decide_unpack _ _). by vm_compute. Qed.
Lemma demo_msg_ok : msg_ok set_msg_5.
Proof.
  split; [done| | | |].
  - by intros [|[|[|[|i]]]].
  - by intros [|[|[|[|i]]]].
  - intros i. unfold bytes. refine (bool_decide_unpack _ _). by destruct i as [|[|[|[|i]]]]; vm_compute.
  - by intros [|i].
Qed.

(** The partition that holds the object of UID 5. *)
Lemma demo_set :
  wp (tfm_ps_set demo_config demo_client 5 5 0) demo_state
    (fun _ s' => serving bench_view demo_config True s' {[ (5, demo_client) := new_object 5 0 demo_data ]})
    (fun _ _ => False).
Proof.
  pose proof (ps_set_spec bench_view False demo_config demo_ok demo_fits True demo_state ∅ demo_client 5 5 0
    demo_serving demo_args ltac:(done) ltac:(done) demo_bytes) as H.
  assert (Hok : fst (tfm_ps_set demo_config demo_client 5 5 0 demo_state) = Ok tt) by (vm_compute; reflexivity).
  assert (Hl : asset 5 demo_state = demo_data) by (vm_compute; reflexivity).
  rewrite Hl in H. unfold wp in *. destruct (tfm_ps_set _ _ _ _ _ _) as [r s']. cbn in Hok. subst r.
  apply H.
Qed.
Lemma demo_stored_serving : serving bench_view demo_config True demo_stored
  {[ (5, demo_client) := new_object 5 0 demo_data ]}.
Proof.
  pose proof demo_set as H. unfold demo_stored, wp in *. by destruct (tfm_ps_set _ _ _ _ _ _) as [[] s'].
Qed.

Section Properties.
Context {dev : Type} (V : dev_view dev) (mf : Prop) {E : PsDev dev} {SP : PsDevSpec V E mf}.
Context (c : ps_config) (Hc : cfg_ok c) (Hbuf : PS_OBJ_TABLE_SIZE c <= its_buf V).

(** C22: tfm_ps_set refines an update of the map of objects: on success the map
    holds the new object under (UID, client), durably, and nothing else
    changed; a refused request leaves the map with the documented status;
    otherwise the old map is served, or the services failed and the new map is
    served or found by a restart. *)
Theorem ps_set_refines_map durable s m cid uid n fl :
  let l := asset n s in let m' := <[(uid, cid) := new_object n fl l]> m in
  serving V c durable s m -> args_ok cid uid -> 0 <= fl < 2 ^ 32 -> 0 <= n < 2 ^ 32 ->
  bytes (invec 1 (the_msg s)) ->
  wp (tfm_ps_set c cid uid n fl) s
    (fun _ s' => set_allowed c m cid uid n fl l /\ serving V c True s' m')
    (fun e s' => e <> PSA_SUCCESS /\
       ((set_refused c m cid uid n fl l e /\ serving V c durable s' m) \/
        ((mf \/ set_allowed c m cid uid n fl l) /\
         (serving V c durable s' m \/ (mf /\ serving V c True s' m') \/
          (mf /\ ~ up V (the_dev s') /\ recoverable V c (persist V (the_dev s')) m'))))).
Proof. intros l m'. by apply ps_set_spec. Qed.

(** Tfm_ps_get appends to the output vector of the client exactly the
    bytes of the object from the offset on, at most as many as there is room
    for, and changes no object; otherwise it fails with the documented status
    and writes nothing. *)
Theorem ps_get_reads_map durable s m cid uid off n :
  serving V c durable s m -> 0 <= off < 2 ^ 32 -> 0 <= n < 2 ^ 32 ->
  wp (tfm_ps_get c cid uid off n) s
    (fun k s' => serving V c durable s' m /\ uid_served c uid /\ exists o, m !! (uid, cid) = Some o /\
       off <= Z.of_nat (length (snd o)) /\ k = Z.min n (Z.of_nat (length (snd o)) - off) /\
       the_msg s' = set_msg_out (<[0%nat := nth 0 (msg_out (the_msg s)) [] ++ part off k (snd o)]>
                                   (msg_out (the_msg s))) (the_msg s))
    (fun e s' => e <> PSA_SUCCESS /\ serving V c durable s' m /\ the_msg s' = the_msg s /\
       (mf \/ get_refused c m cid uid off e)).
Proof. by apply ps_get_spec. Qed.

(** Tfm_ps_remove refines the removal of a key from the map, durably;
    write-once objects and absent ones are refused. *)
Theorem ps_remove_refines_map durable s m cid uid :
  let m' := delete (uid, cid) m in serving V c durable s m ->
  wp (tfm_ps_remove c cid uid) s
    (fun _ s' => remove_allowed c m cid uid /\ serving V c True s' m')
    (fun e s' => e <> PSA_SUCCESS /\
       ((remove_refused c m cid uid e /\ serving V c durable s' m) \/
        ((mf \/ remove_allowed c m cid uid) /\
         (serving V c durable s' m \/ (mf /\ serving V c True s' m') \/
          (mf /\ ~ up V (the_dev s') /\ recoverable V c (persist V (the_dev s')) m'))))).
Proof. intros m'. by apply ps_remove_spec. Qed.

(** C24: Whatever the table files hold and whichever services fail, a start of
    the object table that succeeds has taken a table whose tag covers its
    content and a counter value that is current: the value of counter 1, or
    that of counters 2 and 3 when they agree.  A table of the past put back on
    the flash is not accepted. *)
Theorem ps_start_accepts_current s :
  let n := p_nv (persist V (the_dev s)) in
  wp (ps_object_table_init c) s
    (fun _ s' => exists v, (v = nv1 n \/ (v = nv3 n /\ v = nv2 n /\ v <> 0)) /\
       aead V (iv (hdr_crypto (obj_table s'))) (assoc_data (obj_table s') v) [] = tag (hdr_crypto (obj_table s')))
    (fun _ _ => True).
Proof. by apply (init_accepts V mf). Qed.

(** C25: On a device whose tables a run of the service left behind, tfm_ps_init
    succeeds and serves exactly the objects of the newest table; the object
    table is vouched for at the next restart, too, when counter 1 sealed it;
    the IV goes on from the IV of the table. *)
Theorem ps_start_recovers a v t m x d :
  ~ mf -> on_flash V c (persist V d) a v t m ->
  let n := p_nv (persist V d) in
  0 <= nv2 n <= nv1 n -> 0 <= nv3 n <= nv1 n -> (v = nv1 n \/ (v = nv3 n /\ v = nv2 n)) ->
  wp (tfm_ps_init c) (ps_boot c x d)
    (fun _ s' => serving V c (v = nv1 n) s' m /\ obj_table s' = t /\
       ps_crypto_iv_buf s' = iv (hdr_crypto t))
    (fun _ _ => False).
Proof.
  intros Hmf Hfl n H2 H3 Hv.
  eapply wp_mono; [by apply (ps_start_spec V mf c Hc Hmf a v t m (ps_boot c x d) (shaped_boot c Hc x d))| |done].
  by intros u s' (H & Hiv & Ht & _).
Qed.

(** On a device without tables, tfm_ps_init, when the build asks for it,
    writes an empty table and serves no objects, durably. *)
Theorem ps_first_start_formats x d :
  ~ mf -> PS_CREATE_FLASH_LAYOUT c = true -> its_has_room (E:=E) ->
  p_files (persist V d) !! 1 = None -> p_files (persist V d) !! 2 = None ->
  let n := p_nv (persist V d) in
  0 <= nv1 n -> nv1 n + 1 < 2 ^ 32 -> nv2 n <= nv1 n -> nv3 n <= nv1 n ->
  wp (tfm_ps_init c) (ps_boot c x d) (fun _ s' => serving V c True s' ∅) (fun _ _ => False).
Proof.
  intros Hmf Hcr Hits H1 H2 n H3 H4 H5 H6. destruct (iv_boot c x d) as [Hiv Hv].
  apply (first_start_spec V mf c Hc Hmf Hbuf (ps_boot c x d)); try done;
    first [by apply shaped_boot|by rewrite Hv].
Qed.

(** C27: What tfm_ps_set stored is what the next tfm_ps_get of the client for
    the UID returns, byte for byte. *)
Theorem ps_set_get_roundtrip durable s m cid uid n fl :
  let l := asset n s in
  serving V c durable s m -> args_ok cid uid -> 0 <= fl < 2 ^ 32 -> 0 <= n < 2 ^ 32 ->
  bytes (invec 1 (the_msg s)) ->
  wp (tfm_ps_set c cid uid n fl) s
    (fun _ s' => forall x, wp (tfm_ps_get c cid uid 0 n) (set_msg x s')
       (fun k s'' => k = n /\ nth 0 (msg_out (the_msg s'')) [] =
          (if decide (msg_out x = []) then [] else nth 0 (msg_out x) [] ++ l))
       (fun _ _ => mf))
    (fun _ _ => True).
Proof.
  intros l H Ha Hfl Hn Hb.
  eapply wp_mono; [by apply (ps_set_spec V mf c Hc Hbuf durable s m)| |done].
  intros _ s' [(Hu & _ & _ & _ & Hlen) Hs] x. cbn beta in Hs. apply (serving_msg V c _ _ _ x) in Hs.
  eapply wp_mono; [apply (ps_get_spec V mf c Hc True (set_msg x s') _ cid uid 0 n Hs); lia| |]; cbn beta.
  - intros k s'' (_ & _ & o & Ho & _ & Hk & Hm). rewrite lookup_insert_eq in Ho. injection Ho as <-.
    cbn [snd new_object] in Hk. fold l in Hk, Hlen. split; [lia|]. rewrite Hm. cbn [msg_out set_msg_out the_msg set_msg].
    case_decide as Hx; [by rewrite Hx|]. destruct (msg_out x) as [|y r]; [done|]. cbn.
    unfold part. rewrite skipn_O, firstn_all2; [done|]. cbn [snd new_object]. fold l. lia.
  - intros e s'' (_ & _ & _ & [?|Hd]); [done|]. exfalso.
    destruct Hd as [[[? _]|(_ & Ho & _)]|(_ & [[Hn0 _]|(o & Ho & Hlt & _)])].
    + by destruct Hu.
    + destruct Hu. congruence.
    + by rewrite lookup_insert_eq in Hn0.
    + lia.
Qed.

(** C26: Whatever a client asks for and however the services fail meanwhile,
    the partition answers the message, and the objects of the other clients
    are what they were: the partition goes on with them, or its power failed
    and they are on the flash.  When the start state was durable, so is the
    one it goes on in, and a restart at this point finds them. *)
Theorem ps_clients_isolated {dev'} (V' : dev_view dev') {E' : PsDev dev'} {SP' : PsDevSpec V' E' False}
    (durable : Prop) sig stack signals x s m :
  aead V' = aead V -> serving V c durable s m -> msg_ok x ->
  msg_type x = PSA_IPC_CONNECT \/ msg_type x = PSA_IPC_CALL \/ msg_type x = PSA_IPC_DISCONNECT ->
  (exists f, In f [TFM_PS_SET_SIGNAL sig; TFM_PS_GET_SIGNAL sig; TFM_PS_GET_INFO_SIGNAL sig;
     TFM_PS_REMOVE_SIGNAL sig; TFM_PS_GET_SUPPORT_SIGNAL sig] /\ has_flag signals f = true) ->
  exists r s', ps_serve c sig stack signals (Some x) s = (Replied r, s') /\
    exists m', (forall k, snd k <> msg_client_id x -> m' !! k = m !! k) /\
      (serving V c durable s' m' \/
       (mf /\ ~ up V (the_dev s') /\ recoverable V c (persist V (the_dev s')) m')) /\
      (durable -> forall y (d : dev'), persist V' d = persist V (the_dev s') ->
         wp (tfm_ps_init c) (ps_boot c y d) (fun _ s'' => serving V' c False s'' m') (fun _ _ => False)).
Proof.
  intros Haead H Hx Ht Hsig.
  destruct (serve_spec V mf c Hc Hbuf durable sig stack signals x s m H Hx Ht Hsig) as (r & s' & Hr & m' & Ho & Hm').
  exists r, s'. split; [done|]. exists m'. split; [done|]. split; [done|]. intros Hdu y d Hd.
  apply (recoverable_restarts V' False c Hc (fun f => f) (persist V (the_dev s'))); [|done].
  apply (recoverable_swap V V'); [done|]. destruct Hm' as [Hs|(_ & _ & Hs)]; [|done].
  apply serving_recoverable. by apply (serving_weaken V c durable True).
Qed.

(** C23: If the power fails anywhere inside tfm_ps_set, in a partition that runs
    on a durable state - counter 1 vouches for its table, as after the first
    start and after every call that succeeds - the partition starts
    again on what is left on the flash and finds either all the old objects or
    all of them with the new one. *)
Theorem ps_set_atomic_over_restart {dev'} (V' : dev_view dev') {E' : PsDev dev'}
    {SP' : PsDevSpec V' E' False} s m cid uid n fl :
  let l := asset n s in let m' := <[(uid, cid) := new_object n fl l]> m in
  aead V' = aead V ->
  serving V c True s m -> args_ok cid uid -> 0 <= fl < 2 ^ 32 -> 0 <= n < 2 ^ 32 ->
  bytes (invec 1 (the_msg s)) ->
  let finds (s' : ps_state dev) mm := forall x (d : dev'), persist V' d = persist V (the_dev s') ->
    wp (tfm_ps_init c) (ps_boot c x d) (fun _ s'' => serving V' c False s'' mm) (fun _ _ => False) in
  wp (tfm_ps_set c cid uid n fl) s (fun _ s' => finds s' m') (fun _ s' => finds s' m \/ finds s' m').
Proof.
  intros l m' Haead H Ha Hfl Hn Hb finds.
  assert (Hf : forall s' mm, recoverable V c (persist V (the_dev s')) mm -> finds s' mm).
  { intros s' mm Hr x d Hd. apply (recoverable_restarts V' False c Hc (fun f => f) (persist V (the_dev s')));
      [by apply (recoverable_swap V V')|done]. }
  eapply wp_mono; [by apply (ps_set_spec V mf c Hc Hbuf True s m)| |]; cbn beta.
  - intros _ s' [_ Hs]. by apply Hf, serving_recoverable.
  - intros e s' (_ & [[_ Hs]|[_ [Hs|[[_ Hs]|(_ & _ & Hs)]]]]).
    + left. by apply Hf, serving_recoverable.
    + left. by apply Hf, serving_recoverable.
    + right. by apply Hf, serving_recoverable.
    + right. by apply Hf.
Qed.

(** C28: The IVs ps_crypto_get_iv hands out since the start are all different,
    and different from the IV of the table in use at the start; it fails when
    the 96-bit counter is used up. *)
Theorem ps_ivs_distinct n (s : ps_state dev) : iv_ok (ps_crypto_iv_buf s) ->
  wp (get_ivs n) s
    (fun ls _ => length ls = n /\ NoDup (ps_crypto_iv_buf s :: ls))
    (fun e _ => e = PSA_ERROR_GENERIC_ERROR /\ 2 ^ 96 <= iv_value (ps_crypto_iv_buf s) + Z.of_nat n).
Proof.
  intros Hiv. eapply wp_mono; [by apply get_ivs_spec| |done]. intros ls s' [Hlen Hls]. split; [done|].
  set (all := ps_crypto_iv_buf s :: ls).
  assert (Hv : forall i l, all !! i = Some l -> iv_value l = iv_value (ps_crypto_iv_buf s) + Z.of_nat i).
  { intros [|i] l; cbn; [intros [= <-]; lia|]. intros Hi. destruct (Hls i l Hi). lia. }
  apply NoDup_alt. intros i j l Hi Hj. pose proof (Hv i l Hi). pose proof (Hv j l Hj). lia.
Qed.
(** C29: Two restarts after a power failure lose the objects.  When the power
    failed after counter 1 moved and before the table was written, the table
    is sealed with the value of counters 2 and 3.  The next start accepts it
    and serves all objects, but brings counters 2 and 3 up to counter 1
    without sealing the table again.  Unless a table is written before, no
    start after that accepts any table on the flash: whatever the objects,
    the initialisation of the table fails. *)
Theorem ps_second_restart_loses_objects {dev'} (V' : dev_view dev') {E' : PsDev dev'} {SP' : PsDevSpec V' E' False}
    a v t m x d :
  ~ mf -> aead V' = aead V -> on_flash V c (persist V d) a v t m ->
  let n := p_nv (persist V d) in
  v = nv3 n -> v = nv2 n -> v < nv1 n ->
  wp (tfm_ps_init c) (ps_boot c x d)
    (fun _ s' => serving V c False s' m /\
       forall y (d' : dev'), persist V' d' = persist V (the_dev s') ->
         wp (ps_object_table_init c) (ps_boot c y d') (fun _ _ => False) (fun e _ => e = PSA_ERROR_GENERIC_ERROR))
    (fun _ _ => False).
Proof.
  intros Hmf Haead Hfl n H3 H2 Hlt. pose proof (fl_v _ _ _ _ _ _ _ Hfl) as Hv.
  eapply wp_mono; [apply (ps_start_spec V mf c Hc Hmf a v t m (ps_boot c x d) (shaped_boot c Hc x d) Hfl); cbn; fold n; lia| |done].
  intros u s' (Hs & _ & _ & _ & Hn & Hfl'). cbn in Hn, Hs. fold n in Hn, Hs. split.
  { eapply serving_weaken; [|exact Hs]. done. }
  intros y d' Hd. apply (on_flash_swap V V' Haead) in Hfl'. rewrite <- Hd in Hfl', Hn.
  apply (orphan_spec V' False c Hc (fun f => f) a v t m); [by apply shaped_boot|exact Hfl'|..]; cbn; rewrite Hn; cbn; lia.
Qed.
End Properties.

(** What the flash of the demonstration holds after the power failed between
    the increment of counter 1 and the write of the table, and what two
    restarts make of it. *)
Lemma demo_second_restart :
  let cut := on_battery 2 false (set_msg set_msg_5 demo_stored) in
  let '(r1, s1) := tfm_ps_set demo_config demo_client 6 5 0 cut in
  let '(r2, s2) := tfm_ps_init demo_config (ps_boot demo_config get_msg_5 (d_store (the_dev s1))) in
  let '(r3, s3) := tfm_ps_init demo_config (ps_boot demo_config get_msg_5 (the_dev s2)) in
  r1 = Err PSA_ERROR_GENERIC_ERROR /\ r2 = Ok tt /\ r3 = Ok tt /\
  fst (tfm_ps_get demo_config demo_client 5 1 3 s2) = Ok 3 /\
  fst (tfm_ps_get demo_config demo_client 5 1 3 s3) = Err PSA_ERROR_DOES_NOT_EXIST.
Proof. vm_compute. repeat split. Qed.

(** ** Witnesses *)
Lemma ps_set_refines_map_witness :
  wp (tfm_ps_set demo_config demo_client 5 5 0) (on_battery 3 false demo_state)
    (fun _ s' => exists m', serving brownout_view demo_config True s' m') (fun e _ => e <> PSA_SUCCESS).
Proof.
  eapply wp_mono; [apply (ps_set_refines_map brownout_view True demo_config demo_ok ltac:(done) True _ ∅
    demo_client 5 5 0 (demo_battery 3 false) demo_args ltac:(done) ltac:(done) demo_bytes)| |]; cbn beta.
  - intros _ s' [_ H]. eexists. exact H.
  - by intros e s' [He _].
Defined.

Lemma ps_get_reads_map_witness :
  wp (tfm_ps_get demo_config demo_client 5 1 3) demo_stored
    (fun k _ => k = 3) (fun e _ => e <> PSA_SUCCESS).
Proof.
  eapply wp_mono; [apply (ps_get_reads_map bench_view False demo_config demo_ok True _ _
    demo_client 5 1 3 demo_stored_serving ltac:(done) ltac:(done))| |]; cbn beta.
  - intros k s' (_ & _ & o & Ho & _ & Hk & _). rewrite lookup_singleton_eq in Ho. injection Ho as <-.
    exact Hk.
  - by intros e s' [He _].
Defined.

Lemma ps_remove_refines_map_witness :
  wp (tfm_ps_remove demo_config demo_client 5) demo_stored
    (fun _ s' => serving bench_view demo_config True s' ∅) (fun e _ => e <> PSA_SUCCESS).
Proof.
  eapply wp_mono; [apply (ps_remove_refines_map bench_view False demo_config demo_ok demo_fits True _ _
    demo_client 5 demo_stored_serving)| |]; cbn beta.
  - intros _ s' [_ H]. rewrite delete_singleton_eq in H. exact H.
  - by intros e s' [He _].
Defined.

(** The power fails during the request; the restart finds what it left. *)
Lemma ps_clients_isolated_witness :
  exists r s', ps_serve demo_config demo_signals 0 16 (Some set_msg_5) (on_battery 2 true demo_state) = (Replied r, s') /\
    exists m', (forall k, snd k <> msg_client_id set_msg_5 -> m' !! k = None) /\
      forall y, wp (tfm_ps_init demo_config) (ps_boot demo_config y (d_store (the_dev s')))
        (fun _ s'' => serving bench_view demo_config False s'' m') (fun _ _ => False).
Proof.
  destruct (ps_clients_isolated brownout_view True demo_config demo_ok demo_fits bench_view True demo_signals 0 16
    set_msg_5 (on_battery 2 true demo_state) ∅ eq_refl (demo_battery 2 true) demo_msg_ok
    (or_intror (or_introl eq_refl)) (ex_intro _ 16 (conj (or_introl eq_refl) eq_refl))) as (r & s' & H & m' & Ho & _ & Hf).
  exists r, s'. split; [exact H|]. exists m'. split; [exact Ho|]. intros y. exact (Hf I y _ eq_refl).
Defined.

Lemma demo_flash : exists t, on_flash bench_view demo_config (the_dev demo_stored) 1 2 t
  {[ (5, demo_client) := new_object 5 0 demo_data ]}.
Proof.
  destruct demo_stored_serving as [_ _ (v & t & H & _ & Hv & _) _ _].
  assert (Ha : active_table demo_stored = 1) by (vm_compute; reflexivity).
  assert (Hn : nv3 (p_nv (persist bench_view (the_dev demo_stored))) = 2) by (vm_compute; reflexivity).
  rewrite Ha, Hv, Hn in H by done. by exists t.
Qed.

Lemma ps_start_recovers_witness :
  wp (tfm_ps_init demo_config) (ps_boot demo_config get_msg_5 (the_dev demo_stored))
    (fun _ s' => serving bench_view demo_config True s' {[ (5, demo_client) := new_object 5 0 demo_data ]})
    (fun _ _ => False).
Proof.
  destruct demo_flash as [t Ht].
  assert (Hn : p_nv (persist bench_view (the_dev demo_stored)) = {| nv1 := 2; nv2 := 2; nv3 := 2 |})
    by (vm_compute; reflexivity).
  eapply wp_mono; [apply (ps_start_recovers bench_view False demo_config demo_ok 1 2 t _ get_msg_5
    (the_dev demo_stored) (fun f => f) Ht); rewrite Hn; cbn; lia| |done].
  intros _ s' [H _]. apply (serving_weaken bench_view demo_config _ True) in H; [exact H|].
  intros _. by rewrite Hn.
Defined.

(** The power fails after counter 1 has moved. *)
Definition demo_cut : pstore := bump TFM_PS_NV_COUNTER_1 (the_dev demo_stored).
Lemma demo_cut_nv : p_nv demo_cut = {| nv1 := 3; nv2 := 2; nv3 := 2 |}.
Proof. vm_compute. reflexivity. Qed.
Lemma bump_files i p : p_files (bump i p) = p_files p.
Proof. done. Qed.
Lemma on_flash_nv {dev} (V : dev_view dev) c p q a v t m : on_flash V c p a v t m -> p_files q = p_files p ->
  v <= nv1 (p_nv q) -> nv1 (p_nv q) < 2 ^ 32 -> on_flash V c q a v t m.
Proof. intros [H1 H2 H3 H4 H5 H6 H7 H8] Hf Hv Hn. split; rewrite ?Hf; try done. lia. Qed.
Lemma demo_cut_flash : exists t, on_flash bench_view demo_config demo_cut 1 2 t
  {[ (5, demo_client) := new_object 5 0 demo_data ]}.
Proof.
  destruct demo_flash as [t Ht]. exists t.
  refine (on_flash_nv _ _ _ _ _ _ _ _ Ht (bump_files _ _) _ _); fold demo_cut; by rewrite demo_cut_nv.
Qed.

Lemma ps_second_restart_loses_objects_witness :
  wp (tfm_ps_init demo_config) (ps_boot demo_config get_msg_5 demo_cut)
    (fun _ s' => serving bench_view demo_config False s' {[ (5, demo_client) := new_object 5 0 demo_data ]} /\
       wp (ps_object_table_init demo_config) (ps_boot demo_config get_msg_5 (the_dev s'))
         (fun _ _ => False) (fun e _ => e = PSA_ERROR_GENERIC_ERROR))
    (fun _ _ => False).
Proof.
  destruct demo_cut_flash as [t Ht].
  assert (Hn : p_nv (persist bench_view demo_cut) = {| nv1 := 3; nv2 := 2; nv3 := 2 |}) by exact demo_cut_nv.
  eapply wp_mono; [apply (ps_second_restart_loses_objects bench_view False demo_config demo_ok bench_view 1 2 t _ get_msg_5
    demo_cut (fun f => f) eq_refl Ht); rewrite Hn; cbn; lia| |done].
  intros _ s' [H Hr]. split; [exact H|]. exact (Hr _ _ eq_refl).
Defined.

Lemma ps_first_start_formats_witness :
  wp (tfm_ps_init demo_config) (ps_boot demo_config set_msg_5 factory)
    (fun _ s' => serving bench_view demo_config True s' ∅) (fun _ _ => False).
Proof.
  apply (ps_first_start_formats bench_view False demo_config demo_ok demo_fits);
    first [exact bench_room|reflexivity|exact (fun f => f)|vm_compute; intros H; discriminate H].
Defined.

Lemma ps_set_get_roundtrip_witness :
  wp (tfm_ps_set demo_config demo_client 5 5 0) demo_state
    (fun _ s' => wp (tfm_ps_get demo_config demo_client 5 0 5) (set_msg get_msg_5 s')
       (fun k s'' => k = 5 /\ nth 0 (msg_out (the_msg s'')) [] = demo_data) (fun _ _ => False))
    (fun _ _ => True).
Proof.
  eapply wp_mono; [apply (ps_set_get_roundtrip bench_view False demo_config demo_ok demo_fits True _ ∅
    demo_client 5 5 0 demo_serving demo_args ltac:(done) ltac:(done) demo_bytes)| |done]; cbn beta.
  intros _ s' H. apply (H get_msg_5).
Defined.

Lemma ps_set_atomic_over_restart_witness :
  wp (tfm_ps_set demo_config demo_client 5 5 0) (on_battery 2 true demo_state)
    (fun _ _ => True)
    (fun _ s' => forall x, exists m,
       wp (tfm_ps_init demo_config) (ps_boot demo_config x (d_store (the_dev s')))
         (fun _ s'' => serving bench_view demo_config False s'' m) (fun _ _ => False)).
Proof.
  eapply wp_mono; [apply (ps_set_atomic_over_restart brownout_view True demo_config demo_ok ltac:(done)
    bench_view (on_battery 2 true demo_state) ∅ demo_client 5 5 0 eq_refl (demo_battery 2 true) demo_args
    ltac:(done) ltac:(done) demo_bytes)|done|]; cbn beta.
  intros e s' [H|H] x; eexists; by apply H.
Defined.

Lemma ps_ivs_distinct_witness :
  wp (get_ivs 3) demo_boot (fun ls _ => NoDup ls) (fun _ _ => False).
Proof.
  eapply wp_mono; [apply (ps_ivs_distinct 3 demo_boot (proj1 (iv_boot demo_config _ _)))| |]; cbn beta.
  - intros ls _ [_ H]. by apply NoDup_cons in H as [_ H].
  - intros e _ [_ H]. vm_compute in H. by destruct H.
Defined.

Lemma ps_start_accepts_current_witness :
  wp (ps_object_table_init demo_config) (ps_boot demo_config get_msg_5 (the_dev demo_stored))
    (fun _ s' => toy_aead (iv (hdr_crypto (obj_table s'))) (assoc_data (obj_table s') 2) [] =
                 tag (hdr_crypto (obj_table s')))
    (fun _ _ => True).
Proof.
  assert (H : forall d : pstore, p_nv d = {| nv1 := 2; nv2 := 2; nv3 := 2 |} ->
    wp (ps_object_table_init demo_config) (ps_boot demo_config get_msg_5 d)
      (fun _ s' => toy_aead (iv (hdr_crypto (obj_table s'))) (assoc_data (obj_table s') 2) [] =
                   tag (hdr_crypto (obj_table s')))
      (fun _ _ => True)).
  { intros d Hn. eapply wp_mono; [apply (ps_start_accepts_current bench_view False demo_config
      (ps_boot demo_config get_msg_5 d))| |done]; cbn beta.
    intros _ s' (v & Hv & Hs). cbn in Hv. rewrite Hn in Hv. cbn in Hv.
    assert (Hv2 : v = 2) by lia. subst v. exact Hs. }
  apply H. vm_compute. reflexivity.
Defined.
