(* ===== verification/BiList.v ===== *)
(** * Doubly linked circular lists

    secure_fw/spm/include/lists.h.  The nodes are embedded in other
    structures; a node is named by a key of type [K], which plays the role of
    its address, and a store maps every node to its two pointers.  Following
    a null pointer has no outcome ([None]). *)

From Stdlib Require Import List Bool.
From stdpp Require Import base tactics list sets.
Import ListNotations.

Section BiList.
Context {K : Type} `{EqDecision K}.

Record bi_list_node_t := { prev : option K; next : option K }.

Definition links : Type := K -> bi_list_node_t.

Definition null_node : bi_list_node_t := {| prev := None; next := None |}.

Definition set_prev (p : option K) (k : K) (s : links) : links := fun x =>
  if decide (x = k) then {| prev := p; next := next (s k) |} else s x.
Definition set_next (n : option K) (k : K) (s : links) : links := fun x =>
  if decide (x = k) then {| prev := prev (s k); next := n |} else s x.

(** ** The macros *)
Definition BI_LIST_INIT_NODE (node : K) (s : links) : links :=
  set_prev (Some node) node (set_next (Some node) node s).

Definition BI_LIST_INSERT_AFTER (curr node : K) (s : links) : option links :=
  let s := set_next (next (s curr)) node s in
  let s := set_prev (Some curr) node s in
  match next (s curr) with
  | None => None
  | Some n =>
      let s := set_prev (Some node) n s in
      Some (set_next (Some node) curr s)
  end.

Definition BI_LIST_INSERT_BEFORE (curr node : K) (s : links) : option links :=
  match prev (s curr) with
  | None => None
  | Some p =>
      let s := set_next (Some node) p s in
      let s := set_prev (prev (s curr)) node s in
      let s := set_prev (Some node) curr s in
      Some (set_next (Some curr) node s)
  end.

Definition BI_LIST_REMOVE_NODE (node : K) (s : links) : option links :=
  match prev (s node) with
  | None => None
  | Some p =>
      let s := set_next (next (s node)) p s in
      match next (s node) with
      | None => None
      | Some n => Some (set_prev (prev (s node)) n s)
      end
  end.

Definition BI_LIST_IS_EMPTY (head : K) (s : links) : bool :=
  bool_decide (next (s head) = Some head).

Definition BI_LIST_NEXT_NODE (node : K) (s : links) : option K := next (s node).

(** ** Lists and segments

    [chain s x l y]: from [x] the nodes [l] follow and then [y], linked both
    ways.  [bi_list s h l]: the circular list with head [h] holds [l]. *)
Definition linked (s : links) (x y : K) : Prop := next (s x) = Some y /\ prev (s y) = Some x.

Fixpoint chain (s : links) (x : K) (l : list K) (y : K) : Prop :=
  match l with
  | [] => linked s x y
  | z :: l' => linked s x z /\ chain s z l' y
  end.

Definition bi_list (s : links) (h : K) (l : list K) : Prop := NoDup (h :: l) /\ chain s h l h.

(** [s'] is [s] but for the nodes in [d]. *)
Definition same_but (d : list K) (s s' : links) : Prop := forall k, k ∉ d -> s' k = s k.

Lemma chain_app s x l1 z l2 y : chain s x (l1 ++ z :: l2) y <-> chain s x l1 z /\ chain s z l2 y.
Proof. revert x. induction l1 as [|w l1 IH]; intros x; simpl; [done|]. rewrite IH. tauto. Qed.

Lemma last_cons_default (z : K) l x : List.last (z :: l) x = List.last l z.
Proof.
  revert z x. induction l as [|y l IH]; intros z x; [done|].
  change (List.last (z :: y :: l) x) with (List.last (y :: l) x). by rewrite !IH.
Qed.

Lemma last_in_cons (l : list K) x : List.last l x ∈ x :: l.
Proof.
  revert x. induction l as [|y l IH]; intros x; [set_solver|]. rewrite last_cons_default.
  specialize (IH y). set_solver.
Qed.

(** The node before the end of a segment, and the one after its start. *)
Lemma chain_last s x l y : chain s x l y -> prev (s y) = Some (List.last l x).
Proof.
  revert x. induction l as [|z l IH]; intros x; simpl; [by intros [_ H]|]. intros [_ H].
  by rewrite (IH z H), <- (last_cons_default z l x).
Qed.

Lemma chain_first s x l y : chain s x l y -> next (s x) = Some (hd y l).
Proof. destruct l; simpl; [by intros [H _]|by intros [[H _] _]]. Qed.

(** A segment depends on the forward pointers of all but its last node and
    the backward pointers of all but its first. *)
Lemma chain_ext s s' x l y :
  (forall k, k = x \/ k ∈ l -> next (s' k) = next (s k)) ->
  (forall k, k = y \/ k ∈ l -> prev (s' k) = prev (s k)) -> chain s x l y -> chain s' x l y.
Proof.
  revert x. induction l as [|z l IH]; intros x Hn Hp; simpl; unfold linked.
  - rewrite Hn, Hp by auto. done.
  - rewrite Hn, Hp by set_solver. intros [H1 H2]. split; [done|]. apply IH; [|set_solver|done].
    intros k Hk. apply Hn. set_solver.
Qed.

Lemma bi_list_ext s s' h l : same_but [] s s' \/ (forall k, k = h \/ k ∈ l -> s' k = s k) ->
  bi_list s h l -> bi_list s' h l.
Proof.
  intros H [Hd Hc]. split; [done|]. apply (chain_ext s); [..|done]; intros k Hk;
    (destruct H as [H|H]; [rewrite H by set_solver|rewrite H by auto]; done).
Qed.

Lemma set_next_eq n k s : set_next n k s k = {| prev := prev (s k); next := n |}.
Proof. unfold set_next. by rewrite decide_True. Qed.
Lemma set_next_ne n k s x : x <> k -> set_next n k s x = s x.
Proof. intros H. unfold set_next. by rewrite decide_False. Qed.
Lemma set_prev_eq n k s : set_prev n k s k = {| prev := n; next := next (s k) |}.
Proof. unfold set_prev. by rewrite decide_True. Qed.
Lemma set_prev_ne n k s x : x <> k -> set_prev n k s x = s x.
Proof. intros H. unfold set_prev. by rewrite decide_False. Qed.

(** Only the forward pointer of [k] changes, only the backward one. *)
Lemma set_next_prev n k s x : prev (set_next n k s x) = prev (s x).
Proof. unfold set_next. by destruct (decide (x = k)) as [->|]. Qed.
Lemma set_prev_next n k s x : next (set_prev n k s x) = next (s x).
Proof. unfold set_prev. by destruct (decide (x = k)) as [->|]. Qed.
Lemma set_next_next n k s x : next (set_next n k s x) = if decide (x = k) then n else next (s x).
Proof. unfold set_next. by destruct (decide (x = k)) as [->|]. Qed.
Lemma set_prev_prev n k s x : prev (set_prev n k s x) = if decide (x = k) then n else prev (s x).
Proof. unfold set_prev. by destruct (decide (x = k)) as [->|]. Qed.

(** ** Specifications *)
Lemma init_node_spec h s : bi_list (BI_LIST_INIT_NODE h s) h [] /\
  same_but [h] s (BI_LIST_INIT_NODE h s).
Proof.
  unfold BI_LIST_INIT_NODE. split.
  - split; [apply NoDup_singleton|]. simpl. split.
    + by rewrite set_prev_next, set_next_eq.
    + by rewrite set_prev_eq.
  - intros k Hk. rewrite set_prev_ne, set_next_ne by set_solver. done.
Qed.

Lemma is_empty_spec s h l : bi_list s h l -> BI_LIST_IS_EMPTY h s = true <-> l = [].
Proof.
  intros [Hd Hc]. unfold BI_LIST_IS_EMPTY. rewrite bool_decide_eq_true, (chain_first _ _ _ _ Hc).
  destruct l as [|x l]; [done|]. split; [|done]. simpl. intros [= ->]. inversion Hd. set_solver.
Qed.

Lemma next_node_spec s h l : bi_list s h l -> BI_LIST_NEXT_NODE h s = Some (hd h l).
Proof. intros [_ Hc]. by apply chain_first in Hc. Qed.

Lemma insert_before_spec s h l n : bi_list s h l -> n ∉ h :: l ->
  exists s', BI_LIST_INSERT_BEFORE h n s = Some s' /\ bi_list s' h (l ++ [n]) /\
    same_but (n :: h :: l) s s'.
Proof.
  intros [Hd Hc] Hn. unfold BI_LIST_INSERT_BEFORE. pose proof (chain_last _ _ _ _ Hc) as Hl.
  rewrite Hl. set (z := List.last l h) in *.
  assert (Hz : z ∈ h :: l).
  { apply last_in_cons. }
  assert (Hzn : z <> n) by set_solver. assert (Hhn : h <> n) by set_solver.
  eexists. split; [done|]. rewrite set_next_prev, Hl.
  set (s' := set_next _ _ _).
  assert (En : forall x, next (s' x) = if decide (x = n) then Some h else
    if decide (x = z) then Some n else next (s x)).
  { intros x. unfold s'. rewrite set_next_next, !set_prev_next, set_next_next. done. }
  assert (Ep : forall x, prev (s' x) = if decide (x = h) then Some n else
    if decide (x = n) then Some z else prev (s x)).
  { intros x. unfold s'. rewrite set_next_prev, !set_prev_prev, set_next_prev. done. }
  split; [split|].
  - apply (NoDup_app (h :: l) [n]). split; [done|]. split; [|apply NoDup_singleton]. set_solver.
  - apply chain_app. split.
    + destruct (decide (l = [])) as [->|Hne].
      * simpl in *. split; [rewrite En|rewrite Ep]; repeat case_decide; try done.
      * destruct (exists_last Hne) as (l' & w & ->). unfold z in *.
        rewrite List.last_last in *. clear Hne.
        apply chain_app in Hc as [Hc1 Hc2]. apply chain_app. split.
        -- eapply chain_ext; [| |exact Hc1]; intros k Hk; [rewrite En|rewrite Ep].
           ++ rewrite !decide_False; [done| |set_solver].
              intros ->. apply NoDup_cons in Hd as [Hd1 Hd2]. apply NoDup_app in Hd2. set_solver.
           ++ rewrite !decide_False; [done|set_solver|].
              intros ->. apply NoDup_cons in Hd as [Hd1 Hd2]. apply NoDup_app in Hd2. set_solver.
        -- simpl. split; [rewrite En|rewrite Ep]; repeat case_decide; try done; set_solver.
    + simpl. split; [rewrite En|rewrite Ep]; repeat case_decide; try done; set_solver.
  - intros k Hk. destruct (s' k) as [p x] eqn:E, (s k) as [p0 x0] eqn:E0. f_equal.
    + pose proof (Ep k) as H. rewrite E, E0 in H. simpl in H. rewrite H, !decide_False by set_solver. done.
    + pose proof (En k) as H. rewrite E, E0 in H. simpl in H. rewrite H, !decide_False by set_solver. done.
Qed.

(** Removing a node leaves its own pointers as they were. *)
Lemma remove_node_spec s h l1 n l2 : bi_list s h (l1 ++ n :: l2) ->
  exists s', BI_LIST_REMOVE_NODE n s = Some s' /\ bi_list s' h (l1 ++ l2) /\
    same_but (h :: l1 ++ l2) s s'.
Proof.
  intros [Hd Hc]. apply chain_app in Hc as [Hc1 Hc2]. unfold BI_LIST_REMOVE_NODE.
  pose proof (chain_last _ _ _ _ Hc1) as Hl. pose proof (chain_first _ _ _ _ Hc2) as Hf.
  rewrite Hl. set (z := List.last l1 h) in *. set (w := hd h l2) in *.
  assert (Hz : z ∈ h :: l1).
  { apply last_in_cons. }
  assert (Hw : w ∈ h :: l2) by (unfold w; destruct l2; set_solver).
  apply NoDup_cons in Hd as [Hh Hd]. apply NoDup_app in Hd as (Hd1 & Hd12 & Hd2).
  apply NoDup_cons in Hd2 as [Hn2 Hd2].
  assert (Hnz : n <> z) by set_solver. assert (Hnw : n <> w) by set_solver.
  rewrite Hf, set_next_ne, Hf by done. eexists. split; [done|]. rewrite Hl.
  set (s' := set_prev _ _ _).
  assert (En : forall x, next (s' x) = if decide (x = z) then Some w else next (s x)).
  { intros x. unfold s'. by rewrite set_prev_next, set_next_next. }
  assert (Ep : forall x, prev (s' x) = if decide (x = w) then Some z else prev (s x)).
  { intros x. unfold s'. by rewrite set_prev_prev, set_next_prev. }
  assert (Hlink : linked s' z w).
  { split; [rewrite En|rewrite Ep]; by rewrite decide_True. }
  assert (Hseg1 : (l1 = [] /\ z = h) \/ exists l', l1 = l' ++ [z] /\ chain s' h l' z).
  { destruct (decide (l1 = [])) as [->|Hne]; [by left|right].
    destruct (exists_last Hne) as (l' & z' & ->). unfold z in *. rewrite List.last_last in *.
    exists l'. split; [done|]. apply chain_app in Hc1 as [Hc1 _].
    apply NoDup_app in Hd1 as (Hd1 & Hd1' & _).
    eapply chain_ext; [| |exact Hc1]; intros k Hk; [rewrite En|rewrite Ep]; (rewrite decide_False; [done|]).
    - destruct Hk as [->|Hk]; [set_solver + Hh|]. intros ->. by apply (Hd1' _ Hk), list_elem_of_singleton.
    - intros ->. apply elem_of_cons in Hw as [Hw|Hw]; [rewrite Hw in Hk; apply Hh; set_solver + Hk|].
      apply (Hd12 w); [set_solver + Hk|by apply elem_of_cons; right]. }
  assert (Hseg2 : (l2 = [] /\ w = h) \/ exists l', l2 = w :: l' /\ chain s' w l' h).
  { destruct l2 as [|w' l']; [by left|right]. exists l'. split; [done|]. simpl in w. subst w.
    simpl in Hc2. destruct Hc2 as [_ Hc2]. apply NoDup_cons in Hd2 as [Hw2 Hd2].
    eapply chain_ext; [| |exact Hc2]; intros k Hk; [rewrite En|rewrite Ep]; (rewrite decide_False; [done|]).
    - intros ->. apply elem_of_cons in Hz as [Hz|Hz]; [rewrite Hz in Hk; apply Hh; set_solver + Hk|].
      apply (Hd12 z Hz), elem_of_cons. right. set_solver + Hk.
    - destruct Hk as [->|Hk]; [set_solver + Hh|]. intros ->. by apply Hw2. }
  clearbody z w s'. split; [split|].
  - apply NoDup_cons. split; [set_solver + Hh|]. apply NoDup_app. split; [done|]. split; [|done].
    intros x Hx Hx'. apply (Hd12 x Hx). by apply elem_of_cons; right.
  - destruct Hseg1 as [[-> ->]|(l' & -> & H1)], Hseg2 as [[-> ->]|(l'' & -> & H2)]; simpl in *.
    + done.
    + done.
    + rewrite app_nil_r. apply chain_app. split; [done|]. done.
    + rewrite <- app_assoc. simpl. apply chain_app. split; [done|]. simpl. done.
  - intros k Hk. destruct (s' k) as [p x] eqn:E, (s k) as [p0 x0] eqn:E0. f_equal.
    + pose proof (Ep k) as H. rewrite E, E0 in H. simpl in H. rewrite H, !decide_False by set_solver. done.
    + pose proof (En k) as H. rewrite E, E0 in H. simpl in H. rewrite H, !decide_False by set_solver. done.
Qed.
End BiList.
Arguments links : clear implicits.
Arguments bi_list_node_t : clear implicits.
