(* ===== verification/SpmBase.v ===== *)
(** * Secure Partition Manager: outcomes, constants and data types

    The monad the SPM operations are written in, the constants and types of
    interface/include/psa/{client,service}.h, interface/include/tfm_api.h,
    secure_fw/spm/cmsis_psa/{internal_errors.h,spm_ipc.h} and
    secure_fw/spm/include/{bitops,utilities}.h. *)

From Stdlib Require Import ZArith List Lia Bool.
From stdpp Require Import base tactics list.
From S2P Require Import Prelude.
Import ListNotations.
Local Open Scope Z_scope.

(** ** Outcomes

    An operation returns a value, or ends in [Panic]: tfm_core_panic resets
    the system, and a failed TFM_CORE_ASSERT (of a debug build) never
    returns.  [Fault] is undefined behaviour: a null pointer was followed. *)
Inductive outcome (A : Type) : Type :=
| Done (a : A)
| Panic
| Fault.
Arguments Done {A} a. Arguments Panic {A}. Arguments Fault {A}.

Definition SPM (S A : Type) : Type := S -> outcome A * S.

Section Monad.
Context {S : Type}.

Definition sret {A} (a : A) : SPM S A := fun s => (Done a, s).
Definition sbind {A B} (m : SPM S A) (f : A -> SPM S B) : SPM S B := fun s =>
  match m s with
  | (Done a, s') => f a s'
  | (Panic, s') => (Panic, s')
  | (Fault, s') => (Fault, s')
  end.
Definition sget : SPM S S := fun s => (Done s, s).
Definition gets {A} (f : S -> A) : SPM S A := fun s => (Done (f s), s).
Definition sput (f : S -> S) : SPM S unit := fun s => (Done tt, f s).
(** A pointer operation that follows no null pointer. *)
Definition deref {A} (o : option A) : SPM S A := fun s =>
  match o with Some a => (Done a, s) | None => (Fault, s) end.
Definition tfm_core_panic {A} : SPM S A := fun s => (Panic, s).
Definition TFM_CORE_ASSERT (b : bool) : SPM S unit := if b then sret tt else tfm_core_panic.
(** In a debug build, as TFM_CORE_ASSERT. *)
Definition TFM_CORE_ERROR_HANDLE (b : bool) : SPM S unit := TFM_CORE_ASSERT b.
(** [TFM_PROGRAMMER_ERROR(ns_caller, error_status)]: the status for a
    non-secure caller, a panic for a secure one. *)
Definition TFM_PROGRAMMER_ERROR {A} (ns_caller : bool) (error_status : A) : SPM S A :=
  if ns_caller then sret error_status else tfm_core_panic.
End Monad.

Declare Scope spm_scope.
Delimit Scope spm_scope with spm.
Notation "'let!' x ':=' m 'in' k" := (sbind m (fun x => k))
  (at level 10, x pattern, m at level 100, k at level 200,
   format "'[v' 'let!'  x  ':='  m  'in' '/' k ']'") : spm_scope.
Notation "'do!' m 'in' k" := (sbind m (fun _ => k))
  (at level 10, m at level 100, k at level 200,
   format "'[v' 'do!'  m  'in' '/' k ']'") : spm_scope.

(** [swp m s Q P]: from [s], [m] returns a value and a state in [Q], or
    panics in a state in [P]; it never faults. *)
Definition swp {S A} (m : SPM S A) (s : S) (Q : A -> S -> Prop) (P : S -> Prop) : Prop :=
  match m s with
  | (Done a, s') => Q a s'
  | (Panic, s') => P s'
  | (Fault, _) => False
  end.

Section WP.
Context {S : Type}.
Implicit Types s : S.

Lemma swp_mono {A} (m : SPM S A) s (Q Q' : A -> S -> Prop) (P P' : S -> Prop) :
  swp m s Q P -> (forall a s', Q a s' -> Q' a s') -> (forall s', P s' -> P' s') -> swp m s Q' P'.
Proof. unfold swp. destruct (m s) as [[a| |] s']; auto. Qed.
Lemma swp_ret {A} (a : A) s (Q : A -> S -> Prop) P : Q a s -> swp (sret a) s Q P.
Proof. auto. Qed.
Lemma swp_bind {A B} (m : SPM S A) (f : A -> SPM S B) s Q P :
  swp m s (fun a s' => swp (f a) s' Q P) P -> swp (sbind m f) s Q P.
Proof. unfold swp, sbind. destruct (m s) as [[a| |] s']; auto. Qed.
Lemma swp_assoc {A B C} (m : SPM S A) (f : A -> SPM S B) (g : B -> SPM S C) s Q P :
  swp (sbind (sbind m f) g) s Q P -> swp (sbind m (fun x => sbind (f x) g)) s Q P.
Proof. unfold swp, sbind. by destruct (m s) as [[a| |] s']. Qed.
Lemma sbind_done {A B} (m : SPM S A) (f : A -> SPM S B) s a s' :
  m s = (Done a, s') -> sbind m f s = f a s'.
Proof. unfold sbind. by intros ->. Qed.
Lemma sbind_deref {A B} (a : A) (f : A -> SPM S B) s : sbind (deref (Some a)) f s = f a s.
Proof. done. Qed.
Lemma sbind_sget {B} (f : S -> SPM S B) s : sbind sget f s = f s s.
Proof. done. Qed.
Lemma swp_get s (Q : S -> S -> Prop) P : Q s s -> swp sget s Q P.
Proof. auto. Qed.
Lemma swp_gets {A} (f : S -> A) s (Q : A -> S -> Prop) P : Q (f s) s -> swp (gets f) s Q P.
Proof. auto. Qed.
Lemma swp_put (f : S -> S) s (Q : unit -> S -> Prop) P : Q tt (f s) -> swp (sput f) s Q P.
Proof. auto. Qed.
Lemma swp_deref {A} (o : option A) a s (Q : A -> S -> Prop) P :
  o = Some a -> Q a s -> swp (deref o) s Q P.
Proof. by intros ->. Qed.
Lemma swp_panic {A} s (Q : A -> S -> Prop) (P : S -> Prop) : P s -> swp tfm_core_panic s Q P.
Proof. auto. Qed.
Lemma swp_assert b s (Q : unit -> S -> Prop) (P : S -> Prop) :
  (b = true -> Q tt s) -> (b = false -> P s) -> swp (TFM_CORE_ASSERT b) s Q P.
Proof. intros H1 H2. destruct b; [by apply H1|by apply H2]. Qed.
Lemma swp_programmer {A} ns (e : A) s (Q : A -> S -> Prop) (P : S -> Prop) :
  (ns = true -> Q e s) -> (ns = false -> P s) -> swp (TFM_PROGRAMMER_ERROR ns e) s Q P.
Proof. intros H1 H2. destruct ns; [by apply H1|by apply H2]. Qed.

(** A known outcome. *)
Lemma swp_run {A} (m : SPM S A) s Q P a s' : m s = (Done a, s') -> swp m s Q P -> Q a s'.
Proof. unfold swp. by intros ->. Qed.
End WP.

(** One step of the evaluation of an operation, by its head. *)
Ltac swp_step :=
  lazymatch goal with
  | |- swp (sbind _ _) _ _ _ => apply swp_bind
  | |- swp (sret _) _ _ _ => apply swp_ret
  | |- swp sget _ _ _ => apply swp_get
  | |- swp (gets _) _ _ _ => apply swp_gets
  | |- swp (sput _) _ _ _ => apply swp_put
  | |- swp tfm_core_panic _ _ _ => apply swp_panic
  end.
Ltac swp_steps := repeat (swp_step; cbv beta).

(** ** interface/include/psa/client.h and service.h *)
Definition PSA_FRAMEWORK_VERSION : Z := 257.
Definition PSA_VERSION_NONE : Z := 0.
Definition PSA_NULL_HANDLE : Z := 0.
Definition PSA_MAX_IOVEC : Z := 4.
Definition PSA_IPC_CALL : Z := 0.
Definition PSA_IPC_CONNECT : Z := -1.
Definition PSA_IPC_DISCONNECT : Z := -2.
Definition PSA_POLL : Z := 0.
Definition PSA_BLOCK : Z := 2 ^ 31.
Definition PSA_TIMEOUT_MASK : Z := PSA_BLOCK.
Definition PSA_DOORBELL : Z := 8.

(** psa_invec and psa_outvec: base address and length *)
Record psa_vec := { base : Z; len : Z }.

Record psa_msg_t := {
  type : Z;
  handle : Z;
  msg_client_id : Z;
  msg_rhandle : Z;
  in_size : list Z;
  out_size : list Z
}.

Definition TFM_CLIENT_ID_IS_S (client_id : Z) : bool := client_id >? 0.
Definition TFM_CLIENT_ID_IS_NS (client_id : Z) : bool := client_id <? 0.

(** ** internal_errors.h *)
Definition SPM_ERROR_BASE : Z := - 2 ^ 31.
Definition SPM_SUCCESS : Z := 0.
Definition SPM_ERROR_BAD_PARAMETERS : Z := SPM_ERROR_BASE + 1.
Definition SPM_ERROR_SHORT_BUFFER : Z := SPM_ERROR_BASE + 2.
Definition SPM_ERROR_VERSION : Z := SPM_ERROR_BASE + 3.
Definition SPM_ERROR_MEMORY_CHECK : Z := SPM_ERROR_BASE + 4.
Definition SPM_ERROR_GENERIC : Z := SPM_ERROR_BASE + 5.

(** ** bitops.h *)
Definition IS_ONLY_ONE_BIT_IN_UINT32 (n : Z) : bool :=
  negb (u32 n =? 0) && (Z.land (u32 n) (u32 (u32 n - 1)) =? 0).

(** [x &= ~y] and signed conversions on 32 bits *)
Definition clear_bits (x y : Z) : Z := Z.land x (Z.lxor UINT32_MAX (u32 y)).
Definition s32 (x : Z) : Z := (x + 2 ^ 31) mod 2 ^ 32 - 2 ^ 31.

Lemma s32_range x : - 2 ^ 31 <= s32 x < 2 ^ 31.
Proof. unfold s32. pose proof (Z.mod_pos_bound (x + 2 ^ 31) (2 ^ 32)). lia. Qed.
Lemma s32_small x : - 2 ^ 31 <= x < 2 ^ 31 -> s32 x = x.
Proof. intros H. unfold s32. rewrite Z.mod_small; lia. Qed.
Lemma s32_u32 x : - 2 ^ 31 <= x < 2 ^ 31 -> s32 (u32 x) = x.
Proof.
  intros H. unfold s32, u32. rewrite Z.add_mod_idemp_l, Z.mod_small by lia. lia.
Qed.

(** ** Elements of a C array of four *)
Definition at4 (l : list Z) (i : Z) : Z := nth (Z.to_nat i) l 0.
Definition vec_at (l : list psa_vec) (i : Z) : psa_vec :=
  nth (Z.to_nat i) l {| base := 0; len := 0 |}.
