(* ===== verification/SpmPool.v ===== *)
(** * Secure Partition Manager: pools of fixed-size chunks

    secure_fw/spm/cmsis_psa/tfm_pools.{h,c}.  A pool is a buffer that starts
    with a struct tfm_pool_instance_t and goes on with the chunks, each a list
    node followed by its data; the free chunks are kept in a list whose head
    is in the instance. *)

From Stdlib Require Import ZArith List Lia Bool.
From stdpp Require Import base tactics list sets.
From S2P Require Import Prelude SpmBase BiList.
Import ListNotations.
Local Open Scope Z_scope.

Definition sizeof_pool_chunk : Z := 8.
Definition sizeof_pool_instance : Z := 16.

(** The scalar members of the instance. *)
Record tfm_pool_instance_t := { chunksz : Z; chunk_count : Z }.

Section Pool.
Context {K : Type} `{EqDecision K}.
(** The list head in the instance, and the node of the chunk whose data is at
    a given address ([TFM_GET_CONTAINER_PTR] goes back). *)
Context (head : K) (chunk_node : Z -> K) (chunk_of : K -> option Z).
(** The nodes inside the pool's buffer, which the memset clears. *)
Context (in_buffer : K -> bool).
(** The address of the buffer. *)
Context (pool : Z).
Local Abbreviation links := (links K).

Definition chunks : Z := pool + sizeof_pool_instance.

Fixpoint tfm_pool_init_loop (n : nat) (data chunksz : Z) (s : links) : option links :=
  match n with
  | O => Some s
  | S n' =>
      match BI_LIST_INSERT_BEFORE head (chunk_node data) s with
      | None => None
      | Some s' => tfm_pool_init_loop n' (data + chunksz + sizeof_pool_chunk) chunksz s'
      end
  end.

Definition tfm_pool_init (poolsz chunksz num : Z) (inst : tfm_pool_instance_t) (s : links) :
    option (Z * tfm_pool_instance_t * links) :=
  if (pool =? 0) || (num =? 0) then Some (SPM_ERROR_BAD_PARAMETERS, inst, s)
  else if negb (poolsz =? u32 ((chunksz + sizeof_pool_chunk) * num + sizeof_pool_instance))
  then Some (SPM_ERROR_BAD_PARAMETERS, inst, s)
  else
    let s := fun k => if in_buffer k then null_node else s k in
    let s := BI_LIST_INIT_NODE head s in
    match tfm_pool_init_loop (Z.to_nat num) (chunks + sizeof_pool_chunk) chunksz s with
    | None => None
    | Some s => Some (SPM_SUCCESS, {| chunksz := chunksz; chunk_count := num |}, s)
    end.

(** [None] inside is the null pointer the code returns when no chunk is left. *)
Definition tfm_pool_alloc (s : links) : option (option Z * links) :=
  if pool =? 0 then Some (None, s)
  else if BI_LIST_IS_EMPTY head s then Some (None, s)
  else match BI_LIST_NEXT_NODE head s with
  | None => None
  | Some node =>
      match chunk_of node, BI_LIST_REMOVE_NODE node s with
      | Some data, Some s' => Some (Some data, s')
      | _, _ => None
      end
  end.

Definition tfm_pool_free (ptr : Z) (s : links) : option links :=
  BI_LIST_INSERT_BEFORE head (chunk_node ptr) s.

Definition is_valid_chunk_data_in_pool (inst : tfm_pool_instance_t) (data : Z) : bool :=
  let chunks_start := chunks in
  let chunks_size := u32 (chunksz inst + sizeof_pool_chunk) in
  let chunks_end := u32 (chunks_start + chunks_size * chunk_count inst) in
  if (data <? chunks_start) || (data >=? chunks_end) then false
  else
    let pool_chunk_address := u32 (data - sizeof_pool_chunk) in
    if negb (u32 (pool_chunk_address - chunks_start) mod chunks_size =? 0) then false else true.

(** ** Specification *)
Context (csz num : Z).
Local Abbreviation size := (csz + sizeof_pool_chunk).

(** The address of the data of chunk [i]. *)
Definition chunk_data (i : Z) : Z := chunks + i * size + sizeof_pool_chunk.
Definition all_chunks : list Z := map (fun i => chunk_data (Z.of_nat i)) (seq 0 (Z.to_nat num)).

(** A pool in the 32-bit address space, with chunks large enough that no
    misaligned address passes the check by wrapping around. *)
Record pool_cfg : Prop := {
  pc_num : 0 < num;
  pc_csz : 0 < csz;
  pc_pool : 0 < pool;
  pc_end : pool + sizeof_pool_instance + size * num < 2 ^ 32;
  pc_wrap : forall k, 1 <= k <= sizeof_pool_chunk -> (2 ^ 32 - k) mod size <> 0;
  pc_inj : forall a b, chunk_node a = chunk_node b -> a = b;
  pc_of : forall a, chunk_of (chunk_node a) = Some a;
  pc_head : forall a, chunk_node a <> head
}.
Context (cfg : pool_cfg).

Lemma in_all_chunks d : d ∈ all_chunks <-> exists i, 0 <= i < num /\ d = chunk_data i.
Proof using cfg.
  unfold all_chunks. rewrite list_elem_of_In, in_map_iff. split.
  - intros (i & <- & Hi%in_seq). exists (Z.of_nat i). split; [lia|done].
  - intros (i & Hi & ->). exists (Z.to_nat i). split; [by rewrite Z2Nat.id by lia|].
    apply in_seq. lia.
Qed.

Lemma chunk_data_inj i j : chunk_data i = chunk_data j -> i = j.
Proof using cfg.
  destruct cfg. unfold chunk_data, chunks, sizeof_pool_chunk in *. intros H. nia.
Qed.

Lemma all_chunks_nodup : NoDup all_chunks.
Proof using cfg.
  unfold all_chunks. apply (NoDup_fmap_2_strong (fun i => chunk_data (Z.of_nat i))); [|apply NoDup_seq].
  intros i j _ _ H%chunk_data_inj. lia.
Qed.

(** The check accepts exactly the data addresses of the chunks. *)
Lemma is_valid_chunk_spec d : 0 <= d < 2 ^ 32 ->
  is_valid_chunk_data_in_pool {| chunksz := csz; chunk_count := num |} d = true <-> d ∈ all_chunks.
Proof using cfg.
  intros Hd. rewrite in_all_chunks. unfold is_valid_chunk_data_in_pool. cbn [chunksz chunk_count].
  destruct cfg as [Hn Hc Hp He Hw _ _ _]. unfold chunk_data, chunks, sizeof_pool_chunk, sizeof_pool_instance in *.
  assert (Hmul : forall i, 0 <= i < num -> 0 <= i * (csz + 8) <= (csz + 8) * num - (csz + 8)) by nia.
  rewrite (u32_small (csz + 8)) by nia. rewrite (u32_small (_ + _ * num)) by nia.
  destruct (Z.ltb_spec d (pool + 16)).
  { split; [done|]. intros (i & Hi & ->). specialize (Hmul i Hi). lia. }
  rewrite Z.geb_leb. destruct (Z.leb_spec (pool + 16 + (csz + 8) * num) d).
  { split; [done|]. intros (i & Hi & ->). specialize (Hmul i Hi). lia. }
  cbn [orb]. rewrite (u32_small (d - 8)) by lia.
  destruct (Z.ltb_spec d (pool + 24)) as [Hs|Hs].
  - (* the address of a list node: the difference wraps around *)
    replace (u32 (d - 8 - (pool + 16))) with (2 ^ 32 - (pool + 24 - d)).
    2:{ unfold u32. rewrite <- (Z.mod_add (d - 8 - (pool + 16)) 1), Z.mod_small by lia. lia. }
    specialize (Hw (pool + 24 - d) ltac:(lia)).
    destruct (Z.eqb_spec ((2 ^ 32 - (pool + 24 - d)) mod (csz + 8)) 0); [done|].
    split; [done|]. intros (i & Hi & ->). specialize (Hmul i Hi). lia.
  - rewrite u32_small by lia.
    destruct (Z.eqb_spec ((d - 8 - (pool + 16)) mod (csz + 8)) 0) as [E|E]; cbn [negb].
    + split; [intros _|done]. apply Z.mod_divide in E as [i Hi]; [|lia]. exists i. nia.
    + split; [done|]. intros (i & Hi & ->). destruct E.
      replace (pool + 16 + i * (csz + 8) + 8 - 8 - (pool + 16)) with (i * (csz + 8)) by lia.
      apply Z.mod_mul. lia.
Qed.

(** [free] are the chunks on the free list, in order. *)
Definition pool_ok (s : links) (free : list Z) : Prop :=
  bi_list s head (map chunk_node free) /\ forall d, d ∈ free -> d ∈ all_chunks.

Lemma chunk_node_in d l : chunk_node d ∈ map chunk_node l <-> d ∈ l.
Proof using cfg.
  rewrite !list_elem_of_In, in_map_iff. split.
  - by intros (e & He%(pc_inj cfg) & Hin); subst.
  - intros H. by exists d.
Qed.

Lemma pool_ok_nodup s free : pool_ok s free -> NoDup free.
Proof using cfg.
  intros [[Hd _] _]. apply NoDup_cons in Hd as [_ Hd].
  apply NoDup_ListNoDup in Hd. apply NoDup_ListNoDup. by apply NoDup_map_inv in Hd.
Qed.

Lemma init_loop_spec n i s : bi_list s head (map chunk_node (map (fun i => chunk_data (Z.of_nat i)) (seq 0 i))) ->
  exists s', tfm_pool_init_loop n (chunk_data (Z.of_nat i)) csz s = Some s' /\
    bi_list s' head (map chunk_node (map (fun i => chunk_data (Z.of_nat i)) (seq 0 (i + n)))) /\
    forall k, k <> head -> (forall d, k <> chunk_node d) -> s' k = s k.
Proof using cfg.
  revert i s. induction n as [|n IH]; intros i s Hs; simpl.
  - rewrite Nat.add_0_r. exists s. auto.
  - destruct (insert_before_spec s head _ (chunk_node (chunk_data (Z.of_nat i))) Hs) as (s1 & -> & Hs1 & Hf1).
    { rewrite elem_of_cons, chunk_node_in, list_elem_of_In, in_map_iff. intros [H|(j & H & Hj%in_seq)].
      - by apply (pc_head cfg) in H.
      - apply chunk_data_inj in H. lia. }
    replace (chunk_data (Z.of_nat i) + csz + sizeof_pool_chunk) with (chunk_data (Z.of_nat (S i)))
      by (unfold chunk_data; lia).
    destruct (IH (S i) s1) as (s2 & H2 & Hs2 & Hf2).
    { rewrite seq_S, !map_app. exact Hs1. }
    exists s2. split; [done|]. split; [by replace (i + S n)%nat with (S i + n)%nat by lia|].
    intros k Hk Hd. rewrite Hf2 by done. apply Hf1. rewrite !elem_of_cons, list_elem_of_In, !in_map_iff.
    intros [H|[H|(j & H & _)]]; [by apply (Hd _ H)|done|by apply (Hd j)].
Qed.

Lemma pool_init_spec poolsz inst s : poolsz = size * num + sizeof_pool_instance ->
  exists s', tfm_pool_init poolsz csz num inst s =
      Some (SPM_SUCCESS, {| chunksz := csz; chunk_count := num |}, s') /\
    pool_ok s' all_chunks /\
    forall k, k <> head -> (forall d, k <> chunk_node d) ->
      s' k = if in_buffer k then null_node else s k.
Proof using cfg in_buffer.
  intros ->. pose proof cfg as [Hn Hc Hp He _ _ _ _]. unfold tfm_pool_init.
  destruct (Z.eqb_spec pool 0); [lia|]. destruct (Z.eqb_spec num 0); [lia|]. cbn [orb].
  rewrite u32_small by (unfold sizeof_pool_chunk, sizeof_pool_instance in *; nia).
  rewrite Z.eqb_refl. cbn [negb].
  destruct (init_node_spec head (fun k => if in_buffer k then null_node else s k)) as [H0 Hf0].
  replace (chunks + sizeof_pool_chunk) with (chunk_data (Z.of_nat 0)) by (unfold chunk_data; lia).
  destruct (init_loop_spec (Z.to_nat num) 0 _ H0) as (s' & -> & Hs' & Hf). exists s'. split; [done|].
  split; [split; [exact Hs'|done]|]. intros k Hk Hd. rewrite Hf, Hf0 by (done || set_solver). done.
Qed.

Lemma pool_alloc_spec s free : pool_ok s free ->
  match free with
  | [] => tfm_pool_alloc s = Some (None, s)
  | d :: free' => exists s', tfm_pool_alloc s = Some (Some d, s') /\ pool_ok s' free' /\
      same_but (head :: map chunk_node free') s s'
  end.
Proof using cfg.
  intros [Hs Hin]. pose proof cfg as [_ _ Hp _ _ _ Hof _]. unfold tfm_pool_alloc.
  destruct (Z.eqb_spec pool 0); [lia|].
  pose proof (is_empty_spec _ _ _ Hs) as He. rewrite (next_node_spec _ _ _ Hs).
  destruct free as [|d free]; simpl in *.
  - by rewrite (proj2 He eq_refl).
  - destruct (BI_LIST_IS_EMPTY head s); [by specialize (proj1 He eq_refl)|]. rewrite Hof.
    destruct (remove_node_spec s head [] (chunk_node d) (map chunk_node free) Hs) as (s' & -> & Hs' & Hf).
    exists s'. split; [done|].
    split; [|done]. split; [done|]. intros e He'. apply Hin. by apply elem_of_cons; right.
Qed.

Lemma pool_free_spec s free d : pool_ok s free -> d ∈ all_chunks -> d ∉ free ->
  exists s', tfm_pool_free d s = Some s' /\ pool_ok s' (free ++ [d]) /\
    same_but (chunk_node d :: head :: map chunk_node free) s s'.
Proof using cfg.
  intros [Hs Hin] Hd Hn. unfold tfm_pool_free.
  destruct (insert_before_spec s head _ (chunk_node d) Hs) as (s' & -> & Hs' & Hf).
  { rewrite elem_of_cons, chunk_node_in. intros [H|H]; [by apply (pc_head cfg) in H|done]. }
  exists s'. split; [done|]. split; [|done]. split; [by rewrite map_app|].
  intros e [He|He%list_elem_of_singleton]%elem_of_app; [by apply Hin|by subst].
Qed.
End Pool.
