(* ===== verification/SpmSched.v ===== *)
(** * Secure Partition Manager: threads, events and the scheduler

    secure_fw/spm/cmsis_psa/tfm_thread.{h,c} and tfm_wait.{h,c}.  A thread is
    named by an integer (the index of the partition it is embedded in); the
    list of threads is linked through the [next] member of each. *)

From Stdlib Require Import ZArith List Lia Bool Sorted.
From stdpp Require Import base tactics list sets.
From S2P Require Import Prelude SpmBase.
Import ListNotations.
Local Open Scope Z_scope.
Local Open Scope spm_scope.

Definition THRD_STATE_CREATING : Z := 0.
Definition THRD_STATE_RUNNABLE : Z := 1.
Definition THRD_STATE_BLOCK : Z := 2.
Definition THRD_STATE_DETACH : Z := 3.
Definition THRD_STATE_INVALID : Z := 4.
Definition THRD_PRIOR_MEDIUM : Z := 127.
Definition THRD_SUCCESS : Z := 0.
Definition THRD_ERR_INVALID_PARAM : Z := 1.

(** Of the architecture context, the stacked r0, where a blocked call finds
    its return value and a new thread its parameter. *)
Record tfm_core_thread_t := {
  pfn : Z;
  param : Z;
  stk_btm : Z;
  stk_top : Z;
  prior : Z;
  state : Z;
  retval : Z;
  thrd_next : option Z
}.

(** The globals of tfm_thread.c; [pendsv]: a scheduling is pending. *)
Record sched := {
  thrds : Z -> tfm_core_thread_t;
  p_thrd_head : option Z;
  p_rnbl_head : option Z;
  p_curr_thrd : option Z;
  pendsv : bool
}.

Definition upd {A} (k : Z) (v : A) (f : Z -> A) : Z -> A := fun x => if x =? k then v else f x.

Definition set_state (n : Z) (t : tfm_core_thread_t) : tfm_core_thread_t :=
  {| pfn := pfn t; param := param t; stk_btm := stk_btm t; stk_top := stk_top t;
     prior := prior t; state := n; retval := retval t; thrd_next := thrd_next t |}.
Definition set_retval (n : Z) (t : tfm_core_thread_t) : tfm_core_thread_t :=
  {| pfn := pfn t; param := param t; stk_btm := stk_btm t; stk_top := stk_top t;
     prior := prior t; state := state t; retval := n; thrd_next := thrd_next t |}.
Definition set_thrd_next (n : option Z) (t : tfm_core_thread_t) : tfm_core_thread_t :=
  {| pfn := pfn t; param := param t; stk_btm := stk_btm t; stk_top := stk_top t;
     prior := prior t; state := state t; retval := retval t; thrd_next := n |}.
Definition set_prior (n : Z) (t : tfm_core_thread_t) : tfm_core_thread_t :=
  {| pfn := pfn t; param := param t; stk_btm := stk_btm t; stk_top := stk_top t;
     prior := n; state := state t; retval := retval t; thrd_next := thrd_next t |}.
Definition set_param (n : Z) (t : tfm_core_thread_t) : tfm_core_thread_t :=
  {| pfn := pfn t; param := n; stk_btm := stk_btm t; stk_top := stk_top t;
     prior := prior t; state := state t; retval := retval t; thrd_next := thrd_next t |}.

Definition on_thrd (k : Z) (f : tfm_core_thread_t -> tfm_core_thread_t) (s : sched) : sched :=
  {| thrds := upd k (f (thrds s k)) (thrds s); p_thrd_head := p_thrd_head s;
     p_rnbl_head := p_rnbl_head s; p_curr_thrd := p_curr_thrd s; pendsv := pendsv s |}.
Definition set_thrd_head (h : option Z) (s : sched) : sched :=
  {| thrds := thrds s; p_thrd_head := h; p_rnbl_head := p_rnbl_head s;
     p_curr_thrd := p_curr_thrd s; pendsv := pendsv s |}.
Definition set_rnbl_head (h : option Z) (s : sched) : sched :=
  {| thrds := thrds s; p_thrd_head := p_thrd_head s; p_rnbl_head := h;
     p_curr_thrd := p_curr_thrd s; pendsv := pendsv s |}.
Definition set_curr_thrd (h : option Z) (s : sched) : sched :=
  {| thrds := thrds s; p_thrd_head := p_thrd_head s; p_rnbl_head := p_rnbl_head s;
     p_curr_thrd := h; pendsv := pendsv s |}.
Definition set_pendsv (b : bool) (s : sched) : sched :=
  {| thrds := thrds s; p_thrd_head := p_thrd_head s; p_rnbl_head := p_rnbl_head s;
     p_curr_thrd := p_curr_thrd s; pendsv := b |}.

Definition runnable (s : sched) (k : Z) : bool := state (thrds s k) =? THRD_STATE_RUNNABLE.

(** ** tfm_thread.c

    [N] bounds the number of threads: a walk along the list is over after at
    most [N] steps, and a longer one has no result. *)
Section Sched.
Context (N : nat).

Fixpoint tfm_core_thrd_get_next_loop (fuel : nat) (pth : option Z) (s : sched) : option (option Z) :=
  match pth with
  | None => Some None
  | Some t =>
      if negb (state (thrds s t) =? THRD_STATE_RUNNABLE) then
        match fuel with
        | O => None
        | S fuel' => tfm_core_thrd_get_next_loop fuel' (thrd_next (thrds s t)) s
        end
      else Some (Some t)
  end.
Definition tfm_core_thrd_get_next (s : sched) : option (option Z) :=
  tfm_core_thrd_get_next_loop N (p_rnbl_head s) s.

Definition tfm_core_thrd_get_curr (s : sched) : option Z := p_curr_thrd s.

(** [while (iter->next && (node->prior > iter->next->prior)) iter = iter->next;] *)
Fixpoint insert_by_prior_loop (fuel : nat) (iter node : Z) (s : sched) : option Z :=
  match thrd_next (thrds s iter) with
  | None => Some iter
  | Some n =>
      if prior (thrds s node) >? prior (thrds s n) then
        match fuel with O => None | S fuel' => insert_by_prior_loop fuel' n node s end
      else Some iter
  end.
Definition insert_by_prior (node : Z) (s : sched) : option sched :=
  match p_thrd_head s with
  | None => Some (set_thrd_head (Some node) (on_thrd node (set_thrd_next None) s))
  | Some h =>
      if prior (thrds s node) <=? prior (thrds s h)
      then Some (set_thrd_head (Some node) (on_thrd node (set_thrd_next (Some h)) s))
      else
        match insert_by_prior_loop N h node s with
        | None => None
        | Some iter =>
            let s := on_thrd node (set_thrd_next (thrd_next (thrds s iter))) s in
            Some (on_thrd iter (set_thrd_next (Some node)) s)
        end
  end.

Definition tfm_core_thrd_init (pth pfn_ param_ stk_top_ stk_btm_ : Z) : SPM sched unit :=
  sput (on_thrd pth (fun t =>
    {| pfn := pfn_; param := param_; stk_btm := stk_btm_; stk_top := stk_top_;
       prior := THRD_PRIOR_MEDIUM; state := THRD_STATE_CREATING;
       retval := retval t; thrd_next := thrd_next t |})).

Definition tfm_core_thrd_set_state (pth : option Z) (new_state : Z) : SPM sched unit :=
  match pth with
  | None => tfm_core_panic
  | Some k =>
      do! TFM_CORE_ASSERT (new_state <? THRD_STATE_INVALID) in
      do! sput (on_thrd k (set_state new_state)) in
      let! s := sget in
      if (new_state =? THRD_STATE_RUNNABLE) &&
         (match p_rnbl_head s with
          | None => true
          | Some r => prior (thrds s k) <? prior (thrds s r)
          end)
      then sput (set_rnbl_head (Some k))
      else sput (set_rnbl_head (p_thrd_head s))
  end.

Definition tfm_core_thrd_set_retval (pth : Z) (n : Z) : SPM sched unit :=
  sput (on_thrd pth (set_retval n)).

(** tfm_arch_init_context stacks the parameter in r0. *)
Definition tfm_core_thrd_start (pth : Z) : SPM sched Z :=
  let! s := sget in
  let t := thrds s pth in
  if negb (state t =? THRD_STATE_CREATING) || (pfn t =? 0) || (stk_btm t =? 0) || (stk_top t =? 0)
  then sret THRD_ERR_INVALID_PARAM
  else
    do! sput (on_thrd pth (fun t => set_retval (param t) t)) in
    let! s := sget in
    let! s' := deref (insert_by_prior pth s) in
    do! sput (fun _ => s') in
    do! tfm_core_thrd_set_state (Some pth) THRD_STATE_RUNNABLE in
    sret THRD_SUCCESS.

Definition tfm_core_thrd_activate_schedule : SPM sched unit := sput (set_pendsv true).

Definition tfm_core_thrd_start_scheduler (pth : option Z) : SPM sched unit :=
  let! s := sget in
  do! TFM_CORE_ASSERT (match p_curr_thrd s with None => true | Some _ => false end) in
  do! TFM_CORE_ASSERT (match pth with None => false | Some _ => true end) in
  do! sput (set_curr_thrd pth) in
  tfm_core_thrd_activate_schedule.

Definition tfm_core_thrd_switch_context (prev next : option Z) : SPM sched unit :=
  do! TFM_CORE_ASSERT (match prev with None => false | Some _ => true end) in
  do! TFM_CORE_ASSERT (match next with None => false | Some _ => true end) in
  sput (set_curr_thrd next).

(** The part of tfm_pendsv_do_schedule (spm_ipc.c) that picks the thread. *)
Definition tfm_pendsv_do_schedule : SPM sched unit :=
  let! s := sget in
  let! pth_next := deref (tfm_core_thrd_get_next s) in
  let pth_curr := tfm_core_thrd_get_curr s in
  do! sput (set_pendsv false) in
  if bool_decide (pth_next <> None /\ pth_curr <> pth_next)
  then tfm_core_thrd_switch_context pth_curr pth_next
  else sret tt.

(** ** tfm_wait.c *)
Definition TFM_EVENT_MAGIC : Z := 0x65766e74.

Record tfm_event_t := { evnt_magic : Z; owner : option Z }.

Definition tfm_event_init : tfm_event_t := {| evnt_magic := TFM_EVENT_MAGIC; owner := None |}.

(** Both return the event as they leave it. *)
Definition tfm_event_wait (pevnt : tfm_event_t) : SPM sched tfm_event_t :=
  do! TFM_CORE_ASSERT (evnt_magic pevnt =? TFM_EVENT_MAGIC) in
  let! curr := gets tfm_core_thrd_get_curr in
  do! tfm_core_thrd_set_state curr THRD_STATE_BLOCK in
  do! tfm_core_thrd_activate_schedule in
  sret {| evnt_magic := evnt_magic pevnt; owner := curr |}.

Definition tfm_event_wake (pevnt : tfm_event_t) (n : Z) : SPM sched tfm_event_t :=
  do! TFM_CORE_ASSERT (evnt_magic pevnt =? TFM_EVENT_MAGIC) in
  let! s := sget in
  match owner pevnt with
  | Some k =>
      if state (thrds s k) =? THRD_STATE_BLOCK then
        do! tfm_core_thrd_set_state (Some k) THRD_STATE_RUNNABLE in
        do! tfm_core_thrd_set_retval k n in
        do! tfm_core_thrd_activate_schedule in
        sret {| evnt_magic := evnt_magic pevnt; owner := None |}
      else sret pevnt
  | None => sret pevnt
  end.

(** ** The invariant

    [sched_ok s l]: the list of threads is [l], sorted by priority, and no
    thread before the cached head is runnable. *)
Fixpoint path (s : sched) (h : option Z) (l : list Z) : Prop :=
  match l with
  | [] => h = None
  | t :: l' => h = Some t /\ path s (thrd_next (thrds s t)) l'
  end.

Record sched_ok (s : sched) (l : list Z) : Prop := {
  so_path : path s (p_thrd_head s) l;
  so_nodup : NoDup l;
  so_size : (length l <= N)%nat;
  so_sorted : StronglySorted (fun a b => prior (thrds s a) <= prior (thrds s b)) l;
  so_rnbl : exists l1 l2, l = l1 ++ l2 /\ (forall t, t ∈ l1 -> runnable s t = false) /\
    match l2 with
    | [] => p_rnbl_head s = None
    | r :: _ => p_rnbl_head s = Some r
    end
}.

(** The reference: the first runnable thread of the whole list. *)
Definition first_runnable (s : sched) (l : list Z) : option Z := List.find (runnable s) l.

Lemma path_app s h l1 t l2 : path s h (l1 ++ t :: l2) -> path s (Some t) (t :: l2).
Proof. revert h. induction l1 as [|x l1 IH]; intros h; simpl; [by intros [-> H]|]. intros [_ H]. by eapply IH. Qed.

Lemma path_ext s s' h l : (forall t, t ∈ l -> thrd_next (thrds s' t) = thrd_next (thrds s t)) ->
  path s h l -> path s' h l.
Proof.
  revert h. induction l as [|t l IH]; intros h H; simpl; [done|]. intros [-> Hp]. split; [done|].
  rewrite H by set_solver. apply IH; [|done]. intros x Hx. apply H. set_solver.
Qed.

Lemma get_next_loop_spec fuel s h l : path s h l -> (length l <= fuel)%nat ->
  tfm_core_thrd_get_next_loop fuel h s = Some (first_runnable s l).
Proof.
  revert fuel h. induction l as [|t l IH]; intros fuel h; simpl.
  - intros -> _. by destruct fuel.
  - intros [-> Hp] Hf. unfold first_runnable. simpl. unfold runnable at 1.
    destruct fuel as [|fuel]; [lia|]. simpl.
    destruct (state (thrds s t) =? THRD_STATE_RUNNABLE); [done|]. apply IH; [done|lia].
Qed.

Lemma find_skip {A} (f : A -> bool) l1 l2 : (forall x, x ∈ l1 -> f x = false) ->
  List.find f (l1 ++ l2) = List.find f l2.
Proof.
  induction l1 as [|x l1 IH]; intros H; simpl; [done|]. rewrite H by set_solver.
  apply IH. intros y Hy. apply H. set_solver.
Qed.

(** The search from the cached head finds what a search of the whole list finds. *)
Lemma get_next_spec s l : sched_ok s l -> tfm_core_thrd_get_next s = Some (first_runnable s l).
Proof.
  intros [Hp Hd Hn Hs (l1 & l2 & -> & Hr & Hh)]. unfold tfm_core_thrd_get_next, first_runnable.
  rewrite find_skip by done. rewrite length_app in Hn. destruct l2 as [|r l2]; rewrite Hh.
  - by destruct N.
  - apply (get_next_loop_spec N s (Some r) (r :: l2)); [by eapply path_app|]. lia.
Qed.

(** It has the highest priority of the runnable threads. *)
Lemma first_runnable_best s l t : sched_ok s l -> first_runnable s l = Some t ->
  t ∈ l /\ runnable s t = true /\
  forall t', t' ∈ l -> runnable s t' = true -> prior (thrds s t) <= prior (thrds s t').
Proof.
  intros HO Hf. pose proof (so_sorted _ _ HO) as Hs. clear HO. unfold first_runnable in Hf.
  induction Hs as [|x l Hs IH Hx]; simpl in Hf; [done|]. rewrite Forall_forall in Hx.
  destruct (runnable s x) eqn:E.
  - injection Hf as ->. split; [set_solver|]. split; [done|]. intros t' [->|Ht']%elem_of_cons _; [lia|].
    by apply Hx.
  - destruct (IH Hf) as (H1 & H2 & H3). split; [set_solver|]. split; [done|].
    intros t' [->|Ht']%elem_of_cons Hr; [congruence|]. by apply H3.
Qed.

Lemma first_runnable_none s l : first_runnable s l = None <-> forall t, t ∈ l -> runnable s t = false.
Proof.
  unfold first_runnable. induction l as [|x l IH]; simpl; [set_solver|].
  destruct (runnable s x) eqn:E.
  - split; [done|]. intros H. rewrite H in E by set_solver. done.
  - rewrite IH. set_solver.
Qed.

(** ** Preservation *)
Lemma on_thrd_eq k f s : thrds (on_thrd k f s) k = f (thrds s k).
Proof. cbn. unfold upd. by rewrite Z.eqb_refl. Qed.
Lemma on_thrd_ne k f s t : t <> k -> thrds (on_thrd k f s) t = thrds s t.
Proof. intros H. cbn. unfold upd. by destruct (Z.eqb_spec t k). Qed.

(** Changing a thread without touching its link or its priority. *)
Definition keeps_order (f : tfm_core_thread_t -> tfm_core_thread_t) : Prop :=
  forall t, thrd_next (f t) = thrd_next t /\ prior (f t) = prior t.

Lemma on_thrd_order k f s t : keeps_order f ->
  thrd_next (thrds (on_thrd k f s) t) = thrd_next (thrds s t) /\
  prior (thrds (on_thrd k f s) t) = prior (thrds s t).
Proof.
  intros H. destruct (Z.eq_dec t k) as [->|Hn]; [rewrite on_thrd_eq; apply H|by rewrite on_thrd_ne].
Qed.

Lemma on_thrd_path k f s h l : keeps_order f -> path s h l -> path (on_thrd k f s) h l.
Proof. intros H. apply path_ext. intros t _. by apply on_thrd_order. Qed.

Lemma on_thrd_sorted k f s l : keeps_order f ->
  StronglySorted (fun a b => prior (thrds s a) <= prior (thrds s b)) l ->
  StronglySorted (fun a b => prior (thrds (on_thrd k f s) a) <= prior (thrds (on_thrd k f s) b)) l.
Proof.
  intros H. induction 1 as [|x l Hs IH Hx]; constructor; [done|].
  rewrite Forall_forall in *. intros y Hy. rewrite !(proj2 (on_thrd_order _ _ _ _ H)). by apply Hx.
Qed.

(** A thread with a lower priority value comes first. *)
Lemma sorted_before (s : sched) l1 r l2 k :
  StronglySorted (fun a b => prior (thrds s a) <= prior (thrds s b)) (l1 ++ r :: l2) ->
  k ∈ l1 ++ r :: l2 -> prior (thrds s k) < prior (thrds s r) -> k ∈ l1.
Proof.
  induction l1 as [|x l1 IH]; simpl; intros Hs Hk Hp.
  - apply StronglySorted_inv in Hs as [_ Hf]. rewrite Forall_forall in Hf.
    apply elem_of_cons in Hk as [->|Hk]; [lia|]. specialize (Hf k Hk). lia.
  - apply StronglySorted_inv in Hs as [Hs _].
    apply elem_of_cons in Hk as [->|Hk]; [set_solver +|]. apply elem_of_cons. right. by apply IH.
Qed.

Lemma in_split_first (k : Z) l : k ∈ l -> exists l1 l2, l = l1 ++ k :: l2 /\ k ∉ l1.
Proof.
  induction l as [|x l IH]; [set_solver|]. intros Hk. destruct (Z.eq_dec k x) as [->|Hn].
  - exists [], l. split; [done|set_solver].
  - destruct IH as (l1 & l2 & -> & Hn1); [set_solver|]. exists (x :: l1), l2. split; [done|set_solver].
Qed.

(** The state of [k] and the cached head, as tfm_core_thrd_set_state leaves them. *)
Definition with_state (k n : Z) (s : sched) : sched :=
  let s' := on_thrd k (set_state n) s in
  if (n =? THRD_STATE_RUNNABLE) &&
     match p_rnbl_head s with
     | None => true
     | Some r => prior (thrds s k) <? prior (thrds s r)
     end
  then set_rnbl_head (Some k) s' else set_rnbl_head (p_thrd_head s) s'.

Lemma set_state_order n : keeps_order (set_state n).
Proof. by intros t. Qed.
Lemma set_retval_order n : keeps_order (set_retval n).
Proof. by intros t. Qed.

Lemma set_state_eq k n s : n < THRD_STATE_INVALID ->
  tfm_core_thrd_set_state (Some k) n s = (Done tt, with_state k n s).
Proof.
  intros Hn. unfold tfm_core_thrd_set_state, sbind, TFM_CORE_ASSERT, with_state.
  rewrite (proj2 (Z.ltb_lt _ _) Hn). unfold sret, sput, sget.
  change (p_rnbl_head (on_thrd k (set_state n) s)) with (p_rnbl_head s).
  destruct (p_rnbl_head s) as [r|].
  - rewrite !(proj2 (on_thrd_order k _ s _ (set_state_order n))). by destruct (_ && _).
  - by destruct (_ && _).
Qed.

Lemma with_state_thrds k n s : thrds (with_state k n s) = thrds (on_thrd k (set_state n) s).
Proof. unfold with_state. by destruct (_ && _). Qed.

Lemma with_state_runnable k n s t :
  runnable (with_state k n s) t = if t =? k then n =? THRD_STATE_RUNNABLE else runnable s t.
Proof.
  unfold runnable. rewrite with_state_thrds. destruct (Z.eqb_spec t k) as [->|Hn].
  - by rewrite on_thrd_eq.
  - by rewrite on_thrd_ne.
Qed.

Lemma with_state_ok s l k n : sched_ok s l -> k ∈ l -> sched_ok (with_state k n s) l.
Proof using Type.
  intros [Hp Hd Hn Hs (l1 & l2 & Hl & Hr & Hh)] Hk.
  assert (Hhead : p_thrd_head (with_state k n s) = p_thrd_head s).
  { unfold with_state. by destruct (_ && _). }
  split; [|done|done| |].
  - rewrite Hhead. apply (path_ext s); [|done]. intros t _. rewrite with_state_thrds.
    by apply on_thrd_order.
  - rewrite with_state_thrds. by apply (on_thrd_sorted k (set_state n) s).
  - assert (Hall : p_rnbl_head (with_state k n s) = p_thrd_head s -> exists l1 l2, l = l1 ++ l2 /\
      (forall t, t ∈ l1 -> runnable (with_state k n s) t = false) /\
      match l2 with [] => p_rnbl_head (with_state k n s) = None
      | r :: _ => p_rnbl_head (with_state k n s) = Some r end).
    { intros E. exists [], l. split; [done|]. split; [set_solver +|]. rewrite E.
      destruct l as [|h l]; simpl in Hp; [done|]. by destruct Hp. }
    destruct ((n =? THRD_STATE_RUNNABLE) && match p_rnbl_head s with None => true
      | Some r => prior (thrds s k) <? prior (thrds s r) end) eqn:E.
    2:{ apply Hall. unfold with_state. by rewrite E. }
    assert (Hk1 : exists a b, l = a ++ k :: b /\ k ∉ a /\ forall t, t ∈ a -> runnable s t = false).
    { destruct l2 as [|r l2].
      - rewrite app_nil_r in Hl. subst l1. destruct (in_split_first k l Hk) as (a & b & -> & Ha).
        exists a, b. split; [done|]. split; [done|]. intros t Ht. apply Hr. set_solver + Ht.
      - rewrite Hh in E. apply andb_true_iff in E as [_ E%Z.ltb_lt]. rewrite Hl in Hs, Hk.
        pose proof (sorted_before s l1 r l2 k Hs Hk E) as Hk'.
        destruct (in_split_first k l1 Hk') as (a & b & -> & Ha).
        exists a, (b ++ r :: l2). split; [by rewrite Hl, <- app_assoc|]. split; [done|].
        intros t Ht. apply Hr. set_solver + Ht. }
    destruct Hk1 as (a & b & -> & Ha & Hf). exists a, (k :: b). split; [done|]. split.
    + intros t Ht. rewrite with_state_runnable. destruct (Z.eqb_spec t k) as [->|_]; [done|by apply Hf].
    + unfold with_state. by rewrite E.
Qed.

(** ** Insertion *)
Fixpoint seg (s : sched) (h : option Z) (l : list Z) (e : option Z) : Prop :=
  match l with
  | [] => h = e
  | t :: l' => h = Some t /\ seg s (thrd_next (thrds s t)) l' e
  end.

Lemma path_seg s h l1 l2 : path s h (l1 ++ l2) <-> exists m, seg s h l1 m /\ path s m l2.
Proof.
  revert h. induction l1 as [|t l1 IH]; intros h; simpl.
  - split; [intros H; by exists h|by intros (m & -> & H)].
  - rewrite IH. split; [intros (-> & m & H1 & H2); exists m; auto|intros (m & (-> & H1) & H2)]. eauto.
Qed.

Lemma seg_ext s s' h l e : (forall t, t ∈ l -> thrd_next (thrds s' t) = thrd_next (thrds s t)) ->
  seg s h l e -> seg s' h l e.
Proof.
  revert h. induction l as [|t l IH]; intros h H; simpl; [done|]. intros [-> Hp]. split; [done|].
  rewrite H by set_solver. apply IH; [|done]. intros x Hx. apply H. set_solver.
Qed.

Lemma insert_loop_spec fuel iter node s l : path s (Some iter) (iter :: l) -> (length l <= fuel)%nat ->
  exists a iter' b, insert_by_prior_loop fuel iter node s = Some iter' /\
    iter :: l = a ++ iter' :: b /\
    (forall t, t ∈ tl (a ++ [iter']) -> prior (thrds s t) < prior (thrds s node)) /\
    (forall t, hd_error b = Some t -> prior (thrds s node) <= prior (thrds s t)) /\
    thrd_next (thrds s iter') = hd_error b.
Proof using Type.
  revert fuel iter. induction l as [|n l IH]; intros fuel iter Hp Hf; simpl in Hp.
  - exists [], iter, []. destruct Hp as [_ Hp]. destruct fuel; simpl; rewrite Hp;
      repeat (split; [done || set_solver +|]); done.
  - destruct Hp as (_ & Hn & Hp). destruct fuel as [|fuel]; simpl in *; [lia|]. rewrite Hn.
    rewrite Z.gtb_ltb. destruct (Z.ltb_spec (prior (thrds s n)) (prior (thrds s node))).
    + destruct (IH fuel n) as (a & iter' & b & -> & He & Ha & Hb & Hx); [done|lia|].
      exists (iter :: a), iter', b. rewrite He. split; [done|]. split; [done|]. split; [|done].
      intros t Ht. simpl in Ht. destruct a as [|x a]; simpl in *.
      * injection He as -> ->. apply list_elem_of_singleton in Ht as ->. done.
      * injection He as -> ->. apply elem_of_cons in Ht as [->|Ht]; [done|by apply Ha].
    + exists [], iter, (n :: l). split; [done|]. split; [done|]. split; [set_solver +|].
      split; [by intros t [= <-]|done].
Qed.

(** The threads are the same but for their links. *)
Definition same_threads (s s' : sched) : Prop :=
  forall t, set_thrd_next None (thrds s' t) = set_thrd_next None (thrds s t).

Lemma same_threads_prior s s' t : same_threads s s' -> prior (thrds s' t) = prior (thrds s t).
Proof. intros H. specialize (H t). by apply (f_equal prior) in H. Qed.
Lemma same_threads_runnable s s' t : same_threads s s' -> runnable s' t = runnable s t.
Proof. intros H. specialize (H t). unfold runnable. apply (f_equal state) in H. simpl in H. by rewrite H. Qed.
Lemma on_link_same k n s : same_threads s (on_thrd k (set_thrd_next n) s).
Proof.
  intros t. destruct (Z.eq_dec t k) as [->|Hn]; [by rewrite on_thrd_eq|by rewrite on_thrd_ne].
Qed.

(** Where the links of [s'] put [node] between [l1] and [l2]. *)
Lemma inserted_ok s s' l1 l2 node : sched_ok s (l1 ++ l2) -> node ∉ l1 ++ l2 ->
  (length (l1 ++ l2) < N)%nat -> runnable s node = false -> same_threads s s' ->
  p_rnbl_head s' = p_rnbl_head s -> path s' (p_thrd_head s') (l1 ++ node :: l2) ->
  (forall t, t ∈ l1 -> prior (thrds s t) <= prior (thrds s node)) ->
  (forall t, t ∈ l2 -> prior (thrds s node) <= prior (thrds s t)) -> sched_ok s' (l1 ++ node :: l2).
Proof using Type.
  intros [_ Hd _ Hs (a & b & Hl & Hr & Hh)] Hn Hlen Hrun Hsame Hrn Hp H1 H2. split; [done| | | |].
  - rewrite <- Permutation_middle. by apply NoDup_cons.
  - rewrite <- Permutation_middle. simpl. lia.
  - assert (He : forall l, StronglySorted (fun a b => prior (thrds s a) <= prior (thrds s b)) l ->
      StronglySorted (fun a b => prior (thrds s' a) <= prior (thrds s' b)) l).
    { induction 1 as [|x l Hs' IH Hx]; constructor; [done|]. rewrite Forall_forall in *.
      intros y Hy. rewrite !(same_threads_prior s s') by done. by apply Hx. }
    apply He. clear -Hs H1 H2. induction l1 as [|x l1 IH]; simpl in *.
    + constructor; [done|]. rewrite Forall_forall. exact H2.
    + apply StronglySorted_inv in Hs as [Hs Hf]. constructor.
      * apply IH; [done|]. intros t Ht. apply H1. set_solver + Ht.
      * rewrite Forall_forall in *. intros y [Hy|[->|Hy]%elem_of_cons]%elem_of_app.
        -- apply Hf. set_solver + Hy.
        -- apply H1. set_solver +.
        -- apply Hf. set_solver + Hy.
  - assert (Hnot : forall t, t ∈ a \/ t = node -> runnable s' t = false).
    { intros t Ht. rewrite (same_threads_runnable s s') by done. destruct Ht as [Ht| ->]; [by apply Hr|done]. }
    apply app_eq_app in Hl as (m & [[-> ->]|[-> ->]]).
    + destruct m as [|x m].
      * exists (a ++ [node]), l2. rewrite app_nil_r, <- app_assoc. split; [done|]. split; [|by rewrite Hrn].
        intros t Ht. apply Hnot. set_solver + Ht.
      * exists a, ((x :: m) ++ node :: l2). split; [by rewrite <- app_assoc|].
        split; [intros; apply Hnot; auto|by rewrite Hrn].
    + exists (l1 ++ node :: m), b. split; [by rewrite <- app_assoc|]. split; [|by rewrite Hrn].
      intros t Ht. apply Hnot. set_solver + Ht.
Qed.

Lemma insert_by_prior_spec s l node : sched_ok s l -> node ∉ l -> (length l < N)%nat ->
  runnable s node = false ->
  exists s' l1 l2, insert_by_prior node s = Some s' /\ l = l1 ++ l2 /\ sched_ok s' (l1 ++ node :: l2) /\
    same_threads s s' /\ p_curr_thrd s' = p_curr_thrd s /\ p_rnbl_head s' = p_rnbl_head s.
Proof using Type.
  intros HO Hn Hlen Hrun. pose proof HO as [Hp Hd Hsz Hs _]. unfold insert_by_prior.
  destruct l as [|h l]; simpl in Hp.
  { rewrite Hp. eexists. exists [], []. split; [done|]. split; [done|].
    split; [|split; [apply on_link_same|done]].
    apply (inserted_ok s); try done; [apply on_link_same| |set_solver +..].
    split; [done|]. cbn [thrds set_thrd_head]. by rewrite on_thrd_eq. }
  destruct Hp as [Hh Hp]. rewrite Hh. apply StronglySorted_inv in Hs as [Hs Hf].
  rewrite Forall_forall in Hf. destruct (Z.leb_spec (prior (thrds s node)) (prior (thrds s h))).
  { eexists. exists [], (h :: l). split; [done|]. split; [done|].
    split; [|split; [apply on_link_same|done]].
    apply (inserted_ok s); try done; [apply on_link_same| |set_solver +|].
    - cbn [app path thrds p_thrd_head set_thrd_head].
      rewrite on_thrd_eq, on_thrd_ne by set_solver. split; [done|]. split; [done|].
      apply (path_ext s); [|done]. intros t Ht. cbn [thrds set_thrd_head]. rewrite on_thrd_ne; [done|]. set_solver.
    - intros t [->|Ht]%elem_of_cons; [done|]. specialize (Hf t Ht). lia. }
  destruct (insert_loop_spec N h node s l) as (a & it & b & -> & He & Ha & Hb & Hx);
    [done|simpl in Hlen; lia|].
  assert (Hsame : same_threads s (on_thrd it (set_thrd_next (Some node))
    (on_thrd node (set_thrd_next (thrd_next (thrds s it))) s))).
  { intros t. rewrite <- (on_link_same node (thrd_next (thrds s it)) s t). apply on_link_same. }
  eexists. exists (a ++ [it]), b. split; [done|]. split; [by rewrite <- app_assoc|].
  split; [|split; [exact Hsame|done]].
  assert (El : h :: l = (a ++ [it]) ++ b) by by rewrite <- app_assoc.
  rewrite El in Hn, Hd. assert (Hit : it <> node) by set_solver + Hn.
  apply (inserted_ok s); try done.
  - by rewrite <- El.
  - by rewrite <- El.
  - rewrite <- app_assoc. simpl. apply path_seg.
    assert (Hp' : path s (Some h) (a ++ it :: b)) by (rewrite <- He; done).
    apply path_seg in Hp' as (m & Hm & Hi & Hb'). exists m. rewrite Hh. split.
    + apply (seg_ext s); [|done]. intros t Ht. apply NoDup_app in Hd as (Hd & _ & _).
      apply NoDup_app in Hd as (_ & Hd & _). rewrite !on_thrd_ne; [done|set_solver + Hn Ht|].
      intros ->. by apply (Hd it Ht), list_elem_of_singleton.
    + cbn [app path]. split; [done|]. rewrite on_thrd_eq. split; [done|].
      rewrite (on_thrd_ne it), on_thrd_eq by done. cbn [thrd_next set_thrd_next]. rewrite Hx in Hb' |- *.
      apply (path_ext s); [|done]. intros t Ht. apply NoDup_app in Hd as (_ & Hd & _).
      rewrite !on_thrd_ne; [done|set_solver + Hn Ht|]. intros ->. apply (Hd it); [set_solver +|done].
  - intros t Ht. destruct a as [|x a]; simpl in He; injection He as <- ->.
    + apply list_elem_of_singleton in Ht as ->. lia.
    + simpl in Ht. apply elem_of_cons in Ht as [->|Ht]; [lia|]. specialize (Ha t Ht). lia.
  - intros t Ht. destruct b as [|y b]; [set_solver + Ht|]. specialize (Hb y eq_refl).
    apply elem_of_cons in Ht as [->|Ht]; [done|].
    assert (Hs' : StronglySorted (fun a b => prior (thrds s a) <= prior (thrds s b)) (y :: b)).
    { assert (Hall : StronglySorted (fun a b => prior (thrds s a) <= prior (thrds s b)) ((a ++ [it]) ++ y :: b)).
      { rewrite <- El. apply (so_sorted _ _ HO). }
      clear -Hall. induction (a ++ [it]) as [|z c IH]; [done|]. simpl in Hall.
      apply StronglySorted_inv in Hall as [Hall _]. by apply IH. }
    apply StronglySorted_inv in Hs' as [_ Hf']. rewrite Forall_forall in Hf'. specialize (Hf' t Ht). lia.
Qed.

(** ** Starting, blocking, waking and scheduling *)
Lemma set_retval_ok k n s l : sched_ok s l -> sched_ok (on_thrd k (set_retval n) s) l.
Proof using Type.
  intros [Hp Hd Hn Hs (l1 & l2 & Hl & Hr & Hh)]. split; [|done|done| |].
  - apply on_thrd_path; [apply set_retval_order|done].
  - by apply (on_thrd_sorted k (set_retval n) s).
  - exists l1, l2. split; [done|]. split; [|done]. intros t Ht. rewrite <- (Hr t Ht). unfold runnable.
    destruct (Z.eq_dec t k) as [->|Hne]; [by rewrite on_thrd_eq|by rewrite on_thrd_ne].
Qed.

Lemma thrd_start_spec s l k (Q : Z -> sched -> Prop) (P : sched -> Prop) :
  sched_ok s l -> k ∉ l -> (length l < N)%nat -> state (thrds s k) = THRD_STATE_CREATING ->
  pfn (thrds s k) <> 0 -> stk_btm (thrds s k) <> 0 -> stk_top (thrds s k) <> 0 ->
  (forall s' l1 l2, l = l1 ++ l2 -> sched_ok s' (l1 ++ k :: l2) -> p_curr_thrd s' = p_curr_thrd s ->
     (forall t, runnable s' t = if t =? k then true else runnable s t) ->
     (forall t, prior (thrds s' t) = prior (thrds s t)) -> Q THRD_SUCCESS s') ->
  swp (tfm_core_thrd_start k) s Q P.
Proof using Type.
  intros HO Hk Hlen Hst Hpf Hb Ht HQ. unfold tfm_core_thrd_start. swp_steps.
  rewrite Hst. rewrite (proj2 (Z.eqb_neq _ _) Hpf), (proj2 (Z.eqb_neq _ _) Hb), (proj2 (Z.eqb_neq _ _) Ht).
  cbn [negb orb Z.eqb THRD_STATE_CREATING]. swp_steps.
  set (s1 := on_thrd k _ s).
  assert (E1 : s1 = on_thrd k (set_retval (param (thrds s k))) s) by done.
  assert (HO1 : sched_ok s1 l) by (rewrite E1; by apply set_retval_ok).
  assert (Hr1 : forall t, runnable s1 t = runnable s t).
  { intros t. unfold runnable, s1. destruct (Z.eq_dec t k) as [->|Hne];
      [by rewrite on_thrd_eq|by rewrite on_thrd_ne]. }
  assert (Hp1 : forall t, prior (thrds s1 t) = prior (thrds s t)).
  { intros t. rewrite E1. apply on_thrd_order, set_retval_order. }
  destruct (insert_by_prior_spec s1 l k HO1 Hk Hlen) as (s2 & l1 & l2 & E2 & Hl & HO2 & Hs2 & Hc & Hrn).
  { rewrite Hr1. unfold runnable. by rewrite Hst. }
  apply (swp_deref _ s2); [done|]. swp_steps. unfold swp.
  rewrite set_state_eq by (unfold THRD_STATE_RUNNABLE, THRD_STATE_INVALID; lia).
  apply (HQ _ l1 l2); [done| | | |].
  - apply with_state_ok; [done|]. set_solver +.
  - unfold with_state. destruct (_ && _); simpl; by rewrite Hc.
  - intros t. rewrite with_state_runnable, (same_threads_runnable s1 s2) by done. by rewrite Hr1.
  - intros t. rewrite with_state_thrds, (proj2 (on_thrd_order k _ s2 t (set_state_order _))).
    by rewrite (same_threads_prior s1 s2).
Qed.

Lemma with_state_curr k n s : p_curr_thrd (with_state k n s) = p_curr_thrd s.
Proof. unfold with_state. by destruct (_ && _). Qed.

Lemma event_wait_eq e s c : evnt_magic e = TFM_EVENT_MAGIC -> p_curr_thrd s = Some c ->
  tfm_event_wait e s = (Done {| evnt_magic := TFM_EVENT_MAGIC; owner := Some c |},
    set_pendsv true (with_state c THRD_STATE_BLOCK s)).
Proof.
  intros He Hc. unfold tfm_event_wait, sbind, TFM_CORE_ASSERT, gets, tfm_core_thrd_get_curr.
  rewrite He, Z.eqb_refl. unfold sret at 1. rewrite Hc.
  rewrite set_state_eq by (unfold THRD_STATE_BLOCK, THRD_STATE_INVALID; lia). done.
Qed.

Lemma event_wake_eq e s n : evnt_magic e = TFM_EVENT_MAGIC ->
  tfm_event_wake e n s =
    match owner e with
    | Some k =>
        if state (thrds s k) =? THRD_STATE_BLOCK
        then (Done {| evnt_magic := TFM_EVENT_MAGIC; owner := None |},
          set_pendsv true (on_thrd k (set_retval n) (with_state k THRD_STATE_RUNNABLE s)))
        else (Done e, s)
    | None => (Done e, s)
    end.
Proof.
  intros He. unfold tfm_event_wake, sbind, TFM_CORE_ASSERT, sget. rewrite He, Z.eqb_refl. unfold sret at 1.
  destruct (owner e) as [k|]; [|done]. destruct (_ =? THRD_STATE_BLOCK); [|done].
  rewrite set_state_eq by (unfold THRD_STATE_RUNNABLE, THRD_STATE_INVALID; lia). done.
Qed.

Lemma pendsv_sched_ok b s l : sched_ok s l -> sched_ok (set_pendsv b s) l.
Proof. intros [H1 H2 H3 H4 H5]. split; try done. by apply (path_ext s). Qed.

Lemma curr_sched_ok c s l : sched_ok s l -> sched_ok (set_curr_thrd c s) l.
Proof. intros [H1 H2 H3 H4 H5]. split; try done. by apply (path_ext s). Qed.

(** The scheduler runs the first runnable thread, and goes on with the
    current one only when no thread is runnable. *)
Lemma do_schedule_spec s l c : sched_ok s l -> p_curr_thrd s = Some c ->
  exists s', tfm_pendsv_do_schedule s = (Done tt, s') /\ sched_ok s' l /\ pendsv s' = false /\
    thrds s' = thrds s /\
    p_curr_thrd s' = Some (match first_runnable s l with Some t => t | None => c end).
Proof using Type.
  intros HO Hc. unfold tfm_pendsv_do_schedule, sbind, sget, deref.
  rewrite (get_next_spec s l HO). unfold sput at 1, tfm_core_thrd_get_curr. rewrite Hc.
  destruct (first_runnable s l) as [t|].
  - destruct (decide (t = c)) as [->|Hn].
    + rewrite bool_decide_eq_false_2 by (intros [_ H]; done). eexists. split; [done|].
      split; [by apply pendsv_sched_ok|done].
    + rewrite bool_decide_eq_true_2 by (split; [done|congruence]). eexists. split; [done|].
      split; [by apply curr_sched_ok, pendsv_sched_ok|done].
  - rewrite bool_decide_eq_false_2 by (intros [H _]; done). eexists. split; [done|].
    split; [by apply pendsv_sched_ok|done].
Qed.
End Sched.
