(* ===== verification/SpmState.v ===== *)
(** * Secure Partition Manager: state

    The structures of secure_fw/spm/cmsis_psa/spm_ipc.h and the globals of
    spm_ipc.c.  A partition, and the thread embedded in it, is named by its
    index in the partition database, a service by its index in the service
    array, a connection handle by its address, and a message by the
    connection handle it is embedded in. *)

From Stdlib Require Import ZArith List Lia Bool.
From stdpp Require Import base tactics list.
From S2P Require Import Prelude SpmBase BiList SpmPool SpmSched.
Import ListNotations.
Local Open Scope Z_scope.

(** ** Constants of spm_ipc.h *)
Definition TFM_CONN_HANDLE_MAX_NUM : Z := 16.
Definition STATIC_HANDLE_NUM_LIMIT : Z := 32.
Definition CLIENT_HANDLE_VALUE_MIN : Z := 1.
Definition TFM_HANDLE_STATUS_IDLE : Z := 0.
Definition TFM_HANDLE_STATUS_ACTIVE : Z := 1.
Definition TFM_HANDLE_STATUS_CONNECT_ERROR : Z := 2.
Definition TFM_MSG_MAGIC : Z := 0x15154343.
Definition TFM_VERSION_POLICY_RELAXED : Z := 0.
Definition TFM_VERSION_POLICY_STRICT : Z := 1.
Definition TFM_PARTITION_UNPRIVILEGED_MODE : Z := 0.
Definition TFM_PARTITION_PRIVILEGED_MODE : Z := 1.
Definition SPM_PART_FLAG_PSA_ROT : Z := 2.
Definition SPM_PART_FLAG_IPC : Z := 4.
Definition INVALID_PARTITION_ID : Z := - 2 ^ 31.
Definition TFM_SP_NON_SECURE_ID : Z := 0.
Definition TFM_MEMORY_ACCESS_RO : Z := 1.
Definition TFM_MEMORY_ACCESS_RW : Z := 2.

(** ** Static handles *)
Definition STAIC_HANDLE_IDX_MASK : Z := 2 ^ 8 - 1.
Definition GET_INDEX_FROM_STATIC_HANDLE (handle : Z) : Z :=
  u32 (Z.land (u32 handle) STAIC_HANDLE_IDX_MASK - 1).
Definition GET_VERSION_FROM_STATIC_HANDLE (handle : Z) : Z :=
  Z.land (Z.shiftr (u32 handle) 8) (2 ^ 8 - 1).
Definition IS_VALID_STATIC_HANDLE (handle : Z) : bool :=
  negb (Z.land (u32 handle) (2 ^ 30) =? 0) &&
  (GET_INDEX_FROM_STATIC_HANDLE handle <? STATIC_HANDLE_NUM_LIMIT).

(** ** The list nodes of the SPM *)
Inductive node : Type :=
| ChunksList                    (* conn_handle_pool->chunks_list *)
| ChunkNode (data : Z)          (* the list node of the chunk with this data *)
| MsgList (partition : Z)       (* partition->msg_list *)
| MsgNode (conn : Z)            (* conn->internal_msg.msg_node *)
| HandleList (service : Z)      (* service->handle_list *)
| HandleNode (conn : Z).        (* conn->list *)

#[export] Instance node_eq_dec : EqDecision node.
Proof. solve_decision. Defined.

(** ** Manifest data (generated) *)
Record tfm_spm_service_db_t := {
  db_partition_id : Z;
  db_signal : Z;
  db_sid : Z;
  non_secure_client : bool;
  connection_based : bool;
  db_version : Z;
  version_policy : Z
}.

Record partition_static_t := {
  psa_ff_ver : Z;
  pid : Z;
  part_flags : Z;
  part_priority : Z;
  part_entry : Z;
  stack_bottom : Z;
  part_stack_top : Z;
  platform_data : list Z;
  deps : list Z
}.

Record irq_signal_t := { irq_partition_id : Z; signal_value : Z; irq_line : Z }.

(** The build: the generated tables, the address of the pool and the size of
    a connection handle, and the HAL: whether a region can be accessed with
    given attributes, whether a peripheral can be given to a partition, and
    the non-secure entry point. *)
Record spm_config := {
  static_data_list : list partition_static_t;
  service_db_list : list tfm_spm_service_db_t;
  stateless_sids : list Z;
  tfm_core_irq_signals : list irq_signal_t;
  conn_handle_pool : Z;
  sizeof_conn_handle : Z;
  TFM_MULTI_CORE_TOPOLOGY : bool;
  tfm_hal_memory_has_access : Z -> Z -> Z -> bool;
  tfm_spm_hal_configure_default_isolation : Z -> Z -> bool;
  tfm_spm_hal_get_ns_entry_point : Z
}.

(** ** Run-time structures *)
Record tfm_msg_body_t := {
  magic : Z;
  msg_service : option Z;
  ack_evnt : tfm_event_t;
  msg : psa_msg_t;
  invec : list psa_vec;
  outvec : list psa_vec;
  caller_outvec : Z;
  caller_data : Z
}.

Record tfm_conn_handle_t := {
  rhandle : Z;
  status : Z;
  client_id : Z;
  internal_msg : tfm_msg_body_t;
  conn_service : option Z
}.

Record partition_t := {
  p_static : partition_static_t;
  event : tfm_event_t;
  signals_allowed : Z;
  signals_waiting : Z;
  signals_asserted : Z
}.

Record tfm_spm_service_t := { service_db : tfm_spm_service_db_t; partition : option Z }.

Definition zero_vec : psa_vec := {| base := 0; len := 0 |}.
Definition zero_msg : psa_msg_t := {|
  type := 0; handle := 0; msg_client_id := 0; msg_rhandle := 0;
  in_size := repeat 0 4; out_size := repeat 0 4 |}.
Definition zero_msg_body : tfm_msg_body_t := {|
  magic := 0; msg_service := None; ack_evnt := {| evnt_magic := 0; owner := None |};
  msg := zero_msg; invec := repeat zero_vec 4; outvec := repeat zero_vec 4;
  caller_outvec := 0; caller_data := 0 |}.
Definition zero_conn : tfm_conn_handle_t := {|
  rhandle := 0; status := 0; client_id := 0; internal_msg := zero_msg_body; conn_service := None |}.

(** The globals, the memory of the clients and services, the interrupt lines
    and the state [W] of the mailbox to the other core. *)
Record spm (W : Type) := {
  nodes : links node;
  pool_instance : tfm_pool_instance_t;
  conns : Z -> tfm_conn_handle_t;
  loop_index : Z;
  partitions : Z -> partition_t;
  services : Z -> tfm_spm_service_t;
  stateless_service_ref : Z -> option Z;
  scheduler : sched;
  memory : mem;
  irq_enabled : Z -> bool;
  irq_pending : Z -> bool;
  mailbox : W
}.
Arguments nodes {W}. Arguments pool_instance {W}. Arguments conns {W}. Arguments loop_index {W}.
Arguments partitions {W}. Arguments services {W}. Arguments stateless_service_ref {W}.
Arguments scheduler {W}. Arguments memory {W}. Arguments irq_enabled {W}. Arguments irq_pending {W}.
Arguments mailbox {W}.

(** ** Updates *)
Section Updates.
Context {W : Type}.
Implicit Types s : spm W.

Definition set_nodes n s : spm W :=
  {| nodes := n; pool_instance := pool_instance s; conns := conns s; loop_index := loop_index s;
     partitions := partitions s; services := services s; stateless_service_ref := stateless_service_ref s;
     scheduler := scheduler s; memory := memory s; irq_enabled := irq_enabled s;
     irq_pending := irq_pending s; mailbox := mailbox s |}.
Definition set_pool_instance n s : spm W :=
  {| nodes := nodes s; pool_instance := n; conns := conns s; loop_index := loop_index s;
     partitions := partitions s; services := services s; stateless_service_ref := stateless_service_ref s;
     scheduler := scheduler s; memory := memory s; irq_enabled := irq_enabled s;
     irq_pending := irq_pending s; mailbox := mailbox s |}.
Definition set_conns n s : spm W :=
  {| nodes := nodes s; pool_instance := pool_instance s; conns := n; loop_index := loop_index s;
     partitions := partitions s; services := services s; stateless_service_ref := stateless_service_ref s;
     scheduler := scheduler s; memory := memory s; irq_enabled := irq_enabled s;
     irq_pending := irq_pending s; mailbox := mailbox s |}.
Definition set_loop_index n s : spm W :=
  {| nodes := nodes s; pool_instance := pool_instance s; conns := conns s; loop_index := n;
     partitions := partitions s; services := services s; stateless_service_ref := stateless_service_ref s;
     scheduler := scheduler s; memory := memory s; irq_enabled := irq_enabled s;
     irq_pending := irq_pending s; mailbox := mailbox s |}.
Definition set_partitions n s : spm W :=
  {| nodes := nodes s; pool_instance := pool_instance s; conns := conns s; loop_index := loop_index s;
     partitions := n; services := services s; stateless_service_ref := stateless_service_ref s;
     scheduler := scheduler s; memory := memory s; irq_enabled := irq_enabled s;
     irq_pending := irq_pending s; mailbox := mailbox s |}.
Definition set_services n s : spm W :=
  {| nodes := nodes s; pool_instance := pool_instance s; conns := conns s; loop_index := loop_index s;
     partitions := partitions s; services := n; stateless_service_ref := stateless_service_ref s;
     scheduler := scheduler s; memory := memory s; irq_enabled := irq_enabled s;
     irq_pending := irq_pending s; mailbox := mailbox s |}.
Definition set_stateless n s : spm W :=
  {| nodes := nodes s; pool_instance := pool_instance s; conns := conns s; loop_index := loop_index s;
     partitions := partitions s; services := services s; stateless_service_ref := n;
     scheduler := scheduler s; memory := memory s; irq_enabled := irq_enabled s;
     irq_pending := irq_pending s; mailbox := mailbox s |}.
Definition set_scheduler n s : spm W :=
  {| nodes := nodes s; pool_instance := pool_instance s; conns := conns s; loop_index := loop_index s;
     partitions := partitions s; services := services s; stateless_service_ref := stateless_service_ref s;
     scheduler := n; memory := memory s; irq_enabled := irq_enabled s;
     irq_pending := irq_pending s; mailbox := mailbox s |}.
Definition set_memory n s : spm W :=
  {| nodes := nodes s; pool_instance := pool_instance s; conns := conns s; loop_index := loop_index s;
     partitions := partitions s; services := services s; stateless_service_ref := stateless_service_ref s;
     scheduler := scheduler s; memory := n; irq_enabled := irq_enabled s;
     irq_pending := irq_pending s; mailbox := mailbox s |}.
Definition set_irq (enabled pending : Z -> bool) s : spm W :=
  {| nodes := nodes s; pool_instance := pool_instance s; conns := conns s; loop_index := loop_index s;
     partitions := partitions s; services := services s; stateless_service_ref := stateless_service_ref s;
     scheduler := scheduler s; memory := memory s; irq_enabled := enabled;
     irq_pending := pending; mailbox := mailbox s |}.
Definition set_mailbox n s : spm W :=
  {| nodes := nodes s; pool_instance := pool_instance s; conns := conns s; loop_index := loop_index s;
     partitions := partitions s; services := services s; stateless_service_ref := stateless_service_ref s;
     scheduler := scheduler s; memory := memory s; irq_enabled := irq_enabled s;
     irq_pending := irq_pending s; mailbox := n |}.

Definition on_conn (c : Z) (f : tfm_conn_handle_t -> tfm_conn_handle_t) s : spm W :=
  set_conns (upd c (f (conns s c)) (conns s)) s.
Definition on_partition (p : Z) (f : partition_t -> partition_t) s : spm W :=
  set_partitions (upd p (f (partitions s p)) (partitions s)) s.
End Updates.

Definition set_rhandle (v : Z) (c : tfm_conn_handle_t) : tfm_conn_handle_t :=
  {| rhandle := v; status := status c; client_id := client_id c; internal_msg := internal_msg c;
     conn_service := conn_service c |}.
Definition set_status (v : Z) (c : tfm_conn_handle_t) : tfm_conn_handle_t :=
  {| rhandle := rhandle c; status := v; client_id := client_id c; internal_msg := internal_msg c;
     conn_service := conn_service c |}.
Definition set_internal_msg (v : tfm_msg_body_t) (c : tfm_conn_handle_t) : tfm_conn_handle_t :=
  {| rhandle := rhandle c; status := status c; client_id := client_id c; internal_msg := v;
     conn_service := conn_service c |}.
Definition set_opened (srv cid : Z) (c : tfm_conn_handle_t) : tfm_conn_handle_t :=
  {| rhandle := rhandle c; status := TFM_HANDLE_STATUS_IDLE; client_id := cid;
     internal_msg := internal_msg c; conn_service := Some srv |}.

Definition set_magic (v : Z) (m : tfm_msg_body_t) : tfm_msg_body_t :=
  {| magic := v; msg_service := msg_service m; ack_evnt := ack_evnt m; msg := msg m; invec := invec m;
     outvec := outvec m; caller_outvec := caller_outvec m; caller_data := caller_data m |}.
Definition set_ack_evnt (v : tfm_event_t) (m : tfm_msg_body_t) : tfm_msg_body_t :=
  {| magic := magic m; msg_service := msg_service m; ack_evnt := v; msg := msg m; invec := invec m;
     outvec := outvec m; caller_outvec := caller_outvec m; caller_data := caller_data m |}.
Definition set_msg (v : psa_msg_t) (m : tfm_msg_body_t) : tfm_msg_body_t :=
  {| magic := magic m; msg_service := msg_service m; ack_evnt := ack_evnt m; msg := v; invec := invec m;
     outvec := outvec m; caller_outvec := caller_outvec m; caller_data := caller_data m |}.
Definition set_invec (v : list psa_vec) (m : tfm_msg_body_t) : tfm_msg_body_t :=
  {| magic := magic m; msg_service := msg_service m; ack_evnt := ack_evnt m; msg := msg m; invec := v;
     outvec := outvec m; caller_outvec := caller_outvec m; caller_data := caller_data m |}.
Definition set_outvec (v : list psa_vec) (m : tfm_msg_body_t) : tfm_msg_body_t :=
  {| magic := magic m; msg_service := msg_service m; ack_evnt := ack_evnt m; msg := msg m;
     invec := invec m; outvec := v; caller_outvec := caller_outvec m; caller_data := caller_data m |}.
Definition set_caller_data (v : Z) (m : tfm_msg_body_t) : tfm_msg_body_t :=
  {| magic := magic m; msg_service := msg_service m; ack_evnt := ack_evnt m; msg := msg m;
     invec := invec m; outvec := outvec m; caller_outvec := caller_outvec m; caller_data := v |}.

Definition set_msg_rhandle (v : Z) (m : psa_msg_t) : psa_msg_t :=
  {| type := type m; handle := handle m; msg_client_id := msg_client_id m; msg_rhandle := v;
     in_size := in_size m; out_size := out_size m |}.
Definition set_in_size (v : list Z) (m : psa_msg_t) : psa_msg_t :=
  {| type := type m; handle := handle m; msg_client_id := msg_client_id m; msg_rhandle := msg_rhandle m;
     in_size := v; out_size := out_size m |}.

Definition set_signals_allowed (v : Z) (p : partition_t) : partition_t :=
  {| p_static := p_static p; event := event p; signals_allowed := v;
     signals_waiting := signals_waiting p; signals_asserted := signals_asserted p |}.
Definition set_signals_waiting (v : Z) (p : partition_t) : partition_t :=
  {| p_static := p_static p; event := event p; signals_allowed := signals_allowed p;
     signals_waiting := v; signals_asserted := signals_asserted p |}.
Definition set_signals_asserted (v : Z) (p : partition_t) : partition_t :=
  {| p_static := p_static p; event := event p; signals_allowed := signals_allowed p;
     signals_waiting := signals_waiting p; signals_asserted := v |}.
Definition set_event (v : tfm_event_t) (p : partition_t) : partition_t :=
  {| p_static := p_static p; event := v; signals_allowed := signals_allowed p;
     signals_waiting := signals_waiting p; signals_asserted := signals_asserted p |}.
