(* ===== verification/SpmIpc.v ===== *)
(** * Secure Partition Manager: handles, messages and services

    secure_fw/spm/cmsis_psa/spm_ipc.c, and the calls of tfm_rpc.{h,c} it makes.
    TFM_CORE_ASSERT is that of a debug build. *)

From Stdlib Require Import ZArith List Lia Bool.
From stdpp Require Import base tactics list.
From S2P Require Import Prelude SpmBase BiList SpmPool SpmSched SpmState.
Import ListNotations.
Local Open Scope Z_scope.
Local Open Scope spm_scope.

Definition CONVERSION_FACTOR_BITOFFSET : Z := 3.
Definition CONVERSION_FACTOR_VALUE : Z := Z.shiftl 1 CONVERSION_FACTOR_BITOFFSET.

Definition TFM_HAL_ACCESS_READABLE : Z := 2.
Definition TFM_HAL_ACCESS_WRITABLE : Z := 4.
Definition TFM_HAL_ACCESS_UNPRIVILEGED : Z := 8.
Definition TFM_HAL_ACCESS_NS : Z := 32.

(** The operations the mailbox registers (struct tfm_rpc_ops_t), on its own
    state; the handler of requests calls back into the SPM and is not here. *)
Record tfm_rpc_ops_t (W : Type) := {
  reply : Z -> Z -> W -> W;
  get_caller_data : W -> Z -> Z
}.
Arguments reply {W}. Arguments get_caller_data {W}.

Section Ipc.
Context {W : Type} (cfg : spm_config) (rpc_ops : tfm_rpc_ops_t W).
Local Abbreviation st := (spm W).

(** [N]: the number of partitions, and of their threads. *)
Definition partition_count : nat := length (static_data_list cfg).

(** ** Lifting *)
Definition on_sched {A} (m : SPM sched A) : SPM st A := fun s =>
  let '(r, x) := m (scheduler s) in (r, set_scheduler x s).
Definition on_nodes (f : links node -> option (links node)) : SPM st unit :=
  let! s := sget in
  let! n := deref (f (nodes s)) in
  sput (set_nodes n).
Definition conn (c : Z) : SPM st tfm_conn_handle_t := gets (fun s => conns s c).
Definition the_partition (p : Z) : SPM st partition_t := gets (fun s => partitions s p).
Definition the_service (v : Z) : SPM st tfm_spm_service_t := gets (fun s => services s v).
Definition modify_msg (c : Z) (f : tfm_msg_body_t -> tfm_msg_body_t) : SPM st unit :=
  sput (on_conn c (fun h => set_internal_msg (f (internal_msg h)) h)).
Definition msg_body (c : Z) : SPM st tfm_msg_body_t := gets (fun s => internal_msg (conns s c)).

Definition chunk_of (n : node) : option Z := match n with ChunkNode d => Some d | _ => None end.
Definition msg_of (n : node) : option Z := match n with MsgNode c => Some c | _ => None end.

(** A pointer that is not null. *)
Definition is_some {A} (o : option A) : bool := match o with Some _ => true | None => false end.

(** ** Connection handle conversion *)
Definition tfm_spm_to_user_handle (handle_instance : Z) : SPM st Z :=
  do! sput (fun s => set_loop_index (u32 (loop_index s + 1) mod CONVERSION_FACTOR_VALUE) s) in
  let! i := gets loop_index in
  sret (s32 (u32 (u32 (Z.shiftl (u32 (handle_instance - conn_handle_pool cfg)) CONVERSION_FACTOR_BITOFFSET)
                  + CLIENT_HANDLE_VALUE_MIN + i))).

(** [None] is the null pointer. *)
Definition tfm_spm_to_handle_instance (user_handle : Z) : option Z :=
  if user_handle =? PSA_NULL_HANDLE then None
  else
    let p := u32 (Z.shiftr (u32 (u32 user_handle - CLIENT_HANDLE_VALUE_MIN)) CONVERSION_FACTOR_BITOFFSET
                  + conn_handle_pool cfg) in
    if p =? 0 then None else Some p.

Definition valid_chunk (p : Z) (s : st) : bool :=
  is_valid_chunk_data_in_pool (conn_handle_pool cfg) (pool_instance s) p.

(** ** Service handle management *)
Definition tfm_spm_create_conn_handle (service : option Z) (cid : Z) : SPM st (option Z) :=
  do! TFM_CORE_ASSERT (is_some service) in
  let! service := deref service in
  let! s := sget in
  let! (p_handle, n) := deref (tfm_pool_alloc ChunksList chunk_of (conn_handle_pool cfg) (nodes s)) in
  do! sput (set_nodes n) in
  match p_handle with
  | None => sret None
  | Some p =>
      do! sput (on_conn p (set_opened service cid)) in
      do! on_nodes (BI_LIST_INSERT_BEFORE (HandleList service) (HandleNode p)) in
      sret (Some p)
  end.

Definition tfm_spm_validate_conn_handle (conn_handle : Z) (cid : Z) : SPM st Z :=
  let! s := sget in
  if negb (valid_chunk conn_handle s) then sret SPM_ERROR_GENERIC
  else if negb (client_id (conns s conn_handle) =? cid) then sret SPM_ERROR_GENERIC
  else sret SPM_SUCCESS.

Definition tfm_spm_free_conn_handle (service conn_handle : option Z) : SPM st unit :=
  do! TFM_CORE_ASSERT (is_some service) in
  do! TFM_CORE_ERROR_HANDLE (is_some conn_handle) in
  let! c := deref conn_handle in
  do! modify_msg c (set_magic 0) in
  do! on_nodes (BI_LIST_REMOVE_NODE (HandleNode c)) in
  on_nodes (tfm_pool_free ChunksList ChunkNode c).

Definition tfm_spm_set_rhandle (service conn_handle : option Z) (v : Z) : SPM st unit :=
  do! TFM_CORE_ASSERT (is_some service) in
  do! TFM_CORE_ERROR_HANDLE (is_some conn_handle) in
  let! c := deref conn_handle in
  sput (on_conn c (set_rhandle v)).

Definition tfm_spm_get_rhandle (service conn_handle : option Z) : SPM st Z :=
  do! TFM_CORE_ASSERT (is_some service) in
  do! TFM_CORE_ASSERT (is_some conn_handle) in
  let! c := deref conn_handle in
  gets (fun s => rhandle (conns s c)).

(** ** Partition management *)

(** The signal of the service a message is for. *)
Definition msg_signal (c : Z) : SPM st Z :=
  let! m := msg_body c in
  let! v := deref (msg_service m) in
  let! srv := the_service v in
  sret (db_signal (service_db srv)).

(** BI_LIST_FOR_EACH over the messages of a partition.  At most
    TFM_CONN_HANDLE_MAX_NUM messages exist.  [inl]: the function returns
    inside the loop. *)
Fixpoint tfm_spm_get_msg_by_signal_loop (fuel : nat) (head : node) (node : option node)
    (signal : Z) (found : option Z) : SPM st (Z + option Z) :=
  let! n := deref node in
  if bool_decide (n = head) then sret (inr found)
  else
    match fuel with
    | O => deref None
    | S fuel' =>
        let! tmp_msg := deref (msg_of n) in
        let! sig := msg_signal tmp_msg in
        match found with
        | Some m =>
            if sig =? signal then sret (inl m)
            else
              let! s := sget in
              tfm_spm_get_msg_by_signal_loop fuel' head (next (nodes s n)) signal found
        | None =>
            if sig =? signal then
              do! on_nodes (BI_LIST_REMOVE_NODE n) in
              let! s := sget in
              tfm_spm_get_msg_by_signal_loop fuel' head (next (nodes s n)) signal (Some tmp_msg)
            else
              let! s := sget in
              tfm_spm_get_msg_by_signal_loop fuel' head (next (nodes s n)) signal None
        end
    end.

Definition tfm_spm_get_msg_by_signal (p : Z) (signal : Z) : SPM st (option Z) :=
  let! s := sget in
  if BI_LIST_IS_EMPTY (MsgList p) (nodes s) then sret None
  else
    let! r := tfm_spm_get_msg_by_signal_loop (Z.to_nat TFM_CONN_HANDLE_MAX_NUM) (MsgList p)
      (next (nodes s (MsgList p))) signal None in
    match r with
    | inl m => sret (Some m)
    | inr m =>
        do! sput (on_partition p (fun q => set_signals_asserted (clear_bits (signals_asserted q) signal) q)) in
        sret m
    end.

(** Index of the partition with this ID. *)
Fixpoint find_index {A} (f : A -> bool) (i : Z) (l : list A) : option Z :=
  match l with
  | [] => None
  | x :: l' => if f x then Some i else find_index f (i + 1) l'
  end.
Definition get_partition_idx (partition_id : Z) : SPM st (option Z) :=
  if partition_id =? INVALID_PARTITION_ID then sret None
  else gets (fun s => find_index (fun i => pid (p_static (partitions s i)) =? partition_id) 0
         (map Z.of_nat (seq 0 partition_count))).

Definition tfm_spm_partition_get_privileged_mode (partition_flags : Z) : Z :=
  if negb (Z.land partition_flags SPM_PART_FLAG_PSA_ROT =? 0)
  then TFM_PARTITION_PRIVILEGED_MODE else TFM_PARTITION_UNPRIVILEGED_MODE.

Definition tfm_spm_get_service_by_sid (sid : Z) : SPM st (option Z) :=
  gets (fun s => find_index (fun i => db_sid (service_db (services s i)) =? sid) 0
    (map Z.of_nat (seq 0 (length (service_db_list cfg))))).

Definition tfm_spm_get_partition_by_id (partition_id : Z) : SPM st (option Z) :=
  get_partition_idx partition_id.

(** The partition the current thread is embedded in. *)
Definition tfm_spm_get_running_partition : SPM st Z :=
  let! s := sget in deref (p_curr_thrd (scheduler s)).

Definition tfm_spm_partition_get_running_partition_id : SPM st Z :=
  let! p := tfm_spm_get_running_partition in
  gets (fun s => pid (p_static (partitions s p))).

(** tfm_nspm_get_current_client_id (tfm_nspm_ipc.c) *)
Definition tfm_nspm_get_current_client_id : Z := -1.

Definition tfm_spm_check_client_version (service : Z) (version : Z) : SPM st Z :=
  let! srv := the_service service in
  let db := service_db srv in
  if version_policy db =? TFM_VERSION_POLICY_RELAXED then
    if version >? db_version db then sret SPM_ERROR_VERSION else sret SPM_SUCCESS
  else if version_policy db =? TFM_VERSION_POLICY_STRICT then
    if negb (version =? db_version db) then sret SPM_ERROR_VERSION else sret SPM_SUCCESS
  else sret SPM_ERROR_VERSION.

Definition tfm_spm_check_authorization (sid : Z) (service : option Z) (ns_caller : bool) : SPM st Z :=
  do! TFM_CORE_ASSERT (is_some service) in
  let! service := deref service in
  let! srv := the_service service in
  if ns_caller then
    if negb (non_secure_client (service_db srv)) then sret SPM_ERROR_GENERIC else sret SPM_SUCCESS
  else
    let! p := tfm_spm_get_running_partition in
    let! part := the_partition p in
    if negb (existsb (fun d => d =? sid) (deps (p_static part))) then sret SPM_ERROR_GENERIC
    else sret SPM_SUCCESS.

(** ** Message functions *)
Definition tfm_spm_get_msg_from_handle (msg_handle : Z) : SPM st (option Z) :=
  match tfm_spm_to_handle_instance msg_handle with
  | None => sret None
  | Some p =>
      let! s := sget in
      if negb (valid_chunk p s) then sret None
      else
        let p_msg := internal_msg (conns s p) in
        if negb (magic p_msg =? TFM_MSG_MAGIC) then sret None
        else
          let! partition_id := tfm_spm_partition_get_running_partition_id in
          let! v := deref (msg_service p_msg) in
          let! owner := deref (partition (services s v)) in
          if negb (partition_id =? pid (p_static (partitions s owner))) then sret None
          else sret (Some p)
  end.

(** tfm_rpc.h: a message of a client on the other core. *)
Definition is_tfm_rpc_msg (m : tfm_msg_body_t) : bool :=
  TFM_MULTI_CORE_TOPOLOGY cfg && (msg_client_id (msg m) <=? 0) &&
  negb (is_some (owner (ack_evnt m))).

Definition pad4 {A} (d : A) (l : list A) : list A := firstn 4 (l ++ repeat d 4).

(** The vectors are arrays of the caller, so the two assertions that they are
    not null when they have elements hold.  Elements past their ends are zero. *)
Definition tfm_spm_fill_msg (c : Z) (service : option Z) (handle_ type_ cid : Z)
    (invec_ outvec_ : list psa_vec) (caller_outvec_ : Z) : SPM st unit :=
  let in_len := Z.of_nat (length invec_) in
  let out_len := Z.of_nat (length outvec_) in
  do! TFM_CORE_ASSERT (is_some service) in
  do! TFM_CORE_ASSERT (in_len <=? PSA_MAX_IOVEC) in
  do! TFM_CORE_ASSERT (out_len <=? PSA_MAX_IOVEC) in
  do! TFM_CORE_ASSERT (u32 (in_len + out_len) <=? PSA_MAX_IOVEC) in
  do! on_nodes (fun n => Some (fun k => if bool_decide (k = MsgNode c) then null_node else n k)) in
  do! modify_msg c (fun _ =>
    {| magic := TFM_MSG_MAGIC; msg_service := service; ack_evnt := tfm_event_init;
       msg := {| type := type_; handle := handle_; msg_client_id := cid; msg_rhandle := 0;
                 in_size := pad4 0 (map len invec_); out_size := pad4 0 (map len outvec_) |};
       invec := pad4 zero_vec (map (fun v => {| base := base v; len := 0 |}) invec_);
       outvec := pad4 zero_vec (map (fun v => {| base := base v; len := 0 |}) outvec_);
       caller_outvec := caller_outvec_; caller_data := 0 |}) in
  do! match tfm_spm_to_handle_instance handle_ with
      | Some conn_handle =>
          let! v := tfm_spm_get_rhandle service (Some conn_handle) in
          modify_msg c (fun m => set_msg (set_msg_rhandle v (msg m)) m)
      | None => sret tt
      end in
  if TFM_CLIENT_ID_IS_NS cid && TFM_MULTI_CORE_TOPOLOGY cfg then
    let! s := sget in
    modify_msg c (set_caller_data (get_caller_data rpc_ops (mailbox s) cid))
  else sret tt.

(** Events live in the partitions and in the messages. *)
Definition wake_partition (p : Z) (n : Z) : SPM st unit :=
  let! part := the_partition p in
  let! e := on_sched (tfm_event_wake (event part) n) in
  sput (on_partition p (set_event e)).
Definition wait_partition (p : Z) : SPM st unit :=
  let! part := the_partition p in
  let! e := on_sched (tfm_event_wait (event part)) in
  sput (on_partition p (set_event e)).
Definition wake_msg (c : Z) (n : Z) : SPM st unit :=
  let! m := msg_body c in
  let! e := on_sched (tfm_event_wake (ack_evnt m) n) in
  modify_msg c (set_ack_evnt e).
Definition wait_msg (c : Z) : SPM st unit :=
  let! m := msg_body c in
  let! e := on_sched (tfm_event_wait (ack_evnt m)) in
  modify_msg c (set_ack_evnt e).

(** [signals_asserted |= signal], and wake the partition if it waits for it. *)
Definition assert_signal (p : Z) (signal : Z) : SPM st unit :=
  do! sput (on_partition p (fun q => set_signals_asserted (Z.lor (signals_asserted q) signal) q)) in
  let! q := the_partition p in
  if negb (Z.land (signals_waiting q) signal =? 0) then
    do! wake_partition p (Z.land (signals_asserted q) (signals_waiting q)) in
    sput (on_partition p (fun q => set_signals_waiting (clear_bits (signals_waiting q) signal) q))
  else sret tt.

Definition tfm_spm_send_event (service : option Z) (c : Z) : SPM st unit :=
  match service with
  | None => tfm_core_panic
  | Some v =>
      let! srv := the_service v in
      match partition srv with
      | None => tfm_core_panic
      | Some p =>
          let signal := db_signal (service_db srv) in
          do! on_nodes (BI_LIST_INSERT_BEFORE (MsgList p) (MsgNode c)) in
          do! assert_signal p signal in
          let! m := msg_body c in
          if negb (is_tfm_rpc_msg m) then wait_msg c else sret tt
      end
  end.

(** ** Memory checks *)
Definition memory_attr (access privileged : Z) (ns_caller : bool) : Z :=
  Z.lor (Z.lor (if access =? TFM_MEMORY_ACCESS_RW
                then Z.lor TFM_HAL_ACCESS_READABLE TFM_HAL_ACCESS_WRITABLE
                else TFM_HAL_ACCESS_READABLE)
               (if privileged =? TFM_PARTITION_UNPRIVILEGED_MODE
                then TFM_HAL_ACCESS_UNPRIVILEGED else 0))
        (if ns_caller then TFM_HAL_ACCESS_NS else 0).

Definition tfm_memory_check (buffer len_ : Z) (ns_caller : bool) (access privileged : Z) : Z :=
  if len_ =? 0 then SPM_SUCCESS
  else if buffer =? 0 then SPM_ERROR_BAD_PARAMETERS
  else if buffer >? UINT32_MAX - len_ then SPM_ERROR_MEMORY_CHECK
  else if tfm_hal_memory_has_access cfg buffer len_ (memory_attr access privileged ns_caller)
  then SPM_SUCCESS else SPM_ERROR_MEMORY_CHECK.

(** ** Vectors in the memory of the client: base and length, four bytes each *)
Definition load32 (m : mem) (a : Z) : Z := u32 (le_val (mread m a 4)).
Definition load_vec (m : mem) (a : Z) : psa_vec := {| base := load32 m a; len := load32 m (a + 4) |}.
Definition load_vecs (m : mem) (a : Z) (n : nat) : list psa_vec :=
  map (fun i => load_vec m (a + 8 * Z.of_nat i)) (seq 0 n).
Definition store32 (m : mem) (a v : Z) : mem := mwrite m a (le_bytes 4 v) 4.

Fixpoint update_caller_outvec_len_loop (n : nat) (i : Z) (c : Z) : SPM st unit :=
  match n with
  | O => sret tt
  | S n' =>
      let! m := msg_body c in
      do! (if at4 (out_size (msg m)) i =? 0 then sret tt
           else
             let! s := sget in
             let a := caller_outvec m + 8 * i in
             do! TFM_CORE_ASSERT (load32 (memory s) a =? base (vec_at (outvec m) i)) in
             sput (set_memory (store32 (memory s) (a + 4) (len (vec_at (outvec m) i))))) in
      update_caller_outvec_len_loop n' (i + 1) c
  end.

Definition update_caller_outvec_len (c : Z) : SPM st unit :=
  let! m := msg_body c in
  do! (if negb (is_tfm_rpc_msg m) then
         let! k := deref (owner (ack_evnt m)) in
         let! s := sget in
         TFM_CORE_ASSERT (state (thrds (scheduler s) k) =? THRD_STATE_BLOCK)
       else sret tt) in
  update_caller_outvec_len_loop (Z.to_nat PSA_MAX_IOVEC) 0 c.

(** ** Notifications and interrupts *)
Definition notify_with_signal (partition_id signal : Z) : SPM st unit :=
  if negb (TFM_CLIENT_ID_IS_S partition_id) then tfm_core_panic
  else
    let! p := tfm_spm_get_partition_by_id partition_id in
    match p with
    | None => tfm_core_panic
    | Some p => assert_signal p signal
    end.

Definition tfm_spm_hal_enable_irq (line : Z) : SPM st unit :=
  sput (fun s => set_irq (upd line true (irq_enabled s)) (irq_pending s) s).
Definition tfm_spm_hal_disable_irq (line : Z) : SPM st unit :=
  sput (fun s => set_irq (upd line false (irq_enabled s)) (irq_pending s) s).
Definition tfm_spm_hal_clear_pending_irq (line : Z) : SPM st unit :=
  sput (fun s => set_irq (irq_enabled s) (upd line false (irq_pending s)) s).

Definition tfm_set_irq_signal (partition_id signal line : Z) : SPM st unit :=
  do! tfm_spm_hal_disable_irq line in
  notify_with_signal partition_id signal.

Definition get_irq_line_for_signal (partition_id signal : Z) : Z :=
  if negb (IS_ONLY_ONE_BIT_IN_UINT32 signal) then -1
  else match find (fun q => (irq_partition_id q =? partition_id) && (signal_value q =? signal))
               (tfm_core_irq_signals cfg) with
       | Some q => irq_line q
       | None => SPM_ERROR_GENERIC
       end.

(** tfm_spm_request_handler; the result is what is stored in r0. *)
Definition TFM_SPM_REQUEST_RESET_VOTE : Z := 0.
Definition TFM_SUCCESS : Z := 0.
Definition TFM_ERROR_GENERIC : Z := 31.
Definition TFM_ERROR_INVALID_PARAMETER : Z := 3.
Definition tfm_spm_request_handler (r0 : Z) : SPM st Z :=
  if r0 =? TFM_SPM_REQUEST_RESET_VOTE then
    let! p := tfm_spm_get_running_partition in
    let! part := the_partition p in
    let res := if Z.land (part_flags (p_static part)) SPM_PART_FLAG_PSA_ROT =? 0
               then TFM_ERROR_GENERIC else r0 in
    let res := TFM_SUCCESS in
    sret res
  else sret TFM_ERROR_INVALID_PARAMETER.
End Ipc.
