(* ===== verification/SpmClient.v ===== *)
(** * Secure Partition Manager: the PSA client calls

    secure_fw/spm/ffm/spm_psa_client_call.c. *)

From Stdlib Require Import ZArith List Lia Bool.
From stdpp Require Import base tactics list.
From S2P Require Import Prelude SpmBase BiList SpmPool SpmSched SpmState SpmIpc.
Import ListNotations.
Local Open Scope Z_scope.
Local Open Scope spm_scope.

Section Client.
Context {W : Type} (cfg : spm_config) (rpc_ops : tfm_rpc_ops_t W).
Local Abbreviation st := (spm W).

Definition tfm_spm_client_psa_framework_version : SPM st Z := sret PSA_FRAMEWORK_VERSION.

Definition tfm_spm_client_psa_version (sid : Z) (ns_caller : bool) : SPM st Z :=
  let! service := tfm_spm_get_service_by_sid cfg sid in
  match service with
  | None => sret PSA_VERSION_NONE
  | Some v =>
      let! auth := tfm_spm_check_authorization sid service ns_caller in
      if negb (auth =? SPM_SUCCESS) then sret PSA_VERSION_NONE
      else gets (fun s => db_version (service_db (services s v)))
  end.

(** The client a call is made for. *)
Definition caller_id (ns_caller : bool) : SPM st Z :=
  if ns_caller then sret tfm_nspm_get_current_client_id
  else tfm_spm_partition_get_running_partition_id.

Definition tfm_spm_client_psa_connect (sid version : Z) (ns_caller : bool) : SPM st Z :=
  let! service := tfm_spm_get_service_by_sid cfg sid in
  match service with
  | None => TFM_PROGRAMMER_ERROR ns_caller PSA_ERROR_CONNECTION_REFUSED
  | Some v =>
      let! auth := tfm_spm_check_authorization sid service ns_caller in
      if negb (auth =? SPM_SUCCESS) then TFM_PROGRAMMER_ERROR ns_caller PSA_ERROR_CONNECTION_REFUSED
      else
        let! ver := tfm_spm_check_client_version v version in
        if negb (ver =? SPM_SUCCESS) then TFM_PROGRAMMER_ERROR ns_caller PSA_ERROR_CONNECTION_REFUSED
        else
          let! srv := the_service v in
          if negb (connection_based (service_db srv))
          then TFM_PROGRAMMER_ERROR ns_caller PSA_ERROR_PROGRAMMER_ERROR
          else
            let! cid := caller_id ns_caller in
            let! connect_handle := tfm_spm_create_conn_handle cfg service cid in
            match connect_handle with
            | None => sret PSA_ERROR_CONNECTION_BUSY
            | Some c =>
                let! handle := tfm_spm_to_user_handle cfg c in
                do! tfm_spm_fill_msg cfg rpc_ops c service handle PSA_IPC_CONNECT cid [] [] 0 in
                do! tfm_spm_send_event cfg service c in
                sret PSA_SUCCESS
            end
  end.

(** ** psa_call *)

(** The connection, the service and the handle of a call; [Err] is what the
    call returns at once. *)
Definition call_target (handle cid : Z) (ns_caller : bool) : SPM st (res (Z * option Z * Z)) :=
  if IS_VALID_STATIC_HANDLE handle then
    let index := GET_INDEX_FROM_STATIC_HANDLE handle in
    let! s := sget in
    let service := stateless_service_ref s index in
    let sid := nth (Z.to_nat index) (stateless_sids cfg) 0 in
    let! auth := tfm_spm_check_authorization sid service ns_caller in
    if negb (auth =? SPM_SUCCESS) then TFM_PROGRAMMER_ERROR ns_caller (Err PSA_ERROR_CONNECTION_REFUSED)
    else
      let version := GET_VERSION_FROM_STATIC_HANDLE handle in
      let! v := deref service in
      let! ver := tfm_spm_check_client_version v version in
      if negb (ver =? SPM_SUCCESS) then TFM_PROGRAMMER_ERROR ns_caller (Err PSA_ERROR_PROGRAMMER_ERROR)
      else
        let! conn_handle := tfm_spm_create_conn_handle cfg service cid in
        match conn_handle with
        | None => TFM_PROGRAMMER_ERROR ns_caller (Err PSA_ERROR_CONNECTION_BUSY)
        | Some c =>
            do! sput (on_conn c (set_rhandle 0)) in
            let! handle := tfm_spm_to_user_handle cfg c in
            sret (Ok (c, service, handle))
        end
  else
    match tfm_spm_to_handle_instance cfg handle with
    | None => TFM_PROGRAMMER_ERROR ns_caller (Err PSA_ERROR_PROGRAMMER_ERROR)
    | Some c =>
        let! valid := tfm_spm_validate_conn_handle cfg c cid in
        if negb (valid =? SPM_SUCCESS) then TFM_PROGRAMMER_ERROR ns_caller (Err PSA_ERROR_PROGRAMMER_ERROR)
        else
          let! h := conn c in
          if status h =? TFM_HANDLE_STATUS_ACTIVE
          then TFM_PROGRAMMER_ERROR ns_caller (Err PSA_ERROR_PROGRAMMER_ERROR)
          else if status h =? TFM_HANDLE_STATUS_CONNECT_ERROR then sret (Err PSA_ERROR_PROGRAMMER_ERROR)
          else sret (Ok (c, conn_service h, handle))
    end.

(** [j] overlaps [i]: neither ends before the other starts. *)
Definition vecs_overlap (i j : psa_vec) : bool :=
  negb ((u32 (base j + len j) <=? base i) || (base j >=? u32 (base i + len i))).

(** The two nested loops over the input vectors. *)
Fixpoint any_overlap (l : list psa_vec) : bool :=
  match l with
  | [] => false
  | i :: l' => existsb (vecs_overlap i) l' || any_overlap l'
  end.

Definition vec_accessible (ns_caller : bool) (access privileged : Z) (v : psa_vec) : bool :=
  tfm_memory_check cfg (base v) (len v) ns_caller access privileged =? SPM_SUCCESS.

Definition tfm_spm_client_psa_call (handle type inptr in_num outptr out_num : Z)
    (ns_caller : bool) (privileged : Z) : SPM st Z :=
  if (in_num >? PSA_MAX_IOVEC) || (out_num >? PSA_MAX_IOVEC) || (u32 (in_num + out_num) >? PSA_MAX_IOVEC)
  then TFM_PROGRAMMER_ERROR ns_caller PSA_ERROR_PROGRAMMER_ERROR
  else
    let! cid := caller_id ns_caller in
    let! target := call_target handle cid ns_caller in
    match target with
    | Err e => sret e
    | Ok (c, service, handle) =>
        match service with
        | None => tfm_core_panic
        | Some _ =>
            if negb (tfm_memory_check cfg inptr (u32 (in_num * 8)) ns_caller TFM_MEMORY_ACCESS_RO privileged
                     =? SPM_SUCCESS)
            then TFM_PROGRAMMER_ERROR ns_caller PSA_ERROR_PROGRAMMER_ERROR
            else if negb (tfm_memory_check cfg outptr (u32 (out_num * 8)) ns_caller TFM_MEMORY_ACCESS_RW
                            privileged =? SPM_SUCCESS)
            then TFM_PROGRAMMER_ERROR ns_caller PSA_ERROR_PROGRAMMER_ERROR
            else
              let! s := sget in
              let invecs := load_vecs (memory s) inptr (Z.to_nat in_num) in
              let outvecs := load_vecs (memory s) outptr (Z.to_nat out_num) in
              if negb (forallb (vec_accessible ns_caller TFM_MEMORY_ACCESS_RO privileged) invecs)
              then TFM_PROGRAMMER_ERROR ns_caller PSA_ERROR_PROGRAMMER_ERROR
              else if any_overlap invecs
              then TFM_PROGRAMMER_ERROR ns_caller PSA_ERROR_PROGRAMMER_ERROR
              else if negb (forallb (vec_accessible ns_caller TFM_MEMORY_ACCESS_RW privileged) outvecs)
              then TFM_PROGRAMMER_ERROR ns_caller PSA_ERROR_PROGRAMMER_ERROR
              else
                do! tfm_spm_fill_msg cfg rpc_ops c service handle type cid invecs outvecs outptr in
                do! tfm_spm_send_event cfg service c in
                sret PSA_SUCCESS
        end
    end.

(** ** psa_close *)
Definition tfm_spm_client_psa_close (handle : Z) (ns_caller : bool) : SPM st unit :=
  if handle =? PSA_NULL_HANDLE then sret tt
  else if IS_VALID_STATIC_HANDLE handle then TFM_PROGRAMMER_ERROR ns_caller tt
  else
    let! cid := caller_id ns_caller in
    let c := match tfm_spm_to_handle_instance cfg handle with Some c => c | None => 0 end in
    let! valid := tfm_spm_validate_conn_handle cfg c cid in
    if negb (valid =? SPM_SUCCESS) then TFM_PROGRAMMER_ERROR ns_caller tt
    else
      let! h := conn c in
      match conn_service h with
      | None => tfm_core_panic
      | Some v =>
          if status h =? TFM_HANDLE_STATUS_ACTIVE then TFM_PROGRAMMER_ERROR ns_caller tt
          else
            do! tfm_spm_fill_msg cfg rpc_ops c (Some v) handle PSA_IPC_DISCONNECT cid [] [] 0 in
            tfm_spm_send_event cfg (Some v) c
      end.
End Client.
