(* ===== verification/SpmService.v ===== *)
(** * Secure Partition Manager: the PSA service calls

    secure_fw/spm/ffm/psa_client_service_apis.c: the handlers of the PSA
    client and service calls, on the arguments the SVC stacked. *)

From Stdlib Require Import ZArith List Lia Bool.
From stdpp Require Import base tactics list.
From S2P Require Import Prelude SpmBase BiList SpmPool SpmSched SpmState SpmIpc SpmClient.
Import ListNotations.
Local Open Scope Z_scope.
Local Open Scope spm_scope.

Definition PSA_LIFECYCLE_UNKNOWN : Z := 0.

Section Service.
Context {W : Type} (cfg : spm_config) (rpc_ops : tfm_rpc_ops_t W).
Local Abbreviation st := (spm W).

Definition tfm_spm_get_lifecycle_state : SPM st Z := sret PSA_LIFECYCLE_UNKNOWN.

Definition running_partition_mode : SPM st Z :=
  let! p := tfm_spm_get_running_partition in
  gets (fun s => tfm_spm_partition_get_privileged_mode (part_flags (p_static (partitions s p)))).

(** struct tfm_control_parameter_t: type, in_len and out_len. *)
Definition tfm_spm_psa_call (handle ctrl_param inptr outptr : Z) (ns_caller : bool) : SPM st Z :=
  let! privileged := running_partition_mode in
  if negb (tfm_memory_check cfg ctrl_param 12 ns_caller TFM_MEMORY_ACCESS_RW privileged =? SPM_SUCCESS)
  then TFM_PROGRAMMER_ERROR ns_caller PSA_ERROR_PROGRAMMER_ERROR
  else
    let! s := sget in
    let type := s32 (load32 (memory s) ctrl_param) in
    let in_num := load32 (memory s) (ctrl_param + 4) in
    let out_num := load32 (memory s) (ctrl_param + 8) in
    if type <? 0 then TFM_PROGRAMMER_ERROR ns_caller PSA_ERROR_PROGRAMMER_ERROR
    else tfm_spm_client_psa_call cfg rpc_ops handle type inptr in_num outptr out_num ns_caller privileged.

(** ** Waiting for and retrieving messages *)
Definition tfm_spm_psa_wait (signal_mask timeout : Z) : SPM st Z :=
  let timeout := Z.land timeout PSA_TIMEOUT_MASK in
  let! p := tfm_spm_get_running_partition in
  let! part := the_partition p in
  if Z.land (signals_allowed part) signal_mask =? 0 then tfm_core_panic
  else
    do! (if (timeout =? PSA_BLOCK) && (Z.land (signals_asserted part) signal_mask =? 0) then
           do! sput (on_partition p (set_signals_waiting signal_mask)) in
           wait_partition p
         else sret tt) in
    gets (fun s => Z.land (signals_asserted (partitions s p)) signal_mask).

(** The size of psa_msg_t, and its bytes. *)
Definition sizeof_psa_msg : Z := 48.
Definition psa_msg_bytes (m : psa_msg_t) : list Z :=
  le_bytes 4 (u32 (type m)) ++ le_bytes 4 (u32 (handle m)) ++ le_bytes 4 (u32 (msg_client_id m)) ++
  le_bytes 4 (msg_rhandle m) ++ flat_map (le_bytes 4) (in_size m) ++ flat_map (le_bytes 4) (out_size m).

Definition tfm_spm_psa_get (signal msg_ptr : Z) : SPM st Z :=
  if negb (IS_ONLY_ONE_BIT_IN_UINT32 signal) then tfm_core_panic
  else
    let! p := tfm_spm_get_running_partition in
    let! privileged := running_partition_mode in
    if negb (tfm_memory_check cfg msg_ptr sizeof_psa_msg false TFM_MEMORY_ACCESS_RW privileged =? SPM_SUCCESS)
    then tfm_core_panic
    else
      let! part := the_partition p in
      if signals_asserted part =? 0 then tfm_core_panic
      else if Z.land (signals_asserted part) signal =? 0 then tfm_core_panic
      else
        let! tmp_msg := tfm_spm_get_msg_by_signal p signal in
        match tmp_msg with
        | None => sret PSA_ERROR_DOES_NOT_EXIST
        | Some c =>
            do! sput (on_conn c (set_status TFM_HANDLE_STATUS_ACTIVE)) in
            do! sput (fun s => set_memory
              (mwrite (memory s) msg_ptr (psa_msg_bytes (msg (internal_msg (conns s c)))) sizeof_psa_msg) s) in
            sret PSA_SUCCESS
        end.

Definition tfm_spm_psa_set_rhandle (msg_handle rhandle : Z) : SPM st unit :=
  let! m := tfm_spm_get_msg_from_handle cfg msg_handle in
  match m with
  | None => tfm_core_panic
  | Some c =>
      let! body := msg_body c in
      let! v := deref (msg_service body) in
      let! srv := the_service v in
      if negb (connection_based (service_db srv)) then tfm_core_panic
      else
        do! modify_msg c (fun m => set_msg (set_msg_rhandle rhandle (msg m)) m) in
        tfm_spm_set_rhandle (Some v) (tfm_spm_to_handle_instance cfg msg_handle) rhandle
  end.

(** ** Access to the vectors of a request *)

(** The mode of the partition that owns the service of a message. *)
Definition owner_mode (c : Z) : SPM st Z :=
  let! body := msg_body c in
  let! v := deref (msg_service body) in
  let! srv := the_service v in
  let! p := deref (partition srv) in
  gets (fun s => tfm_spm_partition_get_privileged_mode (part_flags (p_static (partitions s p)))).

Definition set_at4 {A} (i : Z) (v : A) (l : list A) : list A := <[Z.to_nat i := v]> l.

(** [invec[i].base += n; in_size[i] -= n] *)
Definition consume (c invec_idx n : Z) : SPM st unit :=
  modify_msg c (fun m =>
    let v := vec_at (invec m) invec_idx in
    set_msg (set_in_size (set_at4 invec_idx (u32 (at4 (in_size (msg m)) invec_idx - n)) (in_size (msg m))) (msg m))
      (set_invec (set_at4 invec_idx {| base := u32 (base v + n); len := len v |} (invec m)) m)).

Definition tfm_spm_psa_read (msg_handle invec_idx buffer num_bytes : Z) : SPM st Z :=
  let! m := tfm_spm_get_msg_from_handle cfg msg_handle in
  match m with
  | None => tfm_core_panic
  | Some c =>
      let! privileged := owner_mode c in
      let! body := msg_body c in
      if type (msg body) <? PSA_IPC_CALL then tfm_core_panic
      else if invec_idx >=? PSA_MAX_IOVEC then tfm_core_panic
      else
        let remaining := at4 (in_size (msg body)) invec_idx in
        if remaining =? 0 then sret 0
        else if negb (tfm_memory_check cfg buffer num_bytes false TFM_MEMORY_ACCESS_RW privileged =? SPM_SUCCESS)
        then tfm_core_panic
        else
          let bytes := if num_bytes >? remaining then remaining else num_bytes in
          do! sput (fun s => set_memory
            (mwrite (memory s) buffer (mread (memory s) (base (vec_at (invec body) invec_idx)) bytes) bytes) s) in
          do! consume c invec_idx bytes in
          sret bytes
  end.

Definition tfm_spm_psa_skip (msg_handle invec_idx num_bytes : Z) : SPM st Z :=
  let! m := tfm_spm_get_msg_from_handle cfg msg_handle in
  match m with
  | None => tfm_core_panic
  | Some c =>
      let! body := msg_body c in
      if type (msg body) <? PSA_IPC_CALL then tfm_core_panic
      else if invec_idx >=? PSA_MAX_IOVEC then tfm_core_panic
      else
        let remaining := at4 (in_size (msg body)) invec_idx in
        if remaining =? 0 then sret 0
        else
          let num_bytes := if num_bytes >? remaining then remaining else num_bytes in
          do! consume c invec_idx num_bytes in
          sret num_bytes
  end.

Definition tfm_spm_psa_write (msg_handle outvec_idx buffer num_bytes : Z) : SPM st unit :=
  let! m := tfm_spm_get_msg_from_handle cfg msg_handle in
  match m with
  | None => tfm_core_panic
  | Some c =>
      let! privileged := owner_mode c in
      let! body := msg_body c in
      if type (msg body) <? PSA_IPC_CALL then tfm_core_panic
      else if outvec_idx >=? PSA_MAX_IOVEC then tfm_core_panic
      else
        let v := vec_at (outvec body) outvec_idx in
        if num_bytes >? u32 (at4 (out_size (msg body)) outvec_idx - len v) then tfm_core_panic
        else if negb (tfm_memory_check cfg buffer num_bytes false TFM_MEMORY_ACCESS_RO privileged =? SPM_SUCCESS)
        then tfm_core_panic
        else
          do! sput (fun s => set_memory
            (mwrite (memory s) (u32 (base v + len v)) (mread (memory s) buffer num_bytes) num_bytes) s) in
          modify_msg c (fun m => set_outvec
            (set_at4 outvec_idx {| base := base v; len := u32 (len v + num_bytes) |} (outvec m)) m)
  end.

(** ** Replying *)

(** The value the client gets, by type of message; [conn_handle] is the
    connection of the message. *)
Definition reply_value (c : Z) (service conn_handle : option Z) (msg_handle status : Z) : SPM st Z :=
  let! body := msg_body c in
  if type (msg body) =? PSA_IPC_CONNECT then
    if status =? PSA_SUCCESS then sret msg_handle
    else if status =? PSA_ERROR_CONNECTION_REFUSED then
      do! tfm_spm_free_conn_handle service conn_handle in
      sret PSA_ERROR_CONNECTION_REFUSED
    else if status =? PSA_ERROR_CONNECTION_BUSY then sret PSA_ERROR_CONNECTION_BUSY
    else tfm_core_panic
  else if type (msg body) =? PSA_IPC_DISCONNECT then
    do! tfm_spm_free_conn_handle service conn_handle in
    sret PSA_SUCCESS
  else if type (msg body) >=? PSA_IPC_CALL then
    do! update_caller_outvec_len cfg c in
    let! v := deref service in
    let! srv := the_service v in
    do! (if negb (connection_based (service_db srv)) then tfm_spm_free_conn_handle service conn_handle else sret tt) in
    sret status
  else tfm_core_panic.

Definition set_conn_status (conn_handle : option Z) (v : Z) : SPM st unit :=
  match conn_handle with Some c => sput (on_conn c (set_status v)) | None => sret tt end.

Definition tfm_spm_psa_reply (msg_handle status : Z) : SPM st unit :=
  let! m := tfm_spm_get_msg_from_handle cfg msg_handle in
  match m with
  | None => tfm_core_panic
  | Some c =>
      let! body := msg_body c in
      match msg_service body with
      | None => tfm_core_panic
      | Some _ =>
          let conn_handle := tfm_spm_to_handle_instance cfg msg_handle in
          let! ret := reply_value c (msg_service body) conn_handle msg_handle status in
          do! (if ret =? PSA_ERROR_PROGRAMMER_ERROR then
                 let! body := msg_body c in
                 if TFM_CLIENT_ID_IS_NS (msg_client_id (msg body))
                 then set_conn_status conn_handle TFM_HANDLE_STATUS_CONNECT_ERROR
                 else tfm_core_panic
               else set_conn_status conn_handle TFM_HANDLE_STATUS_IDLE) in
          let! body := msg_body c in
          if is_tfm_rpc_msg cfg body then
            sput (fun s => set_mailbox (reply rpc_ops (caller_data body) ret (mailbox s)) s)
          else wake_msg c (u32 ret)
      end
  end.

(** ** Notifications *)
Definition tfm_spm_psa_notify (partition_id : Z) : SPM st unit :=
  notify_with_signal cfg partition_id PSA_DOORBELL.

Definition tfm_spm_psa_clear : SPM st unit :=
  let! p := tfm_spm_get_running_partition in
  let! part := the_partition p in
  if Z.land (signals_asserted part) PSA_DOORBELL =? 0 then tfm_core_panic
  else sput (on_partition p (fun q => set_signals_asserted (clear_bits (signals_asserted q) PSA_DOORBELL) q)).

(** ** Interrupts *)

(** The line of an interrupt signal of the running partition. *)
Definition running_irq_line (irq_signal : Z) : SPM st Z :=
  let! id := tfm_spm_partition_get_running_partition_id in
  let line := get_irq_line_for_signal cfg id irq_signal in
  if line <? 0 then tfm_core_panic else sret line.

Definition tfm_spm_psa_eoi (irq_signal : Z) : SPM st unit :=
  let! p := tfm_spm_get_running_partition in
  let! line := running_irq_line irq_signal in
  let! part := the_partition p in
  if Z.land (signals_asserted part) irq_signal =? 0 then tfm_core_panic
  else
    do! sput (on_partition p (fun q => set_signals_asserted (clear_bits (signals_asserted q) irq_signal) q)) in
    do! tfm_spm_hal_clear_pending_irq line in
    tfm_spm_hal_enable_irq line.

(** tfm_hal_system_reset does not return. *)
Definition tfm_spm_psa_panic : SPM st unit := tfm_core_panic.

Definition tfm_spm_irq_enable (irq_signal : Z) : SPM st unit :=
  let! line := running_irq_line irq_signal in tfm_spm_hal_enable_irq line.

Definition tfm_spm_irq_disable (irq_signal : Z) : SPM st Z :=
  let! line := running_irq_line irq_signal in
  do! tfm_spm_hal_disable_irq line in
  sret 1.
End Service.
