(* ===== verification/SpmInit.v ===== *)
(** * Secure Partition Manager: initialisation

    tfm_spm_init of secure_fw/spm/cmsis_psa/spm_ipc.c: the pool of connection
    handles, the partitions and their threads, the services, and the start of
    the scheduler. *)

From Stdlib Require Import ZArith List Lia Bool.
From stdpp Require Import base tactics list.
From S2P Require Import Prelude SpmBase BiList SpmPool SpmSched SpmState SpmIpc.
Import ListNotations.
Local Open Scope Z_scope.
Local Open Scope spm_scope.

Section Init.
Context {W : Type} (cfg : spm_config).
Local Abbreviation st := (spm W).

(** The list nodes inside the buffer of the pool. *)
Definition in_pool_buffer (k : node) : bool :=
  match k with ChunksList | ChunkNode _ | MsgNode _ | HandleNode _ => true | _ => false end.

Definition POOL_BUFFER_SIZE : Z :=
  (sizeof_conn_handle cfg + sizeof_pool_chunk) * TFM_CONN_HANDLE_MAX_NUM + sizeof_pool_instance.

(** tfm_pool_init also clears the connection handles, which are in its buffer. *)
Definition init_conn_handle_pool : SPM st unit :=
  let! s := sget in
  let! (err, inst, n) := deref (tfm_pool_init ChunksList ChunkNode in_pool_buffer (conn_handle_pool cfg)
    POOL_BUFFER_SIZE (sizeof_conn_handle cfg) TFM_CONN_HANDLE_MAX_NUM (pool_instance s) (nodes s)) in
  do! sput (set_nodes n) in
  do! sput (set_pool_instance inst) in
  if err =? SPM_SUCCESS then sput (set_conns (fun _ => zero_conn)) else sret tt.

Fixpoint configure_isolation (i : Z) (platform_data_p : list Z) : SPM st unit :=
  match platform_data_p with
  | [] => sret tt
  | d :: l =>
      if negb (tfm_spm_hal_configure_default_isolation cfg i d) then tfm_core_panic
      else configure_isolation i l
  end.

Definition set_p_static (v : partition_static_t) (p : partition_t) : partition_t :=
  {| p_static := v; event := event p; signals_allowed := signals_allowed p;
     signals_waiting := signals_waiting p; signals_asserted := signals_asserted p |}.

(** [signals_allowed |= signal] *)
Definition allow_signal (signal : Z) (q : partition_t) : partition_t :=
  set_signals_allowed (Z.lor (signals_allowed q) signal) q.

Fixpoint assign_irq_signals (i : Z) (stat : partition_static_t) (irqs : list irq_signal_t) : SPM st unit :=
  match irqs with
  | [] => sret tt
  | q :: l =>
      do! (if irq_partition_id q =? pid stat then
             do! sput (on_partition i (allow_signal (signal_value q))) in
             if psa_ff_ver stat =? 0x0100 then tfm_spm_hal_enable_irq (irq_line q)
             else if psa_ff_ver stat =? 0x0101 then tfm_spm_hal_disable_irq (irq_line q)
             else sret tt
           else sret tt) in
      assign_irq_signals i stat l
  end.

(** One partition; the result is the non-secure entry thread so far. *)
Definition init_partition (i : Z) (stat : partition_static_t) (p_ns_entry_thread : option Z) :
    SPM st (option Z) :=
  do! sput (on_partition i (set_p_static stat)) in
  if Z.land (part_flags stat) SPM_PART_FLAG_IPC =? 0 then tfm_core_panic
  else if psa_ff_ver stat >? PSA_FRAMEWORK_VERSION then sret p_ns_entry_thread
  else
    do! configure_isolation i (platform_data stat) in
    do! sput (on_partition i (allow_signal PSA_DOORBELL)) in
    do! assign_irq_signals i stat (tfm_core_irq_signals cfg) in
    do! sput (on_partition i (set_event tfm_event_init)) in
    do! on_nodes (fun n => Some (BI_LIST_INIT_NODE (MsgList i) n)) in
    do! on_sched (tfm_core_thrd_init i (part_entry stat) 0 (part_stack_top stat) (stack_bottom stat)) in
    do! on_sched (sput (on_thrd i (set_prior (part_priority stat)))) in
    let! ns := (if pid stat =? TFM_SP_NON_SECURE_ID then
                  do! on_sched (sput (on_thrd i (set_param (tfm_spm_hal_get_ns_entry_point cfg)))) in
                  sret (Some i)
                else sret p_ns_entry_thread) in
    let! err := on_sched (tfm_core_thrd_start (partition_count cfg) i) in
    if negb (err =? THRD_SUCCESS) then tfm_core_panic else sret ns.

Fixpoint init_partitions (i : Z) (l : list partition_static_t) (ns : option Z) : SPM st (option Z) :=
  match l with
  | [] => sret ns
  | stat :: l' => let! ns := init_partition i stat ns in init_partitions (i + 1) l' ns
  end.

(** The entry of the tracking table with the SID of a stateless service. *)
Definition track_stateless (i : Z) (db : tfm_spm_service_db_t) : SPM st unit :=
  match find_index (fun sid => sid =? db_sid db) 0
          (firstn (Z.to_nat STATIC_HANDLE_NUM_LIMIT) (stateless_sids cfg)) with
  | None => tfm_core_panic
  | Some j => sput (fun s => set_stateless (upd j (Some i) (stateless_service_ref s)) s)
  end.

Definition init_service (i : Z) (db : tfm_spm_service_db_t) : SPM st unit :=
  do! sput (fun s => set_services
    (upd i {| service_db := db; partition := partition (services s i) |} (services s)) s) in
  let! p := tfm_spm_get_partition_by_id cfg (db_partition_id db) in
  match p with
  | None => tfm_core_panic
  | Some p =>
      do! sput (fun s => set_services (upd i {| service_db := db; partition := Some p |} (services s)) s) in
      do! sput (on_partition p (allow_signal (db_signal db))) in
      do! (if negb (connection_based db) then track_stateless i db else sret tt) in
      on_nodes (fun n => Some (BI_LIST_INIT_NODE (HandleList i) n))
  end.

Fixpoint init_services (i : Z) (l : list tfm_spm_service_db_t) : SPM st unit :=
  match l with
  | [] => sret tt
  | db :: l' => do! init_service i db in init_services (i + 1) l'
  end.

(** The result in the code is the link register of the entry thread, for the
    exception return. *)
Definition tfm_spm_init : SPM st unit :=
  do! init_conn_handle_pool in
  let! ns := init_partitions 0 (static_data_list cfg) None in
  do! init_services 0 (service_db_list cfg) in
  match ns with
  | None => tfm_core_panic
  | Some _ => on_sched (tfm_core_thrd_start_scheduler ns)
  end.
End Init.
