(* ===== verification/SpmSvc.v ===== *)
(** * Secure Partition Manager: the SVC dispatcher and the remote calls

    SVC_Handler_IPC of secure_fw/spm/cmsis_psa/tfm_core_svcalls_ipc.c,
    tfm_spm_validate_caller of spm_ipc.c, the exception that switches threads,
    and the entry points of tfm_rpc.c for the clients on the other core. *)

From Stdlib Require Import ZArith List Lia Bool.
From stdpp Require Import base tactics list.
From S2P Require Import Prelude SpmBase BiList SpmPool SpmSched SpmState SpmIpc SpmClient SpmService.
Import ListNotations.
Local Open Scope Z_scope.
Local Open Scope spm_scope.

(** tfm_svc_number_t (tfm_core_svc.h) of the IPC model; [TFM_SVC_OTHER] is
    any other number. *)
Inductive tfm_svc_number_t : Type :=
| TFM_SVC_SPM_REQUEST
| TFM_SVC_PSA_WAIT
| TFM_SVC_PSA_EOI
| TFM_SVC_PSA_FRAMEWORK_VERSION
| TFM_SVC_PSA_VERSION
| TFM_SVC_PSA_CONNECT
| TFM_SVC_PSA_CALL
| TFM_SVC_PSA_CLOSE
| TFM_SVC_PSA_GET
| TFM_SVC_PSA_SET_RHANDLE
| TFM_SVC_PSA_READ
| TFM_SVC_PSA_SKIP
| TFM_SVC_PSA_WRITE
| TFM_SVC_PSA_REPLY
| TFM_SVC_PSA_NOTIFY
| TFM_SVC_PSA_CLEAR
| TFM_SVC_PSA_PANIC
| TFM_SVC_PSA_LIFECYCLE
| TFM_SVC_PSA_IRQ_ENABLE
| TFM_SVC_PSA_IRQ_DISABLE
| TFM_SVC_OTHER (n : Z).

(** The stacked context: r0 to r3, the link register, the return address, and
    its own address.  [exc_return] is the link register of the exception. *)
Record tfm_state_context_t := {
  r0 : Z; r1 : Z; r2 : Z; r3 : Z;
  lr : Z;
  ra : Z;
  ctx_addr : Z
}.

(** The bounds of the veneers, and the architecture: the bytes of a stacked
    context and seal, and of a floating-point context for an exception return. *)
Record svc_config := {
  veneer_base : Z;
  veneer_limit : Z;
  stacked_size : Z;
  fp_size : Z -> Z
}.

Section Svc.
Context {W : Type} (cfg : spm_config) (rpc_ops : tfm_rpc_ops_t W) (scfg : svc_config).
Local Abbreviation st := (spm W).

Definition TFM_VENEER_LR_BIT0_MASK : Z := 1.

Definition tfm_spm_validate_caller (p_cur_sp : Z) (ctx : tfm_state_context_t) (exc_return : Z)
    (ns_caller : bool) : SPM st unit :=
  let! part := the_partition p_cur_sp in
  if ns_caller then
    if negb (pid (p_static part) =? TFM_SP_NON_SECURE_ID) then tfm_core_panic
    else
      let stacked_ctx_pos := u32 (u32 (ctx_addr ctx + stacked_size scfg) + fp_size scfg exc_return) in
      let! s := sget in
      if negb (stacked_ctx_pos =? stk_top (thrds (scheduler s) p_cur_sp)) then tfm_core_panic
      else sret tt
  else if pid (p_static part) <=? 0 then tfm_core_panic
  else sret tt.

(** The return address is in a veneer, and the veneer returns to the
    non-secure state. *)
Definition ns_caller_of (ctx : tfm_state_context_t) : bool :=
  (ra ctx >=? veneer_base scfg) && (ra ctx <? veneer_limit scfg) &&
  (Z.land (lr ctx) TFM_VENEER_LR_BIT0_MASK =? 0).

(** [break], and the function returns PSA_SUCCESS. *)
Definition success (m : SPM st unit) : SPM st Z := do! m in sret PSA_SUCCESS.

Definition SVC_Handler_IPC (svc_num : tfm_svc_number_t) (ctx : tfm_state_context_t) (exc_return : Z) :
    SPM st Z :=
  let ns_caller := ns_caller_of ctx in
  let! partition := tfm_spm_get_running_partition in
  do! tfm_spm_validate_caller partition ctx exc_return ns_caller in
  match svc_num with
  | TFM_SVC_PSA_FRAMEWORK_VERSION => tfm_spm_client_psa_framework_version
  | TFM_SVC_PSA_VERSION => tfm_spm_client_psa_version cfg (r0 ctx) ns_caller
  | TFM_SVC_PSA_CONNECT => tfm_spm_client_psa_connect cfg rpc_ops (r0 ctx) (r1 ctx) ns_caller
  | TFM_SVC_PSA_CALL => tfm_spm_psa_call cfg rpc_ops (s32 (r0 ctx)) (r1 ctx) (r2 ctx) (r3 ctx) ns_caller
  | TFM_SVC_PSA_CLOSE => success (tfm_spm_client_psa_close cfg rpc_ops (s32 (r0 ctx)) ns_caller)
  | TFM_SVC_PSA_WAIT => tfm_spm_psa_wait (r0 ctx) (r1 ctx)
  | TFM_SVC_PSA_GET => tfm_spm_psa_get cfg (r0 ctx) (r1 ctx)
  | TFM_SVC_PSA_SET_RHANDLE => success (tfm_spm_psa_set_rhandle cfg (s32 (r0 ctx)) (r1 ctx))
  | TFM_SVC_PSA_READ => tfm_spm_psa_read cfg (s32 (r0 ctx)) (r1 ctx) (r2 ctx) (r3 ctx)
  | TFM_SVC_PSA_SKIP => tfm_spm_psa_skip cfg (s32 (r0 ctx)) (r1 ctx) (r2 ctx)
  | TFM_SVC_PSA_WRITE => success (tfm_spm_psa_write cfg (s32 (r0 ctx)) (r1 ctx) (r2 ctx) (r3 ctx))
  | TFM_SVC_PSA_REPLY => success (tfm_spm_psa_reply cfg rpc_ops (s32 (r0 ctx)) (s32 (r1 ctx)))
  | TFM_SVC_PSA_NOTIFY => success (tfm_spm_psa_notify cfg (s32 (r0 ctx)))
  | TFM_SVC_PSA_CLEAR => success tfm_spm_psa_clear
  | TFM_SVC_PSA_EOI => success (tfm_spm_psa_eoi cfg (r0 ctx))
  | TFM_SVC_PSA_PANIC => success tfm_spm_psa_panic
  | TFM_SVC_SPM_REQUEST =>
      (* the result the handler stores in r0 is then overwritten *)
      let! res := tfm_spm_request_handler (r0 ctx) in sret PSA_SUCCESS
  | TFM_SVC_PSA_LIFECYCLE => tfm_spm_get_lifecycle_state
  | TFM_SVC_PSA_IRQ_ENABLE => success (tfm_spm_irq_enable cfg (r0 ctx))
  | TFM_SVC_PSA_IRQ_DISABLE => tfm_spm_irq_disable cfg (r0 ctx)
  | TFM_SVC_OTHER _ => sret PSA_ERROR_GENERIC_ERROR
  end.

(** tfm_core_svc_handler for these numbers: [svc_args[0]] is the stacked r0 of
    the thread that made the call. *)
Definition tfm_core_svc_handler (svc_number : tfm_svc_number_t) (svc_args : tfm_state_context_t)
    (exc_return : Z) : SPM st unit :=
  let! caller := tfm_spm_get_running_partition in
  let! v := SVC_Handler_IPC svc_number svc_args exc_return in
  on_sched (sput (on_thrd caller (set_retval (u32 v)))).

(** The PendSV exception, taken after the SVC when a scheduling is pending. *)
Definition PendSV_Handler : SPM st unit :=
  let! s := sget in
  if pendsv (scheduler s) then on_sched (tfm_pendsv_do_schedule (partition_count cfg)) else sret tt.

(** ** tfm_rpc.c *)

(** struct client_call_params_t *)
Record client_call_params_t := {
  rpc_sid : Z;
  rpc_handle : Z;
  rpc_type : Z;
  rpc_in_vec : Z;
  rpc_in_len : Z;
  rpc_out_vec : Z;
  rpc_out_len : Z;
  rpc_version : Z
}.

Definition tfm_rpc_psa_framework_version : SPM st Z := tfm_spm_client_psa_framework_version.

(** A null [params] fails the assertion. *)
Definition tfm_rpc_psa_version (params : option client_call_params_t) (ns_caller : bool) : SPM st Z :=
  do! TFM_CORE_ASSERT (is_some params) in
  let! params := deref params in
  tfm_spm_client_psa_version cfg (rpc_sid params) ns_caller.

Definition tfm_rpc_psa_connect (params : option client_call_params_t) (ns_caller : bool) : SPM st Z :=
  do! TFM_CORE_ASSERT (is_some params) in
  let! params := deref params in
  tfm_spm_client_psa_connect cfg rpc_ops (rpc_sid params) (rpc_version params) ns_caller.

Definition tfm_rpc_psa_call (params : option client_call_params_t) (ns_caller : bool) : SPM st Z :=
  do! TFM_CORE_ASSERT (is_some params) in
  let! params := deref params in
  tfm_spm_client_psa_call cfg rpc_ops (rpc_handle params) (rpc_type params) (rpc_in_vec params)
    (rpc_in_len params) (rpc_out_vec params) (rpc_out_len params) ns_caller TFM_PARTITION_UNPRIVILEGED_MODE.

Definition tfm_rpc_psa_close (params : option client_call_params_t) (ns_caller : bool) : SPM st unit :=
  do! TFM_CORE_ASSERT (is_some params) in
  let! params := deref params in
  tfm_spm_client_psa_close cfg rpc_ops (rpc_handle params) ns_caller.
End Svc.
