(* ===== verification/SpmInv.v ===== *)
(** * Secure Partition Manager: the invariant

    What holds of the SPM between two system calls: which chunks of the pool
    are free, which connections each service has, which messages wait in the
    queue of each partition or for a reply, and who is blocked on what. *)

From Stdlib Require Import ZArith List Lia Bool.
From stdpp Require Import base tactics list sets.
From S2P Require Import Prelude SpmBase BiList SpmPool SpmSched SpmState SpmIpc.
From S2P Require Import Prelude SpmBase BiList SpmPool SpmSched SpmState SpmIpc .
Import ListNotations.
Local Open Scope Z_scope.
Local Open Scope spm_scope.

(** The ghost state: the free chunks, the connections of a service, the
    messages queued for a partition, the messages not replied to yet, and the
    threads by priority. *)
Record view := {
  free : list Z;
  hlist : Z -> list Z;
  queue : Z -> list Z;
  pending : list Z;
  order : list Z
}.

(** A signal that is one bit of 32. *)
Definition one_bit (x : Z) : Prop := exists b, 0 <= b < 32 /\ x = 2 ^ b.

Lemma one_bit_spec x : 0 <= x < 2 ^ 32 -> IS_ONLY_ONE_BIT_IN_UINT32 x = true -> one_bit x.
Proof.
  intros Hx H. unfold IS_ONLY_ONE_BIT_IN_UINT32 in H. rewrite (u32_small x) in H by done.
  apply andb_true_iff in H as [H0 H1]. apply negb_true_iff, Z.eqb_neq in H0.
  rewrite u32_small in H1 by lia. apply Z.eqb_eq in H1.
  exists (Z.log2 x). assert (Hl : 0 <= Z.log2 x < 32).
  { split; [apply Z.log2_nonneg|]. apply Z.log2_lt_pow2; lia. }
  split; [done|]. destruct (Z.log2_spec x) as [Ha Hb]; [lia|].
  destruct (Z.eq_dec x (2 ^ Z.log2 x)) as [|Hne]; [done|]. exfalso.
  assert (E : Z.testbit (Z.land x (x - 1)) (Z.log2 x) = true).
  { rewrite Z.land_spec, Z.bit_log2 by lia. cbn [andb].
    assert (El : Z.log2 (x - 1) = Z.log2 x).
    { apply Z.log2_unique; [apply Z.log2_nonneg|]. lia. }
    rewrite <- El. apply Z.bit_log2. pose proof (Z.pow_pos_nonneg 2 (Z.log2 x)). lia. }
  by rewrite H1, Z.bits_0 in E.
Qed.

Lemma one_bit_test x : one_bit x -> IS_ONLY_ONE_BIT_IN_UINT32 x = true.
Proof.
  intros (b & Hb & ->). assert (Hr : 0 < 2 ^ b < 2 ^ 32).
  { split; [apply Z.pow_pos_nonneg; lia|]. apply Z.pow_lt_mono_r; lia. }
  unfold IS_ONLY_ONE_BIT_IN_UINT32. rewrite !(u32_small (2 ^ b)), (u32_small (2 ^ b - 1)) by lia.
  destruct (Z.eqb_spec (2 ^ b) 0); [lia|]. apply Z.eqb_eq. rewrite Z.sub_1_r, <- Z.ones_equiv, Z.land_ones by lia.
  apply Z.mod_same. lia.
Qed.

Lemma land_pow2 x b : 0 <= b -> Z.land x (2 ^ b) = 0 <-> Z.testbit x b = false.
Proof.
  intros Hb. split; intros H.
  - assert (E : Z.testbit (Z.land x (2 ^ b)) b = false) by by rewrite H, Z.bits_0.
    rewrite Z.land_spec, Z.pow2_bits_true in E by done. by rewrite andb_true_r in E.
  - apply Z.bits_inj'. intros n Hn. rewrite Z.land_spec, Z.pow2_bits_eqb, Z.bits_0 by done.
    destruct (Z.eqb_spec b n) as [<-|]; [by rewrite H|apply andb_false_r].
Qed.

Lemma has_bit x b : 0 <= b -> Z.land x (2 ^ b) <> 0 <-> Z.testbit x b = true.
Proof. intros Hb. rewrite land_pow2 by done. destruct (Z.testbit x b); split; done. Qed.

Lemma clear_bits_spec x y b : 0 <= b < 32 ->
  Z.testbit (clear_bits x y) b = Z.testbit x b && negb (Z.testbit y b).
Proof.
  intros Hb. unfold clear_bits. rewrite Z.land_spec, Z.lxor_spec.
  change UINT32_MAX with (Z.ones 32). rewrite Z.ones_spec_low by lia.
  unfold u32. rewrite Z.mod_pow2_bits_low by lia. by destruct (Z.testbit y b).
Qed.

Lemma pow2_bit b b' : 0 <= b -> Z.testbit (2 ^ b) b' = (b =? b').
Proof. intros H. by rewrite Z.pow2_bits_eqb. Qed.

Section Inv.
Context {W : Type} (cfg : spm_config).
Local Abbreviation st := (spm W).

Definition static_at (p : Z) : option partition_static_t :=
  if p <? 0 then None else static_data_list cfg !! Z.to_nat p.
Definition service_at (j : Z) : option tfm_spm_service_db_t :=
  if j <? 0 then None else service_db_list cfg !! Z.to_nat j.

(** The partition a service belongs to. *)
Definition owner_of (db : tfm_spm_service_db_t) : Z :=
  match find_index (fun stat => pid stat =? db_partition_id db) 0 (static_data_list cfg) with
  | Some p => p
  | None => -1
  end.

Definition conn_chunks : list Z :=
  all_chunks (conn_handle_pool cfg) (sizeof_conn_handle cfg) TFM_CONN_HANDLE_MAX_NUM.

(** What the generated tables and the linker provide: a single-core build
    whose partitions and services are consistent, with one signal per service
    and interrupt of a partition. *)
Record spm_cfg_ok : Prop := {
  cf_single : TFM_MULTI_CORE_TOPOLOGY cfg = false;
  cf_pool : pool_cfg ChunksList ChunkNode chunk_of (conn_handle_pool cfg)
              (sizeof_conn_handle cfg) TFM_CONN_HANDLE_MAX_NUM;
  cf_small : (sizeof_conn_handle cfg + sizeof_pool_chunk) * TFM_CONN_HANDLE_MAX_NUM
               + sizeof_pool_instance < 2 ^ 27 - 1;
  cf_pids : NoDup (map pid (static_data_list cfg));
  cf_pid : forall p stat, static_at p = Some stat -> 0 <= pid stat < 2 ^ 31;
  cf_owner : forall j db, service_at j = Some db -> is_Some (static_at (owner_of db));
  cf_signal : forall j db, service_at j = Some db -> one_bit (db_signal db);
  cf_doorbell : forall j db, service_at j = Some db -> db_signal db <> PSA_DOORBELL;
  cf_distinct : forall i j db db', service_at i = Some db -> service_at j = Some db' ->
    owner_of db = owner_of db' -> db_signal db = db_signal db' -> i = j;
  cf_irq : forall q j db stat, q ∈ tfm_core_irq_signals cfg -> service_at j = Some db ->
    static_at (owner_of db) = Some stat -> irq_partition_id q = pid stat ->
    signal_value q <> db_signal db;
  cf_irq_bit : forall q, q ∈ tfm_core_irq_signals cfg -> one_bit (signal_value q)
}.

(** ** The parts of the invariant *)
Record tables_ok (s : st) : Prop := {
  tb_static : forall p stat, static_at p = Some stat -> p_static (partitions s p) = stat;
  tb_service : forall j db, service_at j = Some db ->
    services s j = {| service_db := db; partition := Some (owner_of db) |};
  tb_stateless : forall x j, stateless_service_ref s x = Some j -> is_Some (service_at j);
  tb_inst : pool_instance s =
    {| chunksz := sizeof_conn_handle cfg; chunk_count := TFM_CONN_HANDLE_MAX_NUM |}
}.

Record lists_ok (n : links node) (v : view) : Prop := {
  ls_free : pool_ok ChunksList ChunkNode (conn_handle_pool cfg) (sizeof_conn_handle cfg)
              TFM_CONN_HANDLE_MAX_NUM n (free v);
  ls_hlist : forall j, is_Some (service_at j) -> bi_list n (HandleList j) (map HandleNode (hlist v j));
  ls_queue : forall p, is_Some (static_at p) -> bi_list n (MsgList p) (map MsgNode (queue v p))
}.

Definition opened (v : view) (c : Z) : Prop := exists j, is_Some (service_at j) /\ c ∈ hlist v j.

Record conns_ok (cs : Z -> tfm_conn_handle_t) (v : view) : Prop := {
  co_hlist : forall j c, is_Some (service_at j) -> c ∈ hlist v j ->
    c ∈ conn_chunks /\ c ∉ free v /\ conn_service (cs c) = Some j;
  co_all : forall c, c ∈ conn_chunks -> c ∈ free v \/ opened v c;
  co_magic : forall c, c ∈ conn_chunks -> magic (internal_msg (cs c)) = TFM_MSG_MAGIC ->
    opened v c /\ msg_service (internal_msg (cs c)) = conn_service (cs c);
  co_pending : forall c, c ∈ pending v -> opened v c /\ magic (internal_msg (cs c)) = TFM_MSG_MAGIC;
  co_queue : forall p c, is_Some (static_at p) -> c ∈ queue v p -> c ∈ pending v /\
    exists j db, conn_service (cs c) = Some j /\ service_at j = Some db /\ owner_of db = p
}.

(** A service signal is asserted exactly when a message for it is queued. *)
Definition signals_ok (ps : Z -> partition_t) (cs : Z -> tfm_conn_handle_t) (v : view) : Prop :=
  forall j db, service_at j = Some db ->
    Z.land (signals_asserted (ps (owner_of db))) (db_signal db) <> 0 <->
    exists c, c ∈ queue v (owner_of db) /\ conn_service (cs c) = Some j.

(** The client a thread makes its calls for. *)
Definition client_of (p : Z) : option Z :=
  match static_at p with
  | Some stat => Some (if pid stat =? TFM_SP_NON_SECURE_ID then tfm_nspm_get_current_client_id else pid stat)
  | None => None
  end.

Definition blocked (sc : sched) (k : Z) : Prop := state (thrds sc k) = THRD_STATE_BLOCK.

Record events_ok (ps : Z -> partition_t) (cs : Z -> tfm_conn_handle_t) (sc : sched) (v : view) : Prop := {
  ev_part : forall p, is_Some (static_at p) -> evnt_magic (event (ps p)) = TFM_EVENT_MAGIC /\
    forall k, owner (event (ps p)) = Some k -> k = p /\ blocked sc p /\
      forall c, c ∈ pending v -> owner (ack_evnt (internal_msg (cs c))) <> Some p;
  ev_pend : forall c, c ∈ pending v -> evnt_magic (ack_evnt (internal_msg (cs c))) = TFM_EVENT_MAGIC /\
    exists k, owner (ack_evnt (internal_msg (cs c))) = Some k /\ is_Some (static_at k) /\ blocked sc k /\
      client_of k = Some (client_id (cs c));
  ev_inj : forall c c' , c ∈ pending v -> c' ∈ pending v ->
    owner (ack_evnt (internal_msg (cs c))) = owner (ack_evnt (internal_msg (cs c'))) -> c = c'
}.

Record threads_ok (sc : sched) (v : view) : Prop := {
  th_sched : sched_ok (partition_count cfg) sc (order v);
  th_order : forall k, k ∈ order v <-> is_Some (static_at k);
  th_curr : exists r, p_curr_thrd sc = Some r /\ is_Some (static_at r)
}.

Record spm_ok (s : st) (v : view) : Prop := {
  so_tables : tables_ok s;
  so_lists : lists_ok (nodes s) v;
  so_conns : conns_ok (conns s) v;
  so_signals : signals_ok (partitions s) (conns s) v;
  so_events : events_ok (partitions s) (conns s) (scheduler s) v;
  so_threads : threads_ok (scheduler s) v
}.

(** The thread that makes a system call. *)
Definition running (s : st) (r : Z) : Prop :=
  p_curr_thrd (scheduler s) = Some r /\ is_Some (static_at r) /\ runnable (scheduler s) r = true.
End Inv.

(** * Secure Partition Manager: the invariant across connection handles

    Frame lemmas of the invariant, and how opening and closing a connection
    and filling its message move it. *)

Lemma upd_eq {A} k (x : A) f : upd k x f k = x.
Proof. unfold upd. by rewrite Z.eqb_refl. Qed.
Lemma upd_ne {A} k (x : A) f i : i <> k -> upd k x f i = f i.
Proof. intros H. unfold upd. by destruct (Z.eqb_spec i k). Qed.

(** Removing one element. *)
Definition drop (c : Z) (l : list Z) : list Z := List.filter (fun x => negb (x =? c)) l.

Lemma in_drop c x l : x ∈ drop c l <-> x ∈ l /\ x <> c.
Proof.
  unfold drop. rewrite !list_elem_of_In, filter_In, negb_true_iff, Z.eqb_neq. done.
Qed.

Lemma drop_split c l1 l2 : c ∉ l1 -> c ∉ l2 -> drop c (l1 ++ c :: l2) = l1 ++ l2.
Proof.
  intros H1 H2. unfold drop. rewrite List.filter_app. cbn [List.filter]. rewrite Z.eqb_refl. cbn [negb].
  assert (E : forall l, c ∉ l -> List.filter (fun x => negb (x =? c)) l = l).
  { induction l as [|x l IH]; intros H; [done|]. cbn [List.filter].
    destruct (Z.eqb_spec x c) as [->|_]; [set_solver|]. cbn [negb]. f_equal. apply IH. set_solver. }
  by rewrite !E.
Qed.

Lemma in_map_node {K} (f : Z -> K) x l : (forall a b, f a = f b -> a = b) -> f x ∈ map f l <-> x ∈ l.
Proof.
  intros Hf. rewrite !list_elem_of_In, in_map_iff. split.
  - by intros (e & He%Hf & Hin); subst.
  - intros H. by exists x.
Qed.

(** The same connections but for the data of their messages. *)
Definition conn_same (h h' : tfm_conn_handle_t) : Prop :=
  client_id h' = client_id h /\ conn_service h' = conn_service h /\
  magic (internal_msg h') = magic (internal_msg h) /\
  msg_service (internal_msg h') = msg_service (internal_msg h) /\
  ack_evnt (internal_msg h') = ack_evnt (internal_msg h).
(** The same partitions but for the signals they wait for or are allowed. *)
Definition part_same (q q' : partition_t) : Prop :=
  p_static q' = p_static q /\ event q' = event q /\ signals_asserted q' = signals_asserted q.

Section Frames.
Context {W : Type} (cfg : spm_config).
Local Abbreviation st := (spm W).

Lemma conns_ok_same cs cs' v : (forall c, conn_same (cs c) (cs' c)) -> conns_ok cfg cs v -> conns_ok cfg cs' v.
Proof.
  intros H [H1 H2 H3 H4 H5]. split.
  - intros j c Hj Hc. destruct (H c) as (_ & -> & _). by apply H1.
  - done.
  - intros c Hc. destruct (H c) as (_ & -> & -> & -> & _). by apply H3.
  - intros c Hc. destruct (H c) as (_ & _ & -> & _). by apply H4.
  - intros p c Hp Hc. destruct (H c) as (_ & -> & _). by apply H5.
Qed.

(** Only the queued connections, and only those with a pending message, matter. *)
Lemma signals_ok_same ps ps' cs cs' v : (forall p, signals_asserted (ps' p) = signals_asserted (ps p)) ->
  (forall j db c, service_at cfg j = Some db -> c ∈ queue v (owner_of cfg db) ->
     conn_service (cs' c) = conn_service (cs c)) ->
  signals_ok cfg ps cs v -> signals_ok cfg ps' cs' v.
Proof.
  intros Hp Hc H j db Hj. rewrite Hp, (H j db Hj). split; intros (c & Hq & Hs); exists c; (split; [done|]);
    [by rewrite (Hc j db)|by rewrite <- (Hc j db)].
Qed.

Lemma events_ok_same ps ps' cs cs' sc sc' v : (forall p, event (ps' p) = event (ps p)) ->
  (forall c, c ∈ pending v -> conn_same (cs c) (cs' c)) -> (forall k, state (thrds sc' k) = state (thrds sc k)) ->
  events_ok cfg ps cs sc v -> events_ok cfg ps' cs' sc' v.
Proof.
  intros Hp Hc Hs [H1 H2 H3]. split.
  - intros p Hp'. rewrite Hp. destruct (H1 p Hp') as [Hm Ho]. split; [done|]. intros k Hk.
    destruct (Ho k Hk) as (-> & Hb & Hn). split; [done|]. split; [by unfold blocked; rewrite Hs|].
    intros c Hcv. destruct (Hc c Hcv) as (_ & _ & _ & _ & ->). by apply Hn.
  - intros c Hcv. destruct (Hc c Hcv) as (-> & _ & _ & _ & ->).
    destruct (H2 c Hcv) as (Hm & k & Hk & Hr & Hb & Hcl).
    split; [done|]. exists k. split; [done|]. split; [done|]. split; [by unfold blocked; rewrite Hs|done].
  - intros c c' Hcv Hcv'.
    destruct (Hc c Hcv) as (_ & _ & _ & _ & ->), (Hc c' Hcv') as (_ & _ & _ & _ & ->). by apply H3.
Qed.

Lemma events_ok_view v v' ps cs sc : pending v' = pending v -> events_ok cfg ps cs sc v -> events_ok cfg ps cs sc v'.
Proof. intros E [H1 H2 H3]. split; by rewrite E. Qed.

Lemma threads_ok_view v v' sc : order v' = order v -> threads_ok cfg sc v -> threads_ok cfg sc v'.
Proof. intros E [H1 H2 H3]. split; by rewrite ?E. Qed.

Lemma tables_ok_same (s s' : st) : (forall p, p_static (partitions s' p) = p_static (partitions s p)) ->
  pool_instance s' = pool_instance s -> services s' = services s ->
  stateless_service_ref s' = stateless_service_ref s -> tables_ok cfg s -> tables_ok cfg s'.
Proof.
  intros Hp Ei Es Et [T1 T2 T3 T4]. split; [|by rewrite Es|by rewrite Et|by rewrite Ei].
  intros p stat Hst. rewrite Hp. by apply T1.
Qed.

Lemma conn_same_refl h : conn_same h h.
Proof. by repeat split. Qed.

(** The parts of the state the invariant does not see. *)
Lemma spm_ok_frame (s s' : st) v : spm_ok cfg s v -> nodes s' = nodes s -> pool_instance s' = pool_instance s ->
  services s' = services s -> stateless_service_ref s' = stateless_service_ref s -> scheduler s' = scheduler s ->
  (forall c, conn_same (conns s c) (conns s' c)) -> (forall p, part_same (partitions s p) (partitions s' p)) ->
  spm_ok cfg s' v.
Proof.
  intros [[T1 T2 T3 T4] HL HC HS HE HT] En Ei Es Et Esc Hc Hp.
  assert (Hcs : forall c, conn_service (conns s' c) = conn_service (conns s c)) by (intros c; apply Hc).
  assert (Hpa : forall p, signals_asserted (partitions s' p) = signals_asserted (partitions s p))
    by (intros p; apply Hp).
  assert (Hpe : forall p, event (partitions s' p) = event (partitions s p)) by (intros p; apply Hp).
  split.
  - split; [|by rewrite Es|by rewrite Et|by rewrite Ei].
    intros p stat Hst. destruct (Hp p) as [-> _]. by apply T1.
  - by rewrite En.
  - by apply (conns_ok_same (conns s)).
  - apply (signals_ok_same (partitions s) _ (conns s)); [done|by intros ????|done].
  - rewrite Esc. by apply (events_ok_same (partitions s) _ (conns s) _ (scheduler s)).
  - by rewrite Esc.
Qed.

Lemma on_conn_ok c f (s : st) v : (forall h, conn_same h (f h)) -> spm_ok cfg s v -> spm_ok cfg (on_conn c f s) v.
Proof.
  intros Hf H. apply (spm_ok_frame s); try done.
  intros c'. cbn. destruct (Z.eq_dec c' c) as [->|Hn]; [rewrite upd_eq; apply Hf|by rewrite upd_ne].
Qed.

Lemma on_partition_ok p f (s : st) v : (forall q, part_same q (f q)) -> spm_ok cfg s v ->
  spm_ok cfg (on_partition p f s) v.
Proof.
  intros Hf H. apply (spm_ok_frame s); try done.
  intros c'. cbn. destruct (Z.eq_dec c' p) as [->|Hn]; [rewrite upd_eq; apply Hf|by rewrite upd_ne].
Qed.

(** ** Messages that are no longer pending *)
Definition view_drop (c : Z) (v : view) : view :=
  {| free := free v; hlist := hlist v; queue := queue v; pending := drop c (pending v); order := order v |}.

Lemma drop_ok c (s : st) v : (forall p, is_Some (static_at cfg p) -> c ∉ queue v p) ->
  spm_ok cfg s v -> spm_ok cfg s (view_drop c v).
Proof.
  intros Hq [HT [L1 L2 L3] [C1 C2 C3 C4 C5] HS [E1 E2 E3] [T1 T2 T3]]. split; [done|done| |done| |done].
  - split; [done|done|done| |].
    + intros c' [Hc' _]%in_drop. by apply C4.
    + intros p c' Hp Hc'. destruct (C5 p c' Hp Hc') as [Hpd Hs]. split; [|done]. apply in_drop.
      split; [done|]. intros ->. by apply (Hq p).
  - split.
    + intros p Hp. destruct (E1 p Hp) as [Hm Ho]. split; [done|]. intros k Hk.
      destruct (Ho k Hk) as (H1 & H2 & H3). split; [done|]. split; [done|].
      intros c' [Hc' _]%in_drop. by apply H3.
    + intros c' [Hc' _]%in_drop. by apply E2.
    + intros c1 c2 [H1 _]%in_drop [H2 _]%in_drop. by apply E3.
Qed.
End Frames.

(** ** The node lists *)
Section Lists.
Context (cfg : spm_config).

(** Which of the three families of lists a node belongs to. *)
Definition kind (k : node) : Z :=
  match k with
  | ChunksList | ChunkNode _ => 0
  | MsgList _ | MsgNode _ => 1
  | HandleList _ | HandleNode _ => 2
  end.

Definition set_free (l : list Z) (v : view) : view :=
  {| free := l; hlist := hlist v; queue := queue v; pending := pending v; order := order v |}.
Definition set_hlist (j : Z) (l : list Z) (v : view) : view :=
  {| free := free v; hlist := upd j l (hlist v); queue := queue v; pending := pending v; order := order v |}.
Definition set_queue (p : Z) (l : list Z) (v : view) : view :=
  {| free := free v; hlist := hlist v; queue := upd p l (queue v); pending := pending v; order := order v |}.
Definition set_pending (l : list Z) (v : view) : view :=
  {| free := free v; hlist := hlist v; queue := queue v; pending := l; order := order v |}.

Lemma bi_list_other (n n' : links node) d h l : same_but d n n' -> (forall k, k ∈ h :: l -> k ∉ d) ->
  bi_list n h l -> bi_list n' h l.
Proof. intros H Hd. apply bi_list_ext. right. intros k Hk. apply H, Hd. set_solver. Qed.

Lemma kind_map a (f : Z -> node) h l : kind h = a -> (forall x, kind (f x) = a) ->
  forall k, k ∈ h :: map f l -> kind k = a.
Proof.
  intros Hh Hf k. rewrite elem_of_cons, list_elem_of_In, in_map_iff. intros [->|(x & <- & _)]; auto.
Qed.

Lemma bi_list_kind (n n' : links node) a d h l : same_but d n n' -> (forall k, k ∈ d -> kind k = a) ->
  (forall k, k ∈ h :: l -> kind k <> a) -> bi_list n h l -> bi_list n' h l.
Proof. intros H Hd Hl. apply (bi_list_other n n' d); [done|]. intros k Hk Hk'. by apply (Hl k Hk), Hd. Qed.

Lemma chunks_kind l k : k ∈ ChunksList :: map ChunkNode l -> kind k = 0.
Proof. by apply kind_map. Qed.
Lemma msgs_kind p l k : k ∈ MsgList p :: map MsgNode l -> kind k = 1.
Proof. by apply kind_map. Qed.
Lemma handles_kind j l k : k ∈ HandleList j :: map HandleNode l -> kind k = 2.
Proof. by apply kind_map. Qed.

(** Two lists of the same kind have no node in common when they have different
    heads and no common element. *)
Lemma lists_apart (head node_ : Z -> node) (i j : Z) (l l' : list Z) k :
  (forall a b, head a <> node_ b) -> (forall a b, head a = head b -> a = b) ->
  (forall a b, node_ a = node_ b -> a = b) -> i <> j -> (forall c, c ∈ l -> c ∉ l') ->
  k ∈ head i :: map node_ l -> k ∉ head j :: map node_ l'.
Proof.
  intros H1 H2 H3 Hij Hd. rewrite !elem_of_cons, !list_elem_of_In, !in_map_iff.
  intros [->|(x & <- & Hx)] [E|(y & E & Hy)].
  - by apply H2 in E.
  - by apply (H1 i y).
  - by apply (H1 j x).
  - apply H3 in E as ->. apply (Hd x); by rewrite list_elem_of_In.
Qed.

Lemma lists_pool n n' v l d : lists_ok cfg n v ->
  pool_ok ChunksList ChunkNode (conn_handle_pool cfg) (sizeof_conn_handle cfg) TFM_CONN_HANDLE_MAX_NUM n' l ->
  same_but d n n' -> (forall k, k ∈ d -> kind k = 0) -> lists_ok cfg n' (set_free l v).
Proof.
  intros [_ H2 H3] Hp Hs Hd. split; [done| |].
  - intros j Hj. apply (bi_list_kind n n' 0 d); [done|done| |by apply H2].
    intros k Hk%handles_kind. by rewrite Hk.
  - intros p Hp'. apply (bi_list_kind n n' 0 d); [done|done| |by apply H3].
    intros k Hk%msgs_kind. by rewrite Hk.
Qed.

Lemma pool_ok_kind n n' a d l : same_but d n n' -> (forall k, k ∈ d -> kind k = a) -> a <> 0 ->
  pool_ok ChunksList ChunkNode (conn_handle_pool cfg) (sizeof_conn_handle cfg) TFM_CONN_HANDLE_MAX_NUM n l ->
  pool_ok ChunksList ChunkNode (conn_handle_pool cfg) (sizeof_conn_handle cfg) TFM_CONN_HANDLE_MAX_NUM n' l.
Proof.
  intros Hs Hd Ha [H1 H2]. split; [|done]. apply (bi_list_kind n n' a d); [done|done| |done].
  intros k Hk%chunks_kind. by rewrite Hk.
Qed.

(** [d]: the nodes that changed, those of the list and possibly one more. *)
Lemma lists_handle n n' v j l l0 : lists_ok cfg n v ->
  bi_list n' (HandleList j) (map HandleNode l) -> same_but (HandleList j :: map HandleNode l0) n n' ->
  (forall i c, is_Some (service_at cfg i) -> i <> j -> c ∈ hlist v i -> c ∉ l0) ->
  lists_ok cfg n' (set_hlist j l v).
Proof.
  intros [H1 H2 H3] Hl Hs Hd. split.
  - apply (pool_ok_kind n n' 2 (HandleList j :: map HandleNode l0)); [done| |done|done].
    intros k. apply handles_kind.
  - intros i Hi. cbn. destruct (Z.eq_dec i j) as [->|Hn]; [by rewrite upd_eq|]. rewrite upd_ne by done.
    apply (bi_list_other n n' (HandleList j :: map HandleNode l0)); [done| |by apply H2].
    intros k. apply lists_apart; [done|by intros ?? [=]|by intros ?? [=]|done|].
    intros c. by apply Hd.
  - intros p Hp. apply (bi_list_kind n n' 2 (HandleList j :: map HandleNode l0)); [done| | |by apply H3].
    + intros k. apply handles_kind.
    + intros k Hk%msgs_kind. by rewrite Hk.
Qed.

Lemma lists_queue n n' v p l l0 : lists_ok cfg n v ->
  bi_list n' (MsgList p) (map MsgNode l) -> same_but (MsgList p :: map MsgNode l0) n n' ->
  (forall i c, is_Some (static_at cfg i) -> i <> p -> c ∈ queue v i -> c ∉ l0) ->
  lists_ok cfg n' (set_queue p l v).
Proof.
  intros [H1 H2 H3] Hl Hs Hd. split.
  - apply (pool_ok_kind n n' 1 (MsgList p :: map MsgNode l0)); [done| |done|done].
    intros k. apply msgs_kind.
  - intros j Hj. apply (bi_list_kind n n' 1 (MsgList p :: map MsgNode l0)); [done| | |by apply H2].
    + intros k. apply msgs_kind.
    + intros k Hk%handles_kind. by rewrite Hk.
  - intros i Hi. cbn. destruct (Z.eq_dec i p) as [->|Hn]; [by rewrite upd_eq|]. rewrite upd_ne by done.
    apply (bi_list_other n n' (MsgList p :: map MsgNode l0)); [done| |by apply H3].
    intros k. apply lists_apart; [done|by intros ?? [=]|by intros ?? [=]|done|].
    intros c. by apply Hd.
Qed.

(** Clearing the message node of a connection that is in no queue. *)
Lemma lists_msg_node n v c x : lists_ok cfg n v -> (forall p, is_Some (static_at cfg p) -> c ∉ queue v p) ->
  lists_ok cfg (fun k => if bool_decide (k = MsgNode c) then x else n k) v.
Proof.
  intros [H1 H2 H3] Hq.
  assert (Hs : same_but [MsgNode c] n (fun k => if bool_decide (k = MsgNode c) then x else n k)).
  { intros k Hk. rewrite bool_decide_eq_false_2; [done|]. set_solver. }
  assert (Hk : forall k, k ∈ [MsgNode c] -> kind k = 1) by by intros k ->%list_elem_of_singleton.
  split.
  - by apply (pool_ok_kind n _ 1 [MsgNode c]).
  - intros j Hj. apply (bi_list_kind n _ 1 [MsgNode c]); [done|done| |by apply H2].
    intros k Hk'%handles_kind. by rewrite Hk'.
  - intros p Hp. apply (bi_list_other n _ [MsgNode c]); [done| |by apply H3].
    intros k. rewrite elem_of_cons, list_elem_of_In, in_map_iff, list_elem_of_singleton.
    intros [->|(y & <- & Hy)]; [done|]. intros [= ->]. apply (Hq p Hp). by rewrite list_elem_of_In.
Qed.
End Lists.

(** ** Opening, closing, filling *)
Section Conns.
Context {W : Type} (cfg : spm_config) (rpc_ops : tfm_rpc_ops_t W) (Hcfg : spm_cfg_ok cfg).
Local Abbreviation st := (spm W).

Lemma set_nodes_same (s : st) : set_nodes (nodes s) s = s.
Proof. by destruct s. Qed.

Lemma swp_on_nodes f (s : st) n (Q : unit -> st -> Prop) P :
  f (nodes s) = Some n -> Q tt (set_nodes n s) -> swp (on_nodes f) s Q P.
Proof. intros H HQ. unfold on_nodes. swp_steps. apply (swp_deref _ n); [done|]. by swp_steps. Qed.

Lemma free_not_opened cs v c : conns_ok cfg cs v -> c ∈ free v -> ~ opened cfg v c.
Proof. intros HC Hf (j & Hj & Hc). by destruct (co_hlist _ _ _ HC j c Hj Hc) as (_ & Hn & _). Qed.

Lemma pending_not_free cs v c : conns_ok cfg cs v -> c ∈ pending v -> c ∉ free v.
Proof. intros HC Hp Hf. apply (free_not_opened cs v c HC Hf). by apply (co_pending _ _ _ HC). Qed.

Lemma opened_chunk cs v c : conns_ok cfg cs v -> opened cfg v c -> c ∈ conn_chunks cfg.
Proof. intros HC (j & Hj & Hc). by apply (co_hlist _ _ _ HC j c). Qed.

Lemma opened_service cs v c : conns_ok cfg cs v -> opened cfg v c ->
  exists j db, conn_service (cs c) = Some j /\ service_at cfg j = Some db /\ c ∈ hlist v j.
Proof.
  intros HC (j & [db Hj] & Hc). exists j, db. split; [|done]. by apply (co_hlist _ _ _ HC j c); [rewrite Hj|].
Qed.

(** Lists of different services have no connection in common. *)
Lemma hlist_apart cs v i j c : conns_ok cfg cs v -> is_Some (service_at cfg i) -> is_Some (service_at cfg j) ->
  i <> j -> c ∈ hlist v i -> c ∉ hlist v j.
Proof.
  intros HC Hi Hj Hij Hc Hc'. destruct (co_hlist _ _ _ HC i c Hi Hc) as (_ & _ & E).
  destruct (co_hlist _ _ _ HC j c Hj Hc') as (_ & _ & E'). congruence.
Qed.

Lemma queue_apart cs v i p c : conns_ok cfg cs v -> is_Some (static_at cfg i) -> is_Some (static_at cfg p) ->
  i <> p -> c ∈ queue v i -> c ∉ queue v p.
Proof.
  intros HC Hi Hj Hij Hc Hc'. destruct (co_queue _ _ _ HC i c Hi Hc) as (_ & a & db & E & Ed & Eo).
  destruct (co_queue _ _ _ HC p c Hj Hc') as (_ & a' & db' & E' & Ed' & Eo'). congruence.
Qed.

(** [c] becomes a connection of service [j]. *)
Definition view_open (j c : Z) (fr : list Z) (v : view) : view :=
  set_hlist j (hlist v j ++ [c]) (set_free fr v).

Lemma conns_ok_open cs v j c fr cid : conns_ok cfg cs v -> free v = c :: fr -> c ∉ fr -> c ∈ conn_chunks cfg ->
  is_Some (service_at cfg j) ->
  conns_ok cfg (upd c (set_opened j cid (cs c)) cs) (view_open j c fr v).
Proof.
  intros HC Ef Hnd Hch Hj. assert (Hcf : c ∈ free v) by (rewrite Ef; set_solver +).
  pose proof (free_not_opened _ _ _ HC Hcf) as Hno.
  assert (Hne : forall c', opened cfg v c' -> c' <> c) by (intros c' Hc' ->; done).
  assert (Hop : forall c', opened cfg v c' -> opened cfg (view_open j c fr v) c').
  { intros c' (i & Hi & Hc'). exists i. split; [done|]. cbn. destruct (Z.eq_dec i j) as [->|Hn];
      [rewrite upd_eq; set_solver + Hc'|by rewrite upd_ne]. }
  destruct HC as [C1 C2 C3 C4 C5]. split.
  - intros i c' Hi. cbn. assert (Hold : c' ∈ hlist v i -> c' ∈ conn_chunks cfg /\ c' ∉ fr /\
        conn_service (upd c (set_opened j cid (cs c)) cs c') = Some i).
    { intros Hc'. destruct (C1 i c' Hi Hc') as (H1 & H2 & H3). rewrite Ef in H2.
      rewrite upd_ne by (apply Hne; by exists i). split; [done|]. split; [set_solver + H2|done]. }
    destruct (Z.eq_dec i j) as [->|Hn]; [|by rewrite upd_ne]. rewrite upd_eq.
    intros [Hc'| ->%list_elem_of_singleton]%elem_of_app; [by apply Hold|]. by rewrite upd_eq.
  - intros c' Hc'. cbn. destruct (Z.eq_dec c' c) as [->|Hn].
    + right. exists j. split; [done|]. cbn. rewrite upd_eq. set_solver +.
    + destruct (C2 c' Hc') as [Hf|Ho]; [left|right; by apply Hop]. rewrite Ef in Hf. set_solver + Hf Hn.
  - intros c' Hc'. destruct (Z.eq_dec c' c) as [->|Hn].
    + rewrite upd_eq. intros Hm. by destruct (C3 c Hc' Hm).
    + rewrite upd_ne by done. intros Hm. destruct (C3 c' Hc' Hm). split; [by apply Hop|done].
  - intros c' Hc'. destruct (C4 c' Hc') as [Ho Hm]. rewrite upd_ne by by apply Hne. split; [by apply Hop|done].
  - intros p c' Hp Hc'. destruct (C5 p c' Hp Hc') as [Hpd Hs]. split; [done|].
    rewrite upd_ne; [done|]. apply Hne. by apply C4.
Qed.

(** The other parts do not look at a free chunk. *)
Lemma signals_ok_free ps cs v c h : conns_ok cfg cs v -> ~ c ∈ pending v -> signals_ok cfg ps cs v ->
  signals_ok cfg ps (upd c h cs) v.
Proof using Hcfg.
  intros HC Hc. apply signals_ok_same; [done|]. intros j db c' Hj Hq. rewrite upd_ne; [done|]. intros ->.
  apply Hc. by apply (co_queue _ _ _ HC (owner_of cfg db)); [apply (cf_owner _ Hcfg j)|].
Qed.

Lemma events_ok_free ps cs sc v c h : ~ c ∈ pending v -> events_ok cfg ps cs sc v ->
  events_ok cfg ps (upd c h cs) sc v.
Proof.
  intros Hc. apply events_ok_same; [done| |done]. intros c' Hc'.
  rewrite upd_ne by by intros ->. apply conn_same_refl.
Qed.

(** The first free chunk becomes a connection of the service. *)
Lemma create_spec (s : st) v j cid (Q : option Z -> st -> Prop) P :
  spm_ok cfg s v -> is_Some (service_at cfg j) ->
  match free v with
  | [] => Q None s
  | c :: fr => forall n, spm_ok cfg (set_nodes n (on_conn c (set_opened j cid) s))
        (view_open j c fr v) ->
      Q (Some c) (set_nodes n (on_conn c (set_opened j cid) s))
  end ->
  swp (tfm_spm_create_conn_handle cfg (Some j) cid) s Q P.
Proof using Hcfg.
  intros HO Hj HQ. pose proof HO as [HT HL HC HS HE HTh]. unfold tfm_spm_create_conn_handle. swp_steps.
  apply swp_assert; [intros _|done]. swp_steps. apply (swp_deref _ j); [done|]. swp_steps.
  pose proof (pool_alloc_spec ChunksList ChunkNode chunk_of (conn_handle_pool cfg) _ _ (cf_pool _ Hcfg)
    (nodes s) (free v) (ls_free _ _ _ HL)) as Ha.
  destruct (free v) as [|c fr] eqn:Ef.
  { rewrite Ha. apply (swp_deref _ (None, nodes s)); [done|]. swp_steps. by rewrite set_nodes_same. }
  destruct Ha as (n1 & -> & Hp1 & Hs1). apply (swp_deref _ (Some c, n1)); [done|]. swp_steps.
  assert (Hcf : c ∈ free v) by (rewrite Ef; set_solver +).
  assert (Hnd : c ∉ fr).
  { pose proof (ls_free _ _ _ HL) as [[Hnd _] _]. rewrite Ef in Hnd.
    apply NoDup_cons in Hnd as [_ Hnd]. apply NoDup_cons in Hnd as [Hnd _].
    by rewrite in_map_node in Hnd by by intros ?? [=]. }
  pose proof (free_not_opened _ _ _ HC Hcf) as Hno.
  assert (Hpd : ~ c ∈ pending v) by (intros Hpd; by apply (pending_not_free _ _ _ HC Hpd)).
  assert (Hch : c ∈ conn_chunks cfg) by by apply (ls_free _ _ _ HL).
  assert (HL1 : lists_ok cfg n1 (set_free fr v)).
  { apply (lists_pool cfg (nodes s) n1 v fr (ChunksList :: map ChunkNode fr)); [done|done|done|].
    apply chunks_kind. }
  destruct (insert_before_spec n1 (HandleList j) _ (HandleNode c) (ls_hlist _ _ _ HL1 j Hj)) as (n2 & E2 & Hl2 & Hs2).
  { rewrite elem_of_cons, in_map_node by by intros ?? [=]. intros [|Hin]; [done|]. apply Hno. by exists j. }
  apply (swp_on_nodes _ _ n2); [exact E2|]. swp_steps. apply HQ.
  split; [by apply (tables_ok_same cfg s)| | | | |by apply (threads_ok_view cfg v)].
  - apply (lists_handle cfg n1 n2 (set_free fr v) j _ (c :: hlist v j)); [done| | |].
    + by rewrite map_app.
    + intros k Hk. apply Hs2. cbn [map hlist set_free] in *. set_solver + Hk.
    + cbn. intros i c' Hi Hij Hc' Hin. apply elem_of_cons in Hin as [->|Hin].
      * apply Hno. by exists i.
      * by apply (hlist_apart _ _ _ _ _ HC Hi Hj Hij Hc').
  - by apply (conns_ok_open (conns s) v).
  - by apply (signals_ok_free _ (conns s) v).
  - apply (events_ok_view cfg v); [done|]. by apply events_ok_free.
Qed.

(** ** Closing *)
Definition view_close (j c : Z) (v : view) : view :=
  set_hlist j (drop c (hlist v j)) (set_free (free v ++ [c]) v).

Definition clear_magic (h : tfm_conn_handle_t) : tfm_conn_handle_t :=
  set_internal_msg (set_magic 0 (internal_msg h)) h.

Lemma conns_ok_close cs v j c : conns_ok cfg cs v -> is_Some (service_at cfg j) -> c ∈ hlist v j ->
  c ∉ pending v -> conns_ok cfg (upd c (clear_magic (cs c)) cs) (view_close j c v).
Proof.
  intros HC Hj Hc Hpd. pose proof HC as [C1 C2 C3 C4 C5].
  assert (Hop : forall c', opened cfg v c' -> c' <> c -> opened cfg (view_close j c v) c').
  { intros c' (i & Hi & Hc') Hn. exists i. split; [done|]. cbn. destruct (Z.eq_dec i j) as [->|Hn'];
      [rewrite upd_eq; by apply in_drop|by rewrite upd_ne]. }
  split.
  - intros i c' Hi Hc'.
    assert (Hold : c' ∈ hlist v i /\ c' <> c).
    { cbn in Hc'. destruct (Z.eq_dec i j) as [->|Hn]; [by rewrite upd_eq, in_drop in Hc'|].
      rewrite upd_ne in Hc' by done. split; [done|]. intros ->. by apply (hlist_apart cs v i j c). }
    destruct Hold as [Hci Hn]. destruct (C1 i c' Hi Hci) as (H1 & H2 & H3).
    rewrite upd_ne by done. split; [done|]. split; [|done]. cbn.
    intros [Hf|Hf%list_elem_of_singleton]%elem_of_app; done.
  - intros c' Hc'. destruct (Z.eq_dec c' c) as [->|Hn]; [left; cbn; set_solver +|].
    destruct (C2 c' Hc') as [Hf|Ho]; [left; cbn; set_solver + Hf|right; by apply Hop].
  - intros c' Hc'. destruct (Z.eq_dec c' c) as [->|Hn]; [by rewrite upd_eq|].
    rewrite upd_ne by done. intros Hm. destruct (C3 c' Hc' Hm). split; [by apply Hop|done].
  - intros c' Hc'. assert (c' <> c) by by intros ->. destruct (C4 c' Hc') as [Ho Hm].
    rewrite upd_ne by done. split; [by apply Hop|done].
  - intros p c' Hp Hc'. destruct (C5 p c' Hp Hc') as [Hpd' Hs]. split; [done|].
    rewrite upd_ne; [done|]. by intros ->.
Qed.

Lemma free_spec (s : st) v j c (Q : unit -> st -> Prop) P :
  spm_ok cfg s v -> is_Some (service_at cfg j) -> c ∈ hlist v j -> c ∉ pending v ->
  (forall n, spm_ok cfg (set_nodes n (on_conn c clear_magic s)) (view_close j c v) ->
     Q tt (set_nodes n (on_conn c clear_magic s))) ->
  swp (tfm_spm_free_conn_handle (Some j) (Some c)) s Q P.
Proof using Hcfg.
  intros HO Hj Hc Hpd HQ. pose proof HO as [HT HL HC HS HE HTh].
  destruct (co_hlist _ _ _ HC j c Hj Hc) as (Hch & Hnf & _).
  unfold tfm_spm_free_conn_handle. swp_steps. apply swp_assert; [intros _|done]. swp_steps.
  apply swp_assert; [intros _|done]. swp_steps. apply (swp_deref _ c); [done|].
  unfold modify_msg. swp_steps.
  destruct (list_elem_of_split _ _ Hc) as (l1 & l2 & El).
  pose proof (ls_hlist _ _ _ HL j Hj) as Hl. rewrite El, map_app in Hl. cbn [map] in Hl.
  destruct (remove_node_spec (nodes s) _ _ _ _ Hl) as (n1 & E1 & Hl1 & Hs1).
  apply (swp_on_nodes _ _ n1); [exact E1|].
  assert (Ed : drop c (hlist v j) = l1 ++ l2).
  { destruct Hl as [Hd _]. apply NoDup_cons in Hd as [_ Hd]. apply NoDup_app in Hd as (_ & H1 & H2).
    apply NoDup_cons in H2 as [H2 _]. rewrite El. apply drop_split.
    - intros Hin. apply (H1 (HandleNode c)); [|set_solver +]. by rewrite in_map_node by by intros ?? [=].
    - intros Hin. apply H2. by rewrite in_map_node by by intros ?? [=]. }
  assert (HL1 : lists_ok cfg n1 (set_hlist j (l1 ++ l2) v)).
  { apply (lists_handle cfg (nodes s) n1 v j _ (l1 ++ l2)); [done|by rewrite map_app|by rewrite map_app|].
    intros i c' Hi Hij Hc' Hin. apply (hlist_apart _ _ _ _ _ HC Hi Hj Hij Hc'). rewrite El. set_solver + Hin. }
  destruct (pool_free_spec ChunksList ChunkNode chunk_of (conn_handle_pool cfg) _ _ (cf_pool _ Hcfg)
    n1 (free v) c (ls_free _ _ _ HL1) Hch Hnf) as (n2 & E2 & Hp2 & Hs2).
  apply (swp_on_nodes _ _ n2); [exact E2|]. apply HQ.
  split; [by apply (tables_ok_same cfg s)| | | | |by apply (threads_ok_view cfg v)].
  - unfold view_close. rewrite Ed.
    apply (lists_pool cfg n1 n2 _ (free v ++ [c]) (ChunkNode c :: ChunksList :: map ChunkNode (free v))) in HL1;
      [|done|done|].
    + destruct HL1. by split.
    + intros k [->|Hk]%elem_of_cons; [done|]. by apply (chunks_kind (free v)).
  - by apply conns_ok_close.
  - by apply (signals_ok_free _ (conns s) v).
  - apply (events_ok_view cfg v); [done|]. by apply events_ok_free.
Qed.

(** ** Filling a message *)

(** The reverse handle of the connection a handle stands for. *)
Definition rhandle_of (s : st) (handle_ : Z) : Z :=
  match tfm_spm_to_handle_instance cfg handle_ with
  | Some h => rhandle (conns s h)
  | None => 0
  end.

(** The message tfm_spm_fill_msg leaves. *)
Definition filled (s : st) (j handle_ type_ cid : Z) (invecs outvecs : list psa_vec) (caller : Z) :
    tfm_msg_body_t :=
  {| magic := TFM_MSG_MAGIC; msg_service := Some j; ack_evnt := tfm_event_init;
     msg := {| type := type_; handle := handle_; msg_client_id := cid; msg_rhandle := rhandle_of s handle_;
               in_size := pad4 0 (map len invecs); out_size := pad4 0 (map len outvecs) |};
     invec := pad4 zero_vec (map (fun v => {| base := base v; len := 0 |}) invecs);
     outvec := pad4 zero_vec (map (fun v => {| base := base v; len := 0 |}) outvecs);
     caller_outvec := caller; caller_data := 0 |}.

Lemma conns_ok_fill cs v j c m : conns_ok cfg cs v -> is_Some (service_at cfg j) -> c ∈ hlist v j ->
  c ∉ pending v -> msg_service m = Some j ->
  conns_ok cfg (upd c (set_internal_msg m (cs c)) cs) v.
Proof.
  intros HC Hj Hc Hpd Hm. pose proof HC as [C1 C2 C3 C4 C5]. split.
  - intros i c' Hi Hc'. destruct (Z.eq_dec c' c) as [->|Hn]; [rewrite upd_eq|rewrite upd_ne by done];
      by apply C1.
  - done.
  - intros c' Hc'. destruct (Z.eq_dec c' c) as [->|Hn]; [|rewrite upd_ne by done; by apply C3].
    rewrite upd_eq. cbn. intros _. split; [by exists j|]. rewrite Hm. symmetry. by apply (C1 j).
  - intros c' Hc'. rewrite upd_ne by by intros ->. by apply C4.
  - intros p c' Hp Hc'. destruct (C5 p c' Hp Hc') as [Hpd' Hs]. split; [done|]. rewrite upd_ne; [done|].
    by intros ->.
Qed.

(** [s'] is [s] but for the list nodes and the connection [c], which is [h]. *)
Record touched (c : Z) (h : tfm_conn_handle_t) (s s' : st) : Prop := {
  to_conn : conns s' c = h;
  to_other : forall x, x <> c -> conns s' x = conns s x;
  to_partitions : partitions s' = partitions s;
  to_services : services s' = services s;
  to_stateless : stateless_service_ref s' = stateless_service_ref s;
  to_inst : pool_instance s' = pool_instance s;
  to_sched : scheduler s' = scheduler s;
  to_memory : memory s' = memory s
}.

Lemma touched_conns c h s s' x : touched c h s s' -> conns s' x = upd c h (conns s) x.
Proof.
  intros [H1 H2 _ _ _ _ _ _]. destruct (Z.eq_dec x c) as [->|Hn]; [by rewrite upd_eq|].
  rewrite upd_ne by done. by apply H2.
Qed.

Lemma fill_spec (s : st) v j c handle_ type_ cid invecs outvecs caller (Q : unit -> st -> Prop) P :
  spm_ok cfg s v -> is_Some (service_at cfg j) -> c ∈ hlist v j -> c ∉ pending v ->
  (length invecs + length outvecs <= 4)%nat ->
  (forall s', touched c (set_internal_msg (filled s j handle_ type_ cid invecs outvecs caller) (conns s c)) s s' ->
     spm_ok cfg s' v -> Q tt s') ->
  swp (tfm_spm_fill_msg cfg rpc_ops c (Some j) handle_ type_ cid invecs outvecs caller) s Q P.
Proof using Hcfg.
  intros HO Hj Hc Hpd Hlen HQ. pose proof HO as [HT HL HC HS HE HTh].
  assert (Hq : forall p, is_Some (static_at cfg p) -> c ∉ queue v p).
  { intros p Hp Hin. by destruct (co_queue _ _ _ HC p c Hp Hin). }
  assert (Hok : forall s', touched c (set_internal_msg (filled s j handle_ type_ cid invecs outvecs caller)
      (conns s c)) s s' -> nodes s' = (fun k => if bool_decide (k = MsgNode c) then null_node else nodes s k) ->
    Q tt s').
  { intros s' Ht En. apply HQ; [done|]. pose proof (fun x => touched_conns _ _ _ _ x Ht) as Hx.
    destruct Ht as [_ _ Ep Es Et Ei Esc _].
    split; [by apply (tables_ok_same cfg s); [rewrite Ep|..]| | | | |by rewrite Esc].
    - rewrite En. by apply lists_msg_node.
    - apply (conns_ok_same cfg (upd c (set_internal_msg (filled s j handle_ type_ cid invecs outvecs caller)
        (conns s c)) (conns s))); [intros x; rewrite Hx; apply conn_same_refl|].
      by apply (conns_ok_fill (conns s) v j).
    - rewrite Ep. apply (signals_ok_same cfg (partitions s) _ (upd c (set_internal_msg
        (filled s j handle_ type_ cid invecs outvecs caller) (conns s c)) (conns s))); [done|by intros; rewrite Hx|].
      by apply (signals_ok_free _ (conns s) v).
    - rewrite Ep, Esc. apply (events_ok_same cfg (partitions s) _ (upd c (set_internal_msg
        (filled s j handle_ type_ cid invecs outvecs caller) (conns s c)) (conns s)) _ (scheduler s));
        [done|intros x _; rewrite Hx; apply conn_same_refl|done|]. by apply events_ok_free. }
  clear HQ. unfold tfm_spm_fill_msg. apply swp_bind, swp_assert; [intros _|done].
  unfold PSA_MAX_IOVEC. repeat (apply swp_bind, swp_assert; [intros _|rewrite ?u32_small by lia; lia]).
  apply swp_bind. eapply swp_on_nodes; [reflexivity|]. unfold modify_msg.
  apply swp_bind, swp_put, swp_bind.
  rewrite (cf_single _ Hcfg), andb_false_r. unfold filled, rhandle_of in Hok.
  destruct (tfm_spm_to_handle_instance cfg handle_) as [h|].
  - unfold tfm_spm_get_rhandle. apply swp_bind, swp_bind, swp_assert; [intros _|done].
    apply swp_bind, swp_assert; [intros _|done]. swp_steps. apply (swp_deref _ h); [done|]. swp_steps.
    apply Hok; [|done]. split; try done.
    + cbn. rewrite !upd_eq. cbn. unfold upd. by destruct (Z.eqb_spec h c) as [->|].
    + intros x Hx. cbn. by rewrite !upd_ne.
  - swp_steps. apply Hok; [|done]. split; try done.
    + cbn. by rewrite upd_eq.
    + intros x Hx. cbn. by rewrite upd_ne.
Qed.
End Conns.
