(* ===== verification/SpmInvMsg.v ===== *)
(** * Secure Partition Manager: the invariant across messages and signals

    How asserting a signal, sending a message, taking one from a queue, and
    waking the client that waits for it move the invariant. *)

From Stdlib Require Import ZArith List Lia Bool.
From stdpp Require Import base tactics list sets.
From S2P Require Import Prelude SpmBase BiList SpmPool SpmSched SpmState SpmIpc SpmInv.
Import ListNotations.
Local Open Scope Z_scope.
Local Open Scope spm_scope.

(** The scheduler after an event wakes [k] with the result [n], and after the
    current thread [k] starts to wait. *)
Definition woken (k n : Z) (sc : sched) : sched :=
  set_pendsv true (on_thrd k (set_retval n) (with_state k THRD_STATE_RUNNABLE sc)).
Definition waiting (k : Z) (sc : sched) : sched := set_pendsv true (with_state k THRD_STATE_BLOCK sc).

Lemma woken_thrds k n sc t : thrds (woken k n sc) t =
  if t =? k then set_retval n (set_state THRD_STATE_RUNNABLE (thrds sc k)) else thrds sc t.
Proof.
  unfold woken. cbn [thrds set_pendsv]. destruct (Z.eqb_spec t k) as [->|Hn].
  - by rewrite on_thrd_eq, with_state_thrds, on_thrd_eq.
  - by rewrite on_thrd_ne, with_state_thrds, on_thrd_ne.
Qed.

Lemma waiting_thrds k sc t : thrds (waiting k sc) t =
  if t =? k then set_state THRD_STATE_BLOCK (thrds sc k) else thrds sc t.
Proof.
  unfold waiting. cbn [thrds set_pendsv]. rewrite with_state_thrds. destruct (Z.eqb_spec t k) as [->|Hn].
  - by rewrite on_thrd_eq.
  - by rewrite on_thrd_ne.
Qed.

Lemma woken_runnable k n sc t : runnable (woken k n sc) t = (t =? k) || runnable sc t.
Proof. unfold runnable. rewrite woken_thrds. by destruct (t =? k). Qed.

Lemma runnable_not_blocked sc k : runnable sc k = true -> ~ blocked sc k.
Proof. unfold runnable, blocked. intros H%Z.eqb_eq H'. by rewrite H in H'. Qed.

Section Threads.
Context (cfg : spm_config).

Lemma threads_ok_woken sc v k n : threads_ok cfg sc v -> is_Some (static_at cfg k) ->
  threads_ok cfg (woken k n sc) v.
Proof.
  intros [H1 H2 (r & H3 & H4)] Hk. split; [|done|].
  - apply pendsv_sched_ok, set_retval_ok, with_state_ok; [done|]. by apply H2.
  - exists r. split; [|done]. unfold woken. cbn [p_curr_thrd set_pendsv on_thrd]. by rewrite with_state_curr.
Qed.

Lemma threads_ok_waiting sc v k : threads_ok cfg sc v -> is_Some (static_at cfg k) ->
  threads_ok cfg (waiting k sc) v.
Proof.
  intros [H1 H2 (r & H3 & H4)] Hk. split; [|done|].
  - apply pendsv_sched_ok, with_state_ok; [done|]. by apply H2.
  - exists r. split; [|done]. unfold waiting. cbn [p_curr_thrd set_pendsv]. by rewrite with_state_curr.
Qed.

(** The event of [p] wakes its thread. *)
Lemma events_ok_wake ps ps' cs sc sc' v p : events_ok cfg ps cs sc v -> is_Some (static_at cfg p) ->
  owner (event (ps p)) = Some p -> (forall q, q <> p -> event (ps' q) = event (ps q)) ->
  event (ps' p) = {| evnt_magic := TFM_EVENT_MAGIC; owner := None |} ->
  (forall k, k <> p -> state (thrds sc' k) = state (thrds sc k)) ->
  events_ok cfg ps' cs sc' v.
Proof.
  intros [H1 H2 H3] Hp Ho Hps He Hst. destruct (H1 p Hp) as [_ Hop]. destruct (Hop p Ho) as (_ & _ & Hnp).
  split; [| |done].
  - intros q Hq. destruct (Z.eq_dec q p) as [->|Hn]; [by rewrite He|]. rewrite Hps by done.
    destruct (H1 q Hq) as [Hm Hoq]. split; [done|]. intros k Hk. destruct (Hoq k Hk) as (-> & Hb & Hnq).
    split; [done|]. split; [|done]. unfold blocked. by rewrite Hst.
  - intros c Hc. destruct (H2 c Hc) as (Hm & k & Hk & Hs & Hb & Hcl). split; [done|]. exists k.
    split; [done|]. split; [done|]. split; [|done]. unfold blocked. rewrite Hst; [done|]. intros ->.
    by apply (Hnp c Hc).
Qed.
End Threads.

(** Cases on the updates of a function. *)
Ltac upd_cases :=
  cbn; unfold upd; repeat (match goal with |- context [?a =? ?b] => destruct (Z.eqb_spec a b) end);
  subst; cbn; try congruence; try done.

Section Signals.
Context {W : Type} (cfg : spm_config) (Hcfg : spm_cfg_ok cfg).
Local Abbreviation st := (spm W).

(** What asserting [signal] for partition [p] changes. *)
Record signalled (p signal : Z) (s s' : st) : Prop := {
  sg_static : forall q, p_static (partitions s' q) = p_static (partitions s q);
  sg_asserted : forall q, signals_asserted (partitions s' q) =
    if q =? p then Z.lor (signals_asserted (partitions s p)) signal else signals_asserted (partitions s q);
  sg_nodes : nodes s' = nodes s;
  sg_conns : conns s' = conns s;
  sg_services : services s' = services s;
  sg_stateless : stateless_service_ref s' = stateless_service_ref s;
  sg_inst : pool_instance s' = pool_instance s;
  sg_memory : memory s' = memory s;
  sg_curr : p_curr_thrd (scheduler s') = p_curr_thrd (scheduler s);
  sg_runnable : forall k, runnable (scheduler s) k = true -> runnable (scheduler s') k = true;
  sg_others : forall k, k <> p -> thrds (scheduler s') k = thrds (scheduler s) k;
  sg_wake : Z.land (signals_waiting (partitions s p)) signal <> 0 -> owner (event (partitions s p)) = Some p ->
    runnable (scheduler s') p = true /\
    retval (thrds (scheduler s') p) =
      Z.land (Z.lor (signals_asserted (partitions s p)) signal) (signals_waiting (partitions s p))
}.

Lemma assert_signal_spec (s : st) v p signal (Q : unit -> st -> Prop) P :
  events_ok cfg (partitions s) (conns s) (scheduler s) v -> threads_ok cfg (scheduler s) v ->
  is_Some (static_at cfg p) ->
  (forall s', signalled p signal s s' -> events_ok cfg (partitions s') (conns s') (scheduler s') v ->
     threads_ok cfg (scheduler s') v -> Q tt s') ->
  swp (assert_signal p signal) s Q P.
Proof.
  intros HE HTh Hp HQ. unfold assert_signal, the_partition. swp_steps. cbn. rewrite upd_eq. cbn.
  destruct (Z.land (signals_waiting (partitions s p)) signal =? 0) eqn:Ew; cbn [negb].
  { apply Z.eqb_eq in Ew. apply swp_ret, HQ; [|apply (events_ok_same cfg (partitions s) _ (conns s) _
      (scheduler s)); [|intros; apply conn_same_refl|done..]|done].
    - split; try done; intros q; upd_cases.
    - intros q. upd_cases. }
  apply Z.eqb_neq in Ew. unfold wake_partition, the_partition, on_sched. swp_steps. cbn. rewrite upd_eq. cbn.
  destruct (ev_part _ _ _ _ _ HE p Hp) as [Hm Ho]. unfold swp at 1. rewrite (event_wake_eq _ _ _ Hm).
  destruct (owner (event (partitions s p))) as [k|] eqn:Eo.
  2:{ cbn. swp_steps. apply HQ; [|apply (events_ok_same cfg (partitions s) _ (conns s) _ (scheduler s));
        [|intros; apply conn_same_refl|done..]|done].
      - split; try done; try (intros q; upd_cases).
      - intros q. upd_cases. }
  destruct (Ho k eq_refl) as (-> & Hb & Hnp). cbn [scheduler on_partition set_partitions]. rewrite (proj2 (Z.eqb_eq _ _) Hb). swp_steps.
  set (n := Z.land _ _). apply HQ.
  - split; [intros q; upd_cases|intros q; upd_cases|done..| | | |].
    + cbn [scheduler set_scheduler on_partition set_partitions p_curr_thrd set_pendsv on_thrd].
      by rewrite with_state_curr.
    + intros q Hq. change (runnable (woken p n (scheduler s)) q = true). rewrite woken_runnable, Hq. apply orb_true_r.
    + intros q Hq. change (thrds (woken p n (scheduler s)) q = thrds (scheduler s) q). rewrite woken_thrds.
      by destruct (Z.eqb_spec q p).
    + intros _ _. change (runnable (woken p n (scheduler s)) p = true /\
        retval (thrds (woken p n (scheduler s)) p) = n).
      rewrite woken_runnable, woken_thrds, Z.eqb_refl. done.
  - apply (events_ok_wake cfg (partitions s) _ _ (scheduler s) (woken p n (scheduler s)) v p); try done.
    + intros q Hq. upd_cases.
    + upd_cases.
    + intros k Hk. rewrite woken_thrds. by destruct (Z.eqb_spec k p).
  - by apply (threads_ok_woken cfg (scheduler s)).
Qed.

(** ** Sending *)
Definition view_send (p c : Z) (v : view) : view :=
  set_pending (c :: pending v) (set_queue p (queue v p ++ [c]) v).

(** The connection [c] once [r] waits for the reply. *)
Definition waited (r : Z) (h : tfm_conn_handle_t) : tfm_conn_handle_t :=
  set_internal_msg (set_ack_evnt {| evnt_magic := TFM_EVENT_MAGIC; owner := Some r |} (internal_msg h)) h.

Lemma one_bit_land x y : one_bit x -> one_bit y -> Z.land x y <> 0 <-> x = y.
Proof.
  intros (a & Ha & ->) (b & Hb & ->). rewrite has_bit, pow2_bit by lia. rewrite Z.eqb_eq.
  split; [by intros ->|]. intros H. apply Z.pow_inj_r in H; lia.
Qed.

Lemma lor_bit x y b : one_bit b -> Z.land (Z.lor x y) b <> 0 <-> Z.land x b <> 0 \/ Z.land y b <> 0.
Proof.
  intros (n & Hn & ->). rewrite !has_bit, Z.lor_spec by lia. apply orb_true_iff.
Qed.

Lemma signals_ok_send ps ps' cs cs' v j db c : signals_ok cfg ps cs v -> service_at cfg j = Some db ->
  conn_service (cs c) = Some j -> (forall x, conn_service (cs' x) = conn_service (cs x)) ->
  (forall q, signals_asserted (ps' q) = if q =? owner_of cfg db
     then Z.lor (signals_asserted (ps (owner_of cfg db))) (db_signal db) else signals_asserted (ps q)) ->
  signals_ok cfg ps' cs' (view_send (owner_of cfg db) c v).
Proof using Hcfg.
  intros HS Hj Hc Hcs Hps i db' Hi. rewrite Hps. cbn. destruct (Z.eqb_spec (owner_of cfg db') (owner_of cfg db)) as [E|E].
  2:{ rewrite upd_ne by done. rewrite (HS i db' Hi).
      split; intros (x & Hx & Hsv); exists x; (split; [done|]); [by rewrite Hcs|by rewrite <- Hcs]. }
  rewrite E, upd_eq, lor_bit by by apply (cf_signal _ Hcfg i). rewrite <- E at 1. rewrite (HS i db' Hi).
  rewrite (one_bit_land (db_signal db)) by (first [by apply (cf_signal _ Hcfg j)|by apply (cf_signal _ Hcfg i)]).
  split.
  - intros [(x & Hx & Hsv)|Heq].
    + exists x. rewrite Hcs. split; [|done]. rewrite E in Hx. set_solver + Hx.
    + exists c. rewrite Hcs. split; [set_solver +|]. rewrite Hc. f_equal.
      by apply (cf_distinct _ Hcfg j i db db').
  - intros (x & [Hx|Hx%list_elem_of_singleton]%elem_of_app & Hsv); rewrite Hcs in Hsv.
    + left. exists x. by rewrite E.
    + right. subst x. rewrite Hc in Hsv. injection Hsv as ->. congruence.
Qed.

Lemma events_ok_send ps cs cs' sc v p c r : events_ok cfg ps cs sc v -> threads_ok cfg sc v ->
  is_Some (static_at cfg r) -> runnable sc r = true -> client_of cfg r = Some (client_id (cs c)) ->
  c ∉ pending v -> (forall x, cs' x = upd c (waited r (cs c)) cs x) ->
  events_ok cfg ps cs' (waiting r sc) (view_send p c v).
Proof.
  intros [H1 H2 H3] HTh Hr Hrun Hcl Hc Hcs.
  assert (Hnb : forall k, blocked sc k -> k <> r) by (intros k Hb ->; by apply (runnable_not_blocked sc r)).
  assert (Hb' : forall k, blocked sc k -> blocked (waiting r sc) k).
  { intros k Hb. unfold blocked. rewrite waiting_thrds. by destruct (k =? r). }
  assert (Hold : forall x, x ∈ pending v -> cs' x = cs x).
  { intros x Hx. rewrite Hcs, upd_ne; [done|]. by intros ->. }
  assert (Hnew : cs' c = waited r (cs c)) by by rewrite Hcs, upd_eq.
  split.
  - intros q Hq. destruct (H1 q Hq) as [Hm Ho]. split; [done|]. intros k Hk.
    destruct (Ho k Hk) as (-> & Hb & Hn). split; [done|]. split; [by apply Hb'|].
    intros x [->|Hx]%elem_of_cons; [|rewrite Hold by done; by apply Hn].
    rewrite Hnew. cbn. intros [= <-]. by apply (Hnb r).
  - intros x [->|Hx]%elem_of_cons.
    + rewrite Hnew. split; [done|]. exists r. split; [done|]. split; [done|]. split; [|done].
      unfold blocked. by rewrite waiting_thrds, Z.eqb_refl.
    + rewrite Hold by done. destruct (H2 x Hx) as (Hm & k & Hk & Hs & Hb & Hx'). split; [done|].
      exists k. split; [done|]. split; [done|]. split; [by apply Hb'|done].
  - assert (Hne : forall x, x ∈ pending v -> owner (ack_evnt (internal_msg (cs x))) <> Some r).
    { intros x Hx. destruct (H2 x Hx) as (_ & k & -> & _ & Hb & _). intros [= ->]. by apply (Hnb r). }
    intros x y [->|Hx]%elem_of_cons [->|Hy]%elem_of_cons; rewrite ?Hnew, ?Hold by done; cbn; try done.
    + intros E. by destruct (Hne y Hy).
    + intros E. by destruct (Hne x Hx).
    + by apply H3.
Qed.

Lemma conns_ok_send cs cs' v j db c r : conns_ok cfg cs v -> service_at cfg j = Some db -> c ∈ hlist v j ->
  magic (internal_msg (cs c)) = TFM_MSG_MAGIC -> (forall x, cs' x = upd c (waited r (cs c)) cs x) ->
  conns_ok cfg cs' (view_send (owner_of cfg db) c v).
Proof using Hcfg.
  intros HC Hj Hc Hm Hcs.
  assert (Hsame : forall x, conn_service (cs' x) = conn_service (cs x) /\
    magic (internal_msg (cs' x)) = magic (internal_msg (cs x)) /\
    msg_service (internal_msg (cs' x)) = msg_service (internal_msg (cs x))).
  { intros x. rewrite Hcs. unfold upd. by destruct (Z.eqb_spec x c) as [->|]. }
  assert (Hjs : is_Some (service_at cfg j)) by by rewrite Hj.
  assert (Hcj : conn_service (cs c) = Some j) by by apply (co_hlist _ _ _ HC j c).
  destruct HC as [C1 C2 C3 C4 C5]. split.
  - intros i x Hi Hx. destruct (Hsame x) as (-> & _ & _). by apply C1.
  - done.
  - intros x Hx. destruct (Hsame x) as (-> & -> & ->). by apply C3.
  - intros x. destruct (Hsame x) as (_ & -> & _). intros [->|Hx]%elem_of_cons; [|by apply C4].
    split; [by exists j|done].
  - intros q x Hq Hx. destruct (Hsame x) as (-> & _ & _). cbn in Hx.
    destruct (Z.eq_dec q (owner_of cfg db)) as [->|Hn].
    + rewrite upd_eq in Hx. apply elem_of_app in Hx as [Hx| ->%list_elem_of_singleton].
      * destruct (C5 _ x Hq Hx) as [H1 H2]. split; [cbn; set_solver + H1|done].
      * split; [cbn; set_solver +|]. by exists j, db.
    + rewrite upd_ne in Hx by done. destruct (C5 _ x Hq Hx) as [H1 H2]. split; [cbn; set_solver + H1|done].
Qed.

(** What sending the message of [c] changes. *)
Record sent (p c r signal : Z) (s s' : st) : Prop := {
  se_conns : forall x, conns s' x = upd c (waited r (conns s c)) (conns s) x;
  se_asserted : forall q, signals_asserted (partitions s' q) =
    if q =? p then Z.lor (signals_asserted (partitions s p)) signal else signals_asserted (partitions s q);
  se_memory : memory s' = memory s;
  se_curr : p_curr_thrd (scheduler s') = p_curr_thrd (scheduler s);
  se_blocked : blocked (scheduler s') r;
  se_wake : p <> r -> Z.land (signals_waiting (partitions s p)) signal <> 0 ->
    owner (event (partitions s p)) = Some p -> runnable (scheduler s') p = true
}.

Lemma send_spec (s : st) v j db c r (Q : unit -> st -> Prop) P :
  spm_ok cfg s v -> service_at cfg j = Some db -> c ∈ hlist v j -> c ∉ pending v ->
  magic (internal_msg (conns s c)) = TFM_MSG_MAGIC -> ack_evnt (internal_msg (conns s c)) = tfm_event_init ->
  running cfg s r -> client_of cfg r = Some (client_id (conns s c)) ->
  (forall s', sent (owner_of cfg db) c r (db_signal db) s s' ->
     spm_ok cfg s' (view_send (owner_of cfg db) c v) -> Q tt s') ->
  swp (tfm_spm_send_event cfg (Some j) c) s Q P.
Proof using Hcfg.
  intros HO Hj Hc Hpd Hm Ha (Hcur & Hrs & Hrun) Hcl HQ. pose proof HO as [HT HL HC HS HE HTh].
  unfold tfm_spm_send_event, the_service. swp_steps. rewrite (tb_service _ _ HT j db Hj). cbn [partition service_db].
  set (p := owner_of cfg db) in *. pose proof (cf_owner _ Hcfg j db Hj) as Hp. fold p in Hp.
  assert (Hq : forall q, is_Some (static_at cfg q) -> c ∉ queue v q).
  { intros q Hqs Hin. by destruct (co_queue _ _ _ HC q c Hqs Hin). }
  destruct (insert_before_spec (nodes s) (MsgList p) _ (MsgNode c) (ls_queue _ _ _ HL p Hp)) as (n1 & E1 & Hl1 & Hs1).
  { rewrite elem_of_cons, in_map_node by by intros ?? [=]. intros [|Hin]; [done|]. by apply (Hq p). }
  apply swp_bind, (swp_on_nodes _ _ n1); [exact E1|]. apply swp_bind.
  apply (assert_signal_spec (set_nodes n1 s) v); [done|done|done|]. intros s2 Hsg HE2 HTh2.
  destruct Hsg as [G1 G2 G3 G4 G5 G6 G7 G8 G9 G10 G11 G12]. cbn in G1, G2, G3, G4, G5, G6, G7, G8, G9, G10, G12.
  rewrite G4 in HE2. unfold msg_body at 1. swp_steps. unfold is_tfm_rpc_msg. rewrite (cf_single _ Hcfg). cbn [andb negb].
  unfold wait_msg, msg_body, on_sched, modify_msg. swp_steps. rewrite G4, Ha. unfold swp at 1.
  rewrite (event_wait_eq _ (scheduler s2) r) by (done || by rewrite G9). swp_steps.
  cbn [evnt_magic tfm_event_init].
  change (set_pendsv true (with_state r THRD_STATE_BLOCK (scheduler s2))) with (waiting r (scheduler s2)).
  assert (Hrun2 : runnable (scheduler s2) r = true) by by apply G10.
  assert (Hcs : forall x, conns (on_conn c (fun h => set_internal_msg (set_ack_evnt
      {| evnt_magic := TFM_EVENT_MAGIC; owner := Some r |} (internal_msg h)) h)
      (set_scheduler (waiting r (scheduler s2)) s2)) x = upd c (waited r (conns s c)) (conns s) x).
  { intros x. cbn [conns on_conn set_conns set_scheduler]. by rewrite G4. }
  apply HQ.
  - split; [done| | | | |]; cbn [partitions scheduler memory on_conn set_conns set_scheduler].
    + intros q. by rewrite G2.
    + done.
    + cbn [p_curr_thrd waiting set_pendsv]. by rewrite with_state_curr.
    + unfold blocked. by rewrite waiting_thrds, Z.eqb_refl.
    + intros Hn Hw Ho. unfold runnable. rewrite waiting_thrds. destruct (Z.eqb_spec p r); [done|].
      by apply G12.
  - split; cbn [partitions scheduler on_conn set_conns set_scheduler nodes].
    + by apply (tables_ok_same cfg s).
    + rewrite G3. pose proof (lists_queue cfg (nodes s) n1 v p (queue v p ++ [c]) (c :: queue v p) HL) as HL'.
      destruct HL' as [L1 L2 L3]; [by rewrite map_app| | |by split].
      * intros k Hk. apply Hs1. cbn [map] in Hk. set_solver + Hk.
      * intros i x Hi Hip Hx [->|Hin]%elem_of_cons; [by apply (Hq i)|].
        by apply (queue_apart cfg _ _ _ _ _ HC Hi Hp Hip Hx).
    + by apply (conns_ok_send (conns s) _ v j db c r).
    + apply (signals_ok_send (partitions s) _ (conns s) _ v j db c); [done|done| | |exact G2].
      * apply (co_hlist _ _ _ HC j c); [by rewrite Hj|done].
      * intros x. rewrite Hcs. unfold upd. by destruct (Z.eqb_spec x c) as [->|].
    + by apply (events_ok_send _ (conns s)).
    + apply (threads_ok_view cfg v); [done|]. by apply threads_ok_waiting.
Qed.
End Signals.
