(* ===== verification/SpmInvGet.v ===== *)
(** * Secure Partition Manager: taking messages and waking clients

    tfm_spm_get_msg_by_signal against a search of the queue, and what waking
    the client of a message does to the invariant. *)

From Stdlib Require Import ZArith List Lia Bool.
From stdpp Require Import base tactics list sets.
From S2P Require Import Prelude SpmBase BiList SpmPool SpmSched SpmState SpmIpc SpmInv SpmInvMsg.
Import ListNotations.
Local Open Scope Z_scope.
Local Open Scope spm_scope.

(** The reference: the first element that satisfies [f], and the others. *)
Fixpoint first_msg (f : Z -> bool) (q : list Z) : option (Z * list Z) :=
  match q with
  | [] => None
  | c :: q' =>
      if f c then Some (c, q')
      else match first_msg f q' with
           | None => None
           | Some (m, rest) => Some (m, c :: rest)
           end
  end.

Lemma first_msg_some f q c rest : first_msg f q = Some (c, rest) ->
  exists a b, q = a ++ c :: b /\ rest = a ++ b /\ f c = true /\ existsb f a = false.
Proof.
  revert rest. induction q as [|x q IH]; intros rest H; simpl in H; [done|].
  destruct (f x) eqn:E.
  - injection H as -> ->. by exists [], rest.
  - destruct (first_msg f q) as [[m r]|]; [|done]. injection H as -> <-.
    destruct (IH r eq_refl) as (a & b & -> & -> & Hc & Ha). exists (x :: a), b.
    split; [done|]. split; [done|]. split; [done|]. simpl. by rewrite E.
Qed.

Lemma first_msg_none f q : first_msg f q = None -> existsb f q = false.
Proof.
  induction q as [|x q IH]; simpl; [done|]. destruct (f x); [done|].
  destruct (first_msg f q) as [[]|]; [done|]. by intros _; apply IH.
Qed.

Lemma existsb_elem {A} (f : A -> bool) l : existsb f l = true <-> exists x, x ∈ l /\ f x = true.
Proof. rewrite existsb_exists. split; intros (x & Hx & Hf); exists x; by rewrite ?list_elem_of_In in *. Qed.

Lemma existsb_not {A} (f : A -> bool) l x : existsb f l = false -> x ∈ l -> f x = false.
Proof.
  intros H Hx. destruct (f x) eqn:E; [|done]. assert (existsb f l = true) by (apply existsb_elem; by exists x).
  congruence.
Qed.

Section Get.
Context {W : Type} (cfg : spm_config) (Hcfg : spm_cfg_ok cfg).
Local Abbreviation st := (spm W).

(** The message of [c] is for the service with this signal. *)
Definition sig_is (cs : Z -> tfm_conn_handle_t) (signal c : Z) : bool :=
  match conn_service (cs c) with
  | Some j => match service_at cfg j with Some db => db_signal db =? signal | None => false end
  | None => false
  end.

(** The signal of [c] evaluates. *)
Definition sig_ok (s : st) (signal c : Z) : Prop :=
  exists sg, msg_signal c s = (Done sg, s) /\ (sg =? signal) = sig_is (conns s) signal c.

Lemma sig_ok_nodes n s signal c : sig_ok s signal c -> sig_ok (set_nodes n s) signal c.
Proof.
  unfold sig_ok, msg_signal, msg_body, the_service, gets, deref, sbind, sret. cbn.
  destruct (msg_service (internal_msg (conns s c))) as [j|]; [|by intros (sg & [=] & _)].
  intros (sg & [= <-] & E). by eexists.
Qed.

Lemma next_in_list n p l1 c l2 : bi_list n (MsgList p) (map MsgNode (l1 ++ c :: l2)) ->
  next (n (MsgNode c)) = Some (hd (MsgList p) (map MsgNode l2)).
Proof.
  intros [_ Hc]. rewrite map_app in Hc. cbn [map] in Hc. apply chain_app in Hc as [_ Hc].
  by apply chain_first in Hc.
Qed.

Lemma loop_found fuel p l1 l2 (s : st) signal m :
  bi_list (nodes s) (MsgList p) (map MsgNode (l1 ++ l2)) -> (length l2 <= fuel)%nat ->
  (forall c, c ∈ l2 -> sig_ok s signal c) ->
  tfm_spm_get_msg_by_signal_loop fuel (MsgList p) (Some (hd (MsgList p) (map MsgNode l2))) signal (Some m) s =
    (Done (if existsb (sig_is (conns s) signal) l2 then inl m else inr (Some m)), s).
Proof.
  revert fuel l1. induction l2 as [|c l2 IH]; intros fuel l1 Hl Hf Hs.
  { destruct fuel; cbn [tfm_spm_get_msg_by_signal_loop map hd]; rewrite sbind_deref; by rewrite bool_decide_eq_true_2. }
  destruct fuel as [|fuel]; simpl in Hf; [lia|]. cbn [tfm_spm_get_msg_by_signal_loop map hd existsb].
  rewrite sbind_deref, bool_decide_eq_false_2 by done.
  cbn [msg_of]. rewrite sbind_deref.
  destruct (Hs c) as (sg & E & Esg); [set_solver +|]. rewrite (sbind_done _ _ _ _ _ E), Esg.
  destruct (sig_is (conns s) signal c); [done|]. rewrite sbind_sget. cbn [orb].
  rewrite (next_in_list _ _ _ _ _ Hl). apply (IH _ (l1 ++ [c])); [by rewrite <- app_assoc|lia|].
  intros x Hx. apply Hs. set_solver + Hx.
Qed.

Lemma loop_search fuel p l1 l2 (s : st) signal :
  bi_list (nodes s) (MsgList p) (map MsgNode (l1 ++ l2)) -> (length l2 <= fuel)%nat ->
  (forall c, c ∈ l2 -> sig_ok s signal c) ->
  let r := tfm_spm_get_msg_by_signal_loop fuel (MsgList p) (Some (hd (MsgList p) (map MsgNode l2))) signal None s in
  match first_msg (sig_is (conns s) signal) l2 with
  | None => r = (Done (inr None), s)
  | Some (c, rest) => exists n', r =
        (Done (if existsb (sig_is (conns s) signal) rest then inl c else inr (Some c)), set_nodes n' s) /\
      bi_list n' (MsgList p) (map MsgNode (l1 ++ rest)) /\
      same_but (MsgList p :: map MsgNode (l1 ++ rest)) (nodes s) n'
  end.
Proof.
  revert fuel l1. induction l2 as [|c l2 IH]; intros fuel l1 Hl Hf Hs r.
  { unfold r. destruct fuel; cbn [tfm_spm_get_msg_by_signal_loop map hd]; rewrite sbind_deref; by rewrite bool_decide_eq_true_2. }
  destruct fuel as [|fuel]; simpl in Hf; [lia|]. unfold r. clear r. cbn [first_msg].
  cbn [tfm_spm_get_msg_by_signal_loop map hd].
  rewrite sbind_deref, bool_decide_eq_false_2 by done.
  cbn [msg_of]. rewrite sbind_deref.
  destruct (Hs c) as (sg & E & Esg); [set_solver +|]. rewrite (sbind_done _ _ _ _ _ E), Esg.
  destruct (sig_is (conns s) signal c) eqn:Ec.
  - pose proof Hl as Hl'. rewrite map_app in Hl'. cbn [map] in Hl'.
    destruct (remove_node_spec (nodes s) _ _ _ _ Hl') as (n' & E' & Hln & Hsn).
    rewrite <- map_app in Hln, Hsn.
    rewrite (sbind_done _ _ s tt (set_nodes n' s)) by (unfold on_nodes, sbind, sget, deref; by rewrite E').
    rewrite sbind_sget. cbn [nodes set_nodes].
    assert (Hcn : n' (MsgNode c) = nodes s (MsgNode c)).
    { apply Hsn. destruct Hl' as [Hd _]. apply NoDup_cons in Hd as [Hh Hd].
      apply NoDup_app in Hd as (_ & H1 & H2). apply NoDup_cons in H2 as [H2 _].
      rewrite map_app, elem_of_cons, elem_of_app. intros [Hx|[Hx|Hx]]; [done| |done].
      apply (H1 _ Hx). set_solver +. }
    rewrite Hcn, (next_in_list _ _ _ _ _ Hl). exists n'. split; [|done].
    rewrite (loop_found fuel p l1 l2 (set_nodes n' s)); [done|done|lia|].
    intros x Hx. apply sig_ok_nodes, Hs. set_solver + Hx.
  - rewrite sbind_sget. rewrite (next_in_list _ _ _ _ _ Hl).
    specialize (IH fuel (l1 ++ [c])). rewrite <- app_assoc in IH. specialize (IH Hl ltac:(lia)).
    destruct (first_msg _ l2) as [[m rest]|] eqn:Ef.
    + destruct IH as (n' & -> & H1 & H2); [intros x Hx; apply Hs; set_solver + Hx|]. exists n'.
      rewrite <- app_assoc in H1, H2. split; [|done]. cbn [existsb]. by rewrite Ec.
    + apply IH. intros x Hx. apply Hs. set_solver + Hx.
Qed.

Lemma queue_facts (s : st) v p c : spm_ok cfg s v -> is_Some (static_at cfg p) -> c ∈ queue v p ->
  exists j db, conn_service (conns s c) = Some j /\ service_at cfg j = Some db /\ owner_of cfg db = p /\
    msg_service (internal_msg (conns s c)) = Some j.
Proof.
  intros HO Hp Hc. pose proof (so_conns _ _ _ HO) as HC. destruct (co_queue _ _ _ HC p c Hp Hc) as (Hpd & j & db & H1 & H2 & H3).
  exists j, db. split; [done|]. split; [done|]. split; [done|]. destruct (co_pending _ _ _ HC c Hpd) as [Ho Hm].
  destruct (co_magic _ _ _ HC c (opened_chunk _ _ _ _ HC Ho) Hm) as [_ E]. congruence.
Qed.

Lemma sig_ok_queue (s : st) v p signal c : spm_ok cfg s v -> is_Some (static_at cfg p) -> c ∈ queue v p ->
  sig_ok s signal c.
Proof.
  intros HO Hp Hc. destruct (queue_facts s v p c HO Hp Hc) as (j & db & H1 & H2 & _ & H3).
  exists (db_signal db). unfold sig_is. rewrite H1, H2. split; [|done].
  unfold msg_signal, msg_body, the_service, gets, deref, sbind, sret. rewrite H3.
  by rewrite (tb_service _ _ (so_tables _ _ _ HO) j db H2).
Qed.

Lemma queue_length (s : st) v p : spm_ok cfg s v -> is_Some (static_at cfg p) ->
  (length (queue v p) <= Z.to_nat TFM_CONN_HANDLE_MAX_NUM)%nat.
Proof.
  intros HO Hp. pose proof (so_conns _ _ _ HO) as HC.
  assert (Hd : NoDup (queue v p)).
  { destruct (ls_queue _ _ _ (so_lists _ _ _ HO) p Hp) as [Hd _]. apply NoDup_cons in Hd as [_ Hd].
    apply NoDup_ListNoDup in Hd. apply NoDup_ListNoDup. by apply NoDup_map_inv in Hd. }
  apply NoDup_ListNoDup in Hd.
  replace (Z.to_nat TFM_CONN_HANDLE_MAX_NUM) with (length (conn_chunks cfg)).
  - apply (NoDup_incl_length Hd). intros c Hc. apply list_elem_of_In. apply list_elem_of_In in Hc.
    apply (opened_chunk _ (conns s) v); [done|]. apply (co_pending _ _ _ HC).
    by apply (co_queue _ _ _ HC p).
  - unfold conn_chunks, all_chunks. by rewrite length_map, length_seq.
Qed.

(** Signals of one partition after a message is taken from its queue. *)
Lemma clear_land x y b : one_bit b -> one_bit y ->
  Z.land (clear_bits x y) b <> 0 <-> Z.land x b <> 0 /\ b <> y.
Proof.
  intros (n & Hn & ->) (m & Hm & ->). rewrite !has_bit, clear_bits_spec, pow2_bit by lia.
  rewrite andb_true_iff, negb_true_iff, Z.eqb_neq. split; intros [H1 H2]; (split; [done|]); intros E.
  - apply H2. by apply Z.pow_inj_r in E; lia.
  - by subst.
Qed.

Lemma sig_is_service cs signal c j db : conn_service (cs c) = Some j -> service_at cfg j = Some db ->
  sig_is cs signal c = (db_signal db =? signal).
Proof. intros H1 H2. unfold sig_is. by rewrite H1, H2. Qed.

Lemma signals_ok_get ps ps' cs v p signal rest (cleared : bool) : signals_ok cfg ps cs v ->
  conns_ok cfg cs v -> is_Some (static_at cfg p) -> one_bit signal ->
  (forall c, c ∈ rest -> c ∈ queue v p) ->
  (forall c, c ∈ queue v p -> c ∉ rest -> sig_is cs signal c = true) ->
  (forall q, signals_asserted (ps' q) = if (q =? p) && cleared
     then clear_bits (signals_asserted (ps p)) signal else signals_asserted (ps q)) ->
  cleared = negb (existsb (sig_is cs signal) rest) ->
  signals_ok cfg ps' cs (set_queue p rest v).
Proof using Hcfg.
  intros HS HC Hp Hsg Hin Hout Hps Hcl j db Hj. rewrite Hps. cbn.
  destruct (Z.eqb_spec (owner_of cfg db) p) as [E|E]; [|by rewrite upd_ne by done; apply HS]. cbn [andb].
  rewrite E, upd_eq.
  assert (Hrest : db_signal db <> signal -> Z.land (signals_asserted (ps p)) (db_signal db) <> 0 <->
      exists c, c ∈ rest /\ conn_service (cs c) = Some j).
  { intros Hne. rewrite <- E at 1. rewrite (HS j db Hj), E. split; intros (c & Hc & Hsv); exists c; (split; [|done]).
    - destruct (decide (c ∈ rest)) as [|Hn]; [done|]. pose proof (Hout c Hc Hn) as Hx.
      rewrite (sig_is_service _ _ _ _ _ Hsv Hj) in Hx. by apply Z.eqb_eq in Hx.
    - by apply Hin. }
  destruct (Z.eq_dec (db_signal db) signal) as [Es|Es].
  - destruct cleared.
    + rewrite clear_land by (done || by apply (cf_signal _ Hcfg j)).
      symmetry in Hcl. apply negb_true_iff in Hcl. split; [intros [_ []]; done|].
      intros (c & Hc & Hsv). pose proof (existsb_not _ _ _ Hcl Hc) as Hx.
      rewrite (sig_is_service _ _ _ _ _ Hsv Hj), Es, Z.eqb_refl in Hx. done.
    + symmetry in Hcl. apply negb_false_iff, existsb_elem in Hcl as (c & Hc & Hx).
      assert (Hcj : conn_service (cs c) = Some j).
      { destruct (co_queue _ _ _ HC p c Hp (Hin c Hc)) as (_ & i & db' & H1 & H2 & H3).
        rewrite (sig_is_service _ _ _ _ _ H1 H2) in Hx. apply Z.eqb_eq in Hx. rewrite H1. f_equal.
        apply (cf_distinct _ Hcfg i j db' db); congruence. }
      split; [by intros _; exists c|]. intros _. rewrite <- E. apply (HS j db Hj). exists c. split; [|done].
      rewrite E. by apply Hin.
  - destruct cleared; [|by apply Hrest]. rewrite clear_land by (done || by apply (cf_signal _ Hcfg j)).
    rewrite <- Hrest by done. split; [by intros []|done].
Qed.

Lemma conns_ok_queue cs v p rest : conns_ok cfg cs v -> (forall c, c ∈ rest -> c ∈ queue v p) ->
  conns_ok cfg cs (set_queue p rest v).
Proof.
  intros [C1 C2 C3 C4 C5] Hin. split; [done|done|done|done|]. intros q c Hq. cbn.
  destruct (Z.eq_dec q p) as [->|Hn]; [rewrite upd_eq; intros Hc%Hin; by apply C5|].
  rewrite upd_ne by done. by apply C5.
Qed.

(** What taking a message changes: the queue, and the signal when it was the
    last one. *)
Record taken (p : Z) (cleared : bool) (signal : Z) (s s' : st) : Prop := {
  tk_conns : conns s' = conns s;
  tk_sched : scheduler s' = scheduler s;
  tk_memory : memory s' = memory s;
  tk_asserted : forall q, signals_asserted (partitions s' q) = if (q =? p) && cleared
     then clear_bits (signals_asserted (partitions s p)) signal else signals_asserted (partitions s q)
}.

(** The state after the search: the node lists, and the signal cleared or not. *)
Definition after_get (n : links node) (cleared : bool) (p signal : Z) (s : st) : st :=
  if cleared
  then on_partition p (fun q => set_signals_asserted (clear_bits (signals_asserted q) signal) q) (set_nodes n s)
  else set_nodes n s.

Lemma after_get_spec n cleared p signal (s : st) : taken p cleared signal s (after_get n cleared p signal s) /\
  nodes (after_get n cleared p signal s) = n /\ services (after_get n cleared p signal s) = services s /\
  stateless_service_ref (after_get n cleared p signal s) = stateless_service_ref s /\
  pool_instance (after_get n cleared p signal s) = pool_instance s /\
  forall q, p_static (partitions (after_get n cleared p signal s) q) = p_static (partitions s q) /\
    event (partitions (after_get n cleared p signal s) q) = event (partitions s q).
Proof.
  unfold after_get. destruct cleared; (split; [split|]); try done.
  - intros q. rewrite andb_true_r. upd_cases.
  - repeat (split; [done|]). intros q. upd_cases.
  - intros q. by rewrite andb_false_r.
Qed.

Lemma taken_ok (s : st) v n p signal rest cleared : spm_ok cfg s v -> is_Some (static_at cfg p) -> one_bit signal ->
  lists_ok cfg n (set_queue p rest v) -> (forall c, c ∈ rest -> c ∈ queue v p) ->
  (forall c, c ∈ queue v p -> c ∉ rest -> sig_is (conns s) signal c = true) ->
  cleared = negb (existsb (sig_is (conns s) signal) rest) ->
  spm_ok cfg (after_get n cleared p signal s) (set_queue p rest v).
Proof using Hcfg.
  intros [HT HL HC HS HE HTh] Hp Hsg HL' Hin Hout Hcl.
  destruct (after_get_spec n cleared p signal s) as ([K1 K2 K3 K4] & Kn & Ks & Kt & Ki & Kp). split.
  - apply (tables_ok_same cfg s); try done. apply Kp.
  - by rewrite Kn.
  - rewrite K1. by apply conns_ok_queue.
  - rewrite K1. by apply (signals_ok_get (partitions s) _ _ _ p signal rest cleared).
  - rewrite K1, K2. apply (events_ok_view cfg v); [done|].
    apply (events_ok_same cfg (partitions s) _ (conns s) _ (scheduler s)); [|intros; apply conn_same_refl|done..].
    apply Kp.
  - rewrite K2. by apply (threads_ok_view cfg v).
Qed.

(** A queue set to what it is. *)
Lemma same_queue_ok (s : st) v p : spm_ok cfg s (set_queue p (queue v p) v) -> spm_ok cfg s v.
Proof.
  assert (E : forall q, queue (set_queue p (queue v p) v) q = queue v q) by (intros q; upd_cases).
  intros [HT [L1 L2 L3] [C1 C2 C3 C4 C5] HS [E1 E2 E3] [T1 T2 T3]]. split; [done| | | |by split|by split].
  - split; [done|done|]. intros q Hq. rewrite <- E. by apply L3.
  - split; [done|done|done|done|]. intros q c Hq. rewrite <- E. by apply C5.
  - intros j db Hj. rewrite <- E. by apply HS.
Qed.

Lemma get_msg_spec (s : st) v p signal (Q : option Z -> st -> Prop) P :
  spm_ok cfg s v -> is_Some (static_at cfg p) -> one_bit signal ->
  (forall s', match first_msg (sig_is (conns s) signal) (queue v p) with
     | None => taken p (negb (bool_decide (queue v p = []))) signal s s' -> spm_ok cfg s' v -> Q None s'
     | Some (c, rest) => taken p (negb (existsb (sig_is (conns s) signal) rest)) signal s s' ->
         spm_ok cfg s' (set_queue p rest v) -> Q (Some c) s'
     end) ->
  swp (tfm_spm_get_msg_by_signal p signal) s Q P.
Proof using Hcfg.
  intros HO Hp Hsg HQ. pose proof HO as [HT HL HC HS HE HTh].
  pose proof (ls_queue _ _ _ HL p Hp) as Hl. pose proof (queue_length s v p HO Hp) as Hlen.
  unfold tfm_spm_get_msg_by_signal. swp_steps.
  pose proof (is_empty_spec _ _ _ Hl) as Hem. destruct (BI_LIST_IS_EMPTY (MsgList p) (nodes s)).
  { assert (En : queue v p = []) by (by apply map_eq_nil with (f := MsgNode), Hem).
    specialize (HQ s). rewrite En in HQ. apply swp_ret, HQ; [|done].
    split; try done. intros q. by rewrite andb_false_r. }
  assert (Hne : queue v p <> []) by (intros E; rewrite E in Hem; by destruct Hem as [_ Hem]; specialize (Hem eq_refl)).
  pose proof (next_node_spec _ _ _ Hl) as Hnx. unfold BI_LIST_NEXT_NODE in Hnx. rewrite Hnx.
  pose proof (loop_search (Z.to_nat TFM_CONN_HANDLE_MAX_NUM) p [] (queue v p) s signal Hl Hlen
    (fun c Hc => sig_ok_queue s v p signal c HO Hp Hc)) as Hr. cbn zeta in Hr.
  destruct (first_msg (sig_is (conns s) signal) (queue v p)) as [[c rest]|] eqn:Ef.
  - destruct Hr as (n' & Hr & Hl' & Hs').
    destruct (first_msg_some _ _ _ _ Ef) as (a & b & Eq & Er & Hc & Ha).
    assert (Hin : forall x, x ∈ rest -> x ∈ queue v p) by (intros x; rewrite Eq, Er; set_solver +).
    assert (Hfin : Q (Some c) (after_get n' (negb (existsb (sig_is (conns s) signal) rest)) p signal s)).
    { apply HQ; [apply after_get_spec|]. apply taken_ok; try done.
      - apply (lists_queue cfg (nodes s) n' v p rest rest); [done|done|done|].
        intros i x Hi Hip Hx Hx'%Hin. by apply (queue_apart cfg _ _ _ _ _ HC Hi Hp Hip Hx).
      - intros x. rewrite Eq, Er. intros Hx Hn. replace x with c by set_solver + Hx Hn. done. }
    unfold swp, sbind at 1. rewrite Hr.
    by destruct (existsb (sig_is (conns s) signal) rest).
  - apply first_msg_none in Ef. unfold swp, sbind at 1. rewrite Hr.
    rewrite bool_decide_eq_false_2 in HQ by done. 
    apply (HQ (after_get (nodes s) true p signal s)); [apply after_get_spec|]. apply (same_queue_ok _ _ p).
    apply taken_ok; try done; [|by rewrite Ef].
    destruct HL as [L1 L2 L3]. split; [done|done|]. intros q Hq. cbn. unfold upd.
    destruct (Z.eqb_spec q p) as [->|]; by apply L3.
Qed.

(** ** Waking the client of a message *)
Lemma wake_spec (s : st) v c k n (Q : unit -> st -> Prop) P :
  spm_ok cfg s v -> c ∉ pending v -> evnt_magic (ack_evnt (internal_msg (conns s c))) = TFM_EVENT_MAGIC ->
  owner (ack_evnt (internal_msg (conns s c))) = Some k -> blocked (scheduler s) k -> is_Some (static_at cfg k) ->
  owner (event (partitions s k)) <> Some k ->
  (forall x, x ∈ pending v -> owner (ack_evnt (internal_msg (conns s x))) <> Some k) ->
  (let s' := on_conn c (fun h => set_internal_msg (set_ack_evnt {| evnt_magic := TFM_EVENT_MAGIC; owner := None |}
       (internal_msg h)) h) (set_scheduler (woken k n (scheduler s)) s) in
   spm_ok cfg s' v -> Q tt s') ->
  swp (wake_msg c n) s Q P.
Proof.
  intros [HT HL HC HS [E1 E2 E3] HTh] Hc Hm Ho Hb Hk He Hp HQ.
  unfold wake_msg, msg_body, on_sched, modify_msg. swp_steps. unfold swp at 1. rewrite event_wake_eq by done.
  rewrite Ho, (proj2 (Z.eqb_eq _ _) Hb). swp_steps. apply HQ.
  assert (Hold : forall x, x ∈ pending v -> upd c (set_internal_msg (set_ack_evnt {| evnt_magic := TFM_EVENT_MAGIC;
    owner := None |} (internal_msg (conns s c))) (conns s c)) (conns s) x = conns s x).
  { intros x Hx. apply upd_ne. by intros ->. }
  assert (Hbl : forall x, x <> k -> blocked (scheduler s) x -> blocked (woken k n (scheduler s)) x).
  { intros x Hx. unfold blocked. rewrite woken_thrds. by destruct (Z.eqb_spec x k). }
  split; cbn [conns on_conn set_conns partitions scheduler set_scheduler nodes].
  - by apply (tables_ok_same cfg s).
  - done.
  - destruct HC as [C1 C2 C3 C4 C5].
    assert (Hs : forall x, conn_service (upd c (set_internal_msg (set_ack_evnt {| evnt_magic := TFM_EVENT_MAGIC;
      owner := None |} (internal_msg (conns s c))) (conns s c)) (conns s) x) = conn_service (conns s x)) by (intros x; upd_cases).
    split.
    + intros j x Hj Hx. rewrite Hs. by apply C1.
    + done.
    + intros x Hx Hmx. rewrite Hs. destruct (C3 x Hx) as [H1 H2].
      * revert Hmx. upd_cases.
      * split; [done|]. rewrite <- H2. upd_cases.
    + intros x Hx. rewrite Hold by done. by apply C4.
    + intros p x Hp' Hx. rewrite Hs. by apply C5.
  - by apply (signals_ok_free cfg Hcfg _ (conns s) v).
  - split.
    + intros p Hp'. destruct (E1 p Hp') as [Hm' Ho']. split; [done|]. intros k' Hk'.
      destruct (Ho' k' Hk') as (-> & Hb' & Hn'). split; [done|]. split; [apply Hbl; [by intros ->|done]|].
      intros x Hx. rewrite Hold by done. by apply Hn'.
    + intros x Hx. rewrite Hold by done. destruct (E2 x Hx) as (Hm' & k' & Hk' & H1 & H2 & H3).
      split; [done|]. exists k'. split; [done|]. split; [done|]. split; [|done]. apply Hbl; [|done].
      intros ->. by apply (Hp x Hx).
    + intros x y Hx Hy. rewrite !Hold by done. by apply E3.
  - by apply threads_ok_woken.
Qed.
End Get.
