(* ===== verification/SpmInvCall.v ===== *)
(** * Secure Partition Manager: the client calls keep the invariant

    psa_version, psa_connect, psa_call and psa_close, from a thread that runs.
    A handle given to psa_call or psa_close must stand for a connection that is
    still open when it passes the checks of the SPM (see the findings on
    handles that were closed). *)

From Stdlib Require Import ZArith List Lia Bool.
From stdpp Require Import base tactics list sets.
From S2P Require Import Prelude SpmBase BiList SpmPool SpmSched SpmState SpmIpc SpmClient SpmService.
From S2P Require Import SpmInv SpmInvMsg SpmInvGet.
Import ListNotations.
Local Open Scope Z_scope.
Local Open Scope spm_scope.

Section Call.
Context {W : Type} (cfg : spm_config) (rpc_ops : tfm_rpc_ops_t W) (Hcfg : spm_cfg_ok cfg).
Local Abbreviation st := (spm W).

(** ** The caller *)

(** What tfm_spm_validate_caller establishes. *)
Definition caller_ok (r : Z) (ns_caller : bool) : Prop :=
  exists stat, static_at cfg r = Some stat /\
    if ns_caller then pid stat = TFM_SP_NON_SECURE_ID else 0 < pid stat.

Lemma static_inj p q stat stat' : static_at cfg p = Some stat -> static_at cfg q = Some stat' ->
  pid stat = pid stat' -> p = q.
Proof using Hcfg.
  unfold static_at. destruct (Z.ltb_spec p 0), (Z.ltb_spec q 0); try done. intros Hp Hq E.
  assert (Z.to_nat p = Z.to_nat q); [|lia]. apply (NoDup_lookup (map pid (static_data_list cfg)) _ _ (pid stat)).
  - apply (cf_pids _ Hcfg).
  - by apply (list_lookup_fmap_Some_2 pid) in Hp.
  - rewrite E. by apply (list_lookup_fmap_Some_2 pid) in Hq.
Qed.

Lemma client_of_inj p q x : client_of cfg p = Some x -> client_of cfg q = Some x -> p = q.
Proof using Hcfg.
  unfold client_of. destruct (static_at cfg p) as [a|] eqn:Ea; [|done].
  destruct (static_at cfg q) as [b|] eqn:Eb; [|done].
  pose proof (cf_pid _ Hcfg p a Ea). pose proof (cf_pid _ Hcfg q b Eb).
  unfold TFM_SP_NON_SECURE_ID, tfm_nspm_get_current_client_id. intros [= H1] [= H2].
  apply (static_inj p q a b Ea Eb).
  destruct (Z.eqb_spec (pid a) 0), (Z.eqb_spec (pid b) 0); lia.
Qed.

Lemma caller_id_spec (s : st) v r ns (Q : Z -> st -> Prop) P : spm_ok cfg s v -> running cfg s r -> caller_ok r ns ->
  (forall cid, client_of cfg r = Some cid -> Q cid s) -> swp (caller_id ns) s Q P.
Proof.
  intros HO (Hc & _) (stat & Hst & Hns) HQ. unfold caller_id. destruct ns.
  - apply swp_ret, HQ. unfold client_of. by rewrite Hst, Hns.
  - unfold tfm_spm_partition_get_running_partition_id, tfm_spm_get_running_partition. swp_steps.
    apply (swp_deref _ r); [done|]. swp_steps. apply HQ.
    rewrite (tb_static _ _ (so_tables _ _ _ HO) r stat Hst). unfold client_of. rewrite Hst.
    unfold TFM_SP_NON_SECURE_ID. by destruct (Z.eqb_spec (pid stat) 0); [lia|].
Qed.

(** The calls of a thread that runs are not pending. *)
Lemma caller_not_pending (s : st) v r c : spm_ok cfg s v -> running cfg s r ->
  client_of cfg r = Some (client_id (conns s c)) -> c ∉ pending v.
Proof using Hcfg.
  intros HO (_ & _ & Hrun) Hcl Hpd.
  destruct (ev_pend _ _ _ _ _ (so_events _ _ _ HO) c Hpd) as (_ & k & _ & _ & Hb & Hk).
  rewrite (client_of_inj _ _ _ Hk Hcl) in Hb. by apply (runnable_not_blocked (scheduler s) r).
Qed.

(** ** Look-ups *)
Lemma find_index_spec {A} (f : A -> bool) l i0 k : find_index f i0 l = Some k ->
  i0 <= k /\ exists x, l !! Z.to_nat (k - i0) = Some x /\ f x = true.
Proof.
  revert i0. induction l as [|x l IH]; intros i0; simpl; [done|]. destruct (f x) eqn:E.
  - intros [= <-]. split; [lia|]. exists x. by rewrite Z.sub_diag.
  - intros H. destruct (IH _ H) as (Hk & y & Hy & Hf). split; [lia|]. exists y. split; [|done].
    replace (Z.to_nat (k - i0)) with (S (Z.to_nat (k - (i0 + 1)))) by lia. done.
Qed.

Lemma find_index_map {A} (f : Z -> bool) (g : A -> bool) l a i0 :
  (forall i x, l !! i = Some x -> f (Z.of_nat (a + i)) = g x) ->
  find_index f i0 (map Z.of_nat (seq a (length l))) = find_index g i0 l.
Proof.
  revert a i0. induction l as [|x l IH]; intros a i0 H; simpl; [done|].
  pose proof (H 0%nat x eq_refl) as Hx. rewrite Nat.add_0_r in Hx. rewrite Hx.
  destruct (g x); [done|]. apply IH. intros i y Hy. rewrite <- (H (S i) y Hy). f_equal. lia.
Qed.

Lemma service_at_range j : 0 <= j < Z.of_nat (length (service_db_list cfg)) -> is_Some (service_at cfg j).
Proof.
  intros H. unfold service_at. destruct (Z.ltb_spec j 0); [lia|]. apply lookup_lt_is_Some. lia.
Qed.
Lemma static_at_range p : 0 <= p < Z.of_nat (length (static_data_list cfg)) <-> is_Some (static_at cfg p).
Proof.
  unfold static_at. destruct (Z.ltb_spec p 0).
  - split; [lia|by intros []].
  - rewrite lookup_lt_is_Some. lia.
Qed.

(** The service with an identifier. *)
Definition by_sid (sid : Z) : option Z := find_index (fun db => db_sid db =? sid) 0 (service_db_list cfg).

Lemma by_sid_some sid j : by_sid sid = Some j -> exists db, service_at cfg j = Some db /\ db_sid db = sid.
Proof.
  intros H. destruct (find_index_spec _ _ _ _ H) as (Hj & db & Hdb & Hs). rewrite Z.sub_0_r in Hdb.
  exists db. split; [|by apply Z.eqb_eq]. unfold service_at. by destruct (Z.ltb_spec j 0); [lia|].
Qed.

Lemma by_sid_spec (s : st) v sid (Q : option Z -> st -> Prop) P : spm_ok cfg s v ->
  Q (by_sid sid) s -> swp (tfm_spm_get_service_by_sid cfg sid) s Q P.
Proof.
  intros HO HQ. unfold tfm_spm_get_service_by_sid. swp_steps.
  rewrite (find_index_map _ (fun db => db_sid db =? sid)); [done|]. intros i db Hi.
  rewrite (tb_service _ _ (so_tables _ _ _ HO) (Z.of_nat (0 + i)) db); [done|].
  unfold service_at. destruct (Z.ltb_spec (Z.of_nat (0 + i)) 0); [lia|]. by rewrite Nat2Z.id.
Qed.

(** Which callers a service accepts. *)
Definition authorized (r sid : Z) (db : tfm_spm_service_db_t) (ns : bool) : bool :=
  if ns then non_secure_client db
  else match static_at cfg r with Some stat => existsb (fun d => d =? sid) (deps stat) | None => false end.

Lemma check_authorization_spec (s : st) v r sid j db ns (Q : Z -> st -> Prop) P : spm_ok cfg s v ->
  running cfg s r -> service_at cfg j = Some db ->
  Q (if authorized r sid db ns then SPM_SUCCESS else SPM_ERROR_GENERIC) s ->
  swp (tfm_spm_check_authorization sid (Some j) ns) s Q P.
Proof.
  intros HO (Hc & [stat Hst] & _) Hj HQ. unfold tfm_spm_check_authorization, the_service, the_partition,
    tfm_spm_get_running_partition. swp_steps. apply swp_assert; [intros _|done]. swp_steps.
  apply (swp_deref _ j); [done|]. swp_steps. rewrite (tb_service _ _ (so_tables _ _ _ HO) j db Hj). cbn.
  unfold authorized in HQ. destruct ns.
  - by destruct (non_secure_client db).
  - swp_steps. apply (swp_deref _ r); [done|]. swp_steps.
    rewrite (tb_static _ _ (so_tables _ _ _ HO) r stat Hst). rewrite Hst in HQ.
    by destruct (existsb _ _).
Qed.

Definition version_ok (db : tfm_spm_service_db_t) (version : Z) : bool :=
  if version_policy db =? TFM_VERSION_POLICY_RELAXED then version <=? db_version db
  else (version_policy db =? TFM_VERSION_POLICY_STRICT) && (version =? db_version db).

Lemma check_version_spec (s : st) v j db version (Q : Z -> st -> Prop) P : spm_ok cfg s v ->
  service_at cfg j = Some db -> Q (if version_ok db version then SPM_SUCCESS else SPM_ERROR_VERSION) s ->
  swp (tfm_spm_check_client_version j version) s Q P.
Proof.
  intros HO Hj HQ. unfold tfm_spm_check_client_version, the_service. swp_steps.
  rewrite (tb_service _ _ (so_tables _ _ _ HO) j db Hj). cbn. unfold version_ok in HQ.
  destruct (version_policy db =? TFM_VERSION_POLICY_RELAXED).
  - rewrite Z.gtb_ltb. rewrite Z.leb_antisym in HQ. by destruct (db_version db <? version).
  - destruct (version_policy db =? TFM_VERSION_POLICY_STRICT); [|done]. cbn in HQ.
    by destruct (version =? db_version db).
Qed.

(** A programmer error of a non-secure caller is a status; the state is kept. *)
Lemma programmer_spec {A} (s : st) ns (e : A) (Q : A -> st -> Prop) : (ns = true -> Q e s) ->
  swp (TFM_PROGRAMMER_ERROR ns e) s Q (fun _ => ns = false).
Proof. intros H. by apply swp_programmer. Qed.

(** ** psa_version *)
Lemma version_spec (s : st) v r sid ns (Q : Z -> st -> Prop) P : spm_ok cfg s v -> running cfg s r ->
  Q (match by_sid sid with
     | None => PSA_VERSION_NONE
     | Some j => match service_at cfg j with
       | Some db => if authorized r sid db ns then db_version db else PSA_VERSION_NONE
       | None => PSA_VERSION_NONE
       end
     end) s ->
  swp (tfm_spm_client_psa_version cfg sid ns) s Q P.
Proof.
  intros HO Hr HQ. unfold tfm_spm_client_psa_version. apply swp_bind, (by_sid_spec _ v); [done|].
  destruct (by_sid sid) as [j|] eqn:E; [|done]. destruct (by_sid_some _ _ E) as (db & Hj & _). rewrite Hj in HQ.
  apply swp_bind, (check_authorization_spec _ v r sid j db); [done|done|done|].
  destruct (authorized r sid db ns); [|done]. cbn. swp_steps.
  by rewrite (tb_service _ _ (so_tables _ _ _ HO) j db Hj).
Qed.

(** ** Handles *)

(** The connection [c] of service [j] carries the message [m] its client [r]
    waits for. *)
Definition carries (s : st) (c r j : Z) (m : tfm_msg_body_t) : Prop :=
  internal_msg (conns s c) = set_ack_evnt {| evnt_magic := TFM_EVENT_MAGIC; owner := Some r |} m /\
  client_of cfg r = Some (client_id (conns s c)).

(** The offset of a connection in the pool is small. *)
Lemma chunk_offset c : c ∈ conn_chunks cfg ->
  0 < conn_handle_pool cfg /\ 0 < c - conn_handle_pool cfg < 2 ^ 27 - 1 /\ c < 2 ^ 32.
Proof using Hcfg.
  intros Hc. apply (in_all_chunks ChunksList ChunkNode chunk_of _ _ _ (cf_pool _ Hcfg)) in Hc as (i & Hi & ->).
  destruct (cf_pool _ Hcfg) as [_ H1 H2 H3 _ _ _ _]. pose proof (cf_small _ Hcfg) as H4.
  unfold chunk_data, chunks, sizeof_pool_chunk, sizeof_pool_instance, TFM_CONN_HANDLE_MAX_NUM in *.
  assert (0 <= i * (sizeof_conn_handle cfg + 8) <= (sizeof_conn_handle cfg + 8) * 15) by nia. lia.
Qed.

(** The handle of a connection, and the way back. *)
Lemma handle_value c i : c ∈ conn_chunks cfg -> 0 <= i < CONVERSION_FACTOR_VALUE ->
  s32 (u32 (u32 (Z.shiftl (u32 (c - conn_handle_pool cfg)) CONVERSION_FACTOR_BITOFFSET)
    + CLIENT_HANDLE_VALUE_MIN + i)) = (c - conn_handle_pool cfg) * 8 + 1 + i.
Proof using Hcfg.
  intros Hc Hi. destruct (chunk_offset c Hc) as (Hp & Ho & Hm).
  unfold CONVERSION_FACTOR_BITOFFSET, CLIENT_HANDLE_VALUE_MIN. change CONVERSION_FACTOR_VALUE with 8 in Hi.
  rewrite (u32_small (c - _)), Z.shiftl_mul_pow2 by lia.
  rewrite (u32_small (_ * 2 ^ 3)), u32_small, s32_small by lia. lia.
Qed.

Lemma handle_instance c i : c ∈ conn_chunks cfg -> 0 <= i < CONVERSION_FACTOR_VALUE ->
  tfm_spm_to_handle_instance cfg ((c - conn_handle_pool cfg) * 8 + 1 + i) = Some c.
Proof using Hcfg.
  intros Hc Hi. destruct (chunk_offset c Hc) as (Hp & Ho & Hm). change CONVERSION_FACTOR_VALUE with 8 in Hi.
  unfold tfm_spm_to_handle_instance, PSA_NULL_HANDLE, CLIENT_HANDLE_VALUE_MIN, CONVERSION_FACTOR_BITOFFSET.
  destruct (Z.eqb_spec ((c - conn_handle_pool cfg) * 8 + 1 + i) 0); [lia|].
  rewrite (u32_small (_ + i)), (u32_small (_ - 1)), Z.shiftr_div_pow2 by lia.
  replace (((c - conn_handle_pool cfg) * 8 + 1 + i - 1) / 2 ^ 3) with (c - conn_handle_pool cfg).
  2:{ apply Z.div_unique with i; lia. }
  rewrite u32_small by lia. replace (c - conn_handle_pool cfg + conn_handle_pool cfg) with c by lia.
  by destruct (Z.eqb_spec c 0); [lia|].
Qed.

(** A user handle of [c]: positive, not a static one, and it stands for [c]. *)
Definition handle_of (c h : Z) : Prop :=
  CLIENT_HANDLE_VALUE_MIN <= h <= 0x3FFFFFFF /\ IS_VALID_STATIC_HANDLE h = false /\
  tfm_spm_to_handle_instance cfg h = Some c.

Lemma bit30_small h : 0 <= h < 2 ^ 30 -> IS_VALID_STATIC_HANDLE h = false.
Proof.
  intros Hh. unfold IS_VALID_STATIC_HANDLE. rewrite u32_small by lia.
  destruct (Z.eqb_spec (Z.land h (2 ^ 30)) 0) as [|Hn]; [done|]. apply has_bit in Hn; [|lia].
  destruct (Z.eq_dec h 0) as [->|]; [by rewrite Z.bits_0 in Hn|].
  rewrite Z.bits_above_log2 in Hn; [done|lia|]. apply Z.log2_lt_pow2; lia.
Qed.

Lemma handle_of_value c i : c ∈ conn_chunks cfg -> 0 <= i < CONVERSION_FACTOR_VALUE ->
  handle_of c ((c - conn_handle_pool cfg) * 8 + 1 + i).
Proof using Hcfg.
  intros Hc Hi. pose proof (handle_instance c i Hc Hi) as Hinst. destruct (chunk_offset c Hc) as (Hp & Ho & Hm).
  change CONVERSION_FACTOR_VALUE with 8 in Hi. unfold handle_of, CLIENT_HANDLE_VALUE_MIN.
  split; [lia|]. split; [|done]. apply bit30_small. lia.
Qed.

Lemma user_handle_spec (s : st) v c (Q : Z -> st -> Prop) P : spm_ok cfg s v -> c ∈ conn_chunks cfg ->
  (forall h i, let s' := set_loop_index i s in handle_of c h -> spm_ok cfg s' v -> Q h s') ->
  swp (tfm_spm_to_user_handle cfg c) s Q P.
Proof using Hcfg.
  intros HO Hc HQ. unfold tfm_spm_to_user_handle. swp_steps. cbn [loop_index set_loop_index].
  pose proof (Z.mod_pos_bound (u32 (loop_index s + 1)) CONVERSION_FACTOR_VALUE eq_refl) as Hi.
  rewrite handle_value by done. apply HQ; [by apply handle_of_value|].
  by apply (spm_ok_frame cfg s).
Qed.

(** Filling the message of an idle connection and sending it. *)
Lemma submit_spec (s : st) v r j db c handle_ type_ invecs outvecs caller (Q : unit -> st -> Prop) P :
  spm_ok cfg s v -> running cfg s r -> service_at cfg j = Some db -> c ∈ hlist v j ->
  client_of cfg r = Some (client_id (conns s c)) -> (length invecs + length outvecs <= 4)%nat ->
  (forall s', spm_ok cfg s' (view_send (owner_of cfg db) c v) ->
     p_curr_thrd (scheduler s') = Some r ->
     carries s' c r j (filled cfg s j handle_ type_ (client_id (conns s c)) invecs outvecs caller) ->
     blocked (scheduler s') r -> memory s' = memory s ->
     (forall x, x <> c -> conns s' x = conns s x) -> Q tt s') ->
  swp (do! tfm_spm_fill_msg cfg rpc_ops c (Some j) handle_ type_ (client_id (conns s c)) invecs outvecs caller in
       tfm_spm_send_event cfg (Some j) c) s Q P.
Proof using Hcfg.
  intros HO Hr Hj Hc Hcl Hlen HQ. assert (Hjs : is_Some (service_at cfg j)) by by rewrite Hj.
  pose proof (caller_not_pending _ _ _ _ HO Hr Hcl) as Hpd.
  apply swp_bind, (fill_spec cfg rpc_ops Hcfg s v); try done. intros s1 Ht HO1.
  destruct Ht as [Hc1 Hx1 _ _ _ _ Hs1 Hm1].
  apply (send_spec cfg Hcfg s1 v j db c r); try done.
  - by rewrite Hc1.
  - by rewrite Hc1.
  - unfold running. by rewrite Hs1.
  - by rewrite Hc1.
  - intros s2 [E1 E2 E3 E4 E5 E6] HO2. apply HQ; [done| | | | |].
    + rewrite E4, Hs1. apply Hr.
    + unfold carries. rewrite E1, upd_eq, Hc1. by cbn.
    + done.
    + by rewrite E3.
    + intros x Hx. rewrite E1, upd_ne by done. by apply Hx1.
Qed.

(** ** psa_connect *)

(** The request for service [j] passes the checks of psa_connect. *)
Definition connectable (r sid version : Z) (ns : bool) (db : tfm_spm_service_db_t) : bool :=
  authorized r sid db ns && version_ok db version && connection_based db.

Definition connect_message (h rh j cid : Z) : tfm_msg_body_t :=
  {| magic := TFM_MSG_MAGIC; msg_service := Some j; ack_evnt := tfm_event_init;
     msg := {| type := PSA_IPC_CONNECT; handle := h; msg_client_id := cid; msg_rhandle := rh;
               in_size := repeat 0 4; out_size := repeat 0 4 |};
     invec := repeat zero_vec 4; outvec := repeat zero_vec 4; caller_outvec := 0; caller_data := 0 |}.

(** Outcomes of psa_connect: refused, no free connection, or a connect message
    for the new connection [c] at the end of the queue of the service. *)
Inductive connect_result (s : st) (v : view) (r sid version : Z) (ns : bool) : Z -> st -> Prop :=
| Connect_refused e :
    ns = true -> (forall j db, by_sid sid = Some j -> service_at cfg j = Some db ->
      connectable r sid version ns db = false) ->
    e = PSA_ERROR_CONNECTION_REFUSED \/ e = PSA_ERROR_PROGRAMMER_ERROR ->
    connect_result s v r sid version ns e s
| Connect_busy j db :
    by_sid sid = Some j -> service_at cfg j = Some db -> connectable r sid version ns db = true ->
    free v = [] -> connect_result s v r sid version ns PSA_ERROR_CONNECTION_BUSY s
| Connect_sent j db c fr h cid s' :
    by_sid sid = Some j -> service_at cfg j = Some db -> connectable r sid version ns db = true ->
    free v = c :: fr -> handle_of c h -> client_of cfg r = Some cid ->
    spm_ok cfg s' (view_send (owner_of cfg db) c (view_open j c fr v)) ->
    p_curr_thrd (scheduler s') = Some r -> memory s' = memory s ->
    client_id (conns s' c) = cid -> carries s' c r j (connect_message h (rhandle (conns s c)) j cid) ->
    connect_result s v r sid version ns PSA_SUCCESS s'.

Lemma connect_spec (s : st) v r sid version ns : spm_ok cfg s v -> running cfg s r -> caller_ok r ns ->
  swp (tfm_spm_client_psa_connect cfg rpc_ops sid version ns) s
    (connect_result s v r sid version ns)
    (fun _ => ns = false /\ forall j db, by_sid sid = Some j -> service_at cfg j = Some db ->
       connectable r sid version ns db = false).
Proof using Hcfg.
  intros HO Hr Hns. unfold tfm_spm_client_psa_connect. apply swp_bind, (by_sid_spec _ v); [done|].
  assert (Hrej : forall e, (forall j db, by_sid sid = Some j -> service_at cfg j = Some db ->
      connectable r sid version ns db = false) ->
    e = PSA_ERROR_CONNECTION_REFUSED \/ e = PSA_ERROR_PROGRAMMER_ERROR ->
    swp (TFM_PROGRAMMER_ERROR ns e) s (connect_result s v r sid version ns)
      (fun _ => ns = false /\ forall j db, by_sid sid = Some j -> service_at cfg j = Some db ->
         connectable r sid version ns db = false)).
  { intros e Hc He. apply swp_programmer; intros E; [by apply Connect_refused|done]. }
  destruct (by_sid sid) as [j|] eqn:Ej; [|by apply Hrej; [|left]].
  destruct (by_sid_some _ _ Ej) as (db & Hj & _).
  assert (Hrej' : forall e, connectable r sid version ns db = false ->
    e = PSA_ERROR_CONNECTION_REFUSED \/ e = PSA_ERROR_PROGRAMMER_ERROR ->
    swp (TFM_PROGRAMMER_ERROR ns e) s (connect_result s v r sid version ns)
      (fun _ => ns = false /\ forall j' db, Some j = Some j' -> service_at cfg j' = Some db ->
         connectable r sid version ns db = false)).
  { intros e Hc. apply Hrej. intros j' db' [= <-]. rewrite Hj. by intros [= <-]. }
  clear Hrej. apply swp_bind, (check_authorization_spec _ v r sid j db); [done|done|done|].
  unfold connectable in Hrej'. destruct (authorized r sid db ns) eqn:Ea; [|by apply Hrej'; [|left]].
  cbn [Z.eqb SPM_SUCCESS negb]. apply swp_bind, (check_version_spec _ v j db); [done|done|].
  destruct (version_ok db version) eqn:Ev; [|by apply Hrej'; [|left]]. cbn [Z.eqb SPM_SUCCESS negb].
  unfold the_service. swp_steps. rewrite (tb_service _ _ (so_tables _ _ _ HO) j db Hj). cbn [service_db].
  destruct (connection_based db) eqn:Eb; [|by apply Hrej'; [|right]]. cbn [negb].
  assert (Hok : connectable r sid version ns db = true) by (unfold connectable; by rewrite Ea, Ev, Eb).
  apply swp_bind, (caller_id_spec _ v r); [done|done|done|]. intros cid Hcid. apply swp_bind.
  apply (create_spec cfg Hcfg s v j); [done|by rewrite Hj|].
  destruct (free v) as [|c fr] eqn:Ef; [by apply swp_ret, (Connect_busy _ _ _ _ _ _ j db)|].
  intros n HO1. assert (Hch : c ∈ conn_chunks cfg).
  { apply (ls_free _ _ _ (so_lists _ _ _ HO)). rewrite Ef. set_solver +. }
  apply swp_bind, (user_handle_spec _ _ c _ _ HO1 Hch). intros h i s1 Hh HO2.
  assert (Ec : client_id (conns s1 c) = cid) by (unfold s1; cbn; by rewrite upd_eq).
  assert (Er : rhandle_of cfg s1 h = rhandle (conns s c)).
  { unfold rhandle_of. destruct Hh as (_ & _ & ->). unfold s1. cbn. by rewrite upd_eq. }
  rewrite <- Ec at 1. apply swp_assoc, swp_bind.
  apply (submit_spec s1 (view_open j c fr v) r j db c); [done| |done| | |cbn; lia|].
  - done.
  - cbn. rewrite upd_eq. set_solver +.
  - by rewrite Ec.
  - intros s2 HO3 Hcur Hm Hb Hmem Hx. apply swp_ret.
    apply (Connect_sent _ _ _ _ _ _ j db c fr h cid); try done.
    + destruct Hm as [_ Hm]. rewrite Hcid in Hm. by injection Hm.
    + rewrite Ec in Hm. unfold filled in Hm. by rewrite Er in Hm.
Qed.

(** ** The target of a call *)

(** The client has not closed the connection the handle stands for. *)
Definition handle_live (s : st) (v : view) (handle cid : Z) : Prop :=
  forall c, tfm_spm_to_handle_instance cfg handle = Some c -> c ∈ conn_chunks cfg ->
    client_id (conns s c) = cid -> opened cfg v c.

(** The static handle is for service [j], which accepts the caller. *)
Definition static_target (s : st) (r handle j : Z) (db : tfm_spm_service_db_t) (ns : bool) : Prop :=
  let index := GET_INDEX_FROM_STATIC_HANDLE handle in
  stateless_service_ref s index = Some j /\
  authorized r (nth (Z.to_nat index) (stateless_sids cfg) 0) db ns = true /\
  version_ok db (GET_VERSION_FROM_STATIC_HANDLE handle) = true.

(** The connection [c] that a call on [handle] goes through. *)
Record target (s : st) (v : view) (r handle cid : Z) (ns : bool)
    (c j : Z) (db : tfm_spm_service_db_t) (h : Z) (s' : st) (v' : view) : Prop := {
  tg_ok : spm_ok cfg s' v';
  tg_service : service_at cfg j = Some db;
  tg_in : c ∈ hlist v' j;
  tg_client : client_id (conns s' c) = cid;
  tg_sched : scheduler s' = scheduler s;
  tg_memory : memory s' = memory s;
  tg_handle : tfm_spm_to_handle_instance cfg h = Some c;
  tg_queue : forall p, queue v' p = queue v p;
  tg_access : if IS_VALID_STATIC_HANDLE handle
    then static_target s r handle j db ns /\ rhandle (conns s' c) = 0 /\ c ∈ free v /\ c ∉ free v'
    else h = handle /\ v' = v /\ s' = s /\
      status (conns s c) <> TFM_HANDLE_STATUS_ACTIVE /\ status (conns s c) <> TFM_HANDLE_STATUS_CONNECT_ERROR
}.

Lemma valid_chunk_spec (s : st) v c : spm_ok cfg s v -> 0 <= c < 2 ^ 32 ->
  valid_chunk cfg c s = true <-> c ∈ conn_chunks cfg.
Proof using Hcfg.
  intros HO Hc. unfold valid_chunk. rewrite (tb_inst _ _ (so_tables _ _ _ HO)).
  by apply (is_valid_chunk_spec ChunksList ChunkNode chunk_of _ _ _ (cf_pool _ Hcfg)).
Qed.

Lemma instance_range h c : tfm_spm_to_handle_instance cfg h = Some c -> 0 <= c < 2 ^ 32.
Proof.
  unfold tfm_spm_to_handle_instance. destruct (h =? PSA_NULL_HANDLE); [done|].
  match goal with |- context [if ?x =? 0 then _ else _] => pose proof (u32_range
    (Z.shiftr (u32 (u32 h - CLIENT_HANDLE_VALUE_MIN)) CONVERSION_FACTOR_BITOFFSET + conn_handle_pool cfg)) end.
  destruct (_ =? 0); [done|]. by intros [= <-].
Qed.

Lemma programmer_err {A} (s : st) ns (a : A) (Q : A -> st -> Prop) : Q a s ->
  swp (TFM_PROGRAMMER_ERROR ns a) s Q (fun _ => True).
Proof. intros H. by apply swp_programmer. Qed.

(** The status of a call that has no connection to go through. *)
Definition target_error (s : st) (v : view) (r handle cid : Z) (ns : bool) : option Z :=
  if IS_VALID_STATIC_HANDLE handle then
    let index := GET_INDEX_FROM_STATIC_HANDLE handle in
    match stateless_service_ref s index with
    | None => None
    | Some j =>
        match service_at cfg j with
        | None => None
        | Some db =>
            if negb (authorized r (nth (Z.to_nat index) (stateless_sids cfg) 0) db ns)
            then Some PSA_ERROR_CONNECTION_REFUSED
            else if negb (version_ok db (GET_VERSION_FROM_STATIC_HANDLE handle)) then Some PSA_ERROR_PROGRAMMER_ERROR
            else match free v with [] => Some PSA_ERROR_CONNECTION_BUSY | _ => None end
        end
    end
  else
    match tfm_spm_to_handle_instance cfg handle with
    | None => Some PSA_ERROR_PROGRAMMER_ERROR
    | Some c =>
        if negb (bool_decide (c ∈ conn_chunks cfg)) || negb (client_id (conns s c) =? cid) ||
           (status (conns s c) =? TFM_HANDLE_STATUS_ACTIVE) || (status (conns s c) =? TFM_HANDLE_STATUS_CONNECT_ERROR)
        then Some PSA_ERROR_PROGRAMMER_ERROR else None
    end.

(** No service is at the index of the static handle: the assertion on it fails. *)
Definition empty_slot (s : st) (handle : Z) : Prop :=
  IS_VALID_STATIC_HANDLE handle = true /\ stateless_service_ref s (GET_INDEX_FROM_STATIC_HANDLE handle) = None.

Lemma programmer_panic {A} (s : st) ns (a : A) (Q : A -> st -> Prop) (P : st -> Prop) : Q a s ->
  (ns = false -> P s) -> swp (TFM_PROGRAMMER_ERROR ns a) s Q P.
Proof. intros H1 H2. by apply swp_programmer. Qed.

Lemma static_target_spec (s : st) v r handle cid ns : spm_ok cfg s v -> running cfg s r ->
  IS_VALID_STATIC_HANDLE handle = true ->
  swp (call_target cfg handle cid ns) s (fun t s' =>
    match t with
    | Err e => s' = s /\ target_error s v r handle cid ns = Some e
    | Ok (c, sv, h) => target_error s v r handle cid ns = None /\
        exists v' j db, sv = Some j /\ target s v r handle cid ns c j db h s' v'
    end) (fun _ => (ns = false /\ is_Some (target_error s v r handle cid ns)) \/ empty_slot s handle).
Proof using Hcfg.
  intros HO Hr Est. unfold call_target, target_error, empty_slot. rewrite Est. swp_steps.
  destruct (stateless_service_ref s _) as [j|] eqn:Ej.
  2:{ unfold tfm_spm_check_authorization. apply swp_bind. apply swp_assert; [done|]. by right. }
  destruct (tb_stateless _ _ (so_tables _ _ _ HO) _ _ Ej) as [db Hj]. rewrite Hj.
  apply (check_authorization_spec _ v r _ j db); [done|done|done|].
  destruct (authorized r _ db ns) eqn:Ea; cbn [Z.eqb SPM_SUCCESS SPM_ERROR_GENERIC SPM_ERROR_BASE negb];
    [|apply programmer_panic; eauto]. swp_steps. apply (swp_deref _ j); [done|]. swp_steps.
  apply (check_version_spec _ v j db); [done|done|].
  destruct (version_ok db _) eqn:Ev; cbn [Z.eqb SPM_SUCCESS SPM_ERROR_VERSION SPM_ERROR_BASE negb];
    [|apply programmer_panic; eauto]. swp_steps.
  apply (create_spec cfg Hcfg s v j); [done|by rewrite Hj|].
  destruct (free v) as [|c fr] eqn:Ef; [apply programmer_panic; eauto|].
  intros n HO1. swp_steps.
  assert (Hch : c ∈ conn_chunks cfg).
  { apply (ls_free _ _ _ (so_lists _ _ _ HO)). rewrite Ef. set_solver +. }
  apply (on_conn_ok cfg c (set_rhandle 0)) in HO1; [|done].
  apply (user_handle_spec _ _ c _ _ HO1 Hch). intros h i s1 Hh HO2. apply swp_ret. split; [done|].
  exists (view_open j c fr v), j, db. split; [done|]. split; try done.
  - cbn. rewrite upd_eq. set_solver +.
  - unfold s1. cbn. by rewrite !upd_eq.
  - apply Hh.
  - rewrite Est. split; [done|]. split; [|split].
    + unfold s1. cbn. by rewrite !upd_eq.
    + rewrite Ef. set_solver +.
    + cbn. pose proof (ls_free _ _ _ (so_lists _ _ _ HO)) as [[Hnd _] _]. rewrite Ef in Hnd.
      apply NoDup_cons in Hnd as [_ Hnd]. apply NoDup_cons in Hnd as [Hnd _].
      by rewrite in_map_node in Hnd by by intros ?? [=].
Qed.

Lemma call_target_spec (s : st) v r handle cid ns : spm_ok cfg s v -> running cfg s r ->
  handle_live s v handle cid ->
  swp (call_target cfg handle cid ns) s (fun t s' =>
    match t with
    | Err e => s' = s /\ target_error s v r handle cid ns = Some e
    | Ok (c, sv, h) => target_error s v r handle cid ns = None /\
        exists v' j db, sv = Some j /\ target s v r handle cid ns c j db h s' v'
    end) (fun _ => (ns = false /\ is_Some (target_error s v r handle cid ns)) \/ empty_slot s handle).
Proof using Hcfg.
  intros HO Hr Hlive. destruct (IS_VALID_STATIC_HANDLE handle) eqn:Est; [by apply static_target_spec|].
  unfold call_target, target_error. rewrite Est. destruct (tfm_spm_to_handle_instance cfg handle) as [c|] eqn:Ec.
  2:{ apply programmer_panic; eauto. }
  unfold tfm_spm_validate_conn_handle, conn. swp_steps. pose proof (instance_range _ _ Ec) as Hrange.
  pose proof (valid_chunk_spec s v c HO Hrange) as Hvc.
  destruct (valid_chunk cfg c s); [rewrite bool_decide_eq_true_2 by (by apply Hvc)|
    rewrite bool_decide_eq_false_2 by (intros H; by apply Hvc in H)];
    cbn [negb orb]; [|swp_steps; apply programmer_panic; eauto].
  destruct (Z.eqb_spec (client_id (conns s c)) cid) as [Ecl|]; cbn [negb orb]; swp_steps;
    [|apply programmer_panic; eauto]. cbn [Z.eqb SPM_SUCCESS negb]. swp_steps.
  destruct (Z.eqb_spec (status (conns s c)) TFM_HANDLE_STATUS_ACTIVE); cbn [orb]; [apply programmer_panic; eauto|].
  destruct (Z.eqb_spec (status (conns s c)) TFM_HANDLE_STATUS_CONNECT_ERROR); [by apply swp_ret|].
  apply swp_ret. split; [done|].
  destruct (opened_service _ _ _ _ (so_conns _ _ _ HO) (Hlive c Ec (proj1 Hvc eq_refl) Ecl)) as (j & db & H1 & H2 & H3).
  exists v, j, db. split; [done|]. split; try done. by rewrite Est.
Qed.

(** ** The vectors of a call *)

(** One vector ends before the other starts. *)
Definition vecs_apart (i j : psa_vec) : Prop := base j + len j <= base i \/ base i + len i <= base j.

Lemma accessible_no_wrap ns access privileged x : 0 <= base x < 2 ^ 32 -> 0 <= len x ->
  vec_accessible cfg ns access privileged x = true -> base x + len x < 2 ^ 32.
Proof.
  intros Hb Hl. unfold vec_accessible, tfm_memory_check. destruct (Z.eqb_spec (len x) 0); [lia|].
  destruct (base x =? 0); [done|]. rewrite Z.gtb_ltb.
  destruct (Z.ltb_spec (UINT32_MAX - len x) (base x)); [done|]. unfold UINT32_MAX in *. lia.
Qed.

Lemma any_overlap_spec l : (forall x, x ∈ l -> 0 <= base x /\ 0 <= len x /\ base x + len x < 2 ^ 32) ->
  any_overlap l = false <-> ForallOrdPairs vecs_apart l.
Proof.
  induction l as [|x l IH]; intros Hl; [split; [constructor|done]|]. cbn [any_overlap].
  rewrite orb_false_iff, IH by (intros y Hy; apply Hl; set_solver + Hy).
  assert (Hx : existsb (vecs_overlap x) l = false <-> Forall (vecs_apart x) l).
  { rewrite Forall_forall. split.
    - intros He y Hy. pose proof (existsb_not _ _ _ He Hy) as Ho. unfold vecs_overlap in Ho.
      pose proof (Hl x ltac:(set_solver +)). pose proof (Hl y ltac:(set_solver + Hy)).
      rewrite !u32_small in Ho by lia.
      apply negb_false_iff, orb_true_iff in Ho as [Ho%Z.leb_le|Ho]; [by left|right].
      rewrite Z.geb_leb in Ho. by apply Z.leb_le.
    - intros Hf. destruct (existsb (vecs_overlap x) l) eqn:E; [|done]. apply existsb_elem in E as (y & Hy & Ho).
      specialize (Hf y Hy). unfold vecs_overlap in Ho.
      pose proof (Hl x ltac:(set_solver +)). pose proof (Hl y ltac:(set_solver + Hy)).
      rewrite !u32_small in Ho by lia. apply negb_true_iff, orb_false_iff in Ho as [Ho1%Z.leb_gt Ho2].
      rewrite Z.geb_leb in Ho2. apply Z.leb_gt in Ho2. destruct Hf; lia. }
  rewrite Hx. split; [intros [H1 H2]; by constructor|]. inversion 1. done.
Qed.

Lemma load_vec_range m a x n : x ∈ load_vecs m a n -> 0 <= base x < 2 ^ 32 /\ 0 <= len x < 2 ^ 32.
Proof.
  unfold load_vecs. rewrite list_elem_of_In, in_map_iff. intros (i & <- & _). split; apply u32_range.
Qed.

Lemma length_load_vecs m a n : length (load_vecs m a n) = n.
Proof. unfold load_vecs. by rewrite length_map, length_seq. Qed.

(** What psa_call has checked of the vectors of a message it sends. *)
Record vectors_checked (m : mem) (ns : bool) (privileged inptr in_num outptr out_num : Z)
    (invecs outvecs : list psa_vec) : Prop := {
  vc_num : Z.of_nat (length invecs) = in_num /\ Z.of_nat (length outvecs) = out_num /\
    in_num + out_num <= PSA_MAX_IOVEC;
  vc_arrays : tfm_memory_check cfg inptr (8 * in_num) ns TFM_MEMORY_ACCESS_RO privileged = SPM_SUCCESS /\
    tfm_memory_check cfg outptr (8 * out_num) ns TFM_MEMORY_ACCESS_RW privileged = SPM_SUCCESS;
  vc_copied : invecs = load_vecs m inptr (Z.to_nat in_num) /\ outvecs = load_vecs m outptr (Z.to_nat out_num);
  vc_readable : forall x, x ∈ invecs ->
    tfm_memory_check cfg (base x) (len x) ns TFM_MEMORY_ACCESS_RO privileged = SPM_SUCCESS;
  vc_writable : forall x, x ∈ outvecs ->
    tfm_memory_check cfg (base x) (len x) ns TFM_MEMORY_ACCESS_RW privileged = SPM_SUCCESS;
  vc_apart : ForallOrdPairs vecs_apart invecs
}.

Lemma vectors_checked_intro m ns privileged inptr in_num outptr out_num : 0 <= in_num -> 0 <= out_num ->
  let invecs := load_vecs m inptr (Z.to_nat in_num) in
  let outvecs := load_vecs m outptr (Z.to_nat out_num) in
  (in_num >? PSA_MAX_IOVEC) || (out_num >? PSA_MAX_IOVEC) || (u32 (in_num + out_num) >? PSA_MAX_IOVEC) = false ->
  tfm_memory_check cfg inptr (u32 (in_num * 8)) ns TFM_MEMORY_ACCESS_RO privileged = SPM_SUCCESS ->
  tfm_memory_check cfg outptr (u32 (out_num * 8)) ns TFM_MEMORY_ACCESS_RW privileged = SPM_SUCCESS ->
  forallb (vec_accessible cfg ns TFM_MEMORY_ACCESS_RO privileged) invecs = true ->
  any_overlap invecs = false ->
  forallb (vec_accessible cfg ns TFM_MEMORY_ACCESS_RW privileged) outvecs = true ->
  vectors_checked m ns privileged inptr in_num outptr out_num invecs outvecs.
Proof.
  intros Hi Ho invecs outvecs Hn Hin Hout Hri Hov Hwo. rewrite !Z.gtb_ltb in Hn. unfold PSA_MAX_IOVEC in Hn.
  apply orb_false_iff in Hn as [[H1%Z.ltb_ge H2%Z.ltb_ge]%orb_false_iff H3%Z.ltb_ge].
  rewrite !u32_small in * by lia. rewrite !(Z.mul_comm _ 8) in *.
  assert (Hall : forall access l x, forallb (vec_accessible cfg ns access privileged) l = true -> x ∈ l ->
    vec_accessible cfg ns access privileged x = true).
  { intros access l x Hf Hx. rewrite forallb_forall in Hf. apply Hf. by apply list_elem_of_In. }
  split.
  - unfold invecs, outvecs, PSA_MAX_IOVEC. rewrite !length_load_vecs. lia.
  - done.
  - done.
  - intros x Hx. apply Z.eqb_eq. by apply (Hall _ invecs).
  - intros x Hx. apply Z.eqb_eq. by apply (Hall _ outvecs).
  - apply any_overlap_spec; [|done]. intros x Hx. destruct (load_vec_range _ _ _ _ Hx) as [Hb Hl].
    split; [lia|]. split; [lia|]. apply (accessible_no_wrap ns TFM_MEMORY_ACCESS_RO privileged); [done|lia|].
    by apply (Hall _ invecs).
Qed.

(** ** psa_call *)

(** The checks of the code pass for checked vectors. *)
Lemma vectors_checked_elim m ns privileged inptr in_num outptr out_num i o :
  vectors_checked m ns privileged inptr in_num outptr out_num i o ->
  let invecs := load_vecs m inptr (Z.to_nat in_num) in
  let outvecs := load_vecs m outptr (Z.to_nat out_num) in
  (in_num >? PSA_MAX_IOVEC) || (out_num >? PSA_MAX_IOVEC) || (u32 (in_num + out_num) >? PSA_MAX_IOVEC) = false /\
  tfm_memory_check cfg inptr (u32 (in_num * 8)) ns TFM_MEMORY_ACCESS_RO privileged = SPM_SUCCESS /\
  tfm_memory_check cfg outptr (u32 (out_num * 8)) ns TFM_MEMORY_ACCESS_RW privileged = SPM_SUCCESS /\
  forallb (vec_accessible cfg ns TFM_MEMORY_ACCESS_RO privileged) invecs = true /\
  any_overlap invecs = false /\
  forallb (vec_accessible cfg ns TFM_MEMORY_ACCESS_RW privileged) outvecs = true.
Proof.
  intros [(N1 & N2 & N3) [A1 A2] [-> ->] R Wr Ap] invecs outvecs. unfold PSA_MAX_IOVEC in *.
  fold invecs in N1, R, Ap. fold outvecs in N2, Wr.
  rewrite !Z.gtb_ltb, !u32_small, !(Z.mul_comm _ 8) by lia.
  assert (Hall : forall access l, (forall x, x ∈ l -> tfm_memory_check cfg (base x) (len x) ns access privileged = SPM_SUCCESS) ->
    forallb (vec_accessible cfg ns access privileged) l = true).
  { intros access l H. apply forallb_forall. intros x Hx. apply Z.eqb_eq, H. by apply list_elem_of_In. }
  split; [rewrite !orb_false_iff, !Z.ltb_ge; lia|]. split; [done|]. split; [done|]. split; [by apply Hall|].
  split; [|by apply Hall]. apply any_overlap_spec; [|done]. intros x Hx.
  destruct (load_vec_range _ _ _ _ Hx) as [Hb Hl]. split; [lia|]. split; [lia|].
  apply (accessible_no_wrap ns TFM_MEMORY_ACCESS_RO privileged); [done|lia|]. by apply Z.eqb_eq, R.
Qed.

(** Why a call of client [cid] on [handle] is refused with status [e]. *)
Definition call_refusal (s : st) (v : view) (r handle cid inptr in_num outptr out_num : Z) (ns : bool)
    (privileged e : Z) : Prop :=
  target_error s v r handle cid ns = Some e \/
  (e = PSA_ERROR_PROGRAMMER_ERROR /\
   ~ exists i o, vectors_checked (memory s) ns privileged inptr in_num outptr out_num i o).

(** Outcomes of psa_call: refused, or a message for connection [c] at the end
    of the queue of the service.  A refused call on a static handle may have
    opened a connection (see the findings). *)
Inductive call_result (s : st) (v : view) (r handle type_ inptr in_num outptr out_num : Z)
    (ns : bool) (privileged : Z) : Z -> st -> Prop :=
| Call_refused cid e s' v' :
    client_of cfg r = Some cid -> call_refusal s v r handle cid inptr in_num outptr out_num ns privileged e ->
    spm_ok cfg s' v' -> (forall p, queue v' p = queue v p) ->
    scheduler s' = scheduler s -> memory s' = memory s ->
    call_result s v r handle type_ inptr in_num outptr out_num ns privileged e s'
| Call_sent cid c j db h s1 v1 s' invecs outvecs :
    client_of cfg r = Some cid -> target_error s v r handle cid ns = None ->
    target s v r handle cid ns c j db h s1 v1 ->
    vectors_checked (memory s) ns privileged inptr in_num outptr out_num invecs outvecs ->
    spm_ok cfg s' (view_send (owner_of cfg db) c v1) ->
    p_curr_thrd (scheduler s') = Some r -> blocked (scheduler s') r -> memory s' = memory s ->
    carries s' c r j (filled cfg s1 j h type_ cid invecs outvecs outptr) ->
    call_result s v r handle type_ inptr in_num outptr out_num ns privileged PSA_SUCCESS s'.

Lemma caller_client r ns : caller_ok r ns -> is_Some (client_of cfg r).
Proof. intros (stat & Hst & _). unfold client_of. rewrite Hst. by eexists. Qed.

Lemma call_spec (s : st) v r handle type_ inptr in_num outptr out_num ns privileged :
  spm_ok cfg s v -> running cfg s r -> caller_ok r ns -> 0 <= in_num -> 0 <= out_num ->
  (forall cid, client_of cfg r = Some cid -> handle_live s v handle cid) ->
  swp (tfm_spm_client_psa_call cfg rpc_ops handle type_ inptr in_num outptr out_num ns privileged) s
    (call_result s v r handle type_ inptr in_num outptr out_num ns privileged)
    (fun _ => empty_slot s handle \/ (ns = false /\ exists cid e, client_of cfg r = Some cid /\
       call_refusal s v r handle cid inptr in_num outptr out_num ns privileged e)).
Proof using Hcfg.
  intros HO Hr Hns Hin Hout Hlive. set (P := fun _ : st => _). unfold tfm_spm_client_psa_call.
  destruct (caller_client r ns Hns) as [cid0 Hcid0].
  assert (Href : forall s' v', spm_ok cfg s' v' -> (forall p, queue v' p = queue v p) ->
    scheduler s' = scheduler s -> memory s' = memory s ->
    ~ (exists i o, vectors_checked (memory s) ns privileged inptr in_num outptr out_num i o) ->
    swp (TFM_PROGRAMMER_ERROR ns PSA_ERROR_PROGRAMMER_ERROR) s'
      (call_result s v r handle type_ inptr in_num outptr out_num ns privileged) P).
  { intros s' v' H1 H2 H3 H4 H5. apply programmer_panic.
    - apply (Call_refused _ _ _ _ _ _ _ _ _ _ _ cid0 _ s' v'); try done. by right.
    - intros ->. right. split; [done|]. exists cid0, PSA_ERROR_PROGRAMMER_ERROR. split; [done|]. by right. }
  destruct ((in_num >? PSA_MAX_IOVEC) || _ || _) eqn:En.
  { apply (Href s v); try done. intros (i & o & Hv). apply vectors_checked_elim in Hv. rewrite En in Hv. by destruct Hv. }
  apply swp_bind, (caller_id_spec _ v r); [done|done|done|]. intros cid Hcid.
  apply swp_bind. eapply swp_mono; [by apply (call_target_spec s v r); [| |apply Hlive]| |].
  2:{ intros sx [[Hf [e He]]|He]; [right|by left]. split; [exact Hf|]. exists cid, e. split; [done|]. by left. }
  intros [[[c sv] h]|e] s1.
  2:{ intros [E He]. subst s1. apply swp_ret, (Call_refused _ _ _ _ _ _ _ _ _ _ _ cid _ s v); try done. by left. }
  intros (Herr & v1 & j & db & -> & Ht). pose proof Ht as [T1 T2 T3 T4 T5 T6 T7 T8 T9].
  specialize (Href s1 v1 T1 T8 T5 T6).
  destruct (Z.eqb_spec (tfm_memory_check cfg inptr (u32 (in_num * 8)) ns TFM_MEMORY_ACCESS_RO privileged) SPM_SUCCESS)
    as [Ei|Ei]; cbn [negb]; [|apply Href; intros (i & o & Hv%vectors_checked_elim); tauto].
  destruct (Z.eqb_spec (tfm_memory_check cfg outptr (u32 (out_num * 8)) ns TFM_MEMORY_ACCESS_RW privileged) SPM_SUCCESS)
    as [Eo|Eo]; cbn [negb]; [|apply Href; intros (i & o & Hv%vectors_checked_elim); tauto].
  swp_steps. rewrite T6.
  destruct (forallb (vec_accessible _ _ _ _) (load_vecs (memory s) inptr _)) eqn:Er; cbn [negb];
    [|apply Href; intros (i & o & (_ & _ & _ & Hv & _)%vectors_checked_elim); by rewrite Er in Hv].
  destruct (any_overlap _) eqn:Eov; [apply Href; intros (i & o & (_ & _ & _ & _ & Hv & _)%vectors_checked_elim); by rewrite Eov in Hv|].
  destruct (forallb (vec_accessible _ _ _ _) (load_vecs (memory s) outptr _)) eqn:Ew; cbn [negb];
    [|apply Href; intros (i & o & (_ & _ & _ & _ & _ & Hv)%vectors_checked_elim); by rewrite Ew in Hv].
  pose proof (vectors_checked_intro _ _ _ _ _ _ _ Hin Hout En Ei Eo Er Eov Ew) as Hv.
  pose proof (vc_num _ _ _ _ _ _ _ _ _ Hv) as (L1 & L2 & L3). unfold PSA_MAX_IOVEC in L3.
  apply swp_assoc, swp_bind. rewrite <- T4 at 1.
  apply (submit_spec s1 v1 r j db c); [done|unfold running; by rewrite T5|done|done|by rewrite T4|lia|].
  intros s2 HO2 Hcur Hm Hb Hmem _. apply swp_ret. rewrite T4 in Hm.
  by apply (Call_sent _ _ _ _ _ _ _ _ _ _ _ cid c j db h s1 v1 s2 (load_vecs (memory s) inptr (Z.to_nat in_num))
    (load_vecs (memory s) outptr (Z.to_nat out_num))); rewrite ?Hmem.
Qed.

(** ** psa_close *)

(** A connection of client [cid] that psa_close accepts the handle for. *)
Definition closable (s : st) (handle cid c : Z) : Prop :=
  IS_VALID_STATIC_HANDLE handle = false /\ tfm_spm_to_handle_instance cfg handle = Some c /\
  c ∈ conn_chunks cfg /\ client_id (conns s c) = cid /\ status (conns s c) <> TFM_HANDLE_STATUS_ACTIVE.

Inductive close_result (s : st) (v : view) (r handle : Z) (ns : bool) : unit -> st -> Prop :=
| Close_null : handle = PSA_NULL_HANDLE -> close_result s v r handle ns tt s
| Close_refused cid : ns = true -> client_of cfg r = Some cid -> (forall c, ~ closable s handle cid c) ->
    close_result s v r handle ns tt s
| Close_sent cid c j db s' :
    client_of cfg r = Some cid -> closable s handle cid c ->
    service_at cfg j = Some db -> c ∈ hlist v j ->
    spm_ok cfg s' (view_send (owner_of cfg db) c v) ->
    p_curr_thrd (scheduler s') = Some r -> blocked (scheduler s') r -> memory s' = memory s ->
    carries s' c r j (filled cfg s j handle PSA_IPC_DISCONNECT cid [] [] 0) ->
    close_result s v r handle ns tt s'.

Lemma close_spec (s : st) v r handle ns : spm_ok cfg s v -> running cfg s r -> caller_ok r ns ->
  (forall cid, client_of cfg r = Some cid -> handle_live s v handle cid) ->
  swp (tfm_spm_client_psa_close cfg rpc_ops handle ns) s (close_result s v r handle ns)
    (fun _ => ns = false /\ forall cid c, client_of cfg r = Some cid -> ~ closable s handle cid c).
Proof using Hcfg.
  intros HO Hr Hns Hlive. set (P := fun _ : st => _). unfold tfm_spm_client_psa_close.
  destruct (Z.eqb_spec handle PSA_NULL_HANDLE) as [En|En]; [by apply swp_ret, Close_null|].
  destruct (caller_client r ns Hns) as [cid Hcid].
  assert (Href : (forall c, ~ closable s handle cid c) ->
    swp (TFM_PROGRAMMER_ERROR ns tt) s (close_result s v r handle ns) P).
  { intros Hc. apply swp_programmer; intros ->; [by apply (Close_refused _ _ _ _ _ cid)|]. split; [done|].
    intros cid' c H. rewrite Hcid in H. injection H as <-. apply Hc. }
  destruct (IS_VALID_STATIC_HANDLE handle) eqn:Est; [apply Href; intros c (H & _); by rewrite Est in H|].
  apply swp_bind, (caller_id_spec _ v r); [done|done|done|]. intros cid' Hcid'.
  rewrite Hcid in Hcid'. injection Hcid' as <-. unfold tfm_spm_validate_conn_handle, conn. swp_steps.
  remember (match tfm_spm_to_handle_instance cfg handle with Some c => c | None => 0 end) as c0 eqn:E0.
  assert (Hrange : 0 <= c0 < 2 ^ 32).
  { rewrite E0. destruct (tfm_spm_to_handle_instance cfg handle) eqn:E; [by apply (instance_range handle)|lia]. }
  assert (Hc0 : forall c, closable s handle cid c -> c = c0).
  { rewrite E0. by intros c (_ & -> & _). }
  pose proof (valid_chunk_spec s v c0 HO Hrange) as Hvc.
  destruct (valid_chunk cfg c0 s); cbn [negb].
  2:{ swp_steps. apply Href. intros c H. pose proof (Hc0 c H) as ->. destruct H as (_ & _ & H & _). by apply Hvc in H. }
  destruct (tfm_spm_to_handle_instance cfg handle) as [c|] eqn:Ec.
  2:{ rewrite E0 in Hvc. destruct (chunk_offset 0 (proj1 Hvc eq_refl)). lia. }
  subst c0.
  destruct (Z.eqb_spec (client_id (conns s c)) cid) as [Ecl|]; cbn [negb]; swp_steps;
    [|apply Href; intros c' H; pose proof (Hc0 c' H) as ->; by destruct H as (_ & _ & _ & H & _)].
  cbn [negb Z.eqb SPM_SUCCESS]. swp_steps.
  assert (Hch : c ∈ conn_chunks cfg) by by apply Hvc.
  destruct (opened_service _ _ _ _ (so_conns _ _ _ HO) (Hlive cid Hcid c Ec Hch Ecl)) as (j & db & H1 & H2 & H3).
  rewrite H1. destruct (Z.eqb_spec (status (conns s c)) TFM_HANDLE_STATUS_ACTIVE) as [Es|Es].
  { apply Href. intros c' H. pose proof (Hc0 c' H) as ->. by destruct H as (_ & _ & _ & _ & H). }
  rewrite <- Ecl at 1. apply (submit_spec s v r j db c); [done|done|done|done|by rewrite Ecl|cbn; lia|].
  intros s2 HO2 Hcur Hm Hb Hmem _. rewrite Ecl in Hm. by apply (Close_sent _ _ _ _ _ cid c j db).
Qed.
End Call.
