(* ===== verification/SpmInvServe.v ===== *)
(** * Secure Partition Manager: the service calls keep the invariant

    psa_wait, psa_get, psa_set_rhandle, psa_read, psa_skip, psa_write,
    psa_reply, psa_notify, psa_clear, psa_eoi and the interrupt controls.  A
    service must reply only to messages it took with psa_get and has not
    replied to (see the findings). *)

From Stdlib Require Import ZArith List Lia Bool.
From stdpp Require Import base tactics list sets.
From S2P Require Import Prelude SpmBase BiList SpmPool SpmSched SpmState SpmIpc SpmClient SpmService.
From S2P Require Import SpmInv SpmInvMsg SpmInvGet SpmInvCall.
Import ListNotations.
Local Open Scope Z_scope.
Local Open Scope spm_scope.

Section Serve.
Context {W : Type} (cfg : spm_config) (rpc_ops : tfm_rpc_ops_t W) (Hcfg : spm_cfg_ok cfg).
Local Abbreviation st := (spm W).

(** ** Frames *)
Lemma memory_ok m (s : st) v : spm_ok cfg s v -> spm_ok cfg (set_memory m s) v.
Proof. intros H. by apply (spm_ok_frame cfg s). Qed.
Lemma irq_ok e p (s : st) v : spm_ok cfg s v -> spm_ok cfg (set_irq e p s) v.
Proof. intros H. by apply (spm_ok_frame cfg s). Qed.

Lemma running_curr (s : st) r (Q : Z -> st -> Prop) P : running cfg s r -> Q r s ->
  swp tfm_spm_get_running_partition s Q P.
Proof.
  intros (Hc & _) HQ. unfold tfm_spm_get_running_partition. swp_steps. by apply (swp_deref _ r).
Qed.

(** The mode the memory of partition [r] is checked for. *)
Definition mode_of (r : Z) : Z :=
  match static_at cfg r with
  | Some stat => tfm_spm_partition_get_privileged_mode (part_flags stat)
  | None => 0
  end.

Lemma mode_spec (s : st) v r (Q : Z -> st -> Prop) P : spm_ok cfg s v -> running cfg s r -> Q (mode_of r) s ->
  swp running_partition_mode s Q P.
Proof.
  intros HO Hr HQ. unfold running_partition_mode. apply swp_bind, (running_curr _ r); [done|]. swp_steps.
  destruct Hr as (_ & [stat Hst] & _). rewrite (tb_static _ _ (so_tables _ _ _ HO) r stat Hst).
  unfold mode_of in HQ. by rewrite Hst in HQ.
Qed.

(** ** Message handles *)

(** [h] is a handle of a message for a service of partition [r]. *)
Definition owned (s : st) (r h c : Z) : Prop :=
  tfm_spm_to_handle_instance cfg h = Some c /\ c ∈ conn_chunks cfg /\
  magic (internal_msg (conns s c)) = TFM_MSG_MAGIC /\
  exists j db, msg_service (internal_msg (conns s c)) = Some j /\ service_at cfg j = Some db /\ owner_of cfg db = r.

Lemma get_msg_from_handle_spec (s : st) v r h (Q : option Z -> st -> Prop) P : spm_ok cfg s v -> running cfg s r ->
  (forall m, (forall c, m = Some c <-> owned s r h c) -> Q m s) -> swp (tfm_spm_get_msg_from_handle cfg h) s Q P.
Proof using Hcfg.
  intros HO Hr HQ. unfold tfm_spm_get_msg_from_handle.
  destruct (tfm_spm_to_handle_instance cfg h) as [c|] eqn:Ec.
  2:{ apply swp_ret, HQ. intros c. split; [done|]. unfold owned. rewrite Ec. by intros []. }
  assert (Hno : ~ owned s r h c -> Q None s).
  { intros Hn. apply HQ. intros c'. split; [done|]. intros Ho. destruct Hn. pose proof Ho as [E _].
    rewrite Ec in E. injection E as <-. done. }
  swp_steps. pose proof (instance_range cfg _ _ Ec) as Hrange.
  pose proof (valid_chunk_spec cfg Hcfg s v c HO Hrange) as Hv.
  destruct (valid_chunk cfg c s); cbn [negb].
  2:{ apply swp_ret, Hno. intros (_ & H & _). apply Hv in H. done. }
  destruct (Z.eqb_spec (magic (internal_msg (conns s c))) TFM_MSG_MAGIC) as [Em|]; cbn [negb].
  2:{ apply swp_ret, Hno. by intros (_ & _ & H & _). }
  assert (Hch : c ∈ conn_chunks cfg) by by apply Hv.
  destruct (co_magic _ _ _ (so_conns _ _ _ HO) c Hch Em) as [Ho Hs].
  destruct (opened_service _ _ _ _ (so_conns _ _ _ HO) Ho) as (j & db & Hj & Hdb & _). rewrite Hj in Hs.
  unfold tfm_spm_partition_get_running_partition_id. swp_steps. apply (running_curr _ r); [done|]. swp_steps.
  apply (swp_deref _ j); [done|]. swp_steps. rewrite (tb_service _ _ (so_tables _ _ _ HO) j db Hdb). cbn [partition].
  apply (swp_deref _ (owner_of cfg db)); [done|].
  destruct (cf_owner _ Hcfg j db Hdb) as [st1 Hst1]. pose proof Hr as (_ & [st2 Hst2] & _).
  rewrite (tb_static _ _ (so_tables _ _ _ HO) _ _ Hst1), (tb_static _ _ (so_tables _ _ _ HO) _ _ Hst2).
  destruct (Z.eqb_spec (pid st2) (pid st1)) as [Ep|Ep]; cbn [negb].
  - apply swp_ret, HQ. intros c'. unfold owned. rewrite Ec. split.
    + intros [= <-]. split; [done|]. split; [done|]. split; [done|]. exists j, db. split; [done|]. split; [done|].
      symmetry. by apply (static_inj cfg Hcfg r _ st2 st1).
    + by intros (? & _).
  - apply swp_ret, Hno. intros (_ & _ & _ & j' & db' & E1 & E2 & E3). apply Ep.
    rewrite Hs in E1. injection E1 as <-. rewrite Hdb in E2. injection E2 as <-. rewrite E3 in Hst1. congruence.
Qed.

(** ** psa_wait *)
Lemma wait_partition_spec (s : st) v r mask (Q : unit -> st -> Prop) P : spm_ok cfg s v -> running cfg s r ->
  (forall s', spm_ok cfg s' v -> p_curr_thrd (scheduler s') = Some r -> blocked (scheduler s') r ->
     owner (event (partitions s' r)) = Some r -> signals_waiting (partitions s' r) = mask ->
     signals_asserted (partitions s' r) = signals_asserted (partitions s r) ->
     memory s' = memory s -> Q tt s') ->
  swp (do! sput (on_partition r (set_signals_waiting mask)) in wait_partition r) s Q P.
Proof using Hcfg.
  intros [HT HL HC HS HE HTh] Hr HQ. pose proof Hr as (Hcur & Hrs & Hrun).
  unfold wait_partition, the_partition, on_sched. swp_steps. cbn. rewrite upd_eq. cbn.
  pose proof HE as [E1 E2 E3]. destruct (E1 r Hrs) as [Hm _].
  unfold swp at 1. cbn [scheduler on_partition set_partitions]. rewrite (event_wait_eq _ _ r Hm Hcur). swp_steps.
  change (set_pendsv true (with_state r THRD_STATE_BLOCK (scheduler s))) with (waiting r (scheduler s)).
  assert (Hnb : forall k, blocked (scheduler s) k -> k <> r).
  { intros k Hb ->. by apply (runnable_not_blocked (scheduler s) r). }
  assert (Hbl : forall k, blocked (scheduler s) k -> blocked (waiting r (scheduler s)) k).
  { intros k Hb. unfold blocked. rewrite waiting_thrds. by destruct (k =? r). }
  apply HQ; cbn [memory set_partitions on_partition partitions scheduler set_scheduler].
  2:{ cbn [p_curr_thrd waiting set_pendsv]. by rewrite with_state_curr. }
  2:{ unfold blocked. by rewrite waiting_thrds, Z.eqb_refl. }
  2-4: by rewrite !upd_eq.
  2: done.
  split; cbn [partitions on_partition set_partitions scheduler set_scheduler conns nodes].
  - apply (tables_ok_same cfg s); try done. intros p. upd_cases.
  - done.
  - done.
  - apply (signals_ok_same cfg (partitions s) _ (conns s)); [intros p; upd_cases|done|done].
  - split.
    + intros p Hp. destruct (E1 p Hp) as [Hmp Ho]. destruct (Z.eq_dec p r) as [->|Hn].
      * rewrite upd_eq. cbn. split; [done|]. intros k [= <-]. split; [done|].
        split; [unfold blocked; by rewrite waiting_thrds, Z.eqb_refl|].
        intros c Hc Hoc. destruct (E2 c Hc) as (_ & k & Hk & _ & Hb & _). rewrite Hoc in Hk. injection Hk as <-.
        by apply (Hnb r).
      * rewrite !upd_ne by done. split; [done|]. intros k Hk. destruct (Ho k Hk) as (-> & Hb & Hpd).
        split; [done|]. split; [by apply Hbl|done].
    + intros c Hc. destruct (E2 c Hc) as (H1 & k & H2 & H3 & H4 & H5). split; [done|]. exists k.
      split; [done|]. split; [done|]. split; [by apply Hbl|done].
    + done.
  - by apply threads_ok_waiting.
Qed.

(** psa_wait: the asserted signals of the mask, or the caller sleeps. *)
Inductive wait_result (s : st) (v : view) (r mask timeout : Z) : Z -> st -> Prop :=
| Wait_done :
    Z.land timeout PSA_TIMEOUT_MASK <> PSA_BLOCK \/ Z.land (signals_asserted (partitions s r)) mask <> 0 ->
    wait_result s v r mask timeout (Z.land (signals_asserted (partitions s r)) mask) s
| Wait_blocked s' :
    Z.land timeout PSA_TIMEOUT_MASK = PSA_BLOCK -> Z.land (signals_asserted (partitions s r)) mask = 0 ->
    spm_ok cfg s' v -> p_curr_thrd (scheduler s') = Some r -> blocked (scheduler s') r ->
    owner (event (partitions s' r)) = Some r -> signals_waiting (partitions s' r) = mask ->
    signals_asserted (partitions s' r) = signals_asserted (partitions s r) -> memory s' = memory s ->
    wait_result s v r mask timeout 0 s'.

Lemma wait_spec (s : st) v r mask timeout : spm_ok cfg s v -> running cfg s r ->
  swp (tfm_spm_psa_wait mask timeout) s (wait_result s v r mask timeout)
    (fun s' => s' = s /\ Z.land (signals_allowed (partitions s r)) mask = 0).
Proof using Hcfg.
  intros HO Hr. unfold tfm_spm_psa_wait. apply swp_bind, (running_curr _ r); [done|].
  unfold the_partition. swp_steps.
  destruct (Z.eqb_spec (Z.land (signals_allowed (partitions s r)) mask) 0) as [|Ha]; [by apply swp_panic|].
  destruct (Z.eqb_spec (Z.land timeout PSA_TIMEOUT_MASK) PSA_BLOCK) as [Et|Et]; cbn [andb].
  2:{ swp_steps. apply Wait_done. by left. }
  destruct (Z.eqb_spec (Z.land (signals_asserted (partitions s r)) mask) 0) as [Es|Es].
  - apply swp_bind, (wait_partition_spec s v r mask); [done|done|].
    intros s' H1 H2 H3 H4 H5 H6 H7. swp_steps. rewrite H6, Es. by apply Wait_blocked.
  - swp_steps. apply Wait_done. by right.
Qed.

(** ** psa_get *)

(** The message in the memory of the service. *)
Definition delivered (s s' : st) (c msg_ptr : Z) : Prop :=
  memory s' = mwrite (memory s) msg_ptr (psa_msg_bytes (msg (internal_msg (conns s c)))) sizeof_psa_msg.

Inductive get_result (s : st) (v : view) (r signal msg_ptr : Z) : Z -> st -> Prop :=
| Get_none s' : first_msg (sig_is cfg (conns s) signal) (queue v r) = None -> spm_ok cfg s' v ->
    scheduler s' = scheduler s -> memory s' = memory s -> conns s' = conns s ->
    get_result s v r signal msg_ptr PSA_ERROR_DOES_NOT_EXIST s'
| Get_message c rest s' : first_msg (sig_is cfg (conns s) signal) (queue v r) = Some (c, rest) ->
    spm_ok cfg s' (set_queue r rest v) -> scheduler s' = scheduler s -> delivered s s' c msg_ptr ->
    internal_msg (conns s' c) = internal_msg (conns s c) -> status (conns s' c) = TFM_HANDLE_STATUS_ACTIVE ->
    (forall x, x <> c -> conns s' x = conns s x) ->
    get_result s v r signal msg_ptr PSA_SUCCESS s'.

(** The precondition of psa_get. *)
Definition gettable (s : st) (r signal msg_ptr : Z) : Prop :=
  one_bit signal /\ Z.land (signals_asserted (partitions s r)) signal <> 0 /\
  tfm_memory_check cfg msg_ptr sizeof_psa_msg false TFM_MEMORY_ACCESS_RW (mode_of r) = SPM_SUCCESS.

Lemma get_spec (s : st) v r signal msg_ptr : spm_ok cfg s v -> running cfg s r -> 0 <= signal < 2 ^ 32 ->
  swp (tfm_spm_psa_get cfg signal msg_ptr) s
    (fun e s' => gettable s r signal msg_ptr /\ get_result s v r signal msg_ptr e s')
    (fun s' => s' = s /\ ~ gettable s r signal msg_ptr).
Proof using Hcfg.
  intros HO Hr Hsg. pose proof Hr as (_ & Hrs & _). unfold tfm_spm_psa_get, gettable.
  destruct (IS_ONLY_ONE_BIT_IN_UINT32 signal) eqn:E1; cbn [negb].
  2:{ apply swp_panic. split; [done|]. intros (H%one_bit_test & _). congruence. }
  apply one_bit_spec in E1; [|done]. apply swp_bind, (running_curr _ r); [done|].
  apply swp_bind, (mode_spec _ v r); [done|done|].
  destruct (Z.eqb_spec (tfm_memory_check cfg msg_ptr sizeof_psa_msg false TFM_MEMORY_ACCESS_RW (mode_of r)) SPM_SUCCESS);
    cbn [negb]; [|apply swp_panic; split; [done|tauto]]. unfold the_partition. swp_steps.
  destruct (Z.eqb_spec (signals_asserted (partitions s r)) 0) as [E0|];
    [apply swp_panic; split; [done|]; rewrite E0, Z.land_0_l; tauto|].
  destruct (Z.eqb_spec (Z.land (signals_asserted (partitions s r)) signal) 0) as [|Ha];
    [apply swp_panic; split; [done|tauto]|].
  apply swp_bind, (get_msg_spec cfg Hcfg s v r signal); [done|done|done|]. intros s1.
  destruct (first_msg (sig_is cfg (conns s) signal) (queue v r)) as [[c rest]|] eqn:Ef.
  - intros [K1 K2 K3 _] HO1. swp_steps. split; [done|].
    apply (Get_message _ _ _ _ _ c rest); [done| | | | | |]; cbn.
    + by apply memory_ok, on_conn_ok.
    + done.
    + unfold delivered. cbn. by rewrite upd_eq, K1, K3.
    + by rewrite upd_eq, K1.
    + by rewrite upd_eq.
    + intros x Hx. by rewrite upd_ne, K1.
  - intros [K1 K2 K3 _] HO1. apply swp_ret. split; [done|]. by apply Get_none.
Qed.
End Serve.

(** ** The vectors of a request

    psa_read, psa_skip and psa_write: how far they move in the vectors of the
    client, which memory they change, and when they are refused. *)

(** ** One element of a C array of four *)
Lemma at4_set_eq i x l : 0 <= i < Z.of_nat (length l) -> at4 (set_at4 i x l) i = x.
Proof.
  intros Hi. unfold at4, set_at4. rewrite nth_lookup, list_lookup_insert_eq by lia. done.
Qed.
Lemma at4_set_ne i j x l : 0 <= i -> 0 <= j -> i <> j -> at4 (set_at4 i x l) j = at4 l j.
Proof. intros Hi Hj Hn. unfold at4, set_at4. by rewrite !nth_lookup, list_lookup_insert_ne by lia. Qed.
Lemma vec_at_set_eq i x l : 0 <= i < Z.of_nat (length l) -> vec_at (set_at4 i x l) i = x.
Proof.
  intros Hi. unfold vec_at, set_at4. rewrite nth_lookup, list_lookup_insert_eq by lia. done.
Qed.
Lemma vec_at_set_ne i j x l : 0 <= i -> 0 <= j -> i <> j -> vec_at (set_at4 i x l) j = vec_at l j.
Proof. intros Hi Hj Hn. unfold vec_at, set_at4. by rewrite !nth_lookup, list_lookup_insert_ne by lia. Qed.

Section Data.
Context {W : Type} (cfg : spm_config) (rpc_ops : tfm_rpc_ops_t W) (Hcfg : spm_cfg_ok cfg).
Local Abbreviation st := (spm W).

(** [c] carries a request, with a vector [i]. *)
Definition request (s : st) (r h i c : Z) : Prop :=
  owned cfg s r h c /\ PSA_IPC_CALL <= type (msg (internal_msg (conns s c))) /\ i < PSA_MAX_IOVEC.

Definition remaining (s : st) (c i : Z) : Z := at4 (in_size (msg (internal_msg (conns s c)))) i.
Definition in_base (s : st) (c i : Z) : Z := base (vec_at (invec (internal_msg (conns s c))) i).
Definition out_vec (s : st) (c i : Z) : psa_vec := vec_at (outvec (internal_msg (conns s c))) i.
Definition out_room (s : st) (c i : Z) : Z := at4 (out_size (msg (internal_msg (conns s c)))) i.

(** [k] bytes of input vector [i] are consumed. *)
Definition consumed (i k : Z) (h : tfm_conn_handle_t) : tfm_conn_handle_t :=
  let m := internal_msg h in
  let v := vec_at (invec m) i in
  set_internal_msg
    (set_msg (set_in_size (set_at4 i (u32 (at4 (in_size (msg m)) i - k)) (in_size (msg m))) (msg m))
       (set_invec (set_at4 i {| base := u32 (base v + k); len := len v |} (invec m)) m)) h.

(** [k] bytes are written to output vector [i]. *)
Definition produced (i k : Z) (h : tfm_conn_handle_t) : tfm_conn_handle_t :=
  let m := internal_msg h in
  let v := vec_at (outvec m) i in
  set_internal_msg (set_outvec (set_at4 i {| base := base v; len := u32 (len v + k) |} (outvec m)) m) h.

Lemma consumed_ok c i k (s : st) v : spm_ok cfg s v -> spm_ok cfg (on_conn c (consumed i k) s) v.
Proof. by apply on_conn_ok. Qed.
Lemma produced_ok c i k (s : st) v : spm_ok cfg s v -> spm_ok cfg (on_conn c (produced i k) s) v.
Proof. by apply on_conn_ok. Qed.

Lemma owner_mode_spec (s : st) v r h c (Q : Z -> st -> Prop) P : spm_ok cfg s v -> owned cfg s r h c ->
  Q (mode_of cfg r) s -> swp (owner_mode c) s Q P.
Proof using Hcfg.
  intros HO (_ & _ & _ & j & db & Hj & Hdb & <-) HQ. unfold owner_mode, msg_body, the_service. swp_steps.
  apply (swp_deref _ j); [done|]. swp_steps. rewrite (tb_service _ _ (so_tables _ _ _ HO) j db Hdb). cbn [partition].
  apply (swp_deref _ (owner_of cfg db)); [done|]. unfold gets, swp.
  destruct (cf_owner _ Hcfg j db Hdb) as [stat Hst]. unfold mode_of in HQ. rewrite Hst in HQ.
  by rewrite (tb_static _ _ (so_tables _ _ _ HO) _ _ Hst).
Qed.

(** The handle does not name a request with this vector. *)
Definition no_request (s : st) (r h i : Z) : Prop := forall c, ~ request s r h i c.

Lemma owned_unique (s : st) r h c c' : owned cfg s r h c -> owned cfg s r h c' -> c = c'.
Proof. intros (H & _) (H' & _). congruence. Qed.

(** ** psa_read *)
Inductive read_result (s : st) (v : view) (r h i buffer n : Z) : Z -> st -> Prop :=
| Read_end c : request s r h i c -> remaining s c i = 0 -> read_result s v r h i buffer n 0 s
| Read_bytes c k s' :
    request s r h i c -> remaining s c i <> 0 ->
    tfm_memory_check cfg buffer n false TFM_MEMORY_ACCESS_RW (mode_of cfg r) = SPM_SUCCESS ->
    k = Z.min n (remaining s c i) ->
    s' = on_conn c (consumed i k) (set_memory (mwrite (memory s) buffer (mread (memory s) (in_base s c i) k) k) s) ->
    spm_ok cfg s' v -> read_result s v r h i buffer n k s'.

Lemma read_spec (s : st) v r h i buffer n : spm_ok cfg s v -> running cfg s r ->
  swp (tfm_spm_psa_read cfg h i buffer n) s (read_result s v r h i buffer n)
    (fun s' => s' = s /\ (no_request s r h i \/
       tfm_memory_check cfg buffer n false TFM_MEMORY_ACCESS_RW (mode_of cfg r) <> SPM_SUCCESS)).
Proof using Hcfg.
  intros HO Hr. unfold tfm_spm_psa_read. apply swp_bind, (get_msg_from_handle_spec cfg Hcfg s v r); [done|done|].
  intros [c|] Hown; [|apply swp_panic; split; [done|left]; intros c [Ho _]; by apply Hown in Ho].
  assert (Ho : owned cfg s r h c) by by apply Hown.
  assert (Hno : PSA_IPC_CALL > type (msg (internal_msg (conns s c))) \/ i >= PSA_MAX_IOVEC -> no_request s r h i).
  { intros Hx c' (Ho' & H1 & H2). rewrite (owned_unique s r h c c') in Hx by done. lia. }
  apply swp_bind, (owner_mode_spec s v r h c); [done|done|]. unfold msg_body. swp_steps.
  destruct (Z.ltb_spec (type (msg (internal_msg (conns s c)))) PSA_IPC_CALL);
    [apply swp_panic; split; [done|left]; apply Hno; lia|]. rewrite Z.geb_leb.
  destruct (Z.leb_spec PSA_MAX_IOVEC i); [apply swp_panic; split; [done|left]; apply Hno; lia|].
  assert (Hreq : request s r h i c) by done.
  destruct (Z.eqb_spec (at4 (in_size (msg (internal_msg (conns s c)))) i) 0) as [E|E];
    [by apply swp_ret, (Read_end _ _ _ _ _ _ _ c)|].
  destruct (Z.eqb_spec (tfm_memory_check cfg buffer n false TFM_MEMORY_ACCESS_RW (mode_of cfg r)) SPM_SUCCESS) as [Em|Em];
    cbn [negb]; [|apply swp_panic; split; [done|by right]].
  unfold consume, modify_msg. swp_steps. fold (remaining s c i).
  assert (Ek : (if n >? remaining s c i then remaining s c i else n) = Z.min n (remaining s c i)).
  { rewrite Z.gtb_ltb. destruct (Z.ltb_spec (remaining s c i) n); lia. }
  rewrite Ek. apply (Read_bytes _ _ _ _ _ _ _ c); try done. apply (consumed_ok c i). by apply memory_ok.
Qed.

(** ** psa_skip *)
Inductive skip_result (s : st) (v : view) (r h i n : Z) : Z -> st -> Prop :=
| Skip_end c : request s r h i c -> remaining s c i = 0 -> skip_result s v r h i n 0 s
| Skip_bytes c k s' :
    request s r h i c -> remaining s c i <> 0 -> k = Z.min n (remaining s c i) ->
    s' = on_conn c (consumed i k) s -> spm_ok cfg s' v -> skip_result s v r h i n k s'.

Lemma skip_spec (s : st) v r h i n : spm_ok cfg s v -> running cfg s r ->
  swp (tfm_spm_psa_skip cfg h i n) s (skip_result s v r h i n) (fun s' => s' = s /\ no_request s r h i).
Proof using Hcfg.
  intros HO Hr. unfold tfm_spm_psa_skip. apply swp_bind, (get_msg_from_handle_spec cfg Hcfg s v r); [done|done|].
  intros [c|] Hown; [|apply swp_panic; split; [done|]; intros c [Ho _]; by apply Hown in Ho].
  assert (Ho : owned cfg s r h c) by by apply Hown.
  assert (Hno : PSA_IPC_CALL > type (msg (internal_msg (conns s c))) \/ i >= PSA_MAX_IOVEC -> no_request s r h i).
  { intros Hx c' (Ho' & H1 & H2). rewrite (owned_unique s r h c c') in Hx by done. lia. }
  unfold msg_body. swp_steps.
  destruct (Z.ltb_spec (type (msg (internal_msg (conns s c)))) PSA_IPC_CALL);
    [apply swp_panic; split; [done|]; apply Hno; lia|]. rewrite Z.geb_leb.
  destruct (Z.leb_spec PSA_MAX_IOVEC i); [apply swp_panic; split; [done|]; apply Hno; lia|].
  assert (Hreq : request s r h i c) by done.
  destruct (Z.eqb_spec (at4 (in_size (msg (internal_msg (conns s c)))) i) 0) as [E|E];
    [by apply swp_ret, (Skip_end _ _ _ _ _ _ c)|].
  unfold consume, modify_msg. swp_steps. fold (remaining s c i).
  assert (Ek : (if n >? remaining s c i then remaining s c i else n) = Z.min n (remaining s c i)).
  { rewrite Z.gtb_ltb. destruct (Z.ltb_spec (remaining s c i) n); lia. }
  rewrite Ek. apply (Skip_bytes _ _ _ _ _ _ c); try done. by apply (consumed_ok c i).
Qed.

(** ** psa_write *)
Definition written_addr (s : st) (c i : Z) : Z := u32 (base (out_vec s c i) + len (out_vec s c i)).

Inductive write_result (s : st) (v : view) (r h i buffer n : Z) : unit -> st -> Prop :=
| Write_bytes c s' :
    request s r h i c -> n <= u32 (out_room s c i - len (out_vec s c i)) ->
    tfm_memory_check cfg buffer n false TFM_MEMORY_ACCESS_RO (mode_of cfg r) = SPM_SUCCESS ->
    s' = on_conn c (produced i n)
      (set_memory (mwrite (memory s) (written_addr s c i) (mread (memory s) buffer n) n) s) ->
    spm_ok cfg s' v -> write_result s v r h i buffer n tt s'.

Lemma write_spec (s : st) v r h i buffer n : spm_ok cfg s v -> running cfg s r ->
  swp (tfm_spm_psa_write cfg h i buffer n) s (write_result s v r h i buffer n)
    (fun s' => s' = s /\ (no_request s r h i \/
       (exists c, request s r h i c /\ u32 (out_room s c i - len (out_vec s c i)) < n) \/
       tfm_memory_check cfg buffer n false TFM_MEMORY_ACCESS_RO (mode_of cfg r) <> SPM_SUCCESS)).
Proof using Hcfg.
  intros HO Hr. unfold tfm_spm_psa_write. apply swp_bind, (get_msg_from_handle_spec cfg Hcfg s v r); [done|done|].
  intros [c|] Hown; [|apply swp_panic; split; [done|left]; intros c [Ho _]; by apply Hown in Ho].
  assert (Ho : owned cfg s r h c) by by apply Hown.
  assert (Hno : PSA_IPC_CALL > type (msg (internal_msg (conns s c))) \/ i >= PSA_MAX_IOVEC -> no_request s r h i).
  { intros Hx c' (Ho' & H1 & H2). rewrite (owned_unique s r h c c') in Hx by done. lia. }
  apply swp_bind, (owner_mode_spec s v r h c); [done|done|]. unfold msg_body. swp_steps.
  destruct (Z.ltb_spec (type (msg (internal_msg (conns s c)))) PSA_IPC_CALL);
    [apply swp_panic; split; [done|left]; apply Hno; lia|]. rewrite Z.geb_leb.
  destruct (Z.leb_spec PSA_MAX_IOVEC i); [apply swp_panic; split; [done|left]; apply Hno; lia|].
  assert (Hreq : request s r h i c) by done. fold (out_room s c i) (out_vec s c i). rewrite Z.gtb_ltb.
  destruct (Z.ltb_spec (u32 (out_room s c i - len (out_vec s c i))) n);
    [apply swp_panic; split; [done|right; left; by exists c]|].
  destruct (Z.eqb_spec (tfm_memory_check cfg buffer n false TFM_MEMORY_ACCESS_RO (mode_of cfg r)) SPM_SUCCESS) as [Em|Em];
    cbn [negb]; [|apply swp_panic; split; [done|by right; right]].
  unfold modify_msg. swp_steps. apply (Write_bytes _ _ _ _ _ _ _ c); try done.
  apply (produced_ok c i n). by apply memory_ok.
Qed.

(** ** psa_set_rhandle *)
Lemma set_rhandle_spec (s : st) v r h x : spm_ok cfg s v -> running cfg s r ->
  swp (tfm_spm_psa_set_rhandle cfg h x) s (fun _ s' => spm_ok cfg s' v /\ scheduler s' = scheduler s /\
      exists c, owned cfg s r h c /\ rhandle (conns s' c) = x /\ msg_rhandle (msg (internal_msg (conns s' c))) = x)
    (fun s' => s' = s).
Proof using Hcfg.
  intros HO Hr. unfold tfm_spm_psa_set_rhandle. apply swp_bind, (get_msg_from_handle_spec cfg Hcfg s v r); [done|done|].
  intros [c|] Hown; [|by apply swp_panic]. assert (Ho : owned cfg s r h c) by by apply Hown.
  pose proof Ho as (Eh & _ & _ & j & db & Hj & Hdb & _).
  unfold msg_body, the_service, modify_msg. swp_steps. apply (swp_deref _ j); [done|]. swp_steps.
  destruct (connection_based _); cbn [negb]; [|by apply swp_panic]. swp_steps.
  unfold tfm_spm_set_rhandle. swp_steps. apply swp_assert; [intros _|done]. rewrite Eh. swp_steps.
  apply swp_assert; [intros _|done]. swp_steps. apply (swp_deref _ c); [done|]. swp_steps.
  split; [|split; [done|]].
  - apply (on_conn_ok cfg c (set_rhandle x)); [done|].
    by apply (on_conn_ok cfg c (fun hc => set_internal_msg (set_msg (set_msg_rhandle x (msg (internal_msg hc)))
      (internal_msg hc)) hc)).
  - exists c. split; [done|]. cbn. by rewrite !upd_eq.
Qed.
End Data.
