(* ===== verification/SpmInvReply.v ===== *)
(** * Secure Partition Manager: replies and notifications

    psa_reply by type of message, psa_notify, psa_clear, psa_eoi and the
    interrupt controls. *)

From Stdlib Require Import ZArith List Lia Bool.
From stdpp Require Import base tactics list sets.
From S2P Require Import Prelude SpmBase BiList SpmPool SpmSched SpmState SpmIpc SpmClient SpmService.
From S2P Require Import SpmInv SpmInvMsg SpmInvGet SpmInvCall SpmInvServe.
From S2P Require Import Prelude SpmBase BiList SpmPool SpmSched SpmState SpmIpc SpmClient SpmService SpmSvc.
From S2P Require Import SpmInv SpmInvMsg SpmInvGet SpmInvCall SpmInvServe .
Import ListNotations.
Local Open Scope Z_scope.
Local Open Scope spm_scope.

(** The result of a client call by type of message and status of the reply;
    [None]: the reply is a programmer error of the service. *)
Definition reply_code (type_ h status_ : Z) : option Z :=
  if type_ =? PSA_IPC_CONNECT then
    if status_ =? PSA_SUCCESS then Some h
    else if (status_ =? PSA_ERROR_CONNECTION_REFUSED) || (status_ =? PSA_ERROR_CONNECTION_BUSY)
    then Some status_ else None
  else if type_ =? PSA_IPC_DISCONNECT then Some PSA_SUCCESS
  else if type_ >=? PSA_IPC_CALL then Some status_ else None.

(** The reply ends the connection. *)
Definition reply_closes (type_ status_ : Z) (db : tfm_spm_service_db_t) : bool :=
  if type_ =? PSA_IPC_CONNECT then status_ =? PSA_ERROR_CONNECTION_REFUSED
  else if type_ =? PSA_IPC_DISCONNECT then true
  else negb (connection_based db).

Section Reply.
Context {W : Type} (cfg : spm_config) (rpc_ops : tfm_rpc_ops_t W) (Hcfg : spm_cfg_ok cfg).
Local Abbreviation st := (spm W).

(** The message was taken from its queue and not replied to. *)
Definition active (v : view) (c : Z) : Prop :=
  c ∈ pending v /\ forall p, is_Some (static_at cfg p) -> c ∉ queue v p.

(** The length of output vector [i] in the memory of the client. *)
Definition store_out_len (b : tfm_msg_body_t) (m : mem) (i : Z) : mem :=
  if at4 (out_size (msg b)) i =? 0 then m
  else store32 m (caller_outvec b + 8 * i + 4) (len (vec_at (outvec b) i)).

(** The memory after a reply to a call. *)
Definition out_lens (b : tfm_msg_body_t) (m : mem) : mem := fold_left (store_out_len b) [0; 1; 2; 3] m.

(** The client has not changed the bases of its output vectors from [i] on. *)
Definition outvec_kept (b : tfm_msg_body_t) (i : Z) (m : mem) : Prop :=
  forall k, i <= k < PSA_MAX_IOVEC -> at4 (out_size (msg b)) k <> 0 ->
    load32 m (caller_outvec b + 8 * k) = base (vec_at (outvec b) k).

Lemma load_store_other m a b x : a + 4 <= b \/ b + 4 <= a -> load32 (store32 m b x) a = load32 m a.
Proof.
  intros H. unfold load32, store32. do 2 f_equal. apply mread_ext. intros k Hk. unfold mwrite.
  destruct (Z.leb_spec b k); [|done]. destruct (Z.ltb_spec k (b + 4)); [lia|done].
Qed.

Lemma store_out_len_load b m i k : i <> k ->
  load32 (store_out_len b m i) (caller_outvec b + 8 * k) = load32 m (caller_outvec b + 8 * k).
Proof. intros H. unfold store_out_len. destruct (_ =? 0); [done|]. apply load_store_other. lia. Qed.

Lemma set_memory_twice m m' (s : st) : set_memory m (set_memory m' s) = set_memory m s.
Proof. done. Qed.

Lemma outvec_loop_spec n i c (s : st) : (n <= 4)%nat -> i = 4 - Z.of_nat n ->
  let b := internal_msg (conns s c) in
  swp (update_caller_outvec_len_loop n i c) s
    (fun _ s' => s' = set_memory (fold_left (store_out_len b) (map (fun k => i + Z.of_nat k) (seq 0 n)) (memory s)) s)
    (fun _ => ~ outvec_kept b i (memory s)).
Proof.
  revert i s. induction n as [|n IH]; intros i s Hn Hi b; cbn [update_caller_outvec_len_loop].
  { apply swp_ret. by destruct s. }
  assert (El : map (fun k => i + Z.of_nat k) (seq 0 (S n)) = i :: map (fun k => i + 1 + Z.of_nat k) (seq 0 n)).
  { cbn [seq map]. rewrite Z.add_0_r. f_equal. rewrite <- seq_shift, map_map. apply map_ext. lia. }
  rewrite El. cbn [fold_left]. unfold msg_body. apply swp_bind, swp_gets, swp_bind. fold b.
  assert (Hgo : forall m, (forall k, i < k -> load32 m (caller_outvec b + 8 * k) = load32 (memory s) (caller_outvec b + 8 * k)) ->
    m = store_out_len b (memory s) i ->
    swp (update_caller_outvec_len_loop n (i + 1) c) (set_memory m s)
      (fun _ s' => s' = set_memory (fold_left (store_out_len b) (map (fun k => i + 1 + Z.of_nat k) (seq 0 n))
         (store_out_len b (memory s) i)) s) (fun _ => ~ outvec_kept b i (memory s))).
  { intros m Hm E. pose proof (IH (i + 1) (set_memory m s) ltac:(lia) ltac:(lia)) as Hi'.
    eapply swp_mono; [exact Hi'| |]; clear Hi'; cbn beta.
    { intros [] s' ->. cbn. by rewrite E. }
    intros s' H1 H2. apply H1.
    intros k Hk Hz. cbn [memory set_memory]. rewrite Hm by lia. apply H2; [lia|done]. }
  assert (Hload : forall k, i < k -> load32 (store_out_len b (memory s) i) (caller_outvec b + 8 * k) =
    load32 (memory s) (caller_outvec b + 8 * k)) by (intros k Hk; apply store_out_len_load; lia).
  destruct (at4 (out_size (msg b)) i =? 0) eqn:Ez.
  - apply swp_ret. assert (E : store_out_len b (memory s) i = memory s) by by unfold store_out_len; rewrite Ez.
    specialize (Hgo (memory s)). replace (set_memory (memory s) s) with s in Hgo by by destruct s. by apply Hgo.
  - apply swp_bind, swp_get, swp_bind, swp_assert; intros Hb.
    + apply swp_put, Hgo; [intros k Hk; rewrite <- Hload by done|]; unfold store_out_len; by rewrite Ez.
    + apply Z.eqb_neq in Hb. intros Hk. apply Hb, Hk; [unfold PSA_MAX_IOVEC; lia|by apply Z.eqb_neq].
Qed.

Lemma outvec_len_spec (s : st) v c (Q : unit -> st -> Prop) (P : st -> Prop) : spm_ok cfg s v -> c ∈ pending v ->
  let b := internal_msg (conns s c) in
  (forall s', ~ outvec_kept b 0 (memory s) -> P s') -> Q tt (set_memory (out_lens b (memory s)) s) ->
  swp (update_caller_outvec_len cfg c) s Q P.
Proof using Hcfg.
  intros HO Hc b HP HQ. unfold update_caller_outvec_len, msg_body. swp_steps.
  unfold is_tfm_rpc_msg. rewrite (cf_single _ Hcfg). cbn [andb negb].
  destruct (ev_pend _ _ _ _ _ (so_events _ _ _ HO) c Hc) as (_ & k & Hk & _ & Hb & _).
  rewrite Hk. swp_steps. apply (swp_deref _ k); [done|]. swp_steps.
  apply swp_assert; [intros _|by rewrite Hb].
  eapply swp_mono; [apply (outvec_loop_spec (Z.to_nat PSA_MAX_IOVEC) 0); [unfold PSA_MAX_IOVEC; lia|done]| |].
  - by intros [] s' ->.
  - intros s' H. by apply HP.
Qed.

(** The view after the reply. *)
Definition view_replied (c j : Z) (closes : bool) (v : view) : view :=
  if closes then view_close j c (view_drop c v) else view_drop c v.

(** [s1] after the part of a reply that may close the connection and leaves
    memory [m]. *)
Definition closed_by (c : Z) (closes : bool) (m : mem) (s s1 : st) : Prop :=
  exists n, s1 = set_memory m (if closes then set_nodes n (on_conn c clear_magic s) else s).

Lemma closed_by_facts c closes m (s s1 : st) : closed_by c closes m s s1 ->
  memory s1 = m /\ scheduler s1 = scheduler s /\ partitions s1 = partitions s /\
  (forall x, x <> c -> conns s1 x = conns s x) /\
  ack_evnt (internal_msg (conns s1 c)) = ack_evnt (internal_msg (conns s c)) /\
  msg (internal_msg (conns s1 c)) = msg (internal_msg (conns s c)).
Proof.
  intros (n & ->). destruct closes; [|done].
  split; [done|]. split; [done|]. split; [done|]. cbn. rewrite upd_eq. split; [|done]. intros x Hx. by rewrite upd_ne.
Qed.

Lemma free_reply (s : st) v j db c (Q : unit -> st -> Prop) P : spm_ok cfg s v -> active v c ->
  service_at cfg j = Some db -> c ∈ hlist v j ->
  (forall s1, closed_by c true (memory s) s s1 -> spm_ok cfg s1 (view_replied c j true v) -> Q tt s1) ->
  swp (tfm_spm_free_conn_handle (Some j) (Some c)) s Q P.
Proof using Hcfg.
  intros HO [Hp Hq] Hj Hc HQ. apply (free_spec cfg Hcfg s (view_drop c v) j c).
  - by apply drop_ok.
  - by rewrite Hj.
  - done.
  - cbn. rewrite in_drop. by intros [_ []].
  - intros n HO'. apply HQ; [|done]. exists n. done.
Qed.

(** Why the SPM stops on a reply of [r] with a handle of message [c]. *)
Definition bad_reply (s : st) (c h status_ : Z) : Prop :=
  let b := internal_msg (conns s c) in
  reply_code (type (msg b)) h status_ = None \/
  (PSA_IPC_CALL <= type (msg b) /\ ~ outvec_kept b 0 (memory s)) \/
  (reply_code (type (msg b)) h status_ = Some PSA_ERROR_PROGRAMMER_ERROR /\
   TFM_CLIENT_ID_IS_NS (msg_client_id (msg b)) = false).

(** A reply to a call tells the client how much was written to its vectors. *)
Definition reply_memory (s : st) (c : Z) : mem :=
  let b := internal_msg (conns s c) in
  if type (msg b) >=? PSA_IPC_CALL then out_lens b (memory s) else memory s.

Lemma reply_value_spec (s : st) v r h c j db status_ : spm_ok cfg s v -> owned cfg s r h c -> active v c ->
  service_at cfg j = Some db -> c ∈ hlist v j ->
  swp (reply_value cfg c (Some j) (Some c) h status_) s
    (fun ret s1 => reply_code (type (msg (internal_msg (conns s c)))) h status_ = Some ret /\
       let closes := reply_closes (type (msg (internal_msg (conns s c)))) status_ db in
       closed_by c closes (reply_memory s c) s s1 /\ spm_ok cfg s1 (view_replied c j closes v))
    (fun _ => bad_reply s c h status_).
Proof using Hcfg.
  intros HO Hown Hact Hj Hc. pose proof Hact as [Hp Hq].
  unfold reply_value, reply_closes, reply_memory, bad_reply, reply_code, msg_body. swp_steps.
  set (b := internal_msg (conns s c)). set (t := type (msg b)).
  assert (Hkeep : closed_by c false (memory s) s s /\ spm_ok cfg s (view_replied c j false v)).
  { split; [exists (nodes s); by destruct s|]. by apply drop_ok. }
  destruct (Z.eqb_spec t PSA_IPC_CONNECT) as [Et|Et].
  { rewrite Et. cbn [Z.geb Z.compare PSA_IPC_CONNECT PSA_IPC_CALL].
    destruct (Z.eqb_spec status_ PSA_SUCCESS) as [->|]; [by apply swp_ret|].
    destruct (Z.eqb_spec status_ PSA_ERROR_CONNECTION_REFUSED) as [->|].
    - apply swp_bind, (free_reply s v j db c); [done|done|done|done|]. intros s1 H1 H2. by apply swp_ret.
    - destruct (Z.eqb_spec status_ PSA_ERROR_CONNECTION_BUSY) as [->|]; [by apply swp_ret|apply swp_panic; by left]. }
  destruct (Z.eqb_spec t PSA_IPC_DISCONNECT) as [Ed|Ed].
  { rewrite Ed. cbn [Z.geb Z.compare PSA_IPC_DISCONNECT PSA_IPC_CALL].
    apply swp_bind, (free_reply s v j db c); [done|done|done|done|]. intros s1 H1 H2. by apply swp_ret. }
  destruct (Z.geb_spec t PSA_IPC_CALL) as [Ec|Ec]; [|apply swp_panic; by left].
  apply swp_bind, (outvec_len_spec s v); [done|done|by intros s' Hk; right; left; split; [lia|]|].
  fold b. set (m := out_lens b (memory s)). pose proof (memory_ok cfg m s v HO) as HO0. swp_steps.
  apply (swp_deref _ j); [done|].
  unfold the_service. swp_steps. rewrite (tb_service _ _ (so_tables _ _ _ HO0) j db Hj). cbn [service_db].
  destruct (connection_based db); cbn [negb].
  - swp_steps. split; [done|]. split; [|by apply drop_ok]. by exists (nodes s).
  - apply (free_reply _ v j db c); [done|done|done|done|]. intros s1 (n & ->) H2.
    apply swp_ret. split; [done|]. split; [|done]. by exists n.
Qed.

(** ** psa_reply *)
Inductive reply_result (s : st) (v : view) (r h status_ : Z) : unit -> st -> Prop :=
| Replied c j db k ret s' :
    owned cfg s r h c -> service_at cfg j = Some db -> c ∈ hlist v j ->
    reply_code (type (msg (internal_msg (conns s c)))) h status_ = Some ret ->
    owner (ack_evnt (internal_msg (conns s c))) = Some k ->
    spm_ok cfg s' (view_replied c j (reply_closes (type (msg (internal_msg (conns s c)))) status_ db) v) ->
    runnable (scheduler s') k = true -> retval (thrds (scheduler s') k) = u32 ret ->
    (forall x, x <> k -> thrds (scheduler s') x = thrds (scheduler s) x) ->
    p_curr_thrd (scheduler s') = Some r ->
    (forall x, x <> c -> conns s' x = conns s x) -> memory s' = reply_memory s c ->
    status (conns s' c) = (if ret =? PSA_ERROR_PROGRAMMER_ERROR
      then TFM_HANDLE_STATUS_CONNECT_ERROR else TFM_HANDLE_STATUS_IDLE) ->
    reply_result s v r h status_ tt s'.

Lemma reply_spec (s : st) v r h status_ : spm_ok cfg s v -> running cfg s r ->
  (forall c, owned cfg s r h c -> active v c) ->
  swp (tfm_spm_psa_reply cfg rpc_ops h status_) s (reply_result s v r h status_)
    (fun _ => forall c, owned cfg s r h c -> bad_reply s c h status_).
Proof using Hcfg.
  intros HO Hr Hact. set (P := fun _ : st => _). unfold tfm_spm_psa_reply.
  apply swp_bind, (get_msg_from_handle_spec cfg Hcfg s v r); [done|done|].
  intros [c|] Hown; [|apply swp_panic; by intros c Hc%Hown]. assert (Ho : owned cfg s r h c) by by apply Hown.
  pose proof Ho as (Eh & Hch & Hm & j & db & Hj & Hdb & Hr').
  pose proof (Hact c Ho) as Hac. pose proof Hac as [Hp Hq].
  destruct (co_pending _ _ _ (so_conns _ _ _ HO) c Hp) as [Hop _].
  destruct (co_magic _ _ _ (so_conns _ _ _ HO) c Hch Hm) as [_ Hms].
  destruct (opened_service _ _ _ _ (so_conns _ _ _ HO) Hop) as (j' & db' & Hj' & Hdb' & Hcj).
  rewrite Hj, Hj' in Hms. injection Hms as <-. rewrite Hdb in Hdb'. injection Hdb' as <-.
  destruct (ev_pend _ _ _ _ _ (so_events _ _ _ HO) c Hp) as (Hmag & k & Hk & Hks & Hkb & Hcl).
  unfold msg_body at 1. swp_steps. rewrite Hj, Eh.
  assert (Hpanic : forall s', bad_reply s c h status_ -> P s').
  { intros s' Hb c' Hc'. apply Hown in Hc'. by injection Hc' as <-. }
  apply swp_bind. eapply swp_mono; [by apply (reply_value_spec s v r h c j db)| |done]. intros ret s1 (Hret & Hcb & HO1).
  set (closes := reply_closes _ _ _) in *.
  destruct (closed_by_facts _ _ _ _ _ Hcb) as (F0 & F1 & F2 & F3 & F4 & F5). cbn beta zeta.
  assert (Hwake : forall x, x = (if ret =? PSA_ERROR_PROGRAMMER_ERROR
        then TFM_HANDLE_STATUS_CONNECT_ERROR else TFM_HANDLE_STATUS_IDLE) ->
      swp (set_conn_status (Some c) x) s1 (fun _ s' => swp (let! body := msg_body c in
          if is_tfm_rpc_msg cfg body
          then sput (fun s => set_mailbox (reply rpc_ops (caller_data body) ret (mailbox s)) s)
          else wake_msg c (u32 ret)) s' (reply_result s v r h status_) P) P).
  { intros x Hx. unfold set_conn_status, msg_body. swp_steps. cbn [conns on_conn set_conns]. rewrite upd_eq.
    unfold is_tfm_rpc_msg. rewrite (cf_single _ Hcfg). cbn [andb internal_msg set_status].
    apply (wake_spec cfg Hcfg _ (view_replied c j closes v) c k).
    - by apply on_conn_ok.
    - unfold view_replied. destruct closes; cbn; rewrite in_drop; by intros [_ []].
    - cbn. rewrite upd_eq. cbn. by rewrite F4.
    - cbn. rewrite upd_eq. cbn. by rewrite F4.
    - cbn. by rewrite F1.
    - done.
    - cbn. rewrite F2. intros He. destruct (ev_part _ _ _ _ _ (so_events _ _ _ HO) k Hks) as [_ Hev].
      destruct (Hev k He) as (_ & _ & Hn). by apply (Hn c Hp).
    - assert (Hpd : pending (view_replied c j closes v) = drop c (pending v)) by by unfold view_replied; destruct closes.
      rewrite Hpd. intros y [Hy Hne]%in_drop. cbn. rewrite upd_ne, F3 by done. intros Hyk. apply Hne.
      apply (ev_inj _ _ _ _ _ (so_events _ _ _ HO)); [done|done|by rewrite Hyk].
    - cbn zeta. intros HO2.
      apply (Replied _ _ _ _ _ c j db k ret); try done; cbn [scheduler set_scheduler on_conn set_conns conns].
      + rewrite F1, woken_runnable, Z.eqb_refl. done.
      + by rewrite F1, woken_thrds, Z.eqb_refl.
      + intros y Hy. rewrite F1, woken_thrds. by destruct (Z.eqb_spec y k).
      + cbn [p_curr_thrd woken set_pendsv on_thrd]. rewrite with_state_curr, F1. apply Hr.
      + intros y Hy. rewrite !upd_ne by done. by apply F3.
      + rewrite !upd_eq. cbn. done. }
  apply swp_bind. destruct (Z.eqb_spec ret PSA_ERROR_PROGRAMMER_ERROR) as [E|E].
  - unfold msg_body at 1. swp_steps. destruct (TFM_CLIENT_ID_IS_NS _) eqn:En; [by apply Hwake|]. apply swp_panic, Hpanic.
    right. right. rewrite Hret, E. split; [done|]. by rewrite <- F5.
  - by apply Hwake.
Qed.

(** ** Notifications and interrupts *)

(** Asserting a signal that is not one of a service. *)
Lemma assert_other_spec (s : st) v p signal (Q : unit -> st -> Prop) P : spm_ok cfg s v -> is_Some (static_at cfg p) ->
  one_bit signal -> (forall j db, service_at cfg j = Some db -> owner_of cfg db = p -> db_signal db <> signal) ->
  (forall s', signalled p signal s s' -> spm_ok cfg s' v -> Q tt s') -> swp (assert_signal p signal) s Q P.
Proof using Hcfg.
  intros [HT HL HC HS HE HTh] Hp Hsg Hne HQ. apply (assert_signal_spec cfg s v p signal); [done|done|done|].
  intros s' Hs HE' HTh'. apply HQ; [done|]. destruct Hs as [G1 G2 G3 G4 G5 G6 G7 G8 G9 G10 G11 G12].
  split; [by apply (tables_ok_same cfg s)|by rewrite G3|by rewrite G4| |done|done].
  intros j db Hj. rewrite G2, G4, <- (HS j db Hj). destruct (Z.eqb_spec (owner_of cfg db) p) as [E|E]; [|done].
  rewrite E, lor_bit by by apply (cf_signal _ Hcfg j).
  rewrite (one_bit_land signal) by (first [done|by apply (cf_signal _ Hcfg j)]).
  split; [intros [|H]; [done|]|by left]. by destruct (Hne j db Hj E).
Qed.

(** The partition with an identifier. *)
Definition by_pid (id : Z) : option Z := find_index (fun stat => pid stat =? id) 0 (static_data_list cfg).

Lemma by_pid_some id p : by_pid id = Some p -> exists stat, static_at cfg p = Some stat /\ pid stat = id.
Proof.
  intros H. destruct (find_index_spec _ _ _ _ H) as (Hj & stat & Hst & Hs). rewrite Z.sub_0_r in Hst.
  exists stat. split; [|by apply Z.eqb_eq]. unfold static_at. by destruct (Z.ltb_spec p 0); [lia|].
Qed.

Lemma by_id_spec (s : st) v id (Q : option Z -> st -> Prop) P : spm_ok cfg s v -> id <> INVALID_PARTITION_ID ->
  Q (by_pid id) s -> swp (tfm_spm_get_partition_by_id cfg id) s Q P.
Proof.
  intros HO Hid HQ. unfold tfm_spm_get_partition_by_id, get_partition_idx.
  destruct (Z.eqb_spec id INVALID_PARTITION_ID); [done|]. swp_steps. unfold partition_count.
  rewrite (find_index_map _ (fun stat => pid stat =? id)); [done|]. intros i stat Hi.
  rewrite (tb_static _ _ (so_tables _ _ _ HO) (Z.of_nat (0 + i)) stat); [done|].
  unfold static_at. destruct (Z.ltb_spec (Z.of_nat (0 + i)) 0); [lia|]. by rewrite Nat2Z.id.
Qed.

Lemma notify_signal_spec (s : st) v id signal : spm_ok cfg s v -> one_bit signal ->
  (forall p j db, by_pid id = Some p -> service_at cfg j = Some db -> owner_of cfg db = p -> db_signal db <> signal) ->
  swp (notify_with_signal cfg id signal) s
    (fun _ s' => exists p, by_pid id = Some p /\ signalled p signal s s' /\ spm_ok cfg s' v)
    (fun s' => s' = s /\ (id <= 0 \/ by_pid id = None)).
Proof using Hcfg.
  intros HO Hsg Hne. unfold notify_with_signal, TFM_CLIENT_ID_IS_S. rewrite Z.gtb_ltb.
  destruct (Z.ltb_spec 0 id); cbn [negb]; [|by apply swp_panic; auto].
  apply swp_bind, (by_id_spec s v); [done|unfold INVALID_PARTITION_ID; lia|].
  destruct (by_pid id) as [p|] eqn:E; [|by apply swp_panic; auto].
  destruct (by_pid_some _ _ E) as (stat & Hst & _).
  apply (assert_other_spec s v p signal); [done|by rewrite Hst|done|intros j db; by apply (Hne p)|].
  intros s' H1 H2. by exists p.
Qed.

Lemma doorbell_one_bit : one_bit PSA_DOORBELL.
Proof. by exists 3. Qed.

(** Clearing a signal that is not one of a service. *)
Lemma clear_other_ok (s : st) v p signal : spm_ok cfg s v -> one_bit signal ->
  (forall j db, service_at cfg j = Some db -> owner_of cfg db = p -> db_signal db <> signal) ->
  spm_ok cfg (on_partition p (fun q => set_signals_asserted (clear_bits (signals_asserted q) signal) q) s) v.
Proof using Hcfg.
  intros [HT HL HC HS HE HTh] Hsg Hne. split; cbn [partitions on_partition set_partitions conns nodes scheduler].
  - apply (tables_ok_same cfg s); try done. intros q. upd_cases.
  - done.
  - done.
  - intros j db Hj. rewrite <- (HS j db Hj). unfold upd. destruct (Z.eqb_spec (owner_of cfg db) p) as [E|E]; [|done].
    cbn. rewrite E, clear_land by (first [done|by apply (cf_signal _ Hcfg j)]).
    split; [by intros []|]. intros H. split; [done|]. by apply (Hne j).
  - apply (events_ok_same cfg (partitions s) _ (conns s) _ (scheduler s)); [|intros; apply conn_same_refl|done..].
    intros q. upd_cases.
  - done.
Qed.

Lemma clear_spec (s : st) v r : spm_ok cfg s v -> running cfg s r ->
  swp tfm_spm_psa_clear s
    (fun _ s' => spm_ok cfg s' v /\ scheduler s' = scheduler s /\ memory s' = memory s /\
       Z.land (signals_asserted (partitions s' r)) PSA_DOORBELL = 0 /\
       forall b, 0 <= b < 32 -> b <> 3 ->
         Z.testbit (signals_asserted (partitions s' r)) b = Z.testbit (signals_asserted (partitions s r)) b)
    (fun s' => s' = s /\ Z.land (signals_asserted (partitions s r)) PSA_DOORBELL = 0).
Proof using Hcfg.
  intros HO Hr. unfold tfm_spm_psa_clear, the_partition. apply swp_bind, (running_curr cfg _ r); [done|]. swp_steps.
  destruct (Z.eqb_spec (Z.land (signals_asserted (partitions s r)) PSA_DOORBELL) 0); [by apply swp_panic|].
  swp_steps. split; [|split; [done|split; [done|]]].
  - apply clear_other_ok; [done|apply doorbell_one_bit|]. intros j db Hj _. by apply (cf_doorbell _ Hcfg j).
  - cbn. rewrite upd_eq. cbn. change PSA_DOORBELL with (2 ^ 3). split.
    + rewrite land_pow2, clear_bits_spec, pow2_bit by lia. apply andb_false_r.
    + intros b Hb Hne. rewrite clear_bits_spec, pow2_bit by lia.
      destruct (Z.eqb_spec 3 b); [by subst|]. apply andb_true_r.
Qed.

(** ** Interrupts *)
Lemma irq_line_spec (s : st) v r stat signal (Q : Z -> st -> Prop) P : spm_ok cfg s v -> running cfg s r ->
  static_at cfg r = Some stat -> 0 <= signal < 2 ^ 32 -> (forall s', P s') ->
  (forall q, q ∈ tfm_core_irq_signals cfg -> irq_partition_id q = pid stat -> signal_value q = signal ->
     one_bit signal -> 0 <= irq_line q -> Q (irq_line q) s) ->
  swp (running_irq_line cfg signal) s Q P.
Proof.
  intros HO Hr Hst Hsg HP HQ. unfold running_irq_line, tfm_spm_partition_get_running_partition_id. swp_steps.
  apply (running_curr cfg _ r); [done|]. swp_steps. rewrite (tb_static _ _ (so_tables _ _ _ HO) r stat Hst).
  unfold get_irq_line_for_signal. destruct (IS_ONLY_ONE_BIT_IN_UINT32 signal) eqn:E1; cbn [negb].
  2:{ cbn. apply HP. }
  apply one_bit_spec in E1; [|done]. destruct (List.find _ _) as [q|] eqn:Ef.
  - apply find_some in Ef as [Hin Hf]. apply andb_true_iff in Hf as [Hf1%Z.eqb_eq Hf2%Z.eqb_eq].
    destruct (Z.ltb_spec (irq_line q) 0); [apply swp_panic, HP|]. apply swp_ret, HQ; try done.
    by apply list_elem_of_In.
  - cbn. apply HP.
Qed.

Lemma eoi_spec (s : st) v r signal : spm_ok cfg s v -> running cfg s r -> 0 <= signal < 2 ^ 32 ->
  swp (tfm_spm_psa_eoi cfg signal) s
    (fun _ s' => spm_ok cfg s' v /\ scheduler s' = scheduler s /\
       exists q, q ∈ tfm_core_irq_signals cfg /\ signal_value q = signal /\
         Z.land (signals_asserted (partitions s' r)) signal = 0 /\
         irq_enabled s' (irq_line q) = true /\ irq_pending s' (irq_line q) = false)
    (fun _ => True).
Proof using Hcfg.
  intros HO Hr Hsg. pose proof Hr as (_ & [stat Hst] & _). unfold tfm_spm_psa_eoi, the_partition.
  apply swp_bind, (running_curr cfg _ r); [done|]. apply swp_bind.
  apply (irq_line_spec s v r stat); [done|done|done|done|done|]. intros q Hq Hid Hval H1 Hline. swp_steps.
  destruct (_ =? 0); [by apply swp_panic|]. unfold tfm_spm_hal_clear_pending_irq, tfm_spm_hal_enable_irq. swp_steps.
  split; [|split; [done|]].
  - apply irq_ok, irq_ok, clear_other_ok; [done|done|]. intros j db Hj Ho E. rewrite <- Ho in Hst.
    by apply (cf_irq _ Hcfg q j db stat Hq Hj Hst Hid); rewrite Hval.
  - exists q. split; [done|]. split; [done|]. cbn. rewrite !upd_eq. cbn. destruct H1 as (b & Hb & ->).
    split; [|done]. rewrite land_pow2, clear_bits_spec, pow2_bit, Z.eqb_refl by lia. apply andb_false_r.
Qed.

Lemma irq_enable_spec (s : st) v r signal : spm_ok cfg s v -> running cfg s r -> 0 <= signal < 2 ^ 32 ->
  swp (tfm_spm_irq_enable cfg signal) s (fun _ s' => spm_ok cfg s' v /\ scheduler s' = scheduler s) (fun _ => True).
Proof.
  intros HO Hr Hsg. pose proof Hr as (_ & [stat Hst] & _). unfold tfm_spm_irq_enable. apply swp_bind.
  apply (irq_line_spec s v r stat); [done|done|done|done|done|]. intros q _ _ _ _ _.
  unfold tfm_spm_hal_enable_irq. swp_steps. split; [by apply irq_ok|done].
Qed.

Lemma irq_disable_spec (s : st) v r signal : spm_ok cfg s v -> running cfg s r -> 0 <= signal < 2 ^ 32 ->
  swp (tfm_spm_irq_disable cfg signal) s (fun _ s' => spm_ok cfg s' v /\ scheduler s' = scheduler s) (fun _ => True).
Proof.
  intros HO Hr Hsg. pose proof Hr as (_ & [stat Hst] & _). unfold tfm_spm_irq_disable. apply swp_bind.
  apply (irq_line_spec s v r stat); [done|done|done|done|done|]. intros q _ _ _ _ _.
  unfold tfm_spm_hal_disable_irq. swp_steps. split; [by apply irq_ok|done].
Qed.
End Reply.

(** * Secure Partition Manager: every system call keeps the invariant

    SVC_Handler_IPC for every number and every argument, the return value, the
    PendSV exception and the interrupts; the states they reach. *)

Section Svc.
Context {W : Type} (cfg : spm_config) (rpc_ops : tfm_rpc_ops_t W) (scfg : svc_config) (Hcfg : spm_cfg_ok cfg).
Local Abbreviation st := (spm W).

(** The registers hold 32-bit values. *)
Definition regs_ok (ctx : tfm_state_context_t) : Prop :=
  0 <= r0 ctx < 2 ^ 32 /\ 0 <= r1 ctx < 2 ^ 32 /\ 0 <= r2 ctx < 2 ^ 32 /\ 0 <= r3 ctx < 2 ^ 32.

(** The discipline the SPM relies on and does not check: no call on a handle
    whose connection was closed, no reply to a message that was not taken with
    psa_get or was replied to already. *)
Definition disciplined (s : st) (v : view) (r : Z) (svc : tfm_svc_number_t) (ctx : tfm_state_context_t) : Prop :=
  match svc with
  | TFM_SVC_PSA_CALL | TFM_SVC_PSA_CLOSE =>
      forall cid, client_of cfg r = Some cid -> handle_live cfg s v (s32 (r0 ctx)) cid
  | TFM_SVC_PSA_REPLY => forall c, owned cfg s r (s32 (r0 ctx)) c -> active cfg v c
  | _ => True
  end.

(** The invariant, with [r] still the current thread. *)
Definition kept (r : Z) (s' : st) : Prop := exists v', spm_ok cfg s' v' /\ p_curr_thrd (scheduler s') = Some r.

Lemma validate_caller_spec (s : st) v r ctx exc ns (Q : unit -> st -> Prop) : spm_ok cfg s v -> running cfg s r ->
  (caller_ok cfg r ns -> Q tt s) -> swp (tfm_spm_validate_caller scfg r ctx exc ns) s Q (fun _ => True).
Proof.
  intros HO (_ & [stat Hst] & _) HQ. unfold tfm_spm_validate_caller, the_partition. swp_steps.
  rewrite (tb_static _ _ (so_tables _ _ _ HO) r stat Hst). destruct ns.
  - destruct (Z.eqb_spec (pid stat) TFM_SP_NON_SECURE_ID); cbn [negb]; [|by apply swp_panic]. swp_steps.
    destruct (negb _); [by apply swp_panic|]. apply swp_ret, HQ. by exists stat.
  - destruct (Z.leb_spec (pid stat) 0); [by apply swp_panic|]. apply swp_ret, HQ. by exists stat.
Qed.

Lemma psa_call_kept (s : st) v r handle ctrl inptr outptr ns : spm_ok cfg s v -> running cfg s r ->
  caller_ok cfg r ns -> (forall cid, client_of cfg r = Some cid -> handle_live cfg s v handle cid) ->
  swp (tfm_spm_psa_call cfg rpc_ops handle ctrl inptr outptr ns) s (fun _ => kept r) (fun _ => True).
Proof using Hcfg.
  intros HO Hr Hns Hlive. unfold tfm_spm_psa_call. apply swp_bind, (mode_spec cfg _ v r); [done|done|].
  assert (Hk : kept r s) by (exists v; split; [done|apply Hr]).
  destruct (negb _); [by apply programmer_err|]. swp_steps. destruct (_ <? 0); [by apply programmer_err|].
  eapply swp_mono; [apply (call_spec cfg rpc_ops Hcfg s v r); try done; apply u32_range| |done].
  intros e s' [cid e' s1 v1 _ _ HO1 _ Hs _|cid c j db h s1 v1 s2 i o _ _ _ _ HO2 Hc _ _ _].
  - exists v1. split; [done|]. rewrite Hs. apply Hr.
  - by eexists.
Qed.

Lemma handler_kept (s : st) v r svc ctx exc : spm_ok cfg s v -> running cfg s r -> regs_ok ctx ->
  disciplined s v r svc ctx ->
  swp (SVC_Handler_IPC cfg rpc_ops scfg svc ctx exc) s (fun _ => kept r) (fun _ => True).
Proof using Hcfg.
  intros HO Hr (H0 & H1 & H2 & H3) Hd. unfold SVC_Handler_IPC.
  assert (Hk : kept r s) by (exists v; split; [done|apply Hr]).
  apply swp_bind, (running_curr cfg _ r); [done|]. apply swp_bind, (validate_caller_spec s v r); [done|done|]. intros Hns.
  assert (Hkeep : forall A (m : SPM st A) (Q : A -> st -> Prop) P, swp m s Q P ->
    (forall a s', Q a s' -> kept r s') -> swp m s (fun _ => kept r) (fun _ => True)).
  { intros A m Q P Hm HQ. by eapply swp_mono; [exact Hm|exact HQ|]. }
  assert (Hsched : forall s' v', spm_ok cfg s' v' -> scheduler s' = scheduler s -> kept r s').
  { intros s' v' HO' E. exists v'. split; [done|]. rewrite E. apply Hr. }
  assert (Hdone : forall (m : SPM st unit) (Q : unit -> st -> Prop) P, swp m s Q P ->
    (forall a s', Q a s' -> kept r s') -> swp (success m) s (fun _ => kept r) (fun _ => True)).
  { intros m Q P Hm HQ. apply swp_bind. eapply swp_mono; [exact Hm| |done]. intros [] s' H. apply swp_ret. by eapply HQ. }
  destruct svc; cbn in Hd.
  - apply swp_bind. unfold tfm_spm_request_handler. destruct (_ =? _); [|by swp_steps]. apply swp_bind, (running_curr cfg _ r); [done|].
    unfold the_partition. by swp_steps.
  - eapply Hkeep; [by apply (wait_spec cfg Hcfg s v r)|]. intros n s' [|s1 _ _ HO1 Hc _ _ _ _ _]; [done|by exists v].
  - eapply Hdone; [by apply (eoi_spec cfg Hcfg s v r)|]. intros _ s' (HO1 & E & _). by apply (Hsched s' v).
  - by apply swp_ret.
  - by apply (version_spec cfg s v r).
  - eapply Hkeep; [by apply (connect_spec cfg rpc_ops Hcfg s v r)|]. intros e s' [| |]; [done|done|by eexists].
  - by apply (psa_call_kept s v r).
  - eapply Hdone; [by apply (close_spec cfg rpc_ops Hcfg s v r)|]. intros e s' [| |]; [done|done|by eexists].
  - eapply Hkeep; [by apply (get_spec cfg Hcfg s v r)|].
    intros e s' [_ [s1 _ HO1 E _|c rest s1 _ HO1 E _ _ _ _]]; by eapply Hsched.
  - eapply Hdone; [by apply (set_rhandle_spec cfg Hcfg s v r)|]. intros _ s' (HO1 & E & _). by eapply Hsched.
  - eapply Hkeep; [by apply (read_spec cfg Hcfg s v r)|]. intros n s' [|c k s1 _ _ _ _ -> HO1]; [done|by eapply Hsched].
  - eapply Hkeep; [by apply (skip_spec cfg Hcfg s v r)|]. intros n s' [|c k s1 _ _ _ -> HO1]; [done|by eapply Hsched].
  - eapply Hdone; [by apply (write_spec cfg Hcfg s v r)|]. intros n s' [c s1 _ _ _ -> HO1]. by eapply Hsched.
  - eapply Hdone; [by apply (reply_spec cfg rpc_ops Hcfg s v r)|]. intros _ s' [c j db k ret s1 _ _ _ _ _ HO1 _ _ _ Hc _ _].
    by eexists.
  - eapply Hdone; [apply (notify_signal_spec cfg Hcfg s v (s32 (r0 ctx)) PSA_DOORBELL HO doorbell_one_bit)|].
    + intros p j db _ Hj _. by apply (cf_doorbell _ Hcfg j).
    + intros _ s' (p & _ & Hs & HO1). exists v. split; [done|]. rewrite (sg_curr _ _ _ _ Hs). apply Hr.
  - eapply Hdone; [by apply (clear_spec cfg Hcfg s v r)|]. intros _ s' (HO1 & E & _). by eapply Hsched.
  - apply swp_bind. by apply swp_panic.
  - by apply swp_ret.
  - eapply Hdone; [by apply (irq_enable_spec cfg s v r)|]. intros _ s' (HO1 & E). by eapply Hsched.
  - eapply Hkeep; [by apply (irq_disable_spec cfg s v r)|]. intros _ s' (HO1 & E). by eapply Hsched.
  - by apply swp_ret.
Qed.

(** ** Threads *)
Lemma sched_frame (s : st) v sc : spm_ok cfg s v -> threads_ok cfg sc v ->
  (forall k, state (thrds sc k) = state (thrds (scheduler s) k)) -> spm_ok cfg (set_scheduler sc s) v.
Proof.
  intros [HT HL HC HS HE HTh] Ht Hs. split; try done; [by destruct HT|].
  by apply (events_ok_same cfg (partitions s) _ (conns s) _ (scheduler s)).
Qed.

Lemma retval_kept (s : st) r k n : kept r s -> kept r (set_scheduler (on_thrd k (set_retval n) (scheduler s)) s).
Proof.
  intros (v & HO & Hc). exists v. split; [|done]. apply sched_frame; [done| |].
  - destruct (so_threads _ _ _ HO) as [H1 H2 H3]. split; [by apply set_retval_ok|done|done].
  - intros x. destruct (Z.eq_dec x k) as [->|Hn]; [by rewrite on_thrd_eq|by rewrite on_thrd_ne].
Qed.

Lemma pendsv_spec (s : st) v r (Q : unit -> st -> Prop) P : spm_ok cfg s v -> p_curr_thrd (scheduler s) = Some r ->
  (forall s', spm_ok cfg s' v -> pendsv (scheduler s') = false ->
     thrds (scheduler s') = thrds (scheduler s) -> memory s' = memory s -> conns s' = conns s ->
     partitions s' = partitions s ->
     p_curr_thrd (scheduler s') = Some (if pendsv (scheduler s)
       then match first_runnable (scheduler s) (order v) with Some t => t | None => r end else r) -> Q tt s') ->
  swp (PendSV_Handler cfg) s Q P.
Proof.
  intros HO Hc HQ. unfold PendSV_Handler, on_sched. swp_steps.
  destruct (pendsv (scheduler s)) eqn:Ep; [|by apply swp_ret, HQ].
  pose proof (so_threads _ _ _ HO) as [H1 H2 (r' & H3 & H4)].
  destruct (do_schedule_spec (partition_count cfg) (scheduler s) (order v) r H1 Hc) as (sc & E & Hok & Hp & Ht & Hcur).
  unfold swp. rewrite E. apply HQ; try done. apply sched_frame; [done| |by rewrite Ht].
  split; [done|done|]. eexists. split; [exact Hcur|].
  destruct (first_runnable (scheduler s) (order v)) as [t|] eqn:Ef.
  - apply H2. by apply (first_runnable_best (partition_count cfg) (scheduler s) (order v) t).
  - rewrite Hc in H3. by injection H3 as ->.
Qed.

(** A system call with its return value, and the exceptions that follow. *)
Definition svc_and_schedule (svc : tfm_svc_number_t) (ctx : tfm_state_context_t) (exc : Z) : SPM st unit :=
  do! tfm_core_svc_handler cfg rpc_ops scfg svc ctx exc in PendSV_Handler cfg.

Lemma svc_spec (s : st) v r svc ctx exc : spm_ok cfg s v -> running cfg s r -> regs_ok ctx ->
  disciplined s v r svc ctx ->
  swp (svc_and_schedule svc ctx exc) s (fun _ s' => exists v', spm_ok cfg s' v') (fun _ => True).
Proof using Hcfg.
  intros HO Hr Hregs Hd. unfold svc_and_schedule, tfm_core_svc_handler. apply swp_bind, swp_bind.
  apply (running_curr cfg _ r); [done|]. apply swp_bind.
  eapply swp_mono; [by apply (handler_kept s v r)| |done]. intros x s1 Hk. cbn beta.
  unfold on_sched at 1, swp at 1. cbn.
  destruct (retval_kept s1 r r (u32 x) Hk) as (v1 & HO1 & Hc1).
  apply (pendsv_spec _ v1 r); [done|done|]. intros s2 HO2 _ _ _ _ _ _. by exists v1.
Qed.

(** An interrupt of a partition, and the exception that follows. *)
Definition irq_and_schedule (q : irq_signal_t) : SPM st unit :=
  do! tfm_set_irq_signal cfg (irq_partition_id q) (signal_value q) (irq_line q) in PendSV_Handler cfg.

Lemma irq_spec (s : st) v q : spm_ok cfg s v -> q ∈ tfm_core_irq_signals cfg ->
  swp (irq_and_schedule q) s (fun _ s' => exists v', spm_ok cfg s' v') (fun _ => True).
Proof using Hcfg.
  intros HO Hq. unfold irq_and_schedule, tfm_set_irq_signal, tfm_spm_hal_disable_irq. apply swp_bind. swp_steps.
  destruct (th_curr _ _ _ (so_threads _ _ _ HO)) as (r & Hr & _).
  eapply swp_mono; [apply (notify_signal_spec cfg Hcfg _ v)|  |done].
  - by apply irq_ok.
  - by apply (cf_irq_bit _ Hcfg).
  - intros p j db Hp Hj Ho E. destruct (by_pid_some cfg _ _ Hp) as (stat & Hst & Hid). rewrite <- Ho in Hst.
    by apply (cf_irq _ Hcfg q j db stat).
  - intros _ s1 (p & _ & Hs & HO1). cbn beta. apply (pendsv_spec s1 v r); [done| |].
    + by rewrite (sg_curr _ _ _ _ Hs).
    + intros s2 HO2 _ _ _ _ _ _. by exists v.
Qed.

(** ** The states of the system *)
Inductive spm_step : st -> st -> Prop :=
| Step_svc s s' r svc ctx exc :
    running cfg s r -> regs_ok ctx -> (forall v, spm_ok cfg s v -> disciplined s v r svc ctx) ->
    svc_and_schedule svc ctx exc s = (Done tt, s') -> spm_step s s'
| Step_irq s s' q :
    q ∈ tfm_core_irq_signals cfg -> irq_and_schedule q s = (Done tt, s') -> spm_step s s'
| Step_thread s m : spm_step s (set_memory m s).

Inductive reachable (s0 : st) : st -> Prop :=
| Reach_start : reachable s0 s0
| Reach_step s s' : reachable s0 s -> spm_step s s' -> reachable s0 s'.

Lemma step_ok (s s' : st) v : spm_ok cfg s v -> spm_step s s' -> exists v', spm_ok cfg s' v'.
Proof using Hcfg.
  intros HO Hst. destruct Hst as [s1 s2 r svc ctx exc Hr Hregs Hd E|s1 s2 q Hq E|s1 m].
  - pose proof (svc_spec s1 v r svc ctx exc HO Hr Hregs (Hd v HO)) as H. unfold swp in H. by rewrite E in H.
  - pose proof (irq_spec s1 v q HO Hq) as H. unfold swp in H. by rewrite E in H.
  - exists v. by apply memory_ok.
Qed.
End Svc.
