(* ===== verification/SpmBoot.v ===== *)
(** * Secure Partition Manager: initialisation, and what every run keeps

    tfm_spm_init establishes the invariant from the state the C start-up code
    leaves, for tables that every partition of this framework version can be
    started from.  Then two facts about all calls: the output vectors of the
    messages stay inside the memory of the clients, and a service touches no
    message of another partition. *)

From Stdlib Require Import ZArith List Lia Bool Sorted.
From stdpp Require Import base tactics list sets.
From S2P Require Import Prelude SpmBase BiList SpmPool SpmSched SpmState SpmIpc SpmClient SpmService SpmInit SpmSvc.
From S2P Require Import SpmInv SpmInvMsg SpmInvGet SpmInvCall SpmInvServe SpmInvReply.
Import ListNotations.
Local Open Scope Z_scope.
Local Open Scope spm_scope.

(** A thread that is not in the list can be changed. *)
Lemma on_thrd_fresh N k f s l : k ∉ l -> sched_ok N s l -> sched_ok N (on_thrd k f s) l.
Proof.
  intros Hk [Hp Hd Hn Hs (l1 & l2 & Hl & Hr & Hh)].
  assert (E : forall t, t ∈ l -> thrds (on_thrd k f s) t = thrds s t).
  { intros t Ht. apply on_thrd_ne. by intros ->. }
  split; [|done|done| |].
  - apply (path_ext s); [|done]. intros t Ht. by rewrite E.
  - clear Hp Hd Hn Hl Hr Hh Hk. induction Hs as [|x l Hs IH Hx]; constructor.
    + apply IH. intros t Ht. apply E. by apply elem_of_cons; right.
    + rewrite Forall_forall in *. intros y Hy. rewrite !E by set_solver. by apply Hx.
  - exists l1, l2. split; [done|]. split; [|done]. intros t Ht. unfold runnable. rewrite E; [by apply Hr|].
    rewrite Hl. by apply elem_of_app; left.
Qed.

Lemma sched_ok_empty N s : p_thrd_head s = None -> p_rnbl_head s = None -> sched_ok N s [].
Proof.
  intros H1 H2. split; [done|constructor|simpl; lia|constructor|]. exists [], []. split; [done|]. split; [|done].
  intros t Ht. by apply not_elem_of_nil in Ht.
Qed.

Section Boot.
Context {W : Type} (cfg : spm_config) (Hcfg : spm_cfg_ok cfg).
Local Abbreviation st := (spm W).

(** What the tables and the isolation HAL must provide for the start. *)
Record boot_cfg_ok : Prop := {
  bc_part : forall p stat, static_at cfg p = Some stat ->
    Z.land (part_flags stat) SPM_PART_FLAG_IPC <> 0 /\ psa_ff_ver stat <= PSA_FRAMEWORK_VERSION /\
    part_entry stat <> 0 /\ stack_bottom stat <> 0 /\ part_stack_top stat <> 0 /\
    forall d, d ∈ platform_data stat -> tfm_spm_hal_configure_default_isolation cfg p d = true;
  bc_ns : exists p stat, static_at cfg p = Some stat /\ pid stat = TFM_SP_NON_SECURE_ID;
  bc_stateless : forall j db, service_at cfg j = Some db -> connection_based db = false ->
    db_sid db ∈ firstn (Z.to_nat STATIC_HANDLE_NUM_LIMIT) (stateless_sids cfg)
}.
Context (Hboot : boot_cfg_ok).

(** The zero-initialised globals the start relies on. *)
Record boot_state (s : st) : Prop := {
  bs_asserted : forall p, signals_asserted (partitions s p) = 0;
  bs_stateless : forall x, stateless_service_ref s x = None;
  bs_head : p_thrd_head (scheduler s) = None;
  bs_rnbl : p_rnbl_head (scheduler s) = None;
  bs_curr : p_curr_thrd (scheduler s) = None
}.

(** The first [i] partitions and the first [k] services are initialised. *)
Record booting (i k : Z) (l : list Z) (s : st) : Prop := {
  bt_part : forall p stat, static_at cfg p = Some stat -> p < i ->
    p_static (partitions s p) = stat /\ event (partitions s p) = tfm_event_init;
  bt_asserted : forall p, signals_asserted (partitions s p) = 0;
  bt_pool : pool_ok ChunksList ChunkNode (conn_handle_pool cfg) (sizeof_conn_handle cfg)
              TFM_CONN_HANDLE_MAX_NUM (nodes s) (conn_chunks cfg);
  bt_inst : pool_instance s =
    {| chunksz := sizeof_conn_handle cfg; chunk_count := TFM_CONN_HANDLE_MAX_NUM |};
  bt_conns : forall c, conns s c = zero_conn;
  bt_queue : forall p, is_Some (static_at cfg p) -> p < i -> bi_list (nodes s) (MsgList p) [];
  bt_service : forall j db, service_at cfg j = Some db -> j < k ->
    services s j = {| service_db := db; partition := Some (owner_of cfg db) |} /\
    bi_list (nodes s) (HandleList j) [];
  bt_stateless : forall x j, stateless_service_ref s x = Some j -> is_Some (service_at cfg j);
  bt_sched : sched_ok (partition_count cfg) (scheduler s) l;
  bt_order : forall t, t ∈ l <-> is_Some (static_at cfg t) /\ t < i;
  bt_length : Z.of_nat (length l) = i;
  bt_curr : p_curr_thrd (scheduler s) = None
}.

(** Changes that no part of it notices. *)
Lemma booting_frame i k l (s s' : st) : booting i k l s -> nodes s' = nodes s ->
  pool_instance s' = pool_instance s -> conns s' = conns s -> (forall j, services s' j = services s j) ->
  stateless_service_ref s' = stateless_service_ref s -> scheduler s' = scheduler s ->
  (forall p, signals_asserted (partitions s' p) = signals_asserted (partitions s p)) ->
  (forall p, p < i -> p_static (partitions s' p) = p_static (partitions s p) /\
     event (partitions s' p) = event (partitions s p)) -> booting i k l s'.
Proof.
  intros [B1 B2 B3 B4 B5 B6 B7 B8 B9 B10 B11 B12] E1 E2 E3 E4 E5 E6 H1 H2. split; rewrite ?E1, ?E2, ?E3, ?E5, ?E6; try done.
  - intros p stat Hp Hi. destruct (H2 p Hi) as [-> ->]. by apply B1.
  - intros p. by rewrite H1.
  - intros j db. rewrite E4. apply B7.
Qed.

Lemma init_pool_spec (s : st) (Q : unit -> st -> Prop) P : boot_state s ->
  (forall s', booting 0 0 [] s' -> Q tt s') -> swp (init_conn_handle_pool cfg) s Q P.
Proof using Hcfg.
  intros [S1 S2 S3 S4 S5] HQ. unfold init_conn_handle_pool. swp_steps.
  destruct (pool_init_spec ChunksList ChunkNode chunk_of in_pool_buffer (conn_handle_pool cfg)
    (sizeof_conn_handle cfg) TFM_CONN_HANDLE_MAX_NUM (cf_pool _ Hcfg) (POOL_BUFFER_SIZE cfg)
    (pool_instance s) (nodes s) eq_refl) as (n & E & Hp & _).
  eapply swp_deref; [exact E|]. swp_steps. cbn [Z.eqb SPM_SUCCESS]. swp_steps. apply HQ. split; cbn; try done.
  - intros p stat Hs Hi. unfold static_at in Hs. by destruct (Z.ltb_spec p 0); [|lia].
  - intros p [stat Hs] Hi. unfold static_at in Hs. by destruct (Z.ltb_spec p 0); [|lia].
  - intros j db Hs Hi. unfold service_at in Hs. by destruct (Z.ltb_spec j 0); [|lia].
  - intros x j H. by rewrite S2 in H.
  - by apply sched_ok_empty.
  - intros t. split; [intros Ht; by apply not_elem_of_nil in Ht|]. intros [[stat Hs] Hi]. unfold static_at in Hs.
    by destruct (Z.ltb_spec t 0); [|lia].
Qed.

(** ** Partitions *)
Lemma isolation_spec (s : st) i ds Q P :
  (forall d, d ∈ ds -> tfm_spm_hal_configure_default_isolation cfg i d = true) ->
  Q tt s -> swp (configure_isolation cfg i ds) s Q P.
Proof.
  intros H HQ. induction ds as [|d ds IH]; simpl; [done|]. rewrite (H d) by set_solver +. cbn [negb].
  apply IH. intros x Hx. apply H. by apply elem_of_cons; right.
Qed.

(** The loop over the interrupts only changes the signals the partition may
    use and the interrupt lines. *)
Lemma assign_irq_spec (I : st -> Prop) i stat irqs (s : st) (Q : unit -> st -> Prop) P :
  (forall s x, I s -> I (on_partition i (allow_signal x) s)) -> (forall s e q, I s -> I (set_irq e q s)) ->
  I s -> (forall s', I s' -> Q tt s') -> swp (assign_irq_signals i stat irqs) s Q P.
Proof.
  intros H1 H2. revert s. induction irqs as [|q l IH]; intros s HI HQ; simpl; [by apply HQ|].
  apply swp_bind. assert (Hnext : forall s', I s' -> swp (assign_irq_signals i stat l) s' Q P) by auto.
  destruct (_ =? pid stat); swp_steps; [|by apply Hnext].
  repeat destruct (_ =? _); unfold tfm_spm_hal_enable_irq, tfm_spm_hal_disable_irq; swp_steps; auto.
Qed.

Lemma swp_on_sched {A} (m : SPM sched A) (s : st) (Q : A -> st -> Prop) P :
  swp m (scheduler s) (fun a sc => Q a (set_scheduler sc s)) (fun sc => P (set_scheduler sc s)) ->
  swp (on_sched m) s Q P.
Proof. unfold swp, on_sched. by destruct (m (scheduler s)) as [[a| |] sc]. Qed.

(** What a thread is started with: not in the list, and a stack and an entry. *)
Definition created (i : Z) (stat : partition_static_t) (sc : sched) : Prop :=
  state (thrds sc i) = THRD_STATE_CREATING /\ pfn (thrds sc i) = part_entry stat /\
  stk_btm (thrds sc i) = stack_bottom stat /\ stk_top (thrds sc i) = part_stack_top stat.

Lemma start_spec (s : st) i k l stat (Q : Z -> st -> Prop) P : booting i k l s -> static_at cfg i = Some stat ->
  p_static (partitions s i) = stat -> event (partitions s i) = tfm_event_init ->
  bi_list (nodes s) (MsgList i) [] -> created i stat (scheduler s) ->
  (forall s' l', booting (i + 1) k l' s' -> Q THRD_SUCCESS s') ->
  swp (on_sched (tfm_core_thrd_start (partition_count cfg) i)) s Q P.
Proof using Hboot.
  intros HB Hst Hps Hev Hq (C1 & C2 & C3 & C4) HQ. destruct (bc_part Hboot i stat Hst) as (_ & _ & E1 & E2 & E3 & _).
  pose proof HB as [B1 B2 B3 B4 B5 B6 B7 B8 B9 B10 B11 B12]. apply swp_on_sched.
  assert (Hlt : 0 <= i < Z.of_nat (partition_count cfg)).
  { unfold static_at in Hst. destruct (Z.ltb_spec i 0); [done|]. apply lookup_lt_Some in Hst.
    unfold partition_count. lia. }
  apply (thrd_start_spec _ _ l); rewrite ?C1, ?C2, ?C3, ?C4; try done.
  - rewrite B10. lia.
  - lia.
  - intros sc l1 l2 -> Hok Hcur _ _. apply (HQ _ (l1 ++ i :: l2)).
    assert (Hcase : forall p, p < i + 1 -> p = i \/ p < i) by lia.
    split; cbn; try done.
    + intros p stat' Hp Hi. destruct (Hcase p Hi) as [->|Hi']; [|by apply B1].
      rewrite Hst in Hp. injection Hp as <-. done.
    + intros p Hp Hi. destruct (Hcase p Hi) as [->|Hi']; [done|by apply B6].
    + intros t. specialize (B10 t). rewrite elem_of_app in B10 |- *. rewrite elem_of_cons.
      destruct (Z.eq_dec t i) as [->|Hn]; [rewrite Hst; split; [intros _; split; [done|lia]|tauto]|].
      split; [intros H; destruct B10 as [B10 _]; destruct B10 as [H1 H2]; [tauto|split; [done|lia]]|].
      intros [H1 H2]. destruct B10 as [_ B10]. destruct B10; [split; [done|lia]|tauto|tauto].
    + rewrite <- B11. rewrite !length_app. simpl. lia.
    + by rewrite Hcur.
Qed.

(** Changes to the partition being initialised, its thread and its queue. *)
Lemma booting_thread i k l f (s : st) : booting i k l s ->
  booting i k l (set_scheduler (on_thrd i f (scheduler s)) s).
Proof.
  intros [B1 B2 B3 B4 B5 B6 B7 B8 B9 B10 B11 B12]. split; try done. cbn. apply on_thrd_fresh; [|done].
  rewrite B10. lia.
Qed.

Lemma booting_partition i k l f (s : st) : booting i k l s ->
  signals_asserted (f (partitions s i)) = signals_asserted (partitions s i) ->
  booting i k l (on_partition i f s).
Proof.
  intros HB Hf. apply (booting_frame i k l s); try done; intros p; cbn; unfold upd;
    destruct (Z.eqb_spec p i) as [->|]; try done. lia.
Qed.

Lemma booting_nodes i k l (s : st) h : booting i k l s ->
  (forall d, h <> ChunkNode d) -> h <> ChunksList ->
  (forall p, h = MsgList p -> i <= p) -> (forall j, h = HandleList j -> k <= j) ->
  booting i k l (set_nodes (BI_LIST_INIT_NODE h (nodes s)) s) /\ bi_list (BI_LIST_INIT_NODE h (nodes s)) h [].
Proof.
  intros [B1 B2 B3 B4 B5 B6 B7 B8 B9 B10 B11 B12] N1 N2 N3 N4.
  destruct (init_node_spec h (nodes s)) as [H0 Hf]. split; [|done].
  assert (Hother : forall h' l', bi_list (nodes s) h' l' -> h ∉ h' :: l' ->
    bi_list (BI_LIST_INIT_NODE h (nodes s)) h' l').
  { intros h' l' Hl Hn. apply (bi_list_ext (nodes s)); [|done]. right. intros x Hx. apply Hf.
    intros ->%list_elem_of_singleton. apply Hn. apply elem_of_cons. tauto. }
  split; try done.
  - destruct B3 as [Hb Hin]. split; [|done]. apply Hother; [done|].
    rewrite elem_of_cons, list_elem_of_In, in_map_iff. intros [H|(d & H & _)]; [done|by apply (N1 d)].
  - intros p Hp Hi. apply Hother; [by apply B6|]. intros H%list_elem_of_singleton. specialize (N3 p H). lia.
  - intros j db Hj Hk. destruct (B7 j db Hj Hk) as [H1 H2]. split; [done|]. apply Hother; [done|].
    intros H%list_elem_of_singleton. specialize (N4 j H). lia.
Qed.

Lemma init_partition_spec (s : st) i k l stat ns (Q : option Z -> st -> Prop) P : booting i k l s ->
  static_at cfg i = Some stat ->
  (forall s' l', booting (i + 1) k l' s' ->
     Q (if pid stat =? TFM_SP_NON_SECURE_ID then Some i else ns) s') ->
  swp (init_partition cfg i stat ns) s Q P.
Proof using Hboot.
  intros HB Hst HQ. destruct (bc_part Hboot i stat Hst) as (F1 & F2 & _ & _ & _ & F6). unfold init_partition. swp_steps.
  rewrite (proj2 (Z.eqb_neq _ _) F1). destruct (Z.gtb_spec (psa_ff_ver stat) PSA_FRAMEWORK_VERSION); [lia|].
  apply swp_bind, isolation_spec; [done|]. swp_steps.
  set (I := fun s' : st => booting i k l s' /\ p_static (partitions s' i) = stat).
  apply (assign_irq_spec I).
  { intros s1 x [H1 H2]. split; [by apply booting_partition|]. cbn. by rewrite upd_eq. }
  { intros s1 e q [H1 H2]. split; [|done]. by apply (booting_frame i k l s1). }
  { split; [|by cbn; rewrite !upd_eq]. by repeat apply booting_partition. }
  intros s1 [H1 H2]. swp_steps. set (s2 := on_partition i _ s1).
  assert (H3 : booting i k l s2) by (by apply booting_partition).
  destruct (booting_nodes i k l s2 (MsgList i) H3) as [H4 H5]; [done|done|intros p [= ->]; lia|done|].
  eapply swp_on_nodes; [done|]. cbv beta. set (s3 := set_nodes _ s2) in *.
  apply swp_bind, swp_on_sched. unfold tfm_core_thrd_init. swp_steps. set (s4 := set_scheduler _ s3).
  assert (H6 : booting i k l s4 /\ created i stat (scheduler s4)).
  { split; [by apply booting_thread|]. unfold created, s4. cbn [scheduler set_scheduler].
    rewrite on_thrd_eq. done. }
  apply swp_on_sched. swp_steps. set (s5 := set_scheduler _ s4).
  assert (Hkeep : forall f sx, (forall t, state (f t) = state t /\ pfn (f t) = pfn t /\ stk_btm (f t) = stk_btm t /\
      stk_top (f t) = stk_top t) -> booting i k l sx /\ created i stat (scheduler sx) ->
    booting i k l (set_scheduler (on_thrd i f (scheduler sx)) sx) /\ created i stat (on_thrd i f (scheduler sx))).
  { intros f sx Hf [G1 G2]. split; [by apply booting_thread|]. unfold created in *. rewrite on_thrd_eq.
    destruct (Hf (thrds (scheduler sx) i)) as (-> & -> & -> & ->). done. }
  assert (H7 : booting i k l s5 /\ created i stat (scheduler s5)) by (by apply Hkeep).
  assert (Hstart : forall sx n, booting i k l sx /\ created i stat (scheduler sx) -> nodes sx = nodes s3 ->
    partitions sx = partitions s3 -> n = (if pid stat =? TFM_SP_NON_SECURE_ID then Some i else ns) ->
    swp (on_sched (tfm_core_thrd_start (partition_count cfg) i)) sx (fun err s' =>
      swp (if negb (err =? THRD_SUCCESS) then tfm_core_panic else sret n) s' Q P) P).
  { intros sx n [G1 G2] En Ep ->. apply (start_spec sx i k l stat); rewrite ?En, ?Ep; try done.
    - cbn. rewrite upd_eq. exact H2.
    - cbn. by rewrite upd_eq. }
  destruct (Z.eqb_spec (pid stat) TFM_SP_NON_SECURE_ID).
  - apply swp_bind, swp_on_sched. swp_steps. apply Hstart; [by apply Hkeep|done|done|done].
  - swp_steps. by apply Hstart.
Qed.

(** The non-secure entry thread. *)
Definition ns_entry (r : Z) : Prop := exists stat, static_at cfg r = Some stat /\ pid stat = TFM_SP_NON_SECURE_ID.

Lemma init_partitions_spec (s : st) k rest done_ l ns (Q : option Z -> st -> Prop) P :
  static_data_list cfg = done_ ++ rest -> booting (Z.of_nat (length done_)) k l s ->
  (forall s' l' ns', booting (Z.of_nat (length (static_data_list cfg))) k l' s' ->
     ((exists stat, stat ∈ rest /\ pid stat = TFM_SP_NON_SECURE_ID) \/ is_Some ns ->
        exists r, ns' = Some r /\ (ns_entry r \/ ns = Some r)) -> Q ns' s') ->
  swp (init_partitions cfg (Z.of_nat (length done_)) rest ns) s Q P.
Proof using Hboot.
  revert done_ l ns s. induction rest as [|stat rest IH]; intros done_ l ns s E HB HQ; simpl.
  - apply swp_ret, (HQ s l).
    + rewrite E, app_nil_r. exact HB.
    + intros [(x & Hx & _)|[r ->]]; [by apply not_elem_of_nil in Hx|]. exists r. auto.
  - assert (Hst : static_at cfg (Z.of_nat (length done_)) = Some stat).
    { unfold static_at. destruct (Z.ltb_spec (Z.of_nat (length done_)) 0); [lia|].
      rewrite Nat2Z.id, E. by rewrite lookup_app_r, Nat.sub_diag by lia. }
    apply swp_bind, (init_partition_spec s _ k l stat); [done|done|]. intros s1 l1 HB1.
    replace (Z.of_nat (length done_) + 1) with (Z.of_nat (length (done_ ++ [stat]))) in * by (rewrite length_app; simpl; lia).
    apply (IH (done_ ++ [stat]) l1); [by rewrite <- app_assoc|done|].
    intros s2 l2 ns2 HB2 Hns. apply (HQ s2 l2); [done|]. intros H.
    destruct (Z.eqb_spec (pid stat) TFM_SP_NON_SECURE_ID) as [Ep|Ep].
    + destruct Hns as (r & -> & [Hr|[= <-]]); [right; by eexists|by exists r; auto|].
      eexists. split; [done|]. left. by exists stat.
    + apply Hns. destruct H as [(x & [->|Hx]%elem_of_cons & Hp)|H]; [done|left; by exists x|by right].
Qed.

(** ** Services *)
Lemma by_id_booting (s : st) k l id (Q : option Z -> st -> Prop) P : booting (Z.of_nat (partition_count cfg)) k l s ->
  id <> INVALID_PARTITION_ID -> Q (by_pid cfg id) s -> swp (tfm_spm_get_partition_by_id cfg id) s Q P.
Proof.
  intros HB Hid HQ. unfold tfm_spm_get_partition_by_id, get_partition_idx.
  destruct (Z.eqb_spec id INVALID_PARTITION_ID); [done|]. swp_steps. unfold partition_count in *.
  rewrite (find_index_map _ (fun stat => pid stat =? id)); [done|]. intros i stat Hi.
  destruct (bt_part _ _ _ _ HB (Z.of_nat (0 + i)) stat) as [-> _]; [|apply lookup_lt_Some in Hi; lia|done].
  unfold static_at. destruct (Z.ltb_spec (Z.of_nat (0 + i)) 0); [lia|]. by rewrite Nat2Z.id.
Qed.

(** The partition of a service is the one with the ID in its table entry. *)
Lemma owner_by_pid j db : service_at cfg j = Some db ->
  by_pid cfg (db_partition_id db) = Some (owner_of cfg db) /\ db_partition_id db <> INVALID_PARTITION_ID.
Proof using Hcfg.
  intros Hj. destruct (cf_owner _ Hcfg j db Hj) as [stat Hst].
  assert (E : by_pid cfg (db_partition_id db) = Some (owner_of cfg db)).
  { unfold owner_of in *. unfold by_pid. by destruct (find_index _ _ _). }
  split; [done|]. destruct (by_pid_some _ _ _ E) as (stat' & Hst' & Hid).
  pose proof (cf_pid _ Hcfg _ _ Hst') as Hr. rewrite Hid in Hr. unfold INVALID_PARTITION_ID. lia.
Qed.

Lemma find_index_in {A} (f : A -> bool) i l x : x ∈ l -> f x = true -> is_Some (find_index f i l).
Proof.
  revert i. induction l as [|y l IH]; intros i Hx Hf; simpl; [by apply not_elem_of_nil in Hx|].
  apply elem_of_cons in Hx as [->|Hx]; [rewrite Hf; by eexists|]. destruct (f y); [by eexists|by apply IH].
Qed.

Lemma track_spec (s : st) i db (Q : unit -> st -> Prop) P : service_at cfg i = Some db -> connection_based db = false ->
  (forall j, Q tt (set_stateless (upd j (Some i) (stateless_service_ref s)) s)) ->
  swp (track_stateless cfg i db) s Q P.
Proof using Hboot.
  intros Hi Hc HQ. unfold track_stateless.
  destruct (find_index_in (fun sid => sid =? db_sid db) 0 _ (db_sid db) (bc_stateless Hboot i db Hi Hc)) as [j Hj];
    [by apply Z.eqb_eq|]. rewrite Hj. swp_steps. apply HQ.
Qed.

Lemma init_service_spec (s : st) k l db (Q : unit -> st -> Prop) P :
  booting (Z.of_nat (partition_count cfg)) k l s -> service_at cfg k = Some db ->
  (forall s', booting (Z.of_nat (partition_count cfg)) (k + 1) l s' -> Q tt s') ->
  swp (init_service cfg k db) s Q P.
Proof using Hboot Hcfg.
  intros HB Hk HQ. set (n := Z.of_nat (partition_count cfg)) in *.
  destruct (owner_by_pid k db Hk) as [Ho Hid]. unfold init_service. swp_steps.
  set (srv := {| service_db := db; partition := Some (owner_of cfg db) |}).
  assert (Hset : forall x (sx : st), booting n k l sx -> booting n k l (set_services (upd k x (services sx)) sx)).
  { intros x sx [B1 B2 B3 B4 B5 B6 B7 B8 B9 B10 B11 B12]. split; try done. intros j db' Hj Hlt. cbn.
    rewrite upd_ne by lia. by apply B7. }
  apply (by_id_booting _ k l); [by apply Hset|done|]. rewrite Ho. swp_steps. set (s1 := on_partition _ _ _).
  assert (HB1 : booting n k l s1 /\ services s1 k = srv).
  { split; [|cbn; by rewrite upd_eq]. apply (booting_frame n k l (set_services (upd k srv (services s)) s));
      [by apply Hset|try done..].
    - intros x. cbn. unfold upd. by destruct (x =? k).
    - intros p. cbn. unfold upd. by destruct (Z.eqb_spec p (owner_of cfg db)) as [->|].
    - intros p _. cbn. unfold upd. by destruct (Z.eqb_spec p (owner_of cfg db)) as [->|]. }
  assert (Hlast : forall sx, booting n k l sx /\ services sx k = srv ->
    swp (on_nodes (fun ns => Some (BI_LIST_INIT_NODE (HandleList k) ns))) sx Q P).
  { intros sx [G1 G2]. destruct (booting_nodes n k l sx (HandleList k) G1) as [H1 H2]; [done..|intros j [= ->]; lia|].
    eapply swp_on_nodes; [done|]. apply HQ. destruct H1 as [B1 B2 B3 B4 B5 B6 B7 B8 B9 B10 B11 B12]. split; try done.
    intros j db' Hj Hlt. destruct (Z.eq_dec j k) as [->|Hn]; [|apply B7; [done|lia]].
    rewrite Hk in Hj. by injection Hj as <-. }
  destruct (connection_based db) eqn:Ec; cbn [negb]; [by swp_steps; apply Hlast|].
  apply (track_spec s1 k db); [done|done|]. intros j. apply Hlast. destruct HB1 as [G1 G2]. split; [|done].
  destruct G1 as [B1 B2 B3 B4 B5 B6 B7 B8 B9 B10 B11 B12]. split; try done. intros x y. cbn. unfold upd.
  destruct (x =? j); [|by apply B8]. intros [= <-]. by rewrite Hk.
Qed.

Lemma init_services_spec (s : st) rest done_ l (Q : unit -> st -> Prop) P :
  service_db_list cfg = done_ ++ rest -> booting (Z.of_nat (partition_count cfg)) (Z.of_nat (length done_)) l s ->
  (forall s', booting (Z.of_nat (partition_count cfg)) (Z.of_nat (length (service_db_list cfg))) l s' -> Q tt s') ->
  swp (init_services cfg (Z.of_nat (length done_)) rest) s Q P.
Proof using Hboot Hcfg.
  revert done_ s. induction rest as [|db rest IH]; intros done_ s E HB HQ; simpl.
  - apply swp_ret, HQ. rewrite E, app_nil_r. exact HB.
  - apply swp_bind, (init_service_spec s _ l db); [done| |].
    { unfold service_at. destruct (Z.ltb_spec (Z.of_nat (length done_)) 0); [lia|].
      rewrite Nat2Z.id, E. by rewrite lookup_app_r, Nat.sub_diag by lia. }
    intros s1 HB1. replace (Z.of_nat (length done_) + 1) with (Z.of_nat (length (done_ ++ [db]))) in *
      by (rewrite length_app; simpl; lia). apply (IH (done_ ++ [db])); [by rewrite <- app_assoc|done|done].
Qed.

(** ** The whole start *)
Definition boot_view (l : list Z) : view :=
  {| free := conn_chunks cfg; hlist := fun _ => []; queue := fun _ => []; pending := []; order := l |}.

Lemma in_range {A} (l : list A) i x : (if i <? 0 then None else l !! Z.to_nat i) = Some x -> 0 <= i < Z.of_nat (length l).
Proof. destruct (Z.ltb_spec i 0); [done|]. intros Hx%lookup_lt_Some. lia. Qed.

Lemma booted_ok (s : st) l r :
  booting (Z.of_nat (partition_count cfg)) (Z.of_nat (length (service_db_list cfg))) l s -> is_Some (static_at cfg r) ->
  spm_ok cfg (set_scheduler (set_pendsv true (set_curr_thrd (Some r) (scheduler s))) s) (boot_view l).
Proof.
  intros [B1 B2 B3 B4 B5 B6 B7 B8 B9 B10 B11 B12] Hr.
  assert (Hp : forall p stat, static_at cfg p = Some stat -> p < Z.of_nat (partition_count cfg)) by
    (intros p stat H%in_range; unfold partition_count; lia).
  assert (Hj : forall j db, service_at cfg j = Some db -> j < Z.of_nat (length (service_db_list cfg))) by
    (intros j db H%in_range; lia).
  split; cbn.
  - split; cbn; try done; [intros p stat H; by apply (B1 p stat H), (Hp p stat)|intros j db H; by apply (B7 j db H), (Hj j db)].
  - split; cbn; [done| |].
    + intros j [db H]. by apply (B7 j db H), (Hj j db).
    + intros p [stat H]. by apply B6; [rewrite H|apply (Hp p stat)].
  - split; cbn; try (intros; exfalso; by eapply not_elem_of_nil); [by left|].
    intros c _. by rewrite B5.
  - intros j db H. rewrite B2, Z.land_0_l. split; [done|]. intros (c & Hc & _). by apply not_elem_of_nil in Hc.
  - split; cbn; try (intros; exfalso; by eapply not_elem_of_nil).
    intros p [stat H]. destruct (B1 p stat H (Hp p stat H)) as [_ ->]. split; [done|]. done.
  - split; cbn.
    + by apply pendsv_sched_ok, curr_sched_ok.
    + intros k. rewrite B10. split; [by intros [H _]|]. intros [stat H]. split; [by rewrite H|by apply (Hp k stat)].
    + by exists r.
Qed.

Lemma init_spec (s : st) : boot_state s ->
  swp (tfm_spm_init cfg) s (fun _ s' => exists l r, spm_ok cfg s' (boot_view l) /\
    p_curr_thrd (scheduler s') = Some r /\ ns_entry r /\ pendsv (scheduler s') = true /\
    forall c, conns s' c = zero_conn) (fun _ => False).
Proof using Hboot Hcfg.
  intros HS. unfold tfm_spm_init. apply swp_bind, init_pool_spec; [done|]. intros s0 H0. apply swp_bind.
  apply (init_partitions_spec s0 0 (static_data_list cfg) [] []); [done|done|]. intros s1 l1 ns H1 Hns.
  destruct Hns as (r & -> & [Hr|Hr]); [left| |done].
  { destruct (bc_ns Hboot) as (p & stat & Hst & Hid). exists stat. split; [|done]. unfold static_at in Hst.
    destruct (p <? 0); [done|]. by apply list_elem_of_lookup_2 in Hst. }
  apply swp_bind. apply (init_services_spec s1 (service_db_list cfg) [] l1); [done|done|]. intros s2 H2.
  apply swp_on_sched. unfold tfm_core_thrd_start_scheduler, tfm_core_thrd_activate_schedule. swp_steps.
  rewrite (bt_curr _ _ _ _ H2). cbn [TFM_CORE_ASSERT]. swp_steps. exists l1, r.
  split; [apply booted_ok; [done|]; by destruct Hr as (stat & -> & _)|]. do 3 (split; [done|]). apply (bt_conns _ _ _ _ H2).
Qed.

(** ** The states the system can reach *)
Lemma reach_ok (rpc_ops : tfm_rpc_ops_t W) (scfg : svc_config) (s0 s : st) v :
  spm_ok cfg s0 v -> reachable cfg rpc_ops scfg s0 s -> exists v', spm_ok cfg s v'.
Proof using Hcfg.
  intros H0 Hr. induction Hr as [|s s' Hr [v1 IH] Hst]; [by exists v|]. by apply (step_ok cfg rpc_ops scfg Hcfg s s' v1).
Qed.
End Boot.

(** * Secure Partition Manager: what every call keeps of the connections

    Two facts that need no discipline of the callers: the output vectors of a
    message stay inside the memory the client gave, and the calls of a service
    touch no message of another partition. *)

(** The vectors of a message are those of the client: four of them, in its
    32-bit memory, with no more bytes written than there is room for. *)
Definition in_room (m : tfm_msg_body_t) : Prop :=
  length (outvec m) = 4%nat /\
  forall i, 0 <= i < PSA_MAX_IOVEC ->
    let v := vec_at (outvec m) i in
    0 <= base v /\ 0 <= len v <= at4 (out_size (msg m)) i /\ base v + at4 (out_size (msg m)) i < 2 ^ 32.

Lemma pad4_nth {A} (l : list A) d i : nth i (pad4 d l) d = if (i <? 4)%nat then nth i l d else d.
Proof.
  unfold pad4. destruct (Nat.ltb_spec i 4) as [Hi|Hi].
  - rewrite nth_firstn. destruct (Nat.ltb_spec i 4); [|lia]. destruct (Nat.lt_ge_cases i (length l)) as [Hl|Hl].
    + by rewrite app_nth1.
    + rewrite app_nth2, nth_repeat by lia. by rewrite nth_overflow.
  - apply nth_overflow. rewrite length_firstn. lia.
Qed.

(** What is checked of an output vector of the client. *)
Definition vec_ok (v : psa_vec) : Prop := 0 <= base v /\ 0 <= len v /\ base v + len v < 2 ^ 32.

Lemma accessible_ok cfg ns access priv v : 0 <= base v < 2 ^ 32 -> 0 <= len v ->
  vec_accessible cfg ns access priv v = true -> vec_ok v.
Proof.
  unfold vec_accessible, tfm_memory_check, vec_ok. intros Hb Hl H. destruct (Z.eqb_spec (len v) 0) as [E|E]; [rewrite E; lia|].
  destruct (base v =? 0); [done|]. rewrite Z.gtb_ltb in H. unfold UINT32_MAX in H.
  destruct (Z.ltb_spec (2 ^ 32 - 1 - len v) (base v)); [done|lia].
Qed.
Lemma loaded_vecs_ok cfg ns access priv m a n : forallb (vec_accessible cfg ns access priv) (load_vecs m a n) = true ->
  Forall vec_ok (load_vecs m a n).
Proof.
  rewrite forallb_forall. intros H. apply List.Forall_forall. intros v Hv. apply (accessible_ok cfg ns access priv).
  1-2: unfold load_vecs in Hv; apply in_map_iff in Hv as (i & <- & _); cbn [base len load_vec]; unfold load32; match goal with |- context [u32 ?x] => pose proof (u32_range x) end; lia.
  by apply H.
Qed.

Lemma filled_in_room vs m : Forall vec_ok vs ->
  outvec m = pad4 zero_vec (map (fun v => {| base := base v; len := 0 |}) vs) ->
  out_size (msg m) = pad4 0 (map len vs) -> in_room m.
Proof.
  intros Hvs Ho Hs. split; [rewrite Ho; unfold pad4; rewrite length_firstn, length_app, repeat_length; lia|].
  intros i Hi. unfold PSA_MAX_IOVEC in Hi. unfold vec_at, at4. rewrite Ho, Hs. fold zero_vec. rewrite !pad4_nth.
  destruct (Nat.ltb_spec (Z.to_nat i) 4); [|lia].
  change zero_vec with ((fun v => {| base := base v; len := 0 |}) zero_vec). rewrite map_nth.
  change 0 with (len zero_vec) at 6 8. rewrite !map_nth. cbn [base len].
  destruct (Nat.lt_ge_cases (Z.to_nat i) (length vs)) as [Hl|Hl]; [|rewrite nth_overflow by done; cbn; lia].
  rewrite List.Forall_forall in Hvs. specialize (Hvs _ (nth_In vs zero_vec Hl)). unfold vec_ok in Hvs. lia.
Qed.

Lemma produced_in_room h i n : in_room (internal_msg h) -> 0 <= i < PSA_MAX_IOVEC ->
  let v := vec_at (outvec (internal_msg h)) i in
  0 <= n <= u32 (at4 (out_size (msg (internal_msg h))) i - len v) ->
  len v + n <= at4 (out_size (msg (internal_msg h))) i /\ u32 (len v + n) = len v + n /\
  in_room (internal_msg (produced i n h)).
Proof.
  intros [H4 Hr] Hi v Hn. destruct (Hr i Hi) as (B & L & E). fold v in B, L, E. rewrite u32_small in Hn by lia.
  split; [lia|]. assert (Eu : u32 (len v + n) = len v + n) by (apply u32_small; lia). split; [done|].
  unfold in_room, produced. cbn [internal_msg set_internal_msg outvec set_outvec msg]. fold v. rewrite Eu. split.
  - unfold set_at4. by rewrite length_insert.
  - intros k Hk. destruct (Z.eq_dec k i) as [->|Hne].
    + rewrite vec_at_set_eq by (unfold PSA_MAX_IOVEC in Hi; lia). cbn [base len]. lia.
    + rewrite vec_at_set_ne by lia. by apply Hr.
Qed.

(** A relation between the states before and after a call that looks at
    nothing but the connections; [changes c f]: it allows [f] on [c]. *)
Class ConnRel {W : Type} (R : spm W -> spm W -> Prop) := {
  changes : Z -> (tfm_conn_handle_t -> tfm_conn_handle_t) -> Prop;
  cr_same s s' : conns s' = conns s -> R s s';
  cr_trans s1 s2 s3 : R s1 s2 -> R s2 s3 -> R s1 s3;
  cr_conn c f s : changes c f -> R s (on_conn c f s)
}.

Section Keeps.
Context {W : Type} (cfg : spm_config) (rpc_ops : tfm_rpc_ops_t W).
Local Abbreviation st := (spm W).
Context (R : st -> st -> Prop) `{!ConnRel R}.

Definition keeps {A} (m : SPM st A) : Prop := forall s, R s (snd (m s)).

Lemma keeps_sret {A} (a : A) : keeps (sret a).
Proof. intros s. by apply cr_same. Qed.
Lemma keeps_sbind {A B} (m : SPM st A) (f : A -> SPM st B) : keeps m -> (forall a, keeps (f a)) -> keeps (sbind m f).
Proof.
  intros Hm Hf s. unfold sbind. specialize (Hm s). destruct (m s) as [[a| |] s']; try done.
  apply (cr_trans s s'); [exact Hm|apply Hf].
Qed.
Lemma keeps_get : keeps sget.
Proof. intros s. by apply cr_same. Qed.
Lemma keeps_gets {A} (f : st -> A) : keeps (gets f).
Proof. intros s. by apply cr_same. Qed.
Lemma keeps_put f : (forall s : st, conns (f s) = conns s) -> keeps (sput f).
Proof. intros Hf s. apply cr_same, Hf. Qed.
Lemma keeps_conn c f : changes c f -> keeps (sput (on_conn c f)).
Proof. intros Hf s. by apply cr_conn. Qed.
Lemma keeps_deref {A} (o : option A) : keeps (deref o).
Proof. intros s. by destruct o; apply cr_same. Qed.
Lemma keeps_some {A B} (a : A) (f : A -> SPM st B) : keeps (f a) -> keeps (sbind (deref (Some a)) f).
Proof. exact id. Qed.
Lemma keeps_panic {A} : keeps (@tfm_core_panic st A).
Proof. intros s. by apply cr_same. Qed.
Lemma keeps_sched {A} (m : SPM sched A) : keeps (@on_sched W A m).
Proof. intros s. unfold on_sched. destruct (m (scheduler s)). by apply cr_same. Qed.
Lemma keeps_nodes f : keeps (@on_nodes W f).
Proof.
  apply keeps_sbind; [apply keeps_get|intros s]. apply keeps_sbind; [apply keeps_deref|intros n]. by apply keeps_put.
Qed.
(** After reading, what is known of the state. *)
Lemma keeps_read {A B} (m : SPM st A) (f : A -> SPM st B) s : snd (m s) = s ->
  (forall a, fst (m s) = Done a -> R s (snd (f a s))) -> R s (snd (sbind m f s)).
Proof.
  unfold sbind. destruct (m s) as [[a| |] s']; cbn; intros -> Hf; [by apply Hf|by apply cr_same..].
Qed.
End Keeps.

Create HintDb conn_frame.
(** One step by the head of the operation. *)
Ltac keeps_step :=
  lazymatch goal with
  | |- keeps _ (sbind (deref (Some _)) _) => apply keeps_some
  | |- keeps ?R (sbind _ _) => apply (keeps_sbind R); [|intros]
  | |- keeps ?R (sret _) => apply (keeps_sret R)
  | |- keeps ?R sget => apply (keeps_get R)
  | |- keeps ?R (gets _) => apply (keeps_gets R)
  | |- keeps ?R (sput (on_conn _ _)) => apply (keeps_conn R); first [done|by intros ? ?]
  | |- keeps ?R (sput _) => apply (keeps_put R); done
  | |- keeps ?R (deref _) => apply (keeps_deref R)
  | |- keeps ?R tfm_core_panic => apply (keeps_panic R)
  | |- keeps ?R (on_sched _) => apply (keeps_sched R)
  | |- keeps ?R (on_nodes _) => apply (keeps_nodes R)
  | |- keeps _ (TFM_CORE_ASSERT _) => unfold TFM_CORE_ASSERT
  | |- keeps _ (TFM_CORE_ERROR_HANDLE _) => unfold TFM_CORE_ERROR_HANDLE
  | |- keeps _ (TFM_PROGRAMMER_ERROR _ _) => unfold TFM_PROGRAMMER_ERROR
  | |- keeps _ (modify_msg _ _) => unfold modify_msg
  | |- keeps ?R (msg_body _) => apply (keeps_gets R)
  | |- keeps ?R (conn _) => apply (keeps_gets R)
  | |- keeps ?R (the_partition _) => apply (keeps_gets R)
  | |- keeps ?R (the_service _) => apply (keeps_gets R)
  | |- keeps _ (match ?x with _ => _ end) => destruct x eqn:?
  | |- keeps _ ?m => solve [eauto with conn_frame typeclass_instances]
  end.
Ltac keeps_run := repeat keeps_step.

Section Calls.
Context {W : Type} (cfg : spm_config) (rpc_ops : tfm_rpc_ops_t W).
Local Abbreviation st := (spm W).
Context (R : st -> st -> Prop) `{!ConnRel R}.
Local Abbreviation keeps := (keeps R).

(** ** Calls that change no connection *)
Lemma keeps_running : keeps (@tfm_spm_get_running_partition W).
Proof. unfold tfm_spm_get_running_partition. keeps_run. Qed.
Hint Resolve keeps_running : conn_frame.
Lemma keeps_running_id : keeps (@tfm_spm_partition_get_running_partition_id W).
Proof. unfold tfm_spm_partition_get_running_partition_id. keeps_run. Qed.
Lemma keeps_mode : keeps (@running_partition_mode W).
Proof. unfold running_partition_mode. keeps_run. Qed.
Hint Resolve keeps_running_id keeps_mode : conn_frame.
Lemma keeps_assert_signal p v : keeps (@assert_signal W p v).
Proof. unfold assert_signal, wake_partition. keeps_run. Qed.
Lemma keeps_wait_partition p : keeps (@wait_partition W p).
Proof. unfold wait_partition. keeps_run. Qed.
Hint Resolve keeps_assert_signal keeps_wait_partition : conn_frame.
Lemma keeps_from_handle h : keeps (@tfm_spm_get_msg_from_handle W cfg h).
Proof. unfold tfm_spm_get_msg_from_handle. keeps_run. Qed.
Lemma keeps_owner_mode c : keeps (@owner_mode W c).
Proof. unfold owner_mode. keeps_run. Qed.
Lemma keeps_notify id v : keeps (@notify_with_signal W cfg id v).
Proof. unfold notify_with_signal, tfm_spm_get_partition_by_id, get_partition_idx. keeps_run. Qed.
Lemma keeps_irq_line v : keeps (@running_irq_line W cfg v).
Proof. unfold running_irq_line. keeps_run. Qed.
Lemma keeps_enable n : keeps (@tfm_spm_hal_enable_irq W n).
Proof. unfold tfm_spm_hal_enable_irq. keeps_run. Qed.
Lemma keeps_disable n : keeps (@tfm_spm_hal_disable_irq W n).
Proof. unfold tfm_spm_hal_disable_irq. keeps_run. Qed.
Hint Resolve keeps_from_handle keeps_owner_mode keeps_notify keeps_irq_line keeps_enable keeps_disable : conn_frame.
Lemma keeps_by_signal_loop fuel hd n v f : keeps (@tfm_spm_get_msg_by_signal_loop W fuel hd n v f).
Proof.
  revert n f. induction fuel as [|fuel IH]; intros n f; cbn [tfm_spm_get_msg_by_signal_loop]; unfold msg_signal; keeps_run.
Qed.
Hint Resolve keeps_by_signal_loop : conn_frame.
Lemma keeps_by_signal p v : keeps (@tfm_spm_get_msg_by_signal W p v).
Proof. unfold tfm_spm_get_msg_by_signal. keeps_run. Qed.
Hint Resolve keeps_by_signal : conn_frame.
Lemma keeps_outvec_loop n i c : keeps (@update_caller_outvec_len_loop W n i c).
Proof. revert i. induction n as [|n IH]; intros i; cbn [update_caller_outvec_len_loop]; keeps_run. Qed.
Hint Resolve keeps_outvec_loop : conn_frame.
Lemma keeps_outvec_len c : keeps (@update_caller_outvec_len W cfg c).
Proof. unfold update_caller_outvec_len. keeps_run. Qed.
Lemma keeps_validate_caller scfg p ctx exc ns : keeps (@tfm_spm_validate_caller W scfg p ctx exc ns).
Proof. unfold tfm_spm_validate_caller. keeps_run. Qed.
Hint Resolve keeps_outvec_len keeps_validate_caller : conn_frame.
Lemma keeps_pendsv : keeps (@PendSV_Handler W cfg).
Proof. unfold PendSV_Handler. keeps_run. Qed.
Hint Resolve keeps_pendsv : conn_frame.

(** ** Calls on one connection *)
Lemma keeps_free srv c : changes c (fun h => set_internal_msg (set_magic 0 (internal_msg h)) h) ->
  keeps (@tfm_spm_free_conn_handle W srv (Some c)).
Proof. intros Hc. unfold tfm_spm_free_conn_handle. keeps_run. Qed.

End Calls.
#[export] Hint Resolve keeps_running keeps_running_id keeps_mode keeps_assert_signal keeps_wait_partition
  keeps_from_handle keeps_owner_mode keeps_notify keeps_irq_line keeps_enable keeps_disable keeps_by_signal
  keeps_outvec_len keeps_validate_caller keeps_pendsv : conn_frame.
Ltac keeps_run ::= repeat first [keeps_step |
  lazymatch goal with
  | |- keeps ?R (tfm_spm_free_conn_handle _ (Some _)) => apply (keeps_free R); first [done|by intros ? ?]
  end].

Section Rels.
Context {W : Type} (cfg : spm_config) (rpc_ops : tfm_rpc_ops_t W).
Local Abbreviation st := (spm W).

(** Only connections with [P] change. *)
Definition only (P : Z -> Prop) (s s' : st) : Prop := forall x, ~ P x -> conns s' x = conns s x.
#[export] Instance only_rel P : ConnRel (only P).
Proof.
  refine {| changes := fun x _ => P x |}.
  - intros s s' H x _. by rewrite H.
  - intros s1 s2 s3 H1 H2 x Hx. by rewrite H2, H1.
  - intros x f s Hx y Hy. cbn. rewrite upd_ne; [done|]. by intros ->.
Defined.

(** The vectors stay inside. *)
Definition vectors_ok (s : st) : Prop := forall c, in_room (internal_msg (conns s c)).
Definition keeps_vectors (s s' : st) : Prop := vectors_ok s -> vectors_ok s'.
#[export] Instance keeps_vectors_rel : ConnRel keeps_vectors.
Proof.
  refine {| changes := fun _ f => forall h, in_room (internal_msg h) -> in_room (internal_msg (f h)) |}.
  - intros s s' H Hv x. rewrite H. apply Hv.
  - intros s1 s2 s3 H1 H2 Hv. by apply H2, H1.
  - intros c f s Hf Hv x. cbn. destruct (Z.eq_dec x c) as [->|Hn]; [rewrite upd_eq; by apply Hf|by rewrite upd_ne].
Defined.

(** The message of a handle is the connection the handle leads to. *)
Lemma keeps_handle {A} R `{!ConnRel R} h (k : option Z -> SPM st A) : keeps R (k None) ->
  (forall c, tfm_spm_to_handle_instance cfg h = Some c -> keeps R (k (Some c))) ->
  keeps R (let! m := tfm_spm_get_msg_from_handle cfg h in k m).
Proof.
  intros Hn Hs s.
  assert (Hp : snd (tfm_spm_get_msg_from_handle cfg h s) = s /\ forall c,
    fst (tfm_spm_get_msg_from_handle cfg h s) = Done (Some c) -> tfm_spm_to_handle_instance cfg h = Some c).
  { unfold tfm_spm_get_msg_from_handle, tfm_spm_partition_get_running_partition_id, tfm_spm_get_running_partition,
      sbind, sget, gets, sret, deref. split; repeat case_match; simplify_eq/=; try done. intros c0 E. by simplify_eq/=. }
  destruct Hp as [Hp Hc]. apply keeps_read; [done|done|]. intros [c|] Ha; [by apply Hs, Hc|apply Hn].
Qed.
End Rels.

(** ** The calls of a service *)
Section Services.
Context {W : Type} (cfg : spm_config) (rpc_ops : tfm_rpc_ops_t W) (h : Z).
Local Abbreviation st := (spm W).
Local Abbreviation mine := (only (fun c => tfm_spm_to_handle_instance cfg h = Some c) : st -> st -> Prop).
Ltac by_handle := apply (keeps_handle cfg _); [keeps_run|intros ? Hh; rewrite ?Hh; keeps_run].

Lemma mine_set_rhandle x : keeps mine (tfm_spm_psa_set_rhandle cfg h x).
Proof. unfold tfm_spm_psa_set_rhandle, tfm_spm_set_rhandle. by_handle. Qed.
Lemma mine_read i b n : keeps mine (tfm_spm_psa_read cfg h i b n).
Proof. unfold tfm_spm_psa_read, consume. by_handle. Qed.
Lemma mine_skip i n : keeps mine (tfm_spm_psa_skip cfg h i n).
Proof. unfold tfm_spm_psa_skip, consume. by_handle. Qed.
Lemma mine_write i b n : keeps mine (tfm_spm_psa_write cfg h i b n).
Proof. unfold tfm_spm_psa_write. by_handle. Qed.
Lemma mine_reply v : keeps mine (tfm_spm_psa_reply cfg rpc_ops h v).
Proof. unfold tfm_spm_psa_reply, reply_value, set_conn_status, wake_msg. by_handle. Qed.
End Services.

(** ** Every call keeps the vectors inside *)
Section Vectors.
Context {W : Type} (cfg : spm_config) (rpc_ops : tfm_rpc_ops_t W) (scfg : svc_config).
Local Abbreviation st := (spm W).
Local Abbreviation safe := (keeps (keeps_vectors : st -> st -> Prop)).

Lemma safe_wait_msg c : safe (wait_msg c).
Proof. unfold wait_msg. keeps_run. Qed.
Hint Resolve safe_wait_msg : conn_frame.
Lemma safe_send srv c : safe (tfm_spm_send_event cfg srv c).
Proof. unfold tfm_spm_send_event. keeps_run. Qed.
Lemma safe_fill c srv h ty cid i o p : Forall vec_ok o -> safe (tfm_spm_fill_msg cfg rpc_ops c srv h ty cid i o p).
Proof.
  intros Ho. unfold tfm_spm_fill_msg, tfm_spm_get_rhandle, modify_msg. do 5 (apply (keeps_sbind _); [keeps_run|intros]).
  apply (keeps_sbind _); [apply (keeps_conn _); intros ? _; by apply (filled_in_room o)|intros]. keeps_run.
Qed.
Lemma safe_create srv cid : safe (tfm_spm_create_conn_handle cfg srv cid).
Proof. unfold tfm_spm_create_conn_handle. keeps_run. Qed.
Lemma safe_free srv c : safe (tfm_spm_free_conn_handle srv c).
Proof. unfold tfm_spm_free_conn_handle. keeps_run. Qed.
Lemma safe_validate c cid : safe (tfm_spm_validate_conn_handle cfg c cid).
Proof. unfold tfm_spm_validate_conn_handle. keeps_run. Qed.
Lemma safe_authorization sid srv ns : safe (tfm_spm_check_authorization sid srv ns).
Proof. unfold tfm_spm_check_authorization. keeps_run. Qed.
Lemma safe_check_version v ver : safe (tfm_spm_check_client_version v ver).
Proof. unfold tfm_spm_check_client_version. keeps_run. Qed.
Lemma safe_by_sid sid : safe (tfm_spm_get_service_by_sid cfg sid).
Proof. unfold tfm_spm_get_service_by_sid. keeps_run. Qed.
Lemma safe_caller ns : safe (caller_id ns).
Proof. unfold caller_id. keeps_run. Qed.
Lemma safe_user_handle c : safe (tfm_spm_to_user_handle cfg c).
Proof. unfold tfm_spm_to_user_handle. keeps_run. Qed.
Hint Resolve safe_send safe_fill safe_create safe_free safe_validate safe_authorization safe_check_version safe_by_sid
  safe_caller safe_user_handle List.Forall_nil : conn_frame.

Lemma safe_connect sid ver ns : safe (tfm_spm_client_psa_connect cfg rpc_ops sid ver ns).
Proof. unfold tfm_spm_client_psa_connect. keeps_run. Qed.
Lemma safe_close h ns : safe (tfm_spm_client_psa_close cfg rpc_ops h ns).
Proof. unfold tfm_spm_client_psa_close. keeps_run. Qed.
Lemma safe_target h cid ns : safe (call_target cfg h cid ns).
Proof. unfold call_target. keeps_run. Qed.
Hint Resolve safe_target : conn_frame.
Lemma safe_call h ty ip il op ol ns pr : safe (tfm_spm_client_psa_call cfg rpc_ops h ty ip il op ol ns pr).
Proof.
  unfold tfm_spm_client_psa_call. keeps_run. apply safe_fill, (loaded_vecs_ok cfg ns TFM_MEMORY_ACCESS_RW pr).
  by apply negb_false_iff.
Qed.
Lemma safe_version sid ns : safe (tfm_spm_client_psa_version cfg sid ns).
Proof. unfold tfm_spm_client_psa_version. keeps_run. Qed.
Lemma safe_read h i b n : safe (tfm_spm_psa_read cfg h i b n).
Proof. unfold tfm_spm_psa_read, consume. keeps_run. Qed.
Lemma safe_skip h i n : safe (tfm_spm_psa_skip cfg h i n).
Proof. unfold tfm_spm_psa_skip, consume. keeps_run. Qed.

Lemma safe_write h i b n : 0 <= i -> 0 <= n -> safe (tfm_spm_psa_write cfg h i b n).
Proof.
  intros Hi Hn. unfold tfm_spm_psa_write. apply (keeps_handle cfg _); [keeps_run|intros c _].
  intros s. apply (keeps_read _); [unfold owner_mode, msg_body, the_service, sbind, gets, deref; by repeat case_match; simplify_eq/=|].
  intros priv _. unfold msg_body. apply (keeps_read _); [done|]. intros body [= <-].
  destruct (_ <? _); [by apply (keeps_panic _)|]. rewrite Z.geb_leb.
  destruct (Z.leb_spec PSA_MAX_IOVEC i) as [|Hi']; [by apply (keeps_panic _)|]. rewrite Z.gtb_ltb.
  destruct (Z.ltb_spec (u32 (at4 (out_size (msg (internal_msg (conns s c)))) i -
    len (vec_at (outvec (internal_msg (conns s c))) i))) n) as [|Hfit]; [by apply (keeps_panic _)|].
  destruct (negb _); [by apply (keeps_panic _)|]. intros Hv x. cbn. destruct (Z.eq_dec x c) as [->|Hne].
  - rewrite upd_eq. by apply (produced_in_room (conns s c) i n).
  - rewrite upd_ne by done. apply Hv.
Qed.

Lemma safe_reply h v : safe (tfm_spm_psa_reply cfg rpc_ops h v).
Proof. unfold tfm_spm_psa_reply, reply_value, set_conn_status, wake_msg. keeps_run. Qed.
Lemma safe_wait mask timeout : safe (tfm_spm_psa_wait mask timeout).
Proof. unfold tfm_spm_psa_wait. keeps_run. Qed.
Lemma safe_get signal p : safe (tfm_spm_psa_get cfg signal p).
Proof. unfold tfm_spm_psa_get. keeps_run. Qed.
Lemma safe_success m : safe m -> safe (@success W m).
Proof. intros Hm. apply (keeps_sbind _); [done|intros; keeps_run]. Qed.

Lemma safe_handler svc ctx exc : regs_ok ctx -> safe (SVC_Handler_IPC cfg rpc_ops scfg svc ctx exc).
Proof.
  intros (H0 & H1 & H2 & H3). unfold SVC_Handler_IPC. apply (keeps_sbind _); [keeps_run|intros p].
  apply (keeps_sbind _); [keeps_run|intros _].
  destruct svc; try apply safe_success; try (by apply safe_version); try (by apply safe_connect); try (by apply safe_close);
    try (by apply safe_read); try (by apply safe_skip); try (by apply safe_wait); try (by apply safe_get); try (by apply safe_reply); try (apply safe_write; lia);
    unfold tfm_spm_psa_call, tfm_spm_client_psa_framework_version, tfm_spm_psa_set_rhandle,
      tfm_spm_set_rhandle, tfm_spm_psa_notify, tfm_spm_psa_clear, tfm_spm_psa_eoi, tfm_spm_hal_clear_pending_irq,
      tfm_spm_psa_panic, tfm_spm_request_handler, tfm_spm_get_lifecycle_state, tfm_spm_irq_enable, tfm_spm_irq_disable;
    keeps_run; by apply safe_call.
Qed.
Lemma safe_svc svc ctx exc : regs_ok ctx -> safe (svc_and_schedule cfg rpc_ops scfg svc ctx exc).
Proof.
  intros Hx. unfold svc_and_schedule, tfm_core_svc_handler. apply (keeps_sbind _); [|intros; keeps_run].
  apply (keeps_sbind _); [keeps_run|intros p]. apply (keeps_sbind _); [by apply safe_handler|intros; keeps_run].
Qed.
Lemma safe_step (s s' : st) : spm_step cfg rpc_ops scfg s s' -> vectors_ok s -> vectors_ok s'.
Proof.
  intros [s1 s2 r svc ctx exc _ Hx _ E|s1 s2 q _ E|s1 m].
  - pose proof (safe_svc svc ctx exc Hx s1) as H. by rewrite E in H.
  - assert (Hk : safe (irq_and_schedule cfg q)) by (unfold irq_and_schedule, tfm_set_irq_signal; keeps_run).
    pose proof (Hk s1) as H. by rewrite E in H.
  - done.
Qed.
Lemma zero_conn_in_room : in_room (internal_msg zero_conn).
Proof.
  split; [done|]. intros i Hi. assert (H : i = 0 \/ i = 1 \/ i = 2 \/ i = 3) by (unfold PSA_MAX_IOVEC in Hi; lia).
  by destruct H as [->|[->|[->| ->]]].
Qed.
Lemma reach_vectors (s0 s : st) : vectors_ok s0 -> reachable cfg rpc_ops scfg s0 s -> vectors_ok s.
Proof. intros H0 Hr. induction Hr as [|s s' Hr IH Hst]; [done|]. by apply (safe_step s s'). Qed.
End Vectors.

(** ** The messages of other partitions *)

(** The calls of a service; the others are those of a client. *)
Definition service_call (svc : tfm_svc_number_t) : bool :=
  match svc with TFM_SVC_PSA_CONNECT | TFM_SVC_PSA_CALL | TFM_SVC_PSA_CLOSE => false | _ => true end.
(** The first argument is the handle of a message. *)
Definition takes_message (svc : tfm_svc_number_t) : bool :=
  match svc with
  | TFM_SVC_PSA_SET_RHANDLE | TFM_SVC_PSA_READ | TFM_SVC_PSA_SKIP | TFM_SVC_PSA_WRITE | TFM_SVC_PSA_REPLY => true
  | _ => false
  end.

Section Isolation.
Context {W : Type} (cfg : spm_config) (rpc_ops : tfm_rpc_ops_t W) (scfg : svc_config) (Hcfg : spm_cfg_ok cfg).
Local Abbreviation st := (spm W).
Context (s : st) (v : view) (r : Z) (HO : spm_ok cfg s v) (Hr : running cfg s r).
(** A connection of a service of another partition. *)
Context (x j : Z) (db : tfm_spm_service_db_t) (Hx : x ∈ hlist v j) (Hj : service_at cfg j = Some db)
  (Hother : owner_of cfg db <> r).

Lemma foreign_not_owned h c : owned cfg s r h c -> c <> x.
Proof.
  intros (_ & Hc & Hm & j' & db' & E1 & E2 & E3) ->. apply Hother.
  destruct (co_magic _ _ _ (so_conns _ _ _ HO) x Hc Hm) as [_ E].
  destruct (co_hlist _ _ _ (so_conns _ _ _ HO) j x ltac:(by rewrite Hj) Hx) as (_ & _ & E').
  rewrite E, E' in E1. injection E1 as <-. rewrite Hj in E2. by injection E2 as <-.
Qed.

Lemma foreign_handle h : tfm_spm_to_handle_instance cfg h = Some x -> tfm_spm_get_msg_from_handle cfg h s = (Done None, s).
Proof.
  intros Eh. pose proof (get_msg_from_handle_spec cfg Hcfg s v r h (fun m s' => m = None /\ s' = s) (fun _ => False) HO Hr) as H.
  unfold swp in H. destruct (tfm_spm_get_msg_from_handle cfg h s) as [[m| |] s']; [|exfalso; apply H..].
  1: destruct H as [-> ->]; [|done].
  all: intros [c|] Hc; [exfalso|done]; assert (Ho : owned cfg s r h c) by (by apply Hc);
    apply (foreign_not_owned h c Ho); destruct Ho as [E _]; rewrite Eh in E; by injection E.
Qed.

(** The validation of the caller reads only. *)
Lemma validated {A} ctx exc ns (k : SPM st A) :
  sbind (tfm_spm_validate_caller scfg r ctx exc ns) (fun _ => k) s = k s \/
  sbind (tfm_spm_validate_caller scfg r ctx exc ns) (fun _ => k) s = (Panic, s).
Proof.
  unfold tfm_spm_validate_caller, the_partition, sbind, gets, sget, sret, tfm_core_panic. destruct ns.
  - destruct (negb _); [by right|]. destruct (negb _); [by right|by left].
  - destruct (_ <=? 0); [by right|by left].
Qed.

Lemma foreign_refused svc ctx exc : takes_message svc = true -> tfm_spm_to_handle_instance cfg (s32 (r0 ctx)) = Some x ->
  SVC_Handler_IPC cfg rpc_ops scfg svc ctx exc s = (Panic, s).
Proof.
  intros Ht Eh. apply foreign_handle in Eh. unfold SVC_Handler_IPC, tfm_spm_get_running_partition.
  rewrite (sbind_done _ _ _ r s) by (unfold sbind, sget, deref; by rewrite (proj1 Hr)).
  edestruct (validated (A := Z) ctx exc) as [E|E]; rewrite E; [clear E|done].
  destruct svc; try discriminate Ht; unfold success, tfm_spm_psa_set_rhandle, tfm_spm_psa_read, tfm_spm_psa_skip,
    tfm_spm_psa_write, tfm_spm_psa_reply, sbind; by rewrite Eh.
Qed.

(** psa_get gives a message of the caller's own queue. *)
Lemma foreign_get signal msg_ptr : 0 <= signal < 2 ^ 32 -> conns (snd (tfm_spm_psa_get cfg signal msg_ptr s)) x = conns s x.
Proof.
  intros Hsg. pose proof (get_spec cfg Hcfg s v r signal msg_ptr HO Hr Hsg) as H. unfold swp in H.
  destruct (tfm_spm_psa_get cfg signal msg_ptr s) as [[e| |] s']; [|by destruct H as [-> _]|done].
  destruct H as [_ [s1 _ _ _ _ Ec|c rest s1 Hf _ _ _ _ _ Hc]].
  - cbn [snd]. by rewrite Ec.
  - apply Hc. intros ->. destruct (first_msg_some _ _ _ _ Hf) as (a & b & E & _ & _ & _).
    assert (Hin : c ∈ queue v r) by (rewrite E; set_solver).
    destruct (co_queue _ _ _ (so_conns _ _ _ HO) r c (proj1 (proj2 Hr)) Hin) as (_ & j' & db' & E1 & E2 & E3).
    destruct (co_hlist _ _ _ (so_conns _ _ _ HO) j c ltac:(by rewrite Hj) Hx) as (_ & _ & E').
    rewrite E' in E1. injection E1 as <-. rewrite Hj in E2. injection E2 as <-. done.
Qed.

Lemma foreign_kept svc ctx exc : service_call svc = true -> regs_ok ctx ->
  conns (snd (SVC_Handler_IPC cfg rpc_ops scfg svc ctx exc s)) x = conns s x.
Proof.
  intros Hsvc Hregs. destruct (decide (takes_message svc = true /\ tfm_spm_to_handle_instance cfg (s32 (r0 ctx)) = Some x)) as [[H1 H2]|Hn].
  { by rewrite foreign_refused. }
  set (mine := fun c => takes_message svc = true /\ tfm_spm_to_handle_instance cfg (s32 (r0 ctx)) = Some c).
  assert (Hmine : forall (A : Type) (m : SPM st A), takes_message svc = true ->
    keeps (only (fun c => tfm_spm_to_handle_instance cfg (s32 (r0 ctx)) = Some c)) m -> keeps (only mine) m).
  { intros A m Ht Hm s0 c Hc. apply Hm. intros E. by apply Hc. }
  unfold SVC_Handler_IPC, tfm_spm_get_running_partition.
  rewrite (sbind_done _ _ _ r s) by (unfold sbind, sget, deref; by rewrite (proj1 Hr)).
  edestruct (validated (A := Z) ctx exc) as [E|E]; rewrite E; [clear E|done].
  destruct svc; try discriminate Hsvc;
    try (apply (Hmine _ _ eq_refl); [|exact Hn];
      first [apply mine_read|apply mine_skip|apply (keeps_sbind _); [|intros; keeps_run];
        first [apply mine_set_rhandle|apply mine_write|apply mine_reply]]);
    try (by apply foreign_get, Hregs);
    match goal with |- conns (snd (?m s)) x = _ => assert (Hk : keeps (only (fun _ => False)) m); [|exact (Hk s x (fun H => H))] end;
    unfold success, tfm_spm_client_psa_framework_version, tfm_spm_client_psa_version, tfm_spm_get_service_by_sid,
      tfm_spm_check_authorization, tfm_spm_psa_wait, tfm_spm_psa_notify, tfm_spm_psa_clear, tfm_spm_psa_eoi,
      tfm_spm_hal_clear_pending_irq, tfm_spm_psa_panic, tfm_spm_request_handler, tfm_spm_get_lifecycle_state,
      tfm_spm_irq_enable, tfm_spm_irq_disable; keeps_run.
Qed.

Lemma foreign_svc svc ctx exc : service_call svc = true -> regs_ok ctx ->
  conns (snd (svc_and_schedule cfg rpc_ops scfg svc ctx exc s)) x = conns s x /\
  (takes_message svc = true -> tfm_spm_to_handle_instance cfg (s32 (r0 ctx)) = Some x ->
   svc_and_schedule cfg rpc_ops scfg svc ctx exc s = (Panic, s)).
Proof.
  intros Hsvc Hregs. pose proof (foreign_kept svc ctx exc Hsvc Hregs) as Hk.
  unfold svc_and_schedule, tfm_core_svc_handler, tfm_spm_get_running_partition. split.
  - unfold sbind at 1 2 3, sget, deref. rewrite (proj1 Hr). unfold sbind at 1.
    destruct (SVC_Handler_IPC cfg rpc_ops scfg svc ctx exc s) as [[u| |] s1]; [|exact Hk..]. cbn [snd] in Hk.
    assert (Hrest : keeps (only (fun _ => False)) (do! @on_sched W _ (sput (on_thrd r (set_retval (u32 u)))) in PendSV_Handler cfg))
      by keeps_run.
    rewrite <- Hk. exact (Hrest s1 x (fun H => H)).
  - intros Ht Eh. pose proof (foreign_refused svc ctx exc Ht Eh) as E.
    unfold sbind at 1 2 3, sget, deref. rewrite (proj1 Hr). unfold sbind at 1. by rewrite E.
Qed.
End Isolation.
