(* ===== verification/SpmExample.v ===== *)
(** * Secure Partition Manager: a concrete system

    Three partitions: the non-secure world, a server with a connection-based
    and a stateless service and an interrupt, and a secure client.  The states
    follow a connection from its request to the reply of a call. *)

From Stdlib Require Import ZArith List Lia Bool.
From stdpp Require Import base tactics list sets.
From S2P Require Import Prelude SpmBase BiList SpmPool SpmSched SpmState SpmIpc SpmClient SpmService SpmInit SpmSvc.
From S2P Require Import SpmInv SpmInvMsg SpmInvGet SpmInvCall SpmInvServe SpmInvReply.
From S2P Require Import SpmBoot.
Import ListNotations.
Local Open Scope Z_scope.

(** ** The build *)
Definition ex_partition (id priority : Z) (flags : Z) (needs : list Z) : partition_static_t := {|
  psa_ff_ver := 0x0101; pid := id; part_flags := flags; part_priority := priority;
  part_entry := 0x1000; stack_bottom := 0x2000; part_stack_top := 0x2400; platform_data := []; deps := needs |}.

Definition ex_service (sid signal : Z) (connected : bool) (policy : Z) : tfm_spm_service_db_t := {|
  db_partition_id := 256; db_signal := signal; db_sid := sid; non_secure_client := true;
  connection_based := connected; db_version := 1; version_policy := policy |}.

Definition ex_cfg : spm_config := {|
  static_data_list := [ex_partition 0 255 4 []; ex_partition 256 100 6 []; ex_partition 257 127 4 [0x100; 0x101]];
  service_db_list := [ex_service 0x100 0x10 true TFM_VERSION_POLICY_RELAXED;
                      ex_service 0x101 0x20 false TFM_VERSION_POLICY_STRICT];
  stateless_sids := [0x101];
  tfm_core_irq_signals := [{| irq_partition_id := 256; signal_value := 0x40; irq_line := 17 |}];
  conn_handle_pool := 0x20000000;
  sizeof_conn_handle := 164;
  TFM_MULTI_CORE_TOPOLOGY := false;
  tfm_hal_memory_has_access := fun base size attr =>
    (Z.land attr 0x20 =? 0) || ((0x30000000 <=? base) && (base + size <=? 0x30010000));
  tfm_spm_hal_configure_default_isolation := fun _ _ => true;
  tfm_spm_hal_get_ns_entry_point := 0x10080000 |}.

Definition ex_rpc : tfm_rpc_ops_t unit := {| reply := fun _ _ w => w; get_caller_data := fun _ _ => 0 |}.
Definition ex_scfg : svc_config :=
  {| veneer_base := 0x10070000; veneer_limit := 0x10071000; stacked_size := 0x28; fp_size := fun _ => 0 |}.

(** The tables of the example have all that is asked of them. *)
Lemma ex_static p stat : static_at ex_cfg p = Some stat ->
  (p = 0 /\ stat = ex_partition 0 255 4 []) \/ (p = 1 /\ stat = ex_partition 256 100 6 []) \/
  (p = 2 /\ stat = ex_partition 257 127 4 [0x100; 0x101]).
Proof.
  unfold static_at. destruct (Z.ltb_spec p 0); [done|]. intros E. pose proof (lookup_lt_Some _ _ _ E) as Hl. cbn in Hl.
  assert (p = 0 \/ p = 1 \/ p = 2) as [->|[->| ->]] by lia; injection E as <-; auto.
Qed.

Lemma ex_service_at j db : service_at ex_cfg j = Some db ->
  (j = 0 /\ db = ex_service 0x100 0x10 true TFM_VERSION_POLICY_RELAXED) \/
  (j = 1 /\ db = ex_service 0x101 0x20 false TFM_VERSION_POLICY_STRICT).
Proof.
  unfold service_at. destruct (Z.ltb_spec j 0); [done|]. intros E. pose proof (lookup_lt_Some _ _ _ E) as Hl. cbn in Hl.
  assert (j = 0 \/ j = 1) as [->| ->] by lia; injection E as <-; auto.
Qed.

Lemma ex_bit b : 0 <= b < 32 -> one_bit (2 ^ b).
Proof. intros H. by exists b. Qed.

Lemma ex_cfg_ok : spm_cfg_ok ex_cfg.
Proof.
  split; try done.
  - split; try done; [|by intros a b [=]].
    intros k Hk. assert (k = 1 \/ k = 2 \/ k = 3 \/ k = 4 \/ k = 5 \/ k = 6 \/ k = 7 \/ k = 8) as H
      by (unfold sizeof_pool_chunk in Hk; lia).
    destruct H as [->|[->|[->|[->|[->|[->|[->| ->]]]]]]]; by vm_compute.
  - by apply (bool_decide_unpack _); vm_compute.
  - intros p stat [[-> ->]|[[-> ->]|[-> ->]]]%ex_static; by cbn.
  - intros j db [[-> ->]|[-> ->]]%ex_service_at; by eexists.
  - intros j db [[-> ->]|[-> ->]]%ex_service_at; [by apply (ex_bit 4)|by apply (ex_bit 5)].
  - intros j db [[-> ->]|[-> ->]]%ex_service_at; done.
  - intros i j db db' [[-> ->]|[-> ->]]%ex_service_at [[-> ->]|[-> ->]]%ex_service_at; done.
  - intros q j db stat [->|Hq%not_elem_of_nil]%elem_of_cons [[-> ->]|[-> ->]]%ex_service_at; done.
  - intros q [->|Hq%not_elem_of_nil]%elem_of_cons; [by apply (ex_bit 6)|done].
Qed.

Lemma ex_boot_cfg_ok : boot_cfg_ok ex_cfg.
Proof.
  split.
  - intros p stat [[-> ->]|[[-> ->]|[-> ->]]]%ex_static; cbn; repeat split; try done; by intros d Hd%not_elem_of_nil.
  - by exists 0, (ex_partition 0 255 4 []).
  - intros j db [[-> ->]|[-> ->]]%ex_service_at; [done|]. intros _. cbn. by apply elem_of_cons; left.
Qed.

(** ** The states *)
Local Abbreviation st := (spm unit).

Definition ex_boot : st := {|
  nodes := fun _ => null_node;
  pool_instance := {| chunksz := 0; chunk_count := 0 |};
  conns := fun _ => zero_conn;
  loop_index := 0;
  partitions := fun _ => {| p_static := ex_partition 0 0 0 []; event := {| evnt_magic := 0; owner := None |};
    signals_allowed := 0; signals_waiting := 0; signals_asserted := 0 |};
  services := fun _ => {| service_db := ex_service 0 0 false 0; partition := None |};
  stateless_service_ref := fun _ => None;
  scheduler := {| thrds := fun _ => {| pfn := 0; param := 0; stk_btm := 0; stk_top := 0; prior := 0; state := 0;
                                      retval := 0; thrd_next := None |};
    p_thrd_head := None; p_rnbl_head := None; p_curr_thrd := None; pendsv := false |};
  (* psa_call's control parameters: a call of type 0 with one vector each way *)
  memory := fun a => if a =? 0x30000004 then 1 else if a =? 0x30000008 then 1
    (* the input vector at 0x30000100, four bytes at 0x30000200 *)
    else if a =? 0x30000101 then 2 else if a =? 0x30000103 then 0x30 else if a =? 0x30000104 then 4
    (* the output vector at 0x30000180, eight bytes at 0x30000300 *)
    else if a =? 0x30000181 then 3 else if a =? 0x30000183 then 0x30 else if a =? 0x30000184 then 8
    else if a =? 0x30000202 then 7 else 0;
  irq_enabled := fun _ => false;
  irq_pending := fun _ => false;
  mailbox := tt |}.

Definition run {A} (m : SPM st A) (s : st) : st := snd (m s).
Definition scheduled (s : st) : st := run (PendSV_Handler ex_cfg) s.

Definition ex_conn : Z := 0x20000018.
Definition ex_handle : Z := 194.

Definition ex_started : st := run (tfm_spm_init ex_cfg) ex_boot.
(** The server runs, and waits for its services. *)
Definition ex_server : st := scheduled ex_started.
Definition ex_waits : st := run (tfm_spm_psa_wait 0x30 PSA_BLOCK) ex_server.
(** The client runs, and connects. *)
Definition ex_client : st := scheduled ex_waits.
Definition ex_connects : st := run (tfm_spm_client_psa_connect ex_cfg ex_rpc 0x100 1 false) ex_client.
(** The server takes the message and accepts. *)
Definition ex_signalled : st := scheduled ex_connects.
Definition ex_got : st := run (tfm_spm_psa_get ex_cfg 0x10 0x30001000) ex_signalled.
Definition ex_accepted : st := run (tfm_spm_psa_reply ex_cfg ex_rpc ex_handle PSA_SUCCESS) ex_got.
Definition ex_waits2 : st := run (tfm_spm_psa_wait 0x30 PSA_BLOCK) ex_accepted.
(** The client calls. *)
Definition ex_connected : st := scheduled ex_waits2.
Definition ex_calls : st := run (tfm_spm_client_psa_call ex_cfg ex_rpc ex_handle 0 0x30000100 1 0x30000180 1 false 0) ex_connected.
(** The server serves the call. *)
Definition ex_asked : st := scheduled ex_calls.
Definition ex_serving : st := run (tfm_spm_psa_get ex_cfg 0x10 0x30001000) ex_asked.


(** With the client waiting for a notification, the non-secure world runs. *)
Definition ex_idle : st := run (tfm_spm_psa_wait PSA_DOORBELL PSA_BLOCK) ex_client.
Definition ex_ns : st := scheduled ex_idle.

(** ** Their invariants *)
Lemma get_success (s : st) v r signal p s' : get_result ex_cfg s v r signal p PSA_SUCCESS s' ->
  exists c rest, first_msg (sig_is ex_cfg (conns s) signal) (queue v r) = Some (c, rest) /\
    spm_ok ex_cfg s' (set_queue r rest v).
Proof. inversion 1. eauto. Qed.

Lemma call_success (s : st) v r h t i ni o no ns m s' :
  call_result ex_cfg s v r h t i ni o no ns m PSA_SUCCESS s' ->
  (exists cid, client_of ex_cfg r = Some cid /\ target_error ex_cfg s v r h cid ns = Some PSA_SUCCESS) \/
  exists cid c j db h1 s1 v1, target ex_cfg s v r h cid ns c j db h1 s1 v1 /\
    spm_ok ex_cfg s' (view_send (owner_of ex_cfg db) c v1).
Proof.
  inversion 1 as [cid e s1 v' Hc He|cid c j db h1 s1 v1 s2 i1 o1 Hc Hn Ht Hv HO]; subst.
  - destruct He as [He|[He _]]; [left; eauto|done].
  - right. exists cid, c, j, db, h1, s1, v1. done.
Qed.

Lemma swp_at {S A} (m : SPM S A) (s : S) (Q : A -> S -> Prop) P a : fst (m s) = Done a -> swp m s Q P -> Q a (snd (m s)).
Proof. unfold swp. destruct (m s) as [[x| |] s']; try done. by intros [= ->]. Qed.

Lemma run_done {A} (m : SPM st A) (s : st) a : fst (m s) = Done a -> m s = (Done a, run m s).
Proof. unfold run. destruct (m s). by intros <-. Qed.

Definition ex_view0 (l : list Z) : view := boot_view ex_cfg l.
Definition ex_free : list Z := tl (conn_chunks ex_cfg).
Definition ex_view1 (l : list Z) : view := view_send 1 ex_conn (view_open 0 ex_conn ex_free (ex_view0 l)).
Definition ex_view2 (l : list Z) : view := set_queue 1 [] (ex_view1 l).
Definition ex_view3 (l : list Z) : view := view_drop ex_conn (ex_view2 l).
Definition ex_view4 (l : list Z) : view := view_send 1 ex_conn (ex_view3 l).
Definition ex_view5 (l : list Z) : view := set_queue 1 [] (ex_view4 l).

Definition ok_with (V : list Z -> view) (s : st) : Prop := exists l, spm_ok ex_cfg s (V l).

Lemma ex_running (s : st) r : match p_curr_thrd (scheduler s) with Some x => x =? r | None => false end &&
  is_some (static_at ex_cfg r) && runnable (scheduler s) r = true -> running ex_cfg s r.
Proof.
  intros H. apply andb_true_iff in H as [[H1 H2]%andb_true_iff H3]. split; [|split; [|done]].
  - destruct (p_curr_thrd (scheduler s)) as [x|]; [|done]. by apply Z.eqb_eq in H1 as ->.
  - destruct (static_at ex_cfg r); [by eexists|done].
Qed.

Lemma ok_scheduled V (s : st) r : ok_with V s -> p_curr_thrd (scheduler s) = Some r ->
  fst (PendSV_Handler ex_cfg s) = Done tt -> ok_with V (scheduled s).
Proof.
  intros [l HO] Hc Hd. exists l. apply (swp_at _ _ (fun _ s' => spm_ok ex_cfg s' (V l)) (fun _ => True) tt Hd).
  by apply (pendsv_spec ex_cfg s (V l) r).
Qed.

Lemma ok_waits V (s : st) r mask : ok_with V s -> running ex_cfg s r ->
  fst (tfm_spm_psa_wait mask PSA_BLOCK s) = Done 0 -> ok_with V (run (tfm_spm_psa_wait mask PSA_BLOCK) s).
Proof.
  intros [l HO] Hr Hd. exists l. unfold run.
  destruct (swp_at _ _ _ _ 0 Hd (wait_spec ex_cfg ex_cfg_ok s (V l) r mask PSA_BLOCK HO Hr)) as [|s' _ _ HO' _ _ _ _ _ _];
    done.
Qed.

Lemma ex_started_ok : ok_with ex_view0 ex_started.
Proof.
  assert (Hd : fst (tfm_spm_init ex_cfg ex_boot) = Done tt) by (vm_compute; reflexivity).
  assert (HS : boot_state ex_boot) by (by split).
  destruct (swp_at _ _ _ _ tt Hd (init_spec ex_cfg ex_cfg_ok ex_boot_cfg_ok ex_boot HS)) as (l & r & HO & _).
  by exists l.
Qed.

Lemma ex_server_ok : ok_with ex_view0 ex_server /\ running ex_cfg ex_server 1.
Proof.
  split; [|by apply ex_running; vm_compute]. apply (ok_scheduled _ _ 0); [apply ex_started_ok|by vm_compute..].
Qed.

Lemma ex_client_ok : ok_with ex_view0 ex_client /\ running ex_cfg ex_client 2.
Proof.
  split; [|by apply ex_running; vm_compute]. apply (ok_scheduled _ _ 1); [|by vm_compute..].
  apply (ok_waits _ _ 1); [apply ex_server_ok..|by vm_compute].
Qed.

Lemma ex_ns_ok : ok_with ex_view0 ex_ns /\ running ex_cfg ex_ns 0.
Proof.
  split; [|by apply ex_running; vm_compute]. apply (ok_scheduled _ _ 2); [|by vm_compute..].
  apply (ok_waits _ _ 2); [apply ex_client_ok..|by vm_compute].
Qed.

(** Who calls. *)
Lemma ex_caller_ns : caller_ok ex_cfg 0 true.
Proof. by exists (ex_partition 0 255 4 []). Qed.
Lemma ex_caller_client : caller_ok ex_cfg 2 false.
Proof. by exists (ex_partition 257 127 4 [0x100; 0x101]). Qed.

Lemma ex_connects_ok : ok_with ex_view1 ex_connects.
Proof.
  destruct ex_client_ok as [[l HO] Hr]. exists l. unfold ex_connects, run.
  assert (Hd : fst (tfm_spm_client_psa_connect ex_cfg ex_rpc 0x100 1 false ex_client) = Done PSA_SUCCESS)
    by (vm_compute; reflexivity).
  destruct (swp_at _ _ _ _ PSA_SUCCESS Hd (connect_spec ex_cfg ex_rpc ex_cfg_ok ex_client (ex_view0 l) 2 0x100 1 false
    HO Hr ex_caller_client)) as [e [=]|j db E1 E2 E3 E4|j db c fr h cid s' E1 E2 _ E4 _ _ HO' _ _ _ _]; [done|].
  vm_compute in E1. injection E1 as <-. injection E2 as <-.
  change (free (ex_view0 l)) with (ex_conn :: ex_free) in E4. injection E4 as <- <-. exact HO'.
Qed.

Lemma ex_signalled_ok : ok_with ex_view1 ex_signalled /\ running ex_cfg ex_signalled 1.
Proof.
  split; [|by apply ex_running; vm_compute]. apply (ok_scheduled _ _ 2); [apply ex_connects_ok|by vm_compute..].
Qed.

Lemma ex_got_ok : ok_with ex_view2 ex_got /\ running ex_cfg ex_got 1.
Proof.
  split; [|by apply ex_running; vm_compute]. destruct ex_signalled_ok as [[l HO] Hr]. exists l. unfold ex_got, run.
  assert (Hd : fst (tfm_spm_psa_get ex_cfg 0x10 0x30001000 ex_signalled) = Done PSA_SUCCESS) by (vm_compute; reflexivity).
  destruct (swp_at _ _ _ _ PSA_SUCCESS Hd (get_spec ex_cfg ex_cfg_ok ex_signalled (ex_view1 l) 1 0x10 0x30001000 HO Hr
    ltac:(lia))) as [_ (c & rest & Hf & HO')%get_success].
  assert (E : first_msg (sig_is ex_cfg (conns ex_signalled) 16) (queue (ex_view1 l) 1) = Some (ex_conn, []))
    by (vm_compute; reflexivity).
  rewrite Hf in E. injection E as -> ->. exact HO'.
Qed.

(** ** Handles and messages *)
Lemma ex_owned (s : st) : tfm_spm_to_handle_instance ex_cfg ex_handle = Some ex_conn ->
  (magic (internal_msg (conns s ex_conn)) =? TFM_MSG_MAGIC) &&
  match msg_service (internal_msg (conns s ex_conn)) with Some j => j =? 0 | None => false end = true ->
  owned ex_cfg s 1 ex_handle ex_conn.
Proof.
  intros E [H1 H2]%andb_true_iff. split; [done|]. split; [by apply (bool_decide_unpack _); vm_compute|].
  split; [by apply Z.eqb_eq|]. destruct (msg_service _) as [j|]; [|done]. apply Z.eqb_eq in H2 as ->.
  by exists 0, (ex_service 0x100 0x10 true TFM_VERSION_POLICY_RELAXED).
Qed.

Lemma ex_only (s : st) c : owned ex_cfg s 1 ex_handle c -> c = ex_conn.
Proof. intros (H & _). vm_compute in H. by injection H as <-. Qed.

(** Taken from the queue of the only partition with messages. *)
Lemma ex_active v l rest : v = set_queue 1 [] (view_send 1 ex_conn rest) ->
  (forall p, queue rest p = queue (ex_view0 l) p) -> active ex_cfg v ex_conn.
Proof.
  intros -> Hq. split; [by apply elem_of_cons; left|]. intros p _. cbn. unfold upd.
  destruct (Z.eqb_spec p 1); [by apply not_elem_of_nil|]. rewrite Hq. by apply not_elem_of_nil.
Qed.

Lemma ex_connected_ok : ok_with ex_view3 ex_connected /\ running ex_cfg ex_connected 2.
Proof.
  split; [|by apply ex_running; vm_compute]. apply (ok_scheduled _ _ 1); [|by vm_compute..].
  apply (ok_waits _ _ 1); [|by apply ex_running; vm_compute|by vm_compute].
  destruct ex_got_ok as [[l HO] Hr]. exists l. unfold ex_accepted, run.
  assert (Hd : fst (tfm_spm_psa_reply ex_cfg ex_rpc ex_handle PSA_SUCCESS ex_got) = Done tt) by (vm_compute; reflexivity).
  assert (Ha : forall c, owned ex_cfg ex_got 1 ex_handle c -> active ex_cfg (ex_view2 l) c).
  { intros c ->%ex_only. apply (ex_active _ l (view_open 0 ex_conn ex_free (ex_view0 l))); done. }
  destruct (swp_at _ _ _ _ tt Hd (reply_spec ex_cfg ex_rpc ex_cfg_ok ex_got (ex_view2 l) 1 ex_handle PSA_SUCCESS HO Hr Ha))
    as [c j db k ret s' Ho Hj _ _ _ HO' _ _ _ _ _ _ _]. pose proof (ex_only _ _ Ho) as ->. exact HO'.
Qed.

Lemma ex_live (s : st) v cid : ex_conn ∈ hlist v 0 -> handle_live ex_cfg s v ex_handle cid.
Proof. intros H c Hc _ _. vm_compute in Hc. injection Hc as <-. exists 0. split; [by eexists|done]. Qed.

Lemma ex_asked_ok : ok_with ex_view4 ex_asked /\ running ex_cfg ex_asked 1.
Proof.
  split; [|by apply ex_running; vm_compute]. apply (ok_scheduled _ _ 2); [|by vm_compute..].
  destruct ex_connected_ok as [[l HO] Hr]. exists l. unfold ex_calls, run.
  assert (Hd : fst (tfm_spm_client_psa_call ex_cfg ex_rpc ex_handle 0 0x30000100 1 0x30000180 1 false 0 ex_connected) =
    Done PSA_SUCCESS) by (vm_compute; reflexivity).
  assert (Hlive : forall cid, client_of ex_cfg 2 = Some cid -> handle_live ex_cfg ex_connected (ex_view3 l) ex_handle cid).
  { intros cid _. apply ex_live. by apply elem_of_cons; left. }
  pose proof (swp_at _ _ _ _ PSA_SUCCESS Hd (call_spec ex_cfg ex_rpc ex_cfg_ok ex_connected (ex_view3 l) 2 ex_handle 0
    0x30000100 1 0x30000180 1 false 0 HO Hr ex_caller_client ltac:(lia) ltac:(lia) Hlive))
    as [(cid & Hc & He)|(cid & c & j & db & h & s1 & v1 & Ht & HO')]%call_success.
  - vm_compute in Hc. injection Hc as <-. vm_compute in He. done.
  - destruct Ht as [_ Hj Hcj _ _ _ Hh _ Ha]. cbn in Ha. destruct Ha as (-> & -> & -> & _ & _).
    vm_compute in Hh. injection Hh as <-. by destruct (ex_service_at _ _ Hj) as [[_ ->]|[_ ->]].
Qed.

Lemma ex_serving_ok : ok_with ex_view5 ex_serving /\ running ex_cfg ex_serving 1.
Proof.
  split; [|by apply ex_running; vm_compute]. destruct ex_asked_ok as [[l HO] Hr]. exists l. unfold ex_serving, run.
  assert (Hd : fst (tfm_spm_psa_get ex_cfg 0x10 0x30001000 ex_asked) = Done PSA_SUCCESS) by (vm_compute; reflexivity).
  destruct (swp_at _ _ _ _ PSA_SUCCESS Hd (get_spec ex_cfg ex_cfg_ok ex_asked (ex_view4 l) 1 0x10 0x30001000 HO Hr
    ltac:(lia))) as [_ (c & rest & Hf & HO')%get_success].
  assert (E : first_msg (sig_is ex_cfg (conns ex_asked) 16) (queue (ex_view4 l) 1) = Some (ex_conn, []))
    by (vm_compute; reflexivity).
  rewrite Hf in E. injection E as -> ->. exact HO'.
Qed.

(** A request in the connection, about to be sent. *)
Definition ex_filled : st :=
  run (tfm_spm_fill_msg ex_cfg ex_rpc ex_conn (Some 0) ex_handle 0 257 [] [] 0) ex_connected.

Lemma ex_not_pending l : ex_conn ∉ pending (ex_view3 l).
Proof. change (ex_conn ∉ drop ex_conn (pending (ex_view2 l))). rewrite in_drop. by intros [_ []]. Qed.

Lemma ex_filled_ok : ok_with ex_view3 ex_filled /\ running ex_cfg ex_filled 2.
Proof.
  split; [|by apply ex_running; vm_compute]. destruct ex_connected_ok as [[l HO] Hr]. exists l. unfold ex_filled, run.
  assert (Hd : fst (tfm_spm_fill_msg ex_cfg ex_rpc ex_conn (Some 0) ex_handle 0 257 [] [] 0 ex_connected) = Done tt)
    by (vm_compute; reflexivity).
  apply (swp_at _ _ (fun _ s' => spm_ok ex_cfg s' (ex_view3 l)) (fun _ => True) tt Hd).
  apply (fill_spec ex_cfg ex_rpc ex_cfg_ok ex_connected (ex_view3 l) 0 ex_conn); [done|by eexists| | |cbn; lia|done].
  - by apply elem_of_cons; left.
  - apply ex_not_pending.
Qed.

(** ** System calls *)
Definition ex_ctx (a0 a1 a2 a3 : Z) (ns : bool) : tfm_state_context_t := {|
  r0 := a0; r1 := a1; r2 := a2; r3 := a3;
  lr := if ns then 0x10080000 else 1; ra := if ns then 0x10070100 else 0; ctx_addr := 0x2400 - 0x28 |}.
Definition ex_svc (svc : tfm_svc_number_t) (ctx : tfm_state_context_t) : SPM st unit :=
  svc_and_schedule ex_cfg ex_rpc ex_scfg svc ctx 0.

(** The vectors of the messages are inside throughout. *)
Lemma safe_run {A} (m : SPM st A) (s : st) : keeps keeps_vectors m -> vectors_ok s -> vectors_ok (run m s).
Proof. intros Hm. apply Hm. Qed.
Lemma ex_serving_vectors : vectors_ok ex_serving.
Proof.
  assert (Hs : forall s, vectors_ok s -> vectors_ok (scheduled s)) by (intros s; apply safe_run, keeps_pendsv, _).
  assert (Hw : forall m t s, vectors_ok s -> vectors_ok (run (tfm_spm_psa_wait m t) s)) by (intros m t s; apply safe_run, safe_wait).
  assert (Hg : forall m t s, vectors_ok s -> vectors_ok (run (tfm_spm_psa_get ex_cfg m t) s)) by (intros m t s; apply safe_run, safe_get).
  apply Hg, Hs, safe_run; [apply safe_call|]. apply Hs, Hw, safe_run; [apply safe_reply|].
  apply Hg, Hs, safe_run; [apply safe_connect|]. apply Hs, Hw, Hs.
  assert (Hd : fst (tfm_spm_init ex_cfg ex_boot) = Done tt) by (vm_compute; reflexivity).
  destruct (swp_at _ _ _ _ tt Hd (init_spec ex_cfg ex_cfg_ok ex_boot_cfg_ok ex_boot ltac:(by split)))
    as (l & r & _ & _ & _ & _ & Hz). intros c. unfold ex_started, run. rewrite Hz. apply zero_conn_in_room.
Qed.

(** Names of states are unfolded before the operations that lead to them. *)
#[global] Strategy expand [run scheduled ex_svc ex_started ex_server ex_waits ex_client ex_connects ex_signalled ex_got
  ex_accepted ex_waits2 ex_connected ex_calls ex_asked ex_serving ex_idle ex_ns
  ex_filled].
