(* ===== verification/SpmTheorems.v ===== *)
(** * Secure Partition Manager: the properties

    What the SPM guarantees to the partitions and to the non-secure world,
    each property with an instance on the states of SpmExample.v. *)

From Stdlib Require Import ZArith List Lia Bool.
From stdpp Require Import base tactics list sets.
From S2P Require Import Prelude SpmBase BiList SpmPool SpmSched SpmState SpmIpc SpmClient SpmService SpmInit SpmSvc.
From S2P Require Import SpmInv SpmInvMsg SpmInvGet SpmInvCall SpmInvServe SpmInvReply.
From S2P Require Import SpmBoot SpmExample.
Import ListNotations.
Local Open Scope Z_scope.

(** ** The whole SPM *)
Section System.
Context {W : Type} (cfg : spm_config) (rpc_ops : tfm_rpc_ops_t W) (scfg : svc_config) (Hcfg : spm_cfg_ok cfg).
Local Abbreviation st := (spm W).


(** C11: a system call of the running thread, with any number and any
    arguments within the discipline (see C10), followed by the exception that
    switches threads, ends in a panic or in a state that satisfies the
    invariant; it never follows a null or dangling pointer, and its loops end. *)
Theorem svc_keeps_invariant (s : st) v r svc ctx exc : spm_ok cfg s v -> running cfg s r -> regs_ok ctx ->
  disciplined cfg s v r svc ctx ->
  swp (svc_and_schedule cfg rpc_ops scfg svc ctx exc) s (fun _ s' => exists v', spm_ok cfg s' v') (fun _ => True).
Proof using Hcfg. intros HO Hr Hx Hd. by apply (svc_spec cfg rpc_ops scfg Hcfg s v r svc ctx exc). Qed.

(** C16: no partition can touch a message of another.  Whatever service call
    the running partition makes, with any handle and any arguments and without
    any discipline, the connections of the services of other partitions, and
    the messages in them, do not change, even when the call panics; and a call
    on the handle of such a message stops the caller with nothing changed. *)
Theorem messages_isolated (s : st) v r svc ctx exc x j db : spm_ok cfg s v -> running cfg s r -> regs_ok ctx ->
  service_call svc = true ->
  x ∈ hlist v j -> service_at cfg j = Some db -> owner_of cfg db <> r ->
  conns (snd (svc_and_schedule cfg rpc_ops scfg svc ctx exc s)) x = conns s x /\
  (takes_message svc = true -> tfm_spm_to_handle_instance cfg (s32 (r0 ctx)) = Some x ->
   svc_and_schedule cfg rpc_ops scfg svc ctx exc s = (Panic, s)).
Proof using Hcfg.
  intros HO Hr Hregs Hsvc Hx Hj Hother. by apply (foreign_svc cfg rpc_ops scfg Hcfg s v r HO Hr x j db).
Qed.

(** C20: the scheduler switches to the runnable thread of the highest priority
    (the lowest number), and keeps the current thread only when none is
    runnable; nothing else changes. *)
Theorem scheduler_picks_highest (s : st) v r : spm_ok cfg s v -> p_curr_thrd (scheduler s) = Some r ->
  pendsv (scheduler s) = true ->
  swp (PendSV_Handler cfg) s
    (fun _ s' => spm_ok cfg s' v /\ thrds (scheduler s') = thrds (scheduler s) /\ conns s' = conns s /\
       partitions s' = partitions s /\ memory s' = memory s /\ pendsv (scheduler s') = false /\
       exists t, p_curr_thrd (scheduler s') = Some t /\
         ((runnable (scheduler s) t = true /\ forall k, is_Some (static_at cfg k) -> runnable (scheduler s) k = true ->
             prior (thrds (scheduler s) t) <= prior (thrds (scheduler s) k)) \/
          (t = r /\ forall k, is_Some (static_at cfg k) -> runnable (scheduler s) k = false)))
    (fun _ => False).
Proof using Type.
  intros HO Hc Hp. apply (pendsv_spec cfg s v r); [done|done|]. intros s' HO' H1 H2 H3 H4 H5 H6. rewrite Hp in H6.
  pose proof (so_threads _ _ _ HO) as [T1 T2 _]. do 6 (split; [done|]). eexists. split; [exact H6|].
  destruct (first_runnable (scheduler s) (order v)) as [t|] eqn:Ef.
  - left. destruct (first_runnable_best _ _ _ _ T1 Ef) as (_ & Hr & Hb). split; [done|].
    intros k Hk. apply Hb. by apply T2.
  - right. split; [done|]. intros k Hk. apply (proj1 (first_runnable_none _ _) Ef). by apply T2.
Qed.

(** ** The clients *)

(** C14: psa_connect succeeds exactly when the service exists, the caller may
    use it, the version fits, it is connection-based and a connection is free;
    then a connect message for a new connection of the caller waits at the end
    of the queue of the service's partition and the caller is blocked for the
    handle, which stands for the connection.  Otherwise nothing changes and a
    non-secure caller gets the documented status. *)
Theorem connect_correct (s : st) v r sid version ns : spm_ok cfg s v -> running cfg s r -> caller_ok cfg r ns ->
  swp (tfm_spm_client_psa_connect cfg rpc_ops sid version ns) s
    (connect_result cfg s v r sid version ns)
    (fun _ => ns = false /\ forall j db, by_sid cfg sid = Some j -> service_at cfg j = Some db ->
       connectable cfg r sid version ns db = false).
Proof using Hcfg. intros HO Hr Hns. by apply (connect_spec cfg rpc_ops Hcfg). Qed.

(** C12: psa_call, on any handle but that of a connection that was closed, sends
    a message exactly when the handle gives the caller an idle connection (or a
    new one, for a static handle) and every vector lies in memory the caller
    may access, the input vectors apart from each other; the message carries
    copies of the vectors.  Otherwise the message queues and the threads are
    unchanged and a non-secure caller gets the documented status.  The SPM
    stops only for a secure caller whose call is refused, or for the static
    handle of an index that has no service. *)
Theorem call_correct (s : st) v r handle type_ inptr in_num outptr out_num ns privileged :
  spm_ok cfg s v -> running cfg s r -> caller_ok cfg r ns -> 0 <= in_num -> 0 <= out_num ->
  (forall cid, client_of cfg r = Some cid -> handle_live cfg s v handle cid) ->
  swp (tfm_spm_client_psa_call cfg rpc_ops handle type_ inptr in_num outptr out_num ns privileged) s
    (call_result cfg s v r handle type_ inptr in_num outptr out_num ns privileged)
    (fun _ => empty_slot s handle \/ (ns = false /\ exists cid e, client_of cfg r = Some cid /\
       call_refusal cfg s v r handle cid inptr in_num outptr out_num ns privileged e)).
Proof using Hcfg. intros. by apply (call_spec cfg rpc_ops Hcfg). Qed.

(** psa_close sends a disconnect message exactly when the handle is that
    of an idle connection of the caller; a null handle is ignored. *)
Theorem close_correct (s : st) v r handle ns : spm_ok cfg s v -> running cfg s r -> caller_ok cfg r ns ->
  (forall cid, client_of cfg r = Some cid -> handle_live cfg s v handle cid) ->
  swp (tfm_spm_client_psa_close cfg rpc_ops handle ns) s (close_result cfg s v r handle ns)
    (fun _ => ns = false /\ forall cid c, client_of cfg r = Some cid -> ~ closable cfg s handle cid c).
Proof using Hcfg. intros. by apply (close_spec cfg rpc_ops Hcfg). Qed.

(** C13: no call of the non-secure world stops the SPM, whatever its
    arguments: psa_version, psa_connect, psa_call and psa_close return, but
    for a call or a close on the handle of a connection that was closed, and a
    call on a static handle of an index no service has. *)
Theorem ns_calls_return (s : st) v r sid version handle type_ inptr in_num outptr out_num privileged :
  spm_ok cfg s v -> running cfg s r -> caller_ok cfg r true -> 0 <= in_num -> 0 <= out_num ->
  (forall cid, client_of cfg r = Some cid -> handle_live cfg s v handle cid) ->
  let returns {A} (m : SPM st A) := swp m s (fun _ _ => True) (fun _ => False) in
  returns (tfm_spm_client_psa_version cfg sid true) /\
  returns (tfm_spm_client_psa_connect cfg rpc_ops sid version true) /\
  returns (tfm_spm_client_psa_close cfg rpc_ops handle true) /\
  (~ empty_slot s handle ->
   returns (tfm_spm_client_psa_call cfg rpc_ops handle type_ inptr in_num outptr out_num true privileged)).
Proof using Hcfg.
  intros HO Hr Hns Hi Ho Hl returns. unfold returns. split; [by apply (version_spec cfg s v r)|].
  split; [eapply swp_mono; [by apply (connect_spec cfg rpc_ops Hcfg s v r)|done|by intros s' [[=] _]]|].
  split; [eapply swp_mono; [by apply (close_spec cfg rpc_ops Hcfg s v r)|done|by intros s' [[=] _]]|].
  intros He. eapply swp_mono; [by apply (call_spec cfg rpc_ops Hcfg s v r)|done|]. by intros s' [|[[=] _]].
Qed.

(** the handle of a connection is positive, never looks like a static
    one, and leads back to the connection, for each of the eight values of the
    loop counter that makes successive handles of a chunk differ; the check
    of a handle accepts exactly the connections in the pool. *)
Theorem handle_roundtrip (s : st) v c : spm_ok cfg s v -> c ∈ conn_chunks cfg ->
  swp (tfm_spm_to_user_handle cfg c) s
    (fun h s' => CLIENT_HANDLE_VALUE_MIN <= h <= 0x3FFFFFFF /\ IS_VALID_STATIC_HANDLE h = false /\
       tfm_spm_to_handle_instance cfg h = Some c /\ spm_ok cfg s' v /\
       forall d, 0 <= d < 2 ^ 32 -> valid_chunk cfg d s' = true <-> d ∈ conn_chunks cfg)
    (fun _ => False).
Proof using Hcfg.
  intros HO Hc. apply (user_handle_spec cfg Hcfg s v c); [done|done|]. intros h i s' (H1 & H2 & H3) HO'.
  do 4 (split; [done|]). intros d Hd. by apply (valid_chunk_spec cfg Hcfg s' v).
Qed.
End System.

(** ** The services *)
Section Services.
Context {W : Type} (cfg : spm_config) (rpc_ops : tfm_rpc_ops_t W) (Hcfg : spm_cfg_ok cfg).
Local Abbreviation st := (spm W).

(** C17: tfm_spm_get_msg_by_signal, which unlinks a message while it walks the
    circular list and goes on to look for a second one, computes the same as a
    search of the queue: the oldest message of the signal's service leaves the
    queue and the others keep their order; the signal is cleared exactly when
    no other message of the service is left. *)
Theorem get_msg_by_signal_correct (s : st) v p signal : spm_ok cfg s v -> is_Some (static_at cfg p) -> one_bit signal ->
  let mine := sig_is cfg (conns s) signal in
  swp (tfm_spm_get_msg_by_signal p signal) s
    (fun m s' =>
       match m with
       | None => existsb mine (queue v p) = false /\ spm_ok cfg s' v
       | Some c => exists a b, queue v p = a ++ c :: b /\ mine c = true /\ existsb mine a = false /\
           spm_ok cfg s' (set_queue p (a ++ b) v) /\
           signals_asserted (partitions s' p) = (if existsb mine b then signals_asserted (partitions s p)
             else clear_bits (signals_asserted (partitions s p)) signal)
       end /\ conns s' = conns s /\ scheduler s' = scheduler s /\ memory s' = memory s)
    (fun _ => False).
Proof using Hcfg.
  intros HO Hp Hs mine. apply (get_msg_spec cfg Hcfg s v p signal); [done|done|done|]. fold mine. intros s'.
  destruct (first_msg mine (queue v p)) as [[c rest]|] eqn:Ef.
  - intros [K1 K2 K3 K4] HO'. split; [|done]. destruct (first_msg_some _ _ _ _ Ef) as (a & b & E & -> & Hc & Ha).
    exists a, b. do 4 (split; [done|]). rewrite K4, Z.eqb_refl, existsb_app, Ha. cbn [andb orb negb].
    by destruct (existsb mine b).
  - intros [K1 K2 K3 K4] HO'. split; [|done]. split; [by apply first_msg_none|done].
Qed.

(** psa_get gives the running partition the oldest message of the service
    with the signal, and makes its connection active; it stops the partition
    exactly when the signal is not one asserted bit or the buffer is not its
    memory. *)
Theorem get_correct (s : st) v r signal msg_ptr : spm_ok cfg s v -> running cfg s r -> 0 <= signal < 2 ^ 32 ->
  swp (tfm_spm_psa_get cfg signal msg_ptr) s
    (fun e s' => gettable cfg s r signal msg_ptr /\ get_result cfg s v r signal msg_ptr e s')
    (fun s' => s' = s /\ ~ gettable cfg s r signal msg_ptr).
Proof using Hcfg. intros. by apply (get_spec cfg Hcfg). Qed.

(** psa_wait returns the asserted signals of the mask; it blocks, waiting
    for the mask, exactly when none is asserted and the caller asked to block,
    and panics exactly when the mask has no signal the partition may use. *)
Theorem wait_correct (s : st) v r mask timeout : spm_ok cfg s v -> running cfg s r ->
  let now := Z.land (signals_asserted (partitions s r)) mask in
  swp (tfm_spm_psa_wait mask timeout) s
    (fun n s' => n = now /\
       if (Z.land timeout PSA_TIMEOUT_MASK =? PSA_BLOCK) && (now =? 0)
       then spm_ok cfg s' v /\ blocked (scheduler s') r /\ owner (event (partitions s' r)) = Some r /\
         signals_waiting (partitions s' r) = mask /\ memory s' = memory s
       else s' = s)
    (fun s' => s' = s /\ Z.land (signals_allowed (partitions s r)) mask = 0).
Proof using Hcfg.
  intros HO Hr now. eapply swp_mono; [by apply (wait_spec cfg Hcfg s v r)| |done].
  intros n s' [H|s1 H0 H1 H2 H3 H4 H5 H6 H7 H8].
  - split; [done|]. destruct (Z.eqb_spec (Z.land timeout PSA_TIMEOUT_MASK) PSA_BLOCK); [|done].
    fold now in H. destruct (Z.eqb_spec now 0); [by destruct H|done].
  - fold now in H1. by rewrite H0, H1, !Z.eqb_refl.
Qed.

(** C18: psa_read copies the next bytes of the input vector, at most as many as
    asked for and as are left, into memory of the service, and advances the
    vector; psa_skip advances it without a copy.  They stop the service exactly
    when the handle names no request of it with this vector, or the buffer is
    not its memory. *)
Theorem read_and_skip_correct (s : st) v r h i buffer n : spm_ok cfg s v -> running cfg s r ->
  swp (tfm_spm_psa_read cfg h i buffer n) s (read_result cfg s v r h i buffer n)
    (fun s' => s' = s /\ (no_request cfg s r h i \/
       tfm_memory_check cfg buffer n false TFM_MEMORY_ACCESS_RW (mode_of cfg r) <> SPM_SUCCESS)) /\
  swp (tfm_spm_psa_skip cfg h i n) s (skip_result cfg s v r h i n)
    (fun s' => s' = s /\ no_request cfg s r h i).
Proof using Hcfg. intros HO Hr. split; [by apply (read_spec cfg Hcfg)|by apply (skip_spec cfg Hcfg)]. Qed.

(** C19: psa_write appends the bytes to the output vector of the client, right
    after those written before, and records their number; it succeeds exactly
    when the handle names a request of the caller with this vector, the bytes
    are in the caller's memory and fit what is left of the room the client
    gave.  No byte outside the vector changes, and what it holds never exceeds
    its room.  [vectors_ok] holds in all reachable states (C10). *)
Theorem write_correct (s : st) v r h i buffer n : spm_ok cfg s v -> vectors_ok s -> running cfg s r -> 0 <= i -> 0 <= n ->
  swp (tfm_spm_psa_write cfg h i buffer n) s
    (fun _ s' => exists c, request cfg s r h i c /\
       let w := out_vec s c i in
       let room := out_room s c i in
       n <= room - len w /\
       tfm_memory_check cfg buffer n false TFM_MEMORY_ACCESS_RO (mode_of cfg r) = SPM_SUCCESS /\
       memory s' = mwrite (memory s) (base w + len w) (mread (memory s) buffer n) n /\
       (forall a, ~ base w <= a < base w + room -> memory s' a = memory s a) /\
       out_vec s' c i = {| base := base w; len := len w + n |} /\ out_room s' c i = room /\
       (forall k, 0 <= k -> k <> i -> out_vec s' c k = out_vec s c k) /\
       (forall x, x <> c -> conns s' x = conns s x) /\
       scheduler s' = scheduler s /\ partitions s' = partitions s /\ spm_ok cfg s' v /\ vectors_ok s')
    (fun s' => s' = s /\ (no_request cfg s r h i \/
       (exists c, request cfg s r h i c /\ out_room s c i - len (out_vec s c i) < n) \/
       tfm_memory_check cfg buffer n false TFM_MEMORY_ACCESS_RO (mode_of cfg r) <> SPM_SUCCESS)).
Proof using Hcfg.
  intros HO Hv Hr Hi Hn. eapply swp_mono; [by apply (write_spec cfg Hcfg)| |].
  - intros _ s' [c s1 Hq Hfit Hm -> HO']. exists c. split; [done|]. pose proof Hq as (_ & _ & Hi4).
    destruct (Hv c) as [H4 Hw]. destruct (Hw i ltac:(done)) as (B & L & E). intros w room.
    fold (out_room s c i) (out_vec s c i) in B, L, E. fold w room in B, L, E, Hfit.
    destruct (produced_in_room (conns s c) i n (Hv c) ltac:(done) ltac:(done)) as (P1 & P2 & P3).
    fold (out_vec s c i) (out_room s c i) in P1, P2. fold w room in P1, P2.
    split; [lia|]. split; [done|]. unfold written_addr in *. fold w in HO' |- *.
    rewrite (u32_small (base w + len w)) in HO' |- * by lia. split; [done|].
    split. { intros a Ha. cbn. unfold mwrite. destruct (_ && _) eqn:Ea; [|done]. apply andb_prop in Ea. lia. }
    unfold out_vec, out_room. cbn [conns on_conn set_conns set_memory]. rewrite upd_eq.
    cbn [produced internal_msg set_internal_msg outvec set_outvec msg].
    split. { rewrite vec_at_set_eq by (unfold PSA_MAX_IOVEC in Hi4; lia). fold (out_vec s c i). fold w. by rewrite P2. }
    split; [done|]. split; [intros k Hk Hne; by rewrite vec_at_set_ne by lia|].
    split; [intros x Hx; by rewrite upd_ne|]. do 3 (split; [done|]).
    intros x. cbn. destruct (Z.eq_dec x c) as [->|Hx]; [by rewrite upd_eq|rewrite upd_ne by done; apply Hv].
  - intros s' [-> [H|[(c & Hq & Hlt)|H]]]; (split; [done|]); [by left| |by right; right]. right. left. exists c. split; [done|].
    destruct (Hv c) as [_ Hw]. destruct (Hw i ltac:(by destruct Hq as (_ & _ & ?))) as (B & L & E).
    unfold out_room, out_vec in *. rewrite u32_small in Hlt by lia. done.
Qed.

(** C15: psa_reply to a message that the service took and has not replied to
    yet makes the client of the message runnable again with the result its
    type of message calls for, tells it how much was written to its output
    vectors, closes the connection when the reply ends it, and touches no other
    thread or connection; it stops the service for a handle that names no
    message of it, for a reply the interface forbids, or when the client
    changed its vectors.  (A second reply to a message is not checked by the
    code; see the findings.) *)
Theorem reply_correct (s : st) v r h status_ : spm_ok cfg s v -> running cfg s r ->
  (forall c, owned cfg s r h c -> active cfg v c) ->
  swp (tfm_spm_psa_reply cfg rpc_ops h status_) s (reply_result cfg s v r h status_)
    (fun _ => forall c, owned cfg s r h c -> bad_reply s c h status_).
Proof using Hcfg. intros HO Hr Ha. by apply (reply_spec cfg rpc_ops Hcfg). Qed.

(** C21: a message wakes the partition of its service when that waits for the
    signal, and blocks its sender until the reply. *)
Theorem send_wakes_server (s : st) v j db c r : spm_ok cfg s v -> service_at cfg j = Some db ->
  c ∈ hlist v j -> c ∉ pending v -> magic (internal_msg (conns s c)) = TFM_MSG_MAGIC ->
  ack_evnt (internal_msg (conns s c)) = tfm_event_init -> running cfg s r ->
  client_of cfg r = Some (client_id (conns s c)) ->
  let p := owner_of cfg db in
  swp (tfm_spm_send_event cfg (Some j) c) s
    (fun _ s' => spm_ok cfg s' (view_send p c v) /\ blocked (scheduler s') r /\
       Z.land (signals_asserted (partitions s' p)) (db_signal db) <> 0 /\
       (p <> r -> Z.land (signals_waiting (partitions s p)) (db_signal db) <> 0 ->
          owner (event (partitions s p)) = Some p -> runnable (scheduler s') p = true))
    (fun _ => False).
Proof using Hcfg.
  intros HO Hj Hc Hn Hm Ha Hr Hcl p. apply (send_spec cfg Hcfg s v j db c r); try done. intros s' [S1 S2 S3 S4 S5 S6] HO'.
  do 2 (split; [done|]). split; [|done]. fold p in S2. rewrite S2, Z.eqb_refl.
  destruct (cf_signal _ Hcfg j db Hj) as (b & Hb & ->). apply lor_bit; [by exists b|]. right.
  apply one_bit_land; [by exists b|by exists b|done].
Qed.

(** psa_notify asserts the doorbell of exactly the partition with the
    identifier, and wakes it when it waits for it; psa_clear clears the
    doorbell of the caller and no other signal. *)
Theorem notify_and_clear_correct (s : st) v r id : spm_ok cfg s v -> running cfg s r ->
  swp (tfm_spm_psa_notify cfg id) s
    (fun _ s' => exists p, by_pid cfg id = Some p /\ signalled p PSA_DOORBELL s s' /\ spm_ok cfg s' v)
    (fun s' => s' = s /\ (id <= 0 \/ by_pid cfg id = None)) /\
  swp tfm_spm_psa_clear s
    (fun _ s' => spm_ok cfg s' v /\ scheduler s' = scheduler s /\ memory s' = memory s /\
       Z.land (signals_asserted (partitions s' r)) PSA_DOORBELL = 0 /\
       forall b, 0 <= b < 32 -> b <> 3 ->
         Z.testbit (signals_asserted (partitions s' r)) b = Z.testbit (signals_asserted (partitions s r)) b)
    (fun s' => s' = s /\ Z.land (signals_asserted (partitions s r)) PSA_DOORBELL = 0).
Proof using Hcfg.
  intros HO Hr. split; [|by apply (clear_spec cfg Hcfg s v r)].
  apply (notify_signal_spec cfg Hcfg s v id PSA_DOORBELL HO doorbell_one_bit).
  intros p j db _ Hj _. by apply (cf_doorbell _ Hcfg j).
Qed.
End Services.

(** ** Instances *)


(** The client connects by a system call. *)
Lemma svc_keeps_invariant_witness :
  exists v, spm_ok ex_cfg (run (ex_svc TFM_SVC_PSA_CONNECT (ex_ctx 0x100 1 0 0 false)) ex_client) v.
Proof.
  destruct ex_client_ok as [[l HO] Hr].
  assert (Hd : fst (ex_svc TFM_SVC_PSA_CONNECT (ex_ctx 0x100 1 0 0 false) ex_client) = Done tt) by (vm_compute; reflexivity).
  exact (swp_at _ _ _ _ tt Hd (svc_keeps_invariant ex_cfg ex_rpc ex_scfg ex_cfg_ok ex_client _ 2 TFM_SVC_PSA_CONNECT
    (ex_ctx 0x100 1 0 0 false) 0 HO Hr ltac:(unfold regs_ok; cbn; lia) I)).
Defined.

Lemma scheduler_picks_highest_witness : p_curr_thrd (scheduler ex_connects) = Some 2 /\
  exists t, p_curr_thrd (scheduler ex_signalled) = Some t /\ t = 1.
Proof.
  split; [by vm_compute|]. destruct ex_client_ok as [[l HO] Hr].
  assert (Hd : fst (PendSV_Handler ex_cfg ex_connects) = Done tt) by (vm_compute; reflexivity).
  destruct ex_connects_ok as [l' HO'].
  destruct (swp_at _ _ _ _ tt Hd (scheduler_picks_highest ex_cfg ex_connects _ 2 HO' ltac:(by vm_compute)
    ltac:(by vm_compute))) as (_ & _ & _ & _ & _ & _ & t & Ht & _).
  exists t. split; [exact Ht|]. vm_compute in Ht. by injection Ht.
Defined.

Lemma connect_correct_witness : exists v, spm_ok ex_cfg ex_client v /\
  connect_result ex_cfg ex_client v 2 0x100 1 false PSA_SUCCESS ex_connects.
Proof.
  destruct ex_client_ok as [[l HO] Hr]. exists (ex_view0 l). split; [done|].
  assert (Hd : fst (tfm_spm_client_psa_connect ex_cfg ex_rpc 0x100 1 false ex_client) = Done PSA_SUCCESS)
    by (vm_compute; reflexivity).
  exact (swp_at _ _ _ _ PSA_SUCCESS Hd
    (connect_correct ex_cfg ex_rpc ex_cfg_ok ex_client _ 2 0x100 1 false HO Hr ex_caller_client)).
Defined.

Lemma call_correct_witness : exists v, spm_ok ex_cfg ex_connected v /\
  call_result ex_cfg ex_connected v 2 ex_handle 0 0x30000100 1 0x30000180 1 false 0 PSA_SUCCESS ex_calls.
Proof.
  destruct ex_connected_ok as [[l HO] Hr]. exists (ex_view3 l). split; [done|].
  assert (Hl : forall cid, client_of ex_cfg 2 = Some cid -> handle_live ex_cfg ex_connected (ex_view3 l) ex_handle cid)
    by (intros cid _; apply ex_live; by apply elem_of_cons; left).
  assert (Hd : fst (tfm_spm_client_psa_call ex_cfg ex_rpc ex_handle 0 0x30000100 1 0x30000180 1 false 0 ex_connected) =
    Done PSA_SUCCESS) by (vm_compute; reflexivity).
  exact (swp_at _ _ _ _ PSA_SUCCESS Hd (call_correct ex_cfg ex_rpc ex_cfg_ok ex_connected _ 2 ex_handle
    0 0x30000100 1 0x30000180 1 false 0 HO Hr ex_caller_client ltac:(lia) ltac:(lia) Hl)).
Defined.

Lemma close_correct_witness : exists v, spm_ok ex_cfg ex_connected v /\
  close_result ex_cfg ex_connected v 2 ex_handle false tt
    (run (tfm_spm_client_psa_close ex_cfg ex_rpc ex_handle false) ex_connected).
Proof.
  destruct ex_connected_ok as [[l HO] Hr]. exists (ex_view3 l). split; [done|].
  assert (Hl : forall cid, client_of ex_cfg 2 = Some cid -> handle_live ex_cfg ex_connected (ex_view3 l) ex_handle cid)
    by (intros cid _; apply ex_live; by apply elem_of_cons; left).
  assert (Hd : fst (tfm_spm_client_psa_close ex_cfg ex_rpc ex_handle false ex_connected) = Done tt) by (vm_compute; reflexivity).
  exact (swp_at _ _ _ _ tt Hd
    (close_correct ex_cfg ex_rpc ex_cfg_ok ex_connected _ 2 ex_handle false HO Hr ex_caller_client Hl)).
Defined.

(** The non-secure world calls with a static handle and bad vectors. *)
Lemma ns_calls_return_witness : running ex_cfg ex_ns 0 /\
  swp (tfm_spm_client_psa_call ex_cfg ex_rpc 0x40000101 0 0x20000000 1 0 0 true 0) ex_ns (fun _ _ => True) (fun _ => False).
Proof.
  destruct ex_ns_ok as [[l HO] Hr]. split; [done|].
  assert (Hl : forall cid, client_of ex_cfg 0 = Some cid -> handle_live ex_cfg ex_ns (ex_view0 l) 0x40000101 cid).
  { intros cid _ c Hc Hin. vm_compute in Hc. injection Hc as <-. exfalso.
    apply (bool_decide_eq_true_2 _) in Hin. by vm_compute in Hin. }
  destruct (ns_calls_return ex_cfg ex_rpc ex_cfg_ok ex_ns _ 0 0 0 0x40000101 0 0x20000000 1 0 0 0 HO Hr ex_caller_ns
    ltac:(lia) ltac:(lia) Hl) as (_ & _ & _ & H). apply H. intros [_ E]. by vm_compute in E.
Defined.

Lemma handle_roundtrip_witness : ex_conn ∈ conn_chunks ex_cfg /\
  tfm_spm_to_handle_instance ex_cfg ex_handle = Some ex_conn /\
  fst (tfm_spm_to_user_handle ex_cfg ex_conn ex_client) = Done ex_handle.
Proof.
  assert (Hc : ex_conn ∈ conn_chunks ex_cfg) by (apply (bool_decide_unpack _); by vm_compute).
  assert (Hd : fst (tfm_spm_to_user_handle ex_cfg ex_conn ex_client) = Done ex_handle) by (vm_compute; reflexivity).
  destruct ex_client_ok as [[l HO] Hr]. split; [done|]. split; [|done].
  destruct (swp_at _ _ _ _ ex_handle Hd (handle_roundtrip ex_cfg ex_cfg_ok ex_client _ ex_conn HO Hc)) as (_ & _ & H & _).
  exact H.
Defined.

Lemma get_msg_by_signal_correct_witness :
  fst (tfm_spm_get_msg_by_signal 1 0x10 ex_asked) = Done (Some ex_conn) /\
  exists v a b, queue v 1 = a ++ ex_conn :: b /\
    spm_ok ex_cfg (snd (tfm_spm_get_msg_by_signal 1 0x10 ex_asked)) (set_queue 1 (a ++ b) v).
Proof.
  assert (Hd : fst (tfm_spm_get_msg_by_signal 1 0x10 ex_asked) = Done (Some ex_conn)) by (vm_compute; reflexivity).
  assert (Hb : one_bit 0x10) by (exists 4; split; [lia|reflexivity]). assert (Hp : is_Some (static_at ex_cfg 1)) by (by eexists).
  split; [done|]. destruct ex_asked_ok as [[l HO] Hr]. exists (ex_view4 l).
  pose proof (get_msg_by_signal_correct ex_cfg ex_cfg_ok ex_asked _ 1 0x10 HO Hp Hb) as H. cbv zeta in H.
  destruct (swp_at _ _ _ _ _ Hd H) as [(a & b & H1 & _ & _ & H2 & _) _]. exists a, b. exact (conj H1 H2).
Defined.

Lemma get_correct_witness : exists v, spm_ok ex_cfg ex_asked v /\ gettable ex_cfg ex_asked 1 0x10 0x30001000 /\
  get_result ex_cfg ex_asked v 1 0x10 0x30001000 PSA_SUCCESS ex_serving.
Proof.
  destruct ex_asked_ok as [[l HO] Hr]. exists (ex_view4 l). split; [done|].
  assert (Hd : fst (tfm_spm_psa_get ex_cfg 0x10 0x30001000 ex_asked) = Done PSA_SUCCESS) by (vm_compute; reflexivity).
  exact (swp_at _ _ _ _ _ Hd (get_correct ex_cfg ex_cfg_ok ex_asked _ 1 0x10 0x30001000 HO Hr ltac:(lia))).
Defined.

(** No message is there: the server sleeps. *)
Lemma wait_correct_witness : exists v, spm_ok ex_cfg ex_server v /\ spm_ok ex_cfg ex_waits v /\
  blocked (scheduler ex_waits) 1.
Proof.
  destruct ex_server_ok as [[l HO] Hr]. exists (ex_view0 l). split; [done|].
  assert (Hd : fst (tfm_spm_psa_wait 0x30 PSA_BLOCK ex_server) = Done 0) by (vm_compute; reflexivity).
  pose proof (wait_correct ex_cfg ex_cfg_ok ex_server _ 1 0x30 PSA_BLOCK HO Hr) as H. cbv zeta in H.
  apply (swp_at _ _ _ _ _ Hd) in H as [_ H].
  assert (E : Z.land (signals_asserted (partitions ex_server 1)) 0x30 = 0) by (vm_compute; reflexivity).
  rewrite E in H. destruct H as (H1 & H2 & _). exact (conj H1 H2).
Defined.

(** The client, with a handle the server can read from, is stopped. *)
Lemma messages_isolated_witness :
  ex_svc TFM_SVC_PSA_READ (ex_ctx ex_handle 0 0x30000200 4 false) ex_connected = (Panic, ex_connected) /\
  fst (tfm_spm_psa_read ex_cfg ex_handle 0 0x30002000 3 ex_serving) = Done 3.
Proof.
  destruct ex_connected_ok as [[l HO] Hr]. split; [|by vm_compute].
  refine (proj2 (messages_isolated ex_cfg ex_rpc ex_scfg ex_cfg_ok ex_connected _ 2 TFM_SVC_PSA_READ
    (ex_ctx ex_handle 0 0x30000200 4 false) 0 ex_conn 0 _ HO Hr _ eq_refl _ eq_refl _) eq_refl _).
  - unfold regs_ok, ex_ctx, ex_handle. cbn [r0 r1 r2 r3]. lia.
  - by apply elem_of_cons; left.
  - by vm_compute.
  - by vm_compute.
Defined.

Lemma read_and_skip_correct_witness : exists v, spm_ok ex_cfg ex_serving v /\
  read_result ex_cfg ex_serving v 1 ex_handle 0 0x30002000 3 3
    (run (tfm_spm_psa_read ex_cfg ex_handle 0 0x30002000 3) ex_serving) /\
  skip_result ex_cfg ex_serving v 1 ex_handle 0 9 4 (run (tfm_spm_psa_skip ex_cfg ex_handle 0 9) ex_serving).
Proof.
  destruct ex_serving_ok as [[l HO] Hr]. exists (ex_view5 l). split; [done|].
  assert (Hd : fst (tfm_spm_psa_read ex_cfg ex_handle 0 0x30002000 3 ex_serving) = Done 3) by (vm_compute; reflexivity).
  assert (Hk : fst (tfm_spm_psa_skip ex_cfg ex_handle 0 9 ex_serving) = Done 4) by (vm_compute; reflexivity).
  split.
  - exact (swp_at _ _ _ _ _ Hd (proj1 (read_and_skip_correct ex_cfg ex_cfg_ok ex_serving _ 1 ex_handle 0 0x30002000 3 HO Hr))).
  - exact (swp_at _ _ _ _ _ Hk (proj2 (read_and_skip_correct ex_cfg ex_cfg_ok ex_serving _ 1 ex_handle 0 0x30002000 9 HO Hr))).
Defined.

(** All the room of eight bytes is filled; a ninth byte does not fit. *)
Lemma write_correct_witness :
  out_vec (run (tfm_spm_psa_write ex_cfg ex_handle 0 0x30002000 8) ex_serving) ex_conn 0 = {| base := 0x30000300; len := 8 |} /\
  fst (tfm_spm_psa_write ex_cfg ex_handle 0 0x30002000 9 ex_serving) = Panic.
Proof.
  destruct ex_serving_ok as [[l HO] Hr]. split; [|by vm_compute].
  assert (Hd : fst (tfm_spm_psa_write ex_cfg ex_handle 0 0x30002000 8 ex_serving) = Done tt) by (vm_compute; reflexivity).
  destruct (swp_at _ _ _ _ _ Hd (write_correct ex_cfg ex_cfg_ok ex_serving _ 1 ex_handle 0 0x30002000 8 HO ex_serving_vectors Hr
    ltac:(lia) ltac:(lia))) as (c & (Ho & _) & _ & _ & _ & _ & E & _).
  rewrite (ex_only _ _ Ho) in E. etransitivity; [exact E|]. by vm_compute.
Defined.

Lemma reply_correct_witness : exists v, spm_ok ex_cfg ex_serving v /\
  reply_result ex_cfg ex_serving v 1 ex_handle 7 tt (run (tfm_spm_psa_reply ex_cfg ex_rpc ex_handle 7) ex_serving).
Proof.
  destruct ex_serving_ok as [[l HO] Hr]. exists (ex_view5 l). split; [done|].
  assert (Hd : fst (tfm_spm_psa_reply ex_cfg ex_rpc ex_handle 7 ex_serving) = Done tt) by (vm_compute; reflexivity).
  assert (Ha : forall c, owned ex_cfg ex_serving 1 ex_handle c -> active ex_cfg (ex_view5 l) c).
  { intros c ->%ex_only. by apply (ex_active _ l (ex_view3 l)); [|intros p; cbn; unfold upd; destruct (p =? 1)]. }
  exact (swp_at _ _ _ _ _ Hd (reply_correct ex_cfg ex_rpc ex_cfg_ok ex_serving _ 1 ex_handle 7 HO Hr Ha)).
Defined.

(** The client's request is in its connection, not yet sent. *)
Lemma send_wakes_server_witness : exists v, spm_ok ex_cfg ex_filled v /\
  runnable (scheduler (run (tfm_spm_send_event ex_cfg (Some 0) ex_conn) ex_filled)) 1 = true /\
  runnable (scheduler ex_filled) 1 = false.
Proof.
  destruct ex_filled_ok as [[l HO] Hr]. exists (ex_view3 l). split; [done|]. split; [|by vm_compute].
  assert (Hd : fst (tfm_spm_send_event ex_cfg (Some 0) ex_conn ex_filled) = Done tt) by (vm_compute; reflexivity).
  assert (Hc : ex_conn ∈ hlist (ex_view3 l) 0) by by apply elem_of_cons; left.
  pose proof (ex_not_pending l) as Hp.
  assert (H1 : magic (internal_msg (conns ex_filled ex_conn)) = TFM_MSG_MAGIC) by (vm_compute; reflexivity).
  assert (H2 : ack_evnt (internal_msg (conns ex_filled ex_conn)) = tfm_event_init) by (vm_compute; reflexivity).
  assert (H3 : client_of ex_cfg 2 = Some (client_id (conns ex_filled ex_conn))) by (vm_compute; reflexivity).
  pose proof (send_wakes_server ex_cfg ex_cfg_ok ex_filled _ 0 _ ex_conn 2 HO eq_refl Hc Hp H1 H2 Hr H3) as H.
  cbv zeta in H. apply (swp_at _ _ _ _ _ Hd) in H as (_ & _ & _ & H). apply H; by vm_compute.
Defined.

Lemma notify_and_clear_correct_witness : exists v p, spm_ok ex_cfg ex_client v /\ by_pid ex_cfg 256 = Some p /\
  signalled p PSA_DOORBELL ex_client (run (tfm_spm_psa_notify ex_cfg 256) ex_client).
Proof.
  destruct ex_client_ok as [[l HO] Hr]. exists (ex_view0 l).
  assert (Hd : fst (tfm_spm_psa_notify ex_cfg 256 ex_client) = Done tt) by (vm_compute; reflexivity).
  destruct (swp_at _ _ _ _ _ Hd (proj1 (notify_and_clear_correct ex_cfg ex_cfg_ok ex_client _ 2 256 HO Hr)))
    as (p & H1 & H2 & _). exists p. exact (conj HO (conj H1 H2)).
Defined.
