(* ===== verification/Mailbox.v ===== *)
(** * The mailbox between the two cores: queues and operations

    interface/include/multi_core/tfm_mailbox.h and tfm_ns_mailbox.h,
    interface/src/multi_core/tfm_ns_mailbox.c, and
    secure_fw/spm/cmsis_psa/tfm_spe_mailbox.{h,c}, with TFM_MULTI_CORE_NS_OS
    and without the mailbox thread.  The secure side is written over an
    interface [TfmRpc] for tfm_rpc_psa_*; [MailboxSpm] gives the SPM's. *)

From Stdlib Require Import ZArith List Lia Bool.
From stdpp Require Import base tactics list.
From S2P Require Import Prelude SpmBase BiList SpmPool SpmSched SpmState SpmIpc SpmClient SpmService SpmSvc.
Import ListNotations.
Local Open Scope Z_scope.
Local Open Scope spm_scope.

(** ** tfm_mailbox.h *)
Definition MAILBOX_PSA_FRAMEWORK_VERSION : Z := 1.
Definition MAILBOX_PSA_VERSION : Z := 2.
Definition MAILBOX_PSA_CONNECT : Z := 3.
Definition MAILBOX_PSA_CALL : Z := 4.
Definition MAILBOX_PSA_CLOSE : Z := 5.

Definition INT32_MIN : Z := - 2 ^ 31.
Definition MAILBOX_SUCCESS : Z := 0.
Definition MAILBOX_QUEUE_FULL : Z := INT32_MIN + 1.
Definition MAILBOX_INVAL_PARAMS : Z := INT32_MIN + 2.
Definition MAILBOX_NO_PEND_EVENT : Z := INT32_MIN + 4.
Definition MAILBOX_CALLBACK_REG_ERROR : Z := INT32_MIN + 6.
Definition MAILBOX_INIT_ERROR : Z := INT32_MIN + 7.
Definition MAILBOX_GENERIC_ERROR : Z := INT32_MIN + 8.

(** The union psa_client_params_t is six words, which every call type reads
    in its own way. *)
Record psa_client_params_t := { word0 : Z; word1 : Z; word2 : Z; word3 : Z; word4 : Z; word5 : Z }.

Record mailbox_msg_t := { m_call_type : Z; m_params : psa_client_params_t; m_client_id : Z }.

(** The owner is a task handle, 0 the null pointer. *)
Record mailbox_reply_t := { return_val : Z; r_owner : Z; is_woken : bool }.

Record ns_mailbox_slot_t := { ns_msg : mailbox_msg_t; ns_reply : mailbox_reply_t }.

Record ns_mailbox_queue_t := {
  empty_slots : Z;
  pend_slots : Z;
  replied_slots : Z;
  ns_slots : Z -> ns_mailbox_slot_t
}.

(** ** tfm_spe_mailbox.h *)
Record secure_mailbox_slot_t := { s_msg : mailbox_msg_t; ns_slot_idx : Z; msg_handle : Z }.

(** [s_ns_queue]: the pointer to the queue of the other side is set. *)
Record secure_mailbox_queue_t := {
  s_empty_slots : Z;
  s_slots : Z -> secure_mailbox_slot_t;
  s_ns_queue : bool;
  cur_proc_slot_idx : Z
}.

(** Both queues; the non-secure one is in memory both cores access. *)
Record mbox := { spe_mailbox_queue : secure_mailbox_queue_t; ns_queue : ns_mailbox_queue_t }.

Definition zero_params : psa_client_params_t :=
  {| word0 := 0; word1 := 0; word2 := 0; word3 := 0; word4 := 0; word5 := 0 |}.
Definition zero_mailbox_msg : mailbox_msg_t := {| m_call_type := 0; m_params := zero_params; m_client_id := 0 |}.
Definition zero_ns_slot : ns_mailbox_slot_t :=
  {| ns_msg := zero_mailbox_msg; ns_reply := {| return_val := 0; r_owner := 0; is_woken := false |} |}.
Definition zero_secure_slot : secure_mailbox_slot_t :=
  {| s_msg := zero_mailbox_msg; ns_slot_idx := 0; msg_handle := 0 |}.

(** ** Updates *)
Definition set_empty_slots v q : ns_mailbox_queue_t :=
  {| empty_slots := v; pend_slots := pend_slots q; replied_slots := replied_slots q; ns_slots := ns_slots q |}.
Definition set_pend_slots v q : ns_mailbox_queue_t :=
  {| empty_slots := empty_slots q; pend_slots := v; replied_slots := replied_slots q; ns_slots := ns_slots q |}.
Definition set_replied_slots v q : ns_mailbox_queue_t :=
  {| empty_slots := empty_slots q; pend_slots := pend_slots q; replied_slots := v; ns_slots := ns_slots q |}.
Definition on_ns_slot i (f : ns_mailbox_slot_t -> ns_mailbox_slot_t) q : ns_mailbox_queue_t :=
  {| empty_slots := empty_slots q; pend_slots := pend_slots q; replied_slots := replied_slots q;
     ns_slots := upd i (f (ns_slots q i)) (ns_slots q) |}.
Definition set_ns_msg m sl : ns_mailbox_slot_t := {| ns_msg := m; ns_reply := ns_reply sl |}.
Definition on_reply (f : mailbox_reply_t -> mailbox_reply_t) sl : ns_mailbox_slot_t :=
  {| ns_msg := ns_msg sl; ns_reply := f (ns_reply sl) |}.
Definition set_return_val v r : mailbox_reply_t := {| return_val := v; r_owner := r_owner r; is_woken := is_woken r |}.
Definition set_owner v r : mailbox_reply_t := {| return_val := return_val r; r_owner := v; is_woken := is_woken r |}.
Definition set_is_woken v r : mailbox_reply_t := {| return_val := return_val r; r_owner := r_owner r; is_woken := v |}.

Definition set_s_empty v q : secure_mailbox_queue_t :=
  {| s_empty_slots := v; s_slots := s_slots q; s_ns_queue := s_ns_queue q; cur_proc_slot_idx := cur_proc_slot_idx q |}.
Definition on_s_slot i (f : secure_mailbox_slot_t -> secure_mailbox_slot_t) q : secure_mailbox_queue_t :=
  {| s_empty_slots := s_empty_slots q; s_slots := upd i (f (s_slots q i)) (s_slots q);
     s_ns_queue := s_ns_queue q; cur_proc_slot_idx := cur_proc_slot_idx q |}.
Definition set_cur_proc v q : secure_mailbox_queue_t :=
  {| s_empty_slots := s_empty_slots q; s_slots := s_slots q; s_ns_queue := s_ns_queue q; cur_proc_slot_idx := v |}.
Definition set_s_msg v sl : secure_mailbox_slot_t :=
  {| s_msg := v; ns_slot_idx := ns_slot_idx sl; msg_handle := msg_handle sl |}.
Definition set_ns_slot_idx v sl : secure_mailbox_slot_t :=
  {| s_msg := s_msg sl; ns_slot_idx := v; msg_handle := msg_handle sl |}.
Definition set_msg_handle v sl : secure_mailbox_slot_t :=
  {| s_msg := s_msg sl; ns_slot_idx := ns_slot_idx sl; msg_handle := v |}.

Definition on_spe (f : secure_mailbox_queue_t -> secure_mailbox_queue_t) w : mbox :=
  {| spe_mailbox_queue := f (spe_mailbox_queue w); ns_queue := ns_queue w |}.
Definition on_ns (f : ns_mailbox_queue_t -> ns_mailbox_queue_t) w : mbox :=
  {| spe_mailbox_queue := spe_mailbox_queue w; ns_queue := f (ns_queue w) |}.

(** [1 << idx] as a mailbox_queue_status_t, and the bit of a status. *)
Definition slot_bit (idx : Z) : Z := u32 (Z.shiftl 1 idx).
Definition slot_in (status idx : Z) : bool := negb (Z.land status (slot_bit idx) =? 0).

(** The initial bitmask of empty slots, as both sides compute it. *)
Definition all_empty (n : Z) : Z := u32 (u32 (u32 (Z.shiftl 1 (n - 1)) - 1) + u32 (Z.shiftl 1 (n - 1))).

Section Queues.
Context (NUM_MAILBOX_QUEUE_SLOT : Z).

(** ** tfm_ns_mailbox.c *)
Definition set_queue_slot_empty (idx : Z) (q : ns_mailbox_queue_t) : ns_mailbox_queue_t :=
  if idx <? NUM_MAILBOX_QUEUE_SLOT then set_empty_slots (Z.lor (empty_slots q) (slot_bit idx)) q else q.

Definition clear_queue_slot_empty (idx : Z) (q : ns_mailbox_queue_t) : ns_mailbox_queue_t :=
  if idx <? NUM_MAILBOX_QUEUE_SLOT then set_empty_slots (clear_bits (empty_slots q) (slot_bit idx)) q else q.

Definition set_queue_slot_pend (idx : Z) (q : ns_mailbox_queue_t) : ns_mailbox_queue_t :=
  if idx <? NUM_MAILBOX_QUEUE_SLOT then set_pend_slots (Z.lor (pend_slots q) (slot_bit idx)) q else q.

Definition clear_queue_slot_all_replied (status : Z) (q : ns_mailbox_queue_t) : ns_mailbox_queue_t :=
  set_replied_slots (clear_bits (replied_slots q) status) q.

Definition set_queue_slot_woken (idx : Z) (q : ns_mailbox_queue_t) : ns_mailbox_queue_t :=
  if idx <? NUM_MAILBOX_QUEUE_SLOT then on_ns_slot idx (on_reply (set_is_woken true)) q else q.

Definition is_queue_slot_woken (idx : Z) (q : ns_mailbox_queue_t) : bool :=
  if idx <? NUM_MAILBOX_QUEUE_SLOT then is_woken (ns_reply (ns_slots q idx)) else false.

Definition clear_queue_slot_woken (idx : Z) (q : ns_mailbox_queue_t) : ns_mailbox_queue_t :=
  if idx <? NUM_MAILBOX_QUEUE_SLOT then on_ns_slot idx (on_reply (set_is_woken false)) q else q.

Definition set_msg_owner (idx owner : Z) (q : ns_mailbox_queue_t) : ns_mailbox_queue_t :=
  if idx <? NUM_MAILBOX_QUEUE_SLOT then on_ns_slot idx (on_reply (set_owner owner)) q else q.

(** acquire_empty_slot reads the status under the spin lock, then looks for
    the first slot in it, then clears its bit under the spin lock again;
    these are the parts between. *)
Fixpoint first_slot (n : nat) (idx status : Z) : Z :=
  match n with
  | O => idx
  | S n' => if slot_in status idx then idx else first_slot n' (idx + 1) status
  end.
Definition acquire_select (status : Z) : Z :=
  if status =? 0 then NUM_MAILBOX_QUEUE_SLOT else first_slot (Z.to_nat NUM_MAILBOX_QUEUE_SLOT) 0 status.

(** mailbox_tx_client_req up to the critical section. *)
Definition fill_msg_owner (idx : Z) (m : mailbox_msg_t) (task_handle : Z) (q : ns_mailbox_queue_t) : ns_mailbox_queue_t :=
  set_msg_owner idx task_handle (on_ns_slot idx (set_ns_msg m) q).

Definition mailbox_rx_client_reply (idx : Z) (q : ns_mailbox_queue_t) : Z * ns_mailbox_queue_t :=
  let reply := return_val (ns_reply (ns_slots q idx)) in
  let q := set_msg_owner idx 0 q in
  (reply, set_queue_slot_empty idx (clear_queue_slot_woken idx q)).

Definition mailbox_wait_reply_signal (idx : Z) (q : ns_mailbox_queue_t) : bool * ns_mailbox_queue_t :=
  if is_queue_slot_woken idx q then (true, clear_queue_slot_woken idx q) else (false, q).

(** tfm_ns_mailbox_init: [hal_ret] and [lock_ret] are the results of the
    platform's and the operating system's initialisation. *)
Definition tfm_ns_mailbox_init (queue_null : bool) (hal_ret lock_ret : Z) (q : ns_mailbox_queue_t) :
    Z * ns_mailbox_queue_t :=
  if queue_null then (MAILBOX_INVAL_PARAMS, q)
  else
    let q := {| empty_slots := all_empty NUM_MAILBOX_QUEUE_SLOT; pend_slots := 0; replied_slots := 0;
                ns_slots := fun _ => zero_ns_slot |} in
    if negb (hal_ret =? MAILBOX_SUCCESS) then (hal_ret, q) else (lock_ret, q).

(** ** tfm_spe_mailbox.c *)
Context (spe_mailbox_queue_addr : Z).

(** &spe_mailbox_queue.queue[idx].msg_handle: the queue is after one word, a
    slot has 40 bytes, a message 32, and the handle is aligned. *)
Definition msg_handle_addr (idx : Z) : Z := spe_mailbox_queue_addr + 4 + 40 * idx + 36.

(** *owner, for a pointer to the handle of a slot. *)
Definition load_handle (owner : Z) (w : mbox) : option Z :=
  let idx := (owner - msg_handle_addr 0) / 40 in
  if (0 <=? idx) && (idx <? NUM_MAILBOX_QUEUE_SLOT) && (msg_handle_addr idx =? owner)
  then Some (msg_handle (s_slots (spe_mailbox_queue w) idx)) else None.

Definition set_spe_queue_empty_status (idx : Z) (q : secure_mailbox_queue_t) : secure_mailbox_queue_t :=
  if idx <? NUM_MAILBOX_QUEUE_SLOT then set_s_empty (Z.lor (s_empty_slots q) (slot_bit idx)) q else q.

Definition clear_spe_queue_empty_status (idx : Z) (q : secure_mailbox_queue_t) : secure_mailbox_queue_t :=
  if idx <? NUM_MAILBOX_QUEUE_SLOT then set_s_empty (clear_bits (s_empty_slots q) (slot_bit idx)) q else q.

Definition get_spe_queue_empty_status (idx : Z) (q : secure_mailbox_queue_t) : bool :=
  (idx <? NUM_MAILBOX_QUEUE_SLOT) && slot_in (s_empty_slots q) idx.

Definition set_nspe_queue_replied_status (mask : Z) (q : ns_mailbox_queue_t) : ns_mailbox_queue_t :=
  set_replied_slots (Z.lor (replied_slots q) mask) q.

Definition clear_nspe_queue_pend_status (mask : Z) (q : ns_mailbox_queue_t) : ns_mailbox_queue_t :=
  set_pend_slots (clear_bits (pend_slots q) mask) q.

Definition get_spe_mailbox_msg_handle (idx : Z) : res Z :=
  if idx >=? NUM_MAILBOX_QUEUE_SLOT then Err MAILBOX_INVAL_PARAMS else Ok (idx + 1).

Definition MAILBOX_MSG_NULL_HANDLE : Z := 0.

Definition get_spe_mailbox_msg_idx (handle : Z) : res Z :=
  if handle =? MAILBOX_MSG_NULL_HANDLE then Err MAILBOX_INVAL_PARAMS else Ok (u8 (handle - 1)).

Definition mailbox_clean_queue_slot (idx : Z) : SPM mbox unit :=
  if idx >=? NUM_MAILBOX_QUEUE_SLOT then sret tt
  else sput (on_spe (fun q => set_spe_queue_empty_status idx (on_s_slot idx (fun _ => zero_secure_slot) q))).

(** The reply structure, by the index of its slot; [None] is the null pointer. *)
Definition get_nspe_reply_addr (idx : Z) (w : mbox) : option Z :=
  if idx >=? NUM_MAILBOX_QUEUE_SLOT then None else Some (ns_slot_idx (s_slots (spe_mailbox_queue w) idx)).

Definition mailbox_direct_reply (idx result : Z) : SPM mbox unit :=
  let! w := sget in
  let! reply_ptr := deref (get_nspe_reply_addr idx w) in
  do! sput (on_ns (on_ns_slot reply_ptr (on_reply (set_return_val (s32 result))))) in
  mailbox_clean_queue_slot idx.

Definition tfm_mailbox_reply_msg (handle reply : Z) : SPM mbox Z :=
  let! w := sget in
  do! TFM_CORE_ASSERT (s_ns_queue (spe_mailbox_queue w)) in
  match (if handle =? MAILBOX_MSG_NULL_HANDLE then Ok 0 else get_spe_mailbox_msg_idx handle) with
  | Err ret => sret ret
  | Ok idx =>
      if get_spe_queue_empty_status idx (spe_mailbox_queue w) then sret MAILBOX_NO_PEND_EVENT
      else
        do! mailbox_direct_reply idx (u32 reply) in
        do! sput (on_ns (set_nspe_queue_replied_status (slot_bit idx))) in
        sret MAILBOX_SUCCESS
  end.

(** The callbacks for tfm_rpc.c. *)
Definition mailbox_reply (owner ret : Z) : SPM mbox unit :=
  let! w := sget in
  let! handle := if owner =? 0 then sret MAILBOX_MSG_NULL_HANDLE else deref (load_handle owner w) in
  let! r := tfm_mailbox_reply_msg handle ret in
  sret tt.

Definition mailbox_get_caller_data (client_id : Z) (w : mbox) : Z :=
  let idx := cur_proc_slot_idx (spe_mailbox_queue w) in
  if idx <? NUM_MAILBOX_QUEUE_SLOT then msg_handle_addr idx else 0.

(** mailbox_rpc_ops, as the SPM uses them. *)
Definition mailbox_rpc_ops : tfm_rpc_ops_t mbox := {|
  reply := fun owner ret w => snd (mailbox_reply owner ret w);
  get_caller_data := fun w client_id => mailbox_get_caller_data client_id w
|}.

(** tfm_rpc_register_ops and tfm_rpc_unregister_ops: whether operations other
    than the default ones are registered. *)
Definition TFM_RPC_SUCCESS : Z := 0.
Definition TFM_RPC_INVAL_PARAM : Z := INT32_MIN + 1.
Definition TFM_RPC_CONFLICT_CALLBACK : Z := INT32_MIN + 2.
Definition tfm_rpc_register_ops (ops_ptr : option (bool * bool * bool)) (registered : bool) : Z * bool :=
  match ops_ptr with
  | None => (TFM_RPC_INVAL_PARAM, registered)
  | Some (handle_req, reply, get_caller_data) =>
      if negb handle_req || negb reply || negb get_caller_data then (TFM_RPC_INVAL_PARAM, registered)
      else if registered then (TFM_RPC_CONFLICT_CALLBACK, registered)
      else (TFM_RPC_SUCCESS, true)
  end.
Definition tfm_rpc_unregister_ops (registered : bool) : bool := false.

(** [hal] is tfm_mailbox_hal_init: its result, and whether it has set the
    pointer to the other side's queue. *)
Definition tfm_mailbox_init (hal : Z * bool) (registered : bool) (w : mbox) : Z * bool * mbox :=
  let q := {| s_empty_slots := all_empty NUM_MAILBOX_QUEUE_SLOT; s_slots := fun _ => zero_secure_slot;
              s_ns_queue := false; cur_proc_slot_idx := 0 |} in
  let '(ret, registered) := tfm_rpc_register_ops (Some (true, true, true)) registered in
  if negb (ret =? TFM_RPC_SUCCESS) then (MAILBOX_CALLBACK_REG_ERROR, registered, on_spe (fun _ => q) w)
  else
    let '(ret, set) := hal in
    let q := {| s_empty_slots := s_empty_slots q; s_slots := s_slots q; s_ns_queue := set;
                cur_proc_slot_idx := cur_proc_slot_idx q |} in
    if negb (ret =? MAILBOX_SUCCESS) then (ret, tfm_rpc_unregister_ops registered, on_spe (fun _ => q) w)
    else (MAILBOX_SUCCESS, registered, on_spe (fun _ => q) w).
End Queues.

(** ** The service of requests *)

(** What tfm_spe_mailbox.c uses of tfm_rpc.c, over a state that contains the
    mailbox. *)
Class TfmRpc (P : Type) := {
  the_mailbox : P -> mbox;
  put_mailbox : mbox -> P -> P;
  rpc_psa_framework_version : SPM P Z;
  rpc_psa_version : option client_call_params_t -> bool -> SPM P Z;
  rpc_psa_connect : option client_call_params_t -> bool -> SPM P Z;
  rpc_psa_call : option client_call_params_t -> bool -> SPM P Z;
  rpc_psa_close : option client_call_params_t -> bool -> SPM P unit
}.

(** The calls leave the mailbox alone. *)
Class TfmRpcLaws (P : Type) `{TfmRpc P} : Prop := {
  get_put w (p : P) : the_mailbox (put_mailbox w p) = w;
  put_put w w' (p : P) : put_mailbox w (put_mailbox w' p) = put_mailbox w p;
  framework_version_frame (p : P) : the_mailbox (snd (rpc_psa_framework_version p)) = the_mailbox p;
  version_frame c ns (p : P) : the_mailbox (snd (rpc_psa_version c ns p)) = the_mailbox p;
  connect_frame c ns (p : P) : the_mailbox (snd (rpc_psa_connect c ns p)) = the_mailbox p;
  call_frame c ns (p : P) : the_mailbox (snd (rpc_psa_call c ns p)) = the_mailbox p;
  close_frame c ns (p : P) : the_mailbox (snd (rpc_psa_close c ns p)) = the_mailbox p
}.

Section Handle.
Context {P : Type} `{TfmRpc P}.
Context (NUM_MAILBOX_QUEUE_SLOT : Z).

(** An operation on the mailbox alone. *)
Definition on_mailbox {A} (m : SPM mbox A) : SPM P A := fun p =>
  let '(r, w) := m (the_mailbox p) in (r, put_mailbox w p).

Definition NS_CALLER_FLAG : bool := true.

(** The result, and [*psa_ret]. *)
Definition tfm_mailbox_dispatch (call_type : Z) (params : psa_client_params_t) (client_id psa_ret : Z) :
    SPM P (Z * Z) :=
  if call_type =? MAILBOX_PSA_FRAMEWORK_VERSION then
    let! v := rpc_psa_framework_version in sret (MAILBOX_SUCCESS, s32 v)
  else if call_type =? MAILBOX_PSA_VERSION then
    let spm_params := {| rpc_sid := word0 params; rpc_handle := 0; rpc_type := 0; rpc_in_vec := 0;
      rpc_in_len := 0; rpc_out_vec := 0; rpc_out_len := 0; rpc_version := 0 |} in
    let! v := rpc_psa_version (Some spm_params) NS_CALLER_FLAG in sret (MAILBOX_SUCCESS, s32 v)
  else if call_type =? MAILBOX_PSA_CONNECT then
    let spm_params := {| rpc_sid := word0 params; rpc_handle := 0; rpc_type := 0; rpc_in_vec := 0;
      rpc_in_len := 0; rpc_out_vec := 0; rpc_out_len := 0; rpc_version := word1 params |} in
    let! v := rpc_psa_connect (Some spm_params) NS_CALLER_FLAG in sret (MAILBOX_SUCCESS, v)
  else if call_type =? MAILBOX_PSA_CALL then
    let spm_params := {| rpc_sid := 0; rpc_handle := s32 (word0 params); rpc_type := s32 (word1 params);
      rpc_in_vec := word2 params; rpc_in_len := word3 params; rpc_out_vec := word4 params;
      rpc_out_len := word5 params; rpc_version := 0 |} in
    let! v := rpc_psa_call (Some spm_params) NS_CALLER_FLAG in sret (MAILBOX_SUCCESS, v)
  else if call_type =? MAILBOX_PSA_CLOSE then
    let spm_params := {| rpc_sid := 0; rpc_handle := s32 (word0 params); rpc_type := 0; rpc_in_vec := 0;
      rpc_in_len := 0; rpc_out_vec := 0; rpc_out_len := 0; rpc_version := 0 |} in
    do! rpc_psa_close (Some spm_params) NS_CALLER_FLAG in sret (MAILBOX_SUCCESS, psa_ret)
  else sret (MAILBOX_INVAL_PARAMS, psa_ret).

Definition check_mailbox_msg (m : mailbox_msg_t) : Z := MAILBOX_SUCCESS.

(** The direct reply after a successful dispatch, and [reply_slots]. *)
Definition reply_at_once (idx call_type psa_ret reply_slots : Z) : SPM P Z :=
  if (call_type =? MAILBOX_PSA_FRAMEWORK_VERSION) || (call_type =? MAILBOX_PSA_VERSION) then
    do! on_mailbox (mailbox_direct_reply NUM_MAILBOX_QUEUE_SLOT idx (u32 psa_ret)) in
    sret (Z.lor reply_slots (slot_bit idx))
  else if (call_type =? MAILBOX_PSA_CONNECT) || (call_type =? MAILBOX_PSA_CALL) then
    if negb (psa_ret =? PSA_SUCCESS) then
      do! on_mailbox (mailbox_direct_reply NUM_MAILBOX_QUEUE_SLOT idx (u32 psa_ret)) in
      sret (Z.lor reply_slots (slot_bit idx))
    else sret reply_slots
  else sret reply_slots.

(** The body of the loop, with [psa_ret] and [reply_slots].  The handle of a
    slot in range is always stored; *msg_ptr is the copy in the slot, which
    cleaning the slot clears, so the code reads the call type before that. *)
Definition handle_slot (pend idx psa_ret reply_slots : Z) : SPM P (Z * Z) :=
  if negb (slot_in pend idx) then sret (psa_ret, reply_slots)
  else
    do! on_mailbox (sput (on_spe (fun q =>
          on_s_slot idx (set_ns_slot_idx idx) (clear_spe_queue_empty_status NUM_MAILBOX_QUEUE_SLOT idx q)))) in
    do! on_mailbox (sput (fun w => on_spe (on_s_slot idx (set_s_msg (ns_msg (ns_slots (ns_queue w) idx)))) w)) in
    let! p := sget in
    let msg_ptr := s_msg (s_slots (spe_mailbox_queue (the_mailbox p)) idx) in
    if negb (check_mailbox_msg msg_ptr =? MAILBOX_SUCCESS) then
      do! on_mailbox (mailbox_clean_queue_slot NUM_MAILBOX_QUEUE_SLOT idx) in sret (psa_ret, reply_slots)
    else
      do! match get_spe_mailbox_msg_handle NUM_MAILBOX_QUEUE_SLOT idx with
          | Ok h => on_mailbox (sput (on_spe (on_s_slot idx (set_msg_handle h))))
          | Err _ => sret tt
          end in
      do! on_mailbox (sput (on_spe (set_cur_proc idx))) in
      let! (result, psa_ret) := tfm_mailbox_dispatch (m_call_type msg_ptr) (m_params msg_ptr) (m_client_id msg_ptr) psa_ret in
      if negb (result =? MAILBOX_SUCCESS) then
        do! on_mailbox (mailbox_clean_queue_slot NUM_MAILBOX_QUEUE_SLOT idx) in sret (psa_ret, reply_slots)
      else
        do! on_mailbox (sput (on_spe (set_cur_proc NUM_MAILBOX_QUEUE_SLOT))) in
        let! reply_slots := reply_at_once idx (m_call_type msg_ptr) psa_ret reply_slots in
        sret (psa_ret, reply_slots).

Fixpoint handle_slots (n : nat) (idx pend psa_ret reply_slots : Z) : SPM P (Z * Z) :=
  match n with
  | O => sret (psa_ret, reply_slots)
  | S n' =>
      let! (psa_ret, reply_slots) := handle_slot pend idx psa_ret reply_slots in
      handle_slots n' (idx + 1) pend psa_ret reply_slots
  end.

(** The two critical sections. *)
Definition handle_begin : SPM P Z :=
  let! p := sget in
  do! TFM_CORE_ASSERT (s_ns_queue (spe_mailbox_queue (the_mailbox p))) in
  sret (pend_slots (ns_queue (the_mailbox p))).

Definition handle_end (pend reply_slots : Z) : SPM P unit :=
  on_mailbox (sput (on_ns (fun q =>
    set_nspe_queue_replied_status reply_slots (clear_nspe_queue_pend_status pend q)))).

Definition tfm_mailbox_handle_msg : SPM P Z :=
  let! pend := handle_begin in
  if pend =? 0 then sret MAILBOX_NO_PEND_EVENT
  else
    let! (psa_ret, reply_slots) :=
      handle_slots (Z.to_nat NUM_MAILBOX_QUEUE_SLOT) 0 pend PSA_ERROR_GENERIC_ERROR 0 in
    do! handle_end pend reply_slots in
    sret MAILBOX_SUCCESS.
End Handle.

(** ** tfm_multi_core_psa_ns_api.c

    The PSA client calls of the non-secure core, over
    tfm_ns_mailbox_client_call, which returns a status and a reply.  Members of
    the parameters that a call does not set have the values [junk]. *)
Module NsApi.
Definition NON_SECURE_CLIENT_ID : Z := 1.
Definition PSA_INTER_CORE_COMM_ERR : Z := INT32_MIN + 0xFF.

Section Api.
Context (client_call : Z -> psa_client_params_t -> Z -> Z * Z) (junk : psa_client_params_t).

Definition version_params (sid : Z) : psa_client_params_t :=
  {| word0 := sid; word1 := word1 junk; word2 := word2 junk; word3 := word3 junk; word4 := word4 junk; word5 := word5 junk |}.
Definition connect_params (sid version : Z) : psa_client_params_t :=
  {| word0 := sid; word1 := version; word2 := word2 junk; word3 := word3 junk; word4 := word4 junk; word5 := word5 junk |}.
Definition call_params (handle type in_vec in_len out_vec out_len : Z) : psa_client_params_t :=
  {| word0 := u32 handle; word1 := u32 type; word2 := in_vec; word3 := in_len; word4 := out_vec; word5 := out_len |}.
Definition close_params (handle : Z) : psa_client_params_t :=
  {| word0 := u32 handle; word1 := word1 junk; word2 := word2 junk; word3 := word3 junk; word4 := word4 junk; word5 := word5 junk |}.

(** The reply of a call that succeeds. *)
Definition reply_or (dflt : Z) (r : Z * Z) : Z := if fst r =? MAILBOX_SUCCESS then snd r else dflt.

Definition psa_framework_version : Z :=
  u32 (reply_or PSA_VERSION_NONE (client_call MAILBOX_PSA_FRAMEWORK_VERSION zero_params NON_SECURE_CLIENT_ID)).
Definition psa_version (sid : Z) : Z :=
  u32 (reply_or PSA_VERSION_NONE (client_call MAILBOX_PSA_VERSION (version_params sid) NON_SECURE_CLIENT_ID)).
Definition psa_connect (sid version : Z) : Z :=
  reply_or PSA_NULL_HANDLE (client_call MAILBOX_PSA_CONNECT (connect_params sid version) NON_SECURE_CLIENT_ID).
Definition psa_call (handle type in_vec in_len out_vec out_len : Z) : Z :=
  reply_or PSA_INTER_CORE_COMM_ERR
    (client_call MAILBOX_PSA_CALL (call_params handle type in_vec in_len out_vec out_len) NON_SECURE_CLIENT_ID).
(** The result is what psa_close ignores. *)
Definition psa_close (handle : Z) : Z * Z := client_call MAILBOX_PSA_CLOSE (close_params handle) NON_SECURE_CLIENT_ID.
End Api.
End NsApi.
