(* ===== verification/MailboxSys.v ===== *)
(** * The mailbox between the two cores: the interleaving of the cores

    The steps of tfm_ns_mailbox_client_call of several tasks, of the interrupt
    handler of the non-secure core, and of the secure core, each up to its
    next critical section; the abstract specification of remote calls; and the
    life of a slot. *)

From Stdlib Require Import ZArith List Lia Bool.
From stdpp Require Import base tactics list.
From S2P Require Import Prelude SpmBase BiList SpmPool SpmSched SpmState SpmIpc SpmClient SpmService SpmSvc SpmInv Mailbox.
From S2P Require Import Prelude SpmBase BiList SpmPool SpmSched SpmState SpmIpc SpmClient SpmService SpmSvc SpmInv Mailbox .
Import ListNotations.
Local Open Scope Z_scope.

(** ** The specification: each task makes one call at a time *)

(** What the users of the mailbox see: a task calls, the secure side answers
    the message of the owner of a slot, a call returns a status and perhaps a
    reply. *)
Inductive label : Type :=
| LCall (t : Z) (m : mailbox_msg_t)
| LAnswer (t : Z) (m : mailbox_msg_t) (v : Z)
| LReturn (t ret : Z) (reply : option Z)
| LTau.

Inductive rpc_state : Type :=
| AIdle
| ACalled (m : mailbox_msg_t)
| AAnswered (v : Z).

Inductive rpc_step (a : Z -> rpc_state) : label -> (Z -> rpc_state) -> Prop :=
| A_call t m : a t = AIdle -> rpc_step a (LCall t m) (upd t (ACalled m) a)
| A_answer t m v : a t = ACalled m -> rpc_step a (LAnswer t m v) (upd t (AAnswered v) a)
| A_return t v : a t = AAnswered v -> rpc_step a (LReturn t MAILBOX_SUCCESS (Some v)) (upd t AIdle a)
| A_unlock_failed t v : a t = AAnswered v ->
    rpc_step a (LReturn t MAILBOX_GENERIC_ERROR (Some v)) (upd t AIdle a)
| A_refused t m e : a t = ACalled m -> e = MAILBOX_QUEUE_FULL \/ e = MAILBOX_GENERIC_ERROR ->
    rpc_step a (LReturn t e None) (upd t AIdle a)
| A_invalid t e : a t = AIdle -> e = MAILBOX_INVAL_PARAMS \/ e = MAILBOX_INIT_ERROR ->
    rpc_step a (LReturn t e None) a
| A_tau : rpc_step a LTau a.

(** ** The system *)

(** Where a task is in tfm_ns_mailbox_client_call. *)
Inductive client_pc : Type :=
| PIdle
| PEnter (m : mailbox_msg_t)                    (* before the lock *)
| PLocked (m : mailbox_msg_t)                   (* in acquire_empty_slot *)
| PStatus (m : mailbox_msg_t) (status : Z)      (* it has read the empty slots *)
| PSlot (m : mailbox_msg_t) (idx : Z)           (* it has cleared its bit *)
| PFilled (m : mailbox_msg_t) (idx : Z)         (* message and owner are written *)
| PWait (idx : Z)                               (* in tfm_ns_mailbox_os_wait_reply *)
| PCheck (idx : Z)                              (* woken up *)
| PReplied (idx : Z)                            (* in mailbox_rx_client_reply *)
| PExit (ret : Z) (reply : option Z).           (* before the unlock *)

(** Where the secure core is in tfm_mailbox_handle_msg; [SIdle] is outside. *)
Inductive spe_pc : Type :=
| SIdle
| SLoop (idx pend psa_ret reply_slots : Z).

(** [sem]: the count of the semaphore that is the lock; [flags]: the thread
    flags that wake tasks up; [isr]: the index and status of the loop of the
    interrupt handler, when it runs. *)
Record sys (P : Type) := {
  srv : P;
  sem : Z;
  flags : Z -> bool;
  pcs : Z -> client_pc;
  isr : option (Z * Z);
  spe : spe_pc
}.
Arguments srv {P}. Arguments sem {P}. Arguments flags {P}. Arguments pcs {P}. Arguments isr {P}. Arguments spe {P}.

Section System.
Context {P : Type} `{TfmRpc P}.
Context (NUM_MAILBOX_QUEUE_SLOT spe_mailbox_queue_addr : Z).
Local Abbreviation NUM := NUM_MAILBOX_QUEUE_SLOT.
Implicit Types s : sys P.

Definition queue_of s : ns_mailbox_queue_t := ns_queue (the_mailbox (srv s)).
Definition spe_of s : secure_mailbox_queue_t := spe_mailbox_queue (the_mailbox (srv s)).

Definition set_srv p s : sys P :=
  {| srv := p; sem := sem s; flags := flags s; pcs := pcs s; isr := isr s; spe := spe s |}.
Definition set_sem n s : sys P :=
  {| srv := srv s; sem := n; flags := flags s; pcs := pcs s; isr := isr s; spe := spe s |}.
Definition set_flag t b s : sys P :=
  {| srv := srv s; sem := sem s; flags := upd t b (flags s); pcs := pcs s; isr := isr s; spe := spe s |}.
Definition set_pc t pc s : sys P :=
  {| srv := srv s; sem := sem s; flags := flags s; pcs := upd t pc (pcs s); isr := isr s; spe := spe s |}.
Definition set_isr x s : sys P :=
  {| srv := srv s; sem := sem s; flags := flags s; pcs := pcs s; isr := x; spe := spe s |}.
Definition set_spe x s : sys P :=
  {| srv := srv s; sem := sem s; flags := flags s; pcs := pcs s; isr := isr s; spe := x |}.
Definition on_queue (f : ns_mailbox_queue_t -> ns_mailbox_queue_t) s : sys P :=
  set_srv (put_mailbox (on_ns f (the_mailbox (srv s))) (srv s)) s.

(** A task goes on; the task handle is its number. *)
Definition client_step (t : Z) s : option (label * sys P) :=
  match pcs s t with
  | PIdle => None
  | PEnter m =>
      if 0 <? sem s then Some (LTau, set_pc t (PLocked m) (set_sem (sem s - 1) s)) else None
  | PLocked m =>
      let status := empty_slots (queue_of s) in
      if acquire_select NUM status >=? NUM then Some (LTau, set_pc t (PExit MAILBOX_QUEUE_FULL None) s)
      else Some (LTau, set_pc t (PStatus m status) s)
  | PStatus m status =>
      let idx := acquire_select NUM status in
      Some (LTau, set_pc t (PSlot m idx) (on_queue (clear_queue_slot_empty NUM idx) s))
  | PSlot m idx => Some (LTau, set_pc t (PFilled m idx) (on_queue (fill_msg_owner NUM idx m t) s))
  | PFilled m idx => Some (LTau, set_pc t (PWait idx) (on_queue (set_queue_slot_pend NUM idx) s))
  | PWait idx => if flags s t then Some (LTau, set_pc t (PCheck idx) (set_flag t false s)) else None
  | PCheck idx =>
      let (is_replied, q) := mailbox_wait_reply_signal NUM idx (queue_of s) in
      Some (LTau, set_pc t (if is_replied then PReplied idx else PWait idx) (on_queue (fun _ => q) s))
  | PReplied idx =>
      let (v, q) := mailbox_rx_client_reply NUM idx (queue_of s) in
      Some (LTau, set_pc t (PExit MAILBOX_SUCCESS (Some v)) (on_queue (fun _ => q) s))
  | PExit ret reply => Some (LReturn t ret reply, set_pc t PIdle (set_sem (sem s + 1) s))
  end.

(** tfm_ns_mailbox_wake_reply_owner_isr: its first critical section, and one
    turn of its loop. *)
Definition isr_step s : sys P :=
  match isr s with
  | None =>
      let replied_status := replied_slots (queue_of s) in
      let s := on_queue (clear_queue_slot_all_replied replied_status) s in
      if replied_status =? 0 then s else set_isr (Some (0, replied_status)) s
  | Some (idx, replied_status) =>
      if idx <? NUM then
        if negb (slot_in replied_status idx) then set_isr (Some (idx + 1, replied_status)) s
        else
          let s := on_queue (set_queue_slot_woken NUM idx) s in
          let s := set_flag (r_owner (ns_reply (ns_slots (queue_of s) idx))) true s in
          let replied_status := clear_bits replied_status (slot_bit idx) in
          if replied_status =? 0 then set_isr None s else set_isr (Some (idx + 1, replied_status)) s
      else set_isr None s
  end.

(** A direct reply answers the message and the owner of the slot. *)
Definition slot_label (idx pend reply_slots : Z) (p p' : P) : label :=
  if slot_in pend idx && slot_in reply_slots idx
  then LAnswer (r_owner (ns_reply (ns_slots (ns_queue (the_mailbox p)) idx)))
         (ns_msg (ns_slots (ns_queue (the_mailbox p)) idx))
         (return_val (ns_reply (ns_slots (ns_queue (the_mailbox p')) idx)))
  else LTau.

(** tfm_mailbox_handle_msg: its critical sections, and one turn of its loop.
    [None]: the secure core stops in a panic. *)
Definition spe_step s : option (label * sys P) :=
  match spe s with
  | SIdle =>
      match handle_begin (srv s) with
      | (Done pend, p) =>
          if pend =? 0 then Some (LTau, s)
          else Some (LTau, set_spe (SLoop 0 pend PSA_ERROR_GENERIC_ERROR 0) (set_srv p s))
      | _ => None
      end
  | SLoop idx pend psa_ret reply_slots =>
      if idx <? NUM then
        match handle_slot NUM pend idx psa_ret reply_slots (srv s) with
        | (Done (psa_ret', reply_slots'), p) =>
            Some (slot_label idx pend reply_slots' (srv s) p,
                  set_spe (SLoop (idx + 1) pend psa_ret' reply_slots') (set_srv p s))
        | _ => None
        end
      else
        match handle_end pend reply_slots (srv s) with
        | (Done _, p) => Some (LTau, set_spe SIdle (set_srv p s))
        | _ => None
        end
  end.

(** Tasks do not run while the interrupt handler does, nor the services of the
    secure core while it handles messages.  A lock or unlock may fail, and
    other events may set a thread flag.  The services of the secure core do
    not touch the mailbox but to reply, by the handle they were given, to a
    message that is not replied to yet. *)
Inductive step s : label -> sys P -> Prop :=
| S_call t m : t <> 0 -> pcs s t = PIdle -> isr s = None -> step s (LCall t m) (set_pc t (PEnter m) s)
| S_invalid t e : pcs s t = PIdle -> e = MAILBOX_INVAL_PARAMS \/ e = MAILBOX_INIT_ERROR ->
    step s (LReturn t e None) s
| S_client t l s' : isr s = None -> client_step t s = Some (l, s') -> step s l s'
| S_lock_failed t m : pcs s t = PEnter m -> isr s = None -> step s (LReturn t MAILBOX_QUEUE_FULL None) (set_pc t PIdle s)
| S_unlock_failed t ret r : pcs s t = PExit ret r -> isr s = None ->
    step s (LReturn t MAILBOX_GENERIC_ERROR r) (set_pc t PIdle s)
| S_other_event t : step s LTau (set_flag t true s)
| S_isr : step s LTau (isr_step s)
| S_spe l s' : spe_step s = Some (l, s') -> step s l s'
| S_service p : spe s = SIdle -> the_mailbox p = the_mailbox (srv s) -> step s LTau (set_srv p s)
| S_reply idx ret w p : spe s = SIdle -> 0 <= idx < NUM ->
    get_spe_queue_empty_status NUM idx (spe_of s) = false ->
    mailbox_reply NUM spe_mailbox_queue_addr (msg_handle_addr spe_mailbox_queue_addr idx) ret (the_mailbox (srv s)) = (Done tt, w) ->
    the_mailbox p = w ->
    step s (LAnswer (r_owner (ns_reply (ns_slots (queue_of s) idx))) (s_msg (s_slots (spe_of s) idx)) (s32 (u32 ret)))
      (set_srv p s).

(** Both sides are initialised, and no task has called. *)
Record initial s : Prop := {
  in_ns : queue_of s = snd (tfm_ns_mailbox_init NUM false MAILBOX_SUCCESS MAILBOX_SUCCESS (queue_of s));
  in_spe : exists w, the_mailbox (srv s) = snd (tfm_mailbox_init NUM (MAILBOX_SUCCESS, true) false w);
  in_sem : sem s = NUM;
  in_pcs : forall t, pcs s t = PIdle;
  in_isr : isr s = None;
  in_idle : spe s = SIdle
}.

(** Between reading the empty slots and taking one. *)
Definition selecting (pc : client_pc) : bool := match pc with PStatus _ _ => true | _ => false end.
(** A state in which no two tasks are there. *)
Definition serial s : Prop := forall t t', selecting (pcs s t) = true -> selecting (pcs s t') = true -> t = t'.

(** The runs, with what is seen of them, through states that satisfy [I]. *)
Inductive runs (I : sys P -> Prop) s0 : list label -> sys P -> Prop :=
| Runs_start : I s0 -> runs I s0 [] s0
| Runs_step l s x s' : runs I s0 l s -> step s x s' -> I s' -> runs I s0 (l ++ [x]) s'.
End System.

Inductive rpc_runs (a0 : Z -> rpc_state) : list label -> (Z -> rpc_state) -> Prop :=
| Rpc_start : rpc_runs a0 [] a0
| Rpc_step l a x a' : rpc_runs a0 l a -> rpc_step a x a' -> rpc_runs a0 (l ++ [x]) a'.

(** * The mailbox between the two cores: the life of a slot

    The bits of the queues at one slot, the states a slot goes through, and
    the invariant that ties them to the tasks. *)

(** ** Bitmasks of slots *)
Lemma slot_bit_pow i : 0 <= i < 32 -> slot_bit i = 2 ^ i.
Proof.
  intros Hi. unfold slot_bit. rewrite Z.shiftl_1_l. apply u32_small. split; [lia|]. apply Z.pow_lt_mono_r; lia.
Qed.

Lemma slot_in_bit a i : 0 <= i < 32 -> slot_in a i = Z.testbit a i.
Proof.
  intros Hi. unfold slot_in. rewrite slot_bit_pow by done.
  destruct (Z.eqb_spec (Z.land a (2 ^ i)) 0) as [E|E]; cbn [negb].
  - by apply land_pow2 in E; [|lia].
  - by apply has_bit in E; [|lia].
Qed.

Lemma slot_in_lor a b i : 0 <= i < 32 -> slot_in (Z.lor a b) i = slot_in a i || slot_in b i.
Proof. intros Hi. rewrite !slot_in_bit by done. apply Z.lor_spec. Qed.

Lemma slot_in_clear a b i : 0 <= i < 32 -> slot_in (clear_bits a b) i = slot_in a i && negb (slot_in b i).
Proof. intros Hi. rewrite !slot_in_bit by done. by apply clear_bits_spec. Qed.

Lemma slot_in_slot_bit i j : 0 <= i < 32 -> 0 <= j < 32 -> slot_in (slot_bit i) j = (i =? j).
Proof. intros Hi Hj. rewrite slot_in_bit, slot_bit_pow by done. apply pow2_bit. lia. Qed.

Lemma slot_in_0 i : slot_in 0 i = false.
Proof. unfold slot_in. by rewrite Z.land_0_l. Qed.

Lemma slot_in_all_empty n i : 1 <= n <= 32 -> 0 <= i < n -> slot_in (all_empty n) i = true.
Proof.
  intros Hn Hi. rewrite slot_in_bit by lia.
  assert (Hp : 2 ^ n = 2 * 2 ^ (n - 1)) by (rewrite <- Z.pow_succ_r by lia; f_equal; lia).
  assert (Hle : 2 ^ n <= 2 ^ 32) by (apply Z.pow_le_mono_r; lia).
  assert (0 < 2 ^ (n - 1)) by (apply Z.pow_pos_nonneg; lia).
  replace (all_empty n) with (Z.ones n).
  - by apply Z.ones_spec_low.
  - unfold all_empty. rewrite !Z.shiftl_1_l. rewrite (u32_small (2 ^ (n - 1))) by lia.
    rewrite (u32_small (2 ^ (n - 1) - 1)), u32_small by lia. rewrite Z.ones_equiv. lia.
Qed.

#[export] Hint Rewrite slot_in_lor slot_in_clear slot_in_slot_bit using lia : slots.
#[export] Hint Rewrite slot_in_0 : slots.

(** The search finds a slot of the status. *)
Lemma first_slot_spec n i status : 0 <= i -> i + Z.of_nat n <= 32 -> 
  first_slot n i status < i + Z.of_nat n -> i <= first_slot n i status /\ slot_in status (first_slot n i status) = true.
Proof.
  revert i. induction n as [|n IH]; intros i Hi Hn; cbn [first_slot]; [lia|].
  destruct (slot_in status i) eqn:E; [split; [lia|done]|]. intros Hlt.
  destruct (IH (i + 1) ltac:(lia) ltac:(lia) ltac:(lia)) as [H1 H2]. split; [lia|done].
Qed.

Lemma first_slot_none n i status : 0 <= i -> first_slot n i status = i + Z.of_nat n ->
  forall j, i <= j < i + Z.of_nat n -> slot_in status j = false.
Proof.
  revert i. induction n as [|n IH]; intros i Hi Hf j Hj; [lia|]. cbn [first_slot] in Hf.
  destruct (slot_in status i) eqn:E; [lia|].
  destruct (Z.eq_dec i j) as [<-|]; [done|]. apply (IH (i + 1)); lia.
Qed.

Lemma acquire_select_spec n status : 1 <= n <= 32 -> acquire_select n status < n ->
  0 <= acquire_select n status /\ slot_in status (acquire_select n status) = true.
Proof.
  intros Hn. unfold acquire_select. destruct (status =? 0); [lia|]. intros Hlt.
  apply (first_slot_spec (Z.to_nat n) 0); lia.
Qed.

(** ** The states of a slot

    [m] is the message of task [t], [v] the answer to it. *)
Inductive slot_state : Type :=
| Free
| Held (t : Z) (m : mailbox_msg_t)              (* taken by a task, not sent *)
| Pending (t : Z) (m : mailbox_msg_t)           (* sent *)
| Taken (t : Z) (m : mailbox_msg_t)             (* read as pending by the secure core *)
| Answering (t v : Z)                           (* answered in the loop *)
| Accepted (t : Z) (m : mailbox_msg_t)          (* given to a service in the loop *)
| Dropped (t : Z) (m : mailbox_msg_t)           (* refused in the loop, without an answer *)
| Served (t : Z) (m : mailbox_msg_t)            (* a service has it *)
| Lost (t : Z) (m : mailbox_msg_t)              (* never answered *)
| Replied (t v : Z)                             (* the replied bit is set *)
| Waking (t v : Z)                              (* read as replied by the interrupt handler *)
| Woken (t v : Z)                               (* the woken flag is set *)
| Read (t v : Z).                               (* the task has seen the woken flag *)

Definition slot_owner (g : slot_state) : option Z :=
  match g with
  | Free => None
  | Held t _ | Pending t _ | Taken t _ | Answering t _ | Accepted t _ | Dropped t _ | Served t _ | Lost t _
  | Replied t _ | Waking t _ | Woken t _ | Read t _ => Some t
  end.

(** The call of the owner, as the specification sees it. *)
Definition slot_call (g : slot_state) : rpc_state :=
  match g with
  | Free => AIdle
  | Held _ m | Pending _ m | Taken _ m | Accepted _ m | Dropped _ m | Served _ m | Lost _ m => ACalled m
  | Answering _ v | Replied _ v | Waking _ v | Woken _ v | Read _ v => AAnswered v
  end.

Definition is_free g := match g with Free => true | _ => false end.
Definition is_pend g :=
  match g with Pending _ _ | Taken _ _ | Answering _ _ | Accepted _ _ | Dropped _ _ => true | _ => false end.
Definition is_seen g :=
  match g with Taken _ _ | Answering _ _ | Accepted _ _ | Dropped _ _ => true | _ => false end.
Definition is_done g := match g with Answering _ _ | Accepted _ _ | Dropped _ _ => true | _ => false end.
Definition is_answering g := match g with Answering _ _ => true | _ => false end.
Definition is_busy g := match g with Accepted _ _ | Served _ _ => true | _ => false end.
Definition is_replied g := match g with Replied _ _ => true | _ => false end.
Definition is_waking g := match g with Waking _ _ => true | _ => false end.
Definition is_woken_state g := match g with Woken _ _ => true | _ => false end.

(** What a slot is in the queues and in the two loops. *)
Record slot_view := {
  v_empty : bool;
  v_pend : bool;
  v_seen : bool;              (* in the pending slots the secure core has read *)
  v_done : bool;              (* and its loop is past it *)
  v_reply : bool;             (* in its reply_slots *)
  v_idle : bool;              (* empty in the secure queue *)
  v_replied : bool;
  v_waking : bool;            (* in the replied slots the handler has read *)
  v_ns : ns_mailbox_slot_t;
  v_s : secure_mailbox_slot_t
}.

(** The data of a slot. *)
Definition data_ok (i : Z) (g : slot_state) (n : ns_mailbox_slot_t) (sl : secure_mailbox_slot_t) : Prop :=
  match g with
  | Pending t m | Taken t m => ns_msg n = m /\ r_owner (ns_reply n) = t
  | Accepted t m | Served t m => sl = {| s_msg := m; ns_slot_idx := i; msg_handle := i + 1 |} /\ r_owner (ns_reply n) = t
  | Dropped t _ | Lost t _ => r_owner (ns_reply n) = t
  | Answering t v | Replied t v | Waking t v => return_val (ns_reply n) = v /\ r_owner (ns_reply n) = t
  | Woken t v | Read t v => return_val (ns_reply n) = v
  | Free | Held _ _ => True
  end.

Record slot_ok (i : Z) (x : slot_view) (g : slot_state) : Prop := {
  sl_empty : v_empty x = is_free g;
  sl_pend : v_pend x = is_pend g;
  sl_seen : v_seen x = is_seen g;
  sl_done : is_seen g = true -> v_done x = is_done g;
  sl_reply : v_reply x = is_answering g;
  sl_idle : v_idle x = negb (is_busy g);
  sl_replied : v_replied x = is_replied g;
  sl_waking : v_waking x = is_waking g;
  sl_woken : is_woken (ns_reply (v_ns x)) = is_woken_state g;
  sl_data : data_ok i g (v_ns x) (v_s x)
}.

(** The slot a task holds. *)
Definition holds (pc : client_pc) : option Z :=
  match pc with
  | PSlot _ i | PFilled _ i | PWait i | PCheck i | PReplied i => Some i
  | _ => None
  end.

(** Where the owner of a slot can be. *)
Definition owner_at (t : Z) (pc : client_pc) (flag : bool) (n : ns_mailbox_slot_t) (g : slot_state) : Prop :=
  match g, pc with
  | Held _ m, PSlot m' _ => m' = m
  | Held _ m, PFilled m' _ => m' = m /\ ns_msg n = m /\ r_owner (ns_reply n) = t
  | (Pending _ _ | Taken _ _ | Answering _ _ | Accepted _ _ | Dropped _ _ | Served _ _ | Lost _ _
     | Replied _ _ | Waking _ _), (PWait _ | PCheck _) => True
  | Woken _ _, PWait _ => flag = true
  | Woken _ _, PCheck _ => True
  | Read _ _, PReplied _ => True
  | _, _ => False
  end.

(** The call of a task, by where it is. *)
Definition task_call (pc : client_pc) (G : Z -> slot_state) (c : rpc_state) : Prop :=
  match pc with
  | PIdle => c = AIdle
  | PEnter m | PLocked m | PStatus m _ => c = ACalled m
  | PSlot _ i | PFilled _ i | PWait i | PCheck i | PReplied i => c = slot_call (G i)
  | PExit ret (Some v) => c = AAnswered v /\ ret = MAILBOX_SUCCESS
  | PExit ret None => ret = MAILBOX_QUEUE_FULL /\ exists m, c = ACalled m
  end.

Section Inv.
Context {P : Type} `{TfmRpc P}.
Context (NUM_MAILBOX_QUEUE_SLOT : Z).
Local Abbreviation NUM := NUM_MAILBOX_QUEUE_SLOT.
Implicit Types s : sys P.

Definition view_at s (i : Z) : slot_view := {|
  v_empty := slot_in (empty_slots (queue_of s)) i;
  v_pend := slot_in (pend_slots (queue_of s)) i;
  v_seen := match spe s with SIdle => false | SLoop _ pend _ _ => slot_in pend i end;
  v_done := match spe s with SIdle => false | SLoop idx _ _ _ => i <? idx end;
  v_reply := match spe s with SIdle => false | SLoop _ _ _ rs => slot_in rs i end;
  v_idle := slot_in (s_empty_slots (spe_of s)) i;
  v_replied := slot_in (replied_slots (queue_of s)) i;
  v_waking := match isr s with None => false | Some (_, st) => slot_in st i end;
  v_ns := ns_slots (queue_of s) i;
  v_s := s_slots (spe_of s) i
|}.

(** The loops are past the slots below their index, which they have cleared
    (the handler) or handled (the secure core). *)
Definition loops_ok s : Prop :=
  (forall idx st, isr s = Some (idx, st) -> 0 <= idx <= NUM /\ forall i, 0 <= i < idx -> slot_in st i = false) /\
  (forall idx pend psa rs, spe s = SLoop idx pend psa rs -> 0 <= idx <= NUM).

Record mailbox_ok s (G : Z -> slot_state) : Prop := {
  mb_slots : forall i, 0 <= i < NUM -> slot_ok i (view_at s i) (G i);
  mb_owner : forall i t, 0 <= i < NUM -> slot_owner (G i) = Some t ->
    holds (pcs s t) = Some i /\ owner_at t (pcs s t) (flags s t) (ns_slots (queue_of s) i) (G i);
  mb_holds : forall t i, holds (pcs s t) = Some i -> 0 <= i < NUM /\ slot_owner (G i) = Some t;
  mb_select : forall t m st, pcs s t = PStatus m st ->
    0 <= acquire_select NUM st < NUM /\ G (acquire_select NUM st) = Free;
  mb_loops : loops_ok s;
  mb_queue : s_ns_queue (spe_of s) = true
}.

(** The simulation relation with the specification. *)
Definition calls_ok s (G : Z -> slot_state) (a : Z -> rpc_state) : Prop := forall t, task_call (pcs s t) G (a t).
Definition simulates s (G : Z -> slot_state) (a : Z -> rpc_state) : Prop := mailbox_ok s G /\ calls_ok s G a.

Lemma no_owner_free g : slot_owner g = None -> g = Free.
Proof. by destruct g. Qed.

(** A step of a task that leaves the slots as they are. *)
Lemma ok_task s s' G a t pc c : simulates s G a ->
  (forall u, pcs s' u = upd t pc (pcs s) u) -> (forall u, u <> t -> flags s' u = flags s u) ->
  (forall i, 0 <= i < NUM -> view_at s' i = view_at s i) -> loops_ok s' -> s_ns_queue (spe_of s') = true ->
  holds pc = holds (pcs s t) ->
  (forall i, holds pc = Some i -> owner_at t (pcs s t) (flags s t) (ns_slots (queue_of s) i) (G i) ->
     owner_at t pc (flags s' t) (ns_slots (queue_of s) i) (G i)) ->
  (forall m st, pc = PStatus m st -> 0 <= acquire_select NUM st < NUM /\ G (acquire_select NUM st) = Free) ->
  task_call pc G c -> simulates s' G (upd t c a).
Proof.
  intros [[H1 H2 H3 H4 H5 H6] Hc] Hp Hf Hv Hl Hq Hh Ho Hs Ht. split.
  - constructor; auto.
    + intros i Hi. rewrite Hv by done. auto.
    + intros i u Hi Hu. destruct (H2 i u Hi Hu) as [A B]. assert (Hn : ns_slots (queue_of s') i = ns_slots (queue_of s) i).
      { by injection (Hv i Hi). }
      rewrite Hp, Hn. destruct (Z.eq_dec u t) as [->|Hne].
      * rewrite upd_eq. split; [by rewrite Hh|]. apply Ho; [by rewrite Hh|done].
      * rewrite upd_ne, Hf by done. done.
    + intros u i. rewrite Hp. destruct (Z.eq_dec u t) as [->|Hne]; [rewrite upd_eq, Hh; apply H3|].
      rewrite upd_ne by done. apply H3.
    + intros u m st. rewrite Hp. destruct (Z.eq_dec u t) as [->|Hne]; [rewrite upd_eq; apply Hs|].
      rewrite upd_ne by done. apply H4.
  - intros u. rewrite Hp. destruct (Z.eq_dec u t) as [->|Hne]; [by rewrite !upd_eq|].
    rewrite !upd_ne by done. apply Hc.
Qed.

(** A step of a task that changes its slot. *)
Lemma ok_client s s' G a t pc j g c : simulates s G a -> 0 <= j < NUM ->
  (forall u, pcs s' u = upd t pc (pcs s) u) -> (forall u, flags s' u = flags s u) ->
  (forall i, 0 <= i < NUM -> i <> j -> view_at s' i = view_at s i) -> loops_ok s' -> s_ns_queue (spe_of s') = true ->
  (forall u, slot_owner (G j) = Some u -> u = t) -> (forall i, holds (pcs s t) = Some i -> i = j) ->
  slot_ok j (view_at s' j) g ->
  (g = Free /\ holds pc = None \/
   slot_owner g = Some t /\ holds pc = Some j /\ owner_at t pc (flags s t) (ns_slots (queue_of s') j) g) ->
  (forall m st, pc <> PStatus m st) ->
  (g = Free \/ forall u m st, pcs s u = PStatus m st -> u <> t -> acquire_select NUM st <> j) ->
  task_call pc (upd j g G) c -> simulates s' (upd j g G) (upd t c a).
Proof.
  intros [[H1 H2 H3 H4 H5 H6] Hc] Hj Hp Hf Hv Hl Hq Hown Hold Hg Hn Hpc Hsel Ht.
  assert (Hother : forall u i, u <> t -> holds (pcs s u) = Some i -> i <> j).
  { intros u i Hu Hi ->. destruct (H3 u j Hi) as [_ E]. by apply Hu, Hown. }
  split.
  - constructor; auto.
    + intros i Hi. destruct (Z.eq_dec i j) as [->|Hne]; [by rewrite upd_eq|]. rewrite upd_ne, Hv by done. auto.
    + intros i u Hi. rewrite Hp. destruct (Z.eq_dec i j) as [->|Hne].
      * rewrite upd_eq. destruct Hn as [[-> _]|(E & A & B)]; [done|]. rewrite E. intros [= <-].
        rewrite upd_eq, Hf. done.
      * rewrite upd_ne by done. intros Hu. destruct (H2 i u Hi Hu) as [A B].
        assert (Hn' : ns_slots (queue_of s') i = ns_slots (queue_of s) i) by (by injection (Hv i Hi Hne)).
        rewrite Hn', Hf. destruct (Z.eq_dec u t) as [->|Hut]; [by rewrite (Hold i A) in Hne|].
        by rewrite upd_ne.
    + intros u i. rewrite Hp. destruct (Z.eq_dec u t) as [->|Hut].
      * rewrite upd_eq. destruct Hn as [[_ ->]|(E & -> & _)]; [done|]. intros [= <-]. by rewrite upd_eq.
      * rewrite upd_ne by done. intros Hi. pose proof (Hother u i Hut Hi). rewrite upd_ne by done. by apply H3.
    + intros u m st. rewrite Hp. destruct (Z.eq_dec u t) as [->|Hut].
      * rewrite upd_eq. by intros E%Hpc.
      * rewrite upd_ne by done. intros E. destruct (H4 u m st E) as [A B]. split; [done|].
        unfold upd. destruct (Z.eqb_spec (acquire_select NUM st) j) as [Ej|Ej]; [|done].
        destruct Hsel as [->|Hsel]; [done|]. by destruct (Hsel u m st E Hut).
  - intros u. rewrite Hp. destruct (Z.eq_dec u t) as [->|Hut]; [by rewrite !upd_eq|].
    rewrite !upd_ne by done. specialize (Hc u). pose proof (Hother u) as Ho.
    destruct (pcs s u) as [| | | | | | | | |]; cbn [task_call holds] in *; try done.
    all: rewrite upd_ne by (by apply Ho); done.
Qed.

(** A step of the interrupt handler or the secure core. *)
Lemma ok_views s s' G G' a a' : simulates s G a -> (forall u, pcs s' u = pcs s u) ->
  (forall i, 0 <= i < NUM -> slot_ok i (view_at s' i) (G' i) /\ slot_owner (G' i) = slot_owner (G i) /\
     forall t, slot_owner (G i) = Some t ->
       owner_at t (pcs s t) (flags s t) (ns_slots (queue_of s) i) (G i) ->
       owner_at t (pcs s t) (flags s' t) (ns_slots (queue_of s') i) (G' i)) ->
  loops_ok s' -> s_ns_queue (spe_of s') = true ->
  (forall t, match holds (pcs s t) with
             | Some i => slot_owner (G i) = Some t -> a t = slot_call (G i) -> a' t = slot_call (G' i)
             | None => a' t = a t
             end) ->
  simulates s' G' a'.
Proof.
  intros [[H1 H2 H3 H4 H5 H6] Hc] Hp Hv Hl Hq Ha. split.
  - constructor; auto.
    + intros i Hi. apply Hv, Hi.
    + intros i t Hi. destruct (Hv i Hi) as (_ & -> & Ho). intros Ht. rewrite Hp.
      destruct (H2 i t Hi Ht) as [A B]. split; [done|]. by apply Ho.
    + intros t i. rewrite Hp. intros E. destruct (H3 t i E) as [Hi Ho]. split; [done|].
      by destruct (Hv i Hi) as (_ & -> & _).
    + intros t m st. rewrite Hp. intros E. destruct (H4 t m st E) as [Hi Ho]. split; [done|].
      destruct (Hv _ Hi) as (_ & E' & _). rewrite Ho in E'. by apply no_owner_free.
  - intros t. rewrite Hp. specialize (Hc t). specialize (Ha t). pose proof (H3 t) as Hh.
    destruct (pcs s t) as [| | | |? i|? i|i|i|i|] eqn:E; cbn [task_call holds] in *; try (by rewrite Ha).
    all: apply Ha; [by apply Hh|done].
Qed.
End Inv.
