(* ===== verification/MailboxSim.v ===== *)
(** * The mailbox between the two cores: refinement of the remote calls

    Every step of the system keeps the invariant and is a step of the
    specification, as long as no two tasks are between reading the empty slots
    and taking one. *)

From Stdlib Require Import ZArith List Lia Bool.
From stdpp Require Import base tactics list.
From S2P Require Import Prelude SpmBase BiList SpmPool SpmSched SpmState SpmIpc SpmClient SpmService SpmSvc SpmInv Mailbox MailboxSys.
Import ListNotations.
Local Open Scope Z_scope.

Lemma slot_view_eq x y : v_empty x = v_empty y -> v_pend x = v_pend y -> v_seen x = v_seen y -> v_done x = v_done y ->
  v_reply x = v_reply y -> v_idle x = v_idle y -> v_replied x = v_replied y -> v_waking x = v_waking y ->
  v_ns x = v_ns y -> v_s x = v_s y -> x = y.
Proof. destruct x, y. cbn. by intros; subst. Qed.

Section Sim.
Context {P : Type} `{TfmRpcLaws P}.
Context (NUM_MAILBOX_QUEUE_SLOT spe_mailbox_queue_addr : Z).
Local Abbreviation NUM := NUM_MAILBOX_QUEUE_SLOT.
Context (Hnum : 1 <= NUM <= 32) (Haddr : 0 < spe_mailbox_queue_addr).
Implicit Types s : sys P.

Lemma queue_on_queue f s : queue_of (on_queue f s) = f (queue_of s).
Proof. unfold queue_of, on_queue, set_srv. cbn [srv]. by rewrite get_put. Qed.
Lemma spe_on_queue f s : spe_of (on_queue f s) = spe_of s.
Proof. unfold spe_of, on_queue, set_srv. cbn [srv]. by rewrite get_put. Qed.

(** The view of a slot in another queue. *)
Definition view_in (q : ns_mailbox_queue_t) s (i : Z) : slot_view := {|
  v_empty := slot_in (empty_slots q) i; v_pend := slot_in (pend_slots q) i;
  v_seen := v_seen (view_at s i); v_done := v_done (view_at s i); v_reply := v_reply (view_at s i);
  v_idle := v_idle (view_at s i); v_replied := slot_in (replied_slots q) i;
  v_waking := v_waking (view_at s i); v_ns := ns_slots q i; v_s := v_s (view_at s i) |}.

Lemma view_queue s s' i : spe_of s' = spe_of s -> isr s' = isr s -> spe s' = spe s ->
  view_at s' i = view_in (queue_of s') s i.
Proof. intros E2 E3 E4. unfold view_in, view_at. by rewrite E2, E3, E4. Qed.

Lemma loops_same s s' : isr s' = isr s -> spe s' = spe s -> loops_ok NUM s -> loops_ok NUM s'.
Proof. unfold loops_ok. by intros -> ->. Qed.

(** A change of the queue that other slots do not see. *)
Definition same_at (q q' : ns_mailbox_queue_t) (i : Z) : Prop :=
  slot_in (empty_slots q') i = slot_in (empty_slots q) i /\ slot_in (pend_slots q') i = slot_in (pend_slots q) i /\
  slot_in (replied_slots q') i = slot_in (replied_slots q) i /\ ns_slots q' i = ns_slots q i.

Lemma same_at_view s q i : same_at (queue_of s) q i -> view_in q s i = view_at s i.
Proof. intros (E1 & E2 & E3 & E4). by apply slot_view_eq. Qed.

(** A task changes the queue at its slot. *)
Lemma ok_queue s G a t pc f j g c : simulates NUM s G a -> 0 <= j < NUM ->
  (forall i, 0 <= i < NUM -> i <> j -> same_at (queue_of s) (f (queue_of s)) i) ->
  (forall u, slot_owner (G j) = Some u -> u = t) -> (forall i, holds (pcs s t) = Some i -> i = j) ->
  (slot_ok j (view_at s j) (G j) -> slot_ok j (view_in (f (queue_of s)) s j) g) ->
  (g = Free /\ holds pc = None \/
   slot_owner g = Some t /\ holds pc = Some j /\ owner_at t pc (flags s t) (ns_slots (f (queue_of s)) j) g) ->
  (forall m st, pc <> PStatus m st) ->
  (g = Free \/ forall u m st, pcs s u = PStatus m st -> u <> t -> acquire_select NUM st <> j) ->
  task_call pc (upd j g G) c -> simulates NUM (set_pc t pc (on_queue f s)) (upd j g G) (upd t c a).
Proof using H0.
  intros HS Hj Hq Hown Hold Hg Hn Hpc Hsel Ht. pose proof HS as [[H1 H2 H3 H4 H5 H6] Hc].
  set (s' := set_pc _ _ _).
  assert (Eq : queue_of s' = f (queue_of s)) by apply queue_on_queue.
  assert (Es : spe_of s' = spe_of s) by apply (spe_on_queue f s).
  apply (ok_client NUM s s' G a t pc j g); try done.
  - intros i Hi Hne. rewrite (view_queue s s') by done. rewrite Eq. by apply same_at_view, Hq.
  - by rewrite Es.
  - rewrite (view_queue s s') by done. rewrite Eq. by apply Hg, H1.
  - by rewrite Eq.
Qed.

(** The queue operations, within bounds. *)
Ltac in_bounds := unfold clear_queue_slot_empty, set_queue_slot_empty, set_queue_slot_pend, set_queue_slot_woken,
  clear_queue_slot_woken, is_queue_slot_woken, fill_msg_owner, set_msg_owner;
  repeat match goal with |- context [?i <? NUM] => replace (i <? NUM) with true by lia end.

Ltac slot_cbn := cbn [fst snd set_empty_slots set_pend_slots set_replied_slots on_ns_slot empty_slots pend_slots replied_slots
  ns_slots on_reply set_ns_msg set_is_woken set_owner set_return_val ns_msg ns_reply is_woken r_owner return_val
  v_empty v_pend v_seen v_done v_reply v_idle v_replied v_waking v_ns v_s view_in].

(** Another slot sees no change. *)
Ltac same_slot := intros; in_bounds; unfold same_at; slot_cbn; autorewrite with slots; rewrite ?upd_ne by done;
  repeat match goal with |- context [?j =? ?i] => replace (j =? i) with false by lia end;
  rewrite ?andb_true_r, ?orb_false_r; cbn [negb]; rewrite ?andb_true_r; auto.

(** The slot itself. *)
Ltac own_slot := let K := fresh in intros K; destruct K; in_bounds; constructor; slot_cbn; autorewrite with slots;
  rewrite ?Z.eqb_refl, ?upd_eq; slot_cbn; rewrite ?orb_true_r, ?andb_false_r; auto.

Lemma owner_of_held s G a t i : simulates NUM s G a -> holds (pcs s t) = Some i ->
  0 <= i < NUM /\ slot_owner (G i) = Some t /\
  owner_at t (pcs s t) (flags s t) (ns_slots (queue_of s) i) (G i).
Proof.
  intros [[H1 H2 H3 H4 H5 H6] _] E. destruct (H3 t i E) as [Hi Ho]. by destruct (H2 i t Hi Ho).
Qed.

Lemma upd_same {A} t (a : Z -> A) u : upd t (a t) a u = a u.
Proof. unfold upd. by destruct (Z.eqb_spec u t) as [->|]. Qed.

Lemma calls_ext s G (a a' : Z -> rpc_state) : (forall t, a' t = a t) -> simulates NUM s G a -> simulates NUM s G a'.
Proof. intros E [Ho Hc]. split; [done|]. intros t. rewrite E. apply Hc. Qed.

(** acquire_empty_slot takes a free slot. *)
Lemma sim_take s G a t m st : simulates NUM s G a -> serial s -> pcs s t = PStatus m st ->
  let idx := acquire_select NUM st in
  simulates NUM (set_pc t (PSlot m idx) (on_queue (clear_queue_slot_empty NUM idx) s)) (upd idx (Held t m) G)
    (upd t (ACalled m) a).
Proof using H0 Hnum.
  intros HS Hser E idx. pose proof HS as [[H1 H2 H3 H4 H5 H6] Hc].
  destruct (H4 t m st E) as [Hi HF]. fold idx in Hi, HF.
  apply ok_queue; rewrite ?HF, ?E; try done.
  - same_slot.
  - own_slot.
  - right. done.
  - right. intros u m' st' Eu Hut Ea. apply Hut, Hser; [by rewrite Eu|by rewrite E].
  - cbn [task_call]. by rewrite upd_eq.
Qed.

(** The slot of a task in a given place. *)
Ltac at_slot HS E G i :=
  let Hi := fresh "Hi" in let Ho := fresh "Ho" in let Hat := fresh "Hat" in
  match type of E with pcs _ ?t = _ => destruct (owner_of_held _ _ _ t i HS ltac:(by rewrite E)) as (Hi & Ho & Hat) end;
  rewrite E in Hat; let g := fresh "g" in remember (G i) as g eqn:HG; symmetry in HG;
  destruct g; try done; cbn [slot_owner] in Ho; injection Ho as ->; cbn [owner_at] in Hat.

Lemma sim_fill s G a t m i : simulates NUM s G a -> pcs s t = PSlot m i ->
  exists G', simulates NUM (set_pc t (PFilled m i) (on_queue (fill_msg_owner NUM i m t) s)) G' (upd t (a t) a).
Proof using H0 Hnum.
  intros HS E. at_slot HS E G i. subst m0. exists (upd i (Held t m) G).
  apply ok_queue; rewrite ?HG, ?E; try done.
  - same_slot.
  - by intros u [= <-].
  - by intros k [= <-].
  - own_slot.
  - right. split; [done|]. split; [done|]. in_bounds. slot_cbn. rewrite !upd_eq. done.
  - right. intros u m' st Eu _ Ea. pose proof (mb_select _ _ _ (proj1 HS) u m' st Eu) as [_ HF]. by rewrite Ea, HG in HF.
  - pose proof (proj2 HS t) as Hc. rewrite E in Hc. cbn [task_call] in *. by rewrite Hc, upd_eq, HG.
Qed.

Lemma sim_send s G a t m i : simulates NUM s G a -> pcs s t = PFilled m i ->
  exists G', simulates NUM (set_pc t (PWait i) (on_queue (set_queue_slot_pend NUM i) s)) G' (upd t (a t) a).
Proof using H0 Hnum.
  intros HS E. at_slot HS E G i. destruct Hat as (-> & Hm & How). exists (upd i (Pending t m0) G).
  apply ok_queue; rewrite ?HG, ?E; try done.
  - same_slot.
  - by intros u [= <-].
  - by intros k [= <-].
  - own_slot. by split.
  - right. done.
  - right. intros u m' st Eu _ Ea. pose proof (mb_select _ _ _ (proj1 HS) u m' st Eu) as [_ HF]. by rewrite Ea, HG in HF.
  - pose proof (proj2 HS t) as Hc. rewrite E in Hc. cbn [task_call] in *. by rewrite Hc, upd_eq, HG.
Qed.

Lemma sim_woken s G a t i : simulates NUM s G a -> pcs s t = PCheck i -> is_queue_slot_woken NUM i (queue_of s) = true ->
  exists G', simulates NUM (set_pc t (PReplied i) (on_queue (clear_queue_slot_woken NUM i) s)) G' (upd t (a t) a).
Proof using H0 Hnum.
  intros HS E Hw. destruct (owner_of_held s G a t i HS ltac:(by rewrite E)) as (Hi & _ & _).
  pose proof (mb_slots _ _ _ (proj1 HS) i Hi) as Hsl. unfold is_queue_slot_woken in Hw.
  replace (i <? NUM) with true in Hw by lia. pose proof (sl_woken _ _ _ Hsl) as Hw'. cbn [v_ns view_at] in Hw'.
  rewrite Hw in Hw'. clear Hi. at_slot HS E G i. exists (upd i (Read t v) G).
  apply ok_queue; rewrite ?HG, ?E; try done.
  - same_slot.
  - by intros u [= <-].
  - by intros k [= <-].
  - own_slot.
  - right. done.
  - right. intros u m' st Eu _ Ea. pose proof (mb_select _ _ _ (proj1 HS) u m' st Eu) as [_ HF]. by rewrite Ea, HG in HF.
  - pose proof (proj2 HS t) as Hc. rewrite E in Hc. cbn [task_call] in *. by rewrite Hc, upd_eq, HG.
Qed.

Lemma sim_rx s G a t i : simulates NUM s G a -> pcs s t = PReplied i ->
  let r := mailbox_rx_client_reply NUM i (queue_of s) in
  exists G', simulates NUM (set_pc t (PExit MAILBOX_SUCCESS (Some (fst r))) (on_queue (fun _ => snd r) s)) G' (upd t (a t) a).
Proof using H0 Hnum.
  intros HS E. at_slot HS E G i. exists (upd i Free G).
  pose proof (sl_data _ _ _ (mb_slots _ _ _ (proj1 HS) i Hi)) as Hv. rewrite HG in Hv. cbn [data_ok v_ns view_at] in Hv.
  apply ok_queue; rewrite ?HG, ?E; try done.
  - unfold mailbox_rx_client_reply. same_slot.
  - by intros u [= <-].
  - by intros k [= <-].
  - unfold mailbox_rx_client_reply. own_slot.
  - by left.
  - by left.
  - pose proof (proj2 HS t) as Hc. rewrite E in Hc. cbn [task_call slot_call] in *. rewrite Hc, HG. 
    unfold mailbox_rx_client_reply. cbn [fst]. by rewrite Hv.
Qed.

(** Nothing but the place of a task, and its flag, changes. *)
Lemma sim_move s G a t pc c fl se : simulates NUM s G a ->
  holds pc = holds (pcs s t) -> (forall u, u <> t -> fl u = flags s u) ->
  (forall i, holds pc = Some i -> owner_at t (pcs s t) (flags s t) (ns_slots (queue_of s) i) (G i) ->
     owner_at t pc (fl t) (ns_slots (queue_of s) i) (G i)) ->
  (forall m st, pc = PStatus m st -> 0 <= acquire_select NUM st < NUM /\ G (acquire_select NUM st) = Free) ->
  task_call pc G c ->
  simulates NUM {| srv := srv s; sem := se; flags := fl; pcs := upd t pc (pcs s); isr := isr s; spe := spe s |} G (upd t c a).
Proof using H0.
  intros HS Hh Hf Ho Hs Ht. pose proof HS as [[H1 H2 H3 H4 H5 H6] Hc].
  by apply (ok_task NUM s _ G a t pc c).
Qed.

(** The check fails: the task waits again. *)
Lemma sim_wait_again s G a t i : simulates NUM s G a -> pcs s t = PCheck i -> is_queue_slot_woken NUM i (queue_of s) = false ->
  simulates NUM (set_pc t (PWait i) (on_queue (fun _ => queue_of s) s)) G (upd t (a t) a).
Proof using H0 Hnum.
  intros HS E Hw. destruct (owner_of_held s G a t i HS ltac:(by rewrite E)) as (Hi & Ho & Hat).
  pose proof HS as [[H1 H2 H3 H4 H5 H6] Hc]. pose proof (sl_woken _ _ _ (H1 i Hi)) as Hw'.
  unfold is_queue_slot_woken in Hw. replace (i <? NUM) with true in Hw by lia. cbn [v_ns view_at] in Hw'. rewrite Hw in Hw'.
  specialize (Hc t). rewrite E in Hc. set (s' := set_pc _ _ _).
  assert (Eq : queue_of s' = queue_of s) by apply (queue_on_queue (fun _ => queue_of s)).
  assert (Es : spe_of s' = spe_of s) by apply (spe_on_queue (fun _ => queue_of s)).
  apply (ok_task NUM s s' G a t (PWait i)); rewrite ?E; try done.
  - intros k Hk. rewrite (view_queue s s') by done. by rewrite Eq.
  - by rewrite Es.
  - intros k [= <-]. by destruct (G i).
Qed.

(** Every step of a task. *)
Lemma sim_client s G a t l s' : simulates NUM s G a -> serial s -> client_step NUM t s = Some (l, s') ->
  exists G' a', rpc_step a l a' /\ simulates NUM s' G' a'.
Proof using H0 Hnum.
  intros HS Hser. unfold client_step. pose proof (proj2 HS t) as Hc. pose proof HS as [[H1 H2 H3 H4 H5 H6] _].
  assert (Htau : forall s'' c, a t = c -> (exists G', simulates NUM s'' G' (upd t c a)) ->
    exists G' a', rpc_step a LTau a' /\ simulates NUM s'' G' a').
  { intros s'' c <- [G' HG]. exists G', a. split; [constructor|]. eapply calls_ext; [|exact HG].
    intros u. symmetry. apply upd_same. }
  destruct (pcs s t) as [|m|m|m st|m i|m i|i|i|i|ret r] eqn:E; cbn [task_call] in Hc; [done| | | | | | | | |].
  - destruct (0 <? sem s); [|done]. intros [= <- <-]. apply (Htau _ _ Hc). exists G.
    by apply (sim_move s G a t (PLocked m)); rewrite ?E.
  - destruct (Z.geb_spec (acquire_select NUM (empty_slots (queue_of s))) NUM) as [Hge|Hlt]; intros [= <- <-];
      apply (Htau _ _ Hc); exists G.
    + by apply (sim_move s G a t (PExit MAILBOX_QUEUE_FULL None)); rewrite ?E; try done; split; [|exists m].
    + apply (sim_move s G a t (PStatus m (empty_slots (queue_of s)))); rewrite ?E; try done.
      intros m' st [= <- <-]. destruct (acquire_select_spec NUM (empty_slots (queue_of s)) Hnum Hlt) as [Hp Hin].
      assert (Hr : 0 <= acquire_select NUM (empty_slots (queue_of s)) < NUM) by done.
      split; [done|]. pose proof (sl_empty _ _ _ (H1 _ Hr)) as He.
      cbn [view_at v_empty] in He. rewrite Hin in He. by destruct (G _).
  - intros [= <- <-]. apply (Htau _ _ Hc). eexists. by apply (sim_take s G a t m st).
  - intros [= <- <-]. apply (Htau _ _ eq_refl). by apply (sim_fill s G).
  - intros [= <- <-]. apply (Htau _ _ eq_refl). by apply (sim_send s G a t m).
  - destruct (flags s t) eqn:Ef; [|done]. intros [= <- <-]. apply (Htau _ _ eq_refl). exists G.
    apply (sim_move s G a t (PCheck i)); rewrite ?E; try done.
    + intros u Hu. by apply upd_ne.
    + intros k [= <-]. by destruct (G i).
  - unfold mailbox_wait_reply_signal. destruct (is_queue_slot_woken NUM i (queue_of s)) eqn:Ew; intros [= <- <-];
      apply (Htau _ _ eq_refl); [by apply (sim_woken s G)|].
    exists G. by apply sim_wait_again.
  - destruct (mailbox_rx_client_reply NUM i (queue_of s)) as [v q] eqn:Er. intros [= <- <-]. apply (Htau _ _ eq_refl).
    pose proof (sim_rx s G a t i HS E) as Hx. by rewrite Er in Hx.
  - intros [= <- <-]. exists G, (upd t AIdle a). split.
    + destruct r as [v|]; [destruct Hc as [Hc ->]; by constructor|].
      destruct Hc as [-> [m Hm]]. apply (A_refused _ _ m); [done|by left].
    + by apply (sim_move s G a t PIdle); rewrite ?E.
Qed.

(** ** The interrupt handler *)
Definition set_waking (g : slot_state) : slot_state := match g with Replied t v => Waking t v | _ => g end.

Lemma owner_at_flag t pc (b b' : bool) n g : (b = true -> b' = true) -> owner_at t pc b n g -> owner_at t pc b' n g.
Proof. destruct g, pc; cbn; auto. Qed.

Lemma on_queue_same f s : isr (on_queue f s) = isr s /\ spe (on_queue f s) = spe s /\ flags (on_queue f s) = flags s /\
  pcs (on_queue f s) = pcs s.
Proof. done. Qed.

(** A step of the handler or the secure core that leaves most slots alone. *)
Lemma ok_isr s s' G G' a : simulates NUM s G a -> (forall u, pcs s' u = pcs s u) ->
  (forall u, flags s u = true -> flags s' u = true) -> spe_of s' = spe_of s -> loops_ok NUM s' ->
  (forall i, 0 <= i < NUM -> slot_ok i (view_at s i) (G i) -> slot_ok i (view_at s' i) (G' i)) ->
  (forall i, 0 <= i < NUM -> slot_owner (G' i) = slot_owner (G i) /\ slot_call (G' i) = slot_call (G i)) ->
  (forall i t, 0 <= i < NUM -> slot_owner (G i) = Some t -> slot_ok i (view_at s i) (G i) ->
     owner_at t (pcs s t) (flags s t) (ns_slots (queue_of s) i) (G i) ->
     owner_at t (pcs s t) (flags s' t) (ns_slots (queue_of s') i) (G' i)) ->
  simulates NUM s' G' a.
Proof.
  intros HS Hp Hf Hs Hl Hv HG Ho. pose proof HS as [[H1 H2 H3 H4 H5 H6] Hc].
  apply (ok_views NUM s s' G G' a); try done.
  - intros i Hi. split; [by apply Hv, H1|]. split; [by apply HG|]. intros t Ht. apply Ho; auto.
  - by rewrite Hs.
  - intros t. destruct (holds (pcs s t)) as [i|] eqn:E; [|done]. intros _. destruct (H3 t i E) as [Hi _].
    by destruct (HG i Hi) as [_ ->].
Qed.

Lemma sim_isr_begin s G a : simulates NUM s G a -> isr s = None -> exists G', simulates NUM (isr_step NUM s) G' a.
Proof using H0 Hnum.
  intros HS E. pose proof HS as [[H1 H2 H3 H4 H5 H6] Hc]. unfold isr_step. rewrite E.
  set (f := clear_queue_slot_all_replied _). exists (fun i => set_waking (G i)).
  match goal with |- simulates _ ?x _ _ => set (s' := x) end.
  assert (Eq : queue_of s' = f (queue_of s)) by (unfold s'; destruct (_ =? 0); apply queue_on_queue).
  assert (Es : spe_of s' = spe_of s) by (unfold s'; destruct (_ =? 0); apply spe_on_queue).
  assert (Ew : forall i, v_waking (view_at s' i) = slot_in (replied_slots (queue_of s)) i).
  { intros i. unfold s'. destruct (Z.eqb_spec (replied_slots (queue_of s)) 0) as [->|]; [|done].
    cbn [view_at v_waking isr on_queue set_srv]. rewrite E. by autorewrite with slots. }
  assert (Ek : spe s' = spe s) by (unfold s'; by destruct (_ =? 0)).
  apply (ok_isr s s' G); try done.
  - intros u. unfold s'. by destruct (_ =? 0).
  - intros u. unfold s'. by destruct (_ =? 0).
  - split; [|rewrite Ek; apply H5]. intros idx st. unfold s'. destruct (_ =? 0); cbn [isr set_isr on_queue set_srv].
    + by rewrite E.
    + intros [= <- <-]. split; [lia|]. intros i. lia.
  - intros i Hi [K1 K2 K3 K4 K5 K6 K7 K8 K9 K10]. cbn in K1, K2, K3, K4, K5, K6, K7, K8, K9, K10. rewrite E in K8.
    constructor; rewrite ?Ew; cbn; rewrite ?Eq, ?Es, ?Ek; unfold f, clear_queue_slot_all_replied; slot_cbn;
      autorewrite with slots; rewrite ?K7; destruct (G i); done.
  - intros i Hi. by destruct (G i).
  - intros i t Hi Ht _ Ho. rewrite Eq. unfold f. slot_cbn. cbn [clear_queue_slot_all_replied set_replied_slots ns_slots].
    replace (flags s' t) with (flags s t) by (unfold s'; by destruct (_ =? 0)). destruct (G i); done.
Qed.

(** The loop passes a slot that is not replied, or ends. *)
Lemma sim_isr_skip s G a idx st x : simulates NUM s G a -> isr s = Some (idx, st) ->
  x = Some (idx + 1, st) /\ slot_in st idx = false /\ idx < NUM \/ x = None /\ NUM <= idx ->
  simulates NUM (set_isr x s) G a.
Proof.
  intros HS E Hx. pose proof HS as [[H1 H2 H3 H4 [H5 H5'] H6] Hc]. destruct (H5 idx st E) as [Hr Hlow].
  assert (Ew : forall i, 0 <= i < NUM -> view_at (set_isr x s) i = view_at s i).
  { intros i Hi. apply slot_view_eq; try done. cbn. rewrite E. destruct Hx as [(-> & _ & _)|[-> Hge]]; [done|].
    symmetry. apply Hlow. lia. }
  apply (ok_isr s (set_isr x s) G); try done.
  - split; [|apply H5']. intros idx' st' E'. cbn [isr set_isr] in E'. subst x.
    destruct Hx as [([= -> ->] & Hf & Hlt)|[? _]]; [|done]. split; [lia|]. intros i Hi.
    destruct (Z.eq_dec i idx) as [->|]; [done|]. apply Hlow. lia.
  - intros i Hi. by rewrite Ew.
Qed.

(** The loop wakes the owner of a slot. *)
Lemma sim_isr_wake s G a idx st : simulates NUM s G a -> isr s = Some (idx, st) -> idx < NUM -> slot_in st idx = true ->
  exists G', simulates NUM (isr_step NUM s) G' a.
Proof using H0 Hnum.
  intros HS E Hlt Hin. pose proof HS as [[H1 H2 H3 H4 [H5 H5'] H6] Hc]. destruct (H5 idx st E) as [Hr Hlow].
  unfold isr_step. rewrite E, Hin. replace (idx <? NUM) with true by lia. cbn [negb].
  set (f := set_queue_slot_woken NUM idx). set (o := r_owner _). set (st' := clear_bits st (slot_bit idx)).
  match goal with |- exists _, simulates _ ?x _ _ => set (s' := x) end.
  pose proof (H1 idx ltac:(lia)) as Hsl. pose proof (sl_waking _ _ _ Hsl) as Hw. cbn in Hw. rewrite E, Hin in Hw.
  destruct (G idx) eqn:HG; try done. pose proof (sl_data _ _ _ Hsl) as [Hrv How].
  assert (Ho : o = t).
  { unfold o. cbn [queue_of srv set_flag on_queue set_srv]. fold (queue_of (on_queue f s)).
    rewrite (queue_on_queue f s). unfold f. in_bounds. slot_cbn. rewrite upd_eq. apply How. }
  assert (Eq : queue_of s' = f (queue_of s)) by (unfold s'; destruct (_ =? 0); apply (queue_on_queue f)).
  assert (Es : spe_of s' = spe_of s) by (unfold s'; destruct (_ =? 0); apply (spe_on_queue f)).
  assert (Ew : forall i, v_waking (view_at s' i) = slot_in st' i).
  { intros i. unfold s'. destruct (Z.eqb_spec st' 0) as [E0|]; [|done]. cbn. rewrite E0. by autorewrite with slots. }
  assert (Ek : spe s' = spe s) by (unfold s'; by destruct (_ =? 0)).
  assert (Ef : forall u, flags s' u = upd t true (flags s) u).
  { intros u. unfold s'. destruct (_ =? 0); cbn [flags set_isr set_flag on_queue set_srv]; by rewrite Ho. }
  exists (upd idx (Woken t v) G). apply (ok_isr s s' G); try done.
  - intros u. unfold s'. by destruct (_ =? 0).
  - intros u Hu. rewrite Ef. unfold upd. by destruct (u =? t).
  - split; [|rewrite Ek; apply H5']. intros i' x. unfold s'. destruct (_ =? 0); cbn [isr set_isr]; [done|].
    intros [= <- <-]. split; [lia|]. intros i Hi. unfold st'. autorewrite with slots.
    destruct (Z.eqb_spec idx i) as [->|]; [apply andb_false_r|]. rewrite Hlow by lia. done.
  - intros i Hi [K1 K2 K3 K4 K5 K6 K7 K8 K9 K10]. cbn in K1, K2, K3, K4, K5, K6, K7, K8, K9, K10. rewrite E in K8.
    destruct (Z.eq_dec i idx) as [->|Hne].
    + rewrite upd_eq, HG in *. constructor; rewrite ?Ew; cbn; rewrite ?Eq, ?Es, ?Ek; unfold f, st'; in_bounds; slot_cbn;
        rewrite ?upd_eq; autorewrite with slots; rewrite ?Z.eqb_refl, ?andb_false_r; done.
    + rewrite upd_ne by done. constructor; rewrite ?Ew; cbn; rewrite ?Eq, ?Es, ?Ek; unfold f, st'; in_bounds; slot_cbn;
        rewrite ?upd_ne by done; autorewrite with slots; replace (idx =? i) with false by lia; rewrite ?andb_true_r; done.
  - intros i Hi. unfold upd. destruct (Z.eqb_spec i idx) as [->|]; [by rewrite HG|done].
  - intros i u Hi Hu _ Hat. rewrite Eq, Ef. unfold f. in_bounds. slot_cbn.
    destruct (Z.eq_dec i idx) as [->|Hne].
    + rewrite !upd_eq, HG in *. injection Hu as ->. rewrite upd_eq. destruct (pcs s u); done.
    + rewrite !(upd_ne idx) by done. eapply owner_at_flag; [|exact Hat]. unfold upd. by destruct (u =? t).
Qed.

Lemma sim_isr s G a : simulates NUM s G a -> exists G', simulates NUM (isr_step NUM s) G' a.
Proof using H0 Hnum.
  intros HS. destruct (isr s) as [[idx st]|] eqn:E; [|by apply (sim_isr_begin s G)].
  destruct (Z.ltb_spec idx NUM) as [Hlt|Hge].
  - destruct (slot_in st idx) eqn:Hin; [by apply (sim_isr_wake s G a idx st)|]. exists G.
    unfold isr_step. rewrite E, Hin. replace (idx <? NUM) with true by lia. cbn [negb].
    by apply (sim_isr_skip s G a idx st); [| |left].
  - exists G. unfold isr_step. rewrite E. replace (idx <? NUM) with false by lia.
    by apply (sim_isr_skip s G a idx st); [| |right].
Qed.

(** ** The secure core *)
Lemma sbind_frame {A B} (m : SPM P A) (f : A -> SPM P B) p : the_mailbox (snd (m p)) = the_mailbox p ->
  (forall a p', m p = (Done a, p') -> the_mailbox (snd (f a p')) = the_mailbox p') ->
  the_mailbox (snd (sbind m f p)) = the_mailbox p.
Proof.
  intros Hm Hf. unfold sbind. destruct (m p) as [[a| |] p'] eqn:E; try done. rewrite (Hf a p' eq_refl). done.
Qed.

Lemma dispatch_frame ct params cid psa (p : P) :
  the_mailbox (snd (tfm_mailbox_dispatch ct params cid psa p)) = the_mailbox p.
Proof using H0.
  unfold tfm_mailbox_dispatch. repeat (destruct (ct =? _)); try (apply sbind_frame; [|by intros]); try done;
    [apply framework_version_frame|apply version_frame|apply connect_frame|apply call_frame|apply close_frame].
Qed.

(** The slots but one, and the status of the other side, are as before. *)
Record other_slots (idx : Z) (w w' : mbox) : Prop := {
  os_empty : empty_slots (ns_queue w') = empty_slots (ns_queue w);
  os_pend : pend_slots (ns_queue w') = pend_slots (ns_queue w);
  os_replied j : 0 <= j < NUM -> j <> idx ->
    slot_in (replied_slots (ns_queue w')) j = slot_in (replied_slots (ns_queue w)) j;
  os_queue : s_ns_queue (spe_mailbox_queue w') = s_ns_queue (spe_mailbox_queue w);
  os_ns j : j <> idx -> ns_slots (ns_queue w') j = ns_slots (ns_queue w) j;
  os_s j : j <> idx -> s_slots (spe_mailbox_queue w') j = s_slots (spe_mailbox_queue w) j;
  os_idle j : 0 <= j < NUM -> j <> idx ->
    slot_in (s_empty_slots (spe_mailbox_queue w')) j = slot_in (s_empty_slots (spe_mailbox_queue w)) j
}.

(** What the loop does with a pending slot. *)
Inductive slot_handled (idx : Z) (w w' : mbox) (rs : Z) : Z -> Prop :=
| H_answered v :
    ns_slots (ns_queue w') idx = on_reply (set_return_val v) (ns_slots (ns_queue w) idx) ->
    slot_in (s_empty_slots (spe_mailbox_queue w')) idx = true ->
    slot_handled idx w w' rs (Z.lor rs (slot_bit idx))
| H_accepted :
    ns_slots (ns_queue w') idx = ns_slots (ns_queue w) idx ->
    slot_in (s_empty_slots (spe_mailbox_queue w')) idx = false ->
    s_slots (spe_mailbox_queue w') idx = {| s_msg := ns_msg (ns_slots (ns_queue w) idx); ns_slot_idx := idx; msg_handle := idx + 1 |} ->
    slot_handled idx w w' rs rs
| H_dropped :
    ns_slots (ns_queue w') idx = ns_slots (ns_queue w) idx ->
    slot_in (s_empty_slots (spe_mailbox_queue w')) idx = true ->
    slot_handled idx w w' rs rs.

(** The slot when its message is dispatched. *)
Definition loaded (idx : Z) (w : mbox) : mbox :=
  on_spe (set_cur_proc idx) (on_spe (on_s_slot idx (set_msg_handle (idx + 1)))
    (on_spe (on_s_slot idx (set_s_msg (ns_msg (ns_slots (ns_queue w) idx))))
      (on_spe (fun q => on_s_slot idx (set_ns_slot_idx idx) (clear_spe_queue_empty_status NUM idx q)) w))).

Lemma loaded_slot idx w : 
  s_slots (spe_mailbox_queue (loaded idx w)) idx =
    {| s_msg := ns_msg (ns_slots (ns_queue w) idx); ns_slot_idx := idx; msg_handle := idx + 1 |}.
Proof. unfold loaded. cbn. by rewrite !upd_eq. Qed.

(** The body of the loop from the dispatch on. *)
Definition dispatched (idx psa rs : Z) (m : mailbox_msg_t) : SPM P (Z * Z) :=
  sbind (tfm_mailbox_dispatch (m_call_type m) (m_params m) (m_client_id m) psa) (fun '(result, psa') =>
    if negb (result =? MAILBOX_SUCCESS) then
      sbind (on_mailbox (mailbox_clean_queue_slot NUM idx)) (fun _ => sret (psa', rs))
    else
      sbind (on_mailbox (sput (on_spe (set_cur_proc NUM)))) (fun _ =>
        sbind (reply_at_once NUM idx (m_call_type m) psa' rs) (fun rs' => sret (psa', rs')))).

Lemma handle_slot_dispatch pend idx psa rs (p : P) : 0 <= idx < NUM -> slot_in pend idx = true ->
  handle_slot NUM pend idx psa rs p =
  dispatched idx psa rs (ns_msg (ns_slots (ns_queue (the_mailbox p)) idx)) (put_mailbox (loaded idx (the_mailbox p)) p).
Proof using H0 Hnum.
  intros Hi Hin. unfold handle_slot. rewrite Hin. cbn [negb]. unfold get_spe_mailbox_msg_handle.
  replace (idx >=? NUM) with false by lia.
  unfold sbind at 1. unfold on_mailbox at 1, sput at 1. unfold sbind at 1. unfold on_mailbox at 1, sput at 1.
  rewrite get_put. unfold sbind at 1, sget at 1. rewrite get_put. cbn [check_mailbox_msg Z.eqb MAILBOX_SUCCESS negb].
  unfold sbind at 1. unfold on_mailbox at 1, sput at 1. unfold sbind at 1. unfold on_mailbox at 1, sput at 1.
  rewrite !get_put, !put_put. cbn [on_spe on_s_slot spe_mailbox_queue s_slots ns_queue]. rewrite !upd_eq. done.
Qed.

(** The run of the body up to the reply. *)
Lemma handle_slot_run pend idx psa rs (p p' : P) psa' rs' : 0 <= idx < NUM -> slot_in pend idx = true ->
  handle_slot NUM pend idx psa rs p = (Done (psa', rs'), p') ->
  (exists p1, the_mailbox p1 = loaded idx (the_mailbox p) /\ rs' = rs /\
     on_mailbox (mailbox_clean_queue_slot NUM idx) p1 = (Done tt, p')) \/
  (exists p1, the_mailbox p1 = on_spe (set_cur_proc NUM) (loaded idx (the_mailbox p)) /\
     reply_at_once NUM idx (m_call_type (ns_msg (ns_slots (ns_queue (the_mailbox p)) idx))) psa' rs p1 = (Done rs', p')).
Proof using H0 Hnum.
  intros Hi Hin E. rewrite handle_slot_dispatch in E by done. unfold dispatched in E.
  match type of E with sbind (tfm_mailbox_dispatch ?c ?q ?i ?r) _ ?x = _ =>
    pose proof (dispatch_frame c q i r x) as Hf end. rewrite get_put in Hf.
  unfold sbind at 1 in E. destruct (tfm_mailbox_dispatch _ _ _ _ _) as [[[result psa1]| |] p2]; try done.
  cbn [snd] in Hf. destruct (negb (result =? MAILBOX_SUCCESS)).
  - left. exists p2. split; [done|]. unfold sbind in E. destruct (on_mailbox _ p2) as [[[]| |] p3]; try done; by injection E as <- <- <-.
  - right. unfold sbind at 1 in E. unfold on_mailbox at 1, sput at 1 in E.
    match type of E with sbind _ _ ?x = _ => set (p3 := x) in E end. exists p3.
    split; [unfold p3; by rewrite get_put, Hf|]. unfold sbind, sret in E.
    destruct (reply_at_once _ _ _ _ _ p3) as [[rs1| |] p4] eqn:Er; try done; by injection E as <- <- <-.
Qed.

Lemma clean_run idx w : 0 <= idx < NUM -> mailbox_clean_queue_slot NUM idx w =
  (Done tt, on_spe (fun q => set_spe_queue_empty_status NUM idx (on_s_slot idx (fun _ => zero_secure_slot) q)) w).
Proof. intros Hi. unfold mailbox_clean_queue_slot. by replace (idx >=? NUM) with false by lia. Qed.

Lemma direct_reply_run idx r w : 0 <= idx < NUM -> ns_slot_idx (s_slots (spe_mailbox_queue w) idx) = idx ->
  mailbox_direct_reply NUM idx r w =
  (Done tt, on_spe (fun q => set_spe_queue_empty_status NUM idx (on_s_slot idx (fun _ => zero_secure_slot) q))
     (on_ns (on_ns_slot idx (on_reply (set_return_val (s32 r)))) w)).
Proof.
  intros Hi Hs. unfold mailbox_direct_reply, sbind, sget, sput, get_nspe_reply_addr.
  replace (idx >=? NUM) with false by lia. cbn [deref]. rewrite Hs. by apply clean_run.
Qed.

(** An operation on the secure side at one slot. *)
Ltac at_other := constructor; try done; intros; cbn; unfold clear_spe_queue_empty_status, set_spe_queue_empty_status;
  repeat match goal with |- context [?i <? NUM] => replace (i <? NUM) with true by lia end; cbn;
  autorewrite with slots; rewrite ?upd_ne by done;
  repeat match goal with |- context [?j =? ?i] => replace (j =? i) with false by lia end;
  rewrite ?orb_false_r, ?andb_true_r; done.

Lemma loaded_other idx w : 0 <= idx < NUM -> other_slots idx w (loaded idx w).
Proof using Hnum. intros Hi. unfold loaded. at_other. Qed.

Lemma other_trans idx w w1 w2 : other_slots idx w w1 -> other_slots idx w1 w2 -> other_slots idx w w2.
Proof.
  intros [A1 A2 A3 A4 A5 A6 A7] [B1 B2 B3 B4 B5 B6 B7]. constructor; try congruence; intros.
  - by rewrite B3, A3.
  - by rewrite B5, A5.
  - by rewrite B6, A6.
  - by rewrite B7, A7.
Qed.

Lemma on_mailbox_run {A} (m : SPM mbox A) (p : P) r w : m (the_mailbox p) = (r, w) -> on_mailbox m p = (r, put_mailbox w p).
Proof. intros E. unfold on_mailbox. by rewrite E. Qed.

(** The direct reply, and the cleaning of a slot. *)
Lemma reply_handled idx v w w1 rs : 0 <= idx < NUM -> other_slots idx w w1 -> ns_slots (ns_queue w1) idx = ns_slots (ns_queue w) idx ->
  let w' := on_spe (fun q => set_spe_queue_empty_status NUM idx (on_s_slot idx (fun _ => zero_secure_slot) q))
    (on_ns (on_ns_slot idx (on_reply (set_return_val v))) w1) in
  other_slots idx w w' /\ slot_handled idx w w' rs (Z.lor rs (slot_bit idx)) /\
  replied_slots (ns_queue w') = replied_slots (ns_queue w1).
Proof using Hnum.
  intros Hi Ho Hn w'. split; [apply (other_trans idx w w1); [done|unfold w'; at_other]|]. split; [|done]. apply (H_answered _ _ _ _ v).
  - unfold w'. cbn. by rewrite upd_eq, Hn.
  - unfold w', set_spe_queue_empty_status. replace (idx <? NUM) with true by lia. cbn. autorewrite with slots.
    by rewrite Z.eqb_refl, orb_true_r.
Qed.

Lemma handle_slot_spec pend idx psa rs (p p' : P) psa' rs' : 0 <= idx < NUM -> slot_in pend idx = true ->
  handle_slot NUM pend idx psa rs p = (Done (psa', rs'), p') ->
  other_slots idx (the_mailbox p) (the_mailbox p') /\ slot_handled idx (the_mailbox p) (the_mailbox p') rs rs' /\
  replied_slots (ns_queue (the_mailbox p')) = replied_slots (ns_queue (the_mailbox p)).
Proof using H0 Hnum.
  intros Hi Hin E. pose proof (loaded_other idx (the_mailbox p) Hi) as Hl. set (w := the_mailbox p) in *.
  destruct (handle_slot_run _ _ _ _ _ _ _ _ Hi Hin E) as [(p1 & E1 & -> & Ec)|(p1 & E1 & Er)].
  - rewrite (on_mailbox_run _ _ _ _ (clean_run idx _ Hi)) in Ec. injection Ec as <-. rewrite get_put, E1.
    split; [apply (other_trans idx w (loaded idx w)); [done|at_other]|]. split; [|done]. apply H_dropped; [done|].
    unfold set_spe_queue_empty_status. replace (idx <? NUM) with true by lia. cbn. autorewrite with slots.
    by rewrite Z.eqb_refl, orb_true_r.
  - set (w1 := on_spe (set_cur_proc NUM) (loaded idx w)) in *.
    assert (H1 : other_slots idx w w1) by (apply (other_trans idx w (loaded idx w)); [done|unfold w1; at_other]).
    assert (Hs : s_slots (spe_mailbox_queue w1) idx = _) by apply (loaded_slot idx w).
    assert (Hreply : forall v, sbind (on_mailbox (mailbox_direct_reply NUM idx v))
        (fun _ => sret (Z.lor rs (slot_bit idx))) p1 = (Done rs', p') ->
      other_slots idx w (the_mailbox p') /\ slot_handled idx w (the_mailbox p') rs rs' /\
        replied_slots (ns_queue (the_mailbox p')) = replied_slots (ns_queue w)).
    { intros v. unfold sbind. rewrite (on_mailbox_run _ p1 _ _ (direct_reply_run idx v (the_mailbox p1) Hi ltac:(rewrite E1; exact (f_equal ns_slot_idx Hs)))).
      intros [= <- <-]. rewrite get_put, E1. exact (reply_handled idx (s32 v) w w1 rs Hi H1 eq_refl). }
    assert (Haccept : sret rs p1 = (Done rs', p') ->
      other_slots idx w (the_mailbox p') /\ slot_handled idx w (the_mailbox p') rs rs' /\
        replied_slots (ns_queue (the_mailbox p')) = replied_slots (ns_queue w)).
    { intros [= <- <-]. rewrite E1. split; [done|]. split; [|done]. apply H_accepted; [done| |done].
      unfold w1, loaded, clear_spe_queue_empty_status. replace (idx <? NUM) with true by lia. cbn. autorewrite with slots.
      by rewrite Z.eqb_refl, andb_false_r. }
    unfold reply_at_once in Er. destruct (_ || _); [by apply Hreply in Er|]. destruct (_ || _); [|by apply Haccept].
    destruct (negb _); [by apply Hreply in Er|by apply Haccept].
Qed.

Definition set_taken (g : slot_state) : slot_state := match g with Pending t m => Taken t m | _ => g end.
Definition set_handled (g : slot_state) : slot_state :=
  match g with Answering t v => Replied t v | Accepted t m => Served t m | Dropped t m => Lost t m | _ => g end.

Lemma sim_spe_begin s G a psa : simulates NUM s G a -> spe s = SIdle ->
  simulates NUM (set_spe (SLoop 0 (pend_slots (queue_of s)) psa 0) s) (fun i => set_taken (G i)) a.
Proof using Hnum.
  intros HS E. pose proof HS as [[H1 H2 H3 H4 [H5 H5'] H6] Hc].
  apply (ok_isr s _ G); try done.
  - split; [done|]. intros idx pend psa' rs [= <- <- <- <-]. lia.
  - intros i Hi [K1 K2 K3 K4 K5 K6 K7 K8 K9 K10]. cbn in K1, K2, K3, K4, K5, K6, K7, K8, K9, K10. rewrite E in K3, K4, K5.
    constructor; cbn; autorewrite with slots; rewrite ?K2; destruct (G i); try done; intros _; by replace (i <? 0) with false by lia.
  - intros i Hi. by destruct (G i).
  - intros i t Hi Ht _ Ho. by destruct (G i).
Qed.

Lemma sim_spe_end s G a idx pend psa rs p' : simulates NUM s G a -> spe s = SLoop idx pend psa rs -> NUM <= idx ->
  handle_end pend rs (srv s) = (Done tt, p') ->
  simulates NUM (set_spe SIdle (set_srv p' s)) (fun i => set_handled (G i)) a.
Proof using H0 Hnum.
  intros HS E Hge. unfold handle_end. pose proof HS as [[H1 H2 H3 H4 [H5 H5'] H6] Hc].
  set (f := fun q => set_nspe_queue_replied_status rs (clear_nspe_queue_pend_status pend q)).
  intros [= <-]. set (s' := set_spe _ _).
  assert (Eq : queue_of s' = f (queue_of s)) by (unfold queue_of, s'; cbn [srv set_spe set_srv]; by rewrite get_put).
  assert (Es : spe_of s' = spe_of s) by (unfold spe_of, s'; cbn [srv set_spe set_srv]; by rewrite get_put).
  apply (ok_isr s s' G); try done.
  - intros i Hi [K1 K2 K3 K4 K5 K6 K7 K8 K9 K10]. cbn in K1, K2, K3, K4, K5, K6, K7, K8, K9, K10. rewrite E in K3, K4, K5.
    assert (Hd : is_seen (G i) = true -> is_done (G i) = true) by (intros Hs; rewrite <- K4 by done; lia).
    constructor; cbn; rewrite ?Eq, ?Es; unfold f, set_nspe_queue_replied_status, clear_nspe_queue_pend_status; slot_cbn;
      autorewrite with slots; rewrite ?K1, ?K2, ?K3, ?K5, ?K6, ?K7, ?K8, ?K9; destruct (G i); try done; by discriminate (Hd eq_refl).
  - intros i Hi. by destruct (G i).
  - intros i t Hi Ht _ Ho. rewrite Eq. by destruct (G i).
Qed.

(** The secure core changes one slot. *)
Lemma ok_spe s s' G a a' idx g : simulates NUM s G a -> 0 <= idx < NUM ->
  (forall u, pcs s' u = pcs s u) -> (forall u, flags s' u = flags s u) -> loops_ok NUM s' -> 
  other_slots idx (the_mailbox (srv s)) (the_mailbox (srv s')) -> isr s' = isr s ->
  (forall i, 0 <= i < NUM -> i <> idx -> v_seen (view_at s' i) = v_seen (view_at s i) /\
     (v_seen (view_at s i) = true -> v_done (view_at s' i) = v_done (view_at s i)) /\
     v_reply (view_at s' i) = v_reply (view_at s i)) ->
  (slot_ok idx (view_at s idx) (G idx) -> slot_ok idx (view_at s' idx) g) ->
  slot_owner g = slot_owner (G idx) ->
  (forall t, slot_owner (G idx) = Some t -> owner_at t (pcs s t) (flags s t) (ns_slots (queue_of s) idx) (G idx) ->
     owner_at t (pcs s t) (flags s t) (ns_slots (queue_of s') idx) g) ->
  (forall t, slot_owner (G idx) = Some t -> a t = slot_call (G idx) -> a' t = slot_call g) ->
  (forall t, slot_owner (G idx) <> Some t -> a' t = a t) ->
  simulates NUM s' (upd idx g G) a'.
Proof.
  intros HS Hi Hp Hf Hl [O1 O2 O3 O4 O5 O6 O7] Hisr Hloop Hg Hown Hat Hcall Hoth. pose proof HS as [[H1 H2 H3 H4 H5 H6] Hc].
  apply (ok_views NUM s s' G _ a a'); try done.
  - intros i Hi'. destruct (Z.eq_dec i idx) as [->|Hne].
    + rewrite upd_eq. split; [by apply Hg, H1|]. split; [done|]. intros t. rewrite Hf. apply Hat.
    + rewrite upd_ne by done. split; [|split; [done|]].
      * destruct (Hloop i Hi' Hne) as (L1 & L2 & L3). destruct (H1 i Hi') as [K1 K2 K3 K4 K5 K6 K7 K8 K9 K10].
        constructor; rewrite ?L1, ?L3; try done.
        -- cbn. unfold queue_of. rewrite O1. apply K1.
        -- cbn. unfold queue_of. rewrite O2. apply K2.
        -- intros Hs. rewrite L2 by (by rewrite K3). by apply K4.
        -- cbn. unfold spe_of. rewrite O7 by done. apply K6.
        -- cbn. unfold queue_of. rewrite O3 by done. apply K7.
        -- cbn. rewrite Hisr. apply K8.
        -- cbn. unfold queue_of. rewrite O5 by done. apply K9.
        -- cbn. unfold queue_of, spe_of. rewrite O5, O6 by done. apply K10.
      * intros t _. rewrite Hf. unfold queue_of. by rewrite O5.
  - unfold spe_of. by rewrite O4.
  - intros t. destruct (holds (pcs s t)) as [i|] eqn:Eh.
    + destruct (Z.eq_dec i idx) as [->|Hne]; [rewrite upd_eq; by apply Hcall|]. rewrite upd_ne by done.
      intros Ho Ha. rewrite Hoth; [done|]. intros Ho'. destruct (H2 idx t Hi Ho') as [E' _]. congruence.
    + apply Hoth. intros Ho. destruct (H2 idx t Hi Ho) as [E' _]. by rewrite Eh in E'.
Qed.

Lemma handle_slot_skip pend idx psa rs (p : P) : slot_in pend idx = false ->
  handle_slot NUM pend idx psa rs p = (Done (psa, rs), p).
Proof. intros E. unfold handle_slot. by rewrite E. Qed.

(** One turn of the loop of the secure core. *)
Lemma sim_spe_slot s G a idx pend psa rs psa' rs' p' : simulates NUM s G a -> spe s = SLoop idx pend psa rs -> idx < NUM ->
  handle_slot NUM pend idx psa rs (srv s) = (Done (psa', rs'), p') ->
  exists G' a', rpc_step a (slot_label idx pend rs' (srv s) p') a' /\
    simulates NUM (set_spe (SLoop (idx + 1) pend psa' rs') (set_srv p' s)) G' a'.
Proof using H0 Hnum.
  intros HS E Hlt Hrun. pose proof HS as [[H1 H2 H3 H4 [H5 H5'] H6] Hc].
  pose proof (H5' _ _ _ _ E) as Hr. assert (Hi : 0 <= idx < NUM) by lia.
  set (s' := set_spe _ _). assert (Hl : loops_ok NUM s').
  { split; [done|]. intros i pe ps r [= <- <- <- <-]. lia. }
  destruct (slot_in pend idx) eqn:Hin.
  2:{ rewrite handle_slot_skip in Hrun by done. injection Hrun as <- <- <-. exists G, a.
      split; [unfold slot_label; rewrite Hin; constructor|]. apply (ok_isr s s' G); try done.
      intros i Hi' [K1 K2 K3 K4 K5 K6 K7 K8 K9 K10]. cbn in K3, K4, K5. rewrite E in K3, K4, K5.
      constructor; try done. intros Hs. rewrite <- K4 by done. cbn.
      destruct (Z.eq_dec i idx) as [->|]; [by rewrite Hin, Hs in K3|]. lia. }
  destruct (handle_slot_spec _ _ _ _ _ _ _ _ Hi Hin Hrun) as (Ho & Hh & O3).
  destruct (H1 idx Hi) as [K1 K2 K3 K4 K5 K6 K7 K8 K9 K10]. cbn in K1, K2, K3, K4, K5, K6, K7, K8, K9, K10.
  rewrite E in K3, K4, K5. rewrite Hin in K3. specialize (K4 ltac:(done)). replace (idx <? idx) with false in K4 by lia.
  destruct (G idx) as [|t m|t m|t m|t v|t m|t m|t m|t m|t v|t v|t v|t v] eqn:HG; try done. cbn in K1, K2, K5, K6, K7, K8, K9, K10.
  assert (Hrest : forall g a', slot_owner g = Some t -> 
    (forall x y, owner_at t (pcs s t) x y (Taken t m) -> owner_at t (pcs s t) x (ns_slots (queue_of s') idx) g) ->
    slot_ok idx (view_at s' idx) g -> (a t = ACalled m -> a' t = slot_call g) -> (forall u, u <> t -> a' u = a u) ->
    (forall i, 0 <= i < NUM -> i <> idx -> slot_in rs' i = slot_in rs i) ->
    simulates NUM s' (upd idx g G) a').
  { intros g a' Hg Hat Hsl Ha Hu Hrs. apply (ok_spe s s' G a a' idx g); rewrite ?HG; try done.
    - intros i Hi' Hne. cbn. rewrite E. split; [done|]. split; [intros _; lia|by apply Hrs].
    - intros u [= <-]. apply Hat.
    - intros u [= <-]. done.
    - intros u Hu'. apply Hu. intros ->. by apply Hu'. }
  assert (Hbit : forall i, 0 <= i < NUM -> i <> idx -> slot_in (Z.lor rs (slot_bit idx)) i = slot_in rs i).
  { intros i Hi' Hne. autorewrite with slots. replace (idx =? i) with false by lia. apply orb_false_r. }
  assert (Eq' : queue_of s' = ns_queue (the_mailbox p')) by done.
  assert (Es' : spe_of s' = spe_mailbox_queue (the_mailbox p')) by done.
  destruct Ho as [O1 O2 _ O4 O5 O6 O7]. fold (queue_of s) in *. 
  inversion Hh as [v Hn Hid Ers|Hn Hid Hs Ers|Hn Hid Ers]; subst rs'.
  - assert (Hlab : slot_label idx pend (Z.lor rs (slot_bit idx)) (srv s) p' = LAnswer t m v).
    { unfold slot_label. rewrite Hin. autorewrite with slots. rewrite Z.eqb_refl, orb_true_r. cbn [andb].
      rewrite Hn. cbn. by rewrite <- (proj1 K10), <- (proj2 K10). }
    rewrite Hlab. exists (upd idx (Answering t v) G), (upd t (AAnswered v) a). destruct (H2 idx t Hi ltac:(by rewrite HG)) as [Eh _].
    assert (Hat : a t = ACalled m).
    { pose proof (Hc t) as Ht. destruct (pcs s t); cbn [holds task_call] in *; try done; injection Eh as ->; by rewrite HG in Ht. }
    split; [by constructor|]. apply Hrest; try done.
    + constructor; cbn; rewrite ?Eq', ?Es', ?O1, ?O2, ?O3, ?Hn, ?Hid; try done.
      * intros _. lia.
      * autorewrite with slots. by rewrite Z.eqb_refl, orb_true_r.
      * split; [done|]. apply K10.
    + intros _. by rewrite upd_eq.
    + intros u Hu. by rewrite upd_ne.
  - exists (upd idx (Accepted t m) G), a. split.
    + unfold slot_label. rewrite K5, andb_false_r. constructor.
    + apply Hrest; try done. constructor; cbn; rewrite ?Eq', ?Es', ?O1, ?O2, ?O3, ?Hn, ?Hid; try done; [intros _; lia|].
      destruct K10 as [Hm How]. split; [|done]. unfold queue_of in Hm. rewrite <- Hm. exact Hs.
  - exists (upd idx (Dropped t m) G), a. split.
    + unfold slot_label. rewrite K5, andb_false_r. constructor.
    + apply Hrest; try done. constructor; cbn; rewrite ?Eq', ?Es', ?O1, ?O2, ?O3, ?Hn, ?Hid; try done; [intros _; lia|]. apply K10.
Qed.

(** A reply by the handle of a slot that a service has. *)
Lemma mailbox_reply_run idx ret m w : 0 <= idx < NUM -> s_ns_queue (spe_mailbox_queue w) = true ->
  get_spe_queue_empty_status NUM idx (spe_mailbox_queue w) = false ->
  s_slots (spe_mailbox_queue w) idx = {| s_msg := m; ns_slot_idx := idx; msg_handle := idx + 1 |} ->
  mailbox_reply NUM spe_mailbox_queue_addr (msg_handle_addr spe_mailbox_queue_addr idx) ret w =
  (Done tt, on_ns (set_nspe_queue_replied_status (slot_bit idx))
     (on_spe (fun q => set_spe_queue_empty_status NUM idx (on_s_slot idx (fun _ => zero_secure_slot) q))
       (on_ns (on_ns_slot idx (on_reply (set_return_val (s32 (u32 ret))))) w))).
Proof using Hnum Haddr.
  intros Hi Hq He Hs. unfold mailbox_reply, load_handle.
  replace (msg_handle_addr spe_mailbox_queue_addr idx =? 0) with false by (unfold msg_handle_addr; lia).
  replace ((msg_handle_addr spe_mailbox_queue_addr idx - msg_handle_addr spe_mailbox_queue_addr 0) / 40) with idx.
  2:{ unfold msg_handle_addr. replace (_ - _) with (idx * 40) by lia. by rewrite Z.div_mul. }
  replace ((0 <=? idx) && (idx <? NUM)) with true by lia. rewrite Z.eqb_refl. cbn [andb].
  rewrite sbind_sget, Hs. cbn [msg_handle]. rewrite sbind_deref. unfold sbind at 1. unfold tfm_mailbox_reply_msg.
  rewrite sbind_sget, Hq. unfold TFM_CORE_ASSERT. unfold sbind at 1, sret at 1.
  unfold MAILBOX_MSG_NULL_HANDLE, get_spe_mailbox_msg_idx, MAILBOX_MSG_NULL_HANDLE.
  replace (idx + 1 =? 0) with false by lia. replace (idx + 1 - 1) with idx by lia. rewrite u8_small by lia. rewrite He.
  unfold sbind at 1. rewrite direct_reply_run by (by rewrite ?Hs). done.
Qed.

Lemma sim_reply s G a idx ret w p : simulates NUM s G a -> spe s = SIdle -> 0 <= idx < NUM ->
  get_spe_queue_empty_status NUM idx (spe_of s) = false ->
  mailbox_reply NUM spe_mailbox_queue_addr (msg_handle_addr spe_mailbox_queue_addr idx) ret (the_mailbox (srv s)) = (Done tt, w) ->
  the_mailbox p = w ->
  exists G' a', rpc_step a (LAnswer (r_owner (ns_reply (ns_slots (queue_of s) idx))) (s_msg (s_slots (spe_of s) idx)) (s32 (u32 ret))) a' /\ simulates NUM (set_srv p s) G' a'.
Proof using H0 Hnum Haddr.
  intros HS E Hi Hb Hrun Hp. pose proof HS as [[H1 H2 H3 H4 H5 H6] Hc].
  destruct (H1 idx Hi) as [K1 K2 K3 K4 K5 K6 K7 K8 K9 K10]. cbn in K1, K2, K3, K4, K5, K6, K7, K8, K9, K10.
  rewrite E in K3, K4, K5. pose proof Hb as Hb'. unfold get_spe_queue_empty_status in Hb'.
  replace (idx <? NUM) with true in Hb' by lia. cbn [andb] in Hb'. rewrite Hb' in K6.
  destruct (G idx) as [|t m|t m|t m|t v|t m|t m|t m|t m|t v|t v|t v|t v] eqn:HG; try done. destruct K10 as [Hs How].
  cbn in K1, K2, K7, K8, K9.
  rewrite (mailbox_reply_run idx ret m _ Hi H6 Hb Hs) in Hrun. injection Hrun as <-.
  set (s' := set_srv p s). set (v := s32 (u32 ret)) in *.
  assert (Eq' : queue_of s' = ns_queue (the_mailbox p)) by done.
  assert (Es' : spe_of s' = spe_mailbox_queue (the_mailbox p)) by done.
  rewrite Hs, How. cbn [s_msg]. exists (upd idx (Replied t v) G), (upd t (AAnswered v) a).
  destruct (H2 idx t Hi ltac:(by rewrite HG)) as [Eh _].
  assert (Hat : a t = ACalled m).
  { pose proof (Hc t) as Ht. destruct (pcs s t); cbn [holds task_call] in *; try done; injection Eh as ->; by rewrite HG in Ht. }
  split; [by constructor|]. set (w0 := the_mailbox (srv s)) in *.
  assert (Hoth : other_slots idx w0 (the_mailbox p)) by (rewrite Hp; at_other).
  apply (ok_spe s s' G a _ idx (Replied t v)); rewrite ?HG; try done.
  - intros _. destruct Hoth as [O1 O2 O3 O4 O5 O6 O7]. constructor; cbn; rewrite ?Eq', ?Es', ?O1, ?O2; fold (queue_of s);
      rewrite ?E; try done; rewrite ?Hp; cbn; autorewrite with slots; rewrite ?upd_eq, ?Z.eqb_refl, ?orb_true_r; try done.
    + unfold set_spe_queue_empty_status. replace (idx <? NUM) with true by lia. cbn. autorewrite with slots.
      by rewrite Z.eqb_refl, orb_true_r.
  - intros u [= <-]. by rewrite upd_eq.
  - intros u Hu. rewrite upd_ne; [done|]. intros ->. by apply Hu.
Qed.

Lemma sim_service s G a p : simulates NUM s G a -> the_mailbox p = the_mailbox (srv s) -> simulates NUM (set_srv p s) G a.
Proof.
  intros HS Hp. pose proof HS as [[H1 H2 H3 H4 H5 H6] Hc].
  assert (Eq : queue_of (set_srv p s) = queue_of s) by (unfold queue_of; cbn [srv set_srv]; by rewrite Hp).
  assert (Es : spe_of (set_srv p s) = spe_of s) by (unfold spe_of; cbn [srv set_srv]; by rewrite Hp).
  apply (ok_isr s _ G); try done.
  - intros i Hi. unfold view_at. by rewrite Eq, Es.
  - intros i t Hi Ht _. by rewrite Eq.
Qed.

(** Every step of the system is a step of the specification. *)
Lemma sim_step s G a l s' : simulates NUM s G a -> serial s -> step NUM spe_mailbox_queue_addr s l s' ->
  exists G' a', rpc_step a l a' /\ simulates NUM s' G' a'.
Proof using H0 Hnum Haddr.
  intros HS Hser Hst. pose proof (proj2 HS) as Hc. destruct Hst as
    [t m Ht E Ei|t e E He|t l s' Ei Hst|t m E Ei|t ret r E Ei|t| |l s' Hst|p E Hp|idx ret w p E Hi Hb Hrun Hp].
  - pose proof (Hc t) as Hct. rewrite E in Hct. cbn in Hct. exists G, (upd t (ACalled m) a). split; [by constructor|].
    by apply (sim_move s G a t (PEnter m)); rewrite ?E.
  - pose proof (Hc t) as Hct. rewrite E in Hct. cbn in Hct. exists G, a. split; [by constructor|done].
  - by apply (sim_client s G a t).
  - pose proof (Hc t) as Hct. rewrite E in Hct. cbn in Hct. exists G, (upd t AIdle a).
    split; [apply (A_refused _ _ m); [done|by left]|]. by apply (sim_move s G a t PIdle); rewrite ?E.
  - pose proof (Hc t) as Hct. rewrite E in Hct. cbn in Hct. exists G, (upd t AIdle a). split.
    + destruct r as [v|]; [destruct Hct as [Hct _]; by apply A_unlock_failed|]. destruct Hct as [_ [m Hm]]. apply (A_refused _ _ m); [done|by right].
    + by apply (sim_move s G a t PIdle); rewrite ?E.
  - exists G, a. split; [constructor|]. apply (ok_isr s _ G); try done.
    + intros u Hu. cbn. unfold upd. by destruct (u =? t).
    + apply HS.
    + intros i u Hi Hu _. apply owner_at_flag. cbn. unfold upd. by destruct (u =? t).
  - destruct (sim_isr s G a HS) as [G' HG]. exists G', a. split; [constructor|done].
  - unfold spe_step in Hst. destruct (spe s) as [|idx pend psa rs] eqn:E.
    + unfold handle_begin, sbind, sget, TFM_CORE_ASSERT in Hst. 
      destruct (s_ns_queue _); cbn in Hst; [|done]. destruct (_ =? 0); injection Hst as <- <-.
      * exists G, a. split; [constructor|done].
      * exists (fun i => set_taken (G i)), a. split; [constructor|].
        exact (sim_spe_begin s G a PSA_ERROR_GENERIC_ERROR HS E).
    + destruct (Z.ltb_spec idx NUM) as [Hlt|Hge].
      * destruct (handle_slot _ _ _ _ _ _) as [[[psa' rs']| |] p'] eqn:Hrun; try done. injection Hst as <- <-.
        by apply (sim_spe_slot s G a idx pend psa rs).
      * destruct (handle_end _ _ _) as [[[]| |] p'] eqn:Hrun; try done. injection Hst as <- <-.
        eexists _, a. split; [constructor|]. by apply (sim_spe_end s G a idx pend psa rs).
  - exists G, a. split; [constructor|]. by apply sim_service.
  - by apply (sim_reply s G a idx ret w).
Qed.

(** The start. *)
Lemma sim_initial s : initial NUM s -> simulates NUM s (fun _ => Free) (fun _ => AIdle).
Proof using Hnum.
  intros [I1 [w I2] I3 I4 I5 I6]. split.
  - constructor.
    + intros i Hi. constructor; cbn; rewrite ?I5, ?I6; try done.
      * rewrite I1. cbn. by apply slot_in_all_empty.
      * rewrite I1. cbn. apply slot_in_0.
      * unfold spe_of. rewrite I2. cbn. by apply slot_in_all_empty.
      * rewrite I1. cbn. apply slot_in_0.
      * rewrite I1. done.
    + done.
    + intros t i. by rewrite I4.
    + intros t m st. by rewrite I4.
    + split; [by rewrite I5|by rewrite I6].
    + unfold spe_of. by rewrite I2.
  - intros t. rewrite I4. done.
Qed.
End Sim.
