(* ===== verification/MailboxSpm.v ===== *)
(** * The mailbox between the two cores: the SPM behind it

    The operations of the SPM leave the mailbox alone but to reply, so that
    tfm_rpc.c of the SPM is a server for the mailbox, and a call that the SPM
    accepts carries the handle of its slot. *)

From Stdlib Require Import ZArith List Lia Bool.
From stdpp Require Import base tactics list.
From S2P Require Import Prelude SpmBase BiList SpmPool SpmSched SpmState SpmIpc SpmClient SpmService SpmSvc SpmInv Mailbox.
Import ListNotations.
Local Open Scope Z_scope.
Local Open Scope spm_scope.

Section Frame.
Context {W : Type} (cfg : spm_config) (rpc_ops : tfm_rpc_ops_t W).
Local Abbreviation st := (spm W).

(** ** Operations that leave the mailbox alone

    [d]: and the caller data of the messages. *)
Definition same_data (s s' : st) : Prop :=
  forall c, caller_data (internal_msg (conns s' c)) = caller_data (internal_msg (conns s c)).
Definition unmoved (d : bool) (s s' : st) : Prop := mailbox s' = mailbox s /\ (d = true -> same_data s s').
Definition keeps_mailbox {A} (d : bool) (m : SPM st A) : Prop := forall s, unmoved d s (snd (m s)).

Lemma unmoved_refl d s : unmoved d s s.
Proof. by split. Qed.
Lemma unmoved_trans d s1 s2 s3 : unmoved d s1 s2 -> unmoved d s2 s3 -> unmoved d s1 s3.
Proof. intros [A1 A2] [B1 B2]. split; [congruence|]. intros E c. rewrite B2, A2 by done. done. Qed.

Lemma km_ret {A} d (a : A) : keeps_mailbox d (sret a).
Proof. intros s. apply unmoved_refl. Qed.
Lemma km_bind {A B} d (m : SPM st A) (f : A -> SPM st B) :
  keeps_mailbox d m -> (forall a, keeps_mailbox d (f a)) -> keeps_mailbox d (sbind m f).
Proof.
  intros Hm Hf s. unfold sbind. specialize (Hm s). destruct (m s) as [[a| |] s']; try done.
  apply (unmoved_trans d s s'); [exact Hm|apply Hf].
Qed.
Lemma km_get d : keeps_mailbox d sget.
Proof. intros s. apply unmoved_refl. Qed.
Lemma km_gets {A} d (f : st -> A) : keeps_mailbox d (gets f).
Proof. intros s. apply unmoved_refl. Qed.
Lemma km_put d f : (forall s : st, unmoved d s (f s)) -> keeps_mailbox d (sput f).
Proof. intros Hf s. apply Hf. Qed.
Lemma km_deref {A} d (o : option A) : keeps_mailbox d (deref o).
Proof. intros s. destruct o; apply unmoved_refl. Qed.
Lemma km_panic {A} d : keeps_mailbox d (@tfm_core_panic st A).
Proof. intros s. apply unmoved_refl. Qed.
Lemma km_sched {A} d (m : SPM sched A) : keeps_mailbox d (@on_sched W A m).
Proof. intros s. unfold on_sched. by destruct (m (scheduler s)). Qed.
Lemma km_nodes d f : keeps_mailbox d (@on_nodes W f).
Proof.
  apply km_bind; [apply km_get|intros s]. apply km_bind; [apply km_deref|intros n]. by apply km_put.
Qed.
Lemma unmoved_conn d c f (s : st) : (forall h, caller_data (internal_msg (f h)) = caller_data (internal_msg h)) ->
  unmoved d s (on_conn c f s).
Proof. intros Hf. split; [done|]. intros _ k. cbn. unfold upd. by destruct (Z.eqb_spec k c) as [->|]. Qed.

(** One step by the head of the operation. *)
Ltac km_step :=
  lazymatch goal with
  | |- keeps_mailbox _ (sbind _ _) => apply km_bind; [|intros]
  | |- keeps_mailbox _ (sret _) => apply km_ret
  | |- keeps_mailbox _ sget => apply km_get
  | |- keeps_mailbox _ (gets _) => apply km_gets
  | |- keeps_mailbox _ (sput _) => apply km_put; intros; first [done|by apply unmoved_conn]
  | |- keeps_mailbox _ (deref _) => apply km_deref
  | |- keeps_mailbox _ tfm_core_panic => apply km_panic
  | |- keeps_mailbox _ (on_sched _) => apply km_sched
  | |- keeps_mailbox _ (on_nodes _) => apply km_nodes
  | |- keeps_mailbox _ (TFM_CORE_ASSERT _) => unfold TFM_CORE_ASSERT
  | |- keeps_mailbox _ (TFM_CORE_ERROR_HANDLE _) => unfold TFM_CORE_ERROR_HANDLE
  | |- keeps_mailbox _ (TFM_PROGRAMMER_ERROR _ _) => unfold TFM_PROGRAMMER_ERROR
  | |- keeps_mailbox _ (modify_msg _ _) => apply km_put; intros; first [done|by apply unmoved_conn]
  | |- keeps_mailbox _ (msg_body _) => apply km_gets
  | |- keeps_mailbox _ (conn _) => apply km_gets
  | |- keeps_mailbox _ (the_partition _) => apply km_gets
  | |- keeps_mailbox _ (the_service _) => apply km_gets
  | |- keeps_mailbox _ (match ?x with _ => _ end) => destruct x
  | |- keeps_mailbox _ ?m => solve [auto with mailbox_frame]
  end.
Ltac km := repeat km_step.

Create HintDb mailbox_frame.

Lemma km_running d : keeps_mailbox d (@tfm_spm_get_running_partition W).
Proof. unfold tfm_spm_get_running_partition. km. Qed.
Lemma km_running_id d : keeps_mailbox d (@tfm_spm_partition_get_running_partition_id W).
Proof. unfold tfm_spm_partition_get_running_partition_id. km. apply km_running. Qed.
Hint Resolve km_running km_running_id : mailbox_frame.

Lemma km_assert_signal d p v : keeps_mailbox d (@assert_signal W p v).
Proof. unfold assert_signal, wake_partition. km. Qed.
Hint Resolve km_assert_signal : mailbox_frame.

Lemma km_wait_msg d c : keeps_mailbox d (@wait_msg W c).
Proof. unfold wait_msg. km. Qed.
Lemma km_wake_msg d c n : keeps_mailbox d (@wake_msg W c n).
Proof. unfold wake_msg. km. Qed.
Lemma km_wait_partition d p : keeps_mailbox d (@wait_partition W p).
Proof. unfold wait_partition. km. Qed.
Hint Resolve km_wait_msg km_wake_msg km_wait_partition : mailbox_frame.

Lemma km_send d srv c : keeps_mailbox d (@tfm_spm_send_event W cfg srv c).
Proof. unfold tfm_spm_send_event. km. Qed.

Lemma km_fill c srv h ty cid i o p : keeps_mailbox false (tfm_spm_fill_msg cfg rpc_ops c srv h ty cid i o p).
Proof. unfold tfm_spm_fill_msg, tfm_spm_get_rhandle. km. Qed.

Lemma km_create d srv cid : keeps_mailbox d (@tfm_spm_create_conn_handle W cfg srv cid).
Proof. unfold tfm_spm_create_conn_handle. km. Qed.
Lemma km_free d srv c : keeps_mailbox d (@tfm_spm_free_conn_handle W srv c).
Proof. unfold tfm_spm_free_conn_handle. km. Qed.
Lemma km_validate d c cid : keeps_mailbox d (@tfm_spm_validate_conn_handle W cfg c cid).
Proof. unfold tfm_spm_validate_conn_handle. km. Qed.
Lemma km_authorization d sid srv ns : keeps_mailbox d (@tfm_spm_check_authorization W sid srv ns).
Proof. unfold tfm_spm_check_authorization. km. Qed.
Lemma km_check_version d v ver : keeps_mailbox d (@tfm_spm_check_client_version W v ver).
Proof. unfold tfm_spm_check_client_version. km. Qed.
Lemma km_by_sid d sid : keeps_mailbox d (@tfm_spm_get_service_by_sid W cfg sid).
Proof. unfold tfm_spm_get_service_by_sid. km. Qed.
Lemma km_caller d ns : keeps_mailbox d (@caller_id W ns).
Proof. unfold caller_id. km. Qed.
Lemma km_user_handle d c : keeps_mailbox d (@tfm_spm_to_user_handle W cfg c).
Proof. unfold tfm_spm_to_user_handle. km. Qed.
Lemma km_from_handle d h : keeps_mailbox d (@tfm_spm_get_msg_from_handle W cfg h).
Proof. unfold tfm_spm_get_msg_from_handle. km. Qed.
Hint Resolve km_send km_fill km_create km_free km_validate km_authorization km_check_version km_by_sid km_caller
  km_user_handle km_from_handle : mailbox_frame.

(** ** The client calls *)
Lemma km_version d sid ns : keeps_mailbox d (@tfm_spm_client_psa_version W cfg sid ns).
Proof. unfold tfm_spm_client_psa_version. km. Qed.
Lemma km_connect sid ver ns : keeps_mailbox false (tfm_spm_client_psa_connect cfg rpc_ops sid ver ns).
Proof. unfold tfm_spm_client_psa_connect. km. Qed.
Lemma km_call h ty ip il op ol ns pr : keeps_mailbox false (tfm_spm_client_psa_call cfg rpc_ops h ty ip il op ol ns pr).
Proof. unfold tfm_spm_client_psa_call, call_target. km. Qed.
Lemma km_close h ns : keeps_mailbox false (tfm_spm_client_psa_close cfg rpc_ops h ns).
Proof. unfold tfm_spm_client_psa_close. km. Qed.
Hint Resolve km_version km_connect km_call km_close : mailbox_frame.

(** ** The service calls *)
Lemma km_by_signal_loop d fuel hd n v f : keeps_mailbox d (@tfm_spm_get_msg_by_signal_loop W fuel hd n v f).
Proof.
  revert n f. induction fuel as [|fuel IH]; intros n f; cbn [tfm_spm_get_msg_by_signal_loop]; unfold msg_signal; km.
Qed.
Hint Resolve km_by_signal_loop : mailbox_frame.
Lemma km_outvec_loop d n i c : keeps_mailbox d (@update_caller_outvec_len_loop W n i c).
Proof. revert i. induction n as [|n IH]; intros i; cbn [update_caller_outvec_len_loop]; km. Qed.
Hint Resolve km_outvec_loop : mailbox_frame.
Lemma km_notify_signal d id v : keeps_mailbox d (@notify_with_signal W cfg id v).
Proof. unfold notify_with_signal, tfm_spm_get_partition_by_id, get_partition_idx. km. Qed.
Lemma km_irq_line d v : keeps_mailbox d (@running_irq_line W cfg v).
Proof. unfold running_irq_line. km. Qed.
Lemma km_owner_mode d c : keeps_mailbox d (@owner_mode W c).
Proof. unfold owner_mode. km. Qed.
Lemma km_reply_value d c srv h mh v : keeps_mailbox d (@reply_value W cfg c srv h mh v).
Proof. unfold reply_value, update_caller_outvec_len. km. Qed.
Lemma km_conn_status d c v : keeps_mailbox d (@set_conn_status W c v).
Proof. unfold set_conn_status. km. Qed.
Hint Resolve km_notify_signal km_irq_line km_owner_mode km_reply_value km_conn_status : mailbox_frame.

Lemma km_mode d : keeps_mailbox d (@running_partition_mode W).
Proof. unfold running_partition_mode. km. Qed.
Lemma km_enable d n : keeps_mailbox d (@tfm_spm_hal_enable_irq W n).
Proof. unfold tfm_spm_hal_enable_irq. km. Qed.
Lemma km_disable d n : keeps_mailbox d (@tfm_spm_hal_disable_irq W n).
Proof. unfold tfm_spm_hal_disable_irq. km. Qed.
Hint Resolve km_mode km_enable km_disable : mailbox_frame.
Lemma km_validate_caller d scfg p ctx exc ns : keeps_mailbox d (@tfm_spm_validate_caller W scfg p ctx exc ns).
Proof. unfold tfm_spm_validate_caller. km. Qed.
Hint Resolve km_validate_caller : mailbox_frame.

(** ** The system calls *)

(** The mailbox moves by one reply at most, for the caller of a message. *)
Definition by_reply (s s' : st) : Prop :=
  mailbox s' = mailbox s \/
  exists c ret, mailbox s' = reply rpc_ops (caller_data (internal_msg (conns s c))) ret (mailbox s).
Definition replies {A} (m : SPM st A) : Prop := forall s, by_reply s (snd (m s)).

Lemma re_keeps {A} d (m : SPM st A) : keeps_mailbox d m -> replies m.
Proof. intros Hm s. left. apply Hm. Qed.
Lemma re_bind {A B} (m : SPM st A) (f : A -> SPM st B) :
  keeps_mailbox true m -> (forall a, replies (f a)) -> replies (sbind m f).
Proof.
  intros Hm Hf s. unfold sbind. destruct (Hm s) as [H1 H2]. destruct (m s) as [[a| |] s']; try by left.
  cbn [snd] in *. specialize (H2 eq_refl).
  destruct (Hf a s') as [E|(c & ret & E)]; [left; by rewrite E|]. right. exists c, ret. by rewrite E, H2, H1.
Qed.
Lemma re_then {A B} d (m : SPM st A) (f : A -> SPM st B) :
  replies m -> (forall a, keeps_mailbox d (f a)) -> replies (sbind m f).
Proof.
  intros Hm Hf s. unfold sbind. specialize (Hm s). destruct (m s) as [[a| |] s']; try done.
  destruct (Hf a s') as [E _]. unfold by_reply. cbn [snd] in *. by rewrite E.
Qed.

Lemma re_reply h v : replies (tfm_spm_psa_reply cfg rpc_ops h v).
Proof.
  unfold tfm_spm_psa_reply. apply re_bind; [km|intros [c|]]; [|apply (re_keeps true); km].
  apply re_bind; [km|intros body]. destruct (msg_service body); [|apply (re_keeps true); km].
  apply re_bind; [km|intros ret]. apply re_bind; [km|intros _]. intros s. unfold sbind, msg_body, gets, sput.
  destruct (is_tfm_rpc_msg _ _); [right; by exists c, ret|left; apply (km_wake_msg true)].
Qed.

Lemma re_success m : replies m -> replies (@success W m).
Proof. intros Hm. apply (re_then true); [done|intros; km]. Qed.

Lemma re_handler scfg svc ctx exc : replies (SVC_Handler_IPC cfg rpc_ops scfg svc ctx exc).
Proof.
  unfold SVC_Handler_IPC. apply re_bind; [km|intros p]. apply re_bind; [km|intros _].
  destruct svc; try (apply re_success); try apply re_reply;
    apply (re_keeps false); unfold tfm_spm_client_psa_framework_version, tfm_spm_psa_call,
      tfm_spm_psa_wait, tfm_spm_psa_get, tfm_spm_get_msg_by_signal, tfm_spm_psa_set_rhandle, tfm_spm_set_rhandle,
      tfm_spm_psa_read, tfm_spm_psa_skip, tfm_spm_psa_write, consume, tfm_spm_psa_notify, tfm_spm_psa_clear,
      tfm_spm_psa_eoi, tfm_spm_hal_clear_pending_irq,
      tfm_spm_psa_panic, tfm_spm_request_handler, tfm_spm_get_lifecycle_state, tfm_spm_irq_enable, tfm_spm_irq_disable; km.
Qed.

Lemma svc_by_reply scfg svc ctx exc : replies (tfm_core_svc_handler cfg rpc_ops scfg svc ctx exc).
Proof.
  unfold tfm_core_svc_handler. apply re_bind; [km|intros p]. apply (re_then true); [apply re_handler|intros; km].
Qed.

(** ** What a call that is accepted leaves behind *)

(** Every result of [m] satisfies [Q]; it may also panic or fault. *)
Definition result {A} (m : SPM st A) (s : st) (Q : A -> st -> Prop) : Prop :=
  forall a s', m s = (Done a, s') -> Q a s'.

Lemma result_ret {A} (a : A) s (Q : A -> st -> Prop) : Q a s -> result (sret a) s Q.
Proof. by intros HQ b s' [= <- <-]. Qed.
Lemma result_bind {A B} (m : SPM st A) (f : A -> SPM st B) s Q :
  result m s (fun a s' => result (f a) s' Q) -> result (sbind m f) s Q.
Proof.
  intros Hm b s' E. unfold sbind in E. destruct (m s) as [[a| |] s1] eqn:Em; try done. by apply (Hm a s1).
Qed.
Lemma result_keeps {A B} d (m : SPM st A) (f : A -> SPM st B) s Q : keeps_mailbox d m ->
  (forall a s', unmoved d s s' -> result (f a) s' Q) -> result (sbind m f) s Q.
Proof.
  intros Hk Hf. apply result_bind. intros a s' E. apply Hf. pose proof (Hk s) as Hu. by rewrite E in Hu.
Qed.
Lemma result_read {A B} (f : st -> A) (g : A -> SPM st B) s Q : result (g (f s)) s Q -> result (gets f) s (fun a s' => result (g a) s' Q).
Proof. by intros H a s' [= <- <-]. Qed.
Lemma result_panic {A} s (Q : A -> st -> Prop) : result tfm_core_panic s Q.
Proof. done. Qed.

(** A message [m] for a client, and where it is once it was sent: last in the
    queue of the partition of its service, whose signal is asserted. *)
Definition filled (srv : option Z) (ty cid data : Z) (m : tfm_msg_body_t) : Prop :=
  magic m = TFM_MSG_MAGIC /\ msg_service m = srv /\ type (msg m) = ty /\ msg_client_id (msg m) = cid /\ caller_data m = data.
Definition sent (s : st) (ty cid data c : Z) : Prop :=
  exists v p, filled (Some v) ty cid data (internal_msg (conns s c)) /\ partition (services s v) = Some p /\
    prev (nodes s (MsgList p)) = Some (MsgNode c) /\
    Z.land (signals_asserted (partitions s p)) (db_signal (service_db (services s v))) = db_signal (service_db (services s v)).

Lemma fill_result c srv h ty cid i o p s : TFM_MULTI_CORE_TOPOLOGY cfg = true -> cid < 0 ->
  result (tfm_spm_fill_msg cfg rpc_ops c srv h ty cid i o p) s
    (fun _ s' => filled srv ty cid (get_caller_data rpc_ops (mailbox s) cid) (internal_msg (conns s' c))).
Proof.
  intros Hm Hc u s' E. unfold tfm_spm_fill_msg, TFM_CLIENT_ID_IS_NS, TFM_CORE_ASSERT, tfm_spm_get_rhandle in E.
  replace (cid <? 0) with true in E by lia. rewrite Hm in E. cbn [andb] in E. destruct srv as [v|]; [|done].
  do 3 (destruct (_ <=? PSA_MAX_IOVEC); [|done]).
  destruct (tfm_spm_to_handle_instance cfg h) as [k|]; injection E as _ <-; unfold filled; cbn; by rewrite ?upd_eq; cbn; rewrite ?upd_eq.
Qed.

Lemma insert_before_prev (k n : node) l l' : BI_LIST_INSERT_BEFORE k n l = Some l' -> k <> n -> prev (l' k) = Some n.
Proof.
  unfold BI_LIST_INSERT_BEFORE. destruct (prev (l k)); [|done]. intros [= <-] Hn. unfold set_next at 1. rewrite decide_False by done.
  unfold set_prev at 1. by rewrite decide_True.
Qed.

(** The rest of sending leaves the queues, the services and the messages. *)
Definition rest_of_send (s s' : st) : Prop :=
  nodes s' = nodes s /\ services s' = services s /\ forall c, set_ack_evnt tfm_event_init (internal_msg (conns s' c)) =
    set_ack_evnt tfm_event_init (internal_msg (conns s c)).

Lemma assert_signal_result p v s : result (assert_signal p v) s
  (fun _ s' => rest_of_send s s' /\ signals_asserted (partitions s' p) = Z.lor (signals_asserted (partitions s p)) v).
Proof.
  intros u s' E. unfold assert_signal, wake_partition, the_partition, on_sched, sbind, sput, gets, sret in E.
  repeat case_match; simplify_eq/=; (split; [done|]); by rewrite !upd_eq.
Qed.
Lemma wait_msg_result c s : result (wait_msg c) s (fun _ s' => rest_of_send s s' /\ partitions s' = partitions s).
Proof.
  intros u s' E. unfold wait_msg, msg_body, on_sched, modify_msg, sbind, sput, gets in E.
  repeat case_match; simplify_eq/=. split; [|done]. do 2 (split; [done|]). intros k. cbn. unfold upd. cbn. by destruct (Z.eqb_spec k c) as [->|].
Qed.

(** The message of a call from the other core, when it is sent. *)
Lemma sent_data c srv h ty cid i o p s : TFM_MULTI_CORE_TOPOLOGY cfg = true -> cid < 0 ->
  result (do! tfm_spm_fill_msg cfg rpc_ops c srv h ty cid i o p in do! tfm_spm_send_event cfg srv c in sret PSA_SUCCESS) s
    (fun _ s' => sent s' ty cid (get_caller_data rpc_ops (mailbox s) cid) c).
Proof.
  intros Hm Hc. apply result_bind. intros u s1 E. pose proof (fill_result c srv h ty cid i o p s Hm Hc u s1 E) as Hfill.
  revert Hfill. generalize (get_caller_data rpc_ops (mailbox s) cid). intros data Hf. clear E u s Hm Hc.
  unfold tfm_spm_send_event. destruct srv as [v|]; [|apply result_bind, result_panic].
  apply result_bind, result_bind, result_read. destruct (partition (services s1 v)) as [q|] eqn:Eq; [|apply result_panic].
  set (sig := db_signal (service_db (services s1 v))). apply result_bind. intros u s2 E.
  assert (H2 : conns s2 = conns s1 /\ services s2 = services s1 /\ prev (nodes s2 (MsgList q)) = Some (MsgNode c)).
  { unfold on_nodes, sbind, sget, deref, sput in E. destruct (BI_LIST_INSERT_BEFORE _ _ _) as [n|] eqn:En; [|done].
    injection E as _ <-. do 2 (split; [done|]). by apply (insert_before_prev _ _ _ _ En). }
  destruct H2 as (Hcs & Hsv & Hpr). apply result_bind. intros [] s3 E3.
  destruct (assert_signal_result q sig s2 tt s3 E3) as [[R1 [R2 R3]] Hsig].
  assert (Hsent : sent s3 ty cid data c).
  { exists v, q. rewrite R1, R2, Hsv, Hsig. split; [|split; [done|split; [done|]]].
    - specialize (R3 c). rewrite Hcs in R3. unfold filled in *. destruct (internal_msg (conns s3 c)), (internal_msg (conns s1 c)).
      cbn in *. injection R3 as -> -> -> -> -> -> ->. exact Hf.
    - fold sig. apply Z.bits_inj'. intros k _. rewrite Z.land_spec, Z.lor_spec. by destruct (Z.testbit _ k), (Z.testbit sig k). }
  apply result_bind, result_read. destruct (negb _); [|by apply result_ret, result_ret].
  intros [] s4 E4. apply result_ret. destruct (wait_msg_result c s3 tt s4 E4) as [[K1 [K2 K3]] K4].
  destruct Hsent as (v' & q' & (F1 & F2 & F3 & F4 & F5) & G). exists v', q'. rewrite K1, K2, K4. split; [|exact G].
  specialize (K3 c). unfold filled in *. destruct (internal_msg (conns s4 c)), (internal_msg (conns s3 c)).
  cbn in *. by injection K3 as -> -> -> -> -> -> ->.
Qed.

Definition accepts (ty : Z) (s : st) (a : Z) (s' : st) : Prop :=
  a = PSA_SUCCESS -> exists c,
    sent s' ty tfm_nspm_get_current_client_id (get_caller_data rpc_ops (mailbox s) tfm_nspm_get_current_client_id) c.

(** The steps before: an error ends the call. *)
Ltac go d := apply (result_keeps d); [km|let E := fresh in intros ? ? [E _]; try rewrite <- E; clear E].
Ltac refuse := try (apply result_ret; discriminate); try apply result_panic.

Lemma connect_data sid ver s : TFM_MULTI_CORE_TOPOLOGY cfg = true ->
  result (tfm_spm_client_psa_connect cfg rpc_ops sid ver true) s (accepts PSA_IPC_CONNECT s).
Proof.
  intros Hm. unfold tfm_spm_client_psa_connect, TFM_PROGRAMMER_ERROR, caller_id, accepts. go false.
  destruct a as [v|]; refuse. go false. destruct (negb _); refuse. go false. destruct (negb _); refuse.
  go false. destruct (negb _); refuse. apply result_bind, result_ret. go false. destruct a2 as [c|]; refuse.
  go false. intros x s1 E _. exists c. by apply (sent_data c _ _ _ tfm_nspm_get_current_client_id _ _ _ _ Hm ltac:(done) x s1 E).
Qed.

Lemma target_error h cid s : result (call_target cfg h cid true) s
  (fun r s' => mailbox s' = mailbox s /\ forall e, r = Err e -> e <> PSA_SUCCESS).
Proof.
  intros r s' E. split.
  { assert (Hk : keeps_mailbox false (@call_target W cfg h cid true)) by (unfold call_target; km).
    pose proof (Hk s) as [Hk' _]. by rewrite E in Hk'. }
  revert r s' E. fold (result (call_target cfg h cid true) s (fun r _ => forall e, r = Err e -> e <> PSA_SUCCESS)).
  unfold call_target, TFM_PROGRAMMER_ERROR.
  assert (Hret : forall s1 (x : res (Z * option Z * Z)), match x with Ok _ => True | Err e => e <> PSA_SUCCESS end ->
    result (sret x) s1 (fun r _ => forall e, r = Err e -> e <> PSA_SUCCESS)).
  { intros s1 x Hx. apply result_ret. by intros e ->. }
  destruct (IS_VALID_STATIC_HANDLE h).
  - apply result_bind. intros s1 ? [= <- <-]. go false. destruct (negb _); [by apply Hret|]. go false.
    go false. destruct (negb _); [by apply Hret|]. go false. destruct a2; [|by apply Hret]. go false. go false. by apply Hret.
  - destruct (tfm_spm_to_handle_instance cfg h); [|by apply Hret]. go false. destruct (negb _); [by apply Hret|].
    go false. repeat (destruct (_ =? _)); by apply Hret.
Qed.

Lemma call_data h ty ip il op ol s : TFM_MULTI_CORE_TOPOLOGY cfg = true ->
  result (tfm_spm_client_psa_call cfg rpc_ops h ty ip il op ol true TFM_PARTITION_UNPRIVILEGED_MODE) s (accepts ty s).
Proof.
  intros Hm. unfold tfm_spm_client_psa_call, TFM_PROGRAMMER_ERROR, caller_id, accepts. destruct (_ || _ || _); refuse.
  apply result_bind, result_ret. apply result_bind. intros t s1 E.
  destruct (target_error h _ s t s1 E) as [Em He]. rewrite <- Em.
  destruct t as [[[c srv] handle]|e]; [|by apply result_ret; intros E0; destruct (He e)].
  destruct srv as [v|]; refuse. destruct (negb _); refuse. destruct (negb _); refuse.
  apply result_bind. intros s2 ? [= <- <-]. repeat (destruct (negb _); refuse; try destruct (any_overlap _); refuse).
  intros x s2 E2 _. exists c.
  by apply (sent_data c _ _ _ tfm_nspm_get_current_client_id _ _ _ _ Hm ltac:(done) x s2 E2).
Qed.
End Frame.

(** ** The SPM as the server of the mailbox *)
Section Server.
Context (cfg : spm_config) (NUM_MAILBOX_QUEUE_SLOT spe_mailbox_queue_addr : Z).
Local Abbreviation ops := (mailbox_rpc_ops NUM_MAILBOX_QUEUE_SLOT spe_mailbox_queue_addr).

Definition spm_rpc : TfmRpc (spm mbox) := {|
  the_mailbox := mailbox;
  put_mailbox := set_mailbox;
  rpc_psa_framework_version := tfm_rpc_psa_framework_version;
  rpc_psa_version := tfm_rpc_psa_version cfg;
  rpc_psa_connect := tfm_rpc_psa_connect cfg ops;
  rpc_psa_call := tfm_rpc_psa_call cfg ops;
  rpc_psa_close := tfm_rpc_psa_close cfg ops
|}.
#[export] Existing Instance spm_rpc.

Lemma rpc_frame {A} (c : option client_call_params_t) (f : client_call_params_t -> SPM (spm mbox) A) :
  (forall x, keeps_mailbox false (f x)) ->
  keeps_mailbox false (do! TFM_CORE_ASSERT (is_some c) in let! x := deref c in f x).
Proof.
  intros Hf. apply km_bind; [destruct c; [apply km_ret|apply km_panic]|]. intros _.
  apply km_bind; [apply km_deref|]. apply Hf.
Qed.

#[export] Instance spm_rpc_laws : TfmRpcLaws (spm mbox).
Proof.
  split; try done; cbn; try by intros [].
  - intros c ns s. apply (rpc_frame c (fun x => _)). intros x. apply km_version.
  - intros c ns s. apply (rpc_frame c (fun x => _)). intros x. apply km_connect.
  - intros c ns s. apply (rpc_frame c (fun x => _)). intros x. apply km_call.
  - intros c ns s. apply (rpc_frame c (fun x => _)). intros x. apply km_close.
Qed.
End Server.
