(* ===== verification/MailboxTheorems.v ===== *)
(** * The mailbox between the two cores: its properties

    The mailbox refines independent remote calls, always with one slot and
    else when tasks take their slots one at a time; two tasks that do not can
    get each other's answers. *)

From Stdlib Require Import ZArith List Lia Bool.
From stdpp Require Import base tactics list.
From S2P Require Import Prelude SpmBase BiList SpmPool SpmSched SpmState SpmIpc SpmClient SpmService SpmSvc SpmInv SpmInit SpmExample Mailbox MailboxSys MailboxSim MailboxSpm.
Import ListNotations.
Local Open Scope Z_scope.

(** ** Schedules *)
Section Schedule.
Context {P : Type} `{TfmRpc P}.
Context (NUM_MAILBOX_QUEUE_SLOT spe_mailbox_queue_addr : Z).
Local Abbreviation NUM := NUM_MAILBOX_QUEUE_SLOT.
Implicit Types s : sys P.

(** Who runs next. *)
Inductive turn : Type :=
| TCall (t : Z) (m : mailbox_msg_t)
| TClient (t : Z)
| TIsr
| TSpe.

Definition take_turn (e : turn) s : option (label * sys P) :=
  match e with
  | TCall t m =>
      match pcs s t, isr s with
      | PIdle, None => if t =? 0 then None else Some (LCall t m, set_pc t (PEnter m) s)
      | _, _ => None
      end
  | TClient t => match isr s with None => client_step NUM t s | Some _ => None end
  | TIsr => Some (LTau, isr_step NUM s)
  | TSpe => spe_step NUM s
  end.

Fixpoint schedule (l : list turn) s : option (list label * sys P) :=
  match l with
  | [] => Some ([], s)
  | e :: l' =>
      match take_turn e s with
      | None => None
      | Some (x, s') =>
          match schedule l' s' with None => None | Some (xs, s'') => Some (x :: xs, s'') end
      end
  end.

Lemma take_turn_step e s x s' : take_turn e s = Some (x, s') -> step NUM spe_mailbox_queue_addr s x s'.
Proof.
  destruct e as [t m|t| |]; cbn [take_turn].
  - destruct (pcs s t) eqn:E; try done. destruct (isr s) eqn:Ei; [done|].
    destruct (Z.eqb_spec t 0); [done|]. intros [= <- <-]. by apply S_call.
  - destruct (isr s) eqn:Ei; [done|]. by apply S_client.
  - intros [= <- <-]. constructor.
  - apply S_spe.
Qed.

Lemma runs_app (I : sys P -> Prop) s0 s1 l1 s2 l2 : runs NUM spe_mailbox_queue_addr I s0 l1 s1 ->
  runs NUM spe_mailbox_queue_addr I s1 l2 s2 -> runs NUM spe_mailbox_queue_addr I s0 (l1 ++ l2) s2.
Proof.
  intros H1 H2. induction H2 as [|l s x s' H2 IH Hst HI]; [by rewrite app_nil_r|].
  rewrite app_assoc. by apply (Runs_step _ _ _ _ _ s).
Qed.

Lemma schedule_runs l s xs s' : schedule l s = Some (xs, s') -> runs NUM spe_mailbox_queue_addr (fun _ => True) s xs s'.
Proof.
  revert s xs. induction l as [|e l IH]; intros s xs; cbn [schedule].
  - intros [= <- <-]. by constructor.
  - destruct (take_turn e s) as [[x s1]|] eqn:E; [|done].
    destruct (schedule l s1) as [[xs1 s2]|] eqn:El; [|done]. intros [= <- <-].
    apply (runs_app _ s s1 [x]); [|by apply IH].
    apply (Runs_step _ _ _ _ [] s); [by constructor|by apply (take_turn_step e)|done].
Qed.

Lemma schedule_cons e l s x s1 xs s2 : take_turn e s = Some (x, s1) -> schedule l s1 = Some (xs, s2) ->
  schedule (e :: l) s = Some (x :: xs, s2).
Proof. intros H1 H2. cbn [schedule]. by rewrite H1, H2. Qed.
End Schedule.

(** ** Two tasks in one slot *)
Section Race.
Context {P : Type} `{TfmRpcLaws P}.
Context (NUM_MAILBOX_QUEUE_SLOT spe_mailbox_queue_addr : Z).
Local Abbreviation NUM := NUM_MAILBOX_QUEUE_SLOT.

(** Both tasks read the empty slots before either takes one. *)
Definition both_select (t1 t2 : Z) (m1 m2 : mailbox_msg_t) : list turn :=
  [TCall t1 m1; TCall t2 m2] ++ repeat (TClient t1) 2 ++ repeat (TClient t2) 2 ++ [TClient t1; TClient t2] ++
  [TClient t1; TClient t2; TClient t1; TClient t2].

Lemma select_all_empty : 1 <= NUM <= 32 -> acquire_select NUM (all_empty NUM) = 0.
Proof.
  intros Hn. unfold acquire_select. pose proof (slot_in_all_empty NUM 0 Hn ltac:(lia)) as Hb.
  destruct (Z.eqb_spec (all_empty NUM) 0) as [E|_]; [by rewrite E, slot_in_0 in Hb|].
  replace (Z.to_nat NUM) with (S (Z.to_nat (NUM - 1))) by lia. cbn [first_slot]. by rewrite Hb.
Qed.

(** One turn of the race: where the task is, then what it reads. *)
Ltac race_turn :=
  eapply schedule_cons; [unfold take_turn, client_step, queue_of, spe_of;
    cbn [pcs isr set_pc set_sem on_queue set_srv sem srv]; rewrite ?upd_eq, ?upd_ne, ?upd_eq, ?upd_ne by done;
    cbn [pcs isr set_pc set_sem on_queue set_srv sem srv]|].

Lemma both_select_run (s0 : sys P) t1 t2 m1 m2 : 2 <= NUM <= 32 -> initial NUM s0 -> t1 <> 0 -> t2 <> 0 -> t1 <> t2 ->
  exists s, schedule NUM (both_select t1 t2 m1 m2) s0 = Some ([LCall t1 m1; LCall t2 m2] ++ repeat LTau 10, s) /\
    pcs s t1 = PWait 0 /\ pcs s t2 = PWait 0 /\
    ns_msg (ns_slots (queue_of s) 0) = m2 /\ r_owner (ns_reply (ns_slots (queue_of s) 0)) = t2 /\
    slot_in (pend_slots (queue_of s)) 0 = true /\
    forall i, i <> 0 -> ns_slots (queue_of s) i = ns_slots (queue_of s0) i.
Proof.
  intros Hn [Hq _ Hsem Hpc Hisr Hspe] Ht1 Ht2 H12. assert (H21 : t2 <> t1) by done.
  assert (He : empty_slots (ns_queue (the_mailbox (srv s0))) = all_empty NUM) by (unfold queue_of in Hq; by rewrite Hq).
  pose proof (select_all_empty ltac:(lia)) as Hsel.
  assert (Hlt : (0 <? NUM) = true /\ (0 <? NUM - 1) = true /\ (0 >=? NUM) = false) by lia.
  destruct Hlt as (L1 & L2 & L3).
  eexists. split; [unfold both_select; cbn [app repeat]|].
  - race_turn; [rewrite Hpc, Hisr; replace (t1 =? 0) with false by lia; reflexivity|].
    race_turn; [rewrite Hpc, Hisr; replace (t2 =? 0) with false by lia; reflexivity|].
    race_turn; [rewrite Hisr, Hsem, L1; reflexivity|].
    race_turn; [rewrite Hisr, He, Hsel, L3; reflexivity|].
    race_turn; [rewrite Hisr, L2; reflexivity|].
    race_turn; [rewrite Hisr, He, Hsel, L3; reflexivity|].
    do 6 (race_turn; [rewrite Hisr, ?Hsel; reflexivity|]). reflexivity.
  - unfold queue_of. cbn [pcs set_pc on_queue set_srv srv]. rewrite !get_put. cbn [ns_queue on_ns].
    unfold set_queue_slot_pend, fill_msg_owner, set_msg_owner, clear_queue_slot_empty. rewrite L1. cbn.
    rewrite !upd_eq, ?upd_ne, ?upd_eq by done. cbn. do 4 (split; [done|]). split; [|intros i Hi; by rewrite !upd_ne].
    autorewrite with slots. by rewrite Z.eqb_refl, orb_true_r.
Qed.
End Race.

(** ** Refinement *)
Section Refinement.
Context {P : Type} `{TfmRpcLaws P}.
Context (NUM_MAILBOX_QUEUE_SLOT spe_mailbox_queue_addr : Z).
Local Abbreviation NUM := NUM_MAILBOX_QUEUE_SLOT.
Implicit Types s : sys P.

Lemma serial_refines s0 s l : 1 <= NUM <= 32 -> 0 < spe_mailbox_queue_addr -> initial NUM s0 ->
  runs NUM spe_mailbox_queue_addr (@serial P) s0 l s ->
  exists G a, rpc_runs (fun _ => AIdle) l a /\ simulates NUM s G a.
Proof.
  intros Hn Ha H1 Hr. assert (Hs : serial s) by (by destruct Hr). revert Hs.
  induction Hr as [Hs|l s x s' Hr IH Hst Hs]; intros _.
  - exists (fun _ => Free), (fun _ => AIdle). split; [constructor|]. by apply sim_initial.
  - assert (Hs' : serial s) by (by destruct Hr). destruct (IH Hs') as (G & a & Hl & HS).
    destruct (sim_step NUM spe_mailbox_queue_addr Hn Ha s G a x s' HS Hs' Hst) as (G' & a' & Hx & HS').
    exists G', a'. split; [by apply (Rpc_step _ _ a)|done].
Qed.

(** C36: the mailbox is a set of independent synchronous remote calls.  For any
    number of tasks, slots and services, and every interleaving of the two
    cores and the interrupt handler in which no two tasks are between reading
    the empty slots and taking one: what is seen of the run is a history in
    which a task that calls gets the answer to its own call and no other, each
    call is answered at most once, and no call that was answered is
    reported as refused. *)
Theorem mailbox_refines_calls s0 s l : 1 <= NUM <= 32 -> 0 < spe_mailbox_queue_addr -> initial NUM s0 ->
  runs NUM spe_mailbox_queue_addr (@serial P) s0 l s -> exists a, rpc_runs (fun _ => AIdle) l a.
Proof.
  intros Hn Ha Hi Hr. destruct (serial_refines s0 s l Hn Ha Hi Hr) as (_ & a & Hl & _). by exists a.
Qed.
End Refinement.

(** ** One slot *)
Section One_slot.
Context {P : Type} `{TfmRpc P}.
Context (spe_mailbox_queue_addr : Z).
Implicit Types s : sys P.

(** Between the lock and the unlock. *)
Definition inside (pc : client_pc) : bool := match pc with PIdle | PEnter _ => false | _ => true end.

(** The lock lets one task in. *)
Definition exclusive s : Prop :=
  sem s <= 1 /\ (1 <= sem s -> forall t, inside (pcs s t) = false) /\
  forall t t', inside (pcs s t) = true -> inside (pcs s t') = true -> t = t'.

Lemma exclusive_serial s : exclusive s -> serial s.
Proof.
  intros (_ & _ & Hx) t t' Ht Ht'. apply Hx; [by destruct (pcs s t)|by destruct (pcs s t')].
Qed.

(** A task stays inside, or outside. *)
Lemma exclusive_stay s s' t pc : exclusive s -> sem s' = sem s -> (forall u, pcs s' u = upd t pc (pcs s) u) ->
  (inside pc = true -> inside (pcs s t) = true) -> exclusive s'.
Proof.
  intros (H1 & H2 & H3) Es Ep Hin.
  assert (Hi : forall u, inside (pcs s' u) = true -> inside (pcs s u) = true).
  { intros u. rewrite Ep. unfold upd. destruct (Z.eqb_spec u t) as [->|]; [apply Hin|done]. }
  split; [by rewrite Es|]. split.
  - rewrite Es. intros Hs u. apply not_true_is_false. intros Hu%Hi. by rewrite H2 in Hu.
  - intros u u' Hu%Hi Hu'%Hi. by apply H3.
Qed.

Lemma exclusive_same s s' : exclusive s -> sem s' = sem s -> (forall u, pcs s' u = pcs s u) -> exclusive s'.
Proof. intros (H1 & H2 & H3) Es Ep. unfold exclusive. rewrite Es. setoid_rewrite Ep. done. Qed.

Lemma exclusive_client t s l s' : exclusive s -> client_step 1 t s = Some (l, s') -> exclusive s'.
Proof.
  intros HX. pose proof HX as (H1 & H2 & H3). unfold client_step.
  assert (Hstay : forall x pc s1, sem s1 = sem s -> (forall u, pcs s1 u = pcs s u) -> inside (pcs s t) = true ->
    Some (x, set_pc t pc s1) = Some (l, s') -> exclusive s').
  { intros x pc s1 Es Ep Hin [= _ <-]. apply (exclusive_stay s _ t pc); try done.
    intros u. cbn. unfold upd. by destruct (u =? t). }
  destruct (pcs s t) as [|m|m|m st|m i|m i|i|i|i|ret r] eqn:E; [done| | | | | | | | |]; cbn [inside] in *.
  - destruct (Z.ltb_spec 0 (sem s)) as [Hp|]; [|done]. intros [= <- <-]. unfold exclusive. cbn.
    split; [lia|]. split; [lia|]. intros u u'. unfold upd.
    destruct (Z.eqb_spec u t) as [->|], (Z.eqb_spec u' t) as [->|]; rewrite ?H2 by lia; done.
  - destruct (_ >=? 1); by apply Hstay.
  - by apply Hstay.
  - by apply Hstay.
  - by apply Hstay.
  - destruct (flags s t); [by apply Hstay|done].
  - destruct (mailbox_wait_reply_signal _ _ _) as [b q]. by apply Hstay.
  - destruct (mailbox_rx_client_reply _ _ _) as [v q]. by apply Hstay.
  - intros [= <- <-]. assert (Hz : sem s < 1).
    { destruct (Z.lt_ge_cases (sem s) 1); [done|]. specialize (H2 ltac:(lia) t). by rewrite E in H2. }
    assert (Hout : forall u, u <> t -> inside (pcs s u) = false).
    { intros u Hu. apply not_true_is_false. intros Hin. apply Hu, H3; [done|by rewrite E]. }
    unfold exclusive. cbn. split; [lia|]. unfold upd. split.
    + intros _ u. destruct (Z.eqb_spec u t) as [->|]; [done|by apply Hout].
    + intros u u'. destruct (Z.eqb_spec u t) as [->|]; [done|]. by rewrite Hout.
Qed.

Lemma isr_step_same n s : sem (isr_step n s) = sem s /\ forall t, pcs (isr_step n s) t = pcs s t.
Proof.
  unfold isr_step. destruct (isr s) as [[idx st]|]; [|by destruct (_ =? 0)].
  destruct (idx <? n); [|done]. destruct (negb _); [done|]. by destruct (_ =? 0).
Qed.

Lemma spe_step_same n s l s' : spe_step n s = Some (l, s') -> sem s' = sem s /\ forall t, pcs s' t = pcs s t.
Proof.
  unfold spe_step. destruct (spe s) as [|idx pend psa rs].
  - destruct (handle_begin (srv s)) as [[pend| |] p]; try done. by destruct (pend =? 0); intros [= <- <-].
  - destruct (idx <? n).
    + destruct (handle_slot _ _ _ _ _ _) as [[[psa' rs']| |] p]; try done. by intros [= <- <-].
    + destruct (handle_end _ _ _) as [[[]| |] p]; try done. by intros [= <- <-].
Qed.

Lemma exclusive_step s l s' : exclusive s -> step 1 spe_mailbox_queue_addr s l s' -> exclusive s'.
Proof.
  intros HX [t m Ht E Ei|t e E He|t x s1 Ei Hst|t m E Ei|t ret r E Ei|t| |x s1 Hst|p E Hp|idx ret w p E Hi Hb Hrun Hp].
  - by apply (exclusive_stay s _ t (PEnter m)).
  - done.
  - by apply (exclusive_client t s x).
  - by apply (exclusive_stay s _ t PIdle).
  - by apply (exclusive_stay s _ t PIdle).
  - by apply (exclusive_same s).
  - destruct (isr_step_same 1 s). by apply (exclusive_same s).
  - destruct (spe_step_same 1 s x s1 Hst). by apply (exclusive_same s).
  - by apply (exclusive_same s).
  - by apply (exclusive_same s).
Qed.

(** With one slot, tasks take it one at a time. *)
Lemma one_slot_runs s0 l s : initial 1 s0 -> runs 1 spe_mailbox_queue_addr (fun _ => True) s0 l s ->
  runs 1 spe_mailbox_queue_addr (@serial P) s0 l s.
Proof.
  intros [I1 I2 I3 I4 I5 I6] Hr.
  enough (exclusive s /\ runs 1 spe_mailbox_queue_addr (@serial P) s0 l s) as [_ ?] by done.
  assert (H0 : exclusive s0).
  { split; [by rewrite I3|]. split; [intros _ t; by rewrite I4|]. intros t t'. by rewrite I4. }
  induction Hr as [_|l s x s' Hr [IH1 IH2] Hst _].
  - split; [done|]. constructor. by apply exclusive_serial.
  - pose proof (exclusive_step s x s' IH1 Hst) as HX. split; [done|].
    apply (Runs_step _ _ _ _ _ s); [done|done|by apply exclusive_serial].
Qed.
End One_slot.

(** ** A server that answers the version calls and accepts the others *)
Module Toy.
#[export] Instance toy_rpc : TfmRpc mbox := {
  the_mailbox := fun w => w;
  put_mailbox := fun w _ => w;
  rpc_psa_framework_version := sret PSA_FRAMEWORK_VERSION;
  rpc_psa_version := fun _ _ => sret PSA_VERSION_NONE;
  rpc_psa_connect := fun _ _ => sret PSA_SUCCESS;
  rpc_psa_call := fun _ _ => sret PSA_SUCCESS;
  rpc_psa_close := fun _ _ => sret tt
}.
#[export] Instance toy_laws : TfmRpcLaws mbox.
Proof. by split. Qed.

Definition addr : Z := 0x10000000.
Definition zero_mbox : mbox := {|
  spe_mailbox_queue := {| s_empty_slots := 0; s_slots := fun _ => zero_secure_slot; s_ns_queue := false; cur_proc_slot_idx := 0 |};
  ns_queue := {| empty_slots := 0; pend_slots := 0; replied_slots := 0; ns_slots := fun _ => zero_ns_slot |} |}.
Definition start (n : Z) : sys mbox := {|
  srv := snd (tfm_mailbox_init n (MAILBOX_SUCCESS, true) false
    (on_ns (fun q => snd (tfm_ns_mailbox_init n false MAILBOX_SUCCESS MAILBOX_SUCCESS q)) zero_mbox));
  sem := n; flags := fun _ => false; pcs := fun _ => PIdle; isr := None; spe := SIdle |}.

Lemma start_initial n : initial n (start n).
Proof. constructor; try done. by eexists. Qed.

Definition version_msg : mailbox_msg_t :=
  {| m_call_type := MAILBOX_PSA_FRAMEWORK_VERSION; m_params := zero_params; m_client_id := 1 |}.
Definition other_msg : mailbox_msg_t :=
  {| m_call_type := MAILBOX_PSA_VERSION; m_params := zero_params; m_client_id := 1 |}.

(** One call from beginning to end. *)
Definition one_call : list turn :=
  [TCall 1 version_msg] ++ repeat (TClient 1) 5 ++ repeat TSpe 3 ++ repeat TIsr 2 ++ repeat (TClient 1) 4.

(** Two tasks read the same empty slots. *)
Definition race : list turn :=
  [TCall 1 version_msg; TCall 2 other_msg] ++ repeat (TClient 1) 2 ++ repeat (TClient 2) 2 ++
  repeat (TClient 1) 3 ++ repeat TSpe 4 ++ repeat TIsr 2 ++ repeat (TClient 1) 2 ++
  repeat (TClient 2) 3 ++ repeat TSpe 4 ++ repeat (TClient 1) 2.
End Toy.
Import Toy.

Lemma one_call_history : option_map fst (schedule 1 one_call (start 1)) =
  Some ([LCall 1 version_msg] ++ repeat LTau 5 ++ [LTau; LAnswer 1 version_msg 257; LTau] ++ repeat LTau 2 ++
    repeat LTau 3 ++ [LReturn 1 0 (Some 257)]).
Proof. vm_compute. reflexivity. Qed.

(** What is seen of the race. *)
Definition seen (x : label) : bool := match x with LTau => false | _ => true end.
Lemma race_history : option_map (fun r => List.filter seen (fst r)) (schedule 2 race (start 2)) =
  Some [LCall 1 version_msg; LCall 2 other_msg; LAnswer 1 version_msg 257; LAnswer 2 other_msg 0; LReturn 1 0 (Some 0)].
Proof. vm_compute. reflexivity. Qed.

Lemma rpc_runs_seen a0 l a : rpc_runs a0 l a -> rpc_runs a0 (List.filter seen l) a.
Proof.
  induction 1 as [|l a x a' Hr IH Hst]; [constructor|]. rewrite List.filter_app. cbn.
  destruct Hst; cbn; try (by eapply Rpc_step; [exact IH|constructor]).
  - eapply Rpc_step; [exact IH|]. by eapply A_refused.
  - by rewrite app_nil_r.
Qed.

Lemma rpc_runs_snoc a0 l x a' : rpc_runs a0 (l ++ [x]) a' -> exists a, rpc_runs a0 l a /\ rpc_step a x a'.
Proof.
  intros Hr. inversion Hr as [E|l1 a x1 a1 H1 H2 E]; [by destruct l|].
  apply app_inj_tail in E as [-> ->]. by exists a.
Qed.

Lemma race_not_allowed a :
  ~ rpc_runs (fun _ => AIdle) [LCall 1 version_msg; LCall 2 other_msg; LAnswer 1 version_msg 257; LAnswer 2 other_msg 0;
      LReturn 1 0 (Some 0)] a.
Proof.
  intros Hr. apply (rpc_runs_snoc _ [_; _; _; _]) in Hr as (a4 & Hr & H5).
  apply (rpc_runs_snoc _ [_; _; _]) in Hr as (a3 & Hr & H4). apply (rpc_runs_snoc _ [_; _]) in Hr as (a2 & Hr & H3).
  inversion H3 as [|t m v Ht E1 E2| | | | |]; subst. inversion H4; subst. inversion H5 as [| |t v Ht' E1 E2| | | |]; subst.
  rewrite upd_ne in Ht' by done. by rewrite upd_eq in Ht'.
Qed.

Lemma race_runs : exists l s, runs 2 addr (fun _ => True) (start 2) l s /\
  List.filter seen l = [LCall 1 version_msg; LCall 2 other_msg; LAnswer 1 version_msg 257; LAnswer 2 other_msg 0;
    LReturn 1 0 (Some 0)].
Proof.
  pose proof race_history as E. destruct (schedule 2 race (start 2)) as [[l s]|] eqn:Es; [|done].
  exists l, s. split; [by apply (schedule_runs 2 addr) in Es|]. by injection E.
Qed.

(** C38: two tasks that take slots at the same time can get each other's
    answers.  acquire_empty_slot reads the empty slots and clears the bit of
    the one it takes in two separate critical sections, and the lock admits as
    many tasks as there are slots.  With two slots or more, any server and any
    two messages of two tasks there is a run in which both tasks wait for a
    reply in the first slot, which holds the message of the second only, so
    that the message of the first is lost; and with two slots there is a run in
    which both calls are answered and the first task returns MAILBOX_SUCCESS
    with the answer to the second, which no history of independent calls
    contains. *)
Theorem mailbox_slot_race {P : Type} `{TfmRpcLaws P} n queue_addr (s0 : sys P) t1 t2 m1 m2 :
  2 <= n <= 32 -> initial n s0 -> t1 <> 0 -> t2 <> 0 -> t1 <> t2 ->
  (exists s, runs n queue_addr (fun _ => True) s0 ([LCall t1 m1; LCall t2 m2] ++ repeat LTau 10) s /\
    pcs s t1 = PWait 0 /\ pcs s t2 = PWait 0 /\
    ns_msg (ns_slots (queue_of s) 0) = m2 /\ r_owner (ns_reply (ns_slots (queue_of s) 0)) = t2 /\
    slot_in (pend_slots (queue_of s)) 0 = true /\
    forall i, i <> 0 -> ns_slots (queue_of s) i = ns_slots (queue_of s0) i) /\
  (exists l s, runs 2 addr (fun _ => True) (start 2) l s /\
    List.filter seen l = [LCall 1 version_msg; LCall 2 other_msg; LAnswer 1 version_msg 257; LAnswer 2 other_msg 0;
      LReturn 1 MAILBOX_SUCCESS (Some 0)] /\
    ~ exists a, rpc_runs (fun _ => AIdle) l a).
Proof.
  intros Hn Hi Ht1 Ht2 H12. split.
  - destruct (both_select_run n s0 t1 t2 m1 m2 Hn Hi Ht1 Ht2 H12) as (s & Hs & Hrest).
    exists s. split; [by apply (schedule_runs n queue_addr) in Hs|exact Hrest].
  - destruct race_runs as (l & s & Hr & Hl). exists l, s. do 2 (split; [done|]).
    intros [a Ha%rpc_runs_seen]. rewrite Hl in Ha. by apply race_not_allowed in Ha.
Qed.

Lemma mailbox_slot_race_witness : initial 3 (start 3) /\
  exists s, runs 3 addr (fun _ => True) (start 3) ([LCall 1 version_msg; LCall 2 other_msg] ++ repeat LTau 10) s /\
    pcs s 1 = PWait 0 /\ pcs s 2 = PWait 0 /\ ns_msg (ns_slots (queue_of s) 0) = other_msg.
Proof.
  split; [apply start_initial|].
  destruct (mailbox_slot_race 3 addr (start 3) 1 2 version_msg other_msg ltac:(lia) (start_initial 3) ltac:(lia) ltac:(lia)
    ltac:(lia)) as [(s & H1 & H2 & H3 & H4 & _) _].
  exists s. exact (conj H1 (conj H2 (conj H3 H4))).
Defined.

(** C37: with one slot, the default, the mailbox is a set of independent
    synchronous remote calls under every interleaving. *)
Theorem mailbox_one_slot_refines {P : Type} `{TfmRpcLaws P} queue_addr (s0 s : sys P) l : 0 < queue_addr -> initial 1 s0 ->
  runs 1 queue_addr (fun _ => True) s0 l s -> exists a, rpc_runs (fun _ => AIdle) l a.
Proof.
  intros Ha Hi Hr%one_slot_runs; [|done].
  destruct (serial_refines 1 queue_addr s0 s l ltac:(lia) Ha Hi Hr) as (_ & a & Hl & _). by exists a.
Qed.

Lemma one_call_runs : exists l s, runs 1 addr (fun _ => True) (start 1) l s /\
  List.filter seen l = [LCall 1 version_msg; LAnswer 1 version_msg 257; LReturn 1 0 (Some 257)].
Proof.
  pose proof one_call_history as E. destruct (schedule 1 one_call (start 1)) as [[l s]|] eqn:Es; [|done].
  exists l, s. split; [by apply (schedule_runs 1 addr) in Es|]. injection E as ->. by vm_compute.
Qed.

(** A call from beginning to end. *)
Lemma mailbox_one_slot_refines_witness : exists l s a, runs 1 addr (fun _ => True) (start 1) l s /\
  List.filter seen l = [LCall 1 version_msg; LAnswer 1 version_msg 257; LReturn 1 0 (Some 257)] /\
  rpc_runs (fun _ => AIdle) l a.
Proof.
  destruct one_call_runs as (l & s & Hr & Hl).
  destruct (mailbox_one_slot_refines addr (start 1) s l ltac:(reflexivity) (start_initial 1) Hr) as [a Ha].
  by exists l, s, a.
Defined.

Lemma mailbox_refines_calls_witness : exists l s a, runs 1 addr (@serial mbox) (start 1) l s /\
  List.filter seen l = [LCall 1 version_msg; LAnswer 1 version_msg 257; LReturn 1 0 (Some 257)] /\
  rpc_runs (fun _ => AIdle) l a.
Proof.
  destruct one_call_runs as (l & s & Hr & Hl).
  pose proof (one_slot_runs addr (start 1) l s (start_initial 1) Hr) as Hr'.
  destruct (mailbox_refines_calls 1 addr (start 1) s l ltac:(lia) ltac:(reflexivity) (start_initial 1) Hr') as [a Ha].
  by exists l, s, a.
Defined.

(** ** The steps of the secure core *)
Section Steps.
Context {P : Type} `{TfmRpc P} (NUM_MAILBOX_QUEUE_SLOT spe_mailbox_queue_addr : Z).
Local Abbreviation NUM := NUM_MAILBOX_QUEUE_SLOT.
Implicit Types s : sys P.

(** [k] steps of the secure core. *)
Fixpoint spe_steps (k : nat) s : option (sys P) :=
  match k with
  | O => Some s
  | S k' => match spe_step NUM s with Some (_, s') => spe_steps k' s' | None => None end
  end.

Lemma spe_steps_slots n idx pend psa rs (p p' : P) psa' rs' s : idx + Z.of_nat n = NUM ->
  handle_slots NUM n idx pend psa rs p = (Done (psa', rs'), p') ->
  spe_steps n (set_spe (SLoop idx pend psa rs) (set_srv p s)) = Some (set_spe (SLoop NUM pend psa' rs') (set_srv p' s)).
Proof.
  revert idx psa rs p. induction n as [|n IH]; intros idx psa rs p Hn; cbn [handle_slots spe_steps].
  - intros [= <- <- <-]. by replace NUM with idx by lia.
  - unfold sbind. destruct (handle_slot NUM pend idx psa rs p) as [[[psa1 rs1]| |] p1] eqn:E; try done.
    intros Hr. unfold spe_step. cbn [spe set_spe srv set_srv]. replace (idx <? NUM) with true by lia. rewrite E.
    by apply (IH (idx + 1) psa1 rs1 p1 ltac:(lia)).
Qed.

(** The steps of the secure core in the system are tfm_mailbox_handle_msg:
    when the function returns, its critical section, the turns of its loop and
    its last critical section lead from outside of it to outside of it, in the
    state it returns in. *)
Theorem handle_msg_is_steps s r p' : 0 <= NUM -> spe s = SIdle -> tfm_mailbox_handle_msg NUM (srv s) = (Done r, p') ->
  exists k, spe_steps k s = Some (set_srv p' s) /\
    (r = MAILBOX_NO_PEND_EVENT /\ k = 0%nat /\ p' = srv s \/ r = MAILBOX_SUCCESS /\ k = (Z.to_nat NUM + 2)%nat).
Proof.
  intros Hn Hs. unfold tfm_mailbox_handle_msg. unfold sbind at 1.
  destruct (handle_begin (srv s)) as [[pend| |] p1] eqn:Eb; try done.
  destruct (pend =? 0) eqn:Ep.
  - intros [= <- <-]. assert (p1 = srv s) as ->.
    { revert Eb. unfold handle_begin, sbind, sget, TFM_CORE_ASSERT. destruct (s_ns_queue _); cbn; by intros [=]. }
    exists 0%nat. split; [|by left]. cbn. by destruct s.
  - unfold sbind. destruct (handle_slots _ _ _ _ _ _ p1) as [[[psa rs]| |] p2] eqn:El; try done.
    destruct (handle_end pend rs p2) as [[[]| |] p3] eqn:Ee; try done. intros [= <- <-].
    exists (Z.to_nat NUM + 2)%nat. split; [|by right].
    replace (Z.to_nat NUM + 2)%nat with (S (Z.to_nat NUM + 1)) by lia. cbn [spe_steps].
    unfold spe_step at 1. rewrite Hs, Eb, Ep.
    assert (Hadd : forall a b x, spe_steps (a + b) x = match spe_steps a x with Some y => spe_steps b y | None => None end).
    { induction a as [|a IH]; intros b x; [done|]. cbn [spe_steps Nat.add]. destruct (spe_step NUM x) as [[l y]|]; [apply IH|done]. }
    rewrite Hadd, (spe_steps_slots (Z.to_nat NUM) 0 pend PSA_ERROR_GENERIC_ERROR 0 p1 p2 psa rs s ltac:(lia) El).
    cbn [spe_steps]. unfold spe_step. cbn [spe set_spe srv set_srv]. replace (NUM <? NUM) with false by lia.
    rewrite Ee. destruct s as [a b c d e f]. cbn in Hs. subst f. done.
Qed.
End Steps.

(** ** Replies by handle *)
Lemma s32_of_u32 x : s32 (u32 x) = s32 x.
Proof. unfold s32, u32. by rewrite Z.add_mod_idemp_l. Qed.

Lemma reply_msg_run n handle ret w : s_ns_queue (spe_mailbox_queue w) = true -> 0 <= handle <= 256 ->
  let idx := if handle =? 0 then 0 else handle - 1 in
  tfm_mailbox_reply_msg n handle ret w =
  if get_spe_queue_empty_status n idx (spe_mailbox_queue w) then (Done MAILBOX_NO_PEND_EVENT, w)
  else if idx >=? n then (Fault, w)
  else (Done MAILBOX_SUCCESS, on_ns (set_nspe_queue_replied_status (slot_bit idx))
    (on_spe (fun q => set_spe_queue_empty_status n idx (on_s_slot idx (fun _ => zero_secure_slot) q))
      (on_ns (on_ns_slot (ns_slot_idx (s_slots (spe_mailbox_queue w) idx)) (on_reply (set_return_val (s32 (u32 ret))))) w))).
Proof.
  intros Hq Hh idx. unfold tfm_mailbox_reply_msg. rewrite sbind_sget, Hq. unfold TFM_CORE_ASSERT. unfold sbind at 1, sret at 1.
  assert (E : (if handle =? MAILBOX_MSG_NULL_HANDLE then Ok 0 else get_spe_mailbox_msg_idx handle) = Ok idx).
  { unfold idx, get_spe_mailbox_msg_idx, MAILBOX_MSG_NULL_HANDLE. destruct (Z.eqb_spec handle 0); [done|].
    rewrite u8_small; [done|lia]. }
  rewrite E. destruct (get_spe_queue_empty_status _ _ _); [done|].
  unfold mailbox_direct_reply, sbind, sget, sput, get_nspe_reply_addr, mailbox_clean_queue_slot.
  by destruct (idx >=? n).
Qed.

(** Tfm_mailbox_reply_msg on every handle.  The null handle stands for the
    first slot; the handle of a slot that has no message is refused; that of a
    slot with a message writes the result to the slot of the other core it was
    taken from, empties it and sets its replied bit; a handle past the last
    slot, which is not refused, makes it write through a null pointer. *)
Theorem reply_msg_correct n w handle ret : 1 <= n <= 32 -> 0 <= handle <= 256 -> s_ns_queue (spe_mailbox_queue w) = true ->
  let idx := if handle =? 0 then 0 else handle - 1 in
  let sl := s_slots (spe_mailbox_queue w) idx in
  if n <=? idx then tfm_mailbox_reply_msg n handle ret w = (Fault, w)
  else if get_spe_queue_empty_status n idx (spe_mailbox_queue w)
  then tfm_mailbox_reply_msg n handle ret w = (Done MAILBOX_NO_PEND_EVENT, w)
  else exists w', tfm_mailbox_reply_msg n handle ret w = (Done MAILBOX_SUCCESS, w') /\
    return_val (ns_reply (ns_slots (ns_queue w') (ns_slot_idx sl))) = s32 ret /\
    get_spe_queue_empty_status n idx (spe_mailbox_queue w') = true /\
    replied_slots (ns_queue w') = Z.lor (replied_slots (ns_queue w)) (slot_bit idx) /\
    forall j, j <> ns_slot_idx sl -> ns_slots (ns_queue w') j = ns_slots (ns_queue w) j.
Proof.
  intros Hn Hh Hq idx sl. assert (Hidx : 0 <= idx) by (unfold idx; destruct (Z.eqb_spec handle 0); lia).
  pose proof (reply_msg_run n handle ret w Hq Hh) as Hrun. fold idx in Hrun. cbv zeta in Hrun. rewrite Hrun.
  destruct (Z.leb_spec n idx) as [Hge|Hlt].
  - unfold get_spe_queue_empty_status. replace (idx <? n) with false by lia. by replace (idx >=? n) with true by lia.
  - destruct (get_spe_queue_empty_status n idx _); [done|]. replace (idx >=? n) with false by lia.
    eexists. split; [done|]. fold sl. cbn [on_ns on_spe ns_queue spe_mailbox_queue set_nspe_queue_replied_status set_replied_slots
      on_ns_slot ns_slots replied_slots]. rewrite upd_eq. split; [apply s32_of_u32|]. split; [|split; [done|]].
    + unfold get_spe_queue_empty_status, set_spe_queue_empty_status. replace (idx <? n) with true by lia. cbn.
      autorewrite with slots. by rewrite Z.eqb_refl, orb_true_r.
    + intros j Hj. by apply upd_ne.
Qed.

(** A mailbox of two slots with a message of task 7 in the second. *)
Definition busy_mailbox : mbox :=
  on_spe (fun q => on_s_slot 1 (fun _ => {| s_msg := other_msg; ns_slot_idx := 1; msg_handle := 2 |})
    (clear_spe_queue_empty_status 2 1 q)) (srv (start 2)).

Lemma reply_msg_correct_witness :
  s_ns_queue (spe_mailbox_queue busy_mailbox) = true /\ tfm_mailbox_reply_msg 2 3 5 busy_mailbox = (Fault, busy_mailbox) /\
  tfm_mailbox_reply_msg 2 0 5 busy_mailbox = (Done MAILBOX_NO_PEND_EVENT, busy_mailbox) /\
  exists w', tfm_mailbox_reply_msg 2 2 5 busy_mailbox = (Done MAILBOX_SUCCESS, w') /\
    return_val (ns_reply (ns_slots (ns_queue w') 1)) = 5.
Proof.
  split; [reflexivity|]. split; [exact (reply_msg_correct 2 busy_mailbox 3 5 ltac:(lia) ltac:(lia) eq_refl)|].
  split; [exact (reply_msg_correct 2 busy_mailbox 0 5 ltac:(lia) ltac:(lia) eq_refl)|].
  destruct (reply_msg_correct 2 busy_mailbox 2 5 ltac:(lia) ltac:(lia) eq_refl) as (w' & E & Hv & _).
  exists w'. split; [exact E|exact Hv].
Defined.

(** ** The SPM behind the mailbox *)
Section Spm.
Context (cfg : spm_config) (NUM_MAILBOX_QUEUE_SLOT spe_mailbox_queue_addr : Z).
Local Abbreviation NUM := NUM_MAILBOX_QUEUE_SLOT.
Local Abbreviation ops := (mailbox_rpc_ops NUM_MAILBOX_QUEUE_SLOT spe_mailbox_queue_addr).
#[local] Instance server : TfmRpc (spm mbox) := spm_rpc cfg NUM_MAILBOX_QUEUE_SLOT spe_mailbox_queue_addr.
#[local] Instance server_laws : TfmRpcLaws (spm mbox) := spm_rpc_laws cfg NUM_MAILBOX_QUEUE_SLOT spe_mailbox_queue_addr.

(** What the SPM does to the mailbox.  A system call of a partition leaves
    it as it is, or makes one reply in it, by the caller data of a message. *)
Theorem svc_moves_mailbox_by_reply scfg svc ctx exc (s : spm mbox) :
  let s' := snd (tfm_core_svc_handler cfg ops scfg svc ctx exc s) in
  mailbox s' = mailbox s \/
  exists c ret, mailbox s' = snd (mailbox_reply NUM spe_mailbox_queue_addr (caller_data (internal_msg (conns s c))) ret (mailbox s)).
Proof. apply (svc_by_reply cfg ops). Qed.

(** The handle that the SPM stores in a message. *)
Lemma loaded_caller_data idx w cid : 0 <= idx < NUM ->
  mailbox_get_caller_data NUM spe_mailbox_queue_addr cid (loaded NUM idx w) = msg_handle_addr spe_mailbox_queue_addr idx.
Proof. intros Hi. unfold mailbox_get_caller_data, loaded. cbn. by replace (idx <? NUM) with true by lia. Qed.

(** The rest of the turn, after an answer [v] of psa_connect or psa_call. *)
Lemma dispatched_call idx psa rs m (f : SPM (spm mbox) Z) (s s' : spm mbox) psa' rs' :
  m_call_type m = MAILBOX_PSA_CONNECT \/ m_call_type m = MAILBOX_PSA_CALL ->
  tfm_mailbox_dispatch (m_call_type m) (m_params m) (m_client_id m) psa = sbind f (fun v => sret (MAILBOX_SUCCESS, v)) ->
  dispatched NUM idx psa rs m s = (Done (psa', rs'), s') ->
  exists s1, f s = (Done psa', s1) /\
    let s2 := set_mailbox (on_spe (set_cur_proc NUM) (mailbox s1)) s1 in
    if psa' =? PSA_SUCCESS then s' = s2 /\ rs' = rs
    else on_mailbox (mailbox_direct_reply NUM idx (u32 psa')) s2 = (Done tt, s') /\ rs' = Z.lor rs (slot_bit idx).
Proof.
  intros Hct Hd E. unfold dispatched in E. rewrite Hd in E. unfold sbind at 1 2 in E.
  destruct (f s) as [[v| |] s1]; try done. cbn [sret Z.eqb MAILBOX_SUCCESS negb] in E. unfold sbind at 1 in E.
  unfold on_mailbox at 1, sput at 1 in E. exists s1. unfold reply_at_once in E.
  replace ((m_call_type m =? MAILBOX_PSA_FRAMEWORK_VERSION) || (m_call_type m =? MAILBOX_PSA_VERSION)) with false in E
    by (by destruct Hct as [->| ->]).
  replace ((m_call_type m =? MAILBOX_PSA_CONNECT) || (m_call_type m =? MAILBOX_PSA_CALL)) with true in E
    by (by destruct Hct as [->| ->]).
  unfold sbind in E. destruct (Z.eqb_spec v PSA_SUCCESS) as [->|Hv]; cbn [negb] in E.
  - by injection E as <- <- <-.
  - destruct (on_mailbox _ _) as [[[]| |] s3] eqn:Er; try done. injection E as <- <- <-.
    split; [done|]. by replace (v =? PSA_SUCCESS) with false by lia.
Qed.

(** Slot [idx] of the secure queue still holds the message of its call. *)
Definition held (idx : Z) (w : mbox) : Prop :=
  s_ns_queue (spe_mailbox_queue w) = true /\ get_spe_queue_empty_status NUM idx (spe_mailbox_queue w) = false /\
  msg_handle (s_slots (spe_mailbox_queue w) idx) = idx + 1 /\ ns_slot_idx (s_slots (spe_mailbox_queue w) idx) = idx.
Definition answer (idx : Z) (w : mbox) (v : Z) : Prop := return_val (ns_reply (ns_slots (ns_queue w) idx)) = s32 v.
(** The type of the message of the SPM for a call. *)
Definition request_type (m : mailbox_msg_t) : Z :=
  if m_call_type m =? MAILBOX_PSA_CONNECT then PSA_IPC_CONNECT else s32 (word1 (m_params m)).

(** C39: a psa_connect or psa_call from the other core is either answered at
    once with the error of the SPM, or the SPM has put a message for it, of the
    right type and client, at the end of the queue of the partition of a
    service whose signal is asserted; a reply to the client of that message, at
    any later time at which the slot of the call still holds it, goes to that
    slot and to no other and sets its replied bit. *)
Theorem call_answered_or_queued idx pend psa rs m (s s' : spm mbox) psa' rs' :
  1 <= NUM <= 32 -> 0 < spe_mailbox_queue_addr -> 0 <= idx < NUM -> TFM_MULTI_CORE_TOPOLOGY cfg = true ->
  s_ns_queue (spe_mailbox_queue (mailbox s)) = true -> slot_in pend idx = true ->
  ns_msg (ns_slots (ns_queue (mailbox s)) idx) = m ->
  m_call_type m = MAILBOX_PSA_CONNECT \/ m_call_type m = MAILBOX_PSA_CALL ->
  handle_slot NUM pend idx psa rs s = (Done (psa', rs'), s') ->
  psa' <> PSA_SUCCESS /\ answer idx (mailbox s') psa' /\ slot_in rs' idx = true \/
  psa' = PSA_SUCCESS /\ rs' = rs /\ held idx (mailbox s') /\
  exists c data, sent s' (request_type m) tfm_nspm_get_current_client_id data c /\
    forall w ret, held idx w -> exists w', mailbox_reply NUM spe_mailbox_queue_addr data ret w = (Done tt, w') /\
      answer idx w' ret /\ slot_in (replied_slots (ns_queue w')) idx = true /\
      forall j, j <> idx -> ns_slots (ns_queue w') j = ns_slots (ns_queue w) j.
Proof.
  intros Hn Ha Hi Hm Hq Hin Hmsg Hct Hrun.
  rewrite handle_slot_dispatch in Hrun by done. cbn [the_mailbox put_mailbox server spm_rpc] in *. rewrite Hmsg in *.
  set (s0 := set_mailbox (loaded NUM idx (mailbox s)) s) in *.
  assert (Hf : exists f, tfm_mailbox_dispatch (m_call_type m) (m_params m) (m_client_id m) psa =
      sbind f (fun v => sret (MAILBOX_SUCCESS, v)) /\ result f s0 (accepts ops (request_type m) s0)).
  { unfold request_type. destruct Hct as [->| ->]; eexists; (split; [reflexivity|]);
      [apply (connect_data cfg ops)|apply (call_data cfg ops)]; done. }
  destruct Hf as (f & Hd & Hacc).
  destruct (dispatched_call idx psa rs m f s0 s' psa' rs' Hct Hd Hrun) as (s1 & E1 & Hs').
  assert (Hw1 : mailbox s1 = loaded NUM idx (mailbox s)).
  { pose proof (dispatch_frame (m_call_type m) (m_params m) (m_client_id m) psa s0) as Hf. rewrite Hd in Hf.
    unfold sbind in Hf. rewrite E1 in Hf. exact Hf. }
  set (w2 := on_spe (set_cur_proc NUM) (mailbox s1)) in *.
  assert (Hh : held idx w2).
  { unfold held, w2. rewrite Hw1. cbn [on_spe spe_mailbox_queue set_cur_proc s_ns_queue s_slots].
    rewrite (loaded_slot NUM idx (mailbox s)). unfold get_spe_queue_empty_status, loaded, clear_spe_queue_empty_status.
    replace (idx <? NUM) with true by lia. cbn. autorewrite with slots. by rewrite Z.eqb_refl, andb_false_r. }
  cbv zeta in Hs'. destruct (Z.eqb_spec psa' PSA_SUCCESS) as [->|Hne].
  - right. destruct Hs' as [-> ->]. do 2 (split; [done|]). split; [exact Hh|].
    destruct (Hacc PSA_SUCCESS s1 E1 eq_refl) as [c Hc]. exists c, (msg_handle_addr spe_mailbox_queue_addr idx).
    cbn [get_caller_data mailbox_rpc_ops] in Hc. change (mailbox s0) with (loaded NUM idx (mailbox s)) in Hc.
    rewrite loaded_caller_data in Hc by done. split; [exact Hc|]. intros w ret (W1 & W2 & W3 & W4).
    assert (Hsl : s_slots (spe_mailbox_queue w) idx =
      {| s_msg := s_msg (s_slots (spe_mailbox_queue w) idx); ns_slot_idx := idx; msg_handle := idx + 1 |})
      by (destruct (s_slots (spe_mailbox_queue w) idx); cbn in *; by subst).
    eexists. split; [apply (mailbox_reply_run NUM spe_mailbox_queue_addr Hn Ha idx ret _ w Hi W1 W2 Hsl)|].
    split; [|split].
    + unfold answer. cbn. rewrite upd_eq. cbn. apply s32_of_u32.
    + cbn. autorewrite with slots. by rewrite Z.eqb_refl, orb_true_r.
    + intros j Hj. cbn. by apply upd_ne.
  - left. destruct Hs' as [Hr ->]. split; [done|]. destruct Hh as (_ & _ & _ & H4). split.
    + rewrite (on_mailbox_run _ (set_mailbox w2 s1) _ _ (direct_reply_run NUM idx (u32 psa') w2 Hi H4)) in Hr.
      injection Hr as <-. unfold answer. cbn. rewrite upd_eq. cbn. apply s32_of_u32.
    + autorewrite with slots. by rewrite Z.eqb_refl, orb_true_r.
Qed.

(** The arguments of the PSA client calls of the non-secure core reach the
    SPM as they are, through the union of the message: what the secure core
    dispatches for a message is the SPM's function on the arguments the API had,
    for a non-secure caller. *)
Theorem ns_api_reaches_spm junk sid version handle type in_vec in_len out_vec out_len cid psa :
  - 2 ^ 31 <= handle < 2 ^ 31 -> - 2 ^ 31 <= type < 2 ^ 31 ->
  (forall s, tfm_mailbox_dispatch MAILBOX_PSA_VERSION (NsApi.version_params junk sid) cid psa s =
     sbind (tfm_spm_client_psa_version cfg sid true) (fun v => sret (MAILBOX_SUCCESS, s32 v)) s) /\
  (forall s, tfm_mailbox_dispatch MAILBOX_PSA_CONNECT (NsApi.connect_params junk sid version) cid psa s =
     sbind (tfm_spm_client_psa_connect cfg ops sid version true) (fun v => sret (MAILBOX_SUCCESS, v)) s) /\
  (forall s, tfm_mailbox_dispatch MAILBOX_PSA_CALL (NsApi.call_params handle type in_vec in_len out_vec out_len) cid psa s =
     sbind (tfm_spm_client_psa_call cfg ops handle type in_vec in_len out_vec out_len true TFM_PARTITION_UNPRIVILEGED_MODE)
       (fun v => sret (MAILBOX_SUCCESS, v)) s) /\
  (forall s, tfm_mailbox_dispatch MAILBOX_PSA_CLOSE (NsApi.close_params junk handle) cid psa s =
     sbind (tfm_spm_client_psa_close cfg ops handle true) (fun _ => sret (MAILBOX_SUCCESS, psa)) s).
Proof.
  intros Hh Ht. unfold NsApi.call_params, NsApi.close_params. repeat split; intros s; unfold tfm_mailbox_dispatch; cbn;
    rewrite ?s32_u32 by done; reflexivity.
Qed.



End Spm.

(** ** The example SPM of two cores *)
Definition mc_cfg : spm_config := {|
  static_data_list := static_data_list ex_cfg; service_db_list := service_db_list ex_cfg;
  stateless_sids := stateless_sids ex_cfg; tfm_core_irq_signals := tfm_core_irq_signals ex_cfg;
  conn_handle_pool := conn_handle_pool ex_cfg; sizeof_conn_handle := sizeof_conn_handle ex_cfg;
  TFM_MULTI_CORE_TOPOLOGY := true; tfm_hal_memory_has_access := tfm_hal_memory_has_access ex_cfg;
  tfm_spm_hal_configure_default_isolation := tfm_spm_hal_configure_default_isolation ex_cfg;
  tfm_spm_hal_get_ns_entry_point := tfm_spm_hal_get_ns_entry_point ex_cfg |}.

(** A message of the other core is pending in the first slot. *)
Definition mc_mailbox (m : mailbox_msg_t) : mbox :=
  on_ns (fun q => set_queue_slot_pend 2 0 (fill_msg_owner 2 0 m 1 q)) (srv (start 2)).
Definition mc_boot (m : mailbox_msg_t) : spm mbox := {|
  nodes := nodes ex_boot; pool_instance := pool_instance ex_boot; conns := conns ex_boot;
  loop_index := loop_index ex_boot; partitions := partitions ex_boot; services := services ex_boot;
  stateless_service_ref := stateless_service_ref ex_boot; scheduler := scheduler ex_boot;
  memory := memory ex_boot; irq_enabled := irq_enabled ex_boot; irq_pending := irq_pending ex_boot;
  mailbox := mc_mailbox m |}.
Definition mc_started (m : mailbox_msg_t) : spm mbox := snd (tfm_spm_init mc_cfg (mc_boot m)).

Definition connect_msg : mailbox_msg_t := {| m_call_type := MAILBOX_PSA_CONNECT;
  m_params := {| word0 := 0x100; word1 := 1; word2 := 0; word3 := 0; word4 := 0; word5 := 0 |}; m_client_id := 1 |}.
Local Abbreviation mc_turn m :=
  (@handle_slot (spm mbox) (server mc_cfg 2 addr) 2 1 0 PSA_ERROR_GENERIC_ERROR 0 (mc_started m)).

(** A connection request is accepted. *)
Lemma call_answered_or_queued_witness : exists s' c data, mc_turn connect_msg = (Done (0, 0), s') /\
  sent s' PSA_IPC_CONNECT tfm_nspm_get_current_client_id data c /\
  forall ret, exists w,
    mailbox_reply 2 addr data ret (mailbox s') = (Done tt, w) /\ return_val (ns_reply (ns_slots (ns_queue w) 0)) = s32 ret.
Proof.
  assert (Hd : fst (mc_turn connect_msg) = Done (0, 0)) by (vm_compute; reflexivity).
  destruct (mc_turn connect_msg) as [r s'] eqn:E. cbn [fst] in Hd. subst r.
  destruct (call_answered_or_queued mc_cfg 2 addr 0 1 PSA_ERROR_GENERIC_ERROR 0 connect_msg (mc_started connect_msg) s' 0 0
    ltac:(lia) ltac:(reflexivity) ltac:(lia) eq_refl ltac:(vm_compute; reflexivity) ltac:(vm_compute; reflexivity)
    ltac:(vm_compute; reflexivity) ltac:(left; reflexivity) E) as [(H & _)|(_ & _ & Hh & c & data & Hs & Hc)]; [by destruct H|].
  exists s', c, data. split; [reflexivity|]. split; [exact Hs|]. intros ret. destruct (Hc _ ret Hh) as (w & Hr & Hv & _).
  exists w. exact (conj Hr Hv).
Defined.


(** The handles of two calls. *)
Lemma ns_api_reaches_spm_witness : forall s : spm mbox,
  @tfm_mailbox_dispatch (spm mbox) (server mc_cfg 2 addr) MAILBOX_PSA_CALL
    (NsApi.call_params (-1) (-3) 0x30000100 1 0x30000180 1) 1 0 s =
  sbind (tfm_spm_client_psa_call mc_cfg (mailbox_rpc_ops 2 addr) (-1) (-3) 0x30000100 1 0x30000180 1 true
    TFM_PARTITION_UNPRIVILEGED_MODE) (fun v => sret (MAILBOX_SUCCESS, v)) s.
Proof.
  intros s. destruct (ns_api_reaches_spm mc_cfg 2 addr zero_params 0 0 (-1) (-3) 0x30000100 1 0x30000180 1 1 0
    ltac:(lia) ltac:(lia)) as (_ & _ & Hcall & _). exact (Hcall s).
Defined.

Lemma handle_msg_is_steps_witness : exists k p', tfm_mailbox_handle_msg 2 (mc_mailbox version_msg) = (Done MAILBOX_SUCCESS, p') /\
  spe_steps 2 k (set_srv (mc_mailbox version_msg) (start 2)) = Some (set_srv p' (set_srv (mc_mailbox version_msg) (start 2))).
Proof.
  set (s := set_srv (mc_mailbox version_msg) (start 2)).
  assert (Hd : fst (tfm_mailbox_handle_msg 2 (srv s)) = Done MAILBOX_SUCCESS) by (vm_compute; reflexivity).
  destruct (tfm_mailbox_handle_msg 2 (srv s)) as [r p'] eqn:E. cbn [fst] in Hd. subst r.
  destruct (handle_msg_is_steps 2 s MAILBOX_SUCCESS p' ltac:(lia) eq_refl E) as (k & Hk & _).
  exists k, p'. exact (conj E Hk).
Defined.
