(* ===== verification/AuditLog.v ===== *)
(** * Audit logging: the log

    secure_fw/partitions/audit_logging/audit_core.c, built without the UART
    redirection: a ring buffer of records of different sizes, from which the
    oldest ones give way to new ones. *)

From Stdlib Require Import ZArith List Lia Bool.
From stdpp Require Import base tactics list.
From S2P Require Import Prelude.
Import ListNotations.
Local Open Scope Z_scope.

(** ** audit_core.h *)
Definition LOG_SIZE : Z := 1024.
Definition LOG_MAC_SIZE : Z := 4.
Definition LOG_FIXED_FIELD_SIZE : Z := 8 + 4 + 4 + 4.
Definition sizeof_psa_audit_record : Z := 8.
Definition sizeof_uint32_t : Z := 4.
Definition TFM_CLIENT_ID_IS_NS (client_id : Z) : bool := client_id <? 0.

(** The vectors of a secure function call: addresses in the memory of the
    caller; 0 is the null pointer. *)
Record psa_invec := { iv_base : Z; iv_len : Z }.
Record psa_outvec := { ov_base : Z; ov_len : Z }.

Record log_vars := {
  first_el_idx : Z;
  last_el_idx : Z;
  num_records : Z;
  stored_size : Z
}.

(** The static variables, the memory of the callers, the answer of
    tfm_core_get_caller_client_id, and the output vectors of the call. *)
Record audit_state := {
  log_buffer : list Z;
  scratch_buffer : list Z;
  log_state : log_vars;
  global_timestamp : Z;
  caller_mem : Z -> Z;
  caller_id : option Z;
  out_vec : list psa_outvec
}.

Definition set_log (v : log_vars) (s : audit_state) : audit_state :=
  {| log_buffer := log_buffer s; scratch_buffer := scratch_buffer s; log_state := v;
     global_timestamp := global_timestamp s; caller_mem := caller_mem s; caller_id := caller_id s;
     out_vec := out_vec s |}.
Definition set_buffer (l : list Z) (s : audit_state) : audit_state :=
  {| log_buffer := l; scratch_buffer := scratch_buffer s; log_state := log_state s;
     global_timestamp := global_timestamp s; caller_mem := caller_mem s; caller_id := caller_id s;
     out_vec := out_vec s |}.
Definition set_scratch (l : list Z) (t : Z) (s : audit_state) : audit_state :=
  {| log_buffer := log_buffer s; scratch_buffer := l; log_state := log_state s;
     global_timestamp := t; caller_mem := caller_mem s; caller_id := caller_id s;
     out_vec := out_vec s |}.
Definition set_mem (m : Z -> Z) (s : audit_state) : audit_state :=
  {| log_buffer := log_buffer s; scratch_buffer := scratch_buffer s; log_state := log_state s;
     global_timestamp := global_timestamp s; caller_mem := m; caller_id := caller_id s;
     out_vec := out_vec s |}.
Definition set_out (l : list psa_outvec) (s : audit_state) : audit_state :=
  {| log_buffer := log_buffer s; scratch_buffer := scratch_buffer s; log_state := log_state s;
     global_timestamp := global_timestamp s; caller_mem := caller_mem s; caller_id := caller_id s;
     out_vec := l |}.

(** ** The memory of the caller *)
Definition mem_bytes (m : Z -> Z) (a n : Z) : list Z :=
  map (fun k => m (a + Z.of_nat k)) (seq 0 (Z.to_nat n)).
Definition load32 (m : Z -> Z) (a : Z) : Z := le_val (mem_bytes m a 4).
Definition store8 (m : Z -> Z) (a v : Z) : Z -> Z := fun x => if x =? a then v else m x.
Fixpoint store_bytes (m : Z -> Z) (a : Z) (l : list Z) : Z -> Z :=
  match l with
  | [] => m
  | b :: l' => store_bytes (store8 m a b) (a + 1) l'
  end.
Definition store32 (m : Z -> Z) (a v : Z) : Z -> Z := store_bytes m a (le_bytes 4 v).

Definition in_at (i : nat) (l : list psa_invec) : psa_invec := nth i l {| iv_base := 0; iv_len := 0 |}.
Definition out_at (i : nat) (l : list psa_outvec) : psa_outvec := nth i l {| ov_base := 0; ov_len := 0 |}.
Definition set_out_len (i : nat) (n : Z) (s : audit_state) : audit_state :=
  set_out (<[i := {| ov_base := ov_base (out_at i (out_vec s)); ov_len := n |}]> (out_vec s)) s.

(** ** Positions in the log *)
Definition GET_SIZE_FIELD (buf : list Z) (idx : Z) : Z :=
  le_val (firstn 4 (skipn (Z.to_nat ((idx + 16) mod LOG_SIZE)) buf)).
Definition COMPUTE_LOG_ENTRY_SIZE (size : Z) : Z := u32 (LOG_FIXED_FIELD_SIZE + size + LOG_MAC_SIZE).
Definition GET_NEXT_LOG_INDEX (buf : list Z) (idx : Z) : Z :=
  u32 (idx + COMPUTE_LOG_ENTRY_SIZE (GET_SIZE_FIELD buf idx)) mod LOG_SIZE.

Definition audit_update_state (first last stored num : Z) : M audit_state unit :=
  modify (set_log {| first_el_idx := first; last_el_idx := last; num_records := num; stored_size := stored |}).

(** The loop of audit_replace_record, with [num_items] counting down. *)
Fixpoint replace_loop (buf : list Z) (size : Z) (num_items : nat) (first last stored : Z) : log_vars :=
  if size >? u32 (LOG_SIZE - stored) then
    match num_items with
    | O => {| first_el_idx := 0; last_el_idx := 0; num_records := 0; stored_size := 0 |}
    | S num_items' =>
        replace_loop buf size num_items' (GET_NEXT_LOG_INDEX buf first) last
          (u32 (stored - COMPUTE_LOG_ENTRY_SIZE (GET_SIZE_FIELD buf first)))
    end
  else {| first_el_idx := first; last_el_idx := last; num_records := Z.of_nat num_items;
          stored_size := stored |}.

(** Yields the begin and the end of the place for the new record. *)
Definition audit_replace_record (size : Z) : M audit_state (Z * Z) :=
  let! s := reads (fun s => s) in
  let v := log_state s in
  let v' := replace_loop (log_buffer s) size (Z.to_nat (num_records v)) (first_el_idx v)
              (last_el_idx v) (stored_size v) in
  let start_pos := if num_records v' =? 0 then first_el_idx v'
                   else GET_NEXT_LOG_INDEX (log_buffer s) (last_el_idx v') in
  let stop_pos := u32 (start_pos + COMPUTE_LOG_ENTRY_SIZE size) mod LOG_SIZE in
  do! audit_update_state (first_el_idx v') (last_el_idx v') (stored_size v') (num_records v') in
  ret (start_pos, stop_pos).

(** [log_buffer[(dest_idx + idx) % LOG_SIZE] = src[idx]] for each [idx]. *)
Fixpoint copy_loop (src : list Z) (at_ : Z) (buf : list Z) : list Z :=
  match src with
  | [] => buf
  | b :: src' => copy_loop src' (at_ + 1) (<[Z.to_nat (at_ mod LOG_SIZE) := b]> buf)
  end.
Definition audit_buffer_copy (src : list Z) (size dest_idx : Z) : M audit_state unit :=
  if (dest_idx >=? LOG_SIZE) || (size >? LOG_SIZE) then fail PSA_ERROR_BUFFER_TOO_SMALL
  else modify (fun s => set_buffer (copy_loop (firstn (Z.to_nat size) src) dest_idx (log_buffer s)) s).

(** The record is [size] and what follows it, [size + 4] bytes in all. *)
Definition log_item (timestamp : Z) (partition_id : Z) (record : list Z) : list Z :=
  le_bytes 8 timestamp ++ le_bytes 4 0 ++ le_bytes 4 partition_id ++ record ++ [0; 1; 2; 3].

(** [record] is the address of the record. *)
Definition audit_format_buffer (record partition_id : Z) : M audit_state unit :=
  let! s := reads (fun s => s) in
  let size := load32 (caller_mem s) record in
  let item := log_item (global_timestamp s) partition_id (mem_bytes (caller_mem s) record (size + 4)) in
  modify (set_scratch (item ++ skipn (length item) (scratch_buffer s))
            ((global_timestamp s + 1) mod 2 ^ 64)).

Definition _audit_core_get_info : M audit_state (Z * Z) :=
  reads (fun s => (num_records (log_state s), stored_size (log_state s))).

Fixpoint nth_index (buf : list Z) (n : nat) (idx : Z) : Z :=
  match n with
  | O => idx
  | S n' => nth_index buf n' (GET_NEXT_LOG_INDEX buf idx)
  end.

Definition _audit_core_get_record_info (record_index : Z) : M audit_state Z :=
  let! s := reads (fun s => s) in
  if record_index >=? num_records (log_state s) then fail PSA_ERROR_PROGRAMMER_ERROR
  else
    let start_idx := nth_index (log_buffer s) (Z.to_nat record_index) (first_el_idx (log_state s)) in
    ret (COMPUTE_LOG_ENTRY_SIZE (GET_SIZE_FIELD (log_buffer s) start_idx)).

(** ** The secure functions *)
Definition audit_core_init : M audit_state unit := audit_update_state 0 0 0 0.

Definition audit_core_delete_record (in_vec : list psa_invec) (in_len out_len : Z) : M audit_state unit :=
  if negb (in_len =? 2) || negb (out_len =? 0) then fail PSA_ERROR_CONNECTION_REFUSED
  else if negb (iv_len (in_at 0 in_vec) =? sizeof_uint32_t) then fail PSA_ERROR_CONNECTION_REFUSED
  else
    let! s := reads (fun s => s) in
    let record_index := load32 (caller_mem s) (iv_base (in_at 0 in_vec)) in
    let token := iv_base (in_at 1 in_vec) in
    let token_size := iv_len (in_at 1 in_vec) in
    if record_index >? 0 then fail PSA_ERROR_NOT_SUPPORTED
    else if negb (token =? 0) || negb (token_size =? 0) then fail PSA_ERROR_NOT_SUPPORTED
    else if record_index >=? num_records (log_state s) then fail PSA_ERROR_PROGRAMMER_ERROR
    else if num_records (log_state s) =? 1 then audit_update_state 0 0 0 0
    else
      let first := first_el_idx (log_state s) in
      let size_removed := COMPUTE_LOG_ENTRY_SIZE (GET_SIZE_FIELD (log_buffer s) first) in
      modify (set_log
        {| first_el_idx := GET_NEXT_LOG_INDEX (log_buffer s) first;
           last_el_idx := last_el_idx (log_state s);
           num_records := u32 (num_records (log_state s) - 1);
           stored_size := u32 (stored_size (log_state s) - size_removed) |}).

Definition audit_core_get_info (in_len out_len : Z) : M audit_state unit :=
  let! s := reads (fun s => s) in
  if negb (in_len =? 0) || negb (out_len =? 2) then fail PSA_ERROR_CONNECTION_REFUSED
  else if negb (ov_len (out_at 0 (out_vec s)) =? sizeof_uint32_t) ||
          negb (ov_len (out_at 1 (out_vec s)) =? sizeof_uint32_t)
  then fail PSA_ERROR_CONNECTION_REFUSED
  else
    do! modify (fun s => set_mem (store32 (caller_mem s) (ov_base (out_at 0 (out_vec s)))
                                    (num_records (log_state s))) s) in
    modify (fun s => set_mem (store32 (caller_mem s) (ov_base (out_at 1 (out_vec s)))
                                (stored_size (log_state s))) s).

Definition audit_core_get_record_info (in_vec : list psa_invec) (in_len out_len : Z) :
    M audit_state unit :=
  let! s := reads (fun s => s) in
  if negb (in_len =? 1) || negb (out_len =? 1) then fail PSA_ERROR_CONNECTION_REFUSED
  else if negb (iv_len (in_at 0 in_vec) =? sizeof_uint32_t) ||
          negb (ov_len (out_at 0 (out_vec s)) =? sizeof_uint32_t)
  then fail PSA_ERROR_CONNECTION_REFUSED
  else
    let record_index := load32 (caller_mem s) (iv_base (in_at 0 in_vec)) in
    if record_index >=? num_records (log_state s) then fail PSA_ERROR_PROGRAMMER_ERROR
    else
      let start_idx := nth_index (log_buffer s) (Z.to_nat record_index) (first_el_idx (log_state s)) in
      modify (set_mem (store32 (caller_mem s) (ov_base (out_at 0 (out_vec s)))
        (COMPUTE_LOG_ENTRY_SIZE (GET_SIZE_FIELD (log_buffer s) start_idx)))).

Definition audit_core_add_record (in_vec : list psa_invec) (in_len out_len : Z) : M audit_state unit :=
  if negb (in_len =? 1) || negb (out_len =? 0) then fail PSA_ERROR_CONNECTION_REFUSED
  else if negb (iv_len (in_at 0 in_vec) =? sizeof_psa_audit_record) then fail PSA_ERROR_CONNECTION_REFUSED
  else
    let record := iv_base (in_at 0 in_vec) in
    let! s := reads (fun s => s) in
    match caller_id s with
    | None => fail PSA_ERROR_NOT_PERMITTED
    | Some partition_id =>
        if TFM_CLIENT_ID_IS_NS partition_id then fail PSA_ERROR_NOT_PERMITTED
        else
          let size := load32 (caller_mem s) record in
          if negb (size mod 4 =? 0) then fail PSA_ERROR_NOT_SUPPORTED
          else if size >? LOG_SIZE - (LOG_FIXED_FIELD_SIZE + LOG_MAC_SIZE)
          then fail PSA_ERROR_INSUFFICIENT_MEMORY
          else
            let! (num_items, _) := _audit_core_get_info in
            let! (start_pos, _) := if num_items =? 0 then ret (0, 0)
                                   else audit_replace_record (COMPUTE_LOG_ENTRY_SIZE size) in
            do! audit_format_buffer record partition_id in
            let! scratch := reads scratch_buffer in
            do! audit_buffer_copy scratch (COMPUTE_LOG_ENTRY_SIZE size) start_pos in
            let! v := reads log_state in
            audit_update_state (first_el_idx v) start_pos
              (u32 (stored_size v + COMPUTE_LOG_ENTRY_SIZE size)) (u32 (num_records v + 1))
    end.

(** [buffer[idx] = log_buffer[(start_idx + idx) % LOG_SIZE]] for each [idx]. *)
Fixpoint copy_out (buf : list Z) (n : nat) (start_idx dst : Z) (m : Z -> Z) : Z -> Z :=
  match n with
  | O => m
  | S n' => copy_out buf n' (start_idx + 1) (dst + 1)
              (store8 m dst (nth (Z.to_nat (start_idx mod LOG_SIZE)) buf 0))
  end.

Definition audit_core_retrieve_record (in_vec : list psa_invec) (in_len out_len : Z) :
    M audit_state unit :=
  if negb (in_len =? 2) || negb (out_len =? 1) then fail PSA_ERROR_CONNECTION_REFUSED
  else if negb (iv_len (in_at 0 in_vec) =? sizeof_uint32_t) then fail PSA_ERROR_CONNECTION_REFUSED
  else
    let! s := reads (fun s => s) in
    let record_index := load32 (caller_mem s) (iv_base (in_at 0 in_vec)) in
    let token := iv_base (in_at 1 in_vec) in
    let token_size := iv_len (in_at 1 in_vec) in
    let buffer := ov_base (out_at 0 (out_vec s)) in
    let buffer_size := ov_len (out_at 0 (out_vec s)) in
    if negb (token =? 0) || negb (token_size =? 0)
    then do! modify (set_out_len 0 0) in fail PSA_ERROR_NOT_SUPPORTED
    else
      let! r := attempt (_audit_core_get_record_info record_index) in
      match r with
      | Err status => do! modify (set_out_len 0 0) in fail status
      | Ok record_size =>
          if buffer_size <? record_size
          then do! modify (set_out_len 0 0) in fail PSA_ERROR_BUFFER_TOO_SMALL
          else
            let start_idx := nth_index (log_buffer s) (Z.to_nat record_index) (first_el_idx (log_state s)) in
            do! modify (set_mem (copy_out (log_buffer s) (Z.to_nat record_size) start_idx buffer (caller_mem s))) in
            modify (set_out_len 0 record_size)
      end.
