(* ===== verification/AuditSpec.v ===== *)
(** * Audit logging: the log as a queue of records

    What the ring buffer holds, and that adding, retrieving and deleting are
    the operations of a queue whose oldest records give way. *)

From Stdlib Require Import ZArith List Lia Bool.
From stdpp Require Import base tactics list.
From S2P Require Import Prelude AuditLog.
Import ListNotations.
Local Open Scope Z_scope.

(** ** Reading around the ring *)
Definition at_ (buf : list Z) (i : Z) : Z := nth (Z.to_nat (i mod LOG_SIZE)) buf 0.
Definition ring (buf : list Z) (start : Z) (n : nat) : list Z :=
  map (fun k => at_ buf (start + Z.of_nat k)) (seq 0 n).

Lemma length_ring buf start n : length (ring buf start n) = n.
Proof. unfold ring. by rewrite length_map, length_seq. Qed.

Lemma nth_ring buf start n k : (k < n)%nat -> nth k (ring buf start n) 0 = at_ buf (start + Z.of_nat k).
Proof.
  intros Hk. unfold ring. rewrite (nth_indep _ 0 (at_ buf (start + Z.of_nat 0))) by (rewrite length_map, length_seq; lia).
  rewrite (map_nth (fun j => at_ buf (start + Z.of_nat j))), seq_nth by done. by rewrite Nat.add_0_l.
Qed.

Lemma ring_ext buf buf' start start' n :
  (forall k, (k < n)%nat -> at_ buf (start + Z.of_nat k) = at_ buf' (start' + Z.of_nat k)) ->
  ring buf start n = ring buf' start' n.
Proof. intros H. apply map_ext_in. intros k Hk. apply in_seq in Hk. apply H. lia. Qed.

Lemma at_mod buf i j : i mod LOG_SIZE = j mod LOG_SIZE -> at_ buf i = at_ buf j.
Proof. unfold at_. by intros ->. Qed.

Lemma ring_mod buf start n : ring buf (start mod LOG_SIZE) n = ring buf start n.
Proof. apply ring_ext. intros k _. apply at_mod. by rewrite Z.add_mod_idemp_l. Qed.

Lemma ring_app buf start n m : ring buf start (n + m) = ring buf start n ++ ring buf (start + Z.of_nat n) m.
Proof.
  unfold ring. rewrite seq_app, map_app. f_equal. cbn [plus].
  replace (seq n m) with (map (fun k => n + k)%nat (seq 0 m)).
  - rewrite map_map. apply map_ext. intros k. f_equal. lia.
  - clear. revert n. induction m as [|m IH]; intros n; [done|]. cbn. f_equal; [lia|].
    rewrite <- (IH (S n)), <- seq_shift, map_map. apply map_ext. intros; lia.
Qed.

Lemma take4 (l : list Z) j : (j + 4 <= length l)%nat ->
  firstn 4 (skipn j l) = [nth j l 0; nth (j + 1) l 0; nth (j + 2) l 0; nth (j + 3) l 0].
Proof.
  intros H. revert l H. induction j as [|j IH]; intros l H.
  - destruct l as [|a [|b [|c [|d l]]]]; cbn in H; try lia. done.
  - destruct l as [|a l]; cbn in H; [lia|]. cbn [skipn]. rewrite IH by lia. done.
Qed.

(** The bytes that were written, and the others as they were. *)
Lemma length_copy_loop src d buf : length (copy_loop src d buf) = length buf.
Proof. revert d buf. induction src as [|b src IH]; intros d buf; [done|]. cbn. by rewrite IH, length_insert. Qed.

Lemma at_insert buf d b i : Z.of_nat (length buf) = LOG_SIZE ->
  at_ (<[Z.to_nat (d mod LOG_SIZE) := b]> buf) i = if i mod LOG_SIZE =? d mod LOG_SIZE then b else at_ buf i.
Proof.
  intros Hl. unfold at_. pose proof (Z.mod_pos_bound i LOG_SIZE eq_refl). pose proof (Z.mod_pos_bound d LOG_SIZE eq_refl).
  rewrite !nth_lookup. destruct (Z.eqb_spec (i mod LOG_SIZE) (d mod LOG_SIZE)) as [->|Hne].
  - rewrite list_lookup_insert_eq by lia. done.
  - rewrite list_lookup_insert_ne by lia. done.
Qed.

Lemma copy_loop_at src d buf i : Z.of_nat (length buf) = LOG_SIZE -> Z.of_nat (length src) <= LOG_SIZE ->
  at_ (copy_loop src d buf) i =
    if (i - d) mod LOG_SIZE <? Z.of_nat (length src)
    then nth (Z.to_nat ((i - d) mod LOG_SIZE)) src 0 else at_ buf i.
Proof.
  revert d buf. induction src as [|b src IH]; intros d buf Hb Hs.
  - cbn [copy_loop length]. destruct (Z.ltb_spec ((i - d) mod LOG_SIZE) (Z.of_nat 0)); [|done].
    pose proof (Z.mod_pos_bound (i - d) LOG_SIZE eq_refl). lia.
  - cbn [copy_loop length] in *. rewrite IH by (rewrite ?length_insert; lia). rewrite at_insert by done.
    assert (Hk : (i mod LOG_SIZE = d mod LOG_SIZE /\ (i - d) mod LOG_SIZE = 0 /\ (i - (d + 1)) mod LOG_SIZE = 1023) \/
      (i mod LOG_SIZE <> d mod LOG_SIZE /\ 0 < (i - d) mod LOG_SIZE /\
       (i - (d + 1)) mod LOG_SIZE = (i - d) mod LOG_SIZE - 1)).
    { unfold LOG_SIZE in *. Z.to_euclidean_division_equations. lia. }
    unfold LOG_SIZE in Hs. destruct Hk as [(H1 & H2 & H3)|(H1 & H2 & H3)]; rewrite H3.
    + rewrite H2, (proj2 (Z.eqb_eq _ _) H1). destruct (Z.ltb_spec 1023 (Z.of_nat (length src))); [lia|].
      destruct (Z.ltb_spec 0 (Z.of_nat (S (length src)))); [done|lia].
    + rewrite (proj2 (Z.eqb_neq _ _) H1).
      destruct (Z.ltb_spec ((i - d) mod LOG_SIZE - 1) (Z.of_nat (length src))),
        (Z.ltb_spec ((i - d) mod LOG_SIZE) (Z.of_nat (S (length src)))); try lia.
      replace (Z.to_nat ((i - d) mod LOG_SIZE)) with (S (Z.to_nat ((i - d) mod LOG_SIZE - 1))) by lia. done.
Qed.

(** ** Records *)
Definition rec_size (r : list Z) : Z := le_val (firstn 4 (skipn 16 r)).
Record rec_ok (r : list Z) : Prop := {
  rk_len : Z.of_nat (length r) = 24 + rec_size r;
  rk_aligned : rec_size r mod 4 = 0;
  rk_size : 0 <= rec_size r <= 1000
}.

Definition total (rs : list (list Z)) : Z := Z.of_nat (length (concat rs)).
Lemma total_cons r rs : total (r :: rs) = Z.of_nat (length r) + total rs.
Proof. unfold total. cbn. rewrite length_app. lia. Qed.
Lemma total_app rs rs' : total (rs ++ rs') = total rs + total rs'.
Proof. unfold total. rewrite concat_app, length_app. lia. Qed.
Lemma total_nonneg rs : 0 <= total rs.
Proof. unfold total. lia. Qed.

(** The records [rs] lie one after the other from [start] on. *)
Definition lies (buf : list Z) (start : Z) (rs : list (list Z)) : Prop :=
  ring buf start (length (concat rs)) = concat rs.

Lemma lies_cons buf start r rs : lies buf start (r :: rs) ->
  ring buf start (length r) = r /\ lies buf (start + Z.of_nat (length r)) rs.
Proof.
  unfold lies. cbn [concat]. rewrite length_app, ring_app. intros H.
  apply app_inj_1 in H; [done|]. by rewrite length_ring.
Qed.
Lemma lies_mod buf start rs : lies buf start rs -> lies buf (start mod LOG_SIZE) rs.
Proof. unfold lies. by rewrite ring_mod. Qed.
Lemma lies_app buf start rs rs' : lies buf start rs -> lies buf (start + total rs) rs' ->
  lies buf start (rs ++ rs').
Proof.
  unfold lies, total. rewrite concat_app, length_app, ring_app. by intros -> ->.
Qed.
Lemma lies_skip buf start rs rs' : lies buf start (rs ++ rs') -> lies buf (start + total rs) rs'.
Proof.
  unfold lies, total. rewrite concat_app, length_app, ring_app. intros H.
  by apply app_inj_1 in H as [_ H]; [|rewrite length_ring].
Qed.

(** The size field of an aligned record never wraps. *)
Lemma size_field buf idx r : Z.of_nat (length buf) = LOG_SIZE -> idx mod 4 = 0 -> rec_ok r ->
  ring buf idx (length r) = r -> GET_SIZE_FIELD buf idx = rec_size r.
Proof.
  intros Hb Hi Hr Hl. unfold GET_SIZE_FIELD, rec_size. f_equal.
  pose proof (rk_len _ Hr). pose proof (rk_size _ Hr).
  set (j := Z.to_nat ((idx + 16) mod LOG_SIZE)).
  assert (Hj : Z.of_nat j mod 4 = 0 /\ Z.of_nat j + 4 <= LOG_SIZE /\ forall k, 0 <= k < 4 ->
    (idx + (16 + k)) mod LOG_SIZE = Z.of_nat j + k).
  { unfold j. rewrite Z2Nat.id by apply Z.mod_pos_bound, eq_refl. unfold LOG_SIZE in *.
    split; [Z.to_euclidean_division_equations; lia|]. split; [Z.to_euclidean_division_equations; lia|].
    intros k Hk. Z.to_euclidean_division_equations. lia. }
  destruct Hj as (_ & Hj4 & Hjk). rewrite take4 by lia. rewrite take4 by lia.
  assert (He : forall k, (k < 4)%nat -> nth (16 + k) r 0 = nth (j + k) buf 0).
  { intros k Hk. rewrite <- Hl, nth_ring by lia. unfold at_.
    replace (idx + Z.of_nat (16 + k)) with (idx + (16 + Z.of_nat k)) by lia. rewrite Hjk by lia.
    f_equal. lia. }
  by rewrite <- (He 1%nat), <- (He 2%nat), <- (He 3%nat), <- (Nat.add_0_r j), <- (He 0%nat) by lia.
Qed.

Lemma entry_size n : 0 <= n <= 1000 -> COMPUTE_LOG_ENTRY_SIZE n = 24 + n.
Proof. intros H. unfold COMPUTE_LOG_ENTRY_SIZE, LOG_FIXED_FIELD_SIZE, LOG_MAC_SIZE. rewrite u32_small; lia. Qed.

Lemma entry_at buf idx r : Z.of_nat (length buf) = LOG_SIZE -> idx mod 4 = 0 -> rec_ok r ->
  ring buf idx (length r) = r -> 0 <= idx < LOG_SIZE ->
  COMPUTE_LOG_ENTRY_SIZE (GET_SIZE_FIELD buf idx) = Z.of_nat (length r) /\
  GET_NEXT_LOG_INDEX buf idx = (idx + Z.of_nat (length r)) mod LOG_SIZE.
Proof.
  intros Hb Hi Hr Hl Hr0. pose proof (rk_len _ Hr). pose proof (rk_size _ Hr). unfold GET_NEXT_LOG_INDEX.
  rewrite (size_field buf idx r), entry_size by done. split; [lia|].
  rewrite u32_small by (unfold LOG_SIZE in *; lia). f_equal. lia.
Qed.

(** ** The log *)
Record ring_ok (buf : list Z) (first : Z) (rs : list (list Z)) : Prop := {
  ro_len : Z.of_nat (length buf) = LOG_SIZE;
  ro_first : 0 <= first < LOG_SIZE;
  ro_aligned : first mod 4 = 0;
  ro_recs : Forall rec_ok rs;
  ro_lies : lies buf first rs;
  ro_fits : total rs <= LOG_SIZE
}.

Lemma total_aligned rs : Forall rec_ok rs -> total rs mod 4 = 0.
Proof.
  induction 1 as [|r rs Hr _ IH]; [done|]. rewrite total_cons. pose proof (rk_len _ Hr). pose proof (rk_aligned _ Hr).
  Z.to_euclidean_division_equations. lia.
Qed.

Lemma ring_ok_tail buf first r rs : ring_ok buf first (r :: rs) ->
  COMPUTE_LOG_ENTRY_SIZE (GET_SIZE_FIELD buf first) = Z.of_nat (length r) /\
  GET_NEXT_LOG_INDEX buf first = (first + Z.of_nat (length r)) mod LOG_SIZE /\
  ring_ok buf (GET_NEXT_LOG_INDEX buf first) rs.
Proof.
  intros [H1 H2 H3 H4 H5 H6]. apply Forall_cons in H4 as [Hr Hrs]. apply lies_cons in H5 as [Hl Hls].
  destruct (entry_at buf first r) as [He Hn]; try done. split; [done|]. split; [done|]. rewrite Hn.
  rewrite total_cons in H6. pose proof (rk_len _ Hr). pose proof (rk_aligned _ Hr). split; try done.
  - by apply Z.mod_pos_bound.
  - unfold LOG_SIZE in *. Z.to_euclidean_division_equations. lia.
  - by apply lies_mod.
  - lia.
Qed.

(** The position of record [n]. *)
Lemma nth_index_spec buf first rs n : ring_ok buf first rs -> (n < length rs)%nat ->
  exists r, rs !! n = Some r /\ ring_ok buf (nth_index buf n first) (drop n rs) /\
    nth_index buf n first mod LOG_SIZE = (first + total (take n rs)) mod LOG_SIZE.
Proof.
  revert first rs. induction n as [|n IH]; intros first rs H Hn; cbn [nth_index].
  - destruct rs as [|r rs]; [cbn in Hn; lia|]. exists r. split; [done|]. split; [done|].
    f_equal. unfold total. cbn. lia.
  - destruct rs as [|r rs]; [cbn in Hn; lia|]. destruct (ring_ok_tail _ _ _ _ H) as (_ & Hx & Ht).
    cbn in Hn. destruct (IH _ _ Ht ltac:(lia)) as (r' & Hr & Hd & Hi). exists r'. split; [done|].
    split; [done|]. rewrite Hi, Hx. cbn [take]. rewrite total_cons, Z.add_mod_idemp_l by done. f_equal. lia.
Qed.

(** ** Making room *)
Fixpoint evict (n : Z) (rs : list (list Z)) : list (list Z) :=
  if n >? LOG_SIZE - total rs then match rs with [] => [] | _ :: rs' => evict n rs' end else rs.

Lemma evict_drop n rs : exists k, evict n rs = drop k rs.
Proof.
  induction rs as [|r rs [k IH]]; cbn [evict].
  - exists 0%nat. by destruct (_ >? _).
  - destruct (_ >? _); [by exists (S k)|by exists 0%nat].
Qed.
Lemma evict_room n rs : n <= LOG_SIZE -> n <= LOG_SIZE - total (evict n rs).
Proof.
  intros Hn. induction rs as [|r rs IH]; cbn [evict].
  - change (total []) with 0. destruct (Z.gtb_spec n (LOG_SIZE - 0)); change (total []) with 0; lia.
  - destruct (Z.gtb_spec n (LOG_SIZE - total (r :: rs))); [done|lia].
Qed.

Lemma replace_loop_spec buf size first last rs : ring_ok buf first rs -> size <= LOG_SIZE ->
  let rs' := evict size rs in
  exists first', replace_loop buf size (length rs) first last (total rs) =
      {| first_el_idx := first'; last_el_idx := last; num_records := Z.of_nat (length rs');
         stored_size := total rs' |} /\
    ring_ok buf first' rs' /\ (first' + total rs') mod LOG_SIZE = (first + total rs) mod LOG_SIZE.
Proof.
  intros H Hs. revert first H. induction rs as [|r rs IH]; intros first H; cbn [evict length replace_loop];
    pose proof (ro_fits _ _ _ H) as Hfit; pose proof (total_nonneg) as Hnn.
  - change (total []) with 0. rewrite Z.sub_0_r, (u32_small LOG_SIZE) by done.
    destruct (Z.gtb_spec size LOG_SIZE); [lia|]. exists first. done.
  - specialize (Hnn (r :: rs)). rewrite u32_small by (unfold LOG_SIZE in *; lia).
    destruct (Z.gtb_spec size (LOG_SIZE - total (r :: rs))); [|by exists first].
    destruct (ring_ok_tail _ _ _ _ H) as (He & Hx & Ht). rewrite He.
    pose proof (total_nonneg rs). rewrite total_cons in Hfit |- *.
    rewrite u32_small by (unfold LOG_SIZE in *; lia).
    replace (Z.of_nat (length r) + total rs - Z.of_nat (length r)) with (total rs) by lia.
    destruct (IH _ Ht) as (f & Hf & Hok & Hm). exists f. split; [done|]. split; [done|].
    rewrite Hm, Hx, Z.add_mod_idemp_l by done. f_equal. lia.
Qed.

(** ** The invariant of the log *)
Definition last_pos (first : Z) (rs : list (list Z)) : Z := (first + total (removelast rs)) mod LOG_SIZE.

Record log_holds (s : audit_state) (rs : list (list Z)) : Prop := {
  lh_ring : ring_ok (log_buffer s) (first_el_idx (log_state s)) rs;
  lh_num : num_records (log_state s) = Z.of_nat (length rs);
  lh_stored : stored_size (log_state s) = total rs;
  lh_last : rs <> [] -> last_el_idx (log_state s) = last_pos (first_el_idx (log_state s)) rs;
  lh_empty : rs = [] -> first_el_idx (log_state s) = 0;
  lh_scratch : Z.of_nat (length (scratch_buffer s)) = LOG_SIZE;
  lh_mem a : 0 <= caller_mem s a < 256;
  lh_time : 0 <= global_timestamp s < 2 ^ 64
}.

(** The end of the log is after its last record. *)
Lemma next_of_last buf first rs : ring_ok buf first rs -> rs <> [] ->
  GET_NEXT_LOG_INDEX buf (last_pos first rs) = (first + total rs) mod LOG_SIZE.
Proof.
  intros [H1 H2 H3 H4 H5 H6] Hne. destruct rs as [|r0 rs0] using rev_ind; [done|]. clear IHrs0.
  unfold last_pos. rewrite removelast_last. apply Forall_app in H4 as [Hrs Hr]. apply Forall_inv in Hr.
  apply lies_skip, lies_mod, lies_cons in H5 as [Hl _].
  pose proof (total_aligned _ Hrs) as Ha. pose proof (rk_len _ Hr) as Hlen.
  destruct (entry_at buf ((first + total rs0) mod LOG_SIZE) r0) as [_ Hn]; try done.
  - unfold LOG_SIZE in *. Z.to_euclidean_division_equations. lia.
  - by apply Z.mod_pos_bound.
  - rewrite Hn, Z.add_mod_idemp_l by done. f_equal. rewrite total_app, total_cons. unfold total at 3. cbn. lia.
Qed.

(** Writing a record after the last one keeps the others. *)
Lemma append_ok buf first rs r : ring_ok buf first rs -> rec_ok r ->
  Z.of_nat (length r) <= LOG_SIZE - total rs ->
  ring_ok (copy_loop r ((first + total rs) mod LOG_SIZE) buf) first (rs ++ [r]).
Proof.
  intros [H1 H2 H3 H4 H5 H6] Hr Hfit. set (start := (first + total rs) mod LOG_SIZE).
  pose proof (total_nonneg rs) as Hnn. pose proof (rk_len _ Hr) as Hlen. pose proof (rk_size _ Hr) as Hsz.
  assert (Hat : forall k, 0 <= k < total rs + Z.of_nat (length r) ->
    at_ (copy_loop r start buf) (first + k) =
      if k <? total rs then at_ buf (first + k) else nth (Z.to_nat (k - total rs)) r 0).
  { intros k Hk. rewrite copy_loop_at by lia.
    assert (Hm : (first + k - start) mod LOG_SIZE = (k - total rs) mod LOG_SIZE).
    { unfold start. rewrite Zminus_mod_idemp_r. f_equal. lia. }
    rewrite Hm. destruct (Z.ltb_spec k (total rs)).
    - assert (Hm2 : (k - total rs) mod LOG_SIZE = k - total rs + LOG_SIZE).
      { unfold LOG_SIZE in *. Z.to_euclidean_division_equations. lia. }
      rewrite Hm2. destruct (Z.ltb_spec (k - total rs + LOG_SIZE) (Z.of_nat (length r))); [lia|done].
    - rewrite Z.mod_small by lia. destruct (Z.ltb_spec (k - total rs) (Z.of_nat (length r))); [done|lia]. }
  split; try done.
  - by rewrite length_copy_loop.
  - apply Forall_app. split; [done|]. by apply Forall_singleton.
  - apply lies_app.
    + unfold lies in *. rewrite <- H5 at 2. apply ring_ext. intros k Hk. rewrite Hat by (unfold total; lia).
      destruct (Z.ltb_spec (Z.of_nat k) (total rs)); [done|unfold total in *; lia].
    + unfold lies. cbn [concat]. rewrite app_nil_r. apply (nth_ext _ _ 0 0); [apply length_ring|].
      rewrite length_ring. intros k Hk. rewrite nth_ring by done.
      replace (first + total rs + Z.of_nat k) with (first + (total rs + Z.of_nat k)) by lia.
      rewrite Hat by lia. destruct (Z.ltb_spec (total rs + Z.of_nat k) (total rs)); [lia|]. f_equal. lia.
  - rewrite total_app, total_cons. unfold total at 2. cbn. lia.
Qed.

(** ** A new record *)
Lemma length_mem_bytes m a n : length (mem_bytes m a n) = Z.to_nat n.
Proof. unfold mem_bytes. by rewrite length_map, length_seq. Qed.

Lemma mem_bytes_take m a n k : (k <= Z.to_nat n)%nat ->
  firstn k (mem_bytes m a n) = mem_bytes m a (Z.of_nat k).
Proof.
  intros H. unfold mem_bytes. rewrite firstn_map, Nat2Z.id. f_equal.
  replace (Z.to_nat n) with (k + (Z.to_nat n - k))%nat by lia. rewrite seq_app.
  apply take_app_length'. by rewrite length_seq.
Qed.

Lemma load32_range m a : (forall x, 0 <= m x < 256) -> 0 <= load32 m a < 2 ^ 32.
Proof.
  intros Hm. unfold load32. change (2 ^ 32) with (256 ^ Z.of_nat (length (mem_bytes m a 4))).
  apply le_val_range. unfold mem_bytes. apply Forall_map, Forall_forall. intros. apply Hm.
Qed.

Lemma log_item_ok t p m a : let size := load32 m a in
  0 <= size <= 1000 -> size mod 4 = 0 -> rec_ok (log_item t p (mem_bytes m a (size + 4))) /\
  rec_size (log_item t p (mem_bytes m a (size + 4))) = size.
Proof.
  cbv zeta. set (size := load32 m a). intros H1 H2.
  assert (Hs : rec_size (log_item t p (mem_bytes m a (size + 4))) = size).
  { unfold rec_size, log_item. rewrite (app_assoc (le_bytes 4 0)), (app_assoc (le_bytes 8 t)).
    rewrite drop_app_length' by (rewrite !length_app, !length_le_bytes; done).
    rewrite take_app_le by (rewrite length_mem_bytes; lia). rewrite mem_bytes_take by lia. done. }
  split; [|done]. split; rewrite Hs; try done.
  unfold log_item. rewrite !length_app, !length_le_bytes, length_mem_bytes. cbn. lia.
Qed.

(** ** What is refused, in the order the code checks it *)
Definition add_refused (in_vec : list psa_invec) (in_len out_len : Z) (m : Z -> Z)
    (caller : option Z) : option psa_status_t :=
  let size := load32 m (iv_base (in_at 0 in_vec)) in
  if negb (in_len =? 1) || negb (out_len =? 0) then Some PSA_ERROR_CONNECTION_REFUSED
  else if negb (iv_len (in_at 0 in_vec) =? 8) then Some PSA_ERROR_CONNECTION_REFUSED
  else if match caller with None => true | Some id => id <? 0 end then Some PSA_ERROR_NOT_PERMITTED
  else if negb (size mod 4 =? 0) then Some PSA_ERROR_NOT_SUPPORTED
  else if size >? 1000 then Some PSA_ERROR_INSUFFICIENT_MEMORY else None.

Definition delete_refused (in_vec : list psa_invec) (in_len out_len : Z) (m : Z -> Z)
    (rs : list (list Z)) : option psa_status_t :=
  let index := load32 m (iv_base (in_at 0 in_vec)) in
  if negb (in_len =? 2) || negb (out_len =? 0) then Some PSA_ERROR_CONNECTION_REFUSED
  else if negb (iv_len (in_at 0 in_vec) =? 4) then Some PSA_ERROR_CONNECTION_REFUSED
  else if (index >? 0) || negb (iv_base (in_at 1 in_vec) =? 0) || negb (iv_len (in_at 1 in_vec) =? 0)
  then Some PSA_ERROR_NOT_SUPPORTED
  else if rs is [] then Some PSA_ERROR_PROGRAMMER_ERROR else None.

Definition retrieve_refused (in_vec : list psa_invec) (s : audit_state)
    (rs : list (list Z)) : option psa_status_t :=
  let index := load32 (caller_mem s) (iv_base (in_at 0 in_vec)) in
  if negb (iv_base (in_at 1 in_vec) =? 0) || negb (iv_len (in_at 1 in_vec) =? 0)
  then Some PSA_ERROR_NOT_SUPPORTED
  else match rs !! Z.to_nat index with
       | None => Some PSA_ERROR_PROGRAMMER_ERROR
       | Some r => if ov_len (out_at 0 (out_vec s)) <? Z.of_nat (length r)
                   then Some PSA_ERROR_BUFFER_TOO_SMALL else None
       end.
