(* ===== verification/AuditTheorems.v ===== *)
(** * Audit logging: the theorems

    The secure functions of audit_core.c are the operations of a queue of
    records; every refusal is the one the code checks first and leaves the
    log alone. *)

From Stdlib Require Import ZArith List Lia Bool.
From stdpp Require Import base tactics list.
From S2P Require Import Prelude AuditLog AuditSpec.
Import ListNotations.
Local Open Scope Z_scope.

(** ** Making room *)
Lemma bind_reads {A B} (f : audit_state -> A) (k : A -> M audit_state B) s :
  bind (reads f) k s = k (f s) s.
Proof. done. Qed.

Lemma evict_empty n : evict n [] = [].
Proof. cbn. by destruct (_ >? _). Qed.

(** The state [s] with room made for [size] bytes at [start]. *)
Definition room_at (s : audit_state) (start size : Z) (rs : list (list Z)) : Prop :=
  ring_ok (log_buffer s) (first_el_idx (log_state s)) rs /\
  num_records (log_state s) = Z.of_nat (length rs) /\ stored_size (log_state s) = total rs /\
  start = (first_el_idx (log_state s) + total rs) mod LOG_SIZE /\
  size <= LOG_SIZE - total rs.

Lemma count_fits rs : Forall rec_ok rs -> 24 * Z.of_nat (length rs) <= total rs.
Proof.
  induction 1 as [|r rs Hr _ IH]; [done|]. rewrite total_cons. pose proof (rk_len _ Hr). pose proof (rk_size _ Hr).
  cbn [length]. lia.
Qed.

Lemma make_room_spec size s rs : log_holds s rs -> size <= LOG_SIZE ->
  wp (let! (num_items, _) := _audit_core_get_info in
      if num_items =? 0 then ret (0, 0) else audit_replace_record size) s
    (fun p s' => exists v, s' = set_log v s /\ room_at s' (fst p) size (evict size rs)) (fun _ _ => False).
Proof.
  intros H Hs. destruct H as [H1 H2 H3 H4 H5 H6 H7 H8]. unfold _audit_core_get_info, audit_replace_record.
  apply wp_bind, wp_reads. cbn beta iota. destruct (Z.eqb_spec (num_records (log_state s)) 0) as [He|He].
  - apply wp_ret. destruct rs; [|cbn in H2; lia]. rewrite evict_empty. exists (log_state s).
    split; [by destruct s|]. unfold room_at. cbn [log_state set_log log_buffer].
    rewrite (H5 eq_refl) in *. done.
  - apply wp_bind, wp_reads. cbv zeta. rewrite H2, H3, Nat2Z.id.
    destruct (replace_loop_spec _ size _ (last_el_idx (log_state s)) _ H1 Hs) as (f & -> & Hok & Hm).
    cbn [first_el_idx last_el_idx num_records stored_size].
    apply wp_bind, wp_modify, wp_ret. eexists. split; [done|]. cbn [fst]. unfold room_at.
    cbn [set_log log_state log_buffer first_el_idx num_records stored_size].
    split; [done|]. split; [done|]. split; [done|]. split; [|by apply evict_room].
    rewrite Hm. destruct (Z.eqb_spec (Z.of_nat (length (evict size rs))) 0) as [H0|H0].
    + destruct (evict size rs) eqn:E; [|cbn in H0; lia]. rewrite <- Hm.
      change (total []) with 0. rewrite Z.add_0_r. symmetry. apply Z.mod_small, Hok.
    + rewrite H4.
      * apply next_of_last; [done|]. by intros ->; rewrite evict_empty in H0.
      * by intros ->; rewrite evict_empty in H0.
Qed.

Lemma put_record_spec rec pid start rs s : let size := load32 (caller_mem s) rec in
  let item := log_item (global_timestamp s) pid (mem_bytes (caller_mem s) rec (size + 4)) in
  0 <= size <= 1000 -> size mod 4 = 0 -> room_at s start (24 + size) rs ->
  Z.of_nat (length (scratch_buffer s)) = LOG_SIZE -> (forall a, 0 <= caller_mem s a < 256) ->
  0 <= global_timestamp s < 2 ^ 64 ->
  wp (do! audit_format_buffer rec pid in
      let! scratch := reads scratch_buffer in
      do! audit_buffer_copy scratch (24 + size) start in
      let! v := reads log_state in
      audit_update_state (first_el_idx v) start
        (u32 (stored_size v + (24 + size))) (u32 (num_records v + 1))) s
    (fun _ s' => log_holds s' (rs ++ [item]) /\
       global_timestamp s' = (global_timestamp s + 1) mod 2 ^ 64) (fun _ _ => False).
Proof.
  intros size item Hsz Ha (H1 & H2 & H3 & H4 & H5) Hsc Hm Ht.
  destruct (log_item_ok (global_timestamp s) pid (caller_mem s) rec Hsz Ha) as [Hok Hrs].
  fold size item in Hok, Hrs. pose proof (rk_len _ Hok) as Hlen. rewrite Hrs in Hlen.
  pose proof (total_nonneg rs) as Hn. pose proof (count_fits _ (ro_recs _ _ _ H1)) as Hc.
  assert (Hst : 0 <= start < LOG_SIZE) by (rewrite H4; by apply Z.mod_pos_bound).
  unfold audit_format_buffer. apply wp_bind, wp_bind, wp_reads, wp_modify.
  cbv zeta. fold size item. clearbody item. apply wp_bind, wp_reads. cbn [set_scratch scratch_buffer].
  unfold audit_buffer_copy. apply wp_bind. destruct (Z.geb_spec start LOG_SIZE); [lia|].
  destruct (Z.gtb_spec (24 + size) LOG_SIZE); [unfold LOG_SIZE in *; lia|]. cbn [orb].
  rewrite take_app_length' by lia.
  apply wp_modify, wp_bind, wp_reads, wp_modify. cbn.
  split; [|done]. pose proof (append_ok _ _ _ item H1 Hok) as Hap. rewrite <- H4 in Hap.
  split; cbn; try done.
  - apply Hap. lia.
  - rewrite H2, length_app, u32_small by (unfold LOG_SIZE in *; lia). cbn. lia.
  - rewrite H3, total_app, total_cons, u32_small by (unfold LOG_SIZE in *; lia).
    change (total []) with 0. lia.
  - intros _. unfold last_pos. by rewrite removelast_last.
  - by destruct rs.
  - rewrite length_app, length_skipn. lia.
  - by apply Z.mod_pos_bound.
Qed.

(** ** Adding *)
(** A record is refused exactly for the reasons [add_refused] lists, and
    then nothing changes; otherwise it becomes the newest record of the log,
    stamped with the time and the partition of the caller, and of the older
    records exactly those that [evict] keeps remain. *)
Lemma audit_add_appends s rs in_vec in_len out_len : log_holds s rs ->
  match add_refused in_vec in_len out_len (caller_mem s) (caller_id s) with
  | Some e => audit_core_add_record in_vec in_len out_len s = (Err e, s)
  | None =>
      let record := iv_base (in_at 0 in_vec) in
      let size := load32 (caller_mem s) record in
      exists partition_id s', caller_id s = Some partition_id /\
        audit_core_add_record in_vec in_len out_len s = (Ok tt, s') /\
        log_holds s' (evict (24 + size) rs ++
          [log_item (global_timestamp s) partition_id (mem_bytes (caller_mem s) record (size + 4))]) /\
        global_timestamp s' = (global_timestamp s + 1) mod 2 ^ 64
  end.
Proof.
  intros H. pose proof H as [_ _ _ _ _ H6 H7 H8].
  unfold add_refused, audit_core_add_record, sizeof_psa_audit_record, TFM_CLIENT_ID_IS_NS. cbv zeta.
  set (record := iv_base (in_at 0 in_vec)). set (size := load32 (caller_mem s) record).
  destruct (_ || _); [done|]. destruct (negb _); [done|].
  rewrite bind_reads. cbv beta.
  destruct (caller_id s) as [pid|]; [|done]. destruct (pid <? 0); [done|]. cbv zeta. fold size.
  destruct (Z.eqb_spec (size mod 4) 0) as [Ha|]; [|done]. cbn [negb].
  change (LOG_SIZE - (LOG_FIXED_FIELD_SIZE + LOG_MAC_SIZE)) with 1000.
  destruct (Z.gtb_spec size 1000) as [|Hs]; [done|]. exists pid.
  assert (Hsz : 0 <= size <= 1000) by (pose proof (load32_range _ record H7); unfold size; lia).
  rewrite entry_size by done. set (m := (_ : M audit_state unit)).
  enough (Hwp : wp m s (fun _ s' => log_holds s' (evict (24 + size) rs ++
    [log_item (global_timestamp s) pid (mem_bytes (caller_mem s) record (size + 4))]) /\
    global_timestamp s' = (global_timestamp s + 1) mod 2 ^ 64) (fun _ _ => False)).
  { destruct (wp_ok _ _ _ Hwp) as ([] & s' & Hr & Hl). by exists s'. }
  pose proof (make_room_spec (24 + size) s rs H ltac:(unfold LOG_SIZE; lia)) as Hroom.
  unfold m. apply wp_bind_inv in Hroom. apply wp_bind. eapply wp_mono; [exact Hroom| |done].
  intros [num_items stored] s1 Hr. apply wp_bind. eapply wp_mono; [exact Hr| |done].
  intros [start stop] s2 (v & -> & Hat). cbn [fst] in Hat.
  eapply wp_mono; [by apply (put_record_spec record pid start (evict (24 + size) rs) (set_log v s))|done|done].
Qed.

(** [evict] drops the oldest records, and none that could have stayed. *)
Lemma evict_longest n rs k : evict n rs = drop (S k) rs -> (k < length rs)%nat ->
  LOG_SIZE - total (drop k rs) < n.
Proof.
  revert k. induction rs as [|r rs IH]; intros k H Hk; [cbn in Hk; lia|]. cbn [evict] in H.
  destruct (Z.gtb_spec n (LOG_SIZE - total (r :: rs))) as [Hg|Hg].
  - destruct k as [|k]; [cbn [drop]; lia|]. apply IH; [done|cbn in Hk; lia].
  - apply (f_equal length) in H. rewrite length_drop in H. cbn in H, Hk. lia.
Qed.

(** ** Reading *)
Lemma copy_out_ring buf n start dst m :
  copy_out buf n start dst m = store_bytes m dst (ring buf start n).
Proof.
  revert start dst m. induction n as [|n IH]; intros start dst m; [done|].
  cbn [copy_out]. rewrite IH. change (S n) with (1 + n)%nat. rewrite ring_app.
  unfold ring at 2. cbn. by rewrite Z.add_0_r.
Qed.

(** The record [n]: where it starts and how long it is. *)
Lemma record_at s rs n r : log_holds s rs -> rs !! n = Some r ->
  let idx := nth_index (log_buffer s) n (first_el_idx (log_state s)) in
  COMPUTE_LOG_ENTRY_SIZE (GET_SIZE_FIELD (log_buffer s) idx) = Z.of_nat (length r) /\
  ring (log_buffer s) idx (length r) = r.
Proof.
  intros H Hr idx. pose proof (lookup_lt_Some _ _ _ Hr) as Hn.
  destruct (nth_index_spec _ _ _ _ (lh_ring _ _ H) Hn) as (r' & Hr' & Hok & _).
  rewrite Hr in Hr'. injection Hr' as <-. fold idx in Hok. rewrite (drop_S _ _ _ Hr) in Hok.
  split; [apply (ring_ok_tail _ _ _ _ Hok)|]. by destruct (lies_cons _ _ _ _ (ro_lies _ _ _ Hok)).
Qed.

(** The test of the index against the number of records. *)
Lemma index_check s rs i : log_holds s rs -> 0 <= i ->
  (i >=? num_records (log_state s)) = match rs !! Z.to_nat i with Some _ => false | None => true end.
Proof.
  intros H Hi. rewrite (lh_num _ _ H). destruct (rs !! Z.to_nat i) eqn:E.
  - apply lookup_lt_Some in E. lia.
  - apply lookup_ge_None in E. lia.
Qed.

Definition index_of (in_vec : list psa_invec) (s : audit_state) : Z :=
  load32 (caller_mem s) (iv_base (in_at 0 in_vec)).

(** The record with the index asked for is copied, all of it, to the
    buffer of the caller and its length reported, or nothing is copied and
    the length reported is zero. *)
Theorem audit_retrieve_reads s rs in_vec : log_holds s rs -> iv_len (in_at 0 in_vec) = 4 ->
  match retrieve_refused in_vec s rs with
  | Some e => audit_core_retrieve_record in_vec 2 1 s = (Err e, set_out_len 0 0 s)
  | None => exists r, rs !! Z.to_nat (index_of in_vec s) = Some r /\
      audit_core_retrieve_record in_vec 2 1 s =
        (Ok tt, set_out_len 0 (Z.of_nat (length r))
                  (set_mem (store_bytes (caller_mem s) (ov_base (out_at 0 (out_vec s))) r) s))
  end.
Proof.
  intros H Hlen. unfold retrieve_refused, audit_core_retrieve_record, sizeof_uint32_t, index_of.
  rewrite Hlen. cbn [Z.eqb Pos.eqb negb orb]. cbv zeta. rewrite bind_reads. cbv beta.
  set (i := load32 _ _). assert (Hi : 0 <= i) by apply (load32_range _ _ (lh_mem _ _ H)).
  destruct (_ || _); [done|]. unfold attempt, _audit_core_get_record_info, bind, reads, modify, fail, ret.
  rewrite (index_check _ _ _ H Hi). destruct (rs !! Z.to_nat i) as [r|] eqn:E; [|done].
  destruct (record_at _ _ _ _ H E) as [Hsz Hring]. rewrite Hsz.
  destruct (_ <? _); [done|]. exists r. split; [done|]. rewrite copy_out_ring, Nat2Z.id, Hring. done.
Qed.

(** The length of the record asked for, or a refusal that changes
    nothing. *)
Lemma audit_record_info_reads s rs in_vec : log_holds s rs -> iv_len (in_at 0 in_vec) = 4 ->
  ov_len (out_at 0 (out_vec s)) = 4 ->
  audit_core_get_record_info in_vec 1 1 s =
    match rs !! Z.to_nat (index_of in_vec s) with
    | None => (Err PSA_ERROR_PROGRAMMER_ERROR, s)
    | Some r => (Ok tt, set_mem (store32 (caller_mem s) (ov_base (out_at 0 (out_vec s)))
                                   (Z.of_nat (length r))) s)
    end.
Proof.
  intros H Hin Hout. unfold audit_core_get_record_info, sizeof_uint32_t, index_of.
  rewrite bind_reads, Hin, Hout. cbn [Z.eqb Pos.eqb negb orb]. cbv zeta.
  set (i := load32 _ _). assert (Hi : 0 <= i) by apply (load32_range _ _ (lh_mem _ _ H)).
  rewrite (index_check _ _ _ H Hi). destruct (rs !! Z.to_nat i) as [r|] eqn:E; [|done].
  destruct (record_at _ _ _ _ H E) as [Hsz _]. by rewrite Hsz.
Qed.

(** The number of the records and the bytes they take. *)
Lemma audit_info_reads s rs : log_holds s rs ->
  ov_len (out_at 0 (out_vec s)) = 4 -> ov_len (out_at 1 (out_vec s)) = 4 ->
  audit_core_get_info 0 2 s =
    (Ok tt, set_mem (store32 (store32 (caller_mem s) (ov_base (out_at 0 (out_vec s)))
                                (Z.of_nat (length rs)))
                       (ov_base (out_at 1 (out_vec s))) (total rs)) s).
Proof.
  intros H H0 H1. unfold audit_core_get_info, sizeof_uint32_t. rewrite bind_reads, H0, H1. cbn [Z.eqb Pos.eqb negb orb].
  unfold bind, modify. cbn. by rewrite (lh_num _ _ H), (lh_stored _ _ H).
Qed.

(** ** Deleting *)
(** Only the oldest record can be deleted, without a token; it is then
    gone and the others stay. *)
Lemma audit_delete_oldest s rs in_vec in_len out_len : log_holds s rs ->
  match delete_refused in_vec in_len out_len (caller_mem s) rs with
  | Some e => audit_core_delete_record in_vec in_len out_len s = (Err e, s)
  | None => exists s', audit_core_delete_record in_vec in_len out_len s = (Ok tt, s') /\
      log_holds s' (tail rs) /\ global_timestamp s' = global_timestamp s
  end.
Proof.
  intros H. unfold delete_refused, audit_core_delete_record, sizeof_uint32_t. cbv zeta.
  set (i := load32 _ _). assert (Hi : 0 <= i) by apply (load32_range _ _ (lh_mem _ _ H)).
  destruct (_ || _); [done|]. destruct (negb _); [done|]. rewrite bind_reads. cbv zeta. fold i.
  destruct (Z.gtb_spec i 0) as [|Hi0]; [done|]. cbn [orb]. destruct (_ || _); [done|].
  rewrite (index_check _ _ _ H Hi). assert (i = 0) as -> by lia.
  destruct rs as [|r rs]; [done|]. cbn [Z.to_nat lookup list_lookup tail].
  destruct H as [H1 H2 H3 H4 H5 H6 H7 H8].
  destruct (Z.eqb_spec (num_records (log_state s)) 1) as [Hone|Hone].
  - eexists. split; [done|]. split; [|done]. destruct rs; [|cbn in H2; lia]. split; cbn; try done.
    split; try done. apply (ro_len _ _ _ H1).
  - eexists. split; [done|]. split; [|done]. destruct (ring_ok_tail _ _ _ _ H1) as (He & Hx & Ht).
    pose proof (count_fits _ (ro_recs _ _ _ H1)) as Hc. pose proof (ro_fits _ _ _ H1) as Hf.
    rewrite total_cons in H3, Hc, Hf. pose proof (total_nonneg rs). rewrite H2 in Hone. cbn [length] in *.
    destruct rs as [|r' rs]; [done|].
    split; cbn -[evict Nat.add]; rewrite ?He; try done.
    + rewrite H2. rewrite u32_small by (unfold LOG_SIZE in *; cbn [length] in *; lia). cbn [length]. lia.
    + rewrite H3. rewrite u32_small by (unfold LOG_SIZE in *; lia). lia.
    + intros _. rewrite H4 by done. rewrite Hx. unfold last_pos. rewrite Z.add_mod_idemp_l by done.
      f_equal. change (removelast (r :: r' :: rs)) with (r :: removelast (r' :: rs)). rewrite total_cons. lia.
Qed.

(** ** The log over a history of calls *)
Inductive audit_op := AddRecord | DeleteRecord.
(** A call with the memory and the identity of its caller. *)
Record audit_call := {
  ac_op : audit_op;
  ac_in : list psa_invec;
  ac_in_len : Z;
  ac_out_len : Z;
  ac_mem : Z -> Z;
  ac_caller : option Z
}.

Definition enter (c : audit_call) (s : audit_state) : audit_state :=
  {| log_buffer := log_buffer s; scratch_buffer := scratch_buffer s; log_state := log_state s;
     global_timestamp := global_timestamp s; caller_mem := ac_mem c; caller_id := ac_caller c;
     out_vec := [] |}.
Definition serve (c : audit_call) : M audit_state unit := fun s =>
  match ac_op c with
  | AddRecord => audit_core_add_record (ac_in c) (ac_in_len c) (ac_out_len c) (enter c s)
  | DeleteRecord => audit_core_delete_record (ac_in c) (ac_in_len c) (ac_out_len c) (enter c s)
  end.

(** The same call on the queue of records and the time. *)
Definition queue_step (c : audit_call) : M (Z * list (list Z)) unit := fun '(t, rs) =>
  let record := iv_base (in_at 0 (ac_in c)) in
  let size := load32 (ac_mem c) record in
  match ac_op c with
  | AddRecord =>
      match add_refused (ac_in c) (ac_in_len c) (ac_out_len c) (ac_mem c) (ac_caller c) with
      | Some e => (Err e, (t, rs))
      | None => (Ok tt, ((t + 1) mod 2 ^ 64, evict (24 + size) rs ++
                  [log_item t (default 0 (ac_caller c)) (mem_bytes (ac_mem c) record (size + 4))]))
      end
  | DeleteRecord =>
      match delete_refused (ac_in c) (ac_in_len c) (ac_out_len c) (ac_mem c) rs with
      | Some e => (Err e, (t, rs))
      | None => (Ok tt, (t, tail rs))
      end
  end.

Fixpoint run_calls {S} (step : audit_call -> M S unit) (cs : list audit_call) (s : S) : list (res unit) * S :=
  match cs with
  | [] => ([], s)
  | c :: cs' => let '(r, s1) := step c s in let '(rs, s2) := run_calls step cs' s1 in (r :: rs, s2)
  end.

Definition represents (s : audit_state) (q : Z * list (list Z)) : Prop :=
  log_holds s (snd q) /\ global_timestamp s = fst q.

Lemma enter_holds c s rs : (forall a, 0 <= ac_mem c a < 256) -> log_holds s rs -> log_holds (enter c s) rs.
Proof. intros Hc [H1 H2 H3 H4 H5 H6 H7 H8]. by split. Qed.

Lemma serve_step c s q : (forall a, 0 <= ac_mem c a < 256) -> represents s q ->
  fst (serve c s) = fst (queue_step c q) /\ represents (snd (serve c s)) (snd (queue_step c q)).
Proof.
  intros Hc [H Ht]. destruct q as [t rs]. cbn [fst snd] in *. apply (enter_holds c) in H; [|done].
  unfold serve, queue_step. cbv zeta. destruct (ac_op c).
  - pose proof (audit_add_appends _ _ (ac_in c) (ac_in_len c) (ac_out_len c) H) as Ha. cbn in Ha.
    destruct (add_refused _ _ _ _ _); [by rewrite Ha|].
    destruct Ha as (p & s' & Hp & -> & Hl & Hg). rewrite Hp. rewrite Ht in Hl, Hg. done.
  - pose proof (audit_delete_oldest _ _ (ac_in c) (ac_in_len c) (ac_out_len c) H) as Hd. cbn in Hd.
    destruct (delete_refused _ _ _ _ _); [by rewrite Hd|].
    destruct Hd as (s' & -> & Hl & Hg). cbn. split; [done|]. split; [done|]. cbn. congruence.
Qed.

Lemma init_holds s : Z.of_nat (length (log_buffer s)) = LOG_SIZE ->
  Z.of_nat (length (scratch_buffer s)) = LOG_SIZE -> (forall a, 0 <= caller_mem s a < 256) ->
  0 <= global_timestamp s < 2 ^ 64 -> log_holds (snd (audit_core_init s)) [].
Proof. intros H1 H2 H3 H4. split; cbn; try done. Qed.

(** The static buffers are zero when the partition starts. *)
Definition audit_boot : audit_state :=
  {| log_buffer := repeat 0 1024; scratch_buffer := repeat 0 1024;
     log_state := {| first_el_idx := 0; last_el_idx := 0; num_records := 0; stored_size := 0 |};
     global_timestamp := 0; caller_mem := fun _ => 0; caller_id := None; out_vec := [] |}.

Lemma boot_represents : represents (snd (audit_core_init audit_boot)) (0, []).
Proof. split; [|done]. by apply init_holds. Qed.

Lemma run_represents cs s q : Forall (fun c => forall a, 0 <= ac_mem c a < 256) cs -> represents s q ->
  fst (run_calls serve cs s) = fst (run_calls queue_step cs q) /\
  represents (snd (run_calls serve cs s)) (snd (run_calls queue_step cs q)).
Proof.
  intros Hcs. revert s q. induction Hcs as [|c cs Hc _ IH]; intros s q H0; [done|]. cbn [run_calls].
  destruct (serve_step c s q Hc H0) as [Hr Hs].
  destruct (serve c s) as [r s1], (queue_step c q) as [r' q1]. cbn [fst snd] in *. subst r'.
  destruct (IH _ _ Hs) as [Ha Hq]. destruct (run_calls serve cs s1), (run_calls queue_step cs q1).
  cbn [fst snd] in *. by rewrite Ha.
Qed.

(** C35: after any calls that add and delete records, accepted and refused,
    each has had the answer the queue of records gives, and the log holds
    exactly the records of the queue, in its order. *)
Theorem audit_history_refines cs : Forall (fun c => forall a, 0 <= ac_mem c a < 256) cs ->
  let '(answers, s) := run_calls serve cs (snd (audit_core_init audit_boot)) in
  let '(answers', q) := run_calls queue_step cs (0, []) in
  answers = answers' /\ represents s q.
Proof.
  intros Hcs. pose proof (run_represents cs _ _ Hcs boot_represents) as H.
  by destruct (run_calls serve cs _), (run_calls queue_step cs _).
Qed.

(** ** A concrete history *)
Definition demo_mem (size : Z) : Z -> Z := fun a =>
  if a =? 64 then size else if (68 <=? a) && (a <? 68 + size) then (a - 67) mod 256 else 0.
Definition demo_add (size : Z) : audit_call :=
  {| ac_op := AddRecord; ac_in := [{| iv_base := 64; iv_len := 8 |}]; ac_in_len := 1; ac_out_len := 0;
     ac_mem := demo_mem size; ac_caller := Some 7 |}.
Definition demo_delete : audit_call :=
  {| ac_op := DeleteRecord; ac_in := [{| iv_base := 96; iv_len := 4 |}; {| iv_base := 0; iv_len := 0 |}];
     ac_in_len := 2; ac_out_len := 0; ac_mem := demo_mem 8; ac_caller := Some 7 |}.

Lemma demo_mem_byte size a : 0 <= size < 256 -> 0 <= demo_mem size a < 256.
Proof.
  intros H. unfold demo_mem. destruct (_ =? _); [done|]. destruct (_ && _); [|done].
  by apply Z.mod_pos_bound.
Qed.

Definition demo_calls : list audit_call :=
  [demo_delete; demo_add 200; demo_add 6; demo_add 200; demo_delete; demo_add 252; demo_add 252; demo_add 252].

(** The first record was deleted and the second gave way to the last. *)
Example demo_queue : snd (snd (run_calls queue_step demo_calls (0, []))) !! 0%nat =
    Some (log_item 2 7 (mem_bytes (demo_mem 252) 64 256)) /\
  length (snd (snd (run_calls queue_step demo_calls (0, [])))) = 3%nat.
Proof. by vm_compute. Qed.

Lemma demo_calls_ok : Forall (fun c => forall a, 0 <= ac_mem c a < 256) demo_calls.
Proof. repeat (apply Forall_cons; split; [intros a; apply demo_mem_byte; lia|]). apply Forall_nil_2. Qed.

Lemma audit_history_refines_witness :
  let '(answers, s) := run_calls serve demo_calls (snd (audit_core_init audit_boot)) in
  let '(answers', q) := run_calls queue_step demo_calls (0, []) in
  answers = answers' /\ represents s q.
Proof.
  apply audit_history_refines, demo_calls_ok.
Defined.

(** The log those calls leave, in a call that reads record 2. *)
Definition demo_read (s : audit_state) : audit_state :=
  {| log_buffer := log_buffer s; scratch_buffer := scratch_buffer s; log_state := log_state s;
     global_timestamp := global_timestamp s;
     caller_mem := fun a => if a =? 96 then 2 else 0; caller_id := Some 7;
     out_vec := [{| ov_base := 512; ov_len := 300 |}] |}.
Definition demo_log : audit_state := demo_read (snd (run_calls serve demo_calls (snd (audit_core_init audit_boot)))).
Definition demo_read_in : list psa_invec := [{| iv_base := 96; iv_len := 4 |}; {| iv_base := 0; iv_len := 0 |}].

Lemma demo_read_holds s rs : log_holds s rs -> log_holds (demo_read s) rs.
Proof.
  intros [H1 H2 H3 H4 H5 H6 H7 H8]. split; try assumption.
  intros a. cbn. by destruct (a =? 96).
Qed.

Lemma demo_log_holds : log_holds demo_log (snd (snd (run_calls queue_step demo_calls (0, [])))).
Proof. apply demo_read_holds, (run_represents demo_calls _ _ demo_calls_ok boot_represents). Qed.

Lemma audit_retrieve_reads_witness :
  retrieve_refused demo_read_in demo_log (snd (snd (run_calls queue_step demo_calls (0, [])))) = None /\
  match retrieve_refused demo_read_in demo_log (snd (snd (run_calls queue_step demo_calls (0, [])))) with
  | Some e => audit_core_retrieve_record demo_read_in 2 1 demo_log = (Err e, set_out_len 0 0 demo_log)
  | None => exists r,
      snd (snd (run_calls queue_step demo_calls (0, []))) !! Z.to_nat (index_of demo_read_in demo_log) = Some r /\
      audit_core_retrieve_record demo_read_in 2 1 demo_log =
        (Ok tt, set_out_len 0 (Z.of_nat (length r))
                  (set_mem (store_bytes (caller_mem demo_log) (ov_base (out_at 0 (out_vec demo_log))) r) demo_log))
  end.
Proof.
  split; [by vm_compute|]. exact (audit_retrieve_reads demo_log _ demo_read_in demo_log_holds eq_refl).
Defined.
