(* ===== verification/Crypto.v ===== *)
(** * Crypto: the state of the service and its tables

    secure_fw/partitions/crypto/: the interface to the PSA Crypto library and
    to the platform, which are parameters; the scratch memory of
    crypto_init.c; the table of operations of crypto_alloc.c; the table of
    key handles of crypto_key.c. Builds with TFM_PSA_API and all modules. *)

From Stdlib Require Import ZArith List Lia Bool.
From stdpp Require Import base tactics list.
From S2P Require Import Prelude.
Import ListNotations.
Local Open Scope Z_scope.

(** ** Constants *)
Definition TFM_CRYPTO_CONC_OPER_NUM : nat := 8.
Definition TFM_CRYPTO_MAX_KEY_HANDLES : nat := 32.
Definition TFM_CRYPTO_IOVEC_BUFFER_SIZE : Z := 5120.
Definition TFM_CRYPTO_IOVEC_ALIGNMENT : Z := 4.
Definition TFM_CRYPTO_INVALID_HANDLE : Z := 0.
Definition TFM_CRYPTO_NOT_IN_USE : Z := 0.
Definition TFM_CRYPTO_IN_USE : Z := 1.
Definition TFM_CRYPTO_ALG_HUK_DERIVATION : Z := 0xB0000F00.
Definition PSA_KEY_DERIVATION_INPUT_LABEL : Z := 0x0201.
Definition PSA_KEY_ID_VENDOR_MIN : Z := 0x40000000.
Definition PSA_KEY_ID_VENDOR_MAX : Z := 0x7fffffff.
Definition PSA_KEY_LIFETIME_VOLATILE : Z := 0.

Inductive operation_type :=
| TFM_CRYPTO_OPERATION_NONE
| TFM_CRYPTO_CIPHER_OPERATION
| TFM_CRYPTO_MAC_OPERATION
| TFM_CRYPTO_HASH_OPERATION
| TFM_CRYPTO_KEY_DERIVATION_OPERATION.
#[export] Instance operation_type_eq_dec : EqDecision operation_type.
Proof. solve_decision. Defined.

(** ** Keys *)
(** [mbedtls_svc_key_id_t] with MBEDTLS_PSA_CRYPTO_KEY_ID_ENCODES_OWNER. *)
Record svc_key := mbedtls_svc_key_id_make { sk_owner : Z; sk_key_id : Z }.

Record psa_key_attributes := {
  ka_type : Z;
  ka_lifetime : Z;
  ka_usage : Z;
  ka_alg : Z;
  ka_bits : Z;
  ka_id : svc_key
}.

Record psa_client_key_attributes := {
  ca_lifetime : Z;
  ca_id : Z;
  ca_alg : Z;
  ca_usage : Z;
  ca_bits : Z;
  ca_type : Z
}.
Definition sizeof_client_key_attributes : Z := 24.

(** ** The PSA Crypto library

    The functions the service calls, with their arguments: an input buffer as
    its bytes, an output buffer as its size. *)
Inductive psa_fn :=
| psa_hash_setup (alg : Z)
| psa_hash_update (input : list Z)
| psa_hash_finish (hash_size : Z)
| psa_hash_verify (hash : list Z)
| psa_hash_abort
| psa_hash_clone (source_operation : list Z)
| psa_hash_compute (alg : Z) (input : list Z) (hash_size : Z)
| psa_hash_compare (alg : Z) (input hash : list Z)
| psa_mac_sign_setup (key : svc_key) (alg : Z)
| psa_mac_verify_setup (key : svc_key) (alg : Z)
| psa_mac_update (input : list Z)
| psa_mac_sign_finish (mac_size : Z)
| psa_mac_verify_finish (mac : list Z)
| psa_mac_abort
| psa_cipher_generate_iv (iv_size : Z)
| psa_cipher_set_iv (iv : list Z)
| psa_cipher_encrypt_setup (key : svc_key) (alg : Z)
| psa_cipher_decrypt_setup (key : svc_key) (alg : Z)
| psa_cipher_update (input : list Z) (output_size : Z)
| psa_cipher_finish (output_size : Z)
| psa_cipher_abort
| psa_aead_encrypt (key : svc_key) (alg : Z) (nonce : list Z) (nonce_length : Z)
    (additional_data plaintext : list Z) (ciphertext_size : Z)
| psa_aead_decrypt (key : svc_key) (alg : Z) (nonce : list Z) (nonce_length : Z)
    (additional_data ciphertext : list Z) (plaintext_size : Z)
| psa_sign_hash (key : svc_key) (alg : Z) (hash : list Z) (signature_size : Z)
| psa_verify_hash (key : svc_key) (alg : Z) (hash signature : list Z)
| psa_asymmetric_encrypt (key : svc_key) (alg : Z) (input salt : list Z) (output_size : Z)
| psa_asymmetric_decrypt (key : svc_key) (alg : Z) (input salt : list Z) (output_size : Z)
| psa_key_derivation_setup (alg : Z)
| psa_key_derivation_get_capacity
| psa_key_derivation_set_capacity (capacity : Z)
| psa_key_derivation_input_bytes (step : Z) (data : list Z)
| psa_key_derivation_output_bytes (output_length : Z)
| psa_key_derivation_input_key (step : Z) (key : svc_key)
| psa_key_derivation_output_key (attributes : psa_key_attributes)
| psa_key_derivation_abort
| psa_key_derivation_key_agreement (step : Z) (private_key : svc_key) (peer_key : list Z)
| psa_raw_key_agreement (alg : Z) (private_key : svc_key) (peer_key : list Z) (output_size : Z)
| psa_generate_random (output_size : Z)
| psa_import_key (attributes : psa_key_attributes) (data : list Z)
| psa_open_key (key : svc_key)
| psa_close_key (key : svc_key)
| psa_destroy_key (key : svc_key)
| psa_purge_key (key : svc_key)
| psa_get_key_attributes (key : svc_key)
| psa_export_key (key : svc_key) (data_size : Z)
| psa_export_public_key (key : svc_key) (data_size : Z)
| psa_copy_key (source_key : svc_key) (attributes : psa_key_attributes)
| psa_generate_key (attributes : psa_key_attributes)
| hal_sign_hash (id alg : Z) (hash : list Z) (signature_size : Z)
| hal_verify_hash (id alg : Z) (hash signature : list Z)
| hal_export_public_key (id : Z) (data_size : Z).

(** A status, the bytes put in the output buffer, the number or the key
    handed out, and the attributes. *)
Record psa_result := {
  r_status : psa_status_t;
  r_out : list Z;
  r_val : Z;
  r_key : svc_key;
  r_attr : psa_key_attributes
}.

(** The room of the output buffer of a function. *)
Definition out_room (f : psa_fn) : Z :=
  match f with
  | psa_hash_finish n | psa_hash_compute _ _ n | psa_mac_sign_finish n | psa_cipher_generate_iv n
  | psa_cipher_update _ n | psa_cipher_finish n | psa_aead_encrypt _ _ _ _ _ _ n
  | psa_aead_decrypt _ _ _ _ _ _ n | psa_sign_hash _ _ _ n | psa_asymmetric_encrypt _ _ _ _ n
  | psa_asymmetric_decrypt _ _ _ _ n | psa_key_derivation_output_bytes n
  | psa_raw_key_agreement _ _ _ n | psa_generate_random n | psa_export_key _ n
  | psa_export_public_key _ n | hal_sign_hash _ _ _ n | hal_export_public_key _ n => n
  | _ => 0
  end.

(** The owners of the keys a function names. *)
Definition fn_owners (f : psa_fn) : list Z :=
  match f with
  | psa_mac_sign_setup k _ | psa_mac_verify_setup k _ | psa_cipher_encrypt_setup k _
  | psa_cipher_decrypt_setup k _ | psa_aead_encrypt k _ _ _ _ _ _ | psa_aead_decrypt k _ _ _ _ _ _
  | psa_sign_hash k _ _ _ | psa_verify_hash k _ _ _ | psa_asymmetric_encrypt k _ _ _ _
  | psa_asymmetric_decrypt k _ _ _ _ | psa_key_derivation_input_key _ k
  | psa_key_derivation_key_agreement _ k _ | psa_raw_key_agreement _ k _ _ | psa_open_key k
  | psa_close_key k | psa_destroy_key k | psa_purge_key k | psa_get_key_attributes k
  | psa_export_key k _ | psa_export_public_key k _ => [sk_owner k]
  | psa_key_derivation_output_key a | psa_import_key a _ | psa_generate_key a => [sk_owner (ka_id a)]
  | psa_copy_key k a => [sk_owner k; sk_owner (ka_id a)]
  | _ => []
  end.

(** The library, its state, and what the service uses of the platform. An
    operation context is its bytes; the service looks into those of a key
    derivation only: the algorithm, and the label of the TLS 1.2 PRF, which
    lies in memory the library allocates; a pointer is stored whether or not
    there was any. *)
Class PsaCrypto := {
  engine : Type;
  psa : psa_fn -> list Z -> engine -> psa_result * list Z * engine;
  sizeof_operation : operation_type -> nat;
  psa_reset_key_attributes : psa_key_attributes -> psa_key_attributes;
  psa_key_attributes_init : psa_key_attributes;
  kd_alg : list Z -> Z;
  kd_set_alg : list Z -> Z -> list Z;
  kd_put_label : list Z -> list Z -> engine -> bool * list Z * engine;
  kd_label : list Z -> engine -> list Z;
  kd_free_label : list Z -> engine -> engine;
  kd_output_block_size : Z;
  kd_put_block : list Z -> list Z -> list Z;
  tfm_plat_get_huk_derived_key : list Z -> Z -> engine -> option (list Z) * engine;
  hal_is_valid_key_id : Z -> engine -> bool;
  hal_is_device_key_id : Z -> engine -> bool;
  hal_key_id_mapping_mbedcrypto_2_fb : Z -> engine -> Z;
  hal_get_key_metadata : Z -> engine -> res (Z * Z);
  hal_get_key_data : Z -> engine -> res (Z * Z * list Z);
  hal_add_key_id_mapping : Z -> Z -> engine -> psa_status_t * engine
}.

(** ** State *)
(** Where a pointer of a vector points: nowhere, at the packed arguments on
    the stack of the handler, or into the scratch memory. *)
Inductive ptr := NULL | IOV | SCRATCH (off : Z).

Record psa_invec := { iv_base : ptr; iv_len : Z }.
Record psa_outvec := { ov_base : ptr; ov_len : Z }.

Record tfm_crypto_operation_s := {
  in_use : Z;
  owner : Z;
  type : operation_type;
  operation_ctx : list Z
}.

Record tfm_crypto_handle_owner_s := {
  ho_owner : Z;
  ho_key : Z;
  ho_in_use : Z
}.

Record tfm_crypto_scratch := {
  buf : list Z;
  alloc_index : Z;
  scratch_owner : Z
}.

Record tfm_crypto_pack_iovec := {
  sfn_id : Z;
  step : Z;
  key_id : Z;
  iov_alg : Z;
  op_handle : Z;
  capacity : Z;
  nonce : list Z;
  nonce_length : Z
}.
Definition sizeof_pack_iovec : Z := 44.
Definition TFM_CRYPTO_MAX_NONCE_LENGTH : nat := 16.

Section State.
Context {C : PsaCrypto}.

(** [fault] is set when a write would leave its buffer; [written] is what
    psa_write has sent to the client. *)
Record crypto_state := {
  operation : list tfm_crypto_operation_s;
  handle_owner : list tfm_crypto_handle_owner_s;
  scratch : tfm_crypto_scratch;
  eng : engine;
  iov : tfm_crypto_pack_iovec;
  out_vec : list psa_outvec;
  written : list (Z * list Z);
  fault : bool
}.

Definition CM : Type -> Type := M crypto_state.

Definition set_operation (l : list tfm_crypto_operation_s) (s : crypto_state) : crypto_state :=
  {| operation := l; handle_owner := handle_owner s; scratch := scratch s; eng := eng s; iov := iov s;
     out_vec := out_vec s; written := written s; fault := fault s |}.
Definition set_handles (l : list tfm_crypto_handle_owner_s) (s : crypto_state) : crypto_state :=
  {| operation := operation s; handle_owner := l; scratch := scratch s; eng := eng s; iov := iov s;
     out_vec := out_vec s; written := written s; fault := fault s |}.
Definition set_scratch (x : tfm_crypto_scratch) (s : crypto_state) : crypto_state :=
  {| operation := operation s; handle_owner := handle_owner s; scratch := x; eng := eng s; iov := iov s;
     out_vec := out_vec s; written := written s; fault := fault s |}.
Definition set_eng (e : engine) (s : crypto_state) : crypto_state :=
  {| operation := operation s; handle_owner := handle_owner s; scratch := scratch s; eng := e; iov := iov s;
     out_vec := out_vec s; written := written s; fault := fault s |}.
Definition set_iov (v : tfm_crypto_pack_iovec) (s : crypto_state) : crypto_state :=
  {| operation := operation s; handle_owner := handle_owner s; scratch := scratch s; eng := eng s; iov := v;
     out_vec := out_vec s; written := written s; fault := fault s |}.
Definition set_out_vec (l : list psa_outvec) (s : crypto_state) : crypto_state :=
  {| operation := operation s; handle_owner := handle_owner s; scratch := scratch s; eng := eng s; iov := iov s;
     out_vec := l; written := written s; fault := fault s |}.
Definition set_written (l : list (Z * list Z)) (s : crypto_state) : crypto_state :=
  {| operation := operation s; handle_owner := handle_owner s; scratch := scratch s; eng := eng s; iov := iov s;
     out_vec := out_vec s; written := l; fault := fault s |}.
Definition set_fault (s : crypto_state) : crypto_state :=
  {| operation := operation s; handle_owner := handle_owner s; scratch := scratch s; eng := eng s; iov := iov s;
     out_vec := out_vec s; written := written s; fault := true |}.

(** ** Memory *)
Definition bytes_at (l : list Z) (off n : Z) : list Z := firstn (Z.to_nat n) (skipn (Z.to_nat off) l).
Definition splice (l : list Z) (off : Z) (new : list Z) : list Z :=
  firstn (Z.to_nat off) l ++ new ++ skipn (Z.to_nat off + length new) l.

(** The scratch memory with [new] at [off]. *)
Definition scratch_write (off : Z) (new : list Z) (s : crypto_state) : crypto_state :=
  set_scratch {| buf := splice (buf (scratch s)) off new; alloc_index := alloc_index (scratch s);
                 scratch_owner := scratch_owner (scratch s) |} s.

Definition mem_write (p : ptr) (new : list Z) : CM unit :=
  match new, p with
  | [], _ => ret tt
  | _, SCRATCH off =>
      let! s := reads (fun s => s) in
      if off + Z.of_nat (length new) <=? TFM_CRYPTO_IOVEC_BUFFER_SIZE
      then modify (scratch_write off new) else modify set_fault
  | _, _ => modify set_fault
  end.
Definition write32 (p : ptr) (v : Z) : CM unit := mem_write p (le_bytes 4 v).

Definition mem_read (p : ptr) (n : Z) (s : crypto_state) : list Z :=
  match p with
  | SCRATCH off => bytes_at (buf (scratch s)) off n
  | _ => []
  end.
Definition read32 (p : ptr) : CM Z := reads (fun s => le_val (mem_read p 4 s)).

(** The bytes of an input vector. *)
Definition read_in (v : psa_invec) : CM (list Z) := reads (mem_read (iv_base v) (iv_len v)).

Definition in_at (i : nat) (in_vec : list psa_invec) : psa_invec := nth i in_vec {| iv_base := NULL; iv_len := 0 |}.
Definition out_at (i : nat) : CM psa_outvec :=
  reads (fun s => nth i (out_vec s) {| ov_base := NULL; ov_len := 0 |}).
Definition set_out_len (i : nat) (n : Z) : CM unit :=
  modify (fun s => set_out_vec
    (alter (fun v => {| ov_base := ov_base v; ov_len := n |}) i (out_vec s)) s).

(** The structures the client sends as bytes. *)
Definition field32 (l : list Z) (off : Z) : Z := le_val (bytes_at l off 4).
Definition bytes_iov (l : list Z) : tfm_crypto_pack_iovec :=
  {| sfn_id := field32 l 0; step := le_val (bytes_at l 4 2); key_id := field32 l 8; iov_alg := field32 l 12;
     op_handle := field32 l 16; capacity := field32 l 20; nonce := bytes_at l 24 16;
     nonce_length := field32 l 40 |}.
Definition bytes_client_attr (l : list Z) : psa_client_key_attributes :=
  {| ca_lifetime := field32 l 0; ca_id := field32 l 4; ca_alg := field32 l 8; ca_usage := field32 l 12;
     ca_bits := field32 l 16; ca_type := le_val (bytes_at l 20 2) |}.
Definition client_attr_bytes (a : psa_client_key_attributes) : list Z :=
  le_bytes 4 (ca_lifetime a) ++ le_bytes 4 (ca_id a) ++ le_bytes 4 (ca_alg a) ++ le_bytes 4 (ca_usage a) ++
  le_bytes 4 (ca_bits a) ++ le_bytes 2 (ca_type a) ++ [0; 0].

(** [iov] of a handler: the first input vector points at it. *)
Definition read_iov : CM tfm_crypto_pack_iovec := reads iov.

Definition ignore {A} (m : CM A) : CM unit := let! _ := attempt m in ret tt.
Definition return_status (e : psa_status_t) : CM unit := if e =? PSA_SUCCESS then ret tt else fail e.

(** ** crypto_init.c: the scratch memory *)
Definition ALIGN (x a : Z) : Z := Z.land (u32 (x + (a - 1))) (u32 (Z.lnot (a - 1))).

Definition tfm_crypto_set_scratch_owner (id : Z) : CM unit :=
  modify (fun s => set_scratch {| buf := buf (scratch s); alloc_index := alloc_index (scratch s);
                                  scratch_owner := id |} s).
Definition tfm_crypto_get_scratch_owner : CM Z := reads (fun s => scratch_owner (scratch s)).

Definition tfm_crypto_alloc_scratch (requested_size : Z) : CM ptr :=
  let requested_size := ALIGN requested_size TFM_CRYPTO_IOVEC_ALIGNMENT in
  let! s := reads scratch in
  if requested_size >? u32 (TFM_CRYPTO_IOVEC_BUFFER_SIZE - alloc_index s) then fail PSA_ERROR_INSUFFICIENT_MEMORY
  else
    do! modify (set_scratch {| buf := buf s; alloc_index := u32 (alloc_index s + requested_size);
                               scratch_owner := scratch_owner s |}) in
    ret (SCRATCH (alloc_index s)).

Definition tfm_crypto_clear_scratch : CM unit :=
  modify (fun s =>
    let x := scratch s in
    set_scratch {| buf := splice (buf x) 0 (repeat 0 (Z.to_nat (alloc_index x))); alloc_index := 0;
                   scratch_owner := 0 |} s).

Definition tfm_crypto_get_caller_id : CM Z := tfm_crypto_get_scratch_owner.

(** ** crypto_alloc.c *)
Definition no_operation : tfm_crypto_operation_s :=
  {| in_use := 0; owner := 0; type := TFM_CRYPTO_OPERATION_NONE; operation_ctx := [] |}.
Definition op_at (i : nat) (s : crypto_state) : tfm_crypto_operation_s := nth i (operation s) no_operation.
Definition set_op (i : nat) (o : tfm_crypto_operation_s) (s : crypto_state) : crypto_state :=
  set_operation (<[i := o]> (operation s)) s.

(** The size of the union of the four contexts. *)
Definition sizeof_ctx : nat :=
  Nat.max (Nat.max (sizeof_operation TFM_CRYPTO_CIPHER_OPERATION) (sizeof_operation TFM_CRYPTO_MAC_OPERATION))
    (Nat.max (sizeof_operation TFM_CRYPTO_HASH_OPERATION) (sizeof_operation TFM_CRYPTO_KEY_DERIVATION_OPERATION)).

Definition memset_operation_context (o : tfm_crypto_operation_s) : list Z :=
  let mem_size := match type o with
                  | TFM_CRYPTO_OPERATION_NONE => O
                  | t => sizeof_operation t
                  end in
  splice (operation_ctx o) 0 (repeat 0 mem_size).

Definition tfm_crypto_init_alloc : CM unit :=
  modify (set_operation (repeat {| in_use := 0; owner := 0; type := TFM_CRYPTO_OPERATION_NONE;
                                   operation_ctx := repeat 0 sizeof_ctx |} TFM_CRYPTO_CONC_OPER_NUM)).

(** The first slot from [i] on that is not in use. *)
Fixpoint free_operation (l : list tfm_crypto_operation_s) (i : nat) : option nat :=
  match l with
  | [] => None
  | o :: l' => if in_use o =? TFM_CRYPTO_NOT_IN_USE then Some i else free_operation l' (S i)
  end.

(** Yields the new handle and the slot of the context; [ctx] is never null. *)
Definition tfm_crypto_operation_alloc (t : operation_type) (handle : Z) : CM (Z * nat) :=
  let! partition_id := tfm_crypto_get_caller_id in
  if negb (handle =? TFM_CRYPTO_INVALID_HANDLE) then fail PSA_ERROR_BAD_STATE
  else
    let! l := reads operation in
    match free_operation l 0 with
    | Some i =>
        do! modify (fun s => set_op i {| in_use := TFM_CRYPTO_IN_USE; owner := partition_id; type := t;
                                         operation_ctx := operation_ctx (op_at i s) |} s) in
        ret (Z.of_nat i + 1, i)
    | None => fail PSA_ERROR_NOT_PERMITTED
    end.

(** [handle] points at the handle. *)
Definition tfm_crypto_operation_release (handle : ptr) : CM unit :=
  let! h_val := read32 handle in
  let! partition_id := tfm_crypto_get_caller_id in
  let! o := reads (op_at (Z.to_nat (h_val - 1))) in
  if negb (h_val =? TFM_CRYPTO_INVALID_HANDLE) && (h_val <=? Z.of_nat TFM_CRYPTO_CONC_OPER_NUM) &&
     (in_use o =? TFM_CRYPTO_IN_USE) && (owner o =? partition_id)
  then
    do! modify (set_op (Z.to_nat (h_val - 1))
          {| in_use := TFM_CRYPTO_NOT_IN_USE; owner := 0; type := TFM_CRYPTO_OPERATION_NONE;
             operation_ctx := memset_operation_context o |}) in
    write32 handle TFM_CRYPTO_INVALID_HANDLE
  else fail PSA_ERROR_INVALID_ARGUMENT.

Definition tfm_crypto_operation_lookup (t : operation_type) (handle : Z) : CM nat :=
  let! partition_id := tfm_crypto_get_caller_id in
  let! o := reads (op_at (Z.to_nat (handle - 1))) in
  if negb (handle =? TFM_CRYPTO_INVALID_HANDLE) && (handle <=? Z.of_nat TFM_CRYPTO_CONC_OPER_NUM) &&
     (in_use o =? TFM_CRYPTO_IN_USE) && bool_decide (type o = t) && (owner o =? partition_id)
  then ret (Z.to_nat (handle - 1)) else fail PSA_ERROR_BAD_STATE.

(** ** Calls of the library *)
(** With no context. *)
Definition psa_run (f : psa_fn) : CM psa_result :=
  let! s := reads (fun s => s) in
  let '(r, _, e) := psa f [] (eng s) in
  do! modify (set_eng e) in ret r.

(** The context of type [t] in slot [i], which the call may change. *)
Definition ctx_of (t : operation_type) (i : nat) (s : crypto_state) : list Z :=
  firstn (sizeof_operation t) (operation_ctx (op_at i s)).
Definition put_ctx (i : nat) (c : list Z) (s : crypto_state) : crypto_state :=
  let o := op_at i s in
  set_op i {| in_use := in_use o; owner := owner o; type := type o;
              operation_ctx := splice (operation_ctx o) 0 c |} s.
Definition psa_on (t : operation_type) (i : nat) (f : psa_fn) : CM psa_result :=
  let! s := reads (fun s => s) in
  let '(r, c, e) := psa f (ctx_of t i s) (eng s) in
  do! modify (fun s => put_ctx i c (set_eng e s)) in ret r.

(** The output bytes at [base] and their number in the vector. *)
Definition put_output (i : nat) (base : ptr) (r : psa_result) : CM unit :=
  do! mem_write base (r_out r) in set_out_len i (Z.of_nat (length (r_out r))).

(** ** crypto_key.c: attributes and handles *)
Definition tfm_crypto_key_attributes_from_client (a : psa_client_key_attributes) (client_id : Z) :
    psa_key_attributes :=
  {| ka_type := ca_type a; ka_lifetime := ca_lifetime a; ka_usage := ca_usage a; ka_alg := ca_alg a;
     ka_bits := ca_bits a; ka_id := mbedtls_svc_key_id_make client_id (ca_id a) |}.
Definition tfm_crypto_key_attributes_to_client (a : psa_key_attributes) : psa_client_key_attributes :=
  {| ca_lifetime := ka_lifetime a; ca_id := sk_key_id (ka_id a); ca_alg := ka_alg a; ca_usage := ka_usage a;
     ca_bits := ka_bits a; ca_type := ka_type a |}.

(** The first entry with the key. *)
Fixpoint find_handle (l : list tfm_crypto_handle_owner_s) (key : Z) (i : nat) :
    option (nat * tfm_crypto_handle_owner_s) :=
  match l with
  | [] => None
  | h :: l' => if negb (ho_in_use h =? 0) && (ho_key h =? key) then Some (i, h) else find_handle l' key (S i)
  end.
Definition tfm_crypto_check_handle_owner (key : Z) : CM nat :=
  let! partition_id := tfm_crypto_get_caller_id in
  let! l := reads handle_owner in
  match find_handle l key 0 with
  | Some (i, h) => if ho_owner h =? partition_id then ret i else fail PSA_ERROR_NOT_PERMITTED
  | None => fail PSA_ERROR_INVALID_HANDLE
  end.

Definition tfm_crypto_encode_id_and_owner (key : Z) : CM svc_key :=
  let! partition_id := tfm_crypto_get_caller_id in
  ret (mbedtls_svc_key_id_make partition_id key).

Fixpoint free_handle (l : list tfm_crypto_handle_owner_s) (i : nat) : option nat :=
  match l with
  | [] => None
  | h :: l' => if ho_in_use h =? TFM_CRYPTO_NOT_IN_USE then Some i else free_handle l' (S i)
  end.
Definition tfm_crypto_check_key_storage : CM nat :=
  let! l := reads handle_owner in
  match free_handle l 0 with Some i => ret i | None => fail PSA_ERROR_INSUFFICIENT_MEMORY end.

Definition set_handle (i : nat) (o key use : Z) (s : crypto_state) : crypto_state :=
  set_handles (<[i := {| ho_owner := o; ho_key := key; ho_in_use := use |}]> (handle_owner s)) s.
Definition tfm_crypto_set_key_storage (index : nat) (key_handle : Z) : CM unit :=
  if (TFM_CRYPTO_MAX_KEY_HANDLES <=? index)%nat then fail PSA_ERROR_INVALID_ARGUMENT
  else
    let! partition_id := tfm_crypto_get_caller_id in
    modify (set_handle index partition_id key_handle TFM_CRYPTO_IN_USE).
Definition clear_handle (index : nat) : CM unit := modify (set_handle index 0 0 TFM_CRYPTO_NOT_IN_USE).
(** [handle_owner[index].owner] *)
Definition handle_owner_at (index : nat) : CM Z :=
  reads (fun s => ho_owner (nth index (handle_owner s) {| ho_owner := 0; ho_key := 0; ho_in_use := 0 |})).
End State.

(** ** Handlers *)
(** [in_vec], [in_len] and [out_len]; [out_vec] is in the state. *)
Definition tfm_crypto_us_t `{PsaCrypto} : Type := list psa_invec -> Z -> Z -> CM unit.

Definition tfm_crypto_private_check_length (in_len in_min in_max out_len out_min out_max : Z) : bool :=
  (in_len >=? in_min) && (in_len <=? in_max) && (out_len >=? out_min) && (out_len <=? out_max).
Definition CRYPTO_IN_OUT_LEN_VALIDATE `{PsaCrypto} (in_len in_min in_max out_len out_min out_max : Z)
    (rest : CM unit) : CM unit :=
  if negb (tfm_crypto_private_check_length in_len in_min in_max out_len out_min out_max)
  then fail PSA_ERROR_PROGRAMMER_ERROR else rest.
