(* ===== verification/CryptoKeys.v ===== *)
(** * Crypto: keys

    The secure functions of crypto_key.c and crypto_asymmetric.c, and the
    vendor keys of crypto_vendor_key.c over the platform layer, which is a
    parameter. *)

From Stdlib Require Import ZArith List Lia Bool.
From stdpp Require Import base tactics list.
From S2P Require Import Prelude Crypto.
Import ListNotations.
Local Open Scope Z_scope.

Section Keys.
Context {C : PsaCrypto}.

(** ** crypto_vendor_key.c *)
Definition tfm_crypto_vendor_key_is_valid (key : Z) (is_device_key : bool) : CM bool :=
  let! encoded_key := tfm_crypto_encode_id_and_owner key in
  do! psa_run (psa_get_key_attributes encoded_key) in
  let! e := reads eng in
  let fb_key_id := hal_key_id_mapping_mbedcrypto_2_fb key e in
  ret (if is_device_key then hal_is_device_key_id fb_key_id e else hal_is_valid_key_id fb_key_id e).
Definition tfm_crypto_vendor_key_is_valid_key (key : Z) : CM bool := tfm_crypto_vendor_key_is_valid key false.
Definition tfm_crypto_vendor_key_is_valid_device_key (key : Z) : CM bool :=
  tfm_crypto_vendor_key_is_valid key true.

Definition hal_result {A} (r : res A) : CM A := match r with Ok a => ret a | Err e => fail e end.

(** [key] points at the handle handed out. *)
Definition tfm_crypto_vendor_key_open_key (encoded_key : svc_key) (key : ptr) : CM unit :=
  let vendor_id := sk_key_id encoded_key in
  let! e := reads eng in
  if negb (hal_is_valid_key_id vendor_id e) then fail PSA_ERROR_DOES_NOT_EXIST
  else
    let! index := tfm_crypto_check_key_storage in
    let! (usage, alg) := hal_result (hal_get_key_metadata vendor_id e) in
    let! (key_type, key_bits, key_data) := hal_result (hal_get_key_data vendor_id e) in
    let init := psa_key_attributes_init in
    let attributes :=
      {| ka_type := key_type; ka_lifetime := PSA_KEY_LIFETIME_VOLATILE; ka_usage := usage; ka_alg := alg;
         ka_bits := key_bits;
         ka_id := mbedtls_svc_key_id_make (sk_owner encoded_key) (sk_key_id (ka_id init)) |} in
    let! r := psa_run (psa_import_key attributes key_data) in
    do! write32 key (sk_key_id (r_key r)) in
    do! return_status (r_status r) in
    do! tfm_crypto_set_key_storage index (sk_key_id (r_key r)) in
    let! e := reads eng in
    let '(status, e') := hal_add_key_id_mapping (sk_key_id (r_key r)) vendor_id e in
    do! modify (set_eng e') in
    return_status status.

Definition tfm_crypto_vendor_key_sign_hash (key alg : Z) (hash : list Z) (signature_size : Z) : CM psa_result :=
  let! e := reads eng in
  psa_run (hal_sign_hash (hal_key_id_mapping_mbedcrypto_2_fb key e) alg hash signature_size).
Definition tfm_crypto_vendor_key_verify_hash (key alg : Z) (hash signature : list Z) : CM psa_result :=
  let! e := reads eng in
  psa_run (hal_verify_hash (hal_key_id_mapping_mbedcrypto_2_fb key e) alg hash signature).
Definition tfm_crypto_vendor_key_export_public_key (key data_size : Z) : CM psa_result :=
  let! e := reads eng in
  psa_run (hal_export_public_key (hal_key_id_mapping_mbedcrypto_2_fb key e) data_size).

(** ** crypto_key.c *)
Definition iov_sized (in_vec : list psa_invec) : bool := iv_len (in_at 0 in_vec) =? sizeof_pack_iovec.

Definition tfm_crypto_set_key_domain_parameters : tfm_crypto_us_t := fun _ _ _ => fail PSA_ERROR_NOT_SUPPORTED.
Definition tfm_crypto_get_key_domain_parameters : tfm_crypto_us_t := fun _ _ _ => fail PSA_ERROR_NOT_SUPPORTED.

(** The end of the functions that make a key: [*key = encoded_key.key_id] and
    the entry [i] for a key that was made. *)
Definition record_new_key (i : nat) (partition_id : Z) (key : ptr) (r : psa_result) : CM unit :=
  do! write32 key (sk_key_id (r_key r)) in
  do! return_status (r_status r) in
  modify (set_handle i partition_id (sk_key_id (r_key r)) TFM_CRYPTO_IN_USE).

Definition tfm_crypto_import_key : tfm_crypto_us_t := fun in_vec in_len out_len =>
  CRYPTO_IN_OUT_LEN_VALIDATE in_len 2 3 out_len 1 1 (
  let! ov0 := out_at 0 in
  if negb (iov_sized in_vec) || negb (iv_len (in_at 1 in_vec) =? sizeof_client_key_attributes) ||
     negb (ov_len ov0 =? 4)
  then fail PSA_ERROR_PROGRAMMER_ERROR
  else
    let! i := tfm_crypto_check_key_storage in
    let! partition_id := tfm_crypto_get_caller_id in
    let! client_key_attr := read_in (in_at 1 in_vec) in
    let! data := read_in (in_at 2 in_vec) in
    let key_attributes := tfm_crypto_key_attributes_from_client (bytes_client_attr client_key_attr) partition_id in
    let! r := psa_run (psa_import_key key_attributes data) in
    record_new_key i partition_id (ov_base ov0) r).

Definition tfm_crypto_open_key : tfm_crypto_us_t := fun in_vec in_len out_len =>
  CRYPTO_IN_OUT_LEN_VALIDATE in_len 2 2 out_len 1 1 (
  let! ov0 := out_at 0 in
  if negb (iov_sized in_vec) || negb (iv_len (in_at 1 in_vec) =? 4) || negb (ov_len ov0 =? 4)
  then fail PSA_ERROR_PROGRAMMER_ERROR
  else
    let! client_key_id := read32 (iv_base (in_at 1 in_vec)) in
    let! i := tfm_crypto_check_key_storage in
    let! partition_id := tfm_crypto_get_caller_id in
    let encoded_key := mbedtls_svc_key_id_make partition_id client_key_id in
    if (client_key_id >=? PSA_KEY_ID_VENDOR_MIN) && (client_key_id <=? PSA_KEY_ID_VENDOR_MAX)
    then tfm_crypto_vendor_key_open_key encoded_key (ov_base ov0)
    else
      let! r := psa_run (psa_open_key encoded_key) in
      record_new_key i partition_id (ov_base ov0) r).

(** tfm_crypto_close_key, tfm_crypto_destroy_key and tfm_crypto_purge_key
    differ in the function of the library they call. *)
Definition close_with (f : svc_key -> psa_fn) : tfm_crypto_us_t := fun in_vec in_len out_len =>
  CRYPTO_IN_OUT_LEN_VALIDATE in_len 1 1 out_len 0 0 (
  if negb (iov_sized in_vec) then fail PSA_ERROR_PROGRAMMER_ERROR
  else
    let! iov := read_iov in
    let key := key_id iov in
    let! index := tfm_crypto_check_handle_owner key in
    let! o := handle_owner_at index in
    let! r := psa_run (f (mbedtls_svc_key_id_make o key)) in
    do! return_status (r_status r) in
    clear_handle index).
Definition tfm_crypto_close_key : tfm_crypto_us_t := close_with psa_close_key.
Definition tfm_crypto_destroy_key : tfm_crypto_us_t := close_with psa_destroy_key.
Definition tfm_crypto_purge_key : tfm_crypto_us_t := close_with psa_purge_key.

Definition tfm_crypto_get_key_attributes : tfm_crypto_us_t := fun in_vec in_len out_len =>
  CRYPTO_IN_OUT_LEN_VALIDATE in_len 1 1 out_len 1 1 (
  let! ov0 := out_at 0 in
  if negb (iov_sized in_vec) || negb (ov_len ov0 =? sizeof_client_key_attributes)
  then fail PSA_ERROR_PROGRAMMER_ERROR
  else
    let! iov := read_iov in
    let key := key_id iov in
    do! tfm_crypto_check_handle_owner key in
    let! encoded_key := tfm_crypto_encode_id_and_owner key in
    let! r := psa_run (psa_get_key_attributes encoded_key) in
    do! return_status (r_status r) in
    mem_write (ov_base ov0) (client_attr_bytes (tfm_crypto_key_attributes_to_client (r_attr r)))).

Definition tfm_crypto_reset_key_attributes : tfm_crypto_us_t := fun in_vec in_len out_len =>
  CRYPTO_IN_OUT_LEN_VALIDATE in_len 1 1 out_len 1 1 (
  let! ov0 := out_at 0 in
  if negb (iov_sized in_vec) || negb (ov_len ov0 =? sizeof_client_key_attributes)
  then fail PSA_ERROR_PROGRAMMER_ERROR
  else
    let! partition_id := tfm_crypto_get_caller_id in
    let! client_key_attr := reads (mem_read (ov_base ov0) sizeof_client_key_attributes) in
    let key_attributes := tfm_crypto_key_attributes_from_client (bytes_client_attr client_key_attr) partition_id in
    let key_attributes := psa_reset_key_attributes key_attributes in
    mem_write (ov_base ov0) (client_attr_bytes (tfm_crypto_key_attributes_to_client key_attributes))).

Definition tfm_crypto_export_key : tfm_crypto_us_t := fun in_vec in_len out_len =>
  CRYPTO_IN_OUT_LEN_VALIDATE in_len 1 1 out_len 0 1 (
  if negb (iov_sized in_vec) then fail PSA_ERROR_PROGRAMMER_ERROR
  else
    let! iov := read_iov in
    let key := key_id iov in
    let! ov0 := out_at 0 in
    let! index := tfm_crypto_check_handle_owner key in
    let! o := handle_owner_at index in
    let! r := psa_run (psa_export_key (mbedtls_svc_key_id_make o key) (ov_len ov0)) in
    do! put_output 0 (ov_base ov0) r in
    return_status (r_status r)).

Definition tfm_crypto_export_public_key : tfm_crypto_us_t := fun in_vec in_len out_len =>
  CRYPTO_IN_OUT_LEN_VALIDATE in_len 1 1 out_len 0 1 (
  if negb (iov_sized in_vec) then fail PSA_ERROR_PROGRAMMER_ERROR
  else
    let! iov := read_iov in
    let key := key_id iov in
    let! ov0 := out_at 0 in
    let! index := tfm_crypto_check_handle_owner key in
    let! o := handle_owner_at index in
    let! device_key := tfm_crypto_vendor_key_is_valid_device_key key in
    let! r := if device_key then tfm_crypto_vendor_key_export_public_key key (ov_len ov0)
              else psa_run (psa_export_public_key (mbedtls_svc_key_id_make o key) (ov_len ov0)) in
    do! put_output 0 (ov_base ov0) r in
    return_status (r_status r)).

Definition tfm_crypto_copy_key : tfm_crypto_us_t := fun in_vec in_len out_len =>
  CRYPTO_IN_OUT_LEN_VALIDATE in_len 2 2 out_len 1 1 (
  let! ov0 := out_at 0 in
  if negb (iov_sized in_vec) || negb (ov_len ov0 =? 4) ||
     negb (iv_len (in_at 1 in_vec) =? sizeof_client_key_attributes)
  then fail PSA_ERROR_PROGRAMMER_ERROR
  else
    let! iov := read_iov in
    let source_key_id := key_id iov in
    let! i := tfm_crypto_check_key_storage in
    let! partition_id := tfm_crypto_get_caller_id in
    let! client_key_attr := read_in (in_at 1 in_vec) in
    let key_attributes := tfm_crypto_key_attributes_from_client (bytes_client_attr client_key_attr) partition_id in
    do! tfm_crypto_check_handle_owner source_key_id in
    let! encoded_key := tfm_crypto_encode_id_and_owner source_key_id in
    let! r := psa_run (psa_copy_key encoded_key key_attributes) in
    record_new_key i partition_id (ov_base ov0) r).

Definition tfm_crypto_generate_key : tfm_crypto_us_t := fun in_vec in_len out_len =>
  CRYPTO_IN_OUT_LEN_VALIDATE in_len 2 2 out_len 1 1 (
  let! ov0 := out_at 0 in
  if negb (iov_sized in_vec) || negb (iv_len (in_at 1 in_vec) =? sizeof_client_key_attributes) ||
     negb (ov_len ov0 =? 4)
  then fail PSA_ERROR_PROGRAMMER_ERROR
  else
    let! i := tfm_crypto_check_key_storage in
    let! partition_id := tfm_crypto_get_caller_id in
    let! client_key_attr := read_in (in_at 1 in_vec) in
    let key_attributes := tfm_crypto_key_attributes_from_client (bytes_client_attr client_key_attr) partition_id in
    let! r := psa_run (psa_generate_key key_attributes) in
    record_new_key i partition_id (ov_base ov0) r).

(** ** crypto_asymmetric.c *)
Definition tfm_crypto_sign_hash : tfm_crypto_us_t := fun in_vec in_len out_len =>
  CRYPTO_IN_OUT_LEN_VALIDATE in_len 1 2 out_len 0 1 (
  if negb (iov_sized in_vec) then fail PSA_ERROR_PROGRAMMER_ERROR
  else
    let! iov := read_iov in
    let key := key_id iov in
    let! ov0 := out_at 0 in
    do! tfm_crypto_check_handle_owner key in
    let! vendor := tfm_crypto_vendor_key_is_valid_key key in
    let! hash := read_in (in_at 1 in_vec) in
    if vendor
    then
      let! r := tfm_crypto_vendor_key_sign_hash key (iov_alg iov) hash (ov_len ov0) in
      do! put_output 0 (ov_base ov0) r in
      return_status (r_status r)
    else
      let! encoded_key := tfm_crypto_encode_id_and_owner key in
      let! r := psa_run (psa_sign_hash encoded_key (iov_alg iov) hash (ov_len ov0)) in
      do! put_output 0 (ov_base ov0) r in
      return_status (r_status r)).

Definition tfm_crypto_verify_hash : tfm_crypto_us_t := fun in_vec in_len out_len =>
  CRYPTO_IN_OUT_LEN_VALIDATE in_len 1 3 out_len 0 0 (
  if negb (iov_sized in_vec) then fail PSA_ERROR_PROGRAMMER_ERROR
  else
    let! iov := read_iov in
    let key := key_id iov in
    do! tfm_crypto_check_handle_owner key in
    let! vendor := tfm_crypto_vendor_key_is_valid_key key in
    let! hash := read_in (in_at 1 in_vec) in
    let! signature := read_in (in_at 2 in_vec) in
    if vendor
    then
      let! r := tfm_crypto_vendor_key_verify_hash key (iov_alg iov) hash signature in
      return_status (r_status r)
    else
      let! encoded_key := tfm_crypto_encode_id_and_owner key in
      let! r := psa_run (psa_verify_hash encoded_key (iov_alg iov) hash signature) in
      return_status (r_status r)).

Definition PSA_BITS_TO_BYTES (bits : Z) : Z := u32 (bits + 7) / 8.
Definition PSA_KEY_TYPE_IS_RSA (t : Z) : bool := Z.land t (Z.lnot 0x3000) =? 0x4001.
Definition PSA_ASYMMETRIC_ENCRYPT_OUTPUT_SIZE (key_type key_bits alg : Z) : Z :=
  if PSA_KEY_TYPE_IS_RSA key_type then PSA_BITS_TO_BYTES key_bits else 0.

Definition tfm_crypto_asymmetric_encrypt : tfm_crypto_us_t := fun in_vec in_len out_len =>
  CRYPTO_IN_OUT_LEN_VALIDATE in_len 1 3 out_len 0 1 (
  if negb (iov_sized in_vec) then fail PSA_ERROR_PROGRAMMER_ERROR
  else
    let! iov := read_iov in
    let key := key_id iov in
    let! ov0 := out_at 0 in
    do! tfm_crypto_check_handle_owner key in
    let! encoded_key := tfm_crypto_encode_id_and_owner key in
    let! a := psa_run (psa_get_key_attributes encoded_key) in
    do! return_status (r_status a) in
    if ov_len ov0 <? PSA_ASYMMETRIC_ENCRYPT_OUTPUT_SIZE (ka_type (r_attr a)) (ka_bits (r_attr a)) (iov_alg iov)
    then fail PSA_ERROR_BUFFER_TOO_SMALL
    else
      let! input := read_in (in_at 1 in_vec) in
      let! salt := read_in (in_at 2 in_vec) in
      let! r := psa_run (psa_asymmetric_encrypt encoded_key (iov_alg iov) input salt (ov_len ov0)) in
      do! put_output 0 (ov_base ov0) r in
      return_status (r_status r)).

Definition tfm_crypto_asymmetric_decrypt : tfm_crypto_us_t := fun in_vec in_len out_len =>
  CRYPTO_IN_OUT_LEN_VALIDATE in_len 1 3 out_len 0 1 (
  if negb (iov_sized in_vec) then fail PSA_ERROR_PROGRAMMER_ERROR
  else
    let! iov := read_iov in
    let key := key_id iov in
    let! ov0 := out_at 0 in
    do! tfm_crypto_check_handle_owner key in
    let! encoded_key := tfm_crypto_encode_id_and_owner key in
    let! input := read_in (in_at 1 in_vec) in
    let! salt := read_in (in_at 2 in_vec) in
    let! r := psa_run (psa_asymmetric_decrypt encoded_key (iov_alg iov) input salt (ov_len ov0)) in
    do! put_output 0 (ov_base ov0) r in
    return_status (r_status r)).
End Keys.
