(* ===== verification/CryptoOps.v ===== *)
(** * Crypto: operations and the service

    The secure functions of crypto_hash.c, crypto_mac.c, crypto_cipher.c,
    crypto_aead.c and crypto_key_derivation.c, the table of all secure
    functions, and the handling of a message (crypto_init.c). *)

From Stdlib Require Import ZArith List Lia Bool.
From stdpp Require Import base tactics list.
From S2P Require Import Prelude Crypto CryptoKeys.
Import ListNotations.
Local Open Scope Z_scope.

Section Ops.
Context {C : PsaCrypto}.

Local Notation HASH := TFM_CRYPTO_HASH_OPERATION.
Local Notation MAC := TFM_CRYPTO_MAC_OPERATION.
Local Notation CIPHER := TFM_CRYPTO_CIPHER_OPERATION.
Local Notation KD := TFM_CRYPTO_KEY_DERIVATION_OPERATION.

(** Releases the operation when the library is done with it. *)
Definition release_if (b : bool) (handle_out : ptr) : CM unit :=
  if b then ignore (tfm_crypto_operation_release handle_out) else ret tt.

Definition not_supported : tfm_crypto_us_t := fun _ _ _ => fail PSA_ERROR_NOT_SUPPORTED.

(** ** crypto_hash.c *)
Definition tfm_crypto_hash_setup : tfm_crypto_us_t := fun in_vec in_len out_len =>
  CRYPTO_IN_OUT_LEN_VALIDATE in_len 1 1 out_len 1 1 (
  let! ov0 := out_at 0 in
  if negb (ov_len ov0 =? 4) || negb (iov_sized in_vec) then fail PSA_ERROR_PROGRAMMER_ERROR
  else
    let! iov := read_iov in
    let handle_out := ov_base ov0 in
    do! write32 handle_out (op_handle iov) in
    let! (handle, operation) := tfm_crypto_operation_alloc HASH (op_handle iov) in
    do! write32 handle_out handle in
    let! r := psa_on HASH operation (psa_hash_setup (iov_alg iov)) in
    do! release_if (negb (r_status r =? PSA_SUCCESS)) handle_out in
    return_status (r_status r)).

Definition tfm_crypto_hash_update : tfm_crypto_us_t := fun in_vec in_len out_len =>
  CRYPTO_IN_OUT_LEN_VALIDATE in_len 1 2 out_len 1 1 (
  let! ov0 := out_at 0 in
  if negb (iov_sized in_vec) || negb (ov_len ov0 =? 4) then fail PSA_ERROR_PROGRAMMER_ERROR
  else
    let! iov := read_iov in
    do! write32 (ov_base ov0) (op_handle iov) in
    let! operation := tfm_crypto_operation_lookup HASH (op_handle iov) in
    let! input := read_in (in_at 1 in_vec) in
    let! r := psa_on HASH operation (psa_hash_update input) in
    return_status (r_status r)).

Definition tfm_crypto_hash_finish : tfm_crypto_us_t := fun in_vec in_len out_len =>
  CRYPTO_IN_OUT_LEN_VALIDATE in_len 1 1 out_len 1 2 (
  let! ov0 := out_at 0 in
  if negb (iov_sized in_vec) || negb (ov_len ov0 =? 4) then fail PSA_ERROR_PROGRAMMER_ERROR
  else
    let! iov := read_iov in
    let! ov1 := out_at 1 in
    do! write32 (ov_base ov0) (op_handle iov) in
    do! set_out_len 1 0 in
    let! operation := tfm_crypto_operation_lookup HASH (op_handle iov) in
    let! r := psa_on HASH operation (psa_hash_finish (ov_len ov1)) in
    do! put_output 1 (ov_base ov1) r in
    do! release_if (r_status r =? PSA_SUCCESS) (ov_base ov0) in
    return_status (r_status r)).

Definition tfm_crypto_hash_verify : tfm_crypto_us_t := fun in_vec in_len out_len =>
  CRYPTO_IN_OUT_LEN_VALIDATE in_len 1 2 out_len 1 1 (
  let! ov0 := out_at 0 in
  if negb (iov_sized in_vec) || negb (ov_len ov0 =? 4) then fail PSA_ERROR_PROGRAMMER_ERROR
  else
    let! iov := read_iov in
    do! write32 (ov_base ov0) (op_handle iov) in
    let! operation := tfm_crypto_operation_lookup HASH (op_handle iov) in
    let! hash := read_in (in_at 1 in_vec) in
    let! r := psa_on HASH operation (psa_hash_verify hash) in
    do! release_if (r_status r =? PSA_SUCCESS) (ov_base ov0) in
    return_status (r_status r)).

(** The end of the abort functions: [status] comes from the library. *)
Definition abort_with (status : psa_status_t) (handle_out : ptr) : CM unit :=
  if negb (status =? PSA_SUCCESS)
  then do! ignore (tfm_crypto_operation_release handle_out) in fail status
  else tfm_crypto_operation_release handle_out.

Definition tfm_crypto_hash_abort : tfm_crypto_us_t := fun in_vec in_len out_len =>
  CRYPTO_IN_OUT_LEN_VALIDATE in_len 1 1 out_len 1 1 (
  let! ov0 := out_at 0 in
  if negb (iov_sized in_vec) || negb (ov_len ov0 =? 4) then fail PSA_ERROR_PROGRAMMER_ERROR
  else
    let! iov := read_iov in
    do! write32 (ov_base ov0) (op_handle iov) in
    let! found := attempt (tfm_crypto_operation_lookup HASH (op_handle iov)) in
    match found with
    | Err _ => ret tt
    | Ok operation =>
        let! r := psa_on HASH operation psa_hash_abort in
        abort_with (r_status r) (ov_base ov0)
    end).

Definition tfm_crypto_hash_clone : tfm_crypto_us_t := fun in_vec in_len out_len =>
  CRYPTO_IN_OUT_LEN_VALIDATE in_len 1 1 out_len 1 1 (
  let! ov0 := out_at 0 in
  if negb (iov_sized in_vec) || negb (ov_len ov0 =? 4) then fail PSA_ERROR_PROGRAMMER_ERROR
  else
    let! iov := read_iov in
    let target_handle := ov_base ov0 in
    let! source_operation := tfm_crypto_operation_lookup HASH (op_handle iov) in
    let! old := read32 target_handle in
    let! (handle, target_operation) := tfm_crypto_operation_alloc HASH old in
    do! write32 target_handle handle in
    let! source := reads (ctx_of HASH source_operation) in
    let! r := psa_on HASH target_operation (psa_hash_clone source) in
    return_status (r_status r)).

Definition tfm_crypto_hash_compute : tfm_crypto_us_t := fun in_vec in_len out_len =>
  CRYPTO_IN_OUT_LEN_VALIDATE in_len 1 2 out_len 0 1 (
  if negb (iov_sized in_vec) then fail PSA_ERROR_PROGRAMMER_ERROR
  else
    let! iov := read_iov in
    let! ov0 := out_at 0 in
    do! set_out_len 0 0 in
    let! input := read_in (in_at 1 in_vec) in
    let! r := psa_run (psa_hash_compute (iov_alg iov) input (ov_len ov0)) in
    do! put_output 0 (ov_base ov0) r in
    return_status (r_status r)).

Definition tfm_crypto_hash_compare : tfm_crypto_us_t := fun in_vec in_len out_len =>
  CRYPTO_IN_OUT_LEN_VALIDATE in_len 1 3 out_len 0 0 (
  if negb (iov_sized in_vec) then fail PSA_ERROR_PROGRAMMER_ERROR
  else
    let! iov := read_iov in
    let! input := read_in (in_at 1 in_vec) in
    let! hash := read_in (in_at 2 in_vec) in
    let! r := psa_run (psa_hash_compare (iov_alg iov) input hash) in
    return_status (r_status r)).

(** ** crypto_mac.c *)
(** tfm_crypto_mac_sign_setup and tfm_crypto_mac_verify_setup. *)
Definition mac_setup (f : svc_key -> Z -> psa_fn) : tfm_crypto_us_t := fun in_vec in_len out_len =>
  CRYPTO_IN_OUT_LEN_VALIDATE in_len 1 1 out_len 1 1 (
  let! ov0 := out_at 0 in
  if negb (ov_len ov0 =? 4) || negb (iov_sized in_vec) then fail PSA_ERROR_PROGRAMMER_ERROR
  else
    let! iov := read_iov in
    let handle_out := ov_base ov0 in
    do! tfm_crypto_check_handle_owner (key_id iov) in
    do! write32 handle_out (op_handle iov) in
    let! (handle, operation) := tfm_crypto_operation_alloc MAC (op_handle iov) in
    do! write32 handle_out handle in
    let! encoded_key := tfm_crypto_encode_id_and_owner (key_id iov) in
    let! r := psa_on MAC operation (f encoded_key (iov_alg iov)) in
    do! release_if (negb (r_status r =? PSA_SUCCESS)) handle_out in
    return_status (r_status r)).
Definition tfm_crypto_mac_sign_setup : tfm_crypto_us_t := mac_setup psa_mac_sign_setup.
Definition tfm_crypto_mac_verify_setup : tfm_crypto_us_t := mac_setup psa_mac_verify_setup.

Definition tfm_crypto_mac_update : tfm_crypto_us_t := fun in_vec in_len out_len =>
  CRYPTO_IN_OUT_LEN_VALIDATE in_len 1 2 out_len 1 1 (
  let! ov0 := out_at 0 in
  if negb (iov_sized in_vec) || negb (ov_len ov0 =? 4) then fail PSA_ERROR_PROGRAMMER_ERROR
  else
    let! iov := read_iov in
    do! write32 (ov_base ov0) (op_handle iov) in
    let! operation := tfm_crypto_operation_lookup MAC (op_handle iov) in
    let! input := read_in (in_at 1 in_vec) in
    let! r := psa_on MAC operation (psa_mac_update input) in
    return_status (r_status r)).

Definition tfm_crypto_mac_sign_finish : tfm_crypto_us_t := fun in_vec in_len out_len =>
  CRYPTO_IN_OUT_LEN_VALIDATE in_len 1 1 out_len 1 2 (
  let! ov0 := out_at 0 in
  if negb (iov_sized in_vec) || negb (ov_len ov0 =? 4) then fail PSA_ERROR_PROGRAMMER_ERROR
  else
    let! iov := read_iov in
    let! ov1 := out_at 1 in
    do! write32 (ov_base ov0) (op_handle iov) in
    do! set_out_len 1 0 in
    let! operation := tfm_crypto_operation_lookup MAC (op_handle iov) in
    let! r := psa_on MAC operation (psa_mac_sign_finish (ov_len ov1)) in
    do! put_output 1 (ov_base ov1) r in
    do! release_if (r_status r =? PSA_SUCCESS) (ov_base ov0) in
    return_status (r_status r)).

Definition tfm_crypto_mac_verify_finish : tfm_crypto_us_t := fun in_vec in_len out_len =>
  CRYPTO_IN_OUT_LEN_VALIDATE in_len 1 2 out_len 1 1 (
  let! ov0 := out_at 0 in
  if negb (iov_sized in_vec) || negb (ov_len ov0 =? 4) then fail PSA_ERROR_PROGRAMMER_ERROR
  else
    let! iov := read_iov in
    do! write32 (ov_base ov0) (op_handle iov) in
    let! operation := tfm_crypto_operation_lookup MAC (op_handle iov) in
    let! mac := read_in (in_at 1 in_vec) in
    let! r := psa_on MAC operation (psa_mac_verify_finish mac) in
    do! release_if (r_status r =? PSA_SUCCESS) (ov_base ov0) in
    return_status (r_status r)).

Definition tfm_crypto_mac_abort : tfm_crypto_us_t := fun in_vec in_len out_len =>
  CRYPTO_IN_OUT_LEN_VALIDATE in_len 1 1 out_len 1 1 (
  let! ov0 := out_at 0 in
  if negb (iov_sized in_vec) || negb (ov_len ov0 =? 4) then fail PSA_ERROR_PROGRAMMER_ERROR
  else
    let! iov := read_iov in
    do! write32 (ov_base ov0) (op_handle iov) in
    let! found := attempt (tfm_crypto_operation_lookup MAC (op_handle iov)) in
    match found with
    | Err _ => ret tt
    | Ok operation =>
        let! r := psa_on MAC operation psa_mac_abort in
        abort_with (r_status r) (ov_base ov0)
    end).

Definition tfm_crypto_mac_compute : tfm_crypto_us_t := not_supported.
Definition tfm_crypto_mac_verify : tfm_crypto_us_t := not_supported.

(** ** crypto_cipher.c *)
Definition tfm_crypto_cipher_generate_iv : tfm_crypto_us_t := fun in_vec in_len out_len =>
  CRYPTO_IN_OUT_LEN_VALIDATE in_len 1 1 out_len 1 2 (
  let! ov0 := out_at 0 in
  if negb (iov_sized in_vec) || negb (ov_len ov0 =? 4) then fail PSA_ERROR_PROGRAMMER_ERROR
  else
    let! iov := read_iov in
    let! ov1 := out_at 1 in
    do! write32 (ov_base ov0) (op_handle iov) in
    let! operation := tfm_crypto_operation_lookup CIPHER (op_handle iov) in
    do! write32 (ov_base ov0) (op_handle iov) in
    let! r := psa_on CIPHER operation (psa_cipher_generate_iv (ov_len ov1)) in
    do! put_output 1 (ov_base ov1) r in
    return_status (r_status r)).

Definition tfm_crypto_cipher_set_iv : tfm_crypto_us_t := fun in_vec in_len out_len =>
  CRYPTO_IN_OUT_LEN_VALIDATE in_len 1 2 out_len 1 1 (
  let! ov0 := out_at 0 in
  if negb (iov_sized in_vec) || negb (ov_len ov0 =? 4) then fail PSA_ERROR_PROGRAMMER_ERROR
  else
    let! iov := read_iov in
    do! write32 (ov_base ov0) (op_handle iov) in
    let! operation := tfm_crypto_operation_lookup CIPHER (op_handle iov) in
    let! iv := read_in (in_at 1 in_vec) in
    let! r := psa_on CIPHER operation (psa_cipher_set_iv iv) in
    return_status (r_status r)).

(** tfm_crypto_cipher_encrypt_setup and tfm_crypto_cipher_decrypt_setup. *)
Definition cipher_setup (f : svc_key -> Z -> psa_fn) : tfm_crypto_us_t := fun in_vec in_len out_len =>
  CRYPTO_IN_OUT_LEN_VALIDATE in_len 1 1 out_len 1 1 (
  let! ov0 := out_at 0 in
  if negb (ov_len ov0 =? 4) || negb (iov_sized in_vec) then fail PSA_ERROR_PROGRAMMER_ERROR
  else
    let! iov := read_iov in
    let handle_out := ov_base ov0 in
    do! tfm_crypto_check_handle_owner (key_id iov) in
    let! (handle, operation) := tfm_crypto_operation_alloc CIPHER (op_handle iov) in
    do! write32 handle_out handle in
    let! encoded_key := tfm_crypto_encode_id_and_owner (key_id iov) in
    let! r := psa_on CIPHER operation (f encoded_key (iov_alg iov)) in
    do! release_if (negb (r_status r =? PSA_SUCCESS)) handle_out in
    return_status (r_status r)).
Definition tfm_crypto_cipher_encrypt_setup : tfm_crypto_us_t := cipher_setup psa_cipher_encrypt_setup.
Definition tfm_crypto_cipher_decrypt_setup : tfm_crypto_us_t := cipher_setup psa_cipher_decrypt_setup.

Definition tfm_crypto_cipher_update : tfm_crypto_us_t := fun in_vec in_len out_len =>
  CRYPTO_IN_OUT_LEN_VALIDATE in_len 1 2 out_len 1 2 (
  let! ov0 := out_at 0 in
  if negb (iov_sized in_vec) || negb (ov_len ov0 =? 4) then fail PSA_ERROR_PROGRAMMER_ERROR
  else
    let! iov := read_iov in
    let! ov1 := out_at 1 in
    do! write32 (ov_base ov0) (op_handle iov) in
    do! set_out_len 1 0 in
    let! operation := tfm_crypto_operation_lookup CIPHER (op_handle iov) in
    let! input := read_in (in_at 1 in_vec) in
    let! r := psa_on CIPHER operation (psa_cipher_update input (ov_len ov1)) in
    do! put_output 1 (ov_base ov1) r in
    return_status (r_status r)).

Definition tfm_crypto_cipher_finish : tfm_crypto_us_t := fun in_vec in_len out_len =>
  CRYPTO_IN_OUT_LEN_VALIDATE in_len 1 1 out_len 1 2 (
  let! ov0 := out_at 0 in
  if negb (iov_sized in_vec) || negb (ov_len ov0 =? 4) then fail PSA_ERROR_PROGRAMMER_ERROR
  else
    let! iov := read_iov in
    let! ov1 := out_at 1 in
    do! write32 (ov_base ov0) (op_handle iov) in
    do! set_out_len 1 0 in
    let! operation := tfm_crypto_operation_lookup CIPHER (op_handle iov) in
    let! r := psa_on CIPHER operation (psa_cipher_finish (ov_len ov1)) in
    do! put_output 1 (ov_base ov1) r in
    do! release_if (r_status r =? PSA_SUCCESS) (ov_base ov0) in
    return_status (r_status r)).

Definition tfm_crypto_cipher_abort : tfm_crypto_us_t := fun in_vec in_len out_len =>
  CRYPTO_IN_OUT_LEN_VALIDATE in_len 1 1 out_len 1 1 (
  let! ov0 := out_at 0 in
  if negb (iov_sized in_vec) || negb (ov_len ov0 =? 4) then fail PSA_ERROR_PROGRAMMER_ERROR
  else
    let! iov := read_iov in
    do! write32 (ov_base ov0) (op_handle iov) in
    let! found := attempt (tfm_crypto_operation_lookup CIPHER (op_handle iov)) in
    match found with
    | Err _ => ret tt
    | Ok operation =>
        let! r := psa_on CIPHER operation psa_cipher_abort in
        abort_with (r_status r) (ov_base ov0)
    end).

Definition tfm_crypto_cipher_encrypt : tfm_crypto_us_t := not_supported.
Definition tfm_crypto_cipher_decrypt : tfm_crypto_us_t := not_supported.

(** ** crypto_aead.c *)
(** The nonce is read from the packed arguments; the bytes past the end of its
    array are not modelled. *)
Definition aead_nonce (iov : tfm_crypto_pack_iovec) : list Z :=
  firstn (Z.to_nat (nonce_length iov)) (nonce iov ++ le_bytes 4 (nonce_length iov)).

Definition tfm_crypto_aead_encrypt : tfm_crypto_us_t := fun in_vec in_len out_len =>
  CRYPTO_IN_OUT_LEN_VALIDATE in_len 1 3 out_len 0 1 (
  if negb (iov_sized in_vec) then fail PSA_ERROR_PROGRAMMER_ERROR
  else
    let! iov := read_iov in
    let! ov0 := out_at 0 in
    do! set_out_len 0 0 in
    do! tfm_crypto_check_handle_owner (key_id iov) in
    let! encoded_key := tfm_crypto_encode_id_and_owner (key_id iov) in
    let! plaintext := read_in (in_at 1 in_vec) in
    let! additional_data := read_in (in_at 2 in_vec) in
    let! r := psa_run (psa_aead_encrypt encoded_key (iov_alg iov) (aead_nonce iov) (nonce_length iov)
                         additional_data plaintext (ov_len ov0)) in
    do! put_output 0 (ov_base ov0) r in
    return_status (r_status r)).

Definition tfm_crypto_aead_decrypt : tfm_crypto_us_t := fun in_vec in_len out_len =>
  CRYPTO_IN_OUT_LEN_VALIDATE in_len 1 3 out_len 0 1 (
  if negb (iov_sized in_vec) then fail PSA_ERROR_PROGRAMMER_ERROR
  else
    let! iov := read_iov in
    let! ov0 := out_at 0 in
    do! set_out_len 0 0 in
    do! tfm_crypto_check_handle_owner (key_id iov) in
    let! encoded_key := tfm_crypto_encode_id_and_owner (key_id iov) in
    let! ciphertext := read_in (in_at 1 in_vec) in
    let! additional_data := read_in (in_at 2 in_vec) in
    let! r := psa_run (psa_aead_decrypt encoded_key (iov_alg iov) (aead_nonce iov) (nonce_length iov)
                         additional_data ciphertext (ov_len ov0)) in
    do! put_output 0 (ov_base ov0) r in
    return_status (r_status r)).

Definition tfm_crypto_aead_encrypt_setup : tfm_crypto_us_t := not_supported.
Definition tfm_crypto_aead_decrypt_setup : tfm_crypto_us_t := not_supported.
Definition tfm_crypto_aead_abort : tfm_crypto_us_t := not_supported.
Definition tfm_crypto_aead_finish : tfm_crypto_us_t := not_supported.
Definition tfm_crypto_aead_generate_nonce : tfm_crypto_us_t := not_supported.
Definition tfm_crypto_aead_set_nonce : tfm_crypto_us_t := not_supported.
Definition tfm_crypto_aead_set_lengths : tfm_crypto_us_t := not_supported.
Definition tfm_crypto_aead_update : tfm_crypto_us_t := not_supported.
Definition tfm_crypto_aead_update_ad : tfm_crypto_us_t := not_supported.
Definition tfm_crypto_aead_verify : tfm_crypto_us_t := not_supported.

(** ** crypto_key_derivation.c: derivation from the hardware unique key *)
Definition kd_ctx (i : nat) : CM (list Z) := reads (ctx_of KD i).

Definition tfm_crypto_huk_derivation_setup (operation : nat) : CM unit :=
  let! c := kd_ctx operation in
  modify (put_ctx operation (kd_set_alg c TFM_CRYPTO_ALG_HUK_DERIVATION)).

Definition tfm_crypto_huk_derivation_input_bytes (operation : nat) (step : Z) (data : list Z) : CM unit :=
  if negb (step =? PSA_KEY_DERIVATION_INPUT_LABEL) then fail PSA_ERROR_INVALID_ARGUMENT
  else
    let! partition_id := tfm_crypto_get_caller_id in
    let! s := reads (fun s => s) in
    match kd_put_label (ctx_of KD operation s) (le_bytes 4 partition_id ++ data) (eng s) with
    | (allocated, c, e) =>
        do! modify (fun s => put_ctx operation c (set_eng e s)) in
        if negb allocated then fail PSA_ERROR_INSUFFICIENT_MEMORY else ret tt
    end.

Definition tfm_crypto_huk_derivation_output_key (attributes : psa_key_attributes) (operation : nat) : CM psa_result :=
  let bytes := PSA_BITS_TO_BYTES (ka_bits attributes) in
  if kd_output_block_size <? bytes then fail PSA_ERROR_INSUFFICIENT_MEMORY
  else
    let! s := reads (fun s => s) in
    let c := ctx_of KD operation s in
    match tfm_plat_get_huk_derived_key (kd_label c (eng s)) bytes (eng s) with
    | (None, e) => do! modify (set_eng e) in fail PSA_ERROR_HARDWARE_FAILURE
    | (Some key, e) =>
        do! modify (fun s => put_ctx operation (kd_put_block c key) (set_eng e s)) in
        psa_run (psa_import_key attributes key)
    end.

(** The label is cleared and freed, and the context zeroed. *)
Definition tfm_crypto_huk_derivation_abort (operation : nat) : CM unit :=
  let! s := reads (fun s => s) in
  let c := ctx_of KD operation s in
  modify (fun s => put_ctx operation (repeat 0 (length c)) (set_eng (kd_free_label c (eng s)) s)).

(** ** crypto_key_derivation.c: the secure functions *)
Definition tfm_crypto_key_derivation_setup : tfm_crypto_us_t := fun in_vec in_len out_len =>
  CRYPTO_IN_OUT_LEN_VALIDATE in_len 1 1 out_len 1 1 (
  let! ov0 := out_at 0 in
  if negb (ov_len ov0 =? 4) || negb (iov_sized in_vec) then fail PSA_ERROR_PROGRAMMER_ERROR
  else
    let! iov := read_iov in
    let handle_out := ov_base ov0 in
    let! (handle, operation) := tfm_crypto_operation_alloc KD (op_handle iov) in
    do! write32 handle_out handle in
    if iov_alg iov =? TFM_CRYPTO_ALG_HUK_DERIVATION
    then tfm_crypto_huk_derivation_setup operation
    else
      let! r := psa_on KD operation (psa_key_derivation_setup (iov_alg iov)) in
      do! release_if (negb (r_status r =? PSA_SUCCESS)) handle_out in
      return_status (r_status r)).

Definition tfm_crypto_key_derivation_get_capacity : tfm_crypto_us_t := fun in_vec in_len out_len =>
  CRYPTO_IN_OUT_LEN_VALIDATE in_len 1 1 out_len 1 1 (
  let! ov0 := out_at 0 in
  if negb (iov_sized in_vec) || negb (ov_len ov0 =? 4) then fail PSA_ERROR_PROGRAMMER_ERROR
  else
    let! iov := read_iov in
    let! found := attempt (tfm_crypto_operation_lookup KD (op_handle iov)) in
    match found with
    | Err status => do! write32 (ov_base ov0) 0 in fail status
    | Ok operation =>
        let! r := psa_on KD operation psa_key_derivation_get_capacity in
        do! write32 (ov_base ov0) (r_val r) in
        return_status (r_status r)
    end).

Definition tfm_crypto_key_derivation_set_capacity : tfm_crypto_us_t := fun in_vec in_len out_len =>
  CRYPTO_IN_OUT_LEN_VALIDATE in_len 1 1 out_len 0 0 (
  if negb (iov_sized in_vec) then fail PSA_ERROR_PROGRAMMER_ERROR
  else
    let! iov := read_iov in
    let! operation := tfm_crypto_operation_lookup KD (op_handle iov) in
    let! r := psa_on KD operation (psa_key_derivation_set_capacity (capacity iov)) in
    return_status (r_status r)).

Definition tfm_crypto_key_derivation_input_bytes : tfm_crypto_us_t := fun in_vec in_len out_len =>
  CRYPTO_IN_OUT_LEN_VALIDATE in_len 1 2 out_len 0 0 (
  if negb (iov_sized in_vec) then fail PSA_ERROR_PROGRAMMER_ERROR
  else
    let! iov := read_iov in
    let! operation := tfm_crypto_operation_lookup KD (op_handle iov) in
    let! data := read_in (in_at 1 in_vec) in
    let! c := kd_ctx operation in
    if kd_alg c =? TFM_CRYPTO_ALG_HUK_DERIVATION
    then tfm_crypto_huk_derivation_input_bytes operation (step iov) data
    else
      let! r := psa_on KD operation (psa_key_derivation_input_bytes (step iov) data) in
      return_status (r_status r)).

Definition tfm_crypto_key_derivation_output_bytes : tfm_crypto_us_t := fun in_vec in_len out_len =>
  CRYPTO_IN_OUT_LEN_VALIDATE in_len 1 1 out_len 0 1 (
  if negb (iov_sized in_vec) then fail PSA_ERROR_PROGRAMMER_ERROR
  else
    let! iov := read_iov in
    let! ov0 := out_at 0 in
    let! operation := tfm_crypto_operation_lookup KD (op_handle iov) in
    let! r := psa_on KD operation (psa_key_derivation_output_bytes (ov_len ov0)) in
    do! mem_write (ov_base ov0) (r_out r) in
    return_status (r_status r)).

Definition tfm_crypto_key_derivation_input_key : tfm_crypto_us_t := fun in_vec in_len out_len =>
  CRYPTO_IN_OUT_LEN_VALIDATE in_len 1 1 out_len 0 0 (
  if negb (iov_sized in_vec) then fail PSA_ERROR_PROGRAMMER_ERROR
  else
    let! iov := read_iov in
    do! tfm_crypto_check_handle_owner (key_id iov) in
    let! operation := tfm_crypto_operation_lookup KD (op_handle iov) in
    let! encoded_key := tfm_crypto_encode_id_and_owner (key_id iov) in
    let! r := psa_on KD operation (psa_key_derivation_input_key (step iov) encoded_key) in
    return_status (r_status r)).

Definition tfm_crypto_key_derivation_output_key : tfm_crypto_us_t := fun in_vec in_len out_len =>
  CRYPTO_IN_OUT_LEN_VALIDATE in_len 2 2 out_len 1 1 (
  let! ov0 := out_at 0 in
  if negb (iov_sized in_vec) || negb (iv_len (in_at 1 in_vec) =? sizeof_client_key_attributes) ||
     negb (ov_len ov0 =? 4)
  then fail PSA_ERROR_PROGRAMMER_ERROR
  else
    let! iov := read_iov in
    let! operation := tfm_crypto_operation_lookup KD (op_handle iov) in
    let! index := tfm_crypto_check_key_storage in
    let! partition_id := tfm_crypto_get_caller_id in
    let! client_key_attr := read_in (in_at 1 in_vec) in
    let key_attributes := tfm_crypto_key_attributes_from_client (bytes_client_attr client_key_attr) partition_id in
    let! c := kd_ctx operation in
    let! r := if kd_alg c =? TFM_CRYPTO_ALG_HUK_DERIVATION
              then tfm_crypto_huk_derivation_output_key key_attributes operation
              else psa_on KD operation (psa_key_derivation_output_key key_attributes) in
    do! return_status (r_status r) in
    do! write32 (ov_base ov0) (sk_key_id (r_key r)) in
    tfm_crypto_set_key_storage index (sk_key_id (r_key r))).

Definition tfm_crypto_key_derivation_abort : tfm_crypto_us_t := fun in_vec in_len out_len =>
  CRYPTO_IN_OUT_LEN_VALIDATE in_len 1 1 out_len 1 1 (
  let! ov0 := out_at 0 in
  if negb (iov_sized in_vec) || negb (ov_len ov0 =? 4) then fail PSA_ERROR_PROGRAMMER_ERROR
  else
    let! iov := read_iov in
    do! write32 (ov_base ov0) (op_handle iov) in
    let! found := attempt (tfm_crypto_operation_lookup KD (op_handle iov)) in
    match found with
    | Err _ => ret tt
    | Ok operation =>
        do! write32 (ov_base ov0) (op_handle iov) in
        let! c := kd_ctx operation in
        if kd_alg c =? TFM_CRYPTO_ALG_HUK_DERIVATION
        then
          do! tfm_crypto_huk_derivation_abort operation in
          abort_with PSA_SUCCESS (ov_base ov0)
        else
          let! r := psa_on KD operation psa_key_derivation_abort in
          abort_with (r_status r) (ov_base ov0)
    end).

Definition tfm_crypto_key_derivation_key_agreement : tfm_crypto_us_t := fun in_vec in_len out_len =>
  CRYPTO_IN_OUT_LEN_VALIDATE in_len 1 2 out_len 0 0 (
  if negb (iov_sized in_vec) then fail PSA_ERROR_PROGRAMMER_ERROR
  else
    let! iov := read_iov in
    do! tfm_crypto_check_handle_owner (key_id iov) in
    let! operation := tfm_crypto_operation_lookup KD (op_handle iov) in
    let! encoded_key := tfm_crypto_encode_id_and_owner (key_id iov) in
    let! peer_key := read_in (in_at 1 in_vec) in
    let! r := psa_on KD operation (psa_key_derivation_key_agreement (step iov) encoded_key peer_key) in
    return_status (r_status r)).

Definition tfm_crypto_generate_random : tfm_crypto_us_t := fun in_vec in_len out_len =>
  CRYPTO_IN_OUT_LEN_VALIDATE in_len 1 1 out_len 0 1 (
  if negb (iov_sized in_vec) then fail PSA_ERROR_PROGRAMMER_ERROR
  else
    let! ov0 := out_at 0 in
    let! r := psa_run (psa_generate_random (ov_len ov0)) in
    do! mem_write (ov_base ov0) (r_out r) in
    return_status (r_status r)).

Definition tfm_crypto_raw_key_agreement : tfm_crypto_us_t := fun in_vec in_len out_len =>
  CRYPTO_IN_OUT_LEN_VALIDATE in_len 1 2 out_len 0 1 (
  if negb (iov_sized in_vec) then fail PSA_ERROR_PROGRAMMER_ERROR
  else
    let! iov := read_iov in
    let! ov0 := out_at 0 in
    do! tfm_crypto_check_handle_owner (key_id iov) in
    let! encoded_key := tfm_crypto_encode_id_and_owner (key_id iov) in
    let! peer_key := read_in (in_at 1 in_vec) in
    let! r := psa_run (psa_raw_key_agreement (iov_alg iov) encoded_key peer_key (ov_len ov0)) in
    do! put_output 0 (ov_base ov0) r in
    return_status (r_status r)).

(** ** crypto_init.c *)
(** The functions by their SID, in the order of
    LIST_TFM_CRYPTO_UNIFORM_SIGNATURE_API. *)
Definition sfid_func_table : list tfm_crypto_us_t :=
  [tfm_crypto_get_key_attributes; tfm_crypto_reset_key_attributes; tfm_crypto_open_key; tfm_crypto_close_key;
   tfm_crypto_import_key; tfm_crypto_destroy_key; tfm_crypto_export_key; tfm_crypto_export_public_key;
   tfm_crypto_purge_key; tfm_crypto_copy_key;
   tfm_crypto_hash_compute; tfm_crypto_hash_compare; tfm_crypto_hash_setup; tfm_crypto_hash_update;
   tfm_crypto_hash_finish; tfm_crypto_hash_verify; tfm_crypto_hash_abort; tfm_crypto_hash_clone;
   tfm_crypto_mac_compute; tfm_crypto_mac_verify; tfm_crypto_mac_sign_setup; tfm_crypto_mac_verify_setup;
   tfm_crypto_mac_update; tfm_crypto_mac_sign_finish; tfm_crypto_mac_verify_finish; tfm_crypto_mac_abort;
   tfm_crypto_cipher_encrypt; tfm_crypto_cipher_decrypt; tfm_crypto_cipher_encrypt_setup;
   tfm_crypto_cipher_decrypt_setup; tfm_crypto_cipher_generate_iv; tfm_crypto_cipher_set_iv;
   tfm_crypto_cipher_update; tfm_crypto_cipher_finish; tfm_crypto_cipher_abort;
   tfm_crypto_aead_encrypt; tfm_crypto_aead_decrypt; tfm_crypto_aead_encrypt_setup;
   tfm_crypto_aead_decrypt_setup; tfm_crypto_aead_generate_nonce; tfm_crypto_aead_set_nonce;
   tfm_crypto_aead_set_lengths; tfm_crypto_aead_update_ad; tfm_crypto_aead_update; tfm_crypto_aead_finish;
   tfm_crypto_aead_verify; tfm_crypto_aead_abort;
   tfm_crypto_sign_hash; tfm_crypto_verify_hash; tfm_crypto_asymmetric_encrypt; tfm_crypto_asymmetric_decrypt;
   tfm_crypto_key_derivation_setup; tfm_crypto_key_derivation_get_capacity;
   tfm_crypto_key_derivation_set_capacity; tfm_crypto_key_derivation_input_bytes;
   tfm_crypto_key_derivation_input_key; tfm_crypto_key_derivation_key_agreement;
   tfm_crypto_key_derivation_output_bytes; tfm_crypto_key_derivation_output_key;
   tfm_crypto_key_derivation_abort; tfm_crypto_raw_key_agreement; tfm_crypto_generate_random;
   tfm_crypto_generate_key; tfm_crypto_set_key_domain_parameters; tfm_crypto_get_key_domain_parameters].
Definition TFM_CRYPTO_SID_MAX : Z := Z.of_nat (length sfid_func_table).

(** A request as psa_get and psa_read deliver it: the four input vectors and
    the sizes of the four output vectors. *)
Record psa_msg := {
  client_id : Z;
  in_data : list (list Z);
  out_size : list Z
}.
Definition in_size (m : psa_msg) (i : nat) : Z := Z.of_nat (length (nth i (in_data m) [])).
Definition PSA_MAX_IOVEC : nat := 4.

(** [while (n > 0 && size[n - 1] == 0) n--;] *)
Fixpoint count_vecs (size : nat -> Z) (n : nat) : nat :=
  match n with
  | O => O
  | S n' => if size n' =? 0 then count_vecs size n' else n
  end.

(** The input vectors from [i] on: each is read into the scratch memory. *)
Fixpoint read_vecs (m : psa_msg) (n i : nat) : CM (list psa_invec) :=
  match n with
  | O => ret []
  | S n' =>
      let! p := tfm_crypto_alloc_scratch (in_size m i) in
      do! mem_write p (nth i (in_data m) []) in
      let! l := read_vecs m n' (S i) in
      ret ({| iv_base := p; iv_len := in_size m i |} :: l)
  end.
Fixpoint alloc_out (m : psa_msg) (n i : nat) : CM (list psa_outvec) :=
  match n with
  | O => ret []
  | S n' =>
      let size := nth i (out_size m) 0 in
      let! p := tfm_crypto_alloc_scratch size in
      let! l := alloc_out m n' (S i) in
      ret ({| ov_base := p; ov_len := size |} :: l)
  end.

(** [psa_write] for the first [n] output vectors. *)
Definition psa_write_outs (n : nat) : CM unit :=
  modify (fun s => set_written
    (imap (fun i v => (Z.of_nat i, mem_read (ov_base v) (ov_len v) s)) (firstn n (out_vec s))) s).

Definition tfm_crypto_call_sfn (m : psa_msg) (sfn : Z) : CM unit :=
  let in_len := count_vecs (in_size m) PSA_MAX_IOVEC in
  if (in_len <? 1)%nat then fail PSA_ERROR_GENERIC_ERROR
  else
    let! ins := attempt (read_vecs m (in_len - 1) 1) in
    match ins with
    | Err e => do! tfm_crypto_clear_scratch in fail e
    | Ok ins =>
        let in_vec := {| iv_base := IOV; iv_len := sizeof_pack_iovec |} :: ins in
        let out_len := count_vecs (fun i => nth i (out_size m) 0) PSA_MAX_IOVEC in
        let! outs := attempt (alloc_out m out_len 0) in
        match outs with
        | Err e => do! tfm_crypto_clear_scratch in fail e
        | Ok outs =>
            do! modify (set_out_vec (outs ++ repeat {| ov_base := NULL; ov_len := 0 |} (PSA_MAX_IOVEC - out_len))) in
            do! tfm_crypto_set_scratch_owner (client_id m) in
            let! status := attempt (nth (Z.to_nat sfn) sfid_func_table not_supported
                                      in_vec (Z.of_nat in_len) (Z.of_nat out_len)) in
            do! psa_write_outs out_len in
            do! tfm_crypto_clear_scratch in
            match status with Ok _ => ret tt | Err e => fail e end
        end
    end.

(** [iov] keeps its old value when less than its size is read: the bytes read
    replace its beginning. *)
Definition iov_bytes (v : tfm_crypto_pack_iovec) : list Z :=
  le_bytes 4 (sfn_id v) ++ le_bytes 2 (step v) ++ [0; 0] ++ le_bytes 4 (key_id v) ++ le_bytes 4 (iov_alg v) ++
  le_bytes 4 (op_handle v) ++ le_bytes 4 (capacity v) ++ nonce v ++ le_bytes 4 (nonce_length v).
Definition tfm_crypto_parse_msg (m : psa_msg) : CM Z :=
  let data := firstn 44 (nth 0 (in_data m) []) in
  let! old := reads iov in
  do! modify (set_iov (bytes_iov (splice (iov_bytes old) 0 data))) in
  if negb (Z.of_nat (length data) =? sizeof_pack_iovec) then fail PSA_ERROR_GENERIC_ERROR
  else
    let! v := read_iov in
    if sfn_id v >=? TFM_CRYPTO_SID_MAX then fail PSA_ERROR_GENERIC_ERROR else ret (sfn_id v).

(** PSA_IPC_CALL in tfm_crypto_ipc_handler: the status is the reply. *)
Definition serve_call (m : psa_msg) : CM unit :=
  let! sfn := tfm_crypto_parse_msg m in tfm_crypto_call_sfn m sfn.
Definition tfm_crypto_ipc_handler (m : psa_msg) (s : crypto_state) : psa_status_t * crypto_state :=
  match serve_call m (set_written [] s) with
  | (Ok _, s') => (PSA_SUCCESS, s')
  | (Err e, s') => (e, s')
  end.

(** The state before the first message: all tables are zero. *)
Definition no_iov : tfm_crypto_pack_iovec := bytes_iov (repeat 0 44).
Definition crypto_boot (e : engine) : crypto_state :=
  {| operation := repeat {| in_use := 0; owner := 0; type := TFM_CRYPTO_OPERATION_NONE;
                            operation_ctx := repeat 0 sizeof_ctx |} TFM_CRYPTO_CONC_OPER_NUM;
     handle_owner := repeat {| ho_owner := 0; ho_key := 0; ho_in_use := 0 |} TFM_CRYPTO_MAX_KEY_HANDLES;
     scratch := {| buf := repeat 0 (Z.to_nat TFM_CRYPTO_IOVEC_BUFFER_SIZE); alloc_index := 0; scratch_owner := 0 |};
     eng := e; iov := no_iov; out_vec := []; written := []; fault := false |}.
Definition tfm_crypto_module_init : CM unit := tfm_crypto_init_alloc.
End Ops.
