(* ===== verification/CryptoSpec.v ===== *)
(** * Crypto: the invariant and what a request may touch

    A small program logic for the secure functions: [spec O m O' Q] says that
    [m] keeps the invariant, leaves alone what belongs to other clients, names
    only keys of the caller to the library, and starts from and ends with the
    resources [O] and [O']. *)

From Stdlib Require Import ZArith List Lia Bool.
From stdpp Require Import base tactics list.
From S2P Require Import Prelude Crypto CryptoKeys CryptoOps.
From S2P Require Import Prelude ItsUtils Crypto CryptoKeys CryptoOps .
Import ListNotations.
Local Open Scope Z_scope.

(** What the library keeps: contexts have a fixed size, and an output fits
    the buffer it was given. *)
Class PsaCryptoLaws (C : PsaCrypto) : Prop := {
  psa_ctx_len f c e : length (snd (fst (psa f c e))) = length c;
  psa_out_fits f c e : 0 <= out_room f -> Z.of_nat (length (r_out (fst (fst (psa f c e))))) <= out_room f;
  kd_set_alg_len c a : length (kd_set_alg c a) = length c;
  kd_put_label_len c l e : length (snd (fst (kd_put_label c l e))) = length c;
  kd_put_block_len c b : length (kd_put_block c b) = length c
}.

(** ** Byte strings *)
Lemma length_splice l off new : 0 <= off -> off + Z.of_nat (length new) <= Z.of_nat (length l) ->
  length (splice l off new) = length l.
Proof. intros H1 H2. unfold splice. rewrite !length_app, length_firstn, length_skipn. lia. Qed.

Lemma drop_splice l off new k : 0 <= off -> off + Z.of_nat (length new) <= Z.of_nat k -> (k <= length l)%nat ->
  drop k (splice l off new) = drop k l.
Proof.
  intros H1 H2 Hk. unfold splice. rewrite app_assoc, drop_app_ge.
  - rewrite drop_drop. f_equal. rewrite length_app, length_firstn. lia.
  - rewrite length_app, length_firstn. lia.
Qed.

Lemma le_zeros (n m : nat) : (n <= m)%nat -> repeat 0 m = repeat 0 n ++ repeat 0 (m - n).
Proof. intros H. rewrite <- repeat_app. f_equal. lia. Qed.

Section Spec.
Context {C : PsaCrypto} {L : PsaCryptoLaws C}.

(** ** The invariant *)
Definition ctx_ok (o : tfm_crypto_operation_s) : Prop :=
  length (operation_ctx o) = sizeof_ctx /\
  ((in_use o = 0 /\ owner o = 0 /\ type o = TFM_CRYPTO_OPERATION_NONE /\ operation_ctx o = repeat 0 sizeof_ctx) \/
   (in_use o = 1 /\ type o <> TFM_CRYPTO_OPERATION_NONE /\
    drop (sizeof_operation (type o)) (operation_ctx o) = repeat 0 (sizeof_ctx - sizeof_operation (type o)))).

Definition handle_ok (h : tfm_crypto_handle_owner_s) : Prop :=
  ho_in_use h = 0 /\ ho_owner h = 0 /\ ho_key h = 0 \/ ho_in_use h = 1.

(** [n] bytes of the scratch memory in use, from [p] on. *)
Definition region (a : Z) (p : ptr) (n : Z) : Prop :=
  0 <= n /\ (n = 0 \/ exists off, p = SCRATCH off /\ 0 <= off /\ off + n <= a).

Record scratch_ok (x : tfm_crypto_scratch) : Prop := {
  so_len : Z.of_nat (length (buf x)) = TFM_CRYPTO_IOVEC_BUFFER_SIZE;
  so_index : 0 <= alloc_index x <= TFM_CRYPTO_IOVEC_BUFFER_SIZE;
  so_aligned : alloc_index x mod 4 = 0;
  so_rest : drop (Z.to_nat (alloc_index x)) (buf x) =
            repeat 0 (Z.to_nat (TFM_CRYPTO_IOVEC_BUFFER_SIZE - alloc_index x))
}.

Record crypto_ok (s : crypto_state) : Prop := {
  ck_ops : length (operation s) = TFM_CRYPTO_CONC_OPER_NUM;
  ck_op : Forall ctx_ok (operation s);
  ck_handles : length (handle_owner s) = TFM_CRYPTO_MAX_KEY_HANDLES;
  ck_handle : Forall handle_ok (handle_owner s);
  ck_scratch : scratch_ok (scratch s);
  ck_fault : fault s = false
}.

(** ** What belongs to others *)
Definition foreign_op (c : Z) (o : tfm_crypto_operation_s) : Prop := in_use o <> 0 /\ owner o <> c.
Definition foreign_handle (c : Z) (h : tfm_crypto_handle_owner_s) : Prop := ho_in_use h <> 0 /\ ho_owner h <> c.
Definition others_same {A} (foreign : A -> Prop) (l l' : list A) : Prop :=
  forall i x, foreign x -> l !! i = Some x <-> l' !! i = Some x.
Definition others (c : Z) (s s' : crypto_state) : Prop :=
  others_same (foreign_op c) (operation s) (operation s') /\
  others_same (foreign_handle c) (handle_owner s) (handle_owner s').

Lemma bind_reads_eq {A B} (f : crypto_state -> A) (k : A -> CM B) s : bind (reads f) k s = k (f s) s.
Proof. done. Qed.

Lemma others_refl c s : others c s s.
Proof. done. Qed.
Lemma others_trans c s1 s2 s3 : others c s1 s2 -> others c s2 s3 -> others c s1 s3.
Proof. intros [H1 H2] [H3 H4]. split; intros i x Hx; [rewrite (H1 i x Hx)|rewrite (H2 i x Hx)]; auto. Qed.

Lemma others_same_insert {A} (foreign : A -> Prop) (l : list A) i x :
  (forall y, l !! i = Some y -> ~ foreign y) -> ~ foreign x -> others_same foreign l (<[i := x]> l).
Proof.
  intros Hl Hx j y Hy. rewrite list_lookup_insert. case_decide as Hd; [|done]. destruct Hd as [<- _].
  split; intros H; [by destruct (Hl y H)|]. injection H as ->. by destruct Hx.
Qed.

(** ** The logic *)
Inductive resource :=
| Rop (i : nat) (t : operation_type)
| Rkey (i : nat)
| Rfree (i : nat)
| Rout (i : nat) (p : ptr) (n : Z).

Section Logic.
(** The caller, the scratch memory in use, the sizes of the output vectors,
    and a property of the library that every call with keys of the caller
    keeps. *)
Context (c a : Z) (caps : list Z) (P : engine -> Prop).

Record kept_by_caller : Prop := {
  kp_psa f ctx e : Forall (fun o => o = c) (fn_owners f) -> P e -> P (snd (psa f ctx e));
  kp_label ctx l e : P e -> P (snd (kd_put_label ctx l e));
  kp_free ctx e : P e -> P (kd_free_label ctx e);
  kp_huk l n e : P e -> P (snd (tfm_plat_get_huk_derived_key l n e));
  kp_map k v e : P e -> P (snd (hal_add_key_id_mapping k v e))
}.
Context (HP : kept_by_caller).

Record serving (s : crypto_state) : Prop := {
  sv_ok : crypto_ok s;
  sv_owner : scratch_owner (scratch s) = c;
  sv_index : alloc_index (scratch s) = a;
  sv_out : Forall2 (fun cap v => region a (ov_base v) (ov_len v) /\ ov_len v <= cap) caps (out_vec s);
  sv_eng : P (eng s)
}.

Definition holds (s : crypto_state) (x : resource) : Prop :=
  match x with
  | Rop i t => exists o, operation s !! i = Some o /\ in_use o = 1 /\ owner o = c /\ type o = t
  | Rkey i => exists h, handle_owner s !! i = Some h /\ ho_in_use h <> 0 /\ ho_owner h = c
  | Rfree i => exists h, handle_owner s !! i = Some h /\ ho_in_use h = 0
  | Rout i p n => forall v, out_vec s !! i = Some v -> ov_base v = p /\ forall cap, caps !! i = Some cap -> n <= cap
  end.

Definition spec {A} (O : list resource) (m : CM A) (O' : A -> list resource) (Q : A -> Prop) : Prop :=
  forall s, serving s -> Forall (holds s) O ->
  let s' := snd (m s) in
  serving s' /\ others c s s' /\ match fst (m s) with Ok x => Forall (holds s') (O' x) /\ Q x | Err _ => True end.

(** A secure function keeps everything; nothing is left to hold. *)
Definition keeps {A} (O : list resource) (m : CM A) : Prop := spec O m (fun _ => []) (fun _ => True).

Lemma spec_ret {A} O (x : A) (O' : A -> list resource) (Q : A -> Prop) :
  (forall s, Forall (holds s) O -> Forall (holds s) (O' x)) -> Q x -> spec O (ret x) O' Q.
Proof. intros HO HQ s Hs Ho. cbn. auto using others_refl. Qed.
Lemma crypto_keeps_ret {A} O (x : A) : keeps O (ret x).
Proof. apply spec_ret; [constructor|done]. Qed.
Lemma spec_fail {A} O e (O' : A -> list resource) Q : spec O (fail e) O' Q.
Proof. intros s Hs Ho. cbn. auto using others_refl. Qed.

Lemma spec_bind {A B} O (m : CM A) (k : A -> CM B) O1 Q1 O2 Q2 :
  spec O m O1 Q1 -> (forall x, Q1 x -> spec (O1 x) (k x) O2 Q2) -> spec O (bind m k) O2 Q2.
Proof.
  intros Hm Hk s Hs Ho. specialize (Hm s Hs Ho). unfold bind. destruct (m s) as [[x|e] s1]; cbn in *.
  - destruct Hm as (Hs1 & Hf & Ho1 & Hq). destruct (Hk x Hq s1 Hs1 Ho1) as (H1 & H2 & H3).
    split; [done|]. split; [by eapply others_trans|done].
  - by destruct Hm as (Hs1 & Hf & _).
Qed.

Lemma spec_attempt {A} O (m : CM A) O1 Q1 : spec O m O1 Q1 ->
  spec O (attempt m) (fun r => match r with Ok x => O1 x | Err _ => [] end)
    (fun r => match r with Ok x => Q1 x | Err _ => True end).
Proof.
  intros Hm s Hs Ho. specialize (Hm s Hs Ho). unfold attempt.
  destruct (m s) as [[x|e] s1]; cbn in *; [done|]. destruct Hm as (H1 & H2 & _). auto.
Qed.

Lemma keeps_ignore {A} O (m : CM A) : keeps O m -> keeps O (ignore m).
Proof.
  intros Hm. eapply spec_bind; [by apply spec_attempt|]. intros r _. by apply crypto_keeps_ret.
Qed.

(** Reading changes nothing. *)
Lemma spec_reads {A} O (f : crypto_state -> A) (Q : A -> Prop) :
  (forall s, serving s -> Forall (holds s) O -> Q (f s)) -> spec O (reads f) (fun _ => O) Q.
Proof. intros HQ s Hs Ho. cbn. auto using others_refl. Qed.

Lemma spec_weaken {A} O (m : CM A) O1 O2 (Q1 Q2 : A -> Prop) : spec O m O1 Q1 ->
  (forall s x, Forall (holds s) (O1 x) -> Forall (holds s) (O2 x)) -> (forall x, Q1 x -> Q2 x) -> spec O m O2 Q2.
Proof.
  intros Hm HO HQ s Hs Ho. destruct (Hm s Hs Ho) as (H1 & H2 & H3). split; [done|]. split; [done|].
  destruct (fst (m s)); [|done]. destruct H3. eauto.
Qed.
Lemma spec_keeps {A} O (m : CM A) O' Q : spec O m O' Q -> keeps O m.
Proof. intros H. eapply spec_weaken; [exact H|constructor|done]. Qed.

(** ** The memory *)
Lemma region_le p n m : region a p n -> 0 <= m <= n -> region a p m.
Proof.
  intros [Hn Hr] Hm. split; [lia|]. destruct Hr as [->|(o & -> & H1 & H2)]; [left; lia|].
  right. exists o. split; [done|]. lia.
Qed.
Lemma region_zero p : region a p 0.
Proof. split; [done|]. by left. Qed.

Lemma scratch_write_ok off l x : scratch_ok x -> 0 <= off -> off + Z.of_nat (length l) <= alloc_index x ->
  scratch_ok {| buf := splice (buf x) off l; alloc_index := alloc_index x; scratch_owner := scratch_owner x |}.
Proof.
  intros [H1 H2 H3 H4] Ho Hl. split; cbn; [rewrite length_splice by lia; done|done|done|].
  rewrite drop_splice by lia. done.
Qed.

(** What two states must share for the resources to be the same. *)
Lemma holds_same s s' x : operation s' = operation s -> handle_owner s' = handle_owner s ->
  out_vec s' = out_vec s -> holds s x -> holds s' x.
Proof. intros H1 H2 H3. destruct x; cbn; by rewrite ?H1, ?H2, ?H3. Qed.

Lemma spec_modify O f : (forall s, serving s -> Forall (holds s) O ->
    serving (f s) /\ others c s (f s) /\ Forall (holds (f s)) O) -> spec O (modify f) (fun _ => O) (fun _ => True).
Proof. intros H s Hs Ho. destruct (H s Hs Ho) as (H1 & H2 & H3). split; [exact H1|]. split; [exact H2|]. by split. Qed.

Lemma spec_mem_write O p l : region a p (Z.of_nat (length l)) ->
  spec O (mem_write p l) (fun _ => O) (fun _ => True).
Proof.
  intros [_ Hr]. unfold mem_write. destruct l as [|b l]; [by apply spec_ret|].
  destruct Hr as [Hr|(off & -> & H1 & H2)]; [cbn in Hr; lia|].
  eapply spec_bind; [apply (spec_reads _ _ (fun s => serving s)); auto|].
  intros s0 Hs0. pose proof (so_index _ (ck_scratch _ (sv_ok _ Hs0))) as Hi. rewrite (sv_index _ Hs0) in Hi.
  destruct (Z.leb_spec (off + Z.of_nat (length (b :: l))) TFM_CRYPTO_IOVEC_BUFFER_SIZE); [|lia].
  apply spec_modify. intros s [[K1 K2 K3 K4 K5 K6] S2 S3 S4 S5] Ho.
  split; [|split; [done|]].
  - split; cbn; try done. split; cbn; try done. apply scratch_write_ok; [done|done|]. by rewrite S3.
  - eapply Forall_impl; [exact Ho|]. intros x. by apply holds_same.
Qed.
Lemma spec_write32 O p v : region a p 4 -> spec O (write32 p v) (fun _ => O) (fun _ => True).
Proof. intros H. apply spec_mem_write. by rewrite length_le_bytes. Qed.

Lemma spec_out_at O i : spec O (out_at i) (fun v => Rout i (ov_base v) (ov_len v) :: O)
  (fun v => region a (ov_base v) (ov_len v)).
Proof.
  intros s Hs Ho. cbn. split; [done|]. split; [done|]. pose proof (sv_out _ Hs) as Hv.
  destruct (out_vec s !! i) as [v|] eqn:E.
  - erewrite nth_lookup_Some by exact E. destruct (Forall2_lookup_r _ _ _ _ _ Hv E) as (cap & Hcap & Hr & Hle).
    split; [constructor; [|done]|done]. intros v' Hv'. assert (v' = v) as -> by congruence.
    split; [done|]. intros cap' Hc'. by replace cap' with cap by congruence.
  - rewrite nth_overflow by (by apply lookup_ge_None in E). cbn. split; [constructor; [|done]|apply region_zero].
    intros v' Hv'. congruence.
Qed.

Lemma spec_set_out_len O i p n m : In (Rout i p m) O -> region a p n -> n <= m ->
  spec O (set_out_len i n) (fun _ => O) (fun _ => True).
Proof.
  intros Hin Hr Hnm. apply spec_modify. intros s [[K1 K2 K3 K4 K5 K6] S2 S3 S4 S5] Ho. split; [|split; [done|]].
  - split; cbn; try done. apply Forall2_same_length_lookup. rewrite length_alter.
    split; [exact (Forall2_length _ _ _ S4)|]. intros j cap v Hc Hj. rewrite list_lookup_alter in Hj.
    case_decide as Hd; [|exact (Forall2_lookup_lr _ _ _ _ _ _ S4 Hc Hj)]. subst j.
    destruct (out_vec s !! i) as [v0|] eqn:E; [|done]. injection Hj as <-. cbn.
    destruct (proj1 (List.Forall_forall _ _) Ho _ Hin v0 E) as [-> Hcap]. specialize (Hcap _ Hc). split; [done|lia].
  - eapply Forall_impl; [exact Ho|]. intros [j t|j|j|j q k]; cbn; try done.
    intros Hb v Hj. rewrite list_lookup_alter in Hj. case_decide as Hd; [|by apply Hb]. subst j.
    destruct (out_vec s !! i) as [v0|] eqn:E; [|done]. injection Hj as <-. cbn. by apply Hb.
Qed.

(** ** The library *)
Lemma spec_caller O : spec O tfm_crypto_get_caller_id (fun _ => O) (fun id => id = c).
Proof. apply spec_reads. intros s Hs _. apply Hs. Qed.

Lemma spec_encode O key : spec O (tfm_crypto_encode_id_and_owner key) (fun _ => O) (fun k => sk_owner k = c).
Proof. eapply spec_bind; [apply spec_caller|]. intros id ->. by apply spec_ret. Qed.

Lemma set_eng_serving s e : serving s -> P e -> serving (set_eng e s).
Proof. intros [[K1 K2 K3 K4 K5 K6] S2 S3 S4 S5] He. split; try done. Qed.
Lemma set_eng_holds s e O : Forall (holds s) O -> Forall (holds (set_eng e s)) O.
Proof. intros Ho. eapply Forall_impl; [exact Ho|]. intros x. by apply holds_same. Qed.
Lemma spec_set_eng O e : P e -> spec O (modify (set_eng e)) (fun _ => O) (fun _ => True).
Proof.
  intros He. apply spec_modify. intros s Hs Ho. split; [by apply set_eng_serving|]. split; [done|by apply set_eng_holds].
Qed.

Definition fits_in (n : Z) (r : psa_result) : Prop := 0 <= n -> Z.of_nat (length (r_out r)) <= n.
Definition fits (f : psa_fn) (r : psa_result) : Prop := fits_in (out_room f) r.

Lemma spec_psa_run O f : Forall (fun o => o = c) (fn_owners f) -> spec O (psa_run f) (fun _ => O) (fits f).
Proof.
  intros Hf s Hs Ho. unfold psa_run, bind, reads, modify, ret. pose proof (psa_out_fits f [] (eng s)) as Hr.
  pose proof (kp_psa HP f [] (eng s) Hf (sv_eng _ Hs)) as Hp.
  destruct (psa f [] (eng s)) as [[r x] e]. cbn in *. split; [by apply set_eng_serving|].
  split; [done|]. split; [by apply set_eng_holds|done].
Qed.

(** ** The operations *)
Lemma sizeof_le t : t <> TFM_CRYPTO_OPERATION_NONE -> (sizeof_operation t <= sizeof_ctx)%nat.
Proof. unfold sizeof_ctx. destruct t; [done|lia..]. Qed.

Lemma set_op_ok s i o o' : serving s -> operation s !! i = Some o -> ~ foreign_op c o -> ~ foreign_op c o' ->
  ctx_ok o' -> serving (set_op i o' s) /\ others c s (set_op i o' s).
Proof.
  intros [[K1 K2 K3 K4 K5 K6] S2 S3 S4 S5] Hi Ho Ho' Hc. split.
  - split; cbn; try done. split; cbn; try done; [by rewrite length_insert|by apply Forall_insert].
  - split; [|done]. apply others_same_insert; [|done]. intros y Hy. by simplify_eq.
Qed.

Lemma op_in_range s i o : operation s !! i = Some o -> op_at i s = o.
Proof. intros H. unfold op_at. by apply nth_lookup_Some. Qed.

Lemma own_not_foreign (o : tfm_crypto_operation_s) : owner o = c -> ~ foreign_op c o.
Proof. intros H [_ Hn]. done. Qed.
Lemma free_not_foreign (o : tfm_crypto_operation_s) : in_use o = 0 -> ~ foreign_op c o.
Proof. intros H [Hn _]. done. Qed.

Lemma ctx_of_len s i t o : serving s -> operation s !! i = Some o -> t <> TFM_CRYPTO_OPERATION_NONE ->
  length (ctx_of t i s) = sizeof_operation t.
Proof.
  intros Hs Hi Ht. unfold ctx_of. rewrite (op_in_range _ _ _ Hi), length_take.
  pose proof (ck_op _ (sv_ok _ Hs)) as Hc. eapply Forall_lookup_1 in Hc; [|exact Hi]. destruct Hc as [-> _].
  pose proof (sizeof_le t Ht). lia.
Qed.

(** A context of the right size in a slot of the caller. *)
Lemma put_ctx_ok s i t ctx : serving s -> holds s (Rop i t) -> length ctx = sizeof_operation t ->
  serving (put_ctx i ctx s) /\ others c s (put_ctx i ctx s) /\
  forall O, Forall (holds s) O -> Forall (holds (put_ctx i ctx s)) O.
Proof.
  intros Hs (o & Hi & Hu & Hw & Ht) Hl. unfold put_ctx. rewrite (op_in_range _ _ _ Hi).
  pose proof (ck_op _ (sv_ok _ Hs)) as Hc. eapply Forall_lookup_1 in Hc; [|exact Hi].
  destruct Hc as [Hlen [(H0 & _)|(_ & Hne & Hrest)]]; [congruence|]. rewrite Ht in Hne, Hrest.
  pose proof (sizeof_le t Hne) as Hle. subst t.
  destruct (set_op_ok s i o {| in_use := in_use o; owner := owner o; type := type o;
    operation_ctx := splice (operation_ctx o) 0 ctx |}) as [H1 H2]; try done.
  - by apply own_not_foreign.
  - by apply own_not_foreign.
  - split; cbn; [rewrite length_splice by lia; done|]. right. split; [done|]. split; [done|].
    rewrite drop_splice by lia. done.
  - split; [done|]. split; [done|]. intros O Ho. eapply Forall_impl; [exact Ho|]. intros [j u|j|j|j q k]; cbn; try done.
    intros (o' & Hj & Hu' & Hw' & Ht'). rewrite list_lookup_insert. case_decide as Hd; [|by exists o'].
    destruct Hd as [<- _]. simplify_eq. by eexists.
Qed.

Lemma spec_psa_on O t i f : In (Rop i t) O -> t <> TFM_CRYPTO_OPERATION_NONE ->
  Forall (fun o => o = c) (fn_owners f) -> spec O (psa_on t i f) (fun _ => O) (fits f).
Proof.
  intros Hin Ht Hf s Hs Ho. pose proof (proj1 (List.Forall_forall _ _) Ho _ Hin) as Hop.
  destruct (Hop) as (o & Hi & _). unfold psa_on, bind, reads, modify, ret.
  pose proof (psa_out_fits f (ctx_of t i s) (eng s)) as Hr.
  pose proof (psa_ctx_len f (ctx_of t i s) (eng s)) as Hlen. rewrite (ctx_of_len _ _ _ _ Hs Hi Ht) in Hlen.
  pose proof (kp_psa HP f (ctx_of t i s) (eng s) Hf (sv_eng _ Hs)) as Hp.
  destruct (psa f (ctx_of t i s) (eng s)) as [[r x] e]. cbn in *.
  destruct (put_ctx_ok (set_eng e s) i t x) as (H1 & H2 & H3); [by apply set_eng_serving|done|done|].
  split; [done|]. split; [done|]. split; [|done]. apply H3. by apply set_eng_holds.
Qed.

Lemma free_operation_some l k i : free_operation l k = Some i ->
  exists o, (k <= i)%nat /\ l !! (i - k)%nat = Some o /\ in_use o = 0 /\
    forall j o', (j < i - k)%nat -> l !! j = Some o' -> in_use o' <> 0.
Proof.
  revert k. induction l as [|o l IH]; intros k H; [done|]. cbn in H. destruct (Z.eqb_spec (in_use o) TFM_CRYPTO_NOT_IN_USE) as [H0|H0].
  - injection H as <-. exists o. rewrite Nat.sub_diag. repeat split; try done. lia.
  - destruct (IH _ H) as (o' & Hk & Hl & Hu & Hbefore). exists o'. replace (i - k)%nat with (S (i - S k))%nat by lia.
    repeat split; [lia|done|done|]. intros [|j] o2 Hj Ho2; [by injection Ho2 as <-|]. apply (Hbefore j o2); [lia|done].
Qed.

(** The context of a new operation is zero. *)
Lemma alloc_ok s i o t : serving s -> operation s !! i = Some o -> in_use o = 0 -> t <> TFM_CRYPTO_OPERATION_NONE ->
  let o' := {| in_use := TFM_CRYPTO_IN_USE; owner := c; type := t; operation_ctx := operation_ctx (op_at i s) |} in
  operation_ctx o = repeat 0 sizeof_ctx /\
  serving (set_op i o' s) /\ others c s (set_op i o' s) /\ holds (set_op i o' s) (Rop i t) /\
  forall O, Forall (holds s) O -> Forall (holds (set_op i o' s)) O.
Proof.
  intros Hs Hi Hu Ht o'. pose proof (ck_op _ (sv_ok _ Hs)) as Hc. eapply Forall_lookup_1 in Hc; [|exact Hi].
  destruct Hc as [Hlen [(H0 & _ & _ & Hz)|(H1 & _)]]; [|congruence]. split; [done|].
  destruct (set_op_ok s i o o') as [H1 H2]; try done.
  - by apply free_not_foreign.
  - by apply own_not_foreign.
  - subst o'. rewrite (op_in_range _ _ _ Hi). split; cbn; [done|]. right. split; [done|]. split; [done|]. rewrite Hz.
    pose proof (sizeof_le t Ht). rewrite (le_zeros (sizeof_operation t) sizeof_ctx), drop_app_length' by (done || by rewrite repeat_length).
    done.
  - split; [done|]. split; [done|]. split.
    + exists o'. cbn. rewrite list_lookup_insert_eq by (by eapply lookup_lt_Some). done.
    + intros O Ho. eapply Forall_impl; [exact Ho|]. intros [j u|j|j|j q k]; cbn; try done.
      intros (o2 & Hj & Hu' & Hw' & Ht'). rewrite list_lookup_insert. case_decide as Hd; [|by exists o2].
      destruct Hd as [<- _]. congruence.
Qed.

Lemma spec_alloc O t h : t <> TFM_CRYPTO_OPERATION_NONE ->
  spec O (tfm_crypto_operation_alloc t h) (fun x => Rop (snd x) t :: O) (fun _ => True).
Proof.
  intros Ht. eapply spec_bind; [apply spec_caller|]. intros id ->.
  destruct (negb _); [apply spec_fail|].
  intros s Hs Ho. unfold bind, reads, modify, ret, fail. destruct (free_operation (operation s) 0) as [i|] eqn:E;
    [|by cbn; auto using others_refl].
  destruct (free_operation_some _ _ _ E) as (o & _ & Hi & Hu & _). rewrite Nat.sub_0_r in Hi. cbn.
  destruct (alloc_ok s i o t Hs Hi Hu Ht) as (_ & H1 & H2 & H3 & H4).
  split; [exact H1|]. split; [exact H2|]. split; [|done]. constructor; [exact H3|by apply H4].
Qed.

Lemma op_at_in_use s i : in_use (op_at i s) = TFM_CRYPTO_IN_USE -> operation s !! i = Some (op_at i s).
Proof.
  unfold op_at. intros H. destruct (operation s !! i) as [o|] eqn:E; [by erewrite nth_lookup_Some|].
  rewrite nth_overflow in H by (by apply lookup_ge_None in E). done.
Qed.

Lemma spec_lookup O t h : spec O (tfm_crypto_operation_lookup t h) (fun i => Rop i t :: O) (fun _ => True).
Proof.
  intros s Hs Ho. unfold tfm_crypto_operation_lookup, tfm_crypto_get_caller_id, tfm_crypto_get_scratch_owner.
  unfold bind, reads, ret, fail. rewrite (sv_owner _ Hs).
  destruct (negb _ && _ && _ && _ && _) eqn:E; [|cbn; auto using others_refl].
  apply andb_prop in E as [E Ew]. apply andb_prop in E as [E Et]. apply andb_prop in E as [_ Eu].
  apply Z.eqb_eq in Ew, Eu. apply bool_decide_eq_true in Et. cbn.
  split; [done|]. split; [done|]. split; [|done]. constructor; [|done].
  eexists. split; [by apply op_at_in_use|]. done.
Qed.

(** A released context is zero. *)
Lemma memset_zero o : ctx_ok o -> in_use o = 1 -> memset_operation_context o = repeat 0 sizeof_ctx.
Proof.
  intros [Hlen [(H0 & _)|(_ & Ht & Hrest)]] Hu; [congruence|]. pose proof (sizeof_le _ Ht) as Hle.
  assert (memset_operation_context o = splice (operation_ctx o) 0 (repeat 0 (sizeof_operation (type o)))) as ->
    by (unfold memset_operation_context; by destruct (type o)).
  unfold splice. rewrite repeat_length. change (Z.to_nat 0) with 0%nat. cbn [plus firstn app]. rewrite Hrest. by rewrite <- le_zeros.
Qed.

Lemma release_ok s i : serving s -> in_use (op_at i s) = 1 -> owner (op_at i s) = c ->
  let o' := {| in_use := TFM_CRYPTO_NOT_IN_USE; owner := 0; type := TFM_CRYPTO_OPERATION_NONE;
               operation_ctx := memset_operation_context (op_at i s) |} in
  serving (set_op i o' s) /\ others c s (set_op i o' s) /\ operation_ctx o' = repeat 0 sizeof_ctx.
Proof.
  intros Hs Hu Hw o'. pose proof (op_at_in_use _ _ Hu) as Hi.
  pose proof (ck_op _ (sv_ok _ Hs)) as Hc. eapply Forall_lookup_1 in Hc; [|exact Hi].
  pose proof (memset_zero _ Hc Hu) as Hz.
  destruct (set_op_ok s i (op_at i s) o') as [H1 H2]; try done.
  - by apply own_not_foreign.
  - by apply free_not_foreign.
  - subst o'. split; cbn; [by rewrite Hz, repeat_length|]. left. by rewrite Hz.
Qed.

Lemma spec_release O p : region a p 4 -> keeps O (tfm_crypto_operation_release p).
Proof.
  intros Hp s Hs Ho. unfold tfm_crypto_operation_release, tfm_crypto_get_caller_id, tfm_crypto_get_scratch_owner.
  unfold read32, bind, reads, modify. rewrite (sv_owner _ Hs). set (h := le_val _).
  destruct (negb _ && _ && _ && _) eqn:E; [|cbn; auto using others_refl].
  apply andb_prop in E as [E Ew]. apply andb_prop in E as [_ Eu]. apply Z.eqb_eq in Ew, Eu.
  destruct (release_ok s _ Hs Eu Ew) as (H1 & H2 & _).
  destruct (spec_write32 [] p TFM_CRYPTO_INVALID_HANDLE Hp _ H1 (Forall_nil_2 _)) as (H3 & H4 & H5).
  split; [exact H3|]. split; [by eapply others_trans|]. by destruct (fst _).
Qed.

(** ** The handles of keys *)
Lemma find_handle_some l key k i h : find_handle l key k = Some (i, h) ->
  (k <= i)%nat /\ l !! (i - k)%nat = Some h /\ ho_in_use h <> 0 /\ ho_key h = key.
Proof.
  revert k. induction l as [|h0 l IH]; intros k H; [done|]. cbn in H. destruct (negb _ && _) eqn:E.
  - injection H as <- <-. apply andb_prop in E as [E1 E2]. rewrite Nat.sub_diag. apply negb_true_iff in E1.
    apply Z.eqb_neq in E1. apply Z.eqb_eq in E2. done.
  - destruct (IH _ H) as (Hk & Hl & Hr). replace (i - k)%nat with (S (i - S k))%nat by lia. split; [lia|done].
Qed.

Lemma spec_check_owner O key : spec O (tfm_crypto_check_handle_owner key) (fun i => Rkey i :: O) (fun _ => True).
Proof.
  intros s Hs Ho. unfold tfm_crypto_check_handle_owner, tfm_crypto_get_caller_id, tfm_crypto_get_scratch_owner.
  unfold bind, reads, ret, fail. rewrite (sv_owner _ Hs).
  destruct (find_handle _ key 0) as [[i h]|] eqn:E; [|cbn; auto using others_refl].
  destruct (find_handle_some _ _ _ _ _ E) as (_ & Hl & Hu & _). rewrite Nat.sub_0_r in Hl.
  destruct (Z.eqb_spec (ho_owner h) c) as [Hw|]; cbn; [|auto using others_refl].
  split; [done|]. split; [done|]. split; [|done]. constructor; [|done]. by exists h.
Qed.

Lemma spec_handle_owner_at O i : In (Rkey i) O -> spec O (handle_owner_at i) (fun _ => O) (fun o => o = c).
Proof.
  intros Hin. apply spec_reads. intros s Hs Ho.
  destruct (proj1 (List.Forall_forall _ _) Ho _ Hin) as (h & Hi & _ & Hw). by erewrite nth_lookup_Some by exact Hi.
Qed.

Lemma free_handle_some l k i : free_handle l k = Some i ->
  exists h, (k <= i)%nat /\ l !! (i - k)%nat = Some h /\ ho_in_use h = 0.
Proof.
  revert k. induction l as [|h l IH]; intros k H; [done|]. cbn in H.
  destruct (Z.eqb_spec (ho_in_use h) TFM_CRYPTO_NOT_IN_USE) as [H0|H0].
  - injection H as <-. exists h. by rewrite Nat.sub_diag.
  - destruct (IH _ H) as (h' & Hk & Hl & Hu). exists h'. replace (i - k)%nat with (S (i - S k))%nat by lia.
    split; [lia|done].
Qed.

Lemma spec_check_key_storage O : spec O tfm_crypto_check_key_storage (fun i => Rfree i :: O) (fun _ => True).
Proof.
  intros s Hs Ho. unfold tfm_crypto_check_key_storage, bind, reads, ret, fail.
  destruct (free_handle (handle_owner s) 0) as [i|] eqn:E; [|cbn; auto using others_refl].
  destruct (free_handle_some _ _ _ E) as (h & _ & Hl & Hu). rewrite Nat.sub_0_r in Hl. cbn.
  split; [done|]. split; [done|]. split; [|done]. constructor; [|done]. by exists h.
Qed.

Lemma set_handle_ok s i h o k u : serving s -> handle_owner s !! i = Some h ->
  ~ foreign_handle c h -> ~ foreign_handle c {| ho_owner := o; ho_key := k; ho_in_use := u |} ->
  handle_ok {| ho_owner := o; ho_key := k; ho_in_use := u |} ->
  serving (set_handle i o k u s) /\ others c s (set_handle i o k u s).
Proof.
  intros [[K1 K2 K3 K4 K5 K6] S2 S3 S4 S5] Hi Hh Hn Hok. split.
  - split; cbn; try done. split; cbn; try done; [by rewrite length_insert|by apply Forall_insert].
  - split; [done|]. apply others_same_insert; [|done]. intros y Hy. by simplify_eq.
Qed.

Lemma spec_set_handle O i k : In (Rfree i) O -> keeps O (modify (set_handle i c k TFM_CRYPTO_IN_USE)).
Proof.
  intros Hin s Hs Ho. destruct (proj1 (List.Forall_forall _ _) Ho _ Hin) as (h & Hi & Hu).
  destruct (set_handle_ok s i h c k TFM_CRYPTO_IN_USE) as [H1 H2];
    [exact Hs|exact Hi|by intros [Hn _]|by intros [_ Hn]|by right|].
  cbn. auto.
Qed.
Lemma spec_clear_handle O i : In (Rkey i) O -> keeps O (clear_handle i).
Proof.
  intros Hin s Hs Ho. destruct (proj1 (List.Forall_forall _ _) Ho _ Hin) as (h & Hi & Hu & Hw).
  destruct (set_handle_ok s i h 0 0 TFM_CRYPTO_NOT_IN_USE) as [H1 H2];
    [exact Hs|exact Hi|by intros [_ Hn]|by intros [Hn _]|by left|].
  cbn. auto.
Qed.
Lemma spec_set_key_storage O i k : In (Rfree i) O -> keeps O (tfm_crypto_set_key_storage i k).
Proof.
  intros Hin. unfold tfm_crypto_set_key_storage. destruct (_ <=? _)%nat; [apply spec_fail|].
  eapply spec_bind; [apply spec_caller|]. intros id ->. by apply spec_set_handle.
Qed.

(** ** The ends of the secure functions *)
Lemma spec_put_output O i p r n : In (Rout i p n) O -> region a p n -> Z.of_nat (length (r_out r)) <= n ->
  spec O (put_output i p r) (fun _ => O) (fun _ => True).
Proof.
  intros Hin Hr Hl. assert (region a p (Z.of_nat (length (r_out r)))) by (eapply region_le; [exact Hr|lia]).
  eapply spec_bind; [by apply spec_mem_write|]. intros ? _. by eapply spec_set_out_len.
Qed.
Lemma spec_return_status O e : spec O (return_status e) (fun _ => O) (fun _ => True).
Proof. unfold return_status. destruct (_ =? _); [by apply spec_ret|apply spec_fail]. Qed.
Lemma spec_release_if O b p : region a p 4 -> keeps O (release_if b p).
Proof. intros H. destruct b; [by apply keeps_ignore, spec_release|apply crypto_keeps_ret]. Qed.
Lemma spec_abort_with O e p : region a p 4 -> keeps O (abort_with e p).
Proof.
  intros H. unfold abort_with. destruct (negb _); [|by apply spec_release].
  eapply spec_bind; [by apply keeps_ignore, spec_release|]. intros ? _. apply spec_fail.
Qed.
Lemma length_client_attr_bytes x : Z.of_nat (length (client_attr_bytes x)) = sizeof_client_key_attributes.
Proof. unfold client_attr_bytes. by rewrite !length_app, !length_le_bytes. Qed.
Lemma spec_write_attr O p x : region a p sizeof_client_key_attributes ->
  spec O (mem_write p (client_attr_bytes x)) (fun _ => O) (fun _ => True).
Proof. intros H. apply spec_mem_write. by rewrite length_client_attr_bytes. Qed.
Lemma spec_record_new_key O i p r : In (Rfree i) O -> region a p 4 -> keeps O (record_new_key i c p r).
Proof.
  intros Hin Hp. eapply spec_bind; [by apply spec_write32|]. intros ? _.
  eapply spec_bind; [apply spec_return_status|]. intros ? _. by apply spec_set_handle.
Qed.

(** ** Derivation from the hardware unique key *)
Local Notation KD := TFM_CRYPTO_KEY_DERIVATION_OPERATION.
Lemma kd_len s i : serving s -> holds s (Rop i KD) -> length (ctx_of KD i s) = sizeof_operation KD.
Proof. intros Hs (o & Hi & _). by eapply ctx_of_len. Qed.

Lemma spec_huk_setup O i : In (Rop i KD) O -> keeps O (tfm_crypto_huk_derivation_setup i).
Proof.
  intros Hin s Hs Ho. pose proof (proj1 (List.Forall_forall _ _) Ho _ Hin) as Hop. cbn.
  destruct (put_ctx_ok s i KD (kd_set_alg (ctx_of KD i s) TFM_CRYPTO_ALG_HUK_DERIVATION)) as (H1 & H2 & _); auto.
  rewrite kd_set_alg_len. by apply kd_len.
Qed.

Lemma spec_huk_input O i st data : In (Rop i KD) O -> keeps O (tfm_crypto_huk_derivation_input_bytes i st data).
Proof.
  intros Hin. unfold tfm_crypto_huk_derivation_input_bytes. destruct (negb _); [apply spec_fail|].
  eapply spec_bind; [apply spec_caller|]. intros id ->. intros s Hs Ho.
  pose proof (proj1 (List.Forall_forall _ _) Ho _ Hin) as Hop. cbn.
  pose proof (kp_label HP (ctx_of KD i s) (le_bytes 4 c ++ data) (eng s) (sv_eng _ Hs)) as Hp. cbn in Hp.
  pose proof (kd_put_label_len (ctx_of KD i s) (le_bytes 4 c ++ data) (eng s)) as Hlen.
  destruct (kd_put_label _ _ _) as [[allocated ctx] e]; cbn in *.
  destruct (put_ctx_ok (set_eng e s) i KD ctx) as (H1 & H2 & H3); [by apply set_eng_serving|done| |].
  - rewrite Hlen. by apply kd_len.
  - unfold bind, modify, ret, fail. destruct (negb allocated); cbn; split; try exact H1; by split.
Qed.

Lemma spec_huk_output O i x : In (Rop i KD) O -> sk_owner (ka_id x) = c ->
  spec O (tfm_crypto_huk_derivation_output_key x i) (fun _ => O) (fun _ => True).
Proof.
  intros Hin Hx. unfold tfm_crypto_huk_derivation_output_key. destruct (_ <? _); [apply spec_fail|].
  set (n := PSA_BITS_TO_BYTES _). intros s Hs Ho. pose proof (proj1 (List.Forall_forall _ _) Ho _ Hin) as Hop.
  pose proof (kp_huk HP (kd_label (ctx_of KD i s) (eng s)) n (eng s) (sv_eng _ Hs)) as Hp.
  rewrite bind_reads_eq. destruct (tfm_plat_get_huk_derived_key _ n _) as [[key|] e]; cbn [snd] in Hp.
  - destruct (put_ctx_ok (set_eng e s) i KD (kd_put_block (ctx_of KD i s) key)) as (H1 & H2 & H3);
      [by apply set_eng_serving|done|rewrite kd_put_block_len; by apply kd_len|].
    destruct (spec_psa_run O (psa_import_key x key) ltac:(by repeat constructor) _ H1 (H3 O (set_eng_holds _ _ _ Ho)))
      as (K1 & K2 & K3).
    unfold bind at 1, modify at 1. split; [exact K1|]. split; [by eapply others_trans|].
    destruct (fst _); [|done]. by destruct K3.
  - cbn. split; [by apply set_eng_serving|]. by split.
Qed.

Lemma spec_huk_abort O i : In (Rop i KD) O ->
  spec O (tfm_crypto_huk_derivation_abort i) (fun _ => O) (fun _ => True).
Proof.
  intros Hin s Hs Ho. pose proof (proj1 (List.Forall_forall _ _) Ho _ Hin) as Hop. cbn.
  pose proof (kp_free HP (ctx_of KD i s) (eng s) (sv_eng _ Hs)) as Hp.
  destruct (put_ctx_ok (set_eng (kd_free_label (ctx_of KD i s) (eng s)) s) i KD
    (repeat 0 (length (ctx_of KD i s)))) as (H1 & H2 & H3); [by apply set_eng_serving|done| |].
  - rewrite repeat_length. by apply kd_len.
  - split; [exact H1|]. split; [exact H2|]. split; [|done]. apply H3. by apply set_eng_holds.
Qed.

(** ** Vendor keys *)
Lemma spec_vendor_valid O key b : spec O (tfm_crypto_vendor_key_is_valid key b) (fun _ => O) (fun _ => True).
Proof.
  eapply spec_bind; [apply spec_encode|]. intros k Hk.
  eapply spec_bind; [apply spec_psa_run; by repeat constructor|]. intros r _.
  eapply spec_bind; [by apply (spec_reads _ _ (fun _ => True))|]. intros e _. by apply spec_ret.
Qed.

Lemma spec_vendor_run O (f : engine -> psa_fn) n : (forall e, fn_owners (f e) = [] /\ out_room (f e) = n) ->
  spec O (let! e := reads eng in psa_run (f e)) (fun _ => O) (fits_in n).
Proof.
  intros Hf. eapply spec_bind; [by apply (spec_reads _ _ (fun _ => True))|]. intros e _. destruct (Hf e) as [Hw <-].
  apply spec_psa_run. by rewrite Hw.
Qed.
Lemma spec_vendor_sign O k alg h n :
  spec O (tfm_crypto_vendor_key_sign_hash k alg h n) (fun _ => O) (fits_in n).
Proof. by apply spec_vendor_run. Qed.
Lemma spec_vendor_verify O k alg h g :
  spec O (tfm_crypto_vendor_key_verify_hash k alg h g) (fun _ => O) (fits_in 0).
Proof. by apply spec_vendor_run. Qed.

Lemma spec_if {A} O (b : bool) (m1 m2 : CM A) O' Q : spec O m1 O' Q -> spec O m2 O' Q ->
  spec O (if b then m1 else m2) O' Q.
Proof. by destruct b. Qed.
Lemma spec_export_public O (b : bool) k key n : sk_owner k = c ->
  spec O (if b then tfm_crypto_vendor_key_export_public_key key n else psa_run (psa_export_public_key k n))
    (fun _ => O) (fits_in n).
Proof. intros Hk. apply spec_if; [by apply spec_vendor_run|]. apply spec_psa_run. by repeat constructor. Qed.
Lemma spec_output_key O (b : bool) i x : In (Rop i KD) O -> sk_owner (ka_id x) = c ->
  spec O (if b then tfm_crypto_huk_derivation_output_key x i else psa_on KD i (psa_key_derivation_output_key x))
    (fun _ => O) (fun _ => True).
Proof.
  intros Hin Hx. apply spec_if; [by apply spec_huk_output|].
  eapply spec_weaken; [apply spec_psa_on; [exact Hin|done|by repeat constructor]|done|done].
Qed.

Lemma spec_hal_result {A} O (r : res A) : spec O (hal_result r) (fun _ => O) (fun _ => True).
Proof. destruct r; [by apply spec_ret|apply spec_fail]. Qed.

Lemma spec_vendor_open O k p : sk_owner k = c -> region a p 4 -> keeps O (tfm_crypto_vendor_key_open_key k p).
Proof.
  intros Hk Hp. eapply spec_bind; [by apply (spec_reads _ _ (fun _ => True))|]. intros e _. cbv zeta.
  destruct (negb _); [apply spec_fail|]. eapply spec_bind; [apply spec_check_key_storage|]. intros i _.
  eapply spec_bind; [apply spec_hal_result|]. intros [u al] _.
  eapply spec_bind; [apply spec_hal_result|]. intros [[ty bits] data] _.
  eapply spec_bind; [apply spec_psa_run; by repeat constructor|]. intros r _.
  eapply spec_bind; [by apply spec_write32|]. intros ? _.
  eapply spec_bind; [apply spec_return_status|]. intros ? _.
  eapply spec_bind; [apply spec_set_key_storage; by left|]. intros ? _.
  intros s Hs Ho. rewrite bind_reads_eq.
  pose proof (kp_map HP (sk_key_id (r_key r)) (sk_key_id k) (eng s) (sv_eng _ Hs)) as Hm.
  destruct (hal_add_key_id_mapping _ _ _) as [e1 en]. cbn [snd] in Hm.
  apply (spec_bind [] _ _ (fun _ => []) (fun _ => True) (fun _ => []) (fun _ => True)); [by apply spec_set_eng| |done|done].
  intros ? _. apply spec_return_status.
Qed.

Lemma spec_read O (f : crypto_state -> list Z) : spec O (reads f) (fun _ => O) (fun _ => True).
Proof. by apply spec_reads. Qed.
End Logic.
End Spec.

(** ** Automation *)
Create HintDb crypto.
#[export] Hint Resolve crypto_keeps_ret spec_fail spec_caller spec_encode spec_out_at spec_lookup spec_check_owner
  spec_check_key_storage spec_return_status spec_attempt spec_read : crypto.

Ltac crypto_bools :=
  repeat match goal with
  | H : (_ || _) = false |- _ => apply orb_false_elim in H as [? H]
  | H : negb _ = false |- _ => apply negb_false_iff in H
  | H : (_ =? _) = true |- _ => apply Z.eqb_eq in H
  end.
(** Side conditions: a resource that is held, a buffer in its region, keys of
    the caller. *)
Ltac crypto_side :=
  match goal with
  | |- In _ _ => cbn; tauto
  | |- _ <> TFM_CRYPTO_OPERATION_NONE => discriminate
  | |- region _ _ 0 => apply region_zero
  | R : region _ _ ?n |- 0 <= ?n => apply R
  | H : region ?a ?p ?n, E : ?n = ?m |- region ?a ?p ?m => rewrite <- E; exact H
  | R : region ?a ?p ?n, H : fits ?f ?r |- region ?a ?p (Z.of_nat (length (r_out ?r))) =>
      eapply region_le; [exact R|split; [lia|apply H; cbn; apply R]]
  | H : region ?a ?p ?n |- region ?a ?p _ => exact H
  | H : fits_in ?n ?r, R : region _ _ ?n |- Z.of_nat (length (r_out ?r)) <= _ => apply H, R
  | H : fits ?f ?r |- Z.of_nat (length (r_out ?r)) <= _ => apply H; cbn; match goal with
      | R : region _ _ ?n |- 0 <= ?n => apply R end
  | |- Forall _ _ => cbn; repeat constructor; cbn; assumption
  end.
Ltac crypto_prim HP :=
  lazymatch goal with
  | |- spec _ _ _ _ _ (psa_run _) _ _ => eapply (spec_psa_run _ _ _ _ HP); crypto_side
  | |- spec _ _ _ _ _ (psa_on _ _ _) _ _ => eapply (spec_psa_on _ _ _ _ HP); crypto_side
  | |- spec _ _ _ _ _ (write32 _ _) _ _ => eapply spec_write32; crypto_side
  | |- spec _ _ _ _ _ (put_output _ _ _) _ _ => eapply spec_put_output; crypto_side
  | |- spec _ _ _ _ _ (mem_write _ (client_attr_bytes _)) _ _ => eapply spec_write_attr; crypto_side
  | |- spec _ _ _ _ _ (mem_write _ _) _ _ => eapply spec_mem_write; crypto_side
  | |- spec _ _ _ _ _ (set_out_len _ _) _ _ => eapply spec_set_out_len; crypto_side
  | |- spec _ _ _ _ _ (tfm_crypto_operation_alloc _ _) _ _ => eapply spec_alloc; crypto_side
  | |- spec _ _ _ _ _ (release_if _ _) _ _ => eapply spec_release_if; crypto_side
  | |- spec _ _ _ _ _ (abort_with _ _) _ _ => eapply spec_abort_with; crypto_side
  | |- spec _ _ _ _ _ (handle_owner_at _) _ _ => eapply spec_handle_owner_at; crypto_side
  | |- spec _ _ _ _ _ (clear_handle _) _ _ => eapply spec_clear_handle; crypto_side
  | |- spec _ _ _ _ _ (modify (set_handle _ _ _ _)) _ _ => eapply spec_set_handle; crypto_side
  | |- spec _ _ _ _ _ (tfm_crypto_set_key_storage _ _) _ _ => eapply spec_set_key_storage; crypto_side
  | |- spec _ _ _ _ _ (attempt _) _ _ => eapply spec_attempt; crypto_prim HP
  | |- spec _ _ _ _ _ (ret tt) _ _ => apply crypto_keeps_ret
  | |- spec _ _ _ _ _ (record_new_key _ _ _ _) _ _ => eapply spec_record_new_key; crypto_side
  | |- spec _ _ _ _ _ (tfm_crypto_huk_derivation_setup _) _ _ => eapply spec_huk_setup; crypto_side
  | |- spec _ _ _ _ _ (tfm_crypto_huk_derivation_input_bytes _ _ _) _ _ =>
      eapply (spec_huk_input _ _ _ _ HP); crypto_side
  | |- spec _ _ _ _ _ (tfm_crypto_huk_derivation_output_key _ _) _ _ =>
      eapply (spec_huk_output _ _ _ _ HP); [crypto_side|reflexivity]
  | |- spec _ _ _ _ _ (tfm_crypto_huk_derivation_abort _) _ _ => eapply (spec_huk_abort _ _ _ _ HP); crypto_side
  | |- spec _ _ _ _ _ (tfm_crypto_vendor_key_open_key _ _) _ _ =>
      eapply (spec_vendor_open _ _ _ _ HP); [reflexivity|crypto_side]
  | |- spec _ _ _ _ _ (tfm_crypto_vendor_key_is_valid _ _) _ _ => apply (spec_vendor_valid _ _ _ _ HP)
  | |- spec _ _ _ _ _ (tfm_crypto_vendor_key_is_valid_key _) _ _ => apply (spec_vendor_valid _ _ _ _ HP)
  | |- spec _ _ _ _ _ (tfm_crypto_vendor_key_is_valid_device_key _) _ _ => apply (spec_vendor_valid _ _ _ _ HP)
  | |- spec _ _ _ _ _ (tfm_crypto_vendor_key_sign_hash _ _ _ _) _ _ => apply (spec_vendor_sign _ _ _ _ HP)
  | |- spec _ _ _ _ _ (tfm_crypto_vendor_key_verify_hash _ _ _ _) _ _ => apply (spec_vendor_verify _ _ _ _ HP)
  | |- spec _ _ _ _ _ (if _ then tfm_crypto_vendor_key_export_public_key _ _ else _) _ _ =>
      apply (spec_export_public _ _ _ _ HP); assumption || reflexivity
  | |- spec _ _ _ _ _ (if _ then tfm_crypto_huk_derivation_output_key _ _ else _) _ _ =>
      apply (spec_output_key _ _ _ _ HP); [crypto_side|reflexivity]
  | |- spec _ _ _ _ _ (kd_ctx _) _ _ => apply spec_read
  | |- spec _ _ _ _ _ (reads _) _ _ => apply (spec_reads _ _ _ _ _ _ (fun _ => True)); done
  | |- spec _ _ _ _ _ (read_in _) _ _ => apply spec_read
  | |- spec _ _ _ _ _ read_iov _ _ => apply (spec_reads _ _ _ _ _ _ (fun _ => True)); done
  | |- spec _ _ _ _ _ (read32 _) _ _ => apply (spec_reads _ _ _ _ _ _ (fun _ => True)); done
  | |- _ => eauto with crypto
  end.
(** A value that is known is replaced. *)
Ltac crypto_subst H :=
  try match type of H with ?x = ?y => is_var x; subst x end.
Ltac crypto_step HP :=
  lazymatch goal with
  | |- keeps _ _ _ _ _ _ => unfold keeps
  | |- spec _ _ _ _ _ (bind _ _) _ _ => eapply spec_bind; [solve [crypto_prim HP]|cbn beta;
      let x := fresh "x" in let Hx := fresh "Hx" in intros x Hx; crypto_subst Hx; cbn beta iota zeta]
  | |- spec _ _ _ _ _ (if ?b then _ else _) _ _ => destruct b eqn:?; crypto_bools
  | |- spec _ _ _ _ _ (let '(_, _) := ?x in _) _ _ => destruct x; cbn [fst snd] in *
  | |- spec _ _ _ _ _ (match ?x with Ok _ => _ | Err _ => _ end) _ _ => destruct x
  | |- _ => first [ solve [crypto_prim HP] | eapply spec_keeps; solve [crypto_prim HP] ]
  end.
Ltac crypto_auto HP := cbv beta zeta; repeat crypto_step HP.

(** ** Every secure function *)
Section Functions.
Context {C : PsaCrypto} {L : PsaCryptoLaws C} (c a : Z) (caps : list Z) (P : engine -> Prop) (HP : kept_by_caller c P).

Ltac keeps_fn := unfold CRYPTO_IN_OUT_LEN_VALIDATE; crypto_auto HP.

Ltac keeps_head :=
  match goal with |- keeps _ _ _ _ _ (?f _ _ _ _) => unfold f end; try unfold close_with, mac_setup, cipher_setup.

Lemma table_keeps : Forall (fun f : tfm_crypto_us_t => forall v n m, keeps c a caps P [] (f v n m)) sfid_func_table.
Proof.
  unfold sfid_func_table. repeat apply Forall_cons_2; [..|apply Forall_nil_2]; intros v n m; keeps_head; keeps_fn.
Qed.

Lemma function_keeps f v n m : In f sfid_func_table -> keeps c a caps P [] (f v n m).
Proof. intros H. pose proof table_keeps as Ht. rewrite List.Forall_forall in Ht. by apply Ht. Qed.
End Functions.

(** * Crypto: requests

    The scratch memory of a request, and what serving any request does. *)

(** ** Allocation in the scratch memory *)
Definition align4 (n : Z) : Z := (n + 3) / 4 * 4.

Lemma ALIGN_4 n : 0 <= n <= 2 ^ 32 - 4 -> ALIGN n TFM_CRYPTO_IOVEC_ALIGNMENT = align4 n.
Proof.
  intros Hn. pose proof (its_align_pow2 n 2 ltac:(lia) ltac:(lia) ltac:(lia)) as H.
  exact H.
Qed.
Lemma align4_bounds n : n <= align4 n < n + 4 /\ align4 n mod 4 = 0.
Proof. unfold align4. Z.to_euclidean_division_equations. lia. Qed.

Section Msg.
Context {C : PsaCrypto} {L : PsaCryptoLaws C}.

(** Only the scratch memory differs; its owner is the same and more of it is
    in use. *)
Record fills (s s' : crypto_state) : Prop := {
  fl_same : s' = set_scratch (scratch s') s;
  fl_ok : scratch_ok (scratch s');
  fl_owner : scratch_owner (scratch s') = scratch_owner (scratch s);
  fl_index : alloc_index (scratch s) <= alloc_index (scratch s')
}.
Lemma fills_refl s : scratch_ok (scratch s) -> fills s s.
Proof. intros H. split; [by destruct s|done|done|lia]. Qed.
Lemma fills_trans s1 s2 s3 : fills s1 s2 -> fills s2 s3 -> fills s1 s3.
Proof. intros [H1 H2 H3 H4] [K1 K2 K3 K4]. split; [rewrite K1; by rewrite H1|done|congruence|lia]. Qed.

Lemma alloc_scratch_run s n : scratch_ok (scratch s) -> 0 <= n <= 2 ^ 32 - 4 ->
  let o := alloc_index (scratch s) in
  tfm_crypto_alloc_scratch n s =
    if align4 n >? TFM_CRYPTO_IOVEC_BUFFER_SIZE - o then (Err PSA_ERROR_INSUFFICIENT_MEMORY, s)
    else (Ok (SCRATCH o), set_scratch {| buf := buf (scratch s); alloc_index := o + align4 n;
                                         scratch_owner := scratch_owner (scratch s) |} s).
Proof.
  intros [H1 H2 H3 H4] Hn o. unfold tfm_crypto_alloc_scratch. rewrite ALIGN_4 by done. cbv zeta. rewrite bind_reads_eq.
  pose proof (align4_bounds n). fold o in H2 |- *. unfold TFM_CRYPTO_IOVEC_BUFFER_SIZE in *.
  rewrite u32_small by lia. destruct (Z.gtb_spec (align4 n) (5120 - o)); [done|].
  unfold bind, modify, ret. rewrite u32_small by lia. done.
Qed.

Lemma drop_repeat (k n : nat) : drop k (repeat 0 n) = repeat 0 (n - k).
Proof. revert k. induction n as [|n IH]; intros [|k]; cbn; [done|done|done|apply IH]. Qed.
Lemma drop_zeros (l : list Z) k k' n : drop k l = repeat 0 n -> (k <= k')%nat -> drop k' l = repeat 0 (n - (k' - k)).
Proof.
  intros H Hk. replace k' with (k + (k' - k))%nat by lia. rewrite <- drop_drop, H, drop_repeat. f_equal. lia.
Qed.

Lemma alloc_scratch_spec s n : scratch_ok (scratch s) -> 0 <= n <= 2 ^ 32 - 4 ->
  wp (tfm_crypto_alloc_scratch n) s
    (fun p s' => fills s s' /\ region (alloc_index (scratch s')) p n /\ p = SCRATCH (alloc_index (scratch s)) /\
       buf (scratch s') = buf (scratch s) /\ alloc_index (scratch s') = alloc_index (scratch s) + align4 n)
    (fun _ s' => s' = s).
Proof.
  intros Hs Hn. unfold wp. rewrite alloc_scratch_run by done. pose proof (align4_bounds n) as [Hb Ha].
  destruct Hs as [H1 H2 H3 H4]. destruct (Z.gtb_spec (align4 n) (TFM_CRYPTO_IOVEC_BUFFER_SIZE - alloc_index (scratch s))); [done|].
  split; [|split; [|done]].
  - split; cbn; [done| |done|lia]. split; cbn; [done|lia|Z.to_euclidean_division_equations; lia|].
    rewrite (drop_zeros _ _ _ _ H4) by lia. f_equal. lia.
  - cbn. split; [lia|]. right. eexists. split; [done|]. lia.
Qed.

(** Writing into what has been allocated. *)
Lemma mem_write_spec s p l : scratch_ok (scratch s) -> region (alloc_index (scratch s)) p (Z.of_nat (length l)) ->
  wp (mem_write p l) s (fun _ s' => fills s s' /\ alloc_index (scratch s') = alloc_index (scratch s) /\
    (forall off, p = SCRATCH off -> l <> [] -> buf (scratch s') = splice (buf (scratch s)) off l)) (fun _ _ => False).
Proof.
  intros Hs [_ Hr]. unfold mem_write. destruct l as [|b l].
  { split; [by apply fills_refl|]. by split. }
  destruct Hr as [Hr|(off & -> & H1 & H2)]; [cbn in Hr; lia|]. apply wp_bind, wp_reads.
  pose proof (so_index _ Hs) as Hi.
  destruct (Z.leb_spec (off + Z.of_nat (length (b :: l))) TFM_CRYPTO_IOVEC_BUFFER_SIZE); [|lia]. apply wp_modify.
  split; [|split; [done|by intros o [= <-] _]]. split; cbn; [done| |done|lia]. by apply scratch_write_ok.
Qed.

Record wf_msg (m : psa_msg) : Prop := {
  wm_in : Forall (fun l => Z.of_nat (length l) <= 2 ^ 32 - 4) (in_data m);
  wm_out : Forall (fun n => 0 <= n <= 2 ^ 32 - 4) (out_size m)
}.
Lemma wf_in_size m i : wf_msg m -> 0 <= in_size m i <= 2 ^ 32 - 4.
Proof.
  intros [H _]. unfold in_size. split; [lia|]. destruct (in_data m !! i) as [l|] eqn:E.
  - erewrite nth_lookup_Some by exact E. by eapply Forall_lookup_1 in E; [|exact H].
  - rewrite nth_overflow by (by apply lookup_ge_None in E). done.
Qed.
Lemma wf_out_size m i : wf_msg m -> 0 <= nth i (out_size m) 0 <= 2 ^ 32 - 4.
Proof.
  intros [_ H]. destruct (out_size m !! i) as [l|] eqn:E.
  - erewrite nth_lookup_Some by exact E. by eapply Forall_lookup_1 in E; [|exact H].
  - rewrite nth_overflow by (by apply lookup_ge_None in E). lia.
Qed.

Lemma read_vecs_spec m n i s : wf_msg m -> scratch_ok (scratch s) ->
  wp (read_vecs m n i) s (fun _ s' => fills s s') (fun _ s' => fills s s').
Proof.
  intros Hm. revert i s. induction n as [|n IH]; intros i s Hs; cbn [read_vecs]; [by apply fills_refl|].
  apply wp_bind. eapply wp_mono; [by apply alloc_scratch_spec, wf_in_size| |intros e s1 ->; by apply fills_refl].
  intros p s1 (H1 & Hr & _). apply wp_bind.
  eapply wp_mono; [apply mem_write_spec; [apply H1|exact Hr]| |done]. intros _ s2 (H2 & _).
  assert (H12 : fills s s2) by (by eapply fills_trans). apply wp_bind.
  eapply wp_mono; [apply IH, H2|intros l s3 H3; apply wp_ret|intros e s3 H3]; by eapply fills_trans.
Qed.

Lemma alloc_out_spec m n i s : wf_msg m -> scratch_ok (scratch s) ->
  wp (alloc_out m n i) s (fun l s' => fills s s' /\ length l = n /\
      forall k v, l !! k = Some v -> region (alloc_index (scratch s')) (ov_base v) (ov_len v) /\
        ov_len v = nth (i + k) (out_size m) 0)
    (fun _ s' => fills s s').
Proof.
  intros Hm. revert i s. induction n as [|n IH]; intros i s Hs; cbn [alloc_out].
  { split; [by apply fills_refl|]. split; [done|]. by intros [|k] v. }
  cbv zeta. apply wp_bind. eapply wp_mono; [by apply alloc_scratch_spec, wf_out_size| |intros e s1 ->; by apply fills_refl].
  intros p s1 (H1 & Hr & _). apply wp_bind.
  eapply wp_mono; [apply IH, H1|intros l s2 (H2 & Hl & Hv); apply wp_ret|intros e s2 H2; by eapply fills_trans].
  split; [by eapply fills_trans|]. split; [cbn; lia|]. intros [|k] v Hk; cbn in Hk.
  - injection Hk as <-. cbn. rewrite Nat.add_0_r. split; [|done]. destruct Hr as [Hr0 Hr]. split; [done|].
    destruct Hr as [->|(o & -> & K1 & K2)]; [by left|]. right. exists o. pose proof (fl_index _ _ H2). split; [done|]. lia.
  - destruct (Hv k v Hk) as [K1 K2]. rewrite Nat.add_succ_r. by split.
Qed.

(** ** Between requests *)
(** No request is being served: the scratch memory is zero. *)
Record idle (s : crypto_state) : Prop := {
  id_ok : crypto_ok s;
  id_index : alloc_index (scratch s) = 0;
  id_owner : scratch_owner (scratch s) = 0
}.
Lemma idle_zero s : idle s -> buf (scratch s) = repeat 0 (Z.to_nat TFM_CRYPTO_IOVEC_BUFFER_SIZE).
Proof. intros [H H0 _]. pose proof (so_rest _ (ck_scratch _ H)) as Hr. by rewrite H0 in Hr. Qed.

Lemma clear_idle s : crypto_ok s -> idle (snd (tfm_crypto_clear_scratch s)).
Proof.
  intros [K1 K2 K3 K4 [H1 H2 H3 H4] K6]. cbn. split; cbn; [|done|done]. split; cbn; try done.
  assert (Hz : splice (buf (scratch s)) 0 (repeat 0 (Z.to_nat (alloc_index (scratch s)))) =
    repeat 0 (Z.to_nat TFM_CRYPTO_IOVEC_BUFFER_SIZE)).
  { unfold splice. rewrite repeat_length. change (Z.to_nat 0) with 0%nat. rewrite take_0, Nat.add_0_l, H4, app_nil_l, <- repeat_app.
    f_equal. lia. }
  split; cbn; rewrite ?Hz; done.
Qed.

Lemma fills_crypto_ok s s' : fills s s' -> crypto_ok s -> crypto_ok s'.
Proof. intros [-> H2 _ _] [K1 K2 K3 K4 K5 K6]. by split. Qed.
Lemma fills_others c s s' : fills s s' -> others c s s'.
Proof. intros [-> _ _ _]. done. Qed.
Lemma fills_eng s s' : fills s s' -> eng s' = eng s.
Proof. by intros [-> _ _ _]. Qed.

(** ** Serving a request *)
Section Serve.
Context (m : psa_msg) (Hm : wf_msg m) (P : engine -> Prop) (HP : kept_by_caller (client_id m) P).

(** What serving leaves: the invariant, what belongs to others, the property
    of the library, and answers that fit the client's vectors. *)
Definition served (s s' : crypto_state) : Prop :=
  idle s' /\ others (client_id m) s s' /\ P (eng s') /\
  Forall (fun w => Z.of_nat (length (snd w)) <= nth (Z.to_nat (fst w)) (out_size m) 0) (written s').

Lemma refused_served s s' : crypto_ok s -> P (eng s) -> written s = [] -> fills s s' ->
  served s (snd (tfm_crypto_clear_scratch s')).
Proof.
  intros Hs Hp Hw Hf. pose proof (clear_idle s' (fills_crypto_ok _ _ Hf Hs)) as Hi. split; [done|].
  destruct Hf as [Hx _ _ _]. rewrite Hx. cbn. split; [done|]. split; [done|]. by rewrite Hw.
Qed.

Lemma length_mem_read a' p n s : region a' p n -> Z.of_nat (length (mem_read p n s)) <= n.
Proof.
  intros [Hn _]. destruct p; cbn; try lia. unfold bytes_at. rewrite length_take. lia.
Qed.

Lemma count_vecs_le size n : (count_vecs size n <= n)%nat.
Proof. induction n as [|n IH]; cbn; [done|]. destruct (_ =? _); lia. Qed.

Definition no_out : psa_outvec := {| ov_base := NULL; ov_len := 0 |}.
Definition out_vecs_ok (a' : Z) (outs : list psa_outvec) : Prop := forall k v, outs !! k = Some v ->
  region a' (ov_base v) (ov_len v) /\ ov_len v = nth k (out_size m) 0.

Lemma no_outs_ok a' outs v : out_vecs_ok a' outs -> In v (outs ++ repeat no_out (PSA_MAX_IOVEC - length outs)) ->
  region a' (ov_base v) (ov_len v).
Proof.
  intros Hv Hin. apply in_app_or in Hin as [Hin|Hin].
  - apply list_elem_of_In, list_elem_of_lookup_1 in Hin as [k Hk]. by apply (Hv k v).
  - apply repeat_spec in Hin as ->. apply region_zero.
Qed.

(** The secure function starts with the caller as the owner of the scratch
    memory. *)
Lemma start_serving s outs : crypto_ok s -> P (eng s) -> out_vecs_ok (alloc_index (scratch s)) outs ->
  let all := outs ++ repeat no_out (PSA_MAX_IOVEC - length outs) in
  serving (client_id m) (alloc_index (scratch s)) (map ov_len all) P
    (snd (tfm_crypto_set_scratch_owner (client_id m) (set_out_vec all s))).
Proof.
  intros [K1 K2 K3 K4 K5 K6] Hp Hv all. split; cbn; try done.
  - split; cbn; try done. by destruct K5.
  - apply Forall2_same_length_lookup. rewrite length_map. split; [done|]. intros i cap v Hc Hi.
    rewrite list_lookup_fmap, Hi in Hc. injection Hc as <-. split; [|lia].
    apply (no_outs_ok _ outs); [done|]. apply list_elem_of_In. by eapply list_elem_of_lookup_2.
Qed.

Lemma length_psa_write s outs a' n : let all := outs ++ repeat no_out (PSA_MAX_IOVEC - length outs) in
  out_vecs_ok a' outs -> n = length outs ->
  Forall2 (fun cap v => region a' (ov_base v) (ov_len v) /\ ov_len v <= cap) (map ov_len all) (out_vec s) ->
  Forall (fun w => Z.of_nat (length (snd w)) <= nth (Z.to_nat (fst w)) (out_size m) 0)
    (imap (fun i v => (Z.of_nat i, mem_read (ov_base v) (ov_len v) s)) (firstn n (out_vec s))).
Proof.
  intros all Hv -> Hall. apply Forall_lookup_2. intros i w Hi. rewrite list_lookup_imap in Hi.
  destruct (take (length outs) (out_vec s) !! i) as [v|] eqn:E; [|done]. injection Hi as <-. cbn [fst snd].
  rewrite lookup_take in E. case_decide as Hlt; [|done]. rewrite Nat2Z.id.
  destruct (Forall2_lookup_r _ _ _ _ _ Hall E) as (cap & Hc & Hr & Hle).
  pose proof (length_mem_read _ _ _ s Hr). rewrite list_lookup_fmap in Hc.
  destruct (lookup_lt_is_Some_2 outs i Hlt) as [v0 Hv0]. unfold all in Hc. rewrite lookup_app_l in Hc by done.
  rewrite Hv0 in Hc. injection Hc as <-. destruct (Hv _ _ Hv0) as [_ <-]. lia.
Qed.

Lemma answer_spec s outs in_vec in_len sfn : crypto_ok s -> P (eng s) -> out_vecs_ok (alloc_index (scratch s)) outs ->
  let n := length outs in
  served s (snd ((do! modify (set_out_vec (outs ++ repeat no_out (PSA_MAX_IOVEC - n))) in
    do! tfm_crypto_set_scratch_owner (client_id m) in
    let! status := attempt (nth (Z.to_nat sfn) sfid_func_table not_supported in_vec in_len (Z.of_nat n)) in
    do! psa_write_outs n in
    do! tfm_crypto_clear_scratch in
    match status with Ok _ => ret tt | Err e => fail e end) s)).
Proof.
  intros Hs Hp Hv n. pose proof (start_serving s outs Hs Hp Hv) as H1. cbv zeta in H1. fold n in H1.
  set (f := nth (Z.to_nat sfn) sfid_func_table not_supported).
  assert (Hk : keeps (client_id m) (alloc_index (scratch s))
    (map ov_len (outs ++ repeat no_out (PSA_MAX_IOVEC - n))) P [] (f in_vec in_len (Z.of_nat n))).
  { unfold f. destruct (nth_in_or_default (Z.to_nat sfn) sfid_func_table not_supported) as [Hin| ->];
      [by apply function_keeps|apply spec_fail]. }
  specialize (Hk _ H1 (Forall_nil_2 _)). unfold bind at 1, modify at 1. cbv beta iota.
  unfold bind at 1, attempt at 1. unfold bind at 1. unfold tfm_crypto_set_scratch_owner, modify in Hk |- *. cbn [snd] in Hk.
  cbv beta iota.
  destruct (f in_vec in_len (Z.of_nat n) _) as [r s1]. cbn [fst snd] in Hk. destruct Hk as (H2 & H3 & _).
  unfold bind at 1, psa_write_outs, modify. cbv beta iota. set (s2 := set_written _ s1).
  assert (Hw : Forall (fun w => Z.of_nat (length (snd w)) <= nth (Z.to_nat (fst w)) (out_size m) 0) (written s2))
    by (exact (length_psa_write s1 outs _ n Hv eq_refl (sv_out _ _ _ _ _ H2))).
  assert (Hs2 : crypto_ok s2) by (destruct H2 as [[K1 K2 K3 K4 K5 K6] _ _ _ _]; by split).
  unfold bind at 1. destruct (tfm_crypto_clear_scratch s2) as [[[]|e] s3] eqn:E; [|done].
  pose proof (clear_idle s2 Hs2) as Hi. rewrite E in Hi. cbn [snd] in Hi.
  injection E as <-.
  replace (snd (match r with Ok _ => ret tt | Err e => fail e end _)) with (snd (tfm_crypto_clear_scratch s2)) by (by destruct r).
  split; [exact Hi|]. split; [exact H3|]. split; [apply H2|exact Hw].
Qed.

Lemma others_fills c s s' s'' : fills s s' -> others c s' s'' -> others c s s''.
Proof. intros H. eapply others_trans. by apply fills_others. Qed.

Lemma call_sfn_spec sfn s : idle s -> P (eng s) -> written s = [] ->
  served s (snd (tfm_crypto_call_sfn m sfn s)).
Proof.
  intros Hid Hp Hw. pose proof (id_ok _ Hid) as Hs. unfold tfm_crypto_call_sfn.
  set (in_len := count_vecs (in_size m) _). set (out_len := count_vecs _ PSA_MAX_IOVEC).
  destruct (_ <? _)%nat.
  { change (served s s). split; [done|]. split; [done|]. split; [done|]. by rewrite Hw. }
  pose proof (read_vecs_spec m (in_len - 1) 1 s Hm (ck_scratch _ Hs)) as Hr. unfold wp in Hr.
  unfold bind at 1, attempt at 1. destruct (read_vecs m (in_len - 1) 1 s) as [[ins|e] s1];
    [|by apply refused_served].
  pose proof (fills_crypto_ok _ _ Hr Hs) as Hs1.
  pose proof (alloc_out_spec m out_len 0 s1 Hm (ck_scratch _ Hs1)) as Ha. unfold wp in Ha.
  unfold bind at 1, attempt at 1. destruct (alloc_out m out_len 0 s1) as [[outs|e] s2];
    [|apply refused_served; try done; by eapply fills_trans].
  destruct Ha as (Hf2 & Hlen & Hv). assert (Hf : fills s s2) by (by eapply fills_trans).
  cbv zeta. rewrite <- Hlen.
  destruct (answer_spec s2 outs ({| iv_base := IOV; iv_len := sizeof_pack_iovec |} :: ins) (Z.of_nat in_len) sfn)
    as (K1 & K2 & K3 & K4); [by eapply fills_crypto_ok|by rewrite (fills_eng _ _ Hf)|done|].
  split; [exact K1|]. split; [by eapply others_fills|]. by split.
Qed.

Lemma handler_spec s : idle s -> P (eng s) -> served s (snd (tfm_crypto_ipc_handler m s)).
Proof.
  intros Hid Hp. unfold tfm_crypto_ipc_handler. set (s0 := set_written [] s).
  assert (Hs0 : idle s0) by (destruct Hid as [[K1 K2 K3 K4 K5 K6] H1 H2]; split; [by split|done|done]).
  enough (H : served s0 (snd (serve_call m s0))).
  { destruct (serve_call m s0) as [[[]|e] s1]; exact H. }
  unfold serve_call, tfm_crypto_parse_msg. cbv zeta. unfold bind at 1. rewrite bind_reads_eq. unfold bind at 1, modify at 1.
  cbv beta iota. set (s1 := set_iov _ s0).
  assert (Hs1 : idle s1) by (destruct Hs0 as [[K1 K2 K3 K4 K5 K6] H1 H2]; split; [by split|done|done]).
  assert (Hnow : served s1 s1) by (split; [done|]; split; [done|]; by split).
  destruct (negb _); [exact Hnow|]. unfold read_iov. rewrite bind_reads_eq. destruct (_ >=? _); [exact Hnow|].
  cbn. exact (call_sfn_spec (sfn_id (iov s1)) s1 Hs1 Hp eq_refl).
Qed.
End Serve.
End Msg.
