(* ===== verification/CryptoApi.v ===== *)
(** * Crypto: the client library

    secure_fw/partitions/crypto/tfm_crypto_secure_api.c: how a secure partition
    asks for a service of the PSA Crypto API. Each function packs its
    arguments, connects, calls and closes; the calls of the SPM are
    parameters. The library of the non-secure side
    (interface/src/tfm_crypto_ipc_api.c) has the same code in all functions
    but one, which is in the module [NonSecure]. *)

From Stdlib Require Import ZArith List Lia Bool.
From stdpp Require Import base tactics list.
From S2P Require Import Prelude Crypto CryptoKeys CryptoOps.
Import ListNotations.
Local Open Scope Z_scope.

(** ** The numbers of the functions *)
Definition TFM_CRYPTO_GET_KEY_ATTRIBUTES_SID : Z := 0.
Definition TFM_CRYPTO_RESET_KEY_ATTRIBUTES_SID : Z := 1.
Definition TFM_CRYPTO_OPEN_KEY_SID : Z := 2.
Definition TFM_CRYPTO_CLOSE_KEY_SID : Z := 3.
Definition TFM_CRYPTO_IMPORT_KEY_SID : Z := 4.
Definition TFM_CRYPTO_DESTROY_KEY_SID : Z := 5.
Definition TFM_CRYPTO_EXPORT_KEY_SID : Z := 6.
Definition TFM_CRYPTO_EXPORT_PUBLIC_KEY_SID : Z := 7.
Definition TFM_CRYPTO_PURGE_KEY_SID : Z := 8.
Definition TFM_CRYPTO_COPY_KEY_SID : Z := 9.
Definition TFM_CRYPTO_HASH_COMPUTE_SID : Z := 10.
Definition TFM_CRYPTO_HASH_COMPARE_SID : Z := 11.
Definition TFM_CRYPTO_HASH_SETUP_SID : Z := 12.
Definition TFM_CRYPTO_HASH_UPDATE_SID : Z := 13.
Definition TFM_CRYPTO_HASH_FINISH_SID : Z := 14.
Definition TFM_CRYPTO_HASH_VERIFY_SID : Z := 15.
Definition TFM_CRYPTO_HASH_ABORT_SID : Z := 16.
Definition TFM_CRYPTO_HASH_CLONE_SID : Z := 17.
Definition TFM_CRYPTO_MAC_COMPUTE_SID : Z := 18.
Definition TFM_CRYPTO_MAC_VERIFY_SID : Z := 19.
Definition TFM_CRYPTO_MAC_SIGN_SETUP_SID : Z := 20.
Definition TFM_CRYPTO_MAC_VERIFY_SETUP_SID : Z := 21.
Definition TFM_CRYPTO_MAC_UPDATE_SID : Z := 22.
Definition TFM_CRYPTO_MAC_SIGN_FINISH_SID : Z := 23.
Definition TFM_CRYPTO_MAC_VERIFY_FINISH_SID : Z := 24.
Definition TFM_CRYPTO_MAC_ABORT_SID : Z := 25.
Definition TFM_CRYPTO_CIPHER_ENCRYPT_SID : Z := 26.
Definition TFM_CRYPTO_CIPHER_DECRYPT_SID : Z := 27.
Definition TFM_CRYPTO_CIPHER_ENCRYPT_SETUP_SID : Z := 28.
Definition TFM_CRYPTO_CIPHER_DECRYPT_SETUP_SID : Z := 29.
Definition TFM_CRYPTO_CIPHER_GENERATE_IV_SID : Z := 30.
Definition TFM_CRYPTO_CIPHER_SET_IV_SID : Z := 31.
Definition TFM_CRYPTO_CIPHER_UPDATE_SID : Z := 32.
Definition TFM_CRYPTO_CIPHER_FINISH_SID : Z := 33.
Definition TFM_CRYPTO_CIPHER_ABORT_SID : Z := 34.
Definition TFM_CRYPTO_AEAD_ENCRYPT_SID : Z := 35.
Definition TFM_CRYPTO_AEAD_DECRYPT_SID : Z := 36.
Definition TFM_CRYPTO_AEAD_ENCRYPT_SETUP_SID : Z := 37.
Definition TFM_CRYPTO_AEAD_DECRYPT_SETUP_SID : Z := 38.
Definition TFM_CRYPTO_AEAD_GENERATE_NONCE_SID : Z := 39.
Definition TFM_CRYPTO_AEAD_SET_NONCE_SID : Z := 40.
Definition TFM_CRYPTO_AEAD_SET_LENGTHS_SID : Z := 41.
Definition TFM_CRYPTO_AEAD_UPDATE_AD_SID : Z := 42.
Definition TFM_CRYPTO_AEAD_UPDATE_SID : Z := 43.
Definition TFM_CRYPTO_AEAD_FINISH_SID : Z := 44.
Definition TFM_CRYPTO_AEAD_VERIFY_SID : Z := 45.
Definition TFM_CRYPTO_AEAD_ABORT_SID : Z := 46.
Definition TFM_CRYPTO_SIGN_HASH_SID : Z := 47.
Definition TFM_CRYPTO_VERIFY_HASH_SID : Z := 48.
Definition TFM_CRYPTO_ASYMMETRIC_ENCRYPT_SID : Z := 49.
Definition TFM_CRYPTO_ASYMMETRIC_DECRYPT_SID : Z := 50.
Definition TFM_CRYPTO_KEY_DERIVATION_SETUP_SID : Z := 51.
Definition TFM_CRYPTO_KEY_DERIVATION_GET_CAPACITY_SID : Z := 52.
Definition TFM_CRYPTO_KEY_DERIVATION_SET_CAPACITY_SID : Z := 53.
Definition TFM_CRYPTO_KEY_DERIVATION_INPUT_BYTES_SID : Z := 54.
Definition TFM_CRYPTO_KEY_DERIVATION_INPUT_KEY_SID : Z := 55.
Definition TFM_CRYPTO_KEY_DERIVATION_KEY_AGREEMENT_SID : Z := 56.
Definition TFM_CRYPTO_KEY_DERIVATION_OUTPUT_BYTES_SID : Z := 57.
Definition TFM_CRYPTO_KEY_DERIVATION_OUTPUT_KEY_SID : Z := 58.
Definition TFM_CRYPTO_KEY_DERIVATION_ABORT_SID : Z := 59.
Definition TFM_CRYPTO_RAW_KEY_AGREEMENT_SID : Z := 60.
Definition TFM_CRYPTO_GENERATE_RANDOM_SID : Z := 61.
Definition TFM_CRYPTO_GENERATE_KEY_SID : Z := 62.
Definition TFM_CRYPTO_SET_KEY_DOMAIN_PARAMETERS_SID : Z := 63.
Definition TFM_CRYPTO_GET_KEY_DOMAIN_PARAMETERS_SID : Z := 64.

(** ** Calls *)
(** An output vector after a call: the buffer of the client and the length. *)
Record outvec := { o_bytes : list Z; o_len : Z }.

(** The packed arguments; what is not given is zero. *)
Definition packed (sfn key alg handle : Z) : tfm_crypto_pack_iovec :=
  {| sfn_id := sfn; step := 0; key_id := key; iov_alg := alg; op_handle := handle; capacity := 0;
     nonce := repeat 0 TFM_CRYPTO_MAX_NONCE_LENGTH; nonce_length := 0 |}.
Definition with_step (n : Z) (v : tfm_crypto_pack_iovec) : tfm_crypto_pack_iovec :=
  {| sfn_id := sfn_id v; step := n; key_id := key_id v; iov_alg := iov_alg v; op_handle := op_handle v;
     capacity := capacity v; nonce := nonce v; nonce_length := nonce_length v |}.
Definition with_capacity (n : Z) (v : tfm_crypto_pack_iovec) : tfm_crypto_pack_iovec :=
  {| sfn_id := sfn_id v; step := step v; key_id := key_id v; iov_alg := iov_alg v; op_handle := op_handle v;
     capacity := n; nonce := nonce v; nonce_length := nonce_length v |}.
(** The nonce is copied when there is one. *)
Definition with_nonce (l : option (list Z)) (n : Z) (v : tfm_crypto_pack_iovec) : tfm_crypto_pack_iovec :=
  match l with
  | None => v
  | Some l =>
      {| sfn_id := sfn_id v; step := step v; key_id := key_id v; iov_alg := iov_alg v; op_handle := op_handle v;
         capacity := capacity v; nonce := splice (nonce v) 0 (firstn (Z.to_nat n) l); nonce_length := n |}
  end.

Definition bytes_of (p : option (list Z)) : list (list Z) := match p with None => [] | Some l => [l] end.
Definition is_null {A} (p : option A) : bool := match p with None => true | Some _ => false end.

(** The number, the buffer and the length of output [i]. *)
Definition number (i : nat) (o : list outvec) : Z := le_val (firstn 4 (o_bytes (nth i o {| o_bytes := []; o_len := 0 |}))).
Definition buffer (i : nat) (o : list outvec) : list Z := o_bytes (nth i o {| o_bytes := []; o_len := 0 |}).
Definition len (i : nat) (o : list outvec) : Z := o_len (nth i o {| o_bytes := []; o_len := 0 |}).

Section Calls.
(** The system as the client sees it; [psa_call] gets the bytes of the input
    vectors and the contents of the output buffers. *)
Context {W : Type} (psa_connect : W -> bool * W) (psa_close : W -> W).
Context (psa_call : list (list Z) -> list (list Z) -> W -> psa_status_t * list outvec * W).

Definition API (A : Type) : Type := W -> A * W.

(** PSA_CONNECT, API_DISPATCH and PSA_CLOSE; [k] reads the results, which are
    [unchanged] when there is no connection. *)
Definition API_DISPATCH {A} (iov : tfm_crypto_pack_iovec) (ins outs : list (list Z)) (unchanged : A)
    (k : list outvec -> A) : API (psa_status_t * A) := fun w =>
  let '(valid, w) := psa_connect w in
  if negb valid then ((PSA_ERROR_GENERIC_ERROR, unchanged), w)
  else
    let '(status, o, w) := psa_call (iov_bytes iov :: ins) outs w in
    ((status, k o), psa_close w).
Definition API_DISPATCH_NO_OUTVEC (iov : tfm_crypto_pack_iovec) (ins : list (list Z)) : API psa_status_t := fun w =>
  let '((status, _), w) := API_DISPATCH iov ins [] tt (fun _ => tt) w in (status, w).
Definition refuse {A} (status : psa_status_t) (unchanged : A) : API (psa_status_t * A) := fun w => ((status, unchanged), w).

(** An operation is its handle; an output buffer goes in with its old
    contents, which say its size. *)
Definition u32_bytes (n : Z) : list Z := le_bytes 4 n.
End Calls.

Module Secure.
Section Api.
Context {W : Type} (psa_connect : W -> bool * W) (psa_close : W -> W).
Context (psa_call : list (list Z) -> list (list Z) -> W -> psa_status_t * list outvec * W).
Local Notation API := (@API W).
Local Notation API_DISPATCH := (API_DISPATCH psa_connect psa_close psa_call).
Local Notation API_DISPATCH_NO_OUTVEC := (API_DISPATCH_NO_OUTVEC psa_connect psa_close psa_call).

Definition psa_crypto_init : API psa_status_t := fun w => (PSA_SUCCESS, w).

(** *** Keys *)
Definition psa_open_key (id key_id : Z) : API (psa_status_t * Z) :=
  API_DISPATCH (packed TFM_CRYPTO_OPEN_KEY_SID 0 0 0) [u32_bytes id] [u32_bytes key_id] key_id (number 0).
Definition psa_close_key (key_id : Z) : API psa_status_t :=
  API_DISPATCH_NO_OUTVEC (packed TFM_CRYPTO_CLOSE_KEY_SID key_id 0 0) [].
Definition psa_import_key (attributes : psa_client_key_attributes) (data : list Z) (key_id : Z) : API (psa_status_t * Z) :=
  API_DISPATCH (packed TFM_CRYPTO_IMPORT_KEY_SID 0 0 0) [client_attr_bytes attributes; data] [u32_bytes key_id] key_id (number 0).
Definition psa_destroy_key (key_id : Z) : API psa_status_t :=
  API_DISPATCH_NO_OUTVEC (packed TFM_CRYPTO_DESTROY_KEY_SID key_id 0 0) [].
Definition psa_get_key_attributes (key_id : Z) (attributes : psa_client_key_attributes) :
    API (psa_status_t * psa_client_key_attributes) :=
  API_DISPATCH (packed TFM_CRYPTO_GET_KEY_ATTRIBUTES_SID key_id 0 0) [] [client_attr_bytes attributes] attributes
    (fun o => bytes_client_attr (buffer 0 o)).
Definition psa_reset_key_attributes (attributes : psa_client_key_attributes) : API psa_client_key_attributes := fun w =>
  let '((_, a), w) := API_DISPATCH (packed TFM_CRYPTO_RESET_KEY_ATTRIBUTES_SID 0 0 0) [] [client_attr_bytes attributes] attributes
                        (fun o => bytes_client_attr (buffer 0 o)) w in (a, w).
Definition psa_export_key (key_id : Z) (data : list Z) (data_length : Z) : API (psa_status_t * (list Z * Z)) :=
  API_DISPATCH (packed TFM_CRYPTO_EXPORT_KEY_SID key_id 0 0) [] [data] (data, data_length) (fun o => (buffer 0 o, len 0 o)).
Definition psa_export_public_key (key_id : Z) (data : list Z) (data_length : Z) : API (psa_status_t * (list Z * Z)) :=
  API_DISPATCH (packed TFM_CRYPTO_EXPORT_PUBLIC_KEY_SID key_id 0 0) [] [data] (data, data_length) (fun o => (buffer 0 o, len 0 o)).
Definition psa_purge_key (key_id : Z) : API psa_status_t :=
  API_DISPATCH_NO_OUTVEC (packed TFM_CRYPTO_PURGE_KEY_SID key_id 0 0) [].
Definition psa_copy_key (source_key_id : Z) (attributes : psa_client_key_attributes) (target_key_id : Z) :
    API (psa_status_t * Z) :=
  API_DISPATCH (packed TFM_CRYPTO_COPY_KEY_SID source_key_id 0 0) [client_attr_bytes attributes] [u32_bytes target_key_id]
    target_key_id (number 0).
Definition psa_generate_key (attributes : psa_client_key_attributes) (key_id : Z) : API (psa_status_t * Z) :=
  API_DISPATCH (packed TFM_CRYPTO_GENERATE_KEY_SID 0 0 0) [client_attr_bytes attributes] [u32_bytes key_id] key_id (number 0).

(** *** Ciphers *)
Definition psa_cipher_generate_iv (operation : Z) (iv : list Z) (iv_length : Z) : API (psa_status_t * (Z * list Z * Z)) :=
  API_DISPATCH (packed TFM_CRYPTO_CIPHER_GENERATE_IV_SID 0 0 operation) [] [u32_bytes operation; iv] (operation, iv, iv_length)
    (fun o => (number 0 o, buffer 1 o, len 1 o)).
Definition psa_cipher_set_iv (operation : Z) (iv : list Z) : API (psa_status_t * Z) :=
  API_DISPATCH (packed TFM_CRYPTO_CIPHER_SET_IV_SID 0 0 operation) [iv] [u32_bytes operation] operation (number 0).
Definition psa_cipher_encrypt_setup (operation key_id alg : Z) : API (psa_status_t * Z) :=
  API_DISPATCH (packed TFM_CRYPTO_CIPHER_ENCRYPT_SETUP_SID key_id alg operation) [] [u32_bytes operation] operation (number 0).
Definition psa_cipher_decrypt_setup (operation key_id alg : Z) : API (psa_status_t * Z) :=
  API_DISPATCH (packed TFM_CRYPTO_CIPHER_DECRYPT_SETUP_SID key_id alg operation) [] [u32_bytes operation] operation (number 0).
Definition psa_cipher_update (operation : Z) (input : list Z) (output : list Z) (output_length : Z) : API (psa_status_t * (Z * list Z * Z)) :=
  API_DISPATCH (packed TFM_CRYPTO_CIPHER_UPDATE_SID 0 0 operation) [input] [u32_bytes operation; output] (operation, output, output_length)
    (fun o => (number 0 o, buffer 1 o, len 1 o)).
Definition psa_cipher_abort (operation : Z) : API (psa_status_t * Z) :=
  API_DISPATCH (packed TFM_CRYPTO_CIPHER_ABORT_SID 0 0 operation) [] [u32_bytes operation] operation (number 0).
Definition psa_cipher_finish (operation : Z) (output : list Z) (output_length : Z) : API (psa_status_t * (Z * list Z * Z)) :=
  API_DISPATCH (packed TFM_CRYPTO_CIPHER_FINISH_SID 0 0 operation) [] [u32_bytes operation; output] (operation, output, output_length)
    (fun o => (number 0 o, buffer 1 o, len 1 o)).

(** *** Hashes *)
Definition psa_hash_setup (operation alg : Z) : API (psa_status_t * Z) :=
  API_DISPATCH (packed TFM_CRYPTO_HASH_SETUP_SID 0 alg operation) [] [u32_bytes operation] operation (number 0).
Definition psa_hash_update (operation : Z) (input : list Z) : API (psa_status_t * Z) :=
  API_DISPATCH (packed TFM_CRYPTO_HASH_UPDATE_SID 0 0 operation) [input] [u32_bytes operation] operation (number 0).
Definition psa_hash_finish (operation : Z) (hash : list Z) (hash_length : Z) : API (psa_status_t * (Z * list Z * Z)) :=
  API_DISPATCH (packed TFM_CRYPTO_HASH_FINISH_SID 0 0 operation) [] [u32_bytes operation; hash] (operation, hash, hash_length)
    (fun o => (number 0 o, buffer 1 o, len 1 o)).
Definition psa_hash_verify (operation : Z) (hash : list Z) : API (psa_status_t * Z) :=
  API_DISPATCH (packed TFM_CRYPTO_HASH_VERIFY_SID 0 0 operation) [hash] [u32_bytes operation] operation (number 0).
Definition psa_hash_abort (operation : Z) : API (psa_status_t * Z) :=
  API_DISPATCH (packed TFM_CRYPTO_HASH_ABORT_SID 0 0 operation) [] [u32_bytes operation] operation (number 0).
Definition psa_hash_clone (source_operation target_operation : Z) : API (psa_status_t * Z) :=
  if negb (target_operation =? 0) then refuse PSA_ERROR_BAD_STATE target_operation
  else API_DISPATCH (packed TFM_CRYPTO_HASH_CLONE_SID 0 0 source_operation) [] [u32_bytes target_operation] target_operation (number 0).
Definition psa_hash_compute (alg : Z) (input hash : list Z) (hash_length : Z) : API (psa_status_t * (list Z * Z)) :=
  API_DISPATCH (packed TFM_CRYPTO_HASH_COMPUTE_SID 0 alg 0) [input] [hash] (hash, hash_length) (fun o => (buffer 0 o, len 0 o)).
Definition psa_hash_compare (alg : Z) (input hash : list Z) : API psa_status_t :=
  API_DISPATCH_NO_OUTVEC (packed TFM_CRYPTO_HASH_COMPARE_SID 0 alg 0) [input; hash].

(** *** Message authentication codes *)
Definition psa_mac_sign_setup (operation key_id alg : Z) : API (psa_status_t * Z) :=
  API_DISPATCH (packed TFM_CRYPTO_MAC_SIGN_SETUP_SID key_id alg operation) [] [u32_bytes operation] operation (number 0).
Definition psa_mac_verify_setup (operation key_id alg : Z) : API (psa_status_t * Z) :=
  API_DISPATCH (packed TFM_CRYPTO_MAC_VERIFY_SETUP_SID key_id alg operation) [] [u32_bytes operation] operation (number 0).
Definition psa_mac_update (operation : Z) (input : list Z) : API (psa_status_t * Z) :=
  API_DISPATCH (packed TFM_CRYPTO_MAC_UPDATE_SID 0 0 operation) [input] [u32_bytes operation] operation (number 0).
Definition psa_mac_sign_finish (operation : Z) (mac : list Z) (mac_length : Z) : API (psa_status_t * (Z * list Z * Z)) :=
  API_DISPATCH (packed TFM_CRYPTO_MAC_SIGN_FINISH_SID 0 0 operation) [] [u32_bytes operation; mac] (operation, mac, mac_length)
    (fun o => (number 0 o, buffer 1 o, len 1 o)).
Definition psa_mac_verify_finish (operation : Z) (mac : list Z) : API (psa_status_t * Z) :=
  API_DISPATCH (packed TFM_CRYPTO_MAC_VERIFY_FINISH_SID 0 0 operation) [mac] [u32_bytes operation] operation (number 0).
Definition psa_mac_abort (operation : Z) : API (psa_status_t * Z) :=
  API_DISPATCH (packed TFM_CRYPTO_MAC_ABORT_SID 0 0 operation) [] [u32_bytes operation] operation (number 0).

(** *** Authenticated encryption *)
Definition psa_aead_encrypt (key_id alg : Z) (nonce : option (list Z)) (nonce_length : Z) (additional_data : option (list Z))
    (additional_data_length : Z) (plaintext ciphertext : list Z) (ciphertext_length : Z) : API (psa_status_t * (list Z * Z)) :=
  if is_null additional_data && negb (additional_data_length =? 0)
  then refuse PSA_ERROR_INVALID_ARGUMENT (ciphertext, ciphertext_length)
  else if nonce_length >? Z.of_nat TFM_CRYPTO_MAX_NONCE_LENGTH then refuse PSA_ERROR_INVALID_ARGUMENT (ciphertext, ciphertext_length)
  else
    API_DISPATCH (with_nonce nonce nonce_length (packed TFM_CRYPTO_AEAD_ENCRYPT_SID key_id alg 0))
      (plaintext :: bytes_of additional_data) [ciphertext] (ciphertext, ciphertext_length) (fun o => (buffer 0 o, len 0 o)).
Definition psa_aead_decrypt (key_id alg : Z) (nonce : option (list Z)) (nonce_length : Z) (additional_data : option (list Z))
    (additional_data_length : Z) (ciphertext plaintext : list Z) (plaintext_length : Z) : API (psa_status_t * (list Z * Z)) :=
  if is_null additional_data && negb (additional_data_length =? 0)
  then refuse PSA_ERROR_INVALID_ARGUMENT (plaintext, plaintext_length)
  else if nonce_length >? Z.of_nat TFM_CRYPTO_MAX_NONCE_LENGTH then refuse PSA_ERROR_INVALID_ARGUMENT (plaintext, plaintext_length)
  else
    API_DISPATCH (with_nonce nonce nonce_length (packed TFM_CRYPTO_AEAD_DECRYPT_SID key_id alg 0))
      (ciphertext :: bytes_of additional_data) [plaintext] (plaintext, plaintext_length) (fun o => (buffer 0 o, len 0 o)).

(** *** Asymmetric cryptography *)
Definition psa_sign_hash (key_id alg : Z) (hash signature : list Z) (signature_length : Z) : API (psa_status_t * (list Z * Z)) :=
  API_DISPATCH (packed TFM_CRYPTO_SIGN_HASH_SID key_id alg 0) [hash] [signature] (signature, signature_length)
    (fun o => (buffer 0 o, len 0 o)).
Definition psa_asymmetric_sign (key_id alg : Z) (hash signature : list Z) (signature_length : Z) :
    API (psa_status_t * (list Z * Z)) := psa_sign_hash key_id alg hash signature signature_length.
Definition psa_verify_hash (key_id alg : Z) (hash signature : list Z) : API psa_status_t :=
  API_DISPATCH_NO_OUTVEC (packed TFM_CRYPTO_VERIFY_HASH_SID key_id alg 0) [hash; signature].
Definition psa_asymmetric_verify (key_id alg : Z) (hash signature : list Z) : API psa_status_t :=
  psa_verify_hash key_id alg hash signature.
Definition psa_asymmetric_encrypt (key_id alg : Z) (input : list Z) (salt : option (list Z)) (salt_length : Z)
    (output : list Z) (output_length : Z) : API (psa_status_t * (list Z * Z)) :=
  if is_null salt && negb (salt_length =? 0) then refuse PSA_ERROR_INVALID_ARGUMENT (output, output_length)
  else
    API_DISPATCH (packed TFM_CRYPTO_ASYMMETRIC_ENCRYPT_SID key_id alg 0) (input :: bytes_of salt) [output] (output, output_length)
      (fun o => (buffer 0 o, len 0 o)).
Definition psa_asymmetric_decrypt (key_id alg : Z) (input : list Z) (salt : option (list Z)) (salt_length : Z)
    (output : list Z) (output_length : Z) : API (psa_status_t * (list Z * Z)) :=
  if is_null salt && negb (salt_length =? 0) then refuse PSA_ERROR_INVALID_ARGUMENT (output, output_length)
  else
    API_DISPATCH (packed TFM_CRYPTO_ASYMMETRIC_DECRYPT_SID key_id alg 0) (input :: bytes_of salt) [output] (output, output_length)
      (fun o => (buffer 0 o, len 0 o)).

(** *** Key derivation *)
Definition psa_key_derivation_get_capacity (operation capacity : Z) : API (psa_status_t * Z) :=
  API_DISPATCH (packed TFM_CRYPTO_KEY_DERIVATION_GET_CAPACITY_SID 0 0 operation) [] [u32_bytes capacity] capacity (number 0).
Definition psa_key_derivation_output_bytes (operation : Z) (output : list Z) : API (psa_status_t * list Z) :=
  API_DISPATCH (packed TFM_CRYPTO_KEY_DERIVATION_OUTPUT_BYTES_SID 0 0 operation) [] [output] output (buffer 0).
Definition psa_key_derivation_input_key (operation step key_id : Z) : API psa_status_t :=
  API_DISPATCH_NO_OUTVEC (with_step step (packed TFM_CRYPTO_KEY_DERIVATION_INPUT_KEY_SID key_id 0 operation)) [].
Definition psa_key_derivation_abort (operation : Z) : API (psa_status_t * Z) :=
  API_DISPATCH (packed TFM_CRYPTO_KEY_DERIVATION_ABORT_SID 0 0 operation) [] [u32_bytes operation] operation (number 0).
Definition psa_key_derivation_key_agreement (operation step private_key : Z) (peer_key : list Z) : API (psa_status_t * Z) :=
  API_DISPATCH (with_step step (packed TFM_CRYPTO_KEY_DERIVATION_KEY_AGREEMENT_SID private_key 0 operation)) [peer_key]
    [u32_bytes operation] operation (number 0).
Definition psa_generate_random (output : list Z) : API (psa_status_t * list Z) :=
  if Z.of_nat (length output) =? 0 then refuse PSA_SUCCESS output
  else API_DISPATCH (packed TFM_CRYPTO_GENERATE_RANDOM_SID 0 0 0) [] [output] output (buffer 0).
Definition psa_raw_key_agreement (alg private_key : Z) (peer_key output : list Z) (output_length : Z) :
    API (psa_status_t * (list Z * Z)) :=
  API_DISPATCH (packed TFM_CRYPTO_RAW_KEY_AGREEMENT_SID private_key alg 0) [peer_key] [output] (output, output_length)
    (fun o => (buffer 0 o, len 0 o)).
Definition psa_key_derivation_setup (operation alg : Z) : API (psa_status_t * Z) :=
  API_DISPATCH (packed TFM_CRYPTO_KEY_DERIVATION_SETUP_SID 0 alg operation) [] [u32_bytes operation] operation (number 0).
Definition psa_key_derivation_set_capacity (operation capacity : Z) : API psa_status_t :=
  API_DISPATCH_NO_OUTVEC (with_capacity capacity (packed TFM_CRYPTO_KEY_DERIVATION_SET_CAPACITY_SID 0 0 operation)) [].
Definition psa_key_derivation_input_bytes (operation step : Z) (data : list Z) : API psa_status_t :=
  API_DISPATCH_NO_OUTVEC (with_step step (packed TFM_CRYPTO_KEY_DERIVATION_INPUT_BYTES_SID 0 0 operation)) [data].
Definition psa_key_derivation_output_key (attributes : psa_client_key_attributes) (operation key_id : Z) :
    API (psa_status_t * Z) :=
  API_DISPATCH (packed TFM_CRYPTO_KEY_DERIVATION_OUTPUT_KEY_SID 0 0 operation) [client_attr_bytes attributes] [u32_bytes key_id] key_id (number 0).

(** *** Functions of the API that are not there *)
Definition not_supported : API psa_status_t := fun w => (PSA_ERROR_NOT_SUPPORTED, w).
Definition psa_set_key_domain_parameters : API psa_status_t := not_supported.
Definition psa_get_key_domain_parameters : API psa_status_t := not_supported.
Definition psa_aead_update_ad : API psa_status_t := not_supported.
Definition psa_aead_finish : API psa_status_t := not_supported.
Definition psa_aead_verify : API psa_status_t := not_supported.
Definition psa_aead_abort : API psa_status_t := not_supported.
Definition psa_mac_compute : API psa_status_t := not_supported.
Definition psa_mac_verify : API psa_status_t := not_supported.
Definition psa_cipher_encrypt : API psa_status_t := not_supported.
Definition psa_cipher_decrypt : API psa_status_t := not_supported.
Definition psa_aead_encrypt_setup : API psa_status_t := not_supported.
Definition psa_aead_decrypt_setup : API psa_status_t := not_supported.
Definition psa_aead_generate_nonce : API psa_status_t := not_supported.
Definition psa_aead_set_nonce : API psa_status_t := not_supported.
Definition psa_aead_set_lengths : API psa_status_t := not_supported.
Definition psa_aead_update : API psa_status_t := not_supported.
End Api.
End Secure.

(** tfm_crypto_ipc_api.c: no output vector goes with a key agreement. *)
Module NonSecure.
Section Api.
Context {W : Type} (psa_connect : W -> bool * W) (psa_close : W -> W).
Context (psa_call : list (list Z) -> list (list Z) -> W -> psa_status_t * list outvec * W).

Definition psa_key_derivation_key_agreement (operation step private_key : Z) (peer_key : list Z) : API psa_status_t :=
  API_DISPATCH_NO_OUTVEC psa_connect psa_close psa_call
    (with_step step (packed TFM_CRYPTO_KEY_DERIVATION_KEY_AGREEMENT_SID private_key 0 operation)) [peer_key].
End Api.
End NonSecure.

(** ** The service behind the calls

    The call of client [c] is delivered to the service: the connection is
    there, and what the service writes goes to the front of the buffers of the
    client. *)
Section Service.
Context {C : PsaCrypto}.

Definition connected (s : crypto_state) : bool * crypto_state := (true, s).
Definition closed (s : crypto_state) : crypto_state := s.
Definition received (new : option (Z * list Z)) (old : list Z) : outvec :=
  match new with
  | Some (_, l) => {| o_bytes := splice old 0 l; o_len := Z.of_nat (length l) |}
  | None => {| o_bytes := old; o_len := 0 |}
  end.
Definition service_call (c : Z) (ins outs : list (list Z)) (s : crypto_state) :
    psa_status_t * list outvec * crypto_state :=
  let '(status, s') := tfm_crypto_ipc_handler
    {| client_id := c; in_data := ins; out_size := map (fun l => Z.of_nat (length l)) outs |} s in
  (status, imap (fun i old => received (written s' !! i) old) outs, s').
End Service.
