(* ===== verification/CryptoTheorems.v ===== *)
(** * Crypto: the theorems

    Requests of any client keep the tables of the service in order and leave
    alone what belongs to other clients; a hash computed in steps is the hash
    of all its data, whatever other clients do between the steps. *)

From Stdlib Require Import ZArith List Lia Bool.
From stdpp Require Import base tactics list.
From S2P Require Import Prelude ItsUtils Crypto CryptoKeys CryptoOps CryptoSpec CryptoApi.
Import ListNotations.
Local Open Scope Z_scope.

Section Run.
Context {C : PsaCrypto} {L : PsaCryptoLaws C}.

(** ** The arguments of the hash functions *)
Definition hash_iov (sfn alg handle : Z) : tfm_crypto_pack_iovec :=
  {| sfn_id := sfn; step := 0; key_id := 0; iov_alg := alg; op_handle := handle; capacity := 0;
     nonce := repeat 0 16; nonce_length := 0 |}.

Lemma bytes_iov_bytes sfn alg h rest : 0 <= sfn < 2 ^ 32 -> 0 <= alg < 2 ^ 32 -> 0 <= h < 2 ^ 32 ->
  bytes_iov (iov_bytes (hash_iov sfn alg h) ++ rest) = hash_iov sfn alg h.
Proof.
  intros H1 H2 H3. unfold hash_iov at 2. rewrite <- (le_val_bytes_u32 sfn H1) at 2.
  rewrite <- (le_val_bytes_u32 alg H2) at 2. rewrite <- (le_val_bytes_u32 h H3) at 2. reflexivity.
Qed.

Lemma splice_0 l new : splice l 0 new = new ++ drop (length new) l.
Proof. reflexivity. Qed.

Lemma parse_run m s sfn alg h ds : in_data m = iov_bytes (hash_iov sfn alg h) :: ds ->
  0 <= sfn < TFM_CRYPTO_SID_MAX -> 0 <= alg < 2 ^ 32 -> 0 <= h < 2 ^ 32 ->
  tfm_crypto_parse_msg m s = (Ok sfn, set_iov (hash_iov sfn alg h) s).
Proof.
  intros Hm H1 H2 H3. unfold tfm_crypto_parse_msg. rewrite Hm. cbn [nth]. cbv zeta.
  rewrite bind_reads_eq. unfold bind at 1, modify at 1. rewrite splice_0. cbv beta iota.
  change (firstn 44 (iov_bytes (hash_iov sfn alg h))) with (iov_bytes (hash_iov sfn alg h)).
  change (TFM_CRYPTO_SID_MAX) with 65 in H1.
  rewrite bytes_iov_bytes by lia. change (negb _) with false. unfold read_iov. cbv iota.
  rewrite bind_reads_eq. cbn [iov set_iov hash_iov sfn_id]. change TFM_CRYPTO_SID_MAX with 65.
  destruct (Z.geb_spec sfn 65); [lia|done].
Qed.

(** ** Runs of the primitives *)
Lemma bind_ok {A B} (m : CM A) (k : A -> CM B) s x s' : m s = (Ok x, s') -> bind m k s = k x s'.
Proof. unfold bind. by intros ->. Qed.

Lemma ignore_ok {A} (m : CM A) s x s' : m s = (Ok x, s') -> ignore m s = (Ok tt, s').
Proof. unfold ignore, attempt, bind. by intros ->. Qed.

Lemma mem_write_run off l s : l <> [] -> off + Z.of_nat (length l) <= TFM_CRYPTO_IOVEC_BUFFER_SIZE ->
  mem_write (SCRATCH off) l s = (Ok tt, scratch_write off l s).
Proof.
  intros Hl Hf. destruct l as [|b l]; [done|]. unfold mem_write. rewrite bind_reads_eq.
  by destruct (Z.leb_spec (off + Z.of_nat (length (b :: l))) TFM_CRYPTO_IOVEC_BUFFER_SIZE); [|lia].
Qed.
Lemma write32_run off v s : off + 4 <= TFM_CRYPTO_IOVEC_BUFFER_SIZE ->
  write32 (SCRATCH off) v s = (Ok tt, scratch_write off (le_bytes 4 v) s).
Proof. intros H. apply mem_write_run; [done|by rewrite length_le_bytes]. Qed.

Lemma out_at_run i v s : out_vec s !! i = Some v -> out_at i s = (Ok v, s).
Proof. intros H. unfold out_at, reads. by rewrite (nth_lookup_Some _ _ _ _ H). Qed.

(** A slot that holds an operation of the caller. *)
Definition mine (c : Z) (t : operation_type) (i : nat) (s : crypto_state) : Prop :=
  exists o, operation s !! i = Some o /\ in_use o = 1 /\ owner o = c /\ type o = t.

Lemma lookup_run c t i s : scratch_owner (scratch s) = c -> mine c t i s -> (i < TFM_CRYPTO_CONC_OPER_NUM)%nat ->
  tfm_crypto_operation_lookup t (Z.of_nat i + 1) s = (Ok i, s).
Proof.
  intros Hc (o & Hi & Hu & Hw & Ht) Hlt. unfold tfm_crypto_operation_lookup, tfm_crypto_get_caller_id, tfm_crypto_get_scratch_owner.
  rewrite !bind_reads_eq, Hc. replace (Z.to_nat (Z.of_nat i + 1 - 1)) with i by lia. rewrite (op_in_range _ _ _ Hi), Hu, Hw, Ht.
  rewrite bool_decide_true, !Z.eqb_refl by done. unfold TFM_CRYPTO_INVALID_HANDLE. rewrite (proj2 (Z.eqb_neq _ _)) by lia.
  rewrite (proj2 (Z.leb_le _ _)) by lia. done.
Qed.

Lemma alloc_run c t i s : scratch_owner (scratch s) = c -> free_operation (operation s) 0 = Some i ->
  tfm_crypto_operation_alloc t 0 s = (Ok (Z.of_nat i + 1, i),
    set_op i {| in_use := TFM_CRYPTO_IN_USE; owner := c; type := t; operation_ctx := operation_ctx (op_at i s) |} s).
Proof.
  intros Hc Hi. unfold tfm_crypto_operation_alloc, tfm_crypto_get_caller_id, tfm_crypto_get_scratch_owner.
  rewrite bind_reads_eq, Hc. change (negb _) with false. cbv iota. by rewrite bind_reads_eq, Hi.
Qed.

Lemma psa_on_run t i f s r c' e' : psa f (ctx_of t i s) (eng s) = (r, c', e') ->
  psa_on t i f s = (Ok r, put_ctx i c' (set_eng e' s)).
Proof. intros H. unfold psa_on. by rewrite bind_reads_eq, H. Qed.

Lemma release_run c i off s : scratch_owner (scratch s) = c -> (i < TFM_CRYPTO_CONC_OPER_NUM)%nat ->
  mem_read (SCRATCH off) 4 s = le_bytes 4 (Z.of_nat i + 1) -> off + 4 <= TFM_CRYPTO_IOVEC_BUFFER_SIZE ->
  in_use (op_at i s) = 1 -> owner (op_at i s) = c ->
  tfm_crypto_operation_release (SCRATCH off) s = (Ok tt, scratch_write off (le_bytes 4 0)
    (set_op i {| in_use := 0; owner := 0; type := TFM_CRYPTO_OPERATION_NONE;
                 operation_ctx := memset_operation_context (op_at i s) |} s)).
Proof.
  intros Hc Hlt Hh Hoff Hu Hw. unfold tfm_crypto_operation_release, read32, tfm_crypto_get_caller_id,
    tfm_crypto_get_scratch_owner. unfold TFM_CRYPTO_CONC_OPER_NUM in *. rewrite !bind_reads_eq, Hh.
  rewrite le_val_bytes_u32 by lia. replace (Z.to_nat (Z.of_nat i + 1 - 1)) with i by lia. rewrite Hu, Hw, Hc, Z.eqb_refl.
  unfold TFM_CRYPTO_INVALID_HANDLE. rewrite (proj2 (Z.eqb_neq _ _)), (proj2 (Z.leb_le _ _)) by lia. cbn [negb andb].
  cbv iota. rewrite ?Z.eqb_refl. cbv iota. unfold bind at 1, modify at 1. by apply write32_run.
Qed.

(** ** Reading back *)
Lemma bytes_at_splice l off new : 0 <= off -> off + Z.of_nat (length new) <= Z.of_nat (length l) ->
  bytes_at (splice l off new) off (Z.of_nat (length new)) = new.
Proof.
  intros H1 H2. unfold bytes_at, splice. rewrite drop_app_length' by (rewrite length_firstn; lia).
  rewrite Nat2Z.id. by apply take_app_length.
Qed.
Lemma bytes_at_before l off new o n : 0 <= o -> 0 <= n -> o + n <= off -> off <= Z.of_nat (length l) ->
  bytes_at (splice l off new) o n = bytes_at l o n.
Proof.
  intros H1 H2 H3 H4. unfold bytes_at, splice. rewrite drop_app_le by (rewrite length_firstn; lia).
  rewrite take_app_le by (rewrite length_drop, length_firstn; lia).
  by rewrite !take_drop_commute, take_take, Nat.min_l by lia.
Qed.
Lemma bytes_at_after l off new o n : 0 <= off -> off + Z.of_nat (length new) <= o -> off + Z.of_nat (length new) <= Z.of_nat (length l) ->
  bytes_at (splice l off new) o n = bytes_at l o n.
Proof.
  intros H1 H2 H3. unfold bytes_at. f_equal. unfold splice. rewrite app_assoc, drop_app_ge.
  - rewrite drop_drop. f_equal. rewrite length_app, length_firstn. lia.
  - rewrite length_app, length_firstn. lia.
Qed.

(** ** The hash functions, run *)
Local Notation HASH := TFM_CRYPTO_HASH_OPERATION.

Lemma validate_eq n n1 n2 k k1 k2 rest : tfm_crypto_private_check_length n n1 n2 k k1 k2 = true ->
  CRYPTO_IN_OUT_LEN_VALIDATE n n1 n2 k k1 k2 rest = rest.
Proof. unfold CRYPTO_IN_OUT_LEN_VALIDATE. by intros ->. Qed.

(** The state a secure function starts from and ends with, as far as the runs
    below look at it. *)
Definition mem_ok (s : crypto_state) : Prop := Z.of_nat (length (buf (scratch s))) = TFM_CRYPTO_IOVEC_BUFFER_SIZE.
Lemma mem_write_mem off l s : mem_ok s -> 0 <= off -> off + Z.of_nat (length l) <= TFM_CRYPTO_IOVEC_BUFFER_SIZE ->
  mem_ok (scratch_write off l s).
Proof. unfold mem_ok. intros H H1 H2. cbn. rewrite length_splice; lia. Qed.
Lemma read_written off l s : mem_ok s -> 0 <= off -> off + Z.of_nat (length l) <= TFM_CRYPTO_IOVEC_BUFFER_SIZE ->
  mem_read (SCRATCH off) (Z.of_nat (length l)) (scratch_write off l s) = l.
Proof. unfold mem_ok. intros H H1 H2. cbn. apply bytes_at_splice; lia. Qed.
Lemma read_written32 off v s : mem_ok s -> 0 <= off -> off + 4 <= TFM_CRYPTO_IOVEC_BUFFER_SIZE ->
  mem_read (SCRATCH off) 4 (scratch_write off (le_bytes 4 v) s) = le_bytes 4 v.
Proof.
  intros H H1 H2. pose proof (read_written off (le_bytes 4 v) s H H1) as Hr. rewrite length_le_bytes in Hr. by apply Hr.
Qed.

Definition vec (p : ptr) (n : Z) : psa_outvec := {| ov_base := p; ov_len := n |}.
Definition iov_vec : psa_invec := {| iv_base := IOV; iv_len := sizeof_pack_iovec |}.
Definition with_ctx (o : tfm_crypto_operation_s) (c' : list Z) : tfm_crypto_operation_s :=
  {| in_use := in_use o; owner := owner o; type := type o; operation_ctx := splice (operation_ctx o) 0 c' |}.
Definition hash_op (c : Z) (ctx : list Z) : tfm_crypto_operation_s :=
  {| in_use := 1; owner := c; type := HASH; operation_ctx := ctx |}.

Lemma put_ctx_eq i c' o s : op_at i s = o -> put_ctx i c' s = set_op i (with_ctx o c') s.
Proof. intros <-. reflexivity. Qed.

Lemma hash_setup_run c alg i ctx vs s r c' e' : scratch_owner (scratch s) = c -> mem_ok s ->
  out_vec s = vec (SCRATCH 0) 4 :: vs -> iov s = hash_iov 12 alg 0 ->
  free_operation (operation s) 0 = Some i -> operation_ctx (op_at i s) = ctx ->
  psa (psa_hash_setup alg) (firstn (sizeof_operation HASH) ctx) (eng s) = (r, c', e') -> r_status r = PSA_SUCCESS ->
  exists s', tfm_crypto_hash_setup [iov_vec] 1 1 s = (Ok tt, s') /\
    operation s' = <[i := hash_op c (splice ctx 0 c')]> (operation s) /\ eng s' = e' /\ out_vec s' = out_vec s /\
    mem_read (SCRATCH 0) 4 s' = le_bytes 4 (Z.of_nat i + 1).
Proof.
  intros Hc Hm Hv Hiov Hi Hctx Hpsa Hr. unfold tfm_crypto_hash_setup.
  rewrite validate_eq by done. rewrite (bind_ok _ _ _ _ _ (out_at_run 0 _ s ltac:(by rewrite Hv))).
  cbn [ov_len vec]. change (negb (4 =? 4) || negb (iov_sized [iov_vec])) with false. cbv iota. unfold read_iov. rewrite bind_reads_eq, Hiov.
  cbn [op_handle hash_iov ov_base vec iov_alg].
  rewrite (bind_ok _ _ _ _ _ (write32_run 0 0 s ltac:(done))). set (s1 := scratch_write 0 (le_bytes 4 0) s).
  assert (Hm1 : mem_ok s1) by (apply mem_write_mem; by rewrite ?length_le_bytes).
  rewrite (bind_ok _ _ _ _ _ (alloc_run c HASH i s1 Hc Hi)). cbv iota beta.
  set (s2 := set_op i _ s1). rewrite (bind_ok _ _ _ _ _ (write32_run 0 _ s2 ltac:(done))).
  set (s3 := scratch_write 0 _ s2). destruct (free_operation_some _ _ _ Hi) as (o & _ & Ho & _). rewrite Nat.sub_0_r in Ho.
  assert (Hop : op_at i s3 = hash_op c ctx).
  { apply op_in_range. cbn. rewrite list_lookup_insert_eq by (by eapply lookup_lt_Some). by rewrite <- Hctx. }
  rewrite (bind_ok _ _ _ _ _ (psa_on_run HASH i (psa_hash_setup alg) s3 r c' e' ltac:(unfold ctx_of; rewrite Hop; exact Hpsa))).
  rewrite Hr, (put_ctx_eq _ _ (hash_op c ctx)) by exact Hop. eexists. split; [reflexivity|].
  split; [cbn; by rewrite list_insert_insert_eq|].
  split; [done|]. split; [done|]. exact (read_written32 0 _ s2 Hm1 ltac:(done) ltac:(done)).
Qed.

Definition set_out_len_at (i : nat) (n : Z) (s : crypto_state) : crypto_state :=
  set_out_vec (alter (fun v => {| ov_base := ov_base v; ov_len := n |}) i (out_vec s)) s.

Lemma own_mine c ctx i s : operation s !! i = Some (hash_op c ctx) -> mine c HASH i s.
Proof. intros H. by exists (hash_op c ctx). Qed.
Lemma own_ctx c ctx i s : operation s !! i = Some (hash_op c ctx) -> ctx_of HASH i s = firstn (sizeof_operation HASH) ctx.
Proof. intros H. unfold ctx_of. by rewrite (op_in_range _ _ _ H). Qed.

Lemma hash_update_run c i ctx ins n off data vs s r c' e' : scratch_owner (scratch s) = c -> 1 <= n <= 2 ->
  (i < TFM_CRYPTO_CONC_OPER_NUM)%nat -> off + 4 <= TFM_CRYPTO_IOVEC_BUFFER_SIZE ->
  out_vec s = vec (SCRATCH off) 4 :: vs -> iov s = hash_iov 13 0 (Z.of_nat i + 1) ->
  operation s !! i = Some (hash_op c ctx) ->
  mem_read (iv_base (in_at 1 (iov_vec :: ins))) (iv_len (in_at 1 (iov_vec :: ins)))
    (scratch_write off (le_bytes 4 (Z.of_nat i + 1)) s) = data ->
  psa (psa_hash_update data) (firstn (sizeof_operation HASH) ctx) (eng s) = (r, c', e') -> r_status r = PSA_SUCCESS ->
  mem_ok s -> 0 <= off ->
  exists s', tfm_crypto_hash_update (iov_vec :: ins) n 1 s = (Ok tt, s') /\
    operation s' = <[i := hash_op c (splice ctx 0 c')]> (operation s) /\ eng s' = e' /\ out_vec s' = out_vec s /\
    mem_read (SCRATCH off) 4 s' = le_bytes 4 (Z.of_nat i + 1).
Proof.
  intros Hc Hn Hlt Hoff Hv Hiov Hop Hin Hpsa Hr Hm Hoff0. unfold tfm_crypto_hash_update.
  rewrite validate_eq by (assert (n = 1 \/ n = 2) as [-> | ->] by lia; done).
  rewrite (bind_ok _ _ _ _ _ (out_at_run 0 _ s ltac:(by rewrite Hv))). cbn [ov_len vec].
  change (negb (iov_sized (iov_vec :: ins)) || negb (4 =? 4)) with false. cbv iota.
  unfold read_iov. rewrite bind_reads_eq, Hiov. cbn [op_handle hash_iov ov_base vec].
  rewrite (bind_ok _ _ _ _ _ (write32_run off _ s Hoff)). set (s1 := scratch_write off _ s) in Hin |- *.
  rewrite (bind_ok _ _ _ _ _ (lookup_run c HASH i s1 Hc (own_mine _ _ _ s1 Hop) Hlt)).
  unfold read_in. rewrite bind_reads_eq, Hin.
  rewrite (bind_ok _ _ _ _ _ (psa_on_run HASH i _ s1 r c' e' ltac:(rewrite (own_ctx _ _ _ s1 Hop); exact Hpsa))).
  rewrite Hr, (put_ctx_eq _ _ (hash_op c ctx)) by exact (op_in_range s1 i _ Hop).
  eexists. split; [reflexivity|]. split; [done|]. split; [done|]. split; [done|]. by apply (read_written32 off).
Qed.

Lemma hash_finish_run c i ctx size vs s r c' e' : scratch_owner (scratch s) = c -> mem_ok s ->
  (i < TFM_CRYPTO_CONC_OPER_NUM)%nat -> 4 + Z.of_nat (length (r_out r)) <= TFM_CRYPTO_IOVEC_BUFFER_SIZE ->
  out_vec s = vec (SCRATCH 0) 4 :: vec (SCRATCH 4) size :: vs -> iov s = hash_iov 14 0 (Z.of_nat i + 1) ->
  operation s !! i = Some (hash_op c ctx) ->
  psa (psa_hash_finish size) (firstn (sizeof_operation HASH) ctx) (eng s) = (r, c', e') ->
  r_status r = PSA_SUCCESS -> r_out r <> [] ->
  exists s', tfm_crypto_hash_finish [iov_vec] 1 2 s = (Ok tt, s') /\
    (exists x, operation s' = <[i := {| in_use := 0; owner := 0; type := TFM_CRYPTO_OPERATION_NONE; operation_ctx := x |}]> (operation s)) /\
    eng s' = e' /\ out_vec s' = vec (SCRATCH 0) 4 :: vec (SCRATCH 4) (Z.of_nat (length (r_out r))) :: vs /\
    mem_read (SCRATCH 0) 4 s' = le_bytes 4 0 /\ mem_read (SCRATCH 4) (Z.of_nat (length (r_out r))) s' = r_out r.
Proof.
  intros Hc Hm Hlt Hfit Hv Hiov Hop Hpsa Hr Hne. unfold tfm_crypto_hash_finish. rewrite validate_eq by done.
  rewrite (bind_ok _ _ _ _ _ (out_at_run 0 _ s ltac:(by rewrite Hv))). cbn [ov_len vec].
  change (negb (iov_sized [iov_vec]) || negb (4 =? 4)) with false. cbv iota.
  unfold read_iov. rewrite bind_reads_eq, Hiov. rewrite (bind_ok _ _ _ _ _ (out_at_run 1 _ s ltac:(by rewrite Hv))).
  cbn [op_handle hash_iov ov_base ov_len vec]. rewrite (bind_ok _ _ _ _ _ (write32_run 0 _ s ltac:(done))).
  set (s1 := scratch_write 0 _ s). assert (Hm1 : mem_ok s1) by (apply mem_write_mem; by rewrite ?length_le_bytes).
  unfold bind at 1, set_out_len at 1, modify at 1. cbv iota beta. set (s2 := set_out_vec _ s1).
  rewrite (bind_ok _ _ _ _ _ (lookup_run c HASH i s2 Hc (own_mine _ _ _ s2 Hop) Hlt)).
  rewrite (bind_ok _ _ _ _ _ (psa_on_run HASH i _ s2 r c' e' ltac:(rewrite (own_ctx _ _ _ s2 Hop); exact Hpsa))).
  rewrite (put_ctx_eq _ _ (hash_op c ctx)) by exact (op_in_range s2 i _ Hop). set (s3 := set_op i _ _).
  assert (Hlen : (i < length (operation s))%nat) by (by eapply lookup_lt_Some).
  unfold put_output. rewrite (bind_ok _ _ s3 tt (set_out_len_at 1 (Z.of_nat (length (r_out r))) (scratch_write 4 (r_out r) s3))).
  2: { rewrite (bind_ok _ _ _ _ _ (mem_write_run 4 _ s3 Hne Hfit)). reflexivity. }
  set (s4 := set_out_len_at _ _ _).
  assert (Hm4 : mem_ok s4) by (apply (mem_write_mem 4 (r_out r) s3 Hm1); lia).
  assert (Hh : mem_read (SCRATCH 0) 4 s4 = le_bytes 4 (Z.of_nat i + 1)).
  { cbn. rewrite bytes_at_before; [|lia..|]. 2: { unfold mem_ok in Hm1. cbn in Hm1. rewrite Hm1. done. }
    exact (read_written32 0 _ s Hm ltac:(done) ltac:(done)). }
  assert (Ho4 : op_at i s4 = with_ctx (hash_op c ctx) c').
  { apply op_in_range. cbn. by rewrite list_lookup_insert_eq. }
  pose proof (release_run c i 0 s4 Hc Hlt Hh ltac:(done) ltac:(by rewrite Ho4) ltac:(by rewrite Ho4)) as Hrel.
  rewrite Hr. unfold release_if. change (0 =? PSA_SUCCESS) with true. cbv iota.
  rewrite (bind_ok _ _ _ _ _ (ignore_ok _ _ _ _ Hrel)).
  eexists. split; [reflexivity|]. split; [|split; [done|]].
  { eexists. cbn. by rewrite list_insert_insert_eq. }
  split; [cbn; by rewrite Hv|]. split; [by apply read_written32|].
  change (bytes_at (splice (buf (scratch s4)) 0 (le_bytes 4 0)) 4 (Z.of_nat (length (r_out r))) = r_out r).
  rewrite bytes_at_after by (rewrite ?length_le_bytes, ?Hm4; done). apply (read_written 4 (r_out r) s3 Hm1); lia.
Qed.

(** ** A request, run *)
Lemma scratch_alloc_run n s : scratch_ok (scratch s) -> 0 <= n -> 
  alloc_index (scratch s) + align4 n <= TFM_CRYPTO_IOVEC_BUFFER_SIZE ->
  exists s', tfm_crypto_alloc_scratch n s = (Ok (SCRATCH (alloc_index (scratch s))), s') /\ fills s s' /\
    buf (scratch s') = buf (scratch s) /\ alloc_index (scratch s') = alloc_index (scratch s) + align4 n.
Proof.
  intros Hs Hn Hfit. pose proof (so_index _ Hs) as Hi. pose proof (align4_bounds n) as [Hb _].
  unfold TFM_CRYPTO_IOVEC_BUFFER_SIZE in *.
  pose proof (alloc_scratch_spec s n Hs ltac:(lia)) as H. unfold wp in H. rewrite alloc_scratch_run in * by (done || lia).
  destruct (Z.gtb_spec (align4 n) (TFM_CRYPTO_IOVEC_BUFFER_SIZE - alloc_index (scratch s)));
    [unfold TFM_CRYPTO_IOVEC_BUFFER_SIZE in *; lia|]. eexists. split; [reflexivity|]. by destruct H as (H1 & _ & _ & H4 & H5).
Qed.

Definition started (c : Z) (outs : list psa_outvec) (s : crypto_state) : crypto_state :=
  snd (tfm_crypto_set_scratch_owner c (set_out_vec (outs ++ repeat no_out (PSA_MAX_IOVEC - length outs)) s)).
Definition answers (n : nat) (s : crypto_state) : list (Z * list Z) :=
  imap (fun i v => (Z.of_nat i, mem_read (ov_base v) (ov_len v) s)) (firstn n (out_vec s)).
Lemma answers_one p n vs s : out_vec s = vec p n :: vs -> answers 1 s = [(0, mem_read p n s)].
Proof. unfold answers. by intros ->. Qed.
Lemma answers_two p n q k vs s : out_vec s = vec p n :: vec q k :: vs ->
  answers 2 s = [(0, mem_read p n s); (1, mem_read q k s)].
Proof. unfold answers. by intros ->. Qed.
Definition finished (n : nat) (s : crypto_state) : crypto_state :=
  snd (tfm_crypto_clear_scratch (set_written (answers n s) s)).

Definition status_of (r : res unit) : psa_status_t := match r with Ok _ => PSA_SUCCESS | Err e => e end.

Lemma call_run m sfn n ins outs s s1 s2 s3 r : count_vecs (in_size m) PSA_MAX_IOVEC = S n ->
  count_vecs (fun i => nth i (out_size m) 0) PSA_MAX_IOVEC = length outs ->
  read_vecs m n 1 s = (Ok ins, s1) -> alloc_out m (length outs) 0 s1 = (Ok outs, s2) ->
  nth (Z.to_nat sfn) sfid_func_table not_supported (iov_vec :: ins) (Z.of_nat (S n)) (Z.of_nat (length outs))
    (started (client_id m) outs s2) = (r, s3) ->
  tfm_crypto_call_sfn m sfn s = (r, finished (length outs) s3).
Proof.
  intros Hin Hout Hr Ha Hf. unfold tfm_crypto_call_sfn. rewrite Hin, Hout. change (S n <? 1)%nat with false. cbv iota.
  replace (S n - 1)%nat with n by lia. unfold bind at 1, attempt at 1. rewrite Hr. unfold bind at 1, attempt at 1. rewrite Ha.
  unfold bind at 1, modify at 1. cbv iota beta. unfold bind at 1, tfm_crypto_set_scratch_owner at 1, modify at 1. cbv iota beta.
  unfold bind at 1, attempt at 1. fold iov_vec. unfold started, tfm_crypto_set_scratch_owner, modify in Hf. cbn [snd] in Hf.
  fold no_out. rewrite Hf. by destruct r as [[]|e].
Qed.

Definition hash_msg (c sfn alg h : Z) (ds : list (list Z)) (outs : list Z) : psa_msg :=
  {| client_id := c; in_data := iov_bytes (hash_iov sfn alg h) :: ds; out_size := outs |}.
(** The state in which the first vectors are read. *)
Definition parsed (v : tfm_crypto_pack_iovec) (s : crypto_state) : crypto_state := set_iov v (set_written [] s).

Lemma handler_run c sfn alg h ds os n ins outs s s1 s2 s3 r : let m := hash_msg c sfn alg h ds os in
  0 <= sfn < TFM_CRYPTO_SID_MAX -> 0 <= alg < 2 ^ 32 -> 0 <= h < 2 ^ 32 ->
  count_vecs (in_size m) PSA_MAX_IOVEC = S n ->
  count_vecs (fun i => nth i os 0) PSA_MAX_IOVEC = length outs ->
  read_vecs m n 1 (parsed (hash_iov sfn alg h) s) = (Ok ins, s1) -> alloc_out m (length outs) 0 s1 = (Ok outs, s2) ->
  nth (Z.to_nat sfn) sfid_func_table not_supported (iov_vec :: ins) (Z.of_nat (S n)) (Z.of_nat (length outs))
    (started c outs s2) = (r, s3) ->
  tfm_crypto_ipc_handler m s = (status_of r, finished (length outs) s3).
Proof.
  intros m H1 H2 H3 Hin Hout Hr Ha Hf. unfold tfm_crypto_ipc_handler, serve_call.
  rewrite (bind_ok _ _ _ _ _ (parse_run m _ sfn alg h ds eq_refl H1 H2 H3)).
  pose proof (call_run m sfn n ins outs _ s1 s2 s3 r Hin Hout Hr Ha Hf) as Hcall. unfold parsed in Hcall.
  cbv beta. rewrite Hcall. by destruct r.
Qed.

Lemma parsed_idle v s : idle s -> scratch_ok (scratch (parsed v s)) /\ alloc_index (scratch (parsed v s)) = 0.
Proof. intros [H1 H2 _]. split; [apply H1|exact H2]. Qed.
Lemma fills_mem s s' : fills s s' -> mem_ok s'.
Proof. intros H. apply (so_len _ (fl_ok _ _ H)). Qed.
End Run.

(** ** Hash sessions *)
(** What the library promises of a hash: [absorbed alg d ctx] says that the
    context is that of a hash by [alg] which has taken the bytes [d]. *)
Class HashLaws (C : PsaCrypto) := {
  digest : Z -> list Z -> list Z;
  hash_supported : Z -> Prop;
  absorbed : Z -> list Z -> list Z -> Prop;
  hash_setup_law alg e : hash_supported alg ->
    let '(r, c, _) := psa (psa_hash_setup alg) (repeat 0 (sizeof_operation TFM_CRYPTO_HASH_OPERATION)) e in
    r_status r = PSA_SUCCESS /\ absorbed alg [] c;
  hash_update_law alg d data c e : absorbed alg d c ->
    let '(r, c', _) := psa (psa_hash_update data) c e in
    r_status r = PSA_SUCCESS /\ absorbed alg (d ++ data) c';
  hash_finish_law alg d size c e : absorbed alg d c -> Z.of_nat (length (digest alg d)) <= size ->
    let '(r, _, _) := psa (psa_hash_finish size) c e in r_status r = PSA_SUCCESS /\ r_out r = digest alg d
}.

Section Session.
Context {C : PsaCrypto} {L : PsaCryptoLaws C} {HL : HashLaws C}.
Local Notation HASH := TFM_CRYPTO_HASH_OPERATION.

Definition hash_setup_msg (c alg : Z) : psa_msg := hash_msg c 12 alg 0 [] [4].
Definition hash_update_msg (c h : Z) (data : list Z) : psa_msg := hash_msg c 13 0 h [data] [4].
Definition hash_finish_msg (c h size : Z) : psa_msg := hash_msg c 14 0 h [] [4; size].

(** Slot [i] holds a hash of client [c] that has taken [d]. *)
Definition hashing (c : Z) (i : nat) (alg : Z) (d : list Z) (s : crypto_state) : Prop :=
  exists ctx, operation s !! i = Some (hash_op c ctx) /\ absorbed alg d (firstn (sizeof_operation HASH) ctx).

Lemma sizeof_hash_le : (sizeof_operation HASH <= sizeof_ctx)%nat.
Proof. unfold sizeof_ctx. lia. Qed.

Lemma new_context f (ctx : list Z) e r c' e' : length ctx = sizeof_ctx ->
  psa f (firstn (sizeof_operation HASH) ctx) e = (r, c', e') ->
  firstn (sizeof_operation HASH) (splice ctx 0 c') = c'.
Proof.
  intros Hl Hp. pose proof (psa_ctx_len f (firstn (sizeof_operation HASH) ctx) e) as Hlen. rewrite Hp, length_firstn in Hlen.
  cbn in Hlen. pose proof sizeof_hash_le. rewrite splice_0. apply take_app_length'. lia.
Qed.

Lemma hash_slot_len c i ctx s : crypto_ok s -> operation s !! i = Some (hash_op c ctx) ->
  (i < TFM_CRYPTO_CONC_OPER_NUM)%nat /\ length ctx = sizeof_ctx.
Proof.
  intros Hs Hi. split; [rewrite <- (ck_ops _ Hs); by eapply lookup_lt_Some|].
  pose proof (ck_op _ Hs) as H. eapply Forall_lookup_1 in H; [|exact Hi]. apply H.
Qed.

Lemma alloc_four m s : nth 0 (out_size m) 0 = 4 -> scratch_ok (scratch s) ->
  alloc_index (scratch s) + 4 <= TFM_CRYPTO_IOVEC_BUFFER_SIZE ->
  exists s', alloc_out m 1 0 s = (Ok [vec (SCRATCH (alloc_index (scratch s))) 4], s') /\ fills s s' /\
    buf (scratch s') = buf (scratch s).
Proof.
  intros H0 Hs Hfit. destruct (scratch_alloc_run 4 s Hs ltac:(done) Hfit) as (s1 & H1 & Hf & Hb & _).
  exists s1. split; [|done]. cbn [alloc_out]. rewrite H0, (bind_ok _ _ _ _ _ H1). reflexivity.
Qed.

Lemma started_parts c outs s : operation (started c outs s) = operation s /\ eng (started c outs s) = eng s /\
  iov (started c outs s) = iov s /\ scratch_owner (scratch (started c outs s)) = c /\
  buf (scratch (started c outs s)) = buf (scratch s).
Proof. done. Qed.

Lemma fills_parts s s' : fills s s' -> operation s' = operation s /\ eng s' = eng s /\ iov s' = iov s.
Proof. intros [-> _ _ _]. done. Qed.

Lemma setup_request c alg i s : idle s -> free_operation (operation s) 0 = Some i -> hash_supported alg ->
  0 <= alg < 2 ^ 32 ->
  exists s', tfm_crypto_ipc_handler (hash_setup_msg c alg) s = (PSA_SUCCESS, s') /\
    written s' = [(0, le_bytes 4 (Z.of_nat i + 1))] /\ hashing c i alg [] s'.
Proof.
  intros Hid Hi Hsup Halg. destruct (parsed_idle (hash_iov 12 alg 0) s Hid) as [Hs0 Hx0].
  destruct (alloc_four (hash_setup_msg c alg) _ eq_refl Hs0 ltac:(by rewrite Hx0)) as (s2 & Ha & Hf & Hb).
  rewrite Hx0 in Ha. destruct (fills_parts _ _ Hf) as (Eo & Ee & Ei).
  destruct (free_operation_some _ _ _ Hi) as (o & _ & Ho & Hu & _). rewrite Nat.sub_0_r in Ho.
  pose proof (ck_op _ (id_ok _ Hid)) as Hc. eapply Forall_lookup_1 in Hc; [|exact Ho].
  destruct Hc as [Hlen [(_ & _ & _ & Hz)|(H1 & _)]]; [|congruence].
  pose proof (hash_setup_law alg (eng s) Hsup) as Hlaw.
  assert (Hz' : firstn (sizeof_operation HASH) (operation_ctx o) = repeat 0 (sizeof_operation HASH)).
  { pose proof sizeof_hash_le. rewrite Hz, (le_zeros _ _ sizeof_hash_le). apply take_app_length'. by rewrite repeat_length. }
  destruct (psa (psa_hash_setup alg) _ (eng s)) as [[r c'] e'] eqn:Hp. destruct Hlaw as [Hr Habs].
  set (s2' := started c [vec (SCRATCH 0) 4] s2).
  destruct (hash_setup_run c alg i (operation_ctx o) (repeat no_out 3) s2' r c' e') as (s3 & Hrun & Ko & _ & Kv & Km);
    [done|exact (fills_mem _ _ Hf)|done|cbn; by rewrite Ei|cbn; by rewrite Eo|by rewrite (op_in_range s2' i o (eq_trans (f_equal (lookup i) Eo) Ho))
    |by rewrite Hz'; cbn; rewrite Ee|done|].
  exists (finished 1 s3). split; [|split].
  - eapply (handler_run c 12 alg 0 [] [4] 0 [] [vec (SCRATCH 0) 4] _ _ _ _ (Ok tt)); [done|done|done|done|done|reflexivity|exact Ha|exact Hrun].
  - change (answers 1 s3 = [(0, le_bytes 4 (Z.of_nat i + 1))]). by rewrite (answers_one _ _ _ _ Kv), Km.
  - exists (splice (operation_ctx o) 0 c'). cbn. rewrite Ko. cbn. rewrite Eo, list_lookup_insert_eq by (by eapply lookup_lt_Some).
    split; [done|]. rewrite <- Hz' in Hp. by rewrite (new_context _ _ _ _ _ _ Hlen Hp).
Qed.

(** The vector of the data of an update: none when there are no data. *)
Definition data_vec (data : list Z) : list psa_invec :=
  match data with [] => [] | _ => [{| iv_base := SCRATCH 0; iv_len := Z.of_nat (length data) |}] end.

Lemma read_data m hd data s : in_data m = [hd; data] -> hd <> [] -> scratch_ok (scratch s) -> alloc_index (scratch s) = 0 ->
  align4 (Z.of_nat (length data)) <= TFM_CRYPTO_IOVEC_BUFFER_SIZE ->
  exists s1, count_vecs (in_size m) PSA_MAX_IOVEC = S (length (data_vec data)) /\
    read_vecs m (length (data_vec data)) 1 s = (Ok (data_vec data), s1) /\ fills s s1 /\
    alloc_index (scratch s1) = align4 (Z.of_nat (length data)) /\
    (data <> [] -> mem_read (SCRATCH 0) (Z.of_nat (length data)) s1 = data).
Proof.
  intros Hin Hhd Hs Hx Hfit. assert (H0 : in_size m 0 =? 0 = false).
  { unfold in_size. rewrite Hin. destruct hd; [done|]. cbn [nth length]. apply Z.eqb_neq. lia. }
  assert (H23 : (in_size m 3 =? 0) = true /\ (in_size m 2 =? 0) = true) by (unfold in_size; by rewrite Hin).
  destruct H23 as [H3 H2']. unfold PSA_MAX_IOVEC. cbn [count_vecs]. rewrite H3, H2', H0.
  destruct data as [|b data].
  { exists s. unfold in_size. rewrite Hin. by pose proof (fills_refl s Hs). }
  set (d := b :: data) in *. pose proof (align4_bounds (Z.of_nat (length d))) as [Hb _].
  destruct (scratch_alloc_run (Z.of_nat (length d)) s Hs ltac:(lia) ltac:(rewrite Hx; lia)) as (s1 & H1 & Hf & Hbuf & Hi).
  rewrite Hx in H1, Hi. rewrite Z.add_0_l in Hi. exists (scratch_write 0 d s1).
  pose proof (mem_write_run 0 d s1 ltac:(done) ltac:(lia)) as Hw.
  assert (Hd : in_size m 1 = Z.of_nat (length d)) by (unfold in_size; by rewrite Hin).
  split; [|split; [|split; [|split; [exact Hi|]]]].
  - rewrite Hd. reflexivity.
  - cbn [data_vec d length read_vecs]. fold d. rewrite Hd, (bind_ok _ _ _ _ _ H1).
    replace (nth 1 (in_data m) []) with d by (by rewrite Hin). by rewrite (bind_ok _ _ _ _ _ Hw).
  - eapply fills_trans; [exact Hf|]. split; [done| |done|done]. apply scratch_write_ok; [apply Hf|done|lia].
  - intros _. apply read_written; [by eapply fills_mem|done|lia].
Qed.

Lemma update_request c alg i d data s : idle s -> hashing c i alg d s ->
  align4 (Z.of_nat (length data)) + 4 <= TFM_CRYPTO_IOVEC_BUFFER_SIZE ->
  exists s', tfm_crypto_ipc_handler (hash_update_msg c (Z.of_nat i + 1) data) s = (PSA_SUCCESS, s') /\
    written s' = [(0, le_bytes 4 (Z.of_nat i + 1))] /\ hashing c i alg (d ++ data) s'.
Proof.
  intros Hid (ctx & Hop & Habs) Hfit. destruct (hash_slot_len _ _ _ _ (id_ok _ Hid) Hop) as [Hlt Hlen].
  set (h := Z.of_nat i + 1). assert (Hh : 0 <= h < 2 ^ 32) by (unfold TFM_CRYPTO_CONC_OPER_NUM in Hlt; lia).
  set (m := hash_update_msg c h data). destruct (parsed_idle (hash_iov 13 0 h) s Hid) as [Hs0 Hx0].
  destruct (read_data m _ data _ eq_refl ltac:(done) Hs0 Hx0 ltac:(lia)) as (s1 & Hcount & Hread & Hf1 & Hx1 & Hd).
  destruct (alloc_four m s1 eq_refl (fl_ok _ _ Hf1) ltac:(by rewrite Hx1)) as (s2 & Ha & Hf2 & Hb2). rewrite Hx1 in Ha.
  pose proof (fills_trans _ _ _ Hf1 Hf2) as Hf. destruct (fills_parts _ _ Hf) as (Eo & Ee & Ei).
  set (off := align4 (Z.of_nat (length data))) in *. pose proof (align4_bounds (Z.of_nat (length data))) as [Hoff _]. fold off in Hoff.
  pose proof (hash_update_law alg d data _ (eng s) Habs) as Hlaw.
  destruct (psa (psa_hash_update data) _ (eng s)) as [[r c'] e'] eqn:Hp. destruct Hlaw as [Hr Habs'].
  set (s2' := started c [vec (SCRATCH off) 4] s2).
  destruct (hash_update_run c i ctx (data_vec data) (Z.of_nat (S (length (data_vec data)))) off data (repeat no_out 3) s2' r c' e')
    as (s3 & Hrun & Ko & _ & Kv & Km);
    [done|destruct data; cbn; lia|done|lia|done|cbn; by rewrite Ei|cbn; by rewrite Eo| |cbn; by rewrite Ee|done
    |exact (fills_mem _ _ Hf)|lia|].
  { destruct data as [|b data]; [done|]. cbn [in_at nth data_vec iv_base iv_len]. cbn [mem_read scratch_write scratch set_scratch buf].
    pose proof (fills_mem _ _ Hf) as Hm. unfold mem_ok in Hm. cbn [s2' started snd scratch buf].
    change (buf (scratch s2')) with (buf (scratch s2)).
    rewrite bytes_at_before by lia. rewrite Hb2. by apply Hd. }
  exists (finished 1 s3). split; [|split].
  - eapply (handler_run c 13 0 h [data] [4] (length (data_vec data)) (data_vec data) [vec (SCRATCH off) 4] _ _ _ _ (Ok tt));
      [done|done|exact Hh|exact Hcount|done|exact Hread|exact Ha|exact Hrun].
  - change (answers 1 s3 = [(0, le_bytes 4 h)]). by rewrite (answers_one _ _ _ _ Kv), Km.
  - exists (splice ctx 0 c'). cbn. rewrite Ko. cbn. rewrite Eo, list_lookup_insert_eq by (by eapply lookup_lt_Some).
    split; [done|]. by rewrite (new_context _ _ _ _ _ _ Hlen Hp).
Qed.

Lemma lookup_refused t h s : 0 <= h ->
  (forall i, mine (scratch_owner (scratch s)) t i s -> h <> Z.of_nat i + 1) ->
  tfm_crypto_operation_lookup t h s = (Err PSA_ERROR_BAD_STATE, s).
Proof.
  intros Hh Hno. unfold tfm_crypto_operation_lookup, tfm_crypto_get_caller_id, tfm_crypto_get_scratch_owner.
  rewrite !bind_reads_eq. set (o := op_at _ s). destruct (negb _ && _ && _ && _ && _) eqn:E; [exfalso|done].
  apply andb_prop in E as [E Ew]. apply andb_prop in E as [E Et]. apply andb_prop in E as [E Eu].
  apply andb_prop in E as [E0 _]. apply Z.eqb_eq in Ew, Eu. apply bool_decide_eq_true in Et.
  apply negb_true_iff, Z.eqb_neq in E0. unfold TFM_CRYPTO_INVALID_HANDLE in E0.
  apply (Hno (Z.to_nat (h - 1))); [|lia]. exists o. by split; [apply op_at_in_use|].
Qed.

(** no client can add to a hash that is not his own. A request to update
    a hash, under any handle that is not that of a hash operation of the
    client himself - a free slot, an operation of another kind, one of
    another client, a number outside the table - is answered with
    PSA_ERROR_BAD_STATE; the library is not called and no operation
    changes. *)
Theorem crypto_update_needs_own_operation c h data s : idle s -> 0 <= h < 2 ^ 32 ->
  align4 (Z.of_nat (length data)) + 4 <= TFM_CRYPTO_IOVEC_BUFFER_SIZE ->
  (forall i, mine c HASH i s -> h <> Z.of_nat i + 1) ->
  let '(reply, s') := tfm_crypto_ipc_handler (hash_update_msg c h data) s in
  reply = PSA_ERROR_BAD_STATE /\ operation s' = operation s /\ eng s' = eng s.
Proof.
  intros Hid Hh Hfit Hno. set (m := hash_update_msg c h data).
  destruct (parsed_idle (hash_iov 13 0 h) s Hid) as [Hs0 Hx0].
  destruct (read_data m _ data _ eq_refl ltac:(done) Hs0 Hx0 ltac:(lia)) as (s1 & Hcount & Hread & Hf1 & Hx1 & _).
  destruct (alloc_four m s1 eq_refl (fl_ok _ _ Hf1) ltac:(by rewrite Hx1)) as (s2 & Ha & Hf2 & _). rewrite Hx1 in Ha.
  pose proof (fills_trans _ _ _ Hf1 Hf2) as Hf. destruct (fills_parts _ _ Hf) as (Eo & Ee & Ei).
  set (off := align4 (Z.of_nat (length data))) in *. set (s2' := started c [vec (SCRATCH off) 4] s2).
  assert (Hrun : tfm_crypto_hash_update (iov_vec :: data_vec data) (Z.of_nat (S (length (data_vec data)))) 1 s2' =
    (Err PSA_ERROR_BAD_STATE, scratch_write off (le_bytes 4 h) s2')).
  { unfold tfm_crypto_hash_update. rewrite validate_eq by (by destruct data).
    rewrite (bind_ok _ _ _ _ _ (out_at_run 0 _ s2' eq_refl)). cbn [ov_len vec].
    change (negb (iov_sized (iov_vec :: data_vec data)) || negb (4 =? 4)) with false. cbv iota.
    unfold read_iov. rewrite bind_reads_eq. replace (iov s2') with (hash_iov 13 0 h) by (symmetry; exact Ei).
    cbn [op_handle hash_iov ov_base vec]. rewrite (bind_ok _ _ _ _ _ (write32_run off h s2' Hfit)).
    unfold bind at 1. rewrite lookup_refused; [done|lia|]. intros i (o & Ho & Hm). apply Hno. exists o. split; [|exact Hm].
    cbn in Ho. by rewrite Eo in Ho. }
  unfold m, hash_update_msg. rewrite (handler_run c 13 0 h [data] [4] (length (data_vec data)) (data_vec data) [vec (SCRATCH off) 4] s s1 s2 _ _
    ltac:(done) ltac:(done) Hh Hcount ltac:(done) Hread Ha Hrun).
  split; [done|]. split; [exact Eo|exact Ee].
Qed.

Lemma finish_request c alg i d size s : idle s -> hashing c i alg d s -> digest alg d <> [] ->
  Z.of_nat (length (digest alg d)) <= size -> 4 + align4 size <= TFM_CRYPTO_IOVEC_BUFFER_SIZE ->
  exists s', tfm_crypto_ipc_handler (hash_finish_msg c (Z.of_nat i + 1) size) s = (PSA_SUCCESS, s') /\
    written s' = [(0, le_bytes 4 0); (1, digest alg d)] /\
    exists o, operation s' !! i = Some o /\ in_use o = 0.
Proof.
  intros Hid (ctx & Hop & Habs) Hne Hsize Hfit. destruct (hash_slot_len _ _ _ _ (id_ok _ Hid) Hop) as [Hlt Hlen].
  set (h := Z.of_nat i + 1). assert (Hh : 0 <= h < 2 ^ 32) by (unfold TFM_CRYPTO_CONC_OPER_NUM in Hlt; lia).
  destruct (parsed_idle (hash_iov 14 0 h) s Hid) as [Hs0 Hx0]. pose proof (align4_bounds size) as [Hb _].
  assert (Hpos : 0 < size) by (destruct (digest alg d); [done|cbn in Hsize; lia]).
  destruct (scratch_alloc_run 4 _ Hs0 ltac:(done) ltac:(by rewrite Hx0)) as (s1 & H1 & Hf1 & _ & Hx1).
  rewrite Hx0 in H1, Hx1. change (0 + align4 4) with 4 in Hx1.
  destruct (scratch_alloc_run size s1 (fl_ok _ _ Hf1) ltac:(lia) ltac:(rewrite Hx1; lia)) as (s2 & H2 & Hf2 & _ & _).
  rewrite Hx1 in H2. pose proof (fills_trans _ _ _ Hf1 Hf2) as Hf. destruct (fills_parts _ _ Hf) as (Eo & Ee & Ei).
  pose proof (hash_finish_law alg d size _ (eng s) Habs Hsize) as Hlaw.
  destruct (psa (psa_hash_finish size) _ (eng s)) as [[r c'] e'] eqn:Hp. destruct Hlaw as [Hr Hout].
  set (outs := [vec (SCRATCH 0) 4; vec (SCRATCH 4) size]). set (s2' := started c outs s2).
  destruct (hash_finish_run c i ctx size (repeat no_out 2) s2' r c' e') as (s3 & Hrun & [x Ko] & _ & Kv & Km0 & Km1);
    [done|exact (fills_mem _ _ Hf)|done|rewrite Hout; lia|done|cbn; by rewrite Ei|cbn; by rewrite Eo
    |cbn; by rewrite Ee|done|by rewrite Hout|].
  exists (finished 2 s3). split; [|split].
  - eapply (handler_run c 14 0 h [] [4; size] 0 [] outs _ _ _ _ (Ok tt)); [done|done|exact Hh|done| |reflexivity| |exact Hrun].
    + cbn. destruct (Z.eqb_spec size 0); [lia|done].
    + cbn [alloc_out hash_msg out_size nth length outs]. rewrite (bind_ok _ _ _ _ _ H1), (bind_ok _ (fun _ => ret _) s1 [vec (SCRATCH 4) size] s2);
        [done|]. cbn [alloc_out]. by rewrite (bind_ok _ _ _ _ _ H2).
  - change (answers 2 s3 = [(0, le_bytes 4 0); (1, digest alg d)]). by rewrite (answers_two _ _ _ _ _ _ Kv), Km0, Km1, Hout.
  - eexists. cbn. rewrite Ko. cbn. rewrite Eo, list_lookup_insert_eq by (by eapply lookup_lt_Some). by split.
Qed.
End Session.

(** ** Sequences of requests *)
Section Requests.
Context {C : PsaCrypto} {L : PsaCryptoLaws C}.

(** The state after the requests [ms], served in this order. *)
Fixpoint serve_all (ms : list psa_msg) (s : crypto_state) : crypto_state :=
  match ms with [] => s | m :: ms' => serve_all ms' (snd (tfm_crypto_ipc_handler m s)) end.
Definition crypto_start (e : engine) : crypto_state := snd (tfm_crypto_module_init (crypto_boot e)).

Lemma start_idle e : idle (crypto_start e).
Proof.
  split; [split|done|done]; [done| |done| | |done].
  - apply List.Forall_forall. intros o ->%repeat_spec. split; [apply repeat_length|]. by left.
  - apply List.Forall_forall. intros o ->%repeat_spec. by left.
  - split; [cbn -[repeat Z.to_nat]; by rewrite repeat_length|done|done|done].
Qed.

Lemma any_engine c : kept_by_caller c (fun _ => True).
Proof. by split. Qed.

(** What client [c] has in the tables. *)
Definition same_for (c : Z) (s s' : crypto_state) : Prop :=
  (forall i o, in_use o <> 0 -> owner o = c -> operation s !! i = Some o <-> operation s' !! i = Some o) /\
  (forall i h, ho_in_use h <> 0 -> ho_owner h = c -> handle_owner s !! i = Some h <-> handle_owner s' !! i = Some h).
Lemma same_for_refl c s : same_for c s s.
Proof. done. Qed.
Lemma same_for_trans c s1 s2 s3 : same_for c s1 s2 -> same_for c s2 s3 -> same_for c s1 s3.
Proof. intros [H1 H2] [H3 H4]. split; intros i x Hx Hc; [rewrite (H1 i x Hx Hc)|rewrite (H2 i x Hx Hc)]; auto. Qed.
Lemma others_same_for c d s s' : c <> d -> others d s s' -> same_for c s s'.
Proof. intros Hcd [H1 H2]. split; intros i x Hx Hc; [apply H1|apply H2]; (split; [done|congruence]). Qed.

(** Requests of other clients than [c]. *)
Lemma serve_all_spec c (P : engine -> Prop) ms s : (forall d, d <> c -> kept_by_caller d P) ->
  Forall (fun m => wf_msg m /\ client_id m <> c) ms -> idle s -> P (eng s) ->
  idle (serve_all ms s) /\ P (eng (serve_all ms s)) /\ same_for c s (serve_all ms s).
Proof.
  intros HP Hms. revert s. induction Hms as [|m ms [Hm Hc] _ IH]; intros s Hs Hp; [done|]. cbn.
  destruct (handler_spec m Hm P (HP _ Hc) s Hs Hp) as (H1 & H2 & H3 & _). destruct (IH _ H1 H3) as (K1 & K2 & K3).
  split; [done|]. split; [done|]. eapply same_for_trans; [|exact K3]. by eapply others_same_for.
Qed.

Lemma serve_all_idle ms s : Forall wf_msg ms -> idle s -> idle (serve_all ms s).
Proof.
  intros Hms. revert s. induction Hms as [|m ms Hm _ IH]; intros s Hs; [done|]. apply IH.
  by apply (handler_spec m Hm _ (any_engine _)).
Qed.

(** C32: whatever the clients ask, in any order, the service stays in order.
    After any requests from the start of the service the tables have their
    sizes, an operation slot and its context are zero unless the slot is in
    use, no write has left its buffer, the scratch memory, through which the
    data of one client pass after those of another, is zero again, and the
    next request is answered with no more bytes than the client has room
    for. *)
Theorem crypto_serves_any_requests e ms m : Forall wf_msg ms -> wf_msg m ->
  let s := serve_all ms (crypto_start e) in
  length (operation s) = TFM_CRYPTO_CONC_OPER_NUM /\ length (handle_owner s) = TFM_CRYPTO_MAX_KEY_HANDLES /\
  Forall (fun o => in_use o = 1 \/ in_use o = 0 /\ owner o = 0 /\ operation_ctx o = repeat 0 sizeof_ctx) (operation s) /\
  fault s = false /\ buf (scratch s) = repeat 0 (Z.to_nat TFM_CRYPTO_IOVEC_BUFFER_SIZE) /\
  Forall (fun w => Z.of_nat (length (snd w)) <= nth (Z.to_nat (fst w)) (out_size m) 0)
    (written (snd (tfm_crypto_ipc_handler m s))).
Proof.
  intros Hms Hm s. pose proof (serve_all_idle ms _ Hms (start_idle e)) as Hid. fold s in Hid.
  pose proof (id_ok _ Hid) as [K1 K2 K3 K4 K5 K6]. split; [done|]. split; [done|]. split.
  { eapply Forall_impl; [exact K2|]. intros o [_ [(H0 & H1 & _ & H2)|(H1 & _)]]; auto. }
  split; [done|]. split; [by apply idle_zero|]. by destruct (handler_spec m Hm _ (any_engine _) s Hid I) as (_ & _ & _ & H).
Qed.

(** C31: the clients of the service are isolated from one another. Whatever
    requests other clients make, the operations and the key handles of client
    [c] stay as they are, contexts included, and none of theirs becomes his;
    and whatever holds of the library and is kept by every call that names
    keys of other owners only - such as the presence of the keys of [c] -
    still holds. *)
Theorem crypto_clients_isolated c (P : engine -> Prop) e ms ms' : Forall wf_msg ms ->
  Forall (fun m => wf_msg m /\ client_id m <> c) ms' -> (forall d, d <> c -> kept_by_caller d P) ->
  let s := serve_all ms (crypto_start e) in P (eng s) -> P (eng (serve_all ms' s)) /\ same_for c s (serve_all ms' s).
Proof.
  intros Hms Hms' HP s Hp. apply (serve_all_spec c P ms' s); try done. by apply serve_all_idle, start_idle.
Qed.
End Requests.

(** ** A hash in steps *)
Section Steps.
Context {C : PsaCrypto} {L : PsaCryptoLaws C} {HL : HashLaws C}.

(** The functions of the client library, called by client [c]. *)
Definition api_hash_setup (c : Z) := Secure.psa_hash_setup connected closed (service_call c).
Definition api_hash_update (c : Z) := Secure.psa_hash_update connected closed (service_call c).
Definition api_hash_finish (c : Z) := Secure.psa_hash_finish connected closed (service_call c).

(** Between the setup and the end of a hash of client [c]: he adds data, or
    another client makes a request. *)
Inductive hash_step := Data (d : list Z) | Other (m : psa_msg).
Definition step_ok (c : Z) (x : hash_step) : Prop :=
  match x with
  | Data d => align4 (Z.of_nat (length d)) + 4 <= TFM_CRYPTO_IOVEC_BUFFER_SIZE
  | Other m => wf_msg m /\ client_id m <> c
  end.
Fixpoint hashed (xs : list hash_step) : list Z :=
  match xs with [] => [] | Data d :: xs' => d ++ hashed xs' | Other _ :: xs' => hashed xs' end.

(** What the calls of [c] return, his operation, and the state. *)
Fixpoint hash_steps (c : Z) (xs : list hash_step) (operation : Z) (s : crypto_state) :
    list psa_status_t * Z * crypto_state :=
  match xs with
  | [] => ([], operation, s)
  | Data d :: xs' =>
      let '((status, operation), s) := api_hash_update c operation d s in
      let '(l, operation, s) := hash_steps c xs' operation s in (status :: l, operation, s)
  | Other m :: xs' => hash_steps c xs' operation (snd (tfm_crypto_ipc_handler m s))
  end.

Lemma hash_msg_wf c sfn alg h ds os : Forall (fun l : list Z => Z.of_nat (length l) <= TFM_CRYPTO_IOVEC_BUFFER_SIZE) ds ->
  Forall (fun n => 0 <= n <= TFM_CRYPTO_IOVEC_BUFFER_SIZE) os -> wf_msg (hash_msg c sfn alg h ds os).
Proof.
  unfold TFM_CRYPTO_IOVEC_BUFFER_SIZE. intros H1 H2. split; [constructor; [by vm_compute|]|];
    (eapply Forall_impl; [eassumption|]; cbn; lia).
Qed.

Lemma request_idle m s : wf_msg m -> idle s -> idle (snd (tfm_crypto_ipc_handler m s)).
Proof. intros Hm Hs. by apply (serve_all_idle [m]); [constructor|]. Qed.

Lemma hashing_same c i alg d s s' : same_for c s s' -> hashing c i alg d s -> hashing c i alg d s'.
Proof. intros [H _] (ctx & Hi & Ha). exists ctx. split; [|done]. by apply (H i (hash_op c ctx)). Qed.
Lemma hashing_lt c i alg d s : idle s -> hashing c i alg d s -> 0 <= Z.of_nat i + 1 < 2 ^ 32.
Proof.
  intros Hid (ctx & Hop & _). destruct (hash_slot_len _ _ _ _ (id_ok _ Hid) Hop) as [Hlt _].
  unfold TFM_CRYPTO_CONC_OPER_NUM in Hlt. lia.
Qed.

Lemma update_wf c h d : align4 (Z.of_nat (length d)) + 4 <= TFM_CRYPTO_IOVEC_BUFFER_SIZE -> wf_msg (hash_update_msg c h d).
Proof.
  intros H. pose proof (align4_bounds (Z.of_nat (length d))) as [Hb _].
  apply hash_msg_wf; repeat constructor; unfold TFM_CRYPTO_IOVEC_BUFFER_SIZE in *; lia.
Qed.

Lemma number_received h old rest l : 0 <= h < 2 ^ 32 -> length old = 4%nat ->
  number 0 (received (Some (l, le_bytes 4 h)) old :: rest) = h.
Proof.
  intros Hh Ho. unfold number. cbn [nth received o_bytes]. rewrite splice_0, take_app_length' by (by rewrite length_le_bytes).
  by apply le_val_bytes_u32.
Qed.

Lemma setup_call c alg i s : idle s -> free_operation (operation s) 0 = Some i -> hash_supported alg ->
  0 <= alg < 2 ^ 32 ->
  exists s', api_hash_setup c 0 alg s = ((PSA_SUCCESS, Z.of_nat i + 1), s') /\ idle s' /\ hashing c i alg [] s'.
Proof.
  intros Hid Hi Hsup Halg. destruct (setup_request c alg i s Hid Hi Hsup Halg) as (s1 & H1 & Hw & Hh).
  assert (Hwf : wf_msg (hash_setup_msg c alg)) by (apply hash_msg_wf; [apply List.Forall_nil|by apply Forall_cons]).
  pose proof (request_idle _ s Hwf Hid) as Hid1. rewrite H1 in Hid1. exists s1. split; [|done].
  unfold api_hash_setup, Secure.psa_hash_setup, API_DISPATCH, connected. cbv beta iota. unfold service_call.
  change {| client_id := c; in_data := _; out_size := _ |} with (hash_setup_msg c alg). rewrite H1.
  cbn [imap map u32_bytes]. unfold imap. rewrite Hw. cbn [lookup list_lookup]. unfold closed.
  by rewrite number_received by (done || by eapply hashing_lt).
Qed.

Lemma update_call c alg i d data s : idle s -> hashing c i alg d s ->
  align4 (Z.of_nat (length data)) + 4 <= TFM_CRYPTO_IOVEC_BUFFER_SIZE ->
  exists s', api_hash_update c (Z.of_nat i + 1) data s = ((PSA_SUCCESS, Z.of_nat i + 1), s') /\ idle s' /\
    hashing c i alg (d ++ data) s'.
Proof.
  intros Hid Hh Hfit. destruct (update_request c alg i d data s Hid Hh Hfit) as (s1 & H1 & Hw & Hh1).
  pose proof (request_idle _ s (update_wf c (Z.of_nat i + 1) data Hfit) Hid) as Hid1. rewrite H1 in Hid1.
  exists s1. split; [|done]. unfold api_hash_update, Secure.psa_hash_update, API_DISPATCH, connected. cbv beta iota. unfold service_call.
  change {| client_id := c; in_data := _; out_size := _ |} with (hash_update_msg c (Z.of_nat i + 1) data). rewrite H1.
  unfold imap. rewrite Hw. cbn [lookup list_lookup]. unfold closed.
  by rewrite number_received by (done || by eapply hashing_lt).
Qed.

Lemma steps_spec c i alg d xs s : Forall (step_ok c) xs -> idle s -> hashing c i alg d s ->
  let '(l, operation, s') := hash_steps c xs (Z.of_nat i + 1) s in
  Forall (fun r => r = PSA_SUCCESS) l /\ operation = Z.of_nat i + 1 /\ idle s' /\ hashing c i alg (d ++ hashed xs) s'.
Proof.
  intros Hxs. revert d s. induction Hxs as [|[data|m] xs Hx _ IH]; intros d s Hid Hh; cbn -[tfm_crypto_ipc_handler api_hash_update].
  - by rewrite app_nil_r.
  - destruct (update_call c alg i d data s Hid Hh Hx) as (s' & -> & Hid' & Hh'). specialize (IH _ _ Hid' Hh').
    destruct (hash_steps c xs _ s') as [[l op] s2]. destruct IH as (K1 & K2 & K3 & K4). rewrite <- app_assoc in K4.
    split; [by constructor|done].
  - destruct Hx as [Hm Hc]. destruct (handler_spec m Hm _ (any_engine _) s Hid I) as (_ & Ho & _).
    apply (IH d); [by apply request_idle|]. eapply hashing_same; [|exact Hh]. by eapply others_same_for; [|exact Ho].
Qed.

(** C30: a hash computed in steps by way of the client library is the hash of
    all its data. When an operation slot is free and the algorithm is
    supported, a partition that sets up a hash, adds its data in any number of
    pieces, each of a size that fits the scratch memory of the service, and asks
    for the result in a buffer that has room for it and fits the scratch
    memory, too, is told of success at every step, and finds in its buffer the
    digest of the pieces put together, of the length it is told, and its
    operation reset - whatever valid requests other clients make between the
    steps - and the slot of the operation is free again. *)
Theorem crypto_hash_in_steps c alg hash hash_length xs s i : idle s -> free_operation (operation s) 0 = Some i ->
  hash_supported alg -> 0 <= alg < 2 ^ 32 -> Forall (step_ok c) xs -> digest alg (hashed xs) <> [] ->
  (length (digest alg (hashed xs)) <= length hash)%nat ->
  4 + align4 (Z.of_nat (length hash)) <= TFM_CRYPTO_IOVEC_BUFFER_SIZE ->
  let '((r1, op), s1) := api_hash_setup c 0 alg s in
  let '(rs, op, s2) := hash_steps c xs op s1 in
  let '((r3, (op, hash', n)), s3) := api_hash_finish c op hash hash_length s2 in
  r1 = PSA_SUCCESS /\ Forall (fun r => r = PSA_SUCCESS) rs /\ r3 = PSA_SUCCESS /\ op = 0 /\
  n = Z.of_nat (length (digest alg (hashed xs))) /\ firstn (Z.to_nat n) hash' = digest alg (hashed xs) /\
  exists o, operation s3 !! i = Some o /\ in_use o = 0.
Proof.
  intros Hid Hi Hsup Halg Hxs Hne Hsize Hfit. destruct (setup_call c alg i s Hid Hi Hsup Halg) as (s1 & -> & Hid1 & Hh1).
  pose proof (steps_spec c i alg [] xs s1 Hxs Hid1 Hh1) as Hst. destruct (hash_steps c xs _ s1) as [[rs op] s2].
  destruct Hst as (Hr & -> & Hid2 & Hh2). set (dg := digest alg (hashed xs)) in *.
  destruct (finish_request c alg i (hashed xs) (Z.of_nat (length hash)) _ Hid2 Hh2 Hne ltac:(fold dg; lia) Hfit) as (s3 & H3 & Hw3 & Ho).
  unfold api_hash_finish, Secure.psa_hash_finish, API_DISPATCH, connected. cbv beta iota. unfold service_call.
  change {| client_id := c; in_data := _; out_size := _ |} with (hash_finish_msg c (Z.of_nat i + 1) (Z.of_nat (length hash))).
  rewrite H3. unfold imap. rewrite Hw3. cbn [lookup list_lookup]. unfold closed. rewrite number_received by done.
  unfold buffer, len. cbn [nth received o_bytes o_len]. fold dg. split; [done|]. split; [done|]. split; [done|]. split; [done|].
  split; [done|]. split; [|done].
  change (firstn (Z.to_nat (Z.of_nat (length dg))) (splice hash 0 dg) = dg). rewrite Nat2Z.id, splice_0. by apply take_app_length.
Qed.
End Steps.

(** ** Keys from the hardware unique key *)
Section Huk.
Context {C : PsaCrypto} {L : PsaCryptoLaws C}.
Context (label_law : forall c l e c' e', kd_put_label c l e = (true, c', e') -> kd_label c' e' = l).
Local Notation KD := TFM_CRYPTO_KEY_DERIVATION_OPERATION.

Lemma le_bytes_differ c d : 0 <= c < 2 ^ 32 -> 0 <= d < 2 ^ 32 -> c <> d ->
  forall x y, le_bytes 4 c ++ x <> le_bytes 4 d ++ y.
Proof.
  intros Hc Hd Hne x y H. apply app_inj_1 in H as [H _]; [|by rewrite !length_le_bytes].
  apply (f_equal le_val) in H. rewrite !le_val_bytes_u32 in H; done.
Qed.

(** A key derived from the hardware unique key is bound to the client.
    After client [c] has put in the label [data], the key that is imported
    for him is the one the platform derives from the number of the client
    followed by his label; no other client, with whatever label, has the
    platform derive from the same bytes. *)
Theorem crypto_huk_key_per_client i data attributes s s1 s2 r o : crypto_ok s -> operation s !! i = Some o ->
  tfm_crypto_huk_derivation_input_bytes i PSA_KEY_DERIVATION_INPUT_LABEL data s = (Ok tt, s1) ->
  tfm_crypto_huk_derivation_output_key attributes i s1 = (Ok r, s2) ->
  let c := scratch_owner (scratch s) in
  (exists key e, tfm_plat_get_huk_derived_key (le_bytes 4 c ++ data) (PSA_BITS_TO_BYTES (ka_bits attributes)) (eng s1) =
      (Some key, e) /\ r = fst (fst (psa (psa_import_key attributes key) [] e))) /\
  (0 <= c < 2 ^ 32 -> forall d data', 0 <= d < 2 ^ 32 -> d <> c -> le_bytes 4 d ++ data' <> le_bytes 4 c ++ data).
Proof.
  intros Hok Ho Hin Hout c. split; [|intros Hc d data' Hd Hne; by apply le_bytes_differ].
  unfold tfm_crypto_huk_derivation_input_bytes in Hin. change (negb (PSA_KEY_DERIVATION_INPUT_LABEL =? PSA_KEY_DERIVATION_INPUT_LABEL)) with false in Hin. cbv iota in Hin.
  unfold tfm_crypto_get_caller_id, tfm_crypto_get_scratch_owner in Hin. rewrite !bind_reads_eq in Hin. fold c in Hin.
  pose proof (kd_put_label_len (ctx_of KD i s) (le_bytes 4 c ++ data) (eng s)) as Hlen.
  destruct (kd_put_label _ _ _) as [[[] c'] e] eqn:Hput; [|done]. cbn in Hin. injection Hin as <-. cbn [fst snd] in Hlen. pose proof (label_law _ _ _ _ _ Hput) as Hl.
  pose proof (ck_op _ Hok) as Hctx. eapply Forall_lookup_1 in Hctx; [|exact Ho]. destruct Hctx as [Hctx _].
  assert (Hsz : (sizeof_operation KD <= sizeof_ctx)%nat) by (unfold sizeof_ctx; lia).
  unfold ctx_of in Hlen. rewrite (op_in_range _ _ _ Ho), length_firstn, Hctx, Nat.min_l in Hlen by done.
  rewrite (put_ctx_eq i c' o) in Hout |- * by exact (op_in_range (set_eng e s) i o Ho).
  unfold tfm_crypto_huk_derivation_output_key in Hout. destruct (_ <? _); [done|]. rewrite bind_reads_eq in Hout.
  assert (Hnew : ctx_of KD i (set_op i (with_ctx o c') (set_eng e s)) = c').
  { unfold ctx_of. rewrite (op_in_range _ _ (with_ctx o c')) by (cbn; by rewrite list_lookup_insert_eq by (by eapply lookup_lt_Some)).
    cbn. rewrite splice_0. by apply take_app_length'. }
  cbv zeta in Hout. rewrite Hnew in Hout. change (eng (set_op i _ _)) with e in Hout |- *. rewrite Hl in Hout.
  destruct (tfm_plat_get_huk_derived_key _ _ e) as [[key|] e2]; [|done]. exists key, e2. split; [done|].
  unfold bind, modify, psa_run, reads, ret in Hout. cbn in Hout. destruct (psa _ _ _) as [[r' x] e3]. by injection Hout as <- _.
Qed.
End Huk.

(** ** A library to evaluate on

    Its state is the keys it holds, by owner and number, and the last label
    put in; a hash is the algorithm and the sum of the data, a key derived
    from the hardware unique key is the label. *)
Module Toy.
Definition ok (l : list Z) (k : svc_key) : psa_result :=
  {| r_status := PSA_SUCCESS; r_out := l; r_val := 0; r_key := k;
     r_attr := {| ka_type := 0; ka_lifetime := 0; ka_usage := 0; ka_alg := 0; ka_bits := 0; ka_id := k |} |}.
Definition no_key : svc_key := mbedtls_svc_key_id_make 0 0.
Definition total (l : list Z) : Z := foldr Z.add 0 l.
Definition differs (o k : Z) (x : Z * Z) : bool := negb ((fst x =? o) && (snd x =? k)).

Definition call (f : psa_fn) (c : list Z) (e : list (Z * Z) * list Z) : psa_result * list Z * (list (Z * Z) * list Z) :=
  match f, c with
  | psa_hash_setup alg, [_; _] => (ok [] no_key, [alg; 0], e)
  | psa_hash_update d, [a; x] => (ok [] no_key, [a; x + total d], e)
  | psa_hash_finish n, [a; x] => if 2 <=? n then (ok [a; x] no_key, [0; 0], e) else (ok [] no_key, c, e)
  | psa_import_key a _, _ =>
      let k := Z.of_nat (length (fst e)) + 1 in
      (ok [] (mbedtls_svc_key_id_make (sk_owner (ka_id a)) k), c, ((sk_owner (ka_id a), k) :: fst e, snd e))
  | psa_destroy_key k, _ => (ok [] no_key, c, (filter (differs (sk_owner k) (sk_key_id k)) (fst e), snd e))
  | _, _ => (ok [] no_key, c, e)
  end.

#[local] Instance library : PsaCrypto := {|
  engine := list (Z * Z) * list Z;
  psa := call;
  sizeof_operation _ := 2%nat;
  psa_reset_key_attributes a := a;
  psa_key_attributes_init := r_attr (ok [] no_key);
  kd_alg _ := 0;
  kd_set_alg c _ := c;
  kd_put_label c l e := (true, c, (fst e, l));
  kd_label _ e := snd e;
  kd_free_label _ e := e;
  kd_output_block_size := 32;
  kd_put_block c _ := c;
  tfm_plat_get_huk_derived_key l _ e := (Some l, e);
  hal_is_valid_key_id _ _ := true;
  hal_is_device_key_id _ _ := true;
  hal_key_id_mapping_mbedcrypto_2_fb k _ := k;
  hal_get_key_metadata _ _ := Ok (0, 0);
  hal_get_key_data _ _ := Ok (0, 0, []);
  hal_add_key_id_mapping _ _ e := (PSA_SUCCESS, e)
|}.

#[local] Instance laws : PsaCryptoLaws library.
Proof.
  split; cbn; try done; [intros f c e|intros f c e H];
    (destruct f; cbn; try done; destruct c as [|a [|x [|y c]]]; cbn in *; try done; destruct (Z.leb_spec 2 hash_size); cbn; done || lia).
Qed.

#[local] Instance hash_laws : HashLaws library.
Proof.
  refine {| digest := fun alg d => [alg; total d]; hash_supported := fun _ => True;
            absorbed := fun alg d c => c = [alg; total d] |}; cbn.
  - done.
  - intros alg d data c e ->. split; [done|]. unfold total. rewrite foldr_app.
    do 2 f_equal. induction d as [|b d IH]; cbn; [done|]. rewrite <- IH. lia.
  - intros alg d size c e -> H. cbn in H |- *. destruct (Z.leb_spec 2 size); [done|lia].
Defined.

(** A client makes a key and starts a hash. *)
Definition import_msg (c : Z) : psa_msg :=
  {| client_id := c; in_data := [iov_bytes (hash_iov 4 0 0); repeat 0 24; [9; 9]]; out_size := [4] |}.
Definition destroy_msg (c k : Z) : psa_msg :=
  {| client_id := c; in_data := [le_bytes 4 5 ++ [0; 0; 0; 0] ++ le_bytes 4 k ++ repeat 0 32]; out_size := [] |}.
Definition own : list psa_msg := [import_msg 7; hash_setup_msg 7 1; hash_update_msg 7 1 [1; 2; 3]].
(** Another one makes a key, tries to destroy both keys, and to use the
    operation. *)
Definition theirs : list psa_msg :=
  [import_msg 8; destroy_msg 8 1; destroy_msg 8 2; hash_update_msg 8 1 [5; 5]; hash_finish_msg 8 1 32].

Ltac wf_closed := split; cbn; repeat (apply Forall_cons; split; [by vm_compute|]); apply Forall_nil_2.
Lemma own_wf : Forall wf_msg own.
Proof. repeat (apply Forall_cons; split; [wf_closed|]). apply Forall_nil_2. Qed.
Lemma theirs_wf : Forall (fun m => wf_msg m /\ client_id m <> 7) theirs.
Proof. repeat (apply Forall_cons; split; [split; [wf_closed|done]|]). apply Forall_nil_2. Qed.

(** Key 1 of client 7 is there. *)
Definition key_there (e : @engine library) : Prop := In (7, 1) (fst (e : list (Z * Z) * list Z)).
Lemma key_kept d : d <> 7 -> kept_by_caller d key_there.
Proof.
  intros Hd. unfold key_there. split; cbn; try done. intros f ctx e Ho H.
  destruct f; cbn; try (destruct ctx as [|? [|? [|? ?]]]; cbn; done || destruct (2 <=? _); done); [by right|].
  apply Forall_cons in Ho as [Hk _]. apply list_elem_of_In, list_elem_of_filter. split; [|by apply list_elem_of_In].
  unfold differs. cbn [fst snd]. rewrite Hk. destruct (Z.eqb_spec 7 d); [congruence|done].
Qed.

Definition no_keys : @engine library := ([], []).

Lemma crypto_serves_any_requests_witness :
  let s := serve_all own (crypto_start no_keys) in
  map in_use (operation s) = [1; 0; 0; 0; 0; 0; 0; 0] /\ buf (scratch s) = repeat 0 (Z.to_nat 5120).
Proof.
  pose proof (crypto_serves_any_requests (C := library) no_keys own (import_msg 7) own_wf ltac:(wf_closed)) as H.
  split; [by vm_compute|]. apply H.
Defined.

Lemma crypto_clients_isolated_witness :
  let s := serve_all own (crypto_start no_keys) in
  key_there (eng s) /\ key_there (eng (serve_all theirs s)) /\ same_for 7 s (serve_all theirs s).
Proof.
  assert (H : key_there (eng (serve_all own (crypto_start no_keys)))) by (vm_compute; auto).
  split; [exact H|].
  exact (crypto_clients_isolated 7 key_there no_keys own theirs own_wf theirs_wf key_kept H).
Defined.

Definition pieces : list hash_step := [Data [1; 2]; Other (import_msg 8); Other (hash_update_msg 8 1 [5; 5]); Data []; Data [3]].
Lemma pieces_ok : Forall (step_ok 7) pieces.
Proof. repeat (apply Forall_cons; split; [first [split; [wf_closed|done]|by vm_compute]|]). apply Forall_nil_2. Qed.
Lemma crypto_hash_in_steps_witness :
  let '((r1, op), s1) := api_hash_setup 7 0 5 (crypto_start no_keys) in
  let '(rs, op, s2) := hash_steps 7 pieces op s1 in
  let '((r3, (op, hash', n)), s3) := api_hash_finish 7 op (repeat 9 32) 0 s2 in
  r1 = PSA_SUCCESS /\ r3 = PSA_SUCCESS /\ n = 2 /\ firstn (Z.to_nat n) hash' = [5; 6].
Proof.
  pose proof (crypto_hash_in_steps 7 5 (repeat 9 32) 0 pieces (crypto_start no_keys) 0 (start_idle no_keys) eq_refl I ltac:(done)
    pieces_ok ltac:(by vm_compute) ltac:(vm_compute; lia) ltac:(by vm_compute)) as H.
  destruct (api_hash_setup 7 0 5 (crypto_start no_keys)) as [[r1 op] s1].
  destruct (hash_steps 7 pieces op s1) as [[rs op2] s2].
  destruct (api_hash_finish 7 op2 (repeat 9 32) 0 s2) as [[r3 [[op3 hash'] n]] s3].
  by destruct H as (H1 & _ & H3 & _ & Hn & Hd & _).
Defined.

(** A hash of client 7 is in slot 0: client 8 cannot add to it, nor client 7
    under a handle he does not have. *)
Lemma crypto_update_needs_own_operation_witness :
  let s := serve_all own (crypto_start no_keys) in
  map owner (operation s) = [7; 0; 0; 0; 0; 0; 0; 0] /\
  let '(reply, s') := tfm_crypto_ipc_handler (hash_update_msg 8 1 [5; 5]) s in
  reply = PSA_ERROR_BAD_STATE /\ operation s' = operation s /\ eng s' = eng s.
Proof.
  split; [by vm_compute|].
  apply (crypto_update_needs_own_operation 8 1 [5; 5] (serve_all own (crypto_start no_keys))
    (serve_all_idle own _ own_wf (start_idle no_keys)) ltac:(done) ltac:(by vm_compute)).
  intros i (o & Ho & _ & Hw & _) Hi. replace i with O in Ho by lia. vm_compute in Ho. injection Ho as <-. done.
Defined.

Definition kd_slot : tfm_crypto_operation_s :=
  {| in_use := 1; owner := 7; type := TFM_CRYPTO_KEY_DERIVATION_OPERATION; operation_ctx := [0; 0] |}.
Definition deriving : crypto_state :=
  set_op 0 kd_slot (snd (tfm_crypto_set_scratch_owner 7 (crypto_start no_keys))).
Definition derived : psa_key_attributes :=
  {| ka_type := 0; ka_lifetime := 0; ka_usage := 0; ka_alg := 0; ka_bits := 256; ka_id := no_key |}.
Lemma deriving_ok : crypto_ok deriving.
Proof.
  destruct (start_idle no_keys) as [[K1 K2 K3 K4 [H1 H2 H3 H4] K6] _ _]. split; [done| |done|done| |done].
  - change (operation deriving) with (<[0%nat := kd_slot]> (operation (crypto_start no_keys))).
    apply Forall_insert; [done|]. split; [done|]. by right.
  - by split.
Qed.
Lemma label_kept c l e c' e' : kd_put_label c l e = (true, c', e') -> kd_label c' e' = l.
Proof. cbn. intros H. by injection H as <- <-. Qed.
Lemma crypto_huk_key_per_client_witness :
  exists key e, tfm_plat_get_huk_derived_key (le_bytes 4 7 ++ [1; 2; 3]) 32 (eng deriving) = (Some key, e).
Proof.
  pose proof (crypto_huk_key_per_client label_kept 0 [1; 2; 3] derived
    deriving _ _ _ kd_slot deriving_ok eq_refl eq_refl eq_refl) as [(key & e & H & _) _].
  exists key, no_keys. vm_compute in H |- *. by injection H as <- _.
Defined.
End Toy.
