(* ===== verification/CryptoAgree.v ===== *)
(** * Crypto: the client library and the service agree

    No function of the client library makes a request that the service takes
    for a programming error, but one. *)

From Stdlib Require Import ZArith List Lia Bool.
From stdpp Require Import base tactics list.
From S2P Require Import Prelude ItsUtils Crypto CryptoKeys CryptoOps CryptoSpec CryptoApi CryptoTheorems.
Import ListNotations.
Local Open Scope Z_scope.

(** The PSA Crypto API and the platform layer do not use
    PSA_ERROR_PROGRAMMER_ERROR, which is a status of the IPC framework. *)
Class NoProgrammerError (C : PsaCrypto) : Prop := {
  npe_psa f c e : r_status (fst (fst (psa f c e))) <> PSA_ERROR_PROGRAMMER_ERROR;
  npe_metadata k e : hal_get_key_metadata k e <> Err PSA_ERROR_PROGRAMMER_ERROR;
  npe_data k e : hal_get_key_data k e <> Err PSA_ERROR_PROGRAMMER_ERROR;
  npe_map a b e : fst (hal_add_key_id_mapping a b e) <> PSA_ERROR_PROGRAMMER_ERROR
}.

Section Agree.
Context {C : PsaCrypto} {L : PsaCryptoLaws C} {N : NoProgrammerError C}.
Local Notation PE := PSA_ERROR_PROGRAMMER_ERROR.

(** ** Code that does not fail with a programming error *)
Definition quiet {A} (m : CM A) (Q : A -> Prop) : Prop :=
  forall s, match fst (m s) with Ok x => Q x | Err e => e <> PE end.

Lemma quiet_ret {A} (x : A) (Q : A -> Prop) : Q x -> quiet (ret x) Q.
Proof. by intros H s. Qed.
Lemma quiet_fail {A} e (Q : A -> Prop) : e <> PE -> quiet (fail e) Q.
Proof. by intros H s. Qed.
Lemma quiet_bind {A B} (m : CM A) (k : A -> CM B) Q R : quiet m Q -> (forall x, Q x -> quiet (k x) R) -> quiet (bind m k) R.
Proof.
  intros Hm Hk s. specialize (Hm s). unfold bind. destruct (m s) as [[x|e] s1]; cbn in *; [|done]. by apply Hk.
Qed.
Lemma quiet_reads {A} (f : crypto_state -> A) : quiet (reads f) (fun _ => True).
Proof. done. Qed.
Lemma quiet_modify (f : crypto_state -> crypto_state) : quiet (modify f) (fun _ => True).
Proof. done. Qed.
Lemma quiet_attempt {A} (m : CM A) Q : quiet m Q ->
  quiet (attempt m) (fun r => match r with Ok x => Q x | Err e => e <> PE end).
Proof. intros H s. specialize (H s). unfold attempt. destruct (m s) as [[x|e] s1]; exact H. Qed.
Lemma quiet_ignore {A} (m : CM A) : quiet (ignore m) (fun _ => True).
Proof. intros s. unfold ignore, bind, attempt. destruct (m s) as [[x|e] s1]; exact I. Qed.
Lemma quiet_if {A} (b : bool) (m1 m2 : CM A) Q : quiet m1 Q -> quiet m2 Q -> quiet (if b then m1 else m2) Q.
Proof. by destruct b. Qed.
Lemma quiet_weaken {A} (m : CM A) (Q R : A -> Prop) : quiet m Q -> (forall x, Q x -> R x) -> quiet m R.
Proof. intros H HR s. specialize (H s). destruct (fst (m s)); auto. Qed.
Lemma quiet_true {A} (m : CM A) (Q : A -> Prop) : quiet m Q -> quiet m (fun _ => True).
Proof. intros H. by eapply quiet_weaken. Qed.

Lemma quiet_mem_write p l : quiet (mem_write p l) (fun _ => True).
Proof. intros s. unfold mem_write. destruct l, p; try done. cbn. destruct (_ <=? _); exact I. Qed.
Lemma quiet_return_status e : e <> PE -> quiet (return_status e) (fun _ => True).
Proof. intros H s. unfold return_status. destruct (e =? PSA_SUCCESS); [exact I|exact H]. Qed.

Definition fine (r : psa_result) : Prop := r_status r <> PE.
Lemma quiet_psa_run f : quiet (psa_run f) fine.
Proof. intros s. unfold psa_run. pose proof (npe_psa f [] (eng s)). cbn. by destruct (psa f [] (eng s)) as [[r c] e]. Qed.
Lemma quiet_psa_on t i f : quiet (psa_on t i f) fine.
Proof.
  intros s. unfold psa_on. pose proof (npe_psa f (ctx_of t i s) (eng s)). cbn. by destruct (psa f _ (eng s)) as [[r c] e].
Qed.

Lemma quiet_hal {A} (r : res A) : r <> Err PE -> quiet (hal_result r) (fun _ => True).
Proof. intros H s. destruct r as [x|e]; [done|]. cbn. by intros ->. Qed.

End Agree.

Create HintDb quiet.
(** What remains is to walk through the code. *)
Ltac quiet_step :=
  lazymatch goal with
  | |- quiet (bind _ _) _ => eapply quiet_bind; [|intros ? ?; cbv beta in *]
  | |- quiet (ret _) _ => apply quiet_ret
  | |- quiet (fail ?e) _ => apply quiet_fail; first [assumption | by vm_compute]
  | |- quiet (reads _) _ => apply quiet_reads
  | |- quiet (modify _) _ => apply quiet_modify
  | |- quiet read_iov _ => apply (quiet_reads iov)
  | |- quiet (read_in _) _ => apply quiet_reads
  | |- quiet (read32 _) _ => apply quiet_reads
  | |- quiet (kd_ctx _) _ => apply quiet_reads
  | |- quiet (out_at _) _ => apply quiet_reads
  | |- quiet (handle_owner_at _) _ => apply quiet_reads
  | |- quiet tfm_crypto_get_caller_id _ => apply (quiet_reads (fun s => scratch_owner (scratch s)))
  | |- quiet (clear_handle _) _ => apply quiet_modify
  | |- quiet (set_out_len _ _) _ => apply quiet_modify
  | |- quiet (attempt _) _ => eapply quiet_attempt
  | |- quiet (ignore _) _ => apply quiet_ignore
  | |- quiet (mem_write _ _) _ => apply quiet_mem_write
  | |- quiet (write32 _ _) _ => apply quiet_mem_write
  | |- quiet (return_status _) _ => apply quiet_return_status
  | |- quiet (psa_run _) _ => apply quiet_psa_run
  | |- quiet (psa_on _ _ _) _ => apply quiet_psa_on
  | |- quiet (if ?b then _ else _) _ => apply quiet_if
  | |- quiet (match ?x with _ => _ end) _ => destruct x eqn:?
  | |- fine _ => assumption
  | |- True => exact I
  | |- _ => solve [eauto with quiet]
  end.
Ltac quiet_run := cbv beta zeta; repeat quiet_step.

Section Parts.
Context {C : PsaCrypto} {L : PsaCryptoLaws C} {N : NoProgrammerError C}.
Local Notation PE := PSA_ERROR_PROGRAMMER_ERROR.

Lemma quiet_lookup t h : quiet (tfm_crypto_operation_lookup t h) (fun _ => True).
Proof. unfold tfm_crypto_operation_lookup, tfm_crypto_get_caller_id, tfm_crypto_get_scratch_owner. quiet_run. Qed.
Lemma quiet_alloc t h : quiet (tfm_crypto_operation_alloc t h) (fun _ => True).
Proof. unfold tfm_crypto_operation_alloc, tfm_crypto_get_caller_id, tfm_crypto_get_scratch_owner. quiet_run. Qed.
Lemma quiet_release p : quiet (tfm_crypto_operation_release p) (fun _ => True).
Proof. unfold tfm_crypto_operation_release, read32, tfm_crypto_get_caller_id, tfm_crypto_get_scratch_owner. quiet_run. Qed.
Lemma quiet_check_owner k : quiet (tfm_crypto_check_handle_owner k) (fun _ => True).
Proof. unfold tfm_crypto_check_handle_owner, tfm_crypto_get_caller_id, tfm_crypto_get_scratch_owner. quiet_run. Qed.
Lemma quiet_encode k : quiet (tfm_crypto_encode_id_and_owner k) (fun _ => True).
Proof. unfold tfm_crypto_encode_id_and_owner, tfm_crypto_get_caller_id, tfm_crypto_get_scratch_owner. quiet_run. Qed.
Lemma quiet_check_storage : quiet tfm_crypto_check_key_storage (fun _ => True).
Proof. unfold tfm_crypto_check_key_storage. quiet_run. Qed.
Lemma quiet_set_storage i k : quiet (tfm_crypto_set_key_storage i k) (fun _ => True).
Proof. unfold tfm_crypto_set_key_storage, tfm_crypto_get_caller_id, tfm_crypto_get_scratch_owner. quiet_run. Qed.
Lemma quiet_release_if b p : quiet (release_if b p) (fun _ => True).
Proof. unfold release_if. quiet_run. Qed.
Lemma quiet_abort_with e p : e <> PE -> quiet (abort_with e p) (fun _ => True).
Proof. intros H. unfold abort_with. quiet_run. apply quiet_release. Qed.
Lemma quiet_record i c p r : fine r -> quiet (record_new_key i c p r) (fun _ => True).
Proof. intros H. unfold record_new_key. quiet_run. Qed.
Lemma quiet_put_output i p r : quiet (put_output i p r) (fun _ => True).
Proof. unfold put_output, set_out_len. quiet_run. Qed.

Lemma quiet_vendor_valid k b : quiet (tfm_crypto_vendor_key_is_valid k b) (fun _ => True).
Proof. unfold tfm_crypto_vendor_key_is_valid. quiet_run; apply quiet_encode. Qed.
Lemma quiet_vendor_open k p : quiet (tfm_crypto_vendor_key_open_key k p) (fun _ => True).
Proof.
  unfold tfm_crypto_vendor_key_open_key. quiet_run; try apply quiet_check_storage; try apply quiet_set_storage;
    try (apply quiet_hal; apply npe_metadata || apply npe_data); try assumption.
  match goal with H : hal_add_key_id_mapping ?a ?b ?e = _ |- _ => pose proof (npe_map a b e) as Hm; by rewrite H in Hm end.
Qed.
Lemma quiet_huk_input i st d : quiet (tfm_crypto_huk_derivation_input_bytes i st d) (fun _ => True).
Proof. unfold tfm_crypto_huk_derivation_input_bytes, tfm_crypto_get_caller_id, tfm_crypto_get_scratch_owner. quiet_run. Qed.
Lemma quiet_huk_setup i : quiet (tfm_crypto_huk_derivation_setup i) (fun _ => True).
Proof. unfold tfm_crypto_huk_derivation_setup. quiet_run. Qed.
Lemma quiet_huk_abort i : quiet (tfm_crypto_huk_derivation_abort i) (fun _ => True).
Proof. unfold tfm_crypto_huk_derivation_abort. quiet_run. Qed.
Lemma quiet_vendor_sign k a h n : quiet (tfm_crypto_vendor_key_sign_hash k a h n) fine.
Proof. unfold tfm_crypto_vendor_key_sign_hash. quiet_run. Qed.
Lemma quiet_vendor_verify k a h g : quiet (tfm_crypto_vendor_key_verify_hash k a h g) fine.
Proof. unfold tfm_crypto_vendor_key_verify_hash. quiet_run. Qed.
Lemma quiet_vendor_export k n : quiet (tfm_crypto_vendor_key_export_public_key k n) fine.
Proof. unfold tfm_crypto_vendor_key_export_public_key. quiet_run. Qed.
Lemma quiet_vendor_key k : quiet (tfm_crypto_vendor_key_is_valid_key k) (fun _ => True).
Proof. apply quiet_vendor_valid. Qed.
Lemma quiet_vendor_device_key k : quiet (tfm_crypto_vendor_key_is_valid_device_key k) (fun _ => True).
Proof. apply quiet_vendor_valid. Qed.
Lemma quiet_huk_output a i : quiet (tfm_crypto_huk_derivation_output_key a i) fine.
Proof. unfold tfm_crypto_huk_derivation_output_key. quiet_run. Qed.
End Parts.

#[export] Hint Resolve quiet_lookup quiet_alloc quiet_release quiet_check_owner quiet_encode quiet_check_storage
  quiet_set_storage quiet_release_if quiet_put_output quiet_vendor_valid quiet_vendor_open quiet_huk_input
  quiet_huk_output quiet_huk_setup quiet_huk_abort quiet_vendor_sign quiet_vendor_verify quiet_vendor_export
  quiet_vendor_key quiet_vendor_device_key quiet_abort_with quiet_record quiet_ignore quiet_mem_write quiet_psa_run
  quiet_psa_on : quiet.

(** ** A request and the checks of the service *)
(** The sizes that are left when the empty vectors at the end are dropped. *)
Fixpoint trimmed (l : list Z) : list Z :=
  match l with
  | [] => []
  | x :: l' => match trimmed l' with [] => if x =? 0 then [] else [x] | t => x :: t end
  end.

Section Shape.
Context {C : PsaCrypto} {L : PsaCryptoLaws C} {N : NoProgrammerError C}.
Local Notation PE := PSA_ERROR_PROGRAMMER_ERROR.

(** The function takes vectors of these sizes, after the packed arguments. *)
Definition accepts (f : tfm_crypto_us_t) (ins outs : list Z) : Prop := forall in_vec vs s,
  map iv_len in_vec = trimmed ins -> map ov_len vs = trimmed outs ->
  out_vec s = vs ++ repeat no_out (PSA_MAX_IOVEC - length vs) ->
  fst (f (iov_vec :: in_vec) (Z.of_nat (S (length in_vec))) (Z.of_nat (length vs)) s) <> Err PE.

Lemma quiet_here {A} (m : CM A) Q s : quiet m Q -> fst (m s) <> Err PE.
Proof. intros H E. specialize (H s). rewrite E in H. done. Qed.

Lemma count_trimmed (l : list Z) (n : nat) : (length l <= n)%nat ->
  count_vecs (fun i => nth i l 0) n = length (trimmed l).
Proof.
  intros Hn. assert (Hbig : count_vecs (fun i => nth i l 0) n = count_vecs (fun i => nth i l 0) (length l)).
  { induction n as [|n IH]; [by replace (length l) with O by lia|].
    destruct (decide (length l = S n)) as [->|]; [done|]. cbn. rewrite nth_overflow by lia. apply IH. lia. }
  rewrite Hbig. clear Hbig Hn. induction l as [|x l IH] using rev_ind; [done|].
  rewrite length_app, Nat.add_1_r. cbn [count_vecs]. rewrite nth_middle.
  assert (Ht : forall l, trimmed (l ++ [x]) = if x =? 0 then trimmed l else l ++ [x]).
  { clear. intros l. induction l as [|y l IH]; [done|]. cbn. rewrite IH. destruct (x =? 0); [done|]. by destruct l. }
  rewrite Ht. destruct (x =? 0); [|by rewrite length_app, Nat.add_1_r].
  rewrite <- IH. clear. generalize (le_n (length l)). generalize (length l) at 1 3 4 as n.
  induction n as [|n IH]; intros Hn; [done|]. cbn. rewrite app_nth1 by lia. destruct (_ =? 0); [apply IH; lia|done].
Qed.

Lemma count_ext size size' n : (forall i, size i = size' i) -> count_vecs size n = count_vecs size' n.
Proof. intros H. induction n as [|n IH]; [done|]. cbn. by rewrite H, IH. Qed.
Lemma nth_map_len (l : list (list Z)) i : nth i (map (fun x => Z.of_nat (length x)) l) 0 = Z.of_nat (length (nth i l [])).
Proof. exact (map_nth (fun x : list Z => Z.of_nat (length x)) l [] i). Qed.

Lemma trimmed_prefix l : trimmed l = firstn (length (trimmed l)) l.
Proof.
  induction l as [|x l IH]; [done|]. cbn. destruct (trimmed l) as [|y t] eqn:E.
  - by destruct (x =? 0).
  - cbn [length firstn] in IH |- *. by rewrite <- IH.
Qed.
Lemma map_nth_seq (l : list Z) (n : nat) : (n <= length l)%nat -> map (fun i => nth i l 0) (seq 0 n) = firstn n l.
Proof.
  revert n. induction l as [|x l IH]; intros [|n] Hn; try done; cbn in Hn; [lia|]. cbn. f_equal. rewrite <- seq_shift, map_map.
  apply IH. lia.
Qed.
Lemma trimmed_nth l : map (fun i => nth i l 0) (seq 0 (length (trimmed l))) = trimmed l.
Proof.
  rewrite map_nth_seq; [by rewrite <- trimmed_prefix|]. rewrite trimmed_prefix, length_firstn. lia.
Qed.

Lemma quiet_alloc_scratch n : quiet (tfm_crypto_alloc_scratch n) (fun _ => True).
Proof. unfold tfm_crypto_alloc_scratch. by quiet_run. Qed.
Lemma read_vecs_sizes m n i : quiet (read_vecs m n i) (fun l => map iv_len l = map (in_size m) (seq i n)).
Proof.
  revert i. induction n as [|n IH]; intros i; cbn [read_vecs seq map]; [by apply quiet_ret|].
  eapply quiet_bind; [apply quiet_alloc_scratch|]. intros p _. eapply quiet_bind; [apply quiet_mem_write|]. intros _ _.
  eapply quiet_bind; [apply IH|]. intros l Hl. apply quiet_ret. cbn. by rewrite Hl.
Qed.
Lemma alloc_out_sizes m n i : quiet (alloc_out m n i) (fun l => map ov_len l = map (fun j => nth j (out_size m) 0) (seq i n)).
Proof.
  revert i. induction n as [|n IH]; intros i; cbn [alloc_out seq map]; [by apply quiet_ret|]. cbv zeta.
  eapply quiet_bind; [apply quiet_alloc_scratch|]. intros p _.
  eapply quiet_bind; [apply IH|]. intros l Hl. apply quiet_ret. cbn. by rewrite Hl.
Qed.

Definition sizes (l : list (list Z)) : list Z := map (fun x => Z.of_nat (length x)) l.
Lemma parse_shape m v ds s : in_data m = iov_bytes v :: ds -> length (nonce v) = 16%nat ->
  0 <= sfn_id v < TFM_CRYPTO_SID_MAX -> exists x, tfm_crypto_parse_msg m s = (Ok (sfn_id v), set_iov x s).
Proof.
  intros Hm Hn Hsfn. assert (H44 : length (iov_bytes v) = 44%nat) by (unfold iov_bytes; rewrite !length_app, !length_le_bytes, Hn; done).
  unfold tfm_crypto_parse_msg. rewrite Hm. cbn [nth]. cbv zeta. rewrite bind_reads_eq, firstn_all2, H44, splice_0 by lia.
  unfold bind at 1, modify at 1. cbv iota beta. change (negb (Z.of_nat 44 =? sizeof_pack_iovec)) with false. cbv iota.
  unfold read_iov. rewrite bind_reads_eq. set (s1 := set_iov _ s).
  assert (Hid : sfn_id (iov s1) = sfn_id v) by (apply le_val_bytes_u32; change TFM_CRYPTO_SID_MAX with 65 in Hsfn; lia).
  rewrite Hid. destruct (Z.geb_spec (sfn_id v) TFM_CRYPTO_SID_MAX); [lia|]. eexists. unfold s1. reflexivity.
Qed.

Definition request (c : Z) (v : tfm_crypto_pack_iovec) (ins outs : list (list Z)) : psa_msg :=
  {| client_id := c; in_data := iov_bytes v :: ins; out_size := sizes outs |}.

Lemma request_in_len c v ins outs : length (nonce v) = 16%nat -> (length ins <= 3)%nat ->
  count_vecs (in_size (request c v ins outs)) PSA_MAX_IOVEC = S (length (trimmed (sizes ins))).
Proof.
  intros Hn Hins. transitivity (count_vecs (fun i => nth i (44 :: sizes ins) 0) PSA_MAX_IOVEC).
  - apply count_ext. intros [|j]; unfold in_size; cbn -[iov_bytes]; [|by unfold sizes; rewrite nth_map_len].
    unfold iov_bytes. rewrite !length_app, !length_le_bytes, Hn. done.
  - rewrite count_trimmed by (cbn; unfold sizes, PSA_MAX_IOVEC; rewrite length_map; lia). cbn. by destruct (trimmed _).
Qed.

Lemma in_sizes c v ins outs : map (in_size (request c v ins outs)) (seq 1 (length (trimmed (sizes ins)))) = trimmed (sizes ins).
Proof.
  rewrite <- trimmed_nth at 2. rewrite <- seq_shift, map_map. apply map_ext. intros j. unfold in_size. cbn.
  by rewrite <- nth_map_len.
Qed.

Lemma call_accepted m sfn f ins outs s : nth (Z.to_nat sfn) sfid_func_table not_supported = f ->
  count_vecs (in_size m) PSA_MAX_IOVEC = S (length (trimmed ins)) ->
  map (in_size m) (seq 1 (length (trimmed ins))) = trimmed ins ->
  out_size m = outs -> (length outs <= 4)%nat -> accepts f ins outs ->
  fst (tfm_crypto_call_sfn m sfn s) <> Err PE.
Proof.
  intros Hf Hin Hins Hout Hlen Hacc. unfold tfm_crypto_call_sfn. rewrite Hin, Hout, count_trimmed by exact Hlen. rewrite Hf.
  change (S _ <? 1)%nat with false. cbv iota. replace (S _ - 1)%nat with (length (trimmed ins)) by lia.
  pose proof (read_vecs_sizes m (length (trimmed ins)) 1 s) as Hr. unfold bind at 1, attempt at 1.
  destruct (read_vecs _ _ _ s) as [[vs|e] s1]; cbn in Hr; [|cbn; congruence]. rewrite Hins in Hr.
  pose proof (alloc_out_sizes m (length (trimmed outs)) 0 s1) as Ha. unfold bind at 1, attempt at 1.
  destruct (alloc_out _ _ _ s1) as [[os|e] s2]; cbn in Ha; [|cbn; congruence]. rewrite Hout, trimmed_nth in Ha.
  assert (Hl1 : length (trimmed ins) = length vs) by (by rewrite <- Hr, length_map).
  assert (Hl2 : length (trimmed outs) = length os) by (by rewrite <- Ha, length_map). rewrite Hl1, Hl2.
  unfold bind at 1, modify at 1. cbv iota beta. fold no_out. unfold bind at 1, tfm_crypto_set_scratch_owner at 1, modify at 1.
  cbv iota beta. unfold bind at 1, attempt at 1. set (s3 := set_scratch _ _). fold iov_vec.
  pose proof (Hacc vs os s3 Hr Ha eq_refl) as Hne. destruct (f _ _ _ s3) as [r s4]. cbn in Hne |- *.
  destruct r as [[]|e]; cbn; congruence.
Qed.

Lemma request_accepted c v ins outs f s : length (nonce v) = 16%nat -> 0 <= sfn_id v < TFM_CRYPTO_SID_MAX ->
  nth (Z.to_nat (sfn_id v)) sfid_func_table not_supported = f -> (length ins <= 3)%nat -> (length outs <= 4)%nat ->
  accepts f (sizes ins) (sizes outs) -> fst (tfm_crypto_ipc_handler (request c v ins outs) s) <> PE.
Proof.
  intros Hn Hsfn Hf Hins Houts Hacc. unfold tfm_crypto_ipc_handler, serve_call.
  destruct (parse_shape (request c v ins outs) v ins (set_written [] s) eq_refl Hn Hsfn) as [x Hp].
  rewrite (bind_ok _ _ _ _ _ Hp). set (s1 := set_iov x _).
  pose proof (call_accepted (request c v ins outs) (sfn_id v) f (sizes ins) (sizes outs) s1 Hf
    (request_in_len c v ins outs Hn Hins) (in_sizes c v ins outs) eq_refl) as Hcall.
  destruct (tfm_crypto_call_sfn _ _ s1) as [[[]|e] s2]; [by vm_compute|]. cbn in Hcall |- *. intros ->.
  apply Hcall; [unfold sizes; by rewrite length_map|exact Hacc|done].
Qed.
End Shape.

(** Splits on which vectors are empty, runs the checks, and walks through the
    rest. *)
Ltac accept_cases H :=
  try change (4 =? 0) with false in H; try change (24 =? 0) with false in H; cbv iota in H;
  repeat match type of H with
  | context [if ?x =? 0 then _ else _] => destruct (x =? 0)
  end.
Ltac accept_vecs l H :=
  destruct l as [|? [|? [|? ?]]]; try discriminate H; cbn [map] in H; try (injection H; intros); clear H.
Ltac accept_sizes :=
  unfold iov_sized, in_at; cbn [nth iov_vec iv_len];
  repeat match goal with H : iv_len _ = _ |- _ => rewrite H; clear H end;
  repeat match goal with H : ov_len _ = _ |- _ => rewrite H; clear H end;
  rewrite ?Z.eqb_refl; cbn [negb orb].
Tactic Notation "accept_run" reference(f) :=
  let Hi := fresh "Hi" in let Ho := fresh "Ho" in let Hv := fresh "Hv" in
  intros in_vec vs s Hi Ho Hv; cbn [trimmed] in Hi, Ho; accept_cases Hi; accept_cases Ho;
  accept_vecs in_vec Hi; accept_vecs vs Ho; cbn [app] in Hv; unfold f; rewrite validate_eq by reflexivity;
  try rewrite (bind_ok _ _ _ _ _ (out_at_run 0 _ s ltac:(rewrite Hv; reflexivity)));
  accept_sizes; eapply quiet_here; quiet_run.

Section Accepts.
Context {C : PsaCrypto} {L : PsaCryptoLaws C} {N : NoProgrammerError C}.
Lemma accepts_open_key : accepts tfm_crypto_open_key [4] [4].
Proof. accept_run tfm_crypto_open_key. Qed.
Lemma accepts_close_key : accepts tfm_crypto_close_key [] [].
Proof. unfold tfm_crypto_close_key. accept_run close_with. Qed.
Lemma accepts_destroy_key : accepts tfm_crypto_destroy_key [] [].
Proof. unfold tfm_crypto_destroy_key. accept_run close_with. Qed.
Lemma accepts_purge_key : accepts tfm_crypto_purge_key [] [].
Proof. unfold tfm_crypto_purge_key. accept_run close_with. Qed.
Lemma accepts_import_key n : accepts tfm_crypto_import_key [24; n] [4].
Proof. accept_run tfm_crypto_import_key. Qed.
Lemma accepts_get_key_attributes : accepts tfm_crypto_get_key_attributes [] [24].
Proof. accept_run tfm_crypto_get_key_attributes. Qed.
Lemma accepts_reset_key_attributes : accepts tfm_crypto_reset_key_attributes [] [24].
Proof. accept_run tfm_crypto_reset_key_attributes. Qed.
Lemma accepts_export_key k : accepts tfm_crypto_export_key [] [k].
Proof. accept_run tfm_crypto_export_key. Qed.
Lemma accepts_export_public_key k : accepts tfm_crypto_export_public_key [] [k].
Proof. accept_run tfm_crypto_export_public_key. Qed.
Lemma accepts_copy_key : accepts tfm_crypto_copy_key [24] [4].
Proof. accept_run tfm_crypto_copy_key. Qed.
Lemma accepts_generate_key : accepts tfm_crypto_generate_key [24] [4].
Proof. accept_run tfm_crypto_generate_key. Qed.
Lemma accepts_hash_setup : accepts tfm_crypto_hash_setup [] [4].
Proof. accept_run tfm_crypto_hash_setup. Qed.
Lemma accepts_hash_abort : accepts tfm_crypto_hash_abort [] [4].
Proof. accept_run tfm_crypto_hash_abort. Qed.
Lemma accepts_hash_clone : accepts tfm_crypto_hash_clone [] [4].
Proof. accept_run tfm_crypto_hash_clone. Qed.
Lemma accepts_mac_abort : accepts tfm_crypto_mac_abort [] [4].
Proof. accept_run tfm_crypto_mac_abort. Qed.
Lemma accepts_cipher_abort : accepts tfm_crypto_cipher_abort [] [4].
Proof. accept_run tfm_crypto_cipher_abort. Qed.
Lemma accepts_key_derivation_setup : accepts tfm_crypto_key_derivation_setup [] [4].
Proof. accept_run tfm_crypto_key_derivation_setup. Qed.
Lemma accepts_key_derivation_abort : accepts tfm_crypto_key_derivation_abort [] [4].
Proof. accept_run tfm_crypto_key_derivation_abort. Qed.
Lemma accepts_key_derivation_get_capacity : accepts tfm_crypto_key_derivation_get_capacity [] [4].
Proof. accept_run tfm_crypto_key_derivation_get_capacity. Qed.
Lemma accepts_mac_sign_setup : accepts tfm_crypto_mac_sign_setup [] [4].
Proof. unfold tfm_crypto_mac_sign_setup. accept_run mac_setup. Qed.
Lemma accepts_mac_verify_setup : accepts tfm_crypto_mac_verify_setup [] [4].
Proof. unfold tfm_crypto_mac_verify_setup. accept_run mac_setup. Qed.
Lemma accepts_cipher_encrypt_setup : accepts tfm_crypto_cipher_encrypt_setup [] [4].
Proof. unfold tfm_crypto_cipher_encrypt_setup. accept_run cipher_setup. Qed.
Lemma accepts_cipher_decrypt_setup : accepts tfm_crypto_cipher_decrypt_setup [] [4].
Proof. unfold tfm_crypto_cipher_decrypt_setup. accept_run cipher_setup. Qed.
Lemma accepts_hash_update n : accepts tfm_crypto_hash_update [n] [4].
Proof. accept_run tfm_crypto_hash_update. Qed.
Lemma accepts_hash_verify n : accepts tfm_crypto_hash_verify [n] [4].
Proof. accept_run tfm_crypto_hash_verify. Qed.
Lemma accepts_mac_update n : accepts tfm_crypto_mac_update [n] [4].
Proof. accept_run tfm_crypto_mac_update. Qed.
Lemma accepts_mac_verify_finish n : accepts tfm_crypto_mac_verify_finish [n] [4].
Proof. accept_run tfm_crypto_mac_verify_finish. Qed.
Lemma accepts_cipher_set_iv n : accepts tfm_crypto_cipher_set_iv [n] [4].
Proof. accept_run tfm_crypto_cipher_set_iv. Qed.
Lemma accepts_hash_finish k : accepts tfm_crypto_hash_finish [] [4; k].
Proof. accept_run tfm_crypto_hash_finish. Qed.
Lemma accepts_mac_sign_finish k : accepts tfm_crypto_mac_sign_finish [] [4; k].
Proof. accept_run tfm_crypto_mac_sign_finish. Qed.
Lemma accepts_cipher_generate_iv k : accepts tfm_crypto_cipher_generate_iv [] [4; k].
Proof. accept_run tfm_crypto_cipher_generate_iv. Qed.
Lemma accepts_cipher_finish k : accepts tfm_crypto_cipher_finish [] [4; k].
Proof. accept_run tfm_crypto_cipher_finish. Qed.
Lemma accepts_cipher_update n k : accepts tfm_crypto_cipher_update [n] [4; k].
Proof. accept_run tfm_crypto_cipher_update. Qed.
Lemma accepts_hash_compute n k : accepts tfm_crypto_hash_compute [n] [k].
Proof. accept_run tfm_crypto_hash_compute. Qed.
Lemma accepts_hash_compare n k : accepts tfm_crypto_hash_compare [n; k] [].
Proof. accept_run tfm_crypto_hash_compare. Qed.
Lemma accepts_sign_hash n k : accepts tfm_crypto_sign_hash [n] [k].
Proof. accept_run tfm_crypto_sign_hash. Qed.
Lemma accepts_verify_hash n k : accepts tfm_crypto_verify_hash [n; k] [].
Proof. accept_run tfm_crypto_verify_hash. Qed.
Lemma accepts_raw_key_agreement n k : accepts tfm_crypto_raw_key_agreement [n] [k].
Proof. accept_run tfm_crypto_raw_key_agreement. Qed.
Lemma accepts_aead_encrypt n l k : (length l <= 1)%nat -> accepts tfm_crypto_aead_encrypt (n :: l) [k].
Proof. intros Hl. destruct l as [|m [|? ?]]; [| |cbn in Hl; lia]; accept_run tfm_crypto_aead_encrypt. Qed.
Lemma accepts_aead_decrypt n l k : (length l <= 1)%nat -> accepts tfm_crypto_aead_decrypt (n :: l) [k].
Proof. intros Hl. destruct l as [|m [|? ?]]; [| |cbn in Hl; lia]; accept_run tfm_crypto_aead_decrypt. Qed.
Lemma accepts_asymmetric_encrypt n l k : (length l <= 1)%nat -> accepts tfm_crypto_asymmetric_encrypt (n :: l) [k].
Proof. intros Hl. destruct l as [|m [|? ?]]; [| |cbn in Hl; lia]; accept_run tfm_crypto_asymmetric_encrypt. Qed.
Lemma accepts_asymmetric_decrypt n l k : (length l <= 1)%nat -> accepts tfm_crypto_asymmetric_decrypt (n :: l) [k].
Proof. intros Hl. destruct l as [|m [|? ?]]; [| |cbn in Hl; lia]; accept_run tfm_crypto_asymmetric_decrypt. Qed.
Lemma accepts_key_derivation_output_bytes k : accepts tfm_crypto_key_derivation_output_bytes [] [k].
Proof. accept_run tfm_crypto_key_derivation_output_bytes. Qed.
Lemma accepts_generate_random k : accepts tfm_crypto_generate_random [] [k].
Proof. accept_run tfm_crypto_generate_random. Qed.
Lemma accepts_key_derivation_input_key : accepts tfm_crypto_key_derivation_input_key [] [].
Proof. accept_run tfm_crypto_key_derivation_input_key. Qed.
Lemma accepts_key_derivation_set_capacity : accepts tfm_crypto_key_derivation_set_capacity [] [].
Proof. accept_run tfm_crypto_key_derivation_set_capacity. Qed.
Lemma accepts_key_derivation_input_bytes n : accepts tfm_crypto_key_derivation_input_bytes [n] [].
Proof. accept_run tfm_crypto_key_derivation_input_bytes. Qed.
Lemma accepts_key_derivation_key_agreement n : accepts tfm_crypto_key_derivation_key_agreement [n] [].
Proof. accept_run tfm_crypto_key_derivation_key_agreement. Qed.
Lemma accepts_key_derivation_output_key : accepts tfm_crypto_key_derivation_output_key [24] [4].
Proof. accept_run tfm_crypto_key_derivation_output_key. Qed.
End Accepts.

(** ** The client library *)
Section Client.
Context {C : PsaCrypto} {L : PsaCryptoLaws C} {N : NoProgrammerError C}.
Local Notation PE := PSA_ERROR_PROGRAMMER_ERROR.

(** In no state of the service the call returns the programming error. *)
Definition agrees {A} (f : crypto_state -> psa_status_t * A * crypto_state) : Prop := forall s, fst (fst (f s)) <> PE.
Definition agrees_status (f : crypto_state -> psa_status_t * crypto_state) : Prop := forall s, fst (f s) <> PE.

(** The service that notes down the status of every request. *)
Definition logged (c : Z) (ins outs : list (list Z)) (w : crypto_state * list psa_status_t) :
    psa_status_t * list outvec * (crypto_state * list psa_status_t) :=
  let '((status, o), s) := service_call c ins outs (fst w) in ((status, o), (s, snd w ++ [status])).
(** A function without a status makes one request, and that is not rejected
    as a programming error in any state of the service. *)
Definition agrees_silent {A} (f : crypto_state * list psa_status_t -> A * (crypto_state * list psa_status_t)) : Prop :=
  forall s, exists status, snd (snd (f (s, []))) = [status] /\ status <> PE.

Lemma dispatch_status {A} c v ins outs (u : A) k s :
  fst (fst (API_DISPATCH connected closed (service_call c) v ins outs u k s)) =
  fst (tfm_crypto_ipc_handler (request c v ins outs) s).
Proof.
  unfold API_DISPATCH, connected, service_call. cbv beta iota. cbn [negb]. fold (sizes outs). fold (request c v ins outs).
  by destruct (tfm_crypto_ipc_handler (request c v ins outs) s).
Qed.

(** What a call must be like: the packed arguments with a nonce in its
    place, and no more vectors than there can be. *)
Definition request_ok (v : tfm_crypto_pack_iovec) (ins outs : list (list Z)) : Prop :=
  length (nonce v) = 16%nat /\ 0 <= sfn_id v < TFM_CRYPTO_SID_MAX /\ (length ins <= 3)%nat /\ (length outs <= 4)%nat.
Definition serving_fn (v : tfm_crypto_pack_iovec) : tfm_crypto_us_t := nth (Z.to_nat (sfn_id v)) sfid_func_table not_supported.

Lemma dispatch_agrees {A} c v ins outs (u : A) k : accepts (serving_fn v) (sizes ins) (sizes outs) -> request_ok v ins outs ->
  agrees (API_DISPATCH connected closed (service_call c) v ins outs u k).
Proof. intros Ha (H1 & H2 & H3 & H4) s. rewrite dispatch_status. by apply (request_accepted c v ins outs (serving_fn v)). Qed.
Lemma no_outvec_agrees c v ins : accepts (serving_fn v) (sizes ins) [] -> request_ok v ins [] ->
  agrees_status (API_DISPATCH_NO_OUTVEC connected closed (service_call c) v ins).
Proof.
  intros Ha Hr s. pose proof (dispatch_agrees c v ins [] tt (fun _ => tt) Ha Hr s) as H. unfold API_DISPATCH_NO_OUTVEC.
  destruct (API_DISPATCH _ _ _ v ins [] tt _ s) as [[st []] s1]. exact H.
Qed.
Lemma reset_attributes_agrees c a :
  agrees_silent (Secure.psa_reset_key_attributes (fun w => (true, w)) (fun w => w) (logged c) a).
Proof.
  intros s. set (v := packed TFM_CRYPTO_RESET_KEY_ATTRIBUTES_SID 0 0 0).
  assert (H : fst (tfm_crypto_ipc_handler (request c v [] [client_attr_bytes a]) s) <> PE)
    by (apply (request_accepted c v _ _ tfm_crypto_reset_key_attributes);
        [done|by vm_compute|done|cbn; lia|cbn; lia|exact accepts_reset_key_attributes]).
  unfold Secure.psa_reset_key_attributes, API_DISPATCH, logged, service_call. fold v. cbv beta iota. cbn [negb fst snd].
  fold (sizes [client_attr_bytes a]). fold (request c v [] [client_attr_bytes a]).
  destruct (tfm_crypto_ipc_handler (request c v [] [client_attr_bytes a]) s) as [st s1]. by exists st.
Qed.
Lemma refuse_agrees {A} e (u : A) : e <> PE -> agrees (refuse e u).
Proof. by intros H s. Qed.

Lemma nonce_fits o n (v : tfm_crypto_pack_iovec) : length (nonce v) = 16%nat -> n <= 16 ->
  length (nonce (with_nonce o n v)) = 16%nat.
Proof.
  intros Hv Hn. destruct o as [l|]; [|done]. cbn. rewrite length_splice; [done|lia|]. rewrite length_firstn. lia.
Qed.
End Client.

Create HintDb accepts.
#[export] Hint Resolve accepts_open_key accepts_close_key accepts_destroy_key accepts_purge_key
  accepts_import_key accepts_get_key_attributes accepts_reset_key_attributes accepts_export_key
  accepts_export_public_key accepts_copy_key accepts_generate_key accepts_hash_setup accepts_hash_abort
  accepts_hash_clone accepts_mac_abort accepts_cipher_abort accepts_key_derivation_setup
  accepts_key_derivation_abort accepts_key_derivation_get_capacity accepts_mac_sign_setup
  accepts_mac_verify_setup accepts_cipher_encrypt_setup accepts_cipher_decrypt_setup accepts_hash_update
  accepts_hash_verify accepts_mac_update accepts_mac_verify_finish accepts_cipher_set_iv accepts_hash_finish
  accepts_mac_sign_finish accepts_cipher_generate_iv accepts_cipher_finish accepts_cipher_update
  accepts_hash_compute accepts_hash_compare accepts_sign_hash accepts_verify_hash accepts_raw_key_agreement
  accepts_aead_encrypt accepts_aead_decrypt accepts_asymmetric_encrypt accepts_asymmetric_decrypt
  accepts_key_derivation_output_bytes accepts_generate_random accepts_key_derivation_input_key
  accepts_key_derivation_set_capacity accepts_key_derivation_input_bytes accepts_key_derivation_key_agreement
  accepts_key_derivation_output_key : accepts.

(** Finds the function that serves a request, and the lemma for it. *)
Ltac accept_auto :=
  lazymatch goal with
  | |- accepts (serving_fn ?v) ?i ?o =>
      let n := eval vm_compute in (Z.to_nat (sfn_id v)) in
      let f := eval cbv [nth sfid_func_table] in (nth n sfid_func_table CryptoOps.not_supported) in
      change (accepts f i o); cbn [sizes map]; auto with accepts
  end.
Ltac request_auto := split; [reflexivity|split; [by vm_compute|split; cbn; lia]].
Ltac agree_auto :=
  intros; first [apply dispatch_agrees|apply no_outvec_agrees]; [accept_auto|request_auto].

Section Agreement.
Context {C : PsaCrypto} {L : PsaCryptoLaws C} {N : NoProgrammerError C} (c : Z).
Local Notation api f := (f connected closed (service_call c)).

Lemma clone_agrees source target : agrees (api Secure.psa_hash_clone source target).
Proof. unfold Secure.psa_hash_clone. destruct (negb _); [by apply refuse_agrees|agree_auto]. Qed.
Lemma random_agrees output : agrees (api Secure.psa_generate_random output).
Proof. unfold Secure.psa_generate_random. destruct (_ =? 0); [by apply refuse_agrees|agree_auto]. Qed.

Lemma aead_encrypt_agrees key alg nonce n ad m input output k : agrees (api Secure.psa_aead_encrypt key alg nonce n ad m input output k).
Proof.
  unfold Secure.psa_aead_encrypt. destruct (_ && _); [by apply refuse_agrees|].
  destruct (Z.gtb_spec n (Z.of_nat TFM_CRYPTO_MAX_NONCE_LENGTH)) as [|Hn]; [by apply refuse_agrees|].
  assert (Hf : serving_fn (with_nonce nonce n (packed TFM_CRYPTO_AEAD_ENCRYPT_SID key alg 0)) = tfm_crypto_aead_encrypt) by (by destruct nonce).
  apply dispatch_agrees.
  - rewrite Hf. apply accepts_aead_encrypt. destruct ad; cbn; lia.
  - split; [by apply nonce_fits|]. destruct nonce, ad; (split; [by vm_compute|split; cbn; lia]).
Qed.
Lemma aead_decrypt_agrees key alg nonce n ad m input output k : agrees (api Secure.psa_aead_decrypt key alg nonce n ad m input output k).
Proof.
  unfold Secure.psa_aead_decrypt. destruct (_ && _); [by apply refuse_agrees|].
  destruct (Z.gtb_spec n (Z.of_nat TFM_CRYPTO_MAX_NONCE_LENGTH)) as [|Hn]; [by apply refuse_agrees|].
  assert (Hf : serving_fn (with_nonce nonce n (packed TFM_CRYPTO_AEAD_DECRYPT_SID key alg 0)) = tfm_crypto_aead_decrypt) by (by destruct nonce).
  apply dispatch_agrees.
  - rewrite Hf. apply accepts_aead_decrypt. destruct ad; cbn; lia.
  - split; [by apply nonce_fits|]. destruct nonce, ad; (split; [by vm_compute|split; cbn; lia]).
Qed.
Lemma asymmetric_encrypt_agrees key alg input salt m output n : agrees (api Secure.psa_asymmetric_encrypt key alg input salt m output n).
Proof.
  unfold Secure.psa_asymmetric_encrypt. destruct (_ && _); [by apply refuse_agrees|].
  apply dispatch_agrees; [|destruct salt; request_auto].
  change (accepts tfm_crypto_asymmetric_encrypt (Z.of_nat (length input) :: sizes (bytes_of salt)) [Z.of_nat (length output)]).
  apply accepts_asymmetric_encrypt. destruct salt; cbn; lia.
Qed.
Lemma asymmetric_decrypt_agrees key alg input salt m output n : agrees (api Secure.psa_asymmetric_decrypt key alg input salt m output n).
Proof.
  unfold Secure.psa_asymmetric_decrypt. destruct (_ && _); [by apply refuse_agrees|].
  apply dispatch_agrees; [|destruct salt; request_auto].
  change (accepts tfm_crypto_asymmetric_decrypt (Z.of_nat (length input) :: sizes (bytes_of salt)) [Z.of_nat (length output)]).
  apply accepts_asymmetric_decrypt. destruct salt; cbn; lia.
Qed.

(** C33: the client library and the service agree on the shape of requests.
    Whatever the arguments, and whatever the state of the service, no function
    of the client library makes a request that the service rejects as a
    programming error: the number and the sizes of the vectors pass the checks
    of the function that serves the request. psa_reset_key_attributes gives no
    status: the one request it makes is answered with another status. The key
    agreement of secure partitions is not among them: see
    [secure_key_agreement_rejected]. *)
Theorem crypto_client_agrees :
  (forall id key, agrees (api Secure.psa_open_key id key)) /\
  (forall key, agrees_status (api Secure.psa_close_key key)) /\
  (forall key, agrees_status (api Secure.psa_destroy_key key)) /\
  (forall key, agrees_status (api Secure.psa_purge_key key)) /\
  (forall a data key, agrees (api Secure.psa_import_key a data key)) /\
  (forall key a, agrees (api Secure.psa_get_key_attributes key a)) /\
  (forall key data n, agrees (api Secure.psa_export_key key data n)) /\
  (forall key data n, agrees (api Secure.psa_export_public_key key data n)) /\
  (forall key a target, agrees (api Secure.psa_copy_key key a target)) /\
  (forall a key, agrees (api Secure.psa_generate_key a key)) /\
  (forall op iv n, agrees (api Secure.psa_cipher_generate_iv op iv n)) /\
  (forall op iv, agrees (api Secure.psa_cipher_set_iv op iv)) /\
  (forall op key alg, agrees (api Secure.psa_cipher_encrypt_setup op key alg)) /\
  (forall op key alg, agrees (api Secure.psa_cipher_decrypt_setup op key alg)) /\
  (forall op key alg, agrees (api Secure.psa_mac_sign_setup op key alg)) /\
  (forall op key alg, agrees (api Secure.psa_mac_verify_setup op key alg)) /\
  (forall op input output n, agrees (api Secure.psa_cipher_update op input output n)) /\
  (forall op output n, agrees (api Secure.psa_cipher_finish op output n)) /\
  (forall op, agrees (api Secure.psa_cipher_abort op)) /\
  (forall op, agrees (api Secure.psa_hash_abort op)) /\
  (forall op, agrees (api Secure.psa_mac_abort op)) /\
  (forall op, agrees (api Secure.psa_key_derivation_abort op)) /\
  (forall op alg, agrees (api Secure.psa_hash_setup op alg)) /\
  (forall op input, agrees (api Secure.psa_hash_update op input)) /\
  (forall op input, agrees (api Secure.psa_hash_verify op input)) /\
  (forall op input, agrees (api Secure.psa_mac_update op input)) /\
  (forall op input, agrees (api Secure.psa_mac_verify_finish op input)) /\
  (forall op output n, agrees (api Secure.psa_hash_finish op output n)) /\
  (forall op output n, agrees (api Secure.psa_mac_sign_finish op output n)) /\
  (forall source target, agrees (api Secure.psa_hash_clone source target)) /\
  (forall alg input hash n, agrees (api Secure.psa_hash_compute alg input hash n)) /\
  (forall alg input hash, agrees_status (api Secure.psa_hash_compare alg input hash)) /\
  (forall key alg nonce n ad m input output k, agrees (api Secure.psa_aead_encrypt key alg nonce n ad m input output k)) /\
  (forall key alg nonce n ad m input output k, agrees (api Secure.psa_aead_decrypt key alg nonce n ad m input output k)) /\
  (forall key alg hash sig n, agrees (api Secure.psa_sign_hash key alg hash sig n)) /\
  (forall key alg hash sig, agrees_status (api Secure.psa_verify_hash key alg hash sig)) /\
  (forall key alg input salt m output n, agrees (api Secure.psa_asymmetric_encrypt key alg input salt m output n)) /\
  (forall key alg input salt m output n, agrees (api Secure.psa_asymmetric_decrypt key alg input salt m output n)) /\
  (forall op alg, agrees (api Secure.psa_key_derivation_setup op alg)) /\
  (forall op n, agrees (api Secure.psa_key_derivation_get_capacity op n)) /\
  (forall op n, agrees_status (api Secure.psa_key_derivation_set_capacity op n)) /\
  (forall op step data, agrees_status (api Secure.psa_key_derivation_input_bytes op step data)) /\
  (forall op step key, agrees_status (api Secure.psa_key_derivation_input_key op step key)) /\
  (forall op output, agrees (api Secure.psa_key_derivation_output_bytes op output)) /\
  (forall a op key, agrees (api Secure.psa_key_derivation_output_key a op key)) /\
  (forall alg key peer output n, agrees (api Secure.psa_raw_key_agreement alg key peer output n)) /\
  (forall output, agrees (api Secure.psa_generate_random output)) /\
  (forall op step key peer, agrees_status (api NonSecure.psa_key_derivation_key_agreement op step key peer)) /\
  (forall a, agrees_silent (Secure.psa_reset_key_attributes (fun w => (true, w)) (fun w => w) (logged c) a)) /\
  agrees_status Secure.psa_crypto_init.
Proof.
  repeat split; first [agree_auto | apply reset_attributes_agrees | by intros s | apply clone_agrees | apply random_agrees | apply aead_encrypt_agrees
    | apply aead_decrypt_agrees | apply asymmetric_encrypt_agrees | apply asymmetric_decrypt_agrees].
Qed.


End Agreement.

(** ** On the library of [CryptoTheorems.Toy] *)
#[local] Existing Instance Toy.library.
#[local] Existing Instance Toy.laws.
#[local] Instance toy_no_programmer_error : NoProgrammerError Toy.library.
Proof.
  split; try done. intros f c e. destruct f; cbn; try done; destruct c as [|? [|? [|? ?]]]; cbn; try done.
  by destruct (2 <=? hash_size).
Qed.

Lemma crypto_client_agrees_witness : fst (Secure.psa_close_key connected closed (service_call 7) 1 (crypto_start Toy.no_keys)) <>
  PSA_ERROR_PROGRAMMER_ERROR.
Proof.
  destruct (crypto_client_agrees 7) as (_ & H & _). exact (H 1 (crypto_start Toy.no_keys)).
Defined.

